(* ===== verification/_CoqProject ===== *)
-Q . S2P
Prelude.v
Domain.v
Code.v
Codec.v
WireRegistry.v
WireAuth.v
WireTerminal.v
WireEnterprise.v
WireFileTransfer.v
TransferSession.v
Session.v
Resource.v
Registry.v
EnterpriseSession.v
Path.v
Limiters.v
Diagnostic.v
Layout.v
WireAudit.v
AuditCodecs.v
AuditSigning.v
AuditContainer.v
ContainerCodecs.v
AuditWriter.v
Programs.v
Provider.v
CallbackSession.v
EnterpriseResolve.v
EnterpriseFlow.v
FlowSafety.v
FlowExample.v
Callback.v
Connections.v
Selection.v
RelayOwner.v
RelaySafety.v
Stateful.v
AuditEvents.v
AuditSession.v
AuditNormalize.v
ChainVerifier.v
AuditTrace.v
AuditSimulation.v
AuditControlSim.v
AuditPointSim.v
AuditCloseSim.v
AuditRun.v
AuditIdentity.v
AuditExample.v
FileVerifier.v
FileDigests.v
FileWalk.v
VerifierSteps.v
FileRun.v
FinishedFile.v
PairVerifier.v
PairAgreement.v
FileExample.v
LocalLedger.v
LedgerRecovery.v
LedgerSafety.v
LedgerAnchor.v
LedgerExample.v
Replay.v
ReplaySafety.v
ReplayRun.v
ReplayExample.v
RelayClient.v
EnterpriseReader.v
RelayClientSafety.v
EnterpriseDialogue.v
DialogueExample.v
Utf8.v
TerminalOutput.v
LocalControl.v
PathPrompt.v
TransferUi.v
TransferPump.v
TransferUiSafety.v
TransferPumpSafety.v
