(* ===== verification/Prelude.v ===== *)
(** * Yonder: a verification library

    Yonder connects a controller to a host through a self-hosted relay.  The host registers
    with the relay under a 20-bit locator and shows its user a one-time connection code
    (the locator and a 60-bit secret); the controller asks the relay to resolve the
    locator, authenticates to the host with the secret (OPAQUE), picks the best of the
    connections it has, and runs a terminal and file transfers over it.  In enterprise mode the
    relay resolves a locator only after the controller's user was admitted by the configured
    identity provider, and both sides record the session: they exchange signed audit messages
    and each writes a record file that closes with a joint manifest and a ledger commit.

    ** Parts and files

    - [Prelude] (this file): the result type [res] of fallible Rust code ([Ok], [Err], or
      [Panic] for an arithmetic overflow, an index out of range, an [expect] or an assertion),
      machine integers as [Z] with their ranges and conversions, big-endian digits, byte
      buffers with the Rust slice operations, UTF-8, the tactics and hint databases the
      other files share.
    - [Domain]: [error.rs], [domain.rs], [time.rs], [random.rs], [enterprise.rs], the locator of
      [code.rs] and [WireBytes] of [wire/mod.rs] (all of [crates/yonder-core/src]).
    - [Code]: the secret, the printed form and the parser of connection codes ([code.rs]).
    - [Codec]: the interface of a bounded canonical codec, as a class with its laws and the
      theorems a caller gets from them; the [Wire] files discharge it.
    - [WireRegistry], [WireAuth], [WireTerminal], [WireEnterprise], [WireFileTransfer]: the
      messages of [wire/registry.rs], [wire/resolve.rs], [wire/auth.rs], [wire/terminal.rs],
      [wire/enterprise.rs] and [wire/file_transfer.rs], with the path and file-name validators
      of the latter.
    - [TransferSession]: the [WireSession] state machine of [wire/file_transfer.rs], and [Link],
      two of them over two FIFO streams.
    - [Session]: [TargetSession] ([session.rs]) and [ConnectionRoster] ([roster.rs]).
    - [Resource]: the validated limits of [resource.rs] and the rate of [rate.rs].
    - [Registry]: the relay's locator table ([Registry] of [crates/yon-relay/src/registry.rs]).
    - [Limiters]: the admission control in front of it ([ResolveLimiters], same file).
    - [EnterpriseSession]: the single-use authentication session of
      [crates/yon-relay/src/session.rs].
    - [Path]: ping statistics and the ranking of candidate connections
      ([crates/yonder-net/src/path.rs]).
    - [Diagnostic]: the error report of [diagnostic.rs].
    - [Layout]: the write cursor of the audit formats and the general theory of fixed layouts
      (a message as a list of fields of fixed sizes), with the class of wire enumerations.
    - [WireAudit]: the audit protocol of [wire/audit.rs]; [AuditCodecs] proves its codecs and
      [AuditSigning] what its signatures bind.
    - [AuditContainer]: the record file format of [wire/audit_container.rs], its header, record
      frames, footer and reader; [ContainerCodecs] proves them.
    - [AuditWriter]: the task that writes a record file ([crates/yon/src/audit/writer.rs]), with
      the [AuditError] of [audit/session.rs].
    - [Programs]: programs over effects (a free monad whose answers depend on the effect) and
      protocols they follow, for the asynchronous tasks below.
    - [Provider]: provider credentials, the token cache, the callback URL and the authorization
      URLs ([provider.rs], [enterprise.rs] of [crates/yon-relay/src]).
    - [CallbackSession] ([callback_session.rs]) and [EnterpriseResolve] ([enterprise_resolve.rs]):
      the callback registry, the browser's callback handler and the exchange that serves one
      enterprise substream, as programs; [EnterpriseFlow] runs any number of both with the owner
      in any order; [FlowSafety] proves what every run guarantees, [FlowExample] is one run.
    - [Callback]: the callback's query string and its dispatch ([callback.rs]).
    - [Connections]: source prefixes, the connection book and the selection window
      ([crates/yonder-net/src/connection.rs]); [Selection] proves the window.
    - [RelayOwner]: the event loop of [run_relay_until] with its handlers ([service.rs]) and the
      start admission of [enterprise_resolve.rs], over the registry, the limiters, the connection
      book and the callback registry; [RelaySafety] proves it.
    - [Stateful]: a monad of state and results, where an error keeps the state it was raised in.
    - [AuditEvents] and [AuditSession]: the session's side of a record
      ([crates/yon/src/audit/session.rs]): constants, record batches, the stream normalizer, the
      two kinds of hash chains, the handshake, every recording operation, checkpoints, manifests
      and the footer; [AuditNormalize] proves the normalizer.
    - [ChainVerifier]: the verifier's walk over the records of one file
      ([crates/yon/src/audit/verify.rs]).
    - [AuditTrace], [AuditSimulation], [AuditControlSim], [AuditPointSim], [AuditCloseSim]: the
      simulation between the two, record by record and operation by operation; [AuditRun] puts
      them together over sequences of the observer's operations ([audit/observer.rs]), and
      [AuditExample] is one run.
    - [AuditIdentity]: the persistent audit identity ([audit/identity.rs]) as the session's
      [PersistentIdentity].
    - [FileVerifier]: the verifier of one record file ([walk_file] of [audit/verify.rs]: frame
      walker, header bindings, footer, manifest evidence); [FileDigests] proves its digest pass,
      [FileWalk] its walk, [VerifierSteps] what accepted records say; [FileRun] and [FinishedFile]
      compose the session, the writer and the verifier.
    - [PairVerifier]: the comparison of two files, the anchor in the ledger and the reports (same
      file); [PairAgreement] proves it, [FileExample] is a pair of sessions with their files.
    - [LocalLedger]: the audit directory, the lock, the identity file and the ledger
      ([audit/ledger.rs], [audit/identity.rs]) over a [Disk] and an environment in which every
      call may fail, with the ledger adapter of [audit/observer.rs]; [LedgerRecovery] proves
      recovery, [LedgerSafety] the ledger under crashes of any number of processes,
      [LedgerAnchor] that the verifier finds what was committed; [LedgerExample] is one crash.
    - [Replay]: the replay of the recorded display ([audit/replay.rs]) and [stream_frames] of
      [audit/verify.rs]; [ReplaySafety] is about what reaches the user's terminal, [ReplayRun]
      about what a replay reports, [ReplayExample] evaluates both.
    - [RelayClient]: the endpoint's side of the relay protocols ([crates/yon/src/protocol.rs])
      and the provider prompt of [controller.rs], as programs; [RelayClientSafety] proves what
      they ask of a relay, [EnterpriseReader] how they read its messages; [EnterpriseDialogue]
      runs them against [EnterpriseResolve] over a byte stream, [DialogueExample] is one run.
    - [Utf8]: the validation, the lossy decoding and the characters of UTF-8 byte strings, as
      Rust's standard library defines them.
    - [TerminalOutput]: the adapter between the remote display and the local terminal
      ([RemoteTerminalOutput] of [controller.rs]).
    - [LocalControl]: the machine that cuts local input into remote bytes and local commands
      ([local_control.rs]); [PathPrompt]: the line editor of a file transfer and the buffer that
      delays remote output behind it ([transfer_prompt.rs]).
    - [TransferUi]: the transfer interaction of [controller.rs] (starting a modal line, feeding it,
      confirming, running a transfer and handling its outcome), over the state of a
      terminal session; [TransferPump]: the loop that drives it (the arms of the session's
      [select!] for input, output, transfers and completed local steps).
      [TransferUiSafety] and [TransferPumpSafety] prove them; the latter ends with runs.

    Each Rust type is a module with a record or inductive type [t] and one definition per
    method, under the method's name; a struct that changes is passed and returned.  Operations
    that fail after they changed something return the result beside the new state (the registry
    has a monad [M] for that).  Bytes, strings and arrays are [list Z]; a fixed Rust array is a
    list of that length; durations and clock readings are nanoseconds in [Z]; hash maps and
    sets are [gmap] and [gset].

    ** What is assumed of code that is not in the repository

    Each such part is a class the definitions take as a parameter, with its documented
    behaviour as a class of laws and an instance that satisfies them: the random source
    ([SecureRandom], [FixedRandom]), the base-32 codec of the data-encoding crate
    ([DataEncoding], [reference_base32]), the governor crate's limiters ([Governor], a GCRA),
    libp2p's peer ids ([PeerIdApi]: equality and a serialisation of 1 to 64 bytes; [PeerIdParse]),
    the url crate ([UrlApi]; the two fixed provider endpoints parse, [UrlLaws], and a URL's text is
    UTF-8, [UrlText]) and URL-safe Base64
    ([Base64Url], [reference_base64]), and SHA-256, HMAC, HKDF and Ed25519 ([AuditCrypto]: output
    sizes, and that a signature of the key verifies, [AuditCryptoLaws]; nothing else is assumed of
    them).  The persistent identity and the ledger of an audit session are the source's own traits.
    Connection and listener ids are any countable types.  What
    an identity provider answers, what streams and channels deliver and when timers fire is
    unconstrained.  SHA-256
    is a function argument of [AuditWriter] whose only assumed property is its 32-byte output,
    and the record file is the source's own trait [AsyncFile], under the laws of an append-only
    file that may stop half way through a failing write.  A file that is verified is what
    [RecordFiles] says it holds, with reads of any size; the audit directory of the ledger is a
    [Disk] whose renames are atomic, and [Env] says which call fails how.  The virtual terminal
    of the vt100 crate is the class [Vt100], of which only the sizes are assumed anything.

    ** What the theorems show

    - Codecs: every message encodes within the bound its reader uses, decodes to itself, no
      two byte strings decode to the same message, and no input makes a decoder panic; a transfer frame's
      header alone decides tag and length; the PAKE context is injective; a received file name
      stays inside the directory it is joined to.
    - Connection codes: printing and parsing are inverse, the parser is total with one reason
      per rejection, generated codes are valid.
    - Transfers: over every interleaving of sends, receptions, failures and closings, a sender
      that sees the commit sent exactly the blocks the receiver accepted; and a run that commits exists.
    - Target sessions are one-shot; rosters are bounded sets.
    - Registry: an invariant over every sequence of calls (indexes inverse to the table, limits,
      [Active] exactly when reserved and connected), each operation against the table alone,
      freedom from panics, and termination of the allocation loop.
    - Limiters: a validated policy never refuses a source for lack of table space while the two
      clocks that a request reads agree up to the policy's slack ([resolve_table_never_full]); one
      nanosecond more can fill the table ([lag_fills_table]).
    - Enterprise sessions: a target is released only along the one path that ends in an
      admitted member, secrets live only while authenticating, states are single-use.
    - Enterprise flow, over every interleaving of exchanges, callbacks and the owner: a target is
      written only after the provider confirmed a member for the callback that carried the
      exchange's own state and the owner committed it before that callback's deadline and before
      any cancellation ([enterprise_disclosure]), transactions are handed out once and never
      left behind, and cancellation and commitment agree.
    - Callback queries: the scan of escapes terminates and equals its recursive definition, and
      the parser accepts exactly the queries with one state and one outcome.
    - Connections: the book refines the map of live connections; the selection window stays
      within its bounds and its winner, losers and direct choice are sound.
    - The relay's owner: over every sequence of events no arm panics, the registry follows the
      swarm, a target is disclosed only while it is connected and reserved, registry access is
      exclusive, and the quarantine of refused peers works and does not leak.
    - Path: the winner is optimal and order-independent for evidence of one kind; with mixed
      evidence the ranking has cycles ([path_ranking_cycle]).
    - Audit: frames and containers are canonical codecs; a signed string determines the kind and
      the contents of the message; the container reader ends on every input and accepts only
      what a writer can have written; the record file is at every moment the log of the
      acknowledged requests, and a finished one is read back with the digests the writer
      reported ([audit_writer_reader]); the commit is also accepted without a seal
      ([audit_commit_without_seal]).
    - Audit sessions: the normalizer cuts a stream into the same blocks however it arrives in
      segments ([normalizer_canonical]), and whatever the session records, in any order of
      successful operations, the verifier accepts, ending with the session's own chains
      ([session_verifies]).
    - Record files: the file of a session is accepted whether it was interrupted after a batch
      ([interrupted_file_verifies]) or finished ([finished_file_verifies]); a pair that the
      verifier reports complete, or matched up to a checkpoint, holds the same shared events
      ([complete_pair_agrees], [interrupted_pair_agrees]), up to a collision of SHA-256 between
      two strings that the chains of these files hash; a record that was cut off late, and a
      batch that was cut between its records, are misreported
      ([truncated_record_misreported], [mid_batch_cut_misreported]).
    - The ledger: recovery is a function of the set of complete records ([recovery_exact]); over
      every interleaving of processes, failing calls and crashes the commits are one chain
      ([ledger_linear]), the next opening finds its end ([ledger_recovers]), and the verifier
      anchors what it holds ([committed_record_anchored], where every file that ends in a footer
      is a committed record); a first run that fails while it writes
      the identity cannot be retried ([failed_identity_write]).
    - Replay: whatever was recorded and whatever the virtual terminal makes of it, what reaches
      the user's terminal is a fixed set of commands with text free of control characters
      ([replay_output_safe]); a verified file is replayed to its end, with exactly the bytes that
      were displayed ([verified_file_replays]).
    - The relay client: its registry calls are bounded and exact ([registry_calls_bounded]),
      resolving stays within its access mode and budget and opens a browser at most once
      ([resolve_within_mode]), and both ends of an enterprise substream understand each other
      under every interleaving and failure ([enterprise_dialogue]).
    - The terminal session of a controller: what the display adapter writes is the decoding of
      the whole stream, however it is cut ([terminal_output_decodes]); local input is split into
      forwarded bytes and commands as a reference over the whole input does, and input during a
      file operation is not forwarded ([local_input_routing]); a path line stays valid and within
      its bound, and a path of the protocol that is typed is submitted exactly
      ([path_prompt_edits]).  Over every sequence of events and failures, remote output
      is displayed in order, held back only while a prompt is open, and none is lost while it fits
      in the delay buffer; for ASCII input and probes that find the protocol supported the loop never
      panics ([pump_session]).  The last lemmas of [TransferPumpSafety] are runs outside these hypotheses
      that panic, and runs that lose a keystroke, a cancellation or an exit code.

    ** Bounds and fuel

    Some loops take fuel.  [Registry.probe], the allocation loop, gets one more
    step than the table has entries, and [probe_total] shows by a pigeonhole argument on the
    20-bit ring that it then finds a free locator, since a validated capacity is at most 320.
    [Diagnostic.write_causes] is the source's own bounded loop, with its own constant.
    [Callback.percent_loop] gets one step more than the query has bytes, and
    [percent_encoding_exact] shows that this is enough.
    [ContainerCodecs.read_frames] is the loop a caller of the container reader runs; every frame
    has at least five bytes, so one step more than the file's length is enough, and
    [container_reader_strict] shows that it never runs out.  The loops over a file in
    [FileVerifier], [PairVerifier] and [Replay] get the same: [walk_records] and [stream_loop]
    one step per byte ([walk_records_total], [stream_loop_total]), the digest passes two more, since a read returns
    at least one byte ([digest_loop_spec], [anchor_loop_spec]).  The retry loops of [RelayClient]
    take the number of attempts that fit the budget, and never run out of it, as
    [resolve_within_mode] includes that nothing panics.  [walk_back], [lock_attempts] and
    the scan of the ledger's directory are bounded by the source's own constants.  The scans of
    [Utf8] and [TerminalOutput] get one step per byte; [TransferPump.settle] gets six rounds, since
    every round but the last consumes one of the waiting results, and [pump_session] includes that
    it does not run out.

    ** What is not modelled

    Sockets, libp2p's swarm, TLS, the PTY, terminals and the process entry
    points are I/O around the parts above; of the audit writer, the creation of the file and the
    handle's channel and timeouts; of the verifier, the platform's choice of the anchor; of the
    identity, the Windows directory; of the relay, start-up and shutdown, the callback's HTTPS
    server, the reading of secret files and the HTTP exchanges with the identity providers; of the
    controller, connecting and authenticating, resizes, the audit exchange and the closing phase of
    the terminal session (in [TransferPump] the owners of these are one flag that events set and
    clear), and the progress display.  Also not modelled are the host's service, the event pump
    of an endpoint, the orchestrators that move file blocks ([crates/yon/src/transfer.rs]) and the
    platform's file semantics, the observer's frame exchange ([crates/yon/src/audit/observer.rs]), relay
    addresses ([crates/yonder-net/src/address.rs]), the configuration files and the PAKE
    adapter. *)

From Stdlib Require Export ZArith Lia Bool.
From stdpp Require Export base tactics list numbers option relations.
From stdpp Require Import decidable.
From Stdlib Require Strings.Ascii Strings.String.

Open Scope Z_scope.

(** ** Results

    Rust's [Result<A, E>] with one more outcome: [Panic] stands for every way the
    source can abort the process instead of returning (an index or slice out of
    range, [expect] on an [Err], a [copy_from_slice] between unequal lengths).
    Theorems of the form "the result is never [Panic]" are therefore real bounds
    theorems about the code. *)

Inductive res (E A : Type) : Type :=
| Ok (a : A)
| Err (e : E)
| Panic.

Arguments Ok {E A} a.
Arguments Err {E A} e.
Arguments Panic {E A}.

#[export] Instance res_ret {E} : MRet (res E) := fun A a => Ok a.

#[export] Instance res_bind {E} : MBind (res E) :=
  fun A B f m => match m with Ok a => f a | Err e => Err e | Panic => Panic end.

#[export] Instance res_fmap {E} : FMap (res E) :=
  fun A B f m => match m with Ok a => Ok (f a) | Err e => Err e | Panic => Panic end.

#[export] Instance res_eq_dec {E A} `{EqDecision E} `{EqDecision A} : EqDecision (res E A).
Proof. solve_decision. Defined.

(** [Result::map_err]. *)
Definition map_err {E F A} (f : E -> F) (m : res E A) : res F A :=
  match m with Ok a => Ok a | Err e => Err (f e) | Panic => Panic end.

(** [Option::ok_or]. *)
Definition ok_or {E A} (o : option A) (e : E) : res E A :=
  match o with Some a => Ok a | None => Err e end.

(** [Result::expect]: an [Err] becomes a panic. *)
Definition expect {E F A} (m : res E A) : res F A :=
  match m with Ok a => Ok a | Err _ => Panic | Panic => Panic end.

(** [Option::expect]. *)
Definition expect_some {F A} (o : option A) : res F A :=
  match o with Some a => Ok a | None => Panic end.

Definition is_ok {E A} (m : res E A) : bool :=
  match m with Ok _ => true | _ => false end.

(** [debug_assert!] (and any other check whose failure aborts). *)
Definition assert_or_panic {E} (b : bool) : res E unit :=
  if b then Ok tt else Panic.

Lemma res_bind_ok {E A B} (m : res E A) (f : A -> res E B) b :
  m ≫= f = Ok b <-> exists a, m = Ok a /\ f a = Ok b.
Proof. destruct m; split; naive_solver. Qed.

Lemma map_err_ok {E F A} (f : E -> F) (m : res E A) a :
  map_err f m = Ok a <-> m = Ok a.
Proof. destruct m; naive_solver. Qed.

Lemma fmap_res_ok {E A B} (f : A -> B) (m : res E A) b :
  f <$> m = Ok b <-> exists a, m = Ok a /\ b = f a.
Proof. destruct m; naive_solver. Qed.

Lemma ok_or_ok {E A} (o : option A) (e : E) a : ok_or o e = Ok a <-> o = Some a.
Proof. destruct o; naive_solver. Qed.

Lemma map_err_no_panic {E F A} (f : E -> F) (m : res E A) :
  m <> Panic -> map_err f m <> Panic.
Proof. destruct m; naive_solver. Qed.

Lemma fmap_no_panic {E A B} (f : A -> B) (m : res E A) : m <> Panic -> f <$> m <> Panic.
Proof. destruct m; naive_solver. Qed.

Lemma bind_no_panic {E A B} (m : res E A) (f : A -> res E B) :
  m <> Panic -> (forall a, m = Ok a -> f a <> Panic) -> m ≫= f <> Panic.
Proof. destruct m; naive_solver. Qed.

Lemma ok_or_no_panic {E A} (o : option A) (e : E) : ok_or o e <> Panic.
Proof. by destruct o. Qed.

Create HintDb yon.
#[export] Hint Resolve map_err_no_panic fmap_no_panic bind_no_panic ok_or_no_panic : yon.

(** ** Machine integers

    Every Rust integer is a [Z]; its width is a predicate, and a narrowing cast
    ([as u8], ...) is the reduction modulo the width. *)

Definition is_u8 (z : Z) : Prop := 0 <= z < 2 ^ 8.
Definition is_u16 (z : Z) : Prop := 0 <= z < 2 ^ 16.
Definition is_u32 (z : Z) : Prop := 0 <= z < 2 ^ 32.
Definition is_u64 (z : Z) : Prop := 0 <= z < 2 ^ 64.

Definition as_u8 (z : Z) : Z := z mod 2 ^ 8.
Definition as_u16 (z : Z) : Z := z mod 2 ^ 16.
Definition as_u32 (z : Z) : Z := z mod 2 ^ 32.
Definition as_u64 (z : Z) : Z := z mod 2 ^ 64.

Lemma as_u8_small z : 0 <= z < 2 ^ 8 -> as_u8 z = z.
Proof. apply Z.mod_small. Qed.
Lemma as_u16_small z : 0 <= z < 2 ^ 16 -> as_u16 z = z.
Proof. apply Z.mod_small. Qed.

Lemma as_u32_small z : 0 <= z < 2 ^ 32 -> as_u32 z = z.
Proof. apply Z.mod_small. Qed.

Definition checked_add_u64 (a b : Z) : option Z :=
  if a + b <? 2 ^ 64 then Some (a + b) else None.
Definition checked_mul_u64 (a b : Z) : option Z :=
  if a * b <? 2 ^ 64 then Some (a * b) else None.

Lemma checked_add_u64_some a b : a + b < 2 ^ 64 -> checked_add_u64 a b = Some (a + b).
Proof. intros. unfold checked_add_u64. by rewrite (proj2 (Z.ltb_lt _ _)). Qed.

(** A byte string. *)
Abbreviation bytes := (Forall is_u8).

(** A predicate on one byte is decided by evaluating it on all 256 of them. *)
Lemma byte_forallb (P : Z -> bool) :
  forallb P (seqZ 0 256) = true -> forall b, is_u8 b -> P b = true.
Proof.
  intros H b Hb. rewrite forallb_forall in H. apply H, list_elem_of_In, elem_of_seqZ.
  unfold is_u8 in Hb. lia.
Qed.

(** ** Fixed-base digit strings

    [digits_be base n z] are the [n] least significant digits of [z], most
    significant first; [of_digits_be] reads them back.  With base 256 they are
    Rust's [to_be_bytes] and [from_be_bytes]; with base 32 they are the symbols
    of a connection code. *)

Fixpoint digits_be (base : Z) (n : nat) (z : Z) : list Z :=
  match n with
  | O => []
  | S n' => digits_be base n' (z / base) ++ [z mod base]
  end.

Definition of_digits_be (base : Z) (ds : list Z) : Z :=
  foldl (fun acc d => acc * base + d) 0 ds.

Abbreviation to_be_bytes := (digits_be 256).
Abbreviation from_be_bytes := (of_digits_be 256).

Section Digits.
Context (base : Z) (Hbase : 1 < base).

Lemma length_digits_be n z : length (digits_be base n z) = n.
Proof. revert z; induction n; intros z; simpl; [done|]. rewrite length_app, IHn. simpl; lia. Qed.

Lemma digits_be_range n z : Forall (fun d => 0 <= d < base) (digits_be base n z).
Proof.
  revert z; induction n; intros z; simpl; [constructor|].
  apply Forall_app; split; [done|]. repeat constructor; apply Z.mod_pos_bound; lia.
Qed.

Lemma of_digits_be_snoc ds d : of_digits_be base (ds ++ [d]) = of_digits_be base ds * base + d.
Proof. unfold of_digits_be. by rewrite foldl_app. Qed.

Lemma of_digits_be_app ds1 ds2 :
  of_digits_be base (ds1 ++ ds2) =
  of_digits_be base ds1 * base ^ Z.of_nat (length ds2) + of_digits_be base ds2.
Proof.
  induction ds2 as [|d ds2 IH] using rev_ind; simpl.
  - rewrite app_nil_r. unfold of_digits_be at 3. simpl. lia.
  - rewrite app_assoc, !of_digits_be_snoc, IH, length_app. simpl.
    rewrite Nat2Z.inj_add, Z.pow_add_r by lia. simpl. rewrite Z.pow_1_r. ring.
Qed.

Lemma of_digits_be_range ds :
  Forall (fun d => 0 <= d < base) ds ->
  0 <= of_digits_be base ds < base ^ Z.of_nat (length ds).
Proof.
  induction ds as [|d ds IH] using rev_ind; intros Hds; [done|].
  apply Forall_app in Hds as [Hds Hd]. inversion_clear Hd.
  specialize (IH Hds). rewrite of_digits_be_snoc, length_app, Nat2Z.inj_add, Z.pow_add_r by lia.
  simpl. rewrite Z.pow_1_r. nia.
Qed.

Lemma of_digits_digits n z :
  of_digits_be base (digits_be base n z) = z mod base ^ Z.of_nat n.
Proof.
  revert z; induction n as [|n IH]; intros z.
  - simpl. by rewrite Z.mod_1_r.
  - simpl digits_be. rewrite of_digits_be_snoc, IH.
    rewrite Nat2Z.inj_succ, Z.pow_succ_r by lia.
    rewrite Z.rem_mul_r by (try apply Z.pow_nonzero; lia). lia.
Qed.

Lemma of_digits_digits_small n z :
  0 <= z < base ^ Z.of_nat n -> of_digits_be base (digits_be base n z) = z.
Proof. intros. rewrite of_digits_digits. by apply Z.mod_small. Qed.

Lemma digits_of_digits n ds :
  Forall (fun d => 0 <= d < base) ds -> length ds = n ->
  digits_be base n (of_digits_be base ds) = ds.
Proof.
  intros Hds <-. induction ds as [|d ds IH] using rev_ind; [done|].
  apply Forall_app in Hds as [Hds Hd]. inversion_clear Hd.
  rewrite length_app, Nat.add_comm. simpl. rewrite of_digits_be_snoc.
  rewrite Z.div_add_l, Z.div_small, Z.add_0_r, IH by (done || lia).
  by rewrite Z.add_comm, Z.mod_add, Z.mod_small by lia.
Qed.

Lemma digits_be_inj n z1 z2 :
  0 <= z1 < base ^ Z.of_nat n -> 0 <= z2 < base ^ Z.of_nat n ->
  digits_be base n z1 = digits_be base n z2 -> z1 = z2.
Proof.
  intros H1 H2 Heq. rewrite <- (of_digits_digits_small n z1), Heq by done.
  by apply of_digits_digits_small.
Qed.
End Digits.

Arguments digits_be : simpl never.
Arguments of_digits_be : simpl never.

Lemma bytes_to_be n z : bytes (to_be_bytes n z).
Proof. exact (digits_be_range 256 ltac:(lia) n z). Qed.

Lemma from_be_range l : bytes l -> 0 <= from_be_bytes l < 256 ^ Z.of_nat (length l).
Proof. intros H. by apply of_digits_be_range. Qed.

Lemma from_to_be n z : 0 <= z < 256 ^ Z.of_nat n -> from_be_bytes (to_be_bytes n z) = z.
Proof. by apply of_digits_digits_small. Qed.

Lemma to_from_be n l : bytes l -> length l = n -> to_be_bytes n (from_be_bytes l) = l.
Proof. intros H1 H2. by apply digits_of_digits. Qed.

#[export] Hint Resolve bytes_to_be : yon.

(** Shows that a list built from bytes is a byte string. *)
Ltac bytes_tac :=
  repeat first
    [ assumption
    | apply bytes_to_be
    | apply Forall_nil_2
    | apply Forall_cons_2
    | apply Forall_app_2
    | apply Z.mod_pos_bound; reflexivity
    | progress unfold is_u8; lia
    | solve [eauto with yon] ].

(** ** Slices and fixed buffers

    Lengths and indices are [Z], as [usize] is unbounded for every size that the
    program handles; out-of-range accesses panic. *)

Definition zlen {A} (l : list A) : Z := Z.of_nat (length l).

(** [l[i]]. *)
Definition index {E A} (l : list A) (i : Z) : res E A :=
  if i <? 0 then Panic else expect_some (l !! Z.to_nat i).

(** [l.get(a..b)]. *)
Definition get_range {A} (l : list A) (a b : Z) : option (list A) :=
  if (0 <=? a) && (a <=? b) && (b <=? zlen l)
  then Some (take (Z.to_nat (b - a)) (drop (Z.to_nat a) l)) else None.

(** [&l[a..b]]. *)
Definition slice {E A} (l : list A) (a b : Z) : res E (list A) :=
  expect_some (get_range l a b).

(** [<[u8; n]>::try_from(l)]. *)
Definition try_into_array {A} (n : Z) (l : list A) : option (list A) :=
  if zlen l =? n then Some l else None.

(** [\[0_u8; n\]]. *)
Definition zeros (n : Z) : list Z := replicate (Z.to_nat n) 0.

(** [buf[a..b].copy_from_slice(src)]. *)
Definition copy_range {E} (buf : list Z) (a b : Z) (src : list Z) : res E (list Z) :=
  if (0 <=? a) && (a <=? b) && (b <=? zlen buf) && (zlen src =? b - a)
  then Ok (take (Z.to_nat a) buf ++ src ++ drop (Z.to_nat b) buf) else Panic.

(** [buf[i] = v]. *)
Definition set_index {E} (buf : list Z) (i v : Z) : res E (list Z) :=
  copy_range buf i (i + 1) [v].

Arguments zlen : simpl never.
Arguments zeros : simpl never.
Arguments get_range : simpl never.
Arguments try_into_array : simpl never.
Arguments copy_range : simpl never.
Arguments set_index : simpl never.

Lemma zlen_nonneg {A} (l : list A) : 0 <= zlen l.
Proof. unfold zlen. lia. Qed.

Lemma zlen_app {A} (l1 l2 : list A) : zlen (l1 ++ l2) = zlen l1 + zlen l2.
Proof. unfold zlen. rewrite length_app. lia. Qed.

Lemma zlen_cons {A} (x : A) l : zlen (x :: l) = 1 + zlen l.
Proof. unfold zlen. simpl. lia. Qed.

Lemma zlen_nil {A} : zlen (@nil A) = 0.
Proof. done. Qed.

Lemma zlen_zeros n : 0 <= n -> zlen (zeros n) = n.
Proof. intros. unfold zlen, zeros. rewrite length_replicate. lia. Qed.

Lemma zlen_to_be n z : zlen (to_be_bytes n z) = Z.of_nat n.
Proof. unfold zlen. by rewrite length_digits_be. Qed.

Lemma zlen_0 {A} (l : list A) : zlen l = 0 -> l = [].
Proof. destruct l; [done|]. rewrite zlen_cons. pose proof (zlen_nonneg l). lia. Qed.

Create Rewrite HintDb zlen.
#[export] Hint Rewrite @zlen_app @zlen_cons @zlen_nil zlen_to_be : zlen.

(** [zlen_tac] normalises lengths and calls [lia]. *)
Ltac zlen_tac :=
  autorewrite with zlen in *;
  rewrite ?zlen_zeros in * by lia;
  repeat match goal with
         | |- context [zlen ?l] => lazymatch goal with
           | _ : 0 <= zlen l |- _ => fail
           | _ => pose proof (zlen_nonneg l) end
         | H : context [zlen ?l] |- _ => lazymatch goal with
           | _ : 0 <= zlen l |- _ => fail
           | _ => pose proof (zlen_nonneg l) end
         end;
  try lia.

Lemma zeros_add n m : 0 <= n -> 0 <= m -> zeros (n + m) = zeros n ++ zeros m.
Proof. intros. unfold zeros. rewrite Z2Nat.inj_add by lia. apply replicate_add. Qed.

Lemma bytes_zeros n : bytes (zeros n).
Proof. apply Forall_replicate. unfold is_u8. lia. Qed.

(** Writing [src] right after the part [pre] that is already written. *)
Lemma copy_range_append {E} pre src n a b :
  a = zlen pre -> b = zlen pre + zlen src -> zlen src <= n ->
  copy_range (E:=E) (pre ++ zeros n) a b src = Ok ((pre ++ src) ++ zeros (n - zlen src)).
Proof.
  intros -> -> Hn. pose proof (zlen_nonneg src). pose proof (zlen_nonneg pre).
  unfold copy_range. rewrite zlen_app, zlen_zeros by lia.
  rewrite !(proj2 (Z.leb_le _ _)) by lia. rewrite (proj2 (Z.eqb_eq _ _)) by lia. simpl.
  f_equal. rewrite <- app_assoc. f_equal.
  - unfold zlen. rewrite Nat2Z.id. by rewrite take_app_length.
  - f_equal. replace n with (zlen src + (n - zlen src)) at 1 by lia.
    rewrite zeros_add by lia. rewrite app_assoc. apply drop_app_length'.
    rewrite length_app. unfold zeros. rewrite length_replicate. unfold zlen in *. lia.
Qed.

Lemma set_index_append {E} pre v n a :
  a = zlen pre -> 1 <= n ->
  set_index (E:=E) (pre ++ zeros n) a v = Ok ((pre ++ [v]) ++ zeros (n - 1)).
Proof. intros -> Hn. unfold set_index. by rewrite copy_range_append. Qed.

Lemma take_zlen_app {A} (l1 l2 : list A) n : n = zlen l1 -> take (Z.to_nat n) (l1 ++ l2) = l1.
Proof. intros ->. unfold zlen. rewrite Nat2Z.id. apply take_app_length. Qed.

Lemma drop_zlen_app {A} (l1 l2 : list A) n : n = zlen l1 -> drop (Z.to_nat n) (l1 ++ l2) = l2.
Proof. intros ->. unfold zlen. rewrite Nat2Z.id. apply drop_app_length. Qed.

Lemma get_range_app {A} (l1 l2 l3 : list A) a b :
  a = zlen l1 -> b = zlen l1 + zlen l2 -> get_range (l1 ++ l2 ++ l3) a b = Some l2.
Proof.
  intros -> ->. unfold get_range. pose proof (zlen_nonneg l1). pose proof (zlen_nonneg l2).
  pose proof (zlen_nonneg l3). rewrite !zlen_app.
  rewrite !(proj2 (Z.leb_le _ _)) by lia. simpl.
  rewrite drop_zlen_app by done. f_equal. apply take_zlen_app. lia.
Qed.

Lemma slice_app {E A} (l1 l2 l3 : list A) a b :
  a = zlen l1 -> b = zlen l1 + zlen l2 -> slice (E:=E) (l1 ++ l2 ++ l3) a b = Ok l2.
Proof. intros. unfold slice. by rewrite get_range_app. Qed.

Lemma index_app {E A} (l1 l2 : list A) x i : i = zlen l1 -> index (E:=E) (l1 ++ x :: l2) i = Ok x.
Proof.
  intros ->. unfold index, zlen. destruct (Z.ltb_spec (Z.of_nat (length l1)) 0); [lia|].
  rewrite Nat2Z.id. by rewrite list_lookup_middle.
Qed.

(** A successful [get] splits the list. *)
Lemma get_range_split {A} (l : list A) a b m :
  get_range l a b = Some m ->
  exists l1 l3, l = l1 ++ m ++ l3 /\ zlen l1 = a /\ zlen m = b - a.
Proof.
  unfold get_range. intros H. destruct (_ && _) eqn:E; [|done]. simplify_eq.
  apply andb_prop in E as [E E3]. apply andb_prop in E as [E1 E2].
  apply Z.leb_le in E1, E2, E3. unfold zlen in E3.
  exists (take (Z.to_nat a) l), (drop (Z.to_nat (b - a)) (drop (Z.to_nat a) l)).
  rewrite !take_drop. split_and!; [done| |]; unfold zlen.
  - rewrite length_take. lia.
  - rewrite length_take, length_drop. lia.
Qed.

Lemma get_range_none {A} (l : list A) a b :
  get_range l a b = None -> 0 <= a <= b -> zlen l < b.
Proof. unfold get_range. intros H ?. destruct (_ && _) eqn:E; [done|]. lia. Qed.

Lemma try_into_array_some {A} n (l l' : list A) :
  try_into_array n l = Some l' <-> l' = l /\ zlen l = n.
Proof. unfold try_into_array. destruct (Z.eqb_spec (zlen l) n); naive_solver. Qed.

Lemma split_at {A} (l : list A) n :
  0 <= n <= zlen l -> exists l1 l2, l = l1 ++ l2 /\ zlen l1 = n.
Proof.
  intros Hn. exists (take (Z.to_nat n) l), (drop (Z.to_nat n) l).
  rewrite take_drop. split; [done|]. unfold zlen in *. rewrite length_take. lia.
Qed.

(** A slice that runs to the end. *)
Lemma slice_tail {E A} (l1 l2 : list A) a b :
  a = zlen l1 -> b = zlen (l1 ++ l2) -> slice (E:=E) (l1 ++ l2) a b = Ok l2.
Proof.
  intros -> ->. pose proof (slice_app (E:=E) l1 l2 [] (zlen l1) (zlen (l1 ++ l2)) eq_refl) as H.
  rewrite app_nil_r in H. apply H. apply zlen_app.
Qed.

Lemma slice_head {E A} (l1 l2 : list A) b : b = zlen l1 -> slice (E:=E) (l1 ++ l2) 0 b = Ok l1.
Proof. intros ->. by apply (slice_app [] l1 l2). Qed.

Lemma try_into_exact {A} n (l : list A) : zlen l = n -> try_into_array n l = Some l.
Proof. intros. by apply try_into_array_some. Qed.

(** A list of known length [n] (from [H : zlen l = n]) is a list of [n] variables. *)
Ltac explode l H :=
  lazymatch type of H with
  | zlen _ = ?n =>
      let n' := eval cbv in n in
      let k := eval cbv in (Z.to_nat n) in
      change n with n' in H;
      let rec go k :=
        lazymatch k with
        | O => destruct l as [|? l]; [clear H | exfalso; zlen_tac]
        | S ?k' => destruct l as [|? l]; [exfalso; zlen_tac | go k']
        end in
      go k
  end.

(** Splits every [Forall] over a literal list. *)
Ltac split_forall :=
  repeat match goal with
         | H : Forall _ (_ :: _) |- _ => apply Forall_cons_1 in H; destruct H
         | H : Forall _ (_ ++ _) |- _ => apply Forall_app in H; destruct H
         | H : Forall _ [] |- _ => clear H
         end.

Lemma omap_length_le {A B} (f : A -> option B) (l : list A) : (length (omap f l) <= length l)%nat.
Proof. induction l as [|x l IH]; [done|]. cbn. destruct (f x); cbn; lia. Qed.

(** ** Automation on results *)

(** Splits the outermost test of a conditional, keeping what the test decides. *)
Ltac split_test b :=
  lazymatch b with
  | ?x =? ?y => destruct (Z.eqb_spec x y)
  | ?x <? ?y => destruct (Z.ltb_spec x y)
  | ?x <=? ?y => destruct (Z.leb_spec x y)
  | negb ?c => split_test c
  | ?c && ?d => split_test c
  | ?c || ?d => split_test c
  | _ => destruct b eqn:?
  end.

(** Reduces connectives and conditionals whose decided operand is a literal. *)
Ltac bool_simpl :=
  change (negb true) with false in *; change (negb false) with true in *;
  rewrite ?andb_true_l, ?andb_false_l, ?orb_true_l, ?orb_false_l in *;
  cbv match in *.

(** Inverts every hypothesis saying that a computation returned [Ok]. *)
Ltac inv_ok :=
  repeat (bool_simpl;
  match goal with
  | H : Ok _ = Ok _ |- _ => injection H as H; try subst
  | H : Some _ = Some _ |- _ => injection H as H; try subst
  | H : Err _ = Ok _ |- _ => discriminate H
  | H : Panic = Ok _ |- _ => discriminate H
  | H : mbind _ _ = Ok _ |- _ => apply res_bind_ok in H; destruct H as (? & ? & H)
  | H : fmap _ _ = Ok _ |- _ => apply fmap_res_ok in H; destruct H as (? & H & ?); try subst
  | H : map_err _ _ = Ok _ |- _ => apply map_err_ok in H
  | H : ok_or _ _ = Ok _ |- _ => apply ok_or_ok in H
  | H : try_into_array _ _ = Some _ |- _ =>
      apply try_into_array_some in H; destruct H as [? H]; try subst
  | H : (if ?b then _ else _) = Ok _ |- _ => split_test b
  end).

(** Proves that a computation does not panic, one bind and one test at a time. *)
Ltac no_panic :=
  repeat (bool_simpl;
  match goal with
  | |- Ok _ <> Panic => discriminate
  | |- Err _ <> Panic => discriminate
  | |- mbind _ _ <> Panic => apply bind_no_panic; [|intros ? ?]
  | |- fmap _ _ <> Panic => apply fmap_no_panic
  | |- map_err _ _ <> Panic => apply map_err_no_panic
  | |- ok_or _ _ <> Panic => apply ok_or_no_panic
  | |- (if ?b then _ else _) <> Panic => split_test b
  | |- _ => solve [eauto with yon]
  end).

(** ** UTF-8

    [core::str::from_utf8] accepts exactly the byte strings of the Unicode
    standard's table of well-formed sequences; [utf8_chars] returns the scalar
    values that [str::chars] yields, and [None] where [from_utf8] fails.  A
    [&str] is modelled by its bytes. *)

Definition is_cont (b : Z) : bool := (0x80 <=? b) && (b <=? 0xBF).

Definition utf8_second_of_three (b0 b1 : Z) : bool :=
  if b0 =? 0xE0 then (0xA0 <=? b1) && (b1 <=? 0xBF)
  else if b0 =? 0xED then (0x80 <=? b1) && (b1 <=? 0x9F)
  else is_cont b1.

Definition utf8_second_of_four (b0 b1 : Z) : bool :=
  if b0 =? 0xF0 then (0x90 <=? b1) && (b1 <=? 0xBF)
  else if b0 =? 0xF4 then (0x80 <=? b1) && (b1 <=? 0x8F)
  else is_cont b1.

Fixpoint utf8_chars (l : list Z) : option (list Z) :=
  match l with
  | [] => Some []
  | b0 :: l0 =>
    if b0 <? 0x80 then cons b0 <$> utf8_chars l0
    else if (0xC2 <=? b0) && (b0 <=? 0xDF) then
      match l0 with
      | b1 :: l1 =>
        if is_cont b1
        then cons (Z.land b0 0x1F * 64 + Z.land b1 0x3F) <$> utf8_chars l1 else None
      | _ => None
      end
    else if (0xE0 <=? b0) && (b0 <=? 0xEF) then
      match l0 with
      | b1 :: b2 :: l2 =>
        if utf8_second_of_three b0 b1 && is_cont b2
        then cons ((Z.land b0 0x0F * 64 + Z.land b1 0x3F) * 64 + Z.land b2 0x3F)
               <$> utf8_chars l2 else None
      | _ => None
      end
    else if (0xF0 <=? b0) && (b0 <=? 0xF4) then
      match l0 with
      | b1 :: b2 :: b3 :: l3 =>
        if utf8_second_of_four b0 b1 && is_cont b2 && is_cont b3
        then cons (((Z.land b0 0x07 * 64 + Z.land b1 0x3F) * 64 + Z.land b2 0x3F) * 64
                     + Z.land b3 0x3F) <$> utf8_chars l3 else None
      | _ => None
      end
    else None
  end.

(** The bytes of a string literal. *)
Definition str (s : String.string) : list Z :=
  (fun a => Z.of_nat (Ascii.nat_of_ascii a)) <$> String.list_ascii_of_string s.

(** [std::str::from_utf8], the string being its bytes. *)
Definition from_utf8 (l : list Z) : option (list Z) :=
  match utf8_chars l with Some _ => Some l | None => None end.

Definition valid_utf8 (l : list Z) : Prop := is_Some (utf8_chars l).

#[export] Instance valid_utf8_dec l : Decision (valid_utf8 l).
Proof. unfold valid_utf8. apply _. Defined.

(** ASCII is UTF-8, and its characters are its bytes. *)
Lemma utf8_chars_ascii l : Forall (fun b => 0 <= b < 0x80) l -> utf8_chars l = Some l.
Proof.
  induction 1 as [|b l Hb Hl IH]; simpl; [done|].
  destruct (Z.ltb_spec b 128); [|lia]. by rewrite IH.
Qed.

Lemma from_utf8_some l l' : from_utf8 l = Some l' <-> l' = l /\ valid_utf8 l.
Proof.
  unfold from_utf8, valid_utf8.
  destruct (utf8_chars l); split; rewrite ?is_Some_alt; naive_solver.
Qed.
