(* ===== verification/Domain.v ===== *)
(** * Domain values and errors

    The newtypes of [crates/yonder-core/src]: [error.rs], [domain.rs], [time.rs],
    [random.rs], [enterprise.rs] and the locator of [code.rs], plus the
    stack-backed [WireBytes] of [wire/mod.rs].  Each newtype is a [Module] with
    its Rust fields as a [Record t], its constructor checks, and [wf], the
    invariant that the private fields keep.  The trait [SecureRandom] is the
    class of the same name. *)

From stdpp Require Import countable.
From S2P Require Import Prelude.
Open Scope Z_scope.

(** ** error.rs *)

Inductive CodeError := InvalidLengthCode | InvalidGrouping | InvalidCharacter | InvalidEncoding.

Inductive DomainError :=
| LocatorOutOfRange
| PakeSecretOutOfRange
| RetryAfterOutOfRange
| ZeroTerminalDimension
| TerminalValueTooLong
| InvalidTerminalValue
| InvalidPeerIdLength
| NoEnterpriseProvider.

Inductive ProtocolField :=
| FLocator
| FPeerId
| FRetryAfter
| FReserved
| FTerminalDimension
| FTerminalValue
| FEnterpriseProvider
| FEnterpriseProviders
| FAuthorizationUrl
| FFileTransferPath
| FFileTransferFileName
| FFileTransferSize
| FFileTransferDigest
| FFileTransferErrorCode
| FFileTransferData.

Inductive ProtocolError :=
| InvalidLength (expected actual : Z)
| UnknownTag (tag : Z)
| InvalidField (field : ProtocolField)
| TrailingBytes.

#[export] Instance CodeError_eq_dec : EqDecision CodeError.
Proof. solve_decision. Defined.
#[export] Instance DomainError_eq_dec : EqDecision DomainError.
Proof. solve_decision. Defined.
#[export] Instance ProtocolField_eq_dec : EqDecision ProtocolField.
Proof. solve_decision. Defined.
#[export] Instance ProtocolError_eq_dec : EqDecision ProtocolError.
Proof. solve_decision. Defined.

(** ** time.rs

    A [Duration] is a number of nanoseconds: Rust stores [u64] seconds and
    [u32] subsecond nanoseconds, so the largest one is [DURATION_MAX]. *)

Definition NANOS_PER_SEC : Z := 1000000000.
Definition DURATION_MAX : Z := (2 ^ 64 - 1) * NANOS_PER_SEC + (NANOS_PER_SEC - 1).
Definition from_secs (s : Z) : Z := s * NANOS_PER_SEC.

Module MonotonicTime.
Record t := Mk { elapsed : Z }.

Definition from_elapsed (elapsed : Z) : t := Mk elapsed.

Definition checked_add (self : t) (duration : Z) : option t :=
  if elapsed self + duration <=? DURATION_MAX
  then Some (Mk (elapsed self + duration)) else None.

Definition duration_since (self earlier : t) : option Z :=
  if elapsed earlier <=? elapsed self then Some (elapsed self - elapsed earlier) else None.

Definition wf (self : t) : Prop := 0 <= elapsed self <= DURATION_MAX.
End MonotonicTime.

#[export] Instance MonotonicTime_eq_dec : EqDecision MonotonicTime.t.
Proof. solve_decision. Defined.

(** ** random.rs

    The random source is a state that [try_fill] advances: it either fills the
    whole buffer of the asked length or fails. *)

Class SecureRandom (R : Type) := try_fill : R -> Z -> option (list Z) * R.

(** What the trait's documentation promises. *)
Class SecureRandomLaws (R : Type) `{SecureRandom R} : Prop :=
  try_fill_whole : forall r n l r',
    0 <= n -> try_fill r n = (Some l, r') -> zlen l = n /\ bytes l.

Inductive RandomError := RandomFailed.

(** [fill_or_zero]: the destination buffer after the call, and the result. *)
Definition fill_or_zero {R} `{SecureRandom R} (random : R) (destination : list Z)
  : res RandomError unit * list Z * R :=
  match try_fill random (zlen destination) with
  | (Some filled, random') => (Ok tt, filled, random')
  | (None, random') => (Err RandomFailed, zeros (zlen destination), random')
  end.

Module IdentitySeed.
Definition generate {R} `{SecureRandom R} (random : R) : res RandomError (list Z) * R :=
  match fill_or_zero random (zeros 32) with
  | (Ok _, seed, random') => (Ok seed, random')
  | (Err e, _, random') => (Err e, random')
  | (Panic, _, random') => (Panic, random')
  end.
End IdentitySeed.

(** ** code.rs: the locator *)

Definition LOCATOR_MAX : Z := Z.shiftl 1 20 - 1.

Module Locator.
Record t := Mk { get : Z }.

Definition SPACE : Z := Z.shiftl 1 20.

Definition new (value : Z) : res DomainError t :=
  if value <=? LOCATOR_MAX then Ok (Mk value) else Err LocatorOutOfRange.

Definition from_wire (b0 b1 b2 : Z) : res DomainError t :=
  if negb (Z.land b0 0xF0 =? 0) then Err LocatorOutOfRange
  else Ok (Mk (Z.lor (Z.lor (Z.shiftl b0 16) (Z.shiftl b1 8)) b2)).

Definition random {R} `{SecureRandom R} (r : R) : res RandomError t * R :=
  match try_fill r 3 with
  | (Some [b0; b1; b2], r') => (expect (from_wire (Z.land b0 0x0F) b1 b2), r')
  | (Some _, r') => (Panic, r')
  | (None, r') => (Err RandomFailed, r')
  end.

Definition to_wire (self : t) : list Z :=
  [as_u8 (Z.land (Z.shiftr (get self) 16) 0x0F);
   as_u8 (Z.shiftr (get self) 8);
   as_u8 (get self)].

Definition wrapping_next (self : t) : t := Mk (Z.land (get self + 1) LOCATOR_MAX).

Definition wf (self : t) : Prop := 0 <= get self <= LOCATOR_MAX.
End Locator.

#[export] Instance Locator_eq_dec : EqDecision Locator.t.
Proof. solve_decision. Defined.
#[export] Instance Locator_countable : Countable Locator.t :=
  inj_countable' Locator.get Locator.Mk (fun '(Locator.Mk _) => eq_refl).

(** ** domain.rs *)

Module RetryAfter.
Record t := Mk { millis : Z }.

Definition MIN_MILLIS : Z := 100.
Definition MAX_MILLIS : Z := 5000.

Definition from_millis (milliseconds : Z) : res DomainError t :=
  if (MIN_MILLIS <=? milliseconds) && (milliseconds <=? MAX_MILLIS)
  then Ok (Mk milliseconds) else Err RetryAfterOutOfRange.

Definition wf (self : t) : Prop := MIN_MILLIS <= millis self <= MAX_MILLIS.
End RetryAfter.

Module TerminalSize.
Record t := Mk { columns : Z; rows : Z }.

Definition new (columns rows : Z) : res DomainError t :=
  if columns =? 0 then Err ZeroTerminalDimension
  else if rows =? 0 then Err ZeroTerminalDimension
  else Ok (Mk columns rows).

Definition wf (self : t) : Prop :=
  1 <= columns self < 2 ^ 16 /\ 1 <= rows self < 2 ^ 16.
End TerminalSize.

Definition is_ascii_alphanumeric (b : Z) : bool :=
  ((0x30 <=? b) && (b <=? 0x39)) || ((0x41 <=? b) && (b <=? 0x5A))
  || ((0x61 <=? b) && (b <=? 0x7A)).

(** ['.'], ['_'], ['+'] and ['-'] are 0x2E, 0x5F, 0x2B and 0x2D. *)
Definition is_allowed_terminal_byte (b : Z) : bool :=
  is_ascii_alphanumeric b || ((b =? 0x2E) || (b =? 0x5F) || (b =? 0x2B) || (b =? 0x2D)).

Module TerminalValue.
Record t := Mk { buffer : list Z; len : Z }.

Definition MAX_LEN : Z := 64.

Definition new (source : list Z) : res DomainError t :=
  if MAX_LEN <? zlen source then Err TerminalValueTooLong
  else if negb (forallb is_allowed_terminal_byte source) then Err InvalidTerminalValue
  else
    bytes ← copy_range (zeros MAX_LEN) 0 (zlen source) source;
    Ok (Mk bytes (as_u8 (zlen source))).

Definition as_bytes (self : t) : list Z := take (Z.to_nat (len self)) (buffer self).

Definition is_empty (self : t) : bool := len self =? 0.

Definition wf (self : t) : Prop :=
  exists s, zlen s <= MAX_LEN /\ forallb is_allowed_terminal_byte s = true /\
  self = Mk (s ++ zeros (MAX_LEN - zlen s)) (zlen s).
End TerminalValue.

Module PeerIdBytes.
Record t := Mk { buffer : list Z; len : Z }.

Definition MAX_LEN : Z := 64.

Definition new (source : list Z) : res DomainError t :=
  if (zlen source =? 0) || (MAX_LEN <? zlen source) then Err InvalidPeerIdLength
  else
    bytes ← copy_range (zeros MAX_LEN) 0 (zlen source) source;
    Ok (Mk bytes (as_u8 (zlen source))).

Definition as_bytes (self : t) : list Z := take (Z.to_nat (len self)) (buffer self).

Definition wf (self : t) : Prop :=
  exists s, 1 <= zlen s <= MAX_LEN /\ bytes s /\
  self = Mk (s ++ zeros (MAX_LEN - zlen s)) (zlen s).
End PeerIdBytes.

#[export] Instance RetryAfter_eq_dec : EqDecision RetryAfter.t.
Proof. solve_decision. Defined.
#[export] Instance TerminalSize_eq_dec : EqDecision TerminalSize.t.
Proof. solve_decision. Defined.
#[export] Instance TerminalValue_eq_dec : EqDecision TerminalValue.t.
Proof. solve_decision. Defined.
#[export] Instance PeerIdBytes_eq_dec : EqDecision PeerIdBytes.t.
Proof. solve_decision. Defined.

(** ** enterprise.rs *)

Module EnterpriseProvider.
Inductive t := WeCom | Feishu.

Definition ALL : list t := [WeCom; Feishu].

(** The ASCII bytes of "wecom" and "feishu". *)
Definition as_str (self : t) : list Z :=
  match self with
  | WeCom => [0x77; 0x65; 0x63; 0x6F; 0x6D]
  | Feishu => [0x66; 0x65; 0x69; 0x73; 0x68; 0x75]
  end.

Definition from_name (value : list Z) : option t :=
  if decide (value = as_str WeCom) then Some WeCom
  else if decide (value = as_str Feishu) then Some Feishu
  else None.

Definition wire_tag (self : t) : Z := match self with WeCom => 0x01 | Feishu => 0x02 end.

Definition from_wire_tag (value : Z) : option t :=
  if value =? 0x01 then Some WeCom else if value =? 0x02 then Some Feishu else None.
End EnterpriseProvider.

#[export] Instance EnterpriseProvider_eq_dec : EqDecision EnterpriseProvider.t.
Proof. solve_decision. Defined.

Module EnterpriseProviders.
Record t := Mk { wecom : bool; feishu : bool }.

Definition new (wecom feishu : bool) : res DomainError t :=
  if negb wecom && negb feishu then Err NoEnterpriseProvider else Ok (Mk wecom feishu).

Definition contains (self : t) (provider : EnterpriseProvider.t) : bool :=
  match provider with
  | EnterpriseProvider.WeCom => wecom self
  | EnterpriseProvider.Feishu => feishu self
  end.

Definition len (self : t) : Z := Z.b2z (wecom self) + Z.b2z (feishu self).

Definition is_empty (self : t) : bool := false.

Definition iter (self : t) : list EnterpriseProvider.t :=
  List.filter (contains self) EnterpriseProvider.ALL.

Definition wire_mask (self : t) : Z :=
  Z.lor (Z.b2z (wecom self)) (Z.shiftl (Z.b2z (feishu self)) 1).

Definition from_wire_mask (mask : Z) : option t :=
  if mask =? 0x01 then Some (Mk true false)
  else if mask =? 0x02 then Some (Mk false true)
  else if mask =? 0x03 then Some (Mk true true)
  else None.

Definition wf (self : t) : Prop := wecom self || feishu self = true.
End EnterpriseProviders.

#[export] Instance EnterpriseProviders_eq_dec : EqDecision EnterpriseProviders.t.
Proof. solve_decision. Defined.

(** ** wire/mod.rs *)

Module WireBytes.
Record t := Mk { buffer : list Z; len : Z }.

(** [WireBytes::new], with its [debug_assert!]; [zlen bytes] is [CAPACITY]. *)
Definition new {E} (bytes : list Z) (len : Z) : res E t :=
  _ ← assert_or_panic (len <=? zlen bytes); Ok (Mk bytes len).

Definition as_slice (self : t) : list Z := take (Z.to_nat (len self)) (buffer self).
End WireBytes.

(** ** Lemmas: constructors establish their invariants and reject everything else *)

Section RandomLemmas.
Context {R : Type} `{SecureRandomLaws R}.

(** A failed fill leaves a zeroed buffer of the same length, never partial random bytes. *)
Lemma fill_or_zero_spec r dst :
  match fill_or_zero r dst with
  | (Ok _, buf, _) => zlen buf = zlen dst /\ bytes buf
  | (Err _, buf, _) => buf = zeros (zlen dst)
  | (Panic, _, _) => False
  end.
Proof.
  unfold fill_or_zero. destruct (try_fill r (zlen dst)) as [[l|] r'] eqn:E; [|done].
  by apply try_fill_whole in E; [|apply zlen_nonneg].
Qed.
End RandomLemmas.

(** A source that repeats one byte, as the unit tests use it, or fails. *)
Definition FixedRandom : Type := option Z.
#[export] Instance fixed_random : SecureRandom FixedRandom :=
  fun r n => ((fun b => replicate (Z.to_nat n) (as_u8 b)) <$> r, r).
#[export] Instance fixed_random_laws : SecureRandomLaws FixedRandom.
Proof.
  intros [b|] n l r' Hn; [|done]. intros [= <- <-].
  split; [unfold zlen; rewrite length_replicate; lia|].
  apply Forall_replicate. unfold is_u8, as_u8. apply Z.mod_pos_bound. lia.
Qed.

Lemma LOCATOR_MAX_val : LOCATOR_MAX = 2 ^ 20 - 1.
Proof. done. Qed.

Lemma land_F0 b : is_u8 b -> (Z.land b 0xF0 =? 0) = (b <? 16).
Proof.
  intros Hb. apply eqb_prop.
  revert b Hb. apply (byte_forallb (fun b => eqb (Z.land b 0xF0 =? 0) (b <? 16))).
  by vm_compute.
Qed.

(** Disjoint bit fields: [lor] of shifted parts is their sum. *)
Lemma lor_shiftl_add a b n : 0 <= n -> 0 <= b < 2 ^ n -> Z.lor (Z.shiftl a n) b = a * 2 ^ n + b.
Proof.
  intros Hn Hb. rewrite <- Z.shiftl_mul_pow2 by lia. symmetry.
  enough (Z.land (Z.shiftl a n) b = 0) as Hd by (rewrite <- Z.add_lor_land, Hd; lia).
  apply Z.bits_inj'. intros i Hi. rewrite Z.land_spec, Z.bits_0.
  destruct (Z.ltb_spec i n).
  - by rewrite Z.shiftl_spec_low.
  - destruct (decide (b = 0)) as [->|]; [by rewrite Z.bits_0, andb_false_r|].
    rewrite (Z.bits_above_log2 b i); [by rewrite andb_false_r|lia|].
    apply Z.log2_lt_pow2; [lia|]. eapply Z.lt_le_trans; [apply Hb|].
    apply Z.pow_le_mono_r; lia.
Qed.

Lemma locator_bits b0 b1 b2 :
  is_u8 b0 -> is_u8 b1 -> is_u8 b2 ->
  Z.lor (Z.lor (Z.shiftl b0 16) (Z.shiftl b1 8)) b2 = from_be_bytes [b0; b1; b2].
Proof.
  unfold is_u8. intros H0 H1 H2.
  replace (Z.lor (Z.shiftl b0 16) (Z.shiftl b1 8)) with (Z.shiftl (b0 * 256 + b1) 8).
  - rewrite lor_shiftl_add by lia. unfold of_digits_be. simpl. lia.
  - change 256 with (2 ^ 8). rewrite <- (lor_shiftl_add b0 b1 8) by lia.
    by rewrite Z.shiftl_lor, Z.shiftl_shiftl by lia.
Qed.

Lemma land_ones_mod x n m : 0 <= n -> m = 2 ^ n - 1 -> Z.land x m = x mod 2 ^ n.
Proof. intros Hn ->. rewrite <- Z.land_ones by lia. by rewrite Z.ones_equiv, Z.sub_1_r. Qed.

(** The three bytes of a locator are its big-endian representation. *)
Lemma locator_to_wire_be loc : Locator.wf loc -> Locator.to_wire loc = to_be_bytes 3 (Locator.get loc).
Proof.
  destruct loc as [v]. unfold Locator.wf, Locator.to_wire, as_u8. simpl.
  rewrite LOCATOR_MAX_val. intros Hv.
  rewrite (land_ones_mod _ 4 15) by lia. rewrite !Z.shiftr_div_pow2 by lia.
  change (2 ^ 8) with 256. change (2 ^ 16) with 65536.
  cbv [digits_be app]. rewrite Z.div_div by lia. simpl (256 * 256). repeat f_equal.
  assert (0 <= v / 65536 < 2 ^ 4)
    by (split; [apply Z.div_pos | apply Z.div_lt_upper_bound]; lia).
  rewrite (Z.mod_small (v / 65536)) by lia. done.
Qed.

Lemma locator_from_wire_spec b0 b1 b2 :
  is_u8 b0 -> is_u8 b1 -> is_u8 b2 ->
  Locator.from_wire b0 b1 b2 =
  if b0 <? 16 then Ok (Locator.Mk (from_be_bytes [b0; b1; b2])) else Err LocatorOutOfRange.
Proof.
  intros. unfold Locator.from_wire. rewrite land_F0, locator_bits by done.
  by destruct (b0 <? 16).
Qed.

Lemma locator_from_to_wire loc b0 b1 b2 :
  Locator.wf loc -> Locator.to_wire loc = [b0; b1; b2] -> Locator.from_wire b0 b1 b2 = Ok loc.
Proof.
  intros Hwf Hw. pose proof Hwf as Hr. unfold Locator.wf in Hr. rewrite LOCATOR_MAX_val in Hr.
  rewrite locator_to_wire_be in Hw by done.
  pose proof (bytes_to_be 3 (Locator.get loc)) as Hb. rewrite Hw in Hb. split_forall.
  rewrite locator_from_wire_spec by done. rewrite <- Hw, from_to_be by (simpl; lia).
  destruct (Z.ltb_spec b0 16) as [|Hge]; [by destruct loc|]; exfalso.
  apply (f_equal from_be_bytes) in Hw. rewrite from_to_be in Hw by (simpl; lia).
  cbv [of_digits_be foldl] in Hw. unfold is_u8 in *. lia.
Qed.

Lemma locator_from_wire_ok b0 b1 b2 loc :
  is_u8 b0 -> is_u8 b1 -> is_u8 b2 -> Locator.from_wire b0 b1 b2 = Ok loc ->
  Locator.wf loc /\ Locator.to_wire loc = [b0; b1; b2].
Proof.
  intros H0 H1 H2. rewrite locator_from_wire_spec by done.
  destruct (Z.ltb_spec b0 16); [|done]. intros [= <-].
  assert (Locator.wf (Locator.Mk (from_be_bytes [b0; b1; b2]))) as Hwf.
  { unfold Locator.wf, of_digits_be. simpl. rewrite LOCATOR_MAX_val. unfold is_u8 in *. lia. }
  split; [done|]. rewrite locator_to_wire_be by done. simpl Locator.get.
  by apply to_from_be; [bytes_tac|].
Qed.

Lemma locator_new_ok v loc :
  0 <= v -> Locator.new v = Ok loc <-> loc = Locator.Mk v /\ Locator.wf loc.
Proof.
  intros Hv. unfold Locator.new, Locator.wf. destruct (Z.leb_spec v LOCATOR_MAX); split; naive_solver lia.
Qed.

Lemma locator_new_wf v : Locator.wf (Locator.Mk v) -> Locator.new v = Ok (Locator.Mk v).
Proof. intros [? ?]. by apply locator_new_ok. Qed.

Lemma locator_wrapping_next_spec loc :
  Locator.wf loc ->
  Locator.get (Locator.wrapping_next loc) = (Locator.get loc + 1) mod Locator.SPACE.
Proof. intros. simpl. by rewrite (land_ones_mod _ 20) by done. Qed.

Lemma locator_wrapping_next_wf loc : Locator.wf loc -> Locator.wf (Locator.wrapping_next loc).
Proof.
  intros H. unfold Locator.wf. rewrite locator_wrapping_next_spec by done.
  pose proof (Z.mod_pos_bound (Locator.get loc + 1) Locator.SPACE ltac:(done)).
  change LOCATOR_MAX with (Locator.SPACE - 1). lia.
Qed.

Lemma bytes_locator_to_wire loc : Locator.wf loc -> bytes (Locator.to_wire loc).
Proof. intros. rewrite locator_to_wire_be by done. apply bytes_to_be. Qed.

(** A random locator is valid, whatever the source returns. *)
Lemma locator_random_wf {R} `{SecureRandomLaws R} r :
  match Locator.random r with
  | (Ok loc, _) => Locator.wf loc
  | (Err _, r') => try_fill r 3 = (None, r')
  | (Panic, _) => False
  end.
Proof.
  unfold Locator.random. destruct (try_fill r 3) as [[l|] r'] eqn:E; [|done].
  apply try_fill_whole in E as [Hl Hb]; [|lia]. explode l Hl. split_forall.
  match goal with |- context [Locator.from_wire (Z.land ?b0 _) ?b1 ?b2] =>
    assert (Hm : 0 <= Z.land b0 15 < 16)
      by (rewrite (land_ones_mod b0 4 15) by lia; apply Z.mod_pos_bound; lia);
    destruct (Locator.from_wire (Z.land b0 15) b1 b2) as [loc|e|] eqn:E end;
  pose proof E as E'; rewrite locator_from_wire_spec in E' by (done || (unfold is_u8; lia));
  destruct (Z.ltb_spec (Z.land z 15) 16); try lia; try discriminate E'.
  apply locator_from_wire_ok in E as [? _]; done || (unfold is_u8; lia).
Qed.

Lemma retry_from_millis_ok v r :
  RetryAfter.from_millis v = Ok r <-> r = RetryAfter.Mk v /\ RetryAfter.wf r.
Proof.
  unfold RetryAfter.from_millis, RetryAfter.wf.
  destruct (Z.leb_spec RetryAfter.MIN_MILLIS v), (Z.leb_spec v RetryAfter.MAX_MILLIS);
    simpl; split; naive_solver lia.
Qed.

Lemma retry_from_millis_wf v :
  RetryAfter.wf (RetryAfter.Mk v) -> RetryAfter.from_millis v = Ok (RetryAfter.Mk v).
Proof. intros. by apply retry_from_millis_ok. Qed.

Lemma terminal_size_new_ok c r s :
  is_u16 c -> is_u16 r ->
  TerminalSize.new c r = Ok s <-> s = TerminalSize.Mk c r /\ TerminalSize.wf s.
Proof.
  unfold is_u16, TerminalSize.new, TerminalSize.wf. intros Hc Hr.
  destruct (Z.eqb_spec c 0), (Z.eqb_spec r 0); split; naive_solver lia.
Qed.

Lemma copy_into_zeros {E} n src b :
  b = zlen src -> zlen src <= n ->
  copy_range (E:=E) (zeros n) 0 b src = Ok (src ++ zeros (n - zlen src)).
Proof. intros. by rewrite (copy_range_append [] src n 0 b). Qed.

Lemma allowed_terminal_u8 b : is_allowed_terminal_byte b = true -> 0 <= b < 0x80.
Proof.
  unfold is_allowed_terminal_byte, is_ascii_alphanumeric.
  rewrite !orb_true_iff, !andb_true_iff, !Z.leb_le, !Z.eqb_eq. lia.
Qed.

Lemma terminal_value_ascii s :
  forallb is_allowed_terminal_byte s = true -> Forall (fun b => 0 <= b < 0x80) s.
Proof.
  rewrite forallb_forall, Forall_forall. intros H b Hb. apply allowed_terminal_u8, H.
  by apply list_elem_of_In.
Qed.

(** [TerminalValue::new] accepts exactly the bounded strings of the grammar. *)
Lemma terminal_value_new_ok s v :
  TerminalValue.new s = Ok v <->
  zlen s <= TerminalValue.MAX_LEN /\ forallb is_allowed_terminal_byte s = true /\
  v = TerminalValue.Mk (s ++ zeros (TerminalValue.MAX_LEN - zlen s)) (zlen s).
Proof.
  unfold TerminalValue.new. pose proof (zlen_nonneg s).
  destruct (Z.ltb_spec TerminalValue.MAX_LEN (zlen s)) as [|Hle]; [split; [done|lia]|].
  destruct (forallb is_allowed_terminal_byte s); simpl; [|split; naive_solver].
  rewrite copy_into_zeros by done. simpl. unfold TerminalValue.MAX_LEN, as_u8 in *.
  rewrite Z.mod_small by lia. split; naive_solver.
Qed.

Lemma terminal_value_wf_bytes v :
  TerminalValue.wf v ->
  let s := TerminalValue.as_bytes v in
  zlen s <= TerminalValue.MAX_LEN /\ forallb is_allowed_terminal_byte s = true /\
  bytes s /\ TerminalValue.new s = Ok v.
Proof.
  intros (s & Hl & Ha & ->). unfold TerminalValue.as_bytes. simpl.
  rewrite take_zlen_app by done. split_and!; [done..| |by apply terminal_value_new_ok].
  eapply Forall_impl; [by apply terminal_value_ascii|]. unfold is_u8. simpl. lia.
Qed.

Lemma peer_id_new_ok s p :
  PeerIdBytes.new s = Ok p <->
  1 <= zlen s <= PeerIdBytes.MAX_LEN /\
  p = PeerIdBytes.Mk (s ++ zeros (PeerIdBytes.MAX_LEN - zlen s)) (zlen s).
Proof.
  unfold PeerIdBytes.new. pose proof (zlen_nonneg s).
  destruct (Z.eqb_spec (zlen s) 0); simpl; [split; [done|lia]|].
  destruct (Z.ltb_spec PeerIdBytes.MAX_LEN (zlen s)); [split; [done|lia]|].
  rewrite copy_into_zeros by done. simpl. unfold PeerIdBytes.MAX_LEN, as_u8 in *.
  rewrite Z.mod_small by lia. split; naive_solver lia.
Qed.

Lemma peer_id_wf_bytes p :
  PeerIdBytes.wf p ->
  let s := PeerIdBytes.as_bytes p in
  1 <= zlen s <= PeerIdBytes.MAX_LEN /\ bytes s /\ PeerIdBytes.new s = Ok p.
Proof.
  intros (s & Hl & Hb & ->). unfold PeerIdBytes.as_bytes. simpl.
  rewrite take_zlen_app by done. split_and!; [lia..|done|]. by apply peer_id_new_ok.
Qed.

Lemma peer_id_new_wf s p :
  bytes s -> PeerIdBytes.new s = Ok p -> PeerIdBytes.wf p /\ PeerIdBytes.as_bytes p = s.
Proof.
  intros Hb (Hl & ->)%peer_id_new_ok. split; [by exists s|].
  unfold PeerIdBytes.as_bytes. simpl. by apply take_zlen_app.
Qed.

Lemma terminal_value_new_wf s v :
  TerminalValue.new s = Ok v -> TerminalValue.wf v /\ TerminalValue.as_bytes v = s.
Proof.
  intros (Hl & Ha & ->)%terminal_value_new_ok. split; [by exists s|].
  unfold TerminalValue.as_bytes. simpl. by apply take_zlen_app.
Qed.

Lemma terminal_value_new_no_panic s : TerminalValue.new s <> Panic.
Proof.
  unfold TerminalValue.new. pose proof (zlen_nonneg s). destruct (Z.ltb_spec TerminalValue.MAX_LEN (zlen s)); [done|].
  destruct (negb _); [done|]. by rewrite copy_into_zeros.
Qed.

Lemma peer_id_new_no_panic s : PeerIdBytes.new s <> Panic.
Proof.
  unfold PeerIdBytes.new. pose proof (zlen_nonneg s). destruct (_ || _) eqn:E; [done|].
  apply orb_false_iff in E as [_ E]. apply Z.ltb_ge in E. by rewrite copy_into_zeros.
Qed.

Lemma providers_from_mask_ok m p :
  EnterpriseProviders.from_wire_mask m = Some p <->
  EnterpriseProviders.wf p /\ EnterpriseProviders.wire_mask p = m.
Proof.
  unfold EnterpriseProviders.from_wire_mask. split.
  - destruct (Z.eqb_spec m 1), (Z.eqb_spec m 2), (Z.eqb_spec m 3); intros [= <-]; by subst.
  - destruct p as [[] []]; intros [Hwf <-]; by try discriminate Hwf.
Qed.

Lemma provider_from_tag_ok n p :
  EnterpriseProvider.from_wire_tag n = Some p <-> EnterpriseProvider.wire_tag p = n.
Proof.
  unfold EnterpriseProvider.from_wire_tag. split.
  - destruct (Z.eqb_spec n 1), (Z.eqb_spec n 2); intros [= <-]; by subst.
  - by destruct p; intros <-.
Qed.

#[export] Hint Resolve terminal_value_new_no_panic peer_id_new_no_panic bytes_locator_to_wire : yon.

(** ** Encoding into a zeroed buffer *)

Lemma wire_new_slice {E} pre n len :
  len = zlen pre -> 0 <= n ->
  WireBytes.as_slice <$> WireBytes.new (E:=E) (pre ++ zeros n) len = Ok pre.
Proof.
  intros -> Hn. unfold WireBytes.new, assert_or_panic, WireBytes.as_slice.
  rewrite zlen_app, zlen_zeros by lia. rewrite (proj2 (Z.leb_le _ _)) by lia. simpl.
  by rewrite take_zlen_app.
Qed.

(** Evaluates a sequence of writes into [zeros n], each right after the previous one,
    and the final [WireBytes::new]; what remains is the written prefix. *)
Ltac eval_buffer :=
  match goal with |- context [zeros ?n] =>
    lazymatch goal with
    | |- context [?p ++ zeros n] => idtac
    | |- _ => change (zeros n) with ([] ++ zeros n)
    end
  end;
  repeat (first [rewrite set_index_append by zlen_tac | rewrite copy_range_append by zlen_tac];
          cbv beta iota delta [mbind res_bind]);
  try rewrite wire_new_slice by zlen_tac;
  simpl app.

(** A retry delay survives its four wire bytes. *)
Lemma retry_wire_roundtrip r :
  RetryAfter.wf r -> RetryAfter.from_millis (from_be_bytes (to_be_bytes 4 (RetryAfter.millis r))) = Ok r.
Proof.
  destruct r as [v]. intros Hwf. rewrite from_to_be.
  - by apply retry_from_millis_wf.
  - unfold RetryAfter.wf, RetryAfter.MIN_MILLIS, RetryAfter.MAX_MILLIS in Hwf. simpl in *. lia.
Qed.

Lemma retry_wire_canonical l r :
  bytes l -> zlen l = 4 -> RetryAfter.from_millis (from_be_bytes l) = Ok r ->
  RetryAfter.wf r /\ to_be_bytes 4 (RetryAfter.millis r) = l.
Proof.
  intros Hb Hl [-> Hwf]%retry_from_millis_ok. split; [done|]. simpl RetryAfter.millis.
  apply to_from_be; [done|]. unfold zlen in Hl. lia.
Qed.
