(* ===== verification/Code.v ===== *)
(** * Connection codes

    The secret part, the printed form and the parser of the 80-bit one-time
    connection code of [crates/yonder-core/src/code.rs] (the locator itself is in
    [Domain]).  The base-32 codec comes from the [data-encoding] crate: it is the class
    [DataEncoding], with the crate's documented behaviour as [DataEncodingLaws] and a
    reference implementation [reference_base32] that satisfies them. *)

From S2P Require Import Prelude Domain.
Open Scope Z_scope.

(** ** The data-encoding crate *)

(** [Specification::encoding] on a symbol list, [Encoding::encode_mut] and
    [Encoding::decode_mut] (without the length of the output slice). *)
Class DataEncoding := {
  Encoding : Type;
  spec_encoding : list Z -> option Encoding;
  encode : Encoding -> list Z -> list Z;
  decode : Encoding -> list Z -> option (list Z);
}.

(** The number of symbols for [n] bytes, and the zero bits that pad the last one. *)
Definition base32_len (n : Z) : Z := (8 * n + 4) / 5.
Definition base32_pad (n : Z) : Z := 5 * base32_len n - 8 * n.

(** The symbol of a 5-bit value. *)
Definition symbol (symbols : list Z) (d : Z) : Z := nth (Z.to_nat d) symbols 0.

(** The bits of the input, most significant first, padded with zero bits to a whole
    number of symbols. *)
Definition base32 (symbols : list Z) (l : list Z) : list Z :=
  symbol symbols <$>
    digits_be 32 (Z.to_nat (base32_len (zlen l))) (from_be_bytes l * 2 ^ base32_pad (zlen l)).

(** A specification with 32 distinct ASCII symbols, no padding and the default options is
    valid; it encodes as [base32] and decodes exactly the canonical encodings. *)
Class DataEncodingLaws `{DataEncoding} : Prop := {
  spec_encoding_valid symbols :
    length symbols = 32%nat -> NoDup symbols -> Forall (fun b => 0 <= b < 128) symbols ->
    is_Some (spec_encoding symbols);
  encode_spec symbols e l :
    length symbols = 32%nat -> spec_encoding symbols = Some e -> bytes l ->
    encode e l = base32 symbols l;
  decode_spec symbols e t l :
    length symbols = 32%nat -> spec_encoding symbols = Some e ->
    decode e t = Some l <-> bytes l /\ encode e l = t;
}.

(** "0123456789ABCDEFGHJKMNPQRSTVWXYZ" *)
Definition SYMBOLS : list Z :=
  [0x30; 0x31; 0x32; 0x33; 0x34; 0x35; 0x36; 0x37; 0x38; 0x39;
   0x41; 0x42; 0x43; 0x44; 0x45; 0x46; 0x47; 0x48; 0x4A; 0x4B; 0x4D; 0x4E; 0x50; 0x51; 0x52;
   0x53; 0x54; 0x56; 0x57; 0x58; 0x59; 0x5A].

Definition SECRET_MAX : Z := Z.shiftl 1 60 - 1.

Inductive FmtError := FmtFailed.

(** ** The secret *)

Module PakeSecret.
Record t := Mk { expose_bytes : list Z }.

Definition from_bytes (bytes : list Z) : res DomainError t :=
  b0 ← index bytes 0;
  if Z.land b0 0xF0 =? 0 then Ok (Mk bytes) else Err PakeSecretOutOfRange.

Definition from_u64 (value : Z) : res DomainError t :=
  if value <=? SECRET_MAX then Ok (Mk (to_be_bytes 8 value)) else Err PakeSecretOutOfRange.

Definition random {R} `{SecureRandom R} (r : R) : res RandomError t * R :=
  match try_fill r 8 with
  | (Some bytes, r') =>
    (b0 ← index bytes 0; bytes ← set_index bytes 0 (Z.land b0 0x0F); Ok (Mk bytes), r')
  | (None, r') => (Err RandomFailed, r')
  end.

Definition wf (self : t) : Prop :=
  exists b0 rest, expose_bytes self = b0 :: rest /\ 0 <= b0 < 16 /\ zlen rest = 7 /\ bytes rest.
End PakeSecret.

(** ** The code *)

Section Codes.
Context `{DataEncoding}.

Definition crockford {E} : res E Encoding := expect_some (spec_encoding SYMBOLS).

(** [encode_mut] and [decode_mut] panic unless the output slice has the exact length. *)
Definition encode_mut {E} (e : Encoding) (input : list Z) (n : Z) : res E (list Z) :=
  _ ← assert_or_panic (n =? base32_len (zlen input)); Ok (encode e input).

Definition decode_mut {E} (e : Encoding) (input : list Z) (n : Z) : res E (option (list Z)) :=
  _ ← assert_or_panic (n =? zlen input * 5 / 8); Ok (decode e input).

Definition write_symbols {E} (self : Locator.t) : res E (list Z) :=
  match Locator.to_wire self with
  | [w0; w1; w2] =>
    let packed := [Z.lor (as_u8 (Z.shiftl w0 4)) (Z.shiftr w1 4);
                   Z.lor (as_u8 (Z.shiftl w1 4)) (Z.shiftr w2 4);
                   as_u8 (Z.shiftl w2 4)] in
    e ← crockford;
    encoded ← encode_mut e packed 5;
    slice encoded 0 4
  | _ => Panic
  end.

(** [fmt::Display for Locator] *)
Definition locator_fmt (self : Locator.t) : res FmtError (list Z) :=
  symbols ← write_symbols self;
  ok_or (from_utf8 symbols) FmtFailed.
End Codes.

Definition alphabet_contains (value : Z) : bool := existsb (fun b => b =? value) SYMBOLS.

Definition normalize_upper (value : Z) : res CodeError Z :=
  if value =? 0x4F then Ok 0x30 else
  if (value =? 0x49) || (value =? 0x4C) then Ok 0x31 else
  if value =? 0x55 then Err InvalidCharacter else
  if alphabet_contains value then Ok value else Err InvalidCharacter.

Definition normalize_symbol (source : Z) : res CodeError Z :=
  if (0x61 <=? source) && (source <=? 0x7A) then normalize_upper (source - 0x61 + 0x41) else
  if (0x41 <=? source) && (source <=? 0x5A) || (0x30 <=? source) && (source <=? 0x39)
  then normalize_upper source else Err InvalidCharacter.

Fixpoint normalize_symbols (input : list Z) : res CodeError (list Z) :=
  match input with
  | [] => Ok []
  | source :: rest =>
    d ← normalize_symbol source;
    ds ← normalize_symbols rest;
    Ok (d :: ds)
  end.

(** [&str] slicing: out of range, or inside a character, panics. *)
Definition is_char_boundary (s : list Z) (i : Z) : bool :=
  match s !! Z.to_nat i with
  | Some b => negb ((0x80 <=? b) && (b <=? 0xBF))
  | None => i =? zlen s
  end.

Definition str_slice {E} (s : list Z) (a b : Z) : res E (list Z) :=
  _ ← assert_or_panic (is_char_boundary s a && is_char_boundary s b);
  slice s a b.

Module ConnectionCode.
Record t := Mk { locator : Locator.t; secret : PakeSecret.t }.

Definition generate {R} `{SecureRandom R} (locator : Locator.t) (r : R) : res RandomError t * R :=
  let '(secret, r') := PakeSecret.random r in (Mk locator <$> secret, r').

(** [into_parts]: the components, and the zeroed secret left behind. *)
Definition into_parts (self : t) : res DomainError (Locator.t * PakeSecret.t * t) :=
  zero ← expect (PakeSecret.from_u64 0);
  Ok (locator self, secret self, Mk (locator self) zero).

Definition packed {E} (self : t) : res E (list Z) :=
  let loc := Locator.get (locator self) in
  let sec := PakeSecret.expose_bytes (secret self) in
  s0 ← index sec 0;
  packed ← set_index (zeros 10) 0 (as_u8 (Z.shiftr loc 12));
  packed ← set_index packed 1 (as_u8 (Z.shiftr loc 4));
  packed ← set_index packed 2 (Z.lor (as_u8 (Z.shiftl (as_u8 loc) 4)) s0);
  tail ← slice sec 1 (zlen sec);
  copy_range packed 3 10 tail.

(** The end of [from_str]: ten bytes to the two components. *)
Definition unpack (packed : list Z) : res CodeError t :=
  p0 ← index packed 0;
  p1 ← index packed 1;
  p2 ← index packed 2;
  loc ← map_err (fun _ => InvalidEncoding)
          (Locator.new (Z.lor (Z.lor (Z.shiftl p0 12) (Z.shiftl p1 4)) (Z.shiftr p2 4)));
  secret ← set_index (zeros 8) 0 (Z.land p2 0x0F);
  tail ← slice packed 3 (zlen packed);
  secret ← copy_range secret 1 8 tail;
  sec ← map_err (fun _ => InvalidEncoding) (PakeSecret.from_bytes secret);
  Ok (Mk loc sec).

(** The 16 symbols of the input, without the hyphens of the grouped form. *)
Definition compact (bytes : list Z) : res CodeError (list Z) :=
  if zlen bytes =? 16 then Ok bytes else
  if zlen bytes =? 19 then
    b4 ← index bytes 4; b9 ← index bytes 9; b14 ← index bytes 14;
    if negb (b4 =? 0x2D) || negb (b9 =? 0x2D) || negb (b14 =? 0x2D) then Err InvalidGrouping else
    g0 ← slice bytes 0 4; g1 ← slice bytes 5 9; g2 ← slice bytes 10 14; g3 ← slice bytes 15 19;
    c ← copy_range (zeros 16) 0 4 g0;
    c ← copy_range c 4 8 g1;
    c ← copy_range c 8 12 g2;
    copy_range c 12 16 g3
  else Err InvalidLengthCode.

Section Parse.
Context `{DataEncoding}.

Definition from_str (input : list Z) : res CodeError t :=
  symbols ← compact input;
  normalized ← normalize_symbols symbols;
  e ← crockford;
  decoded ← decode_mut e normalized 10;
  packed ← ok_or decoded InvalidEncoding;
  unpack packed.

(** [fmt::Display for ExposedConnectionCode] *)
Definition exposed_fmt (self : t) : res FmtError (list Z) :=
  packed ← packed self;
  e ← crockford;
  encoded ← encode_mut e packed 16;
  symbols ← ok_or (from_utf8 encoded) FmtFailed;
  s0 ← str_slice symbols 0 4;
  s1 ← str_slice symbols 4 8;
  s2 ← str_slice symbols 8 12;
  s3 ← str_slice symbols 12 (zlen symbols);
  Ok (s0 ++ [0x2D] ++ s1 ++ [0x2D] ++ s2 ++ [0x2D] ++ s3).
End Parse.

Definition wf (self : t) : Prop := Locator.wf (locator self) /\ PakeSecret.wf (secret self).
End ConnectionCode.

(** ** Packing *)

(** The ten bytes of a code, as arithmetic. *)
Lemma packed_eq {E} v s0 rest :
  0 <= v <= LOCATOR_MAX -> 0 <= s0 < 16 -> zlen rest = 7 ->
  ConnectionCode.packed (E:=E) (ConnectionCode.Mk (Locator.Mk v) (PakeSecret.Mk (s0 :: rest))) =
  Ok ([v / 4096; (v / 16) mod 256; (v mod 16) * 16 + s0] ++ rest).
Proof.
  rewrite LOCATOR_MAX_val. intros Hv Hs Hr. explode rest Hr.
  assert (H0 : as_u8 (Z.shiftr v 12) = v / 4096).
  { unfold as_u8. rewrite Z.shiftr_div_pow2 by lia. change (2 ^ 12) with 4096.
    Z.to_euclidean_division_equations; lia. }
  assert (H1 : as_u8 (Z.shiftr v 4) = (v / 16) mod 256).
  { unfold as_u8. by rewrite Z.shiftr_div_pow2 by lia. }
  assert (H2 : Z.lor (as_u8 (Z.shiftl (as_u8 v) 4)) s0 = v mod 16 * 16 + s0).
  { change 16 with (2 ^ 4) at 2. rewrite <- lor_shiftl_add by lia. f_equal.
    unfold as_u8. rewrite !Z.shiftl_mul_pow2 by lia. change (2 ^ 4) with 16.
    change (2 ^ 8) with 256. Z.to_euclidean_division_equations; lia. }
  unfold ConnectionCode.packed. cbn [ConnectionCode.locator ConnectionCode.secret Locator.get
    PakeSecret.expose_bytes]. cbv zeta.
  change (index _ 0) with (Ok (E:=E) s0). cbn [mbind res_bind]. rewrite H0, H1, H2. reflexivity.
Qed.

Lemma unpack_eq p0 p1 p2 rest :
  is_u8 p0 -> is_u8 p1 -> is_u8 p2 -> zlen rest = 7 ->
  ConnectionCode.unpack ([p0; p1; p2] ++ rest) =
  Ok (ConnectionCode.Mk (Locator.Mk (p0 * 4096 + p1 * 16 + p2 / 16))
        (PakeSecret.Mk (p2 mod 16 :: rest))).
Proof.
  unfold is_u8. intros H0 H1 H2 Hr. explode rest Hr.
  assert (Hv : Z.lor (Z.lor (Z.shiftl p0 12) (Z.shiftl p1 4)) (Z.shiftr p2 4) =
               p0 * 4096 + p1 * 16 + p2 / 16).
  { replace (Z.lor (Z.shiftl p0 12) (Z.shiftl p1 4)) with (Z.shiftl (p0 * 256 + p1) 4).
    2:{ change 256 with (2 ^ 8). rewrite <- (lor_shiftl_add p0 p1 8) by lia.
        by rewrite Z.shiftl_lor, Z.shiftl_shiftl by lia. }
    rewrite Z.shiftr_div_pow2, lor_shiftl_add
      by (change (2 ^ 4) with 16; Z.to_euclidean_division_equations; lia).
    change (2 ^ 4) with 16. lia. }
  assert (Hm : Z.land p2 0x0F = p2 mod 16) by (by rewrite (land_ones_mod p2 4 15)).
  assert (Hl : Locator.new (p0 * 4096 + p1 * 16 + p2 / 16) =
               Ok (Locator.Mk (p0 * 4096 + p1 * 16 + p2 / 16))).
  { apply locator_new_wf. unfold Locator.wf. rewrite LOCATOR_MAX_val. cbn [Locator.get].
    Z.to_euclidean_division_equations; lia. }
  assert (Hs : (Z.land (p2 mod 16) 0xF0 =? 0) = true).
  { rewrite land_F0 by (unfold is_u8; Z.to_euclidean_division_equations; lia).
    apply Z.ltb_lt. Z.to_euclidean_division_equations; lia. }
  unfold ConnectionCode.unpack. cbn [app].
  change (index _ 0) with (Ok (E:=CodeError) p0). change (index _ 1) with (Ok (E:=CodeError) p1).
  change (index _ 2) with (Ok (E:=CodeError) p2). cbn [mbind res_bind].
  rewrite Hv, Hm, Hl. cbn [map_err mbind res_bind].
  change (set_index (zeros 8) 0 (p2 mod 16)) with (Ok (E:=CodeError) [p2 mod 16; 0; 0; 0; 0; 0; 0; 0]).
  match goal with |- context [slice ?l 3 ?n] => change (slice l 3 n) with (Ok (E:=CodeError) (drop 3 l)) end.
  cbn [mbind res_bind drop].
  match goal with |- context [copy_range ?b 1 8 ?l] =>
    change (copy_range b 1 8 l) with (Ok (E:=CodeError) (p2 mod 16 :: l)) end.
  cbn [mbind res_bind]. unfold PakeSecret.from_bytes.
  change (index _ 0) with (Ok (E:=DomainError) (p2 mod 16)). cbn [mbind res_bind].
  by rewrite Hs.
Qed.

(** ** Symbols *)

Definition is_symbol (b : Z) : Prop := alphabet_contains b = true.

Lemma is_symbol_digit b : is_symbol b <-> exists d, 0 <= d < 32 /\ symbol SYMBOLS d = b.
Proof.
  unfold is_symbol, alphabet_contains. rewrite existsb_exists. split.
  - intros (c & Hc & ->%Z.eqb_eq). apply (In_nth _ _ 0) in Hc as (n & Hn & <-).
    exists (Z.of_nat n). simpl length in Hn. split; [lia|]. unfold symbol. by rewrite Nat2Z.id.
  - intros (d & Hd & <-). exists (symbol SYMBOLS d). split; [|apply Z.eqb_refl].
    apply nth_In. simpl length. lia.
Qed.

Lemma symbols_are_ascii : Forall (fun b => 0 <= b < 128) SYMBOLS.
Proof. repeat constructor; lia. Qed.

Lemma is_symbol_cases b : is_symbol b -> In b SYMBOLS.
Proof.
  unfold is_symbol, alphabet_contains. rewrite existsb_exists. intros (c & Hc & ->%Z.eqb_eq). done.
Qed.

Lemma is_symbol_ascii b : is_symbol b -> 0 <= b < 128.
Proof.
  intros Hb%is_symbol_cases. pose proof symbols_are_ascii as H. rewrite List.Forall_forall in H. eauto.
Qed.

Lemma normalize_symbol_id b : is_symbol b -> normalize_symbol b = Ok b.
Proof.
  intros Hb%is_symbol_cases.
  assert (H : Forall (fun b => normalize_symbol b = Ok b) SYMBOLS) by (repeat constructor).
  rewrite List.Forall_forall in H. eauto.
Qed.

Lemma normalize_upper_ok b d : normalize_upper b = Ok d -> is_symbol d.
Proof. unfold normalize_upper. intros H. repeat case_match; inv_ok; try done. Qed.

Lemma normalize_symbol_ok b d : normalize_symbol b = Ok d -> is_symbol d.
Proof. unfold normalize_symbol. repeat case_match; try done; apply normalize_upper_ok. Qed.

Lemma normalize_symbol_cases b :
  (exists d, normalize_symbol b = Ok d) \/ normalize_symbol b = Err InvalidCharacter.
Proof. unfold normalize_symbol, normalize_upper. repeat case_match; eauto. Qed.

Lemma normalize_symbols_id l : Forall is_symbol l -> normalize_symbols l = Ok l.
Proof.
  induction 1 as [|b l Hb _ IH]; [done|]. cbn [normalize_symbols].
  by rewrite normalize_symbol_id, IH.
Qed.

Lemma normalize_symbols_ok l n :
  normalize_symbols l = Ok n -> Forall is_symbol n /\ zlen n = zlen l.
Proof.
  revert n. induction l as [|b l IH]; cbn [normalize_symbols]; intros n H; inv_ok; [done|].
  match goal with H1 : normalize_symbol b = Ok _, H2 : normalize_symbols l = Ok _ |- _ =>
    apply normalize_symbol_ok in H1; apply IH in H2 as [? ?] end.
  split; [by constructor|zlen_tac].
Qed.

Lemma normalize_symbols_cases l :
  (exists n, normalize_symbols l = Ok n) \/ normalize_symbols l = Err InvalidCharacter.
Proof.
  induction l as [|b l IH]; cbn [normalize_symbols]; [eauto|].
  destruct (normalize_symbol_cases b) as [[d ->]| ->]; [|by right].
  destruct IH as [[n ->]| ->]; cbn [mbind res_bind]; eauto.
Qed.

Lemma normalize_symbols_err l :
  normalize_symbols l = Err InvalidCharacter ->
  Exists (fun b => normalize_symbol b = Err InvalidCharacter) l.
Proof.
  induction l as [|b l IH]; cbn [normalize_symbols]; [done|].
  destruct (normalize_symbol_cases b) as [[d Hd]|Hb]; [|by left].
  rewrite Hd. cbn [mbind res_bind]. intros Hn. right. apply IH.
  destruct (normalize_symbols l); cbn in Hn; congruence.
Qed.

(** ** Base 32 on ten bytes *)

Lemma base32_symbols l : Forall is_symbol (base32 SYMBOLS l).
Proof.
  unfold base32. apply Forall_fmap. eapply Forall_impl; [apply (digits_be_range 32 ltac:(lia))|].
  intros d Hd. apply is_symbol_digit. by exists d.
Qed.

Lemma zlen_base32 l : zlen l = 10 -> zlen (base32 SYMBOLS l) = 16.
Proof.
  intros Hl. unfold base32, zlen. rewrite length_fmap, length_digits_be.
  unfold zlen in Hl. rewrite Hl. done.
Qed.

Lemma base32_ten l :
  zlen l = 10 -> base32 SYMBOLS l = symbol SYMBOLS <$> digits_be 32 16 (from_be_bytes l).
Proof.
  intros Hl. unfold base32. rewrite Hl. change (2 ^ base32_pad 10) with 1. by rewrite Z.mul_1_r.
Qed.

(** Sixteen symbols are the encoding of ten bytes. *)
Lemma base32_onto s :
  zlen s = 16 -> Forall is_symbol s -> exists l, zlen l = 10 /\ bytes l /\ base32 SYMBOLS l = s.
Proof.
  intros Hl Hs.
  assert (exists ds, Forall (fun d => 0 <= d < 32) ds /\ symbol SYMBOLS <$> ds = s) as (ds & Hd & <-).
  { clear Hl. induction Hs as [|b s Hb _ (ds & Hd & <-)]; [by exists []|].
    apply is_symbol_digit in Hb as (d & Hr & <-). exists (d :: ds). by split; [constructor|]. }
  assert (Hlen : length ds = 16%nat) by (unfold zlen in Hl; rewrite length_fmap in Hl; lia).
  pose proof (of_digits_be_range 32 ltac:(lia) ds Hd) as Hr. rewrite Hlen in Hr.
  exists (to_be_bytes 10 (of_digits_be 32 ds)). split_and!; [by rewrite zlen_to_be|apply bytes_to_be|].
  rewrite base32_ten by (by rewrite zlen_to_be). rewrite from_to_be by exact Hr. f_equal.
  by apply digits_of_digits.
Qed.

Lemma symbols_distinct : NoDup SYMBOLS.
Proof. by apply (bool_decide_unpack (NoDup SYMBOLS)). Qed.

Lemma symbol_inj d1 d2 :
  0 <= d1 < 32 -> 0 <= d2 < 32 -> symbol SYMBOLS d1 = symbol SYMBOLS d2 -> d1 = d2.
Proof.
  intros H1 H2 He. pose proof symbols_distinct as Hn. rewrite NoDup_ListNoDup in Hn.
  pose proof (proj1 (NoDup_nth SYMBOLS 0) Hn (Z.to_nat d1) (Z.to_nat d2)) as Hi.
  simpl length in Hi. specialize (Hi ltac:(lia) ltac:(lia) He). lia.
Qed.

Lemma base32_ten_inj p q :
  zlen p = 10 -> zlen q = 10 -> bytes p -> bytes q ->
  symbol SYMBOLS <$> digits_be 32 16 (from_be_bytes p) =
  symbol SYMBOLS <$> digits_be 32 16 (from_be_bytes q) -> p = q.
Proof.
  intros Hp Hq Hbp Hbq Heq. pose proof (from_be_range p Hbp) as Hrp. pose proof (from_be_range q Hbq) as Hrq.
  unfold zlen in *. rewrite Hp in Hrp. rewrite Hq in Hrq.
  assert (Hinj : forall l1 l2, Forall (fun d => 0 <= d < 32) l1 -> Forall (fun d => 0 <= d < 32) l2 ->
    symbol SYMBOLS <$> l1 = symbol SYMBOLS <$> l2 -> l1 = l2).
  { intros l1 l2 H1. revert l2. induction H1 as [|d l1 Hd _ IH]; intros [|d2 l2] H2 He; [done..|].
    apply Forall_cons in H2 as [Hd2 H2]. injection He as He1 He2. f_equal; [|by apply IH].
    by apply symbol_inj. }
  apply Hinj in Heq; [|by apply (digits_be_range 32)..].
  apply (digits_be_inj 32 ltac:(lia) 16 _ _ Hrp Hrq) in Heq. apply (f_equal (to_be_bytes 10)) in Heq.
  rewrite (to_from_be 10 p), (to_from_be 10 q) in Heq by (done || lia). done.
Qed.

(** ** Grouping *)

Definition grouped (s : list Z) : list Z :=
  take 4 s ++ [0x2D] ++ take 4 (drop 4 s) ++ [0x2D] ++ take 4 (drop 8 s) ++ [0x2D] ++ drop 12 s.

Lemma zlen_grouped s : zlen (grouped s) = 19 -> zlen s = 16.
Proof.
  unfold grouped. intros H. rewrite !zlen_app in H. unfold zlen in *.
  rewrite !length_take, !length_drop in H. cbn [length] in H. lia.
Qed.

Lemma compact_grouped s : zlen s = 16 -> ConnectionCode.compact (grouped s) = Ok s.
Proof. intros Hs. explode s Hs. reflexivity. Qed.

Lemma compact_ok input s :
  ConnectionCode.compact input = Ok s -> zlen s = 16 /\ (input = s \/ input = grouped s).
Proof.
  unfold ConnectionCode.compact. destruct (Z.eqb_spec (zlen input) 16) as [H16|_].
  - intros [= <-]. eauto.
  - destruct (Z.eqb_spec (zlen input) 19) as [H19|_]; [|done]. explode input H19.
    match goal with |- context [index ?l 4] => match l with
      [_; _; _; _; ?a; _; _; _; _; ?b; _; _; _; _; ?c; _; _; _; _] =>
      change (index l 4) with (Ok (E:=CodeError) a); change (index l 9) with (Ok (E:=CodeError) b);
      change (index l 14) with (Ok (E:=CodeError) c); cbn [mbind res_bind];
      destruct (Z.eqb_spec a 0x2D); [|done]; destruct (Z.eqb_spec b 0x2D); [|done];
      destruct (Z.eqb_spec c 0x2D); [|done]; subst a b c end end.
    intros H. vm_compute in H. injection H as <-. split; [done|]. by right.
Qed.

Lemma compact_cases input :
  (exists s, ConnectionCode.compact input = Ok s) \/
  (zlen input <> 16 /\ zlen input <> 19 /\ ConnectionCode.compact input = Err InvalidLengthCode) \/
  (zlen input = 19 /\ ConnectionCode.compact input = Err InvalidGrouping).
Proof.
  unfold ConnectionCode.compact. destruct (Z.eqb_spec (zlen input) 16) as [H16|]; [eauto|].
  destruct (Z.eqb_spec (zlen input) 19) as [H19|]; [|by right; left].
  rewrite H19. explode input H19.
  match goal with |- context [index ?l 4] => match l with
    [_; _; _; _; ?a; _; _; _; _; ?b; _; _; _; _; ?c; _; _; _; _] =>
    change (index l 4) with (Ok (E:=CodeError) a); change (index l 9) with (Ok (E:=CodeError) b);
    change (index l 14) with (Ok (E:=CodeError) c) end end.
  cbn [mbind res_bind]. destruct (_ || _ || _); [by right; right|left]. by eexists.
Qed.

(** ** Printing and parsing *)

Lemma index_ascii_boundary s i :
  Forall (fun b => 0 <= b < 128) s -> 0 <= i <= zlen s -> is_char_boundary s i = true.
Proof.
  intros Hs Hi. unfold is_char_boundary. destruct (s !! Z.to_nat i) as [b|] eqn:E.
  - rewrite Forall_lookup in Hs. specialize (Hs _ _ E). cbv beta in Hs.
    destruct (Z.leb_spec 0x80 b); [lia|done].
  - apply lookup_ge_None in E. apply Z.eqb_eq. unfold zlen in *. lia.
Qed.

Lemma str_slice_ascii {E} s a b :
  Forall (fun b => 0 <= b < 128) s -> 0 <= a <= b -> b <= zlen s ->
  str_slice (E:=E) s a b = slice s a b.
Proof. intros. unfold str_slice. by rewrite !index_ascii_boundary by (done || lia). Qed.

Section CodeLemmas.
Context `{DataEncodingLaws}.

Lemma crockford_eq {E} :
  exists e, crockford (E:=E) = Ok e /\ spec_encoding SYMBOLS = Some e.
Proof.
  destruct (spec_encoding_valid SYMBOLS) as [e He];
    [reflexivity|exact symbols_distinct|exact symbols_are_ascii|].
  exists e. unfold crockford. by rewrite He.
Qed.

(** Printing: the symbols of the ten packed bytes in four groups. *)
Lemma exposed_fmt_eq c p :
  ConnectionCode.packed c = Ok (E:=FmtError) p -> zlen p = 10 -> bytes p ->
  ConnectionCode.exposed_fmt c = Ok (grouped (base32 SYMBOLS p)).
Proof.
  intros Hp Hl Hb. unfold ConnectionCode.exposed_fmt, encode_mut.
  destruct (crockford_eq (E:=FmtError)) as (e & -> & He). rewrite Hp.
  cbn [mbind res_bind]. rewrite Hl. change (assert_or_panic _) with (Ok (E:=FmtError) tt). cbn [mbind res_bind].
  rewrite (encode_spec SYMBOLS) by done.
  pose proof (base32_symbols p) as Hs. pose proof (zlen_base32 p Hl) as Hn.
  assert (Ha : Forall (fun b => 0 <= b < 128) (base32 SYMBOLS p))
    by (eapply Forall_impl; [exact Hs|exact is_symbol_ascii]).
  unfold from_utf8. rewrite utf8_chars_ascii by done. cbn [ok_or mbind res_bind].
  rewrite !str_slice_ascii by (done || lia). clear -Hn.
  generalize dependent (base32 SYMBOLS p). intros s Hn. explode s Hn. reflexivity.
Qed.

(** Parsing: what the 16 symbols decode to. *)
Lemma from_str_eq input s n :
  ConnectionCode.compact input = Ok s -> normalize_symbols s = Ok n ->
  exists p, zlen p = 10 /\ bytes p /\ base32 SYMBOLS p = n /\
    ConnectionCode.from_str input = ConnectionCode.unpack p.
Proof.
  intros Hc Hn. destruct (compact_ok _ _ Hc) as [Hs _].
  destruct (normalize_symbols_ok _ _ Hn) as [Hsym Hl].
  destruct (base32_onto n) as (p & Hp & Hb & Hpn); [lia|done|].
  exists p. split_and!; [done..|]. unfold ConnectionCode.from_str, decode_mut. rewrite Hc.
  cbn [mbind res_bind]. rewrite Hn. cbn [mbind res_bind].
  destruct (crockford_eq (E:=CodeError)) as (e & -> & He). cbn [mbind res_bind]. rewrite Hl, Hs.
  change (assert_or_panic _) with (Ok (E:=CodeError) tt). cbn [mbind res_bind].
  assert (Hd : decode e n = Some p).
  { apply (decode_spec SYMBOLS); [done|done|]. split; [done|]. by rewrite (encode_spec SYMBOLS). }
  by rewrite Hd.
Qed.
End CodeLemmas.

(** The two bijections between codes and ten bytes. *)
Lemma packed_unpack {E} p :
  zlen p = 10 -> bytes p ->
  exists c, ConnectionCode.unpack p = Ok c /\ ConnectionCode.wf c /\
    ConnectionCode.packed (E:=E) c = Ok p.
Proof.
  intros Hl Hb. destruct p as [|p0 [|p1 [|p2 rest]]]; [exfalso; zlen_tac..|].
  split_forall. assert (Hr : zlen rest = 7) by zlen_tac.
  pose proof (unpack_eq p0 p1 p2 rest ltac:(done) ltac:(done) ltac:(done) Hr) as Hu.
  unfold is_u8 in *. eexists; split_and!; [exact Hu| |].
  - split; [unfold Locator.wf; cbn; rewrite LOCATOR_MAX_val; Z.to_euclidean_division_equations; lia|].
    eexists _, _. split_and!; [done|Z.to_euclidean_division_equations; lia..|done|done].
  - rewrite packed_eq; [|rewrite LOCATOR_MAX_val|..|done];
      [|Z.to_euclidean_division_equations; lia..].
    cbn [app]. repeat f_equal; Z.to_euclidean_division_equations; lia.
Qed.

Lemma unpack_packed {E} c :
  ConnectionCode.wf c ->
  exists p, ConnectionCode.packed (E:=E) c = Ok p /\ zlen p = 10 /\ bytes p /\
    ConnectionCode.unpack p = Ok c.
Proof.
  destruct c as [[v] [sec]]. unfold ConnectionCode.wf, Locator.wf, PakeSecret.wf.
  cbn [ConnectionCode.locator ConnectionCode.secret Locator.get PakeSecret.expose_bytes].
  intros [Hv (b0 & rest & -> & Hb0 & Hl & Hb)]. rewrite packed_eq by done. rewrite LOCATOR_MAX_val in Hv.
  eexists; split_and!; [done|zlen_tac| |].
  - apply Forall_app. split; [|done].
    repeat constructor; unfold is_u8; Z.to_euclidean_division_equations; lia.
  - rewrite unpack_eq by (done || unfold is_u8; Z.to_euclidean_division_equations; lia).
    repeat f_equal; Z.to_euclidean_division_equations; lia.
Qed.

(** The locator's own four symbols. *)
Lemma locator_packed v :
  0 <= v <= LOCATOR_MAX ->
  match Locator.to_wire (Locator.Mk v) with
  | [w0; w1; w2] =>
    [Z.lor (as_u8 (Z.shiftl w0 4)) (Z.shiftr w1 4);
     Z.lor (as_u8 (Z.shiftl w1 4)) (Z.shiftr w2 4); as_u8 (Z.shiftl w2 4)]
  | _ => []
  end = to_be_bytes 3 (v * 16).
Proof.
  rewrite LOCATOR_MAX_val. intros Hv. rewrite locator_to_wire_be by (unfold Locator.wf; by rewrite LOCATOR_MAX_val).
  cbv [digits_be app Locator.get]. unfold as_u8.
  assert (Hlo : forall a b, 0 <= a -> is_u8 b ->
    Z.lor (Z.shiftl a 4 mod 2 ^ 8) (Z.shiftr b 4) = (a mod 16) * 16 + b / 16).
  { unfold is_u8. intros a b Ha Hb.
    replace (Z.shiftl a 4 mod 2 ^ 8) with (Z.shiftl (a mod 16) 4).
    - rewrite Z.shiftr_div_pow2, lor_shiftl_add by (change (2 ^ 4) with 16; Z.to_euclidean_division_equations; lia).
      done.
    - rewrite !Z.shiftl_mul_pow2 by lia. change (2 ^ 4) with 16. change (2 ^ 8) with 256.
      Z.to_euclidean_division_equations; lia. }
  rewrite !Hlo by (unfold is_u8; Z.to_euclidean_division_equations; lia).
  rewrite Z.shiftl_mul_pow2 by lia. change (2 ^ 4) with 16. change (2 ^ 8) with 256.
  assert (Hcons : forall (a b c a' b' c' : Z), a = a' -> b = b' -> c = c' -> [a; b; c] = [a'; b'; c'])
    by congruence.
  apply Hcons; Z.to_euclidean_division_equations; lia.
Qed.

Lemma digits_be_add n m z :
  digits_be 32 (n + m) z = digits_be 32 n (z / 32 ^ Z.of_nat m) ++ digits_be 32 m z.
Proof.
  revert z. induction m as [|m IH]; intros z.
  - rewrite Nat.add_0_r. change (32 ^ Z.of_nat 0) with 1. by rewrite Z.div_1_r, app_nil_r.
  - rewrite Nat.add_succ_r.
    change (digits_be 32 (S (n + m)) z) with (digits_be 32 (n + m) (z / 32) ++ [z mod 32]).
    change (digits_be 32 (S m) z) with (digits_be 32 m (z / 32) ++ [z mod 32]).
    rewrite IH, Z.div_div, app_assoc by lia.
    by rewrite Nat2Z.inj_succ, Z.pow_succ_r by lia.
Qed.

Lemma packed_value v s0 rest :
  0 <= v <= LOCATOR_MAX -> 0 <= s0 < 16 -> zlen rest = 7 -> bytes rest ->
  from_be_bytes ([v / 4096; (v / 16) mod 256; (v mod 16) * 16 + s0] ++ rest) / 2 ^ 60 = v.
Proof.
  rewrite LOCATOR_MAX_val. intros Hv Hs Hl Hb. rewrite of_digits_be_app.
  pose proof (from_be_range rest Hb) as Hr. unfold zlen in Hl.
  rewrite Hl in *. change (256 ^ 7) with (2 ^ 56) in *. remember (from_be_bytes rest) as R.
  assert (He : from_be_bytes [v / 4096; (v / 16) mod 256; (v mod 16) * 16 + s0] = v * 16 + s0).
  { cbv [of_digits_be foldl]. Z.to_euclidean_division_equations; lia. }
  rewrite He. symmetry. apply Z.div_unique with (r := s0 * 2 ^ 56 + R); [left; lia|lia].
Qed.

Section CodeProperties.
Context `{DataEncodingLaws}.

Lemma locator_fmt_eq v :
  0 <= v <= LOCATOR_MAX ->
  locator_fmt (Locator.Mk v) = Ok (symbol SYMBOLS <$> digits_be 32 4 v).
Proof.
  intros Hv. pose proof (locator_packed v Hv) as Hp. unfold locator_fmt, write_symbols, encode_mut.
  destruct (Locator.to_wire (Locator.Mk v)) as [|w0 [|w1 [|w2 [|]]]] eqn:E; try done.
  rewrite Hp. destruct (crockford_eq (E:=FmtError)) as (e & -> & He). cbn [mbind res_bind].
  rewrite zlen_to_be. change (assert_or_panic _) with (Ok (E:=FmtError) tt). cbn [mbind res_bind].
  rewrite (encode_spec SYMBOLS) by (done || apply bytes_to_be). unfold base32. rewrite zlen_to_be.
  rewrite LOCATOR_MAX_val in Hv. rewrite from_to_be by (simpl; lia).
  change (Z.to_nat (base32_len (Z.of_nat 3))) with (4 + 1)%nat.
  change (2 ^ base32_pad (Z.of_nat 3)) with 2. rewrite digits_be_add, fmap_app.
  change (32 ^ Z.of_nat 1) with 32. replace (v * 16 * 2) with (v * 32) by lia. rewrite Z.div_mul by lia.
  rewrite slice_head by (unfold zlen; rewrite length_fmap, length_digits_be; done).
  cbn [mbind res_bind]. unfold from_utf8. rewrite utf8_chars_ascii; [done|].
  apply Forall_fmap. eapply Forall_impl; [apply (digits_be_range 32 ltac:(lia))|].
  intros d Hd. apply is_symbol_ascii, is_symbol_digit. by exists d.
Qed.

(** Every valid code has a printed form of 19 characters, and parsing that form, or
    the same 16 symbols without the hyphens, gives the code back. *)
Theorem code_print_parse c :
  ConnectionCode.wf c ->
  exists s, zlen s = 16 /\ ConnectionCode.exposed_fmt c = Ok (grouped s) /\
    ConnectionCode.from_str (grouped s) = Ok c /\ ConnectionCode.from_str s = Ok c.
Proof.
  intros Hwf. destruct (unpack_packed (E:=FmtError) c Hwf) as (p & Hp & Hl & Hb & Hu).
  pose proof (zlen_base32 p Hl) as Hn. pose proof (normalize_symbols_id _ (base32_symbols p)) as Hnorm.
  exists (base32 SYMBOLS p). split_and!; [done|by apply exposed_fmt_eq|..].
  - destruct (from_str_eq _ _ _ (compact_grouped _ Hn) Hnorm) as (q & Hq & Hbq & Heq & ->).
    rewrite !base32_ten in Heq by done. rewrite <- Hu. f_equal.
    by apply (base32_ten_inj q p).
  - assert (Hc : ConnectionCode.compact (base32 SYMBOLS p) = Ok (base32 SYMBOLS p))
      by (unfold ConnectionCode.compact; by rewrite Hn).
    destruct (from_str_eq _ _ _ Hc Hnorm) as (q & Hq & Hbq & Heq & ->).
    rewrite !base32_ten in Heq by done. rewrite <- Hu. f_equal.
    by apply (base32_ten_inj q p).
Qed.

(** The parser, on every input: a length other than 16 or 19 is [InvalidLength], a
    19-byte input without the three hyphens is [InvalidGrouping], a character outside
    the alphabet and its aliases is [InvalidCharacter], and everything else is a valid
    code whose printed form is the normalised spelling of the input.  The parser never
    panics and never reports [InvalidEncoding]. *)
Theorem code_parse_total input :
  match ConnectionCode.from_str input with
  | Ok c => ConnectionCode.wf c /\ exists s n,
      ConnectionCode.compact input = Ok s /\ normalize_symbols s = Ok n /\
      ConnectionCode.exposed_fmt c = Ok (grouped n)
  | Err InvalidLengthCode => zlen input <> 16 /\ zlen input <> 19
  | Err InvalidGrouping => zlen input = 19 /\ forall s, input <> grouped s
  | Err InvalidCharacter => exists s,
      (input = s \/ input = grouped s) /\ zlen s = 16 /\
      Exists (fun b => normalize_symbol b = Err InvalidCharacter) s
  | Err InvalidEncoding => False
  | Panic => False
  end.
Proof.
  destruct (compact_cases input) as [[s Hc]|[(H1 & H2 & Hc)|[H1 Hc]]].
  - destruct (normalize_symbols_cases s) as [[n Hn]|Hn].
    + destruct (from_str_eq _ _ _ Hc Hn) as (p & Hl & Hb & <- & ->).
      destruct (packed_unpack (E:=FmtError) p Hl Hb) as (c & -> & Hwf & Hp).
      split; [done|]. exists s, (base32 SYMBOLS p). split_and!; [done..|]. by apply exposed_fmt_eq.
    + unfold ConnectionCode.from_str. rewrite Hc. cbn [mbind res_bind]. rewrite Hn. cbn [mbind res_bind].
      destruct (compact_ok _ _ Hc) as [Hl Hi]. exists s. split_and!; [done..|].
      by apply normalize_symbols_err.
  - unfold ConnectionCode.from_str. rewrite Hc. done.
  - unfold ConnectionCode.from_str. rewrite Hc. split; [done|]. intros s ->.
    rewrite compact_grouped in Hc; [done|]. by apply zlen_grouped.
Qed.

(** The first group of a printed code is the printed locator, so what the relay is
    asked for is what the user sees first. *)
Theorem code_shows_locator c :
  ConnectionCode.wf c ->
  exists text, ConnectionCode.exposed_fmt c = Ok text /\
    locator_fmt (ConnectionCode.locator c) = Ok (take 4 text).
Proof.
  intros Hwf. destruct (unpack_packed (E:=FmtError) c Hwf) as (p & Hp & Hl & Hb & _).
  exists (grouped (base32 SYMBOLS p)). split; [by apply exposed_fmt_eq|].
  destruct c as [[v] [sec]], Hwf as [Hv (b0 & rest & Hs & Hb0 & Hr & Hbr)]. simpl in Hs. subst sec.
  rewrite packed_eq in Hp by done. pose proof (packed_value v b0 rest Hv Hb0 Hr Hbr) as Hpv.
  match type of Hp with Ok ?q = Ok _ => assert (q = p) as Hq by congruence; rewrite Hq in Hpv end.
  simpl ConnectionCode.locator.
  rewrite locator_fmt_eq, base32_ten by done. f_equal. unfold grouped.
  change 16%nat with (4 + 12)%nat. rewrite digits_be_add, fmap_app.
  change (32 ^ Z.of_nat 12) with (2 ^ 60). rewrite Hpv.
  set (A := symbol SYMBOLS <$> digits_be 32 4 v).
  assert (HA : length A = 4%nat) by (unfold A; by rewrite length_fmap, length_digits_be).
  clearbody A. do 5 (destruct A as [|? A]; try discriminate HA). reflexivity.
Qed.
End CodeProperties.

(** A code generated for a valid locator is valid and keeps that locator; generation
    fails only when the random source fails, and never panics.  [into_parts] then hands
    out exactly the two components and leaves the zero secret behind. *)
Theorem code_generate_valid {R} `{SecureRandomLaws R} loc (r : R) :
  Locator.wf loc ->
  match ConnectionCode.generate loc r with
  | (Ok c, _) => ConnectionCode.wf c /\ ConnectionCode.locator c = loc /\
      ConnectionCode.into_parts c =
        Ok (loc, ConnectionCode.secret c, ConnectionCode.Mk loc (PakeSecret.Mk (zeros 8)))
  | (Err _, r') => try_fill r 8 = (None, r')
  | (Panic, _) => False
  end.
Proof.
  intros Hl. unfold ConnectionCode.generate, PakeSecret.random.
  destruct (try_fill r 8) as [[l|] r'] eqn:E; [|done].
  apply try_fill_whole in E as [Hn Hb]; [|lia]. explode l Hn.
  change (index _ 0) with (Ok (E:=RandomError) z). cbn [mbind res_bind].
  match goal with |- context [set_index (_ :: ?t) 0 ?v] =>
    change (set_index (z :: t) 0 v) with (Ok (E:=RandomError) (v :: t)) end.
  cbn [mbind res_bind fmap res_fmap]. split_and!; [|done|done].
  split; [done|]. eexists _, _. split_and!; [done|..|done|by apply Forall_cons_1 in Hb as [_ Hb]].
  - rewrite (land_ones_mod z 4 15) by lia. apply Z.mod_pos_bound. lia.
  - rewrite (land_ones_mod z 4 15) by lia. apply Z.mod_pos_bound. lia.
Qed.

Lemma code_generate_valid_witness :
  fst (ConnectionCode.generate (Locator.Mk 7) (Some 0xFF : FixedRandom)) =
    Ok (ConnectionCode.Mk (Locator.Mk 7) (PakeSecret.Mk (0x0F :: replicate 7 0xFF))) /\
  ConnectionCode.wf (ConnectionCode.Mk (Locator.Mk 7) (PakeSecret.Mk (0x0F :: replicate 7 0xFF))).
Proof.
  split; [reflexivity|].
  assert (Hwf : Locator.wf (Locator.Mk 7)) by (by vm_compute).
  exact (proj1 (code_generate_valid (Locator.Mk 7) (Some 0xFF : FixedRandom) Hwf)).
Defined.

(** ** A reference implementation of the base-32 codec *)

Fixpoint position (s : list Z) (b : Z) : Z :=
  match s with [] => 0 | c :: rest => if c =? b then 0 else 1 + position rest b end.

Definition reference_decode (s t : list Z) : option (list Z) :=
  let n := zlen t * 5 / 8 in
  let l := to_be_bytes (Z.to_nat n) (of_digits_be 32 (position s <$> t) / 2 ^ base32_pad n) in
  if bool_decide (base32 s l = t) then Some l else None.

Definition reference_base32 : DataEncoding := {|
  Encoding := list Z;
  spec_encoding s :=
    if bool_decide (length s = 32%nat /\ NoDup s /\ Forall (fun b => 0 <= b < 128) s)
    then Some s else None;
  encode := base32;
  decode := reference_decode;
|}.

Lemma position_symbol s d :
  NoDup s -> 0 <= d < zlen s -> position s (symbol s d) = d.
Proof.
  unfold symbol. intros Hn Hd. rewrite <- (Z2Nat.id d) at 2 by lia.
  assert (Hk : (Z.to_nat d < length s)%nat) by (unfold zlen in Hd; lia). clear Hd.
  generalize dependent (Z.to_nat d). clear d. induction Hn as [|b s Hb _ IH]; intros k Hk; simpl in Hk; [lia|].
  destruct k as [|k]; simpl; [by rewrite Z.eqb_refl|].
  destruct (Z.eqb_spec b (nth k s 0)) as [->|].
  - destruct Hb. apply list_elem_of_In, nth_In. lia.
  - rewrite IH by lia. lia.
Qed.

Lemma base32_pad_range n : 0 <= n -> 0 <= base32_pad n <= 4 /\ base32_len n * 5 / 8 = n.
Proof. intros Hn. unfold base32_pad, base32_len. Z.to_euclidean_division_equations; lia. Qed.

Lemma reference_decode_encode s l :
  length s = 32%nat -> NoDup s -> bytes l -> reference_decode s (base32 s l) = Some l.
Proof.
  intros Hs Hn Hb. unfold reference_decode.
  assert (Hz : 0 <= zlen l) by (unfold zlen; lia). destruct (base32_pad_range (zlen l) Hz) as [Hp Hl].
  assert (Hlen : zlen (base32 s l) = base32_len (zlen l)).
  { unfold base32, zlen at 1. rewrite length_fmap, length_digits_be. unfold base32_len, zlen.
    rewrite Z2Nat.id; [done|]. apply Z.div_pos; lia. }
  rewrite Hlen, Hl. pose proof (from_be_range l Hb) as Hr. set (P := base32_pad (zlen l)) in *.
  assert (Hval : of_digits_be 32 (position s <$> base32 s l) = from_be_bytes l * 2 ^ P).
  { unfold base32. rewrite <- list_fmap_compose. fold P.
    rewrite (list_fmap_ext _ id), list_fmap_id.
    - apply (of_digits_digits_small 32); [lia|]. rewrite Z2Nat.id by (unfold base32_len; apply Z.div_pos; lia).
      split; [apply Z.mul_nonneg_nonneg; [lia|apply Z.pow_nonneg; lia]|].
      apply Z.lt_le_trans with (256 ^ zlen l * 2 ^ P);
        [apply Z.mul_lt_mono_pos_r; [apply Z.pow_pos_nonneg; lia|exact (proj2 Hr)]|].
      change 256 with (2 ^ 8). change 32 with (2 ^ 5).
      rewrite <- !Z.pow_mul_r, <- Z.pow_add_r by (unfold P, base32_pad, base32_len in *; Z.to_euclidean_division_equations; lia).
      apply Z.pow_le_mono_r; [lia|]. unfold P, base32_pad. lia.
    - intros i d Hd. pose proof (digits_be_range 32 ltac:(lia) (Z.to_nat (base32_len (zlen l)))
        (from_be_bytes l * 2 ^ P)) as Hf. rewrite Forall_lookup in Hf. specialize (Hf _ _ Hd).
      cbv beta in Hf. cbn. apply position_symbol; [done|]. unfold zlen. lia. }
  rewrite Hval, Z.div_mul by (apply Z.pow_nonzero; lia).
  cbv zeta. rewrite to_from_be by (done || (unfold zlen; lia)). by rewrite bool_decide_eq_true_2.
Qed.

#[export] Instance reference_base32_laws : DataEncodingLaws (H := reference_base32).
Proof.
  split.
  - intros s H1 H2 H3. simpl. rewrite bool_decide_eq_true_2 by done. eauto.
  - intros s e l Hs He Hb. simpl in *. case_bool_decide; [|done]. by injection He as <-.
  - intros s e t l Hs He. simpl in *. case_bool_decide as Hc; [|done]. injection He as <-. split.
    + unfold reference_decode. case_bool_decide; [|done]. intros [= <-]. split; [apply bytes_to_be|done].
    + intros [Hb <-]. destruct Hc as (_ & Hn & _). by apply reference_decode_encode.
Qed.

(** ** Witnesses *)

(** Locator 0xABCDE and secret 0x0123456789ABCDEF. *)
Definition example_code : ConnectionCode.t :=
  ConnectionCode.Mk (Locator.Mk 0xABCDE)
    (PakeSecret.Mk [0x01; 0x23; 0x45; 0x67; 0x89; 0xAB; 0xCD; 0xEF]).

Lemma example_code_wf : ConnectionCode.wf example_code.
Proof.
  split; [by vm_compute|]. eexists _, _. split_and!; [reflexivity|by vm_compute..|].
  repeat constructor; unfold is_u8; lia.
Qed.

Lemma code_print_parse_witness :
  exists s, ConnectionCode.exposed_fmt (H := reference_base32) example_code = Ok (grouped s) /\
    ConnectionCode.from_str (H := reference_base32) s = Ok example_code.
Proof.
  destruct (code_print_parse (H := reference_base32) example_code example_code_wf)
    as (s & _ & H1 & _ & H2). exact (ex_intro _ s (conj H1 H2)).
Defined.

(** "OILI-OILI-oili-OILI" is a code. *)
Lemma code_parse_total_witness :
  exists c, ConnectionCode.from_str (H := reference_base32)
    [0x4F; 0x49; 0x4C; 0x49; 0x2D; 0x4F; 0x49; 0x4C; 0x49; 0x2D;
     0x6F; 0x69; 0x6C; 0x69; 0x2D; 0x4F; 0x49; 0x4C; 0x49] = Ok c /\ ConnectionCode.wf c.
Proof.
  pose proof (code_parse_total (H := reference_base32)
    [0x4F; 0x49; 0x4C; 0x49; 0x2D; 0x4F; 0x49; 0x4C; 0x49; 0x2D;
     0x6F; 0x69; 0x6C; 0x69; 0x2D; 0x4F; 0x49; 0x4C; 0x49]) as Ht.
  destruct (ConnectionCode.from_str (H := reference_base32) _) as [c| |] eqn:E.
  - exists c. split; [reflexivity|apply Ht].
  - exfalso. vm_compute in E. discriminate E.
  - destruct Ht.
Defined.

Lemma code_shows_locator_witness :
  exists text, ConnectionCode.exposed_fmt (H := reference_base32) example_code = Ok text /\
    locator_fmt (H := reference_base32) (Locator.Mk 0xABCDE) = Ok (take 4 text).
Proof. exact (code_shows_locator (H := reference_base32) example_code example_code_wf). Defined.

(** The golden vectors of the unit tests, on the reference codec. *)
Example golden_zero :
  ConnectionCode.exposed_fmt (H := reference_base32)
    (ConnectionCode.Mk (Locator.Mk 0) (PakeSecret.Mk (zeros 8))) = Ok (grouped (replicate 16 0x30)).
Proof. vm_compute. reflexivity. Qed.

Example golden_maximum :
  ConnectionCode.exposed_fmt (H := reference_base32)
    (ConnectionCode.Mk (Locator.Mk LOCATOR_MAX) (PakeSecret.Mk (to_be_bytes 8 SECRET_MAX))) =
  Ok (grouped (replicate 16 0x5A)).
Proof. vm_compute. reflexivity. Qed.
