(* ===== verification/Codec.v ===== *)
(** * The codec interface

    What every bounded wire message of [crates/yonder-core/src/wire] promises to
    the code that sends and receives it: encoding a valid message succeeds within
    the protocol's bound and is inverted by the decoder; a decoder accepts only the
    canonical encoding of a valid message; and it never panics, whatever the peer
    sent.  The message files discharge [CodecLaws]; the client theorems below are
    proved once, against the interface. *)

From S2P Require Import Prelude Domain.
Open Scope Z_scope.

Class Codec (M : Type) := {
  enc : M -> res ProtocolError (list Z);
  dec : list Z -> res ProtocolError M;
  valid : M -> Prop;
  max_len : Z;
}.

Class CodecLaws (M : Type) `{Codec M} : Prop := {
  enc_total m : valid m -> exists l, enc m = Ok l /\ bytes l /\ zlen l <= max_len;
  dec_enc m l : valid m -> enc m = Ok l -> dec l = Ok m;
  dec_canonical l m : bytes l -> dec l = Ok m -> valid m /\ enc m = Ok l;
  dec_no_panic l : bytes l -> dec l <> Panic;
}.

(** The whole contract as one proposition, for stating it of a concrete codec. *)
Record codec_correct {M} (enc : M -> res ProtocolError (list Z))
    (dec : list Z -> res ProtocolError M) (valid : M -> Prop) (max_len : Z) : Prop := {
  cc_enc_total m : valid m -> exists l, enc m = Ok l /\ bytes l /\ zlen l <= max_len;
  cc_dec_enc m l : valid m -> enc m = Ok l -> dec l = Ok m;
  cc_dec_canonical l m : bytes l -> dec l = Ok m -> valid m /\ enc m = Ok l;
  cc_dec_no_panic l : bytes l -> dec l <> Panic;
}.

(** Builds the laws from the two directions that each message file proves. *)
Lemma codec_intro {M} (e : M -> res ProtocolError (list Z)) d (v : M -> Prop) n :
  (forall m, v m -> exists l, e m = Ok l /\ bytes l /\ zlen l <= n /\ d l = Ok m) ->
  (forall l m, bytes l -> d l = Ok m -> v m /\ e m = Ok l) ->
  (forall l, bytes l -> d l <> Panic) ->
  codec_correct e d v n.
Proof.
  intros H1 H2 H3. constructor; [|intros m l Hv He|done..].
  - intros m Hv. destruct (H1 m Hv) as (l & ? & ? & ? & ?). eauto.
  - destruct (H1 m Hv) as (l' & He' & _ & _ & Hd). rewrite He in He'. by injection He' as <-.
Qed.

(** The same for an encoder that cannot fail. *)
Lemma codec_intro_total {M} (e : M -> list Z) d (v : M -> Prop) n :
  (forall m, v m -> bytes (e m) /\ zlen (e m) <= n /\ d (e m) = Ok m) ->
  (forall l m, bytes l -> d l = Ok m -> v m /\ e m = l) ->
  (forall l, bytes l -> d l <> Panic) ->
  codec_correct (fun m => Ok (e m)) d v n.
Proof.
  intros H1 H2 H3. apply codec_intro; [|intros l m Hb Hd|done].
  - intros m Hv. destruct (H1 m Hv) as (? & ? & ?). by exists (e m).
  - destruct (H2 l m Hb Hd) as [? <-]. done.
Qed.

Lemma codec_correct_laws {M} `{!Codec M} :
  codec_correct (M:=M) enc dec valid max_len -> CodecLaws M.
Proof. by intros []. Qed.

Section Clients.
Context {M : Type} `{CodecLaws M}.

(** Distinct valid messages have distinct encodings. *)
Lemma enc_inj m1 m2 l : valid m1 -> valid m2 -> enc m1 = Ok l -> enc m2 = Ok l -> m1 = m2.
Proof.
  intros Hv1 Hv2 H1 H2. apply dec_enc in H1; [|done]. apply dec_enc in H2; [|done].
  congruence.
Qed.

(** No two byte strings mean the same message. *)
Lemma dec_inj l1 l2 m : bytes l1 -> bytes l2 -> dec l1 = Ok m -> dec l2 = Ok m -> l1 = l2.
Proof.
  intros Hb1 Hb2 H1 H2. apply dec_canonical in H1 as [_ H1]; [|done].
  apply dec_canonical in H2 as [_ H2]; [|done]. congruence.
Qed.

(** A receiver that reads at most [max_len] bytes misses no message. *)
Lemma dec_bounded l m : bytes l -> dec l = Ok m -> zlen l <= max_len.
Proof.
  intros Hb Hd. apply dec_canonical in Hd as [Hv He]; [|done].
  destruct (enc_total m Hv) as (l' & He' & _ & Hn). congruence.
Qed.

(** Every strict extension of a message is rejected: trailing bytes are never ignored
    while the same bytes without them are accepted, unless the longer string is another
    message. *)
Lemma dec_prefix_other l1 l2 m1 m2 :
  bytes (l1 ++ l2) -> dec l1 = Ok m1 -> dec (l1 ++ l2) = Ok m2 -> l2 <> [] -> m1 <> m2.
Proof.
  intros Hb H1 H2 Hne ->. assert (bytes l1) by (by apply Forall_app in Hb as []).
  pose proof (dec_inj l1 (l1 ++ l2) m2 ltac:(done) Hb H1 H2) as Heq.
  apply (f_equal length) in Heq. rewrite length_app in Heq.
  destruct l2; [done|]. simpl in Heq. lia.
Qed.
End Clients.
