(* ===== verification/WireRegistry.v ===== *)
(** * Registry and resolve messages

    [crates/yonder-core/src/wire/registry.rs] and [wire/resolve.rs]: the one-shot
    requests and responses between an endpoint and its relay. *)

From S2P Require Import Prelude Domain Codec.
Open Scope Z_scope.

(** ** Shared decoding steps *)

(** [message.try_into().map_err(InvalidLength { expected, actual })]. *)
Definition exact (n : Z) (message : list Z) : res ProtocolError (list Z) :=
  ok_or (try_into_array n message) (InvalidLength n (zlen message)).

Lemma exact_spec n l : exact n l = if zlen l =? n then Ok l else Err (InvalidLength n (zlen l)).
Proof. unfold exact, try_into_array. by destruct (_ =? _). Qed.

(** ** Registry *)

Module RegistryRequest.
Inductive t :=
| Allocate
| Reclaim (locator : Locator.t)
| Release (locator : Locator.t).

Definition LEN : Z := 4.

Definition with_locator (tag : Z) (locator : Locator.t) : list Z := tag :: Locator.to_wire locator.

Definition decode_locator (b1 b2 b3 : Z) : res ProtocolError Locator.t :=
  map_err (fun _ => InvalidField FLocator) (Locator.from_wire b1 b2 b3).

Definition encode (self : t) : list Z :=
  match self with
  | Allocate => [0x01; 0; 0; 0]
  | Reclaim locator => with_locator 0x02 locator
  | Release locator => with_locator 0x03 locator
  end.

Definition decode (message : list Z) : res ProtocolError t :=
  bytes ← exact LEN message;
  match bytes with
  | [b0; b1; b2; b3] =>
    if b0 =? 0x01 then
      if (b1 =? 0) && (b2 =? 0) && (b3 =? 0) then Ok Allocate
      else Err (InvalidField FReserved)
    else if b0 =? 0x02 then Reclaim <$> decode_locator b1 b2 b3
    else if b0 =? 0x03 then Release <$> decode_locator b1 b2 b3
    else Err (UnknownTag b0)
  | _ => Panic
  end.

Definition wf (self : t) : Prop :=
  match self with Allocate => True | Reclaim l | Release l => Locator.wf l end.
End RegistryRequest.

Module RegistryResponse.
Inductive t :=
| Acquired (locator : Locator.t)
| Released
| Retry (after : RetryAfter.t)
| Conflict
| Capacity
| ReservationRequired.

Definition LEN : Z := 5.

Definition encode (self : t) : list Z :=
  let '(tag, value) :=
    match self with
    | Acquired locator => (0x80, Locator.get locator)
    | Released => (0x81, 0)
    | Retry retry => (0x82, RetryAfter.millis retry)
    | Conflict => (0x83, 0)
    | Capacity => (0x84, 0)
    | ReservationRequired => (0x85, 0)
    end in
  tag :: to_be_bytes 4 value.

Definition zero_value (value : Z) (response : t) : res ProtocolError t :=
  if value =? 0 then Ok response else Err (InvalidField FReserved).

Definition decode (message : list Z) : res ProtocolError t :=
  bytes ← exact LEN message;
  match bytes with
  | [tag; b1; b2; b3; b4] =>
    let value := from_be_bytes [b1; b2; b3; b4] in
    if tag =? 0x80 then
      map_err (fun _ => InvalidField FLocator) (Acquired <$> Locator.new value)
    else if tag =? 0x81 then zero_value value Released
    else if tag =? 0x82 then
      map_err (fun _ => InvalidField FRetryAfter) (Retry <$> RetryAfter.from_millis value)
    else if tag =? 0x83 then zero_value value Conflict
    else if tag =? 0x84 then zero_value value Capacity
    else if tag =? 0x85 then zero_value value ReservationRequired
    else Err (UnknownTag tag)
  | _ => Panic
  end.

Definition wf (self : t) : Prop :=
  match self with Acquired l => Locator.wf l | Retry r => RetryAfter.wf r | _ => True end.
End RegistryResponse.

(** ** Resolve *)

Module ResolveRequest.
Record t := Mk { locator : Locator.t }.

Definition LEN : Z := 3.

Definition encode (self : t) : list Z := Locator.to_wire (locator self).

Definition decode (message : list Z) : res ProtocolError t :=
  bytes ← exact LEN message;
  match bytes with
  | [b0; b1; b2] =>
    map_err (fun _ => InvalidField FLocator) (Mk <$> Locator.from_wire b0 b1 b2)
  | _ => Panic
  end.

Definition wf (self : t) : Prop := Locator.wf (locator self).
End ResolveRequest.

Module ResolveResponse.
Inductive t :=
| Resolved (peer : PeerIdBytes.t)
| Retry (after : RetryAfter.t)
| Unavailable.

Definition MAX_LEN : Z := 66.

(** Each branch writes into the zeroed 66-byte buffer, as the source does. *)
Definition encode (self : t) : res ProtocolError WireBytes.t :=
  let bytes := zeros MAX_LEN in
  match self with
  | Resolved peer =>
    let id := PeerIdBytes.as_bytes peer in
    bytes ← set_index bytes 0 0x80;
    bytes ← set_index bytes 1 (as_u8 (zlen id));
    bytes ← copy_range bytes 2 (2 + zlen id) id;
    WireBytes.new bytes (2 + zlen id)
  | Retry retry =>
    bytes ← set_index bytes 0 0x81;
    bytes ← copy_range bytes 1 5 (to_be_bytes 4 (RetryAfter.millis retry));
    WireBytes.new bytes 5
  | Unavailable =>
    bytes ← set_index bytes 0 0x82;
    WireBytes.new bytes 1
  end.

Definition decode_resolved (payload : list Z) : res ProtocolError t :=
  match payload with
  | [] => Err (InvalidField FPeerId)
  | length :: peer =>
    if negb (zlen peer =? length) then Err (InvalidLength (length + 2) (zlen peer + 2))
    else map_err (fun _ => InvalidField FPeerId) (Resolved <$> PeerIdBytes.new peer)
  end.

Definition decode_retry (payload : list Z) : res ProtocolError t :=
  bytes ← ok_or (try_into_array 4 payload) (InvalidLength 5 (zlen payload + 1));
  map_err (fun _ => InvalidField FRetryAfter) (Retry <$> RetryAfter.from_millis (from_be_bytes bytes)).

Definition decode (message : list Z) : res ProtocolError t :=
  match message with
  | [] => Err (InvalidLength 1 0)
  | tag :: payload =>
    if tag =? 0x80 then decode_resolved payload
    else if tag =? 0x81 then decode_retry payload
    else if tag =? 0x82 then
      if zlen payload =? 0 then Ok Unavailable else Err TrailingBytes
    else Err (UnknownTag tag)
  end.

Definition wf (self : t) : Prop :=
  match self with Resolved p => PeerIdBytes.wf p | Retry r => RetryAfter.wf r | Unavailable => True end.
End ResolveResponse.

(** ** The registry codecs *)

Lemma exact_ok n l l' : exact n l = Ok l' <-> l' = l /\ zlen l = n.
Proof. unfold exact. rewrite ok_or_ok. apply try_into_array_some. Qed.

Lemma exact_eq n l : zlen l = n -> exact n l = Ok l.
Proof. intros. by apply exact_ok. Qed.

Lemma exact_no_panic n l : exact n l <> Panic.
Proof. apply ok_or_no_panic. Qed.

#[export] Hint Resolve exact_no_panic : yon.

Lemma locator_new_no_panic v : Locator.new v <> Panic.
Proof. unfold Locator.new. no_panic. Qed.
Lemma locator_from_wire_no_panic b0 b1 b2 : Locator.from_wire b0 b1 b2 <> Panic.
Proof. unfold Locator.from_wire. no_panic. Qed.
Lemma retry_from_millis_no_panic v : RetryAfter.from_millis v <> Panic.
Proof. unfold RetryAfter.from_millis. no_panic. Qed.

#[export] Hint Resolve locator_new_no_panic locator_from_wire_no_panic
  retry_from_millis_no_panic : yon.

(** The three wire bytes of a locator, and what reads them back. *)
Lemma locator_wire_triple loc :
  Locator.wf loc ->
  exists b0 b1 b2, Locator.to_wire loc = [b0; b1; b2] /\ bytes [b0; b1; b2] /\
  Locator.from_wire b0 b1 b2 = Ok loc.
Proof.
  intros Hwf. do 3 eexists. split; [done|]. split; [by apply bytes_locator_to_wire|].
  by apply locator_from_to_wire.
Qed.

Lemma registry_request_codec_lemma :
  codec_correct (fun m => Ok (RegistryRequest.encode m)) RegistryRequest.decode
    RegistryRequest.wf RegistryRequest.LEN.
Proof.
  apply codec_intro_total.
  - intros [|loc|loc] Hwf; [split_and!; [bytes_tac|done|done]|..];
      destruct (locator_wire_triple loc Hwf) as (b0 & b1 & b2 & Hw & Hb & Hf);
      unfold RegistryRequest.encode, RegistryRequest.with_locator; rewrite Hw;
      (split_and!; [bytes_tac|done|]);
      unfold RegistryRequest.decode, RegistryRequest.decode_locator; simpl; by rewrite Hf.
  - unfold RegistryRequest.decode, RegistryRequest.decode_locator. intros l m Hb H.
    apply res_bind_ok in H as (l' & [-> Hl]%exact_ok & H). explode l Hl. split_forall.
    inv_ok; subst; try done;
      match goal with
      | Hf : Locator.from_wire _ _ _ = Ok _ |- _ =>
          apply locator_from_wire_ok in Hf as [? Hw]; [|done..]
      end;
      (split; [done|]); simpl; unfold RegistryRequest.with_locator; by rewrite Hw.
  - intros l Hb. unfold RegistryRequest.decode, RegistryRequest.decode_locator. no_panic.
    apply exact_ok in H as [-> Hl]. explode l Hl. no_panic.
Qed.

Lemma registry_response_codec_lemma :
  codec_correct (fun m => Ok (RegistryResponse.encode m)) RegistryResponse.decode
    RegistryResponse.wf RegistryResponse.LEN.
Proof.
  apply codec_intro_total.
  - intros m Hwf. split_and!; [unfold RegistryResponse.encode; destruct m; cbv beta iota; by bytes_tac|by destruct m|].
    unfold RegistryResponse.decode. destruct m as [[v]| |[v]| | |]; try done; simpl in Hwf;
      (assert (0 <= v < 256 ^ 4) as Hr by
        (unfold Locator.wf, RetryAfter.wf, RetryAfter.MIN_MILLIS, RetryAfter.MAX_MILLIS in Hwf;
         rewrite ?LOCATOR_MAX_val in Hwf; simpl in *; lia));
      pose proof (from_to_be 4 v Hr) as Hv; simpl; cbv [digits_be app] in Hv |- *; simpl; rewrite Hv.
    + by rewrite locator_new_wf.
    + by rewrite retry_from_millis_wf.
  - intros l m Hb H. unfold RegistryResponse.decode in H.
    apply res_bind_ok in H as (l' & [-> Hl]%exact_ok & H). explode l Hl. split_forall.
    set (v := from_be_bytes _) in H.
    assert (to_be_bytes 4 v = [z0; z1; z2; z3]) as Hv by (by apply to_from_be; [bytes_tac|]).
    assert (0 <= v) by (apply from_be_range; bytes_tac).
    unfold RegistryResponse.zero_value in H.
    inv_ok; subst; try (split; [done|]; unfold RegistryResponse.encode; congruence).
    + apply locator_new_ok in H as [-> Hw]; [|done]. split; [done|]. simpl. by rewrite <- Hv.
    + apply retry_from_millis_ok in H as [-> Hw]. split; [done|]. simpl. by rewrite <- Hv.
  - intros l Hb. unfold RegistryResponse.decode, RegistryResponse.zero_value. no_panic.
    apply exact_ok in H as [-> Hl]. explode l Hl. cbv zeta. no_panic.
Qed.

(** ** The resolve codecs *)

Lemma resolve_request_codec_lemma :
  codec_correct (fun m => Ok (ResolveRequest.encode m)) ResolveRequest.decode
    ResolveRequest.wf ResolveRequest.LEN.
Proof.
  apply codec_intro_total.
  - intros [loc] Hwf. destruct (locator_wire_triple loc Hwf) as (b0 & b1 & b2 & Hw & Hb & Hf).
    unfold ResolveRequest.encode, ResolveRequest.decode. simpl ResolveRequest.locator.
    rewrite Hw. split_and!; [done..|]. simpl. by rewrite Hf.
  - intros l m Hb H. unfold ResolveRequest.decode in H.
    apply res_bind_ok in H as (l' & [-> Hl]%exact_ok & H). explode l Hl. split_forall.
    inv_ok. by apply locator_from_wire_ok in H.
  - intros l Hb. unfold ResolveRequest.decode. no_panic.
    apply exact_ok in H as [-> Hl]. explode l Hl. no_panic.
Qed.

Definition resolve_response_enc (m : ResolveResponse.t) : res ProtocolError (list Z) :=
  WireBytes.as_slice <$> ResolveResponse.encode m.

Lemma resolve_response_enc_eq m :
  ResolveResponse.wf m ->
  resolve_response_enc m = Ok
    match m with
    | ResolveResponse.Resolved p =>
        0x80 :: zlen (PeerIdBytes.as_bytes p) :: PeerIdBytes.as_bytes p
    | ResolveResponse.Retry r => 0x81 :: to_be_bytes 4 (RetryAfter.millis r)
    | ResolveResponse.Unavailable => [0x82]
    end.
Proof.
  unfold resolve_response_enc, ResolveResponse.encode, ResolveResponse.MAX_LEN.
  destruct m as [p|r|]; intros Hwf; cbv zeta; [|by eval_buffer..].
  apply peer_id_wf_bytes in Hwf as (Hl & Hb & _). unfold PeerIdBytes.MAX_LEN in Hl.
  eval_buffer. unfold as_u8. rewrite Z.mod_small by lia. done.
Qed.

Lemma resolve_response_codec_lemma :
  codec_correct resolve_response_enc ResolveResponse.decode
    ResolveResponse.wf ResolveResponse.MAX_LEN.
Proof.
  apply codec_intro.
  - intros m Hwf. rewrite resolve_response_enc_eq by done. eexists; split; [done|].
    destruct m as [p|r|]; [| |by split_and!; [bytes_tac|..]].
    + apply peer_id_wf_bytes in Hwf as (Hl & Hb & Hn). unfold PeerIdBytes.MAX_LEN in Hl.
      split_and!; [bytes_tac|unfold ResolveResponse.MAX_LEN; zlen_tac|].
      simpl. rewrite Z.eqb_refl. simpl. by rewrite Hn.
    + split_and!; [bytes_tac|done|]. unfold ResolveResponse.decode, ResolveResponse.decode_retry.
      simpl. by rewrite retry_wire_roundtrip.
  - intros l m Hb H. unfold ResolveResponse.decode in H. destruct l as [|tag payload]; [done|].
    apply Forall_cons in Hb as [Ht Hb].
    unfold ResolveResponse.decode_resolved, ResolveResponse.decode_retry in H.
    inv_ok; subst.
    + destruct payload as [|n peer]; [done|]. apply Forall_cons in Hb as [? Hb]. inv_ok.
      subst. apply peer_id_new_wf in H as [Hwf Heq]; [|done].
      split; [done|]. rewrite resolve_response_enc_eq by done. by rewrite Heq.
    + apply retry_wire_canonical in H as [Hwf Heq]; [|done..].
      split; [done|]. rewrite resolve_response_enc_eq by done. by rewrite Heq.
    + by rewrite (zlen_0 payload).
  - intros l Hb. unfold ResolveResponse.decode, ResolveResponse.decode_resolved,
      ResolveResponse.decode_retry. destruct l as [|tag payload]; [done|]. no_panic.
    destruct payload; no_panic.
Qed.

#[export] Instance registry_request_codec_ops : Codec RegistryRequest.t := {|
  enc m := Ok (RegistryRequest.encode m); dec := RegistryRequest.decode;
  valid := RegistryRequest.wf; max_len := RegistryRequest.LEN |}.
#[export] Instance registry_request_codec_laws : CodecLaws RegistryRequest.t :=
  codec_correct_laws registry_request_codec_lemma.

#[export] Instance registry_response_codec_ops : Codec RegistryResponse.t := {|
  enc m := Ok (RegistryResponse.encode m); dec := RegistryResponse.decode;
  valid := RegistryResponse.wf; max_len := RegistryResponse.LEN |}.
#[export] Instance registry_response_codec_laws : CodecLaws RegistryResponse.t :=
  codec_correct_laws registry_response_codec_lemma.

#[export] Instance resolve_request_codec_ops : Codec ResolveRequest.t := {|
  enc m := Ok (ResolveRequest.encode m); dec := ResolveRequest.decode;
  valid := ResolveRequest.wf; max_len := ResolveRequest.LEN |}.
#[export] Instance resolve_request_codec_laws : CodecLaws ResolveRequest.t :=
  codec_correct_laws resolve_request_codec_lemma.

#[export] Instance resolve_response_codec_ops : Codec ResolveResponse.t := {|
  enc := resolve_response_enc; dec := ResolveResponse.decode;
  valid := ResolveResponse.wf; max_len := ResolveResponse.MAX_LEN |}.
#[export] Instance resolve_response_codec_laws : CodecLaws ResolveResponse.t :=
  codec_correct_laws resolve_response_codec_lemma.

(** ** Property *)

(** The registry and resolve messages are canonical bounded codecs: every valid
    message encodes within its fixed length and decodes to itself, whatever bytes a
    decoder accepts are the encoding of a valid message, and no input makes a decoder
    panic. *)
Theorem relay_wire_codecs :
  codec_correct (fun m => Ok (RegistryRequest.encode m)) RegistryRequest.decode
    RegistryRequest.wf RegistryRequest.LEN /\
  codec_correct (fun m => Ok (RegistryResponse.encode m)) RegistryResponse.decode
    RegistryResponse.wf RegistryResponse.LEN /\
  codec_correct (fun m => Ok (ResolveRequest.encode m)) ResolveRequest.decode
    ResolveRequest.wf ResolveRequest.LEN /\
  codec_correct resolve_response_enc ResolveResponse.decode
    ResolveResponse.wf ResolveResponse.MAX_LEN.
Proof.
  split_and!; [apply registry_request_codec_lemma|apply registry_response_codec_lemma
    |apply resolve_request_codec_lemma|apply resolve_response_codec_lemma].
Qed.
