(* ===== verification/WireAuth.v ===== *)
(** * Authentication messages

    [crates/yonder-core/src/wire/auth.rs]: the four messages of the OPAQUE
    exchange and the context that binds it to the locator, both peer identities
    and both nonces. *)

From S2P Require Import Prelude Domain Codec WireRegistry.
Open Scope Z_scope.

Definition NONCE_LEN : Z := 32.
Definition KE1_LEN : Z := 96.
Definition KE2_LEN : Z := 320.
Definition KE3_LEN : Z := 64.
Definition CLIENT_HELLO_LEN : Z := NONCE_LEN + KE1_LEN.
Definition PROCEED_LEN : Z := 1 + NONCE_LEN + KE2_LEN.
Definition RETRY_LEN : Z := 5.
Definition MAX_CONTEXT_LEN : Z := 256.

(** The ASCII bytes of "/yonder/auth/1.0.0". *)
Definition AUTH_PROTOCOL : list Z :=
  [0x2F; 0x79; 0x6F; 0x6E; 0x64; 0x65; 0x72; 0x2F; 0x61; 0x75; 0x74; 0x68; 0x2F;
   0x31; 0x2E; 0x30; 0x2E; 0x30].

Module PakeContext.
Record t := Mk { buffer : list Z; len : Z }.

(** [append]: writes [source] at the cursor and advances it. *)
Definition append (destination : list Z) (cursor : Z) (source : list Z)
  : res ProtocolError (list Z * Z) :=
  let end_ := cursor + zlen source in
  destination ← copy_range destination cursor end_ source;
  Ok (destination, end_).

Definition new (locator : Locator.t) (controller target : PeerIdBytes.t)
    (controller_nonce target_nonce : list Z) : res ProtocolError t :=
  '(bytes, cursor) ← append (zeros MAX_CONTEXT_LEN) 0 AUTH_PROTOCOL;
  '(bytes, cursor) ← append bytes cursor (Locator.to_wire locator);
  '(bytes, cursor) ← append bytes cursor [as_u8 (zlen (PeerIdBytes.as_bytes controller))];
  '(bytes, cursor) ← append bytes cursor (PeerIdBytes.as_bytes controller);
  '(bytes, cursor) ← append bytes cursor [as_u8 (zlen (PeerIdBytes.as_bytes target))];
  '(bytes, cursor) ← append bytes cursor (PeerIdBytes.as_bytes target);
  '(bytes, cursor) ← append bytes cursor controller_nonce;
  '(bytes, cursor) ← append bytes cursor target_nonce;
  Ok (Mk bytes (as_u8 cursor)).

Definition as_bytes (self : t) : list Z := take (Z.to_nat (len self)) (buffer self).
End PakeContext.

Module AuthClientHello.
Record t := Mk { nonce : list Z; ke1 : list Z }.

Definition encode (self : t) : res ProtocolError (list Z) :=
  bytes ← copy_range (zeros CLIENT_HELLO_LEN) 0 NONCE_LEN (nonce self);
  copy_range bytes NONCE_LEN CLIENT_HELLO_LEN (ke1 self).

Definition decode (message : list Z) : res ProtocolError t :=
  bytes ← exact CLIENT_HELLO_LEN message;
  nonce_bytes ← slice bytes 0 NONCE_LEN;
  nonce ← copy_range (zeros NONCE_LEN) 0 NONCE_LEN nonce_bytes;
  ke1_bytes ← slice bytes NONCE_LEN (zlen bytes);
  ke1 ← copy_range (zeros KE1_LEN) 0 KE1_LEN ke1_bytes;
  Ok (Mk nonce ke1).

Definition wf (self : t) : Prop :=
  (bytes (nonce self) /\ zlen (nonce self) = NONCE_LEN) /\
  (bytes (ke1 self) /\ zlen (ke1 self) = KE1_LEN).
End AuthClientHello.

Module AuthServerResponse.
Inductive kind_t := Proceed | Retry (after : RetryAfter.t).

Record t := Mk { kind : kind_t; nonce : list Z; ke2 : list Z }.

Definition proceed (nonce ke2 : list Z) : t := Mk Proceed nonce ke2.
Definition retry (after : RetryAfter.t) : t := Mk (Retry after) (zeros NONCE_LEN) (zeros KE2_LEN).

Definition proceed_parts (self : t) : option (list Z * list Z) :=
  match kind self with Proceed => Some (nonce self, ke2 self) | Retry _ => None end.

Definition retry_after (self : t) : option RetryAfter.t :=
  match kind self with Proceed => None | Retry after => Some after end.

Definition encode (self : t) : res ProtocolError WireBytes.t :=
  let bytes := zeros PROCEED_LEN in
  match kind self with
  | Proceed =>
    bytes ← set_index bytes 0 0x01;
    bytes ← copy_range bytes 1 (1 + NONCE_LEN) (nonce self);
    bytes ← copy_range bytes (1 + NONCE_LEN) PROCEED_LEN (ke2 self);
    WireBytes.new bytes PROCEED_LEN
  | Retry after =>
    bytes ← set_index bytes 0 0x02;
    bytes ← copy_range bytes 1 RETRY_LEN (to_be_bytes 4 (RetryAfter.millis after));
    WireBytes.new bytes RETRY_LEN
  end.

Definition decode (message : list Z) : res ProtocolError t :=
  match message with
  | [] => Err (InvalidLength 1 0)
  | tag :: _ =>
    if tag =? 0x01 then
      if negb (zlen message =? PROCEED_LEN) then Err (InvalidLength PROCEED_LEN (zlen message))
      else
        nonce_bytes ← slice message 1 (1 + NONCE_LEN);
        nonce ← copy_range (zeros NONCE_LEN) 0 NONCE_LEN nonce_bytes;
        ke2_bytes ← slice message (1 + NONCE_LEN) (zlen message);
        ke2 ← copy_range (zeros KE2_LEN) 0 KE2_LEN ke2_bytes;
        Ok (proceed nonce ke2)
    else if tag =? 0x02 then
      bytes ← ok_or (get_range message 1 (zlen message) ≫= try_into_array 4)
                (InvalidLength RETRY_LEN (zlen message));
      after ← map_err (fun _ => InvalidField FRetryAfter)
                (RetryAfter.from_millis (from_be_bytes bytes));
      Ok (retry after)
    else Err (UnknownTag tag)
  end.

(** What the two constructors build. *)
Definition wf (self : t) : Prop :=
  match kind self with
  | Proceed => (bytes (nonce self) /\ zlen (nonce self) = NONCE_LEN) /\
               (bytes (ke2 self) /\ zlen (ke2 self) = KE2_LEN)
  | Retry after => RetryAfter.wf after /\ self = retry after
  end.
End AuthServerResponse.

Module AuthClientFinish.
Record t := Mk { ke3 : list Z }.

Definition decode (message : list Z) : res ProtocolError t :=
  bytes ← exact KE3_LEN message; Ok (Mk bytes).

Definition wf (self : t) : Prop := bytes (ke3 self) /\ zlen (ke3 self) = KE3_LEN.
End AuthClientFinish.

(** One-byte markers share one decoder shape: [Authenticated] (0x03),
    [TerminalComplete] (0x03) and [TerminalReady] (0x01). *)
Module Authenticated.
Definition ENCODED : list Z := [0x03].

Definition decode (message : list Z) : res ProtocolError unit :=
  match message with
  | [tag] => if tag =? 0x03 then Ok tt else Err (UnknownTag tag)
  | _ => Err (InvalidLength 1 (zlen message))
  end.
End Authenticated.

(** ** The authentication context *)

Definition context_bytes (locator : Locator.t) (controller target : PeerIdBytes.t)
    (controller_nonce target_nonce : list Z) : list Z :=
  let c := PeerIdBytes.as_bytes controller in
  let t := PeerIdBytes.as_bytes target in
  AUTH_PROTOCOL ++ Locator.to_wire locator ++ [zlen c] ++ c ++ [zlen t] ++ t ++
  controller_nonce ++ target_nonce.

Lemma append_eq pre n source :
  zlen source <= n ->
  PakeContext.append (pre ++ zeros n) (zlen pre) source =
  Ok ((pre ++ source) ++ zeros (n - zlen source), zlen (pre ++ source)).
Proof.
  intros. unfold PakeContext.append. rewrite copy_range_append by done. simpl.
  by rewrite zlen_app.
Qed.

Lemma zlen_locator_wire loc : zlen (Locator.to_wire loc) = 3.
Proof. done. Qed.

Lemma pake_context_eq loc c t n1 n2 :
  PeerIdBytes.wf c -> PeerIdBytes.wf t -> zlen n1 = NONCE_LEN -> zlen n2 = NONCE_LEN ->
  exists ctx, PakeContext.new loc c t n1 n2 = Ok ctx /\
    PakeContext.as_bytes ctx = context_bytes loc c t n1 n2 /\
    zlen (context_bytes loc c t n1 n2) <= 215.
Proof.
  intros Hc Ht Hn1 Hn2. unfold NONCE_LEN in *.
  apply peer_id_wf_bytes in Hc as (Hlc & _ & _), Ht as (Hlt & _ & _).
  unfold PeerIdBytes.MAX_LEN in *.
  assert (zlen AUTH_PROTOCOL = 18) as Hp by done.
  pose proof (zlen_locator_wire loc) as Hloc.
  unfold PakeContext.new, MAX_CONTEXT_LEN.
  change (PakeContext.append (zeros 256) 0 AUTH_PROTOCOL)
    with (PakeContext.append ([] ++ zeros 256) (zlen (A:=Z) []) AUTH_PROTOCOL).
  do 8 (rewrite append_eq by zlen_tac; cbv beta iota delta [mbind res_bind]).
  eexists; split; [done|]. unfold PakeContext.as_bytes, context_bytes.
  cbn [PakeContext.len PakeContext.buffer].
  split; [|zlen_tac]. rewrite !as_u8_small by zlen_tac.
  rewrite take_zlen_app by done. by rewrite app_nil_l, <- !app_assoc.
Qed.

(** A length-prefixed field is read back uniquely. *)
Lemma prefixed_inj (a b x y : list Z) :
  [zlen a] ++ a ++ x = [zlen b] ++ b ++ y -> a = b /\ x = y.
Proof. intros [= Hl H]. apply app_inj_1; [|done]. unfold zlen in Hl. lia. Qed.

Lemma context_bytes_inj l1 c1 t1 n1 m1 l2 c2 t2 n2 m2 :
  Locator.wf l1 -> Locator.wf l2 ->
  PeerIdBytes.wf c1 -> PeerIdBytes.wf c2 -> PeerIdBytes.wf t1 -> PeerIdBytes.wf t2 ->
  zlen n1 = zlen n2 ->
  context_bytes l1 c1 t1 n1 m1 = context_bytes l2 c2 t2 n2 m2 ->
  l1 = l2 /\ c1 = c2 /\ t1 = t2 /\ n1 = n2 /\ m1 = m2.
Proof.
  intros Hl1 Hl2 Hc1 Hc2 Ht1 Ht2 Hn H. unfold context_bytes in H.
  apply app_inv_head in H. apply app_inj_1 in H as [Hw H]; [|done].
  apply prefixed_inj in H as [Hc H]. apply prefixed_inj in H as [Ht H].
  apply app_inj_1 in H as [Hn' Hm]; [|unfold zlen in Hn; lia].
  apply peer_id_wf_bytes in Hc1 as (_ & _ & Hc1), Hc2 as (_ & _ & Hc2).
  apply peer_id_wf_bytes in Ht1 as (_ & _ & Ht1), Ht2 as (_ & _ & Ht2).
  destruct (locator_wire_triple l1 Hl1) as (b0 & b1 & b2 & Hw1 & _ & Hf1).
  destruct (locator_wire_triple l2 Hl2) as (b0' & b1' & b2' & Hw2 & _ & Hf2).
  split_and!; congruence.
Qed.

(** ** The message codecs *)

Lemma copy_whole {E} n l : zlen l = n -> copy_range (E:=E) (zeros n) 0 n l = Ok l.
Proof.
  intros <-. rewrite copy_into_zeros by lia. rewrite Z.sub_diag.
  by rewrite app_nil_r.
Qed.

Lemma client_hello_encode_eq n k :
  zlen n = NONCE_LEN -> zlen k = KE1_LEN ->
  AuthClientHello.encode (AuthClientHello.Mk n k) = Ok (n ++ k).
Proof.
  unfold AuthClientHello.encode, CLIENT_HELLO_LEN, NONCE_LEN, KE1_LEN. simpl. intros Hn Hk.
  rewrite copy_into_zeros by lia. simpl. rewrite Hn, copy_range_append by lia.
  by rewrite Hk, app_nil_r.
Qed.

Lemma client_hello_decode_eq n k :
  zlen n = NONCE_LEN -> zlen k = KE1_LEN ->
  AuthClientHello.decode (n ++ k) = Ok (AuthClientHello.Mk n k).
Proof.
  intros Hn Hk. unfold AuthClientHello.decode.
  rewrite exact_eq by (rewrite zlen_app; unfold CLIENT_HELLO_LEN; lia). simpl.
  rewrite slice_head by done. simpl. rewrite copy_whole by done. simpl.
  rewrite slice_tail by done. simpl. by rewrite copy_whole.
Qed.

Lemma client_hello_codec_lemma :
  codec_correct AuthClientHello.encode AuthClientHello.decode
    AuthClientHello.wf CLIENT_HELLO_LEN.
Proof.
  assert (forall l : list Z, zlen l = CLIENT_HELLO_LEN ->
    exists n k, l = n ++ k /\ zlen n = NONCE_LEN /\ zlen k = KE1_LEN) as Hsplit.
  { unfold CLIENT_HELLO_LEN, NONCE_LEN, KE1_LEN. intros l Hl.
    destruct (split_at l 32 ltac:(lia)) as (n & k & -> & Hn). exists n, k. split_and!; [done|done|zlen_tac]. }
  apply codec_intro.
  - intros [n k] [[Hbn Hn] [Hbk Hk]]; simpl in *. exists (n ++ k).
    rewrite client_hello_encode_eq, client_hello_decode_eq by done.
    split_and!; [done|bytes_tac|unfold CLIENT_HELLO_LEN; zlen_tac|done].
  - intros l m Hb H. pose proof H as H'. unfold AuthClientHello.decode in H'.
    apply res_bind_ok in H' as (l' & [-> Hl]%exact_ok & _).
    destruct (Hsplit l Hl) as (n & k & -> & Hn & Hk).
    rewrite client_hello_decode_eq in H by done. inv_ok. split_forall.
    by rewrite client_hello_encode_eq.
  - intros l Hb. destruct (decide (zlen l = CLIENT_HELLO_LEN)) as [Hl|Hl].
    + destruct (Hsplit l Hl) as (n & k & -> & Hn & Hk). by rewrite client_hello_decode_eq.
    + unfold AuthClientHello.decode. rewrite exact_spec. by rewrite (proj2 (Z.eqb_neq _ _)).
Qed.

Definition server_response_enc (m : AuthServerResponse.t) : res ProtocolError (list Z) :=
  WireBytes.as_slice <$> AuthServerResponse.encode m.

Lemma server_response_enc_eq m :
  AuthServerResponse.wf m ->
  server_response_enc m = Ok
    match AuthServerResponse.kind m with
    | AuthServerResponse.Proceed =>
        0x01 :: AuthServerResponse.nonce m ++ AuthServerResponse.ke2 m
    | AuthServerResponse.Retry after => 0x02 :: to_be_bytes 4 (RetryAfter.millis after)
    end.
Proof.
  unfold server_response_enc, AuthServerResponse.encode, AuthServerResponse.wf.
  unfold PROCEED_LEN, RETRY_LEN, NONCE_LEN, KE2_LEN.
  destruct m as [[|after] n k]; cbn [AuthServerResponse.kind AuthServerResponse.nonce
    AuthServerResponse.ke2]; cbv zeta; [intros [[_ Hn] [_ Hk]] | intros _]; by eval_buffer.
Qed.

Lemma server_proceed_decode_eq n k :
  zlen n = NONCE_LEN -> zlen k = KE2_LEN ->
  AuthServerResponse.decode (0x01 :: n ++ k) = Ok (AuthServerResponse.proceed n k).
Proof.
  unfold AuthServerResponse.decode, PROCEED_LEN, NONCE_LEN, KE2_LEN. intros Hn Hk.
  change (0x01 =? 0x01) with true. cbv iota.
  rewrite (proj2 (Z.eqb_eq (zlen _) _)) by zlen_tac. cbn [negb].
  change (1 :: n ++ k) with ([1] ++ n ++ k).
  rewrite (slice_app [1] n k 1 (1 + 32)) by zlen_tac. simpl. rewrite copy_whole by done. simpl.
  rewrite (slice_tail (1 :: n) k) by zlen_tac. simpl. by rewrite copy_whole.
Qed.

Lemma server_retry_decode_eq p :
  AuthServerResponse.decode (0x02 :: p) =
    bytes ← ok_or (try_into_array 4 p) (InvalidLength RETRY_LEN (1 + zlen p));
    after ← map_err (fun _ => InvalidField FRetryAfter)
              (RetryAfter.from_millis (from_be_bytes bytes));
    Ok (AuthServerResponse.retry after).
Proof.
  unfold AuthServerResponse.decode. change (0x02 =? 0x01) with false.
  change (0x02 =? 0x02) with true. cbv iota.
  pose proof (get_range_app [0x02] p [] 1 (1 + zlen p) eq_refl eq_refl) as H.
  simpl in H. rewrite app_nil_r in H. rewrite zlen_cons, H. done.
Qed.

Lemma server_response_codec_lemma :
  codec_correct server_response_enc AuthServerResponse.decode
    AuthServerResponse.wf PROCEED_LEN.
Proof.
  assert (forall l : list Z, zlen l = PROCEED_LEN - 1 ->
    exists n k, l = n ++ k /\ zlen n = NONCE_LEN /\ zlen k = KE2_LEN) as Hsplit.
  { unfold PROCEED_LEN, NONCE_LEN, KE2_LEN. intros l Hl.
    destruct (split_at l 32 ltac:(lia)) as (n & k & -> & Hn). exists n, k. split_and!; [done|done|zlen_tac]. }
  apply codec_intro.
  - intros m Hwf. rewrite server_response_enc_eq by done. eexists; split; [done|].
    destruct m as [[|after] n k]; unfold AuthServerResponse.wf in Hwf;
      cbn [AuthServerResponse.kind AuthServerResponse.nonce AuthServerResponse.ke2] in *.
    + destruct Hwf as [[Hbn Hn] [Hbk Hk]]. rewrite server_proceed_decode_eq by done.
      split_and!; [bytes_tac|unfold PROCEED_LEN; zlen_tac|done].
    + destruct Hwf as [Hr Heq]. split_and!; [bytes_tac|done|].
      rewrite server_retry_decode_eq, try_into_exact by apply zlen_to_be. simpl.
      rewrite retry_wire_roundtrip by done. simpl. by rewrite Heq.
  - intros l m Hb H. destruct l as [|tag l]; [done|]. apply Forall_cons in Hb as [Ht Hb].
    destruct (decide (tag = 0x01)) as [->|]; [|destruct (decide (tag = 0x02)) as [->|]].
    + assert (zlen l = PROCEED_LEN - 1) as Hl.
      { unfold AuthServerResponse.decode in H. inv_ok; zlen_tac. }
      destruct (Hsplit l Hl) as (n & k & -> & Hn & Hk).
      rewrite server_proceed_decode_eq in H by done. inv_ok. split_forall.
      rewrite server_response_enc_eq by done. done.
    + rewrite server_retry_decode_eq in H. inv_ok.
      match goal with Hf : RetryAfter.from_millis _ = Ok _ |- _ =>
        apply retry_wire_canonical in Hf as [Hwf Heq]; [|done..] end.
      rewrite server_response_enc_eq by done. simpl. by rewrite Heq.
    + exfalso. unfold AuthServerResponse.decode in H. by inv_ok.
  - intros l Hb. destruct l as [|tag l]; [done|].
    destruct (decide (tag = 0x01)) as [->|]; [|destruct (decide (tag = 0x02)) as [->|]].
    + destruct (decide (zlen l = PROCEED_LEN - 1)) as [Hl|Hl].
      * destruct (Hsplit l Hl) as (n & k & -> & Hn & Hk). by rewrite server_proceed_decode_eq.
      * unfold AuthServerResponse.decode. change (0x01 =? 0x01) with true. cbv iota.
        rewrite zlen_cons. by rewrite (proj2 (Z.eqb_neq (1 + _) _)) by lia.
    + rewrite server_retry_decode_eq. no_panic.
    + unfold AuthServerResponse.decode. rewrite !(proj2 (Z.eqb_neq tag _)) by done. done.
Qed.

Lemma client_finish_codec_lemma :
  codec_correct (fun m => Ok (AuthClientFinish.ke3 m)) AuthClientFinish.decode
    AuthClientFinish.wf KE3_LEN.
Proof.
  apply codec_intro_total; unfold AuthClientFinish.decode.
  - intros [k] [Hb Hk]. simpl in *. split_and!; [done|lia|].
    by rewrite exact_eq.
  - intros l m Hb H. inv_ok. by apply exact_ok in H0 as [-> ?].
  - intros l Hb. no_panic.
Qed.

Lemma authenticated_codec_lemma :
  codec_correct (fun _ : unit => Ok Authenticated.ENCODED) Authenticated.decode
    (fun _ => True) 1.
Proof.
  apply codec_intro_total; unfold Authenticated.decode, Authenticated.ENCODED.
  - intros [] _. split_and!; [bytes_tac|done|done].
  - intros l [] Hb H. destruct l as [|b [|? l]]; try done. inv_ok. by subst.
  - intros l Hb. destruct l as [|b [|? l]]; no_panic.
Qed.

(** ** Properties *)

(** The four authentication messages are canonical bounded codecs. *)
Theorem auth_wire_codecs :
  codec_correct AuthClientHello.encode AuthClientHello.decode
    AuthClientHello.wf CLIENT_HELLO_LEN /\
  codec_correct server_response_enc AuthServerResponse.decode
    AuthServerResponse.wf PROCEED_LEN /\
  codec_correct (fun m => Ok (AuthClientFinish.ke3 m)) AuthClientFinish.decode
    AuthClientFinish.wf KE3_LEN /\
  codec_correct (fun _ : unit => Ok Authenticated.ENCODED) Authenticated.decode
    (fun _ => True) 1.
Proof.
  split_and!; [apply client_hello_codec_lemma|apply server_response_codec_lemma
    |apply client_finish_codec_lemma|apply authenticated_codec_lemma].
Qed.

(** The PAKE context is built without truncation or panic for every pair of peer ids
    the domain allows, it is the domain tag, the locator, both length-prefixed peer ids
    and both nonces, and it binds the session: two sessions with the same context bytes
    have the same locator, the same two peers and the same two nonces. *)
Theorem pake_context_binds l1 c1 t1 n1 m1 l2 c2 t2 n2 m2 :
  Locator.wf l1 -> PeerIdBytes.wf c1 -> PeerIdBytes.wf t1 ->
  zlen n1 = NONCE_LEN -> zlen m1 = NONCE_LEN ->
  Locator.wf l2 -> PeerIdBytes.wf c2 -> PeerIdBytes.wf t2 ->
  zlen n2 = NONCE_LEN -> zlen m2 = NONCE_LEN ->
  exists ctx1 ctx2,
    PakeContext.new l1 c1 t1 n1 m1 = Ok ctx1 /\ PakeContext.new l2 c2 t2 n2 m2 = Ok ctx2 /\
    PakeContext.as_bytes ctx1 = context_bytes l1 c1 t1 n1 m1 /\
    (PakeContext.as_bytes ctx1 = PakeContext.as_bytes ctx2 ->
     l1 = l2 /\ c1 = c2 /\ t1 = t2 /\ n1 = n2 /\ m1 = m2).
Proof.
  intros Hl1 Hc1 Ht1 Hn1 Hm1 Hl2 Hc2 Ht2 Hn2 Hm2.
  destruct (pake_context_eq l1 c1 t1 n1 m1) as (x1 & E1 & B1 & _); [done..|].
  destruct (pake_context_eq l2 c2 t2 n2 m2) as (x2 & E2 & B2 & _); [done..|].
  exists x1, x2. split_and!; [done..|]. rewrite B1, B2. intros H.
  apply context_bytes_inj in H; [done..|congruence].
Qed.

(** A one-byte peer id. *)
Definition peer_of_byte (b : Z) : PeerIdBytes.t := PeerIdBytes.Mk (b :: zeros 63) 1.

Lemma peer_of_byte_wf b : is_u8 b -> PeerIdBytes.wf (peer_of_byte b).
Proof.
  intros Hb. exists [b]. split_and!; [by vm_compute|by vm_compute|by constructor|reflexivity].
Qed.

Lemma pake_context_binds_witness :
  exists ctx1 ctx2,
    PakeContext.new (Locator.Mk 7) (peer_of_byte 1) (peer_of_byte 2) (zeros 32) (zeros 32) = Ok ctx1 /\
    PakeContext.new (Locator.Mk 7) (peer_of_byte 2) (peer_of_byte 1) (zeros 32) (zeros 32) = Ok ctx2 /\
    PakeContext.as_bytes ctx1 <> PakeContext.as_bytes ctx2.
Proof.
  destruct (pake_context_binds (Locator.Mk 7) (peer_of_byte 1) (peer_of_byte 2) (zeros 32) (zeros 32)
    (Locator.Mk 7) (peer_of_byte 2) (peer_of_byte 1) (zeros 32) (zeros 32))
    as (x1 & x2 & H1 & H2 & _ & H); try reflexivity; try (apply peer_of_byte_wf; unfold is_u8; lia);
    try (by vm_compute).
  exists x1, x2. split_and!; [done|done|]. intros Heq. apply H in Heq as (_ & Heq & _). discriminate Heq.
Defined.
