(* ===== verification/WireTerminal.v ===== *)
(** * Terminal messages

    [crates/yonder-core/src/wire/terminal.rs]: the controller's hello, resizes,
    the exit code and the two one-byte markers of a terminal session. *)

From S2P Require Import Prelude Domain Codec WireRegistry.
Open Scope Z_scope.

Definition MAX_HELLO_LEN : Z := 135.
Definition CONTROL_LEN : Z := 5.

Definition decode_terminal_value (bytes : list Z) : res ProtocolError TerminalValue.t :=
  text ← ok_or (from_utf8 bytes) (InvalidField FTerminalValue);
  map_err (fun _ => InvalidField FTerminalValue) (TerminalValue.new text).

Definition exact_control (message : list Z) : res ProtocolError (list Z) := exact CONTROL_LEN message.

Definition decode_sized_control (message : list Z) (tag : Z) : res ProtocolError TerminalSize.t :=
  bytes ← exact_control message;
  match bytes with
  | [b0; b1; b2; b3; b4] =>
    if negb (b0 =? tag) then Err (UnknownTag b0)
    else map_err (fun _ => InvalidField FTerminalDimension)
           (TerminalSize.new (from_be_bytes [b1; b2]) (from_be_bytes [b3; b4]))
  | _ => Panic
  end.

Module TerminalHello.
Record t := Mk { size : TerminalSize.t; term : TerminalValue.t; color_term : TerminalValue.t }.

Definition encode (self : t) : res ProtocolError WireBytes.t :=
  let term_bytes := TerminalValue.as_bytes (term self) in
  let color_bytes := TerminalValue.as_bytes (color_term self) in
  bytes ← set_index (zeros MAX_HELLO_LEN) 0 0x01;
  bytes ← copy_range bytes 1 3 (to_be_bytes 2 (TerminalSize.columns (size self)));
  bytes ← copy_range bytes 3 5 (to_be_bytes 2 (TerminalSize.rows (size self)));
  bytes ← set_index bytes 5 (as_u8 (zlen term_bytes));
  let term_end := 6 + zlen term_bytes in
  bytes ← copy_range bytes 6 term_end term_bytes;
  bytes ← set_index bytes term_end (as_u8 (zlen color_bytes));
  let end_ := term_end + 1 + zlen color_bytes in
  bytes ← copy_range bytes (term_end + 1) end_ color_bytes;
  WireBytes.new bytes end_.

Definition decode (message : list Z) : res ProtocolError t :=
  if zlen message <? 7 then Err (InvalidLength 7 (zlen message)) else
  b0 ← index message 0;
  if negb (b0 =? 0x01) then Err (UnknownTag b0) else
  b1 ← index message 1;
  b2 ← index message 2;
  b3 ← index message 3;
  b4 ← index message 4;
  size ← map_err (fun _ => InvalidField FTerminalDimension)
           (TerminalSize.new (from_be_bytes [b1; b2]) (from_be_bytes [b3; b4]));
  term_len ← index message 5;
  if (TerminalValue.MAX_LEN <? term_len) || (zlen message <? 7 + term_len)
  then Err (InvalidField FTerminalValue) else
  let term_end := 6 + term_len in
  color_len ← index message term_end;
  if TerminalValue.MAX_LEN <? color_len then Err (InvalidField FTerminalValue) else
  let expected := term_end + 1 + color_len in
  if negb (zlen message =? expected) then
    Err (if expected <? zlen message then TrailingBytes
         else InvalidLength expected (zlen message))
  else
    term_bytes ← slice message 6 term_end;
    term ← decode_terminal_value term_bytes;
    color_bytes ← slice message (term_end + 1) (zlen message);
    color_term ← decode_terminal_value color_bytes;
    Ok (Mk size term color_term).

Definition wf (self : t) : Prop :=
  TerminalSize.wf (size self) /\ TerminalValue.wf (term self) /\ TerminalValue.wf (color_term self).
End TerminalHello.

Module TerminalResize.
Record t := Mk { size : TerminalSize.t }.

Definition encode (self : t) : list Z :=
  [0x02] ++ to_be_bytes 2 (TerminalSize.columns (size self))
         ++ to_be_bytes 2 (TerminalSize.rows (size self)).

Definition decode (message : list Z) : res ProtocolError t :=
  Mk <$> decode_sized_control message 0x02.

Definition wf (self : t) : Prop := TerminalSize.wf (size self).
End TerminalResize.

Module TerminalExit.
Record t := Mk { code : Z }.

Definition encode (self : t) : list Z := 0x80 :: to_be_bytes 4 (code self).

Definition decode (message : list Z) : res ProtocolError t :=
  bytes ← exact_control message;
  match bytes with
  | [b0; b1; b2; b3; b4] =>
    if negb (b0 =? 0x80) then Err (UnknownTag b0)
    else Ok (Mk (from_be_bytes [b1; b2; b3; b4]))
  | _ => Panic
  end.

Definition wf (self : t) : Prop := is_u32 (code self).
End TerminalExit.

Module TerminalComplete.
Definition ENCODED : list Z := [0x03].

Definition decode (message : list Z) : res ProtocolError unit :=
  match message with
  | [tag] => if tag =? 0x03 then Ok tt else Err (UnknownTag tag)
  | _ => Err (InvalidLength 1 (zlen message))
  end.
End TerminalComplete.

Module TerminalReady.
Definition ENCODED : list Z := [0x01].

Definition decode (message : list Z) : res ProtocolError unit :=
  match message with
  | [tag] => if tag =? 0x01 then Ok tt else Err (UnknownTag tag)
  | _ => Err (InvalidLength 1 (zlen message))
  end.
End TerminalReady.

(** ** Codecs *)

Lemma terminal_size_new_no_panic c r : TerminalSize.new c r <> Panic.
Proof. unfold TerminalSize.new. no_panic. Qed.
#[export] Hint Resolve terminal_size_new_no_panic : yon.

(** UTF-8 validation never decides the outcome: the grammar is ASCII. *)
Lemma decode_terminal_value_eq b :
  decode_terminal_value b = map_err (fun _ => InvalidField FTerminalValue) (TerminalValue.new b).
Proof.
  unfold decode_terminal_value, from_utf8. destruct (utf8_chars b) eqn:E; [done|]. simpl.
  unfold TerminalValue.new. destruct (_ <? _); [done|].
  destruct (forallb is_allowed_terminal_byte b) eqn:Ha; [|done].
  by rewrite utf8_chars_ascii in E by (by apply terminal_value_ascii).
Qed.

Lemma decode_terminal_value_wf v :
  TerminalValue.wf v -> decode_terminal_value (TerminalValue.as_bytes v) = Ok v.
Proof. intros (_ & _ & _ & H)%terminal_value_wf_bytes. by rewrite decode_terminal_value_eq, H. Qed.

Lemma terminal_size_be c r :
  TerminalSize.wf (TerminalSize.Mk c r) ->
  TerminalSize.new (from_be_bytes (to_be_bytes 2 c)) (from_be_bytes (to_be_bytes 2 r))
  = Ok (TerminalSize.Mk c r).
Proof.
  intros Hwf. unfold TerminalSize.wf in Hwf. simpl in Hwf.
  rewrite !from_to_be by (simpl; lia). apply terminal_size_new_ok; unfold is_u16; [lia..|].
  done.
Qed.

Lemma terminal_size_be_ok b1 b2 b3 b4 s :
  bytes [b1; b2; b3; b4] ->
  TerminalSize.new (from_be_bytes [b1; b2]) (from_be_bytes [b3; b4]) = Ok s ->
  TerminalSize.wf s /\ to_be_bytes 2 (TerminalSize.columns s) = [b1; b2] /\
  to_be_bytes 2 (TerminalSize.rows s) = [b3; b4].
Proof.
  intros Hb H. split_forall.
  pose proof (from_be_range [b1; b2] ltac:(bytes_tac)).
  pose proof (from_be_range [b3; b4] ltac:(bytes_tac)). simpl in *.
  apply terminal_size_new_ok in H as [-> Hwf]; [|by unfold is_u16; simpl; lia..].
  split; [done|]. simpl. split; apply to_from_be; by bytes_tac.
Qed.

Lemma to_be_2 z : exists a b, to_be_bytes 2 z = [a; b].
Proof. by do 2 eexists. Qed.

Lemma resize_codec_lemma :
  codec_correct (fun m => Ok (TerminalResize.encode m)) TerminalResize.decode
    TerminalResize.wf CONTROL_LEN.
Proof.
  apply codec_intro_total.
  - intros [[c r]] Hwf. split_and!; [unfold TerminalResize.encode; bytes_tac|done|].
    apply terminal_size_be in Hwf. unfold TerminalResize.decode, TerminalResize.encode.
    cbn [TerminalResize.size TerminalSize.columns TerminalSize.rows].
    destruct (to_be_2 c) as (a & b & Hc), (to_be_2 r) as (a' & b' & Hr).
    rewrite Hc, Hr in *. unfold decode_sized_control. simpl. by rewrite Hwf.
  - intros l m Hb H. unfold TerminalResize.decode, decode_sized_control, exact_control in H.
    apply fmap_res_ok in H as (s & H & ->).
    apply res_bind_ok in H as (l' & [-> Hl]%exact_ok & H). explode l Hl. split_forall. inv_ok.
    apply terminal_size_be_ok in H as (Hwf & Hc & Hr); [|bytes_tac].
    split; [done|]. unfold TerminalResize.encode. cbn [TerminalResize.size].
    rewrite Hc, Hr. by subst.
  - intros l Hb. unfold TerminalResize.decode, decode_sized_control, exact_control. no_panic.
    apply exact_ok in H as [-> Hl]. explode l Hl. no_panic.
Qed.

Lemma exit_codec_lemma :
  codec_correct (fun m => Ok (TerminalExit.encode m)) TerminalExit.decode
    TerminalExit.wf CONTROL_LEN.
Proof.
  apply codec_intro_total; unfold TerminalExit.decode, TerminalExit.encode, exact_control.
  - intros [c] Hwf. split_and!; [bytes_tac|done|]. pose proof (from_to_be 4 c Hwf) as Hv.
    simpl. cbv [digits_be app] in Hv |- *. simpl. by rewrite Hv.
  - intros l m Hb H. apply res_bind_ok in H as (l' & [-> Hl]%exact_ok & H).
    explode l Hl. split_forall. inv_ok. subst. split.
    + apply (from_be_range [_; _; _; _]). bytes_tac.
    + simpl. f_equal. apply to_from_be; by bytes_tac.
  - intros l Hb. no_panic. apply exact_ok in H as [-> Hl]. explode l Hl. no_panic.
Qed.

Lemma complete_codec_lemma :
  codec_correct (fun _ : unit => Ok TerminalComplete.ENCODED) TerminalComplete.decode
    (fun _ => True) 1.
Proof.
  apply codec_intro_total; unfold TerminalComplete.decode, TerminalComplete.ENCODED.
  - intros [] _. split_and!; [bytes_tac|done|done].
  - intros l [] Hb H. destruct l as [|b [|? l]]; try done. inv_ok. by subst.
  - intros l Hb. destruct l as [|b [|? l]]; no_panic.
Qed.

Lemma ready_codec_lemma :
  codec_correct (fun _ : unit => Ok TerminalReady.ENCODED) TerminalReady.decode
    (fun _ => True) 1.
Proof.
  apply codec_intro_total; unfold TerminalReady.decode, TerminalReady.ENCODED.
  - intros [] _. split_and!; [bytes_tac|done|done].
  - intros l [] Hb H. destruct l as [|b [|? l]]; try done. inv_ok. by subst.
  - intros l Hb. destruct l as [|b [|? l]]; no_panic.
Qed.

(** *** The hello *)

Definition hello_enc (m : TerminalHello.t) : res ProtocolError (list Z) :=
  WireBytes.as_slice <$> TerminalHello.encode m.

(** The wire form of a hello. *)
Definition hello_bytes (c r : list Z) (t k : list Z) : list Z :=
  [0x01] ++ c ++ r ++ [zlen t] ++ t ++ [zlen k] ++ k.

Lemma hello_enc_eq m :
  TerminalHello.wf m ->
  hello_enc m = Ok (hello_bytes (to_be_bytes 2 (TerminalSize.columns (TerminalHello.size m)))
    (to_be_bytes 2 (TerminalSize.rows (TerminalHello.size m)))
    (TerminalValue.as_bytes (TerminalHello.term m))
    (TerminalValue.as_bytes (TerminalHello.color_term m))).
Proof.
  intros (_ & Ht & Hk). unfold hello_enc, TerminalHello.encode, MAX_HELLO_LEN, hello_bytes.
  apply terminal_value_wf_bytes in Ht as (Ht & _), Hk as (Hk & _).
  unfold TerminalValue.MAX_LEN in *. cbv zeta. eval_buffer.
  rewrite !as_u8_small by zlen_tac. by rewrite <- !app_assoc.
Qed.

(** Decoding a message of the wire form: only the field grammars can still fail. *)
Lemma hello_decode_eq c1 c2 r1 r2 t k :
  zlen t <= 64 -> zlen k <= 64 ->
  TerminalHello.decode (hello_bytes [c1; c2] [r1; r2] t k) =
    size ← map_err (fun _ => InvalidField FTerminalDimension)
             (TerminalSize.new (from_be_bytes [c1; c2]) (from_be_bytes [r1; r2]));
    term ← decode_terminal_value t;
    color_term ← decode_terminal_value k;
    Ok (TerminalHello.Mk size term color_term).
Proof.
  intros Ht Hk. unfold TerminalHello.decode, hello_bytes.
  set (m := [0x01] ++ _).
  assert (zlen m = 7 + zlen t + zlen k) as Hm by (unfold m; zlen_tac).
  pose proof (zlen_nonneg t). pose proof (zlen_nonneg k).
  rewrite (proj2 (Z.ltb_ge _ _)) by lia.
  change (index (E:=ProtocolError) m 0) with (Ok (E:=ProtocolError) 1).
  change (index (E:=ProtocolError) m 1) with (Ok (E:=ProtocolError) c1).
  change (index (E:=ProtocolError) m 2) with (Ok (E:=ProtocolError) c2).
  change (index (E:=ProtocolError) m 3) with (Ok (E:=ProtocolError) r1).
  change (index (E:=ProtocolError) m 4) with (Ok (E:=ProtocolError) r2).
  change (index (E:=ProtocolError) m 5) with (Ok (E:=ProtocolError) (zlen t)).
  cbn [mbind res_bind negb Z.eqb Pos.eqb].
  destruct (map_err _ _) as [size|e|]; [|done..]. cbn [mbind res_bind].
  unfold TerminalValue.MAX_LEN. rewrite !(proj2 (Z.ltb_ge _ _)) by lia. cbn [orb].
  assert (index (E:=ProtocolError) m (6 + zlen t) = Ok (zlen k)) as ->.
  { apply (index_app ([1; c1; c2; r1; r2; zlen t] ++ t) k (zlen k)). zlen_tac. }
  cbn [mbind res_bind]. rewrite (proj2 (Z.ltb_ge _ _)) by lia.
  rewrite (proj2 (Z.eqb_eq _ _)) by lia. cbn [negb].
  assert (slice (E:=ProtocolError) m 6 (6 + zlen t) = Ok t) as ->.
  { apply (slice_app [1; c1; c2; r1; r2; zlen t] t ([zlen k] ++ k)); zlen_tac. }
  cbn [mbind res_bind]. destruct (decode_terminal_value t); [|done..]. cbn [mbind res_bind].
  assert (slice (E:=ProtocolError) m (6 + zlen t + 1) (zlen m) = Ok k) as ->; [|done].
  rewrite Hm. pose proof (slice_tail (E:=ProtocolError)
    ([1; c1; c2; r1; r2; zlen t] ++ t ++ [zlen k]) k (6 + zlen t + 1) (7 + zlen t + zlen k)) as Hs.
  rewrite <- !app_assoc in Hs. apply Hs; zlen_tac.
Qed.

(** Every message is rejected or has the wire form with bounded fields. *)
Lemma hello_decode_cases l :
  bytes l ->
  (exists e, TerminalHello.decode l = Err e) \/
  exists c1 c2 r1 r2 t k, l = hello_bytes [c1; c2] [r1; r2] t k /\ zlen t <= 64 /\ zlen k <= 64.
Proof.
  intros Hb. destruct (decide (zlen l < 7)) as [Hs|Hs].
  { left. eexists. unfold TerminalHello.decode. by rewrite (proj2 (Z.ltb_lt _ _)). }
  destruct (split_at l 6 ltac:(lia)) as (h & rest & -> & Hh). explode h Hh.
  cbn [app] in *. split_forall. set (l := z :: _) in *.
  assert (zlen l = 6 + zlen rest) as Hl by (unfold l; zlen_tac).
  unfold TerminalHello.decode. rewrite (proj2 (Z.ltb_ge _ _)) by lia.
  change (index (E:=ProtocolError) l 0) with (Ok (E:=ProtocolError) z).
  change (index (E:=ProtocolError) l 1) with (Ok (E:=ProtocolError) z0).
  change (index (E:=ProtocolError) l 2) with (Ok (E:=ProtocolError) z1).
  change (index (E:=ProtocolError) l 3) with (Ok (E:=ProtocolError) z2).
  change (index (E:=ProtocolError) l 4) with (Ok (E:=ProtocolError) z3).
  change (index (E:=ProtocolError) l 5) with (Ok (E:=ProtocolError) z4).
  cbn [mbind res_bind]. destruct (Z.eqb_spec z 1) as [Hz|]; [|by left; eexists]. cbn [negb].
  unfold TerminalSize.new. destruct (_ =? 0); [by left; eexists|].
  destruct (_ =? 0); [by left; eexists|]. cbn [map_err mbind res_bind].
  unfold TerminalValue.MAX_LEN in *. destruct (Z.ltb_spec 64 z4); [by left; eexists|].
  destruct (Z.ltb_spec (zlen l) (7 + z4)); [by left; eexists|]. cbn [orb].
  unfold is_u8 in *.
  destruct (split_at rest z4 ltac:(lia)) as (t & rest' & -> & Ht).
  destruct rest' as [|kl k]; [exfalso; zlen_tac|].
  assert (index (E:=ProtocolError) l (6 + z4) = Ok kl) as ->.
  { apply (index_app ([z; z0; z1; z2; z3; z4] ++ t) k kl). zlen_tac. }
  cbn [mbind res_bind]. destruct (Z.ltb_spec 64 kl); [by left; eexists|].
  destruct (Z.eqb_spec (zlen l) (6 + z4 + 1 + kl)) as [He|]; [|by left; eexists].
  right. exists z0, z1, z2, z3, t, k. unfold hello_bytes.
  assert (zlen k = kl) as -> by zlen_tac. rewrite Ht. unfold l. subst z. split_and!; [done|lia..].
Qed.

Lemma hello_codec_lemma :
  codec_correct hello_enc TerminalHello.decode TerminalHello.wf MAX_HELLO_LEN.
Proof.
  apply codec_intro.
  - intros m Hwf. rewrite hello_enc_eq by done. eexists; split; [done|].
    destruct m as [[c r] t k], Hwf as (Hs & Ht & Hk). cbn in Hs, Ht, Hk.
    pose proof (decode_terminal_value_wf t Ht) as Dt.
    pose proof (decode_terminal_value_wf k Hk) as Dk.
    apply terminal_value_wf_bytes in Ht as (Ht & _ & Bt & _), Hk as (Hk & _ & Bk & _).
    unfold TerminalValue.MAX_LEN in *. apply terminal_size_be in Hs.
    cbn [TerminalHello.size TerminalHello.term TerminalHello.color_term
         TerminalSize.columns TerminalSize.rows].
    destruct (to_be_2 c) as (c1 & c2 & Hc), (to_be_2 r) as (r1 & r2 & Hr).
    split_and!.
    + unfold hello_bytes. pose proof (zlen_nonneg (TerminalValue.as_bytes t)).
      pose proof (zlen_nonneg (TerminalValue.as_bytes k)). bytes_tac.
    + unfold hello_bytes, MAX_HELLO_LEN. zlen_tac.
    + rewrite Hc, Hr in *. rewrite hello_decode_eq by done. rewrite Hs. simpl. by rewrite Dt, Dk.
  - intros l m Hb H. destruct (hello_decode_cases l Hb) as [[e He]|(c1 & c2 & r1 & r2 & t & k & -> & Ht & Hk)];
      [congruence|].
    rewrite hello_decode_eq in H by done. rewrite !decode_terminal_value_eq in H.
    unfold hello_bytes in Hb. split_forall. inv_ok.
    match goal with H : TerminalSize.new _ _ = Ok _ |- _ =>
      apply terminal_size_be_ok in H as (? & Hc & Hr); [|bytes_tac] end.
    repeat match goal with H : TerminalValue.new _ = Ok _ |- _ =>
      apply terminal_value_new_wf in H as [? ?] end.
    assert (TerminalHello.wf (TerminalHello.Mk x x0 x1)) as Hwf by done.
    split; [done|]. rewrite hello_enc_eq by done.
    cbn [TerminalHello.size TerminalHello.term TerminalHello.color_term]. congruence.
  - intros l Hb. destruct (hello_decode_cases l Hb) as [[e ->]|(c1 & c2 & r1 & r2 & t & k & -> & Ht & Hk)];
      [done|].
    rewrite hello_decode_eq by done. rewrite !decode_terminal_value_eq. no_panic.
Qed.

(** ** Property *)

(** The five terminal messages are canonical bounded codecs. *)
Theorem terminal_wire_codecs :
  codec_correct hello_enc TerminalHello.decode TerminalHello.wf MAX_HELLO_LEN /\
  codec_correct (fun m => Ok (TerminalResize.encode m)) TerminalResize.decode
    TerminalResize.wf CONTROL_LEN /\
  codec_correct (fun m => Ok (TerminalExit.encode m)) TerminalExit.decode
    TerminalExit.wf CONTROL_LEN /\
  codec_correct (fun _ : unit => Ok TerminalComplete.ENCODED) TerminalComplete.decode
    (fun _ => True) 1 /\
  codec_correct (fun _ : unit => Ok TerminalReady.ENCODED) TerminalReady.decode
    (fun _ => True) 1.
Proof.
  split_and!; [apply hello_codec_lemma|apply resize_codec_lemma|apply exit_codec_lemma
    |apply complete_codec_lemma|apply ready_codec_lemma].
Qed.
