(* ===== verification/WireEnterprise.v ===== *)
(** * Enterprise resolve messages

    [crates/yonder-core/src/wire/enterprise.rs]: the start and selection requests
    of a controller and the relay's responses, including the bounded OAuth
    authorization URL. *)

From S2P Require Import Prelude Domain Codec WireRegistry.
Open Scope Z_scope.

Definition START_LEN : Z := 4.
Definition SELECT_LEN : Z := 2.
Definition MAX_AUTHORIZATION_URL_LEN : Z := 2048.
Definition MAX_RESPONSE_LEN : Z := 3 + MAX_AUTHORIZATION_URL_LEN.

Module EnterpriseStart.
Record t := Mk { locator : Locator.t }.

Definition encode (self : t) : res ProtocolError (list Z) :=
  bytes ← set_index (zeros START_LEN) 0 0x01;
  copy_range bytes 1 START_LEN (Locator.to_wire (locator self)).

Definition decode (message : list Z) : res ProtocolError t :=
  bytes ← exact START_LEN message;
  match bytes with
  | [b0; b1; b2; b3] =>
    if negb (b0 =? 0x01) then Err (UnknownTag b0)
    else map_err (fun _ => InvalidField FLocator) (Mk <$> Locator.from_wire b1 b2 b3)
  | _ => Panic
  end.

Definition wf (self : t) : Prop := Locator.wf (locator self).
End EnterpriseStart.

Module EnterpriseSelect.
Record t := Mk { provider : EnterpriseProvider.t }.

Definition encode (self : t) : list Z := [0x02; EnterpriseProvider.wire_tag (provider self)].

Definition decode (message : list Z) : res ProtocolError t :=
  bytes ← exact SELECT_LEN message;
  match bytes with
  | [b0; b1] =>
    if negb (b0 =? 0x02) then Err (UnknownTag b0)
    else ok_or (Mk <$> EnterpriseProvider.from_wire_tag b1) (InvalidField FEnterpriseProvider)
  | _ => Panic
  end.
End EnterpriseSelect.

Module AuthorizationUrl.
Record t := Mk { buffer : list Z; len : Z }.

Definition new (source : list Z) : res ProtocolError t :=
  if (zlen source =? 0) || (MAX_AUTHORIZATION_URL_LEN <? zlen source)
  then Err (InvalidLength MAX_AUTHORIZATION_URL_LEN (zlen source))
  else
    bytes ← copy_range (zeros MAX_AUTHORIZATION_URL_LEN) 0 (zlen source) source;
    Ok (Mk bytes (as_u16 (zlen source))).

Definition as_str (self : t) : res ProtocolError (list Z) :=
  expect_some (from_utf8 (take (Z.to_nat (len self)) (buffer self))).

(** [new] takes a [&str], so what it stores is UTF-8. *)
Definition wf (self : t) : Prop :=
  exists s, 1 <= zlen s <= MAX_AUTHORIZATION_URL_LEN /\ bytes s /\ valid_utf8 s /\
  self = Mk (s ++ zeros (MAX_AUTHORIZATION_URL_LEN - zlen s)) (zlen s).
End AuthorizationUrl.

Module EnterpriseResolveResponse.
Inductive t :=
| Providers (providers : EnterpriseProviders.t)
| Retry (after : RetryAfter.t)
| Authenticate (url : AuthorizationUrl.t)
| Resolved (peer : PeerIdBytes.t)
| Cancelled
| Expired
| Failed
| Unavailable.

Definition encode (self : t) : res ProtocolError WireBytes.t :=
  let bytes := zeros MAX_RESPONSE_LEN in
  match self with
  | Providers providers =>
    bytes ← set_index bytes 0 0x10;
    bytes ← set_index bytes 1 (EnterpriseProviders.wire_mask providers);
    WireBytes.new bytes 2
  | Retry retry =>
    bytes ← set_index bytes 0 0x11;
    bytes ← copy_range bytes 1 5 (to_be_bytes 4 (RetryAfter.millis retry));
    WireBytes.new bytes 5
  | Authenticate url =>
    bytes ← set_index bytes 0 0x12;
    url_bytes ← AuthorizationUrl.as_str url;
    bytes ← copy_range bytes 1 3 (to_be_bytes 2 (as_u16 (zlen url_bytes)));
    bytes ← copy_range bytes 3 (3 + zlen url_bytes) url_bytes;
    WireBytes.new bytes (3 + zlen url_bytes)
  | Resolved peer =>
    let id := PeerIdBytes.as_bytes peer in
    bytes ← set_index bytes 0 0x13;
    bytes ← set_index bytes 1 (as_u8 (zlen id));
    bytes ← copy_range bytes 2 (2 + zlen id) id;
    WireBytes.new bytes (2 + zlen id)
  | Cancelled => bytes ← set_index bytes 0 0x14; WireBytes.new bytes 1
  | Expired => bytes ← set_index bytes 0 0x15; WireBytes.new bytes 1
  | Failed => bytes ← set_index bytes 0 0x16; WireBytes.new bytes 1
  | Unavailable => bytes ← set_index bytes 0 0x17; WireBytes.new bytes 1
  end.

Definition decode_providers (payload : list Z) : res ProtocolError t :=
  match payload with
  | [mask] =>
    ok_or (Providers <$> EnterpriseProviders.from_wire_mask mask) (InvalidField FEnterpriseProviders)
  | _ => Err (InvalidLength 2 (zlen payload + 1))
  end.

Definition decode_retry (payload : list Z) : res ProtocolError t :=
  bytes ← ok_or (try_into_array 4 payload) (InvalidLength 5 (zlen payload + 1));
  map_err (fun _ => InvalidField FRetryAfter) (Retry <$> RetryAfter.from_millis (from_be_bytes bytes)).

Definition decode_authenticate (payload : list Z) : res ProtocolError t :=
  match payload with
  | [] => Err (InvalidField FAuthorizationUrl)
  | [_] => Err (InvalidField FAuthorizationUrl)
  | hi :: lo :: url_bytes =>
    let length := from_be_bytes [hi; lo] in
    if negb (zlen url_bytes =? length) then Err (InvalidLength (3 + length) (zlen payload + 1))
    else
      value ← ok_or (from_utf8 url_bytes) (InvalidField FAuthorizationUrl);
      map_err (fun _ => InvalidField FAuthorizationUrl) (Authenticate <$> AuthorizationUrl.new value)
  end.

Definition decode_resolved (payload : list Z) : res ProtocolError t :=
  match payload with
  | [] => Err (InvalidField FPeerId)
  | length :: peer =>
    if negb (zlen peer =? length) then Err (InvalidLength (length + 2) (zlen peer + 2))
    else map_err (fun _ => InvalidField FPeerId) (Resolved <$> PeerIdBytes.new peer)
  end.

Definition decode (message : list Z) : res ProtocolError t :=
  match message with
  | [] => Err (InvalidLength 1 0)
  | tag :: payload =>
    if tag =? 0x10 then decode_providers payload
    else if tag =? 0x11 then decode_retry payload
    else if tag =? 0x12 then decode_authenticate payload
    else if tag =? 0x13 then decode_resolved payload
    else if (tag =? 0x14) && (zlen payload =? 0) then Ok Cancelled
    else if (tag =? 0x15) && (zlen payload =? 0) then Ok Expired
    else if (tag =? 0x16) && (zlen payload =? 0) then Ok Failed
    else if (tag =? 0x17) && (zlen payload =? 0) then Ok Unavailable
    else if (0x14 <=? tag) && (tag <=? 0x17) then Err TrailingBytes
    else Err (UnknownTag tag)
  end.

Definition wf (self : t) : Prop :=
  match self with
  | Providers p => EnterpriseProviders.wf p
  | Retry r => RetryAfter.wf r
  | Authenticate u => AuthorizationUrl.wf u
  | Resolved p => PeerIdBytes.wf p
  | _ => True
  end.
End EnterpriseResolveResponse.

(** ** Codecs *)

Lemma enterprise_start_encode_eq loc :
  EnterpriseStart.encode (EnterpriseStart.Mk loc) = Ok (0x01 :: Locator.to_wire loc).
Proof. done. Qed.

Lemma enterprise_start_codec_lemma :
  codec_correct EnterpriseStart.encode EnterpriseStart.decode EnterpriseStart.wf START_LEN.
Proof.
  apply codec_intro.
  - intros [loc] Hwf. destruct (locator_wire_triple loc Hwf) as (b0 & b1 & b2 & Hw & Hb & Hf).
    rewrite enterprise_start_encode_eq, Hw. eexists; split_and!; [done|bytes_tac|done|].
    unfold EnterpriseStart.decode. simpl. by rewrite Hf.
  - intros l m Hb H. unfold EnterpriseStart.decode in H.
    apply res_bind_ok in H as (l' & [-> Hl]%exact_ok & H). explode l Hl. split_forall. inv_ok.
    apply locator_from_wire_ok in H as [? Hw]; [|done..]. split; [done|].
    rewrite enterprise_start_encode_eq, Hw. by subst.
  - intros l Hb. unfold EnterpriseStart.decode. no_panic.
    apply exact_ok in H as [-> Hl]. explode l Hl. no_panic.
Qed.

Lemma enterprise_select_codec_lemma :
  codec_correct (fun m => Ok (EnterpriseSelect.encode m)) EnterpriseSelect.decode
    (fun _ => True) SELECT_LEN.
Proof.
  apply codec_intro_total; unfold EnterpriseSelect.decode, EnterpriseSelect.encode.
  - intros [[]] _; by split_and!; [bytes_tac|..].
  - intros l m Hb H. apply res_bind_ok in H as (l' & [-> Hl]%exact_ok & H).
    explode l Hl. inv_ok. apply fmap_Some in H as (p & Hp & ->).
    apply provider_from_tag_ok in Hp. simpl. split; [done|]. by subst.
  - intros l Hb. no_panic. apply exact_ok in H as [-> Hl]. explode l Hl. no_panic.
Qed.

Lemma url_new_ok s u :
  AuthorizationUrl.new s = Ok u <->
  1 <= zlen s <= MAX_AUTHORIZATION_URL_LEN /\
  u = AuthorizationUrl.Mk (s ++ zeros (MAX_AUTHORIZATION_URL_LEN - zlen s)) (zlen s).
Proof.
  unfold AuthorizationUrl.new. pose proof (zlen_nonneg s).
  destruct (Z.eqb_spec (zlen s) 0); simpl; [split; [done|lia]|].
  destruct (Z.ltb_spec MAX_AUTHORIZATION_URL_LEN (zlen s)); [split; [done|lia]|].
  rewrite copy_into_zeros by done. unfold MAX_AUTHORIZATION_URL_LEN in *.
  rewrite as_u16_small by lia. cbn [mbind res_bind]. split; naive_solver lia.
Qed.

Lemma url_new_no_panic s : AuthorizationUrl.new s <> Panic.
Proof.
  unfold AuthorizationUrl.new. pose proof (zlen_nonneg s). destruct (_ || _) eqn:E; [done|].
  apply orb_false_iff in E as [_ E]. apply Z.ltb_ge in E. by rewrite copy_into_zeros.
Qed.
#[export] Hint Resolve url_new_no_panic : yon.

(** The stored URL is UTF-8, so the [expect] of [as_str] cannot fail. *)
Lemma url_as_str_wf u :
  AuthorizationUrl.wf u ->
  exists s, AuthorizationUrl.as_str u = Ok s /\ 1 <= zlen s <= MAX_AUTHORIZATION_URL_LEN /\
    bytes s /\ valid_utf8 s /\ AuthorizationUrl.new s = Ok u.
Proof.
  intros (s & Hl & Hb & Hv & ->). exists s. unfold AuthorizationUrl.as_str. simpl.
  rewrite take_zlen_app by done. rewrite (proj2 (from_utf8_some s s)) by done.
  split_and!; [done|lia|lia|done|done|by apply url_new_ok].
Qed.

Definition enterprise_response_enc (m : EnterpriseResolveResponse.t)
  : res ProtocolError (list Z) :=
  WireBytes.as_slice <$> EnterpriseResolveResponse.encode m.

(** The relation between a response and its wire form. *)
Inductive response_wire : EnterpriseResolveResponse.t -> list Z -> Prop :=
| rw_providers p :
    response_wire (EnterpriseResolveResponse.Providers p) [0x10; EnterpriseProviders.wire_mask p]
| rw_retry r :
    response_wire (EnterpriseResolveResponse.Retry r) (0x11 :: to_be_bytes 4 (RetryAfter.millis r))
| rw_authenticate u s :
    AuthorizationUrl.as_str u = Ok s ->
    response_wire (EnterpriseResolveResponse.Authenticate u) (0x12 :: to_be_bytes 2 (zlen s) ++ s)
| rw_resolved p :
    response_wire (EnterpriseResolveResponse.Resolved p)
      (0x13 :: zlen (PeerIdBytes.as_bytes p) :: PeerIdBytes.as_bytes p)
| rw_cancelled : response_wire EnterpriseResolveResponse.Cancelled [0x14]
| rw_expired : response_wire EnterpriseResolveResponse.Expired [0x15]
| rw_failed : response_wire EnterpriseResolveResponse.Failed [0x16]
| rw_unavailable : response_wire EnterpriseResolveResponse.Unavailable [0x17].

Lemma enterprise_response_enc_eq m l :
  EnterpriseResolveResponse.wf m -> response_wire m l -> enterprise_response_enc m = Ok l.
Proof.
  intros Hwf Hw. unfold enterprise_response_enc, EnterpriseResolveResponse.encode, MAX_RESPONSE_LEN.
  unfold MAX_AUTHORIZATION_URL_LEN. cbv zeta.
  destruct Hw as [p|r|u s Hu|p| | | |]; try by eval_buffer.
  - destruct (url_as_str_wf u Hwf) as (s' & Hs & Hl & _). assert (s' = s) as -> by congruence.
    unfold MAX_AUTHORIZATION_URL_LEN in Hl. rewrite Hu.
    change (zeros (3 + 2048)) with ([] ++ zeros (3 + 2048)).
    rewrite set_index_append by zlen_tac. cbv beta iota delta [mbind res_bind].
    rewrite as_u16_small by lia. by eval_buffer.
  - apply peer_id_wf_bytes in Hwf as (Hl & _). unfold PeerIdBytes.MAX_LEN in Hl.
    rewrite as_u8_small by lia. by eval_buffer.
Qed.

Lemma to_be_2_zlen (s : list Z) hi lo :
  is_u8 hi -> is_u8 lo -> zlen s = from_be_bytes [hi; lo] -> to_be_bytes 2 (zlen s) = [hi; lo].
Proof. intros ? ? ->. apply to_from_be; by bytes_tac. Qed.

Lemma enterprise_decode_wire m l :
  EnterpriseResolveResponse.wf m -> response_wire m l ->
  bytes l /\ zlen l <= MAX_RESPONSE_LEN /\ EnterpriseResolveResponse.decode l = Ok m.
Proof.
  intros Hwf Hw. destruct Hw as [p|r|u s Hu|p| | | |];
    try by (split_and!; [bytes_tac|..]).
  - destruct p as [[] []]; by (split_and!; [bytes_tac|..]).
  - split_and!; [bytes_tac|done|]. unfold EnterpriseResolveResponse.decode.
    cbn [Z.eqb Pos.eqb]. unfold EnterpriseResolveResponse.decode_retry.
    rewrite try_into_exact by apply zlen_to_be. cbn [ok_or mbind res_bind].
    by rewrite retry_wire_roundtrip.
  - destruct (url_as_str_wf u Hwf) as (s' & Hs & Hl & Hb & Hv & Hn).
    assert (s' = s) as -> by congruence. unfold MAX_RESPONSE_LEN, MAX_AUTHORIZATION_URL_LEN in *.
    split_and!; [bytes_tac|zlen_tac|].
    pose proof (from_to_be 2 (zlen s) ltac:(simpl; lia)) as Hfrom.
    destruct (to_be_bytes 2 (zlen s)) as [|hi [|lo [|? ?]]] eqn:E; try done.
    unfold EnterpriseResolveResponse.decode. simpl. rewrite Hfrom, Z.eqb_refl. simpl.
    rewrite (proj2 (from_utf8_some s s)) by done. simpl. by rewrite Hn.
  - apply peer_id_wf_bytes in Hwf as (Hl & Hb & Hn). unfold PeerIdBytes.MAX_LEN in Hl.
    split_and!; [bytes_tac|unfold MAX_RESPONSE_LEN, MAX_AUTHORIZATION_URL_LEN; zlen_tac|].
    simpl. rewrite Z.eqb_refl. simpl. by rewrite Hn.
Qed.

Lemma enterprise_decode_canonical l m :
  bytes l -> EnterpriseResolveResponse.decode l = Ok m ->
  EnterpriseResolveResponse.wf m /\ response_wire m l.
Proof.
  intros Hb H. destruct l as [|tag p]; [done|]. apply Forall_cons in Hb as [Ht Hb].
  unfold EnterpriseResolveResponse.decode in H. inv_ok; subst;
    try (rewrite (zlen_0 p) by done; by (split; [|constructor])).
  - unfold EnterpriseResolveResponse.decode_providers in H. destruct p as [|mask [|? ?]]; try done.
    inv_ok. apply fmap_Some in H as (q & Hq & ->). apply providers_from_mask_ok in Hq as [? <-].
    split; [done|constructor].
  - unfold EnterpriseResolveResponse.decode_retry in H. inv_ok.
    apply retry_wire_canonical in H as [Hwf Heq]; [|done..]. split; [done|]. rewrite <- Heq.
    constructor.
  - unfold EnterpriseResolveResponse.decode_authenticate in H.
    destruct p as [|hi [|lo s]]; try done. split_forall. inv_ok.
    match goal with H : from_utf8 _ = Some _ |- _ => apply from_utf8_some in H as [-> Hv] end.
    match goal with H : AuthorizationUrl.new _ = Ok _ |- _ => apply url_new_ok in H as [Hl ->] end.
    split; [by exists s|]. rewrite (app_comm_cons [] s), (app_comm_cons [lo] s).
    change ([hi; lo] ++ s) with ([hi; lo] ++ s).
    rewrite <- (to_be_2_zlen s hi lo) by done. constructor.
    unfold AuthorizationUrl.as_str. simpl. rewrite take_zlen_app by done.
    by rewrite (proj2 (from_utf8_some s s)).
  - unfold EnterpriseResolveResponse.decode_resolved in H. destruct p as [|plen p]; [done|].
    split_forall. inv_ok. apply peer_id_new_wf in H as [? Heq]; [|done]. split; [done|].
    subst. constructor.
Qed.

Lemma enterprise_response_codec_lemma :
  codec_correct enterprise_response_enc EnterpriseResolveResponse.decode
    EnterpriseResolveResponse.wf MAX_RESPONSE_LEN.
Proof.
  apply codec_intro.
  - intros m Hwf. assert (exists l, response_wire m l) as [l Hw].
    { destruct m as [| |u| | | | |]; try by (eexists; constructor).
      destruct (url_as_str_wf u Hwf) as (s & Hs & _). eexists; by constructor. }
    exists l. split; [by apply enterprise_response_enc_eq|by apply enterprise_decode_wire].
  - intros l m Hb H. apply enterprise_decode_canonical in H as [Hwf Hw]; [|done].
    split; [done|by apply enterprise_response_enc_eq].
  - intros l Hb. unfold EnterpriseResolveResponse.decode. destruct l as [|tag p]; [done|].
    unfold EnterpriseResolveResponse.decode_providers, EnterpriseResolveResponse.decode_retry,
      EnterpriseResolveResponse.decode_authenticate, EnterpriseResolveResponse.decode_resolved.
    no_panic; try done; destruct p as [|? [|? ?]]; cbv zeta; no_panic.
Qed.

(** ** Property *)

(** The enterprise resolve messages are canonical bounded codecs; the response one
    carries the provider set, a validated authorization URL or the target's peer id. *)
Theorem enterprise_wire_codecs :
  codec_correct EnterpriseStart.encode EnterpriseStart.decode EnterpriseStart.wf START_LEN /\
  codec_correct (fun m => Ok (EnterpriseSelect.encode m)) EnterpriseSelect.decode
    (fun _ => True) SELECT_LEN /\
  codec_correct enterprise_response_enc EnterpriseResolveResponse.decode
    EnterpriseResolveResponse.wf MAX_RESPONSE_LEN.
Proof.
  split_and!; [apply enterprise_start_codec_lemma|apply enterprise_select_codec_lemma
    |apply enterprise_response_codec_lemma].
Qed.
