(* ===== verification/WireFileTransfer.v ===== *)
(** * File-transfer frames

    [crates/yonder-core/src/wire/file_transfer.rs], the framing half: message tags
    and error codes, the bounded control-frame encoder, the frame decoder with its
    length validation, and the path and file-name validators. *)

From S2P Require Import Prelude Domain Codec WireRegistry.
Open Scope Z_scope.

Definition MAX_PATH_LEN : Z := 4096.
Definition MAX_FILE_NAME_LEN : Z := 1024.
Definition MIN_DATA_LEN : Z := 1.
Definition MAX_DATA_LEN : Z := 65536.
Definition DIGEST_LEN : Z := 32.
Definition FINISH_LEN : Z := 8 + DIGEST_LEN.
Definition FRAME_HEADER_LEN : Z := 5.
Definition MAX_CONTROL_PAYLOAD_LEN : Z := 8192.
Definition MAX_CONTROL_FRAME_LEN : Z := MAX_CONTROL_PAYLOAD_LEN + FRAME_HEADER_LEN.
Definition UPLOAD_OPEN_MAX_LEN : Z := 2 + MAX_PATH_LEN + 2 + MAX_FILE_NAME_LEN + 8.
Definition DOWNLOAD_OPEN_MAX_LEN : Z := 2 + MAX_PATH_LEN.
Definition DOWNLOAD_OFFER_MAX_LEN : Z := 2 + MAX_FILE_NAME_LEN + 8.

Module TransferTag.
Inductive t :=
| UploadOpen | DownloadOpen | DownloadOffer | Ready | Data | Finish | Committed | Cancel | Error.

Definition code (self : t) : Z :=
  match self with
  | UploadOpen => 0x01 | DownloadOpen => 0x02 | DownloadOffer => 0x03 | Ready => 0x04
  | Data => 0x05 | Finish => 0x06 | Committed => 0x07 | Cancel => 0x08 | Error => 0x09
  end.

Definition from_byte (byte : Z) : option t :=
  match byte with
  | 0x01 => Some UploadOpen | 0x02 => Some DownloadOpen | 0x03 => Some DownloadOffer
  | 0x04 => Some Ready | 0x05 => Some Data | 0x06 => Some Finish
  | 0x07 => Some Committed | 0x08 => Some Cancel | 0x09 => Some Error
  | _ => None
  end.
End TransferTag.

Module FileTransferErrorCode.
Inductive t :=
| Busy | InvalidRequest | InvalidPathEncoding | InvalidFileName | PathTooLong
| SourceNotFound | SourceNotRegularFile | DestinationExists | DestinationParentNotFound
| DestinationNotDirectory | PermissionDenied | NoSpace | FileTooLargeForPlatform
| ReadFailed | WriteFailed | SizeMismatch | DigestMismatch | SourceChanged
| CommitFailed | Cancelled | SessionClosing | Unsupported.

Definition code (self : t) : Z :=
  match self with
  | Busy => 1 | InvalidRequest => 2 | InvalidPathEncoding => 3 | InvalidFileName => 4
  | PathTooLong => 5 | SourceNotFound => 6 | SourceNotRegularFile => 7
  | DestinationExists => 8 | DestinationParentNotFound => 9 | DestinationNotDirectory => 10
  | PermissionDenied => 11 | NoSpace => 12 | FileTooLargeForPlatform => 13
  | ReadFailed => 14 | WriteFailed => 15 | SizeMismatch => 16 | DigestMismatch => 17
  | SourceChanged => 18 | CommitFailed => 19 | Cancelled => 20 | SessionClosing => 21
  | Unsupported => 22
  end.

Definition from_u16 (value : Z) : option t :=
  match value with
  | 1 => Some Busy | 2 => Some InvalidRequest | 3 => Some InvalidPathEncoding
  | 4 => Some InvalidFileName | 5 => Some PathTooLong | 6 => Some SourceNotFound
  | 7 => Some SourceNotRegularFile | 8 => Some DestinationExists
  | 9 => Some DestinationParentNotFound | 10 => Some DestinationNotDirectory
  | 11 => Some PermissionDenied | 12 => Some NoSpace | 13 => Some FileTooLargeForPlatform
  | 14 => Some ReadFailed | 15 => Some WriteFailed | 16 => Some SizeMismatch
  | 17 => Some DigestMismatch | 18 => Some SourceChanged | 19 => Some CommitFailed
  | 20 => Some Cancelled | 21 => Some SessionClosing | 22 => Some Unsupported
  | _ => None
  end.
End FileTransferErrorCode.

(** ** Path and file-name validation *)

(** NUL, C0, DEL and C1, on code points. *)
Definition is_control_char (code : Z) : bool :=
  (code <=? 0x1f) || (code =? 0x7f) || ((0x80 <=? code) && (code <=? 0x9f)).

Definition validate_protocol_path (bytes : list Z) : res ProtocolError unit :=
  if MAX_PATH_LEN <? zlen bytes then Err (InvalidField FFileTransferPath) else
  text ← ok_or (utf8_chars bytes) (InvalidField FFileTransferPath);
  if existsb is_control_char text then Err (InvalidField FFileTransferPath) else Ok tt.

(** ['a'..'z'] to ['A'..'Z'], other bytes unchanged. *)
Definition to_ascii_uppercase (b : Z) : Z := if (0x61 <=? b) && (b <=? 0x7A) then b - 32 else b.

(** The part before the first ['.']. *)
Fixpoint stem (name : list Z) : list Z :=
  match name with
  | [] => []
  | b :: rest => if b =? 0x2E then [] else b :: stem rest
  end.

(** "CON", "PRN", "AUX", "NUL", "COM1".."COM9" and "LPT1".."LPT9" as bytes. *)
Definition reserved_stems : list (list Z) :=
  [[0x43; 0x4F; 0x4E]; [0x50; 0x52; 0x4E]; [0x41; 0x55; 0x58]; [0x4E; 0x55; 0x4C]] ++
  ((fun d => [0x43; 0x4F; 0x4D; 0x30 + d]) <$> seqZ 1 9) ++
  ((fun d => [0x4C; 0x50; 0x54; 0x30 + d]) <$> seqZ 1 9).

Definition ends_with (name : list Z) (b : Z) : bool :=
  match last name with Some c => c =? b | None => false end.

Definition is_windows_reserved_name (name : list Z) : bool :=
  if ends_with name 0x20 || ends_with name 0x2E then true
  else existsb (fun r => bool_decide (to_ascii_uppercase <$> stem name = r)) reserved_stems.

(** [validate_default_file_name] for a [&str]; [windows] is [cfg(windows)]. *)
Definition validate_default_file_name (windows : bool) (name : list Z) : res ProtocolError unit :=
  if (zlen name =? 0) || bool_decide (name = [0x2E]) || bool_decide (name = [0x2E; 0x2E])
  then Err (InvalidField FFileTransferFileName) else
  if MAX_FILE_NAME_LEN <? zlen name then Err (InvalidField FFileTransferFileName) else
  if existsb (fun b => (b =? 0x00) || (b =? 0x2F) || (b <=? 0x1f) || (b =? 0x7f)) name
     || existsb (fun c => (0x80 <=? c) && (c <=? 0x9f)) (default [] (utf8_chars name))
  then Err (InvalidField FFileTransferFileName) else
  if windows && (existsb (fun b => b =? 0x5C) name || is_windows_reserved_name name)
  then Err (InvalidField FFileTransferFileName) else Ok tt.

(** ** Frames *)

Definition encode_frame_header (tag payload_len : Z) : list Z := tag :: to_be_bytes 4 payload_len.

Definition decode_frame_header (bytes : list Z) : res ProtocolError (Z * Z) :=
  if negb (zlen bytes =? FRAME_HEADER_LEN) then Err (InvalidLength FRAME_HEADER_LEN (zlen bytes))
  else
    match bytes with
    | [tag; b1; b2; b3; b4] =>
      match TransferTag.from_byte tag with
      | None => Err (UnknownTag tag)
      | Some _ => Ok (tag, from_be_bytes [b1; b2; b3; b4])
      end
    | _ => Panic
    end.

Definition in_range (lo hi len : Z) : bool := (lo <=? len) && (len <=? hi).

Definition validate_payload_len (tag len : Z) : res ProtocolError unit :=
  code ← ok_or (TransferTag.from_byte tag) (UnknownTag tag);
  let valid :=
    match code with
    | TransferTag.UploadOpen => in_range 13 UPLOAD_OPEN_MAX_LEN len
    | TransferTag.DownloadOpen => in_range 3 DOWNLOAD_OPEN_MAX_LEN len
    | TransferTag.DownloadOffer => in_range 11 DOWNLOAD_OFFER_MAX_LEN len
    | TransferTag.Ready => len =? 0
    | TransferTag.Data => in_range MIN_DATA_LEN MAX_DATA_LEN len
    | TransferTag.Finish => len =? FINISH_LEN
    | TransferTag.Committed => len =? 0
    | TransferTag.Cancel => len =? 0
    | TransferTag.Error => len =? 2
    end in
  if valid then Ok tt else Err (InvalidLength 0 len).

Module FileTransferMessage.
Inductive t :=
| UploadOpen (destination file_name : list Z) (declared_size : Z)
| DownloadOpen (source : list Z)
| DownloadOffer (file_name : list Z) (declared_size : Z)
| Ready
| Data (bytes : list Z)
| Finish (actual_size : Z) (digest : list Z)
| Committed
| Cancel
| Error (code : FileTransferErrorCode.t).

Definition tag_of (message : t) : Z :=
  match message with
  | UploadOpen _ _ _ => TransferTag.code TransferTag.UploadOpen
  | DownloadOpen _ => TransferTag.code TransferTag.DownloadOpen
  | DownloadOffer _ _ => TransferTag.code TransferTag.DownloadOffer
  | Ready => TransferTag.code TransferTag.Ready
  | Data _ => TransferTag.code TransferTag.Data
  | Finish _ _ => TransferTag.code TransferTag.Finish
  | Committed => TransferTag.code TransferTag.Committed
  | Cancel => TransferTag.code TransferTag.Cancel
  | Error _ => TransferTag.code TransferTag.Error
  end.

(** [write_field]: the buffer after the write and the new length. *)
Definition write_field (bytes : list Z) (len : Z) (value : list Z) (field : ProtocolField)
    (allow_empty : bool) : res ProtocolError (list Z * Z) :=
  if negb allow_empty && (zlen value =? 0) then Err (InvalidField field) else
  if (if bool_decide (field = FFileTransferPath) then MAX_PATH_LEN else MAX_FILE_NAME_LEN)
       <? zlen value
  then Err (InvalidField field) else
  _ ← validate_protocol_path value;
  let value_len := zlen value in
  let prefix := to_be_bytes 2 (as_u16 value_len) in
  end_ ← ok_or (checked_add_u64 len 2 ≫= fun v => checked_add_u64 v value_len)
           (InvalidField field);
  bytes ← copy_range bytes len (len + 2) prefix;
  bytes ← copy_range bytes (len + 2) end_ value;
  Ok (bytes, end_).

Definition write_u64 (bytes : list Z) (len value : Z) : res ProtocolError (list Z * Z) :=
  end_ ← ok_or (checked_add_u64 len 8) (InvalidField FFileTransferSize);
  bytes ← copy_range bytes len end_ (to_be_bytes 8 value);
  Ok (bytes, end_).

Definition encode_upload_open (destination file_name : list Z) (declared_size : Z)
  : res ProtocolError WireBytes.t :=
  let bytes := zeros MAX_CONTROL_PAYLOAD_LEN in
  '(bytes, len) ← write_field bytes 0 destination FFileTransferPath true;
  '(bytes, len) ← write_field bytes len file_name FFileTransferFileName false;
  '(bytes, len) ← write_u64 bytes len declared_size;
  WireBytes.new bytes len.

Definition encode_download_open (source : list Z) : res ProtocolError WireBytes.t :=
  '(bytes, len) ← write_field (zeros MAX_CONTROL_PAYLOAD_LEN) 0 source FFileTransferPath false;
  WireBytes.new bytes len.

Definition encode_download_offer (file_name : list Z) (declared_size : Z)
  : res ProtocolError WireBytes.t :=
  '(bytes, len) ←
    write_field (zeros MAX_CONTROL_PAYLOAD_LEN) 0 file_name FFileTransferFileName false;
  '(bytes, len) ← write_u64 bytes len declared_size;
  WireBytes.new bytes len.

Definition encode_finish (actual_size : Z) (digest : list Z) : res ProtocolError WireBytes.t :=
  bytes ← copy_range (zeros MAX_CONTROL_PAYLOAD_LEN) 0 8 (to_be_bytes 8 actual_size);
  bytes ← copy_range bytes 8 FINISH_LEN digest;
  WireBytes.new bytes FINISH_LEN.

Definition encode_error (code : FileTransferErrorCode.t) : res ProtocolError WireBytes.t :=
  bytes ← copy_range (zeros MAX_CONTROL_PAYLOAD_LEN) 0 2
            (to_be_bytes 2 (FileTransferErrorCode.code code));
  WireBytes.new bytes 2.

Definition encode_payload (self : t) : res ProtocolError WireBytes.t :=
  match self with
  | UploadOpen destination file_name declared_size =>
    encode_upload_open destination file_name declared_size
  | DownloadOpen source => encode_download_open source
  | DownloadOffer file_name declared_size => encode_download_offer file_name declared_size
  | Ready => WireBytes.new (zeros MAX_CONTROL_PAYLOAD_LEN) 0
  | Finish actual_size digest => encode_finish actual_size digest
  | Committed => WireBytes.new (zeros MAX_CONTROL_PAYLOAD_LEN) 0
  | Cancel => WireBytes.new (zeros MAX_CONTROL_PAYLOAD_LEN) 0
  | Error code => encode_error code
  | Data _ => Err (InvalidField FFileTransferData)
  end.

Definition encode (self : t) : res ProtocolError WireBytes.t :=
  payload ← encode_payload self;
  let slice := WireBytes.as_slice payload in
  payload_len ← ok_or (if zlen slice <? 2 ^ 32 then Some (zlen slice) else None)
                  (InvalidLength MAX_CONTROL_PAYLOAD_LEN (zlen slice));
  frame ← copy_range (zeros (MAX_CONTROL_PAYLOAD_LEN + FRAME_HEADER_LEN)) 0 FRAME_HEADER_LEN
            (encode_frame_header (tag_of self) payload_len);
  frame ← copy_range frame FRAME_HEADER_LEN (FRAME_HEADER_LEN + zlen slice) slice;
  WireBytes.new frame (FRAME_HEADER_LEN + zlen slice).

Definition string_field (field : Z) : ProtocolField :=
  if field =? 0 then FFileTransferPath else FFileTransferFileName.

Definition take_string_field (input : list Z) (field : Z) : res ProtocolError (list Z * list Z) :=
  len_bytes ← ok_or (get_range input 0 2) (InvalidField (string_field field));
  len_bytes ← ok_or (try_into_array 2 len_bytes) (InvalidLength 2 0);
  let len := from_be_bytes len_bytes in
  bytes ← ok_or (get_range input 2 (2 + len)) (InvalidField (string_field field));
  _ ← (if field =? 0 then validate_protocol_path bytes
       else if zlen bytes =? 0 then Err (InvalidField FFileTransferFileName)
       else
         _ ← validate_protocol_path bytes;
         if MAX_FILE_NAME_LEN <? zlen bytes then Err (InvalidField FFileTransferFileName)
         else Ok tt);
  text ← ok_or (from_utf8 bytes) (InvalidField FFileTransferPath);
  rest ← slice input (2 + len) (zlen input);
  Ok (text, rest).

Definition take_u64 (input : list Z) : res ProtocolError (Z * list Z) :=
  bytes ← ok_or (get_range input 0 8) (InvalidField FFileTransferSize);
  bytes ← ok_or (try_into_array 8 bytes) (InvalidField FFileTransferSize);
  rest ← slice input 8 (zlen input);
  Ok (from_be_bytes bytes, rest).

Definition decode_payload (tag : Z) (payload : list Z) : res ProtocolError t :=
  code ← ok_or (TransferTag.from_byte tag) (UnknownTag tag);
  match code with
  | TransferTag.UploadOpen =>
    '(destination, rest) ← take_string_field payload 0;
    '(file_name, rest) ← take_string_field rest 1;
    '(declared_size, rest) ← take_u64 rest;
    if negb (zlen rest =? 0) then Err TrailingBytes
    else Ok (UploadOpen destination file_name declared_size)
  | TransferTag.DownloadOpen =>
    '(source, rest) ← take_string_field payload 0;
    if negb (zlen rest =? 0) then Err TrailingBytes else Ok (DownloadOpen source)
  | TransferTag.DownloadOffer =>
    '(file_name, rest) ← take_string_field payload 0;
    '(declared_size, rest) ← take_u64 rest;
    if negb (zlen rest =? 0) then Err TrailingBytes
    else Ok (DownloadOffer file_name declared_size)
  | TransferTag.Ready => Ok Ready
  | TransferTag.Data => Ok (Data payload)
  | TransferTag.Finish =>
    '(actual_size, rest) ← take_u64 payload;
    digest_bytes ← ok_or (try_into_array DIGEST_LEN rest) (InvalidLength FINISH_LEN (zlen payload));
    Ok (Finish actual_size digest_bytes)
  | TransferTag.Committed => Ok Committed
  | TransferTag.Cancel => Ok Cancel
  | TransferTag.Error =>
    bytes ← ok_or (try_into_array 2 payload) (InvalidLength 2 (zlen payload));
    code ← ok_or (FileTransferErrorCode.from_u16 (from_be_bytes bytes))
             (InvalidField FFileTransferErrorCode);
    Ok (Error code)
  end.

(** [usize] is 64 bits wide, so the length conversion and sum cannot overflow. *)
Definition decode_frame (frame : list Z) : res ProtocolError t :=
  if zlen frame <? FRAME_HEADER_LEN then Err (InvalidLength FRAME_HEADER_LEN (zlen frame)) else
  header ← slice frame 0 FRAME_HEADER_LEN;
  '(tag, payload_len) ← decode_frame_header header;
  _ ← validate_payload_len tag payload_len;
  expected ← ok_or (checked_add_u64 FRAME_HEADER_LEN payload_len)
               (InvalidLength FRAME_HEADER_LEN (zlen frame));
  if zlen frame <? expected then Err (InvalidLength expected (zlen frame)) else
  if expected <? zlen frame then Err TrailingBytes else
  payload ← slice frame FRAME_HEADER_LEN (zlen frame);
  decode_payload tag payload.
End FileTransferMessage.

(** ** Wire form and validity *)

(** A length-prefixed string. *)
Definition str_field (s : list Z) : list Z := to_be_bytes 2 (zlen s) ++ s.

Definition path_ok (s : list Z) : Prop := bytes s /\ validate_protocol_path s = Ok tt.

Definition name_ok (s : list Z) : Prop := path_ok s /\ 1 <= zlen s <= MAX_FILE_NAME_LEN.

Definition message_valid (m : FileTransferMessage.t) : Prop :=
  match m with
  | FileTransferMessage.UploadOpen d f n => path_ok d /\ name_ok f /\ is_u64 n
  | FileTransferMessage.DownloadOpen s => path_ok s /\ 1 <= zlen s
  | FileTransferMessage.DownloadOffer f n => name_ok f /\ is_u64 n
  | FileTransferMessage.Data b => bytes b /\ MIN_DATA_LEN <= zlen b <= MAX_DATA_LEN
  | FileTransferMessage.Finish n d => is_u64 n /\ bytes d /\ zlen d = DIGEST_LEN
  | _ => True
  end.

Definition payload_of (m : FileTransferMessage.t) : list Z :=
  match m with
  | FileTransferMessage.UploadOpen d f n => str_field d ++ str_field f ++ to_be_bytes 8 n
  | FileTransferMessage.DownloadOpen s => str_field s
  | FileTransferMessage.DownloadOffer f n => str_field f ++ to_be_bytes 8 n
  | FileTransferMessage.Data b => b
  | FileTransferMessage.Finish n d => to_be_bytes 8 n ++ d
  | FileTransferMessage.Error code => to_be_bytes 2 (FileTransferErrorCode.code code)
  | _ => []
  end.

(** A frame as the sender puts it on the stream: [encode] for control messages, the header
    followed by the raw block for [Data]. *)
Definition frame_enc (m : FileTransferMessage.t) : res ProtocolError (list Z) :=
  match m with
  | FileTransferMessage.Data b =>
      Ok (encode_frame_header (TransferTag.code TransferTag.Data) (zlen b) ++ b)
  | _ => WireBytes.as_slice <$> FileTransferMessage.encode m
  end.

Definition frame_of (m : FileTransferMessage.t) : list Z :=
  encode_frame_header (FileTransferMessage.tag_of m) (zlen (payload_of m)) ++ payload_of m.

Lemma zlen_str_field s : zlen (str_field s) = 2 + zlen s.
Proof. unfold str_field. rewrite zlen_app, zlen_to_be. done. Qed.
#[export] Hint Rewrite zlen_str_field : zlen.

Lemma path_ok_len s : path_ok s -> zlen s <= MAX_PATH_LEN.
Proof.
  intros [_ H]. unfold validate_protocol_path in H.
  destruct (Z.ltb_spec MAX_PATH_LEN (zlen s)); [done|lia].
Qed.

Lemma path_ok_utf8 s : path_ok s -> from_utf8 s = Some s.
Proof.
  intros [_ H]. unfold validate_protocol_path in H. unfold from_utf8.
  destruct (utf8_chars s); [done|]. by destruct (_ <? _).
Qed.

Lemma tag_from_code t : TransferTag.from_byte (TransferTag.code t) = Some t.
Proof. by destruct t. Qed.

Lemma tag_from_byte_some b t : TransferTag.from_byte b = Some t <-> TransferTag.code t = b.
Proof.
  split; [|intros <-; apply tag_from_code]. unfold TransferTag.from_byte.
  destruct b as [|p|]; try done.
  do 4 (try (destruct p as [p|p|]; try done)); by intros [= <-].
Qed.

Lemma error_code_some v c :
  FileTransferErrorCode.from_u16 v = Some c <-> FileTransferErrorCode.code c = v.
Proof.
  split; [|by intros <-; destruct c]. unfold FileTransferErrorCode.from_u16.
  destruct v as [|p|]; try done.
  do 5 (try (destruct p as [p|p|]; try done)); by intros [= <-].
Qed.

Lemma error_code_u16 c : is_u16 (FileTransferErrorCode.code c).
Proof. destruct c; unfold is_u16; simpl; lia. Qed.

(** ** Encoding *)

Lemma write_field_eq pre n v f e :
  path_ok v -> (e = false -> 1 <= zlen v) ->
  (f = FFileTransferPath \/ zlen v <= MAX_FILE_NAME_LEN) ->
  zlen pre <= 8192 -> 2 + zlen v <= n ->
  FileTransferMessage.write_field (pre ++ zeros n) (zlen pre) v f e =
  Ok ((pre ++ str_field v) ++ zeros (n - zlen (str_field v)), zlen (pre ++ str_field v)).
Proof.
  intros Hp He Hf Hpre Hn. pose proof (path_ok_len v Hp) as Hl. destruct Hp as [Hb Hv].
  unfold FileTransferMessage.write_field, MAX_PATH_LEN, MAX_FILE_NAME_LEN in *.
  pose proof (zlen_nonneg v). pose proof (zlen_nonneg pre).
  assert (negb e && (zlen v =? 0) = false) as ->.
  { destruct e; [done|]. specialize (He eq_refl). simpl. apply Z.eqb_neq. lia. }
  assert (((if bool_decide (f = FFileTransferPath) then 4096 else 1024) <? zlen v) = false) as ->.
  { apply Z.ltb_ge. case_bool_decide; [lia|]. by destruct Hf. }
  rewrite Hv. cbn [mbind res_bind]. cbv zeta. rewrite as_u16_small by lia.
  rewrite checked_add_u64_some by lia. cbn [mbind option_bind].
  rewrite checked_add_u64_some by lia. cbn [ok_or mbind res_bind].
  rewrite copy_range_append by zlen_tac. cbn [mbind res_bind].
  rewrite copy_range_append by zlen_tac. cbn [mbind res_bind].
  unfold str_field. by rewrite !zlen_app, !zlen_to_be, !app_assoc, Z.sub_add_distr, Z.add_assoc.
Qed.

Lemma write_u64_eq pre n v :
  zlen pre <= 8192 -> 8 <= n ->
  FileTransferMessage.write_u64 (pre ++ zeros n) (zlen pre) v =
  Ok ((pre ++ to_be_bytes 8 v) ++ zeros (n - 8), zlen (pre ++ to_be_bytes 8 v)).
Proof.
  intros Hpre Hn. unfold FileTransferMessage.write_u64.
  pose proof (zlen_nonneg pre). rewrite checked_add_u64_some by lia. cbn [ok_or mbind res_bind].
  rewrite copy_range_append by zlen_tac. cbn [mbind res_bind]. by rewrite zlen_app, !zlen_to_be.
Qed.

Lemma name_path_ok s : name_ok s -> path_ok s.
Proof. by intros [? _]. Qed.
#[export] Hint Resolve name_path_ok : yon.

(** Every valid control message has its payload encoded without panic or error. *)
Lemma encode_payload_eq m :
  message_valid m -> (forall b, m <> FileTransferMessage.Data b) ->
  exists n, FileTransferMessage.encode_payload m =
    Ok (WireBytes.Mk (payload_of m ++ zeros n) (zlen (payload_of m))) /\
    0 <= n /\ zlen (payload_of m) <= MAX_CONTROL_PAYLOAD_LEN.
Proof.
  intros Hv Hd. unfold FileTransferMessage.encode_payload, MAX_CONTROL_PAYLOAD_LEN, payload_of.
  assert (forall pre n (E := ProtocolError), 0 <= n -> zlen pre <= 8192 ->
    exists n', WireBytes.new (E:=E) (pre ++ zeros n) (zlen pre) =
      Ok (WireBytes.Mk (pre ++ zeros n') (zlen pre)) /\ 0 <= n' /\ zlen pre <= 8192) as Hnew.
  { intros pre n E Hn Hp. exists n. unfold WireBytes.new, assert_or_panic.
    rewrite zlen_app, zlen_zeros by lia. by rewrite (proj2 (Z.leb_le _ _)) by lia. }
  destruct m as [d f s|s|f s| |b|s d| | |c]; cbn in Hv;
    try (by apply (Hnew [] 8192)); try (by destruct (Hd b)).
  - destruct Hv as (Hp & Hf & _). pose proof (path_ok_len d Hp). pose proof Hf as [_ Hfl].
    unfold FileTransferMessage.encode_upload_open, MAX_CONTROL_PAYLOAD_LEN, MAX_PATH_LEN, MAX_FILE_NAME_LEN in *.
    cbv zeta. change (FileTransferMessage.write_field (zeros 8192) 0)
      with (FileTransferMessage.write_field ([] ++ zeros 8192) (zlen (A:=Z) [])).
    do 2 (rewrite write_field_eq by (eauto with yon || naive_solver || zlen_tac); cbn [mbind res_bind]).
    rewrite write_u64_eq by zlen_tac. cbn [mbind res_bind].
    rewrite app_nil_l, <- (app_assoc (str_field d)). apply Hnew; zlen_tac.
  - destruct Hv as (Hp & Hs). pose proof (path_ok_len s Hp).
    unfold FileTransferMessage.encode_download_open, MAX_CONTROL_PAYLOAD_LEN, MAX_PATH_LEN in *.
    change (FileTransferMessage.write_field (zeros 8192) 0)
      with (FileTransferMessage.write_field ([] ++ zeros 8192) (zlen (A:=Z) [])).
    rewrite write_field_eq by (eauto with yon || naive_solver || zlen_tac). cbn [mbind res_bind].
    apply Hnew; zlen_tac.
  - destruct Hv as (Hf & _). pose proof Hf as [_ Hfl].
    unfold FileTransferMessage.encode_download_offer, MAX_CONTROL_PAYLOAD_LEN, MAX_FILE_NAME_LEN in *.
    change (FileTransferMessage.write_field (zeros 8192) 0)
      with (FileTransferMessage.write_field ([] ++ zeros 8192) (zlen (A:=Z) [])).
    rewrite write_field_eq by (eauto with yon || naive_solver || zlen_tac). cbn [mbind res_bind].
    rewrite write_u64_eq by zlen_tac. cbn [mbind res_bind]. apply Hnew; zlen_tac.
  - destruct Hv as (_ & _ & Hl). unfold FileTransferMessage.encode_finish, FINISH_LEN, DIGEST_LEN,
      MAX_CONTROL_PAYLOAD_LEN in *. rewrite copy_into_zeros by zlen_tac. cbn [mbind res_bind].
    rewrite copy_range_append by zlen_tac. cbn [mbind res_bind].
    replace (8 + 32) with (zlen (to_be_bytes 8 s ++ d)) by zlen_tac. apply Hnew; zlen_tac.
  - unfold FileTransferMessage.encode_error, MAX_CONTROL_PAYLOAD_LEN.
    rewrite copy_into_zeros by zlen_tac. cbn [mbind res_bind]. by apply (Hnew (to_be_bytes 2 _)).
Qed.

Lemma frame_enc_eq m : message_valid m -> frame_enc m = Ok (frame_of m).
Proof.
  intros Hv.
  assert ((exists b, m = FileTransferMessage.Data b) \/ forall b, m <> FileTransferMessage.Data b)
    as [[b ->]|Hd] by (destruct m; naive_solver); [done|].
  assert (frame_enc m = WireBytes.as_slice <$> FileTransferMessage.encode m) as ->
    by (destruct m as [| | | |b| | | |]; try done; by destruct (Hd b)).
  destruct (encode_payload_eq m Hv Hd) as (n & He & Hn & Hl).
  unfold FileTransferMessage.encode. rewrite He. cbn [mbind res_bind]. cbv zeta.
  unfold WireBytes.as_slice at 1 2 3 4 5 6 7. cbn [WireBytes.len WireBytes.buffer].
  rewrite !take_zlen_app by done. unfold MAX_CONTROL_PAYLOAD_LEN, FRAME_HEADER_LEN in *.
  pose proof (zlen_nonneg (payload_of m)).
  rewrite (proj2 (Z.ltb_lt _ _)) by lia. cbn [ok_or mbind res_bind].
  assert (zlen (encode_frame_header (FileTransferMessage.tag_of m) (zlen (payload_of m))) = 5)
    as Hh by done.
  rewrite copy_into_zeros by lia. cbn [mbind res_bind]. rewrite Hh.
  rewrite copy_range_append by lia. cbn [mbind res_bind].
  rewrite wire_new_slice by (rewrite ?zlen_app; lia). done.
Qed.

(** ** Decoding *)

Lemma bytes_str_field s : bytes s -> bytes (str_field s).
Proof. intros. unfold str_field. bytes_tac. Qed.
#[export] Hint Resolve bytes_str_field : yon.

Lemma take_string_field_eq s rest f :
  path_ok s -> (f <> 0 -> 1 <= zlen s <= MAX_FILE_NAME_LEN) ->
  FileTransferMessage.take_string_field (str_field s ++ rest) f = Ok (s, rest).
Proof.
  intros Hp Hf. pose proof (path_ok_len s Hp) as Hl. pose proof (path_ok_utf8 s Hp) as Hu.
  destruct Hp as [Hb Hv]. unfold MAX_PATH_LEN, MAX_FILE_NAME_LEN in *. pose proof (zlen_nonneg s).
  unfold FileTransferMessage.take_string_field, str_field. rewrite <- app_assoc.
  rewrite (get_range_app [] (to_be_bytes 2 (zlen s)) (s ++ rest)) by zlen_tac.
  cbn [ok_or mbind res_bind]. rewrite try_into_exact by apply zlen_to_be.
  cbn [ok_or mbind res_bind]. cbv zeta. rewrite from_to_be by (simpl; lia).
  rewrite (get_range_app (to_be_bytes 2 (zlen s)) s rest) by zlen_tac.
  cbn [ok_or mbind res_bind].
  assert ((if f =? 0 then validate_protocol_path s
       else if zlen s =? 0 then Err (InvalidField FFileTransferFileName)
       else _ ← validate_protocol_path s;
         if MAX_FILE_NAME_LEN <? zlen s then Err (InvalidField FFileTransferFileName)
         else Ok tt) = Ok tt) as ->.
  { destruct (Z.eqb_spec f 0) as [|Hne]; [done|]. specialize (Hf Hne).
    rewrite (proj2 (Z.eqb_neq _ _)) by lia. rewrite Hv. simpl.
    by rewrite (proj2 (Z.ltb_ge _ _)) by (unfold MAX_FILE_NAME_LEN; lia). }
  cbn [ok_or mbind res_bind]. rewrite Hu. cbn [ok_or mbind res_bind].
  rewrite (app_assoc (to_be_bytes 2 (zlen s))), slice_tail by zlen_tac. done.
Qed.

Lemma take_string_field_inv input f s rest :
  bytes input -> FileTransferMessage.take_string_field input f = Ok (s, rest) ->
  input = str_field s ++ rest /\ path_ok s /\ bytes rest /\
  (f <> 0 -> 1 <= zlen s <= MAX_FILE_NAME_LEN).
Proof.
  intros Hb H. unfold FileTransferMessage.take_string_field in H.
  apply res_bind_ok in H as (h & Hh & H). apply ok_or_ok in Hh.
  apply get_range_split in Hh as (l1 & l3 & -> & H1 & H2). apply zlen_0 in H1 as ->.
  rewrite app_nil_l in *. apply res_bind_ok in H as (h' & Hh & H).
  apply ok_or_ok, try_into_array_some in Hh as [-> _].
  apply Forall_app in Hb as [Hbh Hb3].
  pose proof (from_be_range h Hbh) as Hr. cbv zeta in H.
  apply res_bind_ok in H as (b & Hg & H). apply ok_or_ok in Hg.
  assert (exists rest', l3 = b ++ rest' /\ zlen b = from_be_bytes h) as (rest' & -> & Hlb).
  { apply get_range_split in Hg as (l1 & l4 & Heq & Hl1 & Hlb).
    apply app_inj_1 in Heq as [<- ->]; [|unfold zlen in *; lia]. exists l4. split; [done|lia]. }
  apply Forall_app in Hb3 as [Hbb Hbr].
  apply res_bind_ok in H as ([] & Hc & H). apply res_bind_ok in H as (txt & Ht & H).
  apply ok_or_ok, from_utf8_some in Ht as [-> Hu].
  rewrite app_assoc, slice_tail in H by zlen_tac. cbn [mbind res_bind] in H.
  injection H as <- <-.
  assert (path_ok b /\ (f <> 0 -> 1 <= zlen b <= MAX_FILE_NAME_LEN)) as [Hp Hf].
  { pose proof (zlen_nonneg b). destruct (Z.eqb_spec f 0); [split; [done|naive_solver]|].
    inv_ok. destruct x. split; [done|lia]. }
  split_and!; [|done..]. unfold str_field. rewrite <- app_assoc. f_equal.
  rewrite Hlb. symmetry. apply to_from_be; [done|]. unfold zlen in H2. lia.
Qed.

Lemma take_u64_eq v rest :
  is_u64 v -> FileTransferMessage.take_u64 (to_be_bytes 8 v ++ rest) = Ok (v, rest).
Proof.
  intros Hv. unfold FileTransferMessage.take_u64.
  rewrite (get_range_app [] (to_be_bytes 8 v) rest) by zlen_tac. cbn [ok_or mbind res_bind].
  rewrite try_into_exact by apply zlen_to_be. cbn [ok_or mbind res_bind].
  rewrite slice_tail by zlen_tac. cbn [mbind res_bind]. by rewrite from_to_be.
Qed.

Lemma take_u64_inv input v rest :
  bytes input -> FileTransferMessage.take_u64 input = Ok (v, rest) ->
  input = to_be_bytes 8 v ++ rest /\ is_u64 v /\ bytes rest.
Proof.
  intros Hb H. unfold FileTransferMessage.take_u64 in H.
  apply res_bind_ok in H as (h & Hh & H). apply ok_or_ok in Hh.
  apply get_range_split in Hh as (l1 & l3 & -> & H1 & H2). apply zlen_0 in H1 as ->.
  rewrite app_nil_l in *. apply Forall_app in Hb as [Hbh Hb3].
  apply res_bind_ok in H as (h' & Hh & H).
  apply ok_or_ok, try_into_array_some in Hh as [-> _]. rewrite slice_tail in H by done.
  cbn [mbind res_bind] in H. injection H as <- <-.
  assert (length h = 8%nat) as Hl8 by (unfold zlen in H2; lia).
  split_and!; [|by pose proof (from_be_range h Hbh) as Hr; rewrite Hl8 in Hr|done].
  f_equal. symmetry. by apply to_from_be.
Qed.

(** The payload length of a valid message passes its tag's bound. *)
Lemma validate_payload_len_valid m :
  message_valid m ->
  validate_payload_len (FileTransferMessage.tag_of m) (zlen (payload_of m)) = Ok tt.
Proof.
  assert (forall b : bool, b = true -> (if b then Ok tt else Err (InvalidLength 0 0)) =
    Ok (E:=ProtocolError) tt) by (by intros ? ->).
  intros Hv. unfold validate_payload_len, in_range, UPLOAD_OPEN_MAX_LEN, DOWNLOAD_OPEN_MAX_LEN,
    DOWNLOAD_OFFER_MAX_LEN, MAX_PATH_LEN, MAX_FILE_NAME_LEN, MIN_DATA_LEN, MAX_DATA_LEN,
    FINISH_LEN, DIGEST_LEN.
  destruct m as [d f s|s|f s| |b|s d| | |c]; cbn in Hv; try done;
    cbn [FileTransferMessage.tag_of TransferTag.code TransferTag.from_byte ok_or mbind res_bind];
    cbn [payload_of]; autorewrite with zlen.
  - destruct Hv as (Hp%path_ok_len & [_ Hf] & _). unfold MAX_PATH_LEN, MAX_FILE_NAME_LEN in *.
    pose proof (zlen_nonneg d).
    by rewrite !(proj2 (Z.leb_le _ _)) by lia.
  - destruct Hv as (Hp%path_ok_len & Hs). unfold MAX_PATH_LEN in *.
    by rewrite !(proj2 (Z.leb_le _ _)) by lia.
  - destruct Hv as ([_ Hf] & _). unfold MAX_FILE_NAME_LEN in *.
    by rewrite !(proj2 (Z.leb_le _ _)) by lia.
  - destruct Hv as (_ & Hl). unfold MIN_DATA_LEN, MAX_DATA_LEN in Hl.
    by rewrite !(proj2 (Z.leb_le _ _)) by lia.
  - destruct Hv as (_ & _ & Hl). unfold DIGEST_LEN in Hl. rewrite Hl. done.
Qed.

(** Payloads of known tags: a frame is decoded by its header and its payload. *)
Lemma decode_frame_eq t p :
  zlen p < 2 ^ 32 ->
  FileTransferMessage.decode_frame (encode_frame_header (TransferTag.code t) (zlen p) ++ p) =
    _ ← validate_payload_len (TransferTag.code t) (zlen p);
    FileTransferMessage.decode_payload (TransferTag.code t) p.
Proof.
  intros Hp. pose proof (zlen_nonneg p). set (h := encode_frame_header _ _).
  assert (zlen h = 5) as Hh by done. unfold FileTransferMessage.decode_frame, FRAME_HEADER_LEN.
  rewrite zlen_app, Hh. rewrite (proj2 (Z.ltb_ge (5 + _) 5)) by lia.
  rewrite slice_head by done. cbn [mbind res_bind].
  assert (decode_frame_header h = Ok (TransferTag.code t, zlen p)) as ->.
  { unfold decode_frame_header, h, encode_frame_header.
    pose proof (from_to_be 4 (zlen p) ltac:(simpl; lia)) as Hf.
    destruct (to_be_bytes 4 (zlen p)) as [|b1 [|b2 [|b3 [|b4 [|? ?]]]]] eqn:E; try done.
    rewrite tag_from_code, Hf. done. }
  cbn [mbind res_bind]. destruct (validate_payload_len _ _) as [[]| |]; [|done..].
  cbn [mbind res_bind]. rewrite checked_add_u64_some by lia. cbn [ok_or mbind res_bind].
  rewrite !(proj2 (Z.ltb_ge _ _)) by lia. rewrite slice_tail by (rewrite ?zlen_app; lia). done.
Qed.

Lemma decode_payload_eq m :
  message_valid m ->
  FileTransferMessage.decode_payload (FileTransferMessage.tag_of m) (payload_of m) = Ok m.
Proof.
  intros Hv. unfold FileTransferMessage.decode_payload.
  destruct m as [d f s|s|f s| |b|s d| | |c]; cbn in Hv; try done;
    cbn [FileTransferMessage.tag_of TransferTag.code TransferTag.from_byte ok_or mbind res_bind];
    cbn [payload_of].
  - destruct Hv as (Hd & [Hf Hl] & Hs). rewrite take_string_field_eq by done. cbn [mbind res_bind].
    rewrite take_string_field_eq by done. cbn [mbind res_bind].
    rewrite <- (app_nil_r (to_be_bytes 8 s)). by rewrite take_u64_eq.
  - destruct Hv as (Hs & _). rewrite <- (app_nil_r (str_field s)). by rewrite take_string_field_eq.
  - destruct Hv as ([Hf Hl] & Hs). rewrite take_string_field_eq by done. cbn [mbind res_bind].
    rewrite <- (app_nil_r (to_be_bytes 8 s)). by rewrite take_u64_eq.
  - destruct Hv as (Hs & Hb & Hl). rewrite take_u64_eq by done. cbn [mbind res_bind].
    by rewrite try_into_exact.
  - rewrite try_into_exact by apply zlen_to_be. cbn [ok_or mbind res_bind].
    rewrite from_to_be by apply error_code_u16.
    by rewrite (proj2 (error_code_some _ c)).
Qed.

Lemma payload_len_u32 m : message_valid m -> zlen (payload_of m) < 2 ^ 32.
Proof.
  intros Hv%validate_payload_len_valid. unfold validate_payload_len, in_range,
    UPLOAD_OPEN_MAX_LEN, DOWNLOAD_OPEN_MAX_LEN, DOWNLOAD_OFFER_MAX_LEN, MAX_PATH_LEN,
    MAX_FILE_NAME_LEN, MIN_DATA_LEN, MAX_DATA_LEN, FINISH_LEN, DIGEST_LEN in Hv.
  apply res_bind_ok in Hv as (t & _ & Hv). destruct t; inv_ok; lia.
Qed.

Lemma tag_of_code m : exists t, FileTransferMessage.tag_of m = TransferTag.code t.
Proof. destruct m; by eexists. Qed.

(** A payload accepted under its tag's length bound is the payload of a valid message. *)
Lemma decode_payload_inv t p m :
  bytes p -> validate_payload_len (TransferTag.code t) (zlen p) = Ok tt ->
  FileTransferMessage.decode_payload (TransferTag.code t) p = Ok m ->
  message_valid m /\ payload_of m = p /\ FileTransferMessage.tag_of m = TransferTag.code t.
Proof.
  intros Hb Hl H. unfold FileTransferMessage.decode_payload in H.
  unfold validate_payload_len, in_range, UPLOAD_OPEN_MAX_LEN, DOWNLOAD_OPEN_MAX_LEN,
    DOWNLOAD_OFFER_MAX_LEN, MIN_DATA_LEN, MAX_DATA_LEN in Hl.
  rewrite tag_from_code in *. cbn [ok_or mbind res_bind] in *.
  destruct t; cbv beta iota zeta in *.
  - apply res_bind_ok in H as ([d r1] & Hd & H). apply res_bind_ok in H as ([f r2] & Hf & H).
    apply res_bind_ok in H as ([s r3] & Hs & H). inv_ok.
    apply take_string_field_inv in Hd as (-> & Hd & Hb1 & _); [|done].
    apply take_string_field_inv in Hf as (-> & Hf & Hb2 & Hfl); [|done].
    apply take_u64_inv in Hs as (-> & Hs & _); [|done]. rewrite (zlen_0 r3) by done.
    rewrite app_nil_r. split_and!; [|done|done]. split_and!; [done|split; [done|by apply Hfl]|done].
  - apply res_bind_ok in H as ([s r] & Hs & H). inv_ok.
    apply take_string_field_inv in Hs as (-> & Hs & _); [|done]. rewrite (zlen_0 r) in * by done.
    rewrite app_nil_r in *. split_and!; [|done|done]. split; [done|]. zlen_tac.
  - apply res_bind_ok in H as ([f r1] & Hf & H). apply res_bind_ok in H as ([s r2] & Hs & H).
    inv_ok. apply take_string_field_inv in Hf as (-> & Hf & Hb1 & _); [|done].
    apply take_u64_inv in Hs as (-> & Hs & _); [|done]. rewrite (zlen_0 r2) in * by done.
    rewrite app_nil_r in *. split_and!; [|done|done]. split; [split; [done|]|done]. zlen_tac.
  - inv_ok. by rewrite (zlen_0 p).
  - inv_ok. done.
  - apply res_bind_ok in H as ([s r] & Hs & H). inv_ok.
    apply take_u64_inv in Hs as (-> & Hs & Hbr); [|done]. done.
  - inv_ok. by rewrite (zlen_0 p).
  - inv_ok. by rewrite (zlen_0 p).
  - apply res_bind_ok in H as (b & Hp & H). apply ok_or_ok, try_into_array_some in Hp as [-> Hp].
    inv_ok. match goal with Hc : FileTransferErrorCode.from_u16 _ = Some _ |- _ =>
      apply error_code_some in Hc as Hcode end.
    split_and!; [done| |done]. cbn [payload_of]. rewrite Hcode. apply to_from_be; [done|].
    unfold zlen in Hp. lia.
Qed.

(** Every frame is rejected by its header or length, or is a header and its payload. *)
Lemma decode_frame_cases l :
  bytes l ->
  (exists e, FileTransferMessage.decode_frame l = Err e) \/
  exists t p, l = encode_frame_header (TransferTag.code t) (zlen p) ++ p /\ zlen p < 2 ^ 32 /\ bytes p.
Proof.
  intros Hb. unfold FileTransferMessage.decode_frame, FRAME_HEADER_LEN.
  destruct (Z.ltb_spec (zlen l) 5) as [|Hs]; [by left; eexists|].
  destruct (split_at l 5 ltac:(lia)) as (h & p & -> & Hh). apply Forall_app in Hb as [Hbh Hbp].
  rewrite slice_head by done. cbn [mbind res_bind]. explode h Hh.
  unfold decode_frame_header. change (zlen [z; z0; z1; z2; z3] =? FRAME_HEADER_LEN) with true.
  cbn [negb]. destruct (TransferTag.from_byte z) as [t|] eqn:Ht; [|by left; eexists].
  apply tag_from_byte_some in Ht as <-. cbn [mbind res_bind]. split_forall.
  set (n := from_be_bytes _).
  assert (0 <= n < 2 ^ 32) as Hn by (apply (from_be_range [z0; z1; z2; z3]); bytes_tac).
  destruct (validate_payload_len _ n) as [[]|e|] eqn:Hv; [|by left; eexists|].
  - cbn [mbind res_bind]. rewrite checked_add_u64_some by lia. cbn [ok_or mbind res_bind].
    destruct (Z.ltb_spec (zlen ([TransferTag.code t; z0; z1; z2; z3] ++ p)) (5 + n)) as [|Hge];
      [by left; eexists|].
    destruct (Z.ltb_spec (5 + n) (zlen ([TransferTag.code t; z0; z1; z2; z3] ++ p))) as [|Hle];
      [by left; eexists|].
    rewrite zlen_app in Hge, Hle. change (zlen [TransferTag.code t; z0; z1; z2; z3]) with 5 in *.
    right. exists t, p. assert (zlen p = n) as Hp by lia. split_and!; [|lia|done].
    unfold encode_frame_header. rewrite Hp. unfold n.
    rewrite to_from_be by (done || bytes_tac). done.
  - exfalso. revert Hv. apply bind_no_panic; [apply ok_or_no_panic|]. intros t' _.
    cbv zeta. destruct (match t' with TransferTag.UploadOpen => _ | _ => _ end); done.
Qed.

Definition MAX_FRAME_LEN : Z := FRAME_HEADER_LEN + MAX_DATA_LEN.

Lemma take_string_field_no_panic input f :
  bytes input -> FileTransferMessage.take_string_field input f <> Panic.
Proof.
  intros Hb. unfold FileTransferMessage.take_string_field, validate_protocol_path. no_panic.
  match goal with Hg : ok_or (get_range input 2 _) _ = Ok _ |- _ =>
    apply ok_or_ok, get_range_split in Hg as (l1 & l3 & -> & Hl1 & Hl2) end.
  rewrite app_assoc, slice_tail; [done|zlen_tac|done].
Qed.

Lemma take_u64_no_panic input : FileTransferMessage.take_u64 input <> Panic.
Proof.
  unfold FileTransferMessage.take_u64. no_panic.
  match goal with Hg : ok_or (get_range input 0 8) _ = Ok _ |- _ =>
    apply ok_or_ok, get_range_split in Hg as (l1 & l3 & -> & Hl1 & Hl2) end.
  rewrite app_assoc, slice_tail; [done|zlen_tac|done].
Qed.

Lemma decode_payload_no_panic t p :
  bytes p -> FileTransferMessage.decode_payload (TransferTag.code t) p <> Panic.
Proof.
  intros Hb. unfold FileTransferMessage.decode_payload. rewrite tag_from_code.
  cbn [ok_or mbind res_bind].
  pose proof take_string_field_no_panic. pose proof take_u64_no_panic.
  destruct t; try done.
  - apply bind_no_panic; [eauto|]. intros [d r1] Hd.
    apply take_string_field_inv in Hd as (_ & _ & Hb1 & _); [|done].
    apply bind_no_panic; [eauto|]. intros [f r2] _. apply bind_no_panic; [eauto|].
    intros [s r3] _. no_panic.
  - apply bind_no_panic; [eauto|]. intros [s r] _. no_panic.
  - apply bind_no_panic; [eauto|]. intros [f r1] _. apply bind_no_panic; [eauto|].
    intros [s r2] _. no_panic.
  - apply bind_no_panic; [eauto|]. intros [s r] _. no_panic.
  - no_panic.
Qed.

Lemma validate_payload_len_no_panic tag n : validate_payload_len tag n <> Panic.
Proof.
  apply bind_no_panic; [apply ok_or_no_panic|]. intros t' _. cbv zeta.
  by destruct (match t' with TransferTag.UploadOpen => _ | _ => _ end).
Qed.

Lemma bytes_frame_of m : message_valid m -> bytes (frame_of m).
Proof.
  intros Hv. unfold frame_of, encode_frame_header. apply Forall_app. split.
  - apply Forall_cons. split; [destruct m; unfold is_u8; simpl; lia|apply bytes_to_be].
  - destruct m; cbn in *; unfold path_ok, name_ok, path_ok in *; destruct_and?; bytes_tac.
Qed.

Lemma frame_codec_lemma :
  codec_correct frame_enc FileTransferMessage.decode_frame message_valid MAX_FRAME_LEN.
Proof.
  apply codec_intro.
  - intros m Hv. exists (frame_of m). rewrite frame_enc_eq by done.
    pose proof (validate_payload_len_valid m Hv) as Hval. pose proof (payload_len_u32 m Hv).
    split_and!; [done|by apply bytes_frame_of| |].
    + unfold frame_of, MAX_FRAME_LEN, FRAME_HEADER_LEN. rewrite zlen_app.
      change (zlen (encode_frame_header _ _)) with 5.
      unfold validate_payload_len, in_range, UPLOAD_OPEN_MAX_LEN, DOWNLOAD_OPEN_MAX_LEN,
        DOWNLOAD_OFFER_MAX_LEN, MAX_PATH_LEN, MAX_FILE_NAME_LEN, FINISH_LEN, DIGEST_LEN,
        MAX_DATA_LEN in *.
      apply res_bind_ok in Hval as (t & _ & Hval). destruct t; inv_ok; lia.
    + unfold frame_of. destruct (tag_of_code m) as [t Ht]. pose proof (decode_payload_eq m Hv) as Hd.
      rewrite Ht in *. rewrite decode_frame_eq by done. by rewrite Hval.
  - intros l m Hb H. destruct (decode_frame_cases l Hb) as [[e He]|(t & p & -> & Hp & Hbp)];
      [congruence|].
    rewrite decode_frame_eq in H by done. apply res_bind_ok in H as ([] & Hval & H).
    destruct (decode_payload_inv t p m Hbp Hval H) as (Hv & <- & Ht).
    split; [done|]. rewrite frame_enc_eq by done. unfold frame_of. by rewrite Ht.
  - intros l Hb. destruct (decode_frame_cases l Hb) as [[e ->]|(t & p & -> & Hp & Hbp)]; [done|].
    rewrite decode_frame_eq by done. apply bind_no_panic; [apply validate_payload_len_no_panic|].
    intros _ _. by apply decode_payload_no_panic.
Qed.

#[export] Instance frame_codec_ops : Codec FileTransferMessage.t := {|
  enc := frame_enc; dec := FileTransferMessage.decode_frame;
  valid := message_valid; max_len := MAX_FRAME_LEN |}.
#[export] Instance frame_codec_laws : CodecLaws FileTransferMessage.t :=
  codec_correct_laws frame_codec_lemma.

(** ** Properties *)

(** C22: The frames of the file-transfer protocol are a canonical bounded codec: encoding
    a message whose fields satisfy the protocol's rules never fails, decoding inverts
    it, every accepted frame is the encoding of such a message (so lengths, UTF-8,
    control characters, tag, error code and trailing bytes are all checked), and no
    frame makes the decoder panic. *)
Theorem transfer_frame_codec :
  codec_correct frame_enc FileTransferMessage.decode_frame message_valid MAX_FRAME_LEN.
Proof. exact frame_codec_lemma. Qed.

Lemma header_roundtrip t n :
  0 <= n < 2 ^ 32 ->
  decode_frame_header (encode_frame_header (TransferTag.code t) n) = Ok (TransferTag.code t, n).
Proof.
  intros Hn. pose proof (from_to_be 4 n Hn) as Hrt. pose proof (zlen_to_be 4 n) as Hl.
  unfold encode_frame_header, decode_frame_header.
  destruct (to_be_bytes 4 n) as [|b1 [|b2 [|b3 [|b4 [|? ?]]]]]; try (unfold zlen in Hl; simpl in Hl; lia).
  change (zlen _ =? _) with true. cbn [negb]. by rewrite tag_from_code, Hrt.
Qed.

(** What a receiver learns from the first five bytes of a frame, before it reads or
    allocates the payload: the header of every valid frame decodes to the message's tag
    and the exact length of the rest, that length passes the tag's bounds, and every
    frame but [Data] fits the control-frame buffer. *)
Theorem transfer_header_admits_frame m f :
  message_valid m -> frame_enc m = Ok f ->
  decode_frame_header (take 5 f) = Ok (FileTransferMessage.tag_of m, zlen f - FRAME_HEADER_LEN) /\
  validate_payload_len (FileTransferMessage.tag_of m) (zlen f - FRAME_HEADER_LEN) = Ok tt /\
  ((forall b, m <> FileTransferMessage.Data b) -> zlen f <= MAX_CONTROL_FRAME_LEN).
Proof.
  intros Hv Hf. rewrite frame_enc_eq in Hf by done. injection Hf as <-.
  pose proof (validate_payload_len_valid m Hv) as Hval. pose proof (payload_len_u32 m Hv) as Hu.
  destruct (tag_of_code m) as [t Ht].
  assert (Hlen : zlen (frame_of m) - FRAME_HEADER_LEN = zlen (payload_of m)).
  { unfold frame_of. rewrite zlen_app. change (zlen (encode_frame_header _ _)) with 5.
    unfold FRAME_HEADER_LEN. lia. }
  rewrite Hlen. split_and!; [|done|].
  - unfold frame_of. change 5%nat with (length (encode_frame_header (FileTransferMessage.tag_of m)
      (zlen (payload_of m)))). rewrite take_app_length, Ht. apply header_roundtrip.
    unfold zlen in *. lia.
  - intros Hd. unfold MAX_CONTROL_FRAME_LEN, MAX_CONTROL_PAYLOAD_LEN, FRAME_HEADER_LEN in *.
    clear Hlen Ht Hu. unfold validate_payload_len, in_range, UPLOAD_OPEN_MAX_LEN, DOWNLOAD_OPEN_MAX_LEN,
      DOWNLOAD_OFFER_MAX_LEN, MAX_PATH_LEN, MAX_FILE_NAME_LEN, FINISH_LEN, DIGEST_LEN in Hval.
    unfold frame_of. rewrite zlen_app. change (zlen (encode_frame_header _ _)) with 5.
    destruct m; cbn [FileTransferMessage.tag_of] in Hval; rewrite tag_from_code in Hval;
      try (by destruct (Hd bytes)); inv_ok; lia.
Qed.

(** ** Default file names and the paths they are joined to *)

(** [str::split] on one byte: never empty. *)
Fixpoint split_on (sep : Z) (s : list Z) : list (list Z) :=
  match s with
  | [] => [[]]
  | b :: rest =>
    if b =? sep then [] :: split_on sep rest
    else match split_on sep rest with
         | [] => [[b]]
         | first :: more => (b :: first) :: more
         end
  end.

(** The components [std::path::Path] sees after the root: separators collapse and ["."]
    disappears; [".."] is kept.  On Windows both slashes separate. *)
Definition components (windows : bool) (path : list Z) : list (list Z) :=
  let path := if windows then (fun b => if b =? 0x5C then 0x2F else b) <$> path else path in
  filter (fun c => c <> [] /\ c <> [0x2E]) (split_on 0x2F path).

Lemma split_on_ne sep s : split_on sep s <> [].
Proof. destruct s as [|b s]; simpl; [done|]. destruct (b =? sep); [done|]. by destruct (split_on sep s). Qed.

Lemma split_on_app sep s t :
  Forall (fun b => b <> sep) t -> split_on sep (s ++ sep :: t) = split_on sep s ++ [t].
Proof.
  intros Ht. assert (Hone : split_on sep t = [t]).
  { induction Ht as [|b t Hb _ IH]; [done|]. simpl. rewrite IH.
    destruct (Z.eqb_spec b sep); done. }
  induction s as [|b s IH]; simpl.
  - by rewrite Z.eqb_refl, Hone.
  - rewrite IH. destruct (b =? sep); [done|]. pose proof (split_on_ne sep s).
    by destruct (split_on sep s).
Qed.

Lemma existsb_false_forall {A} (p : A -> bool) l :
  existsb p l = false -> Forall (fun x => p x = false) l.
Proof. induction l as [|x l IH]; simpl; [done|]. intros [? ?]%orb_false_iff. eauto. Qed.

(** What an accepted name is. *)
Lemma default_file_name_facts windows name :
  validate_default_file_name windows name = Ok tt ->
  1 <= zlen name <= MAX_FILE_NAME_LEN /\ name <> [0x2E] /\ name <> [0x2E; 0x2E] /\
  Forall (fun b => b <> 0x2F /\ 0x1f < b /\ b <> 0x7f) name /\
  (windows = true -> Forall (fun b => b <> 0x5C) name /\ is_windows_reserved_name name = false).
Proof.
  unfold validate_default_file_name. intros H.
  destruct (zlen name =? 0) eqn:E0; [done|]. apply Z.eqb_neq in E0.
  case_bool_decide as E1; [done|]. case_bool_decide as E2; [done|]. cbn [orb] in H.
  destruct (MAX_FILE_NAME_LEN <? zlen name) eqn:E3; [done|]. apply Z.ltb_ge in E3.
  destruct (existsb (fun b => (b =? 0x00) || _ || _ || _) name) eqn:E4; [done|]. cbn [orb] in H.
  destruct (existsb _ (default [] _)); [done|].
  split_and!; [unfold zlen in *; lia|lia|done|done| |].
  - apply existsb_false_forall in E4. eapply Forall_impl; [exact E4|]. cbv beta. intros b Hb.
    repeat apply orb_false_iff in Hb as [Hb ?]. lia.
  - intros ->. cbn [andb] in H. destruct (existsb (fun b => b =? 0x5C) name) eqn:E5; [done|]. cbn [orb] in H.
    destruct (is_windows_reserved_name name); [done|]. split; [|done].
    apply existsb_false_forall in E5. eapply Forall_impl; [exact E5|]. cbv beta. lia.
Qed.

(** A file name the receiving side accepts stays inside the directory it is joined to:
    on both platforms the joined path has the directory's components followed by the
    name itself as one more, and the name is neither ["."] nor [".."]; on Windows it is
    moreover no reserved device name. *)
Theorem default_file_name_confined windows dir name :
  validate_default_file_name windows name = Ok tt ->
  components windows (dir ++ 0x2F :: name) = components windows dir ++ [name] /\
  name <> [0x2E] /\ name <> [0x2E; 0x2E] /\
  (windows = true -> is_windows_reserved_name name = false).
Proof.
  intros H. destruct (default_file_name_facts _ _ H) as (Hl & Hd & Hdd & Hf & Hw).
  assert (Hsl : Forall (fun b => b <> 0x2F) name) by (eapply Forall_impl; [exact Hf|]; naive_solver).
  split_and!; [|done..|naive_solver].
  assert (Hname : (if windows then (fun b => if b =? 0x5C then 0x2F else b) <$> name else name) = name).
  { destruct windows; [|done]. destruct (Hw eq_refl) as [Hb _]. clear -Hb.
    induction Hb as [|b l Hb _ IH]; [done|]. csimpl. rewrite IH. by destruct (Z.eqb_spec b 0x5C). }
  assert (Hne : name <> []) by (intros ->; unfold zlen in Hl; simpl in Hl; lia).
  unfold components. destruct windows; rewrite ?fmap_app, ?fmap_cons;
    [change (if 0x2F =? 0x5C then 0x2F else 0x2F) with 0x2F; rewrite Hname|];
    rewrite split_on_app by done; rewrite filter_app; f_equal; by rewrite filter_cons_True.
Qed.

Lemma default_file_name_confined_witness :
  components false ([0x2F; 0x61] ++ 0x2F :: [0x62; 0x2E; 0x63]) = [[0x61]; [0x62; 0x2E; 0x63]].
Proof.
  destruct (default_file_name_confined false [0x2F; 0x61] [0x62; 0x2E; 0x63]) as [H _];
    [vm_compute; reflexivity|]. rewrite H. reflexivity.
Defined.

Lemma transfer_header_admits_frame_witness :
  decode_frame_header (take 5 [0x05; 0; 0; 0; 2; 0x61; 0x62]) = Ok (0x05, 2).
Proof.
  destruct (transfer_header_admits_frame (FileTransferMessage.Data [0x61; 0x62])
    [0x05; 0; 0; 0; 2; 0x61; 0x62]) as [H _]; [|vm_compute; reflexivity|exact H].
  split; [|by vm_compute]. repeat constructor; unfold is_u8; lia.
Defined.

(** The comment on [validate_default_file_name] excludes drive prefixes; on Windows the
    name "C:x" passes. *)
Example windows_drive_prefix_accepted :
  validate_default_file_name true [0x43; 0x3A; 0x78] = Ok tt.
Proof. vm_compute. reflexivity. Qed.
