(* ===== verification/TransferSession.v ===== *)
(** * The file-transfer session state machine

    [WireSession] of [crates/yonder-core/src/wire/file_transfer.rs]: one side's
    view of one transfer.  [Link] composes a controller and a host session over two
    FIFO streams, delivering frames in order and closing a session whose peer sent
    an unexpected frame, as the callers of [WireSession] do. *)

From S2P Require Import Prelude Domain WireFileTransfer.
Open Scope Z_scope.

Inductive TransferSide := Controller | Host.
Inductive TransferDirection := Upload | Download.

Module WireState.
Inductive t :=
| AwaitingOpen | OpenSent | AwaitingOffer | AwaitingReady | Transferring
| AwaitingCommitted | Committed | Closed.
End WireState.

Inductive WireStateError := UnexpectedMessage | AlreadyClosed.

#[export] Instance TransferSide_eq_dec : EqDecision TransferSide.
Proof. solve_decision. Defined.
#[export] Instance TransferDirection_eq_dec : EqDecision TransferDirection.
Proof. solve_decision. Defined.
#[export] Instance WireState_eq_dec : EqDecision WireState.t.
Proof. solve_decision. Defined.

Module WireSession.
Import FileTransferMessage WireState.
Record t := Mk { direction : TransferDirection; side : TransferSide; state : WireState.t }.

Definition new (direction : TransferDirection) (side : TransferSide) : t :=
  Mk direction side AwaitingOpen.

Definition set_state (self : t) (next : WireState.t) : t := Mk (direction self) (side self) next.

(** The next state of [send]; [Err] leaves the session as it is. *)
Definition send_state (self : t) (message : FileTransferMessage.t)
  : res WireStateError WireState.t :=
  match direction self, side self, state self with
  | Upload, Controller, AwaitingOpen =>
    match message with UploadOpen _ _ _ => Ok OpenSent | _ => Err UnexpectedMessage end
  | Upload, Controller, OpenSent =>
    match message with
    | Ready => Ok Transferring
    | Cancel | Error _ => Ok Closed
    | _ => Err UnexpectedMessage
    end
  | Upload, Controller, Transferring =>
    match message with
    | Data _ => Ok Transferring
    | Finish _ _ => Ok AwaitingCommitted
    | Cancel | Error _ => Ok Closed
    | _ => Err UnexpectedMessage
    end
  | Upload, Controller, AwaitingCommitted => Err UnexpectedMessage
  | Upload, Host, AwaitingOpen => Err UnexpectedMessage
  | Upload, Host, OpenSent =>
    match message with Ready => Ok Transferring | _ => Err UnexpectedMessage end
  | Upload, Host, Transferring =>
    match message with Error _ => Ok Closed | _ => Err UnexpectedMessage end
  | Upload, Host, AwaitingCommitted =>
    match message with FileTransferMessage.Committed => Ok Committed | _ => Err UnexpectedMessage end
  | Download, Controller, AwaitingOpen =>
    match message with DownloadOpen _ => Ok AwaitingOffer | _ => Err UnexpectedMessage end
  | Download, Controller, AwaitingOffer =>
    match message with Cancel | Error _ => Ok Closed | _ => Err UnexpectedMessage end
  | Download, Controller, AwaitingReady =>
    match message with
    | Ready => Ok Transferring
    | Cancel | Error _ => Ok Closed
    | _ => Err UnexpectedMessage
    end
  | Download, Controller, Transferring =>
    match message with
    | Data _ => Ok Transferring
    | Finish _ _ => Ok AwaitingCommitted
    | Cancel | Error _ => Ok Closed
    | _ => Err UnexpectedMessage
    end
  | Download, Controller, AwaitingCommitted =>
    match message with FileTransferMessage.Committed => Ok Committed | _ => Err UnexpectedMessage end
  | Download, Host, AwaitingOpen => Err UnexpectedMessage
  | Download, Host, OpenSent =>
    match message with DownloadOffer _ _ => Ok AwaitingReady | _ => Err UnexpectedMessage end
  | Download, Host, AwaitingReady => Err UnexpectedMessage
  | Download, Host, Transferring =>
    match message with
    | Data _ => Ok Transferring
    | Finish _ _ => Ok AwaitingCommitted
    | Error _ => Ok Closed
    | _ => Err UnexpectedMessage
    end
  | Download, Host, AwaitingCommitted => Err UnexpectedMessage
  | _, _, _ => Err AlreadyClosed
  end.

Definition receive_state (self : t) (message : FileTransferMessage.t)
  : res WireStateError WireState.t :=
  match direction self, side self, state self with
  | Upload, Controller, AwaitingOpen => Err UnexpectedMessage
  | Upload, Controller, OpenSent =>
    match message with
    | Ready => Ok Transferring
    | Error _ => Ok Closed
    | _ => Err UnexpectedMessage
    end
  | Upload, Controller, Transferring => Err UnexpectedMessage
  | Upload, Controller, AwaitingCommitted =>
    match message with
    | FileTransferMessage.Committed => Ok Committed
    | Error _ => Ok Closed
    | _ => Err UnexpectedMessage
    end
  | Upload, Host, AwaitingOpen =>
    match message with UploadOpen _ _ _ => Ok OpenSent | _ => Err UnexpectedMessage end
  | Upload, Host, OpenSent =>
    match message with Cancel | Error _ => Ok Closed | _ => Err UnexpectedMessage end
  | Upload, Host, Transferring =>
    match message with
    | Data _ => Ok Transferring
    | Finish _ _ => Ok AwaitingCommitted
    | Cancel | Error _ => Ok Closed
    | _ => Err UnexpectedMessage
    end
  | Upload, Host, AwaitingCommitted => Err UnexpectedMessage
  | Download, Controller, AwaitingOpen => Err UnexpectedMessage
  | Download, Controller, AwaitingOffer =>
    match message with
    | DownloadOffer _ _ => Ok AwaitingReady
    | Error _ => Ok Closed
    | _ => Err UnexpectedMessage
    end
  | Download, Controller, AwaitingReady => Err UnexpectedMessage
  | Download, Controller, Transferring =>
    match message with
    | Data _ => Ok Transferring
    | Finish _ _ => Ok AwaitingCommitted
    | Error _ => Ok Closed
    | _ => Err UnexpectedMessage
    end
  | Download, Controller, AwaitingCommitted => Err UnexpectedMessage
  | Download, Host, AwaitingOpen =>
    match message with DownloadOpen _ => Ok OpenSent | _ => Err UnexpectedMessage end
  | Download, Host, OpenSent => Err UnexpectedMessage
  | Download, Host, AwaitingReady =>
    match message with
    | Ready => Ok Transferring
    | Cancel | Error _ => Ok Closed
    | _ => Err UnexpectedMessage
    end
  | Download, Host, Transferring => Err UnexpectedMessage
  | Download, Host, AwaitingCommitted =>
    match message with
    | FileTransferMessage.Committed => Ok Committed
    | Cancel | Error _ => Ok Closed
    | _ => Err UnexpectedMessage
    end
  | _, _, _ => Err AlreadyClosed
  end.

Definition send (self : t) (message : FileTransferMessage.t) : res WireStateError t :=
  set_state self <$> send_state self message.

Definition receive (self : t) (message : FileTransferMessage.t) : res WireStateError t :=
  set_state self <$> receive_state self message.

Definition close (self : t) : t := set_state self Closed.

Definition is_closed (self : t) : bool :=
  bool_decide (state self = Closed) || bool_decide (state self = Committed).

(** The stages of a direction and side. *)
Definition stage_ok (self : t) : bool :=
  match direction self, side self, state self with
  | Upload, _, (AwaitingOffer | AwaitingReady) => false
  | Download, Controller, OpenSent => false
  | Download, Host, AwaitingOffer => false
  | _, _, _ => true
  end.
End WireSession.

(** ** Two sessions over a link *)

Module Link.
Import FileTransferMessage WireState.

(** The side that streams the file's bytes, and the one that stores them. *)
Definition sender_side (d : TransferDirection) : TransferSide :=
  match d with Upload => Controller | Download => Host end.
Definition receiver_side (d : TransferDirection) : TransferSide :=
  match d with Upload => Host | Download => Controller end.

Record t := Mk {
  snd : WireState.t;
  rcv : WireState.t;
  fwd : list FileTransferMessage.t;
  bwd : list FileTransferMessage.t;
  (** ghost: blocks the sender's session accepted for sending, blocks the receiver's
      session accepted, and whether the receiver's session ever reached [Committed] *)
  sent : list (list Z);
  got : list (list Z);
  committed : bool;
}.

Definition init : t := Mk AwaitingOpen AwaitingOpen [] [] [] [] false.

Definition block (m : FileTransferMessage.t) : list (list Z) :=
  match m with Data b => [b] | _ => [] end.
Definition blocks (q : list FileTransferMessage.t) : list (list Z) := q ≫= block.

Definition is_committed (s : WireState.t) : bool := bool_decide (s = Committed).

(** A receiver never streams file bytes. *)
Definition receiver_may_send (m : FileTransferMessage.t) : bool :=
  match m with Data _ | Finish _ _ => false | _ => true end.

Inductive step (d : TransferDirection) : t -> t -> Prop :=
| sender_sends s r f b st gt c m s' :
    WireSession.send_state (WireSession.Mk d (sender_side d) s) m = Ok s' ->
    step d (Mk s r f b st gt c) (Mk s' r (f ++ [m]) b (st ++ block m) gt c)
| receiver_sends s r f b st gt c m r' :
    receiver_may_send m = true ->
    WireSession.send_state (WireSession.Mk d (receiver_side d) r) m = Ok r' ->
    step d (Mk s r f b st gt c) (Mk s r' f (b ++ [m]) st gt (c || is_committed r'))
| receiver_receives s r f b st gt c m r' :
    WireSession.receive_state (WireSession.Mk d (receiver_side d) r) m = Ok r' ->
    step d (Mk s r (m :: f) b st gt c) (Mk s r' f b st (gt ++ block m) (c || is_committed r'))
| sender_receives s r f b st gt c m s' :
    WireSession.receive_state (WireSession.Mk d (sender_side d) s) m = Ok s' ->
    step d (Mk s r f (m :: b) st gt c) (Mk s' r f b st gt c)
(** an unexpected frame closes the session that read it *)
| receiver_rejects s r f b st gt c m e :
    WireSession.receive_state (WireSession.Mk d (receiver_side d) r) m = Err e ->
    step d (Mk s r (m :: f) b st gt c) (Mk s Closed f b st gt c)
| sender_rejects s r f b st gt c m e :
    WireSession.receive_state (WireSession.Mk d (sender_side d) s) m = Err e ->
    step d (Mk s r f (m :: b) st gt c) (Mk Closed r f b st gt c)
(** [fail_local]: an [Error] frame is written from any stage and the session closed *)
| sender_fails s r f b st gt c code :
    step d (Mk s r f b st gt c) (Mk Closed r (f ++ [Error code]) b st gt c)
| receiver_fails s r f b st gt c code :
    step d (Mk s r f b st gt c) (Mk s Closed f (b ++ [Error code]) st gt c)
(** cancellation, timeout or a broken stream *)
| sender_closes s r f b st gt c : step d (Mk s r f b st gt c) (Mk Closed r f b st gt c)
| receiver_closes s r f b st gt c : step d (Mk s r f b st gt c) (Mk s Closed f b st gt c).

Definition reachable (d : TransferDirection) (l : t) : Prop := rtc (step d) init l.
End Link.

(** ** The link invariant *)

Section LinkInvariant.
Import FileTransferMessage WireState.
Context (d : TransferDirection).

(** The sender will stream no more. *)
Definition done_sending (s : WireState.t) : bool :=
  match s with AwaitingCommitted | Committed | Closed => true | _ => false end.

Definition is_finish (m : FileTransferMessage.t) : bool :=
  match m with Finish _ _ => true | _ => false end.

(** No block follows a [Finish] in the stream. *)
Fixpoint finish_last (q : list FileTransferMessage.t) : Prop :=
  match q with
  | [] => True
  | m :: q' => (is_finish m = true -> Link.blocks q' = []) /\ finish_last q'
  end.

Record link_inv (l : Link.t) : Prop := {
  li_stream : Link.rcv l <> Closed -> Link.got l ++ Link.blocks (Link.fwd l) = Link.sent l;
  li_waiting : Link.rcv l = AwaitingCommitted \/ Link.rcv l = Committed ->
    Link.blocks (Link.fwd l) = [] /\ done_sending (Link.snd l) = true;
  li_finish : existsb is_finish (Link.fwd l) = true -> done_sending (Link.snd l) = true;
  li_order : finish_last (Link.fwd l);
  li_commit : Link.committed l = true ->
    Link.got l = Link.sent l /\ done_sending (Link.snd l) = true /\
    (Link.rcv l = Committed \/ Link.rcv l = Closed);
  li_rcv : Link.rcv l = Committed -> Link.committed l = true;
  li_ack : Link.snd l = Committed \/ In FileTransferMessage.Committed (Link.bwd l) ->
    Link.committed l = true;
}.

#[local] Arguments Link.blocks : simpl never.

Lemma blocks_app q1 q2 : Link.blocks (q1 ++ q2) = Link.blocks q1 ++ Link.blocks q2.
Proof. apply bind_app. Qed.

Lemma blocks_snoc q m : Link.blocks (q ++ [m]) = Link.blocks q ++ Link.block m.
Proof. rewrite blocks_app. unfold Link.blocks at 2. simpl. by rewrite app_nil_r. Qed.

Lemma finish_last_snoc q m :
  finish_last q -> (Link.block m <> [] -> existsb is_finish q = false) -> finish_last (q ++ [m]).
Proof.
  induction q as [|x q IH]; simpl; [done|]. intros [Hx Hq] Hm. split.
  - intros Hf. rewrite blocks_snoc, Hx by done. destruct (Link.block m) eqn:E; [done|].
    rewrite Hf in Hm. simpl in Hm. specialize (Hm ltac:(done)). done.
  - apply IH; [done|]. intros Hb. specialize (Hm Hb). by destruct (is_finish x).
Qed.

(** What a sender's session allows. *)
Lemma sender_send_facts s m s' :
  WireSession.send_state (WireSession.Mk d (Link.sender_side d) s) m = Ok s' ->
  (done_sending s = true -> Link.block m = [] /\ done_sending s' = true) /\
  (is_finish m = true -> done_sending s' = true) /\ s' <> Committed /\
  (done_sending s = true -> is_finish m = false).
Proof. destruct d, s, m; simpl; intros [= <-]; naive_solver. Qed.

Lemma sender_receive_facts s m s' :
  WireSession.receive_state (WireSession.Mk d (Link.sender_side d) s) m = Ok s' ->
  (done_sending s = true -> done_sending s' = true) /\
  (s' = Committed -> m = FileTransferMessage.Committed).
Proof. destruct d, s, m; simpl; intros [= <-]; naive_solver. Qed.

(** What a receiver's session allows. *)
Lemma receiver_send_facts r m r' :
  Link.receiver_may_send m = true ->
  WireSession.send_state (WireSession.Mk d (Link.receiver_side d) r) m = Ok r' ->
  r <> Closed /\ r' <> AwaitingCommitted /\ (r' = Committed -> r = AwaitingCommitted) /\
  (m = FileTransferMessage.Committed -> r' = Committed).
Proof. destruct d, r, m; simpl; intros Hm [= <-]; naive_solver. Qed.

Lemma receiver_receive_facts r m r' :
  WireSession.receive_state (WireSession.Mk d (Link.receiver_side d) r) m = Ok r' ->
  r <> Closed /\ r' <> Committed /\ r <> AwaitingCommitted /\
  (r' = AwaitingCommitted -> is_finish m = true).
Proof. destruct d, r, m; simpl; intros [= <-]; naive_solver. Qed.

Lemma link_inv_init : link_inv Link.init.
Proof. split; simpl; naive_solver. Qed.

(** The invariant's fields of the state at hand, and of the state before the step. *)
Ltac link_fields Hinv :=
  destruct Hinv as [Hstream Hwait Hfin Hord Hcom Hrcv Hack]; cbn in *; split; cbn.

Lemma inv_sender_sends s r f b st gt c m s' :
  WireSession.send_state (WireSession.Mk d (Link.sender_side d) s) m = Ok s' ->
  link_inv (Link.Mk s r f b st gt c) ->
  link_inv (Link.Mk s' r (f ++ [m]) b (st ++ Link.block m) gt c).
Proof.
  intros H Hinv. destruct (sender_send_facts _ _ _ H) as (Hdone & Hf & Hc & Hnf).
  link_fields Hinv.
  - intros Hr. rewrite blocks_snoc, app_assoc. f_equal. by apply Hstream.
  - intros Hr. destruct (Hwait Hr) as [Hb Hd]. destruct (Hdone Hd) as [Hm Hd'].
    by rewrite blocks_snoc, Hb, Hm.
  - rewrite existsb_app. simpl. rewrite orb_false_r. intros [Hx|Hx]%orb_true_iff; [|by apply Hf].
    by apply Hdone, Hfin.
  - apply finish_last_snoc; [done|]. intros Hb. destruct (existsb is_finish f); [|done].
    destruct (Hdone (Hfin eq_refl)) as [Hm _]. done.
  - intros Hcc. destruct (Hcom Hcc) as (Hg & Hd & Hr). destruct (Hdone Hd) as [Hm Hd'].
    by rewrite Hm, app_nil_r.
  - done.
  - intros [?|Hin]; [done|]. apply Hack. by right.
Qed.

Lemma inv_receiver_sends s r f b st gt c m r' :
  Link.receiver_may_send m = true ->
  WireSession.send_state (WireSession.Mk d (Link.receiver_side d) r) m = Ok r' ->
  link_inv (Link.Mk s r f b st gt c) ->
  link_inv (Link.Mk s r' f (b ++ [m]) st gt (c || Link.is_committed r')).
Proof.
  intros Hmay H Hinv. destruct (receiver_send_facts _ _ _ Hmay H) as (Hr & Hr' & Hc & Hm).
  assert (Hopen : c = false).
  { destruct Hinv as [_ _ _ _ Hcom _ _]. destruct c; [|done]. cbn in *.
    destruct (Hcom eq_refl) as (_ & _ & [-> | ->]); [|done]. by destruct d. }
  subst c. link_fields Hinv.
  - intros _. by apply Hstream.
  - intros [?|?]; [done|]. apply Hwait. left. by apply Hc.
  - done.
  - done.
  - intros Hcc%bool_decide_eq_true. destruct (Hwait (or_introl (Hc Hcc))) as [Hb Hd].
    rewrite Hb, app_nil_r in Hstream. split_and!; [by apply Hstream|done|by left].
  - by intros ->.
  - intros [Hs|[Hin|[Hin|[]]]%in_app_iff].
    + by discriminate Hack; left.
    + by discriminate Hack; right.
    + by rewrite (Hm Hin).
Qed.

Lemma inv_receiver_receives s r f b st gt c m r' :
  WireSession.receive_state (WireSession.Mk d (Link.receiver_side d) r) m = Ok r' ->
  link_inv (Link.Mk s r (m :: f) b st gt c) ->
  link_inv (Link.Mk s r' f b st (gt ++ Link.block m) (c || Link.is_committed r')).
Proof.
  intros H Hinv. destruct (receiver_receive_facts _ _ _ H) as (Hr & Hr' & Hw & Hm).
  assert (Hopen : c = false).
  { destruct Hinv as [_ _ _ _ Hcom _ _]. destruct c; [|done]. cbn in *.
    destruct (Hcom eq_refl) as (_ & _ & [-> | ->]); [|done]. by destruct d. }
  assert (Hnc : Link.is_committed r' = false) by (by apply bool_decide_eq_false).
  subst c. rewrite Hnc. link_fields Hinv.
  - intros _. rewrite <- app_assoc. by apply Hstream.
  - intros [Hx|Hx]; [|done]. specialize (Hm Hx). split; [by apply Hord|].
    apply Hfin. by rewrite Hm.
  - intros Hx. apply Hfin. rewrite Hx. apply orb_true_r.
  - apply Hord.
  - done.
  - done.
  - done.
Qed.

Lemma inv_sender_receives s r f b st gt c m s' :
  WireSession.receive_state (WireSession.Mk d (Link.sender_side d) s) m = Ok s' ->
  link_inv (Link.Mk s r f (m :: b) st gt c) ->
  link_inv (Link.Mk s' r f b st gt c).
Proof.
  intros H Hinv. destruct (sender_receive_facts _ _ _ H) as (Hd & Hm).
  link_fields Hinv; try done.
  - intros Hr. split; [by apply Hwait|]. by apply Hd, Hwait.
  - intros Hx. by apply Hd, Hfin.
  - intros Hc. split_and!; [by apply Hcom| |by apply Hcom]. by apply Hd, Hcom.
  - intros [Hs|Hin]; apply Hack; right; [left; by apply Hm|by right].
Qed.

(** A tail of [Error] frames changes neither the blocks nor the end of the stream. *)
Definition errors (q : list FileTransferMessage.t) : Prop := Forall (fun m => exists e, m = Error e) q.

Lemma errors_tail q q' : errors q' ->
  Link.blocks (q ++ q') = Link.blocks q /\
  existsb is_finish (q ++ q') = existsb is_finish q /\ (finish_last q -> finish_last (q ++ q')).
Proof.
  intros H. assert (He : Link.blocks q' = [] /\ existsb is_finish q' = false /\ finish_last q').
  { induction H as [|? ? [e ->] _ (IH1 & IH2 & IH3)]; cbn; [done|]. done. }
  destruct He as (Hb & Hf & Hl). split_and!.
  - by rewrite blocks_app, Hb, app_nil_r.
  - by rewrite existsb_app, Hf, orb_false_r.
  - induction q as [|x q IH]; cbn; [done|]. intros [Hx Hq]. split; [|by apply IH].
    intros ?. by rewrite blocks_app, Hx, Hb.
Qed.

(** Closing either end, with or without a last [Error] frame or a dropped input. *)
Lemma inv_sender_closed s r f f' b b' st gt c :
  errors f' -> (exists q, b = q ++ b') ->
  link_inv (Link.Mk s r f b st gt c) -> link_inv (Link.Mk Closed r (f ++ f') b' st gt c).
Proof.
  intros Hf' [q ->] Hinv. destruct (errors_tail f f' Hf') as (Hb & Hx & Hl).
  link_fields Hinv; rewrite ?Hb, ?Hx.
  - done.
  - intros Hr. split; [by apply Hwait|done].
  - done.
  - by apply Hl.
  - intros Hc. split_and!; [by apply Hcom|done|by apply Hcom].
  - done.
  - intros [?|Hin]; [done|]. apply Hack. right. apply in_app_iff. by right.
Qed.

Lemma inv_receiver_closed s r f f' b b' st gt c :
  errors b' -> (exists q, f = q ++ f') ->
  link_inv (Link.Mk s r f b st gt c) -> link_inv (Link.Mk s Closed f' (b ++ b') st gt c).
Proof.
  intros Hb' [q ->] Hinv. link_fields Hinv.
  - done.
  - by intros [?|?].
  - intros Hx. apply Hfin. rewrite existsb_app, Hx. apply orb_true_r.
  - clear -Hord. induction q as [|x q IH]; cbn in *; [done|]. by apply IH, Hord.
  - intros Hc. split_and!; [by apply Hcom|by apply Hcom|by right].
  - done.
  - intros [Hs|[Hin|Hin]%in_app_iff]; [by apply Hack; left|by apply Hack; right|].
    unfold errors in Hb'. rewrite List.Forall_forall in Hb'. destruct (Hb' _ Hin) as [e He]. done.
Qed.

Lemma link_inv_step l l' : Link.step d l l' -> link_inv l -> link_inv l'.
Proof.
  intros Hstep Hinv. destruct Hstep.
  - by eapply inv_sender_sends.
  - by eapply inv_receiver_sends.
  - by eapply inv_receiver_receives.
  - by eapply inv_sender_receives.
  - rewrite <- (app_nil_r b). eapply inv_receiver_closed; [constructor| |done]. by exists [m].
  - rewrite <- (app_nil_r f). eapply inv_sender_closed; [constructor| |done]. by exists [m].
  - eapply inv_sender_closed; [|by exists []|done]. repeat constructor. by eexists.
  - eapply inv_receiver_closed; [|by exists []|done]. repeat constructor. by eexists.
  - rewrite <- (app_nil_r f). eapply inv_sender_closed; [constructor|by exists []|done].
  - rewrite <- (app_nil_r b). eapply inv_receiver_closed; [constructor|by exists []|done].
Qed.

Lemma link_reachable_inv l : Link.reachable d l -> link_inv l.
Proof.
  unfold Link.reachable. revert l. apply rtc_ind_r; [apply link_inv_init|].
  intros y z _ Hs Hy. by eapply link_inv_step.
Qed.
End LinkInvariant.

(** ** Completion *)

Section Completion.
Import FileTransferMessage WireState.

(** Streaming [q] block by block from a state where both ends are [Transferring]. *)
Lemma stream_blocks d q st :
  rtc (Link.step d) (Link.Mk Transferring Transferring [] [] st st false)
    (Link.Mk Transferring Transferring [] [] (st ++ q) (st ++ q) false).
Proof.
  revert st. induction q as [|x q IH]; intros st; [by rewrite app_nil_r|].
  eapply rtc_l; [apply (Link.sender_sends d) with (m := Data x) (s' := Transferring); by destruct d|].
  eapply rtc_l; [apply Link.receiver_receives with (m := Data x) (r' := Transferring); by destruct d|].
  cbn. specialize (IH (st ++ [x])). rewrite <- app_assoc in IH. exact IH.
Qed.

(** The hand-shake that precedes the stream. *)
Lemma handshake d (path name : list Z) (size : Z) :
  rtc (Link.step d) Link.init (Link.Mk Transferring Transferring [] [] [] [] false).
Proof.
  destruct d.
  - eapply rtc_l; [apply (Link.sender_sends Upload) with (m := UploadOpen path name size); reflexivity|].
    eapply rtc_l; [apply Link.receiver_receives; reflexivity|].
    eapply rtc_l; [apply Link.receiver_sends with (m := Ready); reflexivity|].
    eapply rtc_l; [apply Link.sender_receives; reflexivity|]. apply rtc_refl.
  - eapply rtc_l; [apply (Link.receiver_sends Download) with (m := DownloadOpen path); reflexivity|].
    eapply rtc_l; [apply Link.sender_receives; reflexivity|].
    eapply rtc_l; [apply (Link.sender_sends Download) with (m := DownloadOffer name size); reflexivity|].
    eapply rtc_l; [apply Link.receiver_receives; reflexivity|].
    eapply rtc_l; [apply Link.receiver_sends with (m := Ready); reflexivity|].
    eapply rtc_l; [apply Link.sender_receives; reflexivity|]. apply rtc_refl.
Qed.

Lemma finishing d (q : list (list Z)) (size : Z) (digest : list Z) :
  rtc (Link.step d) (Link.Mk Transferring Transferring [] [] q q false)
    (Link.Mk Committed Committed [] [] q q true).
Proof.
  eapply rtc_l; [apply (Link.sender_sends d) with (m := Finish size digest) (s' := AwaitingCommitted);
    by destruct d|].
  eapply rtc_l; [apply Link.receiver_receives with (r' := AwaitingCommitted); by destruct d|].
  eapply rtc_l; [apply Link.receiver_sends with (m := FileTransferMessage.Committed) (r' := Committed);
    by destruct d|].
  eapply rtc_l; [apply Link.sender_receives with (s' := Committed); by destruct d|].
  cbn. rewrite !app_nil_r. apply rtc_refl.
Qed.
End Completion.

(** ** Properties *)

(** C21: Whatever the order in which the two sides send, receive, fail, reject or close,
    and in both directions, the sender's session ends in [Committed] only when the
    receiver's session committed; and once it committed, the receiver accepted exactly
    the blocks the sender sent, in order, the sender streams no more, and the receiver's
    session is over. *)
Theorem transfer_commit_agreement d l :
  Link.reachable d l ->
  (Link.snd l = WireState.Committed -> Link.committed l = true) /\
  (Link.committed l = true ->
     Link.got l = Link.sent l /\ done_sending (Link.snd l) = true /\
     (Link.rcv l = WireState.Committed \/ Link.rcv l = WireState.Closed)).
Proof.
  intros H. apply link_reachable_inv in H. destruct H as [_ _ _ _ Hcom _ Hack]. split; auto.
Qed.

(** C38: From two new sessions of either direction, and for every list of blocks, the
    protocol can run to the state where both sessions are [Committed], both streams are
    drained, and the receiver accepted exactly those blocks. *)
Theorem transfer_completes d (q : list (list Z)) :
  Link.reachable d (Link.Mk WireState.Committed WireState.Committed [] [] q q true).
Proof.
  unfold Link.reachable. etrans; [apply (handshake d [97] [98] 1)|].
  etrans; [apply (stream_blocks d q [])|]. apply (finishing d q 1 (zeros 32)).
Qed.

Lemma transfer_commit_agreement_witness :
  let l := Link.Mk WireState.Committed WireState.Committed [] [] [[1; 2]; [3]] [[1; 2]; [3]] true in
  Link.got l = Link.sent l.
Proof.
  intros l. apply (transfer_commit_agreement Upload l); [|reflexivity].
  unfold Link.reachable. etrans; [apply (handshake Upload [97] [98] 1)|].
  etrans; [apply (stream_blocks Upload [[1; 2]; [3]] [])|].
  apply (finishing Upload [[1; 2]; [3]] 1 (zeros 32)).
Defined.

(** The stages in which [receive] accepts a peer's [Error], and a peer's [Cancel], as
    the code decides them.  Both lists miss open stages: the comment on [receive] says
    that [Cancel] and [Error] close the session from any open stage. *)
Theorem receive_error_stages s code :
  (WireSession.receive s (FileTransferMessage.Error code) = Ok (WireSession.close s) <->
   In (WireSession.direction s, WireSession.side s, WireSession.state s)
     [(Upload, Controller, WireState.OpenSent); (Upload, Controller, WireState.AwaitingCommitted);
      (Upload, Host, WireState.OpenSent); (Upload, Host, WireState.Transferring);
      (Download, Controller, WireState.AwaitingOffer); (Download, Controller, WireState.Transferring);
      (Download, Host, WireState.AwaitingReady); (Download, Host, WireState.AwaitingCommitted)]) /\
  (WireSession.receive s FileTransferMessage.Cancel = Ok (WireSession.close s) <->
   In (WireSession.direction s, WireSession.side s, WireSession.state s)
     [(Upload, Host, WireState.OpenSent); (Upload, Host, WireState.Transferring);
      (Download, Host, WireState.AwaitingReady); (Download, Host, WireState.AwaitingCommitted)]).
Proof.
  destruct s as [[] [] []]; unfold WireSession.receive, WireSession.close; cbn;
    split; (split; [intros H; (discriminate H || tauto)|intros H; intuition congruence]).
Qed.

(** The stages a session can be in are the ones of its own direction and side (an
    upload never waits for an offer, a downloading controller never is in [OpenSent]):
    a new session starts in one, and [send], [receive] and [close] stay in them.  In
    those stages both calls report [AlreadyClosed] exactly when the session is in
    [Committed] or [Closed]: every other rejection is [UnexpectedMessage]. *)
Theorem transfer_stages s m :
  (forall d sd, WireSession.stage_ok (WireSession.new d sd) = true) /\
  (WireSession.stage_ok s = true ->
   WireSession.stage_ok (WireSession.close s) = true /\
   (forall s', WireSession.send s m = Ok s' -> WireSession.stage_ok s' = true) /\
   (forall s', WireSession.receive s m = Ok s' -> WireSession.stage_ok s' = true) /\
   (WireSession.is_closed s = true <->
    WireSession.send s m = Err AlreadyClosed /\ WireSession.receive s m = Err AlreadyClosed)).
Proof.
  split; [by intros [] []|].
  destruct s as [[] [] []], m; intros H; try discriminate H; split_and!;
    try (by intros ? [= <-]); try done;
    unfold WireSession.is_closed, WireSession.send, WireSession.receive; cbn; split; try done;
    intros [? ?]; done.
Qed.

Lemma transfer_stages_witness :
  WireSession.stage_ok (WireSession.close (WireSession.new Upload Host)) = true.
Proof.
  exact (proj1 (proj2 (transfer_stages (WireSession.new Upload Host) FileTransferMessage.Ready)
    eq_refl)).
Defined.

(** The comment on [send] says that it enforces the direction table; a downloading
    controller, which only receives file bytes, may send [Data] and [Finish], and an
    uploading controller may send the receiver's [Ready]. *)
Example send_accepts_receiver_and_sender_frames :
  WireSession.send (WireSession.Mk Download Controller WireState.Transferring)
    (FileTransferMessage.Data [1]) =
    Ok (WireSession.Mk Download Controller WireState.Transferring) /\
  WireSession.send (WireSession.Mk Upload Controller WireState.OpenSent) FileTransferMessage.Ready =
    Ok (WireSession.Mk Upload Controller WireState.Transferring).
Proof. split; reflexivity. Qed.
