(* ===== verification/Session.v ===== *)
(** * The target's session and the connection roster

    [TargetSession] of [crates/yonder-core/src/session.rs], the state machine that makes
    a connection code single-use, and [ConnectionRoster] of
    [crates/yonder-core/src/roster.rs], the bounded set of physical connections of one
    peer, refined to a list without duplicates. *)

From S2P Require Import Prelude.
Open Scope Z_scope.

Module TargetSessionState.
Inductive t := Advertised | Authenticating | AwaitingTerminal | StartingTerminal | Active | Spent.
End TargetSessionState.

Module SessionEvent.
Inductive t :=
| BeginAuthentication | AuthenticationSucceeded | AuthenticationFailed
| TerminalStreamsReady | TerminalStartFailed | TerminalReadyFlushed
| ConnectionLost | ExtraConnection | ShellExited.
End SessionEvent.

#[export] Instance TargetSessionState_eq_dec : EqDecision TargetSessionState.t.
Proof. solve_decision. Defined.
#[export] Instance SessionEvent_eq_dec : EqDecision SessionEvent.t.
Proof. solve_decision. Defined.

Record TransitionError := Rejected {
  rejected_state : TargetSessionState.t;
  rejected_event : SessionEvent.t;
}.

Module TargetSession.
Import TargetSessionState SessionEvent.
Record t := Mk { state : TargetSessionState.t }.

Definition new : t := Mk Advertised.

Definition is_consumed (self : t) : bool :=
  match state self with Active | Spent => true | _ => false end.

(** The result of [apply] and the session after it. *)
Definition apply (self : t) (event : SessionEvent.t)
  : res TransitionError TargetSessionState.t * t :=
  let accept next := (Ok next, Mk next) in
  match state self, event with
  | Advertised, BeginAuthentication => accept Authenticating
  | Authenticating, AuthenticationSucceeded => accept AwaitingTerminal
  | Authenticating, (AuthenticationFailed | ConnectionLost | ExtraConnection) => accept Advertised
  | AwaitingTerminal, TerminalStreamsReady => accept StartingTerminal
  | (AwaitingTerminal | StartingTerminal), (TerminalStartFailed | ConnectionLost | ExtraConnection) =>
    accept Advertised
  | StartingTerminal, TerminalReadyFlushed => accept Active
  | Active, (ShellExited | ConnectionLost | ExtraConnection) => accept Spent
  | Spent, (ShellExited | ConnectionLost) => accept Spent
  | state, event => (Err (Rejected state event), self)
  end.

(** The owner feeds external events one by one; a rejected event changes nothing. *)
Definition run (events : list SessionEvent.t) : t :=
  foldl (fun self event => snd (apply self event)) new events.

(** The events that were accepted, in order. *)
Fixpoint accepted_from (self : t) (events : list SessionEvent.t) : list SessionEvent.t :=
  match events with
  | [] => []
  | event :: rest =>
    let '(result, next) := apply self event in
    (if is_ok result then [event] else []) ++ accepted_from next rest
  end.
End TargetSession.

Section TargetSessionFacts.
Import TargetSessionState SessionEvent TargetSession.

Lemma run_snoc events event : run (events ++ [event]) = (apply (run events) event).2.
Proof. unfold run. by rewrite foldl_app. Qed.

Lemma accepted_snoc s events event :
  accepted_from s (events ++ [event]) =
  accepted_from s events ++
    (if is_ok (apply (foldl (fun s e => (apply s e).2) s events) event).1 then [event] else []).
Proof.
  revert s. induction events as [|x events IH]; intros s; cbn [app foldl].
  - cbn [accepted_from]. destruct (apply s event) as [r s']. by rewrite app_nil_r.
  - cbn [accepted_from]. destruct (apply s x) as [r s'] eqn:E. rewrite IH, app_assoc. done.
Qed.

(** The path from [Advertised] that each unconsumed state has just walked. *)
Definition recent_path (s : TargetSessionState.t) : list SessionEvent.t :=
  match s with
  | Advertised | Spent => []
  | Authenticating => [BeginAuthentication]
  | AwaitingTerminal => [BeginAuthentication; AuthenticationSucceeded]
  | StartingTerminal => [BeginAuthentication; AuthenticationSucceeded; TerminalStreamsReady]
  | Active => [BeginAuthentication; AuthenticationSucceeded; TerminalStreamsReady; TerminalReadyFlushed]
  end.

(** An accepted event extends the path or restarts it; a rejected one changes nothing. *)
Lemma path_step s e :
  if is_ok (apply s e).1
  then recent_path (state (apply s e).2) = [] \/
       recent_path (state (apply s e).2) = recent_path (state s) ++ [e]
  else (apply s e).2 = s.
Proof. destruct s as [[]], e; cbn; auto. Qed.

(** The accepted events end with the path of the current state. *)
Lemma accepted_ends_with_path events :
  exists before, accepted_from new events = before ++ recent_path (state (run events)).
Proof.
  induction events as [|e events [before IH]] using rev_ind; [by exists []|].
  rewrite accepted_snoc, run_snoc. fold (run events). rewrite IH.
  pose proof (path_step (run events) e) as Hp. destruct (is_ok _).
  - destruct Hp as [-> | ->]; [|exists before; by rewrite <- app_assoc].
    eexists. by rewrite app_nil_r.
  - rewrite Hp, app_nil_r. by exists before.
Qed.

Lemma consumed_step s e : is_consumed s = true -> is_consumed (apply s e).2 = true.
Proof. destruct s as [[]], e; done. Qed.

Definition is_flush (e : SessionEvent.t) : bool := bool_decide (e = TerminalReadyFlushed).

Lemma flush_count events :
  length (List.filter is_flush (accepted_from new events)) =
  if is_consumed (run events) then 1%nat else 0%nat.
Proof.
  induction events as [|e events IH] using rev_ind; [done|].
  rewrite accepted_snoc, run_snoc, List.filter_app, length_app, IH. fold (run events).
  by destruct (run events) as [[]], e.
Qed.
End TargetSessionFacts.

(** A target session is one-shot.  Over every sequence of external events from a new
    session: it is consumed exactly when one [TerminalReadyFlushed] was accepted, and
    never a second one; once consumed it stays consumed; and the events accepted up to
    the moment it is [Active] end with begin, authenticated, streams ready, ready
    flushed, so that no code is consumed without that path. *)
Theorem target_session_one_shot events more :
  length (List.filter is_flush (TargetSession.accepted_from TargetSession.new events)) =
    (if TargetSession.is_consumed (TargetSession.run events) then 1%nat else 0%nat) /\
  (TargetSession.is_consumed (TargetSession.run events) = true ->
   TargetSession.is_consumed (TargetSession.run (events ++ more)) = true) /\
  (TargetSession.state (TargetSession.run events) = TargetSessionState.Active ->
   exists before, TargetSession.accepted_from TargetSession.new events =
     before ++ [SessionEvent.BeginAuthentication; SessionEvent.AuthenticationSucceeded;
                SessionEvent.TerminalStreamsReady; SessionEvent.TerminalReadyFlushed]).
Proof.
  split_and!; [apply flush_count| |].
  - intros H. induction more as [|e more IH] using rev_ind; [by rewrite app_nil_r|].
    rewrite app_assoc, run_snoc. by apply consumed_step.
  - intros H. destruct (accepted_ends_with_path events) as [before Hb]. rewrite H in Hb.
    by exists before.
Qed.

Lemma target_session_one_shot_witness :
  TargetSession.is_consumed (TargetSession.run
    ([SessionEvent.BeginAuthentication; SessionEvent.AuthenticationSucceeded;
      SessionEvent.TerminalStreamsReady; SessionEvent.TerminalReadyFlushed] ++
     [SessionEvent.BeginAuthentication])) = true.
Proof. apply target_session_one_shot. reflexivity. Defined.

(** ** roster.rs *)

Inductive RosterError := Full.

Module ConnectionRoster.
Section Ops.
Context {T : Type} `{EqDecision T}.

Record t := Mk { entries : list (option T); len : Z }.

Definition new (capacity : Z) : t := Mk (replicate (Z.to_nat capacity) None) 0.

Definition contains (self : t) (connection : T) : bool :=
  existsb (fun entry => bool_decide (entry = Some connection)) (entries self).

(** [iter_mut().find(p)] and an assignment through the slot found. *)
Fixpoint replace_first (p : option T -> bool) (v : option T) (l : list (option T))
  : option (list (option T)) :=
  match l with
  | [] => None
  | x :: rest => if p x then Some (v :: rest) else (x ::.) <$> replace_first p v rest
  end.

Definition insert (self : t) (connection : T) : res RosterError bool * t :=
  if contains self connection then (Ok false, self)
  else
    match replace_first (fun entry => bool_decide (entry = None)) (Some connection) (entries self) with
    | None => (Err Full, self)
    | Some entries' => (Ok true, Mk entries' (len self + 1))
    end.

(** [self.len -= 1] panics below zero. *)
Definition remove (self : t) (connection : T) : res RosterError bool * t :=
  match replace_first (fun entry => bool_decide (entry = Some connection)) None (entries self) with
  | None => (Ok false, self)
  | Some entries' =>
    if len self =? 0 then (Panic, Mk entries' (len self)) else (Ok true, Mk entries' (len self - 1))
  end.

Definition is_empty (self : t) : bool := len self =? 0.

Definition iter (self : t) : list T := omap id (entries self).

Definition unique (self : t) : option T :=
  if negb (len self =? 1) then None else head (iter self).

(** Well-formed for a capacity: as many slots, [len] live entries, no duplicate. *)
Definition wf (capacity : Z) (self : t) : Prop :=
  zlen (entries self) = capacity /\ len self = zlen (iter self) /\ NoDup (iter self).
End Ops.
Arguments t : clear implicits.
End ConnectionRoster.

Section RosterFacts.
Import ConnectionRoster.
Context {T : Type} `{EqDecision T}.
Implicit Types (l : list (option T)) (c : T).

Lemma contains_iter self c : contains self c = true <-> c ∈ iter self.
Proof.
  unfold contains, iter. rewrite existsb_exists, list_elem_of_omap. split.
  - intros (x & Hin & ->%bool_decide_eq_true). exists (Some c). by rewrite list_elem_of_In.
  - intros (x & Hin & Hx). exists x. rewrite <- list_elem_of_In. simpl in Hx. subst. split; [done|].
    by apply bool_decide_eq_true.
Qed.

(** Filling an empty slot adds the connection; emptying its slot removes it. *)
Lemma replace_fill l c l' :
  replace_first (fun e => bool_decide (e = None)) (Some c) l = Some l' ->
  zlen l' = zlen l /\ omap id l' ≡ₚ c :: omap id l.
Proof.
  revert l'. induction l as [|x l IH]; intros l'; simpl; [done|]. case_bool_decide as Hx.
  - intros [= <-]. subst x. split; [zlen_tac|done].
  - destruct (replace_first _ _ l) as [r|] eqn:E; [|done]. intros [= <-].
    destruct (IH r eq_refl) as [Hl Hp]. split; [zlen_tac|]. destruct x as [y|]; [|done].
    csimpl. rewrite Hp. apply Permutation_swap.
Qed.

Lemma replace_fill_none l c :
  replace_first (fun e => bool_decide (e = None)) (Some c) l = None -> zlen (omap id l) = zlen l.
Proof.
  induction l as [|x l IH]; simpl; [done|]. case_bool_decide as Hx; [done|].
  destruct (replace_first _ _ l); [done|]. intros _. destruct x; [|done]. csimpl.
  rewrite !zlen_cons. f_equal. by apply IH.
Qed.

Lemma replace_empty l c l' :
  replace_first (fun e => bool_decide (e = Some c)) None l = Some l' ->
  zlen l' = zlen l /\ omap id l ≡ₚ c :: omap id l'.
Proof.
  revert l'. induction l as [|x l IH]; intros l'; simpl; [done|]. case_bool_decide as Hx.
  - intros [= <-]. subst x. split; [zlen_tac|done].
  - destruct (replace_first _ _ l) as [r|] eqn:E; [|done]. intros [= <-].
    destruct (IH r eq_refl) as [Hl Hp]. split; [zlen_tac|]. destruct x as [y|]; [|done].
    csimpl. rewrite Hp. apply Permutation_swap.
Qed.

Lemma replace_empty_none l c :
  replace_first (fun e => bool_decide (e = Some c)) None l = None <-> c ∉ omap id l.
Proof.
  induction l as [|x l IH]; simpl; [split; [intros _; apply not_elem_of_nil|done]|].
  case_bool_decide as Hx.
  - subst x. simpl. split; [done|]. intros []. left.
  - destruct (replace_first _ _ l) as [r|].
    + split; [done|]. intros Hn. assert (c ∈ omap id l) as Hin.
      { destruct (decide (c ∈ omap id l)); [done|]. by apply IH in n. }
      destruct Hn. destruct x; [by right|done].
    + destruct IH as [IH _]. split; [|done]. intros _. destruct x as [y|]; simpl; [|by apply IH].
      rewrite elem_of_cons. intros [->|Hin]; [done|by apply IH].
Qed.
End RosterFacts.

Section RosterProperty.
Import ConnectionRoster.
Context {T : Type} `{EqDecision T}.

Lemma roster_new_wf capacity :
  0 <= capacity -> wf capacity (new capacity : ConnectionRoster.t T) /\ iter (new capacity) = ([] : list T).
Proof.
  intros Hc. assert (Hi : iter (new capacity) = ([] : list T)).
  { unfold iter, new. cbn [entries]. induction (Z.to_nat capacity); [done|]. csimpl. done. }
  split; [|done]. unfold wf. rewrite Hi. cbn [new entries len]. split_and!.
  - unfold zlen. rewrite length_replicate. lia.
  - done.
  - constructor.
Qed.

Lemma roster_insert_spec capacity (self : ConnectionRoster.t T) (c : T) :
  wf capacity self ->
  match insert self c with
  | (Ok true, self') => c ∉ iter self /\ iter self' ≡ₚ c :: iter self /\ wf capacity self'
  | (Ok false, self') => c ∈ iter self /\ self' = self
  | (Err Full, self') => c ∉ iter self /\ zlen (iter self) = capacity /\ self' = self
  | (Panic, _) => False
  end.
Proof.
  intros (Hcap & Hlen & Hnd). unfold insert. destruct (contains self c) eqn:Hc.
  { split; [by apply contains_iter|done]. }
  assert (Hn : c ∉ iter self) by (rewrite <- contains_iter, Hc; done).
  destruct (replace_first _ _ (entries self)) as [e'|] eqn:E.
  - apply replace_fill in E as [Hl Hp]. split_and!; [done|exact Hp|]. unfold wf.
    cbn [entries len]. split_and!; [lia| |].
    + unfold iter, zlen in *. cbn [entries]. rewrite Hp. cbn [length]. lia.
    + unfold iter. cbn [entries]. rewrite Hp. by constructor.
  - apply replace_fill_none in E. split_and!; [done|unfold iter; lia|done].
Qed.

Lemma roster_remove_spec capacity (self : ConnectionRoster.t T) (c : T) :
  wf capacity self ->
  match remove self c with
  | (Ok true, self') => iter self ≡ₚ c :: iter self' /\ wf capacity self'
  | (Ok false, self') => c ∉ iter self /\ self' = self
  | (Err _, _) => False
  | (Panic, _) => False
  end.
Proof.
  intros (Hcap & Hlen & Hnd). unfold remove. destruct (replace_first _ _ (entries self)) as [e'|] eqn:E.
  - apply replace_empty in E as [Hl Hp]. unfold iter in Hlen, Hnd.
    assert (Hlen' : len self = 1 + zlen (omap id e')) by (unfold zlen in *; rewrite Hp in Hlen; cbn in Hlen; lia).
    rewrite Hp in Hnd. apply NoDup_cons in Hnd as [_ Hnd].
    destruct (Z.eqb_spec (len self) 0); [unfold zlen in *; lia|].
    split; [exact Hp|]. unfold wf. cbn [entries len]. split_and!; [lia| |done]. unfold iter. cbn [entries]. lia.
  - by apply replace_empty_none in E.
Qed.

Lemma roster_unique_spec capacity (self : ConnectionRoster.t T) (c : T) :
  wf capacity self -> unique self = Some c <-> iter self = [c].
Proof.
  intros (_ & Hlen & _). unfold unique. rewrite Hlen. destruct (iter self) as [|x [|y l]]; [done| |].
  - change (zlen [x] =? 1) with true. cbn [negb head]. split; [by intros [= ->]|by intros [= ->]].
  - rewrite !zlen_cons. pose proof (zlen_nonneg l). destruct (Z.eqb_spec (1 + (1 + zlen l)) 1); [lia|]. cbn [negb]. done.
Qed.

(** The connection roster implements a set of at most [capacity] connections: inserts
    and removals are idempotent and change the set by exactly the connection named, a
    full roster refuses a new connection and stays as it was, the slot count and the
    duplicate-free invariant are kept, the length counter never underflows, and
    [unique] answers exactly when one connection is live. *)
Theorem roster_refines_set capacity (self : ConnectionRoster.t T) c :
  wf capacity self ->
  match insert self c with
  | (Ok true, self') => c ∉ iter self /\ iter self' ≡ₚ c :: iter self /\ wf capacity self'
  | (Ok false, self') => c ∈ iter self /\ self' = self
  | (Err Full, self') => c ∉ iter self /\ zlen (iter self) = capacity /\ self' = self
  | (Panic, _) => False
  end /\
  match remove self c with
  | (Ok true, self') => iter self ≡ₚ c :: iter self' /\ wf capacity self'
  | (Ok false, self') => c ∉ iter self /\ self' = self
  | (Err _, _) | (Panic, _) => False
  end /\
  (contains self c = true <-> c ∈ iter self) /\
  (unique self = Some c <-> iter self = [c]) /\
  (is_empty self = true <-> iter self = []).
Proof.
  intros Hwf. split_and!.
  - by apply roster_insert_spec.
  - by apply (roster_remove_spec capacity self c) in Hwf.
  - apply contains_iter.
  - by eapply roster_unique_spec.
  - destruct Hwf as (_ & Hlen & _). unfold is_empty. rewrite Hlen.
    destruct (iter self) as [|x l]; [done|]. rewrite zlen_cons. pose proof (zlen_nonneg l).
    destruct (Z.eqb_spec (1 + zlen l) 0); [lia|]. done.
Qed.
End RosterProperty.

Lemma roster_refines_set_witness :
  ConnectionRoster.wf 8 (ConnectionRoster.new 8 : ConnectionRoster.t Z) /\
  (ConnectionRoster.insert (ConnectionRoster.new 8) 5).1 = Ok true /\
  ConnectionRoster.iter (ConnectionRoster.insert (ConnectionRoster.new 8) 5).2 ≡ₚ [5].
Proof.
  assert (Hwf : ConnectionRoster.wf 8 (ConnectionRoster.new 8 : ConnectionRoster.t Z))
    by (apply roster_new_wf; lia).
  split; [exact Hwf|]. split; [reflexivity|].
  exact (proj1 (proj2 (proj1 (roster_refines_set 8 (ConnectionRoster.new 8) 5 Hwf)))).
Defined.
