(* ===== verification/Resource.v ===== *)
(** * Relay resource limits

    The validated limits of [crates/yonder-core/src/resource.rs] and the rate of
    [crates/yonder-core/src/rate.rs].  The two macros [capacity_type!] and
    [seconds_type!] are the functions [capacity_new] and [seconds_new]; each expansion
    is a module. *)

From S2P Require Import Prelude Domain.
Open Scope Z_scope.

Module RelayResourceField.
Inductive t :=
| RegistrationCapacity | SourceRegistrationCapacity | ResolveConcurrency | ResolveRate
| ResolveBurst | SourceLimiterCapacity | SourceLimiterIdleSeconds
| ReservationDurationSeconds | CircuitCapacity | CircuitDurationSeconds | CircuitBytes.
End RelayResourceField.

Module RelayResourceError.
Inductive t :=
| OutOfRange (field : RelayResourceField.t) (minimum maximum : Z)
| SourceRegistrationExceedsTotal
| SourceResolveExceedsGlobal
| SourceLimiterCapacityTooSmall
| SourceLimiterWindowOverflow.
End RelayResourceError.

(** The body of [new] in [capacity_type!]. *)
Definition capacity_new (field : RelayResourceField.t) (maximum value : Z)
  : res RelayResourceError.t Z :=
  if (1 <=? value) && (value <=? maximum) then Ok value
  else Err (RelayResourceError.OutOfRange field 1 maximum).

(** The body of [from_seconds] in [seconds_type!]. *)
Definition seconds_new (field : RelayResourceField.t) (minimum maximum seconds : Z)
  : res RelayResourceError.t Z :=
  if (minimum <=? seconds) && (seconds <=? maximum) then Ok seconds
  else Err (RelayResourceError.OutOfRange field minimum maximum).

Module RegistrationCapacity.
Record t := Mk { get : Z }.
Definition MAX : Z := 320.
Definition new (value : Z) : res RelayResourceError.t t :=
  Mk <$> capacity_new RelayResourceField.RegistrationCapacity MAX value.
Definition wf (self : t) : Prop := 1 <= get self <= MAX.
End RegistrationCapacity.

Module SourceRegistrationCapacity.
Record t := Mk { get : Z }.
Definition MAX : Z := 320.
Definition new (value : Z) : res RelayResourceError.t t :=
  Mk <$> capacity_new RelayResourceField.SourceRegistrationCapacity MAX value.
Definition wf (self : t) : Prop := 1 <= get self <= MAX.
End SourceRegistrationCapacity.

Module ResolveConcurrency.
Record t := Mk { get : Z }.
Definition MAX : Z := 320.
Definition new (value : Z) : res RelayResourceError.t t :=
  Mk <$> capacity_new RelayResourceField.ResolveConcurrency MAX value.
Definition wf (self : t) : Prop := 1 <= get self <= MAX.
End ResolveConcurrency.

Module SourceLimiterCapacity.
Record t := Mk { get : Z }.
Definition MAX : Z := 65536.
Definition new (value : Z) : res RelayResourceError.t t :=
  Mk <$> capacity_new RelayResourceField.SourceLimiterCapacity MAX value.
Definition wf (self : t) : Prop := 1 <= get self <= MAX.
End SourceLimiterCapacity.

Module CircuitCapacity.
Record t := Mk { get : Z }.
Definition MAX : Z := 320.
Definition new (value : Z) : res RelayResourceError.t t :=
  Mk <$> capacity_new RelayResourceField.CircuitCapacity MAX value.
Definition wf (self : t) : Prop := 1 <= get self <= MAX.
End CircuitCapacity.

Module SourceLimiterIdle.
Record t := Mk { seconds : Z }.
Definition MIN_SECONDS : Z := 1.
Definition MAX_SECONDS : Z := 86400.
Definition from_seconds (seconds : Z) : res RelayResourceError.t t :=
  Mk <$> seconds_new RelayResourceField.SourceLimiterIdleSeconds MIN_SECONDS MAX_SECONDS seconds.
Definition duration (self : t) : Z := from_secs (seconds self).
Definition wf (self : t) : Prop := MIN_SECONDS <= seconds self <= MAX_SECONDS.
End SourceLimiterIdle.

Module ReservationDuration.
Record t := Mk { seconds : Z }.
Definition MIN_SECONDS : Z := 60.
Definition MAX_SECONDS : Z := 86400.
Definition from_seconds (seconds : Z) : res RelayResourceError.t t :=
  Mk <$> seconds_new RelayResourceField.ReservationDurationSeconds MIN_SECONDS MAX_SECONDS seconds.
Definition duration (self : t) : Z := from_secs (seconds self).
Definition wf (self : t) : Prop := MIN_SECONDS <= seconds self <= MAX_SECONDS.
End ReservationDuration.

Module CircuitDuration.
Record t := Mk { seconds : Z }.
Definition MIN_SECONDS : Z := 60.
Definition MAX_SECONDS : Z := 604800.
Definition from_seconds (seconds : Z) : res RelayResourceError.t t :=
  Mk <$> seconds_new RelayResourceField.CircuitDurationSeconds MIN_SECONDS MAX_SECONDS seconds.
Definition duration (self : t) : Z := from_secs (seconds self).
Definition wf (self : t) : Prop := MIN_SECONDS <= seconds self <= MAX_SECONDS.
End CircuitDuration.

(** rate.rs: a rate and a burst that are never zero. *)
Module RateLimit.
Record t := Mk { per_second : Z; burst : Z }.
Definition nonzero {E} (value : Z) : res E Z := if value =? 0 then Panic else Ok value.
Definition authentication {E} : res E t :=
  p ← nonzero 1; b ← nonzero 4; Ok (Mk p b).
End RateLimit.

Module ResolveRate.
Record t := Mk { per_second : Z; burst : Z }.
Definition MAX_PER_SECOND : Z := 10000.
Definition MAX_BURST : Z := 65536.

Definition rate_range_error : RelayResourceError.t :=
  RelayResourceError.OutOfRange RelayResourceField.ResolveRate 1 MAX_PER_SECOND.
Definition burst_range_error : RelayResourceError.t :=
  RelayResourceError.OutOfRange RelayResourceField.ResolveBurst 1 MAX_BURST.

Definition new (per_second burst : Z) : res RelayResourceError.t t :=
  if per_second =? 0 then Err rate_range_error else
  if MAX_PER_SECOND <? per_second then Err rate_range_error else
  if burst =? 0 then Err burst_range_error else
  if MAX_BURST <? burst then Err burst_range_error else
  Ok (Mk per_second burst).

Definition rate_limit (self : t) : RateLimit.t := RateLimit.Mk (per_second self) (burst self).

Definition wf (self : t) : Prop :=
  1 <= per_second self <= MAX_PER_SECOND /\ 1 <= burst self <= MAX_BURST.
End ResolveRate.

Module CircuitBytes.
Record t := Mk { get : Z }.
Definition MIN : Z := 1024 * 1024.
Definition MAX : Z := 1024 * 1024 * 1024 * 1024.
Definition new (bytes : Z) : res RelayResourceError.t t :=
  if (MIN <=? bytes) && (bytes <=? MAX) then Ok (Mk bytes)
  else Err (RelayResourceError.OutOfRange RelayResourceField.CircuitBytes MIN MAX).
Definition wf (self : t) : Prop := MIN <= get self <= MAX.
End CircuitBytes.

Module RegistrationLimits.
Record t := Mk {
  capacity : RegistrationCapacity.t;
  per_source : SourceRegistrationCapacity.t;
  reservation_duration : ReservationDuration.t;
}.

Definition new (capacity : RegistrationCapacity.t) (per_source : SourceRegistrationCapacity.t)
    (reservation_duration : ReservationDuration.t) : res RelayResourceError.t t :=
  if RegistrationCapacity.get capacity <? SourceRegistrationCapacity.get per_source
  then Err RelayResourceError.SourceRegistrationExceedsTotal
  else Ok (Mk capacity per_source reservation_duration).

Definition wf (self : t) : Prop :=
  RegistrationCapacity.wf (capacity self) /\ SourceRegistrationCapacity.wf (per_source self) /\
  ReservationDuration.wf (reservation_duration self) /\
  SourceRegistrationCapacity.get (per_source self) <= RegistrationCapacity.get (capacity self).
End RegistrationLimits.

Module ResolveLimits.
Record t := Mk {
  concurrency : ResolveConcurrency.t;
  global : ResolveRate.t;
  source : ResolveRate.t;
  source_limiter_capacity : SourceLimiterCapacity.t;
  source_limiter_idle : SourceLimiterIdle.t;
  retry_after : RetryAfter.t;
}.

Definition new (concurrency : ResolveConcurrency.t) (global source : ResolveRate.t)
    (source_limiter_capacity : SourceLimiterCapacity.t) (source_limiter_idle : SourceLimiterIdle.t)
    (retry_after : RetryAfter.t) : res RelayResourceError.t t :=
  if (ResolveRate.per_second global <? ResolveRate.per_second source) ||
     (ResolveRate.burst global <? ResolveRate.burst source)
  then Err RelayResourceError.SourceResolveExceedsGlobal else
  sustained ← ok_or (checked_mul_u64 (ResolveRate.per_second global)
                       (SourceLimiterIdle.seconds source_limiter_idle))
                RelayResourceError.SourceLimiterWindowOverflow;
  required ← ok_or (checked_add_u64 sustained (ResolveRate.burst global))
               RelayResourceError.SourceLimiterWindowOverflow;
  if SourceLimiterCapacity.get source_limiter_capacity <? required
  then Err RelayResourceError.SourceLimiterCapacityTooSmall
  else Ok (Mk concurrency global source source_limiter_capacity source_limiter_idle retry_after).

(** The admission window: what the global rate can admit before an idle source is
    forgotten fits the source table. *)
Definition window (self : t) : Z :=
  ResolveRate.per_second (global self) * SourceLimiterIdle.seconds (source_limiter_idle self)
  + ResolveRate.burst (global self).

Definition wf (self : t) : Prop :=
  ResolveConcurrency.wf (concurrency self) /\ ResolveRate.wf (global self) /\
  ResolveRate.wf (source self) /\ SourceLimiterCapacity.wf (source_limiter_capacity self) /\
  SourceLimiterIdle.wf (source_limiter_idle self) /\ RetryAfter.wf (retry_after self) /\
  ResolveRate.per_second (source self) <= ResolveRate.per_second (global self) /\
  ResolveRate.burst (source self) <= ResolveRate.burst (global self) /\
  window self <= SourceLimiterCapacity.get (source_limiter_capacity self).
End ResolveLimits.

Module CircuitRelayLimits.
Record t := Mk { capacity : CircuitCapacity.t; duration : CircuitDuration.t; bytes : CircuitBytes.t }.
Definition wf (self : t) : Prop :=
  CircuitCapacity.wf (capacity self) /\ CircuitDuration.wf (duration self) /\
  CircuitBytes.wf (bytes self).
End CircuitRelayLimits.

Module RelayResourceConfig.
Record t := Mk {
  registration : RegistrationLimits.t;
  resolve : ResolveLimits.t;
  circuit : CircuitRelayLimits.t;
}.

Definition default {E} : res E t :=
  let registration := RegistrationLimits.Mk (RegistrationCapacity.Mk 128)
    (SourceRegistrationCapacity.Mk 32) (ReservationDuration.Mk (60 * 60)) in
  g ← RateLimit.nonzero 4; gb ← RateLimit.nonzero 128;
  s ← RateLimit.nonzero 1; sb ← RateLimit.nonzero 32;
  retry ← expect (RetryAfter.from_millis 250);
  let resolve := ResolveLimits.Mk (ResolveConcurrency.Mk 64) (ResolveRate.Mk g gb)
    (ResolveRate.Mk s sb) (SourceLimiterCapacity.Mk 4096) (SourceLimiterIdle.Mk (10 * 60)) retry in
  let circuit := CircuitRelayLimits.Mk (CircuitCapacity.Mk 128)
    (CircuitDuration.Mk (24 * 60 * 60)) (CircuitBytes.Mk (8 * 1024 * 1024 * 1024)) in
  Ok (Mk registration resolve circuit).

Definition wf (self : t) : Prop :=
  RegistrationLimits.wf (registration self) /\ ResolveLimits.wf (resolve self) /\
  CircuitRelayLimits.wf (circuit self).
End RelayResourceConfig.

(** ** Properties *)

Lemma seconds_new_ok field minimum maximum v x :
  seconds_new field minimum maximum v = Ok x <-> x = v /\ minimum <= v <= maximum.
Proof.
  unfold seconds_new. destruct (Z.leb_spec minimum v), (Z.leb_spec v maximum); cbn; split;
    intros H1; first [done | lia | (by injection H1 as <-) | (by destruct H1 as [-> _])].
Qed.

(** A capacity is a range that starts at one. *)
Lemma capacity_new_ok field maximum v x :
  capacity_new field maximum v = Ok x <-> x = v /\ 1 <= v <= maximum.
Proof. apply (seconds_new_ok field 1 maximum v x). Qed.

Ltac newtype_exact lem :=
  rewrite fmap_res_ok; setoid_rewrite lem; split; [intros (? & [-> ?] & ->); by split|];
  intros [-> ?]; eexists; by split.

Lemma resolve_rate_new_ok p b r :
  0 <= p -> 0 <= b -> ResolveRate.new p b = Ok r <-> r = ResolveRate.Mk p b /\ ResolveRate.wf r.
Proof.
  intros Hp Hb. unfold ResolveRate.new, ResolveRate.wf.
  destruct (Z.eqb_spec p 0); [split; [done|intros [-> [? _]]; cbn in *; lia]|].
  destruct (Z.ltb_spec ResolveRate.MAX_PER_SECOND p); [split; [done|intros [-> [? _]]; cbn in *; lia]|].
  destruct (Z.eqb_spec b 0); [split; [done|intros [-> [_ ?]]; cbn in *; lia]|].
  destruct (Z.ltb_spec ResolveRate.MAX_BURST b); [split; [done|intros [-> [_ ?]]; cbn in *; lia]|].
  split; [intros [= <-]; split; [done|cbn; lia]|by intros [-> _]].
Qed.

(** The bounded newtypes accept exactly their documented range, on every value, and
    [ResolveRate::new] exactly the rates and bursts in theirs. *)
Theorem resource_newtypes_exact v :
  (forall x, RegistrationCapacity.new v = Ok x <->
     x = RegistrationCapacity.Mk v /\ 1 <= v <= 320) /\
  (forall x, SourceRegistrationCapacity.new v = Ok x <->
     x = SourceRegistrationCapacity.Mk v /\ 1 <= v <= 320) /\
  (forall x, ResolveConcurrency.new v = Ok x <-> x = ResolveConcurrency.Mk v /\ 1 <= v <= 320) /\
  (forall x, SourceLimiterCapacity.new v = Ok x <->
     x = SourceLimiterCapacity.Mk v /\ 1 <= v <= 65536) /\
  (forall x, CircuitCapacity.new v = Ok x <-> x = CircuitCapacity.Mk v /\ 1 <= v <= 320) /\
  (forall x, SourceLimiterIdle.from_seconds v = Ok x <->
     x = SourceLimiterIdle.Mk v /\ 1 <= v <= 86400) /\
  (forall x, ReservationDuration.from_seconds v = Ok x <->
     x = ReservationDuration.Mk v /\ 60 <= v <= 86400) /\
  (forall x, CircuitDuration.from_seconds v = Ok x <->
     x = CircuitDuration.Mk v /\ 60 <= v <= 604800) /\
  (forall x, CircuitBytes.new v = Ok x <->
     x = CircuitBytes.Mk v /\ 2 ^ 20 <= v <= 2 ^ 40) /\
  (forall p b r, 0 <= p -> 0 <= b ->
     ResolveRate.new p b = Ok r <->
     r = ResolveRate.Mk p b /\ 1 <= p <= 10000 /\ 1 <= b <= 65536).
Proof.
  split_and!; [intros x..|].
  - unfold RegistrationCapacity.new. newtype_exact capacity_new_ok.
  - unfold SourceRegistrationCapacity.new. newtype_exact capacity_new_ok.
  - unfold ResolveConcurrency.new. newtype_exact capacity_new_ok.
  - unfold SourceLimiterCapacity.new. newtype_exact capacity_new_ok.
  - unfold CircuitCapacity.new. newtype_exact capacity_new_ok.
  - unfold SourceLimiterIdle.from_seconds. newtype_exact seconds_new_ok.
  - unfold ReservationDuration.from_seconds. newtype_exact seconds_new_ok.
  - unfold CircuitDuration.from_seconds. newtype_exact seconds_new_ok.
  - unfold CircuitBytes.new. change CircuitBytes.MIN with (2 ^ 20). change CircuitBytes.MAX with (2 ^ 40).
    destruct (Z.leb_spec (2 ^ 20) v), (Z.leb_spec v (2 ^ 40)); cbn -[Z.pow]; split;
      intros H1; first [done | lia | (by injection H1 as <-) | (by destruct H1 as [-> _])].
  - intros p b r Hp Hb. rewrite resolve_rate_new_ok by done. unfold ResolveRate.wf.
    split; (intros [-> ?]; split; [done|]); done.
Qed.

(** [ResolveLimits::new] accepts validated parts exactly when the per-source rate does
    not exceed the global one and the source table can hold every source the global
    rate admits before an idle one is forgotten; for validated parts that product never
    overflows, and the two other failures are reported for their own reason. *)
Theorem resolve_limits_exact c g s cap idle retry :
  ResolveConcurrency.wf c -> ResolveRate.wf g -> ResolveRate.wf s ->
  SourceLimiterCapacity.wf cap -> SourceLimiterIdle.wf idle -> RetryAfter.wf retry ->
  let l := ResolveLimits.Mk c g s cap idle retry in
  match ResolveLimits.new c g s cap idle retry with
  | Ok l' => l' = l /\ ResolveLimits.wf l
  | Err RelayResourceError.SourceResolveExceedsGlobal =>
      ResolveRate.per_second g < ResolveRate.per_second s \/ ResolveRate.burst g < ResolveRate.burst s
  | Err RelayResourceError.SourceLimiterCapacityTooSmall =>
      SourceLimiterCapacity.get cap < ResolveLimits.window l
  | Err _ | Panic => False
  end.
Proof.
  intros Hc Hg Hs Hcap Hi Hr l. unfold ResolveLimits.new.
  destruct (Z.ltb_spec (ResolveRate.per_second g) (ResolveRate.per_second s)); [by left|].
  destruct (Z.ltb_spec (ResolveRate.burst g) (ResolveRate.burst s)); [by right|]. cbn [orb].
  pose proof Hg as [Hg1 Hg2]. pose proof Hi as Hi'.
  unfold SourceLimiterIdle.wf, SourceLimiterIdle.MIN_SECONDS, SourceLimiterIdle.MAX_SECONDS,
    ResolveRate.MAX_PER_SECOND, ResolveRate.MAX_BURST in *.
  assert (Hm : 0 <= ResolveRate.per_second g * SourceLimiterIdle.seconds idle <= 10000 * 86400) by nia.
  unfold checked_mul_u64. destruct (Z.ltb_spec (ResolveRate.per_second g * SourceLimiterIdle.seconds idle) (2 ^ 64));
    [|lia]. cbn [ok_or mbind res_bind].
  unfold checked_add_u64. destruct (Z.ltb_spec (ResolveRate.per_second g * SourceLimiterIdle.seconds idle
    + ResolveRate.burst g) (2 ^ 64)); [|lia]. cbn [ok_or mbind res_bind].
  destruct (Z.ltb_spec (SourceLimiterCapacity.get cap)
    (ResolveRate.per_second g * SourceLimiterIdle.seconds idle + ResolveRate.burst g)); [done|].
  split; [done|]. unfold ResolveLimits.wf, l, ResolveLimits.window. cbn. done.
Qed.

Lemma resolve_limits_exact_witness :
  SourceLimiterCapacity.get (SourceLimiterCapacity.Mk 2527) < 4 * 600 + 128.
Proof.
  exact (resolve_limits_exact (ResolveConcurrency.Mk 64) (ResolveRate.Mk 4 128) (ResolveRate.Mk 1 32)
    (SourceLimiterCapacity.Mk 2527) (SourceLimiterIdle.Mk 600) (RetryAfter.Mk 250)
    ltac:(by vm_compute) ltac:(by vm_compute) ltac:(by vm_compute) ltac:(by vm_compute)
    ltac:(by vm_compute) ltac:(by vm_compute)).
Defined.

(** The default configuration builds without panic, satisfies every limit's
    invariant, and is one the validating constructors accept. *)
Theorem default_resources_valid :
  exists cfg, RelayResourceConfig.default (E:=unit) = Ok cfg /\ RelayResourceConfig.wf cfg /\
    RegistrationLimits.new (RegistrationCapacity.Mk 128) (SourceRegistrationCapacity.Mk 32)
      (ReservationDuration.Mk 3600) = Ok (RelayResourceConfig.registration cfg) /\
    ResolveLimits.new (ResolveConcurrency.Mk 64) (ResolveRate.Mk 4 128) (ResolveRate.Mk 1 32)
      (SourceLimiterCapacity.Mk 4096) (SourceLimiterIdle.Mk 600) (RetryAfter.Mk 250)
      = Ok (RelayResourceConfig.resolve cfg).
Proof. eexists. split; [reflexivity|]. by vm_compute. Qed.
