(* ===== verification/Registry.v ===== *)
(** * The relay's registry

    [Registry] of [crates/yon-relay/src/registry.rs]: the process-local table from
    locators to the targets that own them.  The three indexes are finite maps, the two
    halves of availability finite sets.  Every operation is a [M] computation: it returns
    a result and leaves a registry, also when it fails.  Clock readings are arguments
    ([refresh] reads the clock twice).  Peer ids come from libp2p and source prefixes from
    the transport; the registry only compares and hashes them, and serialises a peer id
    when it resolves. *)

From stdpp Require Import gmap fin_maps fin_sets.
From S2P Require Import Prelude Domain WireRegistry Resource.
Open Scope Z_scope.

(** libp2p's peer id: equality, hashing and [to_bytes]. *)
Class PeerIdApi (PeerId : Type) `{Countable PeerId} := peer_to_bytes : PeerId -> list Z.

(** A libp2p peer id is a multihash of at most 64 bytes. *)
Class PeerIdLaws (PeerId : Type) `{PeerIdApi PeerId} : Prop :=
  peer_to_bytes_len : forall p, bytes (peer_to_bytes p) /\ 1 <= zlen (peer_to_bytes p) <= 64.

Definition SUSPEND_GRACE : Z := from_secs 120.

Inductive RegistryError := Random (e : RandomError) | PeerIdTooLong.

Inductive MappingState := Active | Suspended (since : MonotonicTime.t).
#[export] Instance MappingState_eq_dec : EqDecision MappingState.
Proof. solve_decision. Defined.

Declare Scope registry_scope.

Section Registry.
Context {PeerId SourcePrefix : Type} `{Countable PeerId} `{Countable SourcePrefix}.

Record Mapping := MkMapping { owner : PeerId; source : SourcePrefix; state : MappingState }.

Record Registry := MkRegistry {
  limits : RegistrationLimits.t;
  retry_after : RetryAfter.t;
  by_locator : gmap Locator.t Mapping;
  by_owner : gmap PeerId Locator.t;
  by_source : gmap SourcePrefix Z;
  reservations : gset PeerId;
  connections : gset PeerId;
}.

Definition with_limits (limits : RegistrationLimits.t) (retry_after : RetryAfter.t) : Registry :=
  MkRegistry limits retry_after ∅ ∅ ∅ ∅ ∅.

Definition set_indexes (self : Registry) (l : gmap Locator.t Mapping) (o : gmap PeerId Locator.t)
    (s : gmap SourcePrefix Z) : Registry :=
  MkRegistry (limits self) (retry_after self) l o s (reservations self) (connections self).
Definition set_reservations (self : Registry) (r : gset PeerId) : Registry :=
  MkRegistry (limits self) (retry_after self) (by_locator self) (by_owner self) (by_source self)
    r (connections self).
Definition set_connections (self : Registry) (c : gset PeerId) : Registry :=
  MkRegistry (limits self) (retry_after self) (by_locator self) (by_owner self) (by_source self)
    (reservations self) c.

(** ** Computations *)

Definition M (A : Type) : Type := Registry -> res RegistryError A * Registry.
Definition ret {A} (a : A) : M A := fun self => (Ok a, self).
Definition bind {A B} (m : M A) (f : A -> M B) : M B := fun self =>
  match m self with
  | (Ok a, self') => f a self'
  | (Err e, self') => (Err e, self')
  | (Panic, self') => (Panic, self')
  end.
Definition get : M Registry := fun self => (Ok self, self).
Definition put (next : Registry) : M unit := fun _ => (Ok tt, next).
Definition panic {A} : M A := fun self => (Panic, self).

Notation "x <- m ;; k" := (bind m (fun x => k))
  (at level 100, m at next level, right associativity) : registry_scope.
Notation "m ;; k" := (bind m (fun _ => k)) (at level 100, right associativity) : registry_scope.
Local Open Scope registry_scope.

(** ** Operations *)

Definition set_membership (set : gset PeerId) (peer : PeerId) (available : bool) : gset PeerId :=
  if available then {[ peer ]} ∪ set else set ∖ {[ peer ]}.

Definition is_available (self : Registry) (peer : PeerId) : bool :=
  bool_decide (peer ∈ reservations self) && bool_decide (peer ∈ connections self).

Definition has_capacity (self : Registry) (src : SourcePrefix) : bool :=
  (Z.of_nat (size (by_locator self)) <? RegistrationCapacity.get (RegistrationLimits.capacity (limits self)))
  && (default 0 (by_source self !! src)
      <? SourceRegistrationCapacity.get (RegistrationLimits.per_source (limits self))).

(** [usize] arithmetic panics outside its range. *)
Definition insert (locator : Locator.t) (own : PeerId) (src : SourcePrefix) : M unit :=
  self <- get ;;
  let count := default 0 (by_source self !! src) in
  if count + 1 <? 2 ^ 64 then
    put (set_indexes self
      (<[ locator := MkMapping own src Active ]> (by_locator self))
      (<[ own := locator ]> (by_owner self))
      (<[ src := count + 1 ]> (by_source self)))
  else panic.

Definition remove (locator : Locator.t) : M unit :=
  self <- get ;;
  match by_locator self !! locator with
  | None => ret tt
  | Some mapping =>
    let l := delete locator (by_locator self) in
    let o := delete (owner mapping) (by_owner self) in
    match by_source self !! source mapping with
    | None => put (set_indexes self l o (by_source self))
    | Some count =>
      if count =? 0 then panic else
      put (set_indexes self l o
        (if count - 1 =? 0 then delete (source mapping) (by_source self)
         else <[ source mapping := count - 1 ]> (by_source self)))
    end
  end.

(** Suspended for at least the grace period; a clock that went back counts as no time. *)
Definition is_expired (now : MonotonicTime.t) (mapping : Mapping) : bool :=
  match state mapping with
  | Active => false
  | Suspended since =>
    match MonotonicTime.duration_since now since with
    | Some age => SUSPEND_GRACE <=? age
    | None => false
    end
  end.

Fixpoint remove_all (locators : list Locator.t) : M unit :=
  match locators with [] => ret tt | l :: rest => remove l ;; remove_all rest end.

(** The expired locators of an iteration over the table. *)
Definition expired_of (now : MonotonicTime.t) (entries : list (Locator.t * Mapping))
  : list Locator.t :=
  (List.filter (fun e => is_expired now e.2) entries).*1.

(** [prune] collects into an array of [RegistrationCapacity::MAX] slots; one more entry
    panics.  [order] is the iteration order of the hash map. *)
Definition prune_in (order : gmap Locator.t Mapping -> list (Locator.t * Mapping))
    (now : MonotonicTime.t) : M unit :=
  self <- get ;;
  let expired := expired_of now (order (by_locator self)) in
  if zlen expired <=? RegistrationCapacity.MAX then remove_all expired else panic.

Definition prune (now : MonotonicTime.t) : M unit := prune_in map_to_list now.

(** The state of a mapping after its owner's availability was looked at. *)
Definition next_state (available : bool) (now : MonotonicTime.t) (st : MappingState) : MappingState :=
  match available, st with
  | true, _ => Active
  | false, Active => Suspended now
  | false, suspended => suspended
  end.

Definition refresh (peer : PeerId) (now1 now2 : MonotonicTime.t) : M unit :=
  prune now1 ;;
  self <- get ;;
  match by_owner self !! peer with
  | None => ret tt
  | Some locator =>
    let available := is_available self peer in
    match by_locator self !! locator with
    | None => panic
    | Some mapping =>
      let state' := next_state available now2 (state mapping) in
      put (set_indexes self
        (<[ locator := MkMapping (owner mapping) (source mapping) state' ]> (by_locator self))
        (by_owner self) (by_source self))
    end
  end.

Definition set_reservation (peer : PeerId) (available : bool) (now1 now2 : MonotonicTime.t) : M unit :=
  self <- get ;;
  put (set_reservations self (set_membership (reservations self) peer available)) ;;
  refresh peer now1 now2.

Definition set_connection (peer : PeerId) (available : bool) (now1 now2 : MonotonicTime.t) : M unit :=
  self <- get ;;
  put (set_connections self (set_membership (connections self) peer available)) ;;
  refresh peer now1 now2.

(** The probing loop of [allocate]; [fuel] bounds the number of probes. *)
Fixpoint probe (fuel : nat) (table : gmap Locator.t Mapping) (candidate : Locator.t)
  : option Locator.t :=
  match fuel with
  | O => None
  | S fuel' =>
    match table !! candidate with
    | None => Some candidate
    | Some _ => probe fuel' table (Locator.wrapping_next candidate)
    end
  end.

(** The loop probes at most one locator more than the table has entries; a loop that
    found none would not return, and shows as [Panic]. *)
Definition allocate {R} `{SecureRandom R} (own : PeerId) (src : SourcePrefix)
    (now : MonotonicTime.t) (random : R) : M (RegistryResponse.t * R) :=
  prune now ;;
  self <- get ;;
  if negb (is_available self own) then ret (RegistryResponse.ReservationRequired, random) else
  match by_owner self !! own with
  | Some locator => ret (RegistryResponse.Acquired locator, random)
  | None =>
    if negb (has_capacity self src) then ret (RegistryResponse.Capacity, random) else
    match Locator.random random with
    | (Err e, _) => fun s => (Err (Random e), s)
    | (Panic, _) => panic
    | (Ok candidate, random') =>
      match probe (S (size (by_locator self))) (by_locator self) candidate with
      | None => panic
      | Some locator => insert locator own src ;; ret (RegistryResponse.Acquired locator, random')
      end
    end
  end.

Definition reclaim (own : PeerId) (src : SourcePrefix) (locator : Locator.t)
    (now : MonotonicTime.t) : M RegistryResponse.t :=
  prune now ;;
  self <- get ;;
  if negb (is_available self own) then ret RegistryResponse.ReservationRequired else
  match by_owner self !! own with
  | Some existing =>
    ret (if bool_decide (existing = locator) then RegistryResponse.Acquired locator
         else RegistryResponse.Conflict)
  | None =>
    if bool_decide (is_Some (by_locator self !! locator)) then ret RegistryResponse.Conflict else
    if negb (has_capacity self src) then ret RegistryResponse.Capacity else
    insert locator own src ;; ret (RegistryResponse.Acquired locator)
  end.

Definition release (own : PeerId) (locator : Locator.t) (now : MonotonicTime.t)
  : M RegistryResponse.t :=
  prune now ;;
  self <- get ;;
  (if bool_decide (by_owner self !! own = Some locator) then remove locator else ret tt) ;;
  ret RegistryResponse.Released.

Definition bounded_peer_id (src : list Z) : res RegistryError PeerIdBytes.t :=
  map_err (fun _ => PeerIdTooLong) (PeerIdBytes.new src).

Definition resolve `{!PeerIdApi PeerId} (locator : Locator.t) (now : MonotonicTime.t)
  : M ResolveResponse.t :=
  prune now ;;
  self <- get ;;
  match by_locator self !! locator with
  | None => ret ResolveResponse.Unavailable
  | Some mapping =>
    match state mapping with
    | Active => fun s => (ResolveResponse.Resolved <$> bounded_peer_id (peer_to_bytes (owner mapping)), s)
    | Suspended _ => ret (ResolveResponse.Retry (retry_after self))
    end
  end.

Definition len (self : Registry) : Z := Z.of_nat (size (by_locator self)).
Definition is_empty (self : Registry) : bool := bool_decide (size (by_locator self) = 0%nat).

(** ** The invariant *)

(** The mappings of one source prefix. *)
Definition source_count (table : gmap Locator.t Mapping) (s : SourcePrefix) : Z :=
  Z.of_nat (size (filter (fun e => source e.2 = s) table)).

(** The indexes agree with the table, the limits hold, and the mappings of the owners in
    [P] are [Active] exactly when their owner is available. *)
Record inv_on (P : PeerId -> Prop) (self : Registry) : Prop := {
  inv_limits : RegistrationLimits.wf (limits self);
  inv_keys loc m : by_locator self !! loc = Some m -> Locator.wf loc;
  inv_owner loc m : by_locator self !! loc = Some m -> by_owner self !! owner m = Some loc;
  inv_locator p loc : by_owner self !! p = Some loc ->
    exists m, by_locator self !! loc = Some m /\ owner m = p;
  inv_source s : by_source self !! s =
    (if source_count (by_locator self) s =? 0 then None else Some (source_count (by_locator self) s));
  inv_capacity : len self <= RegistrationCapacity.get (RegistrationLimits.capacity (limits self));
  inv_per_source s : source_count (by_locator self) s <=
    SourceRegistrationCapacity.get (RegistrationLimits.per_source (limits self));
  inv_active loc m : by_locator self !! loc = Some m -> P (owner m) ->
    state m = Active <-> is_available self (owner m) = true;
}.

Definition registry_inv : Registry -> Prop := inv_on (fun _ => True).

(** Everything but the three indexes. *)
Definition same_frame (self self' : Registry) : Prop :=
  limits self' = limits self /\ retry_after self' = retry_after self /\
  reservations self' = reservations self /\ connections self' = connections self.

Lemma same_frame_refl self : same_frame self self.
Proof. done. Qed.

Lemma same_frame_trans a b c : same_frame a b -> same_frame b c -> same_frame a c.
Proof. unfold same_frame. intros (? & ? & ? & ?) (? & ? & ? & ?). split_and!; congruence. Qed.

Lemma same_frame_available a b p : same_frame a b -> is_available b p = is_available a p.
Proof. intros (_ & _ & Hr & Hc). unfold is_available. by rewrite Hr, Hc. Qed.

Lemma source_count_nonneg t s : 0 <= source_count t s.
Proof. unfold source_count. lia. Qed.

Lemma source_count_insert_new t loc m s :
  t !! loc = None ->
  source_count (<[loc := m]> t) s = source_count t s + (if bool_decide (source m = s) then 1 else 0).
Proof.
  intros Hn. unfold source_count. case_bool_decide as Hs.
  - rewrite map_filter_insert_True by done. rewrite map_size_insert_None; [lia|].
    apply map_lookup_filter_None. by left.
  - rewrite map_filter_insert_False by done. rewrite delete_id by done. lia.
Qed.

Lemma source_count_delete t loc m s :
  t !! loc = Some m ->
  source_count (delete loc t) s = source_count t s - (if bool_decide (source m = s) then 1 else 0).
Proof.
  intros Hm. assert (Ht : t = <[loc := m]> (delete loc t)) by (by rewrite insert_delete_id).
  rewrite Ht at 2. rewrite source_count_insert_new by (apply lookup_delete_eq). lia.
Qed.

Lemma source_count_update t loc m m' s :
  t !! loc = Some m -> source m' = source m -> source_count (<[loc := m']> t) s = source_count t s.
Proof.
  intros Hm Hs. rewrite <- insert_delete_eq, source_count_insert_new by (apply lookup_delete_eq).
  rewrite (source_count_delete t loc m) by done. rewrite Hs. lia.
Qed.

Lemma source_count_pos t loc m : t !! loc = Some m -> 1 <= source_count t (source m).
Proof.
  intros Hm. pose proof (source_count_delete t loc m (source m) Hm) as Hd.
  rewrite bool_decide_eq_true_2 in Hd by done. pose proof (source_count_nonneg (delete loc t) (source m)). lia.
Qed.

Lemma source_count_le_size t s : source_count t s <= Z.of_nat (size t).
Proof.
  unfold source_count. apply inj_le, map_size_filter.
Qed.

(** ** Removing and pruning *)

Lemma remove_spec P self loc :
  inv_on P self ->
  exists self', remove loc self = (Ok tt, self') /\ inv_on P self' /\ same_frame self self' /\
    by_locator self' = delete loc (by_locator self).
Proof.
  intros Hinv. unfold remove, bind, get, ret, put. destruct (by_locator self !! loc) as [m|] eqn:Hm.
  2:{ exists self. by rewrite delete_id. }
  pose proof (inv_source _ _ Hinv (source m)) as Hs. pose proof (source_count_pos _ _ _ Hm) as Hpos.
  destruct (Z.eqb_spec (source_count (by_locator self) (source m)) 0) as [|_]; [lia|]. rewrite Hs.
  destruct (Z.eqb_spec (source_count (by_locator self) (source m)) 0) as [|_]; [lia|].
  eexists. split; [reflexivity|]. split; [|split; [done|reflexivity]].
  assert (Hsize : (S (size (delete loc (by_locator self))) = size (by_locator self))%nat).
  { rewrite map_size_delete_Some by (by eexists). pose proof (map_size_ne_0_lookup_2 (by_locator self) loc).
    enough (size (by_locator self) <> 0%nat) by lia. apply H1. by eexists. }
  destruct Hinv as [Hl Hk Ho Hloc Hsrc Hcap Hper Hact]. split; cbn.
  - done.
  - intros l m' [_ Hl']%lookup_delete_Some. eauto.
  - intros l m' [Hne Hl']%lookup_delete_Some. rewrite lookup_delete_ne; [eauto|].
    intros Heq. apply Ho in Hl'. apply Ho in Hm. rewrite Heq in Hm. congruence.
  - intros p l [Hne Hp]%lookup_delete_Some. destruct (Hloc _ _ Hp) as (m' & Hm' & <-).
    exists m'. split; [|done]. rewrite lookup_delete_ne; [done|]. intros ->. congruence.
  - intros s. rewrite (source_count_delete _ _ _ _ Hm). case_bool_decide as Hss.
    + subst s. destruct (Z.eqb_spec (source_count (by_locator self) (source m) - 1) 0).
      * apply lookup_delete_eq.
      * apply lookup_insert_eq.
    + rewrite Z.sub_0_r, <- Hsrc.
      destruct (Z.eqb_spec (source_count (by_locator self) (source m) - 1) 0).
      * by apply lookup_delete_ne.
      * by apply lookup_insert_ne.
  - unfold len in *. cbn. lia.
  - intros s. rewrite (source_count_delete _ _ _ _ Hm). pose proof (Hper s). case_bool_decide; lia.
  - intros l m' [_ Hl']%lookup_delete_Some. apply (Hact l m' Hl').
Qed.

Lemma remove_all_spec P ls self :
  inv_on P self ->
  exists self', remove_all ls self = (Ok tt, self') /\ inv_on P self' /\ same_frame self self' /\
    forall k, by_locator self' !! k = if bool_decide (k ∈ ls) then None else by_locator self !! k.
Proof.
  revert self. induction ls as [|l ls IH]; intros self Hinv.
  - exists self. split_and!; [done..|]. intros k. by rewrite bool_decide_eq_false_2 by (apply not_elem_of_nil).
  - destruct (remove_spec P self l Hinv) as (s1 & H1 & Hi1 & Hf1 & Hb1).
    destruct (IH s1 Hi1) as (s2 & H2 & Hi2 & Hf2 & Hb2). exists s2.
    split_and!; [|done|by eapply same_frame_trans|].
    + cbn [remove_all]. unfold bind at 1. by rewrite H1.
    + intros k. rewrite Hb2, Hb1. destruct (decide (k = l)) as [->|Hne].
      * rewrite lookup_delete_eq. rewrite (bool_decide_eq_true_2 (l ∈ l :: ls)) by (by left).
        by case_bool_decide.
      * rewrite lookup_delete_ne by done.
        rewrite (bool_decide_ext (k ∈ l :: ls) (k ∈ ls)); [done|]. set_solver.
Qed.

(** The table without the mappings whose grace period is over. *)
Definition pruned (now : MonotonicTime.t) (table : gmap Locator.t Mapping) : gmap Locator.t Mapping :=
  filter (fun e => is_expired now e.2 = false) table.

Lemma expired_of_elem now entries k :
  k ∈ expired_of now entries <-> exists m, (k, m) ∈ entries /\ is_expired now m = true.
Proof.
  unfold expired_of. rewrite list_elem_of_fmap. setoid_rewrite list_elem_of_In.
  setoid_rewrite List.filter_In. split.
  - intros ([k' m] & -> & Hin & He). eauto.
  - intros (m & Hin & He). by exists (k, m).
Qed.

(** Whatever order the hash map is iterated in, [prune] removes exactly the expired
    mappings and does not overflow its array. *)
Lemma prune_in_spec P order now self :
  (order (by_locator self) ≡ₚ map_to_list (by_locator self)) -> inv_on P self ->
  exists self', prune_in order now self = (Ok tt, self') /\ inv_on P self' /\ same_frame self self' /\
    by_locator self' = pruned now (by_locator self).
Proof.
  intros Hord Hinv. unfold prune_in, bind at 1, get.
  assert (Hlen : zlen (expired_of now (order (by_locator self))) <= RegistrationCapacity.MAX).
  { pose proof (inv_capacity _ _ Hinv) as Hc. pose proof (inv_limits _ _ Hinv) as [Hl _].
    unfold RegistrationCapacity.wf, len in *. unfold expired_of, zlen. rewrite length_fmap.
    pose proof (List.filter_length_le (fun e => is_expired now e.2) (order (by_locator self))) as Hf.
    apply Permutation_length in Hord. rewrite length_map_to_list in Hord. lia. }
  destruct (Z.leb_spec (zlen (expired_of now (order (by_locator self)))) RegistrationCapacity.MAX); [|lia].
  destruct (remove_all_spec P (expired_of now (order (by_locator self))) self Hinv)
    as (s' & Hr & Hi & Hf & Hb).
  exists s'. split_and!; [done..|]. apply map_eq. intros k. rewrite Hb. unfold pruned.
  case_bool_decide as He.
  - apply expired_of_elem in He as (m & Hin & He). rewrite Hord in Hin.
    apply elem_of_map_to_list in Hin. symmetry. apply map_lookup_filter_None. right.
    intros m' Hm'. cbn. congruence.
  - destruct (by_locator self !! k) as [m|] eqn:Hm.
    + symmetry. apply map_lookup_filter_Some. split; [done|]. cbn.
      destruct (is_expired now m) eqn:Hx; [|done]. destruct He. apply expired_of_elem.
      exists m. split; [|done]. rewrite Hord. by apply elem_of_map_to_list.
    + symmetry. apply map_lookup_filter_None. by left.
Qed.

Lemma prune_spec P now self :
  inv_on P self ->
  exists self', prune now self = (Ok tt, self') /\ inv_on P self' /\ same_frame self self' /\
    by_locator self' = pruned now (by_locator self).
Proof. by apply prune_in_spec. Qed.

(** ** Inserting *)

Lemma has_capacity_facts P self src :
  inv_on P self -> has_capacity self src = true ->
  len self < RegistrationCapacity.get (RegistrationLimits.capacity (limits self)) /\
  source_count (by_locator self) src <
    SourceRegistrationCapacity.get (RegistrationLimits.per_source (limits self)) /\
  default 0 (by_source self !! src) = source_count (by_locator self) src.
Proof.
  intros Hinv Hc. assert (Hd : default 0 (by_source self !! src) = source_count (by_locator self) src).
  { rewrite (inv_source _ _ Hinv). destruct (Z.eqb_spec (source_count (by_locator self) src) 0); done. }
  unfold has_capacity in Hc. rewrite Hd in Hc. apply andb_true_iff in Hc as [H1%Z.ltb_lt H2%Z.ltb_lt]. done.
Qed.

Lemma insert_spec self loc own src :
  registry_inv self -> Locator.wf loc -> by_locator self !! loc = None -> by_owner self !! own = None ->
  has_capacity self src = true -> is_available self own = true ->
  exists self', insert loc own src self = (Ok tt, self') /\ registry_inv self' /\ same_frame self self' /\
    by_locator self' = <[loc := MkMapping own src Active]> (by_locator self).
Proof.
  intros Hinv Hwf Hn Hno Hcap Hav. destruct (has_capacity_facts _ _ _ Hinv Hcap) as (Hlen & Hper & Hd).
  pose proof (inv_limits _ _ Hinv) as (Hlc & Hls & _). unfold SourceRegistrationCapacity.wf,
    SourceRegistrationCapacity.MAX in Hls.
  unfold insert, bind, get, put. rewrite Hd.
  destruct (Z.ltb_spec (source_count (by_locator self) src + 1) (2 ^ 64)); [|lia].
  eexists. split; [reflexivity|]. split; [|split; [done|reflexivity]].
  destruct Hinv as [Hl Hk Ho Hloc Hsrc Hca Hpe Hact]. split; cbn.
  - done.
  - intros l m [[-> _]|[_ Hm]]%lookup_insert_Some; eauto.
  - intros l m [[-> <-]|[Hne Hm]]%lookup_insert_Some; cbn; [apply lookup_insert_eq|].
    rewrite lookup_insert_ne; [eauto|]. intros ->. apply Ho in Hm. congruence.
  - intros p l [[-> <-]|[Hne Hp]]%lookup_insert_Some.
    + eexists. split; [apply lookup_insert_eq|done].
    + destruct (Hloc _ _ Hp) as (m & Hm & <-). exists m. split; [|done].
      rewrite lookup_insert_ne; [done|]. congruence.
  - intros s. rewrite source_count_insert_new by done. cbn. case_bool_decide as Hs.
    + subst s. rewrite lookup_insert_eq. pose proof (source_count_nonneg (by_locator self) src).
      destruct (Z.eqb_spec (source_count (by_locator self) src + 1) 0); [lia|done].
    + rewrite lookup_insert_ne, Z.add_0_r by done. apply Hsrc.
  - unfold len in *. cbn. rewrite map_size_insert_None by done. lia.
  - intros s. rewrite source_count_insert_new by done. cbn. pose proof (Hpe s).
    case_bool_decide; [subst; lia|lia].
  - intros l m [[-> <-]|[Hne Hm]]%lookup_insert_Some Hp; cbn; [done|]. by apply (Hact l).
Qed.

(** ** Probing *)

Fixpoint probe_path (fuel : nat) (candidate : Locator.t) : list Locator.t :=
  match fuel with O => [] | S f => candidate :: probe_path f (Locator.wrapping_next candidate) end.

Lemma probe_path_elem fuel c l :
  Locator.wf c -> l ∈ probe_path fuel c ->
  Locator.wf l /\ exists j, (j < fuel)%nat /\ Locator.get l = (Locator.get c + Z.of_nat j) mod Locator.SPACE.
Proof.
  revert c. induction fuel as [|f IH]; intros c Hc; cbn [probe_path]; [by intros ?%not_elem_of_nil|].
  assert (Hs : LOCATOR_MAX = Locator.SPACE - 1) by done. assert (0 < Locator.SPACE) by done.
  intros [->|Hin]%elem_of_cons.
  - split; [done|]. exists 0%nat. split; [lia|]. unfold Locator.wf in Hc. rewrite Z.mod_small; lia.
  - destruct (IH _ (locator_wrapping_next_wf c Hc) Hin) as (Hw & j & Hj & Hg). split; [done|].
    exists (S j). split; [lia|]. rewrite Hg, locator_wrapping_next_spec by done.
    rewrite Z.add_mod_idemp_l by lia. f_equal. lia.
Qed.

Lemma probe_path_nodup fuel c :
  Locator.wf c -> Z.of_nat fuel <= Locator.SPACE -> NoDup (probe_path fuel c).
Proof.
  revert c. induction fuel as [|f IH]; intros c Hc Hf; cbn [probe_path]; constructor.
  - intros Hin. destruct (probe_path_elem f _ c (locator_wrapping_next_wf c Hc) Hin) as (_ & j & Hj & Hg).
    rewrite locator_wrapping_next_spec, Z.add_mod_idemp_l in Hg by done.
    unfold Locator.wf in Hc. change LOCATOR_MAX with (Locator.SPACE - 1) in Hc.
    assert (0 < Locator.SPACE) by done. generalize dependent (Locator.get c). intros v Hv Hg.
    clear IH. generalize dependent Locator.SPACE. intros n Hf Hn Hv Hg.
    pose proof (Z.div_mod (v + 1 + Z.of_nat j) n ltac:(lia)) as Hdm.
    assert (Hq : n * ((v + 1 + Z.of_nat j) / n) = 1 + Z.of_nat j) by lia.
    clear Hg Hdm. destruct (Z.le_gt_cases ((v + 1 + Z.of_nat j) / n) 0); nia.
  - apply IH; [by apply locator_wrapping_next_wf|lia].
Qed.

Lemma probe_none fuel t c : probe fuel t c = None -> forall l, l ∈ probe_path fuel c -> is_Some (t !! l).
Proof.
  revert c. induction fuel as [|f IH]; intros c; cbn; [by intros _ l ?%not_elem_of_nil|].
  destruct (t !! c) eqn:E; [|done]. intros Hp l [->|Hin]%elem_of_cons; [by eexists|eauto].
Qed.

(** One probe more than the table has entries finds a free locator. *)
Lemma probe_total (t : gmap Locator.t Mapping) c :
  Locator.wf c -> Z.of_nat (size t) < Locator.SPACE -> is_Some (probe (S (size t)) t c).
Proof.
  intros Hc Hs. destruct (probe (S (size t)) t c) eqn:E; [by eexists|]. exfalso.
  pose proof (probe_none _ _ _ E) as Hall.
  pose proof (probe_path_nodup (S (size t)) c Hc ltac:(lia)) as Hnd.
  assert (Hsub : (list_to_set (probe_path (S (size t)) c) : gset Locator.t) ⊆ dom t).
  { intros l Hl%elem_of_list_to_set. apply elem_of_dom, Hall, Hl. }
  apply subseteq_size in Hsub. rewrite size_list_to_set, size_dom in Hsub by done.
  assert (forall f c, length (probe_path f c) = f) as Hlen by (induction f; cbn; auto).
  rewrite Hlen in Hsub. lia.
Qed.

(** What it finds: the first free locator at or after the start, around the ring. *)
Definition first_free (t : gmap Locator.t Mapping) (c l : Locator.t) : Prop :=
  t !! l = None /\ exists k, Nat.iter k Locator.wrapping_next c = l /\
    forall j, (j < k)%nat -> is_Some (t !! Nat.iter j Locator.wrapping_next c).

Lemma probe_some fuel t c l : Locator.wf c -> probe fuel t c = Some l -> Locator.wf l /\ first_free t c l.
Proof.
  revert c. induction fuel as [|f IH]; intros c Hc; cbn; [done|].
  destruct (t !! c) as [m|] eqn:E.
  - intros Hp. destruct (IH _ (locator_wrapping_next_wf c Hc) Hp) as (Hw & Hn & k & Hk & Hall).
    split; [done|]. split; [done|]. exists (S k). split; [by rewrite Nat.iter_succ_r|].
    intros [|j] Hj; [by eexists|]. rewrite Nat.iter_succ_r. apply Hall. lia.
  - intros [= <-]. split; [done|]. split; [done|]. exists 0%nat. split; [done|]. lia.
Qed.

(** ** Refreshing *)

(** The table with that state for every mapping of [peer]. *)
Definition refreshed (available : bool) (peer : PeerId) (now : MonotonicTime.t)
    (table : gmap Locator.t Mapping) : gmap Locator.t Mapping :=
  (fun m => if bool_decide (owner m = peer)
            then MkMapping (owner m) (source m) (next_state available now (state m)) else m) <$> table.

Lemma inv_on_weaken (P Q : PeerId -> Prop) self : (forall p, Q p -> P p) -> inv_on P self -> inv_on Q self.
Proof. intros HPQ []. split; eauto. Qed.

(** Replacing the state of one mapping keeps the indexes; only [Active] is at stake. *)
Lemma update_state_inv peer self loc m now :
  inv_on (fun p => p <> peer) self -> by_owner self !! peer = Some loc ->
  by_locator self !! loc = Some m -> owner m = peer ->
  registry_inv (set_indexes self
    (<[loc := MkMapping (owner m) (source m) (next_state (is_available self peer) now (state m))]>
       (by_locator self)) (by_owner self) (by_source self)).
Proof.
  intros [Hl Hk Ho Hloc Hsrc Hcap Hper Hact] Hp Hm Hown.
  set (m' := MkMapping (owner m) (source m) (next_state (is_available self peer) now (state m))).
  assert (Hsc : forall s, source_count (<[loc := m']> (by_locator self)) s = source_count (by_locator self) s)
    by (intros s; by apply (source_count_update _ _ m)).
  split; cbn.
  - done.
  - intros l x [[<- _]|[_ Hx]]%lookup_insert_Some; eauto.
  - intros l x [[<- <-]|[_ Hx]]%lookup_insert_Some; cbn; [|eauto]. rewrite Hown. done.
  - intros p l Hpl. destruct (Hloc _ _ Hpl) as (x & Hx & <-). destruct (decide (l = loc)) as [->|Hne].
    + eexists. split; [apply lookup_insert_eq|]. cbn. congruence.
    + exists x. by rewrite lookup_insert_ne.
  - intros s. rewrite Hsc. apply Hsrc.
  - unfold len in *. cbn. rewrite map_size_insert_Some by (by eexists). done.
  - intros s. rewrite Hsc. apply Hper.
  - intros l x [[<- <-]|[Hne Hx]]%lookup_insert_Some _; cbn.
    + rewrite Hown. unfold is_available at 2. cbn. fold (is_available self peer).
      destruct (is_available self peer); [done|]. cbn. by destruct (state m).
    + apply (Hact l x Hx). intros Heq. apply Ho in Hx. congruence.
Qed.

Lemma refresh_spec peer now1 now2 self :
  inv_on (fun p => p <> peer) self ->
  exists self', refresh peer now1 now2 self = (Ok tt, self') /\ registry_inv self' /\
    same_frame self self' /\
    by_locator self' = refreshed (is_available self peer) peer now2 (pruned now1 (by_locator self)).
Proof.
  intros Hinv. destruct (prune_spec _ now1 self Hinv) as (s1 & H1 & Hi1 & Hf1 & Hb1).
  unfold refresh, bind at 1. rewrite H1. unfold bind, get, ret, put. rewrite <- Hb1.
  rewrite <- (same_frame_available _ _ peer Hf1).
  destruct (by_owner s1 !! peer) as [loc|] eqn:Hp.
  - destruct (inv_locator _ _ Hi1 _ _ Hp) as (m & Hm & Hown). rewrite Hm. eexists. split; [reflexivity|].
    split; [exact (update_state_inv peer s1 loc m now2 Hi1 Hp Hm Hown)|]. split; [done|]. cbn. apply map_eq. intros k.
    unfold refreshed. rewrite lookup_fmap. destruct (decide (k = loc)) as [->|Hne].
    + rewrite lookup_insert_eq, Hm. cbn. by rewrite bool_decide_eq_true_2.
    + rewrite lookup_insert_ne by done. destruct (by_locator s1 !! k) as [x|] eqn:Hx; [|done].
      cbn. rewrite bool_decide_eq_false_2; [done|]. intros Heq.
      apply (inv_owner _ _ Hi1) in Hx. congruence.
  - assert (Hnone : forall k m, by_locator s1 !! k = Some m -> owner m <> peer).
    { intros k m Hk Heq. apply (inv_owner _ _ Hi1) in Hk. congruence. }
    exists s1. split; [reflexivity|]. split; [|split; [done|]].
    + destruct Hi1. split; eauto.
    + apply map_eq. intros k. unfold refreshed. rewrite lookup_fmap.
      destruct (by_locator s1 !! k) as [x|] eqn:Hx; [|done]. cbn.
      rewrite bool_decide_eq_false_2; [done|eauto].
Qed.

(** ** Operations on the table *)

(** [p] owns [loc] in the table. *)
Definition owns (table : gmap Locator.t Mapping) (p : PeerId) (loc : Locator.t) : Prop :=
  exists m, table !! loc = Some m /\ owner m = p.

Definition at_capacity (self : Registry) (table : gmap Locator.t Mapping) (src : SourcePrefix) : Prop :=
  Z.of_nat (size table) = RegistrationCapacity.get (RegistrationLimits.capacity (limits self)) \/
  source_count table src = SourceRegistrationCapacity.get (RegistrationLimits.per_source (limits self)).

Lemma by_owner_owns P self p loc : inv_on P self -> by_owner self !! p = Some loc <-> owns (by_locator self) p loc.
Proof.
  intros Hinv. split; [apply (inv_locator _ _ Hinv)|]. intros (m & Hm & <-). by apply (inv_owner _ _ Hinv).
Qed.

Lemma by_owner_none P self p :
  inv_on P self -> by_owner self !! p = None -> forall loc, ~ owns (by_locator self) p loc.
Proof. intros Hinv Hn loc Ho. apply (by_owner_owns P self p loc Hinv) in Ho. congruence. Qed.

Lemma no_capacity self src :
  registry_inv self -> has_capacity self src = false -> at_capacity self (by_locator self) src.
Proof.
  intros Hinv Hc. pose proof (inv_capacity _ _ Hinv). pose proof (inv_per_source _ _ Hinv src).
  assert (Hd : default 0 (by_source self !! src) = source_count (by_locator self) src).
  { rewrite (inv_source _ _ Hinv). destruct (Z.eqb_spec (source_count (by_locator self) src) 0); done. }
  unfold has_capacity in Hc. rewrite Hd in Hc. unfold at_capacity, len in *.
  apply andb_false_iff in Hc as [Hc%Z.ltb_ge|Hc%Z.ltb_ge]; [left|right]; lia.
Qed.

Lemma size_below_space self : registry_inv self -> Z.of_nat (size (by_locator self)) < Locator.SPACE.
Proof.
  intros Hinv. pose proof (inv_capacity _ _ Hinv) as Hc. pose proof (inv_limits _ _ Hinv) as [Hl _].
  unfold RegistrationCapacity.wf, RegistrationCapacity.MAX, len in *. change Locator.SPACE with 1048576. lia.
Qed.

Definition allocate_post {R} `{SecureRandom R} (self self' : Registry) (own : PeerId) (src : SourcePrefix)
    (now : MonotonicTime.t) (random : R) (result : res RegistryError (RegistryResponse.t * R)) : Prop :=
  let t := pruned now (by_locator self) in
  match result with
  | Ok (RegistryResponse.ReservationRequired, r) =>
      is_available self own = false /\ by_locator self' = t /\ r = random
  | Ok (RegistryResponse.Acquired l, r) =>
      is_available self own = true /\
      ((owns t own l /\ by_locator self' = t /\ r = random) \/
       ((forall l', ~ owns t own l') /\ ~ at_capacity self t src /\
        exists c, Locator.random random = (Ok c, r) /\ first_free t c l /\
          by_locator self' = <[l := MkMapping own src Active]> t))
  | Ok (RegistryResponse.Capacity, r) =>
      is_available self own = true /\ (forall l, ~ owns t own l) /\ at_capacity self t src /\
      by_locator self' = t /\ r = random
  | Err (Random e) =>
      is_available self own = true /\ (forall l, ~ owns t own l) /\ by_locator self' = t /\
      exists r, Locator.random random = (Err e, r)
  | _ => False
  end.

Lemma allocate_lemma {R} `{SecureRandomLaws R} self own src now (random : R) :
  registry_inv self ->
  let '(result, self') := allocate own src now random self in
  registry_inv self' /\ same_frame self self' /\ allocate_post self self' own src now random result.
Proof.
  intros Hinv. destruct (prune_spec _ now self Hinv) as (s1 & H1' & Hi1 & Hf1 & Hb1).
  unfold allocate, bind at 1. rewrite H1'. unfold bind at 1, get.
  unfold allocate_post. rewrite <- Hb1, <- (same_frame_available _ _ own Hf1).
  assert (Hat : forall t, at_capacity self t src <-> at_capacity s1 t src)
    by (intros t; destruct Hf1 as (Hl & _); unfold at_capacity; by rewrite Hl).
  destruct (is_available s1 own) eqn:Hav; cbn [negb]; [|done].
  destruct (by_owner s1 !! own) as [loc|] eqn:Ho.
  { cbn. split_and!; [done..|]. left. split_and!; [|done..]. by apply (by_owner_owns _ _ _ _ Hi1). }
  pose proof (by_owner_none _ _ _ Hi1 Ho) as Hno.
  destruct (has_capacity s1 src) eqn:Hcap; cbn [negb].
  2:{ cbn. split_and!; [done..| |done|done]. apply Hat. by apply no_capacity. }
  pose proof (locator_random_wf random) as Hr. destruct (Locator.random random) as [[c|e|] r'] eqn:Hrand; [| |done].
  - destruct (probe_total (by_locator s1) c Hr (size_below_space _ Hi1)) as [l Hl]. rewrite Hl.
    destruct (probe_some _ _ _ _ Hr Hl) as [Hwf Hff].
    destruct (insert_spec s1 l own src Hi1 Hwf (proj1 Hff) Ho Hcap Hav) as (s2 & H2' & Hi2 & Hf2 & Hb2).
    unfold bind. rewrite H2'. cbn. split_and!; [done|by eapply same_frame_trans|done|]. right.
    split_and!; [done| |by exists c].
    rewrite Hat. destruct (has_capacity_facts _ _ _ Hi1 Hcap) as (Hc1 & Hc2 & _).
    unfold at_capacity, len in *. lia.
  - cbn. split_and!; [done..|]. by exists r'.
Qed.

Definition reclaim_post (self self' : Registry) (own : PeerId) (src : SourcePrefix) (loc : Locator.t)
    (now : MonotonicTime.t) (result : res RegistryError RegistryResponse.t) : Prop :=
  let t := pruned now (by_locator self) in
  match result with
  | Ok RegistryResponse.ReservationRequired => is_available self own = false /\ by_locator self' = t
  | Ok (RegistryResponse.Acquired l) =>
      l = loc /\ is_available self own = true /\
      ((owns t own loc /\ by_locator self' = t) \/
       ((forall l', ~ owns t own l') /\ t !! loc = None /\ ~ at_capacity self t src /\
        by_locator self' = <[loc := MkMapping own src Active]> t))
  | Ok RegistryResponse.Conflict =>
      is_available self own = true /\ by_locator self' = t /\
      ((exists l, owns t own l /\ l <> loc) \/
       ((forall l, ~ owns t own l) /\ exists p, owns t p loc))
  | Ok RegistryResponse.Capacity =>
      is_available self own = true /\ by_locator self' = t /\ (forall l, ~ owns t own l) /\
      t !! loc = None /\ at_capacity self t src
  | _ => False
  end.

Lemma reclaim_lemma self own src loc now :
  registry_inv self -> Locator.wf loc ->
  let '(result, self') := reclaim own src loc now self in
  registry_inv self' /\ same_frame self self' /\ reclaim_post self self' own src loc now result.
Proof.
  intros Hinv Hwf. destruct (prune_spec _ now self Hinv) as (s1 & H1' & Hi1 & Hf1 & Hb1).
  unfold reclaim, bind at 1. rewrite H1'. unfold bind at 1, get.
  unfold reclaim_post. rewrite <- Hb1, <- (same_frame_available _ _ own Hf1).
  assert (Hat : forall t, at_capacity self t src <-> at_capacity s1 t src)
    by (intros t; destruct Hf1 as (Hl & _); unfold at_capacity; by rewrite Hl).
  destruct (is_available s1 own) eqn:Hav; cbn [negb]; [|done].
  destruct (by_owner s1 !! own) as [l0|] eqn:Ho.
  { pose proof (proj1 (by_owner_owns _ _ _ _ Hi1) Ho) as Hown. unfold ret.
    case_bool_decide as Hl; [subst l0|]; split_and!; try done; [by left|left; eauto]. }
  pose proof (by_owner_none _ _ _ Hi1 Ho) as Hno. case_bool_decide as Hl.
  { destruct Hl as [m Hm]. cbn. split_and!; [done..|]. right. split; [done|]. by exists (owner m), m. }
  apply eq_None_not_Some in Hl.
  destruct (has_capacity s1 src) eqn:Hcap; cbn [negb].
  2:{ cbn. split_and!; [done..|]. apply Hat. by apply no_capacity. }
  destruct (insert_spec s1 loc own src Hi1 Hwf Hl Ho Hcap Hav) as (s2 & H2' & Hi2 & Hf2 & Hb2).
  unfold bind. rewrite H2'. cbn. split_and!; [done|by eapply same_frame_trans|done|done|]. right.
  split_and!; [done|done| |done].
  rewrite Hat. destruct (has_capacity_facts _ _ _ Hi1 Hcap) as (Hc1 & Hc2 & _).
  unfold at_capacity, len in *. lia.
Qed.

Lemma release_lemma self own loc now :
  registry_inv self ->
  exists self', release own loc now self = (Ok RegistryResponse.Released, self') /\
    registry_inv self' /\ same_frame self self' /\
    ((owns (pruned now (by_locator self)) own loc /\
      by_locator self' = delete loc (pruned now (by_locator self))) \/
     (~ owns (pruned now (by_locator self)) own loc /\
      by_locator self' = pruned now (by_locator self))).
Proof.
  intros Hinv. destruct (prune_spec _ now self Hinv) as (s1 & H1' & Hi1 & Hf1 & Hb1).
  unfold release, bind at 1. rewrite H1'. unfold bind at 1, get. rewrite <- Hb1.
  case_bool_decide as Ho.
  - destruct (remove_spec _ s1 loc Hi1) as (s2 & H2' & Hi2 & Hf2 & Hb2).
    unfold bind. rewrite H2'. cbn. eexists. split; [reflexivity|].
    split_and!; [done|by eapply same_frame_trans|]. left. split; [|done].
    by apply (by_owner_owns _ _ _ _ Hi1).
  - cbn. eexists. split; [reflexivity|]. split_and!; [done..|]. right. split; [|done].
    by rewrite <- (by_owner_owns _ _ _ _ Hi1).
Qed.

Lemma set_reservation_lemma self peer available now1 now2 :
  registry_inv self ->
  let res' := set_membership (reservations self) peer available in
  exists self', set_reservation peer available now1 now2 self = (Ok tt, self') /\
    registry_inv self' /\ same_frame (set_reservations self res') self' /\
    by_locator self' = refreshed (bool_decide (peer ∈ res') && bool_decide (peer ∈ connections self))
      peer now2 (pruned now1 (by_locator self)).
Proof.
  intros Hinv res'. unfold set_reservation, bind, get, put. fold res'.
  assert (Hi : inv_on (fun p => p <> peer) (set_reservations self res')).
  { destruct Hinv as [Hl Hk Ho Hloc Hsrc Hcap Hper Hact]. split; cbn; try done.
    intros l m Hm Hp. rewrite (Hact l m Hm I). unfold is_available. cbn.
    rewrite (bool_decide_ext (owner m ∈ res') (owner m ∈ reservations self)); [done|].
    unfold res', set_membership. destruct available; set_solver. }
  destruct (refresh_spec peer now1 now2 _ Hi) as (s' & Hr & Hi' & Hf & Hb). exists s'. done.
Qed.

Lemma set_connection_lemma self peer available now1 now2 :
  registry_inv self ->
  let con' := set_membership (connections self) peer available in
  exists self', set_connection peer available now1 now2 self = (Ok tt, self') /\
    registry_inv self' /\ same_frame (set_connections self con') self' /\
    by_locator self' = refreshed (bool_decide (peer ∈ reservations self) && bool_decide (peer ∈ con'))
      peer now2 (pruned now1 (by_locator self)).
Proof.
  intros Hinv con'. unfold set_connection, bind, get, put. fold con'.
  assert (Hi : inv_on (fun p => p <> peer) (set_connections self con')).
  { destruct Hinv as [Hl Hk Ho Hloc Hsrc Hcap Hper Hact]. split; cbn; try done.
    intros l m Hm Hp. rewrite (Hact l m Hm I). unfold is_available. cbn.
    rewrite (bool_decide_ext (owner m ∈ con') (owner m ∈ connections self)); [done|].
    unfold con', set_membership. destruct available; set_solver. }
  destruct (refresh_spec peer now1 now2 _ Hi) as (s' & Hr & Hi' & Hf & Hb). exists s'. done.
Qed.

Lemma resolve_lemma `{!PeerIdApi PeerId, !PeerIdLaws PeerId} self loc now :
  registry_inv self ->
  let '(result, self') := resolve loc now self in
  registry_inv self' /\ same_frame self self' /\ by_locator self' = pruned now (by_locator self) /\
  match result with
  | Ok (ResolveResponse.Resolved peer) => exists m, by_locator self !! loc = Some m /\
      is_available self (owner m) = true /\ PeerIdBytes.as_bytes peer = peer_to_bytes (owner m)
  | Ok (ResolveResponse.Retry after) => after = retry_after self /\ exists m since,
      by_locator self !! loc = Some m /\ state m = Suspended since /\ is_expired now m = false
  | Ok ResolveResponse.Unavailable =>
      by_locator self !! loc = None \/
      exists m, by_locator self !! loc = Some m /\ is_expired now m = true
  | Err _ | Panic => False
  end.
Proof.
  intros Hinv. destruct (prune_spec _ now self Hinv) as (s1 & H1' & Hi1 & Hf1 & Hb1).
  unfold resolve, bind at 1. rewrite H1'. unfold bind, get.
  destruct (by_locator s1 !! loc) as [m|] eqn:Hm.
  - pose proof Hm as Hm'. rewrite Hb1 in Hm'. apply map_lookup_filter_Some in Hm' as [Hm0 He]. cbn in He.
    destruct (state m) as [|since] eqn:Hst.
    + destruct (peer_to_bytes_len (owner m)) as [Hbytes Hlen].
      pose proof (proj2 (peer_id_new_ok (peer_to_bytes (owner m)) _) (conj Hlen eq_refl)) as Hp.
      destruct (peer_id_new_wf _ _ Hbytes Hp) as [_ Has]. unfold bounded_peer_id. rewrite Hp. cbn [map_err fmap res_fmap]. split_and!; [done..|].
      exists m. split_and!; [done| |done]. apply (inv_active _ _ Hinv loc m Hm0 I). done.
    + cbn. split_and!; [done..| |by exists m, since]. apply Hf1.
  - cbn. split_and!; [done..|]. rewrite Hb1 in Hm. apply map_lookup_filter_None in Hm as [Hm|Hm]; [by left|].
    destruct (by_locator self !! loc) as [m|] eqn:Hm0; [|by left]. right. exists m. split; [done|].
    specialize (Hm m eq_refl). cbn in Hm. by destruct (is_expired now m).
Qed.

(** ** Properties *)

(** The calls the relay makes, with the clock readings each of them takes. *)
Inductive step {R} `{SecureRandom R} `{!PeerIdApi PeerId} : Registry -> Registry -> Prop :=
| step_reservation self peer b now1 now2 :
    step self (set_reservation peer b now1 now2 self).2
| step_connection self peer b now1 now2 :
    step self (set_connection peer b now1 now2 self).2
| step_allocate self own src now (random : R) : step self (allocate own src now random self).2
| step_reclaim self own src loc now : Locator.wf loc -> step self (reclaim own src loc now self).2
| step_release self own loc now : step self (release own loc now self).2
| step_resolve self loc now : step self (resolve loc now self).2.

Lemma registry_inv_init lim retry : RegistrationLimits.wf lim -> registry_inv (with_limits lim retry).
Proof.
  intros Hl. pose proof Hl as (Hc & Hs & _). unfold RegistrationCapacity.wf, SourceRegistrationCapacity.wf in *.
  assert (Hz : forall s, source_count ∅ s = 0) by (intros s; unfold source_count; by rewrite map_filter_empty).
  split; unfold len; cbn [with_limits by_locator by_owner by_source limits]; try done.
  - rewrite map_size_empty. lia.
  - intros s. rewrite Hz. lia.
Qed.

Lemma registry_step_inv {R} `{SecureRandomLaws R} `{!PeerIdApi PeerId, !PeerIdLaws PeerId} self self' :
  step (R:=R) self self' -> registry_inv self -> registry_inv self' /\ limits self' = limits self.
Proof.
  intros Hstep Hinv. destruct Hstep as [self p b n1 n2|self p b n1 n2|self o s n r|self o s l n Hl|self o l n|self l n].
  - destruct (set_reservation_lemma self p b n1 n2 Hinv) as (s' & -> & Hi & Hf & _). split; [done|apply Hf].
  - destruct (set_connection_lemma self p b n1 n2 Hinv) as (s' & -> & Hi & Hf & _). split; [done|apply Hf].
  - pose proof (allocate_lemma self o s n r Hinv) as Ha. destruct (allocate o s n r self) as [? s'].
    destruct Ha as (? & Hf & _). split; [done|apply Hf].
  - pose proof (reclaim_lemma self o s l n Hinv Hl) as Ha. destruct (reclaim o s l n self) as [? s'].
    destruct Ha as (? & Hf & _). split; [done|apply Hf].
  - destruct (release_lemma self o l n Hinv) as (s' & -> & Hi & Hf & _). split; [done|apply Hf].
  - pose proof (resolve_lemma self l n Hinv) as Ha. destruct (resolve l n self) as [? s'].
    destruct Ha as (? & Hf & _). split; [done|apply Hf].
Qed.

Lemma registry_reachable_inv {R} `{SecureRandomLaws R} `{!PeerIdApi PeerId, !PeerIdLaws PeerId} lim retry self :
  RegistrationLimits.wf lim -> rtc (step (R:=R)) (with_limits lim retry) self ->
  registry_inv self /\ limits self = lim.
Proof.
  intros Hl Hr. revert Hr. generalize (registry_inv_init lim retry Hl). intros Hi Hr.
  assert (Hg : forall a b, rtc (step (R:=R)) a b -> registry_inv a -> registry_inv b /\ limits b = limits a).
  { induction 1 as [a|a b c Hab _ IH]; [done|]. intros Ha.
    destruct (registry_step_inv a b Hab Ha) as [Hb Hlb]. destruct (IH Hb) as [Hc ->]. done. }
  destruct (Hg _ _ Hr Hi) as [? ->]. done.
Qed.

Section Properties.
Context {R : Type} `{SecureRandomLaws R} `{!PeerIdApi PeerId, !PeerIdLaws PeerId}.

(** C1: The registry's invariant, on every registry that any sequence of calls reaches
    from an empty one with validated limits: each locator has one owner and each owner
    one locator, the owner index is the inverse of the table, the table and each source
    prefix stay within their limits, the per-source counter is the number of its
    mappings, and a mapping is [Active] exactly while its owner has both a reservation
    and a connection. *)
Theorem registry_invariant lim retry self :
  RegistrationLimits.wf lim -> rtc (step (R:=R)) (with_limits lim retry) self ->
  (forall p loc, by_owner self !! p = Some loc <-> owns (by_locator self) p loc) /\
  (forall p l1 l2, owns (by_locator self) p l1 -> owns (by_locator self) p l2 -> l1 = l2) /\
  len self <= RegistrationCapacity.get (RegistrationLimits.capacity lim) /\
  (forall s, source_count (by_locator self) s <=
     SourceRegistrationCapacity.get (RegistrationLimits.per_source lim)) /\
  (forall s, default 0 (by_source self !! s) = source_count (by_locator self) s) /\
  (forall loc m, by_locator self !! loc = Some m ->
     state m = Active <-> owner m ∈ reservations self /\ owner m ∈ connections self).
Proof.
  intros Hl Hr. destruct (registry_reachable_inv lim retry self Hl Hr) as [Hinv <-].
  split_and!.
  - intros p loc. by eapply by_owner_owns.
  - intros p l1 l2 H3%(by_owner_owns _ _ _ _ Hinv) H4%(by_owner_owns _ _ _ _ Hinv). congruence.
  - apply (inv_capacity _ _ Hinv).
  - apply (inv_per_source _ _ Hinv).
  - intros s. rewrite (inv_source _ _ Hinv).
    by destruct (Z.eqb_spec (source_count (by_locator self) s) 0).
  - intros loc m Hm. rewrite (inv_active _ _ Hinv loc m Hm I). unfold is_available.
    by rewrite andb_true_iff, !bool_decide_eq_true.
Qed.

(** C2: [allocate], on every reachable registry and for every clock reading and random
    source: it never panics and its probing loop ends; without reservation and
    connection the answer is [ReservationRequired]; an owner keeps its locator; a full
    table or source answers [Capacity]; otherwise the new locator is the first free one
    from the random start around the 20-bit ring, and the table gains exactly that
    active mapping.  Every answer prunes what has been suspended too long. *)
Theorem registry_allocate_spec lim retry self own src now (random : R) :
  RegistrationLimits.wf lim -> rtc (step (R:=R)) (with_limits lim retry) self ->
  let '(result, self') := allocate own src now random self in
  result <> Panic /\ allocate_post self self' own src now random result.
Proof.
  intros Hl Hr. destruct (registry_reachable_inv lim retry self Hl Hr) as [Hinv _].
  pose proof (allocate_lemma self own src now random Hinv) as Ha.
  destruct (allocate own src now random self) as [result self']. destruct Ha as (_ & _ & Ha).
  split; [|done]. by intros ->.
Qed.

(** [reclaim] and [release], on every reachable registry: reclaiming gives back only
    the caller's own locator or a free one within the limits, never one that another
    owner holds; releasing deletes exactly the caller's mapping and is otherwise
    without effect. *)
Theorem registry_reclaim_release_spec lim retry self own src loc now :
  RegistrationLimits.wf lim -> rtc (step (R:=R)) (with_limits lim retry) self -> Locator.wf loc ->
  reclaim_post self (reclaim own src loc now self).2 own src loc now (reclaim own src loc now self).1 /\
  (release own loc now self).1 = Ok RegistryResponse.Released /\
  (forall l, by_locator (release own loc now self).2 !! l =
     if bool_decide (l = loc /\ by_owner (prune now self).2 !! own = Some loc) then None
     else pruned now (by_locator self) !! l).
Proof.
  intros Hl Hr Hwf. destruct (registry_reachable_inv lim retry self Hl Hr) as [Hinv _].
  pose proof (reclaim_lemma self own src loc now Hinv Hwf) as Ha.
  destruct (reclaim own src loc now self) as [result self']. destruct Ha as (_ & _ & Ha).
  destruct (release_lemma self own loc now Hinv) as (s2 & -> & _ & _ & Hb).
  destruct (prune_spec _ now self Hinv) as (s1 & Hp & Hi1 & _ & Hb1). rewrite Hp. cbn [fst snd].
  split_and!; [done..|]. intros l. rewrite <- Hb1 in *. destruct Hb as [[Ho ->]|[Ho ->]].
  - apply (by_owner_owns _ _ _ _ Hi1) in Ho. destruct (decide (l = loc)) as [->|Hne].
    + by rewrite lookup_delete_eq, bool_decide_eq_true_2.
    + rewrite lookup_delete_ne by done. by rewrite bool_decide_eq_false_2 by naive_solver.
  - rewrite bool_decide_eq_false_2; [done|]. intros [_ Hx]. apply Ho.
    by apply (by_owner_owns _ _ _ _ Hi1).
Qed.

(** [resolve], on every reachable registry: the answer is the serialised owner exactly
    of a mapping whose owner has reservation and connection at this moment, [Retry] with
    the configured delay while a mapping is suspended for less than the grace period,
    and [Unavailable] when there is none or its grace period is over; it never fails. *)
Theorem registry_resolve_spec lim retry self loc now :
  RegistrationLimits.wf lim -> rtc (step (R:=R)) (with_limits lim retry) self ->
  (resolve loc now self).1 =
  match by_locator self !! loc with
  | None => Ok ResolveResponse.Unavailable
  | Some m =>
    match state m with
    | Active => ResolveResponse.Resolved <$> bounded_peer_id (peer_to_bytes (owner m))
    | Suspended since =>
      if (MonotonicTime.elapsed since <=? MonotonicTime.elapsed now) &&
         (MonotonicTime.elapsed since + 120 * 1000000000 <=? MonotonicTime.elapsed now)
      then Ok ResolveResponse.Unavailable else Ok (ResolveResponse.Retry (retry_after self))
    end
  end /\
  (forall m, by_locator self !! loc = Some m -> state m = Active ->
     is_available self (owner m) = true /\
     exists peer, bounded_peer_id (peer_to_bytes (owner m)) = Ok peer /\
       PeerIdBytes.as_bytes peer = peer_to_bytes (owner m)).
Proof.
  intros Hl Hr. destruct (registry_reachable_inv lim retry self Hl Hr) as [Hinv _]. split.
  - destruct (prune_spec _ now self Hinv) as (s1 & H1' & Hi1 & (_ & Hf1 & _) & Hb1).
    unfold resolve, bind at 1. rewrite H1'. unfold bind, get. rewrite Hb1. unfold pruned.
    destruct (by_locator self !! loc) as [m|] eqn:Hm.
    + destruct (is_expired now m) eqn:He.
      * rewrite (proj2 (map_lookup_filter_None _ _ _))
          by (right; intros m' Hm'; rewrite Hm in Hm'; injection Hm' as <-; cbn; by rewrite He).
        unfold is_expired, MonotonicTime.duration_since in He. destruct (state m) as [|since]; [done|].
        destruct (Z.leb_spec (MonotonicTime.elapsed since) (MonotonicTime.elapsed now)); [|done].
        change SUSPEND_GRACE with (120 * 1000000000) in He. apply Z.leb_le in He.
        cbn [andb]. rewrite (proj2 (Z.leb_le _ _)) by lia. done.
      * rewrite (proj2 (map_lookup_filter_Some _ _ _ m)) by done.
        unfold is_expired, MonotonicTime.duration_since in He. destruct (state m) as [|since] eqn:Hst; [done|].
        cbn. rewrite Hf1. destruct (Z.leb_spec (MonotonicTime.elapsed since) (MonotonicTime.elapsed now)); [|done].
        change SUSPEND_GRACE with (120 * 1000000000) in He. apply Z.leb_gt in He.
        cbn [andb]. rewrite (proj2 (Z.leb_gt _ _)) by lia. done.
    + rewrite (proj2 (map_lookup_filter_None _ _ _)) by (by left). done.
  - intros m Hm Hst. split; [by apply (inv_active _ _ Hinv loc m Hm I)|].
    destruct (peer_to_bytes_len (owner m)) as [Hbytes Hlen].
    pose proof (proj2 (peer_id_new_ok (peer_to_bytes (owner m)) _) (conj Hlen eq_refl)) as Hp.
    destruct (peer_id_new_wf _ _ Hbytes Hp) as [_ Has]. unfold bounded_peer_id. rewrite Hp. by eexists.
Qed.
End Properties.
End Registry.

(** ** Witnesses *)

(** Peer ids and source prefixes as integers, a peer id serialised as one byte. *)
#[local] Instance example_peers : PeerIdApi Z := fun p => [as_u8 p].
#[local] Instance example_peer_laws : PeerIdLaws Z.
Proof.
  intros p. split; [|by vm_compute]. repeat constructor; unfold is_u8, as_u8; apply Z.mod_pos_bound; lia.
Qed.

Definition example_limits : RegistrationLimits.t :=
  RegistrationLimits.Mk (RegistrationCapacity.Mk 2) (SourceRegistrationCapacity.Mk 1)
    (ReservationDuration.Mk 3600).

Lemma example_limits_wf : RegistrationLimits.wf example_limits.
Proof. by vm_compute. Qed.

Definition seconds (n : Z) : MonotonicTime.t := MonotonicTime.Mk (from_secs n).

Definition example_empty : Registry (PeerId:=Z) (SourcePrefix:=Z) :=
  with_limits example_limits (RetryAfter.Mk 250).
Definition example_reserved := (set_reservation 7 true (seconds 0) (seconds 0) example_empty).2.
Definition example_connected := (set_connection 7 true (seconds 1) (seconds 1) example_reserved).2.
Definition example_allocated :=
  (allocate 7 100 (seconds 2) (Some 5 : FixedRandom) example_connected).2.
(** The owner's connection is lost at second 3. *)
Definition example_suspended := (set_connection 7 false (seconds 3) (seconds 3) example_allocated).2.

Lemma example_reachable :
  rtc (step (R:=FixedRandom)) example_empty example_connected /\
  rtc (step (R:=FixedRandom)) example_empty example_allocated /\
  rtc (step (R:=FixedRandom)) example_empty example_suspended.
Proof.
  assert (H1 : rtc (step (R:=FixedRandom)) example_empty example_connected).
  { apply rtc_l with example_reserved; [exact (step_reservation _ 7 true (seconds 0) (seconds 0))|].
    apply rtc_once. exact (step_connection _ 7 true (seconds 1) (seconds 1)). }
  assert (H2 : rtc (step (R:=FixedRandom)) example_empty example_allocated)
    by (eapply rtc_r; [exact H1|]; exact (step_allocate _ 7 100 (seconds 2) (Some 5 : FixedRandom))).
  split_and!; [exact H1|exact H2|]. eapply rtc_r; [exact H2|].
  exact (step_connection _ 7 false (seconds 3) (seconds 3)).
Qed.

Lemma registry_invariant_witness :
  len example_allocated = 1 /\ len example_allocated <= 2.
Proof.
  split; [vm_compute; reflexivity|].
  destruct (registry_invariant (R:=FixedRandom) example_limits (RetryAfter.Mk 250) example_allocated
    example_limits_wf (proj1 (proj2 example_reachable))) as (_ & _ & Hle & _). exact Hle.
Defined.

Lemma registry_allocate_spec_witness :
  (allocate 7 100 (seconds 2) (Some 5 : FixedRandom) example_connected).1 =
    Ok (RegistryResponse.Acquired (Locator.Mk 0x50505), Some 5) /\
  exists self', allocate_post example_connected self' 7 100 (seconds 2) (Some 5 : FixedRandom)
    (allocate 7 100 (seconds 2) (Some 5 : FixedRandom) example_connected).1.
Proof.
  split; [vm_compute; reflexivity|].
  pose proof (registry_allocate_spec (R:=FixedRandom) example_limits (RetryAfter.Mk 250)
    example_connected 7 100 (seconds 2) (Some 5) example_limits_wf (proj1 example_reachable)) as Ha.
  destruct (allocate 7 100 (seconds 2) _ example_connected) as [r self'].
  exists self'. exact (proj2 Ha).
Defined.

Lemma registry_reclaim_release_spec_witness :
  (release 7 (Locator.Mk 0x50505) (seconds 4) example_allocated).1 = Ok RegistryResponse.Released.
Proof.
  assert (Hwf : Locator.wf (Locator.Mk 0x50505)) by (by vm_compute).
  destruct (registry_reclaim_release_spec (R:=FixedRandom) example_limits (RetryAfter.Mk 250)
    example_allocated 7 100 (Locator.Mk 0x50505) (seconds 4) example_limits_wf
    (proj1 (proj2 example_reachable)) Hwf) as (_ & Hr & _). exact Hr.
Defined.

Lemma registry_resolve_spec_witness :
  (resolve (Locator.Mk 0x50505) (seconds 122) example_suspended).1 =
    Ok (ResolveResponse.Retry (RetryAfter.Mk 250)) /\
  (resolve (Locator.Mk 0x50505) (seconds 123) example_suspended).1 = Ok ResolveResponse.Unavailable.
Proof.
  split.
  - rewrite (proj1 (registry_resolve_spec (R:=FixedRandom) example_limits (RetryAfter.Mk 250)
      example_suspended (Locator.Mk 0x50505) (seconds 122) example_limits_wf
      (proj2 (proj2 example_reachable)))). vm_compute. reflexivity.
  - rewrite (proj1 (registry_resolve_spec (R:=FixedRandom) example_limits (RetryAfter.Mk 250)
      example_suspended (Locator.Mk 0x50505) (seconds 123) example_limits_wf
      (proj2 (proj2 example_reachable)))). vm_compute. reflexivity.
Defined.
