(* ===== verification/EnterpriseSession.v ===== *)
(** * The enterprise authentication session

    [EnterpriseResolveSession] of [crates/yon-relay/src/session.rs]: the single-use
    transaction between a connect request and the resolution of its locator.  Each
    guarded method is an operation that returns its result and the session after it. *)

From S2P Require Import Prelude Domain.
Open Scope Z_scope.

Definition SESSION_LIFETIME : Z := from_secs (10 * 60).

Module EnterpriseFailure.
Inductive t := Platform | UserRejected | InvalidState.
End EnterpriseFailure.

Module Phase.
Inductive t :=
| Created | ProviderSelection | Authenticating | Authenticated | Resolving
| Completed | Cancelled | Expired | Failed (failure : EnterpriseFailure.t) | Unavailable.

Definition is_terminal (self : t) : bool :=
  match self with Completed | Cancelled | Expired | Failed _ | Unavailable => true | _ => false end.
End Phase.

Inductive MemberAdmission := MemberAdmitted | MemberRejected.

Inductive TransitionError :=
| InvalidTransition | Terminal | InvalidState | InvalidIdentity | Random (e : RandomError).

#[export] Instance EnterpriseFailure_eq_dec : EqDecision EnterpriseFailure.t.
Proof. solve_decision. Defined.
#[export] Instance Phase_eq_dec : EqDecision Phase.t.
Proof. solve_decision. Defined.

Module OAuthState.
Record t := Mk { as_bytes : list Z }.
Definition LEN : Z := 32.

Definition generate {R} `{SecureRandom R} (random : R) : res TransitionError t * R :=
  match try_fill random LEN with
  | (Some bytes, random') => (Ok (Mk bytes), random')
  | (None, random') => (Err (Random RandomFailed), random')
  end.

Definition from_bytes (bytes : list Z) : res TransitionError t :=
  bytes ← ok_or (try_into_array LEN bytes) InvalidState; Ok (Mk bytes).
End OAuthState.

#[export] Instance OAuthState_eq_dec : EqDecision OAuthState.t.
Proof. solve_decision. Defined.

Module MemberIdentity.
Record t := Mk { buffer : list Z; len : Z }.
Definition MAX_LEN : Z := 256.

Definition new (bytes : list Z) : res TransitionError t :=
  if (zlen bytes =? 0) || (MAX_LEN <? zlen bytes) then Err InvalidIdentity
  else
    buffer ← copy_range (zeros MAX_LEN) 0 (zlen bytes) bytes;
    Ok (Mk buffer (as_u16 (zlen bytes))).

Definition as_bytes (self : t) : list Z := take (Z.to_nat (len self)) (buffer self).
End MemberIdentity.

Module EnterpriseResolveSession.
Record t := Mk {
  request_id : Z;
  locator : Locator.t;
  deadline : MonotonicTime.t;
  phase : Phase.t;
  provider : option EnterpriseProvider.t;
  oauth_state : option OAuthState.t;
  identity : option MemberIdentity.t;
  target_peer : option PeerIdBytes.t;
}.

Definition set_phase (self : t) (p : Phase.t) : t :=
  Mk (request_id self) (locator self) (deadline self) p (provider self) (oauth_state self)
     (identity self) (target_peer self).
Definition set_oauth_state (self : t) (o : option OAuthState.t) : t :=
  Mk (request_id self) (locator self) (deadline self) (phase self) (provider self) o
     (identity self) (target_peer self).
Definition set_identity (self : t) (i : option MemberIdentity.t) : t :=
  Mk (request_id self) (locator self) (deadline self) (phase self) (provider self)
     (oauth_state self) i (target_peer self).
Definition set_provider (self : t) (p : option EnterpriseProvider.t) : t :=
  Mk (request_id self) (locator self) (deadline self) (phase self) p (oauth_state self)
     (identity self) (target_peer self).
Definition set_target_peer (self : t) (p : option PeerIdBytes.t) : t :=
  Mk (request_id self) (locator self) (deadline self) (phase self) (provider self)
     (oauth_state self) (identity self) p.

Definition new (request_id : Z) (locator : Locator.t) (now : MonotonicTime.t) : t :=
  Mk request_id locator (default now (MonotonicTime.checked_add now SESSION_LIFETIME))
     Phase.Created None None None None.

Definition is_terminal (self : t) : bool := Phase.is_terminal (phase self).

Definition is_expired (self : t) (now : MonotonicTime.t) : bool :=
  MonotonicTime.elapsed (deadline self) <=? MonotonicTime.elapsed now.

Definition has_identity (self : t) : bool := bool_decide (is_Some (identity self)).

(** [forward]: the guard every phase-bound operation goes through. *)
Definition forward {A} (self : t) (expected : Phase.t) (transition : t -> res TransitionError A * t)
  : res TransitionError A * t :=
  if bool_decide (phase self <> expected) then (Err InvalidTransition, self) else transition self.

Definition wipe_enterprise_state (self : t) : t := set_oauth_state (set_identity self None) None.

Definition terminal (self : t) (p : Phase.t) : res TransitionError unit * t :=
  if Phase.is_terminal (phase self) then (Err Terminal, self)
  else (Ok tt, set_phase (wipe_enterprise_state self) p).

Definition offer_providers (self : t) : res TransitionError unit * t :=
  forward self Phase.Created (fun session => (Ok tt, set_phase session Phase.ProviderSelection)).

Definition select {R} `{SecureRandom R} (self : t) (p : EnterpriseProvider.t) (random : R)
  : res TransitionError OAuthState.t * t * R :=
  if bool_decide (phase self <> Phase.ProviderSelection)
  then (Err InvalidTransition, self, random)
  else
    match OAuthState.generate random with
    | (Ok state, random') =>
      (Ok state,
       set_phase (set_oauth_state (set_provider self (Some p)) (Some state)) Phase.Authenticating,
       random')
    | (Err e, random') => (Err e, self, random')
    | (Panic, random') => (Panic, self, random')
    end.

Definition callback (self : t) (state : OAuthState.t) (ident : MemberIdentity.t)
  : res TransitionError unit * t :=
  forward self Phase.Authenticating (fun session =>
    match oauth_state session with
    | None =>
      (Err InvalidState,
       set_phase (wipe_enterprise_state session) (Phase.Failed EnterpriseFailure.InvalidState))
    | Some stored =>
      let session := set_oauth_state session None in
      if bool_decide (stored <> state) then
        (Err InvalidState, set_phase session (Phase.Failed EnterpriseFailure.InvalidState))
      else (Ok tt, set_identity session (Some ident))
    end).

Definition validate_member (self : t) (valid : bool) : res TransitionError MemberAdmission * t :=
  forward self Phase.Authenticating (fun session =>
    match identity session with
    | None => (Err InvalidTransition, session)
    | Some _ =>
      let session := set_identity session None in
      if valid then (Ok MemberAdmitted, set_phase session Phase.Authenticated)
      else (Ok MemberRejected, set_phase session (Phase.Failed EnterpriseFailure.UserRejected))
    end).

(** The [debug_assert!] panics when it does not hold. *)
Definition begin_resolve (self : t) : res TransitionError unit * t :=
  forward self Phase.Authenticated (fun session =>
    if bool_decide (identity session = None) && bool_decide (oauth_state session = None)
    then (Ok tt, set_phase session Phase.Resolving)
    else (Panic, session)).

Definition complete (self : t) (peer : PeerIdBytes.t) : res TransitionError unit * t :=
  forward self Phase.Resolving (fun session =>
    (Ok tt, set_phase (set_target_peer session (Some peer)) Phase.Completed)).

Definition cancel (self : t) := terminal self Phase.Cancelled.
Definition expire (self : t) := terminal self Phase.Expired.
Definition fail (self : t) (failure : EnterpriseFailure.t) := terminal self (Phase.Failed failure).
Definition unavailable (self : t) := terminal self Phase.Unavailable.
End EnterpriseResolveSession.

(** ** Runs *)

Module SessionRun.
Import EnterpriseResolveSession.

(** What the owning task may do with a session. *)
Inductive op :=
| Offer
| Select (p : EnterpriseProvider.t)
| Callback (state : OAuthState.t) (ident : MemberIdentity.t)
| Validate (valid : bool)
| BeginResolve
| Complete (peer : PeerIdBytes.t)
| Cancel | Expire | Fail (failure : EnterpriseFailure.t) | MarkUnavailable.

(** What an operation that succeeded did. *)
Inductive event :=
| Offered
| Selected (p : EnterpriseProvider.t) (state : OAuthState.t)
| CalledBack (state : OAuthState.t) (ident : MemberIdentity.t)
| Validated (admission : MemberAdmission)
| Begun
| Done (peer : PeerIdBytes.t)
| Ended.

Section Exec.
Context {R : Type} `{SecureRandom R}.

Definition exec (self : t) (random : R) (o : op) : res TransitionError event * t * R :=
  let keep {A} (e : event) (x : res TransitionError A * t) :=
    ((fun _ => e) <$> fst x, snd x, random) in
  match o with
  | Offer => keep Offered (offer_providers self)
  | Select p => let '(r, s, random') := select self p random in (Selected p <$> r, s, random')
  | Callback state ident => keep (CalledBack state ident) (callback self state ident)
  | Validate valid => let '(r, s) := validate_member self valid in (Validated <$> r, s, random)
  | BeginResolve => keep Begun (begin_resolve self)
  | Complete peer => keep (Done peer) (complete self peer)
  | Cancel => keep Ended (cancel self)
  | Expire => keep Ended (expire self)
  | Fail failure => keep Ended (fail self failure)
  | MarkUnavailable => keep Ended (unavailable self)
  end.

(** The session, the random source and the successful operations so far. *)
Definition run_step (x : t * R * list event) (o : op) : t * R * list event :=
  let '(s, r, trace) := x in
  let '(result, s', r') := exec s r o in
  (s', r', trace ++ match result with Ok e => [e] | _ => [] end).

Definition run (self : t) (random : R) (ops : list op) : t * R * list event :=
  foldl run_step (self, random, []) ops.
End Exec.
End SessionRun.

Section SessionFacts.
Import EnterpriseResolveSession SessionRun.
Context {R : Type} `{SecureRandom R}.

(** The successful operations of a session that reached its member's identity. *)
Definition admitted_path (p : EnterpriseProvider.t) (st : OAuthState.t) (ident : MemberIdentity.t)
  : list event := [Offered; Selected p st; CalledBack st ident; Validated MemberAdmitted].

(** The data a session holds in each phase, and the successful operations that led there. *)
Definition consistent (trace : list event) (s : t) : Prop :=
  match phase s with
  | Phase.Created =>
    trace = [] /\ provider s = None /\ oauth_state s = None /\ identity s = None /\ target_peer s = None
  | Phase.ProviderSelection =>
    trace = [Offered] /\ provider s = None /\ oauth_state s = None /\ identity s = None /\
    target_peer s = None
  | Phase.Authenticating =>
    target_peer s = None /\ exists p st, provider s = Some p /\
    (oauth_state s = Some st /\ identity s = None /\ trace = [Offered; Selected p st] \/
     exists ident, oauth_state s = None /\ identity s = Some ident /\
       trace = [Offered; Selected p st; CalledBack st ident])
  | Phase.Authenticated => exists p st ident,
    provider s = Some p /\ oauth_state s = None /\ identity s = None /\ target_peer s = None /\
    trace = admitted_path p st ident
  | Phase.Resolving => exists p st ident,
    provider s = Some p /\ oauth_state s = None /\ identity s = None /\ target_peer s = None /\
    trace = admitted_path p st ident ++ [Begun]
  | Phase.Completed => exists p st ident peer,
    provider s = Some p /\ oauth_state s = None /\ identity s = None /\ target_peer s = Some peer /\
    trace = admitted_path p st ident ++ [Begun; Done peer]
  | _ => oauth_state s = None /\ identity s = None /\ target_peer s = None
  end.

(** The operations that end a session do so from every phase that is not terminal. *)
Lemma terminal_consistent trace s p :
  (Phase.is_terminal p = true) -> p <> Phase.Completed -> consistent trace s ->
  (terminal s p).1 <> Panic /\
  consistent (trace ++ match (terminal s p).1 with Ok _ => [Ended] | _ => [] end) (terminal s p).2.
Proof.
  intros Hp Hc Hs. unfold terminal. destruct (Phase.is_terminal (phase s)) eqn:E.
  - cbn. by rewrite app_nil_r.
  - cbn. split; [done|]. assert (Ht : target_peer s = None).
    { unfold consistent in Hs. destruct (phase s); try discriminate E; naive_solver. }
    unfold consistent. destruct p; try discriminate Hp; try done; by cbn.
Qed.

Lemma run_step_consistent s (r : R) trace o :
  consistent trace s ->
  (exec s r o).1.1 <> Panic /\ consistent (run_step (s, r, trace) o).2 (run_step (s, r, trace) o).1.1.
Proof.
  intros Hs. destruct o as [|p|st ident|valid| |peer| | |f|].
  - destruct s as [rid loc dl [] pr st idt tp]; cbn; rewrite ?app_nil_r; try (by split).
    destruct Hs as (-> & ? & ? & ? & ?). cbn in *. by split.
  - unfold run_step, exec, select. case_bool_decide as Hph; cbn; [by rewrite app_nil_r|].
    unfold consistent in Hs. rewrite Hph in Hs.
    destruct Hs as (-> & ? & ? & ? & ?). unfold OAuthState.generate.
    destruct (try_fill r OAuthState.LEN) as [[l|] r'] eqn:E; cbn.
    + split; [done|]. split; [done|]. exists p, (OAuthState.Mk l). split; [done|]. left. done.
    + split; [done|]. unfold consistent. by rewrite Hph.
  - destruct s as [rid loc dl [] pr st' idt tp]; cbn; rewrite ?app_nil_r; try (by split).
    destruct Hs as (Ht & p & st0 & Hp & [(Ho & Hi & ->)|(i & Ho & Hi & ->)]); cbn in *; subst; cbn;
      [|by split].
    unfold callback, forward. cbn. case_bool_decide; [done|]. case_bool_decide; cbn; [by split|].
    split; [done|]. subst st0. split; [done|].
    exists p, st. split; [done|]. right. exists ident. done.
  - unfold run_step, exec, validate_member, forward.
    case_bool_decide as Hph; cbn; [by rewrite app_nil_r|].
    unfold consistent in Hs. rewrite Hph in Hs.
    destruct Hs as (Ht & p & st0 & Hp & [(Ho & Hi & ->)|(i & Ho & Hi & ->)]); rewrite Hi; cbn.
    + split; [done|]. unfold consistent. rewrite Hph. split; [done|]. exists p, st0. split; [done|]. by left.
    + destruct valid; cbn; (split; [done|]); [|done]. by exists p, st0, i.
  - destruct s as [rid loc dl [] pr st' idt tp]; cbn; rewrite ?app_nil_r; try (by split).
    destruct Hs as (p & st0 & i & Hp & Ho & Hi & Ht & ->). cbn in *. subst. cbn.
    split; [done|]. by exists p, st0, i.
  - destruct s as [rid loc dl [] pr st' idt tp]; cbn; rewrite ?app_nil_r; try (by split).
    destruct Hs as (p & st0 & i & Hp & Ho & Hi & Ht & ->). cbn in *. subst. cbn.
    split; [done|]. by exists p, st0, i, peer.
  - destruct (terminal_consistent trace s Phase.Cancelled eq_refl ltac:(done) Hs) as [H1 H2].
    cbn. unfold cancel. by destruct (terminal s Phase.Cancelled) as [[[]| |] s'].
  - destruct (terminal_consistent trace s Phase.Expired eq_refl ltac:(done) Hs) as [H1 H2].
    cbn. unfold expire. by destruct (terminal s Phase.Expired) as [[[]| |] s'].
  - destruct (terminal_consistent trace s (Phase.Failed f) eq_refl ltac:(done) Hs) as [H1 H2].
    cbn. unfold fail. by destruct (terminal s (Phase.Failed f)) as [[[]| |] s'].
  - destruct (terminal_consistent trace s Phase.Unavailable eq_refl ltac:(done) Hs) as [H1 H2].
    cbn. unfold unavailable. by destruct (terminal s Phase.Unavailable) as [[[]| |] s'].
Qed.

Lemma run_consistent rid loc now (r : R) ops :
  let '(s, _, trace) := run (new rid loc now) r ops in consistent trace s.
Proof.
  induction ops as [|o ops IH] using rev_ind; [done|]. unfold run in *. rewrite foldl_app. cbn [foldl].
  destruct (foldl run_step _ ops) as [[s r'] trace].
  destruct (run_step_consistent s r' trace o IH) as [_ H'].
  by destruct (run_step (s, r', trace) o) as [[? ?] ?].
Qed.
End SessionFacts.

(** Opens the conjunctions and existentials of the context. *)
Ltac open_facts :=
  repeat (destruct_and?; match goal with H : ex _ |- _ => destruct H end); destruct_and?.

(** ** Properties *)

Section SessionProperties.
Import EnterpriseResolveSession SessionRun.
Context {R : Type} `{SecureRandom R}.

(** C23: No target without a member.  Whatever a session's owner does with it, from
    creation on: it holds a target peer only in [Completed], and it is [Completed] only
    when its successful operations were, exactly and in this order, one offer, one
    selection, one callback with the very state that selection created, an admitting
    validation, the start of the resolution and its completion with that peer. *)
Theorem enterprise_completed_path rid loc now (r : R) ops :
  let '(s, _, trace) := run (new rid loc now) r ops in
  (is_Some (target_peer s) <-> phase s = Phase.Completed) /\
  (phase s = Phase.Completed ->
   exists p st ident peer, provider s = Some p /\ target_peer s = Some peer /\
     trace = [Offered; Selected p st; CalledBack st ident; Validated MemberAdmitted; Begun; Done peer]).
Proof.
  pose proof (run_consistent rid loc now r ops) as Hc.
  destruct (run (new rid loc now) r ops) as [[s r'] trace]. unfold consistent in Hc. split.
  - destruct (phase s); open_facts;
      try (split; [intros [? ?]; congruence|done]).
  - intros Hp. rewrite Hp in Hc. destruct Hc as (p & st & ident & peer & ? & _ & _ & ? & ->).
    by exists p, st, ident, peer.
Qed.

(** Enterprise data is short-lived.  At every point of every run no operation panics
    (the debug assertion of [begin_resolve] holds), the OAuth state and the identity are
    never held together, both are held only while [Authenticating], and a terminal
    session holds neither and refuses every further operation unchanged. *)
Theorem enterprise_data_confined rid loc now (r : R) ops o :
  let '(s, r', _) := run (new rid loc now) r ops in
  (exec s r' o).1.1 <> Panic /\
  (is_Some (oauth_state s) \/ is_Some (identity s) -> phase s = Phase.Authenticating) /\
  (oauth_state s = None \/ identity s = None) /\
  (is_terminal s = true ->
   oauth_state s = None /\ identity s = None /\ (exec s r' o).1.2 = s /\
   exists e, (exec s r' o).1.1 = Err e).
Proof.
  pose proof (run_consistent rid loc now r ops) as Hc.
  destruct (run (new rid loc now) r ops) as [[s r'] trace].
  destruct (run_step_consistent s r' trace o Hc) as [Hpanic _]. unfold consistent in Hc.
  split_and!; [done|..].
  - destruct (phase s); open_facts; try done;
      intros [[? ?]|[? ?]]; congruence.
  - destruct (phase s); open_facts; try (by left). naive_solver.
  - unfold is_terminal. intros Ht. split_and!.
    + destruct (phase s); open_facts; done.
    + destruct (phase s); open_facts; done.
    + destruct o; unfold exec, offer_providers, select, callback, validate_member, begin_resolve,
        complete, cancel, expire, fail, unavailable, forward, terminal; rewrite ?Ht; try done;
        case_bool_decide as Hp; try done; rewrite Hp in Ht; done.
    + destruct o; unfold exec, offer_providers, select, callback, validate_member, begin_resolve,
        complete, cancel, expire, fail, unavailable, forward, terminal; rewrite ?Ht; try (by eexists);
        case_bool_decide as Hp; try (by eexists); rewrite Hp in Ht; done.
Qed.

(** The OAuth state is single-use: after a callback that succeeded, a second callback
    with any state, the right one included, fails the session as a replay and destroys
    the identity; a callback with a wrong state fails it too. *)
Theorem enterprise_state_single_use s st ident s' st2 ident2 :
  callback s st ident = (Ok tt, s') ->
  oauth_state s = Some st /\ identity s' = Some ident /\
  exists s'', callback s' st2 ident2 = (Err InvalidState, s'') /\
    phase s'' = Phase.Failed EnterpriseFailure.InvalidState /\
    identity s'' = None /\ oauth_state s'' = None.
Proof.
  unfold callback, forward. case_bool_decide as Hp; [done|].
  destruct (oauth_state s) as [stored|] eqn:Ho; [|done].
  case_bool_decide as Hs; [done|]. intros [= <-]. subst stored. split_and!; [done..|].
  cbn. rewrite Hp. eexists. by split_and!.
Qed.
End SessionProperties.

(** An example run that completes. *)
Definition example_ident : MemberIdentity.t := MemberIdentity.Mk (0x61 :: zeros 255) 1.
Definition example_session : EnterpriseResolveSession.t :=
  EnterpriseResolveSession.new 1 (Locator.Mk 7) (MonotonicTime.Mk 0).

Lemma enterprise_state_single_use_witness :
  exists s s'', EnterpriseResolveSession.callback s (OAuthState.Mk (replicate 32 9)) example_ident
    = (Err InvalidState, s'') /\
    EnterpriseResolveSession.phase s'' = Phase.Failed EnterpriseFailure.InvalidState.
Proof.
  set (s0 := (SessionRun.run example_session (Some 9 : FixedRandom)
    [SessionRun.Offer; SessionRun.Select EnterpriseProvider.WeCom]).1.1).
  destruct (enterprise_state_single_use s0 (OAuthState.Mk (replicate 32 9)) example_ident
    (EnterpriseResolveSession.callback s0 (OAuthState.Mk (replicate 32 9)) example_ident).2
    (OAuthState.Mk (replicate 32 9)) example_ident) as (_ & _ & s'' & Hc & Hp & _);
    [vm_compute; reflexivity|].
  eexists _, s''. split; [exact Hc|exact Hp].
Defined.

(** The trace of [enterprise_completed_path] is reachable. *)
Example enterprise_run_completes :
  EnterpriseResolveSession.phase (SessionRun.run example_session (Some 9 : FixedRandom)
    [SessionRun.Offer; SessionRun.Select EnterpriseProvider.WeCom;
     SessionRun.Callback (OAuthState.Mk (replicate 32 9)) example_ident;
     SessionRun.Validate true; SessionRun.BeginResolve;
     SessionRun.Complete (PeerIdBytes.Mk (1 :: zeros 63) 1)]).1.1 = Phase.Completed.
Proof. vm_compute. reflexivity. Qed.
