(* ===== verification/Path.v ===== *)
(** * Path quality

    [crates/yonder-net/src/path.rs]: the ping samples of a candidate connection, the
    ranking of candidates, and the policy that picks one. *)

From stdpp Require Import sorting.
From S2P Require Import Prelude Domain.
Open Scope Z_scope.

Module CandidatePath.
Inductive t := Direct | Relayed.
(** The derived order. *)
Definition rank (self : t) : Z := match self with Direct => 0 | Relayed => 1 end.
End CandidatePath.

Module TransportKind.
Inductive t := Quic | Tcp | WebSocket | SecureWebSocket.
Definition rank (self : t) : Z :=
  match self with Quic => 0 | Tcp => 1 | WebSocket => 2 | SecureWebSocket => 3 end.
End TransportKind.

(** Durations are nanoseconds. *)
Module PingSamples.
Record t := Mk { values : list Z; len : Z }.

Definition new : t := Mk (zeros 3) 0.

(** The result and the samples after it; [values[len]] is within the array unless [len]
    is wrong, which panics. *)
Definition push {E} (self : t) (sample : Z) : res E (bool * t) :=
  if len self =? 3 then Ok (false, self)
  else
    values' ← set_index (values self) (len self) sample;
    Ok (true, Mk values' (len self + 1)).

Definition is_usable (self : t) : bool := 1 <=? len self.

(** [Duration::as_nanos().try_into::<u64>().ok()]. *)
Definition nanos_u64 (d : Z) : option Z := if d <? 2 ^ 64 then Some d else None.

Definition sort_unstable (l : list Z) : list Z := merge_sort Z.le l.

Definition statistics (self : t) : option (Z * Z * Z) :=
  if negb (is_usable self) then None
  else
    nanos ← mapM nanos_u64 (take (Z.to_nat (len self)) (values self));
    let nanos := sort_unstable nanos in
    let at_ i := nth (Z.to_nat i) nanos 0 in
    let median :=
      if len self =? 1 then at_ 0
      else if len self =? 2 then at_ 0 + (at_ 1 - at_ 0) / 2
      else at_ 1 in
    Some (len self, median, at_ (len self - 1) - at_ 0).

(** One to three recorded samples, the rest of the array zero. *)
Definition wf (self : t) : Prop := zlen (values self) = 3 /\ 0 <= len self <= 3.
End PingSamples.

Module PathCandidate.
Record t := Mk {
  id : Z;
  samples : PingSamples.t;
  path : CandidatePath.t;
  transport : TransportKind.t;
  established : Z;
}.

Definition has_samples (self : t) : bool := PingSamples.is_usable (samples self).
End PathCandidate.

(** [Ordering::then_with]. *)
Definition then_with (o : comparison) (k : comparison) : comparison :=
  match o with Eq => k | _ => o end.

Definition compare (left right : PathCandidate.t) : comparison :=
  let quality :=
    match PingSamples.statistics (PathCandidate.samples left),
          PingSamples.statistics (PathCandidate.samples right) with
    | Some (n1, median1, range1), Some (n2, median2, range2) =>
      then_with (median1 ?= median2)
        (if (1 <? n1) && (1 <? n2) then range1 ?= range2 else Eq)
    | Some _, None => Lt
    | None, Some _ => Gt
    | None, None => Eq
    end in
  then_with (then_with (then_with quality
    (CandidatePath.rank (PathCandidate.path left) ?= CandidatePath.rank (PathCandidate.path right)))
    (TransportKind.rank (PathCandidate.transport left) ?= TransportKind.rank (PathCandidate.transport right)))
    (PathCandidate.established left ?= PathCandidate.established right).

(** [Iterator::min_by]: the first of the least elements, for a comparison that is a total
    order; a left fold in any case. *)
Definition min_by {A} (cmp : A -> A -> comparison) (l : list A) : option A :=
  match l with
  | [] => None
  | x :: rest => Some (foldl (fun a b => match cmp a b with Gt => b | _ => a end) x rest)
  end.

(** [QualityPathPolicy::select] *)
Definition select (candidates : list PathCandidate.t) : option PathCandidate.t :=
  min_by compare candidates.

(** ** Lexicographic keys *)

Fixpoint lex (a b : list Z) : comparison :=
  match a, b with
  | x :: a', y :: b' => then_with (x ?= y) (lex a' b')
  | [], [] => Eq
  | [], _ => Lt
  | _, [] => Gt
  end.

Lemma lex_eq a b : lex a b = Eq <-> a = b.
Proof.
  revert b. induction a as [|x a IH]; intros [|y b]; simpl; try done.
  destruct (Z.compare_spec x y); simpl; [rewrite IH; naive_solver| |];
    split; try done; intros [= ? ?]; lia.
Qed.

Lemma lex_antisym a b : lex b a = CompOpp (lex a b).
Proof.
  revert b. induction a as [|x a IH]; intros [|y b]; simpl; try done.
  rewrite (Z.compare_antisym x y), IH. by destruct (x ?= y).
Qed.

Lemma lex_trans a b c : lex a b <> Gt -> lex b c <> Gt -> lex a c <> Gt.
Proof.
  revert b c. induction a as [|x a IH]; intros [|y b] [|z c]; simpl; try done.
  destruct (Z.compare_spec x y), (Z.compare_spec y z), (Z.compare_spec x z); simpl; try done; try lia.
  subst. apply IH.
Qed.

(** The ranking key when every candidate with samples has several ([many]) or one. *)
Definition key (many : bool) (c : PathCandidate.t) : list Z :=
  (match PingSamples.statistics (PathCandidate.samples c) with
   | Some (_, median, range) => [0; median; if many then range else 0]
   | None => [1; 0; 0]
   end) ++
  [CandidatePath.rank (PathCandidate.path c); TransportKind.rank (PathCandidate.transport c);
   PathCandidate.established c].

(** Candidates whose evidence is of the same kind. *)
Definition uniform (many : bool) (c : PathCandidate.t) : Prop :=
  match PingSamples.statistics (PathCandidate.samples c) with
  | Some (n, _, _) => (1 <? n) = many
  | None => True
  end.

Lemma compare_key many a b :
  uniform many a -> uniform many b -> compare a b = lex (key many a) (key many b).
Proof.
  unfold uniform, compare, key.
  destruct (PingSamples.statistics (PathCandidate.samples a)) as [[[n1 m1] r1]|],
    (PingSamples.statistics (PathCandidate.samples b)) as [[[n2 m2] r2]|]; intros Ha Hb; cbn -[Z.compare];
    rewrite ?Ha, ?Hb; try done.
  - destruct many; cbn -[Z.compare]; rewrite ?Z.compare_refl; cbn -[Z.compare];
      destruct (m1 ?= m2), (r1 ?= r2); cbn -[Z.compare]; try done;
      destruct (CandidatePath.rank _ ?= _), (TransportKind.rank _ ?= _), (PathCandidate.established a ?= _); done.
  - destruct (CandidatePath.rank _ ?= _), (TransportKind.rank _ ?= _), (PathCandidate.established a ?= _); done.
Qed.

(** ** Minimum by a key *)

Section MinBy.
Context {A : Type} (k : A -> list Z) (cmp : A -> A -> comparison) (P : A -> Prop).
Hypothesis cmp_key : forall a b, P a -> P b -> cmp a b = lex (k a) (k b).

Lemma min_by_spec l :
  Forall P l -> l <> [] ->
  exists w, min_by cmp l = Some w /\ w ∈ l /\ forall x, x ∈ l -> lex (k w) (k x) <> Gt.
Proof.
  intros Hl Hne. destruct l as [|x rest]; [done|]. clear Hne. cbn [min_by].
  apply Forall_cons in Hl as [Hx Hr]. revert x Hx.
  induction Hr as [|y rest Hy Hr IH]; intros x Hx.
  - exists x. split; [done|]. split; [by left|]. intros z [->|Hz]%elem_of_cons; [|by apply not_elem_of_nil in Hz].
    rewrite (proj2 (lex_eq (k x) (k x))); done.
  - cbn [foldl]. assert (Hn : P (match cmp x y with Gt => y | _ => x end)) by (by destruct (cmp x y)).
    destruct (IH _ Hn) as (w & Hw & Hin & Hmin). exists w. split; [done|].
    rewrite (cmp_key x y) in * by done. destruct (lex (k x) (k y)) eqn:E.
    1,2: split; [apply elem_of_cons in Hin as [->|]; [by left|by right; right]|].
    1,2: intros z [->|[->|Hz]%elem_of_cons]%elem_of_cons; [apply Hmin; by left| |apply Hmin; by right];
         apply (lex_trans _ (k x)); [apply Hmin; by left|by rewrite E].
    split; [by right|]. intros z [->|Hz]%elem_of_cons; [|by apply Hmin].
    apply (lex_trans _ (k y)); [apply Hmin; by left|]. rewrite lex_antisym, E. done.
Qed.

(** With distinct keys the minimum does not depend on the order of the list. *)
Lemma min_by_perm l1 l2 :
  Forall P l1 -> (forall a b, a ∈ l1 -> b ∈ l1 -> k a = k b -> a = b) -> l1 ≡ₚ l2 ->
  min_by cmp l1 = min_by cmp l2.
Proof.
  intros Hl Hinj Hp. destruct (decide (l1 = [])) as [->|Hne].
  { apply Permutation_nil_l in Hp. by subst. }
  assert (Hne2 : l2 <> []) by (intros ->; apply Permutation_nil_r in Hp; by subst).
  destruct (min_by_spec l1 Hl Hne) as (w1 & -> & Hin1 & Hm1).
  destruct (min_by_spec l2) as (w2 & -> & Hin2 & Hm2); [by rewrite <- Hp|done|].
  f_equal. rewrite <- Hp in Hin2. apply Hinj; [done..|]. apply lex_eq.
  specialize (Hm1 w2 Hin2). rewrite Hp in Hin1. specialize (Hm2 w1 Hin1).
  rewrite lex_antisym in Hm2. by destruct (lex (k w1) (k w2)).
Qed.
End MinBy.

Lemma key_established many a b : key many a = key many b -> PathCandidate.established a = PathCandidate.established b.
Proof.
  unfold key. destruct (PingSamples.statistics _) as [[[? ?] ?]|], (PingSamples.statistics _) as [[[? ?] ?]|];
    simpl; congruence.
Qed.

(** ** Properties *)

(** Among candidates whose evidence is of one kind (all with several samples, or all
    with one, those without samples apart), the policy picks a candidate that ranks
    before or equal to every other, by sample presence, median, range, route, transport
    and age, and when establishment orders are distinct the winner does not depend on
    the order in which the candidates are listed. *)
Theorem path_select_optimal many candidates others :
  Forall (uniform many) candidates -> candidates <> [] ->
  (forall a b, a ∈ candidates -> b ∈ candidates ->
     PathCandidate.established a = PathCandidate.established b -> a = b) ->
  others ≡ₚ candidates ->
  exists w, select candidates = Some w /\ select others = Some w /\ w ∈ candidates /\
    forall c, c ∈ candidates -> compare w c <> Gt /\ lex (key many w) (key many c) <> Gt.
Proof.
  intros Hu Hne Hinj Hp.
  destruct (min_by_spec (key many) compare (uniform many) (compare_key many) candidates Hu Hne)
    as (w & Hw & Hin & Hmin).
  exists w. split; [done|]. split; [|split; [done|]].
  - unfold select. rewrite <- Hw. symmetry.
    apply (min_by_perm (key many) compare (uniform many) (compare_key many)); [done| |done].
    intros a b Ha Hb Hk. apply Hinj; [done..|]. by eapply key_established.
  - intros c Hc. rewrite (compare_key many); [by split; apply Hmin| |];
      rewrite Forall_forall in Hu; by apply Hu.
Qed.

(** Candidates with one median, 5 ns: a QUIC one with two samples of range 2, a TCP one
    with a single sample, and a WebSocket one with two samples of range 0. *)
Definition cycle_quic : PathCandidate.t :=
  PathCandidate.Mk 1 (PingSamples.Mk [4; 6; 0] 2) CandidatePath.Direct TransportKind.Quic 1.
Definition cycle_tcp : PathCandidate.t :=
  PathCandidate.Mk 2 (PingSamples.Mk [5; 0; 0] 1) CandidatePath.Direct TransportKind.Tcp 2.
Definition cycle_ws : PathCandidate.t :=
  PathCandidate.Mk 3 (PingSamples.Mk [5; 5; 0] 2) CandidatePath.Direct TransportKind.WebSocket 3.

(** Without that restriction the ranking is not an order: of three candidates with
    equal medians and one or two samples each ranks strictly before the next, around a
    cycle, and each of the three wins under some order in which they are listed. *)
Theorem path_ranking_cycle :
  compare cycle_quic cycle_tcp = Lt /\ compare cycle_tcp cycle_ws = Lt /\
  compare cycle_ws cycle_quic = Lt /\
  select [cycle_quic; cycle_tcp; cycle_ws] = Some cycle_ws /\
  select [cycle_ws; cycle_quic; cycle_tcp] = Some cycle_tcp /\
  select [cycle_tcp; cycle_ws; cycle_quic] = Some cycle_quic.
Proof. vm_compute. done. Qed.

Lemma path_select_optimal_witness :
  exists w, select [cycle_ws; cycle_quic] = Some w /\ select [cycle_quic; cycle_ws] = Some w.
Proof.
  destruct (path_select_optimal true [cycle_ws; cycle_quic] [cycle_quic; cycle_ws])
    as (w & H1 & H2 & _); [repeat constructor|done| |constructor|by exists w].
  intros a b Ha Hb. set_unfold. naive_solver.
Defined.

(** ** Ping statistics *)

(** Successful samples in the order they arrive. *)
Fixpoint push_all {E} (s : PingSamples.t) (l : list Z) : res E PingSamples.t :=
  match l with
  | [] => Ok s
  | d :: rest => '(_, s') ← PingSamples.push s d; push_all s' rest
  end.

Lemma push_full {E} v l : push_all (E:=E) (PingSamples.Mk v 3) l = Ok (PingSamples.Mk v 3).
Proof. induction l as [|d l IH]; [done|]. exact IH. Qed.

(** At most the first three samples are kept. *)
Lemma push_all_eq {E} l :
  push_all (E:=E) PingSamples.new l =
  Ok (PingSamples.Mk (take 3 l ++ zeros (3 - zlen (take 3 l))) (zlen (take 3 l))).
Proof. destruct l as [|a [|b [|c l]]]; [reflexivity..|]. exact (push_full [a; b; c] l). Qed.

Lemma nanos_all l : Forall (fun d => 0 <= d < 2 ^ 64) l -> mapM PingSamples.nanos_u64 l = Some l.
Proof.
  intros H. apply mapM_Some_2. induction H as [|d l Hd _ IH]; constructor; [|done].
  unfold PingSamples.nanos_u64. destruct (Z.ltb_spec d (2 ^ 64)); [done|lia].
Qed.

(** The sorted samples: a permutation in ascending order. *)
Lemma sort_spec l : PingSamples.sort_unstable l ≡ₚ l /\ StronglySorted Z.le (PingSamples.sort_unstable l).
Proof.
  split; [apply merge_sort_Permutation|]. apply (StronglySorted_merge_sort Z.le).
Qed.

Lemma statistics_eq l :
  Forall (fun d => 0 <= d < 2 ^ 64) l -> 1 <= zlen l <= 3 ->
  exists s, s ≡ₚ l /\ StronglySorted Z.le s /\
    PingSamples.statistics (PingSamples.Mk (l ++ zeros (3 - zlen l)) (zlen l)) =
    Some (zlen l,
      match s with [a] => a | [a; b] => a + (b - a) / 2 | [_; b; _] => b | _ => 0 end,
      List.last s 0 - List.hd 0 s).
Proof.
  intros Hl Hn. destruct (sort_spec l) as [Hp Hs]. exists (PingSamples.sort_unstable l).
  split_and!; [done..|]. unfold PingSamples.statistics, PingSamples.is_usable. cbn [PingSamples.len PingSamples.values].
  destruct (Z.leb_spec 1 (zlen l)); [|lia]. cbn [negb].
  rewrite take_zlen_app by done. rewrite nanos_all by done. cbn [mbind option_bind].
  apply Permutation_length in Hp. unfold zlen in *.
  destruct (PingSamples.sort_unstable l) as [|a [|b [|c [|d s]]]]; cbn [length] in Hp; [lia| | | |lia];
    rewrite <- Hp; reflexivity.
Qed.

(** The statistics of a candidate over any sequence of successful pings: at most the
    first three count, nothing panics or overflows, there is a result exactly when a
    sample arrived, and it is their number, a median between their least and greatest
    value (the middle one of three, the truncated mean of two), and their range. *)
Theorem ping_statistics_spec l :
  Forall (fun d => 0 <= d < 2 ^ 64) l ->
  exists s, push_all (E:=unit) PingSamples.new l = Ok s /\
  match PingSamples.statistics s with
  | None => l = []
  | Some (n, median, range) => n = zlen (take 3 l) /\ l <> [] /\
      exists lo hi, lo ∈ take 3 l /\ hi ∈ take 3 l /\ (forall x, x ∈ take 3 l -> lo <= x <= hi) /\
        range = hi - lo /\ lo <= median <= hi /\
        (n = 2 -> median = (lo + hi) / 2) /\
        (n = 3 -> exists mid, take 3 l ≡ₚ [lo; mid; hi] /\ median = mid)
  end.
Proof.
  intros Hl. rewrite push_all_eq. eexists. split; [reflexivity|].
  destruct l as [|x l]; [done|].
  assert (Hn : 1 <= zlen (take 3 (x :: l)) <= 3).
  { unfold zlen. rewrite length_take. cbn [length]. lia. }
  destruct (statistics_eq (take 3 (x :: l)) (Forall_take _ _ _ Hl) Hn) as (s & Hp & Hs & ->).
  split; [done|]. split; [done|]. apply Permutation_length in Hp as Hlen. unfold zlen in *.
  setoid_rewrite <- Hp.
  destruct s as [|a [|b [|c [|d s]]]]; cbn [length] in Hlen; [lia| | | |lia]; cbn [List.last List.hd].
  - exists a, a. set_unfold. split_and!; try lia; naive_solver lia.
  - apply StronglySorted_cons in Hs as [Hab _]. assert (a <= b) by (by apply Forall_cons in Hab as [? _]).
    exists a, b. set_unfold. split_and!; try (naive_solver lia); try (Z.to_euclidean_division_equations; lia).
  - apply StronglySorted_cons in Hs as [Hab Hs]. apply StronglySorted_cons in Hs as [Hbc _].
    apply Forall_cons in Hab as [Hab _]. apply Forall_cons in Hbc as [Hbc _].
    exists a, c. set_unfold. split_and!; try (naive_solver lia).
Qed.

Lemma ping_statistics_spec_witness :
  exists s, push_all (E:=unit) PingSamples.new [9; 3; 5; 100] = Ok s /\
    PingSamples.statistics s = Some (3, 5, 6).
Proof.
  destruct (ping_statistics_spec [9; 3; 5; 100]) as (s & Hs & _); [repeat constructor; lia|].
  exists s. split; [exact Hs|]. injection Hs as <-. vm_compute. reflexivity.
Defined.
