(* ===== verification/Limiters.v ===== *)
(** * Resolve admission

    [ResolveLimiters] of [crates/yon-relay/src/registry.rs]: a global rate limiter in front
    of a bounded table of per-source ones.  The limiters themselves come from the [governor]
    crate behind [DirectRateLimiter] of [crates/yonder-core/src/rate.rs]: the class
    [Governor], with the crate's documented bound as [GovernorLaws], and a reference
    GCRA that satisfies it. *)

From stdpp Require Import gmap fin_maps fin_sets sorting.
From S2P Require Import Prelude Domain Resource.
Open Scope Z_scope.

(** A direct limiter: [RateLimiter::direct] and [check] at a clock reading, in
    nanoseconds. *)
Class Governor := {
  Limiter : Type;
  direct : RateLimit.t -> Limiter;
  check_limiter : Limiter -> Z -> bool * Limiter;
}.

(** [Quota::per_second(n)] replenishes one cell every [1s / n]. *)
Definition interval (q : RateLimit.t) : Z := NANOS_PER_SEC / RateLimit.per_second q.

Section Governors.
Context `{Governor}.

(** The times at which a limiter admitted, among the times it was asked. *)
Fixpoint admitted (l : Limiter) (times : list Z) : list Z :=
  match times with
  | [] => []
  | t :: rest => let '(ok, l') := check_limiter l t in (if ok then [t] else []) ++ admitted l' rest
  end.

Definition after (l : Limiter) (times : list Z) : Limiter :=
  foldl (fun l t => (check_limiter l t).2) l times.
End Governors.

(** Asked at times that do not decrease, a limiter admits in any span at most its burst
    and one more per replenishment interval. *)
Class GovernorLaws `{Governor} : Prop :=
  admitted_bound : forall q times before seg rest,
    1 <= RateLimit.per_second q <= NANOS_PER_SEC -> 1 <= RateLimit.burst q ->
    StronglySorted Z.le times -> admitted (direct q) times = before ++ seg ++ rest -> seg <> [] ->
    zlen seg <= RateLimit.burst q + (List.last seg 0 - List.hd 0 seg) / interval q.

Section Limiters.
Context `{Governor} {SourcePrefix : Type} `{Countable SourcePrefix}.

Record SourceLimiter := MkSourceLimiter { limiter : Limiter; last_seen : MonotonicTime.t }.

Record ResolveLimiters := MkLimiters {
  global : Limiter;
  sources : gmap SourcePrefix SourceLimiter;
  limits : ResolveLimits.t;
}.

Definition with_limits (limits : ResolveLimits.t) : ResolveLimiters :=
  MkLimiters (direct (ResolveRate.rate_limit (ResolveLimits.global limits))) ∅ limits.

Definition set_sources (self : ResolveLimiters) (s : gmap SourcePrefix SourceLimiter) : ResolveLimiters :=
  MkLimiters (global self) s (limits self).

(** [retain]: entries idle for less than [idle] stay. *)
Definition retained (idle : Z) (now : MonotonicTime.t) (entry : SourceLimiter) : bool :=
  match MonotonicTime.duration_since now (last_seen entry) with
  | Some age => age <? idle
  | None => true
  end.

Definition prune (self : ResolveLimiters) (now : MonotonicTime.t) : ResolveLimiters :=
  let idle := SourceLimiterIdle.duration (ResolveLimits.source_limiter_idle (limits self)) in
  set_sources self (filter (fun e => retained idle now e.2 = true) (sources self)).

Definition check_global (self : ResolveLimiters) (reading : Z) : bool * ResolveLimiters :=
  let '(ok, g) := check_limiter (global self) reading in (ok, MkLimiters g (sources self) (limits self)).

(** The table is full. *)
Definition is_full (self : ResolveLimiters) : bool :=
  Z.of_nat (size (sources self)) =?
  SourceLimiterCapacity.get (ResolveLimits.source_limiter_capacity (limits self)).

Definition check_source (self : ResolveLimiters) (src : SourcePrefix) (now : MonotonicTime.t) (reading : Z)
  : bool * ResolveLimiters :=
  let self := prune self now in
  match sources self !! src with
  | Some entry =>
    let '(ok, l) := check_limiter (limiter entry) reading in
    (ok, set_sources self (<[ src := MkSourceLimiter l now ]> (sources self)))
  | None =>
    if is_full self then (false, self)
    else
      let '(allowed, l) := check_limiter (direct (ResolveRate.rate_limit (ResolveLimits.source (limits self)))) reading in
      (allowed, set_sources self (<[ src := MkSourceLimiter l now ]> (sources self)))
  end.

(** The global limiter reads its clock at [reading], the source's limiter at [reading']. *)
Definition check (self : ResolveLimiters) (src : SourcePrefix) (now : MonotonicTime.t) (reading reading' : Z)
  : bool * ResolveLimiters :=
  let '(ok, self) := check_global self reading in
  if negb ok then (false, self) else check_source self src now reading'.

(** One request with its clock readings: the global limiter's, the table's and the source
    limiter's.  A request that does not decode or whose peer has no single connection has
    no source: it stops after the global check. *)
Record request := MkRequest {
  from : option SourcePrefix;
  global_reading : Z;
  table_reading : Z;
  source_reading : Z;
}.

Definition serve_request (self : ResolveLimiters) (r : request) : ResolveLimiters :=
  match from r with
  | Some src => (check self src (MonotonicTime.Mk (table_reading r)) (global_reading r) (source_reading r)).2
  | None => (check_global self (global_reading r)).2
  end.

Definition run (self : ResolveLimiters) (requests : list request) : ResolveLimiters :=
  foldl serve_request self requests.
End Limiters.
Arguments ResolveLimiters {_} SourcePrefix {_ _}.
Arguments request : clear implicits.
Arguments MkRequest {_} _ _ _ _.

(** How far the table's clock may drift from the global limiter's, in nanoseconds, before
    the window of [ResolveLimits::new] is too small: one replenishment interval, less what
    [1s / n] rounds off over the idle period. *)
Definition clock_slack (lim : ResolveLimits.t) : Z :=
  let q := ResolveRate.rate_limit (ResolveLimits.global lim) in
  interval q -
  SourceLimiterIdle.seconds (ResolveLimits.source_limiter_idle lim) * (NANOS_PER_SEC mod RateLimit.per_second q).

(** ** Times of admission *)

Section AdmittedFacts.
Context `{Governor}.

Lemma after_snoc l ts t : after l (ts ++ [t]) = (check_limiter (after l ts) t).2.
Proof. unfold after. by rewrite foldl_app. Qed.

Lemma admitted_snoc l ts t :
  admitted l (ts ++ [t]) = admitted l ts ++ (if (check_limiter (after l ts) t).1 then [t] else []).
Proof.
  revert l. induction ts as [|x ts IH]; intros l; cbn [app admitted].
  - cbn. destruct (check_limiter l t) as [ok l']. by rewrite app_nil_r.
  - destruct (check_limiter l x) as [ok l'] eqn:E. rewrite IH, app_assoc.
    unfold after. cbn [foldl]. by rewrite E.
Qed.

Lemma admitted_elem l ts t : t ∈ admitted l ts -> t ∈ ts.
Proof.
  revert l. induction ts as [|x ts IH]; intros l; cbn [admitted]; [done|].
  destruct (check_limiter l x) as [[] l']; cbn [app]; intros Ht.
  - apply elem_of_cons in Ht as [->|Ht]; [by left|right; eauto].
  - right. eauto.
Qed.

Lemma admitted_sorted l ts : StronglySorted Z.le ts -> StronglySorted Z.le (admitted l ts).
Proof.
  intros Hs. revert l. induction Hs as [|x ts Hs IH Hx]; intros l; cbn [admitted]; [constructor|].
  destruct (check_limiter l x) as [[] l']; cbn [app]; [|apply IH].
  constructor; [apply IH|]. rewrite Forall_forall in *. intros t Ht. apply Hx. by eapply admitted_elem.
Qed.
End AdmittedFacts.

(** The requests of the last [idle] nanoseconds are the end of the history. *)
Lemma recent_suffix {A} (l : list (A * Z)) t idle :
  StronglySorted Z.le (l.*2) ->
  exists before, l = before ++ filter (fun e => t - e.2 < idle) l.
Proof.
  induction l as [|[a x] l IH]; cbn [fmap list_fmap]; intros Hs; [by exists []|].
  apply StronglySorted_cons in Hs as [Hx Hs]. cbn in Hx.
  rewrite filter_cons. cbn. case_decide as Hd.
  - exists []. cbn. f_equal. symmetry.
    assert (Hall : Forall (fun e : A * Z => t - e.2 < idle) l).
    { rewrite Forall_fmap in Hx. eapply Forall_impl; [exact Hx|]. cbn. lia. }
    clear -Hall. induction Hall as [|e l He _ IH]; [done|]. rewrite filter_cons_True by done. by rewrite IH.
  - destruct (IH Hs) as [before Hb]. exists ((a, x) :: before). cbn. by f_equal.
Qed.

(** The facts on a validated policy that the window arithmetic uses. *)
Lemma policy_bounds lim :
  ResolveLimits.wf lim ->
  let n := RateLimit.per_second (ResolveRate.rate_limit (ResolveLimits.global lim)) in
  let i := SourceLimiterIdle.seconds (ResolveLimits.source_limiter_idle lim) in
  let b := RateLimit.burst (ResolveRate.rate_limit (ResolveLimits.global lim)) in
  let cap := SourceLimiterCapacity.get (ResolveLimits.source_limiter_capacity lim) in
  1 <= n <= 10000 /\ 1 <= i /\ 1 <= b /\ n * i + b <= cap <= 65536.
Proof.
  intros (_ & [Hp Hb] & _ & Hcap & Hidle & _ & _ & _ & Hw).
  unfold ResolveLimits.window, SourceLimiterCapacity.wf, SourceLimiterCapacity.MAX, ResolveRate.MAX_PER_SECOND,
    SourceLimiterIdle.wf, SourceLimiterIdle.MIN_SECONDS in *. cbn. lia.
Qed.

(** Every validated policy has a slack of more than 34 microseconds. *)
Lemma clock_slack_positive lim : ResolveLimits.wf lim -> 34464 <= clock_slack lim.
Proof.
  intros (Hn & Hi & Hb & Hw)%policy_bounds. unfold clock_slack, interval, NANOS_PER_SEC.
  set (n := RateLimit.per_second _) in *. set (i := SourceLimiterIdle.seconds _) in *.
  assert (100000 <= 1000000000 / n) by (apply Z.div_le_lower_bound; lia).
  pose proof (Z.mod_pos_bound 1000000000 n ltac:(lia)). nia.
Qed.

(** What a validated policy admits globally while an idle source is remembered fits the
    source table, as long as the two clocks drift by no more than the slack. *)
Lemma window_fits lim lag d :
  ResolveLimits.wf lim -> lag <= clock_slack lim ->
  let q := ResolveRate.rate_limit (ResolveLimits.global lim) in
  0 <= d < SourceLimiterIdle.duration (ResolveLimits.source_limiter_idle lim) + lag ->
  RateLimit.burst q + d / interval q <=
  SourceLimiterCapacity.get (ResolveLimits.source_limiter_capacity lim).
Proof.
  intros (Hn & Hi & Hb & Hw)%policy_bounds Hlag q Hd. revert Hlag Hd.
  unfold clock_slack, SourceLimiterIdle.duration, from_secs, interval, NANOS_PER_SEC. subst q.
  set (n := RateLimit.per_second _) in *. set (i := SourceLimiterIdle.seconds _) in *.
  assert (HT : 100000 <= 1000000000 / n) by (apply Z.div_le_lower_bound; lia).
  pose proof (Z.div_mod 1000000000 n ltac:(lia)) as Hdm.
  set (T := 1000000000 / n) in *. set (r := 1000000000 mod n) in *. intros Hlag Hd.
  enough (d / T <= n * i) by lia. apply Z.lt_succ_r, Z.div_lt_upper_bound; [lia|].
  assert (i * 1000000000 = i * (n * T) + i * r) by (rewrite Hdm at 1; ring). nia.
Qed.

(** ** The source table *)

Section TableFacts.
Context `{GovernorLaws} {SourcePrefix : Type} `{Countable SourcePrefix}.
Context (lim : ResolveLimits.t) (lim_wf : ResolveLimits.wf lim).
(** The table's clock runs [offset] ahead of the global limiter's, and is read up to [lag]
    later in the same request. *)
Context (offset lag : Z) (lag_fits : 0 <= lag <= clock_slack lim).
Implicit Types (s : ResolveLimiters SourcePrefix) (rs : list (request SourcePrefix)).

Definition quota : RateLimit.t := ResolveRate.rate_limit (ResolveLimits.global lim).
Definition idle : Z := SourceLimiterIdle.duration (ResolveLimits.source_limiter_idle lim).

Definition timely (r : request SourcePrefix) : Prop :=
  offset <= table_reading r - global_reading r <= offset + lag.

(** Every entry of the table was last seen at a globally admitted request of [h]: a pair of
    its source and the global reading. *)
Definition remembered s (h : list (option SourcePrefix * Z)) : Prop :=
  forall src e, sources s !! src = Some e ->
    exists g, (Some src, g) ∈ h /\ MonotonicTime.elapsed (last_seen e) <= offset + lag + g
      /\ offset + g <= MonotonicTime.elapsed (last_seen e).

(** [h] are the globally admitted requests. *)
Definition history rs s (h : list (option SourcePrefix * Z)) : Prop :=
  limits s = lim /\ global s = after (direct quota) (global_reading <$> rs) /\
  h.*2 = admitted (direct quota) (global_reading <$> rs) /\ remembered s h.

Lemma quota_ok : 1 <= RateLimit.per_second quota <= NANOS_PER_SEC /\ 1 <= RateLimit.burst quota.
Proof. pose proof (policy_bounds lim lim_wf) as (Hn & _ & Hb & _). unfold quota, NANOS_PER_SEC. lia. Qed.

Lemma size_sources_of (l : list (option SourcePrefix * Z)) :
  (size (list_to_set (omap fst l) : gset SourcePrefix) <= length l)%nat.
Proof.
  induction l as [|[[x|] g] l IH]; cbn [omap list_omap fst length]; [by rewrite list_to_set_nil, size_empty| |lia].
  rewrite list_to_set_cons, size_union_alt, size_singleton.
  assert (size ((list_to_set (omap fst l) : gset SourcePrefix) ∖ {[x]}) <= size (list_to_set (omap fst l) : gset SourcePrefix))%nat
    by (apply subseteq_size; set_solver). lia.
Qed.

Lemma idle_positive : 0 < idle.
Proof.
  pose proof (policy_bounds lim lim_wf) as (_ & Hi & _).
  unfold idle, SourceLimiterIdle.duration, from_secs, NANOS_PER_SEC. lia.
Qed.

(** The entries a pruning at [now] keeps are sources of the recent history. *)
Lemma pruned_size s h g now :
  limits s = lim -> now - g <= offset + lag -> offset <= now - g -> remembered s h ->
  (size (sources (prune s (MonotonicTime.Mk now))) <= length (filter (fun e => (g - e.2 < idle + lag)%Z) h))%nat.
Proof.
  intros Hlim Hnow Hnow' Hin. rewrite <- size_dom.
  etrans; [|apply size_sources_of]. apply subseteq_size. intros src [e He]%elem_of_dom. cbn in He.
  apply map_lookup_filter_Some in He as [He Hr]. cbn in Hr. rewrite Hlim in Hr. fold idle in Hr.
  destruct (Hin _ _ He) as (g' & Hg' & Hle & Hge).
  apply elem_of_list_to_set, list_elem_of_omap. exists (Some src, g').
  split; [|done]. apply list_elem_of_filter. split; [|done]. cbn.
  pose proof idle_positive.
  unfold retained, MonotonicTime.duration_since in Hr. cbn in Hr.
  destruct (Z.leb_spec (MonotonicTime.elapsed (last_seen e)) now); [apply Z.ltb_lt in Hr|]; lia.
Qed.

(** At a globally admitted request the pruned table has room. *)
Lemma pruned_room rs s h g now :
  StronglySorted Z.le ((global_reading <$> rs) ++ [g]) -> offset <= now - g <= offset + lag ->
  history rs s h -> (check_limiter (global s) g).1 = true ->
  Z.of_nat (size (sources (prune s (MonotonicTime.Mk now)))) <
    SourceLimiterCapacity.get (ResolveLimits.source_limiter_capacity lim).
Proof.
  intros Hs Hnow (Hlim & Hg & Hh & Hin) Hok.
  assert (Ha : (h ++ [(None : option SourcePrefix, g)]).*2 = admitted (direct quota) ((global_reading <$> rs) ++ [g])).
  { rewrite fmap_app, Hh, admitted_snoc, <- Hg, Hok. done. }
  assert (Hsorted : StronglySorted Z.le ((h ++ [(None : option SourcePrefix, g)]).*2)) by (rewrite Ha; by apply admitted_sorted).
  assert (Hle : Forall (fun e => e.2 <= g) h).
  { rewrite fmap_app in Hsorted. cbn in Hsorted. apply Forall_forall. intros e He.
    eapply (StronglySorted_app_1_elem_of Z.le); [exact Hsorted| |by left].
    apply list_elem_of_fmap. by exists e. }
  pose proof (pruned_size s h g now Hlim ltac:(lia) ltac:(lia) Hin) as Hsize.
  destruct (recent_suffix (h ++ [(None : option SourcePrefix, g)]) g (idle + lag) Hsorted) as [before Hb].
  pose proof idle_positive as Hidle.
  set (recent := filter (fun e => g - e.2 < idle + lag) h) in *.
  assert (Hf : filter (fun e : option SourcePrefix * Z => g - e.2 < idle + lag) (h ++ [(None : option SourcePrefix, g)]) = recent ++ [(None : option SourcePrefix, g)]).
  { rewrite filter_app. f_equal. rewrite filter_cons_True by (cbn; lia). done. }
  rewrite Hf in Hb.
  pose proof (admitted_bound quota ((global_reading <$> rs) ++ [g]) (before.*2) ((recent ++ [(None : option SourcePrefix, g)]).*2) []
    (proj1 quota_ok) (proj2 quota_ok) Hs) as Hbound.
  rewrite <- Ha, Hb, !fmap_app, app_nil_r in Hbound. cbn in Hbound.
  specialize (Hbound eq_refl ltac:(by destruct (recent.*2))).
  rewrite List.last_last, zlen_app in Hbound. change (zlen [g]) with 1 in Hbound.
  assert (Hhd : 0 <= g - List.hd 0 (recent.*2 ++ [g]) < idle + lag).
  { destruct recent as [|e r] eqn:Hr; cbn; [lia|].
    assert (He : e ∈ filter (fun e => g - e.2 < idle + lag) h) by (fold recent; rewrite Hr; by left).
    apply list_elem_of_filter in He as [He1 He2]. rewrite Forall_forall in Hle. specialize (Hle _ He2). cbn in *. lia. }
  pose proof (window_fits lim lag _ lim_wf (proj2 lag_fits) Hhd) as Hw. fold quota in Hw.
  change (RateLimit.burst quota) with (ResolveRate.burst (ResolveLimits.global lim)) in Hw.
  unfold zlen in Hbound. rewrite length_fmap in Hbound. lia.
Qed.

(** [check_source] with room in the table asks the source's own limiter, an existing or a
    new one, and records the time. *)
Lemma check_source_room s src now g :
  Z.of_nat (size (sources (prune s now))) <
    SourceLimiterCapacity.get (ResolveLimits.source_limiter_capacity (limits s)) ->
  let p := prune s now in
  let l := match sources p !! src with
           | Some e => limiter e
           | None => direct (ResolveRate.rate_limit (ResolveLimits.source (limits s)))
           end in
  check_source s src now g =
  ((check_limiter l g).1,
   set_sources p (<[src := MkSourceLimiter (check_limiter l g).2 now]> (sources p))).
Proof.
  intros Hroom p l. fold p in Hroom. unfold check_source. fold p. unfold l. destruct (sources p !! src) as [e|].
  - by destruct (check_limiter (limiter e) g).
  - unfold is_full. change (limits p) with (limits s). destruct (Z.eqb_spec (Z.of_nat (size (sources p)))
      (SourceLimiterCapacity.get (ResolveLimits.source_limiter_capacity (limits s)))); [lia|].
    by destruct (check_limiter _ g).
Qed.

(** The global check alone. *)
Lemma history_global rs s h r :
  history rs s h ->
  history (rs ++ [r]) (check_global s (global_reading r)).2
    (h ++ if (check_limiter (global s) (global_reading r)).1 then [(from r, global_reading r)] else []).
Proof.
  intros (Hlim & Hg & Hh & Hin). unfold check_global.
  destruct (check_limiter (global s) (global_reading r)) as [ok l] eqn:E. cbn [fst snd]. split_and!.
  - exact Hlim.
  - rewrite fmap_app. cbn. by rewrite after_snoc, <- Hg, E.
  - rewrite !fmap_app. cbn. rewrite admitted_snoc, <- Hg, E, Hh. by destruct ok.
  - intros src e He. destruct (Hin _ _ He) as (g' & Hin' & Hb). exists g'. split; [|done].
    apply elem_of_app. by left.
Qed.

Lemma history_step rs s h r :
  StronglySorted Z.le (global_reading <$> (rs ++ [r])) -> timely r -> history rs s h ->
  exists h', history (rs ++ [r]) (serve_request s r) h'.
Proof.
  intros Hs Ht Hh. pose proof (history_global rs s h r Hh) as Hg. unfold serve_request.
  destruct (from r) as [src|] eqn:Hsrc; [|by eexists].
  unfold check, check_global in *. rewrite fmap_app in Hs. destruct r as [o g now r']. cbn in *. subst o.
  destruct (check_limiter (global s) g) as [[] l] eqn:E; cbn [negb fst snd] in *; [|by eexists].
  set (s1 := MkLimiters l (sources s) (limits s)) in *. eexists.
  rewrite (check_source_room s1).
  2:{ change (limits s1) with (limits s). rewrite (proj1 Hh).
      change (sources (prune s1 (MonotonicTime.Mk now))) with (sources (prune s (MonotonicTime.Mk now))).
      apply (pruned_room rs s h g now Hs Ht Hh). by rewrite E. }
  destruct Hg as (Hlim & Hgl & Hh' & Hin). split_and!; [exact Hlim|exact Hgl|exact Hh'|].
  intros src' e. unfold set_sources at 1. cbn [snd sources]. intros [[<- <-]|[_ He]]%lookup_insert_Some.
  - exists g. unfold timely in Ht. cbn in *. split; [apply elem_of_app; right; by left|lia].
  - apply map_lookup_filter_Some in He as [He _]. by apply Hin.
Qed.

Lemma run_history rs :
  StronglySorted Z.le (global_reading <$> rs) -> Forall timely rs ->
  exists h, history rs (run (with_limits lim) rs) h.
Proof.
  induction rs as [|r rs IH] using rev_ind; intros Hs Ht.
  - exists []. split_and!; [done..|]. intros src e He. cbn in He. by rewrite lookup_empty in He.
  - apply Forall_app in Ht as [Ht [Hr _]%Forall_cons].
    pose proof Hs as Hs'. rewrite fmap_app in Hs'. apply StronglySorted_app_1_l in Hs'.
    destruct (IH Hs' Ht) as [h Hh]. unfold run. rewrite foldl_app. by apply (history_step rs _ h r).
Qed.
End TableFacts.

(** C34: A validated resolve policy never refuses a source for lack of table space while
    the clocks agree.  The global limiter, the table and the source's limiter each read
    their own clock; the global readings do not decrease, and in every request the table's
    reading is [offset] to [offset + lag] after the global one, where [lag] is at most the
    slack the policy leaves.  Then, after any sequence of requests, one that the global
    limiter admits finds room in the pruned table: the answer is that of the source's own
    limiter, a new one for a source that is not in the table.  The slack is at least 34
    microseconds ([clock_slack_positive]), and one nanosecond more can fill the table
    ([lag_fills_table]). *)
Theorem resolve_table_never_full `{GovernorLaws} {SourcePrefix : Type} `{Countable SourcePrefix}
    lim offset lag (rs : list (request SourcePrefix)) src g now g' :
  ResolveLimits.wf lim -> 0 <= lag <= clock_slack lim ->
  StronglySorted Z.le (global_reading <$> (rs ++ [MkRequest (Some src) g now g'])) ->
  Forall (fun r => offset <= table_reading r - global_reading r <= offset + lag)
    (rs ++ [MkRequest (Some src) g now g']) ->
  let s := run (with_limits lim) rs in
  let p := prune s (MonotonicTime.Mk now) in
  let l := match sources p !! src with
           | Some e => limiter e
           | None => direct (ResolveRate.rate_limit (ResolveLimits.source lim))
           end in
  (check s src (MonotonicTime.Mk now) g g').1 = (check_limiter (global s) g).1 && (check_limiter l g').1.
Proof.
  intros Hwf Hlag Hs [Ht [Hr _]%Forall_cons]%Forall_app s p l. rewrite fmap_app in Hs. cbn in Hs, Hr.
  destruct (run_history lim Hwf offset lag Hlag rs (StronglySorted_app_1_l _ _ _ Hs) Ht) as [h Hh].
  fold s in Hh. pose proof Hh as (Hlim & _).
  unfold check, check_global. destruct (check_limiter (global s) g) as [ok gl] eqn:E.
  destruct ok; cbn [negb fst andb]; [|done]. set (s1 := MkLimiters gl (sources s) (limits s)).
  rewrite (check_source_room s1); cbn [fst].
  - change (sources (prune s1 (MonotonicTime.Mk now))) with (sources p). change (limits s1) with (limits s).
    by rewrite Hlim.
  - change (sources (prune s1 (MonotonicTime.Mk now))) with (sources p).
    change (limits s1) with (limits s). rewrite Hlim.
    apply (pruned_room lim Hwf offset lag Hlag rs s h g now Hs Hr Hh). by rewrite E.
Qed.

(** ** A reference limiter

    GCRA: a theoretical arrival time that every admitted cell moves by one interval, and
    that may run ahead of the clock by the burst. *)

Record Gcra := MkGcra { gcra_quota : RateLimit.t; gcra_tat : option Z }.

Definition gcra_check (l : Gcra) (t : Z) : bool * Gcra :=
  let q := gcra_quota l in
  let base := match gcra_tat l with Some x => Z.max x t | None => t end in
  if base + interval q - t <=? interval q * RateLimit.burst q
  then (true, MkGcra q (Some (base + interval q))) else (false, l).

#[local] Instance reference_gcra : Governor := {|
  Limiter := Gcra; direct q := MkGcra q None; check_limiter := gcra_check |}.

Section GcraFacts.
Context (q : RateLimit.t).

Lemma gcra_segment x times seg rest :
  admitted (MkGcra q (Some x) : Limiter) times = seg ++ rest -> seg <> [] ->
  x + zlen seg * interval q <= List.last seg 0 + interval q * RateLimit.burst q.
Proof.
  revert x seg. induction times as [|t times IH]; intros x seg; cbn [admitted].
  { destruct seg; [done|discriminate]. }
  cbn [check_limiter reference_gcra]. unfold gcra_check. cbn [gcra_quota gcra_tat].
  destruct (Z.leb_spec (Z.max x t + interval q - t) (interval q * RateLimit.burst q)); cbn [app]; [|apply IH].
  destruct seg as [|t' seg]; [done|]. intros [= <- Hseg] _. rewrite zlen_cons, Z.mul_add_distr_r.
  destruct seg as [|t2 seg]; [change (zlen (A:=Z) []) with 0; cbn; lia|].
  specialize (IH _ (t2 :: seg) Hseg ltac:(done)). change (List.last (t :: t2 :: seg) 0) with (List.last (t2 :: seg) 0).
  lia.
Qed.

Lemma gcra_bound l times before seg rest :
  gcra_quota l = q -> admitted (l : Limiter) times = before ++ seg ++ rest -> seg <> [] ->
  zlen seg * interval q <= List.last seg 0 - List.hd 0 seg + interval q * RateLimit.burst q.
Proof.
  revert l before. induction times as [|t times IH]; intros l before Hq; cbn [admitted].
  { destruct before; [|discriminate]. destruct seg; [done|discriminate]. }
  destruct l as [q' tat]. cbn in Hq. subst q'.
  cbn [check_limiter reference_gcra]. unfold gcra_check. cbn [gcra_quota gcra_tat].
  set (base := match tat with Some x => Z.max x t | None => t end).
  assert (Hbase : t <= base) by (unfold base; destruct tat; lia).
  destruct (Z.leb_spec (base + interval q - t) (interval q * RateLimit.burst q)); cbn [app];
    [|by apply (IH (MkGcra q tat))].
  destruct before as [|b0 before]; cbn [app].
  2:{ intros [= _ Hseg]. by eapply (IH (MkGcra q _)). }
  destruct seg as [|t' seg]; [done|]. intros [= <- Hseg] _. rewrite zlen_cons, Z.mul_add_distr_r. cbn [List.hd].
  destruct seg as [|t2 seg]; [change (zlen (A:=Z) []) with 0; cbn; lia|].
  pose proof (gcra_segment _ _ (t2 :: seg) rest Hseg ltac:(done)) as Hs.
  change (List.last (t :: t2 :: seg) 0) with (List.last (t2 :: seg) 0). lia.
Qed.
End GcraFacts.

#[local] Instance reference_gcra_laws : GovernorLaws.
Proof.
  intros q times before seg rest Hp Hb _ Hadm Hne.
  assert (Hi : 0 < interval q) by (unfold interval; apply Z.div_str_pos; lia).
  pose proof (gcra_bound q (MkGcra q None) times before seg rest eq_refl Hadm Hne) as Hg.
  enough (zlen seg - RateLimit.burst q <= (List.last seg 0 - List.hd 0 seg) / interval q) by lia.
  apply Z.div_le_lower_bound; lia.
Qed.

Lemma resolve_table_never_full_witness :
  let lim := ResolveLimits.Mk (ResolveConcurrency.Mk 64) (ResolveRate.Mk 4 128) (ResolveRate.Mk 1 32)
    (SourceLimiterCapacity.Mk 4096) (SourceLimiterIdle.Mk 600) (RetryAfter.Mk 250) in
  (check (run (with_limits lim) [MkRequest (Some 1) 5 20 21; MkRequest None 6 31 32; MkRequest (Some 2) 9 50 51])
     3 (MonotonicTime.Mk 60) 12 61).1 = true.
Proof.
  intros lim. rewrite (resolve_table_never_full lim 10 40
    [MkRequest (Some 1) 5 20 21; MkRequest None 6 31 32; MkRequest (Some 2) 9 50 51] 3 12 60 61);
    [vm_compute; reflexivity|by vm_compute|by vm_compute| |].
  - cbn. repeat first [apply SSorted_nil | apply SSorted_cons | apply Forall_nil_2 | apply Forall_cons_2 | lia].
  - repeat first [apply Forall_nil_2 | apply Forall_cons_2 | cbn; lia].
Defined.

(** Three requests a second and a table of four sources that are forgotten after a second:
    the policy is valid, and a first request whose table reading is one nanosecond past the
    slack behind its global one leaves no room for the fifth source, which the global
    limiter admits. *)
Example lag_fills_table :
  let lim := ResolveLimits.Mk (ResolveConcurrency.Mk 64) (ResolveRate.Mk 3 1) (ResolveRate.Mk 1 1)
    (SourceLimiterCapacity.Mk 4) (SourceLimiterIdle.Mk 1) (RetryAfter.Mk 250) in
  let third := 333333333 in
  let s := run (with_limits lim)
    (MkRequest (Some 0) 0 third third ::
     ((fun i => MkRequest (Some i) (third * i) (third * i) (third * i)) <$> [1; 2; 3])) in
  ResolveLimits.wf lim /\ third = clock_slack lim + 1 /\
  (check_limiter (global s) (4 * third)).1 = true /\
  (check s 4 (MonotonicTime.Mk (4 * third)) (4 * third) (4 * third)).1 = false /\
  is_full (prune s (MonotonicTime.Mk (4 * third))) = true.
Proof. by vm_compute. Qed.
