(* ===== verification/Diagnostic.v ===== *)
(** * Error reports

    [write_error_report] of [crates/yonder-core/src/diagnostic.rs].  An error is its
    message followed by the messages of its [source()] chain; the output is a sink that
    takes one line at a time and may fail. *)

From S2P Require Import Prelude.

Definition MAX_ERROR_CHAIN_DEPTH : nat := 16.

(** The three kinds of lines the report has. *)
Inductive line (Message : Type) := ErrorLine (m : Message) | CausedBy (m : Message) | Omitted.
Arguments ErrorLine {_} m.
Arguments CausedBy {_} m.
Arguments Omitted {_}.

Section Report.
Context {Message : Type} `{EqDecision Message} {Sink : Type}.
(** [writeln!]: the sink after the line, or an I/O error. *)
Context (writeln : Sink -> line Message -> option Sink).

(** The loop: at most [fuel] more causes; the result is the sink and what is left. *)
Fixpoint write_causes (fuel : nat) (output : Sink) (previous : Message) (source : list Message)
  : option (Sink * list Message) :=
  match fuel with
  | O => Some (output, source)
  | S fuel' =>
    match source with
    | [] => Some (output, [])
    | message :: rest =>
      output ← (if decide (message = previous) then Some output else writeln output (CausedBy message));
      write_causes fuel' output message rest
    end
  end.

Definition write_error_report (output : Sink) (error : Message) (source : list Message) : option Sink :=
  output ← writeln output (ErrorLine error);
  '(output, remaining) ← write_causes MAX_ERROR_CHAIN_DEPTH output error source;
  match remaining with [] => Some output | _ => writeln output Omitted end.
End Report.

(** ** The report on a sink that never fails *)

Section ReportFacts.
Context {Message : Type} `{EqDecision Message}.

Definition append_line (output : list (line Message)) (l : line Message) : option (list (line Message)) :=
  Some (output ++ [l]).

(** A chain without the messages that repeat the one before. *)
Fixpoint dedup (previous : Message) (l : list Message) : list Message :=
  match l with
  | [] => []
  | m :: rest => if decide (m = previous) then dedup m rest else m :: dedup m rest
  end.

Lemma write_causes_eq fuel out prev src :
  write_causes append_line fuel out prev src =
  Some (out ++ (CausedBy <$> dedup prev (take fuel src)), drop fuel src).
Proof.
  revert out prev src. induction fuel as [|fuel IH]; intros out prev src; cbn [write_causes].
  - by rewrite take_0, drop_0, app_nil_r.
  - destruct src as [|m rest]; [by rewrite app_nil_r|]. cbn [take drop dedup].
    destruct (decide (m = prev)); cbn [mbind option_bind].
    + apply IH.
    + change (append_line out (CausedBy m)) with (Some (out ++ [CausedBy m])). cbn [mbind option_bind]. rewrite IH. csimpl. by rewrite <- app_assoc.
Qed.

Lemma dedup_length prev l : (length (dedup prev l) <= length l)%nat.
Proof.
  revert prev. induction l as [|m l IH]; intros prev; cbn; [done|].
  pose proof (IH m). destruct (decide _); cbn; lia.
Qed.

(** No two adjacent elements are equal. *)
Fixpoint no_repeat (l : list Message) : Prop :=
  match l with x :: ((y :: _) as rest) => x <> y /\ no_repeat rest | _ => True end.

Lemma dedup_no_repeat prev l : no_repeat (prev :: dedup prev l).
Proof.
  revert prev. induction l as [|m l IH]; intros prev; [done|]. cbn [dedup].
  destruct (decide (m = prev)) as [->|Hne]; [apply IH|]. split; [done|]. apply IH.
Qed.

(** An error report on a sink that accepts every line is the error's message, then
    each of the first sixteen causes that differs from the message before it, and one
    closing line exactly when the chain is longer; it is bounded by eighteen lines, shows
    no message twice in a row, and ends on every chain. *)
Theorem error_report_spec error source :
  exists causes, write_error_report append_line [] error source =
    Some ([ErrorLine error] ++ (CausedBy <$> causes) ++
          (if decide (MAX_ERROR_CHAIN_DEPTH < length source)%nat then [Omitted] else [])) /\
    causes = dedup error (take MAX_ERROR_CHAIN_DEPTH source) /\
    (length causes <= MAX_ERROR_CHAIN_DEPTH)%nat /\ no_repeat (error :: causes).
Proof.
  exists (dedup error (take MAX_ERROR_CHAIN_DEPTH source)). split_and!.
  - unfold write_error_report. change (append_line [] (ErrorLine error)) with (Some [ErrorLine error]).
    cbn [mbind option_bind]. rewrite write_causes_eq.
    cbn [mbind option_bind]. destruct (decide (MAX_ERROR_CHAIN_DEPTH < length source)%nat) as [Hlt|Hge].
    + destruct (drop MAX_ERROR_CHAIN_DEPTH source) as [|m rest] eqn:E.
      * apply (f_equal length) in E. rewrite length_drop in E. cbn in E. lia.
      * unfold append_line. by rewrite <- app_assoc.
    + rewrite drop_ge by lia. by rewrite app_nil_r.
  - done.
  - etrans; [apply dedup_length|]. rewrite length_take. lia.
  - apply dedup_no_repeat.
Qed.

(** A sink failure ends the report. *)
Lemma report_error_path {Sink} (writeln : Sink -> line Message -> option Sink) out error source :
  writeln out (ErrorLine error) = None -> write_error_report writeln out error source = None.
Proof. intros H. unfold write_error_report. by rewrite H. Qed.
End ReportFacts.
