(* ===== verification/Layout.v ===== *)
(** * Fixed layouts

    What the fixed-size messages of [crates/yonder-core/src/wire/audit.rs] and
    [wire/audit_container.rs] share.  Their encoders [append] one field after another
    to a zeroed buffer; their decoders check the total length and then slice the fields
    out at constant offsets.  [fixed_layout] relates both to one list of field sizes and
    [layout_codec] turns it into the codec contract of [Codec]. *)

From S2P Require Import Prelude Domain Codec WireRegistry.
Open Scope Z_scope.

(** ** Writing: a buffer and its cursor *)

(** [append(destination, cursor, source)]: copies [source] to the cursor and advances it. *)
Definition append (cursor : list Z * Z) (source : list Z) : res ProtocolError (list Z * Z) :=
  let end_ := cursor.2 + zlen source in
  destination ← copy_range cursor.1 cursor.2 end_ source;
  Ok (destination, end_).

(** [WireBytes::new(bytes, cursor)]. *)
Definition finish (cursor : list Z * Z) : res ProtocolError WireBytes.t :=
  WireBytes.new cursor.1 cursor.2.

(** A zeroed buffer of [n] bytes with its cursor at the start. *)
Definition start (n : Z) : list Z * Z := (zeros n, 0).

(** The buffer after [pre] was written, with [n] bytes of room left. *)
Definition written (pre : list Z) (n : Z) : list Z * Z := (pre ++ zeros n, zlen pre).

Lemma start_written n : start n = written [] n.
Proof. done. Qed.

Lemma append_written pre n source :
  zlen source <= n -> append (written pre n) source = Ok (written (pre ++ source) (n - zlen source)).
Proof.
  intros. unfold append, written. cbn [fst snd].
  rewrite copy_range_append by done. cbn [mbind res_bind]. by rewrite zlen_app.
Qed.

Lemma finish_written pre n : 0 <= n -> WireBytes.as_slice <$> finish (written pre n) = Ok pre.
Proof. intros. unfold finish, written. cbn [fst snd]. by apply wire_new_slice. Qed.

(** ** Reading at constant offsets *)

(** [let mut x = \[0; n\]; x.copy_from_slice(&bytes[a..b])]. *)
Definition array_at (n : Z) (bytes : list Z) (a b : Z) : res ProtocolError (list Z) :=
  part ← slice bytes a b; copy_range (zeros n) 0 n part.

(** [uN::from_be_bytes(bytes[a..b].try_into().expect(..))], [n] bytes wide. *)
Definition uint_at (n : Z) (bytes : list Z) (a b : Z) : res ProtocolError Z :=
  part ← slice bytes a b;
  array ← expect_some (try_into_array n part);
  Ok (from_be_bytes array).

(** [u16::from_be_bytes([bytes[i], bytes[j]])]. *)
Definition u16_at (bytes : list Z) (i j : Z) : res ProtocolError Z :=
  x ← index bytes i; y ← index bytes j; Ok (from_be_bytes [x; y]).

(** ** Layouts *)

Definition zsum (sizes : list Z) : Z := foldr Z.add 0 sizes.

(** A byte array of the given length. *)
Definition is_array (n : Z) (l : list Z) : Prop := bytes l /\ zlen l = n.

Lemma zlen_concat parts : zlen (concat parts) = zsum (zlen (A:=Z) <$> parts).
Proof. induction parts as [|p ps IH]; [done|]. simpl. rewrite zlen_app, IH. done. Qed.

Lemma bytes_concat parts : Forall bytes parts -> bytes (concat parts).
Proof. induction 1; simpl; [constructor|]. by apply Forall_app. Qed.

(** A string of the right length is the concatenation of the fields. *)
Lemma split_layout sizes l :
  Forall (Z.le 0) sizes -> zlen l = zsum sizes -> bytes l ->
  exists parts, l = concat parts /\ zlen (A:=Z) <$> parts = sizes /\ Forall bytes parts.
Proof.
  intros Hs. revert l. induction Hs as [|n sizes Hn Hs IH]; intros l Hl Hb.
  - exists []. split_and!; [by apply zlen_0|done|constructor].
  - assert (0 <= zsum sizes) by (clear -Hs; induction Hs; simpl; lia). simpl in Hl.
    destruct (split_at l n ltac:(lia)) as (p & l' & -> & Hp).
    apply Forall_app in Hb as [Hb1 Hb2]. rewrite zlen_app in Hl.
    destruct (IH l' ltac:(lia) Hb2) as (ps & -> & <- & Hps). exists (p :: ps).
    csimpl. rewrite Hp. auto.
Qed.

Lemma concat_inj (ps qs : list (list Z)) :
  zlen <$> ps = zlen <$> qs -> concat ps = concat qs -> ps = qs.
Proof.
  revert qs. induction ps as [|p ps IH]; intros [|q qs] Hs H; try done.
  csimpl in *. injection Hs as Hpq Hs. apply app_inj_1 in H as [-> H]; [|unfold zlen in Hpq; lia].
  f_equal. by apply IH.
Qed.

Section Offsets.
Context (sizes : list Z) (parts : list (list Z)).
Hypothesis Hsizes : zlen (A:=Z) <$> parts = sizes.

Lemma concat_at k p :
  parts !! k = Some p ->
  exists l1 l2, concat parts = l1 ++ p ++ l2 /\ zlen l1 = zsum (take k sizes) /\
    zsum (take (S k) sizes) = zlen l1 + zlen p.
Proof.
  subst sizes. revert k. induction parts as [|q ps IH]; intros k Hk; [done|].
  destruct k as [|k]; csimpl in *.
  - injection Hk as ->. exists [], (concat ps). split_and!; [done|done|]. zlen_tac.
  - destruct (IH k Hk) as (l1 & l2 & -> & H1 & H2). exists (q ++ l1), l2.
    unfold zsum in *. csimpl in *.
    rewrite <- app_assoc. split_and!; [done|zlen_tac..].
Qed.

Lemma slice_layout {E} k p a b :
  parts !! k = Some p -> a = zsum (take k sizes) -> b = zsum (take (S k) sizes) ->
  slice (E:=E) (concat parts) a b = Ok p.
Proof. intros Hk -> ->. destruct (concat_at k p Hk) as (l1 & l2 & -> & <- & ->). by apply slice_app. Qed.

Lemma slice_rest_layout {E} k a b :
  a = zsum (take k sizes) -> b = zlen (concat parts) ->
  slice (E:=E) (concat parts) a b = Ok (concat (drop k parts)).
Proof.
  intros -> ->. subst sizes. rewrite <- fmap_take, <- zlen_concat.
  rewrite <- (take_drop k parts) at 1 3. rewrite !concat_app. by apply slice_tail.
Qed.

Lemma index_layout {E} k p j x i :
  parts !! k = Some p -> p !! j = Some x -> i = zsum (take k sizes) + Z.of_nat j ->
  index (E:=E) (concat parts) i = Ok x.
Proof.
  intros Hk Hj ->. destruct (concat_at k p Hk) as (l1 & l2 & -> & <- & _).
  apply list_elem_of_split_length in Hj as (p1 & p2 & -> & ->).
  rewrite <- app_assoc, app_assoc. simpl. apply index_app. rewrite zlen_app. unfold zlen. lia.
Qed.

Lemma array_at_layout k p n a b :
  parts !! k = Some p -> sizes !! k = Some n -> a = zsum (take k sizes) ->
  b = zsum (take (S k) sizes) -> array_at n (concat parts) a b = Ok p.
Proof.
  intros Hk Hn Ha Hb. unfold array_at. rewrite (slice_layout k p) by done. cbn [mbind res_bind].
  subst sizes. rewrite list_lookup_fmap, Hk in Hn. injection Hn as <-.
  rewrite copy_into_zeros by lia. by rewrite Z.sub_diag, app_nil_r.
Qed.

Lemma uint_at_layout k p n a b :
  parts !! k = Some p -> sizes !! k = Some n -> a = zsum (take k sizes) ->
  b = zsum (take (S k) sizes) -> uint_at n (concat parts) a b = Ok (from_be_bytes p).
Proof.
  intros Hk Hn Ha Hb. unfold uint_at. rewrite (slice_layout k p) by done. cbn [mbind res_bind].
  subst sizes. rewrite list_lookup_fmap, Hk in Hn. injection Hn as <-.
  by rewrite try_into_exact.
Qed.

Lemma u16_at_layout k p i j :
  parts !! k = Some p -> sizes !! k = Some 2 -> i = zsum (take k sizes) ->
  j = zsum (take k sizes) + 1 -> u16_at (concat parts) i j = Ok (from_be_bytes p).
Proof.
  intros Hk Hn -> ->. assert (zlen p = 2) as Hp.
  { subst sizes. rewrite list_lookup_fmap, Hk in Hn. by injection Hn. }
  explode p Hp. unfold u16_at.
  rewrite (index_layout k _ 0 _ (zsum (take k sizes)) Hk eq_refl) by lia. cbn [mbind res_bind].
  by rewrite (index_layout k _ 1 _ _ Hk eq_refl).
Qed.
End Offsets.

(** Rewrites every read at a constant offset of [concat parts], given
    [H : zlen <$> parts = sizes] with literal sizes and an explicit list of parts. *)
Ltac read_one H :=
  let try_all tac :=
    first [tac 0%nat | tac 1%nat | tac 2%nat | tac 3%nat | tac 4%nat | tac 5%nat | tac 6%nat
          | tac 7%nat | tac 8%nat | tac 9%nat | tac 10%nat | tac 11%nat | tac 12%nat
          | tac 13%nat | tac 14%nat | tac 15%nat | tac 16%nat | tac 17%nat] in
  match goal with
  | |- context [array_at ?n (concat ?ps) ?a ?b] =>
      try_all ltac:(fun k => rewrite (array_at_layout _ ps H k _ n a b eq_refl eq_refl eq_refl eq_refl))
  | |- context [uint_at ?n (concat ?ps) ?a ?b] =>
      try_all ltac:(fun k => rewrite (uint_at_layout _ ps H k _ n a b eq_refl eq_refl eq_refl eq_refl))
  | |- context [u16_at (concat ?ps) ?i ?j] =>
      try_all ltac:(fun k => rewrite (u16_at_layout _ ps H k _ i j eq_refl eq_refl eq_refl eq_refl))
  | |- context [index (concat ?ps) ?i] =>
      try_all ltac:(fun k => rewrite (index_layout _ ps H k _ 0 _ i eq_refl eq_refl eq_refl))
  | |- context [slice (concat ?ps) ?a ?b] =>
      try_all ltac:(fun k => rewrite (slice_layout _ ps H k _ a b eq_refl eq_refl eq_refl))
  end; cbn [mbind res_bind].

Ltac read_layout H := repeat read_one H.

(** [Forall P] over an explicit list, from hypotheses about the elements. *)
Ltac forall_tac :=
  repeat (apply Forall_cons_2; [solve [assumption | bytes_tac]|]); apply Forall_nil_2.

(** Names the parts of [H : zlen <$> ps = sizes] for literal sizes, splitting [H] into one
    length equation per part. *)
Ltac explode_parts ps H :=
  let p := fresh "p" in
  destruct ps as [|p ps];
  [first [discriminate H | clear H]
  |first [discriminate H
         |rewrite fmap_cons in H; let Hp := fresh "Hlen" in injection H as Hp H; explode_parts ps H]].

(** Evaluates a sequence of [append]s to a fresh buffer and the final [finish]. *)
Ltac eval_appends :=
  rewrite ?start_written;
  repeat (rewrite append_written by zlen_tac; cbn [mbind res_bind]);
  try rewrite finish_written by zlen_tac;
  rewrite ?app_nil_l.

(** ** The contract of a fixed layout *)

(** [fields m] are the wire fields of [m] in order, [sizes] their lengths. *)
Record fixed_layout {M} (sizes : list Z) (fields : M -> list (list Z))
    (enc : M -> res ProtocolError (list Z)) (dec : list Z -> res ProtocolError M)
    (wf : M -> Prop) : Prop := {
  fl_fields m : wf m -> zlen (A:=Z) <$> fields m = sizes /\ Forall bytes (fields m);
  fl_enc m : wf m -> enc m = Ok (concat (fields m));
  fl_dec m : wf m -> dec (concat (fields m)) = Ok m;
  fl_canonical ps m : zlen (A:=Z) <$> ps = sizes -> Forall bytes ps ->
    dec (concat ps) = Ok m -> wf m /\ fields m = ps;
  fl_no_panic ps : zlen (A:=Z) <$> ps = sizes -> Forall bytes ps -> dec (concat ps) <> Panic;
  fl_exact l : zlen l <> zsum sizes -> exists e, dec l = Err e;
}.

Section FixedLayout.
Context {M} (sizes : list Z) (fields : M -> list (list Z)).
Context (enc : M -> res ProtocolError (list Z)) (dec : list Z -> res ProtocolError M).
Context (wf : M -> Prop).
Hypothesis Hpos : Forall (Z.le 0) sizes.
Hypothesis Hfl : fixed_layout sizes fields enc dec wf.

Lemma layout_enc_len m l : wf m -> enc m = Ok l -> zlen l = zsum sizes /\ bytes l.
Proof.
  intros Hwf He. rewrite (fl_enc _ _ _ _ _ Hfl) in He by done. injection He as <-.
  destruct (fl_fields _ _ _ _ _ Hfl m Hwf) as [<- Hb]. split; [apply zlen_concat|by apply bytes_concat].
Qed.

Lemma layout_codec : codec_correct enc dec wf (zsum sizes).
Proof.
  apply codec_intro.
  - intros m Hwf. pose proof (fl_enc _ _ _ _ _ Hfl m Hwf) as He.
    destruct (layout_enc_len m _ Hwf He) as [Hl Hb]. eexists. split_and!; [done|done|lia|].
    by apply (fl_dec _ _ _ _ _ Hfl).
  - intros l m Hb Hd. destruct (decide (zlen l = zsum sizes)) as [Hl|Hl].
    + destruct (split_layout sizes l Hpos Hl Hb) as (ps & -> & Hs & Hbs).
      destruct (fl_canonical _ _ _ _ _ Hfl ps m Hs Hbs Hd) as [Hwf <-].
      split; [done|]. by apply (fl_enc _ _ _ _ _ Hfl).
    + destruct (fl_exact _ _ _ _ _ Hfl l Hl). congruence.
  - intros l Hb. destruct (decide (zlen l = zsum sizes)) as [Hl|Hl].
    + destruct (split_layout sizes l Hpos Hl Hb) as (ps & -> & Hs & Hbs).
      by apply (fl_no_panic _ _ _ _ _ Hfl).
    + destruct (fl_exact _ _ _ _ _ Hfl l Hl) as [e ->]. done.
Qed.

Lemma layout_dec_canonical l m : bytes l -> dec l = Ok m -> wf m /\ concat (fields m) = l.
Proof.
  intros Hb Hd. destruct (cc_dec_canonical _ _ _ _ layout_codec l m Hb Hd) as [Hwf He].
  split; [done|]. rewrite (fl_enc _ _ _ _ _ Hfl) in He by done. congruence.
Qed.

(** Equal encodings are equal field by field. *)
Lemma layout_fields_inj m1 m2 :
  wf m1 -> wf m2 -> concat (fields m1) = concat (fields m2) -> fields m1 = fields m2.
Proof.
  intros H1 H2. apply concat_inj.
  destruct (fl_fields _ _ _ _ _ Hfl m1 H1) as [-> _], (fl_fields _ _ _ _ _ Hfl m2 H2) as [-> _]. done.
Qed.
End FixedLayout.

(** ** Byte-coded enumerations *)

(** A [repr(u8)] or [repr(u16)] enum with its [code] and partial inverse. *)
Class WireEnum (T : Type) := { we_code : T -> Z; we_from : Z -> option T; we_width : Z }.

Class WireEnumLaws (T : Type) `{WireEnum T} : Prop := {
  we_from_some z t : we_from z = Some t <-> we_code t = z;
  we_code_range t : 0 < we_code t < 2 ^ we_width;
}.

(** Proves the laws of an enum whose codes have at most five bits. *)
Ltac solve_wire_enum :=
  constructor; [|intros []; cbn; lia];
  intros z t; cbn; split; [|by intros <-; destruct t];
  destruct z as [|p|]; try done;
  do 5 (try (destruct p as [p|p|]; try done)); first [by intros [= <-] | by destruct t].
