(* ===== verification/WireAudit.v ===== *)
(** * Audit messages

    [crates/yonder-core/src/wire/audit.rs]: the eleven messages of the verifiable
    session audit protocol, their fixed layouts, the byte strings that are signed, and
    the tag-length-payload frame around them.  Signatures and hashes are opaque bytes
    here, as they are in the source. *)

From S2P Require Import Prelude Domain Codec WireRegistry Layout.
Open Scope Z_scope.

(** ** Constants *)

Definition AUDIT_FORMAT_VERSION : Z := 3.
Definition DIGEST_LEN : Z := 32.
Definition NONCE_LEN : Z := 32.
Definition ED25519_PUBLIC_KEY_LEN : Z := 32.
Definition ED25519_SIGNATURE_LEN : Z := 64.
Definition SHARED_STREAMS : Z := 4.
Definition FRAME_HEADER_LEN : Z := 5.
Definition AUDIT_HELLO_LEN : Z :=
  1 + ED25519_PUBLIC_KEY_LEN * 2 + NONCE_LEN + 8 + DIGEST_LEN * 2 + 2 + DIGEST_LEN
  + ED25519_SIGNATURE_LEN.
Definition AUDIT_READY_LEN : Z := DIGEST_LEN * 2 + 2 + ED25519_SIGNATURE_LEN.
Definition CHECKPOINT_LEN : Z :=
  DIGEST_LEN + 8 + SHARED_STREAMS * (8 + DIGEST_LEN) + DIGEST_LEN * 2 + ED25519_SIGNATURE_LEN.
Definition CHECKPOINT_ACK_LEN : Z :=
  DIGEST_LEN * 2 + 8 + SHARED_STREAMS * (8 + DIGEST_LEN) + ED25519_SIGNATURE_LEN.
Definition MANIFEST_LEN : Z :=
  2 + DIGEST_LEN * 4 + ED25519_PUBLIC_KEY_LEN * 2 + DIGEST_LEN
  + SHARED_STREAMS * (DIGEST_LEN + 8) + 1 + 4 + 1 + 8.
Definition LOCAL_RECORD_SEAL_LEN : Z :=
  DIGEST_LEN + 1 + DIGEST_LEN + 8 + SHARED_STREAMS * DIGEST_LEN + DIGEST_LEN * 2
  + ED25519_SIGNATURE_LEN.
Definition LEDGER_COMMIT_LEN : Z := 8 + DIGEST_LEN * 5 + 1 + ED25519_SIGNATURE_LEN.
Definition SECRET_CONTRIBUTION_LEN : Z := NONCE_LEN.
Definition MANIFEST_SIGNATURE_LEN : Z := ED25519_SIGNATURE_LEN.
Definition CLOSE_NOTICE_LEN : Z := 1.
Definition AUDIT_ERROR_LEN : Z := 2.
Definition MAX_AUDIT_PAYLOAD_LEN : Z := 1024.
Definition MAX_AUDIT_FRAME_LEN : Z := FRAME_HEADER_LEN + MAX_AUDIT_PAYLOAD_LEN.

(** The ASCII bytes of the domain labels, "yonder-audit-" and their own suffix. *)
Definition DOMAIN_PREFIX : list Z :=
  [0x79; 0x6F; 0x6E; 0x64; 0x65; 0x72; 0x2D; 0x61; 0x75; 0x64; 0x69; 0x74; 0x2D].
(** "hello-v3" *)
Definition AUDIT_HELLO_DOMAIN : list Z :=
  DOMAIN_PREFIX ++ [0x68; 0x65; 0x6C; 0x6C; 0x6F; 0x2D; 0x76; 0x33].
(** "ready-v3" *)
Definition AUDIT_READY_DOMAIN : list Z :=
  DOMAIN_PREFIX ++ [0x72; 0x65; 0x61; 0x64; 0x79; 0x2D; 0x76; 0x33].
(** "checkpoint-v3" *)
Definition CHECKPOINT_DOMAIN : list Z :=
  DOMAIN_PREFIX ++ [0x63; 0x68; 0x65; 0x63; 0x6B; 0x70; 0x6F; 0x69; 0x6E; 0x74; 0x2D; 0x76; 0x33].
(** "checkpoint-ack-v3" *)
Definition CHECKPOINT_ACK_DOMAIN : list Z :=
  DOMAIN_PREFIX ++ [0x63; 0x68; 0x65; 0x63; 0x6B; 0x70; 0x6F; 0x69; 0x6E; 0x74; 0x2D; 0x61; 0x63;
                    0x6B; 0x2D; 0x76; 0x33].
(** "manifest-v3" *)
Definition MANIFEST_DOMAIN : list Z :=
  DOMAIN_PREFIX ++ [0x6D; 0x61; 0x6E; 0x69; 0x66; 0x65; 0x73; 0x74; 0x2D; 0x76; 0x33].
(** "seal-v3" *)
Definition SEAL_DOMAIN : list Z := DOMAIN_PREFIX ++ [0x73; 0x65; 0x61; 0x6C; 0x2D; 0x76; 0x33].
(** "ledger-commit-v3" *)
Definition LEDGER_COMMIT_DOMAIN : list Z :=
  DOMAIN_PREFIX ++ [0x6C; 0x65; 0x64; 0x67; 0x65; 0x72; 0x2D; 0x63; 0x6F; 0x6D; 0x6D; 0x69; 0x74;
                    0x2D; 0x76; 0x33].

Definition AUDIT_HELLO_SIGNING_LEN : Z :=
  zlen AUDIT_HELLO_DOMAIN + AUDIT_HELLO_LEN - ED25519_SIGNATURE_LEN.
Definition AUDIT_READY_SIGNING_LEN : Z :=
  zlen AUDIT_READY_DOMAIN + AUDIT_READY_LEN - ED25519_SIGNATURE_LEN.
Definition CHECKPOINT_SIGNING_LEN : Z :=
  zlen CHECKPOINT_DOMAIN + CHECKPOINT_LEN - ED25519_SIGNATURE_LEN.
Definition CHECKPOINT_ACK_SIGNING_LEN : Z :=
  zlen CHECKPOINT_ACK_DOMAIN + CHECKPOINT_ACK_LEN - ED25519_SIGNATURE_LEN.
Definition MANIFEST_SIGNING_INPUT_LEN : Z := zlen MANIFEST_DOMAIN + MANIFEST_LEN.
Definition SEAL_SIGNING_LEN : Z := zlen SEAL_DOMAIN + LOCAL_RECORD_SEAL_LEN - ED25519_SIGNATURE_LEN.
Definition LEDGER_COMMIT_SIGNING_LEN : Z :=
  zlen LEDGER_COMMIT_DOMAIN + LEDGER_COMMIT_LEN - ED25519_SIGNATURE_LEN.

(** ** Enumerations *)

Module AuditTag.
Inductive t :=
| AuditHello | SecretContribution | AuditReady | Checkpoint | CheckpointAck | JointManifest
| ManifestSignature | LocalRecordSeal | LedgerCommit | CloseNotice | AuditError.

Definition code (self : t) : Z :=
  match self with
  | AuditHello => 0x01 | SecretContribution => 0x02 | AuditReady => 0x03 | Checkpoint => 0x04
  | CheckpointAck => 0x05 | JointManifest => 0x06 | ManifestSignature => 0x07
  | LocalRecordSeal => 0x08 | LedgerCommit => 0x09 | CloseNotice => 0x0A | AuditError => 0x0B
  end.

Definition from_byte (byte : Z) : option t :=
  match byte with
  | 0x01 => Some AuditHello | 0x02 => Some SecretContribution | 0x03 => Some AuditReady
  | 0x04 => Some Checkpoint | 0x05 => Some CheckpointAck | 0x06 => Some JointManifest
  | 0x07 => Some ManifestSignature | 0x08 => Some LocalRecordSeal | 0x09 => Some LedgerCommit
  | 0x0A => Some CloseNotice | 0x0B => Some AuditError
  | _ => None
  end.
End AuditTag.

Module AuditRole.
Inductive t := Controller | Host.

Definition code (self : t) : Z := match self with Controller => 0x01 | Host => 0x02 end.

Definition from_byte (byte : Z) : option t :=
  match byte with 0x01 => Some Controller | 0x02 => Some Host | _ => None end.
End AuditRole.

Module AuthMode.
Inductive t := Enterprise.

Definition code (self : t) : Z := match self with Enterprise => 0x02 end.

Definition from_byte (byte : Z) : option t :=
  match byte with 0x02 => Some Enterprise | _ => None end.
End AuthMode.

Module SessionResult.
Inductive t := Normal | Interrupted | AuditFailed.

Definition code (self : t) : Z :=
  match self with Normal => 0x01 | Interrupted => 0x02 | AuditFailed => 0x03 end.

Definition from_byte (byte : Z) : option t :=
  match byte with
  | 0x01 => Some Normal | 0x02 => Some Interrupted | 0x03 => Some AuditFailed | _ => None
  end.
End SessionResult.

Module AuditCloseReason.
Inductive t := NormalShellExit | ControllerDetach | LocalInterrupt | ConnectionLost | AuditFailure.

Definition code (self : t) : Z :=
  match self with
  | NormalShellExit => 0x01 | ControllerDetach => 0x02 | LocalInterrupt => 0x03
  | ConnectionLost => 0x04 | AuditFailure => 0x05
  end.

Definition from_byte (byte : Z) : option t :=
  match byte with
  | 0x01 => Some NormalShellExit | 0x02 => Some ControllerDetach | 0x03 => Some LocalInterrupt
  | 0x04 => Some ConnectionLost | 0x05 => Some AuditFailure | _ => None
  end.
End AuditCloseReason.

Module AuditErrorCode.
Inductive t :=
| AuditIdentityMissing | AuditIdentityInvalid | AuditIdentityPermissions | AuditLedgerInvalid
| AuditLedgerConflict | AuditDirectoryUnavailable | AuditRecordCreateFailed
| AuditRecordWriteFailed | AuditRecordSyncFailed | AuditProtocolUnsupported
| AuditHandshakeInvalid | AuditSessionBindingMismatch | AuditCheckpointMismatch
| AuditPeerSignatureInvalid | AuditFinalManifestMismatch | AuditLedgerCommitFailed
| AuditReplayUnsafe | AuditContainerInvalid.

Definition code (self : t) : Z :=
  match self with
  | AuditIdentityMissing => 1 | AuditIdentityInvalid => 2 | AuditIdentityPermissions => 3
  | AuditLedgerInvalid => 4 | AuditLedgerConflict => 5 | AuditDirectoryUnavailable => 6
  | AuditRecordCreateFailed => 7 | AuditRecordWriteFailed => 8 | AuditRecordSyncFailed => 9
  | AuditProtocolUnsupported => 10 | AuditHandshakeInvalid => 11
  | AuditSessionBindingMismatch => 12 | AuditCheckpointMismatch => 13
  | AuditPeerSignatureInvalid => 14 | AuditFinalManifestMismatch => 15
  | AuditLedgerCommitFailed => 16 | AuditReplayUnsafe => 17 | AuditContainerInvalid => 18
  end.

Definition from_u16 (value : Z) : option t :=
  match value with
  | 1 => Some AuditIdentityMissing | 2 => Some AuditIdentityInvalid
  | 3 => Some AuditIdentityPermissions | 4 => Some AuditLedgerInvalid
  | 5 => Some AuditLedgerConflict | 6 => Some AuditDirectoryUnavailable
  | 7 => Some AuditRecordCreateFailed | 8 => Some AuditRecordWriteFailed
  | 9 => Some AuditRecordSyncFailed | 10 => Some AuditProtocolUnsupported
  | 11 => Some AuditHandshakeInvalid | 12 => Some AuditSessionBindingMismatch
  | 13 => Some AuditCheckpointMismatch | 14 => Some AuditPeerSignatureInvalid
  | 15 => Some AuditFinalManifestMismatch | 16 => Some AuditLedgerCommitFailed
  | 17 => Some AuditReplayUnsafe | 18 => Some AuditContainerInvalid
  | _ => None
  end.
End AuditErrorCode.

#[export] Instance audit_tag_enum : WireEnum AuditTag.t :=
  {| we_code := AuditTag.code; we_from := AuditTag.from_byte; we_width := 8 |}.
#[export] Instance audit_role_enum : WireEnum AuditRole.t :=
  {| we_code := AuditRole.code; we_from := AuditRole.from_byte; we_width := 8 |}.
#[export] Instance auth_mode_enum : WireEnum AuthMode.t :=
  {| we_code := AuthMode.code; we_from := AuthMode.from_byte; we_width := 8 |}.
#[export] Instance session_result_enum : WireEnum SessionResult.t :=
  {| we_code := SessionResult.code; we_from := SessionResult.from_byte; we_width := 8 |}.
#[export] Instance close_reason_enum : WireEnum AuditCloseReason.t :=
  {| we_code := AuditCloseReason.code; we_from := AuditCloseReason.from_byte; we_width := 8 |}.
#[export] Instance audit_error_enum : WireEnum AuditErrorCode.t :=
  {| we_code := AuditErrorCode.code; we_from := AuditErrorCode.from_u16; we_width := 16 |}.

#[export] Instance audit_tag_laws : WireEnumLaws AuditTag.t.
Proof. solve_wire_enum. Qed.
#[export] Instance audit_role_laws : WireEnumLaws AuditRole.t.
Proof. solve_wire_enum. Qed.
#[export] Instance auth_mode_laws : WireEnumLaws AuthMode.t.
Proof. solve_wire_enum. Qed.
#[export] Instance session_result_laws : WireEnumLaws SessionResult.t.
Proof. solve_wire_enum. Qed.
#[export] Instance close_reason_laws : WireEnumLaws AuditCloseReason.t.
Proof. solve_wire_enum. Qed.
#[export] Instance audit_error_laws : WireEnumLaws AuditErrorCode.t.
Proof. solve_wire_enum. Qed.

Module ManifestEnding.
Inductive t := ShellExit (code : Z) | CloseReason (reason : AuditCloseReason.t).

Definition tag (self : t) : Z := match self with ShellExit _ => 0x01 | CloseReason _ => 0x02 end.

Definition value (self : t) : Z :=
  match self with
  | ShellExit code => code
  | CloseReason reason => AuditCloseReason.code reason
  end.

Definition from_bytes (tag value : Z) : option t :=
  match tag with
  | 0x01 => Some (ShellExit value)
  | 0x02 =>
    match value with
    | 0x01 => Some (CloseReason AuditCloseReason.NormalShellExit)
    | 0x02 => Some (CloseReason AuditCloseReason.ControllerDetach)
    | 0x03 => Some (CloseReason AuditCloseReason.LocalInterrupt)
    | 0x04 => Some (CloseReason AuditCloseReason.ConnectionLost)
    | 0x05 => Some (CloseReason AuditCloseReason.AuditFailure)
    | _ => None
    end
  | _ => None
  end.

(** The exit code is a [u32]. *)
Definition wf (self : t) : Prop := match self with ShellExit code => is_u32 code | _ => True end.
End ManifestEnding.

Module SharedStream.
Inductive t := Input | Output | Control | FileTransfer.

Definition ALL : list t := [Input; Output; Control; FileTransfer].

Definition index (self : t) : Z :=
  match self with Input => 0 | Output => 1 | Control => 2 | FileTransfer => 3 end.

Definition from_index (index : Z) : option t :=
  match index with
  | 0 => Some Input | 1 => Some Output | 2 => Some Control | 3 => Some FileTransfer | _ => None
  end.
End SharedStream.

(** ** Fixed-size newtypes

    The macro [fixed_bytes_newtype!] makes one type per name; here the name is a
    parameter of the type, so that a digest is not a key. *)

Module FixedBytes.
Inductive name :=
| SessionId | AuditNonce | IdentityFingerprint | ChainHead | LedgerRoot | BindingDigest
| CommitmentDigest | Digest32 | Ed25519PublicKey | Ed25519Signature | SecretContribution.

Definition len (n : name) : Z :=
  match n with
  | AuditNonce | SecretContribution => NONCE_LEN
  | Ed25519PublicKey => ED25519_PUBLIC_KEY_LEN
  | Ed25519Signature => ED25519_SIGNATURE_LEN
  | _ => DIGEST_LEN
  end.

Record t (n : name) := new { as_bytes : list Z }.
Arguments new {n} _.
Arguments as_bytes {n} _.

Definition wf {n} (self : t n) : Prop := is_array (len n) (as_bytes self).
End FixedBytes.

Abbreviation SessionId := (FixedBytes.t FixedBytes.SessionId).
Abbreviation AuditNonce := (FixedBytes.t FixedBytes.AuditNonce).
Abbreviation IdentityFingerprint := (FixedBytes.t FixedBytes.IdentityFingerprint).
Abbreviation ChainHead := (FixedBytes.t FixedBytes.ChainHead).
Abbreviation LedgerRoot := (FixedBytes.t FixedBytes.LedgerRoot).
Abbreviation BindingDigest := (FixedBytes.t FixedBytes.BindingDigest).
Abbreviation CommitmentDigest := (FixedBytes.t FixedBytes.CommitmentDigest).
Abbreviation Digest32 := (FixedBytes.t FixedBytes.Digest32).
Abbreviation Ed25519PublicKey := (FixedBytes.t FixedBytes.Ed25519PublicKey).
Abbreviation Ed25519Signature := (FixedBytes.t FixedBytes.Ed25519Signature).
Abbreviation SecretContribution := (FixedBytes.t FixedBytes.SecretContribution).

Abbreviation raw := FixedBytes.as_bytes.

Module StreamSnapshot.
Record t := new { count : Z; head : ChainHead }.

Definition wf (self : t) : Prop := is_u64 (count self) /\ FixedBytes.wf (head self).
End StreamSnapshot.

Module SharedSnapshot.
(** The array [\[StreamSnapshot; SHARED_STREAMS\]]. *)
Record t := new { streams : list StreamSnapshot.t }.

Definition get (self : t) (stream : SharedStream.t) : res ProtocolError StreamSnapshot.t :=
  index (streams self) (SharedStream.index stream).

Definition counts (self : t) : res ProtocolError (list Z) :=
  s0 ← index (streams self) 0; s1 ← index (streams self) 1;
  s2 ← index (streams self) 2; s3 ← index (streams self) 3;
  Ok [StreamSnapshot.count s0; StreamSnapshot.count s1; StreamSnapshot.count s2; StreamSnapshot.count s3].

Definition roots (self : t) : res ProtocolError (list ChainHead) :=
  s0 ← index (streams self) 0; s1 ← index (streams self) 1;
  s2 ← index (streams self) 2; s3 ← index (streams self) 3;
  Ok [StreamSnapshot.head s0; StreamSnapshot.head s1; StreamSnapshot.head s2; StreamSnapshot.head s3].

Definition wf (self : t) : Prop :=
  zlen (streams self) = SHARED_STREAMS /\ Forall StreamSnapshot.wf (streams self).
End SharedSnapshot.

Definition write_u64 (cursor : list Z * Z) (value : Z) : res ProtocolError (list Z * Z) :=
  append cursor (to_be_bytes 8 value).
Definition write_u32 (cursor : list Z * Z) (value : Z) : res ProtocolError (list Z * Z) :=
  append cursor (to_be_bytes 4 value).
Definition write_u16 (cursor : list Z * Z) (value : Z) : res ProtocolError (list Z * Z) :=
  append cursor (to_be_bytes 2 value).

(** The body of [write_snapshot]'s loop over the streams. *)
Fixpoint write_streams (cursor : list Z * Z) (snapshot : SharedSnapshot.t)
    (streams : list SharedStream.t) : res ProtocolError (list Z * Z) :=
  match streams with
  | [] => Ok cursor
  | stream :: rest =>
    entry ← SharedSnapshot.get snapshot stream;
    cursor ← write_u64 cursor (StreamSnapshot.count entry);
    cursor ← append cursor (raw (StreamSnapshot.head entry));
    write_streams cursor snapshot rest
  end.

Definition write_snapshot (cursor : list Z * Z) (snapshot : SharedSnapshot.t)
  : res ProtocolError (list Z * Z) := write_streams cursor snapshot SharedStream.ALL.

(** The body of [decode_snapshot]'s loop over the array indices. *)
Fixpoint decode_streams (bytes : list Z) (indices : list Z)
  : res ProtocolError (list StreamSnapshot.t) :=
  match indices with
  | [] => Ok []
  | index :: rest =>
    let offset := index * (8 + DIGEST_LEN) in
    count ← uint_at 8 bytes offset (offset + 8);
    head ← array_at DIGEST_LEN bytes (offset + 8) (offset + 8 + DIGEST_LEN);
    streams ← decode_streams bytes rest;
    Ok (StreamSnapshot.new count (FixedBytes.new head) :: streams)
  end.

Definition decode_snapshot (bytes : list Z) : res ProtocolError SharedSnapshot.t :=
  streams ← decode_streams bytes (seqZ 0 SHARED_STREAMS);
  Ok (SharedSnapshot.new streams).

(** [X::from_byte(b).ok_or(ProtocolError::InvalidField(ProtocolField::Reserved))]. *)
Definition or_reserved {A} (o : option A) : res ProtocolError A := ok_or o (InvalidField FReserved).

(** ** The messages *)

Module AuditHello.
Record t := new {
  role : AuditRole.t;
  persistent_audit_key : Ed25519PublicKey;
  session_key : Ed25519PublicKey;
  nonce : AuditNonce;
  ledger_sequence : Z;
  ledger_root : LedgerRoot;
  connection_binding : BindingDigest;
  format_version : Z;
  input_commitment : CommitmentDigest;
  signature : Ed25519Signature;
}.

Definition with_signature (self : t) (sig : Ed25519Signature) : t :=
  new (role self) (persistent_audit_key self) (session_key self) (nonce self)
    (ledger_sequence self) (ledger_root self) (connection_binding self) (format_version self)
    (input_commitment self) sig.

Definition signing_input (self : t) : res ProtocolError WireBytes.t :=
  cur ← append (start AUDIT_HELLO_SIGNING_LEN) AUDIT_HELLO_DOMAIN;
  cur ← append cur [AuditRole.code (role self)];
  cur ← append cur (raw (persistent_audit_key self));
  cur ← append cur (raw (session_key self));
  cur ← append cur (raw (nonce self));
  cur ← write_u64 cur (ledger_sequence self);
  cur ← append cur (raw (ledger_root self));
  cur ← append cur (raw (connection_binding self));
  cur ← write_u16 cur (format_version self);
  cur ← append cur (raw (input_commitment self));
  finish cur.

Definition encode_payload (self : t) : res ProtocolError WireBytes.t :=
  cur ← append (start MAX_AUDIT_PAYLOAD_LEN) [AuditRole.code (role self)];
  cur ← append cur (raw (persistent_audit_key self));
  cur ← append cur (raw (session_key self));
  cur ← append cur (raw (nonce self));
  cur ← write_u64 cur (ledger_sequence self);
  cur ← append cur (raw (ledger_root self));
  cur ← append cur (raw (connection_binding self));
  cur ← write_u16 cur (format_version self);
  cur ← append cur (raw (input_commitment self));
  cur ← append cur (raw (signature self));
  finish cur.

Definition decode_payload (bytes : list Z) : res ProtocolError t :=
  bytes ← exact AUDIT_HELLO_LEN bytes;
  role_byte ← index bytes 0;
  role ← or_reserved (AuditRole.from_byte role_byte);
  format_version ← u16_at bytes 169 170;
  if format_version =? 0 then Err (InvalidField FReserved) else
  persistent_audit_key ← array_at ED25519_PUBLIC_KEY_LEN bytes 1 33;
  session_key ← array_at ED25519_PUBLIC_KEY_LEN bytes 33 65;
  nonce ← array_at NONCE_LEN bytes 65 97;
  ledger_sequence ← uint_at 8 bytes 97 105;
  ledger_root ← array_at DIGEST_LEN bytes 105 137;
  connection_binding ← array_at DIGEST_LEN bytes 137 169;
  input_commitment ← array_at DIGEST_LEN bytes 171 203;
  signature ← array_at ED25519_SIGNATURE_LEN bytes 203 267;
  Ok (new role (FixedBytes.new persistent_audit_key) (FixedBytes.new session_key)
        (FixedBytes.new nonce) ledger_sequence (FixedBytes.new ledger_root)
        (FixedBytes.new connection_binding) format_version (FixedBytes.new input_commitment)
        (FixedBytes.new signature)).
End AuditHello.

Module SecretContributionMessage.
Record t := new { contribution : SecretContribution }.

Definition encode_payload (self : t) : res ProtocolError WireBytes.t :=
  bytes ← copy_range (zeros MAX_AUDIT_PAYLOAD_LEN) 0 SECRET_CONTRIBUTION_LEN
            (raw (contribution self));
  WireBytes.new bytes SECRET_CONTRIBUTION_LEN.

Definition decode_payload (bytes : list Z) : res ProtocolError t :=
  contribution ← exact SECRET_CONTRIBUTION_LEN bytes;
  Ok (new (FixedBytes.new contribution)).
End SecretContributionMessage.

Module AuditReady.
Record t := new {
  session_id : SessionId;
  peer_audit_hello_digest : Digest32;
  format_version : Z;
  signature : Ed25519Signature;
}.

Definition with_signature (self : t) (sig : Ed25519Signature) : t :=
  new (session_id self) (peer_audit_hello_digest self) (format_version self) sig.

Definition signing_input (self : t) : res ProtocolError WireBytes.t :=
  cur ← append (start AUDIT_READY_SIGNING_LEN) AUDIT_READY_DOMAIN;
  cur ← append cur (raw (session_id self));
  cur ← append cur (raw (peer_audit_hello_digest self));
  cur ← write_u16 cur (format_version self);
  finish cur.

Definition encode_payload (self : t) : res ProtocolError WireBytes.t :=
  cur ← append (start MAX_AUDIT_PAYLOAD_LEN) (raw (session_id self));
  cur ← append cur (raw (peer_audit_hello_digest self));
  cur ← write_u16 cur (format_version self);
  cur ← append cur (raw (signature self));
  finish cur.

Definition decode_payload (bytes : list Z) : res ProtocolError t :=
  bytes ← exact AUDIT_READY_LEN bytes;
  format_version ← u16_at bytes 64 65;
  if format_version =? 0 then Err (InvalidField FReserved) else
  session_id ← array_at DIGEST_LEN bytes 0 32;
  peer_digest ← array_at DIGEST_LEN bytes 32 64;
  signature ← array_at ED25519_SIGNATURE_LEN bytes 66 130;
  Ok (new (FixedBytes.new session_id) (FixedBytes.new peer_digest) format_version
        (FixedBytes.new signature)).
End AuditReady.

Module Checkpoint.
Record t := new {
  session_id : SessionId;
  sequence : Z;
  snapshot : SharedSnapshot.t;
  local_chain_head : ChainHead;
  ledger_snapshot_digest : Digest32;
  signature : Ed25519Signature;
}.

Definition with_signature (self : t) (sig : Ed25519Signature) : t :=
  new (session_id self) (sequence self) (snapshot self) (local_chain_head self)
    (ledger_snapshot_digest self) sig.

Definition signing_input (self : t) : res ProtocolError WireBytes.t :=
  cur ← append (start CHECKPOINT_SIGNING_LEN) CHECKPOINT_DOMAIN;
  cur ← append cur (raw (session_id self));
  cur ← write_u64 cur (sequence self);
  cur ← write_snapshot cur (snapshot self);
  cur ← append cur (raw (local_chain_head self));
  cur ← append cur (raw (ledger_snapshot_digest self));
  finish cur.

Definition encode_payload (self : t) : res ProtocolError WireBytes.t :=
  cur ← append (start MAX_AUDIT_PAYLOAD_LEN) (raw (session_id self));
  cur ← write_u64 cur (sequence self);
  cur ← write_snapshot cur (snapshot self);
  cur ← append cur (raw (local_chain_head self));
  cur ← append cur (raw (ledger_snapshot_digest self));
  cur ← append cur (raw (signature self));
  finish cur.

Definition decode_payload (bytes : list Z) : res ProtocolError t :=
  bytes ← exact CHECKPOINT_LEN bytes;
  session_id ← array_at DIGEST_LEN bytes 0 32;
  sequence ← uint_at 8 bytes 32 40;
  snapshot_bytes ← slice bytes 40 200;
  snapshot ← decode_snapshot snapshot_bytes;
  local_chain_head ← array_at DIGEST_LEN bytes 200 232;
  ledger_snapshot_digest ← array_at DIGEST_LEN bytes 232 264;
  signature ← array_at ED25519_SIGNATURE_LEN bytes 264 328;
  Ok (new (FixedBytes.new session_id) sequence snapshot (FixedBytes.new local_chain_head)
        (FixedBytes.new ledger_snapshot_digest) (FixedBytes.new signature)).
End Checkpoint.

Module CheckpointAck.
Record t := new {
  session_id : SessionId;
  sequence : Z;
  checkpoint_digest : Digest32;
  snapshot : SharedSnapshot.t;
  signature : Ed25519Signature;
}.

Definition with_signature (self : t) (sig : Ed25519Signature) : t :=
  new (session_id self) (sequence self) (checkpoint_digest self) (snapshot self) sig.

Definition signing_input (self : t) : res ProtocolError WireBytes.t :=
  cur ← append (start CHECKPOINT_ACK_SIGNING_LEN) CHECKPOINT_ACK_DOMAIN;
  cur ← append cur (raw (session_id self));
  cur ← write_u64 cur (sequence self);
  cur ← append cur (raw (checkpoint_digest self));
  cur ← write_snapshot cur (snapshot self);
  finish cur.

Definition encode_payload (self : t) : res ProtocolError WireBytes.t :=
  cur ← append (start MAX_AUDIT_PAYLOAD_LEN) (raw (session_id self));
  cur ← write_u64 cur (sequence self);
  cur ← append cur (raw (checkpoint_digest self));
  cur ← write_snapshot cur (snapshot self);
  cur ← append cur (raw (signature self));
  finish cur.

Definition decode_payload (bytes : list Z) : res ProtocolError t :=
  bytes ← exact CHECKPOINT_ACK_LEN bytes;
  session_id ← array_at DIGEST_LEN bytes 0 32;
  sequence ← uint_at 8 bytes 32 40;
  checkpoint_digest ← array_at DIGEST_LEN bytes 40 72;
  snapshot_bytes ← slice bytes 72 232;
  snapshot ← decode_snapshot snapshot_bytes;
  signature ← array_at ED25519_SIGNATURE_LEN bytes 232 296;
  Ok (new (FixedBytes.new session_id) sequence (FixedBytes.new checkpoint_digest) snapshot
        (FixedBytes.new signature)).
End CheckpointAck.

Module JointManifest.
Record t := new {
  format_version : Z;
  session_id : SessionId;
  controller_fingerprint : IdentityFingerprint;
  host_fingerprint : IdentityFingerprint;
  controller_session_key : Ed25519PublicKey;
  host_session_key : Ed25519PublicKey;
  connection_binding : BindingDigest;
  terminal_hello_digest : Digest32;
  final_snapshot : SharedSnapshot.t;
  ending : ManifestEnding.t;
  ended_normally : bool;
  final_checkpoint_sequence : Z;
}.

Definition encode_payload (self : t) : res ProtocolError WireBytes.t :=
  if negb (format_version self =? AUDIT_FORMAT_VERSION) then Err (InvalidField FReserved) else
  cur ← write_u16 (start MAX_AUDIT_PAYLOAD_LEN) (format_version self);
  cur ← append cur (raw (session_id self));
  cur ← append cur (raw (controller_fingerprint self));
  cur ← append cur (raw (host_fingerprint self));
  cur ← append cur (raw (controller_session_key self));
  cur ← append cur (raw (host_session_key self));
  cur ← append cur (raw (connection_binding self));
  cur ← append cur (raw (terminal_hello_digest self));
  cur ← write_snapshot cur (final_snapshot self);
  cur ← append cur [ManifestEnding.tag (ending self)];
  cur ← write_u32 cur (ManifestEnding.value (ending self));
  cur ← append cur [Z.b2z (ended_normally self)];
  cur ← write_u64 cur (final_checkpoint_sequence self);
  finish cur.

Definition signing_input (self : t) : res ProtocolError WireBytes.t :=
  cur ← append (start MANIFEST_SIGNING_INPUT_LEN) MANIFEST_DOMAIN;
  payload ← encode_payload self;
  cur ← append cur (WireBytes.as_slice payload);
  finish cur.

Definition decode_payload (bytes : list Z) : res ProtocolError t :=
  if negb (zlen bytes =? MANIFEST_LEN) then Err (InvalidLength MANIFEST_LEN (zlen bytes)) else
  format_version ← u16_at bytes 0 1;
  if negb (format_version =? AUDIT_FORMAT_VERSION) then Err (InvalidField FReserved) else
  session_id ← array_at DIGEST_LEN bytes 2 34;
  controller_fingerprint ← array_at DIGEST_LEN bytes 34 66;
  host_fingerprint ← array_at DIGEST_LEN bytes 66 98;
  controller_session_key ← array_at ED25519_PUBLIC_KEY_LEN bytes 98 130;
  host_session_key ← array_at ED25519_PUBLIC_KEY_LEN bytes 130 162;
  connection_binding ← array_at DIGEST_LEN bytes 162 194;
  tail ← slice bytes 194 (zlen bytes);
  terminal_hello_digest ← array_at DIGEST_LEN tail 0 32;
  snapshot_bytes ← slice tail 32 192;
  final_snapshot ← decode_snapshot snapshot_bytes;
  ending_value ← uint_at 4 tail 193 197;
  ending_tag ← index tail 192;
  ending ← ok_or (ManifestEnding.from_bytes ending_tag ending_value) (UnknownTag ending_tag);
  ended_normally ← index tail 197;
  if 1 <? ended_normally then Err (InvalidField FReserved) else
  final_checkpoint_sequence ← uint_at 8 tail 198 206;
  Ok (new format_version (FixedBytes.new session_id) (FixedBytes.new controller_fingerprint)
        (FixedBytes.new host_fingerprint) (FixedBytes.new controller_session_key)
        (FixedBytes.new host_session_key) (FixedBytes.new connection_binding)
        (FixedBytes.new terminal_hello_digest) final_snapshot ending
        (negb (ended_normally =? 0)) final_checkpoint_sequence).
End JointManifest.

Module ManifestSignature.
Record t := new { signature : Ed25519Signature }.

Definition encode_payload (self : t) : res ProtocolError WireBytes.t :=
  bytes ← copy_range (zeros MAX_AUDIT_PAYLOAD_LEN) 0 MANIFEST_SIGNATURE_LEN
            (raw (signature self));
  WireBytes.new bytes MANIFEST_SIGNATURE_LEN.

Definition decode_payload (bytes : list Z) : res ProtocolError t :=
  signature ← exact MANIFEST_SIGNATURE_LEN bytes;
  Ok (new (FixedBytes.new signature)).
End ManifestSignature.

Module LocalRecordSeal.
Record t := new {
  session_id : SessionId;
  role : AuditRole.t;
  final_local_event_root : ChainHead;
  local_event_count : Z;
  final_shared_roots : list ChainHead;
  joint_manifest_digest : Digest32;
  sealed_prefix_digest : Digest32;
  signature : Ed25519Signature;
}.

Definition with_signature (self : t) (sig : Ed25519Signature) : t :=
  new (session_id self) (role self) (final_local_event_root self) (local_event_count self)
    (final_shared_roots self) (joint_manifest_digest self) (sealed_prefix_digest self) sig.

(** [for root in self.final_shared_roots.iter() { append(.., root.as_bytes()) }]. *)
Fixpoint append_roots (cur : list Z * Z) (roots : list ChainHead)
  : res ProtocolError (list Z * Z) :=
  match roots with
  | [] => Ok cur
  | root :: rest => cur ← append cur (raw root); append_roots cur rest
  end.

Definition signing_input (self : t) : res ProtocolError WireBytes.t :=
  cur ← append (start SEAL_SIGNING_LEN) SEAL_DOMAIN;
  cur ← append cur (raw (session_id self));
  cur ← append cur [AuditRole.code (role self)];
  cur ← append cur (raw (final_local_event_root self));
  cur ← write_u64 cur (local_event_count self);
  cur ← append_roots cur (final_shared_roots self);
  cur ← append cur (raw (joint_manifest_digest self));
  cur ← append cur (raw (sealed_prefix_digest self));
  finish cur.

Definition encode_payload (self : t) : res ProtocolError WireBytes.t :=
  cur ← append (start MAX_AUDIT_PAYLOAD_LEN) (raw (session_id self));
  cur ← append cur [AuditRole.code (role self)];
  cur ← append cur (raw (final_local_event_root self));
  cur ← write_u64 cur (local_event_count self);
  cur ← append_roots cur (final_shared_roots self);
  cur ← append cur (raw (joint_manifest_digest self));
  cur ← append cur (raw (sealed_prefix_digest self));
  cur ← append cur (raw (signature self));
  finish cur.

(** The loop that fills [final_shared_roots]. *)
Fixpoint roots_at (bytes : list Z) (indices : list Z) : res ProtocolError (list (list Z)) :=
  match indices with
  | [] => Ok []
  | index :: rest =>
    let offset := 73 + index * DIGEST_LEN in
    root ← array_at DIGEST_LEN bytes offset (offset + DIGEST_LEN);
    roots ← roots_at bytes rest;
    Ok (root :: roots)
  end.

Definition decode_payload (bytes : list Z) : res ProtocolError t :=
  bytes ← exact LOCAL_RECORD_SEAL_LEN bytes;
  session_id ← array_at DIGEST_LEN bytes 0 32;
  role_byte ← index bytes 32;
  role ← or_reserved (AuditRole.from_byte role_byte);
  final_local_event_root ← array_at DIGEST_LEN bytes 33 65;
  local_event_count ← uint_at 8 bytes 65 73;
  final_shared_roots ← roots_at bytes (seqZ 0 SHARED_STREAMS);
  joint_manifest_digest ← array_at DIGEST_LEN bytes 201 233;
  sealed_prefix_digest ← array_at DIGEST_LEN bytes 233 265;
  signature ← array_at ED25519_SIGNATURE_LEN bytes 265 329;
  Ok (new (FixedBytes.new session_id) role (FixedBytes.new final_local_event_root)
        local_event_count (FixedBytes.new <$> final_shared_roots)
        (FixedBytes.new joint_manifest_digest) (FixedBytes.new sealed_prefix_digest)
        (FixedBytes.new signature)).
End LocalRecordSeal.

Module LedgerCommit.
Record t := new {
  sequence : Z;
  previous_root : LedgerRoot;
  session_id : SessionId;
  manifest_digest : Digest32;
  sealed_record_digest : Digest32;
  peer_identity_fingerprint : IdentityFingerprint;
  result : SessionResult.t;
  signature : Ed25519Signature;
}.

Definition with_signature (self : t) (sig : Ed25519Signature) : t :=
  new (sequence self) (previous_root self) (session_id self) (manifest_digest self)
    (sealed_record_digest self) (peer_identity_fingerprint self) (result self) sig.

Definition signing_input (self : t) : res ProtocolError WireBytes.t :=
  cur ← append (start LEDGER_COMMIT_SIGNING_LEN) LEDGER_COMMIT_DOMAIN;
  cur ← write_u64 cur (sequence self);
  cur ← append cur (raw (previous_root self));
  cur ← append cur (raw (session_id self));
  cur ← append cur (raw (manifest_digest self));
  cur ← append cur (raw (sealed_record_digest self));
  cur ← append cur (raw (peer_identity_fingerprint self));
  cur ← append cur [SessionResult.code (result self)];
  finish cur.

Definition encode_payload (self : t) : res ProtocolError WireBytes.t :=
  cur ← write_u64 (start MAX_AUDIT_PAYLOAD_LEN) (sequence self);
  cur ← append cur (raw (previous_root self));
  cur ← append cur (raw (session_id self));
  cur ← append cur (raw (manifest_digest self));
  cur ← append cur (raw (sealed_record_digest self));
  cur ← append cur (raw (peer_identity_fingerprint self));
  cur ← append cur [SessionResult.code (result self)];
  cur ← append cur (raw (signature self));
  finish cur.

Definition decode_payload (bytes : list Z) : res ProtocolError t :=
  bytes ← exact LEDGER_COMMIT_LEN bytes;
  sequence ← uint_at 8 bytes 0 8;
  previous_root ← array_at DIGEST_LEN bytes 8 40;
  session_id ← array_at DIGEST_LEN bytes 40 72;
  manifest_digest ← array_at DIGEST_LEN bytes 72 104;
  sealed_record_digest ← array_at DIGEST_LEN bytes 104 136;
  peer_identity_fingerprint ← array_at DIGEST_LEN bytes 136 168;
  result_byte ← index bytes 168;
  result ← or_reserved (SessionResult.from_byte result_byte);
  signature ← array_at ED25519_SIGNATURE_LEN bytes 169 233;
  Ok (new sequence (FixedBytes.new previous_root) (FixedBytes.new session_id)
        (FixedBytes.new manifest_digest) (FixedBytes.new sealed_record_digest)
        (FixedBytes.new peer_identity_fingerprint) result (FixedBytes.new signature)).
End LedgerCommit.

(** ** The frame *)

Definition encode_frame_header (tag payload_len : Z) : list Z := tag :: to_be_bytes 4 payload_len.

Definition decode_frame_header (bytes : list Z) : res ProtocolError (Z * Z) :=
  if negb (zlen bytes =? FRAME_HEADER_LEN) then Err (InvalidLength FRAME_HEADER_LEN (zlen bytes)) else
  tag ← index bytes 0;
  match AuditTag.from_byte tag with
  | None => Err (UnknownTag tag)
  | Some _ =>
    b1 ← index bytes 1; b2 ← index bytes 2; b3 ← index bytes 3; b4 ← index bytes 4;
    Ok (tag, from_be_bytes [b1; b2; b3; b4])
  end.

Definition payload_len_of (code : AuditTag.t) : Z :=
  match code with
  | AuditTag.AuditHello => AUDIT_HELLO_LEN
  | AuditTag.SecretContribution => SECRET_CONTRIBUTION_LEN
  | AuditTag.AuditReady => AUDIT_READY_LEN
  | AuditTag.Checkpoint => CHECKPOINT_LEN
  | AuditTag.CheckpointAck => CHECKPOINT_ACK_LEN
  | AuditTag.JointManifest => MANIFEST_LEN
  | AuditTag.ManifestSignature => MANIFEST_SIGNATURE_LEN
  | AuditTag.LocalRecordSeal => LOCAL_RECORD_SEAL_LEN
  | AuditTag.LedgerCommit => LEDGER_COMMIT_LEN
  | AuditTag.CloseNotice => CLOSE_NOTICE_LEN
  | AuditTag.AuditError => AUDIT_ERROR_LEN
  end.

Definition validate_payload_len (tag len : Z) : res ProtocolError unit :=
  code ← ok_or (AuditTag.from_byte tag) (UnknownTag tag);
  let valid := len =? payload_len_of code in
  if valid then Ok tt else Err (InvalidLength 0 len).

Module AuditMessage.
Inductive t :=
| AuditHello (message : AuditHello.t)
| SecretContribution (message : SecretContributionMessage.t)
| AuditReady (message : AuditReady.t)
| Checkpoint (message : Checkpoint.t)
| CheckpointAck (message : CheckpointAck.t)
| JointManifest (message : JointManifest.t)
| ManifestSignature (message : ManifestSignature.t)
| LocalRecordSeal (message : LocalRecordSeal.t)
| LedgerCommit (message : LedgerCommit.t)
| CloseNotice (reason : AuditCloseReason.t)
| AuditError (code : AuditErrorCode.t).

Definition close_notice_payload (reason : AuditCloseReason.t) : res ProtocolError WireBytes.t :=
  bytes ← set_index (zeros MAX_AUDIT_PAYLOAD_LEN) 0 (AuditCloseReason.code reason);
  WireBytes.new bytes CLOSE_NOTICE_LEN.

Definition decode_close_notice (payload : list Z) : res ProtocolError t :=
  match payload with
  | [reason] => reason ← or_reserved (AuditCloseReason.from_byte reason); Ok (CloseNotice reason)
  | _ => Err (InvalidLength CLOSE_NOTICE_LEN (zlen payload))
  end.

Definition audit_error_payload (code : AuditErrorCode.t) : res ProtocolError WireBytes.t :=
  bytes ← copy_range (zeros MAX_AUDIT_PAYLOAD_LEN) 0 2 (to_be_bytes 2 (AuditErrorCode.code code));
  WireBytes.new bytes AUDIT_ERROR_LEN.

Definition decode_audit_error (payload : list Z) : res ProtocolError t :=
  bytes ← exact AUDIT_ERROR_LEN payload;
  code ← or_reserved (AuditErrorCode.from_u16 (from_be_bytes bytes));
  Ok (AuditError code).

(** The tag and payload that [encode] selects. *)
Definition tag_of (self : t) : AuditTag.t :=
  match self with
  | AuditHello _ => AuditTag.AuditHello
  | SecretContribution _ => AuditTag.SecretContribution
  | AuditReady _ => AuditTag.AuditReady
  | Checkpoint _ => AuditTag.Checkpoint
  | CheckpointAck _ => AuditTag.CheckpointAck
  | JointManifest _ => AuditTag.JointManifest
  | ManifestSignature _ => AuditTag.ManifestSignature
  | LocalRecordSeal _ => AuditTag.LocalRecordSeal
  | LedgerCommit _ => AuditTag.LedgerCommit
  | CloseNotice _ => AuditTag.CloseNotice
  | AuditError _ => AuditTag.AuditError
  end.

Definition payload_of (self : t) : res ProtocolError WireBytes.t :=
  match self with
  | AuditHello message => AuditHello.encode_payload message
  | SecretContribution message => SecretContributionMessage.encode_payload message
  | AuditReady message => AuditReady.encode_payload message
  | Checkpoint message => Checkpoint.encode_payload message
  | CheckpointAck message => CheckpointAck.encode_payload message
  | JointManifest message => JointManifest.encode_payload message
  | ManifestSignature message => ManifestSignature.encode_payload message
  | LocalRecordSeal message => LocalRecordSeal.encode_payload message
  | LedgerCommit message => LedgerCommit.encode_payload message
  | CloseNotice reason => close_notice_payload reason
  | AuditError code => audit_error_payload code
  end.

Definition encode (self : t) : res ProtocolError WireBytes.t :=
  payload ← payload_of self;
  let slice := WireBytes.as_slice payload in
  let payload_len := zlen slice in
  payload_len32 ← ok_or (if payload_len <? 2 ^ 32 then Some payload_len else None)
                    (InvalidLength MAX_AUDIT_PAYLOAD_LEN payload_len);
  frame ← copy_range (zeros MAX_AUDIT_FRAME_LEN) 0 FRAME_HEADER_LEN
            (encode_frame_header (AuditTag.code (tag_of self)) payload_len32);
  frame ← copy_range frame FRAME_HEADER_LEN (FRAME_HEADER_LEN + payload_len) slice;
  WireBytes.new frame (FRAME_HEADER_LEN + payload_len).

Definition decode_payload (tag : Z) (payload : list Z) : res ProtocolError t :=
  code ← ok_or (AuditTag.from_byte tag) (UnknownTag tag);
  match code with
  | AuditTag.AuditHello => AuditHello <$> AuditHello.decode_payload payload
  | AuditTag.SecretContribution =>
      SecretContribution <$> SecretContributionMessage.decode_payload payload
  | AuditTag.AuditReady => AuditReady <$> AuditReady.decode_payload payload
  | AuditTag.Checkpoint => Checkpoint <$> Checkpoint.decode_payload payload
  | AuditTag.CheckpointAck => CheckpointAck <$> CheckpointAck.decode_payload payload
  | AuditTag.JointManifest => JointManifest <$> JointManifest.decode_payload payload
  | AuditTag.ManifestSignature => ManifestSignature <$> ManifestSignature.decode_payload payload
  | AuditTag.LocalRecordSeal => LocalRecordSeal <$> LocalRecordSeal.decode_payload payload
  | AuditTag.LedgerCommit => LedgerCommit <$> LedgerCommit.decode_payload payload
  | AuditTag.CloseNotice => decode_close_notice payload
  | AuditTag.AuditError => decode_audit_error payload
  end.

(** [usize] is 64 bits wide, so the length conversion and sum cannot overflow. *)
Definition decode_frame (frame : list Z) : res ProtocolError t :=
  if zlen frame <? FRAME_HEADER_LEN then Err (InvalidLength FRAME_HEADER_LEN (zlen frame)) else
  header ← slice frame 0 FRAME_HEADER_LEN;
  '(tag, payload_len) ← decode_frame_header header;
  _ ← validate_payload_len tag payload_len;
  expected ← ok_or (checked_add_u64 FRAME_HEADER_LEN payload_len)
               (InvalidLength FRAME_HEADER_LEN (zlen frame));
  if zlen frame <? expected then Err (InvalidLength expected (zlen frame)) else
  if expected <? zlen frame then Err TrailingBytes else
  payload ← slice frame FRAME_HEADER_LEN (zlen frame);
  decode_payload tag payload.
End AuditMessage.
