(* ===== verification/AuditCodecs.v ===== *)
(** * The audit codecs are canonical

    Lemmas and properties of [WireAudit]: each message is a fixed layout, so its codec
    is canonical; the frame around them is too; and the signed byte strings determine
    the kind of message and everything in it but the signature. *)

From S2P Require Import Prelude Domain Codec WireRegistry Layout WireAudit.
Open Scope Z_scope.

Abbreviation slice_of e := (fun m => WireBytes.as_slice <$> e m).

(** ** Fields *)

Lemma uint_array n z : is_array (Z.of_nat n) (to_be_bytes n z).
Proof. split; [apply bytes_to_be|apply zlen_to_be]. Qed.

Lemma array_uint n p :
  bytes p -> zlen p = Z.of_nat n ->
  to_be_bytes n (from_be_bytes p) = p /\ 0 <= from_be_bytes p < 256 ^ Z.of_nat n.
Proof.
  intros Hb Hl. assert (length p = n) as Hn by (unfold zlen in Hl; lia). split.
  - by apply to_from_be.
  - rewrite <- Hn. by apply from_be_range.
Qed.

Lemma enum_byte {T} `{WireEnumLaws T} (t : T) : we_width = 8 -> bytes [we_code t].
Proof. intros Hw. pose proof (we_code_range t). rewrite Hw in *. repeat constructor; unfold is_u8; lia. Qed.

Lemma enum_ok {T} `{WireEnumLaws T} z (t : T) : or_reserved (we_from z) = Ok t <-> we_code t = z.
Proof. unfold or_reserved. rewrite ok_or_ok. apply we_from_some. Qed.

Lemma role_ok z r : or_reserved (AuditRole.from_byte z) = Ok r <-> AuditRole.code r = z.
Proof. exact (enum_ok z r). Qed.
Lemma result_ok z r : or_reserved (SessionResult.from_byte z) = Ok r <-> SessionResult.code r = z.
Proof. exact (enum_ok z r). Qed.
Lemma auth_mode_ok z r : or_reserved (AuthMode.from_byte z) = Ok r <-> AuthMode.code r = z.
Proof. exact (enum_ok z r). Qed.

Lemma close_reason_ok z r :
  or_reserved (AuditCloseReason.from_byte z) = Ok r <-> AuditCloseReason.code r = z.
Proof. exact (enum_ok z r). Qed.
Lemma error_code_ok z r :
  or_reserved (AuditErrorCode.from_u16 z) = Ok r <-> AuditErrorCode.code r = z.
Proof. exact (enum_ok z r). Qed.

Lemma role_byte r : bytes [AuditRole.code r].
Proof. exact (enum_byte r eq_refl). Qed.
Lemma result_byte r : bytes [SessionResult.code r].
Proof. exact (enum_byte r eq_refl). Qed.
Lemma auth_mode_byte r : bytes [AuthMode.code r].
Proof. exact (enum_byte r eq_refl). Qed.
#[export] Hint Resolve role_byte result_byte auth_mode_byte : yon.

Lemma fixed_new_raw {n} (x : FixedBytes.t n) : FixedBytes.new (raw x) = x.
Proof. by destruct x. Qed.

Lemma fixed_wf_intro n l : bytes l -> zlen l = FixedBytes.len n -> FixedBytes.wf (n:=n) (FixedBytes.new l).
Proof. done. Qed.

(** Lengths and bytes of the fields of a well-formed message. *)
Ltac open_wf :=
  unfold FixedBytes.wf, is_array, FixedBytes.len, DIGEST_LEN, NONCE_LEN, ED25519_PUBLIC_KEY_LEN,
    ED25519_SIGNATURE_LEN in *;
  destruct_and?.

(** The first law of a layout: the sizes and the bytes of the fields. *)
Ltac layout_fields fields sizes :=
  unfold fields, sizes; open_wf; split;
  [repeat (rewrite fmap_cons; apply (f_equal2 cons); [first [assumption | apply zlen_to_be | reflexivity]|]); reflexivity
  |repeat (apply Forall_cons_2; [first [assumption | apply bytes_to_be | solve [eauto with yon]]|]);
   apply Forall_nil_2].

(** The length check of a decoder, on a string of the right length and on any other. *)
Ltac layout_exact Hs :=
  rewrite exact_eq by (rewrite zlen_concat, Hs; reflexivity); cbn [mbind res_bind].

Ltac layout_short dec Hl :=
  eexists; unfold dec; rewrite exact_spec, (proj2 (Z.eqb_neq _ _)) by exact Hl; reflexivity.

Ltac layout_sizes sizes :=
  unfold sizes; open_wf;
  repeat (rewrite fmap_cons; apply (f_equal2 cons); [first [assumption | apply zlen_to_be | reflexivity]|]); reflexivity.

(** Reads the integers and enums of a decoded message back. *)
Ltac read_back :=
  repeat match goal with
  | H : or_reserved (AuditRole.from_byte _) = Ok _ |- _ => apply role_ok in H; subst
  | H : or_reserved (SessionResult.from_byte _) = Ok _ |- _ => apply result_ok in H; subst
  | H : or_reserved (AuthMode.from_byte _) = Ok _ |- _ => apply auth_mode_ok in H; subst
  | _ : zlen ?p = ?n |- context [from_be_bytes ?p] =>
      lazymatch goal with
      | _ : to_be_bytes _ (from_be_bytes p) = p |- _ => fail
      | _ => let k := eval cbv in (Z.to_nat n) in
             let Hf := fresh "Hbytes" in let Hr := fresh "Hrange" in
             destruct (array_uint k p) as [Hf Hr]; [assumption|assumption|]
      end
  end.

(** The fourth law, once the decoder's equation is inverted. *)
Ltac layout_canonical fields :=
  read_back; split; [split_and!; assumption || done|];
  unfold fields; cbn; congruence.

(** ** Snapshots *)

Definition stream_bytes (s : StreamSnapshot.t) : list Z :=
  to_be_bytes 8 (StreamSnapshot.count s) ++ raw (StreamSnapshot.head s).

Arguments stream_bytes : simpl never.

Definition snapshot_bytes (s : SharedSnapshot.t) : list Z :=
  concat (stream_bytes <$> SharedSnapshot.streams s).

Lemma snapshot_concat a b c d :
  snapshot_bytes (SharedSnapshot.new [a; b; c; d]) =
  concat [stream_bytes a; stream_bytes b; stream_bytes c; stream_bytes d].
Proof. done. Qed.

(** The four streams of a well-formed snapshot. *)
Lemma snapshot_four s :
  SharedSnapshot.wf s -> exists a b c d, s = SharedSnapshot.new [a; b; c; d] /\
    StreamSnapshot.wf a /\ StreamSnapshot.wf b /\ StreamSnapshot.wf c /\ StreamSnapshot.wf d.
Proof.
  destruct s as [l]. intros [Hl Hf]. cbn in Hl, Hf. unfold SHARED_STREAMS in Hl.
  explode l Hl. split_forall. eexists _, _, _, _. by split_and!.
Qed.

Lemma stream_bytes_array s : StreamSnapshot.wf s -> is_array 40 (stream_bytes s).
Proof.
  intros [_ [Hb Hl]]. cbn in Hl. unfold DIGEST_LEN in Hl. unfold stream_bytes. split; [bytes_tac|zlen_tac].
Qed.

Lemma snapshot_bytes_array s : SharedSnapshot.wf s -> is_array 160 (snapshot_bytes s).
Proof.
  intros (a & b & c & d & -> & Ha & Hb & Hc & Hd)%snapshot_four.
  apply stream_bytes_array in Ha as [], Hb as [], Hc as [], Hd as []. rewrite snapshot_concat.
  split; [apply bytes_concat; forall_tac|]. rewrite zlen_concat, !fmap_cons. cbn. lia.
Qed.

Lemma write_stream_written pre n s :
  StreamSnapshot.wf s -> 40 <= n ->
  (cur ← write_u64 (written pre n) (StreamSnapshot.count s);
   append cur (raw (StreamSnapshot.head s))) = Ok (written (pre ++ stream_bytes s) (n - 40)).
Proof.
  intros [_ [_ Hl]] Hn. cbn in Hl. unfold DIGEST_LEN in Hl. unfold write_u64, stream_bytes.
  eval_appends. rewrite <- app_assoc. do 2 f_equal. zlen_tac.
Qed.

Lemma write_snapshot_written pre n s :
  SharedSnapshot.wf s -> 160 <= n ->
  write_snapshot (written pre n) s = Ok (written (pre ++ snapshot_bytes s) (n - 160)).
Proof.
  intros (a & b & c & d & -> & Ha & Hb & Hc & Hd)%snapshot_four Hn.
  assert (forall st rest pre n e, SharedSnapshot.get (SharedSnapshot.new [a; b; c; d]) st = Ok e ->
    StreamSnapshot.wf e -> 40 <= n ->
    write_streams (written pre n) (SharedSnapshot.new [a; b; c; d]) (st :: rest) =
    write_streams (written (pre ++ stream_bytes e) (n - 40)) (SharedSnapshot.new [a; b; c; d]) rest)
    as Hstep.
  { intros st rest pre' n' e Hg He Hn'. cbn [write_streams]. rewrite Hg. cbn [mbind res_bind].
    pose proof (write_stream_written pre' n' e He Hn') as Hw.
    destruct (write_u64 _ _) as [cur| |]; [|done..]. cbn [mbind res_bind] in *. by rewrite Hw. }
  unfold write_snapshot, SharedStream.ALL.
  rewrite (Hstep SharedStream.Input _ _ _ a eq_refl), (Hstep SharedStream.Output _ _ _ b eq_refl),
    (Hstep SharedStream.Control _ _ _ c eq_refl), (Hstep SharedStream.FileTransfer _ _ _ d eq_refl)
    by (done || lia). cbn [write_streams].
  rewrite snapshot_concat. cbn [concat]. rewrite app_nil_r, <- !app_assoc. do 2 f_equal. lia.
Qed.

(** Every string of the right length is the encoding of one snapshot. *)
Lemma decode_snapshot_new s : SharedSnapshot.wf s -> decode_snapshot (snapshot_bytes s) = Ok s.
Proof.
  intros (a & b & c & d & -> & Ha & Hb & Hc & Hd)%snapshot_four.
  destruct a as [na [ha]], b as [nb [hb]], c as [nc [hc]], d as [nd [hd]].
  destruct Ha as [Ha1 [_ Ha2]], Hb as [Hb1 [_ Hb2]], Hc as [Hc1 [_ Hc2]], Hd as [Hd1 [_ Hd2]].
  cbn in Ha1, Ha2, Hb1, Hb2, Hc1, Hc2, Hd1, Hd2. unfold DIGEST_LEN in *.
  set (ps := [to_be_bytes 8 na; ha; to_be_bytes 8 nb; hb; to_be_bytes 8 nc; hc; to_be_bytes 8 nd; hd]).
  assert (snapshot_bytes (SharedSnapshot.new [StreamSnapshot.new na (FixedBytes.new ha);
    StreamSnapshot.new nb (FixedBytes.new hb); StreamSnapshot.new nc (FixedBytes.new hc);
    StreamSnapshot.new nd (FixedBytes.new hd)]) = concat ps) as ->.
  { rewrite snapshot_concat. unfold stream_bytes, ps. cbn [concat]. by rewrite <- !app_assoc. }
  assert (zlen (A:=Z) <$> ps = [8; 32; 8; 32; 8; 32; 8; 32]) as Hs.
  { unfold ps. rewrite !fmap_cons. by rewrite !zlen_to_be, Ha2, Hb2, Hc2, Hd2. }
  unfold decode_snapshot. change (seqZ 0 SHARED_STREAMS) with [0; 1; 2; 3].
  cbn [decode_streams]. cbv zeta. unfold ps in *. read_layout Hs.
  by rewrite !from_to_be.
Qed.

Lemma decode_snapshot_onto l :
  bytes l -> zlen l = 160 ->
  exists s, SharedSnapshot.wf s /\ l = snapshot_bytes s /\ decode_snapshot l = Ok s.
Proof.
  intros Hb Hl.
  destruct (split_layout [8; 32; 8; 32; 8; 32; 8; 32] l) as (ps & -> & Hs & Hps);
    [repeat constructor; lia|done|done|].
  explode_parts ps Hs. split_forall.
  set (s := fun p q => StreamSnapshot.new (from_be_bytes p) (FixedBytes.new (n:=FixedBytes.ChainHead) q)).
  exists (SharedSnapshot.new [s p p0; s p1 p2; s p3 p4; s p5 p6]).
  enough (Hw : SharedSnapshot.wf (SharedSnapshot.new [s p p0; s p1 p2; s p3 p4; s p5 p6]) /\
    concat [p; p0; p1; p2; p3; p4; p5; p6] =
      snapshot_bytes (SharedSnapshot.new [s p p0; s p1 p2; s p3 p4; s p5 p6])).
  { destruct Hw as [Hw Heq]. split_and!; [done|done|]. rewrite Heq. by apply decode_snapshot_new. }
  assert (forall p q, bytes p -> bytes q -> zlen p = 8 -> zlen q = 32 ->
    StreamSnapshot.wf (s p q) /\ stream_bytes (s p q) = p ++ q) as Hst.
  { intros x y Hx Hy Hlx Hly. destruct (array_uint 8 x Hx Hlx) as [Heq Hr].
    unfold stream_bytes. cbn. by rewrite Heq. }
  destruct (Hst p p0) as [? Hq0], (Hst p1 p2) as [? Hq1], (Hst p3 p4) as [? Hq2],
    (Hst p5 p6) as [? Hq3]; try done.
  split; [split; [done|forall_tac]|]. rewrite snapshot_concat.
  rewrite Hq0, Hq1, Hq2, Hq3. cbn [concat]. by rewrite <- !app_assoc.
Qed.

(** The second one: the appended fields are the concatenation. *)
Ltac layout_enc fields :=
  unfold fields; open_wf; cbn [mbind res_bind]; unfold write_u64, write_u32, write_u16, MAX_AUDIT_PAYLOAD_LEN;
  rewrite ?start_written;
  repeat (first [rewrite append_written by zlen_tac | rewrite write_snapshot_written by first [assumption | zlen_tac]];
          cbn [mbind res_bind]);
  rewrite finish_written by zlen_tac;
  rewrite ?app_nil_l; cbn [concat]; rewrite <- ?app_assoc, ?app_nil_r.

(** The length and bytes of the snapshots of a well-formed message. *)
Ltac open_snapshot :=
  destruct_and?;
  repeat match goal with
  | H : SharedSnapshot.wf ?s |- _ =>
      lazymatch goal with
      | _ : zlen (snapshot_bytes s) = _ |- _ => fail
      | _ => let H1 := fresh "Hb" in let H2 := fresh "Hl" in
             destruct (snapshot_bytes_array s H) as [H1 H2]
      end
  end.

(** Replaces a 160-byte part by the snapshot it decodes to. *)
Ltac read_snapshot :=
  match goal with
  | Hl : zlen ?p = 160, Hb : bytes ?p |- _ =>
      let s := fresh "s" in let Hs := fresh "Hsnap" in
      destruct (decode_snapshot_onto p Hb Hl) as (s & ? & Hs & ?); subst p
  end;
  match goal with
  | H : decode_snapshot _ = Ok _, H' : context [decode_snapshot _] |- _ => rewrite H in H'
  | H : decode_snapshot _ = Ok _ |- _ => rewrite H
  end;
  cbn [mbind res_bind] in *.

(** ** AuditHello *)

Definition hello_sizes : list Z := [1; 32; 32; 32; 8; 32; 32; 2; 32; 64].

Definition hello_fields (m : AuditHello.t) : list (list Z) :=
  [[AuditRole.code (AuditHello.role m)]; raw (AuditHello.persistent_audit_key m);
   raw (AuditHello.session_key m); raw (AuditHello.nonce m);
   to_be_bytes 8 (AuditHello.ledger_sequence m); raw (AuditHello.ledger_root m);
   raw (AuditHello.connection_binding m); to_be_bytes 2 (AuditHello.format_version m);
   raw (AuditHello.input_commitment m); raw (AuditHello.signature m)].

Definition hello_wf (m : AuditHello.t) : Prop :=
  FixedBytes.wf (AuditHello.persistent_audit_key m) /\ FixedBytes.wf (AuditHello.session_key m) /\
  FixedBytes.wf (AuditHello.nonce m) /\ is_u64 (AuditHello.ledger_sequence m) /\
  FixedBytes.wf (AuditHello.ledger_root m) /\ FixedBytes.wf (AuditHello.connection_binding m) /\
  (is_u16 (AuditHello.format_version m) /\ AuditHello.format_version m <> 0) /\
  FixedBytes.wf (AuditHello.input_commitment m) /\ FixedBytes.wf (AuditHello.signature m).

Lemma audit_hello_decode_eq r p1 p2 p3 p4 p5 p6 v p8 p9 :
  zlen (A:=Z) <$> [[r]; p1; p2; p3; p4; p5; p6; v; p8; p9] = hello_sizes ->
  AuditHello.decode_payload (concat [[r]; p1; p2; p3; p4; p5; p6; v; p8; p9]) =
    role ← or_reserved (AuditRole.from_byte r);
    if from_be_bytes v =? 0 then Err (InvalidField FReserved) else
    Ok (AuditHello.new role (FixedBytes.new p1) (FixedBytes.new p2) (FixedBytes.new p3)
          (from_be_bytes p4) (FixedBytes.new p5) (FixedBytes.new p6) (from_be_bytes v)
          (FixedBytes.new p8) (FixedBytes.new p9)).
Proof. intros Hs. unfold AuditHello.decode_payload. layout_exact Hs. by read_layout Hs. Qed.

Lemma hello_layout :
  fixed_layout hello_sizes hello_fields (slice_of AuditHello.encode_payload)
    AuditHello.decode_payload hello_wf.
Proof.
  constructor; unfold hello_wf.
  - intros m Hwf. layout_fields hello_fields hello_sizes.
  - intros m Hwf. unfold AuditHello.encode_payload. by layout_enc hello_fields.
  - intros m Hwf. unfold hello_fields. rewrite audit_hello_decode_eq by layout_sizes hello_sizes.
    rewrite (proj2 (role_ok _ _) eq_refl). cbn [mbind res_bind]. open_wf. rewrite !from_to_be by done.
    rewrite (proj2 (Z.eqb_neq _ _)) by done. rewrite !fixed_new_raw. by destruct m.
  - intros ps m Hs Hb Hd. explode_parts ps Hs. explode p Hlen.
    split_forall. rewrite audit_hello_decode_eq in Hd by layout_sizes hello_sizes.
    inv_ok. by layout_canonical hello_fields.
  - intros ps Hs Hb. explode_parts ps Hs. explode p Hlen.
    rewrite audit_hello_decode_eq by layout_sizes hello_sizes. no_panic.
  - intros l Hl. layout_short AuditHello.decode_payload Hl.
Qed.

(** ** AuditReady, SecretContribution, ManifestSignature *)

Definition ready_sizes : list Z := [32; 32; 2; 64].

Definition ready_fields (m : AuditReady.t) : list (list Z) :=
  [raw (AuditReady.session_id m); raw (AuditReady.peer_audit_hello_digest m);
   to_be_bytes 2 (AuditReady.format_version m); raw (AuditReady.signature m)].

Definition ready_wf (m : AuditReady.t) : Prop :=
  FixedBytes.wf (AuditReady.session_id m) /\ FixedBytes.wf (AuditReady.peer_audit_hello_digest m) /\
  (is_u16 (AuditReady.format_version m) /\ AuditReady.format_version m <> 0) /\
  FixedBytes.wf (AuditReady.signature m).

Lemma ready_decode_eq p0 p1 v p3 :
  zlen (A:=Z) <$> [p0; p1; v; p3] = ready_sizes ->
  AuditReady.decode_payload (concat [p0; p1; v; p3]) =
    if from_be_bytes v =? 0 then Err (InvalidField FReserved) else
    Ok (AuditReady.new (FixedBytes.new p0) (FixedBytes.new p1) (from_be_bytes v) (FixedBytes.new p3)).
Proof. intros Hs. unfold AuditReady.decode_payload. layout_exact Hs. by read_layout Hs. Qed.

Lemma ready_layout :
  fixed_layout ready_sizes ready_fields (slice_of AuditReady.encode_payload)
    AuditReady.decode_payload ready_wf.
Proof.
  constructor; unfold ready_wf.
  - intros m Hwf. layout_fields ready_fields ready_sizes.
  - intros m Hwf. unfold AuditReady.encode_payload. by layout_enc ready_fields.
  - intros m Hwf. unfold ready_fields. rewrite ready_decode_eq by layout_sizes ready_sizes.
    open_wf. rewrite !from_to_be by done.
    rewrite (proj2 (Z.eqb_neq _ _)) by done. rewrite !fixed_new_raw. by destruct m.
  - intros ps m Hs Hb Hd. explode_parts ps Hs. split_forall.
    rewrite ready_decode_eq in Hd by layout_sizes ready_sizes. inv_ok. by layout_canonical ready_fields.
  - intros ps Hs Hb. explode_parts ps Hs. rewrite ready_decode_eq by layout_sizes ready_sizes. no_panic.
  - intros l Hl. layout_short AuditReady.decode_payload Hl.
Qed.

(** Messages that are one array. *)
Lemma array_layout {M} n (get : M -> list Z) (mk : list Z -> M)
    (enc : M -> res ProtocolError WireBytes.t) (dec : list Z -> res ProtocolError M) :
  0 <= n <= MAX_AUDIT_PAYLOAD_LEN ->
  (forall m, mk (get m) = m) -> (forall l, get (mk l) = l) ->
  (forall m, enc m = (bytes ← copy_range (zeros MAX_AUDIT_PAYLOAD_LEN) 0 n (get m);
                      WireBytes.new bytes n)) ->
  (forall l, dec l = (l ← exact n l; Ok (mk l))) ->
  fixed_layout [n] (fun m => [get m]) (slice_of enc) dec (fun m => is_array n (get m)).
Proof.
  intros Hn Hmg Hgm Henc Hdec. constructor.
  - intros m [Hb Hl]. rewrite fmap_cons, Hl. split; [done|]. by repeat constructor.
  - intros m [Hb Hl]. cbn beta. rewrite Henc. cbn [concat]. rewrite app_nil_r.
    rewrite copy_into_zeros by lia. cbn [mbind res_bind]. by rewrite wire_new_slice by lia.
  - intros m [Hb Hl]. rewrite Hdec. cbn [concat]. rewrite app_nil_r, exact_eq by done.
    cbn [mbind res_bind]. by rewrite Hmg.
  - intros ps m Hs Hb Hd. explode_parts ps Hs. split_forall. cbn [concat] in Hd.
    rewrite app_nil_r, Hdec, exact_eq in Hd by done. cbn [mbind res_bind] in Hd. inv_ok.
    by rewrite Hgm.
  - intros ps Hs Hb. explode_parts ps Hs. cbn [concat]. rewrite app_nil_r, Hdec, exact_eq by done. done.
  - intros l Hl. rewrite Hdec, exact_spec. eexists. rewrite (proj2 (Z.eqb_neq _ _)); [done|].
    cbn in Hl. lia.
Qed.

Lemma secret_layout :
  fixed_layout [32] (fun m => [raw (SecretContributionMessage.contribution m)])
    (slice_of SecretContributionMessage.encode_payload) SecretContributionMessage.decode_payload
    (fun m => FixedBytes.wf (SecretContributionMessage.contribution m)).
Proof.
  apply (array_layout 32 _ (fun l => SecretContributionMessage.new (FixedBytes.new l))); try done.
  by intros [[]].
Qed.

Lemma manifest_signature_layout :
  fixed_layout [64] (fun m => [raw (ManifestSignature.signature m)])
    (slice_of ManifestSignature.encode_payload) ManifestSignature.decode_payload
    (fun m => FixedBytes.wf (ManifestSignature.signature m)).
Proof.
  apply (array_layout 64 _ (fun l => ManifestSignature.new (FixedBytes.new l))); try done.
  by intros [[]].
Qed.

(** ** Checkpoint and CheckpointAck *)

Definition checkpoint_sizes : list Z := [32; 8; 160; 32; 32; 64].

Definition checkpoint_fields (m : Checkpoint.t) : list (list Z) :=
  [raw (Checkpoint.session_id m); to_be_bytes 8 (Checkpoint.sequence m);
   snapshot_bytes (Checkpoint.snapshot m); raw (Checkpoint.local_chain_head m);
   raw (Checkpoint.ledger_snapshot_digest m); raw (Checkpoint.signature m)].

Definition checkpoint_wf (m : Checkpoint.t) : Prop :=
  FixedBytes.wf (Checkpoint.session_id m) /\ is_u64 (Checkpoint.sequence m) /\
  SharedSnapshot.wf (Checkpoint.snapshot m) /\ FixedBytes.wf (Checkpoint.local_chain_head m) /\
  FixedBytes.wf (Checkpoint.ledger_snapshot_digest m) /\ FixedBytes.wf (Checkpoint.signature m).

Lemma checkpoint_decode_eq p0 p1 p2 p3 p4 p5 :
  zlen (A:=Z) <$> [p0; p1; p2; p3; p4; p5] = checkpoint_sizes ->
  Checkpoint.decode_payload (concat [p0; p1; p2; p3; p4; p5]) =
    snapshot ← decode_snapshot p2;
    Ok (Checkpoint.new (FixedBytes.new p0) (from_be_bytes p1) snapshot (FixedBytes.new p3)
          (FixedBytes.new p4) (FixedBytes.new p5)).
Proof. intros Hs. unfold Checkpoint.decode_payload. layout_exact Hs. by read_layout Hs. Qed.

Lemma checkpoint_layout :
  fixed_layout checkpoint_sizes checkpoint_fields (slice_of Checkpoint.encode_payload)
    Checkpoint.decode_payload checkpoint_wf.
Proof.
  constructor; unfold checkpoint_wf.
  - intros m Hwf. open_snapshot. layout_fields checkpoint_fields checkpoint_sizes.
  - intros m Hwf. open_snapshot. unfold Checkpoint.encode_payload. by layout_enc checkpoint_fields.
  - intros m Hwf. open_snapshot. unfold checkpoint_fields.
    rewrite checkpoint_decode_eq by layout_sizes checkpoint_sizes.
    open_wf. rewrite decode_snapshot_new by done. cbn [mbind res_bind].
    rewrite !from_to_be, !fixed_new_raw by done. by destruct m.
  - intros ps m Hs Hb Hd. explode_parts ps Hs. split_forall.
    rewrite checkpoint_decode_eq in Hd by layout_sizes checkpoint_sizes.
    read_snapshot. inv_ok. by layout_canonical checkpoint_fields.
  - intros ps Hs Hb. explode_parts ps Hs. split_forall.
    rewrite checkpoint_decode_eq by layout_sizes checkpoint_sizes. read_snapshot. no_panic.
  - intros l Hl. layout_short Checkpoint.decode_payload Hl.
Qed.

Definition ack_sizes : list Z := [32; 8; 32; 160; 64].

Definition ack_fields (m : CheckpointAck.t) : list (list Z) :=
  [raw (CheckpointAck.session_id m); to_be_bytes 8 (CheckpointAck.sequence m);
   raw (CheckpointAck.checkpoint_digest m); snapshot_bytes (CheckpointAck.snapshot m);
   raw (CheckpointAck.signature m)].

Definition ack_wf (m : CheckpointAck.t) : Prop :=
  FixedBytes.wf (CheckpointAck.session_id m) /\ is_u64 (CheckpointAck.sequence m) /\
  FixedBytes.wf (CheckpointAck.checkpoint_digest m) /\
  SharedSnapshot.wf (CheckpointAck.snapshot m) /\ FixedBytes.wf (CheckpointAck.signature m).

Lemma ack_decode_eq p0 p1 p2 p3 p4 :
  zlen (A:=Z) <$> [p0; p1; p2; p3; p4] = ack_sizes ->
  CheckpointAck.decode_payload (concat [p0; p1; p2; p3; p4]) =
    snapshot ← decode_snapshot p3;
    Ok (CheckpointAck.new (FixedBytes.new p0) (from_be_bytes p1) (FixedBytes.new p2) snapshot
          (FixedBytes.new p4)).
Proof. intros Hs. unfold CheckpointAck.decode_payload. layout_exact Hs. by read_layout Hs. Qed.

Lemma ack_layout :
  fixed_layout ack_sizes ack_fields (slice_of CheckpointAck.encode_payload)
    CheckpointAck.decode_payload ack_wf.
Proof.
  constructor; unfold ack_wf.
  - intros m Hwf. open_snapshot. layout_fields ack_fields ack_sizes.
  - intros m Hwf. open_snapshot. unfold CheckpointAck.encode_payload. by layout_enc ack_fields.
  - intros m Hwf. open_snapshot. unfold ack_fields. rewrite ack_decode_eq by layout_sizes ack_sizes.
    open_wf. rewrite decode_snapshot_new by done. cbn [mbind res_bind].
    rewrite !from_to_be, !fixed_new_raw by done. by destruct m.
  - intros ps m Hs Hb Hd. explode_parts ps Hs. split_forall.
    rewrite ack_decode_eq in Hd by layout_sizes ack_sizes.
    read_snapshot. inv_ok. by layout_canonical ack_fields.
  - intros ps Hs Hb. explode_parts ps Hs. split_forall.
    rewrite ack_decode_eq by layout_sizes ack_sizes. read_snapshot. no_panic.
  - intros l Hl. layout_short CheckpointAck.decode_payload Hl.
Qed.

(** ** LedgerCommit *)

Definition ledger_sizes : list Z := [8; 32; 32; 32; 32; 32; 1; 64].

Definition ledger_fields (m : LedgerCommit.t) : list (list Z) :=
  [to_be_bytes 8 (LedgerCommit.sequence m); raw (LedgerCommit.previous_root m);
   raw (LedgerCommit.session_id m); raw (LedgerCommit.manifest_digest m);
   raw (LedgerCommit.sealed_record_digest m); raw (LedgerCommit.peer_identity_fingerprint m);
   [SessionResult.code (LedgerCommit.result m)]; raw (LedgerCommit.signature m)].

Definition ledger_wf (m : LedgerCommit.t) : Prop :=
  is_u64 (LedgerCommit.sequence m) /\ FixedBytes.wf (LedgerCommit.previous_root m) /\
  FixedBytes.wf (LedgerCommit.session_id m) /\ FixedBytes.wf (LedgerCommit.manifest_digest m) /\
  FixedBytes.wf (LedgerCommit.sealed_record_digest m) /\
  FixedBytes.wf (LedgerCommit.peer_identity_fingerprint m) /\
  FixedBytes.wf (LedgerCommit.signature m).

Lemma ledger_decode_eq p0 p1 p2 p3 p4 p5 r p7 :
  zlen (A:=Z) <$> [p0; p1; p2; p3; p4; p5; [r]; p7] = ledger_sizes ->
  LedgerCommit.decode_payload (concat [p0; p1; p2; p3; p4; p5; [r]; p7]) =
    result ← or_reserved (SessionResult.from_byte r);
    Ok (LedgerCommit.new (from_be_bytes p0) (FixedBytes.new p1) (FixedBytes.new p2)
          (FixedBytes.new p3) (FixedBytes.new p4) (FixedBytes.new p5) result (FixedBytes.new p7)).
Proof. intros Hs. unfold LedgerCommit.decode_payload. layout_exact Hs. by read_layout Hs. Qed.

Lemma ledger_layout :
  fixed_layout ledger_sizes ledger_fields (slice_of LedgerCommit.encode_payload)
    LedgerCommit.decode_payload ledger_wf.
Proof.
  constructor; unfold ledger_wf.
  - intros m Hwf. layout_fields ledger_fields ledger_sizes.
  - intros m Hwf. unfold LedgerCommit.encode_payload. by layout_enc ledger_fields.
  - intros m Hwf. unfold ledger_fields. rewrite ledger_decode_eq by layout_sizes ledger_sizes.
    rewrite (proj2 (result_ok _ _) eq_refl). cbn [mbind res_bind]. open_wf.
    rewrite !from_to_be, !fixed_new_raw by done. by destruct m.
  - intros ps m Hs Hb Hd. explode_parts ps Hs. explode p5 Hlen5. split_forall.
    rewrite ledger_decode_eq in Hd by layout_sizes ledger_sizes. inv_ok. by layout_canonical ledger_fields.
  - intros ps Hs Hb. explode_parts ps Hs. explode p5 Hlen5.
    rewrite ledger_decode_eq by layout_sizes ledger_sizes. no_panic.
  - intros l Hl. layout_short LedgerCommit.decode_payload Hl.
Qed.

(** ** LocalRecordSeal *)

Definition seal_sizes : list Z := [32; 1; 32; 8; 32; 32; 32; 32; 32; 32; 64].

Definition seal_fields (m : LocalRecordSeal.t) : list (list Z) :=
  [raw (LocalRecordSeal.session_id m); [AuditRole.code (LocalRecordSeal.role m)];
   raw (LocalRecordSeal.final_local_event_root m);
   to_be_bytes 8 (LocalRecordSeal.local_event_count m)] ++
  (raw <$> LocalRecordSeal.final_shared_roots m) ++
  [raw (LocalRecordSeal.joint_manifest_digest m); raw (LocalRecordSeal.sealed_prefix_digest m);
   raw (LocalRecordSeal.signature m)].

Definition roots_wf (roots : list ChainHead) : Prop :=
  exists a b c d, roots = [a; b; c; d] /\ FixedBytes.wf a /\ FixedBytes.wf b /\ FixedBytes.wf c /\
    FixedBytes.wf d.

Definition seal_wf (m : LocalRecordSeal.t) : Prop :=
  FixedBytes.wf (LocalRecordSeal.session_id m) /\
  FixedBytes.wf (LocalRecordSeal.final_local_event_root m) /\
  is_u64 (LocalRecordSeal.local_event_count m) /\
  roots_wf (LocalRecordSeal.final_shared_roots m) /\
  FixedBytes.wf (LocalRecordSeal.joint_manifest_digest m) /\
  FixedBytes.wf (LocalRecordSeal.sealed_prefix_digest m) /\
  FixedBytes.wf (LocalRecordSeal.signature m).

Lemma seal_decode_eq p0 r p2 p3 q0 q1 q2 q3 p5 p6 p7 :
  zlen (A:=Z) <$> [p0; [r]; p2; p3; q0; q1; q2; q3; p5; p6; p7] = seal_sizes ->
  LocalRecordSeal.decode_payload (concat [p0; [r]; p2; p3; q0; q1; q2; q3; p5; p6; p7]) =
    role ← or_reserved (AuditRole.from_byte r);
    Ok (LocalRecordSeal.new (FixedBytes.new p0) role (FixedBytes.new p2) (from_be_bytes p3)
          [FixedBytes.new q0; FixedBytes.new q1; FixedBytes.new q2; FixedBytes.new q3]
          (FixedBytes.new p5) (FixedBytes.new p6) (FixedBytes.new p7)).
Proof.
  intros Hs. unfold LocalRecordSeal.decode_payload. layout_exact Hs.
  change (seqZ 0 SHARED_STREAMS) with [0; 1; 2; 3]. cbn [LocalRecordSeal.roots_at]. cbv zeta.
  by read_layout Hs.
Qed.

Lemma seal_fields_eq m a b c d :
  LocalRecordSeal.final_shared_roots m = [a; b; c; d] ->
  seal_fields m =
    [raw (LocalRecordSeal.session_id m); [AuditRole.code (LocalRecordSeal.role m)];
     raw (LocalRecordSeal.final_local_event_root m);
     to_be_bytes 8 (LocalRecordSeal.local_event_count m); raw a; raw b; raw c; raw d;
     raw (LocalRecordSeal.joint_manifest_digest m); raw (LocalRecordSeal.sealed_prefix_digest m);
     raw (LocalRecordSeal.signature m)].
Proof. unfold seal_fields. by intros ->. Qed.

(** Names the four roots of a well-formed seal. *)
Ltac open_roots Hr :=
  destruct_and?;
  match goal with H : roots_wf _ |- _ => destruct H as (? & ? & ? & ? & Hr & ? & ? & ? & ?) end;
  try rewrite (seal_fields_eq _ _ _ _ _ Hr).

Lemma seal_layout :
  fixed_layout seal_sizes seal_fields (slice_of LocalRecordSeal.encode_payload)
    LocalRecordSeal.decode_payload seal_wf.
Proof.
  constructor; unfold seal_wf.
  - intros m Hwf. open_roots Hr. layout_fields seal_fields seal_sizes.
  - intros m Hwf. open_roots Hr. unfold LocalRecordSeal.encode_payload. rewrite Hr.
    cbn [LocalRecordSeal.append_roots]. by layout_enc seal_fields.
  - intros m Hwf. open_roots Hr. rewrite seal_decode_eq by layout_sizes seal_sizes.
    rewrite (proj2 (role_ok _ _) eq_refl). cbn [mbind res_bind]. open_wf.
    rewrite !from_to_be, !fixed_new_raw, <- Hr by done. by destruct m.
  - intros ps m Hs Hb Hd. explode_parts ps Hs. explode p0 Hlen0. split_forall.
    rewrite seal_decode_eq in Hd by layout_sizes seal_sizes. inv_ok. read_back.
    split; [|unfold seal_fields; cbn; congruence].
    split_and!; try done. by eexists _, _, _, _.
  - intros ps Hs Hb. explode_parts ps Hs. explode p0 Hlen0.
    rewrite seal_decode_eq by layout_sizes seal_sizes. no_panic.
  - intros l Hl. layout_short LocalRecordSeal.decode_payload Hl.
Qed.

(** ** JointManifest *)

Lemma ending_ok t v e :
  ManifestEnding.from_bytes t v = Some e <-> ManifestEnding.tag e = t /\ ManifestEnding.value e = v.
Proof.
  split.
  - unfold ManifestEnding.from_bytes. intros H.
    destruct t as [|[[]|[]|]|]; try done; [|by injection H as <-].
    destruct v as [|p|]; try done. do 3 (try (destruct p as [p|p|]; try done)); by injection H as <-.
  - intros [<- <-]. by destruct e as [|[]].
Qed.

Definition manifest_sizes : list Z := [2; 32; 32; 32; 32; 32; 32; 32; 160; 1; 4; 1; 8].

Definition manifest_fields (m : JointManifest.t) : list (list Z) :=
  [to_be_bytes 2 (JointManifest.format_version m); raw (JointManifest.session_id m);
   raw (JointManifest.controller_fingerprint m); raw (JointManifest.host_fingerprint m);
   raw (JointManifest.controller_session_key m); raw (JointManifest.host_session_key m);
   raw (JointManifest.connection_binding m); raw (JointManifest.terminal_hello_digest m);
   snapshot_bytes (JointManifest.final_snapshot m); [ManifestEnding.tag (JointManifest.ending m)];
   to_be_bytes 4 (ManifestEnding.value (JointManifest.ending m));
   [Z.b2z (JointManifest.ended_normally m)];
   to_be_bytes 8 (JointManifest.final_checkpoint_sequence m)].

Definition manifest_wf (m : JointManifest.t) : Prop :=
  JointManifest.format_version m = AUDIT_FORMAT_VERSION /\
  FixedBytes.wf (JointManifest.session_id m) /\
  FixedBytes.wf (JointManifest.controller_fingerprint m) /\
  FixedBytes.wf (JointManifest.host_fingerprint m) /\
  FixedBytes.wf (JointManifest.controller_session_key m) /\
  FixedBytes.wf (JointManifest.host_session_key m) /\
  FixedBytes.wf (JointManifest.connection_binding m) /\
  FixedBytes.wf (JointManifest.terminal_hello_digest m) /\
  SharedSnapshot.wf (JointManifest.final_snapshot m) /\
  ManifestEnding.wf (JointManifest.ending m) /\
  is_u64 (JointManifest.final_checkpoint_sequence m).

Lemma manifest_decode_eq v p1 p2 p3 p4 p5 p6 p7 p8 t p10 n p12 :
  zlen (A:=Z) <$> [v; p1; p2; p3; p4; p5; p6; p7; p8; [t]; p10; [n]; p12] = manifest_sizes ->
  JointManifest.decode_payload (concat [v; p1; p2; p3; p4; p5; p6; p7; p8; [t]; p10; [n]; p12]) =
    if negb (from_be_bytes v =? AUDIT_FORMAT_VERSION) then Err (InvalidField FReserved) else
    snapshot ← decode_snapshot p8;
    ending ← ok_or (ManifestEnding.from_bytes t (from_be_bytes p10)) (UnknownTag t);
    if 1 <? n then Err (InvalidField FReserved) else
    Ok (JointManifest.new (from_be_bytes v) (FixedBytes.new p1) (FixedBytes.new p2)
          (FixedBytes.new p3) (FixedBytes.new p4) (FixedBytes.new p5) (FixedBytes.new p6)
          (FixedBytes.new p7) snapshot ending (negb (n =? 0)) (from_be_bytes p12)).
Proof.
  intros Hs. unfold JointManifest.decode_payload.
  rewrite (proj2 (Z.eqb_eq (zlen _) _)) by (rewrite zlen_concat, Hs; reflexivity). cbn [negb].
  read_layout Hs. rewrite (slice_rest_layout _ _ Hs 7) by reflexivity. cbn [mbind res_bind drop].
  assert (zlen (A:=Z) <$> [p7; p8; [t]; p10; [n]; p12] = [32; 160; 1; 4; 1; 8]) as Hs'
    by (by apply (f_equal (drop 7)) in Hs). by read_layout Hs'.
Qed.

Lemma ending_wire e :
  ManifestEnding.wf e -> bytes [ManifestEnding.tag e] /\ 0 <= ManifestEnding.value e < 256 ^ Z.of_nat 4.
Proof.
  intros Hwf. destruct e as [c|r]; cbn in *.
  - split; [repeat constructor; unfold is_u8; lia|]. unfold is_u32 in Hwf. lia.
  - split; [repeat constructor; unfold is_u8; lia|]. destruct r; cbn; lia.
Qed.

Lemma flag_byte b : bytes [Z.b2z b].
Proof. destruct b; repeat constructor; unfold is_u8; cbn; lia. Qed.
#[export] Hint Resolve flag_byte : yon.

Lemma manifest_layout :
  fixed_layout manifest_sizes manifest_fields (slice_of JointManifest.encode_payload)
    JointManifest.decode_payload manifest_wf.
Proof.
  constructor; unfold manifest_wf.
  - intros m Hwf. open_snapshot. destruct (ending_wire (JointManifest.ending m)) as [? _]; [done|].
    layout_fields manifest_fields manifest_sizes.
  - intros m Hwf. open_snapshot. unfold JointManifest.encode_payload.
    rewrite (proj2 (Z.eqb_eq _ _)) by done. cbn [negb]. by layout_enc manifest_fields.
  - intros m Hwf. open_snapshot. destruct (ending_wire (JointManifest.ending m)) as [? Hv]; [done|].
    unfold manifest_fields. rewrite manifest_decode_eq by layout_sizes manifest_sizes. open_wf.
    rewrite !from_to_be by (done || by (replace (JointManifest.format_version m) with 3)).
    rewrite (proj2 (Z.eqb_eq _ _)) by done. cbn [negb]. rewrite decode_snapshot_new by done.
    cbn [mbind res_bind]. rewrite (proj2 (ending_ok _ _ (JointManifest.ending m))) by done.
    cbn [ok_or mbind res_bind]. rewrite !fixed_new_raw. destruct m as [? ? ? ? ? ? ? ? ? ? [] ?]; done.
  - intros ps m Hs Hb Hd. explode_parts ps Hs. explode p8 Hlen8. explode p10 Hlen10. split_forall.
    rewrite manifest_decode_eq in Hd by layout_sizes manifest_sizes.
    read_snapshot. inv_ok. read_back.
    match goal with H : ManifestEnding.from_bytes _ _ = Some _ |- _ =>
      apply ending_ok in H as [<- Hval] end.
    destruct (array_uint 4 p9) as [Hp9 Hr9]; [done..|]. rewrite <- Hval in Hp9.
    split; [split_and!; try done|].
    + destruct x as [c|]; [|done]. cbn in Hval |- *. subst c. exact Hr9.
    + assert (Z.b2z (negb (z0 =? 0)) = z0) as Hz.
      { match goal with H : is_u8 z0 |- _ => unfold is_u8 in H end.
        destruct (Z.eqb_spec z0 0); cbn; lia. }
      unfold manifest_fields. cbn -[Z.b2z]. congruence.
  - intros ps Hs Hb. explode_parts ps Hs. explode p8 Hlen8. explode p10 Hlen10. split_forall.
    rewrite manifest_decode_eq by layout_sizes manifest_sizes.
    destruct (negb _); [done|]. read_snapshot. no_panic.
  - intros l Hl. eexists. unfold JointManifest.decode_payload.
    by rewrite (proj2 (Z.eqb_neq (zlen l) MANIFEST_LEN)) by exact Hl.
Qed.

(** ** The frame *)

Definition audit_message_wf (m : AuditMessage.t) : Prop :=
  match m with
  | AuditMessage.AuditHello m => hello_wf m
  | AuditMessage.SecretContribution m => FixedBytes.wf (SecretContributionMessage.contribution m)
  | AuditMessage.AuditReady m => ready_wf m
  | AuditMessage.Checkpoint m => checkpoint_wf m
  | AuditMessage.CheckpointAck m => ack_wf m
  | AuditMessage.JointManifest m => manifest_wf m
  | AuditMessage.ManifestSignature m => FixedBytes.wf (ManifestSignature.signature m)
  | AuditMessage.LocalRecordSeal m => seal_wf m
  | AuditMessage.LedgerCommit m => ledger_wf m
  | AuditMessage.CloseNotice _ | AuditMessage.AuditError _ => True
  end.

(** What the frame needs of a payload codec, from its layout. *)
Lemma layout_payload {M} sizes fields (enc : M -> res ProtocolError WireBytes.t) dec wf
    (mk : M -> AuditMessage.t) :
  fixed_layout sizes fields (slice_of enc) dec wf -> Forall (Z.le 0) sizes ->
  (forall m, wf m -> exists p, WireBytes.as_slice <$> enc m = Ok p /\ bytes p /\
     zlen p = zsum sizes /\ mk <$> dec p = Ok (mk m)) /\
  (forall p m, bytes p -> mk <$> dec p = Ok m ->
     exists m', m = mk m' /\ wf m' /\ WireBytes.as_slice <$> enc m' = Ok p) /\
  (forall p, bytes p -> mk <$> dec p <> Panic).
Proof.
  intros Hfl Hpos. pose proof (layout_codec _ _ _ _ _ Hpos Hfl) as [Hc1 Hc2 Hc3 Hc4]. split_and!.
  - intros m Hwf. destruct (Hc1 m Hwf) as (p & He & _). exists p.
    destruct (layout_enc_len _ _ _ _ _ Hpos Hfl m p Hwf He) as [Hl Hb].
    by rewrite (Hc2 m p Hwf He).
  - intros p m Hb Hd. apply fmap_res_ok in Hd as (m' & Hd & ->). exists m'.
    destruct (Hc3 p m' Hb Hd). done.
  - intros p Hb. by apply fmap_no_panic, Hc4.
Qed.

Lemma tag_ok z t : AuditTag.from_byte z = Some t <-> AuditTag.code t = z.
Proof. exact (we_from_some z t). Qed.

Lemma close_notice_ok reason :
  WireBytes.as_slice <$> AuditMessage.close_notice_payload reason = Ok [AuditCloseReason.code reason].
Proof. by destruct reason. Qed.

Lemma audit_error_ok code :
  WireBytes.as_slice <$> AuditMessage.audit_error_payload code = Ok (to_be_bytes 2 (AuditErrorCode.code code)).
Proof. by destruct code. Qed.

Ltac sizes_pos := repeat (apply Forall_cons_2; [lia|]); apply Forall_nil_2.

(** One lemma per direction, over all eleven messages. *)
Lemma payload_encodes m :
  audit_message_wf m -> exists p, WireBytes.as_slice <$> AuditMessage.payload_of m = Ok p /\
    bytes p /\ zlen p = payload_len_of (AuditMessage.tag_of m) /\
    AuditMessage.decode_payload (AuditTag.code (AuditMessage.tag_of m)) p = Ok m.
Proof.
  intros Hwf. unfold AuditMessage.decode_payload. rewrite (proj2 (tag_ok _ _) eq_refl).
  cbn [ok_or mbind res_bind]. destruct m; cbn in Hwf.
  - apply (layout_payload _ _ _ _ _ AuditMessage.AuditHello hello_layout); [sizes_pos|done].
  - apply (layout_payload _ _ _ _ _ AuditMessage.SecretContribution secret_layout); [sizes_pos|done].
  - apply (layout_payload _ _ _ _ _ AuditMessage.AuditReady ready_layout); [sizes_pos|done].
  - apply (layout_payload _ _ _ _ _ AuditMessage.Checkpoint checkpoint_layout); [sizes_pos|done].
  - apply (layout_payload _ _ _ _ _ AuditMessage.CheckpointAck ack_layout); [sizes_pos|done].
  - apply (layout_payload _ _ _ _ _ AuditMessage.JointManifest manifest_layout); [sizes_pos|done].
  - apply (layout_payload _ _ _ _ _ AuditMessage.ManifestSignature manifest_signature_layout);
      [sizes_pos|done].
  - apply (layout_payload _ _ _ _ _ AuditMessage.LocalRecordSeal seal_layout); [sizes_pos|done].
  - apply (layout_payload _ _ _ _ _ AuditMessage.LedgerCommit ledger_layout); [sizes_pos|done].
  - eexists. split; [apply close_notice_ok|]. split_and!; [exact (enum_byte reason eq_refl)|done|].
    by destruct reason.
  - eexists. split; [apply audit_error_ok|]. split_and!; [apply bytes_to_be|done|]. by destruct code.
Qed.

Lemma payload_canonical t p m :
  bytes p -> AuditMessage.decode_payload (AuditTag.code t) p = Ok m ->
  audit_message_wf m /\ AuditMessage.tag_of m = t /\
  WireBytes.as_slice <$> AuditMessage.payload_of m = Ok p.
Proof.
  intros Hb. unfold AuditMessage.decode_payload. rewrite (proj2 (tag_ok _ _) eq_refl).
  cbn [ok_or mbind res_bind]. intros Hd.
  assert (Hgo : forall M sizes fields (enc : M -> _) dec wf mk,
    fixed_layout sizes fields (slice_of enc) dec wf -> Forall (Z.le 0) sizes ->
    mk <$> dec p = Ok m -> exists m', m = mk m' /\ wf m' /\ WireBytes.as_slice <$> enc m' = Ok p).
  { intros M sizes fields enc dec wf mk Hfl Hpos. by apply (layout_payload _ _ _ _ _ mk Hfl Hpos). }
  destruct t.
  - destruct (Hgo _ _ _ _ _ _ _ hello_layout ltac:(sizes_pos) Hd) as (? & -> & ? & ?). done.
  - destruct (Hgo _ _ _ _ _ _ _ secret_layout ltac:(sizes_pos) Hd) as (? & -> & ? & ?). done.
  - destruct (Hgo _ _ _ _ _ _ _ ready_layout ltac:(sizes_pos) Hd) as (? & -> & ? & ?). done.
  - destruct (Hgo _ _ _ _ _ _ _ checkpoint_layout ltac:(sizes_pos) Hd) as (? & -> & ? & ?). done.
  - destruct (Hgo _ _ _ _ _ _ _ ack_layout ltac:(sizes_pos) Hd) as (? & -> & ? & ?). done.
  - destruct (Hgo _ _ _ _ _ _ _ manifest_layout ltac:(sizes_pos) Hd) as (? & -> & ? & ?). done.
  - destruct (Hgo _ _ _ _ _ _ _ manifest_signature_layout ltac:(sizes_pos) Hd) as (? & -> & ? & ?). done.
  - destruct (Hgo _ _ _ _ _ _ _ seal_layout ltac:(sizes_pos) Hd) as (? & -> & ? & ?). done.
  - destruct (Hgo _ _ _ _ _ _ _ ledger_layout ltac:(sizes_pos) Hd) as (? & -> & ? & ?). done.
  - destruct p as [|b [|? ?]]; try done. unfold AuditMessage.decode_close_notice in Hd. inv_ok. split_and!; [done|done|].
    match goal with H : or_reserved _ = Ok _ |- _ => apply close_reason_ok in H as <- end.
    apply close_notice_ok.
  - unfold AuditMessage.decode_audit_error in Hd. inv_ok.
    match goal with H : exact _ _ = Ok _ |- _ => apply exact_ok in H as [-> Hl] end.
    match goal with H : or_reserved _ = Ok _ |- _ => apply error_code_ok in H end.
    split_and!; [done|done|]. destruct (array_uint 2 p Hb Hl) as [<- _].
    match goal with H : AuditErrorCode.code _ = _ |- _ => rewrite <- H end. apply audit_error_ok.
Qed.

Lemma payload_no_panic t p :
  bytes p -> AuditMessage.decode_payload (AuditTag.code t) p <> Panic.
Proof.
  intros Hb. unfold AuditMessage.decode_payload. rewrite (proj2 (tag_ok _ _) eq_refl).
  cbn [ok_or mbind res_bind]. destruct t.
  - apply (layout_payload _ _ _ _ _ AuditMessage.AuditHello hello_layout); [sizes_pos|done].
  - apply (layout_payload _ _ _ _ _ AuditMessage.SecretContribution secret_layout); [sizes_pos|done].
  - apply (layout_payload _ _ _ _ _ AuditMessage.AuditReady ready_layout); [sizes_pos|done].
  - apply (layout_payload _ _ _ _ _ AuditMessage.Checkpoint checkpoint_layout); [sizes_pos|done].
  - apply (layout_payload _ _ _ _ _ AuditMessage.CheckpointAck ack_layout); [sizes_pos|done].
  - apply (layout_payload _ _ _ _ _ AuditMessage.JointManifest manifest_layout); [sizes_pos|done].
  - apply (layout_payload _ _ _ _ _ AuditMessage.ManifestSignature manifest_signature_layout);
      [sizes_pos|done].
  - apply (layout_payload _ _ _ _ _ AuditMessage.LocalRecordSeal seal_layout); [sizes_pos|done].
  - apply (layout_payload _ _ _ _ _ AuditMessage.LedgerCommit ledger_layout); [sizes_pos|done].
  - unfold AuditMessage.decode_close_notice, or_reserved. destruct p as [|b [|? ?]]; no_panic.
  - unfold AuditMessage.decode_audit_error, or_reserved. pose proof exact_no_panic. no_panic.
Qed.

Definition audit_frame_enc (m : AuditMessage.t) : res ProtocolError (list Z) :=
  WireBytes.as_slice <$> AuditMessage.encode m.

Lemma payload_len_bound t : 1 <= payload_len_of t <= 400.
Proof. destruct t; cbv; split; discriminate. Qed.

Lemma audit_frame_enc_eq m p :
  WireBytes.as_slice <$> AuditMessage.payload_of m = Ok p -> zlen p <= MAX_AUDIT_PAYLOAD_LEN ->
  audit_frame_enc m = Ok (encode_frame_header (AuditTag.code (AuditMessage.tag_of m)) (zlen p) ++ p).
Proof.
  intros Hp Hl. unfold MAX_AUDIT_PAYLOAD_LEN in Hl. pose proof (zlen_nonneg p).
  unfold audit_frame_enc, AuditMessage.encode. apply fmap_res_ok in Hp as (w & -> & ->).
  cbn [mbind res_bind]. cbv zeta. rewrite (proj2 (Z.ltb_lt _ _)) by lia.
  cbn [ok_or mbind res_bind]. unfold MAX_AUDIT_FRAME_LEN, MAX_AUDIT_PAYLOAD_LEN, FRAME_HEADER_LEN.
  set (h := encode_frame_header _ _). assert (zlen h = 5) as Hh by done.
  rewrite copy_into_zeros by lia. cbn [mbind res_bind].
  rewrite copy_range_append by lia. cbn [mbind res_bind].
  by rewrite wire_new_slice by (rewrite ?zlen_app; lia).
Qed.

Lemma audit_header_five a b c d e :
  decode_frame_header [a; b; c; d; e] =
  match AuditTag.from_byte a with
  | None => Err (UnknownTag a) | Some _ => Ok (a, from_be_bytes [b; c; d; e])
  end.
Proof. reflexivity. Qed.

Lemma audit_decode_header_eq t n :
  0 <= n < 2 ^ 32 ->
  decode_frame_header (encode_frame_header (AuditTag.code t) n) = Ok (AuditTag.code t, n).
Proof.
  intros Hn. unfold encode_frame_header. pose proof (from_to_be 4 n Hn) as Hf.
  pose proof (zlen_to_be 4 n) as Hl. revert Hf Hl. generalize (to_be_bytes 4 n).
  intros l Hf Hl. explode l Hl. by rewrite audit_header_five, (proj2 (tag_ok _ _) eq_refl), Hf.
Qed.

Lemma audit_decode_frame_eq t p :
  zlen p < 2 ^ 32 ->
  AuditMessage.decode_frame (encode_frame_header (AuditTag.code t) (zlen p) ++ p) =
    _ ← validate_payload_len (AuditTag.code t) (zlen p);
    AuditMessage.decode_payload (AuditTag.code t) p.
Proof.
  intros Hp. pose proof (zlen_nonneg p). set (h := encode_frame_header _ _).
  assert (zlen h = 5) as Hh by done. unfold AuditMessage.decode_frame, FRAME_HEADER_LEN.
  rewrite zlen_app, Hh. rewrite (proj2 (Z.ltb_ge (5 + _) 5)) by lia.
  rewrite slice_head by done. cbn [mbind res_bind].
  assert (decode_frame_header h = Ok (AuditTag.code t, zlen p)) as ->
    by (apply audit_decode_header_eq; lia).
  cbn [mbind res_bind]. destruct (validate_payload_len _ _) as [[]| |]; [|done..].
  cbn [mbind res_bind]. rewrite checked_add_u64_some by lia. cbn [ok_or mbind res_bind].
  rewrite !(proj2 (Z.ltb_ge _ _)) by lia. rewrite slice_tail by (rewrite ?zlen_app; lia). done.
Qed.

Lemma validate_tag t n :
  validate_payload_len (AuditTag.code t) n =
  if n =? payload_len_of t then Ok tt else Err (InvalidLength 0 n).
Proof. unfold validate_payload_len. by rewrite (proj2 (tag_ok _ _) eq_refl). Qed.

Lemma audit_decode_frame_cases l :
  bytes l ->
  (exists e, AuditMessage.decode_frame l = Err e) \/
  exists t p, l = encode_frame_header (AuditTag.code t) (zlen p) ++ p /\
    zlen p = payload_len_of t /\ bytes p.
Proof.
  intros Hb. unfold AuditMessage.decode_frame, FRAME_HEADER_LEN.
  destruct (Z.ltb_spec (zlen l) 5) as [|Hs]; [by left; eexists|].
  destruct (split_at l 5 ltac:(lia)) as (h & p & -> & Hh). apply Forall_app in Hb as [Hbh Hbp].
  rewrite slice_head by done. cbn [mbind res_bind]. explode h Hh. rewrite audit_header_five.
  destruct (AuditTag.from_byte z) as [t|] eqn:Ht; [|by left; eexists].
  apply tag_ok in Ht as <-. cbn [mbind res_bind]. split_forall. set (n := from_be_bytes _).
  rewrite validate_tag. destruct (Z.eqb_spec n (payload_len_of t)) as [Hn|]; [|by left; eexists].
  pose proof (payload_len_bound t).
  cbn [mbind res_bind]. rewrite checked_add_u64_some by lia. cbn [ok_or mbind res_bind].
  destruct (Z.ltb_spec (zlen ([AuditTag.code t; z0; z1; z2; z3] ++ p)) (5 + n)) as [|Hge];
    [by left; eexists|].
  destruct (Z.ltb_spec (5 + n) (zlen ([AuditTag.code t; z0; z1; z2; z3] ++ p))) as [|Hle];
    [by left; eexists|].
  rewrite zlen_app in Hge, Hle. change (zlen [AuditTag.code t; z0; z1; z2; z3]) with 5 in *.
  right. exists t, p. assert (zlen p = n) as Hp by lia. split_and!; [|lia|done].
  unfold encode_frame_header. rewrite Hp. unfold n. rewrite to_from_be by (done || bytes_tac). done.
Qed.

Lemma audit_frame_codec_lemma :
  codec_correct audit_frame_enc AuditMessage.decode_frame audit_message_wf MAX_AUDIT_FRAME_LEN.
Proof.
  unfold MAX_AUDIT_FRAME_LEN, MAX_AUDIT_PAYLOAD_LEN, FRAME_HEADER_LEN. apply codec_intro.
  - intros m Hwf. destruct (payload_encodes m Hwf) as (p & Hp & Hb & Hl & Hd).
    pose proof (payload_len_bound (AuditMessage.tag_of m)).
    eexists. split; [apply audit_frame_enc_eq; [done|unfold MAX_AUDIT_PAYLOAD_LEN; lia]|].
    rewrite audit_decode_frame_eq by lia. rewrite validate_tag, (proj2 (Z.eqb_eq _ _)) by done.
    split_and!; [|rewrite zlen_app; change (zlen (encode_frame_header _ _)) with 5; lia|done].
    apply Forall_app. split; [|done]. apply Forall_cons. split; [|apply bytes_to_be].
    pose proof (we_code_range (AuditMessage.tag_of m)) as Hc. cbn in Hc. unfold is_u8. lia.
  - intros l m Hb Hd. destruct (audit_decode_frame_cases l Hb) as [[e He]|(t & p & -> & Hl & Hbp)];
      [congruence|].
    pose proof (payload_len_bound t). rewrite audit_decode_frame_eq in Hd by lia.
    apply res_bind_ok in Hd as ([] & _ & Hd).
    destruct (payload_canonical t p m Hbp Hd) as (Hwf & <- & Hp). split; [done|].
    apply audit_frame_enc_eq; [done|unfold MAX_AUDIT_PAYLOAD_LEN; lia].
  - intros l Hb. destruct (audit_decode_frame_cases l Hb) as [[e ->]|(t & p & -> & Hl & Hbp)]; [done|].
    pose proof (payload_len_bound t). rewrite audit_decode_frame_eq by lia. rewrite validate_tag.
    destruct (_ =? _); [|done]. by apply payload_no_panic.
Qed.

#[export] Instance audit_codec_ops : Codec AuditMessage.t := {|
  enc := audit_frame_enc; dec := AuditMessage.decode_frame;
  valid := audit_message_wf; max_len := MAX_AUDIT_FRAME_LEN |}.
#[export] Instance audit_codec_laws : CodecLaws AuditMessage.t :=
  codec_correct_laws audit_frame_codec_lemma.

(** ** Properties *)

(** C36: The frames of the audit protocol are a canonical bounded codec: every message
    whose fields have their declared widths is encoded within the frame bound and read
    back; every frame that is accepted is the encoding of such a message, so tags,
    payload lengths, roles, results, endings, error codes, versions and trailing bytes
    are all checked; and no frame makes the decoder panic. *)
Theorem audit_frame_codec :
  codec_correct audit_frame_enc AuditMessage.decode_frame audit_message_wf MAX_AUDIT_FRAME_LEN.
Proof. exact audit_frame_codec_lemma. Qed.

(** What a receiver of an audit message learns from its five header bytes: the tag
    and the exact payload length, which is the only length the tag admits, so a peer can
    never make it read more than 400 bytes. *)
Theorem audit_header_admits_frame m f :
  audit_message_wf m -> audit_frame_enc m = Ok f ->
  decode_frame_header (take 5 f) =
    Ok (AuditTag.code (AuditMessage.tag_of m), payload_len_of (AuditMessage.tag_of m)) /\
  zlen f = FRAME_HEADER_LEN + payload_len_of (AuditMessage.tag_of m) /\
  (forall n, validate_payload_len (AuditTag.code (AuditMessage.tag_of m)) n = Ok tt <->
     n = payload_len_of (AuditMessage.tag_of m)) /\
  payload_len_of (AuditMessage.tag_of m) <= 400.
Proof.
  intros Hwf He. destruct (payload_encodes m Hwf) as (p & Hp & Hb & Hl & Hd).
  pose proof (payload_len_bound (AuditMessage.tag_of m)) as Hlen.
  rewrite (audit_frame_enc_eq m p Hp) in He by (unfold MAX_AUDIT_PAYLOAD_LEN; lia).
  apply (f_equal (fun r => match r with Ok l => l | _ => [] end)) in He. subst f.
  rewrite zlen_app, Hl. split_and!; [|done| |lia].
  - change 5%nat with (length (encode_frame_header (AuditTag.code (AuditMessage.tag_of m))
      (payload_len_of (AuditMessage.tag_of m)))) at 1. rewrite take_app_length.
    by apply audit_decode_header_eq; lia.
  - intros n. rewrite validate_tag. destruct (Z.eqb_spec n (payload_len_of (AuditMessage.tag_of m)));
      split; congruence.
Qed.

Lemma audit_header_admits_frame_witness :
  exists f, audit_message_wf (AuditMessage.CloseNotice AuditCloseReason.ControllerDetach) /\
    audit_frame_enc (AuditMessage.CloseNotice AuditCloseReason.ControllerDetach) = Ok f /\
    decode_frame_header (take 5 f) = Ok (0x0A, 1).
Proof.
  eexists. split_and!; [exact I|vm_compute; reflexivity|].
  apply (audit_header_admits_frame (AuditMessage.CloseNotice AuditCloseReason.ControllerDetach));
    [exact I|reflexivity].
Defined.
