(* ===== verification/AuditSigning.v ===== *)
(** * Signed byte strings

    Every signed audit message of [wire/audit.rs] exposes the bytes its signature covers.
    The theorem of this file is what makes those signatures meaningful: equal signed
    strings come from messages of the same kind that agree on everything but the
    signature, so no signature can be moved to another kind of message or to other
    contents. *)

From S2P Require Import Prelude Domain Codec WireRegistry Layout WireAudit AuditCodecs.
Open Scope Z_scope.

Inductive signed :=
| SHello (m : AuditHello.t)
| SReady (m : AuditReady.t)
| SCheckpoint (m : Checkpoint.t)
| SAck (m : CheckpointAck.t)
| SManifest (m : JointManifest.t)
| SSeal (m : LocalRecordSeal.t)
| SLedger (m : LedgerCommit.t).

Definition signed_wf (s : signed) : Prop :=
  match s with
  | SHello m => hello_wf m
  | SReady m => ready_wf m
  | SCheckpoint m => checkpoint_wf m
  | SAck m => ack_wf m
  | SManifest m => manifest_wf m
  | SSeal m => seal_wf m
  | SLedger m => ledger_wf m
  end.

(** What the holder of a key signs. *)
Definition signing_input (s : signed) : res ProtocolError (list Z) :=
  WireBytes.as_slice <$>
  match s with
  | SHello m => AuditHello.signing_input m
  | SReady m => AuditReady.signing_input m
  | SCheckpoint m => Checkpoint.signing_input m
  | SAck m => CheckpointAck.signing_input m
  | SManifest m => JointManifest.signing_input m
  | SSeal m => LocalRecordSeal.signing_input m
  | SLedger m => LedgerCommit.signing_input m
  end.

Definition zero_signature : Ed25519Signature := FixedBytes.new (zeros ED25519_SIGNATURE_LEN).

(** The message with its signature blanked; a manifest carries none. *)
Definition unsigned (s : signed) : signed :=
  match s with
  | SHello m => SHello (AuditHello.with_signature m zero_signature)
  | SReady m => SReady (AuditReady.with_signature m zero_signature)
  | SCheckpoint m => SCheckpoint (Checkpoint.with_signature m zero_signature)
  | SAck m => SAck (CheckpointAck.with_signature m zero_signature)
  | SManifest m => SManifest m
  | SSeal m => SSeal (LocalRecordSeal.with_signature m zero_signature)
  | SLedger m => SLedger (LedgerCommit.with_signature m zero_signature)
  end.

(** ** The signed strings *)

Definition label (s : signed) : list Z :=
  match s with
  | SHello _ => AUDIT_HELLO_DOMAIN
  | SReady _ => AUDIT_READY_DOMAIN
  | SCheckpoint _ => CHECKPOINT_DOMAIN
  | SAck _ => CHECKPOINT_ACK_DOMAIN
  | SManifest _ => MANIFEST_DOMAIN
  | SSeal _ => SEAL_DOMAIN
  | SLedger _ => LEDGER_COMMIT_DOMAIN
  end.

(** The wire fields without the signature. *)
Definition body (s : signed) : list (list Z) :=
  match s with
  | SHello m => take 9 (hello_fields m)
  | SReady m => take 3 (ready_fields m)
  | SCheckpoint m => take 5 (checkpoint_fields m)
  | SAck m => take 4 (ack_fields m)
  | SManifest m => manifest_fields m
  | SSeal m => take 10 (seal_fields m)
  | SLedger m => take 7 (ledger_fields m)
  end.

Ltac eval_signing L n :=
  let l := fresh "l" in let Hl := fresh "Hl" in
  set (l := L);
  assert (zlen l = n) as Hl by reflexivity; clearbody l;
  cbn [mbind res_bind]; unfold write_u64, write_u16;
  rewrite ?start_written;
  repeat (first [rewrite append_written by zlen_tac
                |rewrite write_snapshot_written by first [assumption | zlen_tac]];
          cbn [mbind res_bind]);
  rewrite finish_written by zlen_tac;
  rewrite ?app_nil_l; cbn [take concat]; rewrite <- ?app_assoc, ?app_nil_r; reflexivity.

Lemma signing_input_eq s : signed_wf s -> signing_input s = Ok (label s ++ concat (body s)).
Proof.
  destruct s as [m|m|m|m|m|m|m]; unfold signing_input;
    cbn [signed_wf label body]; intros Hwf.
  - unfold hello_wf, hello_fields, AuditHello.signing_input in *. open_wf.
    change AUDIT_HELLO_SIGNING_LEN with 224. eval_signing AUDIT_HELLO_DOMAIN 21.
  - unfold ready_wf, ready_fields, AuditReady.signing_input in *. open_wf.
    change AUDIT_READY_SIGNING_LEN with 87. eval_signing AUDIT_READY_DOMAIN 21.
  - unfold checkpoint_wf, checkpoint_fields, Checkpoint.signing_input in *. open_snapshot. open_wf.
    change CHECKPOINT_SIGNING_LEN with 290. eval_signing CHECKPOINT_DOMAIN 26.
  - unfold ack_wf, ack_fields, CheckpointAck.signing_input in *. open_snapshot. open_wf.
    change CHECKPOINT_ACK_SIGNING_LEN with 262. eval_signing CHECKPOINT_ACK_DOMAIN 30.
  - unfold JointManifest.signing_input.
    pose proof (fl_enc _ _ _ _ _ manifest_layout m Hwf) as He.
    destruct (fl_fields _ _ _ _ _ manifest_layout m Hwf) as [Hs _].
    assert (zlen (concat (manifest_fields m)) = 400) as Hl by (rewrite zlen_concat, Hs; reflexivity).
    change MANIFEST_SIGNING_INPUT_LEN with 424. apply fmap_res_ok in He as (w & He & Hw).
    rewrite Hw in *. rewrite start_written, append_written by (vm_compute; discriminate).
    cbn [mbind res_bind]. rewrite He. cbn [mbind res_bind].
    change (zlen MANIFEST_DOMAIN) with 24. rewrite append_written by lia.
    cbn [mbind res_bind]. by rewrite finish_written by lia.
  - unfold seal_wf, LocalRecordSeal.signing_input in *. open_roots Hr. rewrite Hr. open_wf.
    cbn [LocalRecordSeal.append_roots].
    change SEAL_SIGNING_LEN with 285. eval_signing SEAL_DOMAIN 20.
  - unfold ledger_wf, ledger_fields, LedgerCommit.signing_input in *. open_wf.
    change LEDGER_COMMIT_SIGNING_LEN with 198. eval_signing LEDGER_COMMIT_DOMAIN 29.
Qed.

(** ** What they determine *)

Definition signing_len (s : signed) : Z :=
  match s with
  | SHello _ => 224 | SReady _ => 87 | SCheckpoint _ => 290 | SAck _ => 262 | SManifest _ => 424
  | SSeal _ => 285 | SLedger _ => 198
  end.

Lemma take_fields_len {M} sizes fields enc dec wf (m : M) k :
  fixed_layout sizes fields enc dec wf -> wf m ->
  zlen (concat (take k (fields m))) = zsum (take k sizes).
Proof.
  intros Hfl Hwf. destruct (fl_fields _ _ _ _ _ Hfl m Hwf) as [<- _].
  by rewrite zlen_concat, fmap_take.
Qed.

Lemma signing_input_len s : signed_wf s -> zlen (label s ++ concat (body s)) = signing_len s.
Proof.
  intros Hwf. rewrite zlen_app. destruct s as [m|m|m|m|m|m|m]; cbn [signed_wf label body] in *.
  - by rewrite (take_fields_len _ _ _ _ _ m 9 hello_layout Hwf).
  - by rewrite (take_fields_len _ _ _ _ _ m 3 ready_layout Hwf).
  - by rewrite (take_fields_len _ _ _ _ _ m 5 checkpoint_layout Hwf).
  - by rewrite (take_fields_len _ _ _ _ _ m 4 ack_layout Hwf).
  - pose proof (take_fields_len _ _ _ _ _ m 13 manifest_layout Hwf) as Hl. cbn [take manifest_fields] in Hl. unfold manifest_fields. by rewrite Hl.
  - by rewrite (take_fields_len _ _ _ _ _ m 10 seal_layout Hwf).
  - by rewrite (take_fields_len _ _ _ _ _ m 7 ledger_layout Hwf).
Qed.

(** A message is determined by its wire fields. *)
Lemma strip_inj {M} sizes fields enc dec wf (strip : M -> M) k tail m1 m2 :
  fixed_layout sizes fields enc dec wf ->
  (forall m, wf m -> wf (strip m) /\ fields (strip m) = take k (fields m) ++ tail) ->
  wf m1 -> wf m2 -> concat (take k (fields m1)) = concat (take k (fields m2)) ->
  strip m1 = strip m2.
Proof.
  intros Hfl Hstrip H1 H2 Heq. destruct (Hstrip m1 H1) as [Hw1 Hf1], (Hstrip m2 H2) as [Hw2 Hf2].
  assert (take k (fields m1) = take k (fields m2)) as Ht.
  { apply concat_inj; [|done]. rewrite !fmap_take.
    destruct (fl_fields _ _ _ _ _ Hfl m1 H1) as [-> _], (fl_fields _ _ _ _ _ Hfl m2 H2) as [-> _]. done. }
  pose proof (fl_dec _ _ _ _ _ Hfl _ Hw1) as Hd1. pose proof (fl_dec _ _ _ _ _ Hfl _ Hw2) as Hd2.
  rewrite Hf1, Ht, <- Hf2, Hd2 in Hd1. by injection Hd1.
Qed.

Lemma zero_signature_wf : FixedBytes.wf zero_signature.
Proof. split; [apply bytes_zeros|done]. Qed.

Lemma signing_binds_lemma s1 s2 :
  signed_wf s1 -> signed_wf s2 -> signing_input s1 = signing_input s2 -> unsigned s1 = unsigned s2.
Proof.
  intros H1 H2 Heq. rewrite !signing_input_eq in Heq by done. injection Heq as Heq.
  pose proof (signing_input_len s1 H1) as L1. pose proof (signing_input_len s2 H2) as L2.
  rewrite Heq, L2 in L1. pose proof zero_signature_wf as Hz.
  destruct s1, s2; try discriminate L1; clear L1 L2; cbn [signed_wf label body unsigned] in *;
    apply app_inv_head in Heq; f_equal.
  - apply (strip_inj _ _ _ _ _ (fun m => AuditHello.with_signature m zero_signature) 9
             [raw zero_signature] _ _ hello_layout); try done.
    unfold hello_wf. intros x Hx. destruct_and?. by split_and!.
  - apply (strip_inj _ _ _ _ _ (fun m => AuditReady.with_signature m zero_signature) 3
             [raw zero_signature] _ _ ready_layout); try done.
    unfold ready_wf. intros x Hx. destruct_and?. by split_and!.
  - apply (strip_inj _ _ _ _ _ (fun m => Checkpoint.with_signature m zero_signature) 5
             [raw zero_signature] _ _ checkpoint_layout); try done.
    unfold checkpoint_wf. intros x Hx. destruct_and?. by split_and!.
  - apply (strip_inj _ _ _ _ _ (fun m => CheckpointAck.with_signature m zero_signature) 4
             [raw zero_signature] _ _ ack_layout); try done.
    unfold ack_wf. intros x Hx. destruct_and?. by split_and!.
  - apply (strip_inj _ _ _ _ _ id 13 [] _ _ manifest_layout); done.
  - apply (strip_inj _ _ _ _ _ (fun m => LocalRecordSeal.with_signature m zero_signature) 10
             [raw zero_signature] _ _ seal_layout); try done.
    unfold seal_wf. intros x Hx. destruct_and?. split; [by split_and!|].
    match goal with H : roots_wf _ |- _ => destruct H as (? & ? & ? & ? & Hr & _) end.
    rewrite (seal_fields_eq _ _ _ _ _ Hr). by rewrite (seal_fields_eq (LocalRecordSeal.with_signature x _) _ _ _ _ Hr).
  - apply (strip_inj _ _ _ _ _ (fun m => LedgerCommit.with_signature m zero_signature) 7
             [raw zero_signature] _ _ ledger_layout); try done.
    unfold ledger_wf. intros x Hx. destruct_and?. by split_and!.
Qed.

(** The signature itself is not signed. *)
Lemma signing_unsigned s : signing_input s = signing_input (unsigned s).
Proof. by destruct s. Qed.

(** ** Properties *)

(** C37: Signatures over audit messages are bound to their message: the signed string of
    every well-formed message exists, has the fixed length the source declares for its
    kind, and two messages with the same signed string are the same kind of message with
    the same contents, signatures apart. *)
Theorem audit_signing_binds s1 s2 :
  signed_wf s1 -> signed_wf s2 ->
  (exists l, signing_input s1 = Ok l /\ zlen l = signing_len s1) /\
  (signing_input s1 = signing_input s2 <-> unsigned s1 = unsigned s2).
Proof.
  intros H1 H2. split; [|split].
  - eexists. split; [by apply signing_input_eq|]. by apply signing_input_len.
  - by apply signing_binds_lemma.
  - intros Heq. by rewrite (signing_unsigned s1), (signing_unsigned s2), Heq.
Qed.

(** ** An instance *)

Definition zero_of (n : FixedBytes.name) : FixedBytes.t n := FixedBytes.new (zeros (FixedBytes.len n)).

Lemma zero_of_wf n : FixedBytes.wf (zero_of n).
Proof. split; [apply bytes_zeros|by destruct n]. Qed.

Definition example_ready (sig : Ed25519Signature) : AuditReady.t :=
  AuditReady.new (zero_of _) (zero_of _) AUDIT_FORMAT_VERSION sig.

Lemma example_ready_wf sig : FixedBytes.wf sig -> signed_wf (SReady (example_ready sig)).
Proof. intros H. split_and!; first [apply zero_of_wf | done]. Qed.

Lemma audit_signing_binds_witness :
  let s1 := SReady (example_ready zero_signature) in
  let s2 := SReady (example_ready (FixedBytes.new (replicate 64 1))) in
  signed_wf s1 /\ signed_wf s2 /\ s1 <> s2 /\
  signing_input s1 = signing_input s2 /\ unsigned s1 = unsigned s2.
Proof.
  intros s1 s2. assert (signed_wf s1) as H1 by apply example_ready_wf, zero_signature_wf.
  assert (signed_wf s2) as H2.
  { apply example_ready_wf. split; [|done]. apply Forall_replicate. unfold is_u8. lia. }
  destruct (audit_signing_binds s1 s2 H1 H2) as [_ Hiff].
  assert (unsigned s1 = unsigned s2) as Hu by reflexivity.
  refine (conj H1 (conj H2 (conj _ (conj (proj2 Hiff Hu) Hu)))). discriminate.
Defined.
