(* ===== verification/AuditContainer.v ===== *)
(** * The audit container

    [crates/yonder-core/src/wire/audit_container.rs]: the [.yonaudit] file format.  A
    file is a fixed header, a stream of record frames and an optional footer; the
    [ContainerReader] walks one.  The properties say that the header codec is canonical,
    that the reader inverts the concatenation of the three parts and reports the three
    digest boundaries exactly, and that it never panics and always makes progress. *)

From S2P Require Import Prelude Domain Codec WireRegistry Layout WireAudit AuditCodecs.
Open Scope Z_scope.

(** The ASCII bytes of "YONDAUD" and a NUL. *)
Definition CONTAINER_MAGIC : list Z := [0x59; 0x4F; 0x4E; 0x44; 0x41; 0x55; 0x44; 0x00].
(** "YFTR" *)
Definition FOOTER_MAGIC : list Z := [0x59; 0x46; 0x54; 0x52].
(** "yonder-audit-container-header-v3" *)
Definition CONTAINER_HEADER_DOMAIN : list Z :=
  DOMAIN_PREFIX ++ [0x63; 0x6F; 0x6E; 0x74; 0x61; 0x69; 0x6E; 0x65; 0x72; 0x2D; 0x68; 0x65; 0x61;
                    0x64; 0x65; 0x72; 0x2D; 0x76; 0x33].

Definition RECORD_FRAME_HEADER_LEN : Z := 4.
Definition MIN_RECORD_FRAME_LEN : Z := 1.
Definition MAX_RECORD_FRAME_LEN : Z := 1048576.
Definition MAX_RAW_OUTPUT_PAYLOAD_LEN : Z := 65536.
Definition MAX_RAW_OUTPUT_FRAME_LEN : Z := MAX_RAW_OUTPUT_PAYLOAD_LEN + 1.
Definition CONTAINER_DIGEST_LEN : Z := DIGEST_LEN.

Definition CONTAINER_HEADER_LEN : Z :=
  zlen CONTAINER_MAGIC + 2 + 1 + DIGEST_LEN + ED25519_PUBLIC_KEY_LEN * 4 + 8 + DIGEST_LEN + 8 + 1
  + DIGEST_LEN + AUDIT_HELLO_LEN + AUDIT_READY_LEN + ED25519_SIGNATURE_LEN.
Definition CONTAINER_HEADER_SIGNING_LEN : Z :=
  zlen CONTAINER_HEADER_DOMAIN + CONTAINER_HEADER_LEN - zlen CONTAINER_MAGIC - 2
  - ED25519_SIGNATURE_LEN.
Definition MAX_FOOTER_PREFIX_LEN : Z :=
  zlen FOOTER_MAGIC + (2 + MANIFEST_LEN) + (2 + MANIFEST_SIGNATURE_LEN) * 2
  + (2 + LOCAL_RECORD_SEAL_LEN) + (2 + LEDGER_COMMIT_LEN).

(** ** Record frames *)

Module RecordType.
Inductive t :=
| SharedInputCommitment | SharedOutputBlock | SharedControlEvent | SharedFileTransferEvent
| LocalRawOutput | LocalDisplayBytes | LocalInputCommitment | LocalSendOutcome
| LocalPtyWriteOutcome | LocalDisplayWriteOutcome | LocalResizeEvent | LocalLifecycleEvent
| LocalKeyAction | LocalFileTransferEvent | LocalConnectionState | LocalAuditError
| CheckpointEvidence | LocalCloseEvent.

Definition code (self : t) : Z :=
  match self with
  | SharedInputCommitment => 0x01 | SharedOutputBlock => 0x02 | SharedControlEvent => 0x03
  | SharedFileTransferEvent => 0x04 | LocalRawOutput => 0x11 | LocalDisplayBytes => 0x12
  | LocalInputCommitment => 0x13 | LocalSendOutcome => 0x14 | LocalPtyWriteOutcome => 0x15
  | LocalDisplayWriteOutcome => 0x16 | LocalResizeEvent => 0x17 | LocalLifecycleEvent => 0x18
  | LocalKeyAction => 0x19 | LocalFileTransferEvent => 0x1A | LocalConnectionState => 0x1B
  | LocalAuditError => 0x1C | CheckpointEvidence => 0x1D | LocalCloseEvent => 0x1E
  end.

Definition from_byte (byte : Z) : option t :=
  match byte with
  | 0x01 => Some SharedInputCommitment | 0x02 => Some SharedOutputBlock
  | 0x03 => Some SharedControlEvent | 0x04 => Some SharedFileTransferEvent
  | 0x11 => Some LocalRawOutput | 0x12 => Some LocalDisplayBytes
  | 0x13 => Some LocalInputCommitment | 0x14 => Some LocalSendOutcome
  | 0x15 => Some LocalPtyWriteOutcome | 0x16 => Some LocalDisplayWriteOutcome
  | 0x17 => Some LocalResizeEvent | 0x18 => Some LocalLifecycleEvent
  | 0x19 => Some LocalKeyAction | 0x1A => Some LocalFileTransferEvent
  | 0x1B => Some LocalConnectionState | 0x1C => Some LocalAuditError
  | 0x1D => Some CheckpointEvidence | 0x1E => Some LocalCloseEvent
  | _ => None
  end.

Definition carries_raw_output (self : t) : bool :=
  match self with LocalRawOutput | LocalDisplayBytes => true | _ => false end.
End RecordType.

#[export] Instance RecordType_eq_dec : EqDecision RecordType.t.
Proof. solve_decision. Defined.

#[export] Instance record_type_enum : WireEnum RecordType.t :=
  {| we_code := RecordType.code; we_from := RecordType.from_byte; we_width := 8 |}.
#[export] Instance record_type_laws : WireEnumLaws RecordType.t.
Proof. solve_wire_enum. Qed.

Module RecordFrame.
Record t := Mk { frame_len : Z; record_type : RecordType.t; payload : list Z }.

Definition total_len (self : t) : Z := RECORD_FRAME_HEADER_LEN + frame_len self.
End RecordFrame.

Definition encode_frame_header (frame_len : Z) : list Z := to_be_bytes 4 frame_len.

Definition validate_frame_len (record_type : RecordType.t) (frame_len : Z) : res ProtocolError unit :=
  if negb ((MIN_RECORD_FRAME_LEN <=? frame_len) && (frame_len <=? MAX_RECORD_FRAME_LEN))
  then Err (InvalidLength 0 frame_len) else
  if RecordType.carries_raw_output record_type && (MAX_RAW_OUTPUT_FRAME_LEN <? frame_len)
  then Err (InvalidLength MAX_RAW_OUTPUT_FRAME_LEN frame_len) else
  Ok tt.

(** [usize] is 64 bits wide, so the length conversion and sum cannot overflow. *)
Definition decode_frame (frame : list Z) : res ProtocolError RecordFrame.t :=
  if zlen frame <? RECORD_FRAME_HEADER_LEN + 1
  then Err (InvalidLength (RECORD_FRAME_HEADER_LEN + 1) (zlen frame)) else
  frame_len ← uint_at 4 frame 0 RECORD_FRAME_HEADER_LEN;
  type_byte ← index frame RECORD_FRAME_HEADER_LEN;
  record_type ← ok_or (RecordType.from_byte type_byte) (UnknownTag type_byte);
  _ ← validate_frame_len record_type frame_len;
  expected ← ok_or (checked_add_u64 RECORD_FRAME_HEADER_LEN frame_len)
               (InvalidLength RECORD_FRAME_HEADER_LEN (zlen frame));
  if zlen frame <? expected then Err (InvalidLength expected (zlen frame)) else
  if expected <? zlen frame then Err TrailingBytes else
  payload ← slice frame (RECORD_FRAME_HEADER_LEN + 1) expected;
  Ok (RecordFrame.Mk (as_u32 frame_len) record_type payload).

(** ** The header *)

Module AuditContainerHeader.
Record t := Mk {
  role : AuditRole.t;
  session_id : SessionId;
  identity_pubkey : Ed25519PublicKey;
  session_pubkey : Ed25519PublicKey;
  peer_identity_pubkey : Ed25519PublicKey;
  peer_session_pubkey : Ed25519PublicKey;
  ledger_sequence : Z;
  previous_ledger_root : LedgerRoot;
  utc_start_seconds : Z;
  auth_mode : AuthMode.t;
  terminal_hello_digest : Digest32;
  audit_hello : AuditHello.t;
  audit_ready : AuditReady.t;
  header_signature : Ed25519Signature;
}.

Definition new role session_id identity_pubkey session_pubkey peer_identity_pubkey
    peer_session_pubkey ledger_sequence previous_ledger_root utc_start_seconds auth_mode
    terminal_hello_digest audit_hello audit_ready : t :=
  Mk role session_id identity_pubkey session_pubkey peer_identity_pubkey peer_session_pubkey
    ledger_sequence previous_ledger_root utc_start_seconds auth_mode terminal_hello_digest
    audit_hello audit_ready (FixedBytes.new (zeros ED25519_SIGNATURE_LEN)).

Definition with_header_signature (self : t) (signature : Ed25519Signature) : t :=
  Mk (role self) (session_id self) (identity_pubkey self) (session_pubkey self)
    (peer_identity_pubkey self) (peer_session_pubkey self) (ledger_sequence self)
    (previous_ledger_root self) (utc_start_seconds self) (auth_mode self)
    (terminal_hello_digest self) (audit_hello self) (audit_ready self) signature.

Definition append_header_fields (cur : list Z * Z) (header : t) : res ProtocolError (list Z * Z) :=
  cur ← append cur [AuditRole.code (role header)];
  cur ← append cur (raw (session_id header));
  cur ← append cur (raw (identity_pubkey header));
  cur ← append cur (raw (session_pubkey header));
  cur ← append cur (raw (peer_identity_pubkey header));
  cur ← append cur (raw (peer_session_pubkey header));
  cur ← append cur (to_be_bytes 8 (ledger_sequence header));
  cur ← append cur (raw (previous_ledger_root header));
  cur ← append cur (to_be_bytes 8 (utc_start_seconds header));
  cur ← append cur [AuthMode.code (auth_mode header)];
  cur ← append cur (raw (terminal_hello_digest header));
  hello ← AuditHello.encode_payload (audit_hello header);
  cur ← append cur (WireBytes.as_slice hello);
  ready ← AuditReady.encode_payload (audit_ready header);
  append cur (WireBytes.as_slice ready).

Definition signing_input (self : t) : res ProtocolError WireBytes.t :=
  cur ← append (start CONTAINER_HEADER_SIGNING_LEN) CONTAINER_HEADER_DOMAIN;
  cur ← append_header_fields cur self;
  finish cur.

Definition encode (self : t) : res ProtocolError WireBytes.t :=
  cur ← append (start CONTAINER_HEADER_LEN) CONTAINER_MAGIC;
  cur ← append cur (to_be_bytes 2 AUDIT_FORMAT_VERSION);
  cur ← append_header_fields cur self;
  cur ← append cur (raw (header_signature self));
  finish cur.

Definition decode (bytes : list Z) : res ProtocolError t :=
  bytes ← exact CONTAINER_HEADER_LEN bytes;
  magic ← slice bytes 0 8;
  if bool_decide (magic <> CONTAINER_MAGIC) then Err (InvalidField FReserved) else
  version ← u16_at bytes 8 9;
  if negb (version =? AUDIT_FORMAT_VERSION) then Err (InvalidField FReserved) else
  role_byte ← index bytes 10;
  role ← or_reserved (AuditRole.from_byte role_byte);
  mode_byte ← index bytes 219;
  auth_mode ← or_reserved (AuthMode.from_byte mode_byte);
  session_id ← array_at DIGEST_LEN bytes 11 43;
  identity_pubkey ← array_at ED25519_PUBLIC_KEY_LEN bytes 43 75;
  session_pubkey ← array_at ED25519_PUBLIC_KEY_LEN bytes 75 107;
  peer_identity_pubkey ← array_at ED25519_PUBLIC_KEY_LEN bytes 107 139;
  peer_session_pubkey ← array_at ED25519_PUBLIC_KEY_LEN bytes 139 171;
  ledger_sequence ← uint_at 8 bytes 171 179;
  previous_ledger_root ← array_at DIGEST_LEN bytes 179 211;
  utc_start_seconds ← uint_at 8 bytes 211 219;
  terminal_hello_digest ← array_at DIGEST_LEN bytes 220 252;
  hello_bytes ← slice bytes 252 519;
  audit_hello ← AuditHello.decode_payload hello_bytes;
  ready_bytes ← slice bytes 519 649;
  audit_ready ← AuditReady.decode_payload ready_bytes;
  header_signature ← array_at ED25519_SIGNATURE_LEN bytes 649 713;
  Ok (Mk role (FixedBytes.new session_id) (FixedBytes.new identity_pubkey)
        (FixedBytes.new session_pubkey) (FixedBytes.new peer_identity_pubkey)
        (FixedBytes.new peer_session_pubkey) ledger_sequence
        (FixedBytes.new previous_ledger_root) utc_start_seconds auth_mode
        (FixedBytes.new terminal_hello_digest) audit_hello audit_ready
        (FixedBytes.new header_signature)).
End AuditContainerHeader.

(** ** The footer *)

Module AuditContainerFooter.
Record t := Mk {
  manifest : JointManifest.t;
  controller_session_signature : ManifestSignature.t;
  host_session_signature : ManifestSignature.t;
  seal : LocalRecordSeal.t;
  ledger_commit : LedgerCommit.t;
}.
End AuditContainerFooter.

Module DecodedFooter.
Record t := Mk {
  footer : AuditContainerFooter.t;
  final_container_digest : Digest32;
  sealed_prefix_end : Z;
  seal_end : Z;
  ledger_end : Z;
}.
End DecodedFooter.

Definition write_prefixed (cur : list Z * Z) (source : list Z) : res ProtocolError (list Z * Z) :=
  cur ← append cur (to_be_bytes 2 (as_u16 (zlen source)));
  append cur source.

Definition encode_footer_prefix (footer : AuditContainerFooter.t) : res ProtocolError WireBytes.t :=
  cur ← append (start MAX_FOOTER_PREFIX_LEN) FOOTER_MAGIC;
  manifest ← JointManifest.encode_payload (AuditContainerFooter.manifest footer);
  cur ← write_prefixed cur (WireBytes.as_slice manifest);
  controller ← ManifestSignature.encode_payload
                 (AuditContainerFooter.controller_session_signature footer);
  cur ← write_prefixed cur (WireBytes.as_slice controller);
  host ← ManifestSignature.encode_payload (AuditContainerFooter.host_session_signature footer);
  cur ← write_prefixed cur (WireBytes.as_slice host);
  seal ← LocalRecordSeal.encode_payload (AuditContainerFooter.seal footer);
  cur ← write_prefixed cur (WireBytes.as_slice seal);
  commit ← LedgerCommit.encode_payload (AuditContainerFooter.ledger_commit footer);
  cur ← write_prefixed cur (WireBytes.as_slice commit);
  finish cur.

(** [slice.starts_with(prefix)]. *)
Definition starts_with (l prefix : list Z) : bool :=
  bool_decide (take (length prefix) l = prefix).

Definition take_prefixed (input : list Z) (pos : Z) : res ProtocolError (list Z * Z) :=
  len_bytes ← ok_or (get_range input pos (pos + 2)) (InvalidLength (pos + 2) (zlen input));
  len_bytes ← ok_or (try_into_array 2 len_bytes) (InvalidLength (pos + 2) (zlen input));
  let len := from_be_bytes len_bytes in
  end_ ← ok_or (checked_add_u64 (pos + 2) len) (InvalidLength (pos + 2) (zlen input));
  bytes ← ok_or (get_range input (pos + 2) end_) (InvalidLength end_ (zlen input));
  Ok (bytes, end_).

Definition decode_footer (bytes : list Z) : res ProtocolError DecodedFooter.t :=
  if (zlen bytes <? zlen FOOTER_MAGIC) || negb (starts_with bytes FOOTER_MAGIC)
  then Err (InvalidField FReserved) else
  let pos := zlen FOOTER_MAGIC in
  '(manifest_bytes, pos) ← take_prefixed bytes pos;
  manifest ← JointManifest.decode_payload manifest_bytes;
  '(controller_bytes, pos) ← take_prefixed bytes pos;
  controller_session_signature ← ManifestSignature.decode_payload controller_bytes;
  '(host_bytes, pos) ← take_prefixed bytes pos;
  host_session_signature ← ManifestSignature.decode_payload host_bytes;
  let sealed_prefix_end := pos in
  '(seal_bytes, pos) ← take_prefixed bytes pos;
  seal ← LocalRecordSeal.decode_payload seal_bytes;
  let seal_end := pos in
  '(ledger_bytes, pos) ← take_prefixed bytes pos;
  ledger_commit ← LedgerCommit.decode_payload ledger_bytes;
  let ledger_end := pos in
  digest_bytes ← slice bytes pos (zlen bytes);
  if CONTAINER_DIGEST_LEN <? zlen digest_bytes then Err TrailingBytes else
  if zlen digest_bytes <? CONTAINER_DIGEST_LEN
  then Err (InvalidLength CONTAINER_DIGEST_LEN (zlen digest_bytes)) else
  digest ← expect_some (try_into_array DIGEST_LEN digest_bytes);
  Ok (DecodedFooter.Mk
        (AuditContainerFooter.Mk manifest controller_session_signature host_session_signature
           seal ledger_commit)
        (FixedBytes.new digest) sealed_prefix_end seal_end ledger_end).

(** ** The reader *)

Module ContainerReader.
Record t := Mk { bytes : list Z; pos : Z; header : AuditContainerHeader.t }.

Definition new (bytes : list Z) : res ProtocolError t :=
  if zlen bytes <? CONTAINER_HEADER_LEN
  then Err (InvalidLength CONTAINER_HEADER_LEN (zlen bytes)) else
  header_bytes ← slice bytes 0 CONTAINER_HEADER_LEN;
  header ← AuditContainerHeader.decode header_bytes;
  Ok (Mk bytes CONTAINER_HEADER_LEN header).

Definition header_bytes (self : t) : res ProtocolError (list Z) :=
  slice (bytes self) 0 CONTAINER_HEADER_LEN.

Definition has_footer (self : t) : res ProtocolError bool :=
  rest ← slice (bytes self) (pos self) (zlen (bytes self));
  Ok (starts_with rest FOOTER_MAGIC).

(** The frame and the reader advanced past it; an error leaves the reader unchanged. *)
Definition next_frame (self : t) : res ProtocolError (option RecordFrame.t * t) :=
  remaining ← slice (bytes self) (pos self) (zlen (bytes self));
  if zlen remaining <? RECORD_FRAME_HEADER_LEN + 1 then
    if zlen remaining =? 0 then Ok (None, self)
    else Err (InvalidLength (RECORD_FRAME_HEADER_LEN + 1) (zlen remaining))
  else
  if starts_with remaining FOOTER_MAGIC then Ok (None, self) else
  frame_len ← uint_at 4 remaining 0 RECORD_FRAME_HEADER_LEN;
  type_byte ← index remaining RECORD_FRAME_HEADER_LEN;
  record_type ← ok_or (RecordType.from_byte type_byte) (UnknownTag type_byte);
  _ ← validate_frame_len record_type frame_len;
  expected ← ok_or (checked_add_u64 RECORD_FRAME_HEADER_LEN frame_len)
               (InvalidLength RECORD_FRAME_HEADER_LEN (zlen remaining));
  if zlen remaining <? expected then Err (InvalidLength expected (zlen remaining)) else
  payload ← slice remaining (RECORD_FRAME_HEADER_LEN + 1) expected;
  Ok (Some (RecordFrame.Mk (as_u32 frame_len) record_type payload),
      Mk (bytes self) (pos self + expected) (header self)).

Definition footer (self : t) : res ProtocolError (DecodedFooter.t * t) :=
  let footer_start := pos self in
  rest ← slice (bytes self) footer_start (zlen (bytes self));
  decoded ← decode_footer rest;
  Ok (DecodedFooter.Mk (DecodedFooter.footer decoded) (DecodedFooter.final_container_digest decoded)
        (footer_start + DecodedFooter.sealed_prefix_end decoded)
        (footer_start + DecodedFooter.seal_end decoded)
        (footer_start + DecodedFooter.ledger_end decoded),
      Mk (bytes self) (zlen (bytes self)) (header self)).
End ContainerReader.
