(* ===== verification/ContainerCodecs.v ===== *)
(** * Reading audit containers

    Lemmas and properties of [AuditContainer]: the canonical header, the footer and its
    digest boundaries, and the reader as the inverse of the concatenated parts. *)

From S2P Require Import Prelude Domain Codec WireRegistry Layout WireAudit AuditCodecs AuditSigning AuditContainer.
Open Scope Z_scope.

(** ** The header *)

Definition header_middle (h : AuditContainerHeader.t) : list (list Z) :=
  [[AuditRole.code (AuditContainerHeader.role h)]; raw (AuditContainerHeader.session_id h);
   raw (AuditContainerHeader.identity_pubkey h); raw (AuditContainerHeader.session_pubkey h);
   raw (AuditContainerHeader.peer_identity_pubkey h);
   raw (AuditContainerHeader.peer_session_pubkey h);
   to_be_bytes 8 (AuditContainerHeader.ledger_sequence h);
   raw (AuditContainerHeader.previous_ledger_root h);
   to_be_bytes 8 (AuditContainerHeader.utc_start_seconds h);
   [AuthMode.code (AuditContainerHeader.auth_mode h)];
   raw (AuditContainerHeader.terminal_hello_digest h);
   concat (hello_fields (AuditContainerHeader.audit_hello h));
   concat (ready_fields (AuditContainerHeader.audit_ready h))].

Definition header_fields (h : AuditContainerHeader.t) : list (list Z) :=
  CONTAINER_MAGIC :: to_be_bytes 2 AUDIT_FORMAT_VERSION :: header_middle h ++
  [raw (AuditContainerHeader.header_signature h)].

Definition header_sizes : list Z := [8; 2; 1; 32; 32; 32; 32; 32; 8; 32; 8; 1; 32; 267; 130; 64].

Definition header_wf (h : AuditContainerHeader.t) : Prop :=
  FixedBytes.wf (AuditContainerHeader.session_id h) /\
  FixedBytes.wf (AuditContainerHeader.identity_pubkey h) /\
  FixedBytes.wf (AuditContainerHeader.session_pubkey h) /\
  FixedBytes.wf (AuditContainerHeader.peer_identity_pubkey h) /\
  FixedBytes.wf (AuditContainerHeader.peer_session_pubkey h) /\
  is_u64 (AuditContainerHeader.ledger_sequence h) /\
  FixedBytes.wf (AuditContainerHeader.previous_ledger_root h) /\
  is_u64 (AuditContainerHeader.utc_start_seconds h) /\
  FixedBytes.wf (AuditContainerHeader.terminal_hello_digest h) /\
  hello_wf (AuditContainerHeader.audit_hello h) /\
  ready_wf (AuditContainerHeader.audit_ready h) /\
  FixedBytes.wf (AuditContainerHeader.header_signature h).

(** The bytes of a well-formed message of a fixed layout. *)
Lemma layout_bytes {M} sizes fields enc dec wf (m : M) :
  fixed_layout sizes fields enc dec wf -> wf m ->
  bytes (concat (fields m)) /\ zlen (concat (fields m)) = zsum sizes.
Proof.
  intros Hfl Hwf. destruct (fl_fields _ _ _ _ _ Hfl m Hwf) as [<- Hb].
  split; [by apply bytes_concat|apply zlen_concat].
Qed.

Lemma embedded_payload {M} sizes fields (enc : M -> res ProtocolError WireBytes.t) dec wf (m : M) :
  fixed_layout sizes fields (slice_of enc) dec wf -> wf m ->
  exists w, enc m = Ok w /\ WireBytes.as_slice w = concat (fields m).
Proof.
  intros Hfl Hwf. pose proof (fl_enc _ _ _ _ _ Hfl m Hwf) as He. cbn beta in He.
  apply fmap_res_ok in He as (w & Hw & ->). by exists w.
Qed.

(** Names the two embedded messages, their length and bytes. *)
Ltac open_embedded :=
  match goal with H : hello_wf ?m |- _ =>
    destruct (layout_bytes _ _ _ _ _ m hello_layout H) as [? Hhello];
    change (zsum hello_sizes) with 267 in Hhello end;
  match goal with H : ready_wf ?m |- _ =>
    destruct (layout_bytes _ _ _ _ _ m ready_layout H) as [? Hready];
    change (zsum ready_sizes) with 130 in Hready end.

Lemma append_header_written pre n h :
  header_wf h -> 639 <= n ->
  AuditContainerHeader.append_header_fields (written pre n) h =
  Ok (written (pre ++ concat (header_middle h)) (n - 639)).
Proof.
  intros Hwf Hn. unfold header_wf in Hwf. destruct_and?. open_embedded.
  destruct (embedded_payload _ _ _ _ _ (AuditContainerHeader.audit_hello h) hello_layout)
    as (w1 & Hw1 & Hs1); [done|].
  destruct (embedded_payload _ _ _ _ _ (AuditContainerHeader.audit_ready h) ready_layout)
    as (w2 & Hw2 & Hs2); [done|].
  unfold AuditContainerHeader.append_header_fields, header_middle. rewrite Hw1, Hw2.
  cbn [mbind res_bind]. rewrite Hs1, Hs2. revert Hhello Hready.
  generalize (concat (hello_fields (AuditContainerHeader.audit_hello h))).
  generalize (concat (ready_fields (AuditContainerHeader.audit_ready h))). intros l2 l1 Hl1 Hl2.
  open_wf. repeat (rewrite append_written by zlen_tac; cbn [mbind res_bind]).
  cbn [concat]. rewrite <- ?app_assoc, ?app_nil_r. do 2 f_equal. zlen_tac.
Qed.

Lemma header_enc_eq h :
  header_wf h -> WireBytes.as_slice <$> AuditContainerHeader.encode h = Ok (concat (header_fields h)).
Proof.
  intros Hwf. unfold AuditContainerHeader.encode. change CONTAINER_HEADER_LEN with 713.
  assert (zlen CONTAINER_MAGIC = 8) as Hm by done.
  assert (zlen (concat (header_middle h)) = 639) as Hmid.
  { unfold header_wf, header_middle in *. destruct_and?. open_embedded. open_wf.
    rewrite zlen_concat, !fmap_cons, !zlen_to_be. unfold zsum. cbn [foldr fmap list_fmap].
    change (zlen [_]) with 1. lia. }
  rewrite start_written, append_written by lia. cbn [mbind res_bind].
  rewrite append_written by zlen_tac. cbn [mbind res_bind].
  rewrite append_header_written by (done || zlen_tac). cbn [mbind res_bind].
  assert (zlen (raw (AuditContainerHeader.header_signature h)) = 64) as Hs.
  { unfold header_wf in Hwf. destruct_and?. open_wf. done. }
  rewrite append_written by zlen_tac. cbn [mbind res_bind].
  rewrite finish_written by zlen_tac. unfold header_fields.
  change (concat (?a :: ?b :: ?l)) with (a ++ b ++ concat l). rewrite concat_app.
  cbn [concat]. by rewrite app_nil_l, app_nil_r, <- !app_assoc.
Qed.

Lemma header_decode_eq mg v r p3 p4 p5 p6 p7 p8 p9 p10 a p12 ph pr ps :
  zlen (A:=Z) <$> [mg; v; [r]; p3; p4; p5; p6; p7; p8; p9; p10; [a]; p12; ph; pr; ps] = header_sizes ->
  AuditContainerHeader.decode
    (concat [mg; v; [r]; p3; p4; p5; p6; p7; p8; p9; p10; [a]; p12; ph; pr; ps]) =
    if bool_decide (mg <> CONTAINER_MAGIC) then Err (InvalidField FReserved) else
    if negb (from_be_bytes v =? AUDIT_FORMAT_VERSION) then Err (InvalidField FReserved) else
    role ← or_reserved (AuditRole.from_byte r);
    auth_mode ← or_reserved (AuthMode.from_byte a);
    hello ← AuditHello.decode_payload ph;
    ready ← AuditReady.decode_payload pr;
    Ok (AuditContainerHeader.Mk role (FixedBytes.new p3) (FixedBytes.new p4) (FixedBytes.new p5)
          (FixedBytes.new p6) (FixedBytes.new p7) (from_be_bytes p8) (FixedBytes.new p9)
          (from_be_bytes p10) auth_mode (FixedBytes.new p12) hello ready (FixedBytes.new ps)).
Proof. intros Hs. unfold AuditContainerHeader.decode. layout_exact Hs. by read_layout Hs. Qed.

Lemma magic_bytes : bytes CONTAINER_MAGIC.
Proof. unfold CONTAINER_MAGIC. bytes_tac. Qed.
Lemma footer_magic_bytes : bytes FOOTER_MAGIC.
Proof. unfold FOOTER_MAGIC. bytes_tac. Qed.
#[export] Hint Resolve magic_bytes footer_magic_bytes : yon.

(** The fields as one explicit list. *)
Lemma header_fields_eq h :
  header_fields h =
  [CONTAINER_MAGIC; to_be_bytes 2 AUDIT_FORMAT_VERSION;
   [AuditRole.code (AuditContainerHeader.role h)]; raw (AuditContainerHeader.session_id h);
   raw (AuditContainerHeader.identity_pubkey h); raw (AuditContainerHeader.session_pubkey h);
   raw (AuditContainerHeader.peer_identity_pubkey h);
   raw (AuditContainerHeader.peer_session_pubkey h);
   to_be_bytes 8 (AuditContainerHeader.ledger_sequence h);
   raw (AuditContainerHeader.previous_ledger_root h);
   to_be_bytes 8 (AuditContainerHeader.utc_start_seconds h);
   [AuthMode.code (AuditContainerHeader.auth_mode h)];
   raw (AuditContainerHeader.terminal_hello_digest h);
   concat (hello_fields (AuditContainerHeader.audit_hello h));
   concat (ready_fields (AuditContainerHeader.audit_ready h));
   raw (AuditContainerHeader.header_signature h)].
Proof. reflexivity. Qed.

Lemma header_layout :
  fixed_layout header_sizes header_fields (slice_of AuditContainerHeader.encode)
    AuditContainerHeader.decode header_wf.
Proof.
  pose proof (layout_dec_canonical hello_sizes _ _ _ _ ltac:(sizes_pos) hello_layout) as Hh3.
  pose proof (layout_dec_canonical ready_sizes _ _ _ _ ltac:(sizes_pos) ready_layout) as Hr3.
  constructor.
  - intros h Hwf. unfold header_wf in Hwf. destruct_and?. open_embedded.
    rewrite header_fields_eq. layout_fields header_fields header_sizes.
  - apply header_enc_eq.
  - intros h Hwf. unfold header_wf in Hwf. destruct_and?. open_embedded. rewrite header_fields_eq.
    rewrite header_decode_eq by layout_sizes header_sizes.
    rewrite bool_decide_eq_false_2 by (by intros []). change (negb _) with false. cbv match.
    rewrite (proj2 (role_ok _ _) eq_refl), (proj2 (auth_mode_ok _ _) eq_refl).
    cbn [mbind res_bind]. rewrite (fl_dec _ _ _ _ _ hello_layout), (fl_dec _ _ _ _ _ ready_layout) by done.
    cbn [mbind res_bind]. rewrite !from_to_be, !fixed_new_raw by done. by destruct h.
  - intros ps h Hs Hb Hd. explode_parts ps Hs. explode p1 Hlen1. explode p10 Hlen10. split_forall.
    rewrite header_decode_eq in Hd by layout_sizes header_sizes.
    case_bool_decide as Hm; [done|]. inv_ok. read_back.
    repeat match goal with
    | H : AuditHello.decode_payload _ = Ok _ |- _ => apply Hh3 in H as [? H]; [|done]
    | H : AuditReady.decode_payload _ = Ok _ |- _ => apply Hr3 in H as [? H]; [|done]
    end.
    split; [by split_and!|]. rewrite header_fields_eq. cbn [AuditContainerHeader.role
      AuditContainerHeader.session_id AuditContainerHeader.identity_pubkey
      AuditContainerHeader.session_pubkey AuditContainerHeader.peer_identity_pubkey
      AuditContainerHeader.peer_session_pubkey AuditContainerHeader.ledger_sequence
      AuditContainerHeader.previous_ledger_root AuditContainerHeader.utc_start_seconds
      AuditContainerHeader.auth_mode AuditContainerHeader.terminal_hello_digest
      AuditContainerHeader.audit_hello AuditContainerHeader.audit_ready
      AuditContainerHeader.header_signature FixedBytes.as_bytes].
    assert (to_be_bytes 2 AUDIT_FORMAT_VERSION = p0) by (destruct (array_uint 2 p0); [done..|congruence]).
    congruence.
  - intros ps Hs Hb. explode_parts ps Hs. explode p1 Hlen1. explode p10 Hlen10. split_forall.
    rewrite header_decode_eq by layout_sizes header_sizes.
    pose proof (cc_dec_no_panic _ _ _ _ (layout_codec hello_sizes _ _ _ _ ltac:(sizes_pos) hello_layout)).
    pose proof (cc_dec_no_panic _ _ _ _ (layout_codec ready_sizes _ _ _ _ ltac:(sizes_pos) ready_layout)).
    unfold or_reserved. no_panic.
  - intros l Hl. layout_short AuditContainerHeader.decode Hl.
Qed.

(** ** Record frames *)

(** A record is its type and payload; its frame length counts the type byte. *)
Definition record : Type := RecordType.t * list Z.

Definition record_wf (r : record) : Prop :=
  bytes r.2 /\ validate_frame_len r.1 (1 + zlen r.2) = Ok tt.

Definition frame_of (r : record) : RecordFrame.t := RecordFrame.Mk (1 + zlen r.2) r.1 r.2.

Definition frame_bytes (r : record) : list Z :=
  encode_frame_header (1 + zlen r.2) ++ [RecordType.code r.1] ++ r.2.

Lemma validate_frame_ok t n :
  validate_frame_len t n = Ok tt <->
  1 <= n <= 1048576 /\ (RecordType.carries_raw_output t = true -> n <= 65537).
Proof.
  unfold validate_frame_len, MIN_RECORD_FRAME_LEN, MAX_RECORD_FRAME_LEN, MAX_RAW_OUTPUT_FRAME_LEN,
    MAX_RAW_OUTPUT_PAYLOAD_LEN.
  destruct (Z.leb_spec 1 n), (Z.leb_spec n 1048576); cbn [negb andb]; try (split; [done|lia]).
  destruct (RecordType.carries_raw_output t); cbn [andb]; [|naive_solver lia].
  destruct (Z.ltb_spec (65536 + 1) n); split; try done.
  intros [_ Hc]. specialize (Hc eq_refl). lia.
Qed.

Lemma validate_frame_no_panic t n : validate_frame_len t n <> Panic.
Proof. unfold validate_frame_len. no_panic. Qed.
#[export] Hint Resolve validate_frame_no_panic : yon.

Lemma record_tag_ok z t : RecordType.from_byte z = Some t <-> RecordType.code t = z.
Proof. exact (we_from_some z t). Qed.

Lemma record_len r : record_wf r -> 1 <= 1 + zlen r.2 <= 1048576.
Proof. intros [_ Hv]. by apply validate_frame_ok in Hv as [? _]. Qed.

Lemma frame_bytes_facts r :
  record_wf r -> bytes (frame_bytes r) /\ zlen (frame_bytes r) = 5 + zlen r.2.
Proof.
  intros [Hb _]. unfold frame_bytes, encode_frame_header. split; [|zlen_tac].
  apply Forall_app. split; [apply bytes_to_be|]. apply Forall_app. split; [|done].
  exact (enum_byte r.1 eq_refl).
Qed.

(** A string of at least five bytes is a length, a type byte and the rest. *)
Lemma frame_split l :
  bytes l -> 5 <= zlen l ->
  exists n b rest, l = to_be_bytes 4 n ++ [b] ++ rest /\ 0 <= n < 2 ^ 32 /\ is_u8 b /\ bytes rest.
Proof.
  intros Hb Hl. destruct (split_at l 4 ltac:(lia)) as (h & l' & -> & Hh).
  apply Forall_app in Hb as [Hbh Hb]. rewrite zlen_app in Hl.
  destruct l' as [|b rest]; [zlen_tac|]. apply Forall_cons in Hb as [? ?].
  destruct (array_uint 4 h Hbh Hh) as [Heq Hr]. exists (from_be_bytes h), b, rest. by rewrite Heq.
Qed.

(** The reads that [decode_frame] and [next_frame] share. *)
Lemma frame_reads n b rest :
  0 <= n < 2 ^ 32 ->
  uint_at 4 (to_be_bytes 4 n ++ [b] ++ rest) 0 RECORD_FRAME_HEADER_LEN = Ok n /\
  index (E:=ProtocolError) (to_be_bytes 4 n ++ [b] ++ rest) RECORD_FRAME_HEADER_LEN = Ok b.
Proof.
  intros Hn. pose proof (zlen_to_be 4 n) as Hl. unfold RECORD_FRAME_HEADER_LEN. split.
  - unfold uint_at. rewrite slice_head by lia. cbn [mbind res_bind].
    rewrite try_into_exact by lia. cbn [expect_some mbind res_bind]. by rewrite from_to_be.
  - by apply index_app.
Qed.

(** No legal frame begins with the footer magic. *)
Lemma frame_not_footer n rest :
  0 <= n <= 1048576 -> starts_with (to_be_bytes 4 n ++ rest) FOOTER_MAGIC = false.
Proof.
  intros Hn. unfold starts_with. apply bool_decide_eq_false_2. intros H.
  change (length FOOTER_MAGIC) with 4%nat in H.
  rewrite take_app_length' in H by (by rewrite length_digits_be).
  apply (f_equal from_be_bytes) in H. rewrite from_to_be in H by lia.
  assert (from_be_bytes FOOTER_MAGIC = 1497781330) as Hf by reflexivity. lia.
Qed.

(** ** The record frame codec *)

Definition frame_wf (f : RecordFrame.t) : Prop :=
  record_wf (RecordFrame.record_type f, RecordFrame.payload f) /\
  RecordFrame.frame_len f = 1 + zlen (RecordFrame.payload f).

(** What a writer emits for a frame. *)
Definition frame_enc (f : RecordFrame.t) : list Z :=
  frame_bytes (RecordFrame.record_type f, RecordFrame.payload f).

Lemma decode_frame_bytes n b rest :
  0 <= n < 2 ^ 32 ->
  decode_frame (to_be_bytes 4 n ++ [b] ++ rest) =
    t ← ok_or (RecordType.from_byte b) (UnknownTag b);
    _ ← validate_frame_len t n;
    if 5 + zlen rest <? 4 + n then Err (InvalidLength (4 + n) (5 + zlen rest)) else
    if 4 + n <? 5 + zlen rest then Err TrailingBytes else
    Ok (RecordFrame.Mk n t rest).
Proof.
  intros Hn. pose proof (zlen_nonneg rest). pose proof (zlen_to_be 4 n) as Hl.
  assert (zlen (to_be_bytes 4 n ++ [b] ++ rest) = 5 + zlen rest) as Hlen by zlen_tac.
  destruct (frame_reads n b rest Hn) as [Hu Hi].
  unfold decode_frame. rewrite Hlen, Hu. unfold RECORD_FRAME_HEADER_LEN in *.
  rewrite (proj2 (Z.ltb_ge _ _)) by lia. cbn [mbind res_bind]. rewrite Hi. cbn [mbind res_bind].
  destruct (RecordType.from_byte b) as [t|]; [|done]. cbn [ok_or mbind res_bind].
  destruct (validate_frame_len t n) as [[]| |] eqn:Hv; [|done..]. cbn [mbind res_bind].
  rewrite checked_add_u64_some by lia. cbn [ok_or mbind res_bind].
  destruct (Z.ltb_spec (5 + zlen rest) (4 + n)); [done|].
  destruct (Z.ltb_spec (4 + n) (5 + zlen rest)); [done|].
  rewrite app_assoc. rewrite slice_tail by zlen_tac. cbn [mbind res_bind]. by rewrite as_u32_small.
Qed.

Lemma record_frame_codec_lemma :
  codec_correct (fun f => Ok (frame_enc f)) decode_frame frame_wf (4 + MAX_RECORD_FRAME_LEN).
Proof.
  unfold MAX_RECORD_FRAME_LEN. apply codec_intro_total.
  - intros [n t p] [Hwf Hn]. cbn in Hn. unfold frame_enc. cbn [RecordFrame.record_type RecordFrame.payload].
    cbn [RecordFrame.record_type RecordFrame.payload] in Hwf.
    destruct (frame_bytes_facts _ Hwf) as [Hb Hl]. pose proof (record_len _ Hwf) as Hr. cbn [snd] in *.
    split_and!; [done|lia|]. destruct Hwf as [_ Hv]. cbn [fst snd] in Hv.
    unfold frame_bytes, encode_frame_header. cbn [fst snd].
    rewrite decode_frame_bytes by lia. rewrite (proj2 (record_tag_ok _ _) eq_refl). cbn [ok_or mbind res_bind].
    rewrite Hv. cbn [mbind res_bind]. rewrite !(proj2 (Z.ltb_ge _ _)) by lia. by rewrite Hn.
  - intros l f Hb Hd.
    destruct (decide (5 <= zlen l)) as [Hl|Hl].
    + destruct (frame_split l Hb Hl) as (n & b & rest & -> & Hn & Hub & Hbr).
      rewrite decode_frame_bytes in Hd by done. inv_ok.
      match goal with H : RecordType.from_byte _ = Some _ |- _ => apply record_tag_ok in H as <- end.
      assert (n = 1 + zlen rest) as -> by lia. destruct x0. by split; [split; [split|]|].
    + unfold decode_frame in Hd. rewrite (proj2 (Z.ltb_lt _ _)) in Hd by (unfold RECORD_FRAME_HEADER_LEN; lia).
      done.
  - intros l Hb. destruct (decide (5 <= zlen l)) as [Hl|Hl].
    + destruct (frame_split l Hb Hl) as (n & b & rest & -> & Hn & Hub & Hbr).
      rewrite decode_frame_bytes by done. no_panic.
    + unfold decode_frame. rewrite (proj2 (Z.ltb_lt _ _)) by (unfold RECORD_FRAME_HEADER_LEN; lia). done.
Qed.

(** ** The footer *)

Definition prefixed (l : list Z) : list Z := to_be_bytes 2 (zlen l) ++ l.

Lemma zlen_prefixed l : zlen (prefixed l) = 2 + zlen l.
Proof. unfold prefixed. zlen_tac. Qed.

Lemma bytes_prefixed l : bytes l -> bytes (prefixed l).
Proof. intros. unfold prefixed. bytes_tac. Qed.

Lemma write_prefixed_written pre n l :
  2 + zlen l <= n -> zlen l < 2 ^ 16 ->
  write_prefixed (written pre n) l = Ok (written (pre ++ prefixed l) (n - zlen (prefixed l))).
Proof.
  intros Hn Hl. pose proof (zlen_nonneg l). unfold write_prefixed. rewrite as_u16_small by lia.
  rewrite append_written by zlen_tac. cbn [mbind res_bind]. rewrite append_written by zlen_tac.
  rewrite zlen_prefixed, <- app_assoc. do 2 f_equal. zlen_tac.
Qed.

Lemma take_prefixed_ok input pos s e :
  0 <= pos <= 2 ^ 32 -> bytes input ->
  take_prefixed input pos = Ok (s, e) <->
  exists pre rest, input = pre ++ prefixed s ++ rest /\ zlen pre = pos /\ e = pos + 2 + zlen s /\
    zlen s < 2 ^ 16.
Proof.
  intros Hpos Hb. unfold take_prefixed, prefixed. split.
  - intros H. inv_ok. destruct (get_range_split _ _ _ _ H0) as (l1 & l3 & -> & Hl1 & Hx).
    apply Forall_app in Hb as [_ Hb]. apply Forall_app in Hb as [Hbx Hb3].
    destruct (array_uint 2 x Hbx ltac:(lia)) as [Hto Hr]. rewrite checked_add_u64_some in * by lia.
    inv_ok. rewrite app_assoc in *.
    match goal with H : get_range _ (zlen l1 + 2) _ = Some _ |- _ =>
      apply get_range_split in H as (m1 & m3 & Heq & Hm1 & Hs) end.
    apply app_inj_1 in Heq as [<- ->]; [|unfold zlen in *; rewrite length_app; lia].
    exists l1, m3. rewrite <- !app_assoc. replace (zlen s) with (from_be_bytes x) by lia.
    rewrite Hto. split_and!; [done|done|lia|lia].
  - intros (pre & rest & -> & <- & -> & Hs). pose proof (zlen_nonneg s).
    rewrite <- !app_assoc. rewrite get_range_app by zlen_tac. cbn [ok_or mbind res_bind].
    rewrite try_into_exact by apply zlen_to_be. cbn [ok_or mbind res_bind]. rewrite from_to_be by lia.
    rewrite checked_add_u64_some by lia. cbn [ok_or mbind res_bind].
    rewrite app_assoc, get_range_app by zlen_tac. done.
Qed.

Lemma take_prefixed_no_panic input pos : take_prefixed input pos <> Panic.
Proof. unfold take_prefixed. no_panic. Qed.
#[export] Hint Resolve take_prefixed_no_panic : yon.

Definition footer_wf (f : AuditContainerFooter.t) : Prop :=
  manifest_wf (AuditContainerFooter.manifest f) /\
  FixedBytes.wf (ManifestSignature.signature (AuditContainerFooter.controller_session_signature f)) /\
  FixedBytes.wf (ManifestSignature.signature (AuditContainerFooter.host_session_signature f)) /\
  seal_wf (AuditContainerFooter.seal f) /\ ledger_wf (AuditContainerFooter.ledger_commit f).

(** The five components on the wire. *)
Definition manifest_part (f : AuditContainerFooter.t) : list Z :=
  concat (manifest_fields (AuditContainerFooter.manifest f)).
Definition controller_part (f : AuditContainerFooter.t) : list Z :=
  raw (ManifestSignature.signature (AuditContainerFooter.controller_session_signature f)).
Definition host_part (f : AuditContainerFooter.t) : list Z :=
  raw (ManifestSignature.signature (AuditContainerFooter.host_session_signature f)).
Definition seal_part (f : AuditContainerFooter.t) : list Z :=
  concat (seal_fields (AuditContainerFooter.seal f)).
Definition ledger_part (f : AuditContainerFooter.t) : list Z :=
  concat (ledger_fields (AuditContainerFooter.ledger_commit f)).

(** What the three digests cover of the footer. *)
Definition sealed_prefix (f : AuditContainerFooter.t) : list Z :=
  FOOTER_MAGIC ++ prefixed (manifest_part f) ++ prefixed (controller_part f) ++ prefixed (host_part f).
Definition sealed_record (f : AuditContainerFooter.t) : list Z :=
  sealed_prefix f ++ prefixed (seal_part f).
Definition footer_prefix (f : AuditContainerFooter.t) : list Z :=
  sealed_record f ++ prefixed (ledger_part f).

Lemma footer_parts f :
  footer_wf f ->
  is_array 400 (manifest_part f) /\ is_array 64 (controller_part f) /\ is_array 64 (host_part f) /\
  is_array 329 (seal_part f) /\ is_array 233 (ledger_part f).
Proof.
  intros (Hm & Hc & Hh & Hs & Hl). split_and!; try done.
  - exact (layout_bytes _ _ _ _ _ _ manifest_layout Hm).
  - exact (layout_bytes _ _ _ _ _ _ seal_layout Hs).
  - exact (layout_bytes _ _ _ _ _ _ ledger_layout Hl).
Qed.

Lemma footer_lens f :
  footer_wf f -> zlen (sealed_prefix f) = 538 /\ zlen (sealed_record f) = 869 /\
  zlen (footer_prefix f) = 1104 /\ bytes (footer_prefix f).
Proof.
  intros Hwf. destruct (footer_parts f Hwf) as ([? Hm] & [? Hc] & [? Hh] & [? Hs] & [? Hl]).
  unfold footer_prefix, sealed_record, sealed_prefix. rewrite !zlen_app, !zlen_prefixed.
  change (zlen FOOTER_MAGIC) with 4. split_and!; [lia..|].
  repeat first [assumption | apply footer_magic_bytes | apply bytes_prefixed; assumption | apply Forall_app_2].
Qed.

Lemma footer_prefix_enc f :
  footer_wf f -> WireBytes.as_slice <$> encode_footer_prefix f = Ok (footer_prefix f).
Proof.
  intros Hwf. pose proof Hwf as (Hm & Hc & Hh & Hs & Hl).
  destruct (embedded_payload _ _ _ _ _ _ manifest_layout Hm) as (w1 & He1 & Hw1).
  destruct (embedded_payload _ _ _ _ _ _ manifest_signature_layout Hc) as (w2 & He2 & Hw2).
  destruct (embedded_payload _ _ _ _ _ _ manifest_signature_layout Hh) as (w3 & He3 & Hw3).
  destruct (embedded_payload _ _ _ _ _ _ seal_layout Hs) as (w4 & He4 & Hw4).
  destruct (embedded_payload _ _ _ _ _ _ ledger_layout Hl) as (w5 & He5 & Hw5).
  destruct (footer_parts f Hwf) as ([_ L1] & [_ L2] & [_ L3] & [_ L4] & [_ L5]).
  unfold encode_footer_prefix. rewrite He1, He2, He3, He4, He5. cbn [mbind res_bind].
  rewrite Hw1, Hw2, Hw3, Hw4, Hw5. cbn [concat]. rewrite !app_nil_r.
  fold (manifest_part f) (controller_part f) (host_part f) (seal_part f) (ledger_part f).
  change MAX_FOOTER_PREFIX_LEN with 1104. assert (zlen FOOTER_MAGIC = 4) as Hf by done.
  rewrite start_written, append_written by lia. cbn [mbind res_bind].
  repeat (rewrite write_prefixed_written by (rewrite ?zlen_prefixed; lia); cbn [mbind res_bind]).
  rewrite finish_written by (rewrite ?zlen_prefixed; lia).
  unfold footer_prefix, sealed_record, sealed_prefix. by rewrite app_nil_l, <- !app_assoc.
Qed.

(** One step of the decoder, on a known component and back. *)
Lemma take_prefixed_app pre s rest pos :
  bytes (pre ++ prefixed s ++ rest) -> zlen pre = pos -> pos <= 2 ^ 32 -> zlen s < 2 ^ 16 ->
  take_prefixed (pre ++ prefixed s ++ rest) pos = Ok (s, zlen (pre ++ prefixed s)).
Proof.
  intros Hb <- Hp Hs. pose proof (zlen_nonneg pre). apply take_prefixed_ok; [lia|done|].
  exists pre, rest. split_and!; [done|done|rewrite zlen_app, zlen_prefixed; lia|done].
Qed.

Definition decoded_of (f : AuditContainerFooter.t) (d : Digest32) (base : Z) : DecodedFooter.t :=
  DecodedFooter.Mk f d (base + zlen (sealed_prefix f)) (base + zlen (sealed_record f))
    (base + zlen (footer_prefix f)).

Lemma starts_with_app l rest : starts_with (l ++ rest) l = true.
Proof. unfold starts_with. rewrite take_app_length. by apply bool_decide_eq_true_2. Qed.

Lemma starts_with_inv l p : starts_with l p = true -> exists rest, l = p ++ rest.
Proof.
  unfold starts_with. intros H%bool_decide_eq_true_1. exists (drop (length p) l).
  rewrite <- H at 1. by rewrite take_drop.
Qed.

Lemma footer_decodes f :
  footer_wf f ->
  JointManifest.decode_payload (manifest_part f) = Ok (AuditContainerFooter.manifest f) /\
  ManifestSignature.decode_payload (controller_part f) =
    Ok (AuditContainerFooter.controller_session_signature f) /\
  ManifestSignature.decode_payload (host_part f) = Ok (AuditContainerFooter.host_session_signature f) /\
  LocalRecordSeal.decode_payload (seal_part f) = Ok (AuditContainerFooter.seal f) /\
  LedgerCommit.decode_payload (ledger_part f) = Ok (AuditContainerFooter.ledger_commit f).
Proof.
  intros (Hm & Hc & Hh & Hs & Hl).
  pose proof (fl_dec _ _ _ _ _ manifest_signature_layout _ Hc) as Hc'.
  pose proof (fl_dec _ _ _ _ _ manifest_signature_layout _ Hh) as Hh'.
  cbn [concat] in Hc', Hh'. rewrite app_nil_r in Hc', Hh'.
  split_and!; [by apply (fl_dec _ _ _ _ _ manifest_layout)|done|done
    |by apply (fl_dec _ _ _ _ _ seal_layout)|by apply (fl_dec _ _ _ _ _ ledger_layout)].
Qed.

Lemma footer_steps f tail :
  footer_wf f -> bytes tail ->
  let input := footer_prefix f ++ tail in
  take_prefixed input 4 = Ok (manifest_part f, 406) /\
  take_prefixed input 406 = Ok (controller_part f, 472) /\
  take_prefixed input 472 = Ok (host_part f, 538) /\
  take_prefixed input 538 = Ok (seal_part f, 869) /\
  take_prefixed input 869 = Ok (ledger_part f, 1104).
Proof.
  intros Hwf Hbt input. destruct (footer_lens f Hwf) as (T1 & T2 & T3 & Hb).
  destruct (footer_parts f Hwf) as ([_ L1] & [_ L2] & [_ L3] & [_ L4] & [_ L5]).
  assert (bytes input) as Hbi by (by apply Forall_app).
  assert (forall pre s rest n m, input = pre ++ prefixed s ++ rest -> zlen pre = n -> n <= 2000 ->
    zlen s < 1000 -> m = n + 2 + zlen s -> take_prefixed input n = Ok (s, m)) as Hstep.
  { intros pre s rest n m Hin <- Hn Hs ->. pose proof (zlen_nonneg pre).
    apply take_prefixed_ok; [lia|done|]. exists pre, rest. split_and!; [done|done|done|lia]. }
  assert (input = FOOTER_MAGIC ++ prefixed (manifest_part f) ++ prefixed (controller_part f) ++
    prefixed (host_part f) ++ prefixed (seal_part f) ++ prefixed (ledger_part f) ++ tail) as Hin.
  { unfold input, footer_prefix, sealed_record, sealed_prefix. by rewrite <- !app_assoc. }
  assert (zlen FOOTER_MAGIC = 4) as Hf by done.
  split_and!.
  - eapply (Hstep FOOTER_MAGIC); [exact Hin|lia..].
  - eapply (Hstep (FOOTER_MAGIC ++ prefixed (manifest_part f)));
      [rewrite Hin; by rewrite <- !app_assoc|rewrite ?zlen_app, ?zlen_prefixed; lia..].
  - eapply (Hstep (FOOTER_MAGIC ++ prefixed (manifest_part f) ++ prefixed (controller_part f)));
      [rewrite Hin; by rewrite <- !app_assoc|rewrite ?zlen_app, ?zlen_prefixed; lia..].
  - eapply (Hstep (sealed_prefix f)); [unfold sealed_prefix; rewrite Hin; by rewrite <- !app_assoc|lia..].
  - eapply (Hstep (sealed_record f));
      [unfold sealed_record, sealed_prefix; rewrite Hin; by rewrite <- !app_assoc|lia..].
Qed.

Lemma decode_footer_eq f d :
  footer_wf f -> FixedBytes.wf d ->
  decode_footer (footer_prefix f ++ raw d) = Ok (decoded_of f d 0).
Proof.
  intros Hwf [Hbd Hld]. destruct (footer_decodes f Hwf) as (D1 & D2 & D3 & D4 & D5).
  destruct (footer_steps f (raw d) Hwf Hbd) as (S1 & S2 & S3 & S4 & S5).
  destruct (footer_lens f Hwf) as (T1 & T2 & T3 & Hb). unfold decoded_of. rewrite T1, T2, T3.
  unfold decode_footer. change (zlen FOOTER_MAGIC) with 4.
  assert (starts_with (footer_prefix f ++ raw d) FOOTER_MAGIC = true) as ->.
  { unfold footer_prefix, sealed_record, sealed_prefix. rewrite <- !app_assoc. apply starts_with_app. }
  cbn in Hld. unfold DIGEST_LEN in Hld. rewrite (proj2 (Z.ltb_ge _ _)) by (rewrite zlen_app; lia).
  cbn [orb negb]. cbv zeta.
  rewrite S1. cbn [mbind res_bind]. rewrite D1. cbn [mbind res_bind].
  rewrite S2. cbn [mbind res_bind]. rewrite D2. cbn [mbind res_bind].
  rewrite S3. cbn [mbind res_bind]. rewrite D3. cbn [mbind res_bind].
  rewrite S4. cbn [mbind res_bind]. rewrite D4. cbn [mbind res_bind].
  rewrite S5. cbn [mbind res_bind]. rewrite D5. cbn [mbind res_bind].
  rewrite slice_tail by (done || lia). cbn [mbind res_bind]. unfold CONTAINER_DIGEST_LEN, DIGEST_LEN.
  rewrite Hld. cbn [Z.ltb Z.compare]. rewrite try_into_exact by done.
  cbn. destruct f, d. done.
Qed.

Lemma take_prefixed_step pre l pos s e :
  bytes (pre ++ l) -> zlen pre = pos -> pos <= 2 ^ 32 -> take_prefixed (pre ++ l) pos = Ok (s, e) ->
  exists rest, l = prefixed s ++ rest /\ e = zlen (pre ++ prefixed s) /\ zlen s < 2 ^ 16 /\
    bytes s /\ bytes ((pre ++ prefixed s) ++ rest) /\ pre ++ l = (pre ++ prefixed s) ++ rest.
Proof.
  intros Hb <- Hp Ht. pose proof (zlen_nonneg pre).
  apply take_prefixed_ok in Ht as (pre' & rest & Heq & Hl & -> & Hs); [|lia|done].
  apply app_inj_1 in Heq as [-> ->]; [|unfold zlen in Hl; lia].
  exists rest. rewrite <- app_assoc. split_and!; [done| |done| |done|done].
  - rewrite zlen_app, zlen_prefixed. lia.
  - unfold prefixed in Hb. split_forall. done.
Qed.

Lemma signature_canonical l m :
  bytes l -> ManifestSignature.decode_payload l = Ok m ->
  FixedBytes.wf (ManifestSignature.signature m) /\ raw (ManifestSignature.signature m) = l.
Proof.
  intros Hb Hd.
  destruct (layout_dec_canonical [64] _ _ _ _ ltac:(sizes_pos) manifest_signature_layout l m Hb Hd) as [Hw Heq].
  split; [done|]. cbn [concat] in Heq. by rewrite app_nil_r in Heq.
Qed.

(** Five components in a row, from the footer magic on. *)
Lemma five_prefixed l s1 s2 s3 s4 s5 e1 e2 e3 e4 e5 :
  bytes l -> starts_with l FOOTER_MAGIC = true ->
  take_prefixed l 4 = Ok (s1, e1) -> take_prefixed l e1 = Ok (s2, e2) ->
  take_prefixed l e2 = Ok (s3, e3) -> take_prefixed l e3 = Ok (s4, e4) ->
  take_prefixed l e4 = Ok (s5, e5) ->
  exists pre r, l = pre ++ r /\ e5 = zlen pre /\ bytes r /\
    pre = ((((FOOTER_MAGIC ++ prefixed s1) ++ prefixed s2) ++ prefixed s3) ++ prefixed s4) ++ prefixed s5 /\
    bytes s1 /\ bytes s2 /\ bytes s3 /\ bytes s4 /\ bytes s5.
Proof.
  intros Hb (r0 & Hr0)%starts_with_inv S1 S2 S3 S4 S5. rewrite Hr0 in S1, S2, S3, S4, S5, Hb.
  assert (zlen FOOTER_MAGIC = 4) as Hf by done.
  apply take_prefixed_step in S1 as (r1 & _ & E1 & L1 & B1 & Hb1 & Q1); [|done|done|lia].
  rewrite Q1 in S2, S3, S4, S5.
  apply take_prefixed_step in S2 as (r2 & _ & E2 & L2 & B2 & Hb2 & Q2);
    [|done|done|rewrite E1, zlen_app, zlen_prefixed; lia].
  rewrite Q2 in S3, S4, S5.
  apply take_prefixed_step in S3 as (r3 & _ & E3 & L3 & B3 & Hb3 & Q3);
    [|done|done|rewrite E2, !zlen_app, !zlen_prefixed; lia].
  rewrite Q3 in S4, S5.
  apply take_prefixed_step in S4 as (r4 & _ & E4 & L4 & B4 & Hb4 & Q4);
    [|done|done|rewrite E3, !zlen_app, !zlen_prefixed; lia].
  rewrite Q4 in S5.
  apply take_prefixed_step in S5 as (r5 & _ & E5 & L5 & B5 & Hb5 & Q5);
    [|done|done|rewrite E4, !zlen_app, !zlen_prefixed; lia].
  eexists _, r5. split_and!; [by rewrite Hr0, Q1, Q2, Q3, Q4, Q5|done| |done..].
  by apply Forall_app in Hb5 as [].
Qed.

Lemma decode_footer_canonical l df :
  bytes l -> decode_footer l = Ok df ->
  exists f d, footer_wf f /\ FixedBytes.wf d /\ l = footer_prefix f ++ raw d /\ df = decoded_of f d 0.
Proof.
  intros Hb Hd. pose proof Hd as Hd0. unfold decode_footer in Hd.
  destruct (_ || _) eqn:Hm; [done|]. apply orb_false_elim in Hm as [_ Hm%negb_false_iff].
  cbv zeta in Hd. change (zlen FOOTER_MAGIC) with 4 in Hd.
  apply res_bind_ok in Hd as ([s1 e1] & S1 & Hd). apply res_bind_ok in Hd as (m & D1 & Hd).
  apply res_bind_ok in Hd as ([s2 e2] & S2 & Hd). apply res_bind_ok in Hd as (c & D2 & Hd).
  apply res_bind_ok in Hd as ([s3 e3] & S3 & Hd). apply res_bind_ok in Hd as (h & D3 & Hd).
  apply res_bind_ok in Hd as ([s4 e4] & S4 & Hd). apply res_bind_ok in Hd as (sl & D4 & Hd).
  apply res_bind_ok in Hd as ([s5 e5] & S5 & Hd). apply res_bind_ok in Hd as (lc & D5 & Hd).
  destruct (five_prefixed l s1 s2 s3 s4 s5 e1 e2 e3 e4 e5) as
    (pre & r & Hl & E5 & Hbr & Hpre & B1 & B2 & B3 & B4 & B5); try done.
  apply (layout_dec_canonical manifest_sizes _ _ _ _ ltac:(sizes_pos) manifest_layout) in D1 as [W1 P1]; [|done].
  apply signature_canonical in D2 as [W2 P2], D3 as [W3 P3]; [|done..].
  apply (layout_dec_canonical seal_sizes _ _ _ _ ltac:(sizes_pos) seal_layout) in D4 as [W4 P4]; [|done].
  apply (layout_dec_canonical ledger_sizes _ _ _ _ ltac:(sizes_pos) ledger_layout) in D5 as [W5 P5]; [|done].
  set (f := AuditContainerFooter.Mk m c h sl lc).
  assert (pre = footer_prefix f) as Hf.
  { rewrite Hpre, <- P1, <- P2, <- P3, <- P4, <- P5. unfold footer_prefix, sealed_record, sealed_prefix.
    by rewrite <- !app_assoc. }
  rewrite Hl, slice_tail in Hd by done. cbn [mbind res_bind] in Hd.
  assert (is_array 32 r) as Hr.
  { split; [done|]. unfold CONTAINER_DIGEST_LEN, DIGEST_LEN in Hd. inv_ok; lia. }
  exists f, (FixedBytes.new r). assert (footer_wf f) as Hwf by (by split_and!).
  split_and!; [done|done|by rewrite <- Hf|].
  pose proof (decode_footer_eq f (FixedBytes.new r) Hwf Hr) as Heq.
  cbn [FixedBytes.as_bytes] in Heq. rewrite <- Hf, <- Hl, Hd0 in Heq. by injection Heq.
Qed.

(** ** The reader *)

Abbreviation reader_at bs p h := (ContainerReader.Mk bs p h).

(** What [next_frame] does with the bytes from the cursor on. *)
Lemma next_frame_frame pre r more h :
  record_wf r ->
  ContainerReader.next_frame (reader_at (pre ++ frame_bytes r ++ more) (zlen pre) h) =
  Ok (Some (frame_of r),
      reader_at (pre ++ frame_bytes r ++ more) (zlen (pre ++ frame_bytes r)) h).
Proof.
  intros Hwf. pose proof (record_len r Hwf) as Hn. destruct (frame_bytes_facts r Hwf) as [_ Hl].
  destruct Hwf as [Hb Hv]. pose proof (zlen_nonneg more).
  unfold ContainerReader.next_frame. cbn [ContainerReader.bytes ContainerReader.pos ContainerReader.header].
  rewrite slice_tail by done. cbn [mbind res_bind]. unfold RECORD_FRAME_HEADER_LEN in *.
  rewrite (proj2 (Z.ltb_ge _ _)) by (rewrite zlen_app; lia).
  assert (frame_bytes r ++ more = to_be_bytes 4 (1 + zlen r.2) ++ [RecordType.code r.1] ++ r.2 ++ more) as Heq.
  { unfold frame_bytes, encode_frame_header. by rewrite <- !app_assoc. }
  assert (zlen (frame_bytes r ++ more) = 5 + zlen r.2 + zlen more) as Hlen by (rewrite zlen_app; lia).
  destruct (frame_reads (1 + zlen r.2) (RecordType.code r.1) (r.2 ++ more)) as [Hu Hi]; [lia|].
  pose proof (frame_not_footer (1 + zlen r.2) ([RecordType.code r.1] ++ r.2 ++ more) ltac:(lia)) as Hf.
  assert (slice (E:=ProtocolError) (frame_bytes r ++ more) (4 + 1) (4 + (1 + zlen r.2)) = Ok r.2) as Hsl.
  { rewrite Heq, (app_assoc (to_be_bytes 4 _)). apply slice_app; zlen_tac. }
  unfold RECORD_FRAME_HEADER_LEN in *. rewrite <- Heq in Hu, Hi, Hf. rewrite Hf, Hu.
  cbn [mbind res_bind]. rewrite Hi. cbn [mbind res_bind].
  rewrite (proj2 (record_tag_ok _ _) eq_refl). cbn [ok_or mbind res_bind]. rewrite Hv. cbn [mbind res_bind].
  rewrite checked_add_u64_some by lia. cbn [ok_or mbind res_bind].
  rewrite (proj2 (Z.ltb_ge _ _)) by lia. rewrite Hsl. cbn [mbind res_bind].
  rewrite as_u32_small by lia. unfold frame_of. repeat f_equal. rewrite zlen_app. lia.
Qed.

Lemma next_frame_end pre rest h :
  rest = [] \/ (5 <= zlen rest /\ starts_with rest FOOTER_MAGIC = true) ->
  ContainerReader.next_frame (reader_at (pre ++ rest) (zlen pre) h) =
  Ok (None, reader_at (pre ++ rest) (zlen pre) h).
Proof.
  intros Hr. unfold ContainerReader.next_frame. cbn [ContainerReader.bytes ContainerReader.pos].
  rewrite slice_tail by done. cbn [mbind res_bind]. unfold RECORD_FRAME_HEADER_LEN.
  destruct Hr as [->|[Hl Hs]]; [done|]. rewrite (proj2 (Z.ltb_ge _ _)) by lia. by rewrite Hs.
Qed.

Lemma next_frame_inv pre rest h o r' :
  bytes rest -> ContainerReader.next_frame (reader_at (pre ++ rest) (zlen pre) h) = Ok (o, r') ->
  match o with
  | Some f => exists r more, rest = frame_bytes r ++ more /\ record_wf r /\ f = frame_of r /\
      r' = reader_at (pre ++ rest) (zlen (pre ++ frame_bytes r)) h
  | None => r' = reader_at (pre ++ rest) (zlen pre) h /\
      (rest = [] \/ (5 <= zlen rest /\ starts_with rest FOOTER_MAGIC = true))
  end.
Proof.
  intros Hb H. pose proof H as H0. unfold ContainerReader.next_frame in H.
  cbn [ContainerReader.bytes ContainerReader.pos ContainerReader.header] in H.
  rewrite slice_tail in H by done. cbn [mbind res_bind] in H. unfold RECORD_FRAME_HEADER_LEN in H.
  destruct (Z.ltb_spec (zlen rest) (4 + 1)) as [|Hl].
  { destruct (Z.eqb_spec (zlen rest) 0) as [Hz|]; [|done]. injection H as <- <-.
    apply zlen_0 in Hz. auto. }
  destruct (starts_with rest FOOTER_MAGIC) eqn:Hs; [injection H as <- <-; split; [done|right; split; [lia|done]]|].
  destruct (frame_split rest Hb ltac:(lia)) as (n & b & more & -> & Hn & _ & Hbm).
  destruct (frame_reads n b more Hn) as [Hu Hi]. unfold RECORD_FRAME_HEADER_LEN in Hu, Hi.
  rewrite Hu in H. cbn [mbind res_bind] in H. rewrite Hi in H. cbn [mbind res_bind] in H.
  apply res_bind_ok in H as (t & Ht & H). apply res_bind_ok in H as ([] & Hv & H).
  apply ok_or_ok, record_tag_ok in Ht as <-. rewrite checked_add_u64_some in H by lia.
  cbn [ok_or mbind res_bind] in H.
  destruct (Z.ltb_spec (zlen (to_be_bytes 4 n ++ [RecordType.code t] ++ more)) (4 + n)) as [|Hlen]; [done|].
  assert (1 <= n) as Hn1 by (by apply validate_frame_ok in Hv as [? _]; lia).
  destruct (split_at more (n - 1)) as (p & more' & -> & Hp); [zlen_tac|].
  apply Forall_app in Hbm as [Hbp _].
  assert (record_wf (t, p)) as Hwf by (split; cbn; [done|by replace (1 + zlen p) with n by lia]).
  assert (to_be_bytes 4 n ++ [RecordType.code t] ++ p ++ more' = frame_bytes (t, p) ++ more') as Heq.
  { unfold frame_bytes, encode_frame_header. cbn [fst snd]. replace (1 + zlen p) with n by lia.
    by rewrite <- !app_assoc. }
  rewrite Heq, next_frame_frame in H0 by done. injection H0 as <- <-.
  exists (t, p), more'. by rewrite Heq.
Qed.

Lemma next_frame_no_panic pre rest h :
  bytes rest -> ContainerReader.next_frame (reader_at (pre ++ rest) (zlen pre) h) <> Panic.
Proof.
  intros Hb. unfold ContainerReader.next_frame. cbn [ContainerReader.bytes ContainerReader.pos].
  rewrite slice_tail by done. cbn [mbind res_bind]. unfold RECORD_FRAME_HEADER_LEN.
  destruct (Z.ltb_spec (zlen rest) (4 + 1)) as [|Hl]; [by destruct (_ =? _)|].
  destruct (starts_with rest FOOTER_MAGIC); [done|].
  destruct (frame_split rest Hb ltac:(lia)) as (n & b & more & -> & Hn & _ & Hbm).
  destruct (frame_reads n b more Hn) as [Hu Hi]. unfold RECORD_FRAME_HEADER_LEN in Hu, Hi.
  rewrite Hu. cbn [mbind res_bind]. rewrite Hi. cbn [mbind res_bind].
  destruct (RecordType.from_byte b) as [t|]; [|done]. cbn [ok_or mbind res_bind].
  destruct (validate_frame_len t n) as [[]| |] eqn:Hv; [|done|by destruct (validate_frame_no_panic t n)].
  assert (1 <= n) as Hn1 by (by apply validate_frame_ok in Hv as [? _]; lia).
  cbn [mbind res_bind]. rewrite checked_add_u64_some by lia. cbn [ok_or mbind res_bind].
  destruct (Z.ltb_spec (zlen (to_be_bytes 4 n ++ [b] ++ more)) (4 + n)) as [|Hlen]; [done|].
  destruct (split_at more (n - 1)) as (p & more' & -> & Hp); [zlen_tac|].
  by rewrite (app_assoc (to_be_bytes 4 _)), slice_app by zlen_tac.
Qed.

(** ** Whole containers *)

(** The client loop [while let Some(frame) = reader.next_frame()? { .. }]. *)
Fixpoint read_frames (fuel : nat) (r : ContainerReader.t)
  : option (res ProtocolError (list RecordFrame.t * ContainerReader.t)) :=
  match fuel with
  | O => None
  | S fuel =>
    match ContainerReader.next_frame r with
    | Ok (None, r') => Some (Ok ([], r'))
    | Ok (Some f, r') =>
      match read_frames fuel r' with
      | Some (Ok (fs, r'')) => Some (Ok (f :: fs, r''))
      | o => o
      end
    | Err e => Some (Err e)
    | Panic => Some Panic
    end
  end.

Definition frames_bytes (rs : list record) : list Z := concat (frame_bytes <$> rs).

(** An interrupted container: the header and the frames, no footer. *)
Definition interrupted (h : AuditContainerHeader.t) (rs : list record) : list Z :=
  concat (header_fields h) ++ frames_bytes rs.

(** A finalised one. *)
Definition finalised (h : AuditContainerHeader.t) (rs : list record) (f : AuditContainerFooter.t)
    (d : Digest32) : list Z := interrupted h rs ++ footer_prefix f ++ raw d.

Lemma frames_bytes_cons r rs : frames_bytes (r :: rs) = frame_bytes r ++ frames_bytes rs.
Proof. done. Qed.

Lemma read_frames_eq pre rs rest h :
  Forall record_wf rs -> rest = [] \/ (5 <= zlen rest /\ starts_with rest FOOTER_MAGIC = true) ->
  read_frames (S (length rs)) (reader_at (pre ++ frames_bytes rs ++ rest) (zlen pre) h) =
  Some (Ok (frame_of <$> rs,
            reader_at (pre ++ frames_bytes rs ++ rest) (zlen (pre ++ frames_bytes rs)) h)).
Proof.
  intros Hrs Hrest. revert pre. induction Hrs as [|r rs Hr Hrs IH]; intros pre.
  - cbn [length read_frames]. change (frames_bytes [] ++ rest) with rest.
    rewrite next_frame_end by done. by rewrite app_nil_r.
  - rewrite frames_bytes_cons, <- app_assoc. cbn [length]. remember (S (length rs)) as n.
    cbn [read_frames]. rewrite next_frame_frame by done.
    specialize (IH (pre ++ frame_bytes r)). rewrite <- !app_assoc in IH. rewrite IH. done.
Qed.

Lemma header_bytes_facts h :
  header_wf h -> bytes (concat (header_fields h)) /\ zlen (concat (header_fields h)) = 713.
Proof. intros Hwf. exact (layout_bytes _ _ _ _ _ h header_layout Hwf). Qed.

Lemma reader_new_eq h rest :
  header_wf h ->
  ContainerReader.new (concat (header_fields h) ++ rest) =
  Ok (reader_at (concat (header_fields h) ++ rest) (zlen (concat (header_fields h))) h).
Proof.
  intros Hwf. destruct (header_bytes_facts h Hwf) as [_ Hl]. unfold ContainerReader.new.
  change CONTAINER_HEADER_LEN with 713. pose proof (zlen_nonneg rest).
  rewrite (proj2 (Z.ltb_ge _ _)) by (rewrite zlen_app; lia).
  rewrite slice_head by done. cbn [mbind res_bind]. rewrite (fl_dec _ _ _ _ _ header_layout) by done.
  cbn [mbind res_bind]. by rewrite Hl.
Qed.

Lemma reader_new_inv c r :
  bytes c -> ContainerReader.new c = Ok r ->
  exists rest, c = concat (header_fields (ContainerReader.header r)) ++ rest /\
    header_wf (ContainerReader.header r) /\
    r = reader_at c (zlen (concat (header_fields (ContainerReader.header r)))) (ContainerReader.header r).
Proof.
  intros Hb H. unfold ContainerReader.new in H. change CONTAINER_HEADER_LEN with 713 in H.
  destruct (Z.ltb_spec (zlen c) 713) as [|Hl]; [done|].
  destruct (split_at c 713 ltac:(lia)) as (l & rest & -> & Hl'). apply Forall_app in Hb as [Hb _].
  rewrite slice_head in H by done. cbn [mbind res_bind] in H.
  apply res_bind_ok in H as (h & Hd & H). injection H as <-. cbn [ContainerReader.header].
  destruct (layout_dec_canonical header_sizes _ _ _ _ ltac:(sizes_pos) header_layout l h Hb Hd) as [Hwf <-].
  exists rest. by rewrite Hl'.
Qed.

Lemma read_frames_inv fuel pre rest h fs r' :
  bytes rest -> read_frames fuel (reader_at (pre ++ rest) (zlen pre) h) = Some (Ok (fs, r')) ->
  exists rs tail, rest = frames_bytes rs ++ tail /\ Forall record_wf rs /\ fs = frame_of <$> rs /\
    r' = reader_at (pre ++ rest) (zlen (pre ++ frames_bytes rs)) h /\
    (tail = [] \/ (5 <= zlen tail /\ starts_with tail FOOTER_MAGIC = true)).
Proof.
  revert pre rest fs. induction fuel as [|fuel IH]; intros pre rest fs Hb H; [done|]. cbn [read_frames] in H.
  destruct (ContainerReader.next_frame _) as [[[f|] r0]|e|] eqn:Hn; try done;
    apply next_frame_inv in Hn; try done.
  - destruct Hn as (r & more & -> & Hr & -> & ->). rewrite app_assoc in H.
    apply Forall_app in Hb as [_ Hb].
    destruct (read_frames fuel _) as [[[fs' r'']| |]|] eqn:Hf; try done. injection H as <- <-.
    destruct (IH _ _ _ Hb Hf) as (rs & tail & -> & Hrs & -> & -> & Ht).
    exists (r :: rs), tail. rewrite frames_bytes_cons, <- !app_assoc. split_and!; try done. by constructor.
  - destruct Hn as [-> Ht]. injection H as <- <-. exists [], rest. split_and!; try done. by rewrite app_nil_r.
Qed.

Lemma take_prefixed_bounds input pos s e :
  bytes input -> take_prefixed input pos = Ok (s, e) -> bytes s /\ 0 <= e <= zlen input.
Proof.
  intros Hb H. unfold take_prefixed in H. cbv zeta in H. inv_ok.
  match goal with H : get_range _ (pos + 2) _ = Some _ |- _ =>
    apply get_range_split in H as (l1 & l3 & -> & Hl1 & Hs) end.
  split; [by split_forall|]. rewrite !zlen_app. pose proof (zlen_nonneg l1).
  pose proof (zlen_nonneg l3). pose proof (zlen_nonneg s). lia.
Qed.

Lemma decode_footer_no_panic l : bytes l -> decode_footer l <> Panic.
Proof.
  intros Hb. unfold decode_footer. cbv zeta. change (zlen FOOTER_MAGIC) with 4.
  destruct (_ || _); [done|].
  pose proof (cc_dec_no_panic _ _ _ _ (layout_codec manifest_sizes _ _ _ _ ltac:(sizes_pos) manifest_layout)) as N1.
  pose proof (cc_dec_no_panic _ _ _ _ (layout_codec [64] _ _ _ _ ltac:(sizes_pos) manifest_signature_layout)) as N2.
  pose proof (cc_dec_no_panic _ _ _ _ (layout_codec seal_sizes _ _ _ _ ltac:(sizes_pos) seal_layout)) as N3.
  pose proof (cc_dec_no_panic _ _ _ _ (layout_codec ledger_sizes _ _ _ _ ltac:(sizes_pos) ledger_layout)) as N4.
  do 5 (apply bind_no_panic; [apply take_prefixed_no_panic|]; intros [? ?] [? ?]%take_prefixed_bounds; [|done];
        apply bind_no_panic; [auto|]; intros ? _).
  match goal with H : 0 <= ?e <= zlen l |- context [slice l ?e _] =>
    destruct (split_at l e H) as (before & tail & -> & <-) end.
  rewrite slice_tail by done. cbn [mbind res_bind]. unfold CONTAINER_DIGEST_LEN.
  destruct (Z.ltb_spec DIGEST_LEN (zlen tail)); [done|].
  destruct (Z.ltb_spec (zlen tail) DIGEST_LEN); [done|].
  by rewrite try_into_exact by lia.
Qed.

Lemma read_frames_total fuel pre rest h :
  bytes rest -> zlen rest < Z.of_nat fuel ->
  exists o, read_frames fuel (reader_at (pre ++ rest) (zlen pre) h) = Some o /\ o <> Panic.
Proof.
  revert pre rest. induction fuel as [|fuel IH]; intros pre rest Hb Hf.
  { pose proof (zlen_nonneg rest). lia. }
  cbn [read_frames]. pose proof (next_frame_no_panic pre rest h Hb) as Hnp.
  destruct (ContainerReader.next_frame _) as [[[f|] r0]|e|] eqn:Hn; [|by eexists|by eexists|done].
  apply next_frame_inv in Hn as (r & more & -> & Hr & -> & ->); [|done].
  destruct (frame_bytes_facts r Hr) as [_ Hl]. apply Forall_app in Hb as [_ Hb].
  rewrite zlen_app in Hf. pose proof (zlen_nonneg r.2). pose proof (zlen_nonneg more).
  rewrite app_assoc. destruct (IH (pre ++ frame_bytes r) more Hb ltac:(lia)) as (o & -> & Ho).
  destruct o as [[]|e|]; [by eexists|by eexists|done].
Qed.

Lemma take_prefix (l l1 l2 : list Z) : l = l1 ++ l2 -> take (Z.to_nat (zlen l1)) l = l1.
Proof. intros ->. by apply take_zlen_app. Qed.

(** ** Properties *)

(** Reading inverts writing: of the concatenation of a header, any legal record
    frames, a footer and a digest, the reader returns exactly that header, those frames
    in order, that footer and that digest; and the three boundaries it reports cut the
    file where the three digests end: after the host signature, after the seal and after
    the ledger commit. *)
Theorem container_read_back h rs f d :
  header_wf h -> Forall record_wf rs -> footer_wf f -> FixedBytes.wf d ->
  exists r r' df,
    ContainerReader.new (finalised h rs f d) = Ok r /\ ContainerReader.header r = h /\
    read_frames (S (length rs)) r = Some (Ok (frame_of <$> rs, r')) /\
    ContainerReader.footer r' =
      Ok (df, reader_at (finalised h rs f d) (zlen (finalised h rs f d)) h) /\
    DecodedFooter.footer df = f /\ DecodedFooter.final_container_digest df = d /\
    take (Z.to_nat (DecodedFooter.sealed_prefix_end df)) (finalised h rs f d) =
      interrupted h rs ++ sealed_prefix f /\
    take (Z.to_nat (DecodedFooter.seal_end df)) (finalised h rs f d) =
      interrupted h rs ++ sealed_record f /\
    take (Z.to_nat (DecodedFooter.ledger_end df)) (finalised h rs f d) =
      interrupted h rs ++ footer_prefix f.
Proof.
  intros Hh Hrs Hf Hd. unfold finalised, interrupted. set (hb := concat (header_fields h)).
  rewrite <- app_assoc. eexists _, _, (decoded_of f d (zlen (hb ++ frames_bytes rs))).
  split; [by apply reader_new_eq|]. split; [done|].
  destruct (footer_lens f Hf) as (_ & _ & T3 & _). split.
  { apply read_frames_eq; [done|]. right. pose proof (zlen_nonneg (raw d)). split; [rewrite zlen_app; lia|].
    unfold footer_prefix, sealed_record, sealed_prefix. rewrite <- !app_assoc. apply starts_with_app. }
  split.
  { unfold ContainerReader.footer. cbn [ContainerReader.bytes ContainerReader.pos ContainerReader.header].
    rewrite app_assoc, slice_tail by done. cbn [mbind res_bind].
    rewrite decode_footer_eq by done. fold hb. by rewrite <- app_assoc. }
  split_and!; [done|done|..]; unfold decoded_of; cbn [DecodedFooter.sealed_prefix_end
    DecodedFooter.seal_end DecodedFooter.ledger_end]; rewrite <- zlen_app; eapply take_prefix;
    unfold footer_prefix, sealed_record; by rewrite <- !app_assoc.
Qed.

(** A container without a footer is a valid interrupted prefix: the reader returns its
    header and every frame, ends exactly at the end of the file, and reports no footer. *)
Theorem container_interrupted h rs :
  header_wf h -> Forall record_wf rs ->
  exists r,
    ContainerReader.new (interrupted h rs) = Ok r /\ ContainerReader.header r = h /\
    read_frames (S (length rs)) r =
      Some (Ok (frame_of <$> rs, reader_at (interrupted h rs) (zlen (interrupted h rs)) h)) /\
    ContainerReader.has_footer (reader_at (interrupted h rs) (zlen (interrupted h rs)) h) = Ok false.
Proof.
  intros Hh Hrs. unfold interrupted. eexists. split; [by apply reader_new_eq|]. split; [done|]. split.
  - pose proof (read_frames_eq (concat (header_fields h)) rs [] h Hrs ltac:(by left)) as H.
    by rewrite app_nil_r in H.
  - unfold ContainerReader.has_footer. cbn [ContainerReader.bytes ContainerReader.pos].
    set (l := _ ++ _). pose proof (slice_tail (E:=ProtocolError) l [] (zlen l) (zlen (l ++ [])) eq_refl eq_refl) as H.
    rewrite app_nil_r in H. by rewrite H.
Qed.

(** C35: The reader accepts nothing else: whatever bytes a file holds, opening it, walking
    its frames (with fuel beyond its length, which the walk never exhausts) and decoding
    its footer never panics; if the walk succeeds the file begins with a well-formed
    header followed by exactly the reported legal frames, and it either ends there or
    continues with the footer magic; and if the footer decodes the file is a finalised
    container. *)
Theorem container_reader_strict c :
  bytes c ->
  ContainerReader.new c <> Panic /\
  forall r, ContainerReader.new c = Ok r ->
  exists o, read_frames (S (length c)) r = Some o /\ o <> Panic /\
  forall fs r', o = Ok (fs, r') ->
  exists rs tail, c = interrupted (ContainerReader.header r) rs ++ tail /\
    header_wf (ContainerReader.header r) /\ Forall record_wf rs /\ fs = frame_of <$> rs /\
    (tail = [] \/ starts_with tail FOOTER_MAGIC = true) /\
    ContainerReader.footer r' <> Panic /\
    (forall df r'', ContainerReader.footer r' = Ok (df, r'') ->
       exists f d, footer_wf f /\ FixedBytes.wf d /\
         c = finalised (ContainerReader.header r) rs f d /\
         df = decoded_of f d (zlen (interrupted (ContainerReader.header r) rs))).
Proof.
  intros Hb. split.
  { unfold ContainerReader.new. change CONTAINER_HEADER_LEN with 713.
    destruct (Z.ltb_spec (zlen c) 713) as [|Hl]; [done|].
    destruct (split_at c 713 ltac:(lia)) as (l & rest & -> & Hl').
    rewrite slice_head by done. cbn [mbind res_bind]. apply Forall_app in Hb as [Hb _].
    pose proof (cc_dec_no_panic _ _ _ _ (layout_codec header_sizes _ _ _ _ ltac:(sizes_pos) header_layout)).
    no_panic. }
  intros r Hr. destruct (reader_new_inv c r Hb Hr) as (rest & Hc & Hwf & Hr').
  set (h := ContainerReader.header r) in *. clearbody h. rewrite Hc in Hb. apply Forall_app in Hb as [_ Hb].
  destruct (read_frames_total (S (length c)) (concat (header_fields h)) rest h Hb) as (o & Ho & Hnp).
  { rewrite Hc. unfold zlen. rewrite length_app. lia. }
  rewrite <- Hc in Ho. exists o. split; [by rewrite Hr'|]. split; [done|].
  intros fs r' ->. rewrite Hc in Ho. rewrite Hc. destruct (read_frames_inv _ _ _ _ _ _ Hb Ho) as (rs & tail & -> & Hrs & -> & -> & Ht).
  exists rs, tail. unfold interrupted, finalised. rewrite app_assoc.
  apply Forall_app in Hb as [_ Hbt].
  assert (slice (E:=ProtocolError) ((concat (header_fields h) ++ frames_bytes rs) ++ tail)
    (zlen (concat (header_fields h) ++ frames_bytes rs))
    (zlen ((concat (header_fields h) ++ frames_bytes rs) ++ tail)) = Ok tail) as Hsl by (by apply slice_tail).
  split_and!; [done|done|done|done|by destruct Ht as [?|[_ ?]]; auto|..].
  - unfold ContainerReader.footer. cbn [ContainerReader.bytes ContainerReader.pos]. rewrite Hsl.
    cbn [mbind res_bind]. pose proof (decode_footer_no_panic tail Hbt). no_panic.
  - intros df r'' Hf. unfold ContainerReader.footer in Hf.
    cbn [ContainerReader.bytes ContainerReader.pos ContainerReader.header] in Hf.
    rewrite Hsl in Hf. cbn [mbind res_bind] in Hf. apply res_bind_ok in Hf as (df0 & Hd & Hf).
    apply decode_footer_canonical in Hd as (f & d & Hfw & Hdw & -> & ->); [|done].
    injection Hf as <- _. by exists f, d.
Qed.

(** ** An instance *)

Definition example_hello : AuditHello.t :=
  AuditHello.new AuditRole.Controller (zero_of _) (zero_of _) (zero_of _) 7 (zero_of _) (zero_of _)
    AUDIT_FORMAT_VERSION (zero_of _) (zero_of _).

Definition example_header : AuditContainerHeader.t :=
  AuditContainerHeader.new AuditRole.Host (zero_of _) (zero_of _) (zero_of _) (zero_of _) (zero_of _)
    7 (zero_of _) 1700000000 AuthMode.Enterprise (zero_of _) example_hello (example_ready (zero_of _)).

Definition example_snapshot : SharedSnapshot.t :=
  SharedSnapshot.new (replicate 4 (StreamSnapshot.new 5 (zero_of _))).

Definition example_manifest : JointManifest.t :=
  JointManifest.new AUDIT_FORMAT_VERSION (zero_of _) (zero_of _) (zero_of _) (zero_of _) (zero_of _)
    (zero_of _) (zero_of _) example_snapshot (ManifestEnding.ShellExit 130) true 2.

Definition example_seal : LocalRecordSeal.t :=
  LocalRecordSeal.new (zero_of _) AuditRole.Host (zero_of _) 9 (replicate 4 (zero_of _)) (zero_of _)
    (zero_of _) (zero_of _).

Definition example_commit : LedgerCommit.t :=
  LedgerCommit.new 8 (zero_of _) (zero_of _) (zero_of _) (zero_of _) (zero_of _) SessionResult.Normal
    (zero_of _).

Definition example_footer : AuditContainerFooter.t :=
  AuditContainerFooter.Mk example_manifest (ManifestSignature.new (zero_of _))
    (ManifestSignature.new (zero_of _)) example_seal example_commit.

Definition example_records : list record :=
  [(RecordType.LocalRawOutput, [0x68; 0x69]); (RecordType.LocalCloseEvent, [])].

Lemma example_header_wf : header_wf example_header.
Proof. unfold header_wf, hello_wf, ready_wf. split_and!; first [apply zero_of_wf | done | cbn; lia]. Qed.

Lemma example_records_wf : Forall record_wf example_records.
Proof. repeat constructor; unfold is_u8; lia. Qed.

Lemma example_manifest_wf : manifest_wf example_manifest.
Proof.
  assert (SharedSnapshot.wf example_snapshot) as Hsn.
  { split; [reflexivity|]. apply Forall_replicate. split; [unfold is_u64; cbn; lia|apply zero_of_wf]. }
  assert (ManifestEnding.wf (ManifestEnding.ShellExit 130)) as He by (cbn; unfold is_u32; lia).
  assert (is_u64 2) as H2 by (unfold is_u64; lia).
  unfold manifest_wf. refine (conj eq_refl (conj (zero_of_wf _) (conj (zero_of_wf _) (conj (zero_of_wf _)
    (conj (zero_of_wf _) (conj (zero_of_wf _) (conj (zero_of_wf _) (conj (zero_of_wf _)
    (conj Hsn (conj He H2)))))))))).
Qed.

Lemma example_footer_wf : footer_wf example_footer.
Proof.
  assert (is_u64 9 /\ is_u64 8) as [H9 H8] by (unfold is_u64; lia).
  assert (roots_wf (replicate 4 (zero_of _))) as Hr.
  { eexists _, _, _, _. split; [reflexivity|]. split_and!; apply zero_of_wf. }
  assert (seal_wf example_seal) as Hs.
  { unfold seal_wf. refine (conj (zero_of_wf _) (conj (zero_of_wf _) (conj H9 (conj Hr
      (conj (zero_of_wf _) (conj (zero_of_wf _) (zero_of_wf _))))))). }
  assert (ledger_wf example_commit) as Hl.
  { unfold ledger_wf. refine (conj H8 (conj (zero_of_wf _) (conj (zero_of_wf _) (conj (zero_of_wf _)
      (conj (zero_of_wf _) (conj (zero_of_wf _) (zero_of_wf _))))))). }
  exact (conj example_manifest_wf (conj (zero_of_wf _) (conj (zero_of_wf _) (conj Hs Hl)))).
Qed.

Lemma container_read_back_witness :
  exists r, ContainerReader.new
      (finalised example_header example_records example_footer (zero_of _)) = Ok r /\
    ContainerReader.header r = example_header.
Proof.
  destruct (container_read_back example_header example_records example_footer (zero_of _)
    example_header_wf example_records_wf example_footer_wf (zero_of_wf _)) as (r & _ & _ & H1 & H2 & _).
  exists r. exact (conj H1 H2).
Defined.

Lemma container_interrupted_witness :
  exists r, ContainerReader.new (interrupted example_header example_records) = Ok r /\
    ContainerReader.header r = example_header.
Proof.
  destruct (container_interrupted example_header example_records example_header_wf example_records_wf)
    as (r & H1 & H2 & _).
  exists r. exact (conj H1 H2).
Defined.

Lemma example_bytes : bytes (interrupted example_header example_records).
Proof.
  apply Forall_app. split; [apply (header_bytes_facts _ example_header_wf)|].
  apply bytes_concat. apply Forall_fmap. eapply Forall_impl; [exact example_records_wf|].
  intros r Hr. apply (frame_bytes_facts r Hr).
Qed.

Lemma container_reader_strict_witness :
  exists r o, ContainerReader.new (interrupted example_header example_records) = Ok r /\
    read_frames (S (length (interrupted example_header example_records))) r = Some o /\ o <> Panic.
Proof.
  pose proof (reader_new_eq example_header (frames_bytes example_records) example_header_wf) as Hn.
  destruct (container_reader_strict _ example_bytes) as [_ H].
  destruct (H _ Hn) as (o & Ho & Hp & _). eexists _, o. exact (conj Hn (conj Ho Hp)).
Defined.

(** The header codec is canonical: a well-formed header fills exactly its 713 bytes
    and is read back, and only such an encoding is accepted, so a wrong magic, version,
    role or mode and a malformed embedded handshake message are all rejected. *)
Theorem container_header_codec :
  codec_correct (fun h => WireBytes.as_slice <$> AuditContainerHeader.encode h)
    AuditContainerHeader.decode header_wf CONTAINER_HEADER_LEN.
Proof. exact (layout_codec header_sizes _ _ _ _ ltac:(sizes_pos) header_layout). Qed.
