(* ===== verification/AuditWriter.v ===== *)
(** * The audit record writer

    The writer task of [crates/yon/src/audit/writer.rs]: one task owns the record file,
    processes one request at a time, hashes every byte it writes and answers each request.
    The trait [AsyncFile] is the class of the same name; the laws it is used under are
    those of an append-only file whose writes may fail half way.  [Sha256] is a parameter:
    a hasher is the bytes it has absorbed.

    The properties say that the file is at every moment the concatenation of what the
    acknowledged requests stand for (plus, after a failure, a prefix of the request that
    failed), in an order that an explicit automaton accepts, and that [ContainerReader]
    reads a finished file back with the digests the writer reported. *)

From stdpp Require Import strings.
From S2P Require Import Prelude Domain Codec WireRegistry Layout WireAudit AuditCodecs AuditSigning AuditContainer ContainerCodecs.
Open Scope string_scope.
Open Scope list_scope.
Open Scope Z_scope.

(** ** Errors *)

Section Writer.
Context {IoError : Type}.

(** [AuditError] of [audit/session.rs]; [IoError] is [io::Error]. *)
Inductive AuditError :=
| RandomSource
| IdentityMissing | IdentityInvalid | IdentityPermissions
| LedgerInvalid | LedgerConflict
| DirectoryUnavailable (e : IoError)
| RecordCreateFailed (e : IoError)
| RecordWriteFailed (e : IoError)
| RecordSyncFailed (e : IoError)
| ProtocolUnsupported (message : string)
| HandshakeInvalid | SessionBindingMismatch | CheckpointMismatch | PeerSignatureInvalid
| FinalManifestMismatch | LedgerCommitFailed | ReplayUnsafe | ContainerInvalid
| Protocol (e : ProtocolError)
| Substream (e : IoError)
| SegmentTooLarge
| InvalidState (message : string)
| FailedClosed
| WriterTerminated.

Definition is_fatal (self : AuditError) : bool :=
  match self with
  | DirectoryUnavailable _ | RecordCreateFailed _ | RecordWriteFailed _ | RecordSyncFailed _ => true
  | _ => false
  end.

(** ** The file *)

(** The trait [AsyncFile]; [contents] is what a later reader of the file sees. *)
Class AsyncFile (F : Type) := {
  write_all : F -> list Z -> option IoError * F;
  sync_all : F -> option IoError * F;
  contents : F -> list Z;
}.

Class AsyncFileLaws (F : Type) `{AsyncFile F} : Prop := {
  write_all_ok f b f' : write_all f b = (None, f') -> contents f' = (contents f ++ b);
  write_all_err f b e f' : write_all f b = (Some e, f') ->
    exists p, p `prefix_of` b /\ contents f' = (contents f ++ p);
  sync_all_keeps f o f' : sync_all f = (o, f') -> contents f' = contents f;
}.

Context {F : Type} `{AsyncFile F}.
(** [Sha256]: the digest of the absorbed bytes. *)
Context (sha256 : list Z -> list Z).

(** ** The writer's state and its monad *)

Inductive WriterPhase := Initializing | Recording | Finalizing | Finished.

#[export] Instance WriterPhase_eq_dec : EqDecision WriterPhase.
Proof. solve_decision. Defined.

Record state := St { file : F; hasher : list Z; phase : WriterPhase }.

(** Computations that read and change the state and may fail; the state survives a
    failure. *)
Definition M (A : Type) : Type := state -> res AuditError A * state.

Definition ret {A} (a : A) : M A := fun s => (Ok a, s).
Definition throw {A} (e : AuditError) : M A := fun s => (Err e, s).
Definition bind {A B} (m : M A) (k : A -> M B) : M B := fun s =>
  match m s with
  | (Ok a, s') => k a s'
  | (Err e, s') => (Err e, s')
  | (Panic, s') => (Panic, s')
  end.
Definition lift {A} (r : res AuditError A) : M A := fun s => (r, s).
Definition get_phase : M WriterPhase := fun s => (Ok (phase s), s).
Definition set_phase (p : WriterPhase) : M unit := fun s => (Ok tt, St (file s) (hasher s) p).
(** [hasher.clone().finalize()]. *)
Definition finalize : M Digest32 := fun s => (Ok (FixedBytes.new (sha256 (hasher s))), s).

Local Notation "x <~ m ;; k" := (bind m (fun x => k)) (at level 100, m at next level, right associativity).
Local Notation "m ;;; k" := (bind m (fun _ => k)) (at level 100, right associativity).

Definition write_bytes (bytes : list Z) : M unit := fun s =>
  match write_all (file s) bytes with
  | (None, f) => (Ok tt, St f (hasher s ++ bytes) (phase s))
  | (Some e, f) => (Err (RecordWriteFailed e), St f (hasher s) (phase s))
  end.

Definition sync_file : M unit := fun s =>
  match sync_all (file s) with
  | (None, f) => (Ok tt, St f (hasher s) (phase s))
  | (Some e, f) => (Err (RecordSyncFailed e), St f (hasher s) (phase s))
  end.

Definition write_prefixed (bytes : list Z) : M unit :=
  if zlen bytes <? 2 ^ 16 then
    write_bytes (to_be_bytes 2 (zlen bytes)) ;;;
    write_bytes bytes
  else throw (InvalidState "footer component exceeds the u16 length bound").

Definition validate_record_payload (record_type : RecordType.t) (payload_len : Z)
  : res AuditError unit :=
  if MAX_RECORD_FRAME_LEN - 1 <? payload_len
  then Err (InvalidState "record payload exceeds the container frame bound") else
  let frame_len := 1 + as_u32 payload_len in
  map_err (fun _ => InvalidState "record frame exceeds the container bound")
    (validate_frame_len record_type frame_len).

(** ** The requests *)

Inductive Request :=
| Initialize (header : list Z)
| Append (record_type : RecordType.t) (payload : list Z)
| Sync
| WriteManifestAndSignatures (manifest controller host : list Z)
| WriteSeal (seal : list Z)
| WriteLedgerCommit (commit : list Z).

Definition run_initialize (header : list Z) : M unit :=
  p <~ get_phase ;;
  if bool_decide (p <> Initializing) then throw (InvalidState "the header is already initialized") else
  (write_bytes header ;;;
   sync_file ;;;
   set_phase Recording).

Definition run_append (record_type : RecordType.t) (payload : list Z) : M unit :=
  p <~ get_phase ;;
  match p with
  | Initializing => throw (InvalidState "records cannot be appended before the header")
  | Finished | Finalizing =>
    throw (InvalidState "records cannot be appended after finalization started")
  | Recording =>
    lift (validate_record_payload record_type (zlen payload)) ;;;
    (let frame_len := 1 + as_u32 (zlen payload) in
     let frame_header := encode_frame_header frame_len in
     write_bytes frame_header ;;;
     write_bytes [RecordType.code record_type] ;;;
     write_bytes payload)
  end.

Definition run_sync : M unit :=
  p <~ get_phase ;;
  if bool_decide (p = Initializing) then throw (InvalidState "nothing to sync before the header")
  else sync_file.

Definition run_write_manifest_and_signatures (manifest controller host : list Z) : M Digest32 :=
  p <~ get_phase ;;
  if bool_decide (p <> Recording)
  then throw (InvalidState "the manifest must be written before the seal and after the header") else
  (write_bytes FOOTER_MAGIC ;;;
   write_prefixed manifest ;;;
   write_prefixed controller ;;;
   write_prefixed host ;;;
   set_phase Finalizing ;;;
   finalize).

Definition run_write_seal (seal : list Z) : M Digest32 :=
  p <~ get_phase ;;
  if bool_decide (p <> Finalizing)
  then throw (InvalidState "the seal must follow the manifest and both signatures") else
  (write_prefixed seal ;;;
   finalize).

Definition run_write_ledger_commit (commit : list Z) : M unit :=
  p <~ get_phase ;;
  if bool_decide (p <> Finalizing) then throw (InvalidState "the ledger commit must follow the seal") else
  (write_prefixed commit ;;;
   digest <~ finalize ;;
   write_bytes (raw digest) ;;;
   sync_file ;;;
   set_phase Finished).

(** ** The task *)

(** What is sent on the reply channel of a request. *)
Inductive Reply := Done (r : res AuditError unit) | Digest (r : res AuditError Digest32).

Record task := Task { st : state; failed : option AuditError }.

Definition poison {A} (r : res AuditError A) : option AuditError :=
  match r with Err e => if is_fatal e then Some e else None | _ => None end.

(** [reject]: the reply of a poisoned writer. *)
Definition reject (request : Request) (error : AuditError) : Reply :=
  match request with
  | Initialize _ | Append _ _ | Sync | WriteLedgerCommit _ => Done (Err error)
  | WriteManifestAndSignatures _ _ _ | WriteSeal _ => Digest (Err error)
  end.

(** The tail of each arm of [writer_task]: poison on a fatal error, then reply. *)
Definition answer_unit (t : task) (m : M unit) : Reply * task :=
  let '(r, s) := m (st t) in (Done r, Task s (poison r)).
Definition answer_digest (t : task) (m : M Digest32) : Reply * task :=
  let '(r, s) := m (st t) in (Digest r, Task s (poison r)).

(** One iteration of [writer_task]. *)
Definition serve (t : task) (request : Request) : Reply * task :=
  match failed t with
  | Some error => (reject request error, t)
  | None =>
    match request with
    | Initialize header => answer_unit t (run_initialize header)
    | Append record_type payload => answer_unit t (run_append record_type payload)
    | Sync => answer_unit t run_sync
    | WriteManifestAndSignatures manifest controller host =>
      answer_digest t (run_write_manifest_and_signatures manifest controller host)
    | WriteSeal seal => answer_digest t (run_write_seal seal)
    | WriteLedgerCommit commit => answer_unit t (run_write_ledger_commit commit)
    end
  end.

(** [writer_task] over the requests it receives, with the replies it sends. *)
Fixpoint writer_task (t : task) (requests : list Request) : list Reply * task :=
  match requests with
  | [] => ([], t)
  | request :: rest =>
    let '(reply, t') := serve t request in
    let '(replies, t'') := writer_task t' rest in
    (reply :: replies, t'')
  end.

Definition start_task (f : F) : task := Task (St f [] Initializing) None.

(** ** The log that a file stands for *)

(** The bytes that an accepted request adds to a file that holds [so_far]. *)
Definition emit (so_far : list Z) (r : Request) : list Z :=
  match r with
  | Initialize header => header
  | Append record_type payload => frame_bytes (record_type, payload)
  | Sync => []
  | WriteManifestAndSignatures manifest controller host =>
    FOOTER_MAGIC ++ prefixed manifest ++ prefixed controller ++ prefixed host
  | WriteSeal seal => prefixed seal
  | WriteLedgerCommit commit => prefixed commit ++ sha256 (so_far ++ prefixed commit)
  end.

Definition render (log : list Request) : list Z := foldl (fun b r => b ++ emit b r) [] log.

(** The order of requests that the phases admit. *)
Definition next_phase (p : WriterPhase) (r : Request) : option WriterPhase :=
  match p, r with
  | Initializing, Initialize _ => Some Recording
  | Recording, Append t payload =>
    if is_ok (validate_record_payload t (zlen payload)) then Some Recording else None
  | Recording, Sync => Some Recording
  | Recording, WriteManifestAndSignatures _ _ _ => Some Finalizing
  | Finalizing, Sync => Some Finalizing
  | Finalizing, WriteSeal _ => Some Finalizing
  | Finalizing, WriteLedgerCommit _ => Some Finished
  | Finished, Sync => Some Finished
  | _, _ => None
  end.

Fixpoint phases (p : WriterPhase) (log : list Request) : option WriterPhase :=
  match log with
  | [] => Some p
  | r :: rest => match next_phase p r with Some p' => phases p' rest | None => None end
  end.

Definition reply_ok (y : Reply) : bool :=
  match y with Done r => is_ok r | Digest r => is_ok r end.

(** The requests that were answered with success. *)
Fixpoint acknowledged (requests : list Request) (replies : list Reply) : list Request :=
  match requests, replies with
  | r :: requests, y :: replies =>
    if reply_ok y then r :: acknowledged requests replies else acknowledged requests replies
  | _, _ => []
  end.

(** Footer components fit their length prefix, as every encoded component does. *)
Definition request_wf (r : Request) : Prop :=
  match r with
  | WriteManifestAndSignatures m c h => zlen m < 2 ^ 16 /\ zlen c < 2 ^ 16 /\ zlen h < 2 ^ 16
  | WriteSeal s => zlen s < 2 ^ 16
  | WriteLedgerCommit c => zlen c < 2 ^ 16
  | _ => True
  end.

(** ** What one computation does to the file *)

Context `{!AsyncFileLaws F}.

(** The hasher has absorbed exactly the file. *)
Definition coherent (s : state) : Prop := contents (file s) = hasher s.

(** [m] adds [b h] to a file that holds [h] and moves the phase by [g], or fails fatally
    after a prefix of it. *)
Definition emits {A} (m : M A) (b : list Z -> list Z) (g : WriterPhase -> WriterPhase) : Prop :=
  forall s, coherent s ->
  match m s with
  | (Ok _, s') => coherent s' /\ hasher s' = hasher s ++ b (hasher s) /\ phase s' = g (phase s)
  | (Err e, s') => is_fatal e = true /\
      exists p, p `prefix_of` b (hasher s) /\ contents (file s') = hasher s ++ p
  | (Panic, _) => False
  end.

Lemma emits_bind {A B} (m : M A) (k : A -> M B) b1 b2 g1 g2 :
  emits m b1 g1 -> (forall a, emits (k a) b2 g2) ->
  emits (bind m k) (fun h => b1 h ++ b2 (h ++ b1 h)) (fun p => g2 (g1 p)).
Proof.
  intros Hm Hk s Hs. specialize (Hm s Hs). unfold bind. destruct (m s) as [[a|e|] s']; [..|done].
  - destruct Hm as (Hc & Hh & Hp). specialize (Hk a s' Hc).
    destruct (k a s') as [[a'|e|] s'']; [..|done]; rewrite Hh in Hk.
    + destruct Hk as (? & -> & ->). rewrite Hp. by rewrite <- app_assoc.
    + destruct Hk as (? & p & Hpre & ->). split; [done|]. exists (b1 (hasher s) ++ p).
      split; [by apply prefix_app|]. by rewrite <- app_assoc.
  - destruct Hm as (? & p & Hpre & ->). split; [done|]. exists p. split; [|done].
    by apply prefix_app_r.
Qed.

Lemma emits_ext {A} (m : M A) b b' g g' :
  emits m b g -> (forall h, b h = b' h) -> (forall p, g p = g' p) -> emits m b' g'.
Proof. intros Hm Hb Hg s Hs. specialize (Hm s Hs). by rewrite <- Hb, <- Hg. Qed.

Lemma emits_write_bytes b : emits (write_bytes b) (fun _ => b) id.
Proof.
  intros s Hs. unfold write_bytes. destruct (write_all (file s) b) as [[e|] f] eqn:Hw; cbn.
  - destruct (write_all_err _ _ _ _ Hw) as (p & Hp & ->). rewrite Hs. eauto.
  - unfold coherent. cbn. by rewrite (write_all_ok _ _ _ Hw), Hs.
Qed.

Lemma emits_sync : emits sync_file (fun _ => []) id.
Proof.
  intros s Hs. unfold sync_file. destruct (sync_all (file s)) as [[e|] f] eqn:Hw; cbn.
  - rewrite (sync_all_keeps _ _ _ Hw), Hs. split; [done|]. exists []. by rewrite app_nil_r.
  - unfold coherent. cbn. by rewrite (sync_all_keeps _ _ _ Hw), Hs, app_nil_r.
Qed.

Lemma emits_set_phase p : emits (set_phase p) (fun _ => []) (fun _ => p).
Proof. intros s Hs. cbn. by rewrite app_nil_r. Qed.

Lemma emits_finalize : emits finalize (fun _ => []) id.
Proof. intros s Hs. cbn. by rewrite app_nil_r. Qed.

Lemma emits_prefixed b : zlen b < 2 ^ 16 -> emits (write_prefixed b) (fun _ => prefixed b) id.
Proof.
  intros Hb. unfold write_prefixed. rewrite (proj2 (Z.ltb_lt _ _)) by done.
  eapply emits_ext; [apply emits_bind; [apply emits_write_bytes|intros _; apply emits_write_bytes]|done|done].
Qed.

(** The digest that follows the commit. *)
Lemma emits_final_digest :
  emits (bind finalize (fun d => write_bytes (raw d))) (fun h => sha256 h) id.
Proof. intros s Hs. exact (emits_write_bytes (sha256 (hasher s)) s Hs). Qed.

(** *** One request *)

(** The two outcomes of a request that the order admits. *)
Definition served (t : task) (r : Request) (p' : WriterPhase) (y : Reply) (t' : task) : Prop :=
  (reply_ok y = true /\ failed t' = None /\ coherent (st t') /\
   hasher (st t') = hasher (st t) ++ emit (hasher (st t)) r /\ phase (st t') = p' /\
   match y with Digest (Ok d) => raw d = sha256 (hasher (st t')) | _ => True end) \/
  (exists e p, y = reject r e /\ is_fatal e = true /\ failed t' = Some e /\
   p `prefix_of` emit (hasher (st t)) r /\ contents (file (st t')) = hasher (st t) ++ p).

Lemma served_unit t r p' (m m' : M unit) g :
  m (st t) = m' (st t) ->
  coherent (st t) -> emits m' (fun h => emit h r) g -> g (phase (st t)) = p' ->
  (forall e, reject r e = Done (Err e)) ->
  served t r p' (answer_unit t m).1 (answer_unit t m).2.
Proof.
  intros Heq Hc Hm Hp Hr. specialize (Hm _ Hc). unfold answer_unit. rewrite Heq.
  destruct (m' (st t)) as [[[]|e|] s']; [left|right|done].
  - destruct Hm as (? & ? & ?). cbn. by rewrite <- Hp.
  - destruct Hm as (Hf & p & ? & ?). exists e, p. cbn. rewrite Hf. by rewrite Hr.
Qed.

(** A digest request ends with [finalize]. *)
Lemma served_digest t r p' (m : M Digest32) (m' : M unit) g :
  m (st t) = bind m' (fun _ => finalize) (st t) ->
  coherent (st t) -> emits m' (fun h => emit h r) g -> g (phase (st t)) = p' ->
  (forall e, reject r e = Digest (Err e)) ->
  served t r p' (answer_digest t m).1 (answer_digest t m).2.
Proof.
  intros Heq Hc Hm Hp Hr. specialize (Hm _ Hc). unfold answer_digest. rewrite Heq. unfold bind.
  destruct (m' (st t)) as [[[]|e|] s']; [left|right|done].
  - destruct Hm as (? & ? & ?). cbn. by rewrite <- Hp.
  - destruct Hm as (Hf & p & ? & ?). exists e, p. cbn. rewrite Hf. by rewrite Hr.
Qed.

Lemma validate_payload_ok t n :
  0 <= n -> validate_record_payload t n = Ok tt -> validate_frame_len t (1 + n) = Ok tt /\ n < 2 ^ 20.
Proof.
  unfold validate_record_payload, MAX_RECORD_FRAME_LEN. intros Hn Hv.
  destruct (Z.ltb_spec (1048576 - 1) n); [done|]. rewrite as_u32_small in Hv by lia.
  apply map_err_ok in Hv. split; [done|lia].
Qed.

Lemma validate_payload_err t n e :
  validate_record_payload t n = Err e -> exists msg, e = InvalidState msg.
Proof.
  unfold validate_record_payload. destruct (_ <? _); [intros [= <-]; eauto|].
  destruct (validate_frame_len _ _); cbn; try done. intros [= <-]. eauto.
Qed.

Lemma validate_payload_no_panic t n : validate_record_payload t n <> Panic.
Proof. unfold validate_record_payload. cbv zeta. destruct (_ <? _); [done|]. no_panic. Qed.

Ltac emits_tac :=
  repeat first [apply emits_bind; [|intros ?] | apply emits_write_bytes | apply emits_sync
               |apply emits_set_phase | apply emits_finalize | apply emits_prefixed; done].

Lemma serve_spec t r :
  failed t = None -> coherent (st t) -> request_wf r ->
  match next_phase (phase (st t)) r with
  | None => exists msg, serve t r = (reject r (InvalidState msg), t)
  | Some p' => served t r p' (serve t r).1 (serve t r).2
  end.
Proof.
  destruct t as [s fl]. cbn [failed st]. intros -> Hc Hwf.
  destruct s as [f hs ph]. cbn [phase]. unfold serve. cbn [failed].
  destruct r as [hd|ty pl| |m c h|sl|cm]; cbn in Hwf.
  - destruct ph; try by eexists. cbn [next_phase].
    apply (served_unit _ _ _ _ (write_bytes hd ;;; (sync_file ;;; set_phase Recording)) (fun _ => Recording)); try done.
    eapply emits_ext; [emits_tac|intros; cbn; by rewrite app_nil_r|done].
  - destruct ph; try by eexists. cbn [next_phase].
    destruct (validate_record_payload ty (zlen pl)) as [[]|e|] eqn:Hv; cbn [is_ok].
    + destruct (validate_payload_ok ty (zlen pl) (zlen_nonneg pl) Hv) as [_ Hlen].
      apply (served_unit _ _ _ _ (write_bytes (encode_frame_header (1 + zlen pl)) ;;;
        (write_bytes [RecordType.code ty] ;;; write_bytes pl)) id); try done.
      * unfold run_append, bind, get_phase, lift. cbn [phase st]. rewrite Hv.
        rewrite as_u32_small by (pose proof (zlen_nonneg pl); lia). done.
      * eapply emits_ext; [emits_tac|done|done].
    + destruct (validate_payload_err _ _ _ Hv) as [msg ->]. exists msg.
      unfold answer_unit, run_append, bind, get_phase, lift. cbn [phase st]. by rewrite Hv.
    + by destruct (validate_payload_no_panic ty (zlen pl)).
  - destruct ph; [by eexists|..];
      (apply (served_unit _ _ _ _ sync_file id); [done|done| |done|done];
       eapply emits_ext; [apply emits_sync|done|done]).
  - destruct ph; try by eexists. cbn [next_phase]. destruct Hwf as (? & ? & ?).
    apply (served_digest _ _ _ _ (write_bytes FOOTER_MAGIC ;;; (write_prefixed m ;;; (write_prefixed c ;;;
      (write_prefixed h ;;; set_phase Finalizing)))) (fun _ => Finalizing)); try done.
    + unfold run_write_manifest_and_signatures, get_phase, bind. cbn [phase st].
      rewrite bool_decide_eq_false_2 by (by intros []).
      destruct (write_bytes FOOTER_MAGIC _) as [[] ?]; [|done..].
      destruct (write_prefixed m _) as [[] ?]; [|done..].
      destruct (write_prefixed c _) as [[] ?]; [|done..]. by destruct (write_prefixed h _) as [[] ?].
    + eapply emits_ext; [emits_tac|intros; cbn; by rewrite app_nil_r|done].
  - destruct ph; try by eexists. cbn [next_phase].
    apply (served_digest _ _ _ _ (write_prefixed sl) id); try done. by apply emits_prefixed.
  - destruct ph; try by eexists. cbn [next_phase].
    apply (served_unit _ _ _ _ (write_prefixed cm ;;; ((digest <~ finalize ;; write_bytes (raw digest)) ;;;
      (sync_file ;;; set_phase Finished))) (fun _ => Finished)); try done.
    eapply emits_ext; [apply emits_bind; [by apply emits_prefixed|intros _;
        apply emits_bind; [apply emits_final_digest|intros _; emits_tac]]|intros; cbn; by rewrite app_nil_r|done].
Qed.

(** *** Sequences of requests *)

Lemma render_snoc log r : render (log ++ [r]) = render log ++ emit (render log) r.
Proof. unfold render. by rewrite foldl_app. Qed.

Lemma phases_app p log log' :
  phases p (log ++ log') = match phases p log with Some q => phases q log' | None => None end.
Proof.
  revert p. induction log as [|r log IH]; intros p; [done|]. cbn. destruct (next_phase p r); [apply IH|done].
Qed.

Lemma poisoned_task t e reqs :
  failed t = Some e -> writer_task t reqs = ((fun r => reject r e) <$> reqs, t).
Proof.
  intros He. induction reqs as [|r reqs IH]; [done|]. cbn. unfold serve. by rewrite He, IH.
Qed.

Lemma rejected_not_acknowledged e reqs : acknowledged reqs ((fun r => reject r e) <$> reqs) = [].
Proof. induction reqs as [|r reqs IH]; [done|]. cbn. by destruct r. Qed.

Lemma task_log reqs t log :
  failed t = None -> coherent (st t) -> hasher (st t) = render log ->
  phases Initializing log = Some (phase (st t)) -> Forall request_wf reqs ->
  let '(ys, t') := writer_task t reqs in
  let log' := log ++ acknowledged reqs ys in
  match failed t' with
  | None => contents (file (st t')) = render log' /\ phases Initializing log' = Some (phase (st t'))
  | Some e => is_fatal e = true /\ is_Some (phases Initializing log') /\
      exists r part, r ∈ reqs /\ part `prefix_of` emit (render log') r /\
        contents (file (st t')) = render log' ++ part
  end.
Proof.
  intros Hf Hc Hh Hp Hwf. revert t log Hf Hc Hh Hp.
  induction Hwf as [|r reqs Hr Hwf IH]; intros t log Hf Hc Hh Hp; cbn [writer_task acknowledged].
  { rewrite Hf, app_nil_r. by rewrite Hc, Hh. }
  pose proof (serve_spec t r Hf Hc Hr) as Hs.
  destruct (serve t r) as [y t1] eqn:Hy. cbn [fst snd] in Hs.
  destruct (next_phase (phase (st t)) r) as [p'|] eqn:Hn.
  - destruct Hs as [(Hok & Hf1 & Hc1 & Hh1 & Hp1 & _)|(e & p & -> & Hfa & Hf1 & Hpre & Hco)].
    + specialize (IH t1 (log ++ [r]) Hf1 Hc1).
      destruct (writer_task t1 reqs) as [ys t']. rewrite Hok, <- app_assoc in *. cbn [app] in IH.
      assert (failed t' = failed t') by done.
      destruct (failed t'); [destruct IH as (? & ? & r' & part & ? & ? & ?)|]; try done.
      * by rewrite render_snoc, Hh1, Hh.
      * by rewrite phases_app, Hp, Hp1; cbn; rewrite Hn.
      * split_and!; [done|done|]. exists r', part. split_and!; [by right|done|done].
      * apply IH; [by rewrite render_snoc, Hh1, Hh|]. by rewrite phases_app, Hp, Hp1; cbn; rewrite Hn.
    + rewrite (poisoned_task t1 e reqs Hf1). cbn [fst snd].
      rewrite Hf1. assert (reply_ok (reject r e) = false) as -> by (by destruct r).
      rewrite rejected_not_acknowledged, app_nil_r. split_and!; [done|by eexists|].
      exists r, p. rewrite <- Hh. split_and!; [by left|done|done].
  - destruct Hs as [msg [= -> ->]]. specialize (IH t log Hf Hc Hh Hp).
    destruct (writer_task t reqs) as [ys t'].
    assert (reply_ok (reject r (InvalidState msg)) = false) as -> by (by destruct r).
    destruct (failed t'); [|done]. destruct IH as (? & ? & r' & part & ? & ? & ?).
    split_and!; [done|done|]. exists r', part. split_and!; [by right|done|done].
Qed.

(** ** Properties *)

(** Each request of a healthy writer has one of three outcomes.  If the phase (or the
    frame bound) does not admit it, it is answered with an ordering error and nothing
    changes.  If it is acknowledged, the file has grown by exactly the bytes the request
    stands for, the hasher has absorbed the whole file, the phase advanced, and a digest
    reply is the digest of the file so far.  Otherwise an I/O error is reported, the file
    has grown by a prefix of those bytes, and the writer is poisoned: every later request
    is answered with that same error and the file never changes again. *)
Theorem audit_writer_request t r :
  coherent (st t) -> request_wf r ->
  match failed t with
  | Some e => serve t r = (reject r e, t)
  | None =>
    match next_phase (phase (st t)) r with
    | None => exists msg, serve t r = (reject r (InvalidState msg), t)
    | Some p' => served t r p' (serve t r).1 (serve t r).2
    end
  end.
Proof.
  intros Hc Hr. destruct (failed t) as [e|] eqn:Hf; [unfold serve; by rewrite Hf|].
  by apply serve_spec.
Qed.

(** C24: Append-before-effect for whole histories.  Starting from an empty file, after any
    sequence of requests the acknowledged ones form a log that the phase automaton
    accepts (header first, then records, then the footer components), and the file is
    exactly that log; if the writer failed, it is that log followed by a prefix of the
    request that failed, so nothing acknowledged is ever lost or reordered. *)
Theorem audit_writer_log f reqs :
  contents f = [] -> Forall request_wf reqs ->
  let '(ys, t) := writer_task (start_task f) reqs in
  let log := acknowledged reqs ys in
  match failed t with
  | None => contents (file (st t)) = render log /\ phases Initializing log = Some (phase (st t))
  | Some e => is_fatal e = true /\ is_Some (phases Initializing log) /\
      exists r part, r ∈ reqs /\ part `prefix_of` emit (render log) r /\
        contents (file (st t)) = render log ++ part
  end.
Proof. intros Hf Hwf. by apply (task_log reqs (start_task f) []). Qed.

(** ** A whole session *)

(** The requests that [AuditWriter]'s methods send. *)
Definition initialize_request (header : AuditContainerHeader.t) : res ProtocolError Request :=
  bytes ← AuditContainerHeader.encode header; Ok (Initialize (WireBytes.as_slice bytes)).
Definition manifest_request (manifest : JointManifest.t) (controller host : ManifestSignature.t)
  : res ProtocolError Request :=
  manifest ← JointManifest.encode_payload manifest;
  controller ← ManifestSignature.encode_payload controller;
  host ← ManifestSignature.encode_payload host;
  Ok (WriteManifestAndSignatures (WireBytes.as_slice manifest) (WireBytes.as_slice controller)
        (WireBytes.as_slice host)).
Definition seal_request (seal : LocalRecordSeal.t) : res ProtocolError Request :=
  seal ← LocalRecordSeal.encode_payload seal; Ok (WriteSeal (WireBytes.as_slice seal)).
Definition commit_request (commit : LedgerCommit.t) : res ProtocolError Request :=
  commit ← LedgerCommit.encode_payload commit; Ok (WriteLedgerCommit (WireBytes.as_slice commit)).

(** Header, records, footer components: what a session that ends normally sends. *)
Definition session_requests (h : AuditContainerHeader.t) (rs : list record)
    (f : AuditContainerFooter.t) : res ProtocolError (list Request) :=
  first ← initialize_request h;
  manifest ← manifest_request (AuditContainerFooter.manifest f)
               (AuditContainerFooter.controller_session_signature f)
               (AuditContainerFooter.host_session_signature f);
  seal ← seal_request (AuditContainerFooter.seal f);
  commit ← commit_request (AuditContainerFooter.ledger_commit f);
  Ok (first :: ((fun r => Append r.1 r.2) <$> rs) ++ [manifest; seal; commit]).

Lemma session_requests_eq h rs f :
  header_wf h -> footer_wf f ->
  session_requests h rs f =
  Ok (Initialize (concat (header_fields h)) :: ((fun r => Append r.1 r.2) <$> rs) ++
      [WriteManifestAndSignatures (manifest_part f) (controller_part f) (host_part f);
       WriteSeal (seal_part f); WriteLedgerCommit (ledger_part f)]).
Proof.
  intros Hh (Hm & Hc & Hho & Hs & Hl). unfold session_requests, initialize_request, manifest_request,
    seal_request, commit_request.
  destruct (embedded_payload _ _ _ _ _ h header_layout Hh) as (w & -> & Hw).
  destruct (embedded_payload _ _ _ _ _ _ manifest_layout Hm) as (w1 & -> & Hw1).
  destruct (embedded_payload _ _ _ _ _ _ manifest_signature_layout Hc) as (w2 & -> & Hw2).
  destruct (embedded_payload _ _ _ _ _ _ manifest_signature_layout Hho) as (w3 & -> & Hw3).
  destruct (embedded_payload _ _ _ _ _ _ seal_layout Hs) as (w4 & -> & Hw4).
  destruct (embedded_payload _ _ _ _ _ _ ledger_layout Hl) as (w5 & -> & Hw5).
  cbn [mbind res_bind concat] in *. rewrite app_nil_r in Hw2, Hw3.
  by rewrite Hw, Hw1, Hw2, Hw3, Hw4, Hw5.
Qed.

(** The digests that were reported, in order. *)
Definition digests (ys : list Reply) : list Digest32 :=
  omap (fun y => match y with Digest (Ok d) => Some d | _ => None end) ys.

(** A healthy writer whose hasher holds [b]. *)
Definition holds (t : task) (b : list Z) : Prop :=
  failed t = None /\ coherent (st t) /\ hasher (st t) = b.

(** Whether a request is answered with a digest. *)
Definition wants_digest (r : Request) : bool :=
  match r with WriteManifestAndSignatures _ _ _ | WriteSeal _ => true | _ => false end.

Lemma serve_ok t r b :
  holds t b -> request_wf r -> reply_ok (serve t r).1 = true ->
  holds (serve t r).2 (b ++ emit b r) /\
  digests [(serve t r).1] = if wants_digest r then [FixedBytes.new (sha256 (b ++ emit b r))] else [].
Proof.
  intros (Hf & Hc & Hb) Hr Hok. pose proof (serve_spec t r Hf Hc Hr) as Hs.
  assert (forall e, reply_ok (reject r e) = false) as Hrej by (by intros; destruct r).
  destruct (next_phase (phase (st t)) r) as [p'|];
    [|destruct Hs as [msg Hs]; rewrite Hs in Hok; cbn in Hok; by rewrite Hrej in Hok].
  destruct Hs as [(_ & Hf1 & Hc1 & Hh1 & _ & Hd)|(e & p & Hy & _)];
    [|rewrite Hy in Hok; by rewrite Hrej in Hok].
  rewrite Hb in Hh1. split; [done|]. rewrite Hh1 in Hd.
  assert (match (serve t r).1 with Done _ => false | Digest _ => true end = wants_digest r) as Hw.
  { unfold serve, answer_unit, answer_digest. rewrite Hf.
    destruct r; match goal with |- context [?m (st t)] => by destruct (m (st t)) end. }
  rewrite <- Hw. destruct (serve t r).1 as [q|q]; [done|]. destruct q as [d| |]; try done.
  destruct d as [d]. cbn in *. by subst d.
Qed.

Definition grow (b : list Z) (reqs : list Request) : list Z := foldl (fun b r => b ++ emit b r) b reqs.

Fixpoint reported (b : list Z) (reqs : list Request) : list Digest32 :=
  match reqs with
  | [] => []
  | r :: rest =>
    (if wants_digest r then [FixedBytes.new (sha256 (b ++ emit b r))] else []) ++
    reported (b ++ emit b r) rest
  end.

Lemma run_ok reqs t b :
  holds t b -> Forall request_wf reqs ->
  Forall (fun y => reply_ok y = true) (writer_task t reqs).1 ->
  holds (writer_task t reqs).2 (grow b reqs) /\ digests (writer_task t reqs).1 = reported b reqs.
Proof.
  intros Ht Hwf. revert t b Ht. induction Hwf as [|r reqs Hr Hwf IH]; intros t b Ht; [done|].
  cbn [writer_task reported]. pose proof (serve_ok t r b Ht Hr) as Hs.
  destruct (serve t r) as [y t1]. specialize (IH t1 (b ++ emit b r)).
  destruct (writer_task t1 reqs) as [ys t2]. cbn [fst snd] in *. intros [Hy Hys]%Forall_cons.
  destruct (Hs Hy) as [Ht1 Hd]. destruct (IH Ht1 Hys) as [Ht2 Hds]. split; [done|].
  rewrite <- Hds, <- Hd. by destruct y as [|[]].
Qed.

(** The appended records are the frames, and report nothing. *)
Lemma grow_appends b rs tail :
  grow b (((fun r => Append r.1 r.2) <$> rs) ++ tail) = grow (b ++ frames_bytes rs) tail /\
  reported b (((fun r => Append r.1 r.2) <$> rs) ++ tail) = reported (b ++ frames_bytes rs) tail.
Proof.
  revert b. induction rs as [|[t p] rs IH]; intros b; [by rewrite app_nil_r|].
  rewrite fmap_cons. cbn [app reported wants_digest fst snd]. unfold grow in *. cbn [foldl fst snd].
  destruct (IH (b ++ emit b (Append t p))) as [-> ->]. rewrite frames_bytes_cons.
  by rewrite <- app_assoc.
Qed.

(** The digest that ends a finished file. *)
Definition final_digest (h : AuditContainerHeader.t) (rs : list record) (f : AuditContainerFooter.t)
  : Digest32 := FixedBytes.new (sha256 (interrupted h rs ++ footer_prefix f)).

Lemma session_bytes h rs f reqs :
  header_wf h -> footer_wf f -> session_requests h rs f = Ok reqs ->
  Forall request_wf reqs /\ grow [] reqs = finalised h rs f (final_digest h rs f) /\
  reported [] reqs = [FixedBytes.new (sha256 (interrupted h rs ++ sealed_prefix f));
                      FixedBytes.new (sha256 (interrupted h rs ++ sealed_record f))].
Proof.
  intros Hh Hf Hr. rewrite session_requests_eq in Hr by done.
  apply (f_equal (fun r => match r with Ok l => l | _ => [] end)) in Hr. subst reqs.
  destruct (footer_parts f Hf) as ([_ L1] & [_ L2] & [_ L3] & [_ L4] & [_ L5]). split; [|split].
  - apply Forall_cons. split; [done|]. apply Forall_app. split.
    + apply Forall_fmap, Forall_forall. by intros [] _.
    + apply Forall_cons. split; [unfold request_wf; lia|]. apply Forall_cons. split; [unfold request_wf; lia|].
      apply Forall_cons. split; [unfold request_wf; lia|done].
  - change (grow [] (Initialize ?b :: ?l)) with (grow b l). rewrite (proj1 (grow_appends _ _ _)).
    unfold grow. cbn [foldl emit]. unfold finalised, final_digest, footer_prefix, sealed_record,
      sealed_prefix, interrupted. cbn [FixedBytes.as_bytes]. by rewrite <- !app_assoc.
  - change (reported [] (Initialize ?b :: ?l)) with (reported b l).
    rewrite (proj2 (grow_appends _ _ _)). cbn [reported wants_digest emit]. unfold sealed_record, sealed_prefix, interrupted.
    by rewrite <- !app_assoc.
Qed.

(** What the writer relies on of [Sha256]: a digest is 32 bytes. *)
Hypothesis sha256_len : forall l, is_array DIGEST_LEN (sha256 l).

(** C40: The writer and the reader agree.  If every request of a session that ends normally
    is acknowledged, the reader of the file returns the session's header, its records in
    order and its footer; the two digests the writer reported on the way are the digests
    of exactly the bytes before the reader's sealed-prefix and seal boundaries; and the
    digest stored at the end is that of everything before it. *)
Theorem audit_writer_reader f0 h rs f reqs :
  contents f0 = [] -> header_wf h -> Forall record_wf rs -> footer_wf f ->
  session_requests h rs f = Ok reqs ->
  Forall (fun y => reply_ok y = true) (writer_task (start_task f0) reqs).1 ->
  let C := contents (file (st (writer_task (start_task f0) reqs).2)) in
  exists r r' df,
    ContainerReader.new C = Ok r /\ ContainerReader.header r = h /\
    read_frames (S (length rs)) r = Some (Ok (frame_of <$> rs, r')) /\
    fst <$> ContainerReader.footer r' = Ok df /\ DecodedFooter.footer df = f /\
    digests (writer_task (start_task f0) reqs).1 =
      [FixedBytes.new (sha256 (take (Z.to_nat (DecodedFooter.sealed_prefix_end df)) C));
       FixedBytes.new (sha256 (take (Z.to_nat (DecodedFooter.seal_end df)) C))] /\
    DecodedFooter.final_container_digest df =
      FixedBytes.new (sha256 (take (Z.to_nat (DecodedFooter.ledger_end df)) C)).
Proof.
  intros Hf0 Hh Hrs Hf Hreqs Hok C.
  destruct (session_bytes h rs f reqs Hh Hf Hreqs) as (Hwf & Hgrow & Hrep).
  destruct (run_ok reqs (start_task f0) [] ltac:(done) Hwf Hok) as [(_ & Hc & Hhash) Hd].
  assert (C = finalised h rs f (final_digest h rs f)) as HC.
  { unfold C. rewrite Hc, Hhash. exact Hgrow. }
  destruct (container_read_back h rs f (final_digest h rs f) Hh Hrs Hf (sha256_len _))
    as (r & r' & df & H1 & H2 & H3 & H4 & H5 & H6 & H7 & H8 & H9).
  exists r, r', df. rewrite HC, Hd, Hrep, H4, H6, H7, H8, H9. done.
Qed.
End Writer.

(** ** A file in memory *)

Section Memory.
#[local] Instance memory_file : AsyncFile (IoError:=unit) (list Z) := {|
  write_all f b := (None, f ++ b); sync_all f := (None, f); contents f := f |}.
#[local] Instance memory_file_laws : AsyncFileLaws (IoError:=unit) (list Z).
Proof. constructor; cbn; by intros; simplify_eq. Qed.

Definition zero_sha256 (l : list Z) : list Z := zeros DIGEST_LEN.

Lemma zero_sha256_len l : is_array DIGEST_LEN (zero_sha256 l).
Proof. split; [apply bytes_zeros|done]. Qed.

Definition example_requests : list Request :=
  match session_requests example_header example_records example_footer with Ok l => l | _ => [] end.

Lemma audit_writer_reader_witness :
  exists reqs r, session_requests example_header example_records example_footer = Ok reqs /\
    ContainerReader.new (contents (file (st (writer_task zero_sha256 (start_task []) reqs).2))) = Ok r /\
    ContainerReader.header r = example_header.
Proof.
  assert (session_requests example_header example_records example_footer = Ok example_requests) as Hr
    by (vm_compute; reflexivity).
  assert (Forall (fun y => reply_ok y = true) (writer_task zero_sha256 (start_task []) example_requests).1)
    as Hok by (vm_compute; repeat constructor).
  destruct (audit_writer_reader (H:=memory_file) zero_sha256 zero_sha256_len [] example_header
    example_records example_footer example_requests eq_refl example_header_wf example_records_wf
    example_footer_wf Hr Hok)
    as (r & _ & _ & H1 & H2 & _).
  exists example_requests, r. exact (conj Hr (conj H1 H2)).
Defined.

Lemma audit_writer_log_witness :
  let '(ys, t) := writer_task zero_sha256 (start_task []) [Sync; Initialize [1; 2]; WriteSeal [3]] in
  acknowledged [Sync; Initialize [1; 2]; WriteSeal [3]] ys = [Initialize [1; 2]] /\
  contents (file (st t)) = [1; 2].
Proof.
  assert (Forall request_wf [Sync; Initialize [1; 2]; WriteSeal [3]]) as Hwf by (by repeat constructor).
  pose proof (audit_writer_log (H:=memory_file) zero_sha256 [] _ eq_refl Hwf) as H. split; [reflexivity|].
  destruct H as [H _]. exact H.
Defined.

Definition empty_task : task (IoError:=unit) (F:=list Z) := start_task [].

Lemma audit_writer_request_witness :
  coherent (st empty_task) /\
  exists msg, serve zero_sha256 empty_task (WriteSeal [3]) =
    (reject (WriteSeal [3]) (InvalidState msg), empty_task).
Proof.
  assert (coherent (st empty_task)) as Hc by reflexivity.
  refine (conj Hc _).
  exact (audit_writer_request (H:=memory_file) zero_sha256 empty_task (WriteSeal [3]) Hc eq_refl).
Defined.

(** The phases do not record that the seal was written: after the manifest the ledger
    commit is acknowledged without any seal, although its error message and the
    documentation require one, and the finished file is one that the reader rejects. *)
Example audit_commit_without_seal :
  let o := writer_task zero_sha256 empty_task
    [Initialize (concat (header_fields example_header));
     WriteManifestAndSignatures (manifest_part example_footer) (controller_part example_footer)
       (host_part example_footer);
     WriteLedgerCommit (ledger_part example_footer)] in
  forallb reply_ok o.1 = true /\ phase (st o.2) = Finished /\
  (r ← ContainerReader.new (contents (file (st o.2))); fst <$> ContainerReader.footer r) =
    Err (InvalidLength LOCAL_RECORD_SEAL_LEN LEDGER_COMMIT_LEN).
Proof.
  cbv zeta. split; [vm_compute; reflexivity|]. split; [vm_compute; reflexivity|].
  vm_compute. reflexivity.
Qed.
End Memory.
