(* ===== verification/Programs.v ===== *)
(** * Programs that await

    An [async fn] is modelled as a program over effects: a tree that performs one effect
    at a time and goes on with what the effect answered, up to its result.  What an effect
    does to the rest of the system, and which answers are possible, is not part of the
    program: the component that composes programs gives each effect a meaning, one atomic
    step of the system.

    [follows] checks a program against a protocol, an automaton on its effects and their
    answers; it is the interface between the proof about one program on its own and the
    invariant of a system in which many of them are interleaved. *)

From S2P Require Import Prelude.

(** The effects of a program and the type of the answer to each. *)
Class Effect (E : Type) := answer : E -> Type.

Inductive prog (E : Type) `{Effect E} (A : Type) : Type :=
| Ret (a : A)
| Vis (e : E) (k : answer e -> prog E A).
Arguments Ret {E _ A} a.
Arguments Vis {E _ A} e k.

Section Prog.
Context {E : Type} `{Effect E}.

Fixpoint prog_bind {A B} (p : prog E A) (f : A -> prog E B) : prog E B :=
  match p with
  | Ret a => f a
  | Vis e k => Vis e (fun r => prog_bind (k r) f)
  end.

(** [e.await], as one effect. *)
Definition await (e : E) : prog E (answer e) := Vis e Ret.

(** [?] on a result: an error, or a panic, ends the enclosing function. *)
Definition try_ {Err1 Err2 A B} (from : Err1 -> Err2) (r : res Err1 A)
    (k : A -> prog E (res Err2 B)) : prog E (res Err2 B) :=
  match r with
  | Ok a => k a
  | Err e => Ret (Err (from e))
  | Panic => Ret Panic
  end.

(** ** Protocols *)

Section Follows.
Context {T : Type}.
(** The effects a protocol state admits. *)
Variable allowed : T -> E -> Prop.
(** The states it may be in after an answer; no such state means that the answer cannot
    come. *)
Variable after : T -> forall e : E, answer e -> T -> Prop.

Fixpoint follows {A} (final : A -> T -> Prop) (t : T) (p : prog E A) : Prop :=
  match p with
  | Ret a => final a t
  | Vis e k => allowed t e /\ forall r t', after t e r t' -> follows final t' (k r)
  end.

Lemma follows_mono {A} (final final' : A -> T -> Prop) t (p : prog E A) :
  (forall a t, final a t -> final' a t) -> follows final t p -> follows final' t p.
Proof.
  intros Hf. revert t. induction p as [a|e k IH]; intros t; cbn [follows]; [apply Hf|].
  intros [? Hk]. split; [done|]. intros r t' Hr. by apply IH, Hk.
Qed.

(** A sequence follows the protocol when its second part does from wherever the first
    may end. *)
Lemma follows_bind {A B} (final : B -> T -> Prop) t (p : prog E A) (f : A -> prog E B) :
  follows (fun a t' => follows final t' (f a)) t p -> follows final t (prog_bind p f).
Proof.
  revert t. induction p as [a|e k IH]; intros t; cbn [follows prog_bind]; [done|].
  intros [? Hk]. split; [done|]. intros r t' Hr. by apply IH, Hk.
Qed.
End Follows.
End Prog.

Notation "x <- p ;; k" := (prog_bind p (fun x => k))
  (at level 100, p at next level, right associativity) : prog_scope.
Notation "x <-? r 'as' f ;; k" := (try_ f r (fun x => k))
  (at level 100, r at next level, f at next level, right associativity) : prog_scope.
