(* ===== verification/Provider.v ===== *)
(** * Enterprise providers

    [crates/yon-relay/src/provider.rs] and the configuration values of
    [crates/yon-relay/src/enterprise.rs]: credentials, the token cache, and the
    authorization URLs.  URLs are the [url] crate's and the Base64 text is the
    data-encoding crate's, both parameters; credential documents arrive here as the values
    that the [config] crate deserialised. *)

From stdpp Require Import strings.
From S2P Require Import Prelude Domain Code WireEnterprise EnterpriseSession.
Open Scope string_scope.
Open Scope list_scope.
Open Scope Z_scope.

Definition MAX_PROVIDER_SECRET_BYTES : Z := 16 * 1024.
Definition MAX_CREDENTIAL_ID_BYTES : Z := 64.
Definition MAX_APP_SECRET_BYTES : Z := 512.
Definition MAX_TENANT_KEY_BYTES : Z := 128.
Definition MAX_PROVIDER_TOKEN_BYTES : Z := 4 * 1024.
Definition MAX_PROVIDER_TOKEN_TTL : Z := from_secs (24 * 60 * 60).
Definition MAX_TOKEN_REFRESH_MARGIN : Z := from_secs (5 * 60).

(** ** The url crate and the data-encoding crate *)

Inductive Host := HostDomain (host : list Z) | HostIpv4 (a : Z) | HostIpv6 (a : Z).

Class UrlApi := {
  Url : Type;
  url_parse : list Z -> option Url;
  url_scheme : Url -> list Z;
  url_username : Url -> list Z;
  url_password : Url -> option (list Z);
  url_port : Url -> option Z;
  url_host : Url -> option Host;
  url_path : Url -> list Z;
  url_query : Url -> option (list Z);
  url_fragment : Url -> option (list Z);
  url_set_path : Url -> list Z -> Url;
  url_append_pairs : Url -> list (list Z * list Z) -> Url;
  url_as_str : Url -> list Z;
}.

(** [BASE64URL_NOPAD] *)
Class Base64Url := {
  base64_encode : list Z -> list Z;
  base64_decode : list Z -> option (list Z);
}.

(** Four characters for three bytes, and only canonical text decodes. *)
Class Base64UrlLaws `{Base64Url} : Prop := {
  base64_len l : bytes l -> zlen (base64_encode l) = (8 * zlen l + 5) / 6;
  base64_decode_spec t l : base64_decode t = Some l <-> bytes l /\ base64_encode l = t;
}.

(** ** Errors *)

Inductive ProviderField := CorpId | AgentId | AppId | AppSecret | TenantKey | AccessToken.

Inductive ProviderError :=
| Read (path : list Z)
| TooLarge (path : list Z)
| Encoding (path : list Z)
| Insecure (path : list Z)
| Schema
| InvalidCredential (field : ProviderField)
| MissingSecretPath (provider : EnterpriseProvider.t)
| NoCredentials
| NotConfigured (provider : EnterpriseProvider.t)
| AuthorizationUrlTooLong
| UrlParse
| State (e : TransitionError).

Inductive EnterpriseConfigError :=
| NoProvider | MissingCallbackTls | MissingCallbackListen | MissingCallbackUrl | EmptyCertificateChain
| CallbackListen | CallbackUrlInvalid | CallbackUrlScheme | CallbackUrlUserInfo | CallbackUrlPortZero | CallbackUrlHost
| CallbackUrlPath | MissingProviderSecret | UnexpectedProviderSecret.

(** ** Credentials *)

(** [char::is_whitespace] *)
Definition is_whitespace (c : Z) : bool :=
  ((0x09 <=? c) && (c <=? 0x0D)) || (c =? 0x20) || (c =? 0x85) || (c =? 0xA0) || (c =? 0x1680)
  || ((0x2000 <=? c) && (c <=? 0x200A)) || (c =? 0x2028) || (c =? 0x2029) || (c =? 0x202F)
  || (c =? 0x205F) || (c =? 0x3000).

Module SecretText.
Record t := Mk { as_str : list Z }.

Definition bound (kind : ProviderField) : Z :=
  match kind with
  | CorpId | AppId => MAX_CREDENTIAL_ID_BYTES
  | TenantKey => MAX_TENANT_KEY_BYTES
  | AgentId | AppSecret => MAX_APP_SECRET_BYTES
  | AccessToken => MAX_PROVIDER_TOKEN_BYTES
  end.

(** A [String] is UTF-8, so its characters exist. *)
Definition new (value : list Z) (kind : ProviderField) : res ProviderError t :=
  chars ← expect_some (utf8_chars value);
  if (zlen value =? 0) || (bound kind <? zlen value) || existsb is_whitespace chars
  then Err (InvalidCredential kind) else Ok (Mk value).
End SecretText.

#[export] Instance SecretText_eq_dec : EqDecision SecretText.t.
Proof. solve_decision. Defined.

Module WeComCredentials.
Record t := Mk { corp_id : SecretText.t; agent_id : Z; app_secret : SecretText.t }.
End WeComCredentials.

Module FeishuCredentials.
Record t := Mk { app_id : SecretText.t; app_secret : SecretText.t; tenant_key : SecretText.t }.
End FeishuCredentials.

(** The deserialised documents; [agent_id] is an [i64]. *)
Record WeComDocument := MkWeComDocument { doc_corp_id : list Z; doc_agent_id : Z; doc_app_secret : list Z }.
Record FeishuDocument := MkFeishuDocument { doc_app_id : list Z; doc_secret : list Z; doc_tenant_key : list Z }.

(** [parse_document] is the [config] crate's deserialisation; [None] is its error. *)
Definition parse_wecom (document : option WeComDocument) : res ProviderError WeComCredentials.t :=
  parsed ← ok_or document Schema;
  if negb ((1 <=? doc_agent_id parsed) && (doc_agent_id parsed <=? 2 ^ 32 - 1))
  then Err (InvalidCredential AgentId)
  else
    corp_id ← SecretText.new (doc_corp_id parsed) CorpId;
    app_secret ← SecretText.new (doc_app_secret parsed) AppSecret;
    Ok (WeComCredentials.Mk corp_id (as_u32 (doc_agent_id parsed)) app_secret).

Definition parse_feishu (document : option FeishuDocument) : res ProviderError FeishuCredentials.t :=
  parsed ← ok_or document Schema;
  app_id ← SecretText.new (doc_app_id parsed) AppId;
  app_secret ← SecretText.new (doc_secret parsed) AppSecret;
  tenant_key ← SecretText.new (doc_tenant_key parsed) TenantKey;
  Ok (FeishuCredentials.Mk app_id app_secret tenant_key).

(** ** The token cache *)

(** [Instant]s are nanoseconds; [checked_add] fails beyond [instant_max], which is the
    platform's. *)
Module ProviderTokenCache.
Record CachedProviderToken := MkToken { value : SecretText.t; usable_until : Z }.
Record t := Mk { entry : option CachedProviderToken }.

Definition empty : t := Mk None.

(** The answer and the cache after it. *)
Definition fresh (self : t) (now : Z) : option SecretText.t * t :=
  let self :=
    match entry self with
    | Some token => if usable_until token <=? now then Mk None else self
    | None => self
    end in
  (value <$> entry self, self).

Definition store (instant_max : Z) (self : t) (token : SecretText.t) (expires_in now : Z)
  : res unit unit * t :=
  if (expires_in =? 0) || (MAX_PROVIDER_TOKEN_TTL <? expires_in) then (Err tt, self)
  else
    let proportional_margin := expires_in / 10 in
    let margin := Z.min proportional_margin MAX_TOKEN_REFRESH_MARGIN in
    if expires_in <? margin then (Err tt, self)
    else
      let usable_for := expires_in - margin in
      if instant_max <? now + usable_for then (Err tt, self)
      else (Ok tt, Mk (Some (MkToken token (now + usable_for)))).

Definition invalidate_if (self : t) (failed : SecretText.t) : t :=
  match entry self with
  | Some token => if bool_decide (value token = failed) then Mk None else self
  | None => self
  end.
End ProviderTokenCache.

(** ** Configuration *)

Module CallbackExternalUrl.
Section Url.
Context `{UrlApi}.
Record t := Mk { as_url : Url }.

Definition public_host (h : option Host) : bool :=
  match h with
  | Some (HostDomain host) => negb (zlen host =? 0) && existsb (Z.eqb 0x2E) host
  | Some (HostIpv4 _) | Some (HostIpv6 _) => true
  | None => false
  end.

Definition new (url : Url) : res EnterpriseConfigError t :=
  if negb (bool_decide (url_scheme url = str "https")) then Err CallbackUrlScheme else
  if negb (zlen (url_username url) =? 0) || bool_decide (is_Some (url_password url))
  then Err CallbackUrlUserInfo else
  if bool_decide (url_port url = Some 0) then Err CallbackUrlPortZero else
  if negb (public_host (url_host url)) then Err CallbackUrlHost else
  if negb (bool_decide (url_path url = []) || bool_decide (url_path url = str "/"))
     || bool_decide (is_Some (url_query url)) || bool_decide (is_Some (url_fragment url))
  then Err CallbackUrlPath
  else Ok (Mk url).

Definition from_str (value : list Z) : res EnterpriseConfigError t :=
  url ← ok_or (url_parse value) CallbackUrlInvalid; new url.
End Url.
Arguments t {_}.
End CallbackExternalUrl.

Module ProviderSecrets.
Record t := Mk { wecom : option (list Z); feishu : option (list Z) }.

Definition new (providers : EnterpriseProviders.t) (wecom feishu : option (list Z))
  : res EnterpriseConfigError t :=
  let has := EnterpriseProviders.contains providers in
  if has EnterpriseProvider.WeCom && bool_decide (wecom = None) then Err MissingProviderSecret else
  if has EnterpriseProvider.Feishu && bool_decide (feishu = None) then Err MissingProviderSecret else
  if negb (has EnterpriseProvider.WeCom) && bool_decide (is_Some wecom) then Err UnexpectedProviderSecret else
  if negb (has EnterpriseProvider.Feishu) && bool_decide (is_Some feishu) then Err UnexpectedProviderSecret else
  Ok (Mk wecom feishu).

Definition path (self : t) (provider : EnterpriseProvider.t) : option (list Z) :=
  match provider with EnterpriseProvider.WeCom => wecom self | EnterpriseProvider.Feishu => feishu self end.
End ProviderSecrets.

(** ** Authorization URLs *)

Definition callback_path (provider : EnterpriseProvider.t) : list Z :=
  match provider with
  | EnterpriseProvider.WeCom => str "/yonder/callback/wecom"
  | EnterpriseProvider.Feishu => str "/yonder/callback/feishu"
  end.

(** [u32::to_string]: decimal digits without leading zeros. *)
Definition u32_to_string (n : Z) : list Z :=
  let digits := digits_be 10 10 n in
  let digits := (fix strip l := match l with 0 :: rest => strip rest | _ => l end) digits in
  match digits with [] => [0x30] | _ => (Z.add 0x30) <$> digits end.

Definition encode_state `{Base64Url} (state : OAuthState.t) : list Z :=
  base64_encode (OAuthState.as_bytes state).

(** [decode_state] of [callback_session.rs]. *)
Definition decode_state `{Base64Url} (state : list Z) : option OAuthState.t :=
  if negb (zlen state =? 43) then None
  else
    bytes ← base64_decode state;
    match OAuthState.from_bytes bytes with Ok st => Some st | _ => None end.

Section Urls.
Context `{UrlApi} `{Base64Url}.

Definition redirect_uri (base : CallbackExternalUrl.t) (provider : EnterpriseProvider.t) : Url :=
  url_set_path (CallbackExternalUrl.as_url base) (callback_path provider).

Definition wecom_authorization_url (wecom : WeComCredentials.t) (callback : CallbackExternalUrl.t)
    (state : OAuthState.t) : res ProviderError Url :=
  url ← expect_some (url_parse (str "https://login.work.weixin.qq.com/wwlogin/sso/login"));
  Ok (url_append_pairs url
    [(str "login_type", str "CorpApp");
     (str "appid", SecretText.as_str (WeComCredentials.corp_id wecom));
     (str "agentid", u32_to_string (WeComCredentials.agent_id wecom));
     (str "redirect_uri", url_as_str (redirect_uri callback EnterpriseProvider.WeCom));
     (str "state", encode_state state)]).

Definition feishu_authorization_url (feishu : FeishuCredentials.t) (callback : CallbackExternalUrl.t)
    (state : OAuthState.t) : res ProviderError Url :=
  url ← expect_some (url_parse (str "https://accounts.feishu.cn/open-apis/authen/v1/authorize"));
  Ok (url_append_pairs url
    [(str "client_id", SecretText.as_str (FeishuCredentials.app_id feishu));
     (str "redirect_uri", url_as_str (redirect_uri callback EnterpriseProvider.Feishu));
     (str "response_type", str "code");
     (str "scope", str "auth:user.id:read");
     (str "state", encode_state state)]).
End Urls.

(** [ProviderCredentials] without its token caches, which have their own locks. *)
Module ProviderCredentials.
Section Credentials.
Context `{UrlApi} `{Base64Url}.

Record t := Mk {
  wecom : option WeComCredentials.t;
  feishu : option FeishuCredentials.t;
  callback_url : CallbackExternalUrl.t;
}.

Definition providers (self : t) : res ProviderError EnterpriseProviders.t :=
  map_err (fun _ => NoCredentials)
    (EnterpriseProviders.new (bool_decide (is_Some (wecom self))) (bool_decide (is_Some (feishu self)))).

Definition authorization_url (self : t) (provider : EnterpriseProvider.t)
    (callback_url : CallbackExternalUrl.t) (state : OAuthState.t)
  : res ProviderError AuthorizationUrl.t :=
  url ← match provider with
        | EnterpriseProvider.WeCom =>
          wecom ← ok_or (wecom self) (NotConfigured provider);
          wecom_authorization_url wecom callback_url state
        | EnterpriseProvider.Feishu =>
          feishu ← ok_or (feishu self) (NotConfigured provider);
          feishu_authorization_url feishu callback_url state
        end;
  map_err (fun _ => AuthorizationUrlTooLong) (AuthorizationUrl.new (url_as_str url)).

Definition feishu_redirect_uri (self : t) : Url :=
  redirect_uri (callback_url self) EnterpriseProvider.Feishu.
End Credentials.
Arguments t {_}.
End ProviderCredentials.

(** ** States as text *)

Section StateText.
Context `{Base64UrlLaws}.

(** The state a browser returns decodes exactly when it is the text that was handed out. *)
Lemma decode_state_some t st :
  decode_state t = Some st <-> (bytes (OAuthState.as_bytes st) /\ zlen (OAuthState.as_bytes st) = OAuthState.LEN /\
    encode_state st = t).
Proof.
  unfold decode_state, encode_state, OAuthState.from_bytes. destruct st as [b]. cbn [OAuthState.as_bytes]. split.
  - destruct (Z.eqb_spec (zlen t) 43) as [Ht|]; [|done]. cbn [negb].
    destruct (base64_decode t) as [l|] eqn:Hd; [|done]. cbn [mbind option_bind].
    destruct (try_into_array OAuthState.LEN l) as [l'|] eqn:Hl; [|done].
    cbn [ok_or mbind res_bind]. intros [= <-]. apply try_into_array_some in Hl as [-> Hl].
    by apply base64_decode_spec in Hd as [? ?].
  - intros (Hb & Hl & <-). rewrite base64_len, Hl by done. cbn [negb Z.eqb].
    rewrite (proj2 (base64_decode_spec (base64_encode b) b)) by done. cbn [mbind option_bind].
    by rewrite (proj2 (try_into_array_some _ _ b)).
Qed.
End StateText.

(** ** A reference implementation of the Base64 text *)

(** "ABCDEFGHIJKLMNOPQRSTUVWXYZabcdefghijklmnopqrstuvwxyz0123456789-_" *)
Definition base64_symbols : list Z :=
  seqZ 0x41 26 ++ seqZ 0x61 26 ++ seqZ 0x30 10 ++ [0x2D; 0x5F].

Definition base64_pad (n : Z) : Z := 6 * ((8 * n + 5) / 6) - 8 * n.

Definition base64_text (l : list Z) : list Z :=
  symbol base64_symbols <$>
    digits_be 64 (Z.to_nat ((8 * zlen l + 5) / 6)) (from_be_bytes l * 2 ^ base64_pad (zlen l)).

Definition base64_untext (t : list Z) : option (list Z) :=
  let n := zlen t * 6 / 8 in
  let l := to_be_bytes (Z.to_nat n) (of_digits_be 64 (position base64_symbols <$> t) / 2 ^ base64_pad n) in
  if bool_decide (base64_text l = t) then Some l else None.

Definition reference_base64 : Base64Url := {| base64_encode := base64_text; base64_decode := base64_untext |}.

Lemma base64_text_len l : zlen (base64_text l) = (8 * zlen l + 5) / 6.
Proof.
  unfold base64_text, zlen at 1. rewrite length_fmap, length_digits_be, Z2Nat.id; [done|].
  pose proof (zlen_nonneg l). apply Z.div_pos; lia.
Qed.

Lemma base64_symbols_distinct : NoDup base64_symbols.
Proof. apply (bool_decide_unpack _). by vm_compute. Qed.

Lemma base64_value l :
  bytes l -> of_digits_be 64 (position base64_symbols <$> base64_text l) = from_be_bytes l * 2 ^ base64_pad (zlen l).
Proof.
  intros Hb. pose proof (zlen_nonneg l) as Hz. pose proof (from_be_range l Hb) as Hr.
  unfold base64_text. rewrite <- list_fmap_compose, (list_fmap_ext _ id), list_fmap_id.
  - apply (of_digits_digits_small 64); [lia|]. rewrite Z2Nat.id by (apply Z.div_pos; lia).
    split; [apply Z.mul_nonneg_nonneg; [lia|apply Z.pow_nonneg; lia]|].
    apply Z.lt_le_trans with (256 ^ zlen l * 2 ^ base64_pad (zlen l));
      [apply Z.mul_lt_mono_pos_r; [apply Z.pow_pos_nonneg; [lia|]|exact (proj2 Hr)]|].
    { unfold base64_pad. Z.to_euclidean_division_equations; lia. }
    change 256 with (2 ^ 8). change 64 with (2 ^ 6).
    rewrite <- !Z.pow_mul_r, <- Z.pow_add_r by (unfold base64_pad; Z.to_euclidean_division_equations; lia).
    apply Z.pow_le_mono_r; [lia|]. unfold base64_pad. lia.
  - intros i d Hd. pose proof (digits_be_range 64 ltac:(lia) (Z.to_nat ((8 * zlen l + 5) / 6))
      (from_be_bytes l * 2 ^ base64_pad (zlen l))) as Hf. rewrite Forall_lookup in Hf. specialize (Hf _ _ Hd).
    cbv beta in Hf. cbn [compose]. apply position_symbol; [apply base64_symbols_distinct|].
    replace (zlen base64_symbols) with 64 by done. done.
Qed.

#[export] Instance reference_base64_laws : Base64UrlLaws (H := reference_base64).
Proof.
  split; cbn; [intros l _; apply base64_text_len|]. intros t l. unfold base64_untext. split.
  - case_bool_decide; [|done]. intros [= <-]. split; [apply bytes_to_be|done].
  - intros [Hb <-]. rewrite base64_text_len, base64_value by done. pose proof (zlen_nonneg l) as Hz.
    replace ((8 * zlen l + 5) / 6 * 6 / 8) with (zlen l) by (Z.to_euclidean_division_equations; lia).
    rewrite Z.div_mul by (apply Z.pow_nonzero; [lia|unfold base64_pad; Z.to_euclidean_division_equations; lia]).
    cbv zeta. rewrite to_from_be by (done || (unfold zlen; lia)). by rewrite bool_decide_eq_true_2.
Qed.
