(* ===== verification/CallbackSession.v ===== *)
(** * Enterprise callback sessions

    [crates/yon-relay/src/callback_session.rs]: the bounded table of authenticating
    transactions that the relay's event loop owns, the owner's side of the callback
    channel, and the handler of one browser callback as a program over its effects. *)

From stdpp Require Import gmap.
From S2P Require Import Prelude Domain EnterpriseSession Provider Programs.
Open Scope Z_scope.

(** [callback.rs] *)
Module CallbackResult.
Inductive t := CallbackAdmitted | Rejected | InvalidState | Platform | Limited.
End CallbackResult.

Module CallbackAuthorization.
Inductive t := Code (code : list Z) | Denied | ProviderFailed.
End CallbackAuthorization.

#[export] Instance CallbackResult_eq_dec : EqDecision CallbackResult.t.
Proof. solve_decision. Defined.

(** [verifier.rs] *)
Definition MAX_AUTHORIZATION_CODE_BYTES : Z := 512.

Module VerifyError.
Inductive t := Platform | Rejected | ResponseTooLarge | InvalidCode.
End VerifyError.

#[export] Instance OAuthState_countable : Countable OAuthState.t.
Proof. apply (inj_countable' OAuthState.as_bytes OAuthState.Mk). by intros []. Defined.

(** ** Entries

    A oneshot channel is a number: the sending half of [outcome] and the receiving half of
    [cancelled] travel with the entry. *)

Module CallbackCompletion.
Record t := Mk { result : CallbackResult.t; session : EnterpriseResolveSession.t }.
End CallbackCompletion.

Module CallbackEntry.
Record t := Mk {
  session : EnterpriseResolveSession.t;
  outcome : nat;
  cancelled : nat;
  request_id : Z;
  deadline : MonotonicTime.t;
}.

(** A change through [session_mut]. *)
Definition set_session (self : t) (s : EnterpriseResolveSession.t) : t :=
  Mk s (outcome self) (cancelled self) (request_id self) (deadline self).

(** [complete]: what is sent on [outcome]. *)
Definition complete (self : t) (result : CallbackResult.t) : CallbackCompletion.t :=
  CallbackCompletion.Mk result (session self).
End CallbackEntry.

(** ** The registry *)

Module CallbackRegistry.
Inductive Error := Capacity | DuplicateState.

Record t := Mk { transactions : gmap OAuthState.t CallbackEntry.t; capacity : Z }.

Definition DEFAULT_CAPACITY : Z := 64.
Definition with_capacity (capacity : Z) : t := Mk ∅ capacity.
Definition new : t := with_capacity DEFAULT_CAPACITY.

Definition live (now : MonotonicTime.t) (entry : CallbackEntry.t) : bool :=
  MonotonicTime.elapsed now <? MonotonicTime.elapsed (CallbackEntry.deadline entry).

(** [retain] *)
Definition sweep (transactions : gmap OAuthState.t CallbackEntry.t) (now : MonotonicTime.t)
  : gmap OAuthState.t CallbackEntry.t :=
  filter (fun e => live now e.2 = true) transactions.

Definition len (self : t) : Z := Z.of_nat (size (transactions self)).
Definition is_empty (self : t) : bool := len self =? 0.

(** The [debug_assert!] panics when an entry was replaced. *)
Definition insert (self : t) (state : OAuthState.t) (entry : CallbackEntry.t) (now : MonotonicTime.t)
  : res Error unit * t :=
  let self := Mk (sweep (transactions self) now) (capacity self) in
  if bool_decide (is_Some (transactions self !! state)) then (Err DuplicateState, self) else
  if capacity self <=? len self then (Err Capacity, self) else
  let replaced := transactions self !! state in
  ((if bool_decide (replaced = None) then Ok tt else Panic),
   Mk (<[ state := entry ]> (transactions self)) (capacity self)).

Definition take (self : t) (state : OAuthState.t) (now : MonotonicTime.t) : option CallbackEntry.t * t :=
  let swept := sweep (transactions self) now in
  (swept !! state, Mk (delete state swept) (capacity self)).

Definition remove (self : t) (state : OAuthState.t) : option CallbackEntry.t * t :=
  (transactions self !! state, Mk (delete state (transactions self)) (capacity self)).
End CallbackRegistry.

(** ** The owner's side

    The [Complete] arm of [handle_callback_registry_request]: what the owner commits, given
    whether the resolve side asked for cancellation and whether the deadline has passed. *)
Definition commit_completion (entry : CallbackEntry.t) (result : CallbackResult.t)
    (cancellation_requested late : bool) : CallbackResult.t * CallbackEntry.t :=
  let session := CallbackEntry.session entry in
  if cancellation_requested then
    (CallbackResult.InvalidState,
     CallbackEntry.set_session entry (EnterpriseResolveSession.cancel session).2)
  else if late then
    (CallbackResult.Platform,
     CallbackEntry.set_session entry (EnterpriseResolveSession.fail session EnterpriseFailure.Platform).2)
  else (result, entry).

(** ** The handler *)

Module HandlerEffect.
(** What the [select!] over verification, cancellation and deadline yields. *)
Inductive selected :=
| VerificationDone (r : res VerifyError.t MemberIdentity.t)
| CancelSignal
| DeadlineReached.

(** What sending on the bounded channel before the deadline yields. *)
Inductive sent := Sent | ChannelClosed | SendTimedOut.

Inductive t :=
| Now
| SendTake (state : OAuthState.t) (now : MonotonicTime.t)
| RecvTake
| VerifyMember (provider : EnterpriseProvider.t) (code : list Z) (cancelled : nat)
| Reserve
| Complete (entry : CallbackEntry.t) (result : CallbackResult.t)
| SendComplete (entry : CallbackEntry.t) (result : CallbackResult.t) (deadline : Z)
| RecvComplete.
End HandlerEffect.

(** [RecvTake] and [RecvComplete] answer [None] when the owner's half was dropped or the
    deadline passed first. *)
#[export] Instance handler_effect : Effect HandlerEffect.t := fun e =>
  match e with
  | HandlerEffect.Now => MonotonicTime.t
  | HandlerEffect.SendTake _ _ => HandlerEffect.sent
  | HandlerEffect.RecvTake => option (option CallbackEntry.t)
  | HandlerEffect.VerifyMember _ _ _ => HandlerEffect.selected
  | HandlerEffect.Reserve => bool
  | HandlerEffect.Complete _ _ => unit
  | HandlerEffect.SendComplete _ _ _ => unit
  | HandlerEffect.RecvComplete => option CallbackResult.t
  end.

Section Handler.
Import HandlerEffect.
Context `{Base64Url}.
Local Open Scope prog_scope.

Definition fail_entry (entry : CallbackEntry.t) (failure : EnterpriseFailure.t) : CallbackEntry.t :=
  CallbackEntry.set_session entry
    (EnterpriseResolveSession.fail (CallbackEntry.session entry) failure).2.

Definition finish_entry (entry : CallbackEntry.t) (result : CallbackResult.t) (deadline : Z)
  : prog HandlerEffect.t CallbackResult.t :=
  permit <- await Reserve ;;
  if negb permit then
    let entry := fail_entry entry EnterpriseFailure.Platform in
    _ <- await (Complete entry CallbackResult.Platform) ;;
    Ret CallbackResult.Platform
  else
    _ <- await (SendComplete entry result deadline) ;;
    received <- await RecvComplete ;;
    Ret (match received with Some result => result | None => CallbackResult.Platform end).

(** The member was verified: [session.callback], then [session.validate_member(true)]. *)
Definition admit_member (entry : CallbackEntry.t) (state : OAuthState.t) (identity : MemberIdentity.t)
  : CallbackResult.t * CallbackEntry.t :=
  let '(called, session) :=
    EnterpriseResolveSession.callback (CallbackEntry.session entry) state identity in
  if is_ok called then
    let '(admission, session) := EnterpriseResolveSession.validate_member session true in
    (match admission with
     | Ok MemberAdmitted => CallbackResult.CallbackAdmitted
     | _ => CallbackResult.Rejected
     end, CallbackEntry.set_session entry session)
  else (CallbackResult.InvalidState, CallbackEntry.set_session entry session).

Definition settle (entry : CallbackEntry.t) (state : OAuthState.t) (s : selected)
  : CallbackResult.t * CallbackEntry.t :=
  match s with
  | VerificationDone (Ok identity) => admit_member entry state identity
  | VerificationDone (Err VerifyError.InvalidCode) =>
    (CallbackResult.InvalidState, fail_entry entry EnterpriseFailure.InvalidState)
  | VerificationDone (Err VerifyError.Rejected) =>
    (CallbackResult.Rejected, fail_entry entry EnterpriseFailure.UserRejected)
  | VerificationDone (Err (VerifyError.Platform | VerifyError.ResponseTooLarge)) =>
    (CallbackResult.Platform, fail_entry entry EnterpriseFailure.Platform)
  | VerificationDone Panic => (CallbackResult.Platform, entry)
  | CancelSignal =>
    (CallbackResult.InvalidState, CallbackEntry.set_session entry
      (EnterpriseResolveSession.cancel (CallbackEntry.session entry)).2)
  | DeadlineReached => (CallbackResult.Platform, fail_entry entry EnterpriseFailure.Platform)
  end.

Definition authorize (provider : EnterpriseProvider.t) (authorization : CallbackAuthorization.t)
    (state : OAuthState.t) (entry : CallbackEntry.t)
  : prog HandlerEffect.t (CallbackResult.t * CallbackEntry.t) :=
  match authorization with
  | CallbackAuthorization.Code code =>
    s <- await (VerifyMember provider code (CallbackEntry.cancelled entry)) ;;
    Ret (settle entry state s)
  | CallbackAuthorization.Denied =>
    Ret (CallbackResult.Rejected, fail_entry entry EnterpriseFailure.UserRejected)
  | CallbackAuthorization.ProviderFailed =>
    Ret (CallbackResult.Platform, fail_entry entry EnterpriseFailure.Platform)
  end.

(** [CallbackSessionHandler::handle] *)
Definition handle (provider : EnterpriseProvider.t) (authorization : CallbackAuthorization.t)
    (state_text : list Z) (deadline : Z) : prog HandlerEffect.t CallbackResult.t :=
  now <- await Now ;;
  match decode_state state_text with
  | None => Ret CallbackResult.InvalidState
  | Some state =>
    sent <- await (SendTake state now) ;;
    match sent with
    | SendTimedOut => Ret CallbackResult.Platform
    | _ =>
      received <- await RecvTake ;;
      match received with
      | None => Ret CallbackResult.Platform
      | Some None => Ret CallbackResult.InvalidState
      | Some (Some entry) =>
        if bool_decide (EnterpriseResolveSession.provider (CallbackEntry.session entry) <> Some provider)
        then
          let entry := fail_entry entry EnterpriseFailure.InvalidState in
          _ <- finish_entry entry CallbackResult.InvalidState deadline ;;
          Ret CallbackResult.InvalidState
        else
          settled <- authorize provider authorization state entry ;;
          finish_entry settled.2 settled.1 deadline
      end
    end
  end.
End Handler.

(** ** Verification, up to the provider's answer

    [verify_member] of [verifier.rs]: [exchange] is what the calls to the provider yield. *)
Definition verify_member `{UrlApi} (provider : EnterpriseProvider.t) (code : list Z)
    (credentials : ProviderCredentials.t) (exchange : res VerifyError.t MemberIdentity.t)
  : res VerifyError.t MemberIdentity.t :=
  if (zlen code =? 0) || (MAX_AUTHORIZATION_CODE_BYTES <? zlen code) then Err VerifyError.InvalidCode
  else
    match provider with
    | EnterpriseProvider.WeCom =>
      if bool_decide (ProviderCredentials.wecom credentials = None) then Err VerifyError.Platform
      else exchange
    | EnterpriseProvider.Feishu =>
      if bool_decide (ProviderCredentials.feishu credentials = None) then Err VerifyError.Platform
      else exchange
    end.
