(* ===== verification/EnterpriseResolve.v ===== *)
(** * The enterprise resolve exchange

    [crates/yon-relay/src/enterprise_resolve.rs]: the program that runs one enterprise
    resolve substream, from the start message to the answer.  The owner's replies, the
    substream, the clock and the [select!] are its effects; the random source is threaded
    through. *)

From stdpp Require Import gmap.
From S2P Require Import Prelude Domain WireEnterprise EnterpriseSession Registry Provider Programs.
From S2P Require Import CallbackSession.
Open Scope Z_scope.

(** [service.rs] *)
Module ProtocolTaskError.
Inductive t :=
| Timeout
| Io
| Protocol (e : ProtocolError)
| OwnerStopped
| Registry (e : RegistryError)
| Random (e : RandomError)
| Session (e : TransitionError)
| EnterpriseProvider (e : ProviderError).
End ProtocolTaskError.

Module EnterpriseResolveAdmission.
Inductive t := AdmittedStart | Retry (after : RetryAfter.t).
End EnterpriseResolveAdmission.

Module ExchangeEffect.
(** The three branches of the [select!] that waits for the browser. *)
Inductive selected :=
| OutcomeReceived (completion : option CallbackCompletion.t)
| LifetimeElapsed
| PeerClosed (r : res ProtocolTaskError.t unit).

(** A message is written as its encoding.  [AdmitStart], [ResolveTarget], [Register] and
    [Remove] each send a request to the owner and await its reply. *)
Inductive t :=
| ReadTimeout (length : Z)
| ReadDeadline (length : Z) (deadline : Z)
| WriteTimeout (message : EnterpriseResolveResponse.t)
| Now
| AdmitStart
| ResolveTarget (locator : Locator.t)
| Register (state : OAuthState.t) (entry : CallbackEntry.t) (now : MonotonicTime.t)
| Remove (state : OAuthState.t)
| Cancel
| DropCancel
| SelectOutcome (remaining : Z).
End ExchangeEffect.

#[export] Instance exchange_effect : Effect ExchangeEffect.t := fun e =>
  match e with
  | ExchangeEffect.ReadTimeout _ | ExchangeEffect.ReadDeadline _ _ => res ProtocolTaskError.t (list Z)
  | ExchangeEffect.WriteTimeout _ => res ProtocolTaskError.t unit
  | ExchangeEffect.Now => MonotonicTime.t
  | ExchangeEffect.AdmitStart => res ProtocolTaskError.t EnterpriseResolveAdmission.t
  | ExchangeEffect.ResolveTarget _ => res ProtocolTaskError.t EnterpriseResolveResponse.t
  | ExchangeEffect.Register _ _ _ => res ProtocolTaskError.t (res CallbackRegistry.Error unit)
  | ExchangeEffect.Remove _ => res ProtocolTaskError.t (option CallbackEntry.t)
  | ExchangeEffect.Cancel | ExchangeEffect.DropCancel => unit
  | ExchangeEffect.SelectOutcome _ => ExchangeEffect.selected
  end.

Section Exchange.
Import ExchangeEffect.
Context `{UrlApi} `{Base64Url} {R : Type} `{SecureRandom R}.
Local Open Scope prog_scope.

Definition result : Type := res ProtocolTaskError.t unit.
Definition same (e : ProtocolTaskError.t) : ProtocolTaskError.t := e.

(** The transaction is taken back, unless a callback has it already; the session that comes
    back is cancelled or expired and dropped. *)
Definition withdraw (state : OAuthState.t) (k : prog ExchangeEffect.t result)
  : prog ExchangeEffect.t result :=
  removed <- await (Remove state) ;;
  _ <-? removed as same ;;
  k.

(** What follows the browser's outcome: the [match outcome] at the end of the exchange. *)
Definition resolve_admitted (session : EnterpriseResolveSession.t) : prog ExchangeEffect.t result :=
  now <- await Now ;;
  if EnterpriseResolveSession.is_expired session now then
    await (WriteTimeout EnterpriseResolveResponse.Expired)
  else
    let '(begun, session) := EnterpriseResolveSession.begin_resolve session in
    _ <-? begun as ProtocolTaskError.Session ;;
    answer <- await (ResolveTarget (EnterpriseResolveSession.locator session)) ;;
    target <-? answer as same ;;
    _ <-? (match target with
           | EnterpriseResolveResponse.Resolved peer => (EnterpriseResolveSession.complete session peer).1
           | _ => (EnterpriseResolveSession.unavailable session).1
           end) as ProtocolTaskError.Session ;;
    await (WriteTimeout target).

Definition conclude (completion : option CallbackCompletion.t) : prog ExchangeEffect.t result :=
  let outcome := default CallbackResult.Platform (CallbackCompletion.result <$> completion) in
  match outcome with
  | CallbackResult.CallbackAdmitted =>
    match completion with
    | None => await (WriteTimeout EnterpriseResolveResponse.Failed)
    | Some completion => resolve_admitted (CallbackCompletion.session completion)
    end
  | CallbackResult.Rejected | CallbackResult.InvalidState | CallbackResult.Platform
  | CallbackResult.Limited =>
    await (WriteTimeout EnterpriseResolveResponse.Failed)
  end.

(** From the registered transaction to the outcome.  [deadline] is the session's. *)
Definition await_callback (state : OAuthState.t) (deadline : MonotonicTime.t) (url : AuthorizationUrl.t)
  : prog ExchangeEffect.t result :=
  written <- await (WriteTimeout (EnterpriseResolveResponse.Authenticate url)) ;;
  match written with
  | Err error => _ <- await Cancel ;; withdraw state (Ret (Err error))
  | Panic => Ret Panic
  | Ok _ =>
    now <- await Now ;;
    let remaining := default 0 (MonotonicTime.duration_since deadline now) in
    selected <- await (SelectOutcome remaining) ;;
    match selected with
    | LifetimeElapsed =>
      _ <- await Cancel ;;
      withdraw state (await (WriteTimeout EnterpriseResolveResponse.Expired))
    | PeerClosed closed =>
      _ <- await Cancel ;;
      withdraw state (Ret closed)
    | OutcomeReceived completion =>
      _ <- await DropCancel ;;
      conclude completion
    end
  end.

(** The selected provider: state, URL, registration. *)
Definition authenticate (me : nat) (credentials : ProviderCredentials.t)
    (callback_url : CallbackExternalUrl.t) (request_id : Z) (session : EnterpriseResolveSession.t)
    (provider : EnterpriseProvider.t) (random : R) : prog ExchangeEffect.t result :=
  let '(selected, session, random) := EnterpriseResolveSession.select session provider random in
  state <-? selected as ProtocolTaskError.Session ;;
  url <-? ProviderCredentials.authorization_url credentials provider callback_url state
    as ProtocolTaskError.EnterpriseProvider ;;
  let deadline := EnterpriseResolveSession.deadline session in
  let entry := CallbackEntry.Mk session me me request_id deadline in
  now <- await Now ;;
  registered <- await (Register state entry now) ;;
  registered <-? registered as same ;;
  if negb (is_ok registered) then await (WriteTimeout EnterpriseResolveResponse.Failed)
  else await_callback state deadline url.

(** [enterprise_resolve_exchange_inner].  [me] names the exchange's own oneshot channels. *)
Definition enterprise_resolve_exchange_inner (me : nat) (credentials : ProviderCredentials.t)
    (callback_url : CallbackExternalUrl.t) (random : R) : prog ExchangeEffect.t result :=
  message <- await (ReadTimeout START_LEN) ;;
  message <-? message as same ;;
  start <-? EnterpriseStart.decode message as ProtocolTaskError.Protocol ;;
  admission <- await AdmitStart ;;
  admission <-? admission as same ;;
  match admission with
  | EnterpriseResolveAdmission.Retry retry =>
    await (WriteTimeout (EnterpriseResolveResponse.Retry retry))
  | EnterpriseResolveAdmission.AdmittedStart =>
    now <- await Now ;;
    match try_fill random 8 with
    | (None, _) => Ret (Err (ProtocolTaskError.Random RandomFailed))
    | (Some id_bytes, random) =>
      let request_id := from_be_bytes id_bytes in
      let session := EnterpriseResolveSession.new request_id (EnterpriseStart.locator start) now in
      let '(offered, session) := EnterpriseResolveSession.offer_providers session in
      _ <-? offered as ProtocolTaskError.Session ;;
      providers <-? ProviderCredentials.providers credentials as ProtocolTaskError.EnterpriseProvider ;;
      written <- await (WriteTimeout (EnterpriseResolveResponse.Providers providers)) ;;
      _ <-? written as same ;;
      now <- await Now ;;
      let select_deadline :=
        default 0 (MonotonicTime.duration_since (EnterpriseResolveSession.deadline session) now) in
      message <- await (ReadDeadline SELECT_LEN select_deadline) ;;
      message <-? message as same ;;
      select <-? EnterpriseSelect.decode message as ProtocolTaskError.Protocol ;;
      let provider := EnterpriseSelect.provider select in
      if negb (EnterpriseProviders.contains providers provider) then
        await (WriteTimeout EnterpriseResolveResponse.Failed)
      else authenticate me credentials callback_url request_id session provider random
    end
  end.
End Exchange.
