(* ===== verification/EnterpriseFlow.v ===== *)
(** * Enterprise transactions, interleaved

    Any number of resolve exchanges ([EnterpriseResolve]) and browser callbacks
    ([CallbackSession]) run against one owner, the relay's event loop, which serves the
    callback channel and owns the transaction table.  A world is the owner's state, the
    channels between the tasks and the program each task has left; a step is one effect of
    one task, one request served by the owner, or the end of the owner.

    The scheduler, the clocks, the substreams, the browser and the identity provider are
    all adversaries: any answer they can give is a step. *)

From stdpp Require Import gmap.
From S2P Require Import Prelude Domain WireEnterprise EnterpriseSession Provider Programs.
From S2P Require Import CallbackSession EnterpriseResolve.
Open Scope Z_scope.

(** ** Worlds *)

(** What happened that an observer can name.  [x] is an exchange, [h] a callback. *)
Inductive event :=
| Registered (x : nat) (state : OAuthState.t) (session : EnterpriseResolveSession.t)
| Took (h : nat) (state : OAuthState.t) (x : nat) (now : MonotonicTime.t)
| Verified (h : nat) (provider : EnterpriseProvider.t) (code : list Z) (identity : MemberIdentity.t)
| Committed (h x : nat) (reading : Z)
| Cancelled (x : nat)
| Answered (x : nat) (locator : Locator.t) (target : EnterpriseResolveResponse.t)
| Wrote (x : nat) (message : EnterpriseResolveResponse.t).

(** [CallbackRegistryRequest]; [h] is where the reply goes. *)
Inductive request :=
| Take (state : OAuthState.t) (now : MonotonicTime.t) (h : nat)
| Complete (entry : CallbackEntry.t) (result : CallbackResult.t) (deadline : Z) (h : nat).

Record shared := Sh {
  alive : bool;
  registry : CallbackRegistry.t;
  queue : list request;
  outcomes : gmap nat CallbackCompletion.t;
  cancels : gset nat;
  take_replies : gmap nat (option CallbackEntry.t);
  complete_replies : gmap nat CallbackResult.t;
  log : list event;
}.

(** What a browser sent: the route's provider, the parsed outcome, the state parameter,
    and the deadline of its connection. *)
Record callback := MkCallback {
  cb_provider : EnterpriseProvider.t;
  cb_authorization : CallbackAuthorization.t;
  cb_state : list Z;
  cb_deadline : Z;
}.

Record world := World {
  shared_of : shared;
  exchanges : gmap nat (prog ExchangeEffect.t result);
  handlers : gmap nat (callback * prog HandlerEffect.t CallbackResult.t);
}.

Definition returned {E} `{Effect E} {A} (p : prog E A) : bool :=
  match p with Ret _ => true | _ => false end.

Definition emit (s : shared) (es : list event) : shared :=
  Sh (alive s) (registry s) (queue s) (outcomes s) (cancels s) (take_replies s) (complete_replies s)
     (log s ++ es).
Definition set_registry (s : shared) (reg : CallbackRegistry.t) : shared :=
  Sh (alive s) reg (queue s) (outcomes s) (cancels s) (take_replies s) (complete_replies s) (log s).
Definition set_queue (s : shared) (q : list request) : shared :=
  Sh (alive s) (registry s) q (outcomes s) (cancels s) (take_replies s) (complete_replies s) (log s).
Definition signal_cancel (s : shared) (x : nat) : shared :=
  Sh (alive s) (registry s) (queue s) (outcomes s) ({[ x ]} ∪ cancels s) (take_replies s)
     (complete_replies s) (log s).
Definition reply_take (s : shared) (h : nat) (o : option CallbackEntry.t) : shared :=
  Sh (alive s) (registry s) (queue s) (outcomes s) (cancels s) (<[ h := o ]> (take_replies s))
     (complete_replies s) (log s).
Definition reply_complete (s : shared) (h : nat) (r : CallbackResult.t) : shared :=
  Sh (alive s) (registry s) (queue s) (outcomes s) (cancels s) (take_replies s)
     (<[ h := r ]> (complete_replies s)) (log s).
(** The sending half of the outcome channel is consumed. *)
Definition send_outcome (s : shared) (x : nat) (c : CallbackCompletion.t) : shared :=
  Sh (alive s) (registry s) (queue s) (<[ x := c ]> (outcomes s)) (cancels s) (take_replies s)
     (complete_replies s) (log s).

Section Flow.
Context `{UrlApi} `{Base64Url} {R : Type} `{SecureRandom R}.
Context (credentials : ProviderCredentials.t) (callback_url : CallbackExternalUrl.t).

(** ** What the effects of an exchange do *)

(** The errors of reading from and writing to a substream. *)
Definition stream_result {A} (P : A -> Prop) (r : res ProtocolTaskError.t A) : Prop :=
  match r with
  | Ok a => P a
  | Err (ProtocolTaskError.Timeout | ProtocolTaskError.Io) => True
  | _ => False
  end.

Definition exchange_sem (x : nat) (s : shared) (e : ExchangeEffect.t)
  : answer e -> shared -> Prop :=
  match e with
  | ExchangeEffect.ReadTimeout n | ExchangeEffect.ReadDeadline n _ => fun r s' =>
    stream_result (fun l => bytes l /\ zlen l = n) r /\ s' = s
  | ExchangeEffect.WriteTimeout m => fun r s' => stream_result (fun _ => True) r /\ s' = emit s [Wrote x m]
  | ExchangeEffect.Now => fun _ s' => s' = s
  | ExchangeEffect.AdmitStart => fun r s' =>
    s' = s /\ match r with Ok _ => alive s = true | Err e => e = ProtocolTaskError.OwnerStopped | Panic => False end
  | ExchangeEffect.ResolveTarget l => fun r s' =>
    match r with
    | Ok m => alive s = true /\ s' = emit s [Answered x l m]
    | Err (ProtocolTaskError.OwnerStopped | ProtocolTaskError.Registry _) => s' = s
    | _ => False
    end
  | ExchangeEffect.Register st en now => fun r s' =>
    if alive s then
      let '(r0, reg) := CallbackRegistry.insert (registry s) st en now in
      r = Ok r0 /\
      s' = emit (set_registry s reg)
             (if is_ok r0 then [Registered x st (CallbackEntry.session en)] else [])
    else r = Err ProtocolTaskError.OwnerStopped /\ s' = s
  | ExchangeEffect.Remove st => fun r s' =>
    if alive s then
      let '(o, reg) := CallbackRegistry.remove (registry s) st in
      r = Ok o /\ s' = set_registry s reg
    else r = Err ProtocolTaskError.OwnerStopped /\ s' = s
  | ExchangeEffect.Cancel => fun _ s' => s' = emit (signal_cancel s x) [Cancelled x]
  | ExchangeEffect.DropCancel => fun _ s' => s' = signal_cancel s x
  | ExchangeEffect.SelectOutcome _ => fun r s' =>
    s' = s /\
    match r with
    | ExchangeEffect.OutcomeReceived (Some c) => outcomes s !! x = Some c
    (* the sending half is gone: no outcome was sent and no table entry holds it *)
    | ExchangeEffect.OutcomeReceived None =>
      outcomes s !! x = None /\
      map_Forall (fun _ en => CallbackEntry.outcome en <> x) (CallbackRegistry.transactions (registry s))
    | ExchangeEffect.LifetimeElapsed => True
    | ExchangeEffect.PeerClosed r => stream_result (fun _ => True) r
    end
  end.

(** ** What the effects of a callback do *)

Definition handler_sem (h : nat) (s : shared) (e : HandlerEffect.t) : answer e -> shared -> Prop :=
  match e with
  | HandlerEffect.Now => fun _ s' => s' = s
  | HandlerEffect.SendTake st now => fun r s' =>
    match r with
    | HandlerEffect.Sent => alive s = true /\ s' = set_queue s (queue s ++ [Take st now h])
    | HandlerEffect.ChannelClosed => alive s = false /\ s' = s
    | HandlerEffect.SendTimedOut => s' = s
    end
  | HandlerEffect.RecvTake => fun r s' =>
    s' = s /\ match r with Some o => take_replies s !! h = Some o | None => True end
  | HandlerEffect.VerifyMember p code c => fun r s' =>
    match r with
    | HandlerEffect.VerificationDone v =>
      v <> Panic /\ (exists provider_answer, v = verify_member p code credentials provider_answer) /\
      s' = emit s (match v with Ok ident => [Verified h p code ident] | _ => [] end)
    | HandlerEffect.CancelSignal => c ∈ cancels s /\ s' = s
    | HandlerEffect.DeadlineReached => s' = s
    end
  | HandlerEffect.Reserve => fun r s' => (r = true -> alive s = true) /\ s' = s
  | HandlerEffect.Complete en result => fun _ s' =>
    s' = send_outcome s (CallbackEntry.outcome en) (CallbackEntry.complete en result)
  | HandlerEffect.SendComplete en result deadline => fun _ s' =>
    s' = if alive s then set_queue s (queue s ++ [Complete en result deadline h]) else s
  | HandlerEffect.RecvComplete => fun r s' =>
    s' = s /\ match r with Some o => complete_replies s !! h = Some o | None => True end
  end.

(** ** The owner *)

(** [handle_callback_registry_request]; [reading] is [Instant::now()]. *)
Definition serve (s : shared) (req : request) (reading : Z) : shared :=
  match req with
  | Take st now h =>
    let '(o, reg) := CallbackRegistry.take (registry s) st now in
    emit (reply_take (set_registry s reg) h o)
      (match o with Some en => [Took h st (CallbackEntry.outcome en) now] | None => [] end)
  | Complete en result deadline h =>
    let requested := bool_decide (CallbackEntry.cancelled en ∈ cancels s) in
    let '(result, en) := commit_completion en result requested (deadline <=? reading) in
    let x := CallbackEntry.outcome en in
    emit (reply_complete (send_outcome s x (CallbackEntry.complete en result)) h result)
      (if bool_decide (result = CallbackResult.CallbackAdmitted) then [Committed h x reading] else [])
  end.

(** When the owner stops, the table and the requests it has not served are dropped. *)
Definition stop (s : shared) : shared :=
  Sh false (CallbackRegistry.with_capacity (CallbackRegistry.capacity (registry s))) []
     (outcomes s) (cancels s) (take_replies s) (complete_replies s) (log s).

(** ** Steps *)

(** An exchange that returns drops its cancellation sender. *)
Definition drop_when_returned (x : nat) (p : prog ExchangeEffect.t result) (s : shared) : shared :=
  if returned p then signal_cancel s x else s.

Inductive step : world -> world -> Prop :=
| start_exchange s xs hs x (random : R) :
  xs !! x = None ->
  step (World s xs hs)
    (World s (<[ x := enterprise_resolve_exchange_inner x credentials callback_url random ]> xs) hs)
| start_handler s xs hs h cb :
  hs !! h = None ->
  step (World s xs hs)
    (World s xs
      (<[ h := (cb, handle (cb_provider cb) (cb_authorization cb) (cb_state cb) (cb_deadline cb)) ]> hs))
| exchange_step s xs hs x e k r s' :
  xs !! x = Some (Vis e k) -> exchange_sem x s e r s' ->
  step (World s xs hs) (World (drop_when_returned x (k r) s') (<[ x := k r ]> xs) hs)
| handler_step s xs hs h cb e k r s' :
  hs !! h = Some (cb, Vis e k) -> handler_sem h s e r s' ->
  step (World s xs hs) (World s' xs (<[ h := (cb, k r) ]> hs))
(* [dispatch] drops a handler whose connection deadline passed *)
| handler_timeout s xs hs h cb e k :
  hs !! h = Some (cb, Vis e k) ->
  step (World s xs hs) (World s xs (<[ h := (cb, Ret CallbackResult.Platform) ]> hs))
| owner_serves s xs hs req rest reading :
  alive s = true -> queue s = req :: rest ->
  step (World s xs hs) (World (serve (set_queue s rest) req reading) xs hs)
| owner_stops s xs hs :
  step (World s xs hs) (World (stop s) xs hs).

Definition initial (capacity : Z) : world :=
  World (Sh true (CallbackRegistry.with_capacity capacity) [] ∅ ∅ ∅ ∅ []) ∅ ∅.

Definition reachable (capacity : Z) (w : world) : Prop := rtc step (initial capacity) w.
End Flow.
