(* ===== verification/FlowSafety.v ===== *)
(** * Safety of enterprise transactions

    Each task follows a protocol on its own; the invariant of a world says what the state
    of each task's protocol means for the owner's table, the channels and the history; one
    lemma per effect shows that the invariant is kept.  The theorems at the end are about
    every reachable world. *)

From stdpp Require Import gmap strings functions.
From S2P Require Import Prelude Domain Codec WireEnterprise EnterpriseSession Provider Programs.
From S2P Require Import CallbackSession EnterpriseResolve EnterpriseFlow.
Open Scope list_scope.
Open Scope Z_scope.

(** ** Sessions on their way *)

(** The session and the channels that an exchange registers under its state. *)
Definition fresh_session (st : OAuthState.t) (s : EnterpriseResolveSession.t) : Prop :=
  EnterpriseResolveSession.phase s = Phase.Authenticating /\
  EnterpriseResolveSession.oauth_state s = Some st /\
  EnterpriseResolveSession.identity s = None.

Definition fresh_entry (x : nat) (st : OAuthState.t) (en : CallbackEntry.t) : Prop :=
  CallbackEntry.outcome en = x /\ CallbackEntry.cancelled en = x /\
  CallbackEntry.deadline en = EnterpriseResolveSession.deadline (CallbackEntry.session en) /\
  fresh_session st (CallbackEntry.session en).

(** [s] is the session [s0] after its member was admitted. *)
Definition admitted_from (s0 s : EnterpriseResolveSession.t) : Prop :=
  EnterpriseResolveSession.phase s = Phase.Authenticated /\
  EnterpriseResolveSession.oauth_state s = None /\ EnterpriseResolveSession.identity s = None /\
  EnterpriseResolveSession.locator s = EnterpriseResolveSession.locator s0 /\
  EnterpriseResolveSession.deadline s = EnterpriseResolveSession.deadline s0.

Definition completion_admitted (c : CallbackCompletion.t) : Prop :=
  CallbackCompletion.result c = CallbackResult.CallbackAdmitted.

(** ** The protocol of an exchange *)

Inductive exchange_state :=
| Fresh
| Pending (st : OAuthState.t) (s0 : EnterpriseResolveSession.t)
| Withdrawing (st : OAuthState.t) (s0 : EnterpriseResolveSession.t)
| Got (c : option CallbackCompletion.t)
| Target (l : Locator.t) (m : EnterpriseResolveResponse.t)
| Closed.

Definition exchange_allowed (x : nat) (t : exchange_state) (e : ExchangeEffect.t) : Prop :=
  match e with
  | ExchangeEffect.ReadTimeout _ | ExchangeEffect.ReadDeadline _ _ | ExchangeEffect.Now
  | ExchangeEffect.AdmitStart => True
  | ExchangeEffect.WriteTimeout m =>
    forall peer, m = EnterpriseResolveResponse.Resolved peer -> exists l, t = Target l m
  | ExchangeEffect.ResolveTarget l =>
    exists c, t = Got (Some c) /\ completion_admitted c /\
      l = EnterpriseResolveSession.locator (CallbackCompletion.session c)
  | ExchangeEffect.Register st en _ => t = Fresh /\ fresh_entry x st en
  | ExchangeEffect.Remove st => exists s0, t = Withdrawing st s0
  | ExchangeEffect.Cancel | ExchangeEffect.SelectOutcome _ => exists st s0, t = Pending st s0
  | ExchangeEffect.DropCancel => exists c, t = Got c
  end.

Definition exchange_after (t : exchange_state) (e : ExchangeEffect.t)
  : answer e -> exchange_state -> Prop :=
  match e with
  | ExchangeEffect.ReadTimeout n | ExchangeEffect.ReadDeadline n _ => fun r t' =>
    stream_result (fun l => bytes l /\ zlen l = n) r /\ t' = t
  | ExchangeEffect.WriteTimeout _ => fun r t' => stream_result (fun _ => True) r /\ t' = t
  | ExchangeEffect.Now => fun _ t' => t' = t
  | ExchangeEffect.AdmitStart => fun r t' =>
    t' = t /\ match r with Ok _ => True | Err e => e = ProtocolTaskError.OwnerStopped | Panic => False end
  | ExchangeEffect.ResolveTarget l => fun r t' =>
    match r with
    | Ok m => t' = Target l m
    | Err (ProtocolTaskError.OwnerStopped | ProtocolTaskError.Registry _) => t' = Closed
    | _ => False
    end
  | ExchangeEffect.Register st en _ => fun r t' =>
    match r with
    | Ok (Ok _) => t' = Pending st (CallbackEntry.session en)
    | Ok (Err _) => t' = t
    | Err e => e = ProtocolTaskError.OwnerStopped /\ t' = t
    | _ => False
    end
  | ExchangeEffect.Remove _ => fun r t' =>
    t' = Closed /\ match r with Ok _ => True | Err e => e = ProtocolTaskError.OwnerStopped | Panic => False end
  | ExchangeEffect.Cancel => fun _ t' => exists st s0, t = Pending st s0 /\ t' = Withdrawing st s0
  | ExchangeEffect.DropCancel => fun _ t' => t' = t
  | ExchangeEffect.SelectOutcome _ => fun r t' =>
    match r with
    | ExchangeEffect.OutcomeReceived c =>
      t' = Got c /\ (forall c0, c = Some c0 -> completion_admitted c0 ->
        exists s0, admitted_from s0 (CallbackCompletion.session c0))
    | ExchangeEffect.LifetimeElapsed => t' = t
    | ExchangeEffect.PeerClosed r => stream_result (fun _ => True) r /\ t' = t
    end
  end.

(** An exchange ends with its transaction withdrawn or received, without a panic, and
    rejected by its session only if the random source failed. *)
Definition exchange_final (r : result) (t : exchange_state) : Prop :=
  (forall st s0, t <> Pending st s0 /\ t <> Withdrawing st s0) /\ r <> Panic /\
  (forall e, r = Err (ProtocolTaskError.Session e) -> exists e', e = Random e').

(** ** The protocol of a callback *)

Inductive handler_state :=
| Idle
| Asked (st : OAuthState.t)
| Holding (st : OAuthState.t) (en : CallbackEntry.t)
| Proved (st : OAuthState.t) (en : CallbackEntry.t) (code : list Z) (ident : MemberIdentity.t)
| Committing
| Told (r : option CallbackResult.t)
| Over.

(** The entry that a callback owns in a state. *)
Definition held (t : handler_state) : option CallbackEntry.t :=
  match t with Holding _ en | Proved _ en _ _ => Some en | _ => None end.

Definition same_channels (en en' : CallbackEntry.t) : Prop :=
  CallbackEntry.outcome en' = CallbackEntry.outcome en /\
  CallbackEntry.cancelled en' = CallbackEntry.cancelled en.

Section HandlerProtocol.
Context `{Base64Url} (cb : callback).

Definition handler_allowed (t : handler_state) (e : HandlerEffect.t) : Prop :=
  match e with
  | HandlerEffect.Now => True
  | HandlerEffect.SendTake st _ => t = Idle /\ decode_state (cb_state cb) = Some st
  | HandlerEffect.RecvTake => exists st, t = Asked st
  | HandlerEffect.VerifyMember p code c =>
    exists st en, t = Holding st en /\ p = cb_provider cb /\
      cb_authorization cb = CallbackAuthorization.Code code /\
      EnterpriseResolveSession.provider (CallbackEntry.session en) = Some p
  | HandlerEffect.Reserve => is_Some (held t)
  | HandlerEffect.Complete en' r =>
    r <> CallbackResult.CallbackAdmitted /\ exists en, held t = Some en /\ same_channels en en'
  | HandlerEffect.SendComplete en' r dl =>
    dl = cb_deadline cb /\ exists en, held t = Some en /\ same_channels en en' /\
    (r = CallbackResult.CallbackAdmitted -> exists st code ident, t = Proved st en code ident /\
       admitted_from (CallbackEntry.session en) (CallbackEntry.session en'))
  | HandlerEffect.RecvComplete => t = Committing
  end.

Definition handler_after (t : handler_state) (e : HandlerEffect.t) : answer e -> handler_state -> Prop :=
  match e with
  | HandlerEffect.Now => fun _ t' => t' = t
  | HandlerEffect.SendTake st _ => fun r t' =>
    match r with HandlerEffect.SendTimedOut => t' = Over | _ => t' = Asked st end
  | HandlerEffect.RecvTake => fun r t' =>
    match r with
    | Some (Some en) => exists st x, t = Asked st /\ fresh_entry x st en /\ t' = Holding st en
    | _ => t' = Over
    end
  | HandlerEffect.VerifyMember p code c => fun r t' =>
    match r with
    | HandlerEffect.VerificationDone (Ok ident) =>
      exists st en, t = Holding st en /\ t' = Proved st en code ident
    | HandlerEffect.VerificationDone Panic => False
    | _ => t' = t
    end
  | HandlerEffect.Reserve => fun _ t' => t' = t
  | HandlerEffect.Complete _ _ => fun _ t' => t' = Over
  | HandlerEffect.SendComplete _ _ _ => fun _ t' => t' = Committing
  | HandlerEffect.RecvComplete => fun r t' => t' = Told r
  end.

Definition handler_final (r : CallbackResult.t) (t : handler_state) : Prop :=
  r = CallbackResult.CallbackAdmitted -> t = Told (Some CallbackResult.CallbackAdmitted).
End HandlerProtocol.

(** ** The tasks follow their protocols *)

(** The endpoints that the program parses are URLs. *)
Class UrlLaws `{UrlApi} : Prop := {
  wecom_endpoint : is_Some (url_parse (str "https://login.work.weixin.qq.com/wwlogin/sso/login"%string));
  feishu_endpoint :
    is_Some (url_parse (str "https://accounts.feishu.cn/open-apis/authen/v1/authorize"%string));
}.

(** The answer [r] to an effect that leaves the protocol in one known state. *)
Ltac answered r := let t := fresh "t" in let Ht := fresh "Ht" in intros r t Ht; cbn in Ht; subst t.

Section Follows.
Context `{UrlLaws} `{Base64Url} {R : Type} `{SecureRandom R}.

Lemma authorization_url_no_panic credentials p url st :
  ProviderCredentials.authorization_url credentials p url st <> Panic.
Proof.
  unfold ProviderCredentials.authorization_url, wecom_authorization_url, feishu_authorization_url.
  destruct p.
  - destruct (ProviderCredentials.wecom credentials); [|done]. destruct wecom_endpoint as [u Hu].
    cbn [ok_or mbind res_bind]. rewrite Hu. cbn [expect_some mbind res_bind].
    apply map_err_no_panic, url_new_no_panic.
  - destruct (ProviderCredentials.feishu credentials); [|done]. destruct feishu_endpoint as [u Hu].
    cbn [ok_or mbind res_bind]. rewrite Hu. cbn [expect_some mbind res_bind].
    apply map_err_no_panic, url_new_no_panic.
Qed.

Definition may_end (t : exchange_state) : Prop :=
  forall st s0, t <> Pending st s0 /\ t <> Withdrawing st s0.

(** The result of the stream is the result of the exchange. *)
Lemma final_stream r t :
  stream_result (fun _ : unit => True) r -> may_end t -> exchange_final r t.
Proof. intros Hr Ht. split; [done|]. by destruct r as [?|[]|]. Qed.

(** A final write of something other than a target, in a state that may end. *)
Lemma write_ends x t m :
  (forall peer, m <> EnterpriseResolveResponse.Resolved peer) ->
  may_end t ->
  follows (exchange_allowed x) exchange_after exchange_final t (await (ExchangeEffect.WriteTimeout m)).
Proof.
  intros Hm Ht. cbn. split; [intros peer ->; by destruct (Hm peer)|].
  intros r t' [Hr ->]. by apply final_stream.
Qed.

Lemma final_error x t e :
  may_end t ->
  (forall e', e = ProtocolTaskError.Session e' -> exists e'', e' = Random e'') ->
  follows (exchange_allowed x) exchange_after exchange_final t (Ret (Err e)).
Proof. intros Ht He. split_and!; [done|done|]. intros e' [= ->]. by apply He. Qed.

Lemma withdraw_follows x st s0 k :
  follows (exchange_allowed x) exchange_after exchange_final Closed k ->
  follows (exchange_allowed x) exchange_after exchange_final (Withdrawing st s0) (withdraw st k).
Proof.
  intros Hk. cbn. split; [by exists s0|]. intros r t' [-> Hr].
  destruct r as [o|e|]; cbn [try_]; [done| |done]. apply final_error; [done|]. by subst e.
Qed.

Lemma resolve_admitted_follows x s0 c :
  admitted_from s0 (CallbackCompletion.session c) -> completion_admitted c ->
  follows (exchange_allowed x) exchange_after exchange_final (Got (Some c))
    (resolve_admitted (CallbackCompletion.session c)).
Proof.
  intros (Hp & Ho & Hi & _) Hc. unfold resolve_admitted. cbn [await prog_bind follows]. split; [done|].
  intros now t' ->. destruct (EnterpriseResolveSession.is_expired _ _); [by apply write_ends|].
  unfold EnterpriseResolveSession.begin_resolve, EnterpriseResolveSession.forward.
  rewrite bool_decide_eq_false_2 by (intros Hne; by apply Hne). rewrite Ho, Hi. cbn.
  split; [by exists c|]. intros [m|e|] t' Ht; [subst t'|destruct e; try done; subst t'; by apply final_error|done].
  assert (Hend : follows (exchange_allowed x) exchange_after exchange_final
    (Target (EnterpriseResolveSession.locator (CallbackCompletion.session c)) m)
    (await (ExchangeEffect.WriteTimeout m))).
  { cbn. split; [by eauto|]. intros r t' [Hr ->]. by apply final_stream. }
  destruct m; cbn; exact Hend.
Qed.

Lemma await_callback_follows x st s0 dl url :
  follows (exchange_allowed x) exchange_after exchange_final (Pending st s0) (await_callback st dl url).
Proof.
  unfold await_callback. cbn [await prog_bind follows]. split; [done|].
  intros [[]|e|] t' [Hr ->]; [..|done].
  - split; [done|]. intros now t' ->. split; [by exists st, s0|]. intros [c| |r] t' Ht; cbn [exchange_after] in Ht.
    + destruct Ht as [-> Hc]. cbn [prog_bind follows]. split; [by exists c|]. intros _ t' ->.
      unfold conclude. destruct c as [c|]; cbn [fmap option_fmap option_map default]; [|by apply write_ends].
      destruct (CallbackCompletion.result c) eqn:E; try (by apply write_ends).
      destruct (Hc c eq_refl E) as [s1 Hs1]. by eapply resolve_admitted_follows.
    + subst t'. cbn [prog_bind follows]. split; [by exists st, s0|]. intros _ t' (? & ? & [= -> ->] & ->).
      by apply withdraw_follows, write_ends.
    + destruct Ht as [Hr' ->]. cbn [prog_bind follows]. split; [by exists st, s0|].
      intros _ t' (? & ? & [= -> ->] & ->). apply withdraw_follows. by apply final_stream.
  - cbn [prog_bind follows]. split; [by exists st, s0|]. intros _ t' (? & ? & [= -> ->] & ->).
    apply withdraw_follows, final_error; [done|]. intros e' ->. done.
Qed.

Lemma authenticate_follows x credentials url id s p (random : R) :
  EnterpriseResolveSession.phase s = Phase.ProviderSelection ->
  EnterpriseResolveSession.identity s = None ->
  follows (exchange_allowed x) exchange_after exchange_final Fresh
    (authenticate x credentials url id s p random).
Proof.
  intros Hp Hi. unfold authenticate, EnterpriseResolveSession.select.
  rewrite bool_decide_eq_false_2 by (intros Hne; by apply Hne).
  unfold OAuthState.generate. destruct (try_fill random OAuthState.LEN) as [[b|] r'].
  2:{ apply final_error; [done|]. intros e' [= <-]. by eexists. }
  cbn [try_]. destruct (ProviderCredentials.authorization_url _ _ _ _) as [u|e|] eqn:Hu; cbn [try_].
  2:{ by apply final_error. }
  2:{ by destruct (authorization_url_no_panic _ _ _ _ Hu). }
  cbn [await prog_bind follows]. split; [done|]. answered now. split; [by split|].
  intros [[[]|e|]|e|] t' Ht; cbn [exchange_after] in Ht; cbn [try_ is_ok negb]; try done.
  - subst t'. apply await_callback_follows.
  - subst t'. by apply write_ends.
  - destruct Ht as [-> ->]. by apply final_error.
Qed.

Lemma exchange_follows x credentials url (random : R) :
  follows (exchange_allowed x) exchange_after exchange_final Fresh
    (enterprise_resolve_exchange_inner x credentials url random).
Proof.
  assert (Hend : forall e, (e = ProtocolTaskError.Timeout \/ e = ProtocolTaskError.Io) ->
    follows (exchange_allowed x) exchange_after exchange_final Fresh (Ret (Err e))).
  { intros e [-> | ->]; by apply final_error. }
  unfold enterprise_resolve_exchange_inner. cbn [await prog_bind follows]. split; [done|].
  intros [l|e|] t' [Hr ->]; cbn [try_]; [|destruct e; try done; apply Hend; auto|done].
  destruct Hr as [Hb _]. destruct (EnterpriseStart.decode l) as [start|e|] eqn:Hd; cbn [try_].
  2:{ by apply final_error. }
  2:{ by destruct (cc_dec_no_panic _ _ _ _ enterprise_start_codec_lemma l Hb). }
  cbn [await prog_bind follows]. split; [done|]. intros [a|e|] t' [-> Ha]; cbn [try_]; [| |done].
  2:{ subst e. by apply final_error. }
  destruct a; [|by apply write_ends]. cbn [await prog_bind follows]. split; [done|]. intros now t' ->.
  destruct (try_fill random 8) as [[b|] random']; [|by apply final_error].
  cbn [EnterpriseResolveSession.offer_providers EnterpriseResolveSession.forward].
  unfold EnterpriseResolveSession.offer_providers, EnterpriseResolveSession.forward. cbn [
    EnterpriseResolveSession.new EnterpriseResolveSession.phase].
  rewrite bool_decide_eq_false_2 by (intros Hne; by apply Hne). cbn [try_].
  destruct (ProviderCredentials.providers credentials) as [ps|e|] eqn:Hps; cbn [try_].
  2:{ by apply final_error. }
  2:{ unfold ProviderCredentials.providers, EnterpriseProviders.new in Hps.
      by destruct (negb _ && negb _). }
  cbn [await prog_bind follows]. split; [done|].
  intros [[]|e|] t' [Hr ->]; cbn [try_]; [|destruct e; try done; apply Hend; auto|done].
  cbn [await prog_bind follows]. split; [done|]. answered now2. split; [done|].
  intros [l2|e|] t' [Hr2 ->]; cbn [try_]; [|destruct e; try done; apply Hend; auto|done].
  destruct Hr2 as [Hb2 _]. destruct (EnterpriseSelect.decode l2) as [sel|e|] eqn:Hd2; cbn [try_].
  2:{ by apply final_error. }
  2:{ by destruct (cc_dec_no_panic _ _ _ _ enterprise_select_codec_lemma l2 Hb2). }
  destruct (EnterpriseProviders.contains _ _); cbn [negb]; [|by apply write_ends].
  by apply authenticate_follows.
Qed.

Lemma held_not_told t en r : held t = Some en -> t <> Told r.
Proof. by intros H' ->. Qed.

Lemma finish_entry_follows cb t en en' r dl :
  held t = Some en -> same_channels en en' -> dl = cb_deadline cb ->
  (r = CallbackResult.CallbackAdmitted -> exists st code ident, t = Proved st en code ident /\
     admitted_from (CallbackEntry.session en) (CallbackEntry.session en')) ->
  follows (handler_allowed cb) handler_after handler_final t (finish_entry en' r dl).
Proof.
  intros Ht Hs -> Hr. unfold finish_entry. cbn [await prog_bind follows]. split; [by eexists|].
  answered permit. destruct permit; cbn [negb await prog_bind follows].
  - split; [split; [done|by exists en]|]. answered u. split; [done|]. answered o. intros Ho. destruct o; by subst.
  - split; [by split; [|exists en; destruct Hs]|]. by answered u.
Qed.

(** A session that was never called back and gets its own state and an identity is
    admitted. *)
Lemma admit_member_fresh x st en ident :
  fresh_entry x st en ->
  exists s, admit_member en st ident =
    (CallbackResult.CallbackAdmitted, CallbackEntry.set_session en s) /\
  admitted_from (CallbackEntry.session en) s.
Proof.
  intros (_ & _ & _ & Hp & Ho & Hi). destruct en as [s out can id dl]. cbn [CallbackEntry.session] in *.
  destruct s as [rid loc sdl ph pr os ide tp]. cbn in Hp, Ho, Hi. subst.
  unfold admit_member. cbn [CallbackEntry.session].
  unfold EnterpriseResolveSession.callback, EnterpriseResolveSession.forward. cbn.
  rewrite (bool_decide_eq_false_2 (st <> st)) by (intros Hne; by apply Hne). cbn.
  by eexists.
Qed.

Lemma settle_follows x st en sel :
  fresh_entry x st en ->
  same_channels en (settle en st sel).2 /\
  ((settle en st sel).1 = CallbackResult.CallbackAdmitted ->
   exists ident, sel = HandlerEffect.VerificationDone (Ok ident) /\
     admitted_from (CallbackEntry.session en) (CallbackEntry.session (settle en st sel).2)).
Proof.
  intros Hf. destruct sel as [[ident|[]|]| |]; try (by split; [by split|]).
  destruct (admit_member_fresh x st en ident Hf) as (s & Hs & Ha). cbn [settle]. rewrite Hs.
  split; [by split|]. intros _. by exists ident.
Qed.

Lemma handler_follows cb :
  follows (handler_allowed cb) handler_after handler_final Idle
    (handle (cb_provider cb) (cb_authorization cb) (cb_state cb) (cb_deadline cb)).
Proof.
  unfold handle. cbn [await prog_bind follows]. split; [done|]. answered now.
  destruct (decode_state (cb_state cb)) as [st|] eqn:Hst; [|done].
  cbn [await prog_bind follows]. split; [done|]. intros sent t0 Ht0.
  assert (Hasked : follows (handler_allowed cb) handler_after handler_final Over (Ret CallbackResult.Platform))
    by done.
  destruct sent; cbn in Ht0; subst t0; [| |done].
  all: cbn [await prog_bind follows]; split; [by eexists|]; intros o t0 Ht0;
    destruct o as [[en|]|]; cbn in Ht0; [|by subst t0..];
    destruct Ht0 as (st' & x & [= <-] & Hf & ->);
    case_bool_decide as Hp;
    [apply follows_bind, (follows_mono _ _ handler_final); [done|];
     by apply (finish_entry_follows _ _ en)|];
    apply follows_bind;
    destruct (cb_authorization cb) as [code| |] eqn:Ha; cbn [authorize await prog_bind follows];
    [|by apply (finish_entry_follows _ _ en)..];
    (split; [by exists st, en|]); intros sel t0 Ht0;
    destruct (settle_follows x st en sel Hf) as [Hc Hadm];
    destruct sel as [[ident|e|]| |]; cbn in Ht0; try done;
    [destruct Ht0 as (? & ? & [= <- <-] & ->);
     apply (finish_entry_follows _ _ en); [done|done|done|];
     intros Hr; destruct (Hadm Hr) as (ident' & [= <-] & Hs); by exists st, code, ident
    |subst t0; apply (finish_entry_follows _ _ en); [done|done|done|];
     intros Hr; by destruct (Hadm Hr) as (? & ? & _)..].
Qed.
End Follows.

(** ** Histories *)

Section Histories.
Context `{Base64Url}.
Context (who : nat -> option callback).

(** Callback [h] presented [st]. *)
Definition presents (h : nat) (st : OAuthState.t) : Prop :=
  exists cb, who h = Some cb /\ decode_state (cb_state cb) = Some st.

(** [h] presented the state of [x], whose transaction was in the table and not expired when
    the owner handed it out. *)
Definition took_by (l : list event) (h x : nat) (st : OAuthState.t) (s0 : EnterpriseResolveSession.t) : Prop :=
  presents h st /\
  exists now, MonotonicTime.elapsed now < MonotonicTime.elapsed (EnterpriseResolveSession.deadline s0) /\
    [Registered x st s0; Took h st x now] `sublist_of` l.

(** Then the provider that [x] had selected, asked with the code that [h] carried, vouched
    for a member; then came [rest]. *)
Definition proved_by (l : list event) (h x : nat) (s0 : EnterpriseResolveSession.t) (rest : list event)
  : Prop :=
  exists cb st now p code ident,
    who h = Some cb /\ decode_state (cb_state cb) = Some st /\ cb_provider cb = p /\
    cb_authorization cb = CallbackAuthorization.Code code /\
    EnterpriseResolveSession.provider s0 = Some p /\
    MonotonicTime.elapsed now < MonotonicTime.elapsed (EnterpriseResolveSession.deadline s0) /\
    [Registered x st s0; Took h st x now; Verified h p code ident] ++ rest `sublist_of` l.

Lemma took_by_mono l es h x st s0 : took_by l h x st s0 -> took_by (l ++ es) h x st s0.
Proof. intros (? & now & ? & ?). split; [done|]. exists now. split; [done|]. by apply sublist_inserts_r. Qed.

Lemma proved_by_mono l es h x s0 rest : proved_by l h x s0 rest -> proved_by (l ++ es) h x s0 rest.
Proof.
  intros (cb & st & now & p & code & ident & Hw). exists cb, st, now, p, code, ident.
  destruct_and! Hw. split_and!; try done. by apply sublist_inserts_r.
Qed.

Lemma proved_by_snoc l e h x s0 rest :
  proved_by l h x s0 rest -> proved_by (l ++ [e]) h x s0 (rest ++ [e]).
Proof.
  intros (cb & st & now & p & code & ident & Hw). exists cb, st, now, p, code, ident.
  destruct_and! Hw. split_and!; try done. rewrite app_assoc. by apply sublist_app.
Qed.

Lemma took_by_in l h x st s0 :
  took_by l h x st s0 -> Registered x st s0 ∈ l /\ exists now, Took h st x now ∈ l.
Proof.
  intros (_ & now & _ & Hs). split; [|exists now]; (eapply elem_of_sublist; [|done]); set_solver.
Qed.
End Histories.

(** A pair of events of a longer history: an older pair, or the new event closes it. *)
Lemma pair_snoc (a b e : event) l :
  [a; b] `sublist_of` l ++ [e] -> [a; b] `sublist_of` l \/ (a ∈ l /\ b = e).
Proof.
  intros Hs. apply sublist_app_r in Hs as (k1 & k2 & Heq & H1 & H2).
  apply sublist_cons_r in H2 as [H2|(k' & -> & H2)].
  - apply sublist_nil_r in H2 as ->. left. rewrite app_nil_r in Heq. by subst.
  - apply sublist_nil_r in H2 as ->. apply (app_inj_tail [a] k1 b e) in Heq as [<- ->].
    right. split; [|done]. eapply elem_of_sublist; [|done]. set_solver.
Qed.

(** ** The invariant *)

(** The exchange is still waiting for its transaction. *)
Definition waits (t : exchange_state) (st : OAuthState.t) (s0 : EnterpriseResolveSession.t) : Prop :=
  t = Pending st s0 \/ t = Withdrawing st s0.

(** The transaction of [x] was handed out. *)
Definition taken (l : list event) (x : nat) : Prop := exists h st now, Took h st x now ∈ l.

Lemma taken_mono l es x : taken l x -> taken (l ++ es) x.
Proof. intros (h & st & now & Hin). exists h, st, now. apply elem_of_app. by left. Qed.

Section Invariant.
Context `{Base64Url}.

Definition handler_knows (who : nat -> option callback) (l : list event) (h : nat) (t : handler_state)
  : Prop :=
  match t with
  | Asked st => presents who h st
  | Holding st en =>
    fresh_entry (CallbackEntry.outcome en) st en /\
    took_by who l h (CallbackEntry.outcome en) st (CallbackEntry.session en)
  | Proved st en code ident =>
    fresh_entry (CallbackEntry.outcome en) st en /\
    proved_by who l h (CallbackEntry.outcome en) (CallbackEntry.session en) []
  | Told (Some CallbackResult.CallbackAdmitted) => exists x now, Committed h x now ∈ l
  | _ => True
  end.

Definition exchange_knows (who : nat -> option callback) (l : list event) (x : nat) (t : exchange_state)
  : Prop :=
  match t with
  | Fresh => forall st s0, Registered x st s0 ∉ l
  | Pending st s0 | Withdrawing st s0 => Registered x st s0 ∈ l
  | Got (Some c) => completion_admitted c -> exists h s0 now,
      proved_by who l h x s0 [Committed h x now] /\ admitted_from s0 (CallbackCompletion.session c)
  | Target loc m => exists h s0 now,
      proved_by who l h x s0 [Committed h x now; Answered x loc m] /\
      loc = EnterpriseResolveSession.locator s0
  | _ => True
  end.

Record inv (who : nat -> option callback) (ts : nat -> exchange_state) (hts : nat -> handler_state)
    (s : shared) : Prop := {
  i_exchange x : exchange_knows who (log s) x (ts x);
  i_handler h : handler_knows who (log s) h (hts h);
  i_table st en : CallbackRegistry.transactions (registry s) !! st = Some en ->
    fresh_entry (CallbackEntry.outcome en) st en /\
    waits (ts (CallbackEntry.outcome en)) st (CallbackEntry.session en) /\
    forall h st' now, Took h st' (CallbackEntry.outcome en) now ∉ log s;
  i_stopped : alive s = false -> CallbackRegistry.transactions (registry s) = ∅;
  i_size : CallbackRegistry.len (registry s) <= CallbackRegistry.capacity (registry s);
  i_take st now h : Take st now h ∈ queue s -> presents who h st;
  i_reply h en : take_replies s !! h = Some (Some en) -> exists st,
    fresh_entry (CallbackEntry.outcome en) st en /\
    took_by who (log s) h (CallbackEntry.outcome en) st (CallbackEntry.session en);
  i_complete en r dl h : Complete en r dl h ∈ queue s ->
    CallbackEntry.cancelled en = CallbackEntry.outcome en /\ taken (log s) (CallbackEntry.outcome en) /\
    (r = CallbackResult.CallbackAdmitted -> exists s0,
       proved_by who (log s) h (CallbackEntry.outcome en) s0 [] /\
       admitted_from s0 (CallbackEntry.session en));
  i_sent x c : outcomes s !! x = Some c -> taken (log s) x;
  i_outcome x c : outcomes s !! x = Some c -> completion_admitted c -> exists h s0 now,
    proved_by who (log s) h x s0 [Committed h x now] /\ admitted_from s0 (CallbackCompletion.session c);
  i_took h st x now : Took h st x now ∈ log s -> exists s0, Registered x st s0 ∈ log s;
  i_wrote x peer : Wrote x (EnterpriseResolveResponse.Resolved peer) ∈ log s -> exists h s0 now,
    proved_by who (log s) h x s0
      [Committed h x now; Answered x (EnterpriseResolveSession.locator s0) (EnterpriseResolveResponse.Resolved peer);
       Wrote x (EnterpriseResolveResponse.Resolved peer)];
  i_cancelled x : Cancelled x ∈ log s -> x ∈ cancels s;
  i_invalidated x h now : ~ [Cancelled x; Committed h x now] `sublist_of` log s;
  i_once x h1 st1 n1 h2 st2 n2 : ~ [Took h1 st1 x n1; Took h2 st2 x n2] `sublist_of` log s;
  i_told h : complete_replies s !! h = Some CallbackResult.CallbackAdmitted ->
    exists x now, Committed h x now ∈ log s;
  i_deadline en r dl h : Complete en r dl h ∈ queue s -> exists cb, who h = Some cb /\ dl = cb_deadline cb;
  i_committed h x now : Committed h x now ∈ log s -> exists cb, who h = Some cb /\ now < cb_deadline cb;
}.

(** Everything but the table's waiting exchanges only mentions a task through what it
    knows. *)
Lemma inv_exchange who ts hts s x t :
  inv who ts hts s -> exchange_knows who (log s) x t ->
  (forall st en, CallbackRegistry.transactions (registry s) !! st = Some en ->
     CallbackEntry.outcome en = x -> waits (ts x) st (CallbackEntry.session en) ->
     waits t st (CallbackEntry.session en)) ->
  inv who (<[ x := t ]> ts) hts s.
Proof.
  intros [] Hk Hw. constructor; try done.
  - intros y. destruct (decide (x = y)) as [<-|]; [by rewrite fn_lookup_insert|by rewrite fn_lookup_insert_ne].
  - intros st en Hen. destruct (i_table0 st en Hen) as (? & Hwt & ?). split_and!; try done.
    destruct (decide (x = CallbackEntry.outcome en)) as [->|];
      [rewrite fn_lookup_insert; by eapply Hw|by rewrite fn_lookup_insert_ne].
Qed.

Lemma inv_ext who ts ts' hts s : (forall x, ts x = ts' x) -> inv who ts hts s -> inv who ts' hts s.
Proof.
  intros Heq []. constructor; try done; [intros x; by rewrite <- Heq|].
  intros st en Hen. rewrite <- Heq. by apply i_table0.
Qed.

Lemma inv_handler who ts hts s h t :
  inv who ts hts s -> handler_knows who (log s) h t -> inv who ts (<[ h := t ]> hts) s.
Proof.
  intros [] Hk. constructor; try done.
  intros g. destruct (decide (h = g)) as [<-|]; [by rewrite fn_lookup_insert|by rewrite fn_lookup_insert_ne].
Qed.

(** *** More history *)

(** The events that may follow a history. *)
Definition may_follow (who : nat -> option callback) (ts : nat -> exchange_state) (s : shared) (e : event) : Prop :=
  match e with
  | Registered x _ _ => ts x <> Fresh
  | Took h st x _ =>
    (exists s0, Registered x st s0 ∈ log s) /\ (forall h' st' n, Took h' st' x n ∉ log s) /\
    map_Forall (fun _ en => CallbackEntry.outcome en <> x) (CallbackRegistry.transactions (registry s))
  | Committed h x now => x ∉ cancels s /\ exists cb, who h = Some cb /\ now < cb_deadline cb
  | Cancelled x => x ∈ cancels s
  | Wrote x m => forall peer, m = EnterpriseResolveResponse.Resolved peer -> exists loc, ts x = Target loc m
  | _ => True
  end.

Lemma exchange_knows_snoc who ts s x e :
  may_follow who ts s e -> exchange_knows who (log s) x (ts x) -> exchange_knows who (log s ++ [e]) x (ts x).
Proof.
  intros Hm. destruct (ts x) as [| | |[]| |] eqn:Hx; cbn; try done.
  - intros Hn st s0 [Hin|He%list_elem_of_singleton]%elem_of_app; [by eapply Hn|]. subst e. by apply Hm.
  - intros Hin. apply elem_of_app. by left.
  - intros Hin. apply elem_of_app. by left.
  - intros Hk Hc. destruct (Hk Hc) as (h & s0 & now & ? & ?). exists h, s0, now. eauto using proved_by_mono.
  - intros (h & s0 & now & ? & ?). exists h, s0, now. eauto using proved_by_mono.
Qed.

Lemma handler_knows_mono who l es h t : handler_knows who l h t -> handler_knows who (l ++ es) h t.
Proof.
  destruct t as [| | | | |[[]|]|]; cbn; try done.
  - intros []. eauto using took_by_mono.
  - intros []. eauto using proved_by_mono.
  - intros (x & now & Hx). exists x, now. apply elem_of_app. by left.
Qed.

(** Splits membership in a history that got one more event. *)
Ltac older Hin := apply elem_of_app in Hin as [Hin|Hin%list_elem_of_singleton].

Lemma inv_emit who ts hts s e :
  inv who ts hts s -> may_follow who ts s e -> inv who ts hts (emit s [e]).
Proof.
  intros Hi Hm. pose proof Hi as []. constructor; cbn [emit log registry queue outcomes cancels
    take_replies complete_replies]; try done.
  - intros x. by apply exchange_knows_snoc.
  - intros h. by apply handler_knows_mono.
  - intros st en Hen. destruct (i_table0 st en Hen) as (? & ? & Hu). split_and!; try done.
    intros h st' now Hin. older Hin; [by eapply Hu|]. subst e. destruct Hm as (_ & _ & Ht).
    by apply (Ht st en Hen).
  - intros h en Hr. destruct (i_reply0 h en Hr) as (st & ? & ?). eauto using took_by_mono.
  - intros en r dl h Hin. destruct (i_complete0 en r dl h Hin) as (? & ? & Hr). split; [done|].
    split; [by apply taken_mono|]. intros Ha. destruct (Hr Ha) as (s0 & ? & ?). eauto using proved_by_mono.
  - intros x c Hc. apply taken_mono. by eapply i_sent0.
  - intros x c Hc Ha. destruct (i_outcome0 x c Hc Ha) as (h & s0 & now & ? & ?). exists h, s0, now. eauto using proved_by_mono.
  - intros h st x now Hin. older Hin; [|subst e; destruct Hm as ((s0 & Hs0) & _)];
      [destruct (i_took0 _ _ _ _ Hin) as [s0 Hs0]|]; exists s0; apply elem_of_app; by left.
  - intros x peer Hin. older Hin.
    + destruct (i_wrote0 _ _ Hin) as (h & s0 & now & ?). exists h, s0, now. eauto using proved_by_mono.
    + subst e. destruct (Hm peer eq_refl) as [loc Hx]. pose proof (i_exchange0 x) as Hk. rewrite Hx in Hk.
      destruct Hk as (h & s0 & now & Hp & ->). exists h, s0, now. exact (proved_by_snoc _ _ _ _ _ _ _ Hp).
  - intros x Hin. older Hin; [by apply i_cancelled0|]. by subst e.
  - intros x h now [Hs|[Hin <-]]%pair_snoc; [by eapply i_invalidated0|]. by apply Hm, i_cancelled0.
  - intros x h1 st1 n1 h2 st2 n2 [Hs|[Hin <-]]%pair_snoc; [by eapply i_once0|].
    destruct Hm as (_ & Hu & _). by eapply Hu.
  - intros h Hr. destruct (i_told0 h Hr) as (x & now & Hx). exists x, now. apply elem_of_app. by left.
  - intros h x now Hin. older Hin; [by eapply i_committed0|]. subst e. apply Hm.
Qed.

(** *** The table *)

Lemma inv_shrink who ts hts s reg :
  inv who ts hts s ->
  CallbackRegistry.transactions reg ⊆ CallbackRegistry.transactions (registry s) ->
  CallbackRegistry.capacity reg = CallbackRegistry.capacity (registry s) ->
  inv who ts hts (set_registry s reg).
Proof.
  intros [] Hsub Hcap. constructor; try done.
  - intros st en Hen. apply i_table0. by eapply lookup_weaken.
  - cbn. intros Ha. rewrite (i_stopped0 Ha) in Hsub. apply map_eq. intros st. rewrite lookup_empty.
    apply eq_None_not_Some. intros [en Hen]. eapply lookup_weaken in Hen; [|done]. by rewrite lookup_empty in Hen.
  - cbn. rewrite Hcap. unfold CallbackRegistry.len in *. apply map_subseteq_size in Hsub. lia.
Qed.

Lemma inv_insert who ts hts s x st en :
  inv who ts hts s -> alive s = true -> fresh_entry x st en -> waits (ts x) st (CallbackEntry.session en) ->
  (forall h st' now, Took h st' x now ∉ log s) ->
  CallbackRegistry.len (registry s) < CallbackRegistry.capacity (registry s) ->
  inv who ts hts (set_registry s (CallbackRegistry.Mk
    (<[ st := en ]> (CallbackRegistry.transactions (registry s))) (CallbackRegistry.capacity (registry s)))).
Proof.
  intros [] Hal Hf Hw Hu Hlt. pose proof (proj1 Hf) as Hx. constructor; try done.
  2:{ cbn. by rewrite Hal. }
  - cbn. intros st' en' [[<- <-]|[_ Hen]]%lookup_insert_Some; [|by apply i_table0]. by rewrite Hx.
  - cbn. unfold CallbackRegistry.len in *. cbn. rewrite map_size_insert. destruct (_ !! _); cbn; lia.
Qed.

(** *** The channels *)

Lemma inv_queue who ts hts s q :
  inv who ts hts s ->
  (forall st now h, Take st now h ∈ q -> presents who h st) ->
  (forall en r dl h, Complete en r dl h ∈ q ->
    CallbackEntry.cancelled en = CallbackEntry.outcome en /\ taken (log s) (CallbackEntry.outcome en) /\
    (r = CallbackResult.CallbackAdmitted -> exists s0,
       proved_by who (log s) h (CallbackEntry.outcome en) s0 [] /\
       admitted_from s0 (CallbackEntry.session en))) ->
  (forall en r dl h, Complete en r dl h ∈ q -> exists cb, who h = Some cb /\ dl = cb_deadline cb) ->
  inv who ts hts (set_queue s q).
Proof. intros [] Ht Hc Hd. by constructor. Qed.

Lemma inv_reply_take who ts hts s h o :
  inv who ts hts s ->
  (forall en, o = Some en -> exists st, fresh_entry (CallbackEntry.outcome en) st en /\
     took_by who (log s) h (CallbackEntry.outcome en) st (CallbackEntry.session en)) ->
  inv who ts hts (reply_take s h o).
Proof.
  intros [] Ho. constructor; try done. cbn.
  intros g en [[<- ->]|[_ Hr]]%lookup_insert_Some; [by apply Ho|by apply i_reply0].
Qed.

Lemma inv_reply_complete who ts hts s h r :
  inv who ts hts s ->
  (r = CallbackResult.CallbackAdmitted -> exists x now, Committed h x now ∈ log s) ->
  inv who ts hts (reply_complete s h r).
Proof.
  intros [] Hr. constructor; try done. cbn.
  intros g [[<- ->]|[_ Hg]]%lookup_insert_Some; [by apply Hr|by apply i_told0].
Qed.

Lemma inv_outcome who ts hts s x c :
  inv who ts hts s -> taken (log s) x ->
  (completion_admitted c -> exists h s0 now, proved_by who (log s) h x s0 [Committed h x now] /\
     admitted_from s0 (CallbackCompletion.session c)) ->
  inv who ts hts (send_outcome s x c).
Proof.
  intros [] Ht Hc. constructor; try done; cbn.
  - intros y d [[<- _]|[_ Hy]]%lookup_insert_Some; [done|by eapply i_sent0].
  - intros y d [[<- <-]|[_ Hy]]%lookup_insert_Some Hd; [by apply Hc|by apply i_outcome0].
Qed.

Lemma inv_signal who ts hts s x : inv who ts hts s -> inv who ts hts (signal_cancel s x).
Proof. intros []. constructor; try done. cbn. intros y Hy. apply elem_of_union_r, i_cancelled0, Hy. Qed.
End Invariant.

(** ** Every effect keeps the invariant *)

Section Effects.
Context `{UrlApi} `{Base64Url}.
Context (credentials : ProviderCredentials.t).
Context (who : nat -> option callback).

Lemma inv_same ts hts s x : inv who ts hts s -> inv who (<[ x := ts x ]> ts) hts s.
Proof. intros Hi. apply inv_exchange; [done|apply Hi|done]. Qed.

Lemma inv_same_handler ts hts s h : inv who ts hts s -> inv who ts (<[ h := hts h ]> hts) s.
Proof. intros Hi. apply inv_handler; [done|apply Hi]. Qed.

(** A write in a state that admits it. *)
Lemma inv_write ts hts s x m :
  inv who ts hts s -> exchange_allowed x (ts x) (ExchangeEffect.WriteTimeout m) ->
  inv who ts hts (emit s [Wrote x m]).
Proof. intros Hi Ha. by apply inv_emit. Qed.

(** A registered exchange was not taken before. *)
Lemma fresh_untaken ts hts s x : inv who ts hts s -> ts x = Fresh -> forall h st now, Took h st x now ∉ log s.
Proof.
  intros Hi Hx h st now Hin. destruct (i_took _ _ _ _ Hi _ _ _ _ Hin) as [s0 Hs0].
  pose proof (i_exchange _ _ _ _ Hi x) as Hk. rewrite Hx in Hk. by eapply Hk.
Qed.

Lemma sweep_sub m now : CallbackRegistry.sweep m now ⊆ m.
Proof. apply map_filter_subseteq. Qed.

Lemma register_keeps ts hts s x st en now r reg :
  inv who ts hts s -> alive s = true -> ts x = Fresh -> fresh_entry x st en ->
  CallbackRegistry.insert (registry s) st en now = (r, reg) ->
  match r with
  | Ok _ => inv who (<[ x := Pending st (CallbackEntry.session en) ]> ts) hts
              (emit (set_registry s reg) [Registered x st (CallbackEntry.session en)])
  | Err _ => inv who (<[ x := Fresh ]> ts) hts (set_registry s reg)
  | Panic => False
  end.
Proof.
  intros Hi Hal Hx Hf. unfold CallbackRegistry.insert.
  set (swept := CallbackRegistry.Mk (CallbackRegistry.sweep (CallbackRegistry.transactions (registry s)) now)
                  (CallbackRegistry.capacity (registry s))).
  pose proof (inv_shrink who ts hts s swept Hi ltac:(apply sweep_sub) eq_refl) as Hs.
  assert (Hkeep : inv who (<[ x := Fresh ]> ts) hts (set_registry s swept)).
  { rewrite <- Hx. by apply inv_same. }
  case_bool_decide as Hd; [by intros [= <- <-]|].
  destruct (_ <=? _) eqn:Hc; [by intros [= <- <-]|]. apply Z.leb_gt in Hc.
  apply eq_None_not_Some in Hd. rewrite bool_decide_eq_true_2 by done. intros [= <- <-].
  pose proof (fresh_untaken _ _ _ _ Hi Hx) as Hu.
  assert (Hp : inv who (<[ x := Closed ]> ts) hts (set_registry s swept)).
  { apply inv_exchange; [done|done|]. rewrite Hx. by intros ? ? _ _ [|]. }
  apply (inv_emit _ _ _ _ (Registered x st (CallbackEntry.session en))) in Hp;
    [|cbn; by rewrite fn_lookup_insert].
  apply (inv_exchange _ _ _ _ x (Pending st (CallbackEntry.session en))) in Hp;
    [|cbn; apply elem_of_app; right; by apply list_elem_of_singleton
     |rewrite fn_lookup_insert; by intros ? ? _ _ [|]].
  apply (inv_ext who _ (<[ x := Pending st (CallbackEntry.session en) ]> ts)) in Hp.
  2:{ intros y. destruct (decide (x = y)) as [<-|]; [by rewrite !fn_lookup_insert|by rewrite !fn_lookup_insert_ne]. }
  apply (inv_insert _ _ _ _ x st en) in Hp; try done.
  - by rewrite fn_lookup_insert; left.
  - intros h st' n Hin. cbn in Hin. apply elem_of_app in Hin as [Hin|Hin%list_elem_of_singleton]; [|done].
    by eapply Hu.
Qed.

Lemma remove_keeps ts hts s x st s0 :
  inv who ts hts s -> ts x = Withdrawing st s0 ->
  inv who (<[ x := Closed ]> ts) hts (set_registry s (CallbackRegistry.remove (registry s) st).2).
Proof.
  intros Hi Hx. apply (inv_shrink _ _ _ _ (CallbackRegistry.remove (registry s) st).2) in Hi;
    [|apply delete_subseteq|done]. pose proof Hi as [].
  constructor; try done.
  - intros y. destruct (decide (x = y)) as [<-|]; [by rewrite fn_lookup_insert|by rewrite fn_lookup_insert_ne].
  - intros st' en Hen. destruct (i_table0 st' en Hen) as (? & Hw & ?). split_and!; try done.
    destruct (decide (x = CallbackEntry.outcome en)) as [Hxe|]; [|by rewrite fn_lookup_insert_ne].
    rewrite <- Hxe, Hx in Hw. exfalso. cbn in Hen. destruct Hw as [|[= -> _]]; [done|].
    by rewrite lookup_delete_eq in Hen.
Qed.

Lemma exchange_keeps ts hts s x e r s' :
  inv who ts hts s -> exchange_allowed x (ts x) e -> exchange_sem x s e r s' ->
  exists t', exchange_after (ts x) e r t' /\ inv who (<[ x := t' ]> ts) hts s'.
Proof.
  intros Hi Ha Hs. destruct e as [n|n d|m| | |l|st en now|st| | |d]; cbn in r, Ha, Hs.
  - destruct Hs as [Hr ->]. exists (ts x). split; [done|by apply inv_same].
  - destruct Hs as [Hr ->]. exists (ts x). split; [done|by apply inv_same].
  - destruct Hs as [Hr ->]. exists (ts x). split; [done|]. by apply inv_same, inv_write.
  - subst s'. exists (ts x). split; [done|by apply inv_same].
  - destruct Hs as [-> Hr]. exists (ts x). split; [by destruct r|by apply inv_same].
  - destruct Ha as (c & Hx & Hc & ->). destruct r as [m|e|].
    + destruct Hs as [_ ->]. eexists. split; [done|].
      pose proof (i_exchange _ _ _ _ Hi x) as Hk. rewrite Hx in Hk. destruct (Hk Hc) as (h & s0 & now & Hp & Hs0).
      apply inv_exchange; [by apply inv_emit| |rewrite Hx; by intros ? ? _ _ [|]].
      exists h, s0, now. split; [exact (proved_by_snoc _ _ _ _ _ _ _ Hp)|by apply Hs0].
    + exists Closed. assert (s' = s) as -> by (by destruct e). split; [by destruct e|].
      apply inv_exchange; [done|done|rewrite Hx; by intros ? ? _ _ [|]].
    + done.
  - destruct Ha as [Hx Hf]. destruct (alive s) eqn:Hal.
    + destruct (CallbackRegistry.insert _ _ _ _) as [r0 reg] eqn:Hins. destruct Hs as [-> ->].
      pose proof (register_keeps _ _ _ _ _ _ _ _ _ Hi Hal Hx Hf Hins) as Hr.
      destruct r0; cbn [is_ok]; [by eexists| |done]. exists (ts x). split; [done|]. rewrite Hx.
      unfold emit. cbn. by rewrite app_nil_r.
    + destruct Hs as [-> ->]. exists (ts x). split; [done|by apply inv_same].
  - destruct Ha as [s0 Hx]. exists Closed. destruct (alive s) eqn:Hal; destruct Hs as [-> ->]; (split; [done|]).
    + by eapply remove_keeps.
    + apply (remove_keeps _ _ _ _ _ _ Hi) in Hx. cbn in Hx. rewrite (i_stopped _ _ _ _ Hi Hal), delete_empty in Hx.
      destruct s as [? [? ?] ? ? ? ? ? ?]. cbn in *. pose proof (i_stopped _ _ _ _ Hi Hal) as He. cbn in He. by subst.
  - destruct Ha as (st & s0 & Hx). subst s'. exists (Withdrawing st s0). split; [by exists st, s0|].
    apply inv_exchange; [apply inv_emit; [by apply inv_signal|cbn; set_solver]| |].
    + pose proof (i_exchange _ _ _ _ Hi x) as Hk. rewrite Hx in Hk. cbn. apply elem_of_app. by left.
    + rewrite Hx. intros ? en _ _ [[= <- <-]|]; [by right|done].
  - subst s'. exists (ts x). split; [done|]. by apply inv_same, inv_signal.
  - destruct Ha as (st & s0 & Hx), Hs as [-> Hr]. pose proof (i_exchange _ _ _ _ Hi x) as Hk.
    destruct r as [[c|]| |r].
    + pose proof (i_outcome _ _ _ _ Hi x c Hr) as Hc. exists (Got (Some c)). split.
      * split; [done|]. intros ? [= <-] Hadm. destruct (Hc Hadm) as (h & s1 & now & _ & ?). by exists s1.
      * apply inv_exchange; [done|exact Hc|]. intros st' en Hen Hout _.
        destruct (i_sent _ _ _ _ Hi x c Hr) as (h & st1 & now & Hin).
        destruct (i_table _ _ _ _ Hi st' en Hen) as (_ & _ & Hu). rewrite Hout in Hu. by destruct (Hu _ _ _ Hin).
    + exists (Got None). split; [done|]. apply inv_exchange; [done|done|]. intros st' en Hen Hout _.
      destruct Hr as [_ Hr]. by destruct (Hr st' en Hen).
    + exists (ts x). split; [done|by apply inv_same].
    + exists (ts x). split; [done|by apply inv_same].
Qed.

Lemma held_taken ts hts s h en :
  inv who ts hts s -> held (hts h) = Some en ->
  CallbackEntry.cancelled en = CallbackEntry.outcome en /\ taken (log s) (CallbackEntry.outcome en).
Proof.
  intros Hi Hh. pose proof (i_handler _ _ _ _ Hi h) as Hk.
  destruct (hts h) as [| |st en'|st en' code ident| | |]; try done; injection Hh as ->.
  - destruct Hk as [(_ & Hc & _) Ht]. split; [done|]. apply took_by_in in Ht as [_ [now Hin]].
    by exists h, st, now.
  - destruct Hk as [(_ & Hc & _) (cb & st' & now & p & c & i & Hp)]. destruct_and! Hp. split; [done|].
    exists h, st', now. eapply elem_of_sublist; [|done]. set_solver.
Qed.

Lemma handler_keeps cb ts hts s h e r s' :
  who h = Some cb -> inv who ts hts s -> handler_allowed cb (hts h) e ->
  handler_sem credentials h s e r s' ->
  exists t', handler_after (hts h) e r t' /\ inv who ts (<[ h := t' ]> hts) s'.
Proof.
  intros Hcb Hi Ha Hs. pose proof (i_handler _ _ _ _ Hi h) as Hk.
  destruct e as [|st now| |p code c| |en r0|en r0 dl|]; cbn in r, Ha, Hs.
  - subst s'. exists (hts h). split; [done|by apply inv_same_handler].
  - destruct Ha as [Hh Hst]. assert (Hp : presents who h st) by (by exists cb).
    destruct r; [destruct Hs as [_ ->]|destruct Hs as [_ ->]|subst s']; (eexists; split; [done|]);
      apply inv_handler; try done.
    apply inv_queue; [done|..].
    + intros ? ? ? [Hin|[= -> -> ->]%list_elem_of_singleton]%elem_of_app; [by eapply (i_take _ _ _ _ Hi)|done].
    + intros en r dl h' [Hin|Hin%list_elem_of_singleton]%elem_of_app; [|done]. by eapply (i_complete _ _ _ _ Hi).
    + intros en r dl h' [Hin|Hin%list_elem_of_singleton]%elem_of_app; [|done]. by eapply (i_deadline _ _ _ _ Hi).
  - destruct Ha as [st Hh], Hs as [-> Hr]. rewrite Hh in Hk |- *.
    destruct r as [[en|]|]; [|exists Over; split; [done|by apply inv_handler]..].
    destruct (i_reply _ _ _ _ Hi h en Hr) as (st' & Hf & Ht). assert (st' = st) as ->.
    { destruct Hk as (? & ? & ?), Ht as [(? & ? & ?) _]. congruence. }
    exists (Holding st en). split; [by exists st, (CallbackEntry.outcome en)|]. by apply inv_handler.
  - destruct Ha as (st & en & Hh & -> & Hau & Hp). rewrite Hh in Hk |- *. destruct Hk as [Hf Ht].
    destruct r as [[ident|e|]| |].
    + destruct Hs as (_ & _ & ->). exists (Proved st en code ident). split; [by exists st, en|].
      apply inv_handler; [by apply inv_emit|]. split; [done|].
      destruct Ht as [(cb' & Hcb' & Hst) (now & Hlt & Hsub)]. assert (cb' = cb) as -> by congruence.
      exists cb, st, now, (cb_provider cb), code, ident. split_and!; try done. cbn.
      apply (sublist_app [_; _] (log s) [_] [_]); [done|reflexivity].
    + destruct Hs as (_ & _ & ->). exists (Holding st en). split; [done|]. unfold emit.
      rewrite app_nil_r. rewrite <- Hh. destruct s. by apply inv_same_handler.
    + by destruct Hs as [? _].
    + destruct Hs as [_ ->]. exists (Holding st en). split; [done|]. rewrite <- Hh. by apply inv_same_handler.
    + subst s'. exists (Holding st en). split; [done|]. rewrite <- Hh. by apply inv_same_handler.
  - destruct Hs as [_ ->]. exists (hts h). split; [done|by apply inv_same_handler].
  - destruct Ha as [Hr (en0 & Hh & Ho & Hc)]. subst s'. exists Over. split; [done|].
    destruct (held_taken _ _ _ _ _ Hi Hh) as [_ Ht].
    apply inv_handler; [|done]. apply inv_outcome; [done|by rewrite Ho|done].
  - destruct Ha as (-> & en0 & Hh & [Ho Hc] & Hr). subst s'. exists Committing. split; [done|].
    destruct (held_taken _ _ _ _ _ Hi Hh) as [Hc0 Ht].
    apply inv_handler; [|done]. destruct (alive s); [|done]. apply inv_queue; [done|..].
    + intros st now h' [Hin|Hin%list_elem_of_singleton]%elem_of_app; [by eapply (i_take _ _ _ _ Hi)|done].
    + intros en' r' dl' h' [Hin|[= -> -> -> ->]%list_elem_of_singleton]%elem_of_app;
        [by eapply (i_complete _ _ _ _ Hi)|]. split_and!; [congruence|by rewrite Ho|].
      intros Hadm. destruct (Hr Hadm) as (st & code & ident & Hh' & Hs0).
      rewrite Hh' in Hk. exists (CallbackEntry.session en0). rewrite Ho. by destruct Hk.
    + intros en' r' dl' h' [Hin|[= -> -> -> ->]%list_elem_of_singleton]%elem_of_app;
        [by eapply (i_deadline _ _ _ _ Hi)|by exists cb].
  - destruct Hs as [-> Hr]. exists (Told r). split; [done|]. apply inv_handler; [done|].
    destruct r as [[]|]; try done. by apply (i_told _ _ _ _ Hi).
Qed.

Lemma serve_keeps ts hts s req rest reading :
  inv who ts hts s -> queue s = req :: rest -> inv who ts hts (serve (set_queue s rest) req reading).
Proof.
  intros Hi Hq.
  assert (Hreq : req ∈ queue s) by (rewrite Hq; by left).
  assert (Hrest : inv who ts hts (set_queue s rest)).
  { apply inv_queue; [done|..]; intros;
      [eapply (i_take _ _ _ _ Hi)|eapply (i_complete _ _ _ _ Hi)|eapply (i_deadline _ _ _ _ Hi)]; rewrite Hq; by right. }
  destruct req as [st now h|en r dl h]; cbn [serve].
  - pose proof (i_take _ _ _ _ Hi _ _ _ Hreq) as Hp.
    cbn [CallbackRegistry.take registry set_queue].
    set (swept := CallbackRegistry.sweep _ _). set (reg := CallbackRegistry.Mk _ _).
    assert (Hsh : inv who ts hts (set_registry (set_queue s rest) reg)).
    { apply inv_shrink; [done| |done]. transitivity swept; [apply delete_subseteq|apply sweep_sub]. }
    destruct (swept !! st) as [en|] eqn:Hen.
    2:{ unfold emit. cbn. rewrite app_nil_r. by apply (inv_reply_take _ _ _ _ h None) in Hsh. }
    apply map_lookup_filter_Some in Hen as [Hen Hlive]. cbn in Hlive.
    destruct (i_table _ _ _ _ Hi st en Hen) as (Hf & Hw & Hu).
    assert (Hreg : Registered (CallbackEntry.outcome en) st (CallbackEntry.session en) ∈ log s).
    { pose proof (i_exchange _ _ _ _ Hi (CallbackEntry.outcome en)) as Hk. by destruct Hw as [Hw|Hw]; rewrite Hw in Hk. }
    apply (inv_emit _ _ _ _ (Took h st (CallbackEntry.outcome en) now)) in Hsh.
    + apply (inv_reply_take _ _ _ _ h (Some en)) in Hsh; [done|]. intros ? [= <-]. exists st. split; [done|].
      split; [done|]. exists now. split.
      * unfold CallbackRegistry.live in Hlive. apply Z.ltb_lt in Hlive. by rewrite <- (proj1 (proj2 (proj2 Hf))).
      * cbn. apply (sublist_app [_] (log s) [_] [_]); [by apply singleton_sublist_l|reflexivity].
    + split_and!; [by eexists|done|]. intros st' en' Hen' Hout. cbn in Hen'.
      apply lookup_delete_Some in Hen' as [Hne Hen']. apply map_lookup_filter_Some in Hen' as [Hen' _].
      destruct (i_table _ _ _ _ Hi st' en' Hen') as (_ & Hw' & _). rewrite Hout in Hw'.
      by destruct Hw as [Hw|Hw], Hw' as [Hw'|Hw']; rewrite Hw in Hw'; simplify_eq.
  - destruct (i_complete _ _ _ _ Hi _ _ _ _ Hreq) as (Hc & Ht & Hadm). cbn [cancels set_queue].
    destruct (commit_completion en r _ _) as [r' en'] eqn:Hcc.
    assert (CallbackEntry.outcome en' = CallbackEntry.outcome en /\
      (r' = CallbackResult.CallbackAdmitted -> r = r' /\ en' = en /\ CallbackEntry.outcome en ∉ cancels s /\ reading < dl))
      as [Ho Hr'].
    { unfold commit_completion in Hcc. case_bool_decide as Hcan; [by simplify_eq|].
      destruct (Z.leb_spec dl reading); simplify_eq; [done|]. split; [done|]. intros _. by rewrite <- Hc. }
    rewrite Ho. clear Hcc. case_bool_decide as Hra.
    + destruct (Hr' Hra) as (-> & -> & Hnc & Hlate). destruct (Hadm Hra) as (s0 & Hpr & Hs0).
      destruct (i_deadline _ _ _ _ Hi _ _ _ _ Hreq) as (cb & Hcb & ->).
      apply (inv_emit _ _ _ _ (Committed h (CallbackEntry.outcome en) reading)) in Hrest; [|split; [done|by exists cb]].
      apply (inv_outcome _ _ _ _ (CallbackEntry.outcome en) (CallbackEntry.complete en r')) in Hrest.
      * apply (inv_reply_complete _ _ _ _ h r') in Hrest; [done|]. intros _.
        exists (CallbackEntry.outcome en), reading. apply elem_of_app. right. by apply list_elem_of_singleton.
      * by apply taken_mono.
      * intros _. exists h, s0, reading. split; [exact (proved_by_snoc _ _ _ _ _ _ _ Hpr)|done].
    + apply (inv_outcome _ _ _ _ (CallbackEntry.outcome en) (CallbackEntry.complete en' r')) in Hrest; [|done|done].
      apply (inv_reply_complete _ _ _ _ h r') in Hrest; [|done]. unfold emit. cbn. by rewrite app_nil_r.
Qed.

Lemma stop_keeps ts hts s : inv who ts hts s -> inv who ts hts (stop s).
Proof.
  intros Hi. pose proof Hi as []. constructor; cbn; try done; [|by intros * ?%not_elem_of_nil..].
  unfold CallbackRegistry.len in *. cbn [CallbackRegistry.transactions CallbackRegistry.with_capacity].
  rewrite map_size_empty. lia.
Qed.
End Effects.

(** ** Reachable worlds *)

Section Reachable.
Context `{UrlLaws} `{Base64Url} {R : Type} `{SecureRandom R}.
Context (credentials : ProviderCredentials.t) (callback_url : CallbackExternalUrl.t).
Context (capacity : Z) (Hcap : 0 <= capacity).

Definition callback_of (w : world) (h : nat) : option callback := fst <$> handlers w !! h.

(** Every task follows its protocol from a state that the invariant explains; a task that
    has not started is at the beginning of its protocol. *)
Definition world_inv (w : world) : Prop :=
  exists ts hts, inv (callback_of w) ts hts (shared_of w) /\
  (forall x, match exchanges w !! x with
             | Some p => follows (exchange_allowed x) exchange_after exchange_final (ts x) p
             | None => ts x = Fresh
             end) /\
  (forall h, match handlers w !! h with
             | Some (cb, p) => follows (handler_allowed cb) handler_after handler_final (hts h) p
             | None => hts h = Idle
             end) /\
  CallbackRegistry.capacity (registry (shared_of w)) = capacity.

Lemma took_by_who who who' l h x st s0 :
  (forall g cb, who g = Some cb -> who' g = Some cb) -> took_by who l h x st s0 -> took_by who' l h x st s0.
Proof. intros Hw [(cb & ? & ?) ?]. split; [|done]. exists cb. auto. Qed.

Lemma proved_by_who who who' l h x s0 rest :
  (forall g cb, who g = Some cb -> who' g = Some cb) ->
  proved_by who l h x s0 rest -> proved_by who' l h x s0 rest.
Proof.
  intros Hw (cb & st & now & p & code & ident & Hp). exists cb, st, now, p, code, ident.
  destruct_and! Hp. split_and!; auto.
Qed.

(** A callback that arrives changes nothing that is known of the others. *)
Lemma inv_who who who' ts hts s :
  (forall h cb, who h = Some cb -> who' h = Some cb) -> inv who ts hts s -> inv who' ts hts s.
Proof.
  intros Hw []. constructor; try done.
  - intros x. pose proof (i_exchange0 x) as Hk. destruct (ts x) as [| | |[]| |]; cbn in *; try done.
    + intros Hc. destruct (Hk Hc) as (h & s0 & now & ? & ?). exists h, s0, now. eauto using proved_by_who.
    + destruct Hk as (h & s0 & now & ? & ?). exists h, s0, now. eauto using proved_by_who.
  - intros h. pose proof (i_handler0 h) as Hk. destruct (hts h) as [| | | | |[[]|]|]; cbn in *; try done.
    + destruct Hk as (cb & ? & ?). exists cb. auto.
    + destruct Hk. eauto using took_by_who.
    + destruct Hk. eauto using proved_by_who.
  - intros st now h Hin. destruct (i_take0 st now h Hin) as (cb & ? & ?). exists cb. auto.
  - intros h en Hr. destruct (i_reply0 h en Hr) as (st & ? & ?). eauto using took_by_who.
  - intros en r dl h Hin. destruct (i_complete0 en r dl h Hin) as (? & ? & Hr). split_and!; try done.
    intros Ha. destruct (Hr Ha) as (s0 & ? & ?). eauto using proved_by_who.
  - intros x c Hc Ha. destruct (i_outcome0 x c Hc Ha) as (h & s0 & now & ? & ?). exists h, s0, now. eauto using proved_by_who.
  - intros x peer Hin. destruct (i_wrote0 x peer Hin) as (h & s0 & now & ?). exists h, s0, now. eauto using proved_by_who.
  - intros en r dl h Hin. destruct (i_deadline0 en r dl h Hin) as (cb & ? & ?). eauto.
  - intros h x now Hin. destruct (i_committed0 h x now Hin) as (cb & ? & ?). eauto.
Qed.

Lemma world_inv_initial : world_inv (initial capacity).
Proof.
  exists (fun _ => Fresh), (fun _ => Idle). split_and!; [|done..].
  constructor; cbn; try done; try (by intros * ?%not_elem_of_nil); try (by intros * ?%sublist_nil_r).
Qed.

Lemma drop_keeps who ts hts s x p : inv who ts hts s -> inv who ts hts (drop_when_returned x p s).
Proof. unfold drop_when_returned. destruct (returned p); [apply inv_signal|done]. Qed.

Lemma follow_exchange (ts : nat -> exchange_state) (xs : gmap nat (prog ExchangeEffect.t result)) x t p :
  follows (exchange_allowed x) exchange_after exchange_final t p ->
  (forall y, match xs !! y with
             | Some p => follows (exchange_allowed y) exchange_after exchange_final (ts y) p
             | None => ts y = Fresh end) ->
  forall y, match <[ x := p ]> xs !! y with
            | Some p => follows (exchange_allowed y) exchange_after exchange_final (<[ x := t ]> ts y) p
            | None => <[ x := t ]> ts y = Fresh end.
Proof.
  intros Hp Hall y. destruct (decide (x = y)) as [<-|Hne].
  - by rewrite lookup_insert_eq, fn_lookup_insert.
  - rewrite lookup_insert_ne, fn_lookup_insert_ne by done. apply Hall.
Qed.

Lemma follow_handler (hts : nat -> handler_state)
    (hs : gmap nat (callback * prog HandlerEffect.t CallbackResult.t)) h t cb p :
  follows (handler_allowed cb) handler_after handler_final t p ->
  (forall g, match hs !! g with
             | Some (cb, p) => follows (handler_allowed cb) handler_after handler_final (hts g) p
             | None => hts g = Idle end) ->
  forall g, match <[ h := (cb, p) ]> hs !! g with
            | Some (cb, p) => follows (handler_allowed cb) handler_after handler_final (<[ h := t ]> hts g) p
            | None => <[ h := t ]> hts g = Idle end.
Proof.
  intros Hp Hall g. destruct (decide (h = g)) as [<-|Hne].
  - by rewrite lookup_insert_eq, fn_lookup_insert.
  - rewrite lookup_insert_ne, fn_lookup_insert_ne by done. apply Hall.
Qed.

(** The owner never changes the capacity. *)
Lemma exchange_sem_capacity x s e r s' :
  exchange_sem x s e r s' -> CallbackRegistry.capacity (registry s') = CallbackRegistry.capacity (registry s).
Proof.
  destruct e; cbn; try (by intros [? ->]); try (by intros ->); try (by intros [-> ?]).
  - destruct r as [?|[]|]; naive_solver.
  - destruct (alive s); [|by intros [_ ->]]. unfold CallbackRegistry.insert. case_bool_decide; [by intros [_ ->]|].
    destruct (_ <=? _); by intros [_ ->].
  - destruct (alive s); by intros [_ ->].
Qed.

Lemma handler_sem_capacity h s e r s' :
  handler_sem credentials h s e r s' ->
  CallbackRegistry.capacity (registry s') = CallbackRegistry.capacity (registry s).
Proof.
  destruct e; cbn; try (by intros [? ->]); try (by intros ->); try (by intros [-> ?]).
  - destruct r; naive_solver.
  - destruct r; naive_solver.
  - intros ->. by destruct (alive s).
Qed.

Lemma serve_capacity s req reading :
  CallbackRegistry.capacity (registry (serve s req reading)) = CallbackRegistry.capacity (registry s).
Proof. destruct req; cbn; [done|]. by destruct (commit_completion _ _ _ _). Qed.

Lemma world_inv_step w w' : step (R:=R) credentials callback_url w w' -> world_inv w -> world_inv w'.
Proof.
  destruct 1 as [s xs hs x random Hx|s xs hs h cb Hh|s xs hs x e k r s' Hx Hsem|s xs hs h cb e k r s' Hh Hsem
    |s xs hs h cb e k Hh|s xs hs req rest reading Hal Hq|s xs hs];
    intros (ts & hts & Hi & Hxs & Hhs & Hc); cbn [shared_of exchanges handlers] in *.
  - exists (<[ x := Fresh ]> ts), hts. cbn. pose proof (Hxs x) as Ht. rewrite Hx in Ht. split_and!; try done.
    + rewrite <- Ht. by apply inv_same.
    + apply follow_exchange; [apply exchange_follows|done].
  - exists ts, (<[ h := Idle ]> hts). cbn. pose proof (Hhs h) as Ht. rewrite Hh in Ht. split_and!; try done.
    + rewrite <- Ht. apply inv_same_handler. eapply inv_who; [|done].
      unfold callback_of. cbn. intros g cb' Hg. destruct (decide (h = g)) as [<-|];
        [by rewrite Hh in Hg|by rewrite lookup_insert_ne].
    + apply follow_handler; [apply handler_follows|done].
  - pose proof (Hxs x) as Hf. rewrite Hx in Hf. destruct Hf as [Ha Hk].
    destruct (exchange_keeps _ ts hts s x e r s' Hi Ha Hsem) as (t' & Ht & Hi').
    exists (<[ x := t' ]> ts), hts. cbn. split_and!; [by apply drop_keeps|apply follow_exchange; eauto|done|].
    rewrite <- Hc, <- (exchange_sem_capacity _ _ _ _ _ Hsem). unfold drop_when_returned. by destruct (returned _).
  - pose proof (Hhs h) as Hf. rewrite Hh in Hf. destruct Hf as [Ha Hk].
    assert (Hcb : callback_of (World s xs hs) h = Some cb) by (unfold callback_of; cbn; by rewrite Hh).
    destruct (handler_keeps credentials _ cb ts hts s h e r s' Hcb Hi Ha Hsem) as (t' & Ht & Hi').
    exists ts, (<[ h := t' ]> hts). cbn. split_and!; [|done|apply follow_handler; eauto|].
    + eapply inv_who; [|done]. unfold callback_of. cbn. intros g cb' Hg.
      destruct (decide (h = g)) as [<-|]; [rewrite lookup_insert_eq; by rewrite Hh in Hg|by rewrite lookup_insert_ne].
    + by rewrite (handler_sem_capacity _ _ _ _ _ Hsem).
  - exists ts, (<[ h := Over ]> hts). cbn. split_and!; [|done|by apply follow_handler|done].
    apply inv_handler; [|done]. eapply inv_who; [|done]. unfold callback_of. cbn. intros g cb' Hg.
    destruct (decide (h = g)) as [<-|]; [rewrite lookup_insert_eq; by rewrite Hh in Hg|by rewrite lookup_insert_ne].
  - exists ts, hts. cbn. split_and!; [by apply serve_keeps|done|done|by rewrite serve_capacity].
  - exists ts, hts. cbn. split_and!; [by apply stop_keeps|done..].
Qed.

Lemma world_inv_reachable w : reachable (R:=R) credentials callback_url capacity w -> world_inv w.
Proof.
  unfold reachable. intros Hr. eapply (rtc_ind_r world_inv); [apply world_inv_initial| |exact Hr].
  intros ? ? _ Hs. by apply world_inv_step.
Qed.
End Reachable.

(** ** Properties *)

Section Properties.
Context `{UrlLaws} `{Base64UrlLaws} {R : Type} `{SecureRandom R}.
Context (credentials : ProviderCredentials.t) (callback_url : CallbackExternalUrl.t).

(** C3: A target is disclosed only to an authenticated user.  In every world that any
    interleaving reaches, if exchange [x] wrote a target's peer id to its substream, then,
    in this order: [x] registered a transaction under a state [st] for the provider the
    user chose; a browser callback on that provider's route presented exactly the text of
    [st], and the owner handed it the transaction, which had not expired; that provider
    confirmed a member for the code the callback carried; the owner committed the
    admission, at a reading of its clock before the deadline of that callback, and [x] had
    not been cancelled before any commitment of its; the owner resolved the locator that [x]
    asked for; and [x] wrote that answer. *)
Theorem enterprise_disclosure capacity w x peer :
  0 <= capacity -> reachable (R:=R) credentials callback_url capacity w ->
  Wrote x (EnterpriseResolveResponse.Resolved peer) ∈ log (shared_of w) ->
  exists h cb p st s0 now code ident at_,
    callback_of w h = Some cb /\ cb_provider cb = p /\ cb_state cb = encode_state st /\
    cb_authorization cb = CallbackAuthorization.Code code /\
    EnterpriseResolveSession.provider s0 = Some p /\
    MonotonicTime.elapsed now < MonotonicTime.elapsed (EnterpriseResolveSession.deadline s0) /\
    at_ < cb_deadline cb /\ (forall h' at', ~ [Cancelled x; Committed h' x at'] `sublist_of` log (shared_of w)) /\
    [Registered x st s0; Took h st x now; Verified h p code ident; Committed h x at_;
     Answered x (EnterpriseResolveSession.locator s0) (EnterpriseResolveResponse.Resolved peer);
     Wrote x (EnterpriseResolveResponse.Resolved peer)] `sublist_of` log (shared_of w).
Proof.
  intros Hcap Hr Hw. apply world_inv_reachable in Hr as (ts & hts & Hi & _); [|done].
  destruct (i_wrote _ _ _ _ Hi x peer Hw) as (h & s0 & at_ & cb & st & now & p & code & ident & Hp).
  destruct_and! Hp. exists h, cb, p, st, s0, now, code, ident, at_. split_and!; try done.
  - symmetry. by eapply decode_state_some.
  - destruct (i_committed _ _ _ _ Hi h x at_) as (cb' & Hcb' & Hlt); [|congruence].
    eapply elem_of_sublist; [|done]. set_solver.
  - apply Hi.
Qed.

(** C25: Transactions are single-use and bounded.  In every reachable world: the owner has
    handed out the transaction of an exchange at most once; the table holds at most
    [capacity] transactions, none of them handed out before; each belongs to an exchange
    that is still running, so no exchange leaves its transaction behind; and a session in
    the table still waits for the one state it is filed under. *)
Theorem enterprise_single_use capacity w :
  0 <= capacity -> reachable (R:=R) credentials callback_url capacity w ->
  (forall x h1 st1 n1 h2 st2 n2,
     ~ [Took h1 st1 x n1; Took h2 st2 x n2] `sublist_of` log (shared_of w)) /\
  CallbackRegistry.len (registry (shared_of w)) <= capacity /\
  forall st en, CallbackRegistry.transactions (registry (shared_of w)) !! st = Some en ->
    (exists e k, exchanges w !! CallbackEntry.outcome en = Some (Vis e k)) /\
    EnterpriseResolveSession.phase (CallbackEntry.session en) = Phase.Authenticating /\
    EnterpriseResolveSession.oauth_state (CallbackEntry.session en) = Some st /\
    forall h st' now, Took h st' (CallbackEntry.outcome en) now ∉ log (shared_of w).
Proof.
  intros Hcap Hr. apply world_inv_reachable in Hr as (ts & hts & Hi & Hxs & _ & Hc); [|done].
  split_and!; [apply Hi|rewrite <- Hc; apply Hi|]. intros st en Hen.
  destruct (i_table _ _ _ _ Hi st en Hen) as ((_ & _ & _ & Hp & Ho & _) & Hw & Hu). split_and!; try done.
  specialize (Hxs (CallbackEntry.outcome en)). destruct (exchanges w !! _) as [[r|e k]|].
  - destruct Hxs as (He & _). specialize (He st (CallbackEntry.session en)). destruct Hw; naive_solver.
  - by exists e, k.
  - destruct Hw; congruence.
Qed.

(** C26: Cancellation and commitment agree.  In every reachable world: an exchange that
    cancelled (its peer disconnected, or its time ran out) is never admitted afterwards; a
    browser is told that the user was admitted only if the owner committed that admission;
    and an exchange that ended did so without a panic, rejected by its own session only if
    the random source failed. *)
Theorem enterprise_cancellation capacity w :
  0 <= capacity -> reachable (R:=R) credentials callback_url capacity w ->
  (forall x h now, ~ [Cancelled x; Committed h x now] `sublist_of` log (shared_of w)) /\
  (forall h cb, handlers w !! h = Some (cb, Ret CallbackResult.CallbackAdmitted) ->
     exists x now, Committed h x now ∈ log (shared_of w)) /\
  (forall x (r : result), exchanges w !! x = Some (Ret r) -> r <> Panic /\
     forall e, r = Err (ProtocolTaskError.Session e) -> exists e', e = Random e').
Proof.
  intros Hcap Hr. apply world_inv_reachable in Hr as (ts & hts & Hi & Hxs & Hhs & _); [|done].
  split_and!; [apply Hi| |].
  - intros h cb Hh. specialize (Hhs h). rewrite Hh in Hhs. pose proof (i_handler _ _ _ _ Hi h) as Hk.
    by rewrite (Hhs eq_refl) in Hk.
  - intros x r Hx. specialize (Hxs x). rewrite Hx in Hxs. by destruct Hxs as (_ & ? & ?).
Qed.
End Properties.
