(* ===== verification/FlowExample.v ===== *)
(** * A run of an enterprise transaction

    A scheduler that plays a list of moves, and the run in which a user is authenticated
    and receives the target: the worlds that the theorems of [FlowSafety] speak of exist. *)

From stdpp Require Import gmap strings.
From S2P Require Import Prelude Domain Code WireEnterprise EnterpriseSession Provider Programs.
From S2P Require Import CallbackSession EnterpriseResolve EnterpriseFlow FlowSafety.
Open Scope list_scope.
Open Scope Z_scope.

(** ** Playing moves *)

(** What the environment of a task answers to its next effect. *)
Inductive reply :=
| Bytes (l : list Z)
| Done
| Time (t : MonotonicTime.t)
| AdmitTo
| TargetIs (m : EnterpriseResolveResponse.t)
| Member (ident : MemberIdentity.t).

Inductive move {R : Type} :=
| NewExchange (x : nat) (random : R)
| NewCallback (h : nat) (cb : callback)
| MoveExchange (x : nat) (r : reply)
| MoveCallback (h : nat) (r : reply)
| Serve (reading : Z).
Arguments move : clear implicits.

Definition play_exchange (x : nat) (s : shared) (e : ExchangeEffect.t) (i : reply)
  : option (answer e * shared) :=
  match e, i with
  | ExchangeEffect.ReadTimeout n, Bytes l | ExchangeEffect.ReadDeadline n _, Bytes l =>
    if bool_decide (bytes l) && (zlen l =? n) then Some (Ok l, s) else None
  | ExchangeEffect.WriteTimeout m, Done => Some (Ok tt, emit s [Wrote x m])
  | ExchangeEffect.Now, Time t => Some (t, s)
  | ExchangeEffect.AdmitStart, AdmitTo =>
    if alive s then Some (Ok EnterpriseResolveAdmission.AdmittedStart, s) else None
  | ExchangeEffect.ResolveTarget l, TargetIs m =>
    if alive s then Some (Ok m, emit s [Answered x l m]) else None
  | ExchangeEffect.Register st en now, Done =>
    if alive s then
      let '(r0, reg) := CallbackRegistry.insert (registry s) st en now in
      Some (Ok r0, emit (set_registry s reg)
             (if is_ok r0 then [Registered x st (CallbackEntry.session en)] else []))
    else None
  | ExchangeEffect.Cancel, Done => Some (tt, emit (signal_cancel s x) [Cancelled x])
  | ExchangeEffect.DropCancel, Done => Some (tt, signal_cancel s x)
  | ExchangeEffect.SelectOutcome _, Done =>
    match outcomes s !! x with
    | Some c => Some (ExchangeEffect.OutcomeReceived (Some c), s)
    | None => None
    end
  | _, _ => None
  end.

Definition play_handler `{UrlApi} (credentials : ProviderCredentials.t) (h : nat) (s : shared)
    (e : HandlerEffect.t) (i : reply) : option (answer e * shared) :=
  match e, i with
  | HandlerEffect.Now, Time t => Some (t, s)
  | HandlerEffect.SendTake st now, Done =>
    if alive s then Some (HandlerEffect.Sent, set_queue s (queue s ++ [Take st now h])) else None
  | HandlerEffect.RecvTake, Done =>
    match take_replies s !! h with Some o => Some (Some o, s) | None => None end
  | HandlerEffect.VerifyMember p code c, Member ident =>
    match verify_member p code credentials (Ok ident) with
    | Ok ident => Some (HandlerEffect.VerificationDone (Ok ident), emit s [Verified h p code ident])
    | _ => None
    end
  | HandlerEffect.Reserve, Done => if alive s then Some (true, s) else None
  | HandlerEffect.SendComplete en result deadline, Done =>
    Some (tt, if alive s then set_queue s (queue s ++ [Complete en result deadline h]) else s)
  | HandlerEffect.RecvComplete, Done =>
    match complete_replies s !! h with Some o => Some (Some o, s) | None => None end
  | _, _ => None
  end.

Section Play.
Context `{UrlApi} `{Base64Url} {R : Type} `{SecureRandom R}.
Context (credentials : ProviderCredentials.t) (callback_url : CallbackExternalUrl.t).

Definition play (w : world) (a : move R) : option world :=
  let '(World s xs hs) := w in
  match a with
  | NewExchange x random =>
    if bool_decide (xs !! x = None) then
      Some (World s (<[ x := enterprise_resolve_exchange_inner x credentials callback_url random ]> xs) hs)
    else None
  | NewCallback h cb =>
    if bool_decide (hs !! h = None) then
      Some (World s xs
        (<[ h := (cb, handle (cb_provider cb) (cb_authorization cb) (cb_state cb) (cb_deadline cb)) ]> hs))
    else None
  | MoveExchange x i =>
    match xs !! x with
    | Some (Vis e k) =>
      match play_exchange x s e i with
      | Some (r, s') => Some (World (drop_when_returned x (k r) s') (<[ x := k r ]> xs) hs)
      | None => None
      end
    | _ => None
    end
  | MoveCallback h i =>
    match hs !! h with
    | Some (cb, Vis e k) =>
      match play_handler credentials h s e i with
      | Some (r, s') => Some (World s' xs (<[ h := (cb, k r) ]> hs))
      | None => None
      end
    | _ => None
    end
  | Serve reading =>
    match alive s, queue s with
    | true, req :: rest => Some (World (serve (set_queue s rest) req reading) xs hs)
    | _, _ => None
    end
  end.

Fixpoint play_all (w : world) (moves : list (move R)) : option world :=
  match moves with
  | [] => Some w
  | a :: rest => match play w a with Some w' => play_all w' rest | None => None end
  end.

Lemma play_exchange_sem x s e i r s' : play_exchange x s e i = Some (r, s') -> exchange_sem x s e r s'.
Proof.
  destruct e, i; cbn; try done.
  - case_bool_decide; [|done]. cbn. destruct (Z.eqb_spec (zlen l) length); [|done]. by intros [= <- <-].
  - case_bool_decide; [|done]. cbn. destruct (Z.eqb_spec (zlen l) length); [|done]. by intros [= <- <-].
  - by intros [= <- <-].
  - by intros [= <- <-].
  - destruct (alive s) eqn:E; [|done]. by intros [= <- <-].
  - destruct (alive s) eqn:E; [|done]. by intros [= <- <-].
  - destruct (alive s) eqn:E; [|done]. destruct (CallbackRegistry.insert _ _ _ _). by intros [= <- <-].
  - by intros [= <- <-].
  - by intros [= <- <-].
  - destruct (outcomes s !! x) eqn:E; [|done]. by intros [= <- <-].
Qed.

Lemma play_handler_sem h s e i r s' :
  play_handler credentials h s e i = Some (r, s') -> handler_sem credentials h s e r s'.
Proof.
  destruct e, i; cbn; try done.
  - by intros [= <- <-].
  - destruct (alive s) eqn:E; [|done]. by intros [= <- <-].
  - destruct (take_replies s !! h) eqn:E; [|done]. by intros [= <- <-].
  - destruct (verify_member _ _ _ _) as [ident'| |] eqn:E; try done. intros [= <- <-]. split; [done|].
    split; [|done]. by eexists.
  - destruct (alive s) eqn:E; [|done]. by intros [= <- <-].
  - by intros [= <- <-].
  - destruct (complete_replies s !! h) eqn:E; [|done]. by intros [= <- <-].
Qed.

Lemma play_step w a w' : play w a = Some w' -> step credentials callback_url w w'.
Proof.
  destruct w as [s xs hs], a as [x random|h cb|x i|h i|reading]; cbn [play].
  - case_bool_decide; [|done]. intros [= <-]. by constructor.
  - case_bool_decide; [|done]. intros [= <-]. by constructor.
  - destruct (xs !! x) as [[?|e k]|] eqn:Hx; try done.
    destruct (play_exchange _ _ _ _) as [[r s']|] eqn:Hp; [|done]. intros [= <-].
    econstructor; [done|by eapply play_exchange_sem].
  - destruct (hs !! h) as [[cb [?|e k]]|] eqn:Hh; try done.
    destruct (play_handler _ _ _ _ _) as [[r s']|] eqn:Hp; [|done]. intros [= <-].
    econstructor; [done|by eapply play_handler_sem].
  - destruct (alive s) eqn:Ha; [|done]. destruct (queue s) eqn:Hq; [done|]. intros [= <-]. by constructor.
Qed.

Lemma play_all_reachable capacity moves w :
  play_all (initial capacity) moves = Some w -> reachable credentials callback_url capacity w.
Proof.
  unfold reachable. generalize (initial capacity) as w0. induction moves as [|a moves IH]; intros w0; cbn.
  - intros [= <-]. apply rtc_refl.
  - destruct (play w0 a) as [w1|] eqn:Hp; [|done]. intros Hm. eapply rtc_l; [by eapply play_step|by apply IH].
Qed.
End Play.

(** ** An authenticated user *)

Section Example.
#[local] Instance example_url : UrlApi := {|
  Url := list Z; url_parse := Some; url_scheme _ := str "https"%string; url_username _ := [];
  url_password _ := None; url_port _ := None; url_host _ := None; url_path _ := [];
  url_query _ := None; url_fragment _ := None; url_set_path u p := u ++ p;
  url_append_pairs u pairs := u ++ mjoin ((fun p => p.1 ++ p.2) <$> pairs); url_as_str u := u |}.
#[local] Instance example_url_laws : UrlLaws.
Proof. split; by eexists. Qed.
#[local] Existing Instance reference_base64.

Definition example_callback_url : CallbackExternalUrl.t := CallbackExternalUrl.Mk (str "https://r.example"%string).
Definition example_credentials : ProviderCredentials.t :=
  ProviderCredentials.Mk
    (Some (WeComCredentials.Mk (SecretText.Mk (str "corp"%string)) 7 (SecretText.Mk (str "secret"%string))))
    None example_callback_url.
Definition example_state : OAuthState.t := OAuthState.Mk (replicate 32 0x2A).
Definition example_peer : PeerIdBytes.t :=
  match PeerIdBytes.new [1; 2; 3] with Ok p => p | _ => PeerIdBytes.Mk [] 0 end.
Definition example_member : MemberIdentity.t :=
  match MemberIdentity.new [9] with Ok m => m | _ => MemberIdentity.Mk [] 0 end.
Definition at_second (n : Z) : MonotonicTime.t := MonotonicTime.Mk (from_secs n).

Definition example_moves : list (move FixedRandom) :=
  [NewExchange 0 (Some 0x2A);
   MoveExchange 0 (Bytes [0x01; 0x00; 0x00; 0x05]); MoveExchange 0 AdmitTo; MoveExchange 0 (Time (at_second 1));
   MoveExchange 0 Done; MoveExchange 0 (Time (at_second 2)); MoveExchange 0 (Bytes [0x02; 0x01]);
   MoveExchange 0 (Time (at_second 3)); MoveExchange 0 Done; MoveExchange 0 Done;
   MoveExchange 0 (Time (at_second 4));
   NewCallback 0 (MkCallback EnterpriseProvider.WeCom (CallbackAuthorization.Code [0x63])
     (encode_state example_state) (from_secs 60));
   MoveCallback 0 (Time (at_second 5)); MoveCallback 0 Done; Serve (from_secs 6);
   MoveCallback 0 Done; MoveCallback 0 (Member example_member); MoveCallback 0 Done; MoveCallback 0 Done;
   Serve (from_secs 7); MoveCallback 0 Done;
   MoveExchange 0 Done; MoveExchange 0 Done; MoveExchange 0 (Time (at_second 8));
   MoveExchange 0 (TargetIs (EnterpriseResolveResponse.Resolved example_peer)); MoveExchange 0 Done].

Definition example_world : world :=
  default (initial 0) (play_all example_credentials example_callback_url (initial 64) example_moves).

Lemma example_plays :
  play_all example_credentials example_callback_url (initial 64) example_moves = Some example_world.
Proof.
  unfold example_world. destruct (play_all _ _ _ _) eqn:E; [done|]. exfalso.
  assert (Hn : match play_all example_credentials example_callback_url (initial 64) example_moves with
               | Some _ => true | None => false end = true) by (by vm_compute).
  by rewrite E in Hn.
Qed.

Lemma example_wrote :
  Wrote 0 (EnterpriseResolveResponse.Resolved example_peer) ∈ log (shared_of example_world).
Proof.
  assert (Hl : last (log (shared_of example_world)) =
    Some (Wrote 0 (EnterpriseResolveResponse.Resolved example_peer))) by (by vm_compute).
  by apply last_Some_elem_of.
Qed.

Lemma enterprise_disclosure_witness :
  exists h cb p st s0 now code ident at_,
    callback_of example_world h = Some cb /\ cb_provider cb = p /\ cb_state cb = encode_state st /\
    cb_authorization cb = CallbackAuthorization.Code code /\
    EnterpriseResolveSession.provider s0 = Some p /\
    MonotonicTime.elapsed now < MonotonicTime.elapsed (EnterpriseResolveSession.deadline s0) /\
    at_ < cb_deadline cb /\ (forall h' at', ~ [Cancelled 0; Committed h' 0 at'] `sublist_of` log (shared_of example_world)) /\
    [Registered 0 st s0; Took h st 0 now; Verified h p code ident; Committed h 0 at_;
     Answered 0 (EnterpriseResolveSession.locator s0) (EnterpriseResolveResponse.Resolved example_peer);
     Wrote 0 (EnterpriseResolveResponse.Resolved example_peer)]
      `sublist_of` log (shared_of example_world).
Proof.
  apply (enterprise_disclosure example_credentials example_callback_url 64 example_world 0 example_peer).
  - done.
  - exact (play_all_reachable _ _ _ _ _ example_plays).
  - exact example_wrote.
Defined.

(** The world after the transaction was registered. *)
Definition waiting_world : world :=
  default (initial 0) (play_all example_credentials example_callback_url (initial 64) (take 11 example_moves)).

Lemma waiting_plays :
  play_all example_credentials example_callback_url (initial 64) (take 11 example_moves) = Some waiting_world.
Proof.
  unfold waiting_world. destruct (play_all _ _ _ _) eqn:E; [done|]. exfalso.
  assert (Hn : match play_all example_credentials example_callback_url (initial 64) (take 11 example_moves) with
               | Some _ => true | None => false end = true) by (by vm_compute).
  by rewrite E in Hn.
Qed.

Lemma enterprise_single_use_witness :
  CallbackRegistry.len (registry (shared_of waiting_world)) = 1 /\
  CallbackRegistry.len (registry (shared_of waiting_world)) <= 64.
Proof.
  split; [by vm_compute|].
  apply (enterprise_single_use example_credentials example_callback_url 64 waiting_world).
  - done.
  - exact (play_all_reachable _ _ _ _ _ waiting_plays).
Defined.

Lemma enterprise_cancellation_witness :
  exists x now, Committed 0 x now ∈ log (shared_of example_world).
Proof.
  apply (enterprise_cancellation example_credentials example_callback_url 64 example_world) with
    (cb := MkCallback EnterpriseProvider.WeCom (CallbackAuthorization.Code [0x63])
       (encode_state example_state) (from_secs 60)).
  - done.
  - exact (play_all_reachable _ _ _ _ _ example_plays).
  - by vm_compute.
Defined.
End Example.
