(* ===== verification/Callback.v ===== *)
(** * The callback's query

    The HTTPS surface of [crates/yon-relay/src/callback.rs] up to the call of the handler:
    the bounded, strict parser of the query string and the status that each outcome gets.
    [form_urlencoded::parse] of the [url] crate is a parameter. *)

From stdpp Require Import strings.
From S2P Require Import Prelude Domain EnterpriseSession Provider Programs CallbackSession.
Open Scope string_scope.
Open Scope list_scope.
Open Scope Z_scope.

Definition MAX_CALLBACK_QUERY_BYTES : Z := 1024.
Definition MAX_CALLBACK_STATE_BYTES : Z := 43.

Inductive CallbackQueryError :=
| InvalidEncoding | DuplicateParameter | MissingState | InvalidQueryState | InvalidOutcome | InvalidCode.

#[export] Instance CallbackQueryError_eq_dec : EqDecision CallbackQueryError.
Proof. solve_decision. Defined.

(** ** Percent encoding *)

(** [u8::is_ascii_hexdigit] *)
Definition is_ascii_hexdigit (b : Z) : bool :=
  ((0x30 <=? b) && (b <=? 0x39)) || ((0x41 <=? b) && (b <=? 0x46)) || ((0x61 <=? b) && (b <=? 0x66)).

(** The [while] loop; [None] when [fuel] rounds were not enough, [Panic] for an index out of
    range. *)
Fixpoint percent_loop (fuel : nat) (query : list Z) (i : Z) : option (res unit bool) :=
  match fuel with
  | O => None
  | S fuel =>
    if negb (i <? zlen query) then Some (Ok true)
    else
      match index (E:=unit) query i with
      | Ok b =>
        if b =? 0x25 then
          if zlen query <=? i + 2 then Some (Ok false)
          else
            match index (E:=unit) query (i + 1), index (E:=unit) query (i + 2) with
            | Ok h1, Ok h2 =>
              if negb (is_ascii_hexdigit h1) || negb (is_ascii_hexdigit h2) then Some (Ok false)
              else percent_loop fuel query (i + 3)
            | _, _ => Some Panic
            end
        else percent_loop fuel query (i + 1)
      | _ => Some Panic
      end
  end.

Definition valid_percent_encoding (query : list Z) : option (res unit bool) :=
  percent_loop (S (length query)) query 0.

(** Every percent sign starts an escape of two hexadecimal digits. *)
Fixpoint escapes_ok (l : list Z) : bool :=
  match l with
  | [] => true
  | b :: rest =>
    if b =? 0x25 then
      match rest with
      | h1 :: h2 :: rest' => is_ascii_hexdigit h1 && is_ascii_hexdigit h2 && escapes_ok rest'
      | _ => false
      end
    else escapes_ok rest
  end.

(** ** The parameters *)

Record slots := Slots {
  code : option (list Z);
  state : option (list Z);
  error : option (list Z);
  error_description : option (list Z);
  error_uri : option (list Z);
}.

Definition no_slots : slots := Slots None None None None None.

(** [slot.replace(value)]; a slot that was taken is a duplicate. *)
Definition fill (s : slots) (name value : list Z) : res CallbackQueryError slots :=
  let put (old : option (list Z)) (s' : slots) :=
    if bool_decide (is_Some old) then Err DuplicateParameter else Ok s' in
  if bool_decide (name = str "code") then
    put (code s) (Slots (Some value) (state s) (error s) (error_description s) (error_uri s))
  else if bool_decide (name = str "state") then
    put (state s) (Slots (code s) (Some value) (error s) (error_description s) (error_uri s))
  else if bool_decide (name = str "error") then
    put (error s) (Slots (code s) (state s) (Some value) (error_description s) (error_uri s))
  else if bool_decide (name = str "error_description") then
    put (error_description s) (Slots (code s) (state s) (error s) (Some value) (error_uri s))
  else if bool_decide (name = str "error_uri") then
    put (error_uri s) (Slots (code s) (state s) (error s) (error_description s) (Some value))
  else Ok s.

Fixpoint fill_all (s : slots) (pairs : list (list Z * list Z)) : res CallbackQueryError slots :=
  match pairs with
  | [] => Ok s
  | (name, value) :: rest => s ← fill s name value; fill_all s rest
  end.

(** The [match (code, error)]. *)
Definition authorization_of (s : slots) : res CallbackQueryError CallbackAuthorization.t :=
  match code s, error s with
  | Some code, None =>
    if bool_decide (error_description s = None) && bool_decide (error_uri s = None) then
      if (zlen code =? 0) || (MAX_AUTHORIZATION_CODE_BYTES <? zlen code) then Err InvalidCode
      else Ok (CallbackAuthorization.Code code)
    else Err InvalidOutcome
  | None, Some error =>
    if zlen error =? 0 then Err InvalidOutcome
    else if bool_decide (error = str "access_denied") then Ok CallbackAuthorization.Denied
    else Ok CallbackAuthorization.ProviderFailed
  | _, _ => Err InvalidOutcome
  end.

Section Parser.
(** [form_urlencoded::parse]: the decoded names and values of a query. *)
Context (form_parse : list Z -> list (list Z * list Z)).

(** The outcome and the state parameter. *)
Definition parse_callback_query (query : list Z)
  : res CallbackQueryError (CallbackAuthorization.t * list Z) :=
  match valid_percent_encoding query with
  | Some (Ok true) =>
    s ← fill_all no_slots (form_parse query);
    st ← ok_or (state s) MissingState;
    if negb (zlen st =? MAX_CALLBACK_STATE_BYTES) then Err InvalidQueryState
    else
      authorization ← authorization_of s;
      Ok (authorization, st)
  | Some (Ok false) => Err InvalidEncoding
  | _ => Panic
  end.

(** [dispatch] up to the handler: [None] is a bad request. *)
Definition dispatch (query : option (list Z)) : res unit (option (CallbackAuthorization.t * list Z)) :=
  match query with
  | None => Ok None
  | Some query =>
    if MAX_CALLBACK_QUERY_BYTES <? zlen query then Ok None
    else
      match parse_callback_query query with
      | Ok parsed => Ok (Some parsed)
      | Err _ => Ok None
      | Panic => Panic
      end
  end.
End Parser.

(** [response::result] *)
Definition status (result : CallbackResult.t) : Z :=
  match result with
  | CallbackResult.CallbackAdmitted => 200
  | CallbackResult.Rejected => 200
  | CallbackResult.InvalidState => 400
  | CallbackResult.Platform => 503
  | CallbackResult.Limited => 429
  end.

(** ** The percent loop *)

Lemma index_at (l : list Z) i :
  0 <= i < zlen l -> exists b, index (E:=unit) l i = Ok b /\ drop (Z.to_nat i) l = b :: drop (Z.to_nat (i + 1)) l.
Proof.
  intros Hi. unfold zlen in Hi. destruct (lookup_lt_is_Some_2 l (Z.to_nat i)) as [b Hb]; [lia|].
  exists b. unfold index. destruct (Z.ltb_spec i 0); [lia|]. rewrite Hb. split; [done|].
  rewrite Z2Nat.inj_add, Nat.add_comm by lia. by apply drop_S.
Qed.

Lemma percent_loop_eq fuel query i :
  0 <= i <= zlen query -> zlen query - i < Z.of_nat fuel ->
  percent_loop fuel query i = Some (Ok (escapes_ok (drop (Z.to_nat i) query))).
Proof.
  revert i. induction fuel as [|fuel IH]; intros i Hi Hf; [lia|]. cbn [percent_loop].
  destruct (Z.ltb_spec i (zlen query)) as [Hlt|Hge]; cbn [negb].
  2:{ rewrite drop_ge; [done|]. unfold zlen in *. lia. }
  destruct (index_at query i) as (b & Hb & Hd); [lia|]. rewrite Hb, Hd. cbn [escapes_ok].
  destruct (b =? 0x25); [|apply IH; lia].
  destruct (Z.leb_spec (zlen query) (i + 2)) as [Hs|Hs].
  - do 2 f_equal. destruct (drop (Z.to_nat (i + 1)) query) as [|h1 [|h2 rest]] eqn:E; try done.
    apply (f_equal length) in E. rewrite length_drop in E. cbn in E. unfold zlen in *. lia.
  - destruct (index_at query (i + 1)) as (h1 & -> & ->); [lia|]. replace (i + 1 + 1) with (i + 2) by lia.
    destruct (index_at query (i + 2)) as (h2 & -> & ->); [lia|]. replace (i + 2 + 1) with (i + 3) by lia.
    destruct (is_ascii_hexdigit h1), (is_ascii_hexdigit h2); cbn [negb orb andb]; try done. apply IH; lia.
Qed.

(** ** The parameters *)

Definition known : list (list Z) :=
  [str "code"; str "state"; str "error"; str "error_description"; str "error_uri"].

(** The values a name has in a query. *)
Definition values (name : list Z) (pairs : list (list Z * list Z)) : list (list Z) :=
  (filter (fun p => p.1 = name) pairs).*2.

Definition repeated (pairs : list (list Z * list Z)) : bool :=
  existsb (fun name => bool_decide (2 <= length (values name pairs))%nat) known.

(** The single value of each name. *)
Definition slots_of (pairs : list (list Z * list Z)) : slots :=
  let v name := head (values name pairs) in
  Slots (v (str "code")) (v (str "state")) (v (str "error")) (v (str "error_description")) (v (str "error_uri")).

Lemma values_snoc name pairs n v :
  values name (pairs ++ [(n, v)]) = values name pairs ++ (if bool_decide (n = name) then [v] else []).
Proof.
  unfold values. rewrite filter_app, fmap_app. f_equal. rewrite filter_cons. cbn.
  destruct (decide (n = name)); [by rewrite bool_decide_eq_true_2|by rewrite bool_decide_eq_false_2].
Qed.

Lemma repeated_mono p q : repeated p = true -> repeated (p ++ q) = true.
Proof.
  unfold repeated. rewrite !existsb_exists. intros (n & Hn & Hb). exists n. split; [done|].
  apply bool_decide_eq_true in Hb. apply bool_decide_eq_true. unfold values in *.
  rewrite filter_app, fmap_app, length_app. lia.
Qed.

Lemma repeated_false p :
  repeated p = false <-> Forall (fun n => (length (values n p) <= 1)%nat) known.
Proof.
  unfold repeated. rewrite <- not_true_iff_false, existsb_exists, Forall_forall. split.
  - intros Hn n Hin. apply not_lt. intros Hl. apply Hn. exists n. split; [by apply list_elem_of_In|].
    apply bool_decide_eq_true. lia.
  - intros Ha (n & Hin & Hb). apply bool_decide_eq_true in Hb. apply list_elem_of_In in Hin.
    specialize (Ha n Hin). cbv beta in Ha. lia.
Qed.

(** Of a name that had at most one value, one more is the first or a repetition. *)
Lemma one_more (l : list (list Z)) v :
  (length l <= 1)%nat ->
  (bool_decide (is_Some (head l)) = true /\ bool_decide (2 <= length (l ++ [v]))%nat = true) \/
  (bool_decide (is_Some (head l)) = false /\ bool_decide (2 <= length (l ++ [v]))%nat = false /\
   head (l ++ [v]) = Some v).
Proof. destruct l as [|a [|b l]]; cbn; intros; [by right|by left|lia]. Qed.

Lemma not_twice (l : list (list Z)) : (length l <= 1)%nat -> bool_decide (2 <= length l)%nat = false.
Proof. intros. apply bool_decide_eq_false. lia. Qed.

Lemma fill_spec pairs n v :
  repeated pairs = false ->
  fill (slots_of pairs) n v =
    if repeated (pairs ++ [(n, v)]) then Err DuplicateParameter else Ok (slots_of (pairs ++ [(n, v)])).
Proof.
  intros Hr. pose proof (proj1 (repeated_false pairs) Hr) as Hf. unfold known in Hf.
  repeat (apply Forall_cons in Hf as [? Hf]). clear Hf.
  unfold repeated, known, slots_of, fill. cbn [code state error error_description error_uri existsb].
  rewrite !values_snoc.
  destruct (decide (n = str "code")) as [->|N1];
    [|destruct (decide (n = str "state")) as [->|N2];
      [|destruct (decide (n = str "error")) as [->|N3];
        [|destruct (decide (n = str "error_description")) as [->|N4];
          [|destruct (decide (n = str "error_uri")) as [->|N5]]]]].
  all: repeat first [rewrite (bool_decide_eq_true_2 (_ = _)) by done
                    |rewrite (bool_decide_eq_false_2 (_ = _)) by done]; rewrite ?app_nil_r.
  all: rewrite ?not_twice by done.
  6: done.
  all: match goal with |- context [length (?l ++ [?w])] => destruct (one_more l w) as [(-> & ->)|(-> & -> & ->)] end;
    try done; by rewrite ?not_twice by done.
Qed.

Lemma fill_all_spec pairs rest :
  repeated pairs = false ->
  fill_all (slots_of pairs) rest =
    if repeated (pairs ++ rest) then Err DuplicateParameter else Ok (slots_of (pairs ++ rest)).
Proof.
  revert pairs. induction rest as [|[n v] rest IH]; intros pairs Hr; cbn [fill_all].
  - by rewrite app_nil_r, Hr.
  - rewrite fill_spec by done. destruct (repeated (pairs ++ [(n, v)])) eqn:E; cbn [mbind res_bind].
    + rewrite cons_middle, app_assoc, repeated_mono by done. done.
    + rewrite IH by done. by rewrite <- app_assoc.
Qed.

(** ** Properties *)

(** The loop that checks percent encoding returns for every query, within as many
    rounds as the query has bytes and one more, never indexes out of range, and accepts
    exactly the queries in which every percent sign is followed by two hexadecimal
    digits. *)
Theorem percent_encoding_exact query :
  valid_percent_encoding query = Some (Ok (escapes_ok query)).
Proof. unfold valid_percent_encoding. rewrite percent_loop_eq; [done|unfold zlen; lia..]. Qed.

(** What a query means: one state of 43 bytes, no parameter twice, and either a code of
    legal length with no error beside it or a non-empty error with no code. *)
Definition outcome_meaning (pairs : list (list Z * list Z)) (a : CallbackAuthorization.t) : Prop :=
  match a with
  | CallbackAuthorization.Code c =>
    values (str "code") pairs = [c] /\ 1 <= zlen c <= MAX_AUTHORIZATION_CODE_BYTES /\
    values (str "error") pairs = [] /\ values (str "error_description") pairs = [] /\
    values (str "error_uri") pairs = []
  | CallbackAuthorization.Denied =>
    values (str "code") pairs = [] /\ values (str "error") pairs = [str "access_denied"]
  | CallbackAuthorization.ProviderFailed =>
    values (str "code") pairs = [] /\
    exists e, values (str "error") pairs = [e] /\ e <> [] /\ e <> str "access_denied"
  end.

(** No parameter of the parser's comes twice. *)
Definition once (pairs : list (list Z * list Z)) : Prop :=
  Forall (fun name => (length (values name pairs) <= 1)%nat) known.

Definition query_meaning (pairs : list (list Z * list Z)) (a : CallbackAuthorization.t) (st : list Z) : Prop :=
  once pairs /\ values (str "state") pairs = [st] /\ zlen st = MAX_CALLBACK_STATE_BYTES /\ outcome_meaning pairs a.

Lemma repeated_true pairs :
  repeated pairs = true -> exists name, name ∈ known /\ (2 <= length (values name pairs))%nat.
Proof.
  unfold repeated. rewrite existsb_exists. intros (n & Hin & Hb). exists n.
  split; [by apply list_elem_of_In|by apply bool_decide_eq_true in Hb].
Qed.

Lemma single_value pairs n :
  repeated pairs = false -> n ∈ known -> values n pairs = [] \/ exists v, values n pairs = [v].
Proof.
  intros Hr Hn. apply repeated_false in Hr. rewrite Forall_forall in Hr. specialize (Hr n Hn). cbv beta in Hr.
  destruct (values n pairs) as [|v [|]]; cbn in Hr; [by left|right; by exists v|lia].
Qed.

Lemma authorization_meaning pairs a :
  repeated pairs = false -> authorization_of (slots_of pairs) = Ok a <-> outcome_meaning pairs a.
Proof.
  intros Hr. unfold authorization_of, slots_of, outcome_meaning. cbn [code error error_description error_uri].
  pose proof (single_value pairs (str "code") Hr ltac:(set_solver)) as [->|[c ->]];
  pose proof (single_value pairs (str "error") Hr ltac:(set_solver)) as [->|[e ->]]; cbn [head].
  - split; [done|]. by destruct a as [| |]; [intros []|intros []|intros (_ & ? & ? & _)].
  - destruct (Z.eqb_spec (zlen e) 0) as [He|He].
    + apply zlen_0 in He as ->. destruct a; naive_solver.
    + assert (e <> []) by (by intros ->). case_bool_decide as Hd; [subst e|]; destruct a; naive_solver.
  - pose proof (single_value pairs (str "error_description") Hr ltac:(set_solver)) as [->|[ed ->]];
    pose proof (single_value pairs (str "error_uri") Hr ltac:(set_solver)) as [->|[eu ->]]; cbn [head];
      try (by destruct a; naive_solver).
    cbn. pose proof (zlen_nonneg c).
    destruct (Z.eqb_spec (zlen c) 0), (Z.ltb_spec MAX_AUTHORIZATION_CODE_BYTES (zlen c)); cbn [orb];
      destruct a; split; try done; intros; destruct_and?; simplify_eq; try lia; [split_and!; try done; lia|done].
  - destruct a; naive_solver.
Qed.

(** Why the pairs of a query have no meaning, in the order in which the parser finds out. *)
Definition state_given (pairs : list (list Z * list Z)) : Prop :=
  exists st, values (str "state") pairs = [st] /\ zlen st = MAX_CALLBACK_STATE_BYTES.

Definition rejection (pairs : list (list Z * list Z)) (e : CallbackQueryError) : Prop :=
  match e with
  | InvalidEncoding => False
  | DuplicateParameter => exists name, name ∈ known /\ (2 <= length (values name pairs))%nat
  | MissingState => once pairs /\ values (str "state") pairs = []
  | InvalidQueryState => once pairs /\
      exists st, values (str "state") pairs = [st] /\ zlen st <> MAX_CALLBACK_STATE_BYTES
  | InvalidCode => once pairs /\ state_given pairs /\
      values (str "error") pairs = [] /\ values (str "error_description") pairs = [] /\
      values (str "error_uri") pairs = [] /\
      exists c, values (str "code") pairs = [c] /\ ~ (1 <= zlen c <= MAX_AUTHORIZATION_CODE_BYTES)
  | InvalidOutcome => once pairs /\ state_given pairs /\
      match values (str "code") pairs, values (str "error") pairs with
      | [], [] => True
      | [], e :: _ => e = []
      | _ :: _, [] => values (str "error_description") pairs <> [] \/ values (str "error_uri") pairs <> []
      | _ :: _, _ :: _ => True
      end
  end.

(** The outcome's error is the one that the values explain. *)
Lemma authorization_error pairs e :
  repeated pairs = false -> state_given pairs -> authorization_of (slots_of pairs) = Err e -> rejection pairs e.
Proof.
  intros Hr Hst. pose proof (proj1 (repeated_false pairs) Hr) as Honce.
  unfold authorization_of, slots_of. cbn [code error error_description error_uri].
  pose proof (single_value pairs (str "code") Hr ltac:(set_solver)) as [Ec|[c Ec]];
  pose proof (single_value pairs (str "error") Hr ltac:(set_solver)) as [Ee|[er Ee]]; rewrite Ec, Ee; cbn [head].
  - intros [= <-]. split; [done|]. split; [done|]. by rewrite Ec, Ee.
  - destruct (Z.eqb_spec (zlen er) 0) as [He|He]; [|by case_bool_decide]. intros [= <-].
    split; [done|]. split; [done|]. rewrite Ec, Ee. by apply zlen_0.
  - pose proof (single_value pairs (str "error_description") Hr ltac:(set_solver)) as [Ed|[ed Ed]];
    pose proof (single_value pairs (str "error_uri") Hr ltac:(set_solver)) as [Eu|[eu Eu]]; rewrite Ed, Eu; cbn [head].
    2-4: cbn; intros [= <-]; (split; [done|]); (split; [done|]); rewrite Ec, Ee, ?Ed, ?Eu; first [by left | by right].
    cbn. pose proof (zlen_nonneg c).
    destruct (Z.eqb_spec (zlen c) 0), (Z.ltb_spec MAX_AUTHORIZATION_CODE_BYTES (zlen c)); cbn [orb];
      intros [= <-]; split_and!; try done; exists c; (split; [done|lia]).
  - intros [= <-]. split; [done|]. split; [done|]. by rewrite Ec, Ee.
Qed.

(** C29: The query parser never panics, accepts exactly the meaningful queries and rejects
    every other with the error that explains it: of a query whose escapes are well-formed it
    returns the outcome and the state that [query_meaning] gives the decoded pairs; and it
    reports a malformed escape, a repeated parameter, a missing state, a state of another
    length, a code that is empty or oversized, and an outcome that is neither a code alone
    nor an error alone (or an empty error), each with its own error, in this order.  So none
    of these reaches the handler. *)
Theorem callback_query_exact form_parse query :
  match parse_callback_query form_parse query with
  | Ok (a, st) => escapes_ok query = true /\ query_meaning (form_parse query) a st
  | Err InvalidEncoding => escapes_ok query = false
  | Err e => escapes_ok query = true /\ (forall a st, ~ query_meaning (form_parse query) a st) /\
      rejection (form_parse query) e
  | Panic => False
  end.
Proof.
  unfold parse_callback_query, valid_percent_encoding.
  rewrite percent_loop_eq by (unfold zlen; lia). change (drop (Z.to_nat 0) query) with query.
  destruct (escapes_ok query); [|done]. set (pairs := form_parse query).
  change no_slots with (slots_of []). rewrite (fill_all_spec [] pairs) by (by vm_compute). cbn [app].
  destruct (repeated pairs) eqn:Hr; cbn [mbind res_bind].
  { split_and!; [done| |by apply repeated_true]. intros a st [Hf _]. apply repeated_false in Hf. congruence. }
  pose proof (proj1 (repeated_false pairs) Hr) as Honce. cbn [slots_of state].
  pose proof (single_value pairs (str "state") Hr ltac:(set_solver)) as Hs.
  destruct (values (str "state") pairs) as [|st [|]] eqn:Hst; cbn [head ok_or mbind res_bind].
  - split_and!; [done| |by split]. intros a st (_ & Hv & _). congruence.
  - destruct (Z.eqb_spec (zlen st) MAX_CALLBACK_STATE_BYTES) as [Hl|Hl]; cbn [negb].
    2:{ split_and!; [done| |split; [done|by exists st]]. intros a st' (_ & Hv & Hl' & _). congruence. }
    pose proof (fun a => authorization_meaning pairs a Hr) as Ha.
    pose proof (fun e => authorization_error pairs e Hr ltac:(by exists st)) as Hrej.
    destruct (authorization_of (slots_of pairs)) as [a|e|] eqn:E; cbn [mbind res_bind].
    + split; [done|]. split_and!; [by apply repeated_false|done|done|by apply Ha].
    + assert (Hno : forall a st', ~ query_meaning pairs a st').
      { intros a st' (_ & _ & _ & Hm). by apply Ha in Hm. }
      specialize (Hrej e eq_refl). destruct e; [destruct Hrej|by split_and!..].
    + unfold authorization_of in E. by repeat case_match.
  - destruct Hs as [Hs|[? Hs]]; congruence.
Qed.

Lemma callback_query_example :
  parse_callback_query (fun _ => [(str "code", [1]); (str "state", replicate 43 0x41)]) (str "code=%01")
  = Ok (CallbackAuthorization.Code [1], replicate 43 0x41).
Proof. by vm_compute. Qed.
