(* ===== verification/Connections.v ===== *)
(** * Connections

    [crates/yonder-net/src/connection.rs]: the source prefix of a connection, the book of
    physical connections per peer, and the window in which the connections to one peer are
    measured and one is selected.  Peer and connection ids, endpoints and multiaddresses
    are libp2p's: ids are any countable types, an endpoint is its remote address and
    whether it is relayed. *)

From stdpp Require Import gmap.
From S2P Require Import Prelude Domain Session Path.
Open Scope Z_scope.

Definition PER_PEER_CAPACITY : Z := 8.
Definition PER_TRANSPORT_CAPACITY : Z := 2.

(** ** libp2p's addresses *)

Inductive Protocol :=
| Ip4 (address : Z) | Ip6 (octets : list Z) | Udp (port : Z) | QuicV1 | Tcp (port : Z) | Tls
| Ws (path : list Z) | OtherProtocol.

Record ConnectedPoint := MkPoint { remote_address : list Protocol; is_relayed : bool }.

(** ** The source prefix *)

Module SourcePrefix.
Inductive t := Ipv4 (address : Z) | Ipv6 (prefix : list Z).

Definition ipv6_prefix (octets : list Z) : list Z := take 8 octets.

(** [find_map] *)
Fixpoint first_prefix (address : list Protocol) : option t :=
  match address with
  | [] => None
  | Ip4 a :: _ => Some (Ipv4 a)
  | Ip6 octets :: _ => Some (Ipv6 (ipv6_prefix octets))
  | _ :: rest => first_prefix rest
  end.

Definition from_endpoint (endpoint : ConnectedPoint) : option t := first_prefix (remote_address endpoint).
End SourcePrefix.

#[export] Instance SourcePrefix_eq_dec : EqDecision SourcePrefix.t.
Proof. solve_decision. Defined.
#[export] Instance SourcePrefix_countable : Countable SourcePrefix.t.
Proof.
  apply (inj_countable'
    (fun p => match p with SourcePrefix.Ipv4 a => inl a | SourcePrefix.Ipv6 l => inr l end)
    (fun s => match s with inl a => SourcePrefix.Ipv4 a | inr l => SourcePrefix.Ipv6 l end)).
  by intros [].
Defined.

#[export] Instance TransportKind_eq_dec : EqDecision TransportKind.t.
Proof. solve_decision. Defined.
#[export] Instance CandidatePath_eq_dec : EqDecision CandidatePath.t.
Proof. solve_decision. Defined.

(** ** The book *)

Inductive ConnectionBookError := PeerRosterFull (e : RosterError).

Module UniqueConnection.
Section Ids.
Context {ConnectionId : Type}.
Record t := Mk { id : ConnectionId; endpoint : ConnectedPoint }.
Definition source_prefix (self : t) : option SourcePrefix.t := SourcePrefix.from_endpoint (endpoint self).
End Ids.
Arguments t : clear implicits.
End UniqueConnection.

Module ConnectionBook.
Section Ops.
Context {PeerId ConnectionId : Type} `{Countable PeerId} `{Countable ConnectionId}.

Record t := Mk {
  rosters : gmap PeerId (ConnectionRoster.t ConnectionId);
  endpoints : gmap ConnectionId ConnectedPoint;
}.

Definition new : t := Mk ∅ ∅.

(** [entry(peer).or_default()] *)
Definition roster_of (self : t) (peer : PeerId) : ConnectionRoster.t ConnectionId :=
  default (ConnectionRoster.new PER_PEER_CAPACITY) (rosters self !! peer).

Definition established (self : t) (peer : PeerId) (connection : ConnectionId) (endpoint : ConnectedPoint)
  : res ConnectionBookError bool * t :=
  let '(inserted, roster) := ConnectionRoster.insert (roster_of self peer) connection in
  let self := Mk (<[ peer := roster ]> (rosters self)) (endpoints self) in
  match map_err PeerRosterFull inserted with
  | Ok true => (Ok true, Mk (rosters self) (<[ connection := endpoint ]> (endpoints self)))
  | r => (r, self)
  end.

Definition closed (self : t) (peer : PeerId) (connection : ConnectionId) : res ConnectionBookError bool * t :=
  match rosters self !! peer with
  | None => (Ok false, self)
  | Some roster =>
    let '(removed, roster) := ConnectionRoster.remove roster connection in
    let self := Mk (<[ peer := roster ]> (rosters self)) (endpoints self) in
    match removed with
    | Ok true =>
      let rest := delete connection (endpoints self) in
      (Ok true,
       if ConnectionRoster.is_empty roster then Mk (delete peer (rosters self)) rest
       else Mk (rosters self) rest)
    | Ok false => (Ok false, self)
    | Err e => (Err (PeerRosterFull e), self)
    | Panic => (Panic, self)
    end
  end.

Definition unique (self : t) (peer : PeerId) : option (UniqueConnection.t ConnectionId) :=
  roster ← rosters self !! peer;
  id ← ConnectionRoster.unique roster;
  endpoint ← endpoints self !! id;
  Some (UniqueConnection.Mk id endpoint).

Definition count (self : t) (peer : PeerId) : Z :=
  match rosters self !! peer with Some roster => ConnectionRoster.len roster | None => 0 end.

Definition direct (self : t) (connection : ConnectionId) : bool :=
  match endpoints self !! connection with Some endpoint => negb (is_relayed endpoint) | None => false end.

Definition is_direct (self : t) (peer : PeerId) (connection : ConnectionId) : bool :=
  match rosters self !! peer with
  | Some roster => existsb (fun c => bool_decide (c = connection)) (ConnectionRoster.iter roster)
  | None => false
  end && direct self connection.

Definition connections (self : t) (peer : PeerId) : list ConnectionId :=
  match rosters self !! peer with Some roster => ConnectionRoster.iter roster | None => [] end.

Definition direct_count (self : t) (peer : PeerId) : Z :=
  match rosters self !! peer with
  | Some roster => zlen (List.filter (direct self) (ConnectionRoster.iter roster))
  | None => 0
  end.
End Ops.
Arguments t PeerId ConnectionId {_ _ _ _}.
End ConnectionBook.

(** ** The selection window *)

Inductive SelectionError := SelectionFull | TransportFull | UnknownCandidate.

(** [windows(n).any(p)] on the protocols of an address. *)
Fixpoint any_window {A} (p : list A -> bool) (n : nat) (l : list A) : bool :=
  match l with
  | [] => false
  | _ :: rest => ((n <=? length l)%nat && p (take n l)) || any_window p n rest
  end.

Definition classify_transport (address : list Protocol) : TransportKind.t :=
  if any_window (fun w => match w with [Udp _; QuicV1] => true | _ => false end) 2 address
  then TransportKind.Quic
  else if any_window (fun w => match w with [Tcp _; Tls; Ws _] => true | _ => false end) 3 address
  then TransportKind.SecureWebSocket
  else if any_window (fun w => match w with [Tcp _; Ws _] => true | _ => false end) 2 address
  then TransportKind.WebSocket
  else TransportKind.Tcp.

Module ConnectionSelection.
Section Ops.
Context {ConnectionId : Type} `{EqDecision ConnectionId}.

Record TrackedCandidate := Track { connection : ConnectionId; ranked : PathCandidate.t }.

Record t := Mk { candidates : list TrackedCandidate; next_id : Z; next_order : Z }.

(** The winner, the losers, and the route and transport of the winner. *)
Record Result := MkResult {
  winner : ConnectionId;
  losers : list ConnectionId;
  path : CandidatePath.t * TransportKind.t;
}.

Definition new : t := Mk [] 0 0.

Definition contains (self : t) (c : ConnectionId) : bool :=
  existsb (fun candidate => bool_decide (connection candidate = c)) (candidates self).

Definition is_direct (candidate : TrackedCandidate) : bool :=
  bool_decide (PathCandidate.path (ranked candidate) = CandidatePath.Direct).

Definition has_direct (self : t) : bool := existsb is_direct (candidates self).

Definition has_direct_sample (self : t) : bool :=
  existsb (fun candidate => is_direct candidate && PathCandidate.has_samples (ranked candidate))
    (candidates self).

Definition established (self : t) (c : ConnectionId) (endpoint : ConnectedPoint)
  : res SelectionError unit * t :=
  if existsb (fun candidate => bool_decide (connection candidate = c)) (candidates self)
  then (Ok tt, self)
  else if zlen (candidates self) =? PER_PEER_CAPACITY then (Err SelectionFull, self)
  else
    let transport := classify_transport (remote_address endpoint) in
    if zlen (List.filter (fun candidate => bool_decide (PathCandidate.transport (ranked candidate) = transport))
               (candidates self)) =? PER_TRANSPORT_CAPACITY
    then (Err TransportFull, self)
    else
      let path := if is_relayed endpoint then CandidatePath.Relayed else CandidatePath.Direct in
      let ranked := PathCandidate.Mk (next_id self) PingSamples.new path transport (next_order self) in
      (Ok tt, Mk (candidates self ++ [Track c ranked]) ((next_id self + 1) mod 2 ^ 64)
                 ((next_order self + 1) mod 2 ^ 64)).

Definition set_samples (candidate : TrackedCandidate) (samples : PingSamples.t) : TrackedCandidate :=
  let r := ranked candidate in
  Track (connection candidate)
    (PathCandidate.Mk (PathCandidate.id r) samples (PathCandidate.path r) (PathCandidate.transport r)
       (PathCandidate.established r)).

(** [iter_mut().find(..)] and a push of the sample on the candidate found. *)
Fixpoint ping_in (l : list TrackedCandidate) (c : ConnectionId) (round_trip : Z)
  : res SelectionError (bool * list TrackedCandidate) :=
  match l with
  | [] => Err UnknownCandidate
  | candidate :: rest =>
    if bool_decide (connection candidate = c) then
      '(pushed, samples) ← PingSamples.push (PathCandidate.samples (ranked candidate)) round_trip;
      Ok (pushed, set_samples candidate samples :: rest)
    else
      '(pushed, rest) ← ping_in rest c round_trip;
      Ok (pushed, candidate :: rest)
  end.

Definition ping (self : t) (c : ConnectionId) (round_trip : Z) : res SelectionError bool * t :=
  match ping_in (candidates self) c round_trip with
  | Ok (pushed, l) => (Ok pushed, Mk l (next_id self) (next_order self))
  | Err e => (Err e, self)
  | Panic => (Panic, self)
  end.

(** [position] *)
Fixpoint position (l : list TrackedCandidate) (c : ConnectionId) : option nat :=
  match l with
  | [] => None
  | candidate :: rest =>
    if bool_decide (connection candidate = c) then Some 0%nat else S <$> position rest c
  end.

(** [Vec::swap_remove]: the last element takes the place of the removed one. *)
Definition swap_remove {A} (l : list A) (i : nat) : list A :=
  match last l with
  | None => l
  | Some x => if (S i =? length l)%nat then removelast l else <[ i := x ]> (removelast l)
  end.

Definition closed (self : t) (c : ConnectionId) : bool * t :=
  match position (candidates self) c with
  | None => (false, self)
  | Some index => (true, Mk (swap_remove (candidates self) index) (next_id self) (next_order self))
  end.

Definition result_of (self : t) (tracked : TrackedCandidate) : Result :=
  MkResult (connection tracked)
    (connection <$> List.filter (fun candidate => bool_decide (connection candidate <> connection tracked))
                      (candidates self))
    (PathCandidate.path (ranked tracked), PathCandidate.transport (ranked tracked)).

Definition finish (self : t) : option Result :=
  tracked ← min_by (fun left right => compare (ranked left) (ranked right)) (candidates self);
  Some (result_of self tracked).

Definition finish_direct (self : t) : option Result :=
  tracked ← min_by (fun left right => compare (ranked left) (ranked right))
              (List.filter is_direct (candidates self));
  Some (result_of self tracked).
End Ops.
Arguments t : clear implicits.
Arguments TrackedCandidate : clear implicits.
Arguments Result : clear implicits.
End ConnectionSelection.

(** ** What the book promises *)

Inductive connection_event (PeerId ConnectionId : Type) :=
| Opened (peer : PeerId) (connection : ConnectionId) (endpoint : ConnectedPoint)
| Gone (peer : PeerId) (connection : ConnectionId).
Arguments Opened {_ _} _ _ _.
Arguments Gone {_ _} _ _.

(** The specification keeps the live connections, each with its peer and endpoint. *)
Notation live_map P C := (gmap C (P * ConnectedPoint)).

Module LiveConnections.
Section Spec.
Context {PeerId ConnectionId : Type} `{Countable PeerId} `{Countable ConnectionId}.

#[local] Notation t := (live_map PeerId ConnectionId).

Definition of_peer (live : t) (peer : PeerId) : t := filter (fun kv => kv.2.1 = peer) live.

Definition step (live : t) (e : connection_event PeerId ConnectionId) : res ConnectionBookError bool * t :=
  match e with
  | Opened peer c endpoint =>
    if bool_decide (is_Some (live !! c)) then (Ok false, live)
    else if bool_decide (size (of_peer live peer) = 8%nat) then (Err (PeerRosterFull Full), live)
    else (Ok true, <[ c := (peer, endpoint) ]> live)
  | Gone peer c =>
    if bool_decide (fst <$> live !! c = Some peer) then (Ok true, delete c live) else (Ok false, live)
  end.

(** An event is consistent when its connection is not live for another peer. *)
Definition consistent (live : t) (e : connection_event PeerId ConnectionId) : bool :=
  match e with
  | Opened peer c _ => match live !! c with Some (p, _) => bool_decide (p = peer) | None => true end
  | Gone _ _ => true
  end.

Fixpoint run (live : t) (events : list (connection_event PeerId ConnectionId))
  : list (res ConnectionBookError bool) * t :=
  match events with
  | [] => ([], live)
  | e :: rest =>
    let '(r, live) := step live e in
    let '(rs, live) := run live rest in
    (r :: rs, live)
  end.

Fixpoint all_consistent (live : t) (events : list (connection_event PeerId ConnectionId)) : bool :=
  match events with
  | [] => true
  | e :: rest => consistent live e && all_consistent (step live e).2 rest
  end.
End Spec.
End LiveConnections.

Section BookFacts.
Import ConnectionBook.
Context {PeerId ConnectionId : Type} `{Countable PeerId} `{Countable ConnectionId}.
Implicit Types (self : ConnectionBook.t PeerId ConnectionId) (live : live_map PeerId ConnectionId).

Definition book_step self (e : connection_event PeerId ConnectionId) : res ConnectionBookError bool * ConnectionBook.t PeerId ConnectionId :=
  match e with
  | Opened peer c endpoint => established self peer c endpoint
  | Gone peer c => closed self peer c
  end.

Fixpoint book_run self (events : list (connection_event PeerId ConnectionId))
  : list (res ConnectionBookError bool) * ConnectionBook.t PeerId ConnectionId :=
  match events with
  | [] => ([], self)
  | e :: rest =>
    let '(r, self) := book_step self e in
    let '(rs, self) := book_run self rest in
    (r :: rs, self)
  end.

Record implements self live : Prop := {
  imp_wf : forall peer roster, rosters self !! peer = Some roster ->
    ConnectionRoster.wf PER_PEER_CAPACITY roster /\ ConnectionRoster.iter roster <> [];
  imp_members : forall peer c, c ∈ connections self peer <-> fst <$> live !! c = Some peer;
  imp_endpoints : forall c, endpoints self !! c = snd <$> live !! c;
}.

Lemma implements_new : implements new ∅.
Proof.
  split.
  - intros peer roster. cbn. by rewrite lookup_empty.
  - intros peer c. unfold connections. cbn. rewrite !lookup_empty. cbn. by rewrite elem_of_nil.
  - intros c. cbn. by rewrite !lookup_empty.
Qed.

Lemma roster_of_wf self live peer :
  implements self live -> ConnectionRoster.wf PER_PEER_CAPACITY (roster_of self peer).
Proof.
  intros Hi. unfold roster_of. destruct (rosters self !! peer) as [r|] eqn:E; cbn.
  - by apply (imp_wf _ _ Hi) in E as [? _].
  - by apply roster_new_wf.
Qed.

Lemma roster_of_iter self peer : ConnectionRoster.iter (roster_of self peer) = connections self peer.
Proof.
  unfold roster_of, connections. destruct (rosters self !! peer); [done|]. cbn.
  by apply (roster_new_wf PER_PEER_CAPACITY).
Qed.

Lemma connections_nodup self live peer : implements self live -> NoDup (connections self peer).
Proof.
  intros Hi. rewrite <- roster_of_iter. by destruct (roster_of_wf _ _ peer Hi) as (_ & _ & ?).
Qed.

(** The connections listed for a peer are the keys of the live ones. *)
Lemma connections_dom self live peer :
  implements self live -> list_to_set (connections self peer) =@{gset ConnectionId} dom (LiveConnections.of_peer live peer).
Proof.
  intros Hi. apply set_eq. intros c. rewrite elem_of_list_to_set, (imp_members _ _ Hi), elem_of_dom.
  unfold LiveConnections.of_peer, is_Some. setoid_rewrite map_lookup_filter_Some. cbn.
  destruct (live !! c) as [[p e]|]; cbn; naive_solver.
Qed.

Lemma connections_size self live peer :
  implements self live -> length (connections self peer) = size (LiveConnections.of_peer live peer).
Proof.
  intros Hi. rewrite <- size_dom, <- (connections_dom self), size_list_to_set; [done| |done].
  by eapply connections_nodup.
Qed.

(** Lookups in a book whose roster for one peer has changed. *)
Lemma connections_set peer roster rest m peer' :
  connections (Mk (<[ peer := roster ]> rest) m : ConnectionBook.t PeerId ConnectionId) peer' =
  if bool_decide (peer' = peer) then ConnectionRoster.iter roster else connections (Mk rest m) peer'.
Proof.
  unfold connections. cbn. case_bool_decide as E; [subst; by rewrite lookup_insert_eq|].
  by rewrite lookup_insert_ne.
Qed.

Lemma connections_unset peer rest m peer' :
  connections (Mk (delete peer rest) m : ConnectionBook.t PeerId ConnectionId) peer' =
  if bool_decide (peer' = peer) then [] else connections (Mk rest m) peer'.
Proof.
  unfold connections. cbn. case_bool_decide as E; [subst; by rewrite lookup_delete_eq|].
  by rewrite lookup_delete_ne.
Qed.

Lemma connections_endpoints rest m m' peer :
  connections (Mk rest m : ConnectionBook.t PeerId ConnectionId) peer = connections (Mk rest m') peer.
Proof. done. Qed.

Lemma same_book self peer roster :
  rosters self !! peer = Some roster -> Mk (<[ peer := roster ]> (rosters self)) (endpoints self) = self.
Proof. intros E. rewrite insert_id by done. by destruct self. Qed.

Lemma opened_refines self live peer c e :
  implements self live ->
  (forall p, fst <$> live !! c = Some p -> p = peer) ->
  match established self peer c e, LiveConnections.step live (Opened peer c e) with
  | (r, self'), (r', live') => r = r' /\ implements self' live'
  end.
Proof.
  intros Hi Hc. pose proof (roster_of_wf _ _ peer Hi) as Hwf.
  pose proof (roster_insert_spec _ _ c Hwf) as Hs. rewrite roster_of_iter in Hs.
  pose proof (imp_members _ _ Hi peer c) as Hm.
  pose proof (connections_size _ _ peer Hi) as Hlen.
  unfold established, LiveConnections.step.
  destruct (ConnectionRoster.insert _ c) as [r roster] eqn:Ei. cbn.
  assert (Hold : roster = roster_of self peer -> connections self peer <> [] ->
            Mk (<[ peer := roster ]> (rosters self)) (endpoints self) = self).
  { intros -> Hne. apply same_book. unfold roster_of, connections in *.
    by destruct (rosters self !! peer). }
  destruct r as [[]|[]|]; [| | |done]; cbn [map_err].
  - destruct Hs as (Hn & Hp & Hw').
    assert (El : live !! c = None).
    { destruct (live !! c) as [[p x]|] eqn:El; [|done]. destruct Hn. apply Hm.
      cbn. f_equal. by apply Hc. }
    rewrite El, bool_decide_eq_false_2 by (by intros []).
    rewrite bool_decide_eq_false_2.
    2:{ rewrite <- Hlen. destruct Hw' as (Hcap & Hl & _).
        destruct Hwf as (Hcap0 & Hl0 & Hnd0). rewrite roster_of_iter in *.
        pose proof (Permutation_length Hp) as Hlp. cbn in Hlp. intros E8.
        assert (zlen (ConnectionRoster.iter roster) <= zlen (ConnectionRoster.entries roster)).
        { unfold zlen, ConnectionRoster.iter. pose proof (omap_length_le id (ConnectionRoster.entries roster)). lia. }
        unfold zlen, PER_PEER_CAPACITY in *. lia. }
    split; [done|]. split.
    + intros p r. cbn. rewrite lookup_insert_Some. intros [[<- <-]|[_ E]]; [|by apply (imp_wf _ _ Hi) in E].
      split; [done|]. intros E0. rewrite E0 in Hp. by apply Permutation_nil_cons in Hp.
    + intros p k. rewrite connections_set. case_bool_decide as Ep.
      * subst p. rewrite Hp, elem_of_cons, (imp_members _ _ Hi). destruct (decide (k = c)) as [->|Hk].
        -- rewrite lookup_insert_eq. cbn. naive_solver.
        -- rewrite lookup_insert_ne by done. naive_solver.
      * change (k ∈ connections self p <-> fst <$> <[c:=(peer, e)]> live !! k = Some p).
        rewrite (imp_members _ _ Hi). destruct (decide (k = c)) as [->|Hk].
        -- rewrite lookup_insert_eq, El. cbn. naive_solver.
        -- by rewrite lookup_insert_ne.
    + intros k. cbn. destruct (decide (k = c)) as [->|Hk]; [by rewrite !lookup_insert_eq|].
      rewrite !lookup_insert_ne by done. apply (imp_endpoints _ _ Hi).
  - destruct Hs as [Hin Hr]. rewrite (Hold Hr) by (intros E0; rewrite E0 in Hin; by apply elem_of_nil in Hin).
    rewrite bool_decide_eq_true_2; [done|]. apply Hm in Hin. destruct (live !! c); [by eexists|done].
  - destruct Hs as (Hn & Hcap & Hr). rewrite (Hold Hr) by (intros E0; by rewrite E0 in Hcap).
    rewrite bool_decide_eq_false_2, bool_decide_eq_true_2; [done| |].
    + rewrite <- Hlen. unfold zlen, PER_PEER_CAPACITY in Hcap. lia.
    + intros [[p x] El]. destruct Hn. apply Hm. rewrite El in *. cbn. f_equal. by apply Hc.
Qed.

Lemma gone_refines self live peer c :
  implements self live ->
  match closed self peer c, LiveConnections.step live (Gone peer c) with
  | (r, self'), (r', live') => r = r' /\ implements self' live'
  end.
Proof.
  intros Hi. pose proof (imp_members _ _ Hi peer c) as Hm. unfold closed, LiveConnections.step.
  destruct (rosters self !! peer) as [roster|] eqn:Er.
  2:{ unfold connections in Hm. rewrite Er in Hm. rewrite bool_decide_eq_false_2; [done|].
      rewrite <- Hm. apply not_elem_of_nil. }
  destruct (imp_wf _ _ Hi _ _ Er) as [Hwf Hne].
  pose proof (roster_remove_spec _ _ c Hwf) as Hs.
  assert (Hcs : connections self peer = ConnectionRoster.iter roster) by (unfold connections; by rewrite Er).
  rewrite Hcs in Hm. destruct (ConnectionRoster.remove roster c) as [[[]|?|] roster'] eqn:Ed; [| |done|done].
  2:{ destruct Hs as [Hn ->]. rewrite same_book by done. rewrite bool_decide_eq_false_2; [done|].
      by rewrite <- Hm. }
  destruct Hs as [Hp Hwf']. rewrite bool_decide_eq_true_2 by (apply Hm; rewrite Hp; left).
  destruct Hwf as (_ & _ & Hnd). rewrite Hp in Hnd. apply NoDup_cons in Hnd as [Hn Hnd].
  assert (Hmem : forall k, k ∈ ConnectionRoster.iter roster' <-> fst <$> delete c live !! k = Some peer).
  { intros k. destruct (decide (k = c)) as [->|Hk]; [rewrite lookup_delete_eq; split; [done|done]|].
    rewrite lookup_delete_ne, <- (imp_members _ _ Hi), Hcs, Hp, elem_of_cons by done. naive_solver. }
  assert (Hother : forall p k, p <> peer -> k ∈ connections self p <-> fst <$> delete c live !! k = Some p).
  { intros p k Hpn. rewrite (imp_members _ _ Hi). destruct (decide (k = c)) as [->|Hk].
    - rewrite lookup_delete_eq. assert (fst <$> live !! c = Some peer) as -> by (apply Hm; rewrite Hp; left).
      split; [intros [= ->]|]; done.
    - by rewrite lookup_delete_ne. }
  assert (Hends : forall k, delete c (endpoints self) !! k = snd <$> delete c live !! k).
  { intros k. destruct (decide (k = c)) as [->|Hk]; [by rewrite !lookup_delete_eq|].
    rewrite !lookup_delete_ne by done. apply (imp_endpoints _ _ Hi). }
  cbn. split; [done|].
  assert (He : ConnectionRoster.is_empty roster' = true <-> ConnectionRoster.iter roster' = []).
  { unfold ConnectionRoster.is_empty. destruct Hwf' as (_ & -> & _).
    destruct (ConnectionRoster.iter roster') as [|x l]; [done|]. rewrite zlen_cons. pose proof (zlen_nonneg l).
    destruct (Z.eqb_spec (1 + zlen l) 0); [lia|]. done. }
  destruct (ConnectionRoster.is_empty roster') eqn:Eb; split; cbn; try exact Hends.
  - intros p r. rewrite delete_insert_eq. rewrite lookup_delete_Some. intros [_ E]. by apply (imp_wf _ _ Hi) in E.
  - intros p k. rewrite connections_unset. case_bool_decide as Ep.
    + subst p. rewrite <- Hmem. by rewrite (proj1 He eq_refl).
    + rewrite connections_set, bool_decide_eq_false_2 by done.
      change (k ∈ connections self p <-> fst <$> delete c live !! k = Some p). by apply Hother.
  - intros p r. rewrite lookup_insert_Some. intros [[<- <-]|[_ E]]; [|by apply (imp_wf _ _ Hi) in E].
    split; [done|]. intros E0. by apply He in E0.
  - intros p k. rewrite connections_set. case_bool_decide as Ep; [subst p; apply Hmem|].
    change (k ∈ connections self p <-> fst <$> delete c live !! k = Some p). by apply Hother.
Qed.

Lemma book_run_refines events self live :
  implements self live -> LiveConnections.all_consistent live events = true ->
  (book_run self events).1 = (LiveConnections.run live events).1 /\
  implements (book_run self events).2 (LiveConnections.run live events).2.
Proof.
  revert self live. induction events as [|e events IH]; intros self live Hi; [done|].
  cbn [LiveConnections.all_consistent book_run LiveConnections.run]. intros [Hc Hcs]%andb_true_iff.
  assert (Hstep : (book_step self e).1 = (LiveConnections.step live e).1 /\
                  implements (book_step self e).2 (LiveConnections.step live e).2).
  { destruct e as [peer c ep|peer c]; cbn [book_step].
    - pose proof (opened_refines self live peer c ep Hi) as Ho.
      destruct (established _ _ _ _), (LiveConnections.step _ _). apply Ho. intros p.
      cbn in Hc. destruct (live !! c) as [[q x]|]; [|done]. apply bool_decide_eq_true in Hc. by intros [= <-].
    - pose proof (gone_refines self live peer c Hi) as Ho.
      by destruct (closed _ _ _), (LiveConnections.step _ _). }
  destruct Hstep as [Hr Hi']. specialize (IH _ _ Hi' Hcs).
  destruct (book_step self e) as [r self'], (LiveConnections.step live e) as [r' live']. cbn in *. subst r'.
  destruct (book_run self' events), (LiveConnections.run live' events). cbn in *. by destruct IH as [-> ?].
Qed.

Lemma unique_refines self live peer c e :
  implements self live ->
  unique self peer = Some (UniqueConnection.Mk c e) <->
  LiveConnections.of_peer live peer = {[ c := (peer, e) ]}.
Proof.
  intros Hi. pose proof (connections_dom _ _ peer Hi) as Hd.
  assert (Hu : unique self peer = Some (UniqueConnection.Mk c e) <->
               connections self peer = [c] /\ endpoints self !! c = Some e).
  { unfold unique, connections. destruct (rosters self !! peer) as [r|] eqn:Er; cbn; [|naive_solver].
    destruct (imp_wf _ _ Hi _ _ Er) as [Hwf _]. rewrite <- roster_unique_spec by exact Hwf.
    destruct (ConnectionRoster.unique r) as [k|]; cbn; [|naive_solver].
    destruct (endpoints self !! k) eqn:Ek; cbn; [split; [intros [= -> ->]; done|]|].
    - intros [[= ->] E2]. rewrite Ek in E2. by injection E2 as ->.
    - split; [done|]. intros [[= ->] E2]. congruence. }
  rewrite Hu, (imp_endpoints _ _ Hi). split.
  - intros [Hc He]. pose proof (imp_members _ _ Hi peer c) as Hm. rewrite Hc in Hm, Hd.
    apply map_eq. intros k. destruct (decide (k = c)) as [->|Hk].
    + rewrite lookup_singleton_eq. unfold LiveConnections.of_peer. apply map_lookup_filter_Some.
      assert (fst <$> live !! c = Some peer) by (apply Hm; left).
      destruct (live !! c) as [[]|]; [|done]. by simplify_eq/=.
    + rewrite lookup_singleton_ne by done. apply not_elem_of_dom. rewrite <- Hd. set_solver.
  - intros Hf. assert (Hl : live !! c = Some (peer, e)).
    { assert (Hx : LiveConnections.of_peer live peer !! c = Some (peer, e)) by (by rewrite Hf, lookup_singleton_eq).
      by apply map_lookup_filter_Some in Hx as [? _]. }
    rewrite Hl. split; [|done]. rewrite Hf, dom_singleton_L in Hd.
    pose proof (connections_size _ _ peer Hi) as Hs. rewrite Hf, map_size_singleton in Hs.
    destruct (connections self peer) as [|k [|]]; [done| |done]. set_solver.
Qed.

Lemma is_direct_refines self live peer c :
  implements self live ->
  is_direct self peer c = true <-> exists e, live !! c = Some (peer, e) /\ is_relayed e = false.
Proof.
  intros Hi. assert (Hd : is_direct self peer c =
    existsb (fun x => bool_decide (x = c)) (connections self peer) && direct self c).
  { unfold is_direct, connections. by destruct (rosters self !! peer). }
  rewrite Hd, andb_true_iff. unfold direct. rewrite (imp_endpoints _ _ Hi), existsb_exists.
  assert (Hex : (exists x, List.In x (connections self peer) /\ bool_decide (x = c) = true) <->
                fst <$> live !! c = Some peer).
  { rewrite <- (imp_members _ _ Hi). split.
    - intros (x & Hx & ->%bool_decide_eq_true). by apply list_elem_of_In.
    - intros Hc. exists c. by rewrite <- list_elem_of_In, bool_decide_eq_true. }
  rewrite Hex. destruct (live !! c) as [[p e]|]; cbn; [|naive_solver].
  rewrite negb_true_iff. naive_solver.
Qed.

(** The direct connections of a peer, as a map. *)
Definition direct_of (live : live_map PeerId ConnectionId) (peer : PeerId) : live_map PeerId ConnectionId :=
  filter (fun kv => is_relayed kv.2.2 = false) (LiveConnections.of_peer live peer).

Lemma direct_count_refines self live peer :
  implements self live -> direct_count self peer = Z.of_nat (size (direct_of live peer)).
Proof.
  intros Hi. assert (Hd : direct_count self peer = zlen (List.filter (direct self) (connections self peer))).
  { unfold direct_count, connections. by destruct (rosters self !! peer). }
  rewrite Hd. unfold zlen. f_equal.
  assert (Hdom : list_to_set (List.filter (direct self) (connections self peer)) =@{gset ConnectionId}
                 dom (direct_of live peer)).
  { apply set_eq. intros c. rewrite elem_of_list_to_set, list_elem_of_In, filter_In, <- list_elem_of_In.
    rewrite (imp_members _ _ Hi), elem_of_dom. unfold direct. rewrite (imp_endpoints _ _ Hi).
    unfold direct_of, LiveConnections.of_peer, is_Some. setoid_rewrite map_lookup_filter_Some.
    setoid_rewrite map_lookup_filter_Some. cbn. destruct (live !! c) as [[p e]|]; cbn; [|naive_solver].
    rewrite negb_true_iff. naive_solver. }
  rewrite <- size_dom, <- Hdom, size_list_to_set; [done|].
  apply NoDup_ListNoDup, List.NoDup_filter, NoDup_ListNoDup. by eapply connections_nodup.
Qed.
End BookFacts.

(** C27: The connection book refines the map from each live connection to its peer and
    endpoint.  For every sequence of establishment and close events in which no
    connection is established for one peer while live for another, each event gets the
    answer the map gives (a repeated establishment and an unknown close change nothing, a
    ninth connection of a peer is refused, [established] and [closed] never panic), and
    afterwards the book answers every question as the map does: [unique] names a
    connection exactly when it is the only live one of its peer, with its endpoint;
    [count], [connections], [is_direct] and [direct_count] report the live and the direct
    ones; and no peer has more than eight. *)
Theorem connection_book_refines {PeerId ConnectionId} `{Countable PeerId} `{Countable ConnectionId}
    (events : list (connection_event PeerId ConnectionId)) :
  LiveConnections.all_consistent ∅ events = true ->
  let '(answers, book) := book_run ConnectionBook.new events in
  let '(expected, live) := LiveConnections.run ∅ events in
  answers = expected /\
  forall peer,
    (forall c e, ConnectionBook.unique book peer = Some (UniqueConnection.Mk c e) <->
                 LiveConnections.of_peer live peer = {[ c := (peer, e) ]}) /\
    ConnectionBook.count book peer = Z.of_nat (size (LiveConnections.of_peer live peer)) /\
    ConnectionBook.count book peer <= PER_PEER_CAPACITY /\
    (forall c, c ∈ ConnectionBook.connections book peer <-> fst <$> live !! c = Some peer) /\
    (forall c, ConnectionBook.is_direct book peer c = true <->
               exists e, live !! c = Some (peer, e) /\ is_relayed e = false) /\
    ConnectionBook.direct_count book peer = Z.of_nat (size (direct_of live peer)).
Proof.
  intros Hc. destruct (book_run_refines events _ _ implements_new Hc) as [Hr Hi].
  destruct (book_run _ events) as [answers book], (LiveConnections.run _ events) as [expected live].
  cbn in Hr, Hi. split; [done|]. intros peer.
  assert (Hcount : ConnectionBook.count book peer = zlen (ConnectionBook.connections book peer)).
  { unfold ConnectionBook.count, ConnectionBook.connections. destruct (ConnectionBook.rosters book !! peer) eqn:Er; [|done].
    by destruct (imp_wf _ _ Hi _ _ Er) as [(_ & ? & _) _]. }
  split_and!.
  - intros c e. by apply unique_refines.
  - rewrite Hcount. unfold zlen. f_equal. by apply connections_size.
  - rewrite Hcount, <- roster_of_iter. destruct (roster_of_wf _ _ peer Hi) as (<- & _).
    unfold zlen, ConnectionRoster.iter. pose proof (omap_length_le id (ConnectionRoster.entries (ConnectionBook.roster_of book peer))).
    lia.
  - apply (imp_members _ _ Hi).
  - intros c. by apply is_direct_refines.
  - by apply direct_count_refines.
Qed.

Definition example_history : list (connection_event Z Z) :=
  let relayed := MkPoint [Ip4 7; Tcp 1] true in
  let direct := MkPoint [Ip4 7; Udp 1; QuicV1] false in
  [Opened 1 10 relayed; Opened 1 11 direct; Opened 1 11 direct; Opened 2 12 direct; Gone 1 10; Gone 1 10].

Lemma example_history_consistent : LiveConnections.all_consistent ∅ example_history = true.
Proof. vm_compute. reflexivity. Qed.

Lemma connection_book_refines_witness :
  ConnectionBook.direct_count (book_run ConnectionBook.new example_history).2 1 = 1.
Proof.
  assert (Hs : Z.of_nat (size (direct_of (LiveConnections.run ∅ example_history).2 1)) = 1) by (vm_compute; reflexivity).
  pose proof (connection_book_refines example_history example_history_consistent) as H.
  destruct (book_run _ _) as [answers book], (LiveConnections.run _ _) as [expected live].
  destruct H as [_ H]. destruct (H 1) as (_ & _ & _ & _ & _ & Hd). exact (eq_trans Hd Hs).
Defined.
