(* ===== verification/Selection.v ===== *)
(** * The selection window

    What [ConnectionSelection] of [crates/yonder-net/src/connection.rs] keeps while the
    connections to one peer are established, measured and closed, and what it selects. *)

From stdpp Require Import gmap.
From S2P Require Import Prelude Domain Session Path Connections.
Import ConnectionSelection.
Open Scope Z_scope.

Inductive selection_event (ConnectionId : Type) :=
| WindowOpened (connection : ConnectionId) (endpoint : ConnectedPoint)
| WindowPing (connection : ConnectionId) (round_trip : Z)
| WindowClosed (connection : ConnectionId).
Arguments WindowOpened {_} _ _.
Arguments WindowPing {_} _ _.
Arguments WindowClosed {_} _.

Section Window.
Context {ConnectionId : Type} `{EqDecision ConnectionId}.
Implicit Types (self : ConnectionSelection.t ConnectionId) (l : list (TrackedCandidate ConnectionId)).

Definition panics {E A} (r : res E A) : bool := match r with Panic => true | _ => false end.

(** Whether an event panicked, and the window after it. *)
Definition window_step self (e : selection_event ConnectionId) : bool * ConnectionSelection.t ConnectionId :=
  match e with
  | WindowOpened c endpoint => let '(r, self) := established self c endpoint in (panics r, self)
  | WindowPing c round_trip => let '(r, self) := ping self c round_trip in (panics r, self)
  | WindowClosed c => (false, (closed self c).2)
  end.

Fixpoint window_run self (events : list (selection_event ConnectionId)) : bool * ConnectionSelection.t ConnectionId :=
  match events with
  | [] => (false, self)
  | e :: rest =>
    let '(panicked, self) := window_step self e in
    let '(later, self) := window_run self rest in
    (panicked || later, self)
  end.

Definition on_transport (transport : TransportKind.t) l : list (TrackedCandidate ConnectionId) :=
  List.filter (fun candidate => bool_decide (PathCandidate.transport (ranked candidate) = transport)) l.

Definition order_of (candidate : TrackedCandidate ConnectionId) : Z := PathCandidate.established (ranked candidate).

(** At most eight candidates, two per transport, each connection once, sample arrays
    within bounds, and establishment orders distinct and below the next one. *)
Record window_wf self : Prop := {
  win_size : zlen (candidates self) <= PER_PEER_CAPACITY;
  win_transport : forall transport, zlen (on_transport transport (candidates self)) <= PER_TRANSPORT_CAPACITY;
  win_distinct : NoDup (connection <$> candidates self);
  win_samples : Forall (fun candidate => PingSamples.wf (PathCandidate.samples (ranked candidate))) (candidates self);
  win_orders : NoDup (order_of <$> candidates self);
  win_next : Forall (fun candidate => 0 <= order_of candidate < next_order self) (candidates self);
}.
End Window.

Section WindowFacts.
Context {ConnectionId : Type} `{EqDecision ConnectionId}.
Implicit Types (self : ConnectionSelection.t ConnectionId) (l : list (TrackedCandidate ConnectionId)).

Lemma window_new : window_wf (new : ConnectionSelection.t ConnectionId).
Proof. split; cbn; try constructor; try done. Qed.

Lemma contains_spec l c :
  existsb (fun candidate => bool_decide (connection candidate = c)) l = true <-> c ∈ connection <$> l.
Proof.
  rewrite existsb_exists, list_elem_of_fmap. split.
  - intros (x & Hx & <-%bool_decide_eq_true). exists x. by rewrite list_elem_of_In.
  - intros (x & -> & Hx). exists x. rewrite <- list_elem_of_In. split; [done|]. by apply bool_decide_eq_true.
Qed.

Lemma on_transport_app t l l' : on_transport t (l ++ l') = on_transport (ConnectionId:=ConnectionId) t l ++ on_transport t l'.
Proof. apply List.filter_app. Qed.

Lemma established_spec self c e r self' :
  window_wf self -> next_order self < 2 ^ 64 - 1 -> 0 <= next_order self -> established self c e = (r, self') ->
  window_wf self' /\ r <> Panic /\ next_order self <= next_order self' <= next_order self + 1.
Proof.
  intros Hw Hn H0. unfold established.
  destruct (existsb _ _) eqn:Ec; [intros [= <- <-]; split_and!; [done..|lia|lia]|].
  destruct (Z.eqb_spec (zlen (candidates self)) PER_PEER_CAPACITY) as [|Hsz];
    [intros [= <- <-]; split_and!; [done..|lia|lia]|].
  set (tr := classify_transport _). fold (on_transport tr (candidates self)).
  destruct (Z.eqb_spec (zlen (on_transport tr (candidates self))) PER_TRANSPORT_CAPACITY) as [|Ht];
    [intros [= <- <-]; split_and!; [done..|lia|lia]|].
  intros [= <- <-]. rewrite (Z.mod_small (next_order self + 1)) by lia. split; [|split; [done|cbn; lia]].
  destruct Hw as [H1 H2 H3 H4 H5 H6]. split; cbn [candidates next_order].
  - rewrite zlen_app. change (zlen [_]) with 1. lia.
  - intros t. rewrite on_transport_app, zlen_app. specialize (H2 t) as Ht2. cbn -[bool_decide zlen].
    case_bool_decide as Et; [subst t; specialize (H2 tr); change (zlen [_]) with 1; lia|change (zlen []) with 0; lia].
  - rewrite fmap_app. apply NoDup_app. split; [done|]. split; [|apply NoDup_singleton].
    intros x Hx ->%list_elem_of_singleton. cbn in Hx. apply contains_spec in Hx. congruence.
  - apply Forall_app. split; [done|]. apply Forall_singleton. split; [reflexivity|vm_compute; split; discriminate].
  - rewrite fmap_app. apply NoDup_app. split; [done|]. split; [|apply NoDup_singleton].
    intros x Hx ->%list_elem_of_singleton. cbn in Hx. apply list_elem_of_fmap in Hx as (y & Hy & Hin).
    rewrite Forall_forall in H6. apply H6 in Hin. unfold order_of in *. cbn in *. lia.
  - apply Forall_app. split; [|apply Forall_singleton; cbn; lia].
    eapply Forall_impl; [exact H6|]. cbn. intros; lia.
Qed.

Lemma set_index_len {E} v i x : 0 <= i < zlen v -> exists v', set_index (E:=E) v i x = Ok v' /\ zlen v' = zlen v.
Proof.
  intros Hi. unfold set_index, copy_range. change (zlen [x]) with 1.
  destruct (Z.leb_spec 0 i), (Z.leb_spec i (i + 1)), (Z.leb_spec (i + 1) (zlen v)), (Z.eqb_spec 1 (i + 1 - i)); try lia.
  eexists. split; [reflexivity|]. unfold zlen in *. rewrite !length_app, length_take, length_drop. cbn. lia.
Qed.

(** A ping changes the samples of one candidate and nothing else. *)
Lemma ping_in_spec l c rt :
  Forall (fun candidate => PingSamples.wf (PathCandidate.samples (ranked candidate))) l ->
  match ping_in l c rt with
  | Ok (_, l') =>
      connection <$> l' = connection <$> l /\ order_of <$> l' = order_of <$> l /\
      (forall t, zlen (on_transport t l') = zlen (on_transport t l)) /\
      Forall (fun candidate => PingSamples.wf (PathCandidate.samples (ranked candidate))) l' /\ c ∈ connection <$> l
  | Err e => e = UnknownCandidate /\ c ∉ connection <$> l
  | Panic => False
  end.
Proof.
  induction l as [|x l IH]; intros Hw; cbn [ping_in]; [split; [done|apply not_elem_of_nil]|].
  apply Forall_cons in Hw as [Hx Hw]. case_bool_decide as Ec.
  - unfold PingSamples.push. destruct Hx as [Hz Hl]. destruct (Z.eqb_spec (PingSamples.len (PathCandidate.samples (ranked x))) 3) as [E3|E3]; cbn.
    + split_and!; [done..|intros t; by case_bool_decide| |subst c; left]. constructor; [split; done|done].
    + destruct (set_index_len (E:=SelectionError) (PingSamples.values (PathCandidate.samples (ranked x)))
        (PingSamples.len (PathCandidate.samples (ranked x))) rt) as (v & -> & Hv); [lia|]. cbn.
      split_and!; [done..|intros t; by case_bool_decide| |subst c; left]. constructor; [|done].
      split; cbn -[Z.add]; lia.
  - specialize (IH Hw). destruct (ping_in l c rt) as [[p l']|e|]; cbn; [| |done].
    + destruct IH as (H1 & H2 & H3 & H4 & H5). cbn. split_and!.
      * by rewrite H1.
      * by rewrite H2.
      * intros t. specialize (H3 t). unfold on_transport in *. case_bool_decide; [|done].
        rewrite !zlen_cons. lia.
      * by constructor.
      * by right.
    + destruct IH as [-> Hn]. split; [done|]. rewrite elem_of_cons. intros [->|]; done.
Qed.

(** [swap_remove] of the position found takes out that candidate. *)
Lemma position_spec l c :
  match position l c with
  | Some i => exists x, l !! i = Some x /\ connection x = c
  | None => c ∉ connection <$> l
  end.
Proof.
  induction l as [|x l IH]; cbn [position]; [apply not_elem_of_nil|]. case_bool_decide as Ec.
  - by exists x.
  - destruct (position l c) as [i|]; cbn; [by destruct IH as (y & ? & ?); exists y|].
    rewrite elem_of_cons. intros [->|]; done.
Qed.

Lemma swap_remove_perm {A} (l : list A) i x : l !! i = Some x -> l ≡ₚ x :: swap_remove l i.
Proof.
  intros Hi. destruct l as [|y l _] using rev_ind; [done|]. unfold swap_remove.
  rewrite last_snoc, removelast_last, length_app. cbn [length].
  destruct (Nat.eqb_spec (S i) (length l + 1)) as [E|E].
  - rewrite lookup_app_r in Hi by lia. replace (i - length l)%nat with 0%nat in Hi by lia. injection Hi as ->.
    by rewrite Permutation_app_comm.
  - assert (Hlt : (i < length l)%nat).
    { apply lookup_lt_Some in Hi. rewrite length_app in Hi. cbn in Hi. lia. }
    rewrite lookup_app_l in Hi by done. rewrite insert_take_drop by done.
    rewrite <- (take_drop_middle l i x Hi) at 1. by rewrite Permutation_app_comm; cbn; solve_Permutation.
Qed.

Lemma filter_perm {A} (g : A -> bool) (l l' : list A) : l ≡ₚ l' -> List.filter g l ≡ₚ List.filter g l'.
Proof.
  intros Hp. induction Hp; cbn; [done|by case_match; [constructor|]| |by etrans].
  repeat case_match; try done. constructor.
Qed.

(** The invariant of a window holds of every part of it. *)
Lemma window_sub self l x :
  window_wf self -> candidates self ≡ₚ x :: l -> window_wf (Mk l (next_id self) (next_order self)).
Proof.
  intros [H1 H2 H3 H4 H5 H6] Hp. split; cbn [candidates next_order].
  - unfold zlen in *. rewrite Hp in H1. cbn in H1. lia.
  - intros t. specialize (H2 t). unfold on_transport in *.
    unfold zlen in *. rewrite (Permutation_length (filter_perm _ _ _ Hp)) in H2. cbn in H2.
    case_match; cbn in H2; lia.
  - rewrite Hp in H3. by apply NoDup_cons in H3 as [_ ?].
  - rewrite Hp in H4. by apply Forall_cons in H4 as [_ ?].
  - rewrite Hp in H5. by apply NoDup_cons in H5 as [_ ?].
  - rewrite Hp in H6. by apply Forall_cons in H6 as [_ ?].
Qed.

Lemma closed_spec self c r self' :
  window_wf self -> closed self c = (r, self') ->
  window_wf self' /\ next_order self' = next_order self /\
  if r then connection <$> candidates self ≡ₚ c :: (connection <$> candidates self')
  else c ∉ connection <$> candidates self /\ self' = self.
Proof.
  intros Hw. unfold closed. pose proof (position_spec (candidates self) c) as Hp.
  destruct (position _ c) as [i|].
  - intros [= <- <-]. destruct Hp as (x & Hi & <-). pose proof (swap_remove_perm _ _ _ Hi) as Hperm.
    split; [by eapply window_sub|]. split; [done|]. by rewrite Hperm at 1.
  - by intros [= <- <-].
Qed.

Lemma ping_spec self c rt r self' :
  window_wf self -> ping self c rt = (r, self') ->
  window_wf self' /\ r <> Panic /\ next_order self' = next_order self /\
  connection <$> candidates self' = connection <$> candidates self.
Proof.
  intros Hw. pose proof Hw as [H1 H2 H3 H4 H5 H6]. unfold ping.
  pose proof (ping_in_spec _ c rt H4) as Hs. destruct (ping_in _ c rt) as [[p l']|e|]; [| |done].
  - intros [= <- <-]. destruct Hs as (Hc & Ho & Ht & Hw' & _). split; [|done].
    assert (Hl : length l' = length (candidates self)) by (rewrite <- (length_fmap connection l'), Hc; apply length_fmap).
    split; cbn [candidates next_order]; [unfold zlen in *; lia|intros t; rewrite Ht; apply H2|by rewrite Hc|done|by rewrite Ho|].
    apply (Forall_fmap order_of (fun o => 0 <= o < next_order self)). rewrite Ho. by apply Forall_fmap.
  - by intros [= <- <-].
Qed.
End WindowFacts.

(** ** The choice *)

Section Choice.
Context {ConnectionId : Type} `{EqDecision ConnectionId}.
Implicit Types (self : ConnectionSelection.t ConnectionId) (l : list (TrackedCandidate ConnectionId)).

Lemma window_run_wf events self :
  window_wf self -> 0 <= next_order self -> next_order self + zlen events < 2 ^ 64 ->
  window_wf (window_run self events).2 /\ (window_run self events).1 = false.
Proof.
  revert self. induction events as [|e events IH]; intros self Hw H0 Hn; [done|].
  rewrite zlen_cons in Hn. pose proof (zlen_nonneg events) as Hz. cbn [window_run].
  assert (Hs : window_wf (window_step self e).2 /\ (window_step self e).1 = false /\
               next_order self <= next_order (window_step self e).2 <= next_order self + 1).
  { destruct e as [c ep|c rt|c]; cbn [window_step].
    - destruct (established self c ep) as [r self'] eqn:E.
      destruct (established_spec _ _ _ _ _ Hw ltac:(lia) H0 E) as (? & ? & ?). by destruct r.
    - destruct (ping self c rt) as [r self'] eqn:E.
      destruct (ping_spec _ _ _ _ _ Hw E) as (? & ? & Ho & _). destruct r; cbn; (split_and!; [done..|lia|lia]).
    - destruct (closed self c) as [r self'] eqn:E. destruct (closed_spec _ _ _ _ Hw E) as (? & Ho & _).
      cbn. split_and!; [done..|lia|lia]. }
  destruct (window_step self e) as [p self']. cbn in Hs. destruct Hs as (Hw' & -> & Ho).
  destruct (IH self' Hw') as [? Hp]; [lia..|]. destruct (window_run self' events). cbn in *. by subst.
Qed.

Lemma min_by_member {A} (cmp : A -> A -> comparison) (l : list A) :
  match min_by cmp l with Some x => x ∈ l | None => l = [] end.
Proof.
  destruct l as [|x l]; [done|]. cbn [min_by]. revert x.
  induction l as [|y l IH]; intros x; cbn [foldl]; [left|].
  specialize (IH (match cmp x y with Gt => y | _ => x end)).
  apply elem_of_cons in IH as [->|Hin]; [|by right; right]. destruct (cmp x y); [left|left|right; left].
Qed.

Lemma losers_spec self x :
  window_wf self -> x ∈ candidates self ->
  winner (result_of self x) :: losers (result_of self x) ≡ₚ connection <$> candidates self.
Proof.
  intros Hw Hin. cbn. pose proof (win_distinct _ Hw) as Hnd.
  apply list_elem_of_split in Hin as (l1 & l2 & Hl). rewrite Hl in *. clear Hl Hw.
  rewrite List.filter_app. cbn [List.filter]. rewrite bool_decide_eq_false_2 by (intros Hn; by apply Hn).
  rewrite fmap_app in Hnd. cbn in Hnd. apply NoDup_app in Hnd as (_ & Hd & [Hn2 _]%NoDup_cons).
  assert (Hid : forall l, connection x ∉ connection <$> l ->
            List.filter (fun y => bool_decide (connection y <> connection x)) l = l).
  { clear. induction l as [|y l IH]; [done|]. cbn. rewrite not_elem_of_cons. intros [Hy Hl].
    rewrite bool_decide_eq_true_2 by done. f_equal. by apply IH. }
  rewrite !Hid; [|done|].
  - rewrite !fmap_app. cbn. by rewrite Permutation_middle.
  - intros H1. apply (Hd _ H1). left.
Qed.

(** [r] closes every candidate but its winner, a member of the pool with its route and
    transport, which no member outranks when the pool's evidence is of one kind. *)
Definition chosen_from self l (r : Result ConnectionId) : Prop :=
  winner r :: losers r ≡ₚ connection <$> candidates self /\
  exists x, x ∈ l /\ connection x = winner r /\
    path r = (PathCandidate.path (ranked x), PathCandidate.transport (ranked x)) /\
    forall many, Forall (fun y => uniform many (ranked y)) l ->
      forall y, y ∈ l -> compare (ranked x) (ranked y) <> Gt.

Lemma chosen_spec self l x :
  window_wf self -> (forall y, y ∈ l -> y ∈ candidates self) ->
  min_by (fun left right => compare (ranked left) (ranked right)) l = Some x ->
  chosen_from self l (result_of self x).
Proof.
  intros Hw Hsub Hx. pose proof (min_by_member (fun a b => compare (ranked a) (ranked b)) l) as Hin. rewrite Hx in Hin.
  split; [by apply losers_spec; [|apply Hsub]|]. exists x. split_and!; [done..|].
  intros many Hu y Hy.
  destruct (min_by_spec (fun a : TrackedCandidate ConnectionId => key many (ranked a))
    (fun a b => compare (ranked a) (ranked b)) (fun a => uniform many (ranked a))
    ltac:(intros; by apply compare_key) l Hu) as (w & Ew & _ & Hmin);
    [by intros ->; apply not_elem_of_nil in Hin|].
  rewrite Hx in Ew. injection Ew as <-. rewrite Forall_forall in Hu.
  rewrite (compare_key many) by auto. by apply Hmin.
Qed.
End Choice.

(** C28: The selection window stays within its bounds and its choice is sound.  For every
    sequence of establishments, pings and closures of fewer than 2^64 events from a new
    window: no operation panics; the window holds at most eight candidates, at most two per
    transport, and no connection twice; [finish] chooses whenever there is a candidate,
    and the losers it returns are exactly the other candidates; [finish_direct] chooses
    whenever there is a direct candidate, and only a direct one; and where the candidates
    considered have evidence of one kind, no candidate outranks the winner. *)
Theorem selection_window {ConnectionId} `{EqDecision ConnectionId} (events : list (selection_event ConnectionId)) :
  zlen events < 2 ^ 64 ->
  let '(panicked, self) := window_run new events in
  panicked = false /\
  zlen (candidates self) <= PER_PEER_CAPACITY /\
  (forall transport, zlen (on_transport transport (candidates self)) <= PER_TRANSPORT_CAPACITY) /\
  NoDup (connection <$> candidates self) /\
  match finish self with
  | None => candidates self = []
  | Some r => chosen_from self (candidates self) r
  end /\
  match finish_direct self with
  | None => has_direct self = false
  | Some r => has_direct self = true /\ (path r).1 = CandidatePath.Direct /\
              chosen_from self (List.filter is_direct (candidates self)) r
  end.
Proof.
  intros Hn. destruct (window_run_wf events new window_new) as [Hw Hp]; [done|cbn -[zlen]; lia|].
  destruct (window_run new events) as [panicked self]. cbn in Hw, Hp.
  split_and!; [done|apply Hw..| |].
  - unfold finish. destruct (min_by _ (candidates self)) as [x|] eqn:E; cbn [mbind option_bind].
    + by apply chosen_spec.
    + pose proof (min_by_member (fun a b => compare (ranked a) (ranked b)) (candidates self)) as Hm.
      by rewrite E in Hm.
  - unfold finish_direct, has_direct.
    pose proof (min_by_member (fun a b => compare (ranked a) (ranked b)) (List.filter is_direct (candidates self))) as Hm.
    destruct (min_by _ (List.filter _ _)) as [x|] eqn:E; cbn [mbind option_bind].
    + rewrite list_elem_of_In, filter_In in Hm. destruct Hm as [Hin Hd]. split_and!.
      * apply existsb_exists. by exists x.
      * by apply bool_decide_eq_true in Hd.
      * apply chosen_spec; [done| |done]. intros y. rewrite !list_elem_of_In, filter_In. by intros [? _].
    + apply not_true_iff_false. rewrite existsb_exists. intros (x & Hin & Hd).
      assert (Hf : List.In x (List.filter is_direct (candidates self))) by (by apply filter_In).
      by rewrite Hm in Hf.
Qed.

Lemma selection_window_witness :
  let relayed := MkPoint [Ip4 7; Tcp 1] true in
  let direct := MkPoint [Ip4 7; Udp 1; QuicV1] false in
  let events := [WindowOpened 1 relayed; WindowOpened 2 direct; WindowOpened 3 direct; WindowOpened 4 direct;
                 WindowPing 1 5; WindowPing 2 9; WindowClosed 3] in
  zlen events < 2 ^ 64 /\
  exists r, finish_direct (window_run new events).2 = Some r /\ winner r :: losers r ≡ₚ [1; 2].
Proof.
  cbv zeta. split; [reflexivity|].
  pose proof (selection_window
    [WindowOpened 1 (MkPoint [Ip4 7; Tcp 1] true); WindowOpened 2 (MkPoint [Ip4 7; Udp 1; QuicV1] false);
     WindowOpened 3 (MkPoint [Ip4 7; Udp 1; QuicV1] false); WindowOpened 4 (MkPoint [Ip4 7; Udp 1; QuicV1] false);
     WindowPing 1 5; WindowPing 2 9; WindowClosed 3] eq_refl) as H.
  eexists. split; [vm_compute; reflexivity|].
  exact (proj1 (proj2 (proj2 (proj2 (proj2 (proj2 (proj2 (proj2 H)))))))).
Defined.
