(* ===== verification/RelayOwner.v ===== *)
(** * The relay's owner loop

    [crates/yon-relay/src/service.rs]: the event loop of [run_relay_until], which owns the
    connection book, the registry, the limiters and the sets of peers with an exchange in
    flight, and the handlers it calls; [EnterpriseLimiters] and the start admission of
    [crates/yon-relay/src/enterprise_resolve.rs].  Each arm of the [select!] is an event;
    a step returns the next state of the owner and what it sends, spawns or closes.  The
    tasks that serve enterprise substreams and callbacks are in [EnterpriseFlow].  Clock readings, the swarm's
    events and the tasks' messages come with the events. *)

From stdpp Require Import gmap.
From S2P Require Import Prelude Domain WireRegistry WireEnterprise Session Resource Registry Path Limiters.
From S2P Require Import EnterpriseSession Provider CallbackSession EnterpriseResolve Connections.
Open Scope Z_scope.

Definition REGISTRY_READERS : Z := 16.
Definition ENTERPRISE_RESOLVE_READERS : Z := 64.

(** ** Counters *)

Module RelayObservability.
Inductive Counter :=
| connection_overflow | registry_overload | registry_retry | registry_capacity
| resolve_overload | resolve_retry | resolve_global_limited | resolve_source_limited
| protocol_timeout | protocol_io | protocol_invalid | protocol_owner_stopped
| protocol_registry | protocol_enterprise_failed.
#[export] Instance Counter_eq_dec : EqDecision Counter.
Proof. solve_decision. Defined.

Definition t : Type := Counter -> Z.
Definition default : t := fun _ => 0.

(** [saturating_add] on a [u64] *)
Definition increment (counter : Counter) (self : t) : t := fun c =>
  if decide (c = counter) then Z.min (self c + 1) (2 ^ 64 - 1) else self c.

Definition observe_protocol_result (self : t) (result : res ProtocolTaskError.t unit) : t :=
  match result with
  | Ok _ | Panic => self
  | Err e =>
    increment
      match e with
      | ProtocolTaskError.Timeout => protocol_timeout
      | ProtocolTaskError.Io => protocol_io
      | ProtocolTaskError.Protocol _ => protocol_invalid
      | ProtocolTaskError.OwnerStopped => protocol_owner_stopped
      | ProtocolTaskError.Registry _ => protocol_registry
      | ProtocolTaskError.Random _ | ProtocolTaskError.Session _
      | ProtocolTaskError.EnterpriseProvider _ => protocol_enterprise_failed
      end self
  end.
End RelayObservability.

(** ** Listeners *)

Inductive ListenerProgress := Ignored | Pending | BecameReady | Additional.

Module RequiredListeners.
Section Ops.
Context {ListenerId : Type} `{Countable ListenerId}.

Record t := Mk {
  required : gset ListenerId;
  pending : gset ListenerId;
  ready_addresses : list (list Protocol);
  ready_reported : bool;
}.

Definition new (listener_ids : list ListenerId) : t :=
  let required := list_to_set listener_ids in Mk required required [] false.

Definition is_required (self : t) (id : ListenerId) : bool := bool_decide (id ∈ required self).

Definition observe (self : t) (id : ListenerId) (address : list Protocol) : ListenerProgress * t :=
  if negb (bool_decide (id ∈ required self)) then (Ignored, self)
  else if ready_reported self then (Additional, self)
  else
    let self :=
      if bool_decide (id ∈ pending self)
      then Mk (required self) (pending self ∖ {[ id ]}) (ready_addresses self ++ [address]) (ready_reported self)
      else self in
    if bool_decide (pending self = ∅)
    then (BecameReady, Mk (required self) (pending self) (ready_addresses self) true)
    else (Pending, self).
End Ops.
Arguments t ListenerId {_ _}.
End RequiredListeners.

(** ** Start admission of the enterprise flow *)

(** [RateLimit::authentication()] *)
Definition authentication_limit : RateLimit.t := RateLimit.Mk 1 4.

Lemma authentication_limit_ok {E} : RateLimit.authentication (E:=E) = Ok authentication_limit.
Proof. done. Qed.

Definition ENTERPRISE_SOURCE_CAPACITY : Z := 1024.
Definition ENTERPRISE_SOURCE_IDLE : Z := from_secs (10 * 60).

Module EnterpriseLimiters.
Section Ops.
Context `{Governor}.

Record t := Mk { global : Limiter; sources : gmap SourcePrefix.t SourceLimiter }.

Definition new : t := Mk (direct authentication_limit) ∅.

Definition prune (self : t) (now : MonotonicTime.t) : t :=
  Mk (global self) (filter (fun e => retained ENTERPRISE_SOURCE_IDLE now e.2 = true) (sources self)).

Definition check_source (self : t) (source : SourcePrefix.t) (now : MonotonicTime.t) (reading : Z) : bool * t :=
  let self := prune self now in
  match sources self !! source with
  | Some entry =>
    let '(ok, l) := check_limiter (limiter entry) reading in
    (ok, Mk (global self) (<[ source := MkSourceLimiter l now ]> (sources self)))
  | None =>
    if ENTERPRISE_SOURCE_CAPACITY <=? Z.of_nat (size (sources self)) then (false, self)
    else
      let '(allowed, l) := check_limiter (direct authentication_limit) reading in
      (allowed, Mk (global self) (<[ source := MkSourceLimiter l now ]> (sources self)))
  end.

Definition check_global (self : t) (reading : Z) : bool * t :=
  let '(ok, g) := check_limiter (global self) reading in (ok, Mk g (sources self)).
End Ops.
Arguments t {_}.
End EnterpriseLimiters.

(** ** The handlers *)

Section Handlers.
Context {PeerId ConnectionId : Type} `{Countable PeerId} `{Countable ConnectionId}.
Context `{Governor} `{!PeerIdApi PeerId} {R : Type} `{SecureRandom R}.

#[local] Notation book := (ConnectionBook.t PeerId ConnectionId).
#[local] Notation registry := (Registry (PeerId:=PeerId) (SourcePrefix:=SourcePrefix.t)).

Definition handle_enterprise_admission (peer : PeerId) (connections : book) (limiters : EnterpriseLimiters.t)
    (retry_after : RetryAfter.t) (now : MonotonicTime.t) (reading : Z)
  : EnterpriseResolveAdmission.t * EnterpriseLimiters.t :=
  let retry := EnterpriseResolveAdmission.Retry retry_after in
  let '(ok, limiters) := EnterpriseLimiters.check_global limiters reading in
  if negb ok then (retry, limiters) else
  match ConnectionBook.unique connections peer ≫= UniqueConnection.source_prefix with
  | None => (retry, limiters)
  | Some source =>
    let '(ok, limiters) := EnterpriseLimiters.check_source limiters source now reading in
    if negb ok then (retry, limiters) else (EnterpriseResolveAdmission.AdmittedStart, limiters)
  end.

Record RegistryCall := MkRegistryCall {
  call_peer : PeerId;
  admitted_connection : ConnectionId;
  call_request : RegistryRequest.t;
}.

Record RegistryDecision := MkDecision {
  response : RegistryResponse.t;
  rejected_connection : option ConnectionId;
}.

Definition handle_registry_call (call : RegistryCall) (connections : book) (now : MonotonicTime.t)
    (random : R) : M (PeerId:=PeerId) (SourcePrefix:=SourcePrefix.t) (RegistryDecision * R) := fun self =>
  let retry := (Ok (MkDecision (RegistryResponse.Retry (retry_after self)) None, random), self) in
  match ConnectionBook.unique connections (call_peer call) with
  | None => retry
  | Some connection =>
    if negb (bool_decide (UniqueConnection.id connection = admitted_connection call)) then retry else
    let decide_ (r : RegistryResponse.t) : RegistryDecision :=
      MkDecision r (match r with RegistryResponse.Capacity => Some (UniqueConnection.id connection) | _ => None end) in
    match call_request call with
    | RegistryRequest.Release locator =>
      let '(r, self) := release (call_peer call) locator now self in
      (r ← r; Ok (MkDecision r None, random), self)
    | RegistryRequest.Allocate =>
      match UniqueConnection.source_prefix connection with
      | None => retry
      | Some source =>
        let '(r, self) := allocate (call_peer call) source now random self in
        ('(r, random) ← r; Ok (decide_ r, random), self)
      end
    | RegistryRequest.Reclaim locator =>
      match UniqueConnection.source_prefix connection with
      | None => retry
      | Some source =>
        let '(r, self) := reclaim (call_peer call) source locator now self in
        (r ← r; Ok (decide_ r, random), self)
      end
    end
  end.

(** [handle_resolve_call_observed], which is [handle_resolve_call_inner] with counters. *)
Definition handle_resolve_call (peer : PeerId) (frame : list Z) (connections : book) (now : MonotonicTime.t)
    (reading : Z) (self : registry) (limiters : ResolveLimiters SourcePrefix.t) (observations : RelayObservability.t)
  : res ProtocolTaskError.t ResolveResponse.t * (registry * ResolveLimiters SourcePrefix.t * RelayObservability.t) :=
  let '(ok, limiters) := check_global limiters reading in
  let retry := Ok (ResolveResponse.Retry (ResolveLimits.retry_after (Limiters.limits limiters))) in
  if negb ok then
    (retry, (self, limiters, RelayObservability.increment RelayObservability.resolve_global_limited observations))
  else
    match map_err ProtocolTaskError.Protocol (ResolveRequest.decode frame) with
    | Err e => (Err e, (self, limiters, observations))
    | Panic => (Panic, (self, limiters, observations))
    | Ok request =>
      match ConnectionBook.unique connections peer ≫= UniqueConnection.source_prefix with
      | None => (retry, (self, limiters, RelayObservability.increment RelayObservability.resolve_retry observations))
      | Some source =>
        let '(ok, limiters) := check_source limiters source now reading in
        if negb ok then
          (retry, (self, limiters,
                   RelayObservability.increment RelayObservability.resolve_source_limited observations))
        else
          let '(r, self) := resolve (ResolveRequest.locator request) now self in
          (map_err ProtocolTaskError.Registry r, (self, limiters, observations))
      end
    end.

Definition resolve_enterprise_target (locator : Locator.t) (now : MonotonicTime.t) (self : registry)
  : res ProtocolTaskError.t EnterpriseResolveResponse.t * registry :=
  let '(r, self) := resolve locator now self in
  (r ← map_err ProtocolTaskError.Registry r;
   Ok match r with
      | ResolveResponse.Resolved peer => EnterpriseResolveResponse.Resolved peer
      | ResolveResponse.Retry _ | ResolveResponse.Unavailable => EnterpriseResolveResponse.Unavailable
      end, self).
End Handlers.
Arguments RegistryCall PeerId ConnectionId : clear implicits.
Arguments RegistryDecision ConnectionId : clear implicits.

(** ** Serving a substream *)

(** [read_exact_eof]: what the peer wrote before it closed its side. *)
Definition read_exact_eof (length : Z) (stream : list Z) : res ProtocolTaskError.t (list Z) :=
  if zlen stream <? length then Err ProtocolTaskError.Io
  else if length <? zlen stream then Err (ProtocolTaskError.Protocol TrailingBytes)
  else Ok stream.

(** The request of a [registry_exchange] and of a [registry_immediate_retry]. *)
Definition registry_request (stream : list Z) : res ProtocolTaskError.t RegistryRequest.t :=
  frame ← read_exact_eof RegistryRequest.LEN stream;
  map_err ProtocolTaskError.Protocol (RegistryRequest.decode frame).

(** The frame of a [resolve_exchange], which its owner decodes. *)
Definition resolve_frame (stream : list Z) : res ProtocolTaskError.t (list Z) :=
  read_exact_eof ResolveRequest.LEN stream.

(** ** The owner *)

Inductive RelayServiceError (ListenerId : Type) :=
| InvalidConfiguration
| DuplicateListenAddress
| DuplicateExternalAddress
| MissingListenTransport
| MissingWssCertificate
| WssCertificateExternal (address : list Protocol)
| NetworkBuild
| NetworkNode
| ApplicationStreams
| ProtocolRegistrationEnded
| ProtocolTask
| RegistryFailed (e : RegistryError)
| EnterpriseCallback
| EnterpriseExchange
| Signal
| RequiredListenerError (listener : ListenerId)
| RequiredListenerClosed (listener : ListenerId)
| Output.
Arguments InvalidConfiguration {_}.
Arguments DuplicateListenAddress {_}.
Arguments DuplicateExternalAddress {_}.
Arguments MissingListenTransport {_}.
Arguments MissingWssCertificate {_}.
Arguments WssCertificateExternal {_} _.
Arguments NetworkBuild {_}.
Arguments NetworkNode {_}.
Arguments ApplicationStreams {_}.
Arguments EnterpriseExchange {_}.
Arguments ProtocolRegistrationEnded {_}.
Arguments ProtocolTask {_}.
Arguments RegistryFailed {_} _.
Arguments EnterpriseCallback {_}.
Arguments Signal {_}.
Arguments RequiredListenerError {_} _.
Arguments RequiredListenerClosed {_} _.
Arguments Output {_}.

Section Owner.
Context {PeerId ConnectionId ListenerId : Type}.
Context `{Countable PeerId} `{Countable ConnectionId} `{Countable ListenerId}.
Context `{Governor} `{!PeerIdApi PeerId} {R : Type} `{SecureRandom R}.

#[local] Notation book := (ConnectionBook.t PeerId ConnectionId).
#[local] Notation registry := (Registry (PeerId:=PeerId) (SourcePrefix:=SourcePrefix.t)).

Inductive swarm_event :=
| ConnectionEstablished (peer : PeerId) (connection : ConnectionId) (endpoint : ConnectedPoint)
| ConnectionClosed (peer : PeerId) (connection : ConnectionId)
| NewListenAddr (listener : ListenerId) (address : list Protocol)
| ListenerError (listener : ListenerId)
| ListenerClosed (listener : ListenerId)
| ReservationReqAccepted (peer : PeerId)
| ReservationClosed (peer : PeerId)
| ReservationTimedOut (peer : PeerId)
| OtherSwarmEvent.

(** The arms of the [select!].  A swarm event comes with the two clock readings of a
    registry refresh and with whether standard output takes the ready report. *)
Inductive event :=
| ShutdownSignal (ok : bool)
| ObservationTick
| Swarm (e : swarm_event) (now1 now2 : MonotonicTime.t) (printed : bool)
| RegistryIncoming (peer : option PeerId)
| ResolveIncoming (peer : option PeerId)
| RegistryCalled (peer : PeerId) (admitted : ConnectionId) (stream : list Z) (now : MonotonicTime.t) (listening : bool)
| ResolveCalled (peer : PeerId) (frame : list Z) (now : MonotonicTime.t) (reading : Z)
| AdmitStartCalled (peer : PeerId) (now : MonotonicTime.t) (reading : Z)
| ResolveTargetCalled (locator : Locator.t) (now : MonotonicTime.t)
| RegisterTransactionCalled (state : OAuthState.t) (entry : CallbackEntry.t) (now : MonotonicTime.t)
| RemoveTransactionCalled (state : OAuthState.t)
| TakeCalled (state : OAuthState.t) (now : MonotonicTime.t)
| CompleteCalled (entry : CallbackEntry.t) (result : CallbackResult.t) (cancelled late : bool)
| CallbackListenerFailed
| RegistryDone (peer : PeerId) (rejected : option ConnectionId)
| ResolveDone (peer : PeerId)
| TaskObserved (result : res ProtocolTaskError.t unit)
| RegistryPermitDropped
| ResolvePermitDropped
| EnterprisePermitDropped
| TaskJoined (failed : bool).

(** What the owner sends, spawns, closes and prints. *)
Inductive action :=
| CloseConnection (connection : ConnectionId)
| ReportReady (addresses : list (list Protocol))
| ReportActivity (registrations : Z) (counters : RelayObservability.t)
| SpawnRegistryExchange (peer : PeerId) (connection : ConnectionId)
| SpawnRegistryRetry (peer : PeerId)
| SpawnResolveExchange (peer : PeerId)
| SpawnResolveRetry (peer : PeerId)
| SpawnEnterpriseExchange (peer : PeerId)
| AnswerRegistry (decision : RegistryDecision ConnectionId)
| AnswerResolve (r : res ProtocolTaskError.t ResolveResponse.t)
| AnswerAdmission (r : EnterpriseResolveAdmission.t)
| AnswerTarget (r : res ProtocolTaskError.t EnterpriseResolveResponse.t)
| AnswerRegister (r : res CallbackRegistry.Error unit)
| AnswerRemove (entry : option CallbackEntry.t)
| AnswerTake (entry : option CallbackEntry.t)
| AnswerComplete (completion : CallbackCompletion.t) (result : CallbackResult.t).

(** The variables of [run_relay_until]; [enterprise_limiters] and [callback_registry] are
    [Some] in enterprise mode. *)
Record owner := MkOwner {
  connections : book;
  reg : registry;
  limiters : ResolveLimiters SourcePrefix.t;
  enterprise_limiters : option EnterpriseLimiters.t;
  callback_registry : option CallbackRegistry.t;
  registry_permits : Z;
  resolve_permits : Z;
  enterprise_permits : Z;
  registry_active : gset PeerId;
  rejected_peers : gset PeerId;
  resolve_active : gset PeerId;
  random : R;
  observations : RelayObservability.t;
  listeners : RequiredListeners.t ListenerId;
}.

Definition start (enterprise : bool) (resources : RelayResourceConfig.t) (ids : list ListenerId) (random : R) : owner :=
  let resolve := RelayResourceConfig.resolve resources in
  MkOwner ConnectionBook.new
    (Registry.with_limits (RelayResourceConfig.registration resources) (ResolveLimits.retry_after resolve))
    (Limiters.with_limits resolve)
    (if enterprise then Some EnterpriseLimiters.new else None)
    (if enterprise then Some CallbackRegistry.new else None)
    REGISTRY_READERS (ResolveConcurrency.get (ResolveLimits.concurrency resolve)) ENTERPRISE_RESOLVE_READERS
    ∅ ∅ ∅ random RelayObservability.default (RequiredListeners.new ids).

Definition set_network (self : owner) (c : book) (r : registry) : owner :=
  MkOwner c r (limiters self) (enterprise_limiters self) (callback_registry self) (registry_permits self) (resolve_permits self)
    (enterprise_permits self) (registry_active self) (rejected_peers self) (resolve_active self) (random self)
    (observations self) (listeners self).
Definition set_admission (self : owner) (l : ResolveLimiters SourcePrefix.t) (e : option EnterpriseLimiters.t) : owner :=
  MkOwner (connections self) (reg self) l e (callback_registry self) (registry_permits self) (resolve_permits self)
    (enterprise_permits self) (registry_active self) (rejected_peers self) (resolve_active self) (random self)
    (observations self) (listeners self).
Definition set_permits (self : owner) (r s e : Z) : owner :=
  MkOwner (connections self) (reg self) (limiters self) (enterprise_limiters self) (callback_registry self) r s e
    (registry_active self) (rejected_peers self) (resolve_active self) (random self)
    (observations self) (listeners self).
Definition set_peers (self : owner) (active rejected resolving : gset PeerId) : owner :=
  MkOwner (connections self) (reg self) (limiters self) (enterprise_limiters self) (callback_registry self) (registry_permits self)
    (resolve_permits self) (enterprise_permits self) active rejected resolving (random self)
    (observations self) (listeners self).
Definition set_random (self : owner) (r : R) : owner :=
  MkOwner (connections self) (reg self) (limiters self) (enterprise_limiters self) (callback_registry self) (registry_permits self)
    (resolve_permits self) (enterprise_permits self) (registry_active self) (rejected_peers self)
    (resolve_active self) r (observations self) (listeners self).
Definition set_observations (self : owner) (o : RelayObservability.t) : owner :=
  MkOwner (connections self) (reg self) (limiters self) (enterprise_limiters self) (callback_registry self) (registry_permits self)
    (resolve_permits self) (enterprise_permits self) (registry_active self) (rejected_peers self)
    (resolve_active self) (random self) o (listeners self).
Definition set_listeners (self : owner) (l : RequiredListeners.t ListenerId) : owner :=
  MkOwner (connections self) (reg self) (limiters self) (enterprise_limiters self) (callback_registry self) (registry_permits self)
    (resolve_permits self) (enterprise_permits self) (registry_active self) (rejected_peers self)
    (resolve_active self) (random self) (observations self) l.

Definition set_callbacks (self : owner) (c : option CallbackRegistry.t) : owner :=
  MkOwner (connections self) (reg self) (limiters self) (enterprise_limiters self) c (registry_permits self)
    (resolve_permits self) (enterprise_permits self) (registry_active self) (rejected_peers self)
    (resolve_active self) (random self) (observations self) (listeners self).

Definition count_one (c : RelayObservability.Counter) (self : owner) : owner :=
  set_observations self (RelayObservability.increment c (observations self)).

Definition service_result : Type := res (RelayServiceError ListenerId) unit.

(** An update of the registry that returns nothing. *)
Definition updated (r : res RegistryError unit) : service_result := map_err RegistryFailed r.

Definition handle_swarm_event (self : owner) (e : swarm_event) (now1 now2 : MonotonicTime.t) (printed : bool)
  : service_result * owner * list action :=
  match e with
  | ConnectionEstablished peer connection endpoint =>
    let '(r, book) := ConnectionBook.established (connections self) peer connection endpoint in
    let self := set_network self book (reg self) in
    let '(self, actions) :=
      match r with
      | Ok _ => (self, [])
      | _ => (count_one RelayObservability.connection_overflow self, [CloseConnection connection])
      end in
    let '(r', registry) := set_connection peer (0 <? ConnectionBook.count book peer) now1 now2 (reg self) in
    (match r with Panic => Panic | _ => updated r' end, set_network self book registry, actions)
  | ConnectionClosed peer connection =>
    let '(r, book) := ConnectionBook.closed (connections self) peer connection in
    let '(r', registry) := set_connection peer (0 <? ConnectionBook.count book peer) now1 now2 (reg self) in
    (match r with Panic => Panic | _ => updated r' end, set_network self book registry, [])
  | NewListenAddr listener address =>
    let '(progress, l) := RequiredListeners.observe (listeners self) listener address in
    let self := set_listeners self l in
    match progress with
    | BecameReady =>
      (if printed then Ok tt else Err Output, self, [ReportReady (RequiredListeners.ready_addresses l)])
    | Ignored | Pending | Additional => (Ok tt, self, [])
    end
  | ListenerError listener =>
    (if RequiredListeners.is_required (listeners self) listener then Err (RequiredListenerError listener) else Ok tt,
     self, [])
  | ListenerClosed listener =>
    (if RequiredListeners.is_required (listeners self) listener then Err (RequiredListenerClosed listener) else Ok tt,
     self, [])
  | ReservationReqAccepted peer =>
    let '(r, registry) := set_reservation peer true now1 now2 (reg self) in
    (updated r, set_network self (connections self) registry, [])
  | ReservationClosed peer | ReservationTimedOut peer =>
    let '(r, registry) := set_reservation peer false now1 now2 (reg self) in
    (updated r, set_network self (connections self) registry, [])
  | OtherSwarmEvent => (Ok tt, self, [])
  end.

Definition close_peer_connections (self : owner) (peer : PeerId) : list action :=
  CloseConnection <$> ConnectionBook.connections (connections self) peer.

Inductive flow := Continue | Break (r : service_result).

(** The arm of [node.next_event()]. *)
Definition swarm_arm (self : owner) (e : swarm_event) (now1 now2 : MonotonicTime.t) (printed : bool)
  : flow * owner * list action :=
  let rejected :=
    match e with
    | ConnectionEstablished peer connection _ =>
      if bool_decide (peer ∈ rejected_peers self) then Some connection else None
    | _ => None
    end in
  let closed := match e with ConnectionClosed peer _ => Some peer | _ => None end in
  let '(r, self, actions) := handle_swarm_event self e now1 now2 printed in
  match r with
  | Ok _ =>
    let actions := actions ++ match rejected with Some c => [CloseConnection c] | None => [] end in
    match closed with
    | Some peer =>
      if negb (bool_decide (peer ∈ registry_active self)) && (ConnectionBook.count (connections self) peer =? 0)
      then (Continue, set_peers self (registry_active self) (rejected_peers self ∖ {[ peer ]}) (resolve_active self),
            actions)
      else (Continue, self, actions)
    | None => (Continue, self, actions)
    end
  | r => (Break r, self, actions)
  end.

(** [try_acquire_owned]; the permit is held by the task spawned. *)
Definition registry_arm (self : owner) (peer : PeerId) : flow * owner * list action :=
  if registry_permits self =? 0 then (Continue, count_one RelayObservability.registry_overload self, [])
  else
    let self := set_permits self (registry_permits self - 1) (resolve_permits self) (enterprise_permits self) in
    let admitted := UniqueConnection.id <$> ConnectionBook.unique (connections self) peer in
    if bool_decide (peer ∈ registry_active self) || bool_decide (peer ∈ rejected_peers self)
    then (Continue, count_one RelayObservability.registry_retry self, [SpawnRegistryRetry peer])
    else
      match admitted with
      | None => (Continue, count_one RelayObservability.registry_retry self, [SpawnRegistryRetry peer])
      | Some connection =>
        (Continue, set_peers self ({[ peer ]} ∪ registry_active self) (rejected_peers self) (resolve_active self),
         [SpawnRegistryExchange peer connection])
      end.

Definition resolve_arm (self : owner) (peer : PeerId) : flow * owner * list action :=
  match enterprise_limiters self with
  | Some _ =>
    (* [try_acquire_enterprise_permit] *)
    if enterprise_permits self =? 0 then (Continue, count_one RelayObservability.resolve_overload self, [])
    else
      (Continue, set_permits self (registry_permits self) (resolve_permits self) (enterprise_permits self - 1),
       [SpawnEnterpriseExchange peer])
  | None =>
    if resolve_permits self =? 0 then (Continue, count_one RelayObservability.resolve_overload self, [])
    else
      let self := set_permits self (registry_permits self) (resolve_permits self - 1) (enterprise_permits self) in
      if bool_decide (peer ∈ resolve_active self) || bool_decide (ConnectionBook.unique (connections self) peer = None)
      then (Continue, count_one RelayObservability.resolve_retry self, [SpawnResolveRetry peer])
      else
        (Continue, set_peers self (registry_active self) (rejected_peers self) ({[ peer ]} ∪ resolve_active self),
         [SpawnResolveExchange peer])
  end.

(** [call.response.send] gives the decision back when the exchange has gone. *)
Definition registry_call_arm (self : owner) (call : RegistryCall PeerId ConnectionId) (now : MonotonicTime.t)
    (listening : bool) : flow * owner * list action :=
  let '(r, registry) := handle_registry_call call (connections self) now (random self) (reg self) in
  let self := set_network self (connections self) registry in
  match r with
  | Err e => (Break (Err (RegistryFailed e)), self, [])
  | Panic => (Break Panic, self, [])
  | Ok (decision, random) =>
    let self := set_random self random in
    let rejects := bool_decide (is_Some (rejected_connection decision)) in
    let self :=
      if rejects then set_peers self (registry_active self) ({[ call_peer call ]} ∪ rejected_peers self) (resolve_active self)
      else self in
    let self :=
      match response decision with
      | RegistryResponse.Capacity => count_one RelayObservability.registry_capacity self
      | _ => self
      end in
    (Continue, self,
     if listening then [AnswerRegistry decision]
     else if rejects then close_peer_connections self (call_peer call) else [])
  end.

Definition resolve_call_arm (self : owner) (peer : PeerId) (frame : list Z) (now : MonotonicTime.t) (reading : Z)
  : flow * owner * list action :=
  let '(r, (registry, l, o)) :=
    handle_resolve_call peer frame (connections self) now reading (reg self) (limiters self) (observations self) in
  let self := set_observations (set_admission (set_network self (connections self) registry) l (enterprise_limiters self)) o in
  match r with
  | Err (ProtocolTaskError.Registry e) => (Break (Err (RegistryFailed e)), self, [])
  | Panic => (Break Panic, self, [])
  | r => (Continue, self, [AnswerResolve r])
  end.

Definition registry_done_arm (self : owner) (peer : PeerId) (rejected : option ConnectionId)
  : flow * owner * list action :=
  let self := set_peers self (registry_active self ∖ {[ peer ]}) (rejected_peers self) (resolve_active self) in
  let actions := match rejected with Some _ => close_peer_connections self peer | None => [] end in
  let self :=
    if ConnectionBook.count (connections self) peer =? 0
    then set_peers self (registry_active self) (rejected_peers self ∖ {[ peer ]}) (resolve_active self) else self in
  (Continue, self, actions).

(** Calls of the enterprise flow and of the callback server arrive in enterprise mode only
    ([expect]). *)
Definition enterprise_arm (self : owner) (k : EnterpriseLimiters.t -> flow * owner * list action)
  : flow * owner * list action :=
  match enterprise_limiters self with Some l => k l | None => (Break Panic, self, []) end.

Definition callback_arm (self : owner) (k : CallbackRegistry.t -> CallbackRegistry.t * action)
  : flow * owner * list action :=
  match callback_registry self with
  | Some c => let '(c, a) := k c in (Continue, set_callbacks self (Some c), [a])
  | None => (Break Panic, self, [])
  end.

Definition owner_step (self : owner) (e : event) : flow * owner * list action :=
  match e with
  | ShutdownSignal ok => (Break (if ok then Ok tt else Err Signal), self, [])
  | ObservationTick =>
    (Continue, set_observations self RelayObservability.default, [ReportActivity (len (reg self)) (observations self)])
  | Swarm e now1 now2 printed => swarm_arm self e now1 now2 printed
  | RegistryIncoming None | ResolveIncoming None => (Break (Err ProtocolRegistrationEnded), self, [])
  | RegistryIncoming (Some peer) => registry_arm self peer
  | ResolveIncoming (Some peer) => resolve_arm self peer
  | RegistryCalled peer admitted stream now listening =>
    match registry_request stream with
    | Ok request => registry_call_arm self (MkRegistryCall peer admitted request) now listening
    | _ => (Continue, self, [])
    end
  | ResolveCalled peer frame now reading => resolve_call_arm self peer frame now reading
  | AdmitStartCalled peer now reading =>
    enterprise_arm self (fun l =>
      let '(r, l) := handle_enterprise_admission peer (connections self) l
                       (ResolveLimits.retry_after (Limiters.limits (limiters self))) now reading in
      (Continue, set_admission self (limiters self) (Some l), [AnswerAdmission r]))
  | ResolveTargetCalled locator now =>
    enterprise_arm self (fun _ =>
      let '(r, registry) := resolve_enterprise_target locator now (reg self) in
      let self := set_network self (connections self) registry in
      match r with Panic => (Break Panic, self, []) | r => (Continue, self, [AnswerTarget r]) end)
  | RegisterTransactionCalled state entry now =>
    callback_arm self (fun c => let '(r, c) := CallbackRegistry.insert c state entry now in (c, AnswerRegister r))
  | RemoveTransactionCalled state =>
    callback_arm self (fun c => let '(entry, c) := CallbackRegistry.remove c state in (c, AnswerRemove entry))
  | TakeCalled state now =>
    callback_arm self (fun c => let '(entry, c) := CallbackRegistry.take c state now in (c, AnswerTake entry))
  | CompleteCalled entry result cancelled late =>
    callback_arm self (fun c =>
      let '(result, entry) := commit_completion entry result cancelled late in
      (c, AnswerComplete (CallbackEntry.complete entry result) result))
  | CallbackListenerFailed => (Break (Err EnterpriseCallback), self, [])
  | RegistryDone peer rejected => registry_done_arm self peer rejected
  | ResolveDone peer =>
    (Continue, set_peers self (registry_active self) (rejected_peers self) (resolve_active self ∖ {[ peer ]}), [])
  | TaskObserved result =>
    (Continue, set_observations self (RelayObservability.observe_protocol_result (observations self) result), [])
  | RegistryPermitDropped =>
    (Continue, set_permits self (registry_permits self + 1) (resolve_permits self) (enterprise_permits self), [])
  | ResolvePermitDropped =>
    (Continue, set_permits self (registry_permits self) (resolve_permits self + 1) (enterprise_permits self), [])
  | EnterprisePermitDropped =>
    (Continue, set_permits self (registry_permits self) (resolve_permits self) (enterprise_permits self + 1), [])
  | TaskJoined failed => (if failed then Break (Err ProtocolTask) else Continue, self, [])
  end.

(** The loop over a list of events, until it breaks. *)
Fixpoint owner_run (self : owner) (events : list event) : flow * owner * list action :=
  match events with
  | [] => (Continue, self, [])
  | e :: rest =>
    match owner_step self e with
    | (Continue, self, actions) =>
      let '(f, self, later) := owner_run self rest in (f, self, actions ++ later)
    | (Break r, self, actions) => (Break r, self, actions)
    end
  end.
End Owner.
Arguments swarm_event : clear implicits.
Arguments event : clear implicits.
Arguments action : clear implicits.
