(* ===== verification/RelaySafety.v ===== *)
(** * What the relay's owner guarantees

    Theorems about every run of the loop of [RelayOwner]: the registry follows the
    connection book and the reservations, a resolve answers with targets that are
    reachable at that moment, and a peer refused for lack of capacity stays quarantined
    exactly while it is connected or has an exchange in flight. *)

From stdpp Require Import gmap.
From S2P Require Import Prelude Domain Codec WireRegistry WireEnterprise Session Resource Registry Path Limiters.
From S2P Require Import EnterpriseSession Provider CallbackSession EnterpriseResolve Connections RelayOwner.
Open Scope Z_scope.

Section History.
Context {PeerId ConnectionId ListenerId : Type}.
Context `{Countable PeerId} `{Countable ConnectionId}.
#[local] Notation event := (event PeerId ConnectionId ListenerId).

(** What the swarm has reported so far: the live connections and the reservations. *)
Record network := MkNetwork { live : live_map PeerId ConnectionId; reserved : gset PeerId }.

Definition network_step (n : network) (e : event) : network :=
  match e with
  | Swarm (ConnectionEstablished peer c endpoint) _ _ _ =>
    MkNetwork (LiveConnections.step (live n) (Opened peer c endpoint)).2 (reserved n)
  | Swarm (ConnectionClosed peer c) _ _ _ => MkNetwork (LiveConnections.step (live n) (Gone peer c)).2 (reserved n)
  | Swarm (ReservationReqAccepted peer) _ _ _ => MkNetwork (live n) ({[ peer ]} ∪ reserved n)
  | Swarm (ReservationClosed peer) _ _ _ | Swarm (ReservationTimedOut peer) _ _ _ =>
    MkNetwork (live n) (reserved n ∖ {[ peer ]})
  | _ => n
  end.

Definition network_of (events : list event) : network := foldl network_step (MkNetwork ∅ ∅) events.

Definition connected (l : live_map PeerId ConnectionId) (peer : PeerId) : Prop := exists c e, l !! c = Some (peer, e).

Definition all_bytes (stream : list Z) : bool := forallb (fun b => (0 <=? b) && (b <? 256)) stream.

(** The swarm never reports a connection of one peer as another's, streams carry bytes,
    and calls of the enterprise flow come in enterprise mode. *)
Definition event_ok (enterprise : bool) (n : network) (e : event) : bool :=
  match e with
  | Swarm (ConnectionEstablished peer c endpoint) _ _ _ =>
    LiveConnections.consistent (live n) (Opened peer c endpoint)
  | AdmitStartCalled _ _ _ | ResolveTargetCalled _ _ | RegisterTransactionCalled _ _ _ | RemoveTransactionCalled _
  | TakeCalled _ _ | CompleteCalled _ _ _ _ => enterprise
  | RegistryCalled _ _ stream _ _ | ResolveCalled _ stream _ _ => all_bytes stream
  | _ => true
  end.

Fixpoint events_ok (enterprise : bool) (n : network) (events : list event) : bool :=
  match events with
  | [] => true
  | e :: rest => event_ok enterprise n e && events_ok enterprise (network_step n e) rest
  end.
End History.
Arguments network PeerId ConnectionId {_ _ _ _}.

Lemma all_bytes_spec stream : all_bytes stream = true -> bytes stream.
Proof.
  unfold all_bytes. rewrite forallb_forall. intros Hs. apply Forall_forall. intros x Hx%list_elem_of_In.
  specialize (Hs x Hx). unfold is_u8. lia.
Qed.

Lemma registry_request_wf stream request :
  all_bytes stream = true -> registry_request stream = Ok request -> RegistryRequest.wf request.
Proof.
  intros Hb%all_bytes_spec. unfold registry_request, read_exact_eof. repeat case_match; try done. cbn.
  destruct (RegistryRequest.decode stream) as [m| |] eqn:E; try done. intros [= <-].
  by eapply (cc_dec_canonical _ _ _ _ registry_request_codec_lemma).
Qed.

Section OwnerFacts.
Context {PeerId ConnectionId ListenerId : Type}.
Context `{Countable PeerId} `{Countable ConnectionId} `{Countable ListenerId}.
Context `{Governor} `{!PeerIdApi PeerId, !PeerIdLaws PeerId} {R : Type} `{SecureRandomLaws R}.
#[local] Notation event := (event PeerId ConnectionId ListenerId).
#[local] Notation owner := (owner (PeerId:=PeerId) (ConnectionId:=ConnectionId) (ListenerId:=ListenerId) (R:=R)).
Implicit Types (self : owner) (n : network PeerId ConnectionId).

Lemma count_connected (b : ConnectionBook.t PeerId ConnectionId) l peer :
  implements b l -> (0 <? ConnectionBook.count b peer) = true <-> connected l peer.
Proof.
  intros Hi. assert (Hc : ConnectionBook.count b peer = zlen (ConnectionBook.connections b peer)).
  { unfold ConnectionBook.count, ConnectionBook.connections.
    destruct (ConnectionBook.rosters b !! peer) eqn:E; [|done].
    by destruct (imp_wf _ _ Hi _ _ E) as [(_ & ? & _) _]. }
  rewrite Hc, Z.ltb_lt. pose proof (imp_members _ _ Hi peer) as Hm. unfold connected. split.
  - intros Hl. destruct (ConnectionBook.connections b peer) as [|c rest]; [done|].
    pose proof (proj1 (Hm c) ltac:(left)) as Hx. destruct (l !! c) as [[p e]|] eqn:E; [|done].
    exists c, e. cbn in Hx. congruence.
  - intros (c & e & E). assert (Hin : c ∈ ConnectionBook.connections b peer) by (apply Hm; by rewrite E).
    destruct (ConnectionBook.connections b peer); [by apply elem_of_nil in Hin|]. rewrite zlen_cons.
    pose proof (zlen_nonneg l0). lia.
Qed.

Record owner_inv (enterprise : bool) n self : Prop := {
  oi_book : implements (connections self) (live n);
  oi_registry : registry_inv (reg self);
  oi_connected : forall p, p ∈ Registry.connections (reg self) <-> connected (live n) p;
  oi_reserved : Registry.reservations (reg self) = reserved n;
  oi_rejected : forall p, p ∈ rejected_peers self -> connected (live n) p \/ p ∈ registry_active self;
  oi_mode : is_Some (enterprise_limiters self) <-> enterprise = true;
  oi_callbacks : is_Some (callback_registry self) <-> enterprise = true;
}.

(** Steps that leave the book, the registry, the rejected peers and the mode alone. *)
Lemma owner_inv_frame enterprise n self self' :
  owner_inv enterprise n self ->
  connections self' = connections self -> reg self' = reg self -> rejected_peers self' = rejected_peers self ->
  registry_active self ⊆ registry_active self' ->
  (is_Some (enterprise_limiters self') <-> is_Some (enterprise_limiters self)) ->
  (is_Some (callback_registry self') <-> is_Some (callback_registry self)) -> owner_inv enterprise n self'.
Proof.
  intros [H1' H2' H3' H4' H5' H6' H7'] E1 E2 E3 E4 E5 E6.
  split; rewrite ?E1, ?E2, ?E3; try done; [|by rewrite E5|by rewrite E6].
  intros p Hp. apply H5' in Hp as [|]; [by left|right; set_solver].
Qed.

(** A registry call that keeps connections and reservations. *)
Lemma owner_inv_registry enterprise n self self' :
  owner_inv enterprise n self ->
  registry_inv (reg self') -> same_frame (reg self) (reg self') ->
  connections self' = connections self ->
  (forall p, p ∈ rejected_peers self' -> p ∈ rejected_peers self \/ connected (live n) p) ->
  registry_active self' = registry_active self ->
  (is_Some (enterprise_limiters self') <-> is_Some (enterprise_limiters self)) ->
  (is_Some (callback_registry self') <-> is_Some (callback_registry self)) -> owner_inv enterprise n self'.
Proof.
  intros [H1' H2' H3' H4' H5' H6' H7'] Hi (_ & _ & Hr & Hc) E1 E3 E4 E5 E6.
  split; rewrite ?E1, ?Hr, ?Hc, ?E4; try done; [|by rewrite E5|by rewrite E6].
  intros p [Hp|Hp]%E3; [by apply H5'|by left].
Qed.

Lemma membership_spec (s : gset PeerId) peer b p :
  p ∈ set_membership s peer b <-> (p = peer /\ b = true) \/ (p <> peer /\ p ∈ s).
Proof. unfold set_membership. destruct b; destruct (decide (p = peer)); set_solver. Qed.

Lemma live_step_no_panic l (e : connection_event PeerId ConnectionId) : (LiveConnections.step l e).1 <> Panic.
Proof. destruct e; cbn; repeat case_bool_decide; done. Qed.

(** An event of one peer leaves the other peers' connections alone. *)
Lemma connected_opened (l : live_map PeerId ConnectionId) peer c e p :
  p <> peer -> connected (LiveConnections.step l (Opened peer c e)).2 p <-> connected l p.
Proof.
  intros Hp. unfold LiveConnections.step. case_bool_decide as Hs; [done|]. case_bool_decide; [done|].
  cbn. unfold connected. apply eq_None_not_Some in Hs. split; intros (k & x & E); exists k, x.
  - apply lookup_insert_Some in E as [[_ [= ]]|[_ E]]; [by subst|done].
  - rewrite lookup_insert_ne; [done|]. intros ->. congruence.
Qed.

Lemma connected_gone (l : live_map PeerId ConnectionId) peer c p :
  p <> peer -> connected (LiveConnections.step l (Gone peer c)).2 p <-> connected l p.
Proof.
  intros Hp. unfold LiveConnections.step. case_bool_decide as Hs; [|done].
  cbn. unfold connected. split; intros (k & x & E); exists k, x.
  - by apply lookup_delete_Some in E as [_ E].
  - rewrite lookup_delete_ne; [done|]. intros ->. rewrite E in Hs. cbn in Hs. congruence.
Qed.

(** The registry after the connections of one peer have changed. *)
Lemma set_connection_follows (r : Registry (PeerId:=PeerId) (SourcePrefix:=SourcePrefix.t))
    (b : ConnectionBook.t PeerId ConnectionId) (l l' : live_map PeerId ConnectionId) peer now1 now2 :
  registry_inv r -> implements b l' ->
  (forall p, p ∈ Registry.connections r <-> connected l p) ->
  (forall p, p <> peer -> connected l' p <-> connected l p) ->
  exists r', set_connection peer (0 <? ConnectionBook.count b peer) now1 now2 r = (Ok tt, r') /\
    registry_inv r' /\ Registry.reservations r' = Registry.reservations r /\
    forall p, p ∈ Registry.connections r' <-> connected l' p.
Proof.
  intros Hr Hb Hc Hl.
  destruct (set_connection_lemma r peer (0 <? ConnectionBook.count b peer) now1 now2 Hr)
    as (r' & E & Hi & (_ & _ & Hres & Hcon) & _).
  exists r'. split_and!; [done..|]. intros p. rewrite Hcon. cbn. rewrite membership_spec.
  rewrite (count_connected b l' peer Hb), Hc. destruct (decide (p = peer)) as [->|Hp]; [naive_solver|].
  rewrite (Hl p Hp). naive_solver.
Qed.

Lemma set_reservation_follows (r : Registry (PeerId:=PeerId) (SourcePrefix:=SourcePrefix.t)) peer b now1 now2 :
  registry_inv r ->
  exists r', set_reservation peer b now1 now2 r = (Ok tt, r') /\ registry_inv r' /\
    Registry.reservations r' = set_membership (Registry.reservations r) peer b /\
    Registry.connections r' = Registry.connections r.
Proof.
  intros Hr. destruct (set_reservation_lemma r peer b now1 now2 Hr) as (r' & E & Hi & (_ & _ & Hres & Hcon) & _).
  by exists r'.
Qed.

(** What every swarm event leaves: the owner's network state follows the history, and the
    sets of peers are untouched. *)
Definition network_follows n' self self' : Prop :=
  registry_active self' = registry_active self /\ rejected_peers self' = rejected_peers self /\
  (is_Some (enterprise_limiters self') <-> is_Some (enterprise_limiters self)) /\
  callback_registry self' = callback_registry self /\
  implements (connections self') (live n') /\ registry_inv (reg self') /\
  (forall p, p ∈ Registry.connections (reg self') <-> connected (live n') p) /\
  Registry.reservations (reg self') = reserved n'.

Lemma established_follows enterprise n self peer c ep now1 now2 printed :
  owner_inv enterprise n self -> LiveConnections.consistent (live n) (Opened peer c ep) = true ->
  let '(r, self', actions) := handle_swarm_event self (ConnectionEstablished peer c ep) now1 now2 printed in
  r = Ok tt /\ network_follows (network_step n (Swarm (ListenerId:=ListenerId) (ConnectionEstablished peer c ep) now1 now2 printed)) self self'.
Proof.
  intros [H1' H2' H3' H4' H5' H6' H7'] Hok. cbn [handle_swarm_event network_step]. cbn in Hok.
  pose proof (opened_refines _ _ peer c ep H1') as Ho. pose proof (connected_opened (live n) peer c ep) as Hcn.
  pose proof (live_step_no_panic (live n) (Opened peer c ep)) as Hnp.
  destruct (ConnectionBook.established (connections self) peer c ep) as [r b].
  destruct (LiveConnections.step (live n) (Opened peer c ep)) as [r' l']. cbn -[Z.ltb ConnectionBook.count set_connection] in Hcn, Hnp |- *.
  destruct Ho as [<- Hb].
  { intros p Hp. destruct (live n !! c) as [[q x]|]; [|done]. apply bool_decide_eq_true in Hok. by injection Hp as ->. }
  destruct (set_connection_follows (reg self) b (live n) l' peer now1 now2 H2' Hb H3' Hcn) as (rg & E & Hi & Hr & Hc).
  destruct r as [k|er|]; [| |done]; cbn -[Z.ltb ConnectionBook.count set_connection]; rewrite E; cbn; (split; [done|]); unfold network_follows; cbn;
    (split_and!; [done..|by rewrite Hr]).
Qed.

Lemma closed_follows enterprise n self peer c now1 now2 printed :
  owner_inv enterprise n self ->
  let '(r, self', actions) := handle_swarm_event self (ConnectionClosed peer c) now1 now2 printed in
  r <> Panic /\ network_follows (network_step n (Swarm (ListenerId:=ListenerId) (ConnectionClosed peer c) now1 now2 printed)) self self'.
Proof.
  intros [H1' H2' H3' H4' H5' H6' H7']. cbn [handle_swarm_event network_step].
  pose proof (gone_refines _ _ peer c H1') as Ho. pose proof (connected_gone (live n) peer c) as Hcn.
  pose proof (live_step_no_panic (live n) (Gone peer c)) as Hnp.
  destruct (ConnectionBook.closed (connections self) peer c) as [r b].
  destruct (LiveConnections.step (live n) (Gone peer c)) as [r' l']. cbn -[Z.ltb ConnectionBook.count set_connection] in Hcn, Hnp |- *. destruct Ho as [<- Hb].
  destruct (set_connection_follows (reg self) b (live n) l' peer now1 now2 H2' Hb H3' Hcn) as (rg & E & Hi & Hr & Hc).
  rewrite E. cbn. split; [by destruct r|]. unfold network_follows; cbn. split_and!; [done..|by rewrite Hr].
Qed.

Lemma swarm_follows enterprise n self e now1 now2 printed :
  owner_inv enterprise n self -> event_ok enterprise n (Swarm (ListenerId:=ListenerId) e now1 now2 printed) = true ->
  let '(r, self', actions) := handle_swarm_event self e now1 now2 printed in
  r <> Panic /\ network_follows (network_step n (Swarm e now1 now2 printed)) self self'.
Proof.
  intros Hinv Hok. destruct e as [peer c ep|peer c|l a|l|l|peer|peer|peer|].
  { pose proof (established_follows enterprise n self peer c ep now1 now2 printed Hinv Hok) as Hf.
    destruct (handle_swarm_event _ _ _ _ _) as [[r s] a]. by destruct Hf as [-> Hf]. }
  { by apply (closed_follows enterprise). }
  all: destruct Hinv as [H1' H2' H3' H4' H5' H6' H7']; cbn [handle_swarm_event network_step].
  - destruct (RequiredListeners.observe _ l a) as [[] ls]; cbn; (split; [by try destruct printed|done]).
  - cbn. split; [by destruct (RequiredListeners.is_required _ _)|done].
  - cbn. split; [by destruct (RequiredListeners.is_required _ _)|done].
  - destruct (set_reservation_follows (reg self) peer true now1 now2 H2') as (r' & E & Hi & Hr & Hc). rewrite E. cbn.
    split; [done|]. unfold network_follows. cbn. rewrite Hr, Hc, H4'. done.
  - destruct (set_reservation_follows (reg self) peer false now1 now2 H2') as (r' & E & Hi & Hr & Hc). rewrite E. cbn.
    split; [done|]. unfold network_follows. cbn. rewrite Hr, Hc, H4'. done.
  - destruct (set_reservation_follows (reg self) peer false now1 now2 H2') as (r' & E & Hi & Hr & Hc). rewrite E. cbn.
    split; [done|]. unfold network_follows. cbn. rewrite Hr, Hc, H4'. done.
  - done.
Qed.

(** A registry call acts for the peer's only connection, and refuses any other. *)
Lemma registry_call_spec (call : RegistryCall PeerId ConnectionId) (b : ConnectionBook.t PeerId ConnectionId)
    now (rnd : R) (r : Registry (PeerId:=PeerId) (SourcePrefix:=SourcePrefix.t)) :
  registry_inv r -> RegistryRequest.wf (call_request call) ->
  let '(result, r') := handle_registry_call call b now rnd r in
  registry_inv r' /\ same_frame r r' /\ result <> Panic /\
  ((UniqueConnection.id <$> ConnectionBook.unique b (call_peer call)) <> Some (admitted_connection call) ->
     result = Ok (MkDecision (RegistryResponse.Retry (Registry.retry_after r)) None, rnd) /\ r' = r) /\
  (forall d rnd', result = Ok (d, rnd') ->
     rejected_connection d = (match response d with RegistryResponse.Capacity => Some (admitted_connection call) | _ => None end)).
Proof.
  intros Hr Hw. unfold handle_registry_call.
  destruct (ConnectionBook.unique b (call_peer call)) as [u|] eqn:Eu; cbn [fmap option_fmap option_map].
  2:{ split_and!; [done..|]. by intros d rnd' [= <- _]. }
  case_bool_decide as Hid; cbn [negb].
  2:{ split_and!; [done..|]. by intros d rnd' [= <- _]. }
  destruct (call_request call) as [|loc|loc]; cbn in Hw.
  - destruct (UniqueConnection.source_prefix u) as [src|]; [|split_and!; try done; try (by rewrite Hid); by intros d rnd' [= <- _]].
    pose proof (allocate_lemma r (call_peer call) src now rnd Hr) as Ha.
    destruct (allocate _ src now rnd r) as [res r']. destruct Ha as (Hi & Hf & Hp).
    split_and!; [done..| |by rewrite Hid|].
    + intros E. by destruct res as [[? ?]|[]|].
    + intros d rnd1 E. destruct res as [[rr rnd2]| |]; try done. injection E as <- <-. cbn. by rewrite Hid.
  - destruct (UniqueConnection.source_prefix u) as [src|]; [|split_and!; try done; try (by rewrite Hid); by intros d rnd' [= <- _]].
    pose proof (reclaim_lemma r (call_peer call) src loc now Hr Hw) as Ha.
    destruct (reclaim _ src loc now r) as [res r']. destruct Ha as (Hi & Hf & Hp).
    split_and!; [done..| |by rewrite Hid|].
    + intros E. by destruct res as [?|[]|].
    + intros d rnd1 E. destruct res as [rr| |]; try done. injection E as <- <-. cbn. by rewrite Hid.
  - destruct (release_lemma r (call_peer call) loc now Hr) as (r' & -> & Hi & Hf & _). cbn.
    split_and!; [done..| |by rewrite Hid|]; [done|]. by intros d rnd' [= <- _].
Qed.

(** An answered target is one the registry holds available. *)
Lemma resolve_call_spec peer frame (b : ConnectionBook.t PeerId ConnectionId) now reading
    (r : Registry (PeerId:=PeerId) (SourcePrefix:=SourcePrefix.t)) l o :
  registry_inv r -> bytes frame ->
  let '(result, (r', l', o')) := handle_resolve_call peer frame b now reading r l o in
  registry_inv r' /\ same_frame r r' /\ result <> Panic /\ (forall e, result <> Err (ProtocolTaskError.Registry e)) /\
  (forall bts, result = Ok (ResolveResponse.Resolved bts) ->
     is_Some (ConnectionBook.unique b peer) /\
     exists target, PeerIdBytes.as_bytes bts = peer_to_bytes target /\ is_available r target = true).
Proof.
  intros Hr Hb. unfold handle_resolve_call. destruct (check_global l reading) as [ok l1].
  destruct ok; cbn [negb]; [|by split_and!].
  pose proof (cc_dec_no_panic _ _ _ _ resolve_request_codec_lemma frame Hb) as Hnp.
  destruct (ResolveRequest.decode frame) as [request|e|]; cbn; [|by split_and!|done].
  destruct (ConnectionBook.unique b peer) as [u|] eqn:Eu; cbn; [|by split_and!].
  destruct (UniqueConnection.source_prefix u) as [src|]; cbn; [|by split_and!].
  destruct (check_source l1 src now reading) as [ok' l2]. destruct ok'; cbn; [|by split_and!].
  pose proof (resolve_lemma r (ResolveRequest.locator request) now Hr) as Hl.
  destruct (resolve _ now r) as [res r']. destruct Hl as (Hi & Hf & _ & Hres).
  destruct res as [resp|e|]; [|done|done]. cbn. split_and!; [done..|]. intros bts [= ->].
  split; [done|]. destruct Hres as (m & _ & Ha & Hbts). by exists (Registry.owner m).
Qed.

Lemma resolve_target_spec loc now (r : Registry (PeerId:=PeerId) (SourcePrefix:=SourcePrefix.t)) :
  registry_inv r ->
  let '(result, r') := resolve_enterprise_target loc now r in
  registry_inv r' /\ same_frame r r' /\ result <> Panic /\
  (forall bts, result = Ok (EnterpriseResolveResponse.Resolved bts) ->
     exists target, PeerIdBytes.as_bytes bts = peer_to_bytes target /\ is_available r target = true).
Proof.
  intros Hr. unfold resolve_enterprise_target. pose proof (resolve_lemma r loc now Hr) as Hl.
  destruct (resolve loc now r) as [res r']. destruct Hl as (Hi & Hf & _ & Hres).
  destruct res as [resp|e|]; [|done|done]. cbn. split_and!; [done..|]. intros bts E.
  destruct resp as [p|a|]; try done. injection E as ->. destruct Hres as (m & _ & Ha & Hbts). by exists (Registry.owner m).
Qed.

(** ** The arms *)

Lemma unique_connected (b : ConnectionBook.t PeerId ConnectionId) l peer :
  implements b l -> is_Some (ConnectionBook.unique b peer) -> connected l peer.
Proof.
  intros Hi [[c e] Hu]. apply (unique_refines b l peer c e Hi) in Hu. exists c, e.
  assert (Hx : LiveConnections.of_peer l peer !! c = Some (peer, e)) by (by rewrite Hu, lookup_singleton_eq).
  by apply map_lookup_filter_Some in Hx as [? _].
Qed.

Lemma network_step_same n (e : event) : (forall s a b c, e <> Swarm s a b c) -> network_step n e = n.
Proof. destruct e; try done. intros Hs. by destruct (Hs e now1 now2 printed). Qed.

(** The invariant after a swarm event, whose handler has not touched the sets of peers,
    once the closed peer is forgotten where nothing keeps it. *)
Lemma swarm_arm_inv enterprise n self e now1 now2 printed :
  owner_inv enterprise n self -> event_ok enterprise n (Swarm (ListenerId:=ListenerId) e now1 now2 printed) = true ->
  let '(f, self', actions) := swarm_arm self e now1 now2 printed in
  f <> Break Panic /\ (f = Continue -> owner_inv enterprise (network_step n (Swarm e now1 now2 printed)) self').
Proof.
  intros Hinv Hok. pose proof (swarm_follows _ _ _ e now1 now2 printed Hinv Hok) as Hs. unfold swarm_arm.
  destruct (handle_swarm_event self e now1 now2 printed) as [[r self'] actions]. destruct Hs as [Hr Hf].
  destruct r as [[]|er|]; [|split; [congruence|done]|done].
  destruct Hf as (Ea & Ej & Em & Ek & Hb & Hg & Hc & Hv). destruct Hinv as [H1' H2' H3' H4' H5' H6' H7'].
  set (n' := network_step n (Swarm e now1 now2 printed)) in *.
  assert (Hkeep : forall p, p ∈ rejected_peers self' ->
            (match e with ConnectionClosed q _ => p <> q \/ p ∈ registry_active self' \/ connected (live n') p | _ => True end) ->
            connected (live n') p \/ p ∈ registry_active self').
  { intros p Hp Hcl. rewrite Ej in Hp. rewrite Ea in *. destruct (H5' p Hp) as [Hl|]; [|by right].
    destruct e as [q c ep|q c| | | | | | |]; subst n'; cbn in *; try by left.
    - destruct (decide (p = q)) as [->|Hne]; [|left; by apply connected_opened].
      left. destruct Hl as (k & x & E). case_bool_decide as Hs; [by exists k, x|]. case_bool_decide; [by exists k, x|].
      exists k, x. cbn. rewrite lookup_insert_ne; [done|]. intros ->. destruct Hs. by eexists.
    - destruct Hcl as [Hne|[|]]; [left; by apply connected_gone|by right|by left]. }
  assert (Hmk : forall s : owner, connections s = connections self' -> reg s = reg self' ->
            enterprise_limiters s = enterprise_limiters self' -> registry_active s = registry_active self' ->
            callback_registry s = callback_registry self' ->
            (forall p, p ∈ rejected_peers s -> connected (live n') p \/ p ∈ registry_active self') ->
            owner_inv enterprise n' s).
  { intros s E1 E2 E3 E4 E5 E6. split; rewrite ?E1, ?E2, ?E3, ?E4, ?E5, ?Ek; try done. by rewrite Em. }
  destruct e as [q c ep|q c| | | | | | |]; cbn; try (split; [done|]; intros _; apply Hmk; try done; intros p Hp; by apply Hkeep).
  destruct (_ && _) eqn:Ecl; cbn; (split; [done|]); intros _; apply Hmk; try done; intros p Hp.
  - cbn in Hp. apply Hkeep; [set_solver|]. left. set_solver.
  - apply Hkeep; [done|]. destruct (decide (p = q)) as [->|]; [|by left]. right.
    apply andb_false_iff in Ecl as [Ecl|Ecl].
    + left. apply negb_false_iff, bool_decide_eq_true in Ecl. done.
    + right. apply (count_connected _ _ q Hb). apply Z.eqb_neq in Ecl. apply Z.ltb_lt.
      assert (0 <= ConnectionBook.count (connections self') q); [|lia].
      unfold ConnectionBook.count. destruct (ConnectionBook.rosters _ !! q) as [ro|] eqn:Er; [|done].
      destruct (imp_wf _ _ Hb _ _ Er) as [(_ & -> & _) _]. apply zlen_nonneg.
Qed.

Lemma registry_call_arm_inv enterprise n self call now listening :
  owner_inv enterprise n self -> RegistryRequest.wf (call_request call) ->
  let '(f, self', actions) := registry_call_arm self call now listening in
  f <> Break Panic /\ (f = Continue -> owner_inv enterprise n self').
Proof.
  intros Hinv Hw. unfold registry_call_arm.
  pose proof (registry_call_spec call (connections self) now (random self) (reg self) (oi_registry _ _ _ Hinv) Hw) as Hs.
  destruct (handle_registry_call call _ now _ (reg self)) as [r g]. destruct Hs as (Hi & Hf & Hnp & Hretry & Hrej).
  destruct r as [[d rnd]|e|]; [|split; [congruence|done]|done]. split; [done|]. intros _.
  apply (owner_inv_registry _ _ self); try done; try (by destruct (bool_decide _), (response d)).
  intros p Hp. case_bool_decide as Hd.
  - assert (p ∈ {[ call_peer call ]} ∪ rejected_peers self) as Hp' by (by destruct (response d)).
    apply elem_of_union in Hp' as [->%elem_of_singleton|]; [|by left]. right.
    apply (unique_connected _ _ _ (oi_book _ _ _ Hinv)).
    destruct (ConnectionBook.unique (connections self) (call_peer call)) as [u|]; [done|].
    destruct (Hretry ltac:(done)) as [[= -> _] _]. by destruct Hd.
  - left. by destruct (response d).
Qed.

Lemma registry_arm_inv enterprise n self peer :
  owner_inv enterprise n self ->
  let '(f, self', actions) := registry_arm self peer in f = Continue /\ owner_inv enterprise n self'.
Proof.
  intros Hinv. unfold registry_arm. cbv zeta.
  destruct (registry_permits self =? 0); [split; [done|by eapply owner_inv_frame]|].
  destruct (_ || _); [split; [done|by eapply owner_inv_frame]|].
  destruct (_ <$> _); (split; [done|]); [|by eapply owner_inv_frame].
  eapply owner_inv_frame; [exact Hinv|done..| |done|done]. cbn. set_solver.
Qed.

Lemma resolve_arm_inv enterprise n self peer :
  owner_inv enterprise n self ->
  let '(f, self', actions) := resolve_arm self peer in f = Continue /\ owner_inv enterprise n self'.
Proof.
  intros Hinv. unfold resolve_arm. cbv zeta. destruct (enterprise_limiters self) eqn:E.
  - destruct (enterprise_permits self =? 0); (split; [done|by eapply owner_inv_frame]).
  - destruct (resolve_permits self =? 0); [split; [done|by eapply owner_inv_frame]|].
    destruct (_ || _); (split; [done|by eapply owner_inv_frame]).
Qed.

Lemma resolve_call_arm_inv enterprise n self peer frame now reading :
  owner_inv enterprise n self -> bytes frame ->
  let '(f, self', actions) := resolve_call_arm self peer frame now reading in
  f = Continue /\ owner_inv enterprise n self'.
Proof.
  intros Hinv Hb. unfold resolve_call_arm.
  pose proof (resolve_call_spec peer frame (connections self) now reading (reg self) (limiters self)
    (observations self) (oi_registry _ _ _ Hinv) Hb) as Hs.
  destruct (handle_resolve_call _ _ _ _ _ _ _ _) as [r [[g l] o]]. destruct Hs as (Hi & Hf & Hnp & Hne & _).
  assert (owner_inv enterprise n (set_observations
    (set_admission (set_network self (connections self) g) l (enterprise_limiters self)) o)).
  { apply (owner_inv_registry _ _ self); try done. by left. }
  destruct r as [?|[]|]; try done. by destruct (Hne e).
Qed.

Lemma registry_done_arm_inv enterprise n self peer rejected :
  owner_inv enterprise n self ->
  let '(f, self', actions) := registry_done_arm self peer rejected in f = Continue /\ owner_inv enterprise n self'.
Proof.
  intros Hinv. pose proof Hinv as [H1' H2' H3' H4' H5' H6' H7']. unfold registry_done_arm. split; [done|].
  cbn [connections set_peers registry_active rejected_peers resolve_active].
  destruct (ConnectionBook.count (connections self) peer =? 0) eqn:Ec; split; cbn; try done.
  - intros p Hp. destruct (H5' p) as [|]; [set_solver|by left|right; set_solver].
  - intros p Hp. destruct (decide (p = peer)) as [->|Hne]; [|destruct (H5' p Hp); [by left|right; set_solver]].
    left. apply (count_connected _ _ peer H1'). apply Z.eqb_neq in Ec. apply Z.ltb_lt.
    assert (0 <= ConnectionBook.count (connections self) peer); [|lia].
    unfold ConnectionBook.count. destruct (ConnectionBook.rosters _ !! peer) as [ro|] eqn:Er; [|done].
    destruct (imp_wf _ _ H1' _ _ Er) as [(_ & -> & _) _]. apply zlen_nonneg.
Qed.

Lemma resolve_target_arm_inv enterprise n self locator now :
  owner_inv enterprise n self -> enterprise = true ->
  let '(f, self', actions) := owner_step self (ResolveTargetCalled locator now) in
  f = Continue /\ owner_inv enterprise n self'.
Proof.
  intros Hinv He. cbn. unfold enterprise_arm. destruct (proj2 (oi_mode _ _ _ Hinv) He) as [l ->].
  pose proof (resolve_target_spec locator now (reg self) (oi_registry _ _ _ Hinv)) as Hs.
  destruct (resolve_enterprise_target locator now (reg self)) as [r g]. destruct Hs as (Hi & Hf & Hnp & _).
  assert (owner_inv enterprise n (set_network self (connections self) g)).
  { apply (owner_inv_registry _ _ self); try done. by left. }
  by destruct r.
Qed.

Lemma callback_arm_inv enterprise n self k :
  owner_inv enterprise n self -> enterprise = true ->
  let '(f, self', actions) := callback_arm self k in f = Continue /\ owner_inv enterprise n self'.
Proof.
  intros Hinv He. unfold callback_arm. destruct (proj2 (oi_callbacks _ _ _ Hinv) He) as [c Ec]. rewrite Ec.
  destruct (k c) as [c' a]. split; [done|]. eapply owner_inv_frame; [exact Hinv|done..|].
  cbn. rewrite Ec. split; by eexists.
Qed.

(** Every event keeps the invariant, and none makes the owner panic. *)
Lemma owner_step_inv enterprise n self e :
  owner_inv enterprise n self -> event_ok enterprise n e = true ->
  let '(f, self', actions) := owner_step self e in
  f <> Break Panic /\ (f = Continue -> owner_inv enterprise (network_step n e) self').
Proof.
  intros Hinv Hok.
  assert (Hsame : forall x : flow (ListenerId:=ListenerId) * owner * list (action PeerId ConnectionId),
            (let '(f, self', actions) := x in f = Continue /\ owner_inv enterprise n self') ->
            let '(f, self', actions) := x in f <> Break Panic /\ (f = Continue -> owner_inv enterprise n self')).
  { intros [[f s] a] [-> Hi]. done. }
  destruct e as [ok| |e now1 now2 printed|[peer|]|[peer|]|peer admitted stream now listening|peer frame now reading
    |peer now reading|locator now|state entry now|state|state now|entry result cancelled late| |peer rejected|peer|result| | | |failed]; cbn [network_step].
  - by destruct ok.
  - apply Hsame. split; [done|]. by eapply owner_inv_frame.
  - by apply swarm_arm_inv.
  - by apply Hsame, registry_arm_inv.
  - done.
  - by apply Hsame, resolve_arm_inv.
  - done.
  - cbn [owner_step]. destruct (registry_request stream) as [request| |] eqn:Er; [|done|done].
    apply registry_call_arm_inv; [done|]. cbn. by apply (registry_request_wf stream).
  - apply Hsame, resolve_call_arm_inv; [done|]. by apply all_bytes_spec.
  - cbn [owner_step]. unfold enterprise_arm. destruct (proj2 (oi_mode _ _ _ Hinv) Hok) as [l El]. rewrite El.
    destruct (handle_enterprise_admission _ _ _ _ _ _) as [r l']. split; [done|]. intros _.
    eapply owner_inv_frame; [exact Hinv|done..| |done]. cbn. rewrite El. split; by eexists.
  - by apply Hsame, resolve_target_arm_inv.
  - by apply Hsame, callback_arm_inv.
  - by apply Hsame, callback_arm_inv.
  - by apply Hsame, callback_arm_inv.
  - by apply Hsame, callback_arm_inv.
  - done.
  - by apply Hsame, registry_done_arm_inv.
  - apply Hsame. split; [done|]. by eapply owner_inv_frame.
  - apply Hsame. split; [done|]. by eapply owner_inv_frame.
  - apply Hsame. split; [done|]. by eapply owner_inv_frame.
  - apply Hsame. split; [done|]. by eapply owner_inv_frame.
  - apply Hsame. split; [done|]. by eapply owner_inv_frame.
  - by destruct failed.
Qed.

Lemma start_inv enterprise resources ids rnd :
  RegistrationLimits.wf (RelayResourceConfig.registration resources) ->
  owner_inv enterprise (MkNetwork ∅ ∅) (start enterprise resources ids rnd).
Proof.
  intros Hl. split; cbn.
  - apply implements_new.
  - by apply registry_inv_init.
  - intros p. split; [set_solver|]. intros (c & e & E). by rewrite lookup_empty in E.
  - done.
  - set_solver.
  - destruct enterprise; split; try done; by intros [].
  - destruct enterprise; split; try done; by intros [].
Qed.

Lemma owner_run_inv enterprise events n self :
  owner_inv enterprise n self -> events_ok enterprise n events = true ->
  let '(f, self', actions) := owner_run self events in
  f <> Break Panic /\ (f = Continue -> owner_inv enterprise (foldl network_step n events) self').
Proof.
  revert n self. induction events as [|e events IH]; intros n self Hinv; [done|].
  cbn [events_ok owner_run foldl]. intros [He Hes]%andb_true_iff.
  pose proof (owner_step_inv _ _ _ _ Hinv He) as Hs.
  destruct (owner_step self e) as [[f self'] actions]. destruct Hs as [Hnp Hi]. destruct f as [|r]; [|done].
  specialize (IH _ _ (Hi eq_refl) Hes). by destruct (owner_run self' events) as [[f' s'] a'].
Qed.
End OwnerFacts.

(** ** What a step sends *)

Section Sent.
Context {PeerId ConnectionId ListenerId : Type}.
Context `{Countable PeerId} `{Countable ConnectionId} `{Countable ListenerId}.
Context `{Governor} `{!PeerIdApi PeerId, !PeerIdLaws PeerId} {R : Type} `{SecureRandomLaws R}.
#[local] Notation event := (event PeerId ConnectionId ListenerId).
#[local] Notation owner := (owner (PeerId:=PeerId) (ConnectionId:=ConnectionId) (ListenerId:=ListenerId) (R:=R)).
Implicit Types (self : owner) (n : network PeerId ConnectionId).

(** The target that an action discloses. *)
Definition disclosed (a : action PeerId ConnectionId) : option PeerIdBytes.t :=
  match a with
  | AnswerResolve (Ok (ResolveResponse.Resolved b)) => Some b
  | AnswerTarget (Ok (EnterpriseResolveResponse.Resolved b)) => Some b
  | _ => None
  end.

Definition discloses (a : list (action PeerId ConnectionId)) : list PeerIdBytes.t := omap disclosed a.

Lemma closing_discloses_nothing self peer : discloses (close_peer_connections self peer) = [].
Proof. unfold close_peer_connections, discloses. by induction (ConnectionBook.connections _ _). Qed.

Lemma swarm_discloses_nothing self e now1 now2 printed : discloses (swarm_arm self e now1 now2 printed).2 = [].
Proof.
  unfold swarm_arm. assert (Hh : discloses (handle_swarm_event self e now1 now2 printed).2 = []).
  { destruct e; cbn; repeat (case_match; simplify_eq/=); done. }
  destruct (handle_swarm_event self e now1 now2 printed) as [[r s] a]. cbn in Hh.
  destruct r; [|done|done]. unfold discloses in *.
  repeat case_match; simplify_eq/=; rewrite ?omap_app, ?Hh; done.
Qed.

(** Only the two resolve calls disclose anything. *)
Lemma discloses_only self e :
  discloses (owner_step self e).2 <> [] ->
  (exists peer frame now reading, e = ResolveCalled peer frame now reading) \/
  (exists locator now, e = ResolveTargetCalled locator now).
Proof.
  destruct e as [| |e now1 now2 printed|[peer|]|[peer|]|peer admitted stream now listening|peer frame now reading
    |peer now reading|locator now|state entry now|state|state now|entry result cancelled late| |peer rejected|peer|result| | | |failed]; cbn [owner_step]; try done; intros Hd.
  - by rewrite swarm_discloses_nothing in Hd.
  - destruct Hd. unfold registry_arm. repeat case_match; done.
  - destruct Hd. unfold resolve_arm. repeat case_match; done.
  - destruct Hd. destruct (registry_request stream); [|done|done]. unfold registry_call_arm.
    destruct (handle_registry_call _ _ _ _ _) as [[[d rnd]| |] g]; cbn [snd]; [|done|done].
    destruct listening; [done|]. case_bool_decide; [|done]. apply closing_discloses_nothing.
  - left. eauto 10.
  - destruct Hd. unfold enterprise_arm. destruct (enterprise_limiters self); [|done].
    by destruct (handle_enterprise_admission _ _ _ _ _ _).
  - right. eauto 10.
  - destruct Hd. unfold callback_arm. destruct (callback_registry self); [|done].
    by destruct (CallbackRegistry.insert _ _ _ _).
  - destruct Hd. unfold callback_arm. destruct (callback_registry self); done.
  - destruct Hd. unfold callback_arm. destruct (callback_registry self); done.
  - destruct Hd. unfold callback_arm. destruct (callback_registry self); [|done].
    by destruct (commit_completion _ _ _ _).
  - destruct Hd. unfold registry_done_arm. destruct rejected; [apply closing_discloses_nothing|done].
Qed.

Lemma available_reachable enterprise n self target :
  owner_inv enterprise n self -> is_available (reg self) target = true ->
  connected (live n) target /\ target ∈ reserved n.
Proof.
  intros Hinv. unfold is_available. rewrite andb_true_iff, !bool_decide_eq_true. intros [Hr Hc].
  split; [by apply (oi_connected _ _ _ Hinv)|by rewrite <- (oi_reserved _ _ _ Hinv)].
Qed.

Lemma run_reaches enterprise resources ids (rnd : R) (events : list event) self past :
  RegistrationLimits.wf (RelayResourceConfig.registration resources) ->
  events_ok enterprise (MkNetwork ∅ ∅) events = true ->
  owner_run (start enterprise resources ids rnd) events = (Continue, self, past) ->
  owner_inv enterprise (network_of events) self.
Proof.
  intros Hl He Hr. pose proof (owner_run_inv enterprise events _ _ (start_inv enterprise resources ids rnd Hl) He) as Hi.
  rewrite Hr in Hi. by apply Hi.
Qed.

Lemma resolve_call_discloses enterprise n self peer frame now reading bts :
  owner_inv enterprise n self -> bytes frame ->
  bts ∈ discloses (resolve_call_arm self peer frame now reading).2 ->
  is_Some (ConnectionBook.unique (connections self) peer) /\
  exists target, PeerIdBytes.as_bytes bts = peer_to_bytes target /\ is_available (reg self) target = true.
Proof.
  intros Hinv Hb. unfold resolve_call_arm.
  pose proof (resolve_call_spec peer frame (connections self) now reading (reg self) (limiters self)
    (observations self) (oi_registry _ _ _ Hinv) Hb) as Hs.
  destruct (handle_resolve_call _ _ _ _ _ _ _ _) as [r [[g l] o]]. destruct Hs as (_ & _ & _ & _ & Hres).
  destruct r as [resp|[]|]; cbn; try (by intros ?%elem_of_nil). destruct resp as [b| |]; cbn; try (by intros ?%elem_of_nil).
  intros ->%list_elem_of_singleton. by apply Hres.
Qed.

Lemma resolve_target_discloses enterprise n self locator now bts :
  owner_inv enterprise n self ->
  bts ∈ discloses (owner_step self (ResolveTargetCalled locator now)).2 ->
  exists target, PeerIdBytes.as_bytes bts = peer_to_bytes target /\ is_available (reg self) target = true.
Proof.
  intros Hinv. cbn. unfold enterprise_arm. destruct (enterprise_limiters self); cbn; [|by intros ?%elem_of_nil].
  pose proof (resolve_target_spec locator now (reg self) (oi_registry _ _ _ Hinv)) as Hs.
  destruct (resolve_enterprise_target locator now (reg self)) as [r g]. destruct Hs as (_ & _ & _ & Hres).
  destruct r as [resp| |]; cbn; try (by intros ?%elem_of_nil).
  destruct resp; cbn; try (by intros ?%elem_of_nil). intros ->%list_elem_of_singleton. by apply Hres.
Qed.

(** C4: The relay discloses only targets that are reachable.  After every sequence of
    events of the owner loop, in normal or enterprise mode, the next step names a target
    only in answer to a resolve call or to the resolution of an authenticated enterprise
    exchange, and that target has, by what the swarm has reported, a live connection and
    an open reservation at that moment; a resolve call is answered with a target only if
    the asking peer has exactly one live connection. *)
Theorem relay_discloses_reachable enterprise resources ids (rnd : R) (events : list event) self past e bts :
  RegistrationLimits.wf (RelayResourceConfig.registration resources) ->
  events_ok enterprise (MkNetwork ∅ ∅) (events ++ [e]) = true ->
  owner_run (start enterprise resources ids rnd) events = (Continue, self, past) ->
  bts ∈ discloses (owner_step self e).2 ->
  (exists target, PeerIdBytes.as_bytes bts = peer_to_bytes target /\
     connected (live (network_of events)) target /\ target ∈ reserved (network_of events)) /\
  ((exists locator now, e = ResolveTargetCalled locator now /\ enterprise = true) \/
   (exists peer frame now reading, e = ResolveCalled peer frame now reading /\
      exists c endpoint, LiveConnections.of_peer (live (network_of events)) peer = {[ c := (peer, endpoint) ]})).
Proof.
  intros Hl Hok Hr Hb.
  assert (Hsplit : events_ok enterprise (MkNetwork ∅ ∅) events = true /\ event_ok enterprise (network_of events) e = true).
  { unfold network_of. revert Hok. clear. generalize (MkNetwork (PeerId:=PeerId) (ConnectionId:=ConnectionId) ∅ ∅).
    induction events as [|x events IH]; intros n; cbn; [by rewrite andb_true_r|].
    rewrite !andb_true_iff. intros [Hx Hrest]. by destruct (IH _ Hrest). }
  destruct Hsplit as [Hes He]. pose proof (run_reaches _ _ _ _ _ _ _ Hl Hes Hr) as Hinv.
  destruct (discloses_only self e) as [(peer & frame & now & reading & ->)|(locator & now & ->)].
  { intros E. rewrite E in Hb. by apply elem_of_nil in Hb. }
  - cbn [event_ok] in He. apply all_bytes_spec in He.
    destruct (resolve_call_discloses _ _ _ _ _ _ _ _ Hinv He Hb) as ([[c ep] Hu] & target & Ht & Ha).
    split; [exists target; split; [done|by eapply available_reachable]|]. right. do 4 eexists. split; [reflexivity|].
    exists c, ep. by apply (unique_refines _ _ _ _ _ (oi_book _ _ _ Hinv)).
  - destruct (resolve_target_discloses _ _ _ _ _ _ Hinv Hb) as (target & Ht & Ha).
    split; [exists target; split; [done|by eapply available_reachable]|]. left. by do 2 eexists.
Qed.

(** C5: The owner loop keeps its components consistent.  Every sequence of events leaves
    it without a panic, and while it runs: the registry's connected and reserved peers
    are those of the swarm's reports; every mapping is [Active] exactly while its owner
    has a live connection and a reservation; and a peer refused for lack of capacity is
    remembered only while it has a live connection or an exchange in flight, so that the
    quarantine set cannot leak. *)
Theorem relay_owner_consistent enterprise resources ids (rnd : R) (events : list event) :
  RegistrationLimits.wf (RelayResourceConfig.registration resources) ->
  events_ok enterprise (MkNetwork ∅ ∅) events = true ->
  let '(f, self, actions) := owner_run (start enterprise resources ids rnd) events in
  let n := network_of events in
  f <> Break Panic /\
  (f = Continue ->
   (forall p, p ∈ Registry.connections (reg self) <-> connected (live n) p) /\
   Registry.reservations (reg self) = reserved n /\
   (forall loc m, by_locator (reg self) !! loc = Some m ->
      state m = Active <-> connected (live n) (Registry.owner m) /\ Registry.owner m ∈ reserved n) /\
   (forall p, p ∈ rejected_peers self -> connected (live n) p \/ p ∈ registry_active self)).
Proof.
  intros Hl He. pose proof (owner_run_inv enterprise events _ _ (start_inv enterprise resources ids rnd Hl) He) as Hi.
  destruct (owner_run _ events) as [[f self] actions]. destruct Hi as [Hnp Hi]. split; [done|]. intros Hc.
  specialize (Hi Hc). fold (network_of events) in Hi. split_and!; [apply Hi|apply Hi| |apply Hi].
  intros loc m Hm. rewrite (inv_active _ _ (oi_registry _ _ _ Hi) loc m Hm I). unfold is_available.
  rewrite andb_true_iff, !bool_decide_eq_true, (oi_connected _ _ _ Hi), (oi_reserved _ _ _ Hi). naive_solver.
Qed.

Lemma registry_arm_spawns n enterprise self peer c :
  owner_inv enterprise n self -> SpawnRegistryExchange peer c ∈ (registry_arm self peer).2 ->
  peer ∉ registry_active self /\ peer ∉ rejected_peers self /\ peer ∈ registry_active (registry_arm self peer).1.2 /\
  exists endpoint, LiveConnections.of_peer (live n) peer = {[ c := (peer, endpoint) ]}.
Proof.
  intros Hinv. unfold registry_arm. cbv zeta. destruct (registry_permits self =? 0); [by intros ?%elem_of_nil|].
  cbn [registry_active set_permits rejected_peers connections]. destruct (_ || _) eqn:Eq; [by intros ?%list_elem_of_singleton|].
  destruct (ConnectionBook.unique (connections self) peer) as [[c' ep]|] eqn:Eu; cbn; [|by intros ?%list_elem_of_singleton].
  intros [= ->]%list_elem_of_singleton. apply orb_false_iff in Eq as [E1%bool_decide_eq_false E2%bool_decide_eq_false].
  split_and!; [done|done|set_solver|]. exists ep. by apply (unique_refines _ _ _ _ _ (oi_book _ _ _ Hinv)).
Qed.

Lemma not_sole_refused enterprise n self peer admitted :
  owner_inv enterprise n self ->
  (forall endpoint, LiveConnections.of_peer (live n) peer <> {[ admitted := (peer, endpoint) ]}) ->
  UniqueConnection.id <$> ConnectionBook.unique (connections self) peer <> Some admitted.
Proof.
  intros Hinv Hn. destruct (ConnectionBook.unique _ peer) as [[c ep]|] eqn:Eu; [|done]. intros [= ->].
  apply (Hn ep). by apply (unique_refines _ _ _ _ _ (oi_book _ _ _ Hinv)).
Qed.

Lemma registry_call_gate enterprise n self call now listening f self' actions :
  owner_inv enterprise n self -> RegistryRequest.wf (call_request call) ->
  registry_call_arm self call now listening = (f, self', actions) ->
  ((forall endpoint, LiveConnections.of_peer (live n) (call_peer call) <> {[ admitted_connection call := (call_peer call, endpoint) ]}) ->
     reg self' = reg self /\ rejected_peers self' = rejected_peers self /\
     forall d, AnswerRegistry d ∈ actions -> response d = RegistryResponse.Retry (Registry.retry_after (reg self))) /\
  (forall d, AnswerRegistry d ∈ actions -> response d = RegistryResponse.Capacity ->
     rejected_connection d = Some (admitted_connection call) /\ call_peer call ∈ rejected_peers self').
Proof.
  intros Hinv Hw. unfold registry_call_arm.
  pose proof (registry_call_spec call (connections self) now (random self) (reg self) (oi_registry _ _ _ Hinv) Hw) as Hs.
  destruct (handle_registry_call call _ now _ (reg self)) as [r g]. destruct Hs as (_ & _ & _ & Hretry & Hrej).
  intros E. split.
  - intros Hn. destruct (Hretry (not_sole_refused _ _ _ _ _ Hinv Hn)) as [-> ->]. injection E as <- <- <-.
    cbn. split_and!; [done..|]. intros d. destruct listening; [by intros [= ->]%list_elem_of_singleton|by intros ?%elem_of_nil].
  - intros d Hd Hc. destruct r as [[d' rnd]| |]; [|by injection E as <- <- <-; apply elem_of_nil in Hd..].
    specialize (Hrej d' rnd eq_refl). injection E as <- <- <-.
    destruct listening; [apply list_elem_of_singleton in Hd as [= <-]|].
    + rewrite Hc in Hrej |- *. rewrite Hrej. cbn. split; [done|set_solver].
    + case_bool_decide; [|by apply elem_of_nil in Hd]. unfold close_peer_connections in Hd.
      by apply list_elem_of_fmap in Hd as (? & ? & _).
Qed.

(** Registry access is exclusive and a refused peer is quarantined.  On every state
    the loop reaches: an exchange is started only for a peer with exactly one live
    connection, no other exchange in flight and no earlier refusal, and marks it in
    flight; a registry call made for a connection that is no longer the peer's only one
    gets [Retry] and changes neither the registry nor the quarantine; an answer of
    [Capacity] names the connection to close and quarantines the peer; and a new
    connection of a quarantined peer is closed at once. *)
Theorem relay_registry_gate enterprise resources ids (rnd : R) (events : list event) self past peer :
  RegistrationLimits.wf (RelayResourceConfig.registration resources) ->
  events_ok enterprise (MkNetwork ∅ ∅) events = true ->
  owner_run (start enterprise resources ids rnd) events = (Continue, self, past) ->
  let n := network_of events in
  (forall c, SpawnRegistryExchange peer c ∈ (owner_step self (RegistryIncoming (Some peer))).2 ->
     peer ∉ registry_active self /\ peer ∉ rejected_peers self /\
     peer ∈ registry_active (owner_step self (RegistryIncoming (Some peer))).1.2 /\
     exists endpoint, LiveConnections.of_peer (live n) peer = {[ c := (peer, endpoint) ]}) /\
  (forall admitted stream now listening, all_bytes stream = true ->
     let '(_, self', actions) := owner_step self (RegistryCalled peer admitted stream now listening) in
     ((forall endpoint, LiveConnections.of_peer (live n) peer <> {[ admitted := (peer, endpoint) ]}) ->
        reg self' = reg self /\ rejected_peers self' = rejected_peers self /\
        forall d, AnswerRegistry d ∈ actions -> response d = RegistryResponse.Retry (Registry.retry_after (reg self))) /\
     (forall d, AnswerRegistry d ∈ actions -> response d = RegistryResponse.Capacity ->
        rejected_connection d = Some admitted /\ peer ∈ rejected_peers self')) /\
  (forall c endpoint now1 now2 printed, peer ∈ rejected_peers self ->
     LiveConnections.consistent (live n) (Opened peer c endpoint) = true ->
     CloseConnection c ∈ (owner_step self (Swarm (ConnectionEstablished peer c endpoint) now1 now2 printed)).2).
Proof.
  intros Hl He Hr n. pose proof (run_reaches _ _ _ _ _ _ _ Hl He Hr) as Hinv. fold n in Hinv. split_and!.
  - intros c Hs. by apply (registry_arm_spawns n enterprise).
  - intros admitted stream now listening Hb. cbn [owner_step].
    destruct (registry_request stream) as [request| |] eqn:Eq.
    2,3: split; [intros _; split_and!; [done..|]|]; by intros d ?%elem_of_nil.
    destruct (registry_call_arm self (MkRegistryCall peer admitted request) now listening) as [[f self'] actions] eqn:Ea.
    refine (registry_call_gate enterprise n self _ now listening f self' actions Hinv _ Ea).
    by apply (registry_request_wf stream).
  - intros c endpoint now1 now2 printed Hq Hc. cbn [owner_step]. unfold swarm_arm.
    rewrite bool_decide_eq_true_2 by done.
    pose proof (established_follows enterprise n self peer c endpoint now1 now2 printed Hinv Hc) as Hp.
    destruct (handle_swarm_event self _ now1 now2 printed) as [[r s] a]. destruct Hp as [-> _]. cbn.
    apply elem_of_app. right. left.
Qed.
End Sent.

(** ** A run *)

#[local] Instance example_peer_api : PeerIdApi Z := fun p => [as_u8 p].
#[local] Instance example_peer_api_laws : PeerIdLaws Z.
Proof.
  intros p. split; [|by vm_compute]. repeat constructor; unfold is_u8, as_u8; apply Z.mod_pos_bound; lia.
Qed.

#[local] Instance example_governor : Governor := {|
  Limiter := Gcra; direct q := MkGcra q None; check_limiter := gcra_check |}.

(** One registration at most. *)
Definition example_resources : RelayResourceConfig.t :=
  RelayResourceConfig.Mk
    (RegistrationLimits.Mk (RegistrationCapacity.Mk 1) (SourceRegistrationCapacity.Mk 1) (ReservationDuration.Mk 3600))
    (ResolveLimits.Mk (ResolveConcurrency.Mk 64) (ResolveRate.Mk 4 128) (ResolveRate.Mk 1 32)
       (SourceLimiterCapacity.Mk 4096) (SourceLimiterIdle.Mk 600) (RetryAfter.Mk 250))
    (CircuitRelayLimits.Mk (CircuitCapacity.Mk 128) (CircuitDuration.Mk 86400) (CircuitBytes.Mk 8589934592)).

Definition at_second (n : Z) : MonotonicTime.t := MonotonicTime.Mk (from_secs n).

Definition arrives (peer connection second : Z) : event Z Z Z :=
  Swarm (ConnectionEstablished peer connection (MkPoint [Ip4 peer; Tcp 1] false)) (at_second second) (at_second second) true.
Definition reserves (peer second : Z) : event Z Z Z :=
  Swarm (ReservationReqAccepted peer) (at_second second) (at_second second) true.

(** Peer 7 registers over its connection 70 and gets locator 0x50505; peer 8 finds the
    registry full; peer 9 connects. *)
Definition example_events : list (event Z Z Z) :=
  [arrives 7 70 1; reserves 7 2; RegistryIncoming (Some 7);
   RegistryCalled 7 70 [1; 0; 0; 0] (at_second 3) true; RegistryDone 7 None;
   arrives 8 80 4; reserves 8 5; RegistryIncoming (Some 8);
   RegistryCalled 8 80 [1; 0; 0; 0] (at_second 6) true; arrives 9 90 7].

Definition example_question : event Z Z Z := ResolveCalled 9 [5; 5; 5] (at_second 8) (from_secs 8).

Definition example_owner := (owner_run (start false example_resources [] (Some 5 : FixedRandom)) example_events).1.2.
Definition example_past := (owner_run (start false example_resources [] (Some 5 : FixedRandom)) example_events).2.

Lemma example_runs :
  owner_run (start false example_resources [] (Some 5 : FixedRandom)) example_events =
  (Continue, example_owner, example_past).
Proof.
  unfold example_owner, example_past.
  assert (Hf : (owner_run (start false example_resources [] (Some 5 : FixedRandom)) example_events).1.1 = Continue)
    by (vm_compute; reflexivity).
  destruct (owner_run _ _) as [[f s] a]. cbn in *. by subst f.
Qed.

Lemma example_wf :
  RegistrationLimits.wf (RelayResourceConfig.registration example_resources) /\
  events_ok false (MkNetwork ∅ ∅) example_events = true /\
  events_ok false (MkNetwork ∅ ∅) (example_events ++ [example_question]) = true.
Proof. split; [by vm_compute|]. split; vm_compute; reflexivity. Qed.

Lemma example_rejected : rejected_peers example_owner = {[ 8 ]}.
Proof. vm_compute. reflexivity. Qed.

Lemma example_discloses :
  discloses (owner_step example_owner example_question).2 = [PeerIdBytes.Mk (7 :: zeros 63) 1].
Proof. vm_compute. reflexivity. Qed.

Lemma relay_discloses_reachable_witness :
  exists target, [7] = peer_to_bytes target /\
    connected (live (network_of example_events)) target /\ target ∈ reserved (network_of example_events).
Proof.
  refine (proj1 (relay_discloses_reachable false example_resources [] (Some 5 : FixedRandom) example_events
    example_owner example_past example_question (PeerIdBytes.Mk (7 :: zeros 63) 1)
    (proj1 example_wf) (proj2 (proj2 example_wf)) example_runs _)).
  rewrite example_discloses. left.
Defined.

Lemma relay_owner_consistent_witness :
  rejected_peers example_owner = {[ 8 ]} /\
  (connected (live (network_of example_events)) 8 \/ 8 ∈ registry_active example_owner).
Proof.
  split; [exact example_rejected|].
  pose proof (relay_owner_consistent false example_resources [] (Some 5 : FixedRandom) example_events
    (proj1 example_wf) (proj1 (proj2 example_wf))) as Hc.
  rewrite example_runs in Hc. apply (proj2 Hc eq_refl). rewrite example_rejected. by apply elem_of_singleton.
Defined.

Lemma relay_registry_gate_witness :
  CloseConnection 81 ∈ (owner_step example_owner (arrives 8 81 9)).2.
Proof.
  refine (proj2 (proj2 (relay_registry_gate false example_resources [] (Some 5 : FixedRandom) example_events
    example_owner example_past 8 (proj1 example_wf) (proj1 (proj2 example_wf)) example_runs)) 81 _ _ _ _ _ _).
  - rewrite example_rejected. by apply elem_of_singleton.
  - vm_compute. reflexivity.
Defined.
