(* ===== verification/Stateful.v ===== *)
(** * Computations that change a state and may fail

    A method [fn f(&mut self, ..) -> Result<A, E>] is a [stm S E A]: it takes the state and
    returns the result beside the new state.  The state survives an error, as a struct does
    when a method returns early with [?].  The audit session and the audit verifier are
    written in this monad. *)

From S2P Require Import Prelude.
Open Scope Z_scope.

Definition stm (S E A : Type) : Type := S -> res E A * S.

#[export] Instance stm_ret {S E} : MRet (stm S E) := fun A a s => (Ok a, s).

#[export] Instance stm_bind {S E} : MBind (stm S E) := fun A B f m s =>
  match m s with
  | (Ok a, s') => f a s'
  | (Err e, s') => (Err e, s')
  | (Panic, s') => (Panic, s')
  end.

Definition throw {S E A} (e : E) : stm S E A := fun s => (Err e, s).
Definition lift {S E A} (r : res E A) : stm S E A := fun s => (r, s).
Definition gets {S E A} (f : S -> A) : stm S E A := fun s => (Ok (f s), s).
Definition modify {S E} (f : S -> S) : stm S E unit := fun s => (Ok tt, f s).

(** A computation on a part of the state, reached by [get] and put back by [put]. *)
Definition zoom {S T E A} (get : S -> T) (put : T -> S -> S) (m : stm T E A) : stm S E A :=
  fun s => let '(r, t) := m (get s) in (r, put t s).

(** [for x in l { f(x)? }]. *)
Fixpoint for_each {S E A} (l : list A) (f : A -> stm S E unit) : stm S E unit :=
  match l with
  | [] => mret tt
  | x :: l => f x ≫= fun _ => for_each l f
  end.

Section Laws.
Context {S E A B : Type}.
Implicit Types (s : S) (m : stm S E A).

Lemma stm_bind_ok m (f : A -> stm S E B) b s s'' :
  (m ≫= f) s = (Ok b, s'') <-> exists a s', m s = (Ok a, s') /\ f a s' = (Ok b, s'').
Proof. unfold mbind, stm_bind. destruct (m s) as [[a|e|] s']; split; naive_solver. Qed.

Lemma stm_ret_ok (a b : A) s s' : (mret a : stm S E A) s = (Ok b, s') <-> b = a /\ s' = s.
Proof. unfold mret, stm_ret. split; naive_solver. Qed.

Lemma lift_ok (r : res E A) a s s' : lift r s = (Ok a, s') <-> r = Ok a /\ s' = s.
Proof. unfold lift. split; naive_solver. Qed.

Lemma gets_ok (f : S -> A) a s s' : (gets f : stm S E A) s = (Ok a, s') <-> a = f s /\ s' = s.
Proof. unfold gets. split; naive_solver. Qed.

Lemma modify_ok (f : S -> S) u s s' : (modify f : stm S E unit) s = (Ok u, s') <-> s' = f s.
Proof. unfold modify. destruct u. split; naive_solver. Qed.

(** Running one step of a computation whose first part is known. *)
Lemma stm_bind_step m (f : A -> stm S E B) a s s' : m s = (Ok a, s') -> (m ≫= f) s = f a s'.
Proof. unfold mbind, stm_bind. by intros ->. Qed.
End Laws.

(** Inverts every hypothesis saying that a stateful computation returned [Ok]. *)
Ltac inv_run :=
  repeat (inv_ok;
  match goal with
  | H : mbind _ _ _ = (Ok _, _) |- _ => apply stm_bind_ok in H; destruct H as (? & ? & ? & H)
  | H : lift _ _ = (Ok _, _) |- _ => apply lift_ok in H; destruct H as [H ->]
  | H : gets _ _ = (Ok _, _) |- _ => apply gets_ok in H; destruct H as [-> ->]
  | H : modify _ _ = (Ok _, _) |- _ => apply modify_ok in H; subst
  | H : mret _ _ = (Ok _, _) |- _ => apply stm_ret_ok in H; destruct H as [-> ->]
  | H : throw _ _ = (Ok _, _) |- _ => discriminate H
  | H : (Ok _, _) = (Ok _, _) |- _ => injection H as H; try subst
  | H : (Err _, _) = (Ok _, _) |- _ => discriminate H
  | H : (Panic, _) = (Ok _, _) |- _ => discriminate H
  | H : (if ?b then _ else _) _ = (Ok _, _) |- _ => split_test b
  end).
