(* ===== verification/AuditEvents.v ===== *)
(** * Audit events

    The first half of [crates/yon/src/audit/session.rs]: its constants, the batches of encoded
    records one recording step produces, the normalizer that cuts a byte stream into canonical
    blocks, the hash-chained records of the four shared streams and of the local stream, and
    the decoders the verifier shares.  [AuditSession] builds the state machine on them.

    SHA-256, HMAC, HKDF and Ed25519 are the class [AuditCrypto]; its laws are the sizes of
    their outputs and that a signature verifies under the key that made it. *)

From stdpp Require Import strings.
From S2P Require Import Prelude Domain Layout WireAudit AuditContainer AuditWriter Stateful.
Open Scope string_scope.
Open Scope list_scope.
Open Scope Z_scope.

(** ** Cryptography *)

Class AuditCrypto := {
  sha256 : list Z -> list Z;
  (** [hmac_sha256 key message]. *)
  hmac_sha256 : list Z -> list Z -> list Z;
  (** [hkdf_sha256 salt key_material info]: the first 32 bytes of the expansion. *)
  hkdf_sha256 : option (list Z) -> list Z -> list (list Z) -> list Z;
  (** The public key of a 32-byte signing key. *)
  ed_public : list Z -> list Z;
  ed_sign : list Z -> list Z -> list Z;
  (** [VerifyingKey::from_bytes(key)] succeeds and [verify_strict] accepts. *)
  ed_verify : list Z -> list Z -> list Z -> bool;
}.

Class AuditCryptoLaws `{AuditCrypto} : Prop := {
  sha256_array l : is_array DIGEST_LEN (sha256 l);
  hmac_array k l : is_array DIGEST_LEN (hmac_sha256 k l);
  hkdf_array s k l : is_array DIGEST_LEN (hkdf_sha256 s k l);
  ed_public_array k : is_array ED25519_PUBLIC_KEY_LEN (ed_public k);
  ed_sign_array k m : is_array ED25519_SIGNATURE_LEN (ed_sign k m);
  ed_sign_verifies k m : ed_verify (ed_public k) m (ed_sign k m) = true;
}.

(** ** Equality of the messages *)

#[export] Instance FixedBytes_eq_dec n : EqDecision (FixedBytes.t n).
Proof. solve_decision. Defined.
#[export] Instance AuditRole_eq_dec : EqDecision AuditRole.t.
Proof. solve_decision. Defined.
#[export] Instance AuditCloseReason_eq_dec : EqDecision AuditCloseReason.t.
Proof. solve_decision. Defined.
#[export] Instance ManifestEnding_eq_dec : EqDecision ManifestEnding.t.
Proof. solve_decision. Defined.
#[export] Instance StreamSnapshot_eq_dec : EqDecision StreamSnapshot.t.
Proof. solve_decision. Defined.
#[export] Instance SharedSnapshot_eq_dec : EqDecision SharedSnapshot.t.
Proof. solve_decision. Defined.
#[export] Instance JointManifest_eq_dec : EqDecision JointManifest.t.
Proof. solve_decision. Defined.
#[export] Instance ManifestSignature_eq_dec : EqDecision ManifestSignature.t.
Proof. solve_decision. Defined.

(** ** Constants *)

Definition CANONICAL_BLOCK_LEN : Z := 16 * 1024.
Definition CHECKPOINT_INTERVAL_NS : Z := 1000000000.
Definition CHECKPOINT_SIZE_TRIGGER : Z := 1024 * 1024.
Definition INPUT_COMMITMENT_LABEL : list Z := str "yonder-audit-input-commitment-v3".
Definition SESSION_ID_LABEL : list Z := str "yonder-audit-session-v3".
Definition CHAIN_INPUT_DOMAIN : list Z := str "yonder-audit-chain-input-v3".
Definition CHAIN_OUTPUT_DOMAIN : list Z := str "yonder-audit-chain-output-v3".
Definition CHAIN_CONTROL_DOMAIN : list Z := str "yonder-audit-chain-control-v3".
Definition CHAIN_FILE_DOMAIN : list Z := str "yonder-audit-chain-file-v3".
Definition CHAIN_LOCAL_DOMAIN : list Z := str "yonder-audit-chain-local-v3".

Definition DIRECTION_CTRL_TO_HOST : Z := 0x01.
Definition DIRECTION_HOST_TO_CTRL : Z := 0x02.

Definition INPUT_EVENT_KIND : Z := 0x01.
Definition OUTPUT_EVENT_KIND : Z := 0x01.
Definition CONTROL_KIND_RESIZE : Z := 0x01.
Definition CONTROL_KIND_TERMINAL_HELLO : Z := 0x02.
Definition CONTROL_KIND_TERMINAL_READY : Z := 0x03.
Definition CONTROL_KIND_TERMINAL_EXIT : Z := 0x04.
Definition CONTROL_KIND_TERMINAL_COMPLETE : Z := 0x05.
Definition CONTROL_KIND_CLOSE_REASON : Z := 0x06.
Definition FILE_KIND_START : Z := 0x01.
Definition FILE_KIND_SUCCESS : Z := 0x02.
Definition FILE_KIND_CANCELLED : Z := 0x03.
Definition FILE_KIND_FAILED : Z := 0x04.
Definition FILE_LOCAL_KIND_COMMITTED_UNCONFIRMED : Z := 0x05.
Definition FILE_LOCAL_KIND_COMMIT_STATUS_UNKNOWN : Z := 0x06.
Definition LOCAL_FILE_AMBIGUITY_PAYLOAD_LEN : Z := 1 + 8 + 8 + DIGEST_LEN + 2.
Definition FILE_DIRECTION_UPLOAD : Z := DIRECTION_CTRL_TO_HOST.
Definition FILE_DIRECTION_DOWNLOAD : Z := DIRECTION_HOST_TO_CTRL.
Definition LIFECYCLE_KIND_TERMINAL_HELLO : Z := 0x01.
Definition LIFECYCLE_KIND_TERMINAL_READY : Z := 0x02.
Definition LIFECYCLE_KIND_TERMINAL_EXIT : Z := 0x03.
Definition LIFECYCLE_KIND_TERMINAL_COMPLETE : Z := 0x04.
Definition LIFECYCLE_KIND_ACTIVE_DETACH : Z := 0x05.
Definition LIFECYCLE_KIND_LOCAL_INTERRUPT : Z := 0x06.
Definition CONNECTION_STATE_ESTABLISHED : Z := 0x01.
Definition CONNECTION_STATE_LOST : Z := 0x02.
Definition CONNECTION_STATE_CLOSED : Z := 0x03.
Definition OUTCOME_CONFIRMED : Z := 0x01.
Definition OUTCOME_UNCONFIRMED : Z := 0x02.
Definition EVIDENCE_SENT_CHECKPOINT : Z := 0x01.
Definition EVIDENCE_RECEIVED_CHECKPOINT : Z := 0x02.
Definition EVIDENCE_SENT_CHECKPOINT_ACK : Z := 0x03.
Definition EVIDENCE_RECEIVED_CHECKPOINT_ACK : Z := 0x04.
Definition EVIDENCE_SENT_MANIFEST : Z := 0x06.
Definition EVIDENCE_RECEIVED_MANIFEST : Z := 0x07.
Definition EVIDENCE_SENT_MANIFEST_SIGNATURE : Z := 0x08.
Definition EVIDENCE_RECEIVED_MANIFEST_SIGNATURE : Z := 0x09.

Definition MAX_INLINE_PAYLOAD_LEN : Z := 8 + DIGEST_LEN + 1 + 4 + 911.
Definition SPLIT_PREFIX_LEN : Z := 8 + DIGEST_LEN.
Definition MAX_LOCAL_OUTPUT_SEGMENT : Z := MAX_RAW_OUTPUT_PAYLOAD_LEN - SPLIT_PREFIX_LEN.
Definition MAX_INPUT_SEGMENT : Z := 64 * 1024.
Definition MAX_RECORDS_PER_STEP : Z := 6.
Definition MAX_PROTOCOL_PATH_LEN : Z := 4096.
Definition MAX_PROTOCOL_FILE_NAME_LEN : Z := 1024.
Definition MAX_LOCAL_PATH_LEN : Z := 4096.
Definition SHARED_INPUT_RECORD_LEN : Z := 1 + 8 + 8 + 32 + 32 + 32.
Definition SHARED_OUTPUT_RECORD_LEN : Z := 1 + 8 + 8 + 32 + 32 + 32.
Definition MAX_BLOCKS_PER_SEGMENT : Z := 4.

Section Events.
Context {IoError : Type} `{AuditCrypto}.
Local Notation err := (AuditError (IoError:=IoError)).

(** ** Errors *)

(** [AuditError::code]. *)
Definition code (self : err) : option AuditErrorCode.t :=
  match self with
  | IdentityMissing => Some AuditErrorCode.AuditIdentityMissing
  | IdentityInvalid => Some AuditErrorCode.AuditIdentityInvalid
  | IdentityPermissions => Some AuditErrorCode.AuditIdentityPermissions
  | LedgerInvalid => Some AuditErrorCode.AuditLedgerInvalid
  | LedgerConflict => Some AuditErrorCode.AuditLedgerConflict
  | DirectoryUnavailable _ => Some AuditErrorCode.AuditDirectoryUnavailable
  | RecordCreateFailed _ => Some AuditErrorCode.AuditRecordCreateFailed
  | RecordWriteFailed _ => Some AuditErrorCode.AuditRecordWriteFailed
  | RecordSyncFailed _ => Some AuditErrorCode.AuditRecordSyncFailed
  | ProtocolUnsupported _ => Some AuditErrorCode.AuditProtocolUnsupported
  | HandshakeInvalid => Some AuditErrorCode.AuditHandshakeInvalid
  | SessionBindingMismatch => Some AuditErrorCode.AuditSessionBindingMismatch
  | CheckpointMismatch => Some AuditErrorCode.AuditCheckpointMismatch
  | PeerSignatureInvalid => Some AuditErrorCode.AuditPeerSignatureInvalid
  | FinalManifestMismatch => Some AuditErrorCode.AuditFinalManifestMismatch
  | LedgerCommitFailed => Some AuditErrorCode.AuditLedgerCommitFailed
  | ReplayUnsafe => Some AuditErrorCode.AuditReplayUnsafe
  | ContainerInvalid => Some AuditErrorCode.AuditContainerInvalid
  | RandomSource | Protocol _ | Substream _ | SegmentTooLarge | InvalidState _ | FailedClosed
  | WriterTerminated => None
  end.

(** ** Small helpers *)

(** [a + b] on [u64]; overflow checks are on in every profile. *)
Definition add_u64 {E} (a b : Z) : res E Z := expect_some (checked_add_u64 a b).

(** [append] and the [write_] helpers: the cursor of [Layout], whose only failure is a panic. *)
Definition append (cursor : list Z * Z) (source : list Z) : res err (list Z * Z) :=
  expect (Layout.append cursor source).
Definition write_u64 (cursor : list Z * Z) (value : Z) : res err (list Z * Z) :=
  append cursor (to_be_bytes 8 value).
Definition write_u32 (cursor : list Z * Z) (value : Z) : res err (list Z * Z) :=
  append cursor (to_be_bytes 4 value).
Definition write_u16 (cursor : list Z * Z) (value : Z) : res err (list Z * Z) :=
  append cursor (to_be_bytes 2 value).

Definition zero_head : ChainHead := FixedBytes.new (zeros DIGEST_LEN).

Definition outcome_code (confirmed : bool) : Z :=
  if confirmed then OUTCOME_CONFIRMED else OUTCOME_UNCONFIRMED.

(** ** Record batches *)

(** [Payload]: an inline buffer with its used length, a heap buffer, or a prefix and a
    borrowed body. *)
Inductive Payload :=
| Inline (bytes : list Z) (len : Z)
| Boxed (bytes : list Z)
| Split (prefix body : list Z).

Definition payload_len (self : Payload) : Z :=
  match self with
  | Inline _ len => len
  | Boxed bytes => zlen bytes
  | Split _ body => SPLIT_PREFIX_LEN + zlen body
  end.

(** The bytes [AuditWriter::append_batch] frames for a payload. *)
Definition payload_bytes {E} (self : Payload) : res E (list Z) :=
  match self with
  | Inline bytes len => slice bytes 0 len
  | Boxed bytes => Ok bytes
  | Split prefix body => Ok (prefix ++ body)
  end.

Record EncodedRecord := Encoded { record_type : RecordType.t; payload : Payload }.

(** [RecordBatch]: the filled slots of its array; their number is its [len]. *)
Definition RecordBatch : Type := list EncodedRecord.

Definition push (batch : RecordBatch) (record : EncodedRecord) : res err RecordBatch :=
  if MAX_RECORDS_PER_STEP <=? zlen batch
  then Err (InvalidState "a recording step exceeded the record batch bound") else
  Ok (batch ++ [record]).

Definition push_inline (batch : RecordBatch) (record_type : RecordType.t) (payload : list Z)
  : res err RecordBatch :=
  if MAX_INLINE_PAYLOAD_LEN <? zlen payload
  then Err (InvalidState "record payload exceeds the inline bound") else
  bytes ← copy_range (zeros MAX_INLINE_PAYLOAD_LEN) 0 (zlen payload) payload;
  push batch (Encoded record_type (Inline bytes (zlen payload))).

Definition push_boxed (batch : RecordBatch) (record_type : RecordType.t) (payload : list Z)
  : res err RecordBatch :=
  push batch (Encoded record_type (Boxed payload)).

Definition push_split (batch : RecordBatch) (record_type : RecordType.t) (prefix body : list Z)
  : res err RecordBatch :=
  push batch (Encoded record_type (Split prefix body)).

End Events.

(** ** The normalizer *)

Module Normalizer.
Record t := Mk { buffer : list Z; len : Z; closed : bool }.

Definition new : t := Mk (zeros CANONICAL_BLOCK_LEN) 0 false.

Section Feed.
Context {IoError : Type}.
Local Notation err := (AuditError (IoError:=IoError)).
(** [on_block] changes what its closure captured, a state [S]. *)
Context {S : Type} (on_block : list Z -> stm S err unit).

(** [for index in 0..whole { on_block(&bytes[index * N..(index + 1) * N]) }]. *)
Definition emit_whole (bytes : list Z) (whole : Z) : stm S err unit :=
  for_each (seqZ 0 whole) (fun index =>
    let start := index * CANONICAL_BLOCK_LEN in
    part ← lift (slice bytes start (start + CANONICAL_BLOCK_LEN));
    block ← lift (expect_some (try_into_array CANONICAL_BLOCK_LEN part));
    on_block block).

(** The whole blocks of [bytes], then its tail into the empty buffer. *)
Definition feed_whole (buffer bytes : list Z) : stm S err t :=
  let whole := zlen bytes / CANONICAL_BLOCK_LEN in
  _ ← emit_whole bytes whole;
  let tail := zlen bytes mod CANONICAL_BLOCK_LEN in
  rest ← lift (slice bytes (whole * CANONICAL_BLOCK_LEN) (zlen bytes));
  buffer ← lift (copy_range buffer 0 tail rest);
  mret (Mk buffer tail false).

Definition feed (self : t) (bytes : list Z) : stm S err t :=
  if closed self then throw (InvalidState "the canonical stream is already closed") else
  if CANONICAL_BLOCK_LEN <=? zlen bytes then
    if 0 <? len self then
      let take := CANONICAL_BLOCK_LEN - len self in
      head ← lift (slice bytes 0 take);
      buffer ← lift (copy_range (buffer self) (len self) CANONICAL_BLOCK_LEN head);
      _ ← on_block buffer;
      rest ← lift (slice bytes take (zlen bytes));
      feed_whole buffer rest
    else feed_whole (buffer self) bytes
  else if CANONICAL_BLOCK_LEN <=? zlen bytes + len self then
    let take := CANONICAL_BLOCK_LEN - len self in
    head ← lift (slice bytes 0 take);
    buffer ← lift (copy_range (buffer self) (len self) CANONICAL_BLOCK_LEN head);
    _ ← on_block buffer;
    let tail := zlen bytes - take in
    rest ← lift (slice bytes take (zlen bytes));
    buffer ← lift (copy_range buffer 0 tail rest);
    mret (Mk buffer tail false)
  else
    buffer ← lift (copy_range (buffer self) (len self) (len self + zlen bytes) bytes);
    mret (Mk buffer (len self + zlen bytes) false).

Definition finish (self : t) : stm S err (bool * t) :=
  if closed self then throw (InvalidState "the canonical stream is already closed") else
  if len self =? 0 then mret (false, Mk (buffer self) (len self) true) else
  partial ← lift (slice (buffer self) 0 (len self));
  _ ← on_block partial;
  mret (true, Mk (buffer self) 0 true).
End Feed.
End Normalizer.

(** ** Shared and local records *)

Section Records.
Context {IoError : Type} `{AuditCrypto}.
Local Notation err := (AuditError (IoError:=IoError)).

Definition shared_event_hash (domain previous : list Z)
    (stream_kind direction sequence event_kind : Z) (canonical_payload : list Z) : list Z :=
  sha256 (domain ++ previous ++ [stream_kind] ++ [direction] ++ to_be_bytes 8 sequence
            ++ [event_kind] ++ canonical_payload).

Definition local_event_hash (previous : list Z) (local_sequence time_ns event_kind : Z)
    (kind_payload related : list Z) : list Z :=
  sha256 (CHAIN_LOCAL_DOMAIN ++ previous ++ to_be_bytes 8 local_sequence ++ to_be_bytes 8 time_ns
            ++ [event_kind] ++ kind_payload ++ related).

(** The payload of a shared input or output record; the arrays it is made of fill the
    [\[u8; SHARED_INPUT_RECORD_LEN\]] buffer exactly. *)
Definition block_payload (direction sequence length : Z) (digest previous head : list Z) : list Z :=
  [direction] ++ to_be_bytes 8 sequence ++ to_be_bytes 8 length ++ digest ++ previous ++ head.

Definition build_input_block (key : list Z) (direction sequence length : Z) (block : list Z)
    (previous : ChainHead) : list Z * ChainHead :=
  let hmac := hmac_sha256 key (CHAIN_INPUT_DOMAIN ++ [direction] ++ to_be_bytes 8 sequence
                                 ++ to_be_bytes 8 length ++ block) in
  let canonical := to_be_bytes 8 length ++ hmac in
  let head := shared_event_hash CHAIN_INPUT_DOMAIN (raw previous)
                (SharedStream.index SharedStream.Input) direction sequence INPUT_EVENT_KIND canonical in
  (block_payload direction sequence length hmac (raw previous) head, FixedBytes.new head).

Definition build_output_block (direction sequence length : Z) (digest : list Z)
    (previous : ChainHead) : list Z * ChainHead :=
  let canonical := to_be_bytes 8 length ++ digest in
  let head := shared_event_hash CHAIN_OUTPUT_DOMAIN (raw previous)
                (SharedStream.index SharedStream.Output) direction sequence OUTPUT_EVENT_KIND canonical in
  (block_payload direction sequence length digest (raw previous) head, FixedBytes.new head).

(** [CompletedBlock] and [BlockCollector], the filled slots of its array. *)
Record CompletedBlock := Completed { block_record : list Z; block_head : ChainHead }.
Definition BlockCollector : Type := list CompletedBlock.

Definition collect (self : BlockCollector) (block : CompletedBlock) : res err BlockCollector :=
  if MAX_BLOCKS_PER_SEGMENT <=? zlen self
  then Err (InvalidState "a segment completed more than four canonical blocks") else
  Ok (self ++ [block]).

Definition last_head (self : BlockCollector) : option ChainHead := block_head <$> last self.

(** ** The facts of a file transfer *)

Record FileTransferFacts := Facts {
  transfer_id : Z;
  facts_direction : Z;
  facts_kind : Z;
  declared_size : Z;
  final_size : Z;
  facts_digest : Digest32;
  remote_path : list Z;
  file_name : list Z;
  error_code : Z;
}.

Definition expected_local_file_ambiguity_kind (role : AuditRole.t) (direction : Z) : option Z :=
  match role with
  | AuditRole.Controller =>
    if direction =? FILE_DIRECTION_UPLOAD then Some FILE_LOCAL_KIND_COMMIT_STATUS_UNKNOWN else
    if direction =? FILE_DIRECTION_DOWNLOAD then Some FILE_LOCAL_KIND_COMMITTED_UNCONFIRMED else None
  | AuditRole.Host =>
    if direction =? FILE_DIRECTION_DOWNLOAD then Some FILE_LOCAL_KIND_COMMIT_STATUS_UNKNOWN else
    if direction =? FILE_DIRECTION_UPLOAD then Some FILE_LOCAL_KIND_COMMITTED_UNCONFIRMED else None
  end.

(** [latest_file_event]: what a local observation about a file may refer to. *)
Record LatestFileEvent := LatestFile {
  file_head : ChainHead;
  file_transfer_id : Z;
  file_direction : Z;
  file_kind : Z;
  local_path_recorded : bool;
  ambiguity_recorded : bool;
}.

(** ** Decoders *)

Record DecodedShared := Decoded {
  d_direction : Z;
  d_sequence : Z;
  d_length : Z;
  d_digest : list Z;
  d_previous_head : ChainHead;
  d_new_head : ChainHead;
}.

Definition decode_shared_block (len : Z) (payload : list Z) : res err DecodedShared :=
  if negb (zlen payload =? len) then Err ContainerInvalid else
  direction ← index payload 0;
  sequence ← expect (uint_at 8 payload 1 9);
  length ← expect (uint_at 8 payload 9 17);
  digest ← expect (array_at DIGEST_LEN payload 17 49);
  previous_head ← expect (array_at DIGEST_LEN payload 49 81);
  new_head ← expect (array_at DIGEST_LEN payload 81 113);
  Ok (Decoded direction sequence length digest (FixedBytes.new previous_head)
        (FixedBytes.new new_head)).

(** The two decoders differ in the name of one field only. *)
Definition decode_shared_input : list Z -> res err DecodedShared :=
  decode_shared_block SHARED_INPUT_RECORD_LEN.
Definition decode_shared_output : list Z -> res err DecodedShared :=
  decode_shared_block SHARED_OUTPUT_RECORD_LEN.

Record DecodedSharedControl := DecodedControl {
  c_direction : Z;
  c_sequence : Z;
  c_kind : Z;
  c_control_payload : list Z;
  c_previous_head : ChainHead;
  c_new_head : ChainHead;
}.

Definition decode_shared_control (payload : list Z) : res err DecodedSharedControl :=
  if zlen payload <? 1 + 8 + 1 + 2 * DIGEST_LEN then Err ContainerInvalid else
  let payload_end := zlen payload - 2 * DIGEST_LEN in
  direction ← index payload 0;
  sequence ← expect (uint_at 8 payload 1 9);
  kind ← index payload 9;
  control_payload ← slice payload 10 payload_end;
  previous_head ← expect (array_at DIGEST_LEN payload payload_end (payload_end + DIGEST_LEN));
  new_head ← expect (array_at DIGEST_LEN payload (payload_end + DIGEST_LEN) (zlen payload));
  Ok (DecodedControl direction sequence kind control_payload (FixedBytes.new previous_head)
        (FixedBytes.new new_head)).

Definition read_fixed (n : Z) (bytes : list Z) (cursor : Z) : res err (list Z * Z) :=
  end_ ← ok_or (checked_add_u64 cursor n) ContainerInvalid;
  part ← ok_or (get_range bytes cursor end_) ContainerInvalid;
  array ← expect_some (try_into_array n part);
  Ok (array, end_).

Definition read_u64 (bytes : list Z) (cursor : Z) : res err (Z * Z) :=
  '(fixed, cursor) ← read_fixed 8 bytes cursor; Ok (from_be_bytes fixed, cursor).

Definition read_u16 (bytes : list Z) (cursor : Z) : res err (Z * Z) :=
  '(fixed, cursor) ← read_fixed 2 bytes cursor; Ok (from_be_bytes fixed, cursor).

Definition read_str (bytes : list Z) (cursor : Z) : res err (list Z * Z) :=
  '(len, cursor) ← read_u16 bytes cursor;
  end_ ← ok_or (checked_add_u64 cursor len) ContainerInvalid;
  part ← ok_or (get_range bytes cursor end_) ContainerInvalid;
  text ← ok_or (from_utf8 part) ContainerInvalid;
  Ok (text, end_).

Record DecodedSharedFile := DecodedFile {
  f_direction : Z;
  f_sequence : Z;
  f_kind : Z;
  f_transfer_id : Z;
  f_declared_size : Z;
  f_final_size : Z;
  f_digest : list Z;
  f_remote_path : list Z;
  f_file_name : list Z;
  f_error_code : Z;
  f_previous_head : ChainHead;
  f_new_head : ChainHead;
}.

Definition decode_shared_file (payload : list Z) : res err DecodedSharedFile :=
  direction ← ok_or (head payload) ContainerInvalid;
  '(sequence, cursor) ← read_u64 payload 1;
  kind ← ok_or (payload !! Z.to_nat cursor) ContainerInvalid;
  '(transfer_id, cursor) ← read_u64 payload (cursor + 1);
  '(declared_size, cursor) ← read_u64 payload cursor;
  '(final_size, cursor) ← read_u64 payload cursor;
  '(digest, cursor) ← read_fixed DIGEST_LEN payload cursor;
  '(remote_path, cursor) ← read_str payload cursor;
  '(file_name, cursor) ← read_str payload cursor;
  '(error_code, cursor) ← read_u16 payload cursor;
  '(previous_head, cursor) ← read_fixed DIGEST_LEN payload cursor;
  '(new_head, cursor) ← read_fixed DIGEST_LEN payload cursor;
  if negb (cursor =? zlen payload) then Err ContainerInvalid else
  Ok (DecodedFile direction sequence kind transfer_id declared_size final_size digest remote_path
        file_name error_code (FixedBytes.new previous_head) (FixedBytes.new new_head)).
End Records.
