(* ===== verification/AuditSession.v ===== *)
(** * The audit session

    [AuditSession] of [crates/yon/src/audit/session.rs]: the synchronous state machine each
    endpoint drives.  It exchanges signed hellos and readies, turns what the endpoint observes
    into hash-chained records, exchanges checkpoints and closes with a joint manifest, a seal
    and a ledger commit.  Its fields are grouped as the source's comments group them; the
    traits [PersistentIdentity] and [Ledger] are classes. *)

From stdpp Require Import strings.
From S2P Require Import Prelude Domain Layout WireAudit AuditContainer AuditSigning AuditWriter Stateful AuditEvents.
Open Scope string_scope.
Open Scope list_scope.
Open Scope Z_scope.

(** ** Arrays indexed by the shared stream *)

Record per_stream (A : Type) := PerStream { on_input : A; on_output : A; on_control : A; on_file : A }.
Arguments PerStream {A} _ _ _ _.
Arguments on_input {A} _.
Arguments on_output {A} _.
Arguments on_control {A} _.
Arguments on_file {A} _.

Definition stream_get {A} (p : per_stream A) (stream : SharedStream.t) : A :=
  match stream with
  | SharedStream.Input => on_input p
  | SharedStream.Output => on_output p
  | SharedStream.Control => on_control p
  | SharedStream.FileTransfer => on_file p
  end.

Definition stream_set {A} (stream : SharedStream.t) (a : A) (p : per_stream A) : per_stream A :=
  match stream with
  | SharedStream.Input => PerStream a (on_output p) (on_control p) (on_file p)
  | SharedStream.Output => PerStream (on_input p) a (on_control p) (on_file p)
  | SharedStream.Control => PerStream (on_input p) (on_output p) a (on_file p)
  | SharedStream.FileTransfer => PerStream (on_input p) (on_output p) (on_control p) a
  end.

Definition stream_map {A B} (f : A -> B) (p : per_stream A) : per_stream B :=
  PerStream (f (on_input p)) (f (on_output p)) (f (on_control p)) (f (on_file p)).

Definition stream_list {A} (p : per_stream A) : list A :=
  [on_input p; on_output p; on_control p; on_file p].

Definition all_streams {A} (a : A) : per_stream A := PerStream a a a a.

(** [SharedChain] of the session and [SharedChainState] of the verifier. *)
Record SharedChain := Chain { chain_count : Z; chain_head : ChainHead }.

Definition empty_chain : SharedChain := Chain 0 zero_head.

(** [SharedSnapshot::new(shared.map(|chain| StreamSnapshot::new(chain.count, chain.head)))]. *)
Definition snapshot_of (shared : per_stream SharedChain) : SharedSnapshot.t :=
  SharedSnapshot.new
    (stream_list (stream_map (fun c => StreamSnapshot.new (chain_count c) (chain_head c)) shared)).

(** ** The state *)

Inductive Phase := Fresh | Handshake | Ready | Active | Finalizing | Finished | Failed.

#[export] Instance Phase_eq_dec : EqDecision Phase.
Proof. solve_decision. Defined.

Inductive CheckpointPolicy := Observation | ExactPrefix.

Inductive ConnectionSecret := Authenticated (secret : list Z) | NotExportable.

(** Fixed when the session is created. *)
Record OwnFacts (I : Type) := Own {
  role : AuditRole.t;
  identity : I;
  ledger_sequence : Z;
  ledger_root : LedgerRoot;
  ledger_snapshot_digest : Digest32;
  session_key : list Z;
  session_pubkey : Ed25519PublicKey;
  nonce : AuditNonce;
  contribution : SecretContribution;
  commitment : CommitmentDigest;
  binding : BindingDigest;
  hello : AuditHello.t;
  utc_start_seconds : Z;
}.
Arguments Own {I}.
Arguments role {I} _.
Arguments identity {I} _.
Arguments ledger_sequence {I} _.
Arguments ledger_root {I} _.
Arguments ledger_snapshot_digest {I} _.
Arguments session_key {I} _.
Arguments session_pubkey {I} _.
Arguments nonce {I} _.
Arguments contribution {I} _.
Arguments commitment {I} _.
Arguments binding {I} _.
Arguments hello {I} _.
Arguments utc_start_seconds {I} _.

(** What the handshake establishes. *)
Record PeerFacts := Peer {
  peer_hello : option AuditHello.t;
  peer_contribution : option SecretContribution;
  peer_fingerprint : option IdentityFingerprint;
  session_id : option SessionId;
  input_key : option (list Z);
  ready : option AuditReady.t;
  peer_ready : option AuditReady.t;
  terminal_hello_digest : option Digest32;
}.

Record Chains := Chained {
  shared : per_stream SharedChain;
  local_head : ChainHead;
  local_count : Z;
  input_normalizer : Normalizer.t;
  output_normalizer : Normalizer.t;
  last_block : per_stream (option ChainHead);
  latest_file_event : option LatestFileEvent;
}.

Record Checkpoints := Points {
  next_checkpoint_sequence : Z;
  last_checkpoint_time_ns : Z;
  last_confirmed_sent_checkpoint_sequence : Z;
  last_confirmed_received_checkpoint_sequence : Z;
  last_received_checkpoint : option (Z * Digest32);
  last_sent_checkpoint : option Checkpoint.t;
  checkpoint_shared_bytes : Z;
  checkpoint_due_flag : bool;
}.

Record session (I L : Type) := Session {
  own : OwnFacts I;
  ledger : L;
  peer : PeerFacts;
  chains : Chains;
  points : Checkpoints;
  peer_manifest_received : bool;
  phase : Phase;
}.
Arguments Session {I L}.
Arguments own {I L} _.
Arguments ledger {I L} _.
Arguments peer {I L} _.
Arguments chains {I L} _.
Arguments points {I L} _.
Arguments peer_manifest_received {I L} _.
Arguments phase {I L} _.

Section AuditSession.
Context {IoError : Type} `{AuditCrypto}.
Local Notation err := (AuditError (IoError:=IoError)).

(** The trait [PersistentIdentity]. *)
Class PersistentIdentity (I : Type) := {
  public_key : I -> Ed25519PublicKey;
  fingerprint : I -> IdentityFingerprint;
  sign : I -> list Z -> res err Ed25519Signature;
}.

(** The trait [Ledger]. *)
Class Ledger (L : Type) := {
  snapshot : L -> res err (Z * LedgerRoot);
  begin_commit : L -> res err (Z * LedgerRoot) * L;
  finish_commit : L -> LedgerCommit.t -> res err unit * L;
}.

Context {I L : Type} `{!PersistentIdentity I} `{!Ledger L}.
Local Notation st := (session I L).
Local Notation M := (stm st err).

(** ** Field updates *)

Definition set_phase (p : Phase) (s : st) : st :=
  Session (own s) (ledger s) (peer s) (chains s) (points s) (peer_manifest_received s) p.
Definition set_ledger (l : L) (s : st) : st :=
  Session (own s) l (peer s) (chains s) (points s) (peer_manifest_received s) (phase s).
Definition set_peer (p : PeerFacts) (s : st) : st :=
  Session (own s) (ledger s) p (chains s) (points s) (peer_manifest_received s) (phase s).
Definition set_chains (c : Chains) (s : st) : st :=
  Session (own s) (ledger s) (peer s) c (points s) (peer_manifest_received s) (phase s).
Definition set_points (c : Checkpoints) (s : st) : st :=
  Session (own s) (ledger s) (peer s) (chains s) c (peer_manifest_received s) (phase s).
Definition set_manifest_received (s : st) : st :=
  Session (own s) (ledger s) (peer s) (chains s) (points s) true (phase s).

(** Advances one shared chain: its count and head, and the stream's last block. *)
Definition advance_shared (stream : SharedStream.t) (chain : SharedChain) (c : Chains) : Chains :=
  Chained (stream_set stream chain (shared c)) (local_head c) (local_count c) (input_normalizer c)
    (output_normalizer c) (stream_set stream (Some (chain_head chain)) (last_block c))
    (latest_file_event c).
Definition set_local (head : ChainHead) (count : Z) (c : Chains) : Chains :=
  Chained (shared c) head count (input_normalizer c) (output_normalizer c) (last_block c)
    (latest_file_event c).
Definition set_latest_file (e : option LatestFileEvent) (c : Chains) : Chains :=
  Chained (shared c) (local_head c) (local_count c) (input_normalizer c) (output_normalizer c)
    (last_block c) e.

(** The normalizer of a byte stream. *)
Definition normalizer (stream : SharedStream.t) (c : Chains) : Normalizer.t :=
  match stream with SharedStream.Input => input_normalizer c | _ => output_normalizer c end.
Definition set_normalizer (stream : SharedStream.t) (n : Normalizer.t) (c : Chains) : Chains :=
  match stream with
  | SharedStream.Input =>
    Chained (shared c) (local_head c) (local_count c) n (output_normalizer c) (last_block c)
      (latest_file_event c)
  | _ =>
    Chained (shared c) (local_head c) (local_count c) (input_normalizer c) n (last_block c)
      (latest_file_event c)
  end.

Definition set_shared_bytes (bytes : Z) (due : bool) (p : Checkpoints) : Checkpoints :=
  Points (next_checkpoint_sequence p) (last_checkpoint_time_ns p)
    (last_confirmed_sent_checkpoint_sequence p) (last_confirmed_received_checkpoint_sequence p)
    (last_received_checkpoint p) (last_sent_checkpoint p) bytes due.

(** [self.field.ok_or(AuditError::InvalidState(message))?]. *)
Definition required {A} (field : st -> option A) (message : string) : M A :=
  o ← gets field; lift (ok_or o (InvalidState message)).

Definition sha256_32 (data : list Z) : Digest32 := FixedBytes.new (sha256 data).

(** [message.signing_input().as_slice()] and [message.encode_payload().as_slice()]; the
    encoders of the fixed-size messages return no error. *)
Definition wire {E} (r : res ProtocolError WireBytes.t) : res E (list Z) :=
  expect (WireBytes.as_slice <$> r).

(** [manifest.encode_payload()?.as_slice()]. *)
Definition wire_or_protocol (r : res ProtocolError WireBytes.t) : res err (list Z) :=
  map_err Protocol (WireBytes.as_slice <$> r).

Definition sign_with_session_key (s : st) (input : list Z) : Ed25519Signature :=
  FixedBytes.new (ed_sign (session_key (own s)) input).

Definition verify_signature (public_key : Ed25519PublicKey) (input : list Z)
    (signature : Ed25519Signature) : res err unit :=
  if ed_verify (raw public_key) input (raw signature) then Ok tt else Err PeerSignatureInvalid.

Definition shared_snapshot (s : st) : SharedSnapshot.t := snapshot_of (shared (chains s)).

Definition last_confirmed_checkpoint_sequence (s : st) : Z :=
  let sent := last_confirmed_sent_checkpoint_sequence (points s) in
  let received := last_confirmed_received_checkpoint_sequence (points s) in
  if received <=? sent then sent else received.

Definition is_active (s : st) : bool := bool_decide (phase s = Active).
Definition has_failed (s : st) : bool := bool_decide (phase s = Failed).

Definition require_phase (expected : Phase) : M unit :=
  p ← gets phase;
  if bool_decide (p = Failed) then throw FailedClosed else
  if negb (bool_decide (p = expected))
  then throw (InvalidState "the session is not in the required phase") else mret tt.

Definition require_recordable : M unit :=
  p ← gets phase;
  match p with
  | Active => mret tt
  | Failed => throw FailedClosed
  | Finalizing => throw (InvalidState "recording is closed after direction finalization")
  | _ => throw (InvalidState "the session is not active")
  end.

(** ** The handshake *)

(** Everything of [AuditSession::new] after the random draws. *)
Definition new_from (role : AuditRole.t) (identity : I) (ledger : L) (binding : BindingDigest)
    (utc_start_seconds : Z) (nonce contribution_bytes session_seed : list Z) : res err st :=
  '(ledger_sequence, ledger_root) ← snapshot ledger;
  let ledger_snapshot_digest := sha256_32 (to_be_bytes 8 ledger_sequence ++ raw ledger_root) in
  let commitment : CommitmentDigest := FixedBytes.new (sha256 contribution_bytes) in
  let session_pubkey : Ed25519PublicKey := FixedBytes.new (ed_public session_seed) in
  let hello := AuditHello.new role (public_key identity) session_pubkey (FixedBytes.new nonce)
                 ledger_sequence ledger_root binding AUDIT_FORMAT_VERSION commitment zero_signature in
  input ← wire (AuditHello.signing_input hello);
  signature ← sign identity input;
  let hello := AuditHello.with_signature hello signature in
  Ok (Session
        (Own role identity ledger_sequence ledger_root ledger_snapshot_digest session_seed
           session_pubkey (FixedBytes.new nonce) (FixedBytes.new contribution_bytes) commitment
           binding hello utc_start_seconds)
        ledger
        (Peer None None None None None None None None)
        (Chained (all_streams empty_chain) zero_head 0 Normalizer.new Normalizer.new
           (all_streams None) None)
        (Points 1 0 0 0 None None 0 false)
        false Fresh).

Definition new {R} `{SecureRandom R} (role : AuditRole.t) (identity : I) (ledger : L)
    (binding : BindingDigest) (utc_start_seconds : Z) (random : R) : res err st * R :=
  match try_fill random NONCE_LEN with
  | (None, random) => (Err RandomSource, random)
  | (Some nonce, random) =>
    match try_fill random SECRET_CONTRIBUTION_LEN with
    | (None, random) => (Err RandomSource, random)
    | (Some contribution_bytes, random) =>
      match try_fill random 32 with
      | (None, random) => (Err RandomSource, random)
      | (Some session_seed, random) =>
        (new_from role identity ledger binding utc_start_seconds nonce contribution_bytes
           session_seed, random)
      end
    end
  end.

Definition receive_peer_hello (hello : AuditHello.t) (contribution : SecretContribution) : M unit :=
  _ ← require_phase Fresh;
  own ← gets own;
  if bool_decide (AuditHello.role hello = role own) then throw HandshakeInvalid else
  if negb (bool_decide (AuditHello.connection_binding hello = binding own))
  then throw SessionBindingMismatch else
  if negb (AuditHello.format_version hello =? AUDIT_FORMAT_VERSION) then throw HandshakeInvalid else
  input ← lift (wire (AuditHello.signing_input hello));
  _ ← lift (verify_signature (AuditHello.persistent_audit_key hello) input (AuditHello.signature hello));
  if negb (bool_decide (FixedBytes.new (sha256 (raw contribution)) = AuditHello.input_commitment hello))
  then throw HandshakeInvalid else
  _ ← modify (fun s => set_peer (Peer (Some hello) (Some contribution)
         (Some (FixedBytes.new (sha256 (raw (AuditHello.persistent_audit_key hello)))))
         (session_id (peer s)) (input_key (peer s)) (ready (peer s)) (peer_ready (peer s))
         (terminal_hello_digest (peer s))) s);
  modify (set_phase Handshake).

(** [(controller's, host's)], from this side's and the peer's. *)
Definition by_role {A} (role : AuditRole.t) (mine theirs : A) : A * A :=
  match role with
  | AuditRole.Controller => (mine, theirs)
  | AuditRole.Host => (theirs, mine)
  end.

Definition controller_contribution (s : st) : res err SecretContribution :=
  match role (own s) with
  | AuditRole.Controller => Ok (contribution (own s))
  | AuditRole.Host => expect_some (peer_contribution (peer s))
  end.

Definition host_contribution (s : st) : res err SecretContribution :=
  match role (own s) with
  | AuditRole.Controller => expect_some (peer_contribution (peer s))
  | AuditRole.Host => Ok (contribution (own s))
  end.

Definition controller_nonce (s : st) : res err AuditNonce :=
  match role (own s) with
  | AuditRole.Controller => Ok (nonce (own s))
  | AuditRole.Host => AuditHello.nonce <$> expect_some (peer_hello (peer s))
  end.

Definition host_nonce (s : st) : res err AuditNonce :=
  match role (own s) with
  | AuditRole.Controller => AuditHello.nonce <$> expect_some (peer_hello (peer s))
  | AuditRole.Host => Ok (nonce (own s))
  end.

Definition compute_session_id (s : st) : res err SessionId :=
  peer ← expect_some (peer_hello (peer s));
  let me := own s in
  let '(controller_identity, host_identity) :=
    by_role (role me) (public_key (identity me)) (AuditHello.persistent_audit_key peer) in
  let '(controller_key, host_key) := by_role (role me) (session_pubkey me) (AuditHello.session_key peer) in
  let '(controller_commitment, host_commitment) :=
    by_role (role me) (commitment me) (AuditHello.input_commitment peer) in
  controller_nonce ← controller_nonce s;
  host_nonce ← host_nonce s;
  Ok (FixedBytes.new (sha256 (SESSION_ID_LABEL ++ raw (binding me)
        ++ raw controller_nonce ++ raw host_nonce ++ raw controller_identity ++ raw host_identity
        ++ raw controller_key ++ raw host_key ++ raw controller_commitment ++ raw host_commitment))).

Definition derive_input_commitment_key (secret : ConnectionSecret)
    (controller_contribution host_contribution : SecretContribution) (binding : BindingDigest)
    (controller_nonce host_nonce : AuditNonce) (session_id : SessionId) : list Z :=
  let salt := raw controller_contribution ++ raw host_contribution in
  match secret with
  | Authenticated connection_secret =>
    hkdf_sha256 (Some salt) connection_secret [INPUT_COMMITMENT_LABEL; raw session_id]
  | NotExportable =>
    hkdf_sha256 None salt [INPUT_COMMITMENT_LABEL; raw binding; raw controller_nonce;
                           raw host_nonce; raw session_id]
  end.

Definition compute_ready (connection_secret : ConnectionSecret) : M AuditReady.t :=
  _ ← require_phase Handshake;
  peer_hello ← required (fun s => peer_hello (peer s)) "peer hello not received";
  s ← gets id;
  session_id ← lift (compute_session_id s);
  controller_contribution ← lift (controller_contribution s);
  host_contribution ← lift (host_contribution s);
  controller_nonce ← lift (controller_nonce s);
  host_nonce ← lift (host_nonce s);
  let key := derive_input_commitment_key connection_secret controller_contribution
               host_contribution (binding (own s)) controller_nonce host_nonce session_id in
  encoded ← lift (wire (AuditHello.encode_payload peer_hello));
  let ready := AuditReady.new session_id (sha256_32 encoded) AUDIT_FORMAT_VERSION zero_signature in
  input ← lift (wire (AuditReady.signing_input ready));
  let ready := AuditReady.with_signature ready (sign_with_session_key s input) in
  _ ← modify (fun s => set_peer (Peer (AuditSession.peer_hello (peer s)) (peer_contribution (peer s))
         (peer_fingerprint (peer s)) (Some session_id) (Some key) (Some ready) (peer_ready (peer s))
         (terminal_hello_digest (peer s))) s);
  _ ← modify (set_phase Ready);
  mret ready.

Definition build_header (ready : AuditReady.t) (terminal_hello_digest : Digest32)
  : M AuditContainerHeader.t :=
  _ ← require_phase Ready;
  session_id ← required (fun s => session_id (peer s)) "session ID not computed";
  peer_hello ← required (fun s => peer_hello (peer s)) "peer hello not received";
  me ← gets own;
  let header := AuditContainerHeader.new (role me) session_id (public_key (identity me))
                  (session_pubkey me) (AuditHello.persistent_audit_key peer_hello)
                  (AuditHello.session_key peer_hello) (ledger_sequence me) (ledger_root me)
                  (utc_start_seconds me) AuthMode.Enterprise terminal_hello_digest (hello me) ready in
  input ← lift (wire (AuditContainerHeader.signing_input header));
  signature ← lift (sign (identity me) input);
  _ ← modify (fun s => set_peer (Peer (AuditSession.peer_hello (peer s)) (peer_contribution (peer s))
         (peer_fingerprint (peer s)) (AuditSession.session_id (peer s)) (input_key (peer s))
         (AuditSession.ready (peer s)) (peer_ready (peer s)) (Some terminal_hello_digest)) s);
  mret (AuditContainerHeader.with_header_signature header signature).

Definition receive_peer_ready (ready : AuditReady.t) : M unit :=
  _ ← require_phase Ready;
  session_id ← required (fun s => session_id (peer s)) "session ID not computed";
  if negb (bool_decide (AuditReady.session_id ready = session_id))
  then throw HandshakeInvalid else
  me ← gets own;
  encoded ← lift (wire (AuditHello.encode_payload (hello me)));
  if negb (bool_decide (AuditReady.peer_audit_hello_digest ready = sha256_32 encoded))
  then throw HandshakeInvalid else
  if negb (AuditReady.format_version ready =? AUDIT_FORMAT_VERSION) then throw HandshakeInvalid else
  peer_hello ← required (fun s => peer_hello (peer s)) "peer hello not received";
  input ← lift (wire (AuditReady.signing_input ready));
  _ ← lift (verify_signature (AuditHello.session_key peer_hello) input (AuditReady.signature ready));
  _ ← modify (fun s => set_peer (Peer (AuditSession.peer_hello (peer s)) (peer_contribution (peer s))
         (peer_fingerprint (peer s)) (AuditSession.session_id (peer s)) (input_key (peer s))
         (AuditSession.ready (peer s)) (Some ready) (terminal_hello_digest (peer s))) s);
  modify (set_phase Active).

(** ** Local records *)

Definition local_prefix (now_ns : Z) (related : ChainHead) : list Z :=
  to_be_bytes 8 now_ns ++ raw related.

Definition commit_local (record_type : RecordType.t) (kind_payload : list Z) (related : ChainHead)
    (now_ns : Z) : M unit :=
  c ← gets chains;
  sequence ← lift (add_u64 (local_count c) 1);
  let head := local_event_hash (raw (local_head c)) sequence now_ns (RecordType.code record_type)
                kind_payload (raw related) in
  modify (set_chains (set_local (FixedBytes.new head) sequence c)).

Definition push_local (batch : RecordBatch) (record_type : RecordType.t) (kind_payload : list Z)
    (related : ChainHead) (now_ns : Z) : M RecordBatch :=
  let payload := local_prefix now_ns related ++ kind_payload in
  batch ← lift (if SPLIT_PREFIX_LEN + zlen kind_payload <=? MAX_INLINE_PAYLOAD_LEN
                then push_inline batch record_type payload
                else push_boxed batch record_type payload);
  _ ← commit_local record_type kind_payload related now_ns;
  mret batch.

Definition record_local_only (record_type : RecordType.t) (kind_payload : list Z)
    (related : ChainHead) (now_ns : Z) : M RecordBatch :=
  _ ← require_recordable;
  push_local [] record_type kind_payload related now_ns.

(** The buffer holds five bytes of envelope and at most 911 of evidence; a longer one panics. *)
Definition push_evidence (batch : RecordBatch) (evidence_kind : Z) (evidence_payload : list Z)
    (now_ns : Z) : M RecordBatch :=
  if 2 ^ 32 - 1 <? zlen evidence_payload
  then throw (InvalidState "evidence payload exceeds the length bound") else
  cur ← lift (append (start (1 + 4 + 911)) [evidence_kind]);
  cur ← lift (write_u32 cur (as_u32 (zlen evidence_payload)));
  cur ← lift (append cur evidence_payload);
  kind_payload ← lift (slice cur.1 0 cur.2);
  push_local batch RecordType.CheckpointEvidence kind_payload zero_head now_ns.

(** ** Recording *)

(** The closure given to the normalizer: chains one canonical block and collects its record.
    [build sequence length block previous] is [build_input_block] or [build_output_block]. *)
Definition on_block (stream : SharedStream.t)
    (build : Z -> Z -> list Z -> ChainHead -> list Z * ChainHead) (block : list Z)
  : stm (st * BlockCollector) err unit :=
  let length := zlen block in
  '(s, completed) ← gets id;
  let chain := stream_get (shared (chains s)) stream in
  sequence ← lift (add_u64 (chain_count chain) 1);
  let '(payload, head) := build sequence length block (chain_head chain) in
  bytes ← lift (add_u64 (checkpoint_shared_bytes (points s)) length);
  let due := checkpoint_due_flag (points s) || (CHECKPOINT_SIZE_TRIGGER <=? bytes) in
  completed ← lift (expect (collect (IoError:=IoError) completed (Completed payload head)));
  modify (fun _ =>
    (set_points (set_shared_bytes bytes due (points s))
       (set_chains (advance_shared stream (Chain sequence head) (chains s)) s), completed)).

Definition input_block (key : list Z) (sequence length : Z) (block : list Z) (previous : ChainHead)
  : list Z * ChainHead :=
  build_input_block key DIRECTION_CTRL_TO_HOST sequence length block previous.

Definition output_block (sequence length : Z) (block : list Z) (previous : ChainHead)
  : list Z * ChainHead :=
  build_output_block DIRECTION_HOST_TO_CTRL sequence length (sha256 block) previous.

(** Runs a method of the stream's normalizer with that closure, from an empty collector. *)
Definition with_normalizer (stream : SharedStream.t)
    (build : Z -> Z -> list Z -> ChainHead -> list Z * ChainHead)
    (run : (list Z -> stm (st * BlockCollector) err unit) -> Normalizer.t ->
           stm (st * BlockCollector) err Normalizer.t) : M BlockCollector := fun s =>
  match run (on_block stream build) (normalizer stream (chains s)) (s, []) with
  | (Ok n, (s', completed)) => (Ok completed, set_chains (set_normalizer stream n (chains s')) s')
  | (Err e, (s', _)) => (Err e, s')
  | (Panic, (s', _)) => (Panic, s')
  end.

Fixpoint push_blocks (batch : RecordBatch) (record_type : RecordType.t) (completed : BlockCollector)
  : res err RecordBatch :=
  match completed with
  | [] => Ok batch
  | block :: completed =>
    batch ← push_inline batch record_type (block_record block);
    push_blocks batch record_type completed
  end.

Definition record_input (bytes : list Z) (now_ns : Z) : M RecordBatch :=
  _ ← require_recordable;
  if MAX_INPUT_SEGMENT <? zlen bytes then throw SegmentTooLarge else
  if zlen bytes =? 0 then mret [] else
  key ← required (fun s => input_key (peer s)) "input commitment key not derived";
  completed ← with_normalizer SharedStream.Input (input_block key)
                (fun on_block n => Normalizer.feed on_block n bytes);
  let related := default zero_head (last_head completed) in
  let kind_payload := [DIRECTION_CTRL_TO_HOST] ++ to_be_bytes 8 (zlen bytes) in
  batch ← push_local [] RecordType.LocalInputCommitment kind_payload related now_ns;
  lift (push_blocks batch RecordType.SharedInputCommitment completed).

Definition record_output_step (bytes : list Z) (now_ns : Z) (display : option (list Z))
  : M RecordBatch :=
  _ ← require_recordable;
  if (MAX_LOCAL_OUTPUT_SEGMENT <? zlen bytes)
     || match display with Some d => MAX_LOCAL_OUTPUT_SEGMENT <? zlen d | None => false end
  then throw SegmentTooLarge else
  completed ← with_normalizer SharedStream.Output output_block
                (fun on_block n => Normalizer.feed on_block n bytes);
  let related := default zero_head (last_head completed) in
  _ ← commit_local RecordType.LocalRawOutput bytes related now_ns;
  let prefix := local_prefix now_ns related in
  batch ← lift (push_split [] RecordType.LocalRawOutput prefix bytes);
  batch ← lift (push_blocks batch RecordType.SharedOutputBlock completed);
  match display with
  | Some display =>
    _ ← commit_local RecordType.LocalDisplayBytes display related now_ns;
    lift (push_split batch RecordType.LocalDisplayBytes prefix display)
  | None => mret batch
  end.

Definition record_output (bytes : list Z) (now_ns : Z) : M RecordBatch :=
  record_output_step bytes now_ns None.

Definition record_controller_output (raw_bytes display : list Z) (now_ns : Z) : M RecordBatch :=
  record_output_step raw_bytes now_ns (Some display).

(** [self.last_block[stream.index()].unwrap_or(zero_head())]. *)
Definition last_block_or_zero (stream : SharedStream.t) (s : st) : ChainHead :=
  default zero_head (stream_get (last_block (chains s)) stream).

Definition record_display_bytes (display : list Z) (now_ns : Z) : M RecordBatch :=
  _ ← require_recordable;
  if MAX_LOCAL_OUTPUT_SEGMENT <? zlen display then throw SegmentTooLarge else
  related ← gets (last_block_or_zero SharedStream.Output);
  _ ← commit_local RecordType.LocalDisplayBytes display related now_ns;
  lift (push_split [] RecordType.LocalDisplayBytes (local_prefix now_ns related) display).

Definition related_for_direction (direction : Z) (s : st) : ChainHead :=
  last_block_or_zero
    (if direction =? DIRECTION_CTRL_TO_HOST then SharedStream.Input else SharedStream.Output) s.

Definition record_send_outcome (direction : Z) (confirmed : bool) (bytes now_ns : Z) : M RecordBatch :=
  let kind_payload := [direction] ++ [outcome_code confirmed] ++ to_be_bytes 8 bytes in
  related ← gets (related_for_direction direction);
  record_local_only RecordType.LocalSendOutcome kind_payload related now_ns.

Definition record_pty_write_outcome (confirmed : bool) (bytes now_ns : Z) : M RecordBatch :=
  related ← gets (last_block_or_zero SharedStream.Input);
  record_local_only RecordType.LocalPtyWriteOutcome
    ([outcome_code confirmed] ++ to_be_bytes 8 bytes) related now_ns.

Definition record_display_write_outcome (confirmed : bool) (bytes now_ns : Z) : M RecordBatch :=
  related ← gets (last_block_or_zero SharedStream.Output);
  record_local_only RecordType.LocalDisplayWriteOutcome
    ([outcome_code confirmed] ++ to_be_bytes 8 bytes) related now_ns.

(** The hash covers the fixed buffer from the event kind to its end, so the control payload
    with the zeroes behind it. *)
Definition commit_shared_control (batch : RecordBatch) (direction control_kind : Z)
    (control_payload : list Z) : M (ChainHead * RecordBatch) :=
  s ← gets id;
  let chain := stream_get (shared (chains s)) SharedStream.Control in
  sequence ← lift (add_u64 (chain_count chain) 1);
  let previous := chain_head chain in
  let canonical_len := 1 + zlen control_payload in
  let payload_len := 1 + 8 + canonical_len + 2 * DIGEST_LEN in
  cur ← lift (append (start (1 + 8 + 1 + 32 + 2 * DIGEST_LEN)) [direction]);
  cur ← lift (write_u64 cur sequence);
  let canonical_start := cur.2 in
  cur ← lift (append cur [control_kind]);
  cur ← lift (append cur control_payload);
  canonical ← lift (slice cur.1 canonical_start (zlen cur.1));
  let head : ChainHead :=
    FixedBytes.new (shared_event_hash CHAIN_CONTROL_DOMAIN (raw previous)
                      (SharedStream.index SharedStream.Control) direction sequence control_kind
                      canonical) in
  cur ← lift (append cur (raw previous));
  cur ← lift (append cur (raw head));
  _ ← lift (assert_or_panic (payload_len =? cur.2));
  bytes ← lift (add_u64 (checkpoint_shared_bytes (points s)) payload_len);
  let due := checkpoint_due_flag (points s) || (CHECKPOINT_SIZE_TRIGGER <=? bytes) in
  _ ← modify (fun s => set_points (set_shared_bytes bytes due (points s))
                (set_chains (advance_shared SharedStream.Control (Chain sequence head) (chains s)) s));
  record ← lift (slice cur.1 0 cur.2);
  batch ← lift (push_inline batch RecordType.SharedControlEvent record);
  mret (head, batch).

Definition record_resize (direction cols rows now_ns : Z) : M RecordBatch :=
  _ ← require_recordable;
  '(shared_head, batch) ← commit_shared_control [] direction CONTROL_KIND_RESIZE
                            (to_be_bytes 2 cols ++ to_be_bytes 2 rows);
  push_local batch RecordType.LocalResizeEvent
    ([direction] ++ to_be_bytes 2 cols ++ to_be_bytes 2 rows) shared_head now_ns.

Definition record_control_lifecycle (control_kind lifecycle_kind direction : Z)
    (control_payload : list Z) (now_ns : Z) : M RecordBatch :=
  _ ← require_recordable;
  '(shared_head, batch) ← commit_shared_control [] direction control_kind control_payload;
  push_local batch RecordType.LocalLifecycleEvent [lifecycle_kind] shared_head now_ns.

Definition record_terminal_hello (digest : Digest32) (now_ns : Z) : M RecordBatch :=
  record_control_lifecycle CONTROL_KIND_TERMINAL_HELLO LIFECYCLE_KIND_TERMINAL_HELLO
    DIRECTION_CTRL_TO_HOST (raw digest) now_ns.

Definition record_terminal_ready (now_ns : Z) : M RecordBatch :=
  record_control_lifecycle CONTROL_KIND_TERMINAL_READY LIFECYCLE_KIND_TERMINAL_READY
    DIRECTION_HOST_TO_CTRL [] now_ns.

Definition record_terminal_exit (exit_code now_ns : Z) : M RecordBatch :=
  record_control_lifecycle CONTROL_KIND_TERMINAL_EXIT LIFECYCLE_KIND_TERMINAL_EXIT
    DIRECTION_HOST_TO_CTRL (to_be_bytes 4 exit_code) now_ns.

Definition record_terminal_complete (now_ns : Z) : M RecordBatch :=
  record_control_lifecycle CONTROL_KIND_TERMINAL_COMPLETE LIFECYCLE_KIND_TERMINAL_COMPLETE
    DIRECTION_CTRL_TO_HOST [] now_ns.

Definition record_shared_close_reason (direction : Z) (reason : AuditCloseReason.t) (now_ns : Z)
  : M RecordBatch :=
  _ ← require_recordable;
  '(shared_head, batch) ← commit_shared_control [] direction CONTROL_KIND_CLOSE_REASON
                            [AuditCloseReason.code reason];
  push_local batch RecordType.LocalCloseEvent
    ([AuditCloseReason.code reason] ++ [OUTCOME_CONFIRMED]) shared_head now_ns.

Definition record_local_lifecycle (kind : Z) (related : ChainHead) (now_ns : Z) : M RecordBatch :=
  record_local_only RecordType.LocalLifecycleEvent [kind] related now_ns.

Definition record_key_action (action now_ns : Z) : M RecordBatch :=
  record_local_only RecordType.LocalKeyAction [action] zero_head now_ns.

Definition record_connection_state (state now_ns : Z) : M RecordBatch :=
  record_local_only RecordType.LocalConnectionState [state] zero_head now_ns.

Definition record_local_audit_error (code : AuditErrorCode.t) (now_ns : Z) : M RecordBatch :=
  record_local_only RecordType.LocalAuditError (to_be_bytes 2 (AuditErrorCode.code code))
    zero_head now_ns.

(** ** File transfers *)

Definition is_file_direction (direction : Z) : bool :=
  (direction =? FILE_DIRECTION_UPLOAD) || (direction =? FILE_DIRECTION_DOWNLOAD).

Definition is_file_kind (kind : Z) : bool :=
  (kind =? FILE_KIND_START) || (kind =? FILE_KIND_SUCCESS)
  || (kind =? FILE_KIND_CANCELLED) || (kind =? FILE_KIND_FAILED).

Definition path_too_long (local_path : option (list Z)) : bool :=
  match local_path with Some path => MAX_LOCAL_PATH_LEN <? zlen path | None => false end.

(** The kind-specific payload of a local record that names a local path. *)
Definition local_path_payload (kind transfer_id : Z) (local_path : list Z) : list Z :=
  [kind] ++ to_be_bytes 8 transfer_id ++ to_be_bytes 2 (as_u16 (zlen local_path)) ++ local_path.

(** The hash covers the record from the event kind to its end, where the two chain heads are
    still zero. *)
Definition record_file_transfer (facts : FileTransferFacts) (local_path : option (list Z))
    (now_ns : Z) : M RecordBatch :=
  _ ← require_recordable;
  if negb (is_file_direction (facts_direction facts)) || negb (is_file_kind (facts_kind facts))
  then throw (InvalidState "the shared file transfer event is invalid") else
  if MAX_PROTOCOL_PATH_LEN <? zlen (remote_path facts) then throw SegmentTooLarge else
  if MAX_PROTOCOL_FILE_NAME_LEN <? zlen (file_name facts) then throw SegmentTooLarge else
  if path_too_long local_path then throw SegmentTooLarge else
  s ← gets id;
  let stream := SharedStream.FileTransfer in
  let chain := stream_get (shared (chains s)) stream in
  sequence ← lift (add_u64 (chain_count chain) 1);
  let previous := chain_head chain in
  let canonical_len := 1 + 8 + 8 + 8 + DIGEST_LEN + 2 + zlen (remote_path facts)
                         + 2 + zlen (file_name facts) + 2 in
  let payload_len := 1 + 8 + canonical_len + 2 * DIGEST_LEN in
  cur ← lift (append (start payload_len) [facts_direction facts]);
  cur ← lift (write_u64 cur sequence);
  let canonical_start := cur.2 in
  cur ← lift (append cur [facts_kind facts]);
  cur ← lift (write_u64 cur (transfer_id facts));
  cur ← lift (write_u64 cur (declared_size facts));
  cur ← lift (write_u64 cur (final_size facts));
  cur ← lift (append cur (raw (facts_digest facts)));
  cur ← lift (write_u16 cur (as_u16 (zlen (remote_path facts))));
  cur ← lift (append cur (remote_path facts));
  cur ← lift (write_u16 cur (as_u16 (zlen (file_name facts))));
  cur ← lift (append cur (file_name facts));
  cur ← lift (write_u16 cur (error_code facts));
  canonical ← lift (slice cur.1 canonical_start (zlen cur.1));
  let head : ChainHead :=
    FixedBytes.new (shared_event_hash CHAIN_FILE_DOMAIN (raw previous) (SharedStream.index stream)
                      (facts_direction facts) sequence (facts_kind facts) canonical) in
  cur ← lift (append cur (raw previous));
  cur ← lift (append cur (raw head));
  _ ← lift (assert_or_panic (payload_len =? cur.2));
  batch ← lift (push_boxed [] RecordType.SharedFileTransferEvent cur.1);
  batch ← match local_path with
          | Some local_path =>
            push_local batch RecordType.LocalFileTransferEvent
              (local_path_payload (facts_kind facts) (transfer_id facts) local_path) head now_ns
          | None => mret batch
          end;
  let latest := LatestFile head (transfer_id facts) (facts_direction facts) (facts_kind facts)
                  (match local_path with Some _ => true | None => false end) false in
  bytes ← lift (add_u64 (checkpoint_shared_bytes (points s)) payload_len);
  _ ← modify (fun s => set_points (set_shared_bytes bytes true (points s))
                (set_chains (set_latest_file (Some latest)
                   (advance_shared stream (Chain sequence head) (chains s))) s));
  mret batch.

Definition is_ambiguity_kind (kind : Z) : bool :=
  (kind =? FILE_LOCAL_KIND_COMMITTED_UNCONFIRMED) || (kind =? FILE_LOCAL_KIND_COMMIT_STATUS_UNKNOWN).

(** The zeroed buffer ends with the length of an empty path. *)
Definition ambiguity_payload (kind transfer_id final_size : Z) (digest : Digest32) : list Z :=
  [kind] ++ to_be_bytes 8 transfer_id ++ to_be_bytes 8 final_size ++ raw digest ++ zeros 2.

Definition record_local_file_transfer_result (kind transfer_id final_size : Z) (digest : Digest32)
    (local_path : option (list Z)) (now_ns : Z) : M RecordBatch :=
  _ ← require_recordable;
  if negb (is_ambiguity_kind kind)
  then throw (InvalidState "the local file transfer result kind is invalid") else
  if path_too_long local_path then throw SegmentTooLarge else
  latest ← required (fun s => latest_file_event (chains s))
             "a local file result requires a shared transfer start";
  role ← gets (fun s => role (own s));
  if negb (file_kind latest =? FILE_KIND_START)
     || negb (file_transfer_id latest =? transfer_id)
     || ambiguity_recorded latest
     || negb (bool_decide (expected_local_file_ambiguity_kind role (file_direction latest) = Some kind))
  then throw (InvalidState "the local file transfer result does not match the active transfer") else
  let payload := ambiguity_payload kind transfer_id final_size digest in
  let record_path := match local_path with Some _ => negb (local_path_recorded latest) | None => false end in
  batch ← match local_path with
          | Some local_path =>
            if record_path then
              push_local [] RecordType.LocalFileTransferEvent
                (local_path_payload FILE_KIND_START transfer_id local_path) (file_head latest) now_ns
            else mret []
          | None => mret []
          end;
  batch ← push_local batch RecordType.LocalFileTransferEvent payload (file_head latest) now_ns;
  let latest := LatestFile (file_head latest) (file_transfer_id latest) (file_direction latest)
                  (file_kind latest) (local_path_recorded latest || record_path) true in
  _ ← modify (fun s => set_points (set_shared_bytes (checkpoint_shared_bytes (points s)) true (points s))
                (set_chains (set_latest_file (Some latest) (chains s)) s));
  mret batch.

(** ** Checkpoints *)

Definition checkpoint_due (now_ns : Z) (s : st) : bool :=
  checkpoint_due_flag (points s)
  || (CHECKPOINT_INTERVAL_NS <=? Z.max 0 (now_ns - last_checkpoint_time_ns (points s))).

Definition wrapping_next (sequence : Z) : Z := as_u64 (sequence + 1).

Definition build_checkpoint_with_policy (now_ns : Z) (policy : CheckpointPolicy)
  : M (Checkpoint.t * RecordBatch) :=
  _ ← match policy with
      | Observation => require_recordable
      | ExactPrefix => require_phase Finalizing
      end;
  session_id ← required (fun s => session_id (peer s)) "session ID not computed";
  s ← gets id;
  let sequence := next_checkpoint_sequence (points s) in
  let checkpoint := Checkpoint.new session_id sequence (shared_snapshot s) (local_head (chains s))
                      (ledger_snapshot_digest (own s)) zero_signature in
  input ← lift (wire (Checkpoint.signing_input checkpoint));
  let checkpoint := Checkpoint.with_signature checkpoint (sign_with_session_key s input) in
  encoded ← lift (wire (Checkpoint.encode_payload checkpoint));
  batch ← push_evidence [] EVIDENCE_SENT_CHECKPOINT encoded now_ns;
  _ ← modify (fun s =>
        let p := points s in
        set_points (Points (wrapping_next sequence) now_ns
          (last_confirmed_sent_checkpoint_sequence p) (last_confirmed_received_checkpoint_sequence p)
          (last_received_checkpoint p) (Some checkpoint) 0 false) s);
  mret (checkpoint, batch).

Definition build_checkpoint (now_ns : Z) : M (Checkpoint.t * RecordBatch) :=
  build_checkpoint_with_policy now_ns Observation.
Definition build_final_checkpoint (now_ns : Z) : M (Checkpoint.t * RecordBatch) :=
  build_checkpoint_with_policy now_ns ExactPrefix.

Definition fail_checkpoint {A} : M A :=
  _ ← modify (set_phase Failed);
  throw CheckpointMismatch.

Definition build_ack (checkpoint : Checkpoint.t) (digest : Digest32) : M CheckpointAck.t :=
  s ← gets id;
  session_id ← lift (expect_some (session_id (peer s)));
  let ack := CheckpointAck.new session_id (Checkpoint.sequence checkpoint) digest
               (Checkpoint.snapshot checkpoint) zero_signature in
  input ← lift (wire (CheckpointAck.signing_input ack));
  mret (CheckpointAck.with_signature ack (sign_with_session_key s input)).

Definition receive_checkpoint_with_policy (checkpoint : Checkpoint.t) (now_ns : Z)
    (policy : CheckpointPolicy) : M (CheckpointAck.t * RecordBatch) :=
  _ ← match policy with
      | Observation =>
        p ← gets phase;
        match p with
        | Active | Finalizing => mret tt
        | _ => throw (InvalidState "checkpoint observation outside an active session")
        end
      | ExactPrefix => require_phase Finalizing
      end;
  session_id ← required (fun s => session_id (peer s)) "session ID not computed";
  if negb (bool_decide (Checkpoint.session_id checkpoint = session_id)) then fail_checkpoint else
  peer_hello ← required (fun s => peer_hello (peer s)) "peer hello not received";
  input ← lift (wire (Checkpoint.signing_input checkpoint));
  if negb (is_ok (verify_signature (AuditHello.session_key peer_hello) input
                    (Checkpoint.signature checkpoint))) then fail_checkpoint else
  s ← gets id;
  if match policy with
     | ExactPrefix => negb (bool_decide (Checkpoint.snapshot checkpoint = shared_snapshot s))
     | Observation => false
     end then fail_checkpoint else
  encoded ← lift (wire (Checkpoint.encode_payload checkpoint));
  let digest := sha256_32 encoded in
  let expected := wrapping_next (default 0 (fst <$> last_received_checkpoint (points s))) in
  if negb (Checkpoint.sequence checkpoint =? expected) then
    if bool_decide (last_received_checkpoint (points s) = Some (Checkpoint.sequence checkpoint, digest))
    then ack ← build_ack checkpoint digest; mret (ack, [])
    else fail_checkpoint
  else
  _ ← modify (fun s =>
        let p := points s in
        set_points (Points (next_checkpoint_sequence p) (last_checkpoint_time_ns p)
          (last_confirmed_sent_checkpoint_sequence p) (Checkpoint.sequence checkpoint)
          (Some (Checkpoint.sequence checkpoint, digest)) (last_sent_checkpoint p)
          (checkpoint_shared_bytes p) (checkpoint_due_flag p)) s);
  batch ← push_evidence [] EVIDENCE_RECEIVED_CHECKPOINT encoded now_ns;
  ack ← build_ack checkpoint digest;
  ack_bytes ← lift (wire (CheckpointAck.encode_payload ack));
  batch ← push_evidence batch EVIDENCE_SENT_CHECKPOINT_ACK ack_bytes now_ns;
  mret (ack, batch).

Definition receive_checkpoint (checkpoint : Checkpoint.t) (now_ns : Z)
  : M (CheckpointAck.t * RecordBatch) :=
  receive_checkpoint_with_policy checkpoint now_ns Observation.
Definition receive_final_checkpoint (checkpoint : Checkpoint.t) (now_ns : Z)
  : M (CheckpointAck.t * RecordBatch) :=
  receive_checkpoint_with_policy checkpoint now_ns ExactPrefix.

Definition receive_checkpoint_ack (ack : CheckpointAck.t) (now_ns : Z) : M (option RecordBatch) :=
  p ← gets phase;
  _ ← match p with
      | Active | Finalizing => mret tt
      | Failed => throw FailedClosed
      | _ => throw (InvalidState "checkpoint acknowledgment outside an active session")
      end;
  session_id ← required (fun s => session_id (peer s)) "session ID not computed";
  if negb (bool_decide (CheckpointAck.session_id ack = session_id)) then fail_checkpoint else
  sent ← required (fun s => last_sent_checkpoint (points s)) "no checkpoint awaiting confirmation";
  if negb (CheckpointAck.sequence ack =? Checkpoint.sequence sent) then fail_checkpoint else
  encoded ← lift (wire (Checkpoint.encode_payload sent));
  if negb (bool_decide (CheckpointAck.checkpoint_digest ack = sha256_32 encoded))
     || negb (bool_decide (CheckpointAck.snapshot ack = Checkpoint.snapshot sent))
  then fail_checkpoint else
  peer_hello ← required (fun s => peer_hello (peer s)) "peer hello not received";
  input ← lift (wire (CheckpointAck.signing_input ack));
  if negb (is_ok (verify_signature (AuditHello.session_key peer_hello) input
                    (CheckpointAck.signature ack))) then fail_checkpoint else
  s ← gets id;
  if CheckpointAck.sequence ack <=? last_confirmed_sent_checkpoint_sequence (points s)
  then mret None else
  _ ← modify (fun s =>
        let p := points s in
        set_points (Points (next_checkpoint_sequence p) (last_checkpoint_time_ns p)
          (CheckpointAck.sequence ack) (last_confirmed_received_checkpoint_sequence p)
          (last_received_checkpoint p) (last_sent_checkpoint p)
          (checkpoint_shared_bytes p) (checkpoint_due_flag p)) s);
  ack_bytes ← lift (wire (CheckpointAck.encode_payload ack));
  batch ← push_evidence [] EVIDENCE_RECEIVED_CHECKPOINT_ACK ack_bytes now_ns;
  mret (Some batch).

(** ** Finalization *)

Definition close_direction (stream : SharedStream.t) (record_type : RecordType.t)
    (build : Z -> Z -> list Z -> ChainHead -> list Z * ChainHead) (batch : RecordBatch)
  : M RecordBatch :=
  completed ← with_normalizer stream build
                (fun on_block n => '(_, n) ← Normalizer.finish on_block n; mret n);
  lift (push_blocks batch record_type completed).

Definition close_directions : M RecordBatch :=
  _ ← require_recordable;
  key ← required (fun s => input_key (peer s)) "input commitment key not derived";
  batch ← close_direction SharedStream.Input RecordType.SharedInputCommitment (input_block key) [];
  batch ← close_direction SharedStream.Output RecordType.SharedOutputBlock output_block batch;
  _ ← modify (set_phase Finalizing);
  mret batch.

Definition build_manifest (ending : ManifestEnding.t) (ended_normally : bool) (now_ns : Z)
  : M (JointManifest.t * ManifestSignature.t * RecordBatch) :=
  _ ← require_phase Finalizing;
  session_id ← required (fun s => session_id (peer s)) "session ID not computed";
  peer_hello ← required (fun s => peer_hello (peer s)) "peer hello not received";
  terminal_hello_digest ← required (fun s => terminal_hello_digest (peer s))
                            "terminal hello digest not recorded";
  peer_fingerprint ← required (fun s => peer_fingerprint (peer s)) "peer fingerprint missing";
  s ← gets id;
  let me := own s in
  let '(controller_fingerprint, host_fingerprint) :=
    by_role (role me) (fingerprint (identity me)) peer_fingerprint in
  let '(controller_key, host_key) :=
    by_role (role me) (session_pubkey me) (AuditHello.session_key peer_hello) in
  let manifest := JointManifest.new AUDIT_FORMAT_VERSION session_id controller_fingerprint
                    host_fingerprint controller_key host_key (binding me) terminal_hello_digest
                    (shared_snapshot s) ending ended_normally
                    (last_confirmed_checkpoint_sequence s) in
  encoded ← lift (wire_or_protocol (JointManifest.encode_payload manifest));
  input ← lift (wire_or_protocol (JointManifest.signing_input manifest));
  let signature := ManifestSignature.new (sign_with_session_key s input) in
  batch ← push_evidence [] EVIDENCE_SENT_MANIFEST encoded now_ns;
  signature_bytes ← lift (wire (ManifestSignature.encode_payload signature));
  batch ← push_evidence batch EVIDENCE_SENT_MANIFEST_SIGNATURE signature_bytes now_ns;
  mret (manifest, signature, batch).

Definition receive_peer_manifest_pair (own_manifest peer_manifest : JointManifest.t)
    (signature : ManifestSignature.t) (now_ns : Z) : M RecordBatch :=
  _ ← require_phase Finalizing;
  if negb (bool_decide (peer_manifest = own_manifest)) then throw FinalManifestMismatch else
  peer_hello ← required (fun s => peer_hello (peer s)) "peer hello not received";
  input ← lift (wire_or_protocol (JointManifest.signing_input peer_manifest));
  _ ← lift (verify_signature (AuditHello.session_key peer_hello) input
              (ManifestSignature.signature signature));
  encoded ← lift (wire_or_protocol (JointManifest.encode_payload peer_manifest));
  batch ← push_evidence [] EVIDENCE_RECEIVED_MANIFEST encoded now_ns;
  signature_bytes ← lift (wire (ManifestSignature.encode_payload signature));
  batch ← push_evidence batch EVIDENCE_RECEIVED_MANIFEST_SIGNATURE signature_bytes now_ns;
  _ ← modify set_manifest_received;
  mret batch.

Definition build_seal (sealed_prefix_digest joint_manifest_digest : Digest32) (s : st)
  : res err LocalRecordSeal.t :=
  session_id ← expect_some (session_id (peer s));
  let c := chains s in
  let seal := LocalRecordSeal.new session_id (role (own s)) (local_head c) (local_count c)
                (stream_list (stream_map chain_head (shared c))) joint_manifest_digest
                sealed_prefix_digest zero_signature in
  input ← wire (LocalRecordSeal.signing_input seal);
  Ok (LocalRecordSeal.with_signature seal (sign_with_session_key s input)).

Record PendingLedgerCommit := Pending { manifest_digest : Digest32; sealed_record_digest : Digest32 }.

Definition build_ledger_commit (sequence : Z) (previous_root : LedgerRoot)
    (manifest_digest sealed_record_digest : Digest32) : M LedgerCommit.t :=
  session_id ← required (fun s => session_id (peer s)) "session ID not computed";
  peer_fingerprint ← required (fun s => peer_fingerprint (peer s)) "peer fingerprint missing";
  identity ← gets (fun s => identity (own s));
  let commit := LedgerCommit.new sequence previous_root session_id manifest_digest
                  sealed_record_digest peer_fingerprint SessionResult.Normal zero_signature in
  input ← lift (wire (LedgerCommit.signing_input commit));
  signature ← lift (sign identity input);
  mret (LedgerCommit.with_signature commit signature).

(** [self.ledger.begin_commit()?] and [self.ledger.finish_commit(commit)?]. *)
Definition on_ledger {A} (f : L -> res err A * L) : M A := fun s =>
  let '(r, l) := f (ledger s) in (r, set_ledger l s).

Definition begin_ledger_commit (pending : PendingLedgerCommit) : M LedgerCommit.t :=
  _ ← require_phase Finalizing;
  '(sequence, previous_root) ← on_ledger begin_commit;
  build_ledger_commit sequence previous_root (manifest_digest pending) (sealed_record_digest pending).

Definition finish_ledger_commit (commit : LedgerCommit.t) : M unit :=
  _ ← require_phase Finalizing;
  _ ← on_ledger (fun l => finish_commit l commit);
  modify (set_phase Finished).

Definition fail_closed_records (code : AuditErrorCode.t) (reason : AuditCloseReason.t) (now_ns : Z)
  : M RecordBatch :=
  p ← gets phase;
  if bool_decide (p = Failed) then throw FailedClosed else
  batch ← push_local [] RecordType.LocalAuditError (to_be_bytes 2 (AuditErrorCode.code code))
            zero_head now_ns;
  batch ← push_local batch RecordType.LocalConnectionState [CONNECTION_STATE_CLOSED] zero_head now_ns;
  batch ← push_local batch RecordType.LocalCloseEvent
            ([AuditCloseReason.code reason] ++ [OUTCOME_UNCONFIRMED]) zero_head now_ns;
  _ ← modify (set_phase Failed);
  mret batch.

(** ** The footer

    The session and the writer task it talks to; the handle's channel is a direct call. *)

Section Footer.
Context {F : Type} `{!AsyncFile (IoError:=IoError) F}.
Local Notation writer := (task (IoError:=IoError) (F:=F)).

Definition in_session {A} (m : M A) : stm (st * writer) err A :=
  zoom fst (fun s p => (s, p.2)) m.

Definition ask (request : res err Request) : stm (st * writer) err Reply :=
  request ← lift request;
  (fun p => let '(reply, w) := serve sha256 p.2 request in (Ok reply, (p.1, w)))
    : stm (st * writer) err Reply.

Definition ask_digest (request : res err Request) : stm (st * writer) err Digest32 :=
  reply ← ask request;
  lift (match reply : Reply (IoError:=IoError) with Digest r => r | Done _ => Panic end).

Definition ask_unit (request : res err Request) : stm (st * writer) err unit :=
  reply ← ask request;
  lift (match reply with Done r => r | Digest _ => Panic end).

Definition write_footer_prefix (manifest : JointManifest.t)
    (own_signature peer_signature : ManifestSignature.t)
  : stm (st * writer) err PendingLedgerCommit :=
  _ ← in_session (require_phase Finalizing);
  received ← in_session (gets peer_manifest_received);
  if negb received then throw (InvalidState "the peer manifest was not received and verified") else
  role ← in_session (gets (fun s => role (own s)));
  let '(controller_signature, host_signature) := by_role role own_signature peer_signature in
  sealed_prefix_digest ← ask_digest
    (map_err Protocol (manifest_request manifest controller_signature host_signature));
  encoded ← lift (wire_or_protocol (JointManifest.encode_payload manifest));
  s ← in_session (gets id);
  seal ← lift (build_seal sealed_prefix_digest (sha256_32 encoded) s);
  sealed_record_digest ← ask_digest (expect (seal_request seal));
  mret (Pending (sha256_32 encoded) sealed_record_digest).

Definition finalize_footer (manifest : JointManifest.t)
    (own_signature peer_signature : ManifestSignature.t) : stm (st * writer) err unit :=
  pending ← write_footer_prefix manifest own_signature peer_signature;
  commit ← in_session (begin_ledger_commit pending);
  _ ← ask_unit (expect (commit_request commit));
  in_session (finish_ledger_commit commit).
End Footer.
End AuditSession.
