(* ===== verification/AuditNormalize.v ===== *)
(** * Canonical blocks

    The normalizer of [audit/session.rs] sees a byte stream in segments of any size; both
    endpoints of a session see the same stream in different segments.  The theorem of this
    file says that the blocks it emits are those of the stream: the reference definition
    [whole_blocks] cuts the stream at the multiples of 16 KiB. *)

From stdpp Require Import strings.
From S2P Require Import Prelude Domain Layout WireAudit AuditContainer AuditWriter Stateful AuditEvents.
Open Scope string_scope.
Open Scope list_scope.
Open Scope Z_scope.

(** ** The reference *)

(** The full blocks of a stream, in order, and the bytes after the last one. *)
Definition whole_blocks (l : list Z) : list (list Z) :=
  (fun i => take (Z.to_nat CANONICAL_BLOCK_LEN) (drop (Z.to_nat (i * CANONICAL_BLOCK_LEN)) l))
    <$> seqZ 0 (zlen l / CANONICAL_BLOCK_LEN).

Definition partial_block (l : list Z) : list Z :=
  drop (Z.to_nat (zlen l / CANONICAL_BLOCK_LEN * CANONICAL_BLOCK_LEN)) l.

Local Notation B := CANONICAL_BLOCK_LEN.

Lemma block_len_pos : 0 < B.
Proof. done. Qed.

#[local] Hint Resolve block_len_pos : core.
#[local] Opaque CANONICAL_BLOCK_LEN.

Definition full (b : list Z) : Prop := zlen b = B.

Lemma zlen_blocks bs : Forall full bs -> zlen (concat bs) = zlen bs * B.
Proof.
  induction 1 as [|b bs Hb _ IH]; [done|]. unfold full in Hb. cbn [concat]. autorewrite with zlen. lia.
Qed.

Lemma cut_div bs tail :
  Forall full bs -> zlen tail < B -> zlen (concat bs ++ tail) / B = zlen bs.
Proof.
  intros Hbs Ht. rewrite zlen_app, zlen_blocks by done.
  symmetry. apply (Z.div_unique_pos _ _ _ (zlen tail)); [|lia]. pose proof (zlen_nonneg tail). lia.
Qed.

(** A stream determines its cut into full blocks and a shorter rest. *)
Lemma cut_unique bs tail :
  Forall full bs -> zlen tail < B ->
  whole_blocks (concat bs ++ tail) = bs /\ partial_block (concat bs ++ tail) = tail.
Proof.
  intros Hbs Ht. unfold whole_blocks, partial_block. rewrite cut_div by done. split.
  - clear Ht. revert tail. induction Hbs as [|b bs Hb Hbs IH]; intros tail; [done|].
    unfold full in Hb. cbn [concat]. rewrite zlen_cons.
    rewrite seqZ_cons by (pose proof (zlen_nonneg bs); lia).
    replace (Z.pred (1 + zlen bs)) with (zlen bs) by lia.
    cbn [fmap list_fmap]. f_equal.
    + rewrite <- app_assoc. change (Z.to_nat (0 * B)) with 0%nat. rewrite drop_0.
      by apply take_zlen_app.
    + rewrite <- (IH tail) at 2. rewrite <- (fmap_add_seqZ 1 0), <- list_fmap_compose.
      apply list_fmap_ext. intros i x Hx. cbn. f_equal.
      apply lookup_seqZ in Hx as [-> Hi]. rewrite <- app_assoc.
      rewrite <- (drop_zlen_app b (concat bs ++ tail) B) at 2 by done.
      rewrite drop_drop. f_equal. pose proof block_len_pos. nia.
  - rewrite <- zlen_blocks by done. by apply drop_zlen_app.
Qed.

Lemma whole_blocks_full l : Forall full (whole_blocks l).
Proof.
  unfold whole_blocks. apply Forall_fmap, Forall_forall. intros i Hi%elem_of_seqZ.
  pose proof (Z.mul_div_le (zlen l) B block_len_pos). pose proof block_len_pos.
  assert (i * B + B <= zlen l) by nia. unfold full, compose. cbn.
  unfold zlen in *. rewrite length_take, length_drop. lia.
Qed.

Lemma whole_partial l : concat (whole_blocks l) ++ partial_block l = l /\ zlen (partial_block l) < B.
Proof.
  unfold partial_block. pose proof (Z.mod_pos_bound (zlen l) B block_len_pos).
  pose proof (Z.div_mod (zlen l) B). pose proof (Z.div_pos (zlen l) B (zlen_nonneg l) block_len_pos).
  split.
  - enough (concat (whole_blocks l) = take (Z.to_nat (zlen l / B * B)) l) as -> by apply take_drop.
    unfold whole_blocks. set (n := zlen l / B) in *.
    assert (0 <= n) as Hn by lia. clearbody n. rewrite <- (Z2Nat.id n) by done.
    generalize (Z.to_nat n). clear. intros k. induction k as [|k IH]; [done|].
    rewrite seqZ_S, fmap_app, concat_app, IH. cbn. rewrite app_nil_r.
    replace (Z.to_nat (Z.of_nat (S k) * B))
      with (Z.to_nat (Z.of_nat k * B) + Z.to_nat B)%nat by (pose proof block_len_pos; lia).
    by rewrite take_take_drop.
  - unfold zlen in *. rewrite length_drop. lia.
Qed.

(** ** The normalizer against the reference *)

(** The open normalizer with the bytes [pending] buffered. *)
Definition buffers (n : Normalizer.t) (pending : list Z) : Prop :=
  Normalizer.closed n = false /\ Normalizer.len n = zlen pending /\ zlen pending < B /\
  exists rest, Normalizer.buffer n = pending ++ rest /\ zlen (Normalizer.buffer n) = B.

Lemma buffers_new : buffers Normalizer.new [].
Proof.
  repeat split; try done. exists (zeros B). split; [done|]. cbn. by rewrite zlen_zeros by (pose proof block_len_pos; lia).
Qed.

Lemma buffers_fill buf l :
  zlen buf = B -> zlen l < B -> exists buf',
    (forall E, copy_range (E:=E) buf 0 (zlen l) l = Ok buf') /\
    buffers (Normalizer.Mk buf' (zlen l) false) l.
Proof.
  intros Hbuf Hl. exists (l ++ drop (Z.to_nat (zlen l)) buf). pose proof (zlen_nonneg l). split.
  - intros E. unfold copy_range. rewrite !(proj2 (Z.leb_le _ _)) by lia.
    rewrite (proj2 (Z.eqb_eq _ _)) by lia. done.
  - repeat split; try done. exists (drop (Z.to_nat (zlen l)) buf). split; [done|]. cbn.
    autorewrite with zlen. unfold zlen in *. rewrite length_drop. lia.
Qed.

Lemma copy_range_tail {E} pre old new b :
  b = zlen (pre ++ old) -> zlen new = zlen old ->
  copy_range (E:=E) (pre ++ old) (zlen pre) b new = Ok (pre ++ new).
Proof.
  intros -> Hn. unfold copy_range. autorewrite with zlen.
  pose proof (zlen_nonneg pre). pose proof (zlen_nonneg old).
  rewrite !(proj2 (Z.leb_le _ _)) by lia. rewrite (proj2 (Z.eqb_eq _ _)) by lia. cbn.
  rewrite take_zlen_app by done. rewrite <- zlen_app.
  rewrite drop_ge by (unfold zlen; lia). by rewrite app_nil_r.
Qed.

Section Feed.
Context {IoError S : Type}.
Local Notation err := (AuditError (IoError:=IoError)).
Implicit Types (f : list Z -> stm S err unit) (s : S).

Lemma for_each_ext {A C} (l : list A) (h : A -> C) (g : A -> stm S err unit) (f : C -> stm S err unit) s :
  (forall x s, x ∈ l -> g x s = f (h x) s) -> for_each l g s = for_each (h <$> l) f s.
Proof.
  revert s. induction l as [|x l IH]; intros s Hg; [done|]. cbn.
  unfold mbind, stm_bind. rewrite (Hg x s) by set_solver.
  destruct (f (h x) s) as [[[]|e|] s']; try done. apply IH. intros y t Hy. apply Hg. set_solver.
Qed.

Lemma for_each_app (l1 l2 : list (list Z)) f s :
  for_each (l1 ++ l2) f s = (for_each l1 f ≫= fun _ => for_each l2 f) s.
Proof.
  revert s. induction l1 as [|x l1 IH]; intros s; [done|]. cbn. unfold mbind, stm_bind.
  destruct (f x s) as [[[]|e|] s']; done || apply IH.
Qed.

Lemma emit_whole_eq f l s :
  Normalizer.emit_whole f l (zlen l / B) s = for_each (whole_blocks l) f s.
Proof.
  unfold Normalizer.emit_whole, whole_blocks. apply for_each_ext. intros i t Hi%elem_of_seqZ.
  pose proof (Z.mul_div_le (zlen l) B block_len_pos).
  pose proof block_len_pos. assert (0 <= i * B) by nia. assert (i * B + B <= zlen l) by nia.
  unfold mbind, stm_bind, lift, slice, get_range.
  rewrite !(proj2 (Z.leb_le _ _)) by (pose proof block_len_pos; lia). cbn [andb expect_some].
  replace (i * B + B - i * B) with B by lia.
  unfold try_into_array. rewrite (proj2 (Z.eqb_eq _ _)); [done|].
  pose proof block_len_pos. unfold zlen in *. rewrite length_take, length_drop. lia.
Qed.

(** [bytes[n..]] for an [n] inside [bytes]. *)
Lemma slice_from {E} (l : list Z) n :
  0 <= n <= zlen l -> slice (E:=E) l n (zlen l) = Ok (drop (Z.to_nat n) l).
Proof.
  intros Hn. unfold slice, get_range. rewrite !(proj2 (Z.leb_le _ _)) by lia. cbn. f_equal.
  apply take_ge. unfold zlen in *. rewrite length_drop. lia.
Qed.

Lemma slice_to {E} (l : list Z) n : 0 <= n <= zlen l -> slice (E:=E) l 0 n = Ok (take (Z.to_nat n) l).
Proof.
  intros Hn. unfold slice, get_range. rewrite !(proj2 (Z.leb_le _ _)) by lia. cbn.
  by rewrite Z.sub_0_r, drop_0.
Qed.

(** Feeding [bytes] runs the callback on the blocks completed by them, nothing else. *)
Definition feeds f n pending bytes : Prop := exists n',
  buffers n' (partial_block (pending ++ bytes)) /\
  forall s, Normalizer.feed f n bytes s
            = (for_each (whole_blocks (pending ++ bytes)) f ≫= fun _ => mret n') s.

Lemma feed_whole_eq f buf l :
  zlen buf = B -> exists n', buffers n' (partial_block l) /\
  forall s, Normalizer.feed_whole f buf l s = (for_each (whole_blocks l) f ≫= fun _ => mret n') s.
Proof.
  intros Hbuf. destruct (whole_partial l) as [Hcut Hlt].
  assert (zlen (partial_block l) = zlen l mod B) as Hmod.
  { rewrite Z.mod_eq by (pose proof block_len_pos; lia). unfold partial_block.
    pose proof (Z.mul_div_le (zlen l) B block_len_pos).
    pose proof (Z.div_pos (zlen l) B (zlen_nonneg l) block_len_pos).
    pose proof block_len_pos. unfold zlen in *. rewrite length_drop. nia. }
  destruct (buffers_fill buf (partial_block l) Hbuf Hlt) as (buf' & Hcopy & Hn').
  exists (Normalizer.Mk buf' (zlen (partial_block l)) false). split; [done|]. intros s.
  unfold Normalizer.feed_whole, mbind, stm_bind. rewrite emit_whole_eq.
  destruct (for_each (whole_blocks l) f s) as [[[]|e|] s']; try done.
  unfold lift. rewrite slice_from.
  - change (drop _ l) with (partial_block l). by rewrite <- Hmod, Hcopy.
  - pose proof (Z.mul_div_le (zlen l) B block_len_pos).
    pose proof (Z.div_pos (zlen l) B (zlen_nonneg l) block_len_pos). pose proof block_len_pos. nia.
Qed.

(** The first block completed by a buffer and a segment. *)
Lemma first_block pending bytes :
  zlen pending < B -> B <= zlen pending + zlen bytes ->
  let t := Z.to_nat (B - zlen pending) in
  whole_blocks (pending ++ bytes) = (pending ++ take t bytes) :: whole_blocks (drop t bytes) /\
  partial_block (pending ++ bytes) = partial_block (drop t bytes).
Proof.
  intros Hp Hb t. destruct (whole_partial (drop t bytes)) as [Hcut Hlt].
  assert (full (pending ++ take t bytes)) as Hfull.
  { unfold full. autorewrite with zlen. unfold zlen in *. rewrite length_take. lia. }
  destruct (cut_unique ((pending ++ take t bytes) :: whole_blocks (drop t bytes))
              (partial_block (drop t bytes))) as [Hw Hpart];
    [by constructor; [|apply whole_blocks_full]|done|].
  cbn [concat] in Hw, Hpart. by rewrite <- !app_assoc, Hcut, take_drop in Hw, Hpart.
Qed.

Lemma feed_eq f n pending bytes : buffers n pending -> feeds f n pending bytes.
Proof.
  intros (Hc & Hlen & Hlt & rest & Hbuf & Hblen). unfold feeds, Normalizer.feed.
  rewrite Hc, Hlen. pose proof (zlen_nonneg pending) as Hp0. pose proof (zlen_nonneg bytes) as Hb0.
  assert (zlen rest = B - zlen pending) as Hrest by (rewrite Hbuf in Hblen; rewrite zlen_app in Hblen; lia).
  (* what the two branches that complete the buffered block do first *)
  assert (B <= zlen pending + zlen bytes ->
    let t := Z.to_nat (B - zlen pending) in
    (forall E, slice (E:=E) bytes 0 (B - zlen pending) = Ok (take t bytes)) /\
    (forall E, copy_range (E:=E) (Normalizer.buffer n) (zlen pending) B (take t bytes)
               = Ok (pending ++ take t bytes)) /\
    (forall E, slice (E:=E) bytes (B - zlen pending) (zlen bytes) = Ok (drop t bytes))) as Hfirst.
  { intros Hge t. split_and!; intros E.
    - apply slice_to; lia.
    - rewrite Hbuf. apply copy_range_tail; [by rewrite <- Hbuf, Hblen|].
      unfold zlen in *. rewrite length_take. lia.
    - apply slice_from; lia. }
  destruct (Z.leb_spec B (zlen bytes)).
  - destruct (Z.ltb_spec 0 (zlen pending)).
    + destruct (first_block pending bytes) as [-> ->]; [lia..|].
      destruct Hfirst as (H1 & H2 & H3); [lia|].
      set (t := Z.to_nat (B - zlen pending)) in *.
      destruct (feed_whole_eq f (pending ++ take t bytes) (drop t bytes)) as (n' & Hn' & Hrun).
      { autorewrite with zlen. unfold zlen in *. rewrite length_take. lia. }
      exists n'. split; [done|]. intros s. cbn. unfold mbind, stm_bind, lift. rewrite H1, H2.
      destruct (f _ s) as [[[]|e|] s']; try done. rewrite H3. apply Hrun.
    + assert (pending = []) as -> by (apply zlen_0; lia). by apply feed_whole_eq.
  - destruct (Z.leb_spec B (zlen bytes + zlen pending)).
    + destruct (first_block pending bytes) as [-> ->]; [lia..|].
      destruct Hfirst as (H1 & H2 & H3); [lia|].
      set (t := Z.to_nat (B - zlen pending)) in *.
      assert (zlen (drop t bytes) = zlen bytes - (B - zlen pending)) as Hd
        by (unfold zlen in *; rewrite length_drop; lia).
      destruct (cut_unique [] (drop t bytes)) as [Hw Hq]; [done|lia|]. cbn [concat app] in Hw, Hq.
      rewrite Hw, Hq.
      destruct (buffers_fill (pending ++ take t bytes) (drop t bytes)) as (buf' & Hcopy & Hn');
        [|lia|]. { autorewrite with zlen. unfold zlen in *. rewrite length_take. lia. }
      exists (Normalizer.Mk buf' (zlen (drop t bytes)) false). split; [done|]. intros s. cbn.
      unfold mbind, stm_bind, lift. rewrite H1, H2.
      destruct (f _ s) as [[[]|e|] s']; try done. by rewrite H3, <- Hd, Hcopy.
    + destruct (cut_unique [] (pending ++ bytes)) as [Hw Hq]; [done|rewrite zlen_app; lia|].
      cbn [concat app] in Hw, Hq. rewrite Hw, Hq. rewrite Hbuf.
      rewrite <- (take_drop (Z.to_nat (zlen bytes)) rest) in Hbuf |- *.
      set (r1 := take _ rest) in *. set (r2 := drop _ rest) in *.
      assert (zlen r1 = zlen bytes) as Hr1 by (unfold r1, zlen in *; rewrite length_take; lia).
      exists (Normalizer.Mk ((pending ++ bytes) ++ r2) (zlen pending + zlen bytes) false). split.
      * repeat split; [cbn; rewrite zlen_app; lia..|]. exists r2. split; [done|]. cbn.
        rewrite Hbuf in Hblen. autorewrite with zlen in *. lia.
      * intros s. cbn. unfold mbind, stm_bind, lift.
        unfold copy_range. autorewrite with zlen. pose proof (zlen_nonneg r2).
        rewrite !(proj2 (Z.leb_le _ _)) by lia. rewrite (proj2 (Z.eqb_eq _ _)) by lia. cbn [andb].
        rewrite take_zlen_app by done. rewrite (app_assoc pending r1 r2).
        rewrite drop_zlen_app by (rewrite zlen_app; lia). by rewrite <- app_assoc.
Qed.

Lemma finish_eq f n pending :
  buffers n pending ->
  exists n', Normalizer.closed n' = true /\ forall s, Normalizer.finish f n s =
    (if zlen pending =? 0 then mret (false, n') else f pending ≫= fun _ => mret (true, n')) s.
Proof.
  intros (Hc & Hlen & Hlt & rest & Hbuf & Hblen). unfold Normalizer.finish. rewrite Hc, Hlen.
  destruct (Z.eqb_spec (zlen pending) 0);
    [by exists (Normalizer.Mk (Normalizer.buffer n) (zlen pending) true)|].
  exists (Normalizer.Mk (Normalizer.buffer n) 0 true). split; [done|]. intros s.
  unfold mbind at 1, stm_bind at 1, lift. rewrite Hbuf, slice_head by done. done.
Qed.
End Feed.

(** ** The whole stream *)

Section Stream.
Context {IoError S : Type}.
Local Notation err := (AuditError (IoError:=IoError)).

(** The segments of a stream, fed in order. *)
Fixpoint feed_all (f : list Z -> stm S err unit) (n : Normalizer.t) (segments : list (list Z))
  : stm S err Normalizer.t :=
  match segments with
  | [] => mret n
  | segment :: segments =>
    n ← Normalizer.feed f n segment;
    feed_all f n segments
  end.

(** Cutting in two steps: the rest of the first cut stays in front. *)
Lemma whole_blocks_app l1 l2 :
  whole_blocks (l1 ++ l2) = whole_blocks l1 ++ whole_blocks (partial_block l1 ++ l2) /\
  partial_block (l1 ++ l2) = partial_block (partial_block l1 ++ l2).
Proof.
  destruct (whole_partial l1) as [H1 _]. destruct (whole_partial (partial_block l1 ++ l2)) as [H2 Hlt].
  destruct (cut_unique (whole_blocks l1 ++ whole_blocks (partial_block l1 ++ l2))
              (partial_block (partial_block l1 ++ l2))) as [Hw Hp];
    [apply Forall_app; split; apply whole_blocks_full|done|].
  rewrite concat_app in Hw, Hp. rewrite <- app_assoc, H2, app_assoc, H1 in Hw, Hp. done.
Qed.

Lemma feed_all_eq (f : list Z -> stm S err unit) segments n pending :
  buffers n pending -> exists n', buffers n' (partial_block (pending ++ concat segments)) /\
  forall s, feed_all f n segments s
            = (for_each (whole_blocks (pending ++ concat segments)) f ≫= fun _ => mret n') s.
Proof.
  revert n pending. induction segments as [|x segments IH]; intros n pending Hn.
  - exists n. destruct Hn as (? & ? & Hlt & Hn). cbn [concat]. rewrite app_nil_r.
    destruct (cut_unique [] pending) as [Hw Hp]; [done..|]. cbn [concat app] in Hw, Hp.
    rewrite Hw, Hp. done.
  - destruct (feed_eq f n pending x Hn) as (n1 & Hn1 & Hrun).
    destruct (IH _ _ Hn1) as (n' & Hn' & Hall). exists n'. cbn [concat].
    destruct (whole_blocks_app (pending ++ x) (concat segments)) as [Hw Hp].
    rewrite <- app_assoc in Hw, Hp. rewrite Hp, Hw. split; [done|]. intros s. cbn [feed_all].
    unfold mbind at 1, stm_bind at 1. rewrite Hrun.
    unfold mbind, stm_bind, mret, stm_ret. rewrite for_each_app. unfold mbind, stm_bind.
    destruct (for_each (whole_blocks (pending ++ x)) f s) as [[[]|e|] s']; [|done..].
    rewrite Hall. done.
Qed.
End Stream.

(** A callback that keeps the blocks it is given. *)
Definition keep {E} (block : list Z) : stm (list (list Z)) E unit := modify (fun kept => kept ++ [block]).

Lemma keep_all {E} bs kept : for_each bs (keep (E:=E)) kept = (Ok tt, kept ++ bs).
Proof.
  revert kept. induction bs as [|b bs IH]; intros kept; cbn; [by rewrite app_nil_r|].
  unfold mbind, stm_bind, keep at 1, modify. by rewrite IH, <- app_assoc.
Qed.

(** C32: However a byte stream is split into segments, feeding them to a fresh normalizer
    succeeds and emits exactly the 16 KiB blocks of the stream, in order and before the
    direction is closed; closing it emits the remaining bytes as one last block if there are
    any, and nothing otherwise.  No byte is lost, repeated or reordered, and no segmentation
    makes the buffer arithmetic panic. *)
Theorem normalizer_canonical {IoError : Type} (segments : list (list Z)) :
  let stream := concat segments in
  exists (n n' : Normalizer.t) (emitted : bool),
    feed_all (IoError:=IoError) keep Normalizer.new segments [] = (Ok n, whole_blocks stream) /\
    Normalizer.finish (IoError:=IoError) keep n (whole_blocks stream)
      = (Ok (emitted, n'), whole_blocks stream ++ (if emitted then [partial_block stream] else [])) /\
    emitted = negb (bool_decide (partial_block stream = [])) /\
    Normalizer.closed n' = true /\
    Forall (fun block => zlen block = CANONICAL_BLOCK_LEN) (whole_blocks stream) /\
    zlen (partial_block stream) < CANONICAL_BLOCK_LEN /\
    concat (whole_blocks stream) ++ partial_block stream = stream.
Proof.
  intros stream. destruct (feed_all_eq (IoError:=IoError) keep segments Normalizer.new []) as (n & Hn & Hrun);
    [apply buffers_new|].
  destruct (finish_eq (IoError:=IoError) keep n _ Hn) as (n' & Hclosed & Hfin).
  destruct (whole_partial stream) as [Hcut Hlt]. change ([] ++ concat segments) with stream in *.
  exists n, n', (negb (bool_decide (partial_block stream = []))).
  split_and!; try done; [| |apply whole_blocks_full].
  - rewrite Hrun. unfold mbind, stm_bind. by rewrite keep_all.
  - rewrite Hfin. destruct (Z.eqb_spec (zlen (partial_block stream)) 0) as [H0|H0].
    + apply zlen_0 in H0. rewrite (bool_decide_true _ H0). cbn [negb]. by rewrite app_nil_r.
    + rewrite bool_decide_false by (intros HE; apply H0; by rewrite HE). done.
Qed.
