(* ===== verification/ChainVerifier.v ===== *)
(** * The chain verifier

    [ChainVerifier] of [crates/yon/src/audit/verify.rs]: the state the offline verifier keeps
    while it walks the record frames of one file, and what each frame must satisfy. *)

From stdpp Require Import strings.
From S2P Require Import Prelude Domain Layout WireAudit AuditContainer AuditSigning AuditWriter Stateful AuditEvents AuditSession.
Open Scope string_scope.
Open Scope list_scope.
Open Scope Z_scope.

(** [StreamError]. *)
Inductive StreamError (IoError : Type) :=
| Io (e : IoError)
| NotAnAuditContainer
| UnsupportedAuditFormat
| Tampered (reason : string).
Arguments Io {IoError} e.
Arguments NotAnAuditContainer {IoError}.
Arguments UnsupportedAuditFormat {IoError}.
Arguments Tampered {IoError} reason.

(** [BatchState]. *)
Record BatchState := Batch { batch_related : ChainHead; saw_block : bool }.

(** [CheckpointRef], and [Confirmed], which has the same fields. *)
Record CheckpointRef := Ref { ref_sequence : Z; ref_digest : list Z; ref_snapshot : SharedSnapshot.t }.

#[export] Instance CheckpointRef_eq_dec : EqDecision CheckpointRef.
Proof. solve_decision. Defined.

(** The fields of [ChainVerifier], in three groups. *)
Record VChains := MkVChains {
  v_shared : per_stream SharedChain;
  v_local_head : ChainHead;
  v_local_count : Z;
  v_last_block : per_stream ChainHead;
  v_latest_file : option LatestFileEvent;
  v_input_batch : option BatchState;
  v_output_batch : option BatchState;
}.

Record VPoints := MkVPoints {
  last_sent_checkpoint_seq : Z;
  last_received_checkpoint_seq : Z;
  v_last_received_checkpoint : option CheckpointRef;
  v_last_sent_checkpoint : option CheckpointRef;
  last_received_ack_seq : Z;
  last_sent_ack_seq : Z;
  last_confirmed_sent : option CheckpointRef;
  prev_confirmed_sent : option CheckpointRef;
  last_confirmed_received : option CheckpointRef;
  prev_confirmed_received : option CheckpointRef;
}.

Record VManifests := MkVManifests {
  manifest_evidence : option (list Z);
  received_manifest_evidence : option (list Z);
  sent_manifest_signature : option ManifestSignature.t;
  received_manifest_signature : option ManifestSignature.t;
}.

Record verifier := Verifier {
  v_header : AuditContainerHeader.t;
  v_hello : AuditHello.t;
  v_chains : VChains;
  v_points : VPoints;
  v_manifests : VManifests;
}.

Definition new_verifier (header : AuditContainerHeader.t) (hello : AuditHello.t) : verifier :=
  Verifier header hello
    (MkVChains (all_streams empty_chain) zero_head 0 (all_streams zero_head) None None None)
    (MkVPoints 0 0 None None 0 0 None None None None)
    (MkVManifests None None None None).

Definition set_vchains (c : VChains) (v : verifier) : verifier :=
  Verifier (v_header v) (v_hello v) c (v_points v) (v_manifests v).
Definition set_vpoints (p : VPoints) (v : verifier) : verifier :=
  Verifier (v_header v) (v_hello v) (v_chains v) p (v_manifests v).
Definition set_vmanifests (m : VManifests) (v : verifier) : verifier :=
  Verifier (v_header v) (v_hello v) (v_chains v) (v_points v) m.

Definition set_batches (input output : option BatchState) (c : VChains) : VChains :=
  MkVChains (v_shared c) (v_local_head c) (v_local_count c) (v_last_block c) (v_latest_file c)
    input output.
Definition set_vlatest (e : option LatestFileEvent) (c : VChains) : VChains :=
  MkVChains (v_shared c) (v_local_head c) (v_local_count c) (v_last_block c) e (v_input_batch c)
    (v_output_batch c).
Definition set_vlocal (head : ChainHead) (count : Z) (c : VChains) : VChains :=
  MkVChains (v_shared c) head count (v_last_block c) (v_latest_file c) (v_input_batch c)
    (v_output_batch c).
Definition advance_vshared (stream : SharedStream.t) (chain : SharedChain) (c : VChains) : VChains :=
  MkVChains (stream_set stream chain (v_shared c)) (v_local_head c) (v_local_count c)
    (stream_set stream (chain_head chain) (v_last_block c)) (v_latest_file c) (v_input_batch c)
    (v_output_batch c).

(** [batch.saw_block = true] on an open batch. *)
Definition mark_block (b : option BatchState) : option BatchState :=
  (fun b => Batch (batch_related b) true) <$> b.

Definition INCONSISTENT_LOCAL : string := "the local audit chain is inconsistent".
Definition INCONSISTENT_SHARED : string := "the shared audit chain is inconsistent".

(** [control_kind_payload_len]. *)
Definition control_kind_payload_len (kind len : Z) : bool :=
  if kind =? CONTROL_KIND_RESIZE then len =? 4 else
  if kind =? CONTROL_KIND_TERMINAL_HELLO then len =? DIGEST_LEN else
  if (kind =? CONTROL_KIND_TERMINAL_READY) || (kind =? CONTROL_KIND_TERMINAL_COMPLETE) then len =? 0 else
  if kind =? CONTROL_KIND_TERMINAL_EXIT then len =? 4 else
  if kind =? CONTROL_KIND_CLOSE_REASON then len =? 1 else
  false.

Definition is_direction (d : Z) : bool := (d =? DIRECTION_CTRL_TO_HOST) || (d =? DIRECTION_HOST_TO_CTRL).

Section ChainVerifier.
Context {IoError : Type} `{AuditCrypto}.
Local Notation serr := (StreamError IoError).
Local Notation V := (stm verifier serr).
Local Notation err := (AuditError (IoError:=IoError)).

Definition verify_ed25519 (public_key : Ed25519PublicKey) (input : list Z)
    (signature : Ed25519Signature) : bool :=
  ed_verify (raw public_key) input (raw signature).

(** [tampered(message)?] unless the condition holds. *)
Definition ensure (condition : bool) (message : string) : V unit :=
  if condition then mret tt else throw (Tampered message).

Definition on_vchains (f : VChains -> VChains) : V unit :=
  modify (fun v => set_vchains (f (v_chains v)) v).

(** ** Batches of blocks *)

(** An open batch is consistent when the record that opened it named the last block that
    followed, or nothing if none did. *)
Definition batch_consistent (last : ChainHead) (batch : BatchState) : bool :=
  if saw_block batch then bool_decide (last = batch_related batch)
  else bool_decide (batch_related batch = zero_head).

Definition flush_input_batch : V unit :=
  c ← gets v_chains;
  match v_input_batch c with
  | None => mret tt
  | Some batch =>
    _ ← on_vchains (set_batches None (v_output_batch c));
    ensure (batch_consistent (stream_get (v_last_block c) SharedStream.Input) batch) INCONSISTENT_LOCAL
  end.

Definition flush_output_batch : V unit :=
  c ← gets v_chains;
  match v_output_batch c with
  | None => mret tt
  | Some batch =>
    _ ← on_vchains (set_batches (v_input_batch c) None);
    ensure (batch_consistent (stream_get (v_last_block c) SharedStream.Output) batch) INCONSISTENT_LOCAL
  end.

Definition flush_batches : V unit :=
  _ ← flush_input_batch;
  flush_output_batch.

(** ** The local chain *)

Definition v_commit_local (record_type : RecordType.t) (payload : list Z) : V unit :=
  time ← lift (expect (uint_at 8 payload 0 8));
  related ← lift (expect (array_at DIGEST_LEN payload 8 40));
  kind ← lift (slice payload SPLIT_PREFIX_LEN (zlen payload));
  c ← gets v_chains;
  sequence ← lift (add_u64 (v_local_count c) 1);
  let head := local_event_hash (raw (v_local_head c)) sequence time (RecordType.code record_type)
                kind related in
  on_vchains (set_vlocal (FixedBytes.new head) sequence).

Definition process_display (payload : list Z) : V unit :=
  _ ← ensure (SPLIT_PREFIX_LEN <=? zlen payload) INCONSISTENT_LOCAL;
  bytes ← lift (expect (array_at DIGEST_LEN payload 8 40));
  let related : ChainHead := FixedBytes.new bytes in
  c ← gets v_chains;
  let last := stream_get (v_last_block c) SharedStream.Output in
  let ok := match v_output_batch c with
            | Some batch => bool_decide (related = batch_related batch) || bool_decide (related = last)
                            || bool_decide (related = zero_head)
            | None => bool_decide (related = last) || bool_decide (related = zero_head)
            end in
  _ ← ensure ok INCONSISTENT_LOCAL;
  _ ← flush_output_batch;
  v_commit_local RecordType.LocalDisplayBytes payload.

(** ** The shared chains *)

(** The tail of each [process_shared_*]: sequence and previous head continue the chain, the
    recomputed hash is the recorded head; then the chain advances. *)
Definition check_shared (stream : SharedStream.t) (domain : list Z) (direction sequence event_kind : Z)
    (canonical : list Z) (previous_head new_head : ChainHead) : V unit :=
  c ← gets v_chains;
  let chain := stream_get (v_shared c) stream in
  next ← lift (add_u64 (chain_count chain) 1);
  _ ← ensure ((sequence =? next) && bool_decide (previous_head = chain_head chain)) INCONSISTENT_SHARED;
  let expected := shared_event_hash domain (raw (chain_head chain)) (SharedStream.index stream)
                    direction sequence event_kind canonical in
  _ ← ensure (bool_decide (FixedBytes.new expected = new_head)) INCONSISTENT_SHARED;
  on_vchains (advance_vshared stream (Chain next new_head)).

Definition decoded {A} (r : res err A) : V A :=
  lift (map_err (fun _ => Tampered INCONSISTENT_SHARED) r).

Definition process_shared_input (payload : list Z) : V unit :=
  d ← decoded (decode_shared_input payload);
  _ ← ensure (d_direction d =? DIRECTION_CTRL_TO_HOST) INCONSISTENT_SHARED;
  check_shared SharedStream.Input CHAIN_INPUT_DOMAIN (d_direction d) (d_sequence d) INPUT_EVENT_KIND
    (to_be_bytes 8 (d_length d) ++ d_digest d) (d_previous_head d) (d_new_head d).

Definition process_shared_output (payload : list Z) : V unit :=
  d ← decoded (decode_shared_output payload);
  _ ← ensure (d_direction d =? DIRECTION_HOST_TO_CTRL) INCONSISTENT_SHARED;
  check_shared SharedStream.Output CHAIN_OUTPUT_DOMAIN (d_direction d) (d_sequence d) OUTPUT_EVENT_KIND
    (to_be_bytes 8 (d_length d) ++ d_digest d) (d_previous_head d) (d_new_head d).

(** [canonical.resize(97, 0)]. *)
Definition resize (n : Z) (l : list Z) : list Z :=
  take (Z.to_nat n) l ++ zeros (Z.max 0 (n - zlen l)).

Definition process_shared_control (payload : list Z) : V unit :=
  d ← decoded (decode_shared_control payload);
  _ ← ensure (is_direction (c_direction d)) INCONSISTENT_SHARED;
  _ ← ensure (control_kind_payload_len (c_kind d) (zlen (c_control_payload d)))
        "the shared control event is invalid";
  check_shared SharedStream.Control CHAIN_CONTROL_DOMAIN (c_direction d) (c_sequence d) (c_kind d)
    (resize 97 ([c_kind d] ++ c_control_payload d)) (c_previous_head d) (c_new_head d).

Definition file_canonical (d : DecodedSharedFile) : list Z :=
  [f_kind d] ++ to_be_bytes 8 (f_transfer_id d) ++ to_be_bytes 8 (f_declared_size d)
  ++ to_be_bytes 8 (f_final_size d) ++ f_digest d
  ++ to_be_bytes 2 (as_u16 (zlen (f_remote_path d))) ++ f_remote_path d
  ++ to_be_bytes 2 (as_u16 (zlen (f_file_name d))) ++ f_file_name d
  ++ to_be_bytes 2 (f_error_code d) ++ zeros (2 * DIGEST_LEN).

Definition process_shared_file (payload : list Z) : V unit :=
  d ← decoded (decode_shared_file payload);
  _ ← ensure (is_direction (f_direction d) && is_file_kind (f_kind d))
        "the shared file transfer event is invalid";
  _ ← check_shared SharedStream.FileTransfer CHAIN_FILE_DOMAIN (f_direction d) (f_sequence d)
        (f_kind d) (file_canonical d) (f_previous_head d) (f_new_head d);
  on_vchains (set_vlatest (Some (LatestFile (f_new_head d) (f_transfer_id d) (f_direction d)
                                   (f_kind d) false false))).

(** ** Checkpoint evidence *)

(** [confirm_direction]: [(last, previous)] after one more confirmation. *)
Definition confirm_direction (last previous : option CheckpointRef) (checkpoint : CheckpointRef)
  : res serr (option CheckpointRef * option CheckpointRef) :=
  match last with
  | None => Ok (Some checkpoint, previous)
  | Some current =>
    if ref_sequence current =? ref_sequence checkpoint then
      if negb (bool_decide (ref_digest current = ref_digest checkpoint))
         || negb (bool_decide (ref_snapshot current = ref_snapshot checkpoint))
      then Err (Tampered "the checkpoint confirmations are inconsistent")
      else Ok (last, previous)
    else if ref_sequence current <? ref_sequence checkpoint then Ok (Some checkpoint, Some current)
    else Err (Tampered "the checkpoint confirmations are out of order")
  end.

Definition on_vpoints (f : VPoints -> VPoints) : V unit :=
  modify (fun v => set_vpoints (f (v_points v)) v).

Definition confirm_sent (checkpoint : CheckpointRef) : V unit :=
  p ← gets v_points;
  '(last, previous) ← lift (confirm_direction (last_confirmed_sent p) (prev_confirmed_sent p) checkpoint);
  on_vpoints (fun p => MkVPoints (last_sent_checkpoint_seq p) (last_received_checkpoint_seq p)
    (v_last_received_checkpoint p) (v_last_sent_checkpoint p) (last_received_ack_seq p)
    (last_sent_ack_seq p) last previous (last_confirmed_received p) (prev_confirmed_received p)).

Definition confirm_received (checkpoint : CheckpointRef) : V unit :=
  p ← gets v_points;
  '(last, previous) ← lift (confirm_direction (last_confirmed_received p) (prev_confirmed_received p)
                              checkpoint);
  on_vpoints (fun p => MkVPoints (last_sent_checkpoint_seq p) (last_received_checkpoint_seq p)
    (v_last_received_checkpoint p) (v_last_sent_checkpoint p) (last_received_ack_seq p)
    (last_sent_ack_seq p) (last_confirmed_sent p) (prev_confirmed_sent p) last previous).

Definition set_sent_seq (n : Z) (p : VPoints) : VPoints :=
  MkVPoints n (last_received_checkpoint_seq p) (v_last_received_checkpoint p)
    (v_last_sent_checkpoint p) (last_received_ack_seq p) (last_sent_ack_seq p)
    (last_confirmed_sent p) (prev_confirmed_sent p) (last_confirmed_received p)
    (prev_confirmed_received p).
Definition set_received_seq (n : Z) (p : VPoints) : VPoints :=
  MkVPoints (last_sent_checkpoint_seq p) n (v_last_received_checkpoint p)
    (v_last_sent_checkpoint p) (last_received_ack_seq p) (last_sent_ack_seq p)
    (last_confirmed_sent p) (prev_confirmed_sent p) (last_confirmed_received p)
    (prev_confirmed_received p).
Definition set_sent_ref (r : CheckpointRef) (p : VPoints) : VPoints :=
  MkVPoints (last_sent_checkpoint_seq p) (last_received_checkpoint_seq p)
    (v_last_received_checkpoint p) (Some r) (last_received_ack_seq p) (last_sent_ack_seq p)
    (last_confirmed_sent p) (prev_confirmed_sent p) (last_confirmed_received p)
    (prev_confirmed_received p).
Definition set_received_ref (r : CheckpointRef) (p : VPoints) : VPoints :=
  MkVPoints (last_sent_checkpoint_seq p) (last_received_checkpoint_seq p) (Some r)
    (v_last_sent_checkpoint p) (last_received_ack_seq p) (last_sent_ack_seq p)
    (last_confirmed_sent p) (prev_confirmed_sent p) (last_confirmed_received p)
    (prev_confirmed_received p).
Definition set_sent_ack_seq (n : Z) (p : VPoints) : VPoints :=
  MkVPoints (last_sent_checkpoint_seq p) (last_received_checkpoint_seq p)
    (v_last_received_checkpoint p) (v_last_sent_checkpoint p) (last_received_ack_seq p) n
    (last_confirmed_sent p) (prev_confirmed_sent p) (last_confirmed_received p)
    (prev_confirmed_received p).
Definition set_received_ack_seq (n : Z) (p : VPoints) : VPoints :=
  MkVPoints (last_sent_checkpoint_seq p) (last_received_checkpoint_seq p)
    (v_last_received_checkpoint p) (v_last_sent_checkpoint p) n (last_sent_ack_seq p)
    (last_confirmed_sent p) (prev_confirmed_sent p) (last_confirmed_received p)
    (prev_confirmed_received p).

(** [Message::decode_payload(evidence).map_err(..)?]. *)
Definition decoded_as {A} (r : res ProtocolError A) (message : string) : V A :=
  lift (map_err (fun _ => Tampered message) r).

(** The two checkpoint arms of [process_evidence]. *)
Definition evidence_checkpoint (sent : bool) (evidence : list Z) : V unit :=
  checkpoint ← decoded_as (Checkpoint.decode_payload evidence) "the checkpoint is invalid";
  v ← gets id;
  let header := v_header v in
  let key := if sent then AuditContainerHeader.session_pubkey header
             else AuditContainerHeader.peer_session_pubkey header in
  input ← lift (wire (Checkpoint.signing_input checkpoint));
  _ ← ensure (verify_ed25519 key input (Checkpoint.signature checkpoint))
        "the checkpoint signature is invalid";
  let previous := if sent then last_sent_checkpoint_seq (v_points v)
                  else last_received_checkpoint_seq (v_points v) in
  expected ← lift (ok_or (checked_add_u64 previous 1) (Tampered "the checkpoint is invalid"));
  _ ← ensure (bool_decide (Checkpoint.session_id checkpoint = AuditContainerHeader.session_id header)
              && (Checkpoint.sequence checkpoint =? expected)) "the checkpoint is invalid";
  _ ← ensure (negb sent || bool_decide (Checkpoint.snapshot checkpoint = snapshot_of (v_shared (v_chains v))))
        "the checkpoint does not match the shared chains";
  let expected_snapshot := sha256 (to_be_bytes 8 (AuditContainerHeader.ledger_sequence header)
                                     ++ raw (AuditContainerHeader.previous_ledger_root header)) in
  _ ← ensure (bool_decide (raw (Checkpoint.ledger_snapshot_digest checkpoint) = expected_snapshot)
              || negb sent) "the checkpoint is invalid";
  let sequence := Checkpoint.sequence checkpoint in
  _ ← on_vpoints (if sent then set_sent_seq sequence else set_received_seq sequence);
  let reference := Ref sequence (sha256 evidence) (Checkpoint.snapshot checkpoint) in
  if sent then
    _ ← ensure (bool_decide (Checkpoint.local_chain_head checkpoint = v_local_head (v_chains v)))
          "the checkpoint does not match the local chain";
    on_vpoints (set_sent_ref reference)
  else on_vpoints (set_received_ref reference).

Definition INVALID_ACK : string := "the checkpoint acknowledgment is invalid".

(** The two acknowledgment arms of [process_evidence]. *)
Definition evidence_ack (sent : bool) (evidence : list Z) : V unit :=
  ack ← decoded_as (CheckpointAck.decode_payload evidence) INVALID_ACK;
  v ← gets id;
  let header := v_header v in
  let key := if sent then AuditContainerHeader.session_pubkey header
             else AuditContainerHeader.peer_session_pubkey header in
  input ← lift (wire (CheckpointAck.signing_input ack));
  _ ← ensure (verify_ed25519 key input (CheckpointAck.signature ack))
        "the checkpoint acknowledgment signature is invalid";
  let sequence := CheckpointAck.sequence ack in
  let checkpoint_sequence := if sent then last_received_checkpoint_seq (v_points v)
                             else last_sent_checkpoint_seq (v_points v) in
  _ ← ensure (bool_decide (CheckpointAck.session_id ack = AuditContainerHeader.session_id header)
              && negb (sequence =? 0) && (sequence <=? checkpoint_sequence)) INVALID_ACK;
  _ ← ensure ((if sent then last_sent_ack_seq (v_points v) else last_received_ack_seq (v_points v))
                <? sequence) INVALID_ACK;
  _ ← on_vpoints (if sent then set_sent_ack_seq sequence else set_received_ack_seq sequence);
  last ← lift (ok_or (if sent then v_last_received_checkpoint (v_points v)
                      else v_last_sent_checkpoint (v_points v)) (Tampered INVALID_ACK));
  _ ← ensure ((sequence =? ref_sequence last)
              && bool_decide (raw (CheckpointAck.checkpoint_digest ack) = ref_digest last)
              && bool_decide (CheckpointAck.snapshot ack = ref_snapshot last)) INVALID_ACK;
  if sent then confirm_received last else confirm_sent last.

Definition INVALID_MANIFEST : string := "the audit manifest is invalid".

Definition evidence_manifest (sent : bool) (evidence : list Z) : V unit :=
  manifest ← decoded_as (JointManifest.decode_payload evidence) INVALID_MANIFEST;
  v ← gets id;
  let header := v_header v in
  _ ← ensure (bool_decide (JointManifest.session_id manifest = AuditContainerHeader.session_id header)
              && bool_decide (JointManifest.connection_binding manifest
                              = AuditHello.connection_binding (v_hello v))
              && bool_decide (JointManifest.terminal_hello_digest manifest
                              = AuditContainerHeader.terminal_hello_digest header)
              && bool_decide (JointManifest.final_snapshot manifest
                              = snapshot_of (v_shared (v_chains v)))) INVALID_MANIFEST;
  bytes ← decoded_as (WireBytes.as_slice <$> JointManifest.encode_payload manifest) INVALID_MANIFEST;
  modify (fun v =>
    let m := v_manifests v in
    set_vmanifests
      (if sent then MkVManifests (Some bytes) (received_manifest_evidence m)
                      (sent_manifest_signature m) (received_manifest_signature m)
       else MkVManifests (manifest_evidence m) (Some bytes) (sent_manifest_signature m)
              (received_manifest_signature m)) v).

Definition evidence_signature (sent : bool) (evidence : list Z) : V unit :=
  signature ← decoded_as (ManifestSignature.decode_payload evidence)
                "the audit manifest signature is invalid";
  modify (fun v =>
    let m := v_manifests v in
    set_vmanifests
      (if sent then MkVManifests (manifest_evidence m) (received_manifest_evidence m)
                      (Some signature) (received_manifest_signature m)
       else MkVManifests (manifest_evidence m) (received_manifest_evidence m)
              (sent_manifest_signature m) (Some signature)) v).

Definition INVALID_EVIDENCE : string := "the checkpoint evidence is invalid".

Definition process_evidence (kind_payload : list Z) : V unit :=
  _ ← ensure (5 <=? zlen kind_payload) INVALID_EVIDENCE;
  kind ← lift (index kind_payload 0);
  len ← lift (expect (uint_at 4 kind_payload 1 5));
  _ ← ensure (zlen kind_payload =? 5 + len) INVALID_EVIDENCE;
  evidence ← lift (slice kind_payload 5 (zlen kind_payload));
  if kind =? EVIDENCE_SENT_CHECKPOINT then evidence_checkpoint true evidence else
  if kind =? EVIDENCE_RECEIVED_CHECKPOINT then evidence_checkpoint false evidence else
  if kind =? EVIDENCE_SENT_CHECKPOINT_ACK then evidence_ack true evidence else
  if kind =? EVIDENCE_RECEIVED_CHECKPOINT_ACK then evidence_ack false evidence else
  if kind =? EVIDENCE_SENT_MANIFEST then evidence_manifest true evidence else
  if kind =? EVIDENCE_RECEIVED_MANIFEST then evidence_manifest false evidence else
  if kind =? EVIDENCE_SENT_MANIFEST_SIGNATURE then evidence_signature true evidence else
  if kind =? EVIDENCE_RECEIVED_MANIFEST_SIGNATURE then evidence_signature false evidence else
  throw (Tampered "the audit container has an unknown checkpoint evidence kind").

(** ** Local records *)

(** What the arm of [LocalFileTransferEvent] accepts: a local path ([false]) or an ambiguous
    outcome ([true]) of the latest shared file event. *)
Definition local_file_kind (role : AuditRole.t) (latest : LatestFileEvent) (kind : list Z)
  : res serr bool :=
  match kind with
  | [] => Err (Tampered INCONSISTENT_LOCAL)
  | k :: _ =>
    if is_file_kind k then
      if (zlen kind <? 11) || local_path_recorded latest || negb (k =? file_kind latest)
      then Err (Tampered INCONSISTENT_LOCAL) else
      transfer_id ← expect (uint_at 8 kind 1 9);
      if negb (transfer_id =? file_transfer_id latest) then Err (Tampered INCONSISTENT_LOCAL) else
      path_len ← expect (uint_at 2 kind 9 11);
      if negb (zlen kind =? 11 + path_len) then Err (Tampered INCONSISTENT_LOCAL) else
      path ← slice kind 11 (zlen kind);
      match from_utf8 path with
      | Some _ => Ok false
      | None => Err (Tampered INCONSISTENT_LOCAL)
      end
    else if is_ambiguity_kind k then
      if negb (zlen kind =? LOCAL_FILE_AMBIGUITY_PAYLOAD_LEN)
         || negb (file_kind latest =? FILE_KIND_START) || ambiguity_recorded latest
      then Err (Tampered INCONSISTENT_LOCAL) else
      transfer_id ← expect (uint_at 8 kind 1 9);
      if negb (transfer_id =? file_transfer_id latest)
         || negb (bool_decide (expected_local_file_ambiguity_kind role (file_direction latest) = Some k))
      then Err (Tampered INCONSISTENT_LOCAL) else
      path_len ← slice kind 49 51;
      if negb (bool_decide (path_len = [0; 0])) then Err (Tampered INCONSISTENT_LOCAL) else Ok true
    else Err (Tampered INCONSISTENT_LOCAL)
  end.

(** The checks of [process_local] on each record type; the result is the flag it sets on the
    latest file event after the record was chained. *)
Definition check_local (record_type : RecordType.t) (related : ChainHead) (kind : list Z)
  : V (option bool) :=
  v ← gets id;
  let c := v_chains v in
  let last stream := stream_get (v_last_block c) stream in
  let need (condition : bool) : V (option bool) :=
    _ ← ensure condition INCONSISTENT_LOCAL; mret None in
  match record_type with
  | RecordType.LocalInputCommitment =>
    _ ← ensure (9 <=? zlen kind) INCONSISTENT_LOCAL;
    direction ← lift (index kind 0);
    _ ← ensure (direction =? DIRECTION_CTRL_TO_HOST) INCONSISTENT_LOCAL;
    _ ← on_vchains (fun c => set_batches (Some (Batch related false)) (v_output_batch c) c);
    mret None
  | RecordType.LocalRawOutput =>
    _ ← on_vchains (fun c => set_batches (v_input_batch c) (Some (Batch related false)) c);
    mret None
  | RecordType.LocalSendOutcome =>
    _ ← ensure (10 <=? zlen kind) INCONSISTENT_LOCAL;
    direction ← lift (index kind 0);
    _ ← ensure (is_direction direction) INCONSISTENT_LOCAL;
    need (bool_decide (related = last (if direction =? DIRECTION_CTRL_TO_HOST
                                       then SharedStream.Input else SharedStream.Output)))
  | RecordType.LocalPtyWriteOutcome =>
    need ((9 <=? zlen kind) && bool_decide (related = last SharedStream.Input))
  | RecordType.LocalDisplayWriteOutcome =>
    need ((9 <=? zlen kind) && bool_decide (related = last SharedStream.Output))
  | RecordType.LocalResizeEvent =>
    _ ← ensure (5 <=? zlen kind) INCONSISTENT_LOCAL;
    direction ← lift (index kind 0);
    need (is_direction direction && bool_decide (related = last SharedStream.Control))
  | RecordType.LocalLifecycleEvent =>
    need ((1 <=? zlen kind)
          && (bool_decide (related = last SharedStream.Control) || bool_decide (related = zero_head)))
  | RecordType.LocalKeyAction | RecordType.LocalConnectionState =>
    need ((1 <=? zlen kind) && bool_decide (related = zero_head))
  | RecordType.LocalAuditError =>
    need ((2 <=? zlen kind) && bool_decide (related = zero_head))
  | RecordType.LocalFileTransferEvent =>
    latest ← lift (ok_or (v_latest_file c) (Tampered INCONSISTENT_LOCAL));
    _ ← ensure (bool_decide (related = file_head latest)) INCONSISTENT_LOCAL;
    ambiguity ← lift (local_file_kind (AuditContainerHeader.role (v_header v)) latest kind);
    mret (Some ambiguity)
  | RecordType.LocalCloseEvent =>
    need ((2 <=? zlen kind)
          && (bool_decide (related = last SharedStream.Control) || bool_decide (related = zero_head)))
  | RecordType.CheckpointEvidence =>
    _ ← ensure (bool_decide (related = zero_head)) INCONSISTENT_LOCAL;
    _ ← process_evidence kind;
    mret None
  | RecordType.SharedInputCommitment | RecordType.SharedOutputBlock
  | RecordType.SharedControlEvent | RecordType.SharedFileTransferEvent
  | RecordType.LocalDisplayBytes => throw (Tampered INCONSISTENT_LOCAL)
  end.

(** The flag of [local_file_kind], recorded. *)
Definition flag_file (ambiguity : bool) (e : LatestFileEvent) : LatestFileEvent :=
  LatestFile (file_head e) (file_transfer_id e) (file_direction e) (file_kind e)
    (local_path_recorded e || negb ambiguity) (ambiguity_recorded e || ambiguity).

Definition process_local (record_type : RecordType.t) (payload : list Z) : V unit :=
  _ ← ensure (SPLIT_PREFIX_LEN <=? zlen payload) INCONSISTENT_LOCAL;
  related ← lift (expect (array_at DIGEST_LEN payload 8 40));
  kind ← lift (slice payload SPLIT_PREFIX_LEN (zlen payload));
  flag ← check_local record_type (FixedBytes.new related) kind;
  _ ← v_commit_local record_type payload;
  match flag with
  | None => mret tt
  | Some ambiguity => on_vchains (fun c => set_vlatest (flag_file ambiguity <$> v_latest_file c) c)
  end.

(** ** One frame *)

Definition process_frame (record_type : RecordType.t) (payload : list Z) : V unit :=
  match record_type with
  | RecordType.SharedInputCommitment =>
    _ ← on_vchains (fun c => set_batches (mark_block (v_input_batch c)) (v_output_batch c) c);
    process_shared_input payload
  | RecordType.SharedOutputBlock =>
    _ ← on_vchains (fun c => set_batches (v_input_batch c) (mark_block (v_output_batch c)) c);
    process_shared_output payload
  | RecordType.SharedControlEvent => _ ← flush_batches; process_shared_control payload
  | RecordType.SharedFileTransferEvent => _ ← flush_batches; process_shared_file payload
  | RecordType.LocalDisplayBytes => process_display payload
  | _ => _ ← flush_batches; process_local record_type payload
  end.

(** The frames of a file, in order. *)
Definition process_frames (records : list (RecordType.t * list Z)) : V unit :=
  for_each records (fun r => process_frame r.1 r.2).
End ChainVerifier.
