(* ===== verification/AuditTrace.v ===== *)
(** * A recorded session verifies

    Every record an [AuditSession] emits is accepted by the [ChainVerifier] that walks the
    file, in every order of operations the observer can drive.  The relation [follows] ties
    the verifier's state to the session's; the lemmas below show that it is kept by the
    records of each operation, and [session_verifies] composes them over a whole session. *)

From stdpp Require Import strings.
From S2P Require Import Prelude Domain Codec Layout WireAudit AuditCodecs AuditContainer AuditSigning AuditWriter Stateful AuditEvents AuditSession AuditNormalize ChainVerifier.
Open Scope string_scope.
Open Scope list_scope.
Open Scope Z_scope.

(** ** Frames of a batch *)

Local Notation record := (RecordType.t * list Z)%type.

(** The frames [AuditWriter::append_batch] appends for a batch. *)
Fixpoint batch_frames {E} (batch : RecordBatch) : res E (list record) :=
  match batch with
  | [] => Ok []
  | r :: batch =>
    bytes ← payload_bytes (payload r);
    rest ← batch_frames batch;
    Ok ((record_type r, bytes) :: rest)
  end.

(** [frames batch l]: the batch frames as [l]. *)
Definition frames (batch : RecordBatch) (l : list record) : Prop :=
  forall E, batch_frames (E:=E) batch = Ok l.

Lemma frames_nil : frames [] [].
Proof. done. Qed.

Lemma frames_app b1 b2 l1 l2 : frames b1 l1 -> frames b2 l2 -> frames (b1 ++ b2) (l1 ++ l2).
Proof.
  intros H1 H2 E. specialize (H1 E). specialize (H2 E). revert l1 H1.
  induction b1 as [|r b1 IH]; intros l1 H1; cbn in H1; [by injection H1 as <-|].
  cbn [app batch_frames]. destruct (payload_bytes (payload r)) as [bytes|e|]; [|done..].
  cbn in *. destruct (batch_frames b1) as [l|e|]; cbn in *; [|done..].
  injection H1 as <-. by rewrite (IH l).
Qed.

Section Pushing.
Context {IoError : Type}.
Local Notation err := (AuditError (IoError:=IoError)).

Lemma push_frames batch r batch' l bytes :
  push (IoError:=IoError) batch r = Ok batch' -> frames batch l ->
  (forall E, payload_bytes (E:=E) (payload r) = Ok bytes) ->
  frames batch' (l ++ [(record_type r, bytes)]).
Proof.
  unfold push. intros Hp Hl Hr. inv_ok. apply frames_app; [done|].
  intros E. cbn. by rewrite Hr.
Qed.

Lemma push_inline_frames batch t p batch' l :
  push_inline (IoError:=IoError) batch t p = Ok batch' -> frames batch l ->
  frames batch' (l ++ [(t, p)]).
Proof.
  unfold push_inline. intros Hp Hl. inv_ok. rename x into buf.
  match goal with H : copy_range _ _ _ _ = Ok _ |- _ => rename H into Hc end.
  refine (push_frames _ _ _ _ _ Hp Hl _). intros E. cbn.
  unfold copy_range in Hc. inv_ok. cbn. apply slice_head. done.
Qed.

Lemma push_boxed_frames batch t p batch' l :
  push_boxed (IoError:=IoError) batch t p = Ok batch' -> frames batch l ->
  frames batch' (l ++ [(t, p)]).
Proof. intros Hp Hl. refine (push_frames _ _ _ _ _ Hp Hl _). done. Qed.

Lemma push_split_frames batch t p b batch' l :
  push_split (IoError:=IoError) batch t p b = Ok batch' -> frames batch l ->
  frames batch' (l ++ [(t, p ++ b)]).
Proof. intros Hp Hl. refine (push_frames _ _ _ _ _ Hp Hl _). done. Qed.

Lemma push_blocks_frames t completed batch batch' l :
  push_blocks (IoError:=IoError) batch t completed = Ok batch' -> frames batch l ->
  frames batch' (l ++ ((fun b => (t, block_record b)) <$> completed)).
Proof.
  revert batch l. induction completed as [|b completed IH]; intros batch l Hp Hl; cbn in *; inv_ok.
  - by rewrite app_nil_r.
  - match goal with H : push_inline _ _ _ = Ok ?b1 |- _ => rename H into Hi end.
    specialize (IH _ _ Hp (push_inline_frames _ _ _ _ _ Hi Hl)). by rewrite <- app_assoc in IH.
Qed.
End Pushing.

(** ** The relation *)

(** What a session's chains satisfy: the last block of a stream is the head of its chain,
    and heads, the one of the latest file event among them, and counts are well formed. *)
Definition chain_ok (c : SharedChain) : Prop := is_u64 (chain_count c) /\ FixedBytes.wf (chain_head c).

Record chains_ok (c : Chains) : Prop := {
  last_is_head stream : default zero_head (stream_get (last_block c) stream)
                        = chain_head (stream_get (shared c) stream);
  shared_ok stream : chain_ok (stream_get (shared c) stream);
  local_ok : is_u64 (local_count c) /\ FixedBytes.wf (local_head c) /\
    from_option (fun e => FixedBytes.wf (file_head e)) True (latest_file_event c);
}.

Definition normalizers_open (c : Chains) : Prop :=
  (exists pending, buffers (input_normalizer c) pending) /\
  (exists pending, buffers (output_normalizer c) pending).

(** An open batch that the next flush accepts. *)
Definition flushable (last : ChainHead) (batch : option BatchState) : Prop :=
  match batch with Some b => batch_consistent last b = true | None => True end.

(** The verifier's chains are the session's. *)
Record chains_follow (c : Chains) (v : VChains) : Prop := {
  follow_shared : v_shared v = shared c;
  follow_local_head : v_local_head v = local_head c;
  follow_local_count : v_local_count v = local_count c;
  follow_last stream : stream_get (v_last_block v) stream = chain_head (stream_get (shared c) stream);
  follow_file : v_latest_file v = latest_file_event c;
  follow_input : flushable (stream_get (v_last_block v) SharedStream.Input) (v_input_batch v);
  follow_output : flushable (stream_get (v_last_block v) SharedStream.Output) (v_output_batch v);
}.

(** ** The verifier, record by record *)

Lemma zero_head_wf : FixedBytes.wf zero_head.
Proof. split; [apply bytes_zeros|done]. Qed.

Definition flushed (v : verifier) : verifier :=
  set_vchains (set_batches None None (v_chains v)) v.

Lemma add_u64_ok {E} a b c : add_u64 (E:=E) a b = Ok c <-> c = a + b /\ a + b < 2 ^ 64.
Proof.
  unfold add_u64, checked_add_u64. destruct (Z.ltb_spec (a + b) (2 ^ 64)); cbn; split; intros; 
    naive_solver lia.
Qed.

Section Verifier.
Context {IoError : Type} `{AuditCryptoLaws}.
Local Notation V := (stm verifier (StreamError IoError)).
Implicit Types (v : verifier).

Lemma ensure_true b m v : b = true -> ensure (IoError:=IoError) b m v = (Ok tt, v).
Proof. by intros ->. Qed.

Lemma flush_ok v :
  flushable (stream_get (v_last_block (v_chains v)) SharedStream.Input) (v_input_batch (v_chains v)) ->
  flushable (stream_get (v_last_block (v_chains v)) SharedStream.Output) (v_output_batch (v_chains v)) ->
  flush_batches (IoError:=IoError) v = (Ok tt, flushed v).
Proof.
  destruct v as [h a [sh lh lc lb lf ib ob] p m]. unfold flush_batches, flush_input_batch,
    flush_output_batch, mbind, stm_bind, gets, mret, stm_ret, on_vchains, modify, ensure, flushable.
  cbn. intros Hi Ho. destruct ib as [ib|]; cbn; [rewrite Hi|]; destruct ob as [ob|]; cbn; rewrite ?Ho; done.
Qed.

(** The local chain after one more record. *)
Definition local_after (t : RecordType.t) (now : Z) (related : ChainHead) (kind : list Z) (c : VChains)
  : VChains :=
  set_vlocal (FixedBytes.new (local_event_hash (raw (v_local_head c)) (v_local_count c + 1) now
                                (RecordType.code t) kind (raw related)))
    (v_local_count c + 1) c.

Definition local_payload (now : Z) (related : ChainHead) (kind : list Z) : list Z :=
  concat [to_be_bytes 8 now; raw related; kind].

Lemma local_payload_sizes (now : Z) (related : ChainHead) (kind : list Z) :
  FixedBytes.wf related ->
  zlen (A:=Z) <$> [to_be_bytes 8 now; raw related; kind] = [8; 32; zlen kind].
Proof. intros [_ Hr]. cbn. rewrite zlen_to_be, Hr. done. Qed.

Lemma commit_local_ok t now (related : ChainHead) kind v :
  is_u64 now -> FixedBytes.wf related -> v_local_count (v_chains v) + 1 < 2 ^ 64 ->
  v_commit_local (IoError:=IoError) t (local_payload now related kind) v
  = (Ok tt, set_vchains (local_after t now related kind (v_chains v)) v).
Proof.
  intros Hn Hr Hc. pose proof (local_payload_sizes now related kind Hr) as Hs.
  unfold v_commit_local, local_payload, mbind, stm_bind, lift, gets.
  rewrite (uint_at_layout _ _ Hs 0 (to_be_bytes 8 now)) by done. cbn [expect].
  rewrite (array_at_layout _ _ Hs 1 (raw related)) by done. cbn [expect].
  rewrite (slice_rest_layout _ _ Hs 2) by done. cbn [drop concat]. rewrite app_nil_r.
  rewrite (proj2 (add_u64_ok _ _ _)) by done.
  rewrite from_to_be by done. done.
Qed.

(** The records that [process_frame] hands to [process_local]. *)
Definition plain_local (t : RecordType.t) : bool :=
  match t with
  | RecordType.SharedInputCommitment | RecordType.SharedOutputBlock
  | RecordType.SharedControlEvent | RecordType.SharedFileTransferEvent
  | RecordType.LocalDisplayBytes => false
  | _ => true
  end.

Definition flag_latest (flag : option bool) (c : VChains) : VChains :=
  match flag with
  | None => c
  | Some ambiguity => set_vlatest (flag_file ambiguity <$> v_latest_file c) c
  end.

Lemma process_local_ok t now (related : ChainHead) kind v flag v1 :
  plain_local t = true -> is_u64 now -> FixedBytes.wf related ->
  flushable (stream_get (v_last_block (v_chains v)) SharedStream.Input) (v_input_batch (v_chains v)) ->
  flushable (stream_get (v_last_block (v_chains v)) SharedStream.Output) (v_output_batch (v_chains v)) ->
  check_local (IoError:=IoError) t related kind (flushed v) = (Ok flag, v1) ->
  v_local_count (v_chains v1) + 1 < 2 ^ 64 ->
  process_frame (IoError:=IoError) t (local_payload now related kind) v
  = (Ok tt, set_vchains (flag_latest flag (local_after t now related kind (v_chains v1))) v1).
Proof.
  intros Ht Hn Hr Hi Ho Hcheck Hc.
  assert (process_frame (IoError:=IoError) t (local_payload now related kind)
          = (flush_batches ≫= fun _ => process_local t (local_payload now related kind))) as ->
    by (by destruct t).
  rewrite (stm_bind_step _ _ _ _ _ (flush_ok v Hi Ho)).
  pose proof (local_payload_sizes now related kind Hr) as Hs.
  assert (zlen (local_payload now related kind) = 40 + zlen kind) as Hlen.
  { unfold local_payload. rewrite zlen_concat, Hs. cbn. lia. }
  unfold process_local. pose proof (zlen_nonneg kind).
  rewrite (stm_bind_step _ _ tt _ (flushed v));
    [|apply ensure_true; unfold SPLIT_PREFIX_LEN, DIGEST_LEN; apply Z.leb_le; lia].
  unfold mbind at 1, stm_bind at 1, lift at 1. unfold local_payload at 1.
  rewrite (array_at_layout _ _ Hs 1 (raw related)) by done. cbn [expect].
  unfold mbind at 1, stm_bind at 1, lift at 1. unfold local_payload at 1 2.
  rewrite (slice_rest_layout _ _ Hs 2) by done. cbn [drop concat]. rewrite app_nil_r.
  rewrite fixed_new_raw. rewrite (stm_bind_step _ _ _ _ _ Hcheck).
  rewrite (stm_bind_step _ _ _ _ _ (commit_local_ok t now related kind v1 Hn Hr Hc)).
  by destruct flag.
Qed.

Lemma process_display_ok now (related : ChainHead) display v :
  is_u64 now -> FixedBytes.wf related ->
  flushable (stream_get (v_last_block (v_chains v)) SharedStream.Output) (v_output_batch (v_chains v)) ->
  (related = zero_head \/ related = stream_get (v_last_block (v_chains v)) SharedStream.Output) ->
  v_local_count (v_chains v) + 1 < 2 ^ 64 ->
  process_frame (IoError:=IoError) RecordType.LocalDisplayBytes (local_payload now related display) v
  = (Ok tt, set_vchains (local_after RecordType.LocalDisplayBytes now related display
                           (set_batches (v_input_batch (v_chains v)) None (v_chains v))) v).
Proof.
  intros Hn Hr Ho Hrel Hc. pose proof (local_payload_sizes now related display Hr) as Hs.
  assert (zlen (local_payload now related display) = 40 + zlen display) as Hlen.
  { unfold local_payload. rewrite zlen_concat, Hs. cbn. lia. }
  pose proof (zlen_nonneg display). cbn [process_frame]. unfold process_display.
  rewrite (stm_bind_step _ _ tt _ v);
    [|apply ensure_true; unfold SPLIT_PREFIX_LEN, DIGEST_LEN; apply Z.leb_le; lia].
  unfold mbind at 1, stm_bind at 1, lift at 1. unfold local_payload at 1.
  rewrite (array_at_layout _ _ Hs 1 (raw related)) by done. cbn [expect]. rewrite fixed_new_raw.
  unfold mbind at 1, stm_bind at 1, gets at 1.
  rewrite (stm_bind_step _ _ tt _ v).
  2:{ apply ensure_true. destruct (v_output_batch (v_chains v)), Hrel as [Hz|Hz];
      rewrite (bool_decide_true _ Hz); by rewrite ?orb_true_r. }
  rewrite (stm_bind_step _ _ tt _ (set_vchains (set_batches (v_input_batch (v_chains v)) None (v_chains v)) v)).
  - by rewrite commit_local_ok.
  - destruct v as [h a [sh lh lc lb lf ib ob] p m]. unfold flush_output_batch, mbind, stm_bind, gets,
      mret, stm_ret, on_vchains, modify, ensure, flushable in *. cbn in *.
    destruct ob as [ob|]; cbn; [by rewrite Ho|done].
Qed.

(** ** Shared records *)

Lemma check_shared_ok stream domain direction sequence kind canonical v :
  let chain := stream_get (v_shared (v_chains v)) stream in
  let head : ChainHead := FixedBytes.new
    (shared_event_hash domain (raw (chain_head chain)) (SharedStream.index stream) direction sequence
       kind canonical) in
  sequence = chain_count chain + 1 -> sequence < 2 ^ 64 ->
  check_shared (IoError:=IoError) stream domain direction sequence kind canonical (chain_head chain) head v
  = (Ok tt, set_vchains (advance_vshared stream (Chain sequence head) (v_chains v)) v).
Proof.
  intros chain head Hs Hlt. unfold check_shared, mbind, stm_bind, gets, lift, ensure. fold chain.
  rewrite (proj2 (add_u64_ok _ _ sequence)) by lia.
  rewrite Z.eqb_refl, bool_decide_true by done. cbn [andb mret stm_ret].
  rewrite bool_decide_true by done. done.
Qed.

Lemma decode_block_ok n direction sequence length digest (previous head : ChainHead) :
  n = 113 -> is_u8 direction -> is_u64 sequence -> is_u64 length -> is_array DIGEST_LEN digest ->
  FixedBytes.wf previous -> FixedBytes.wf head ->
  decode_shared_block (IoError:=IoError) n (block_payload direction sequence length digest (raw previous) (raw head))
  = Ok (Decoded direction sequence length digest previous head).
Proof.
  intros -> Hd Hs Hl [_ Hdig] [_ Hp] [_ Hh].
  pose (parts := [[direction]; to_be_bytes 8 sequence; to_be_bytes 8 length; digest; raw previous; raw head]).
  assert (zlen (A:=Z) <$> parts = [1; 8; 8; 32; 32; 32]) as Hsz.
  { cbn. by rewrite !zlen_to_be, Hdig, Hp, Hh. }
  assert (block_payload direction sequence length digest (raw previous) (raw head) = concat parts) as ->
    by (cbn; by rewrite app_nil_r).
  unfold decode_shared_block. rewrite zlen_concat, Hsz. cbn [negb zsum foldr Z.add Z.eqb Pos.eqb].
  unfold parts in *. read_layout Hsz. cbn [expect mbind res_bind].
  by rewrite !from_to_be, !fixed_new_raw by done.
Qed.

(** One canonical block, as the record of its stream: its place in the chain and its digest. *)
Definition chain_next (domain : list Z) (stream : SharedStream.t) (direction kind : Z)
    (canonical : list Z) (chain : SharedChain) : SharedChain :=
  Chain (chain_count chain + 1)
    (FixedBytes.new (shared_event_hash domain (raw (chain_head chain)) (SharedStream.index stream)
                       direction (chain_count chain + 1) kind canonical)).

Definition mark_stream (stream : SharedStream.t) (c : VChains) : VChains :=
  match stream with
  | SharedStream.Input => set_batches (mark_block (v_input_batch c)) (v_output_batch c) c
  | _ => set_batches (v_input_batch c) (mark_block (v_output_batch c)) c
  end.

Definition block_type (stream : SharedStream.t) : RecordType.t :=
  match stream with SharedStream.Input => RecordType.SharedInputCommitment | _ => RecordType.SharedOutputBlock end.
Definition block_domain (stream : SharedStream.t) : list Z :=
  match stream with SharedStream.Input => CHAIN_INPUT_DOMAIN | _ => CHAIN_OUTPUT_DOMAIN end.
Definition block_direction (stream : SharedStream.t) : Z :=
  match stream with SharedStream.Input => DIRECTION_CTRL_TO_HOST | _ => DIRECTION_HOST_TO_CTRL end.
Definition is_byte_stream (stream : SharedStream.t) : bool :=
  match stream with SharedStream.Input | SharedStream.Output => true | _ => false end.

Lemma sha256_head_wf l : FixedBytes.wf (FixedBytes.new (sha256 l) : ChainHead).
Proof. apply sha256_array. Qed.

Lemma process_block_ok stream digest length v :
  is_byte_stream stream = true -> is_array DIGEST_LEN digest -> is_u64 length ->
  let chain := stream_get (v_shared (v_chains v)) stream in
  let next := chain_next (block_domain stream) stream (block_direction stream) 1
                (to_be_bytes 8 length ++ digest) chain in
  chain_ok chain -> chain_count chain + 1 < 2 ^ 64 ->
  process_frame (IoError:=IoError) (block_type stream)
    (block_payload (block_direction stream) (chain_count next) length digest (raw (chain_head chain))
       (raw (chain_head next))) v
  = (Ok tt, set_vchains (advance_vshared stream next (mark_stream stream (v_chains v))) v).
Proof.
  intros Hst Hdig Hlen chain next [[Hc0 _] Hwf] Hc.
  set (v' := set_vchains (mark_stream stream (v_chains v)) v).
  assert (stream_get (v_shared (v_chains v')) stream = chain) as Hv' by (by destruct stream).
  assert (forall payload,
    process_frame (IoError:=IoError) (block_type stream) payload v =
    (d ← decoded (decode_shared_block (IoError:=IoError) 113 payload);
     _ ← ensure (d_direction d =? block_direction stream) INCONSISTENT_SHARED;
     check_shared stream (block_domain stream) (d_direction d) (d_sequence d) 1
       (to_be_bytes 8 (d_length d) ++ d_digest d) (d_previous_head d) (d_new_head d)) v') as Hproc
    by (intros payload; destruct stream; done).
  rewrite Hproc. unfold mbind at 1, stm_bind at 1, decoded, lift.
  rewrite decode_block_ok; try done; [|by destruct stream|by unfold is_u64; cbn; lia|apply sha256_head_wf].
  cbn [map_err d_direction d_sequence d_length d_digest d_previous_head d_new_head].
  unfold mbind at 1, stm_bind at 1, ensure. rewrite Z.eqb_refl.
  pose proof (check_shared_ok stream (block_domain stream) (block_direction stream)
    (chain_count chain + 1) 1 (to_be_bytes 8 length ++ digest) v') as Hck.
  cbn zeta in Hck. rewrite Hv' in Hck. specialize (Hck eq_refl Hc). refine (eq_trans Hck _).
  by destruct v as [? ? [] ? ?].
Qed.

Definition control_payload (direction sequence kind : Z) (body : list Z) (previous head : ChainHead)
  : list Z :=
  concat [[direction]; to_be_bytes 8 sequence; [kind]; body; raw previous; raw head].

Lemma decode_control_ok direction sequence kind body (previous head : ChainHead) :
  is_u64 sequence -> FixedBytes.wf previous -> FixedBytes.wf head ->
  decode_shared_control (IoError:=IoError) (control_payload direction sequence kind body previous head)
  = Ok (DecodedControl direction sequence kind body previous head).
Proof.
  intros Hs [_ Hp] [_ Hh]. unfold control_payload.
  set (parts := [[direction]; to_be_bytes 8 sequence; [kind]; body; raw previous; raw head]).
  assert (zlen (A:=Z) <$> parts = [1; 8; 1; zlen body; 32; 32]) as Hsz
    by (cbn; by rewrite zlen_to_be, Hp, Hh).
  unfold decode_shared_control. rewrite zlen_concat, Hsz. cbn [zsum foldr].
  pose proof (zlen_nonneg body). unfold DIGEST_LEN.
  rewrite (proj2 (Z.ltb_ge _ _)) by lia.
  rewrite (index_layout _ _ Hsz 0 [direction] 0 direction 0) by done. cbn [mbind res_bind].
  rewrite (uint_at_layout _ _ Hsz 1 (to_be_bytes 8 sequence) 8 1 9) by done. cbn [expect mbind res_bind].
  rewrite (index_layout _ _ Hsz 2 [kind] 0 kind 9) by done. cbn [mbind res_bind].
  rewrite (slice_layout _ _ Hsz 3 body) by (done || cbn; lia). cbn [mbind res_bind].
  rewrite (array_at_layout _ _ Hsz 4 (raw previous) 32 (1 + (8 + (1 + (zlen body + (32 + (32 + 0))))) - 2 * 32))
    by (done || cbn; lia). cbn [expect mbind res_bind].
  rewrite (array_at_layout _ _ Hsz 5 (raw head)) by (done || cbn; lia). cbn [expect mbind res_bind].
  by rewrite from_to_be, !fixed_new_raw by done.
Qed.

Lemma process_control_ok direction kind body v :
  is_direction direction = true -> control_kind_payload_len kind (zlen body) = true ->
  flushable (stream_get (v_last_block (v_chains v)) SharedStream.Input) (v_input_batch (v_chains v)) ->
  flushable (stream_get (v_last_block (v_chains v)) SharedStream.Output) (v_output_batch (v_chains v)) ->
  let chain := stream_get (v_shared (v_chains v)) SharedStream.Control in
  let next := chain_next CHAIN_CONTROL_DOMAIN SharedStream.Control direction kind
                (resize 97 ([kind] ++ body)) chain in
  chain_ok chain -> chain_count chain + 1 < 2 ^ 64 ->
  process_frame (IoError:=IoError) RecordType.SharedControlEvent
    (control_payload direction (chain_count next) kind body (chain_head chain) (chain_head next)) v
  = (Ok tt, set_vchains (advance_vshared SharedStream.Control next (v_chains (flushed v))) v).
Proof.
  intros Hd Hk Hi Ho chain next [[Hc0 _] Hwf] Hc. cbn [process_frame].
  rewrite (stm_bind_step _ _ _ _ _ (flush_ok v Hi Ho)). unfold process_shared_control, decoded.
  unfold mbind at 1, stm_bind at 1, lift.
  rewrite decode_control_ok;
    [|change (chain_count next) with (chain_count chain + 1); unfold is_u64; lia|done|apply sha256_head_wf].
  cbn [map_err c_direction c_sequence c_kind c_control_payload c_previous_head c_new_head].
  rewrite (stm_bind_step _ _ tt _ (flushed v)) by (by apply ensure_true).
  rewrite (stm_bind_step _ _ tt _ (flushed v)) by (by apply ensure_true).
  refine (eq_trans (check_shared_ok SharedStream.Control CHAIN_CONTROL_DOMAIN direction
    (chain_count chain + 1) kind (resize 97 ([kind] ++ body)) (flushed v) eq_refl Hc) _). done.
Qed.

(** ** File records *)

Section Reading.
Context (sizes : list Z) (parts : list (list Z)).
Hypothesis Hsizes : zlen (A:=Z) <$> parts = sizes.
Hypothesis Hsmall : zlen (concat parts) < 2 ^ 64.

Lemma read_fixed_layout k p n cursor :
  parts !! k = Some p -> sizes !! k = Some n -> cursor = zsum (take k sizes) ->
  read_fixed (IoError:=IoError) n (concat parts) cursor = Ok (p, cursor + n).
Proof.
  intros Hk Hn ->. destruct (concat_at _ _ Hsizes k p Hk) as (l1 & l2 & Hl & <- & _).
  assert (zlen p = n) as <-.
  { subst sizes. rewrite list_lookup_fmap, Hk in Hn. by injection Hn. }
  rewrite Hl in *. autorewrite with zlen in Hsmall. pose proof (zlen_nonneg l2).
  unfold read_fixed. rewrite checked_add_u64_some by lia. cbn [ok_or mbind res_bind].
  rewrite get_range_app by done. cbn [ok_or mbind res_bind]. by rewrite try_into_exact.
Qed.

Lemma read_u64_layout k x cursor :
  parts !! k = Some (to_be_bytes 8 x) -> sizes !! k = Some 8 -> is_u64 x ->
  cursor = zsum (take k sizes) -> read_u64 (IoError:=IoError) (concat parts) cursor = Ok (x, cursor + 8).
Proof.
  intros Hk Hn Hx Hc. unfold read_u64. rewrite (read_fixed_layout k _ 8 _ Hk Hn Hc). cbn.
  by rewrite from_to_be.
Qed.

Lemma read_u16_layout k x cursor :
  parts !! k = Some (to_be_bytes 2 x) -> sizes !! k = Some 2 -> is_u16 x ->
  cursor = zsum (take k sizes) -> read_u16 (IoError:=IoError) (concat parts) cursor = Ok (x, cursor + 2).
Proof.
  intros Hk Hn Hx Hc. unfold read_u16. rewrite (read_fixed_layout k _ 2 _ Hk Hn Hc). cbn.
  by rewrite from_to_be.
Qed.

Lemma read_str_layout k text cursor :
  parts !! k = Some (to_be_bytes 2 (as_u16 (zlen text))) -> sizes !! k = Some 2 ->
  parts !! S k = Some text -> zlen text < 2 ^ 16 -> valid_utf8 text -> cursor = zsum (take k sizes) ->
  read_str (IoError:=IoError) (concat parts) cursor = Ok (text, cursor + 2 + zlen text).
Proof.
  intros Hk Hn Ht Hlt Hu Hc. pose proof (zlen_nonneg text).
  unfold read_str. rewrite (read_u16_layout k _ _ Hk Hn) by (done || (rewrite as_u16_small by lia; split; lia)).
  rewrite as_u16_small by lia. cbn [mbind res_bind].
  destruct (concat_at _ _ Hsizes (S k) text Ht) as (l1 & l2 & Hl & Hz & _).
  assert (cursor + 2 = zlen l1) as ->.
  { destruct (concat_at _ _ Hsizes k _ Hk) as (l3 & _ & _ & H3 & H4). rewrite zlen_to_be in H4. lia. }
  rewrite Hl in *. autorewrite with zlen in Hsmall. pose proof (zlen_nonneg l2).
  rewrite checked_add_u64_some by lia. cbn [ok_or mbind res_bind].
  rewrite get_range_app by done. cbn [ok_or mbind res_bind].
  by rewrite (proj2 (from_utf8_some text text)).
Qed.
End Reading.

(** The facts a shared file record carries, as the file protocol delivers them. *)
Record facts_wf (f : FileTransferFacts) : Prop := {
  facts_transfer_id : is_u64 (transfer_id f);
  facts_declared : is_u64 (declared_size f);
  facts_final : is_u64 (final_size f);
  facts_digest_wf : FixedBytes.wf (facts_digest f);
  facts_path : bytes (remote_path f) /\ valid_utf8 (remote_path f);
  facts_name : bytes (file_name f) /\ valid_utf8 (file_name f);
  facts_error : is_u16 (error_code f);
}.

Definition file_parts (f : FileTransferFacts) (sequence : Z) (previous head : ChainHead)
  : list (list Z) :=
  [[facts_direction f]; to_be_bytes 8 sequence; [facts_kind f]; to_be_bytes 8 (transfer_id f);
   to_be_bytes 8 (declared_size f); to_be_bytes 8 (final_size f); raw (facts_digest f);
   to_be_bytes 2 (as_u16 (zlen (remote_path f))); remote_path f;
   to_be_bytes 2 (as_u16 (zlen (file_name f))); file_name f; to_be_bytes 2 (error_code f);
   raw previous; raw head].

Definition decoded_file (f : FileTransferFacts) (sequence : Z) (previous head : ChainHead)
  : DecodedSharedFile :=
  DecodedFile (facts_direction f) sequence (facts_kind f) (transfer_id f) (declared_size f)
    (final_size f) (raw (facts_digest f)) (remote_path f) (file_name f) (error_code f) previous head.

Lemma file_parts_sizes f sequence (previous head : ChainHead) :
  facts_wf f -> FixedBytes.wf previous -> FixedBytes.wf head ->
  zlen (A:=Z) <$> file_parts f sequence previous head
  = [1; 8; 1; 8; 8; 8; 32; 2; zlen (remote_path f); 2; zlen (file_name f); 2; 32; 32].
Proof.
  intros [_ _ _ [_ Hd] _ _ _] [_ Hp] [_ Hh]. cbn. by rewrite !zlen_to_be, Hd, Hp, Hh.
Qed.

Lemma decode_file_ok f sequence (previous head : ChainHead) :
  facts_wf f -> is_u64 sequence -> FixedBytes.wf previous -> FixedBytes.wf head ->
  zlen (remote_path f) <= MAX_PROTOCOL_PATH_LEN -> zlen (file_name f) <= MAX_PROTOCOL_FILE_NAME_LEN ->
  decode_shared_file (IoError:=IoError) (concat (file_parts f sequence previous head))
  = Ok (decoded_file f sequence previous head).
Proof.
  intros Hf Hs Hp Hh Hrl Hnl. unfold MAX_PROTOCOL_PATH_LEN, MAX_PROTOCOL_FILE_NAME_LEN in *.
  pose proof (file_parts_sizes f sequence previous head Hf Hp Hh) as Hsz.
  destruct Hf as [Ht Hd Hfi [_ Hdig] [_ Hru] [_ Hnu] He].
  pose proof (zlen_nonneg (remote_path f)). pose proof (zlen_nonneg (file_name f)).
  set (parts := file_parts f sequence previous head) in *.
  assert (zlen (concat parts) = 136 + zlen (remote_path f) + zlen (file_name f)) as Hlen
    by (rewrite zlen_concat, Hsz; cbn; lia).
  assert (zlen (concat parts) < 2 ^ 64) as Hsm by lia.
  unfold decode_shared_file. change (list.head (concat parts)) with (Some (facts_direction f)).
  cbn [ok_or mbind res_bind].
  rewrite (read_u64_layout _ _ Hsz Hsm 1 sequence 1) by done. cbn [mbind res_bind].
  replace (concat parts !! Z.to_nat (1 + 8)) with (Some (facts_kind f)).
  2:{ destruct (concat_at _ _ Hsz 2 [facts_kind f] eq_refl) as (l1 & l2 & -> & Hz & _).
      change (1 + 8) with 9. change (zsum (take 2 _)) with 9 in Hz. rewrite <- Hz. unfold zlen.
      rewrite Nat2Z.id. symmetry. by apply list_lookup_middle. }
  cbn [ok_or mbind res_bind].
  rewrite (read_u64_layout _ _ Hsz Hsm 3 (transfer_id f) (1 + 8 + 1)) by done. cbn [mbind res_bind].
  rewrite (read_u64_layout _ _ Hsz Hsm 4 (declared_size f)) by done. cbn [mbind res_bind].
  rewrite (read_u64_layout _ _ Hsz Hsm 5 (final_size f)) by done. cbn [mbind res_bind].
  rewrite (read_fixed_layout _ _ Hsz Hsm 6 (raw (facts_digest f)) DIGEST_LEN) by done. cbn [mbind res_bind].
  rewrite (read_str_layout _ _ Hsz Hsm 7 (remote_path f)) by (done || lia). cbn [mbind res_bind].
  rewrite (read_str_layout _ _ Hsz Hsm 9 (file_name f)) by (done || (cbn; unfold DIGEST_LEN; lia)).
  cbn [mbind res_bind].
  rewrite (read_u16_layout _ _ Hsz Hsm 11 (error_code f)) by (done || (cbn; unfold DIGEST_LEN; lia)).
  cbn [mbind res_bind].
  rewrite (read_fixed_layout _ _ Hsz Hsm 12 (raw previous) DIGEST_LEN)
    by (done || (cbn; unfold DIGEST_LEN; lia)). cbn [mbind res_bind].
  rewrite (read_fixed_layout _ _ Hsz Hsm 13 (raw head) DIGEST_LEN)
    by (done || (cbn; unfold DIGEST_LEN; lia)). cbn [mbind res_bind].
  rewrite (proj2 (Z.eqb_eq _ _)) by (unfold DIGEST_LEN; lia). cbn [negb].
  by rewrite !fixed_new_raw.
Qed.

Lemma file_canonical_eq f sequence (previous head : ChainHead) :
  file_canonical (decoded_file f sequence previous head)
  = concat (take 10 (drop 2 (file_parts f sequence previous head))) ++ zeros 64.
Proof. cbn. rewrite <- !app_assoc. done. Qed.

Lemma process_file_ok f v :
  is_file_direction (facts_direction f) = true -> is_file_kind (facts_kind f) = true -> facts_wf f ->
  zlen (remote_path f) <= MAX_PROTOCOL_PATH_LEN -> zlen (file_name f) <= MAX_PROTOCOL_FILE_NAME_LEN ->
  flushable (stream_get (v_last_block (v_chains v)) SharedStream.Input) (v_input_batch (v_chains v)) ->
  flushable (stream_get (v_last_block (v_chains v)) SharedStream.Output) (v_output_batch (v_chains v)) ->
  let chain := stream_get (v_shared (v_chains v)) SharedStream.FileTransfer in
  let canonical := concat (take 10 (drop 2 (file_parts f 0 zero_head zero_head))) ++ zeros 64 in
  let next := chain_next CHAIN_FILE_DOMAIN SharedStream.FileTransfer (facts_direction f)
                (facts_kind f) canonical chain in
  chain_ok chain -> chain_count chain + 1 < 2 ^ 64 ->
  process_frame (IoError:=IoError) RecordType.SharedFileTransferEvent
    (concat (file_parts f (chain_count next) (chain_head chain) (chain_head next))) v
  = (Ok tt, set_vchains
       (set_vlatest (Some (LatestFile (chain_head next) (transfer_id f) (facts_direction f)
                             (facts_kind f) false false))
          (advance_vshared SharedStream.FileTransfer next (v_chains (flushed v)))) v).
Proof.
  intros Hd Hk Hf Hrl Hnl Hi Ho chain canonical next [[Hc0 _] Hwf] Hc. cbn [process_frame].
  rewrite (stm_bind_step _ _ _ _ _ (flush_ok v Hi Ho)). unfold process_shared_file, decoded.
  unfold mbind at 1, stm_bind at 1, lift.
  rewrite decode_file_ok; try done;
    [|change (chain_count next) with (chain_count chain + 1); unfold is_u64; lia|apply sha256_head_wf].
  cbn [map_err]. rewrite file_canonical_eq.
  cbn [decoded_file f_direction f_kind f_sequence f_previous_head f_new_head f_transfer_id].
  rewrite (stm_bind_step _ _ tt _ (flushed v))
    by (apply ensure_true; change is_direction with is_file_direction; by rewrite Hd, Hk).
  rewrite (stm_bind_step _ _ tt _
    (set_vchains (advance_vshared SharedStream.FileTransfer next (v_chains (flushed v))) v)).
  - done.
  - refine (eq_trans (check_shared_ok SharedStream.FileTransfer CHAIN_FILE_DOMAIN (facts_direction f)
      (chain_count chain + 1) (facts_kind f) canonical (flushed v) eq_refl Hc) _). done.
Qed.
End Verifier.

(** ** What the session's steps do *)

Section SessionSteps.
Context {IoError : Type} `{AuditCryptoLaws} {I L : Type}
  `{!PersistentIdentity (IoError:=IoError) I} `{!Ledger (IoError:=IoError) L}.
Local Notation st := (session I L).
Implicit Types (s : st).

(** The local chain of the session after one more record. *)
Definition s_local_after (t : RecordType.t) (now : Z) (related : ChainHead) (kind : list Z) (c : Chains)
  : Chains :=
  set_local (FixedBytes.new (local_event_hash (raw (local_head c)) (local_count c + 1) now
                               (RecordType.code t) kind (raw related)))
    (local_count c + 1) c.

Lemma commit_local_run t kind (related : ChainHead) now s u s' :
  commit_local (IoError:=IoError) t kind related now s = (Ok u, s') ->
  s' = set_chains (s_local_after t now related kind (chains s)) s /\
  local_count (chains s) + 1 < 2 ^ 64.
Proof.
  unfold commit_local. intros Hr. inv_run.
  match goal with H : add_u64 _ _ = Ok _ |- _ => apply add_u64_ok in H as [-> ?] end. done.
Qed.

Lemma local_payload_eq now (related : ChainHead) kind :
  local_prefix now related ++ kind = local_payload now related kind.
Proof. unfold local_prefix, local_payload. cbn. by rewrite app_nil_r, <- app_assoc. Qed.

Lemma push_local_run batch t kind (related : ChainHead) now s batch' s' :
  push_local (IoError:=IoError) batch t kind related now s = (Ok batch', s') ->
  s' = set_chains (s_local_after t now related kind (chains s)) s /\
  local_count (chains s) + 1 < 2 ^ 64 /\
  forall l, frames batch l -> frames batch' (l ++ [(t, local_payload now related kind)]).
Proof.
  unfold push_local. rewrite local_payload_eq. intros Hr. inv_run.
  all: match goal with H : commit_local _ _ _ _ _ = _ |- _ => apply commit_local_run in H as [-> ?] end.
  all: split_and!; [done..|]; intros l Hl.
  - by eapply push_inline_frames.
  - by eapply push_boxed_frames.
Qed.

Lemma process_frames_app (l1 l2 : list record) v v1 :
  process_frames (IoError:=IoError) l1 v = (Ok tt, v1) ->
  process_frames (IoError:=IoError) (l1 ++ l2) v = process_frames (IoError:=IoError) l2 v1.
Proof.
  unfold process_frames. revert v. induction l1 as [|r l1 IH]; intros v Hr; [by injection Hr as ->|].
  cbn [for_each app] in *. apply stm_bind_ok in Hr as ([] & v2 & H2 & Hr).
  rewrite (stm_bind_step _ _ _ _ _ H2). by apply IH.
Qed.

Lemma process_frames_one t p v : process_frames (IoError:=IoError) [(t, p)] v = process_frame t p v.
Proof.
  unfold process_frames. cbn. unfold mbind, stm_bind.
  destruct (process_frame t p v) as [[[]|e|] v']; done.
Qed.

(** ** Canonical blocks, chained *)

(** The records of consecutive blocks and the chain after them. *)
Fixpoint chain_blocks (build : Z -> Z -> list Z -> ChainHead -> list Z * ChainHead)
    (chain : SharedChain) (bs : list (list Z)) : BlockCollector * SharedChain :=
  match bs with
  | [] => ([], chain)
  | b :: bs =>
    let '(payload, head) := build (chain_count chain + 1) (zlen b) b (chain_head chain) in
    let '(rs, chain') := chain_blocks build (Chain (chain_count chain + 1) head) bs in
    (Completed payload head :: rs, chain')
  end.

(** The session's chains after blocks were chained. *)
Definition blocks_after (stream : SharedStream.t) (bs : list (list Z)) (chain' : SharedChain)
    (c : Chains) : Chains :=
  match bs with [] => c | _ => advance_shared stream chain' c end.

Lemma advance_twice stream c1 c2 c :
  advance_shared stream c2 (advance_shared stream c1 c) = advance_shared stream c2 c.
Proof. by destruct stream. Qed.

Lemma stream_get_set {A} stream (a : A) p : stream_get (stream_set stream a p) stream = a.
Proof. by destruct stream. Qed.

Lemma collect_ok {F} completed b completed' :
  expect (F:=F) (collect (IoError:=IoError) completed b) = Ok completed' ->
  completed' = completed ++ [b].
Proof. unfold collect. case_match; cbn; intros; by simplify_eq. Qed.

Lemma on_block_run stream build bs s done s' done' :
  for_each bs (on_block (IoError:=IoError) stream build) (s, done) = (Ok tt, (s', done')) ->
  let chain := stream_get (shared (chains s)) stream in
  exists bytes due,
    let '(rs, chain') := chain_blocks build chain bs in
    done' = done ++ rs /\ (bs = [] \/ chain_count chain + zlen bs < 2 ^ 64) /\
    s' = set_points (set_shared_bytes bytes due (points s))
           (set_chains (blocks_after stream bs chain' (chains s)) s).
Proof.
  revert s done. induction bs as [|b bs IH]; intros s done Hr chain.
  - injection Hr as <- <-. exists (checkpoint_shared_bytes (points s)), (checkpoint_due_flag (points s)).
    cbn. rewrite app_nil_r. split_and!; [done|by left|]. by destruct s as [? ? ? ? [] ? ?].
  - cbn [for_each] in Hr. apply stm_bind_ok in Hr as ([] & [s1 done1] & H1 & Hr).
    unfold on_block in H1. inv_run. cbn [id] in H1. fold chain in H1. inv_run.
    match goal with H : add_u64 _ _ = Ok _ |- _ => apply add_u64_ok in H as [-> ?] end.
    destruct (build (chain_count chain + 1) (zlen b) b (chain_head chain)) as [payload head] eqn:Hb.
    inv_run.
    match goal with H : add_u64 _ _ = Ok _ |- _ => apply add_u64_ok in H as [-> ?] end.
    match goal with H : expect _ = Ok _ |- _ => apply collect_ok in H as -> end.
    match goal with H : (s1, done1) = (_, _) |- _ => injection H as -> -> end.
    specialize (IH _ _ Hr). cbn zeta in IH. cbn [chains set_points set_chains points] in IH.
    destruct IH as (bytes & due & IH). exists bytes, due. cbn [chain_blocks].
    fold chain. rewrite Hb.
    replace (stream_get (shared (advance_shared stream (Chain (chain_count chain + 1) head) (chains s))) stream)
      with (Chain (chain_count chain + 1) head) in IH by (by destruct stream).
    destruct (chain_blocks build _ bs) as [rs chain'] eqn:Hcb. destruct IH as (-> & Hc & ->).
    split_and!.
    + by rewrite <- app_assoc.
    + right. rewrite zlen_cons. cbn [chain_count] in Hc. destruct Hc as [->|Hc]; [rewrite zlen_nil|]; lia.
    + destruct bs as [|b' bs]; cbn [blocks_after]; [|by rewrite advance_twice].
      by injection Hcb as <- <-.
Qed.

(** Closing a stream emits its buffered bytes as one block, if there are any. *)
Definition last_blocks (pending : list Z) : list (list Z) :=
  if zlen pending =? 0 then [] else [pending].

Lemma finish_blocks {S} (f : list Z -> stm S (AuditError (IoError:=IoError)) unit) n pending :
  buffers n pending -> exists n', forall t : S,
    ('(_, n) ← Normalizer.finish f n; mret n) t
    = (for_each (last_blocks pending) f ≫= fun _ => mret n') t.
Proof.
  intros Hn. destruct (finish_eq f n pending Hn) as (n' & _ & Hrun). exists n'. intros t.
  unfold mbind at 1, stm_bind at 1. rewrite Hrun. unfold last_blocks.
  destruct (zlen pending =? 0); [done|]. cbn. unfold mbind, stm_bind.
  by destruct (f pending t) as [[[]|e|] t'].
Qed.

(** A method of the normalizer that runs the callback on [bs] and leaves [n']. *)
Lemma with_normalizer_run stream build run bs n' s completed s' :
  (forall t, run (on_block (IoError:=IoError) stream build) (normalizer stream (chains s)) t
             = (for_each bs (on_block stream build) ≫= fun _ => mret n') t) ->
  with_normalizer stream build run s = (Ok completed, s') ->
  let chain := stream_get (shared (chains s)) stream in
  exists bytes due,
    let '(rs, chain') := chain_blocks build chain bs in
    completed = rs /\ (bs = [] \/ chain_count chain + zlen bs < 2 ^ 64) /\
    s' = set_points (set_shared_bytes bytes due (points s))
           (set_chains (set_normalizer stream n' (blocks_after stream bs chain' (chains s))) s).
Proof.
  intros Hrun Hr chain. unfold with_normalizer in Hr. rewrite Hrun in Hr.
  unfold mbind, stm_bind in Hr.
  destruct (for_each bs (on_block stream build) (s, [])) as [[[]|e|] [s1 done1]] eqn:Hf; try done.
  injection Hr as <- <-. apply on_block_run in Hf. destruct Hf as (bytes & due & Hf).
  exists bytes, due. fold chain in Hf. destruct (chain_blocks build chain bs) as [rs chain'].
  destruct Hf as (-> & Hc & ->). split_and!; done.
Qed.

(** ** The verifier on chained blocks *)

(** What [input_block] and [output_block] have in common. *)
Definition builds (stream : SharedStream.t)
    (build : Z -> Z -> list Z -> ChainHead -> list Z * ChainHead) : Prop :=
  forall sequence length block previous, exists digest, is_array DIGEST_LEN digest /\
    let head := shared_event_hash (block_domain stream) (raw previous) (SharedStream.index stream)
                  (block_direction stream) sequence 1 (to_be_bytes 8 length ++ digest) in
    build sequence length block previous
    = (block_payload (block_direction stream) sequence length digest (raw previous) head,
       FixedBytes.new head).

Lemma input_builds key : builds SharedStream.Input (input_block key).
Proof.
  intros sequence length block previous.
  exists (hmac_sha256 key (CHAIN_INPUT_DOMAIN ++ [DIRECTION_CTRL_TO_HOST] ++ to_be_bytes 8 sequence
                             ++ to_be_bytes 8 length ++ block)).
  split; [apply hmac_array|reflexivity].
Qed.

Lemma output_builds : builds SharedStream.Output output_block.
Proof.
  intros sequence length block previous. exists (sha256 block). split; [apply sha256_array|reflexivity].
Qed.

(** The verifier's chains after the same blocks. *)
Definition vblocks_after (stream : SharedStream.t) (bs : list (list Z)) (chain' : SharedChain)
    (c : VChains) : VChains :=
  match bs with [] => c | _ => advance_vshared stream chain' (mark_stream stream c) end.

Lemma process_blocks_ok stream build bs v rs chain' :
  is_byte_stream stream = true -> builds stream build ->
  let chain := stream_get (v_shared (v_chains v)) stream in
  chain_blocks build chain bs = (rs, chain') -> chain_ok chain ->
  (bs = [] \/ chain_count chain + zlen bs < 2 ^ 64) -> Forall (fun b => is_u64 (zlen b)) bs ->
  process_frames (IoError:=IoError) ((fun b => (block_type stream, block_record b)) <$> rs) v
  = (Ok tt, set_vchains (vblocks_after stream bs chain' (v_chains v)) v) /\
  chain_ok chain' /\ last_head rs = (match bs with [] => None | _ => Some (chain_head chain') end).
Proof.
  intros Hst Hbuild. revert v rs. induction bs as [|b bs IH]; intros v rs chain Hcb Hok Hc Hlen.
  - injection Hcb as <- <-. split_and!; [|done|done]. by destruct v.
  - apply Forall_cons in Hlen as [Hb Hlen]. cbn [chain_blocks] in Hcb.
    destruct (Hbuild (chain_count chain + 1) (zlen b) b (chain_head chain)) as (digest & Hdig & Hbd).
    rewrite Hbd in Hcb. destruct Hc as [|Hc]; [done|]. rewrite zlen_cons in Hc. pose proof (zlen_nonneg bs).
    set (next := chain_next (block_domain stream) stream (block_direction stream) 1
                   (to_be_bytes 8 (zlen b) ++ digest) chain).
    change (Chain (chain_count chain + 1) _) with next in Hcb.
    destruct (chain_blocks build next bs) as [rs' chain''] eqn:Hcb'. injection Hcb as <- <-.
    assert (chain_count chain + 1 < 2 ^ 64) as Hc1 by lia.
    pose proof (process_block_ok (IoError:=IoError) stream digest (zlen b) v Hst Hdig Hb Hok Hc1) as Hp.
    cbn zeta in Hp. fold chain next in Hp.
    set (v1 := set_vchains (advance_vshared stream next (mark_stream stream (v_chains v))) v) in *.
    assert (stream_get (v_shared (v_chains v1)) stream = next) as Hv1 by (by destruct stream).
    assert (chain_ok next) as Hnext.
    { split; [|apply sha256_head_wf]. destruct Hok as [[? ?] _].
      change (chain_count next) with (chain_count chain + 1). unfold is_u64. lia. }
    destruct (IH v1 rs') as (Hrun & Hok' & Hlast).
    + by rewrite Hv1.
    + by rewrite Hv1.
    + rewrite Hv1. right. change (chain_count next) with (chain_count chain + 1). lia.
    + done.
    + split_and!; [|done|].
      * etransitivity; [apply (process_frames_app [_] _ v v1); by rewrite process_frames_one|].
        etransitivity; [exact Hrun|]. destruct bs as [|b' bs]; cbn [vblocks_after].
        -- injection Hcb' as <- <-. done.
        -- clear. destruct v as [? ? [? ? ? ? ? ib ob] ? ?], stream, ib, ob; reflexivity.
      * unfold last_head in *. destruct rs' as [|r rs'].
        -- destruct bs as [|b' bs]; [by injection Hcb' as <-|].
           cbn [chain_blocks] in Hcb'. destruct (build _ _ _ _), (chain_blocks _ _ bs). done.
        -- destruct bs as [|b' bs]; [done|]. done.
Qed.
End SessionSteps.
