(* ===== verification/AuditSimulation.v ===== *)
(** * The verifier follows the session

    [follows] relates a session in the middle of its recording to the verifier that has walked
    the frames it emitted; every operation of [AuditSession] keeps it ([AuditTrace] has the
    lemmas on single records). *)

From stdpp Require Import strings.
From S2P Require Import Prelude Domain Codec Layout WireAudit AuditCodecs AuditContainer AuditSigning AuditWriter Stateful AuditEvents AuditSession AuditNormalize ChainVerifier AuditTrace.
Open Scope string_scope.
Open Scope list_scope.
Open Scope Z_scope.

(** ** The relation *)

(** The verifier's reference to a checkpoint. *)
Definition ref_of `{AuditCrypto} (c : Checkpoint.t) : CheckpointRef :=
  Ref (Checkpoint.sequence c) (sha256 (concat (checkpoint_fields c))) (Checkpoint.snapshot c).

Definition confirmed_at (n : Z) (c : option CheckpointRef) : Prop :=
  match c with None => n = 0 | Some r => ref_sequence r = n /\ 0 < n end.

(** [n] is the number of local records: every checkpoint is recorded, so their sequence
    numbers stay below it and never wrap. *)
Record points_follow `{AuditCrypto} (n : Z) (p : Checkpoints) (q : VPoints) : Prop := {
  pf_bound : last_sent_checkpoint_seq q <= n /\ last_received_checkpoint_seq q <= n /\
    0 <= last_confirmed_sent_checkpoint_sequence p <= last_sent_checkpoint_seq q;
  pf_sent_range : is_u64 (last_sent_checkpoint_seq q);
  pf_next : next_checkpoint_sequence p = wrapping_next (last_sent_checkpoint_seq q);
  pf_received_range : is_u64 (last_received_checkpoint_seq q);
  pf_received : last_received_checkpoint_seq q = default 0 (fst <$> last_received_checkpoint p);
  pf_sent_ref : v_last_sent_checkpoint q = ref_of <$> last_sent_checkpoint p;
  pf_sent_wf : forall c, last_sent_checkpoint p = Some c ->
    checkpoint_wf c /\ Checkpoint.sequence c = last_sent_checkpoint_seq q;
  pf_received_acks : last_received_ack_seq q = last_confirmed_sent_checkpoint_sequence p;
  pf_sent_acks : last_sent_ack_seq q = last_received_checkpoint_seq q;
  pf_confirmed_sent : confirmed_at (last_confirmed_sent_checkpoint_sequence p) (last_confirmed_sent q);
  pf_confirmed_received : confirmed_at (last_received_checkpoint_seq q) (last_confirmed_received q);
  pf_confirmed_sequence : last_confirmed_received_checkpoint_sequence p = last_received_checkpoint_seq q;
}.

(** The manifest evidence the verifier has collected, which most operations leave alone. *)
Class ManifestsHeld := held_manifests : VManifests.

Section Simulation.
Context {IoError : Type} `{AuditCryptoLaws} {I L : Type}
  `{!PersistentIdentity (IoError:=IoError) I} `{!Ledger (IoError:=IoError) L}
  {HM : ManifestsHeld}.
Local Notation st := (session I L).
Implicit Types (s : st) (v : verifier).

(** What the container header and hello say about the session that wrote them. *)
Record static_ok (s : st) (v : verifier) : Prop := {
  so_role : AuditContainerHeader.role (v_header v) = role (own s);
  so_session : session_id (peer s) = Some (AuditContainerHeader.session_id (v_header v));
  so_session_wf : FixedBytes.wf (AuditContainerHeader.session_id (v_header v));
  so_key : raw (AuditContainerHeader.session_pubkey (v_header v)) = ed_public (session_key (own s));
  so_pubkey : raw (session_pubkey (own s)) = ed_public (session_key (own s));
  so_peer : exists ph, peer_hello (peer s) = Some ph /\ FixedBytes.wf (AuditHello.session_key ph) /\
    AuditContainerHeader.peer_session_pubkey (v_header v) = AuditHello.session_key ph;
  so_peer_print : forall f, peer_fingerprint (peer s) = Some f -> FixedBytes.wf f;
  so_ledger : raw (ledger_snapshot_digest (own s))
    = sha256 (to_be_bytes 8 (AuditContainerHeader.ledger_sequence (v_header v))
                ++ raw (AuditContainerHeader.previous_ledger_root (v_header v)));
  so_binding : AuditHello.connection_binding (v_hello v) = binding (own s);
  so_binding_wf : FixedBytes.wf (binding (own s));
  so_terminal : terminal_hello_digest (peer s)
    = Some (AuditContainerHeader.terminal_hello_digest (v_header v));
  so_terminal_wf : FixedBytes.wf (AuditContainerHeader.terminal_hello_digest (v_header v));
  so_print_wf : FixedBytes.wf (fingerprint (identity (own s)));
  so_identity : AuditContainerHeader.identity_pubkey (v_header v) = public_key (identity (own s));
  so_peer_identity : forall f, peer_fingerprint (peer s) = Some f ->
    f = FixedBytes.new (sha256 (raw (AuditContainerHeader.peer_identity_pubkey (v_header v))));
  so_manifests : v_manifests v = held_manifests;
}.

Record follows (s : st) (v : verifier) : Prop := {
  fo_chains : chains_follow (chains s) (v_chains v);
  fo_ok : chains_ok (chains s);
  fo_points : points_follow (local_count (chains s)) (points s) (v_points v);
  fo_static : static_ok s v;
  fo_open : phase s = Active -> normalizers_open (chains s);
}.

(** The frames of a batch take the verifier to a state that follows the new session. *)
Definition sim (v : verifier) (batch : RecordBatch) (s' : st) : Prop :=
  exists l v', frames batch l /\ process_frames (IoError:=IoError) l v = (Ok tt, v') /\ follows s' v'.

Lemma sim_intro batch l v v' s' :
  frames batch l -> process_frames (IoError:=IoError) l v = (Ok tt, v') -> follows s' v' -> sim v batch s'.
Proof. by exists l, v'. Qed.

(** ** Frame conditions *)

Lemma static_keep s s' v v' :
  own s' = own s -> peer s' = peer s -> v_header v' = v_header v -> v_hello v' = v_hello v ->
  v_manifests v' = v_manifests v -> static_ok s v -> static_ok s' v'.
Proof. intros Ho Hp Hh Ha Hm [???????????????]. split; rewrite ?Ho, ?Hp, ?Hh, ?Ha, ?Hm; done. Qed.

Lemma points_mono n n' p q : points_follow n p q -> n <= n' -> points_follow n' p q.
Proof. intros [[??] ???????????] Hn. split; try done. lia. Qed.

Lemma points_keep n n' p q bytes due :
  points_follow n p q -> n <= n' -> points_follow n' (set_shared_bytes bytes due p) q.
Proof. intros [[??] ???????????] Hn. split; try done. cbn. lia. Qed.

(** One more local record on both sides; the batches may have changed. *)
Lemma local_follow t now (related : ChainHead) kind c vc vc' :
  chains_follow c vc -> v_shared vc' = v_shared vc -> v_local_head vc' = v_local_head vc ->
  v_local_count vc' = v_local_count vc -> v_last_block vc' = v_last_block vc ->
  v_latest_file vc' = v_latest_file vc ->
  flushable (stream_get (v_last_block vc') SharedStream.Input) (v_input_batch vc') ->
  flushable (stream_get (v_last_block vc') SharedStream.Output) (v_output_batch vc') ->
  chains_follow (s_local_after t now related kind c) (local_after t now related kind vc').
Proof.
  intros [H1 H2 H3 H4 H5 _ _] E1 E2 E3 E4 E5 Hi Ho.
  split; cbn; [by rewrite E1|by rewrite E2, E3, H2, H3|by rewrite E3, H3|by intros; rewrite E4|
    by rewrite E5|done..].
Qed.

Lemma local_after_ok t now (related : ChainHead) kind c :
  chains_ok c -> local_count c + 1 < 2 ^ 64 -> chains_ok (s_local_after t now related kind c).
Proof.
  intros [Hl Hs [[? ?] [? ?]]] Hc. split; cbn; [done..|].
  split; [unfold is_u64; cbn; lia|]. split; [apply sha256_array|done].
Qed.

Lemma follows_flushable s v :
  follows s v ->
  flushable (stream_get (v_last_block (v_chains v)) SharedStream.Input) (v_input_batch (v_chains v)) /\
  flushable (stream_get (v_last_block (v_chains v)) SharedStream.Output) (v_output_batch (v_chains v)).
Proof. by intros [[] _ _ _ _]. Qed.

(** ** Local records *)

(** [follows] without the checkpoints, which an operation changes on its own. *)
Record tracks (s : st) (v : verifier) : Prop := {
  tr_chains : chains_follow (chains s) (v_chains v);
  tr_ok : chains_ok (chains s);
  tr_static : static_ok s v;
  tr_open : phase s = Active -> normalizers_open (chains s);
}.

Lemma follows_tracks s v : follows s v -> tracks s v.
Proof. by intros []. Qed.

Lemma tracks_follow s v :
  tracks s v -> points_follow (local_count (chains s)) (points s) (v_points v) -> follows s v.
Proof. by intros []. Qed.

Lemma tracks_points p s v : tracks s v -> tracks (set_points p s) v.
Proof. intros [Hc Hok Hst Hop]. split; try done. by apply (static_keep s _ v). Qed.

(** No batch is open. *)
Definition settled (v : verifier) : Prop :=
  v_input_batch (v_chains v) = None /\ v_output_batch (v_chains v) = None.

End Simulation.

Section LocalStep.
Context {IoError : Type} `{AuditCryptoLaws} {I L : Type}
  `{!PersistentIdentity (IoError:=IoError) I} `{!Ledger (IoError:=IoError) L}
  {HM0 HM1 : ManifestsHeld}.
Local Notation st := (session I L).
Implicit Types (s : st) (v : verifier).

(** A local record that opens no batch and names no file. *)
Lemma local_step_to t kind (related : ChainHead) now s v batch batch' s' l0 v0 v1 :
  frames batch l0 -> process_frames (IoError:=IoError) l0 v0 = (Ok tt, v) -> tracks (HM:=HM0) s v ->
  plain_local t = true -> is_u64 now -> FixedBytes.wf related ->
  check_local (IoError:=IoError) t related kind (flushed v) = (Ok None, v1) ->
  v_chains v1 = v_chains (flushed v) -> v_header v1 = v_header v -> v_hello v1 = v_hello v ->
  v_manifests v1 = HM1 ->
  push_local (IoError:=IoError) batch t kind related now s = (Ok batch', s') ->
  exists l v', frames batch' l /\ process_frames (IoError:=IoError) l v0 = (Ok tt, v') /\
    tracks (HM:=HM1) s' v' /\ v_points v' = v_points v1 /\ settled v'.
Proof.
  intros Hb Hl0 [Hch Hok Hst Hop] Ht Hn Hr Hcheck Hvc Hvh Hva Hvm Hpush.
  apply push_local_run in Hpush as (-> & Hc & Hfr).
  pose proof (follow_input _ _ Hch) as Hi. pose proof (follow_output _ _ Hch) as Ho.
  assert (v_local_count (v_chains v1) = local_count (chains s)) as Hvcount
    by (rewrite Hvc; cbn; apply Hch).
  pose proof (process_local_ok t now related kind v None v1 Ht Hn Hr Hi Ho Hcheck ltac:(by rewrite Hvcount)) as Hrun.
  eexists _, _. split; [by apply Hfr|]. split.
  { rewrite (process_frames_app _ _ _ _ Hl0), process_frames_one. exact Hrun. }
  split; [split|split; [done|split; cbn; by rewrite Hvc]].
  - cbn. eapply local_follow; [exact Hch|by rewrite Hvc..].
  - by apply local_after_ok.
  - destruct Hst. by split; cbn; rewrite ?Hvh, ?Hva.
  - done.
Qed.

End LocalStep.

Section Records.
Context {IoError : Type} `{AuditCryptoLaws} {I L : Type}
  `{!PersistentIdentity (IoError:=IoError) I} `{!Ledger (IoError:=IoError) L}
  {HM : ManifestsHeld}.
Local Notation st := (session I L).
Implicit Types (s : st) (v : verifier).

(** The same where the manifest evidence stays. *)
Lemma local_step t kind (related : ChainHead) now s v batch batch' s' l0 v0 v1 :
  frames batch l0 -> process_frames (IoError:=IoError) l0 v0 = (Ok tt, v) -> tracks s v ->
  plain_local t = true -> is_u64 now -> FixedBytes.wf related ->
  check_local (IoError:=IoError) t related kind (flushed v) = (Ok None, v1) ->
  v_chains v1 = v_chains (flushed v) -> v_header v1 = v_header v -> v_hello v1 = v_hello v ->
  v_manifests v1 = v_manifests v ->
  push_local (IoError:=IoError) batch t kind related now s = (Ok batch', s') ->
  exists l v', frames batch' l /\ process_frames (IoError:=IoError) l v0 = (Ok tt, v') /\
    tracks s' v' /\ v_points v' = v_points v1 /\ settled v'.
Proof.
  intros Hb Hl0 Htr Ht Hn Hr Hcheck Hvc Hvh Hva Hvm. rewrite (so_manifests _ _ (tr_static _ _ Htr)) in Hvm.
  by apply (local_step_to t kind related now s v batch batch' s' l0 v0 v1).
Qed.

Lemma local_sim t kind (related : ChainHead) now s v batch batch' s' l0 v0 v1 :
  frames batch l0 -> process_frames (IoError:=IoError) l0 v0 = (Ok tt, v) -> follows s v ->
  plain_local t = true -> is_u64 now -> FixedBytes.wf related ->
  check_local (IoError:=IoError) t related kind (flushed v) = (Ok None, v1) ->
  v_chains v1 = v_chains (flushed v) -> v_header v1 = v_header v -> v_hello v1 = v_hello v ->
  v_manifests v1 = v_manifests v -> points_follow (local_count (chains s) + 1) (points s) (v_points v1) ->
  push_local (IoError:=IoError) batch t kind related now s = (Ok batch', s') ->
  sim v0 batch' s'.
Proof.
  intros Hb Hl0 Hf Ht Hn Hr Hcheck Hvc Hvh Hva Hvm Hp Hpush.
  destruct (local_step t kind related now s v batch batch' s' l0 v0 v1 Hb Hl0 (follows_tracks _ _ Hf)
    Ht Hn Hr Hcheck Hvc Hvh Hva Hvm Hpush) as (l & v' & Hl & Hrun & Htr & Hpts & _).
  apply push_local_run in Hpush as (-> & _ & _).
  exists l, v'. split_and!; [done..|]. apply tracks_follow; [done|]. by rewrite Hpts.
Qed.

Lemma recordable_run s u s' : require_recordable (IoError:=IoError) s = (Ok u, s') -> s' = s /\ phase s = Active.
Proof. unfold require_recordable. intros Hr. inv_run. by destruct (phase s); inv_run. Qed.

(** The same for a batch of its own. *)
Lemma local_only_sim t kind (related : ChainHead) now s v batch' s' v1 :
  follows s v -> plain_local t = true -> is_u64 now -> FixedBytes.wf related ->
  check_local (IoError:=IoError) t related kind (flushed v) = (Ok None, v1) ->
  v_chains v1 = v_chains (flushed v) -> v_header v1 = v_header v -> v_hello v1 = v_hello v ->
  v_manifests v1 = v_manifests v -> points_follow (local_count (chains s) + 1) (points s) (v_points v1) ->
  record_local_only (IoError:=IoError) t kind related now s = (Ok batch', s') ->
  sim v batch' s'.
Proof.
  unfold record_local_only. intros Hf Ht Hn Hr Hck H1 H2 H3 H4 H5 Hr'. inv_run.
  match goal with H : require_recordable _ = _ |- _ => apply recordable_run in H as [-> _] end.
  by eapply (local_sim t kind related now s v [] batch' s' [] v v1 frames_nil).
Qed.

(** The last block of a stream, on both sides. *)
Lemma last_block_eq s v stream :
  follows s v -> last_block_or_zero stream s = stream_get (v_last_block (v_chains v)) stream.
Proof.
  intros Hf. unfold last_block_or_zero. rewrite (last_is_head _ (fo_ok _ _ Hf)).
  symmetry. apply (follow_last _ _ (fo_chains _ _ Hf)).
Qed.

Lemma last_block_wf s v stream : follows s v -> FixedBytes.wf (last_block_or_zero stream s).
Proof.
  intros Hf. destruct (fo_ok _ _ Hf) as [Hl Hs _]. unfold last_block_or_zero. rewrite Hl. apply Hs.
Qed.

(** A local record whose checks only read the verifier's state. *)
Lemma plain_sim t kind (related : ChainHead) now s v batch' s' :
  follows s v -> plain_local t = true -> is_u64 now -> FixedBytes.wf related ->
  check_local (IoError:=IoError) t related kind (flushed v) = (Ok None, flushed v) ->
  record_local_only (IoError:=IoError) t kind related now s = (Ok batch', s') -> sim v batch' s'.
Proof. intros Hf Ht Hn Hr Hck Hrec. eapply local_only_sim; try done.
  eapply points_mono; [apply Hf|lia].
Qed.

Lemma zlen_outcome o b : zlen ([o] ++ to_be_bytes 8 b) = 9.
Proof. rewrite zlen_app, zlen_to_be. done. Qed.

Lemma send_outcome_sim direction confirmed n now s v batch s' :
  follows s v -> is_direction direction = true -> is_u64 now ->
  record_send_outcome (IoError:=IoError) direction confirmed n now s = (Ok batch, s') -> sim v batch s'.
Proof.
  unfold record_send_outcome. intros Hf Hd Hn Hr. inv_run.
  refine (plain_sim _ _ _ _ _ _ _ _ Hf _ Hn _ _ Hr); [done|by eapply last_block_wf|].
  unfold check_local. rewrite (stm_bind_step _ _ (flushed v) _ (flushed v)) by done. cbv beta iota zeta.
  rewrite (stm_bind_step _ _ tt _ (flushed v))
    by (apply ensure_true; rewrite zlen_app, zlen_outcome; done).
  rewrite (stm_bind_step _ _ direction _ (flushed v)) by done.
  rewrite (stm_bind_step _ _ tt _ (flushed v)) by (by apply ensure_true).
  rewrite (stm_bind_step _ _ tt _ (flushed v)); [done|]. apply ensure_true, bool_decide_true.
  unfold related_for_direction. by rewrite (last_block_eq s v _ Hf).
Qed.

Lemma pty_outcome_sim confirmed n now s v batch s' :
  follows s v -> is_u64 now ->
  record_pty_write_outcome (IoError:=IoError) confirmed n now s = (Ok batch, s') -> sim v batch s'.
Proof.
  unfold record_pty_write_outcome. intros Hf Hn Hr. inv_run.
  refine (plain_sim _ _ _ _ _ _ _ _ Hf _ Hn _ _ Hr); [done|by eapply last_block_wf|].
  unfold check_local, mbind, stm_bind, gets. rewrite ensure_true; [done|].
  rewrite zlen_outcome. apply andb_true_intro. split; [done|].
  apply bool_decide_true. exact (last_block_eq s v _ Hf).
Qed.

Lemma display_outcome_sim confirmed n now s v batch s' :
  follows s v -> is_u64 now ->
  record_display_write_outcome (IoError:=IoError) confirmed n now s = (Ok batch, s') -> sim v batch s'.
Proof.
  unfold record_display_write_outcome. intros Hf Hn Hr. inv_run.
  refine (plain_sim _ _ _ _ _ _ _ _ Hf _ Hn _ _ Hr); [done|by eapply last_block_wf|].
  unfold check_local, mbind, stm_bind, gets. rewrite ensure_true; [done|].
  rewrite zlen_outcome. apply andb_true_intro. split; [done|].
  apply bool_decide_true. exact (last_block_eq s v _ Hf).
Qed.

(** The observer relates a lifecycle record to the head of the control chain. *)
Definition record_lifecycle (kind now : Z) : stm st (AuditError (IoError:=IoError)) RecordBatch :=
  head ← gets (fun s => chain_head (stream_get (shared (chains s)) SharedStream.Control));
  record_local_lifecycle kind head now.

Lemma lifecycle_sim kind now s v batch s' :
  follows s v -> is_u64 now -> record_lifecycle kind now s = (Ok batch, s') -> sim v batch s'.
Proof.
  unfold record_lifecycle, record_local_lifecycle. intros Hf Hn Hr. inv_run.
  refine (plain_sim _ _ _ _ _ _ _ _ Hf _ Hn _ _ Hr); [done|apply (shared_ok _ (fo_ok _ _ Hf))|].
  unfold check_local, mbind, stm_bind, gets. rewrite ensure_true; [done|].
  cbn. rewrite (follow_last _ _ (fo_chains _ _ Hf) SharedStream.Control : on_control _ = _).
  by rewrite bool_decide_true.
Qed.

Lemma key_action_sim action now s v batch s' :
  follows s v -> is_u64 now ->
  record_key_action (IoError:=IoError) action now s = (Ok batch, s') -> sim v batch s'.
Proof.
  intros Hf Hn Hr. refine (plain_sim _ _ _ _ _ _ _ _ Hf _ Hn _ _ Hr); [done|apply zero_head_wf|].
  unfold check_local, mbind, stm_bind, gets. by rewrite ensure_true.
Qed.

Lemma connection_state_sim state now s v batch s' :
  follows s v -> is_u64 now ->
  record_connection_state (IoError:=IoError) state now s = (Ok batch, s') -> sim v batch s'.
Proof.
  intros Hf Hn Hr. refine (plain_sim _ _ _ _ _ _ _ _ Hf _ Hn _ _ Hr); [done|apply zero_head_wf|].
  unfold check_local, mbind, stm_bind, gets. by rewrite ensure_true.
Qed.

Lemma audit_error_sim code now s v batch s' :
  follows s v -> is_u64 now ->
  record_local_audit_error (IoError:=IoError) code now s = (Ok batch, s') -> sim v batch s'.
Proof.
  intros Hf Hn Hr. refine (plain_sim _ _ _ _ _ _ _ _ Hf _ Hn _ _ Hr); [done|apply zero_head_wf|].
  unfold check_local, mbind, stm_bind, gets. by rewrite ensure_true by (rewrite zlen_to_be; done).
Qed.

(** ** Terminal input and output *)

Lemma chains_follow_ext c c' vc :
  chains_follow c vc -> shared c' = shared c -> local_head c' = local_head c ->
  local_count c' = local_count c -> latest_file_event c' = latest_file_event c -> chains_follow c' vc.
Proof. intros [????? ? ?] E1 E2 E3 E4. split; rewrite ?E1, ?E2, ?E3, ?E4; done. Qed.

Definition batch_of (stream : SharedStream.t) (vc : VChains) : option BatchState :=
  match stream with SharedStream.Input => v_input_batch vc | _ => v_output_batch vc end.

Definition other_stream (stream : SharedStream.t) : SharedStream.t :=
  match stream with SharedStream.Input => SharedStream.Output | _ => SharedStream.Input end.

(** The head a batch of blocks ends with, as the local record before it names it. *)
Definition blocks_head (bs : list (list Z)) (chain' : SharedChain) : ChainHead :=
  match bs with [] => zero_head | _ => chain_head chain' end.

(** Chained blocks on both sides, the verifier's batch being open and naming the last one. *)
Lemma blocks_follow stream bs chain' c vc :
  is_byte_stream stream = true ->
  v_shared vc = shared c -> v_local_head vc = local_head c -> v_local_count vc = local_count c ->
  (forall x, stream_get (v_last_block vc) x = chain_head (stream_get (shared c) x)) ->
  v_latest_file vc = latest_file_event c ->
  batch_of stream vc = Some (Batch (blocks_head bs chain') false) ->
  batch_of (other_stream stream) vc = None ->
  chains_follow (blocks_after stream bs chain' c) (vblocks_after stream bs chain' vc).
Proof.
  intros Hst E1 E2 E3 E4 E5 Hb Hn. destruct vc as [vs vlh vlc vlb vlf vib vob].
  cbn in *. subst vs vlh vlc vlf.
  destruct stream; try done; cbn in Hb, Hn; subst vib vob;
    (destruct bs as [|b bs]; split; cbn; try done; try (intros []; cbn; done || apply (E4 _));
     try (by rewrite bool_decide_true); try (apply bool_decide_true; done)).
  - intros []; try done; [apply (E4 SharedStream.Output)|apply (E4 SharedStream.Control)|apply (E4 SharedStream.FileTransfer)].
  - intros []; try done; [apply (E4 SharedStream.Input)|apply (E4 SharedStream.Control)|apply (E4 SharedStream.FileTransfer)].
Qed.

(** The session after a method of a normalizer: points, chains and buffer. *)
Definition fed stream n' bs chain' bytes due s : st :=
  set_points (set_shared_bytes bytes due (points s))
    (set_chains (set_normalizer stream n' (blocks_after stream bs chain' (chains s))) s).

Lemma blocks_u64 l : Forall (fun b => is_u64 (zlen b)) (whole_blocks l).
Proof.
  eapply Forall_impl; [apply whole_blocks_full|]. unfold full, is_u64. intros b Hb. rewrite Hb. by vm_compute.
Qed.

Lemma feed_run stream build bytes pending s completed s1 :
  buffers (normalizer stream (chains s)) pending ->
  with_normalizer (IoError:=IoError) stream build (fun f n => Normalizer.feed f n bytes) s = (Ok completed, s1) ->
  exists bs n' chain' shared_bytes due,
    chain_blocks build (stream_get (shared (chains s)) stream) bs = (completed, chain') /\
    (bs = [] \/ chain_count (stream_get (shared (chains s)) stream) + zlen bs < 2 ^ 64) /\
    Forall (fun b => is_u64 (zlen b)) bs /\ (exists pending', buffers n' pending') /\
    s1 = fed stream n' bs chain' shared_bytes due s.
Proof.
  intros Hn Hr. destruct (feed_eq (on_block (IoError:=IoError) (I:=I) (L:=L) stream build) _ _ bytes Hn) as (n' & Hn' & Hrun).
  destruct (with_normalizer_run stream build _ _ n' s completed s1 Hrun Hr) as (sb & due & Hs).
  destruct (chain_blocks build _ _) as [rs chain'] eqn:Hcb. destruct Hs as (-> & Hc & ->).
  exists (whole_blocks (pending ++ bytes)), n', chain', sb, due.
  split_and!; try done; [apply blocks_u64|by eexists].
Qed.

Lemma blocks_after_local stream bs chain' c :
  local_head (blocks_after stream bs chain' c) = local_head c /\
  local_count (blocks_after stream bs chain' c) = local_count c /\
  latest_file_event (blocks_after stream bs chain' c) = latest_file_event c /\
  input_normalizer (blocks_after stream bs chain' c) = input_normalizer c /\
  output_normalizer (blocks_after stream bs chain' c) = output_normalizer c.
Proof. by destruct bs. Qed.

Lemma blocks_after_ok stream bs chain' c :
  chains_ok c -> chain_ok chain' -> chains_ok (blocks_after stream bs chain' c).
Proof.
  intros [Hl Hs Hloc] Hok. destruct bs as [|b bs]; [done|]. split; cbn; [| |done].
  - intros x. specialize (Hl x). destruct stream, x; cbn in *; done.
  - intros x. specialize (Hs x). destruct stream, x; cbn in *; done.
Qed.

Lemma set_normalizer_ok stream n c : chains_ok c -> chains_ok (set_normalizer stream n c).
Proof. intros [???]. by destruct stream; split. Qed.

Lemma open_after stream n' bs chain' c :
  is_byte_stream stream = true -> normalizers_open c -> (exists pending, buffers n' pending) ->
  normalizers_open (set_normalizer stream n' (blocks_after stream bs chain' c)).
Proof. intros Hst [Hi Ho] Hn. by destruct stream, bs. Qed.

(** Reading the flushed verifier. *)
Lemma flushed_follow s v : follows s v -> chains_follow (chains s) (v_chains (flushed v)).
Proof. intros Hf. destruct (fo_chains _ _ Hf) as [????? ? ?]. by split. Qed.

(** A local record that opens the batch of a stream. *)
Definition open_batch stream (related : ChainHead) (vc : VChains) : VChains :=
  match stream with
  | SharedStream.Input => set_batches (Some (Batch related false)) None vc
  | _ => set_batches None (Some (Batch related false)) vc
  end.

Definition opened stream related v : verifier :=
  set_vchains (open_batch stream related (v_chains v)) v.

Section ByteStream.
Variables (stream : SharedStream.t) (t : RecordType.t)
  (build : Z -> Z -> list Z -> ChainHead -> list Z * ChainHead).
Hypothesis Hstream : is_byte_stream stream = true.
Hypothesis Hbuild : builds stream build.
Hypothesis Hplain : plain_local t = true.

(** The blocks of the stream, behind the local record [t] that names the last of them. *)
Lemma open_blocks_follow now related kind bs chain' s v :
  follows s v -> related = blocks_head bs chain' ->
  chains_follow (s_local_after t now related kind (set_normalizer stream (normalizer stream (chains s))
                   (blocks_after stream bs chain' (chains s))))
    (vblocks_after stream bs chain'
       (local_after t now related kind (v_chains (opened stream related v)))).
Proof.
  intros Hf Erel. pose proof (flushed_follow _ _ Hf) as Hff.
  eapply (chains_follow_ext (blocks_after stream bs chain' (s_local_after t now related kind (chains s)))).
  - destruct Hff as [H1 H2 H3 H4 H5 _ _]. cbn in H1, H2, H3, H4, H5.
    apply blocks_follow; subst related; destruct stream; try done; cbn; by rewrite ?H2, ?H3.
  - by destruct stream, bs.
  - by destruct stream, bs.
  - by destruct stream, bs.
  - by destruct stream, bs.
Qed.

Lemma bytes_sim bytes now kind s v completed s1 pending :
  follows s v -> is_u64 now -> buffers (normalizer stream (chains s)) pending -> phase s = Active ->
  let related := default zero_head (last_head completed) in
  check_local (IoError:=IoError) t related kind (flushed v) = (Ok None, opened stream related v) ->
  with_normalizer (IoError:=IoError) stream build (fun f n => Normalizer.feed f n bytes) s
    = (Ok completed, s1) ->
  local_count (chains s1) + 1 < 2 ^ 64 ->
  exists v', process_frames (IoError:=IoError)
      ((t, local_payload now related kind)
       :: ((fun b => (block_type stream, block_record b)) <$> completed)) v = (Ok tt, v') /\
    follows (set_chains (s_local_after t now related kind (chains s1)) s1) v' /\
    (related = zero_head \/ related = stream_get (v_last_block (v_chains v')) stream).
Proof.
  intros Hf Hn Hpend Hph related Hck Hw Hlc.
  destruct (feed_run stream build bytes pending s completed s1 Hpend Hw)
    as (bs & n' & chain' & sb & due & Hcb & Hc & Hu & Hn' & ->).
  destruct (follows_flushable _ _ Hf) as [Hi Ho]. pose proof (flushed_follow _ _ Hf) as Hff.
  destruct (blocks_after_local stream bs chain' (chains s)) as (Elh & Elc & Elf & Ein & Eon).
  assert (local_count (chains s) + 1 < 2 ^ 64) as Hlc'.
  { clear -Hlc Elc. destruct stream; cbn in Hlc; by rewrite Elc in Hlc. }
  assert (v_local_count (v_chains (opened stream related v)) = local_count (chains s)) as Evc
    by (clear -Hff; destruct stream; apply (follow_local_count _ _ Hff)).
  set (v2 := set_vchains (local_after t now related kind (v_chains (opened stream related v)))
               (opened stream related v)).
  assert (v_shared (v_chains v2) = shared (chains s)) as Esh
    by (clear -Hff; destruct stream; apply (follow_shared _ _ Hff)).
  destruct (process_blocks_ok (IoError:=IoError) stream build bs v2 completed chain')
    as (Hrun & Hok' & Hlast); rewrite ?Esh; try done; [apply (shared_ok _ (fo_ok _ _ Hf))|].
  assert (related = blocks_head bs chain') as Erel by (unfold related; rewrite Hlast; by destruct bs).
  assert (FixedBytes.wf related) as Hrw by (rewrite Erel; destruct bs; [apply zero_head_wf|apply Hok']).
  pose proof (process_local_ok t now related kind v None _ Hplain Hn Hrw Hi Ho Hck ltac:(by rewrite Evc)) as Hloc.
  eexists. split.
  { etransitivity; [apply (process_frames_app [_]); rewrite process_frames_one; exact Hloc|]. exact Hrun. }
  split; [split|].
  - eapply chains_follow_ext; [apply (open_blocks_follow now related kind bs chain' s v Hf Erel)|..];
      clear; by destruct stream, bs.
  - apply local_after_ok; [apply set_normalizer_ok, blocks_after_ok; [apply Hf|done]|].
    clear -Hlc. by destruct stream.
  - eapply points_keep; [apply Hf|]. clear -Elc. destruct stream; cbn; rewrite Elc; lia.
  - apply (static_keep s _ v); [reflexivity|reflexivity|reflexivity|reflexivity|reflexivity|apply Hf].
  - intros _. pose proof (open_after stream n' bs chain' (chains s) Hstream (fo_open _ _ Hf Hph) Hn') as Hop.
    clear -Hop. by destruct stream.
  - rewrite Erel. clear. destruct bs; [by left|right]. by destruct stream.
Qed.
End ByteStream.

Lemma required_run {A} (f : st -> option A) m s a s' :
  required (IoError:=IoError) f m s = (Ok a, s') -> s' = s /\ f s = Some a.
Proof. unfold required. intros Hr. inv_run. by destruct (f s); inv_run. Qed.

Lemma input_sim bytes now s v batch s' :
  follows s v -> is_u64 now ->
  record_input (IoError:=IoError) bytes now s = (Ok batch, s') -> sim v batch s'.
Proof.
  unfold record_input. intros Hf Hn Hr. inv_run.
  all: match goal with H : require_recordable _ = _ |- _ => apply recordable_run in H as [-> Hph] end.
  { exists [], v. by split_and!. }
  match goal with H : required _ _ _ = _ |- _ => apply required_run in H as [-> Hkey] end.
  match goal with H : push_local _ _ _ _ _ _ = _ |- _ => apply push_local_run in H as (-> & Hlc & Hfr) end.
  match goal with H : push_blocks _ _ _ = Ok _ |- _ =>
    pose proof (push_blocks_frames _ _ _ _ _ H (Hfr [] frames_nil)) as Hframes end.
  destruct (fo_open _ _ Hf Hph) as [[pending Hpend] _].
  match goal with H : with_normalizer _ _ _ _ = _ |- _ =>
    refine (match bytes_sim SharedStream.Input RecordType.LocalInputCommitment _ eq_refl (input_builds _)
              eq_refl bytes now _ s v _ _ pending Hf Hn Hpend Hph _ H Hlc with
            | ex_intro _ v' (conj Hrun (conj Hf' _)) => _ end) end.
  { unfold check_local. rewrite (stm_bind_step _ _ (flushed v) _ (flushed v)) by done. cbv beta iota zeta.
    rewrite (stm_bind_step _ _ tt _ (flushed v)) by (apply ensure_true; rewrite zlen_outcome; done).
    rewrite (stm_bind_step _ _ DIRECTION_CTRL_TO_HOST _ (flushed v)) by done.
    by rewrite (stm_bind_step _ _ tt _ (flushed v)) by (by apply ensure_true). }
  exact (sim_intro _ _ _ _ _ Hframes Hrun Hf').
Qed.

(** Display bytes behind raw output, or on their own. *)
Lemma display_sim (related : ChainHead) display now s v :
  follows s v -> is_u64 now -> FixedBytes.wf related -> local_count (chains s) + 1 < 2 ^ 64 ->
  (related = zero_head \/ related = stream_get (v_last_block (v_chains v)) SharedStream.Output) ->
  exists v', process_frame (IoError:=IoError) RecordType.LocalDisplayBytes
      (local_payload now related display) v = (Ok tt, v') /\
    follows (set_chains (s_local_after RecordType.LocalDisplayBytes now related display (chains s)) s) v'.
Proof.
  intros Hf Hn Hr Hlc Hrel. destruct (follows_flushable _ _ Hf) as [Hi Ho].
  eexists. split; [apply process_display_ok; try done; by rewrite (follow_local_count _ _ (fo_chains _ _ Hf))|].
  destruct Hf as [Hc Hok Hp Hst Hop]. split; try done.
  - by eapply local_follow.
  - by apply local_after_ok.
  - eapply points_mono; [done|]. cbn. lia.
  - by apply (static_keep s _ v).
Qed.

Lemma output_sim bytes now display s v batch s' :
  follows s v -> is_u64 now ->
  record_output_step (IoError:=IoError) bytes now display s = (Ok batch, s') -> sim v batch s'.
Proof.
  unfold record_output_step. intros Hf Hn Hr.
  apply stm_bind_ok in Hr as (? & ? & [-> Hph]%recordable_run & Hr).
  destruct (_ || _); [discriminate Hr|]. inv_run.
  match goal with H : commit_local _ _ _ _ _ = _ |- _ => apply commit_local_run in H as [-> Hlc] end.
  match goal with H : push_split _ _ _ _ = Ok _ |- _ => 
    pose proof (push_split_frames _ _ _ _ _ _ H frames_nil) as Hfr end.
  match goal with H : push_blocks _ _ _ = Ok _ |- _ =>
    pose proof (push_blocks_frames _ _ _ _ _ H Hfr) as Hframes end.
  rewrite local_payload_eq in Hframes.
  destruct (fo_open _ _ Hf Hph) as [_ [pending Hpend]].
  match goal with H : with_normalizer _ _ _ _ = _ |- _ =>
    destruct (bytes_sim SharedStream.Output RecordType.LocalRawOutput _ eq_refl output_builds
              eq_refl bytes now bytes s v _ _ pending Hf Hn Hpend Hph eq_refl H Hlc) as (v' & Hrun & Hf' & Hrel) end.
  destruct display as [display|]; inv_run; [|exact (sim_intro _ _ _ _ _ Hframes Hrun Hf')].
  match goal with H : commit_local _ _ _ _ _ = _ |- _ => apply commit_local_run in H as [-> Hlc'] end.
  match goal with H : push_split _ _ _ _ = Ok batch |- _ => 
    pose proof (push_split_frames _ _ _ _ _ _ H Hframes) as Hframes' end.
  rewrite local_payload_eq in Hframes'.
  match type of Hrel with ?r = _ \/ _ => 
    destruct (display_sim r display now _ v' Hf' Hn) as (v'' & Hrun' & Hf'') end; try done.
  { destruct Hrel as [->| ->]; [apply zero_head_wf|]. rewrite (follow_last _ _ (fo_chains _ _ Hf')).
    apply (shared_ok _ (fo_ok _ _ Hf')). }
  refine (sim_intro _ _ _ _ _ Hframes' _ Hf'').
  rewrite (process_frames_app _ _ _ _ Hrun), process_frames_one. done.
Qed.

Lemma display_bytes_sim display now s v batch s' :
  follows s v -> is_u64 now ->
  record_display_bytes (IoError:=IoError) display now s = (Ok batch, s') -> sim v batch s'.
Proof.
  unfold record_display_bytes. intros Hf Hn Hr.
  apply stm_bind_ok in Hr as (? & ? & [-> Hph]%recordable_run & Hr).
  destruct (_ <? _); [discriminate Hr|]. inv_run.
  match goal with H : commit_local _ _ _ _ _ = _ |- _ => apply commit_local_run in H as [-> Hlc] end.
  match goal with H : push_split _ _ _ _ = Ok _ |- _ => 
    pose proof (push_split_frames _ _ _ _ _ _ H frames_nil) as Hfr end.
  rewrite local_payload_eq in Hfr.
  destruct (display_sim (last_block_or_zero SharedStream.Output s) display now s v Hf Hn) as (v' & Hrun & Hf').
  - by eapply last_block_wf.
  - done.
  - right. by apply last_block_eq.
  - refine (sim_intro _ _ _ _ _ Hfr _ Hf'). exact (eq_trans (process_frames_one _ _ _) Hrun).
Qed.
End Records.
