(* ===== verification/AuditControlSim.v ===== *)
(** * Control and file records

    The operations of [AuditSession] that append to the control and file-transfer streams
    keep the verifier in step: the record they build is the one the verifier decodes, and the
    local record behind it names the new head of that stream. *)

From stdpp Require Import strings.
From S2P Require Import Prelude Domain Codec Layout WireAudit AuditCodecs AuditContainer AuditSigning AuditWriter Stateful AuditEvents AuditSession AuditNormalize ChainVerifier AuditTrace AuditSimulation.
Open Scope string_scope.
Open Scope list_scope.
Open Scope Z_scope.

(** ** Fixed buffers *)

Lemma append_run {IoError} pre n source k cur :
  append (IoError:=IoError) (written pre n) source = Ok cur -> zlen source = k -> k <= n ->
  cur = written (pre ++ source) (n - k).
Proof. unfold append. intros Ha <- Hn. rewrite append_written in Ha by done. by injection Ha as <-. Qed.

Lemma zeros_none n : n = 0 -> zeros n = [].
Proof. by intros ->. Qed.

Lemma slice_suffix {E} (l a b r : list Z) :
  slice (E:=E) l (zlen a) (zlen l) = Ok r -> l = a ++ b -> r = b.
Proof. intros Hs ->. rewrite slice_tail in Hs by (autorewrite with zlen; lia). by injection Hs. Qed.

Lemma event_hash_len `{AuditCryptoLaws} domain previous stream direction sequence kind canonical :
  zlen (raw (FixedBytes.new (shared_event_hash domain previous stream direction sequence kind canonical)
             : ChainHead)) = 32.
Proof. apply sha256_array. Qed.

Lemma head_len (head : ChainHead) : FixedBytes.wf head -> zlen (raw head) = 32.
Proof. by intros [_ Hl]. Qed.

(** Replays the appends to a fresh buffer. *)
Ltac run_appends :=
  rewrite ?start_written in *;
  repeat match goal with
  | H : write_u64 _ _ = Ok _ |- _ => unfold write_u64 in H
  | H : write_u16 _ _ = Ok _ |- _ => unfold write_u16 in H
  | H : append (written _ _) _ = Ok ?c |- _ =>
    is_var c; eapply append_run in H;
    [|rewrite ?zlen_to_be, ?zlen_cons, ?zlen_nil; first [eassumption|apply event_hash_len|reflexivity]
     |unfold DIGEST_LEN; lia]; subst c
  end.

Section ControlSim.
Context {IoError : Type} `{AuditCryptoLaws} {I L : Type}
  `{!PersistentIdentity (IoError:=IoError) I} `{!Ledger (IoError:=IoError) L}
  {HM : ManifestsHeld}.
Local Notation st := (session I L).
Implicit Types (s : st) (v : verifier).

Lemma control_len_small kind (body : list Z) :
  control_kind_payload_len kind (zlen body) = true -> zlen body <= 32.
Proof.
  unfold control_kind_payload_len, DIGEST_LEN. intros Hk.
  repeat (destruct (_ =? _); [apply Z.eqb_eq in Hk; lia|]). destruct (_ || _); [apply Z.eqb_eq in Hk; lia|].
  repeat (destruct (_ =? _); [apply Z.eqb_eq in Hk; lia|]). done.
Qed.

(** What is hashed is the control payload in its zeroed buffer. *)
Lemma control_canonical kind (body : list Z) n :
  zlen body <= 32 -> n = 96 - zlen body ->
  [kind] ++ body ++ zeros n = resize 97 ([kind] ++ body).
Proof.
  intros Hb ->. unfold resize. rewrite zlen_app. change (zlen [kind]) with 1.
  pose proof (zlen_nonneg body). rewrite take_ge by (unfold zlen in *; cbn; lia).
  rewrite <- app_assoc. do 3 f_equal. lia.
Qed.

Definition control_next direction kind body s : SharedChain :=
  chain_next CHAIN_CONTROL_DOMAIN SharedStream.Control direction kind
    (resize 97 ([kind] ++ body)) (stream_get (shared (chains s)) SharedStream.Control).

Lemma commit_control_run batch direction kind body s head batch' s' :
  chains_ok (chains s) -> zlen body <= 32 ->
  commit_shared_control (IoError:=IoError) batch direction kind body s = (Ok (head, batch'), s') ->
  let chain := stream_get (shared (chains s)) SharedStream.Control in
  let next := control_next direction kind body s in
  head = chain_head next /\ chain_count chain + 1 < 2 ^ 64 /\
  (exists shared_bytes due,
     s' = set_points (set_shared_bytes shared_bytes due (points s))
            (set_chains (advance_shared SharedStream.Control next (chains s)) s)) /\
  forall l, frames batch l ->
    frames batch' (l ++ [(RecordType.SharedControlEvent,
      control_payload direction (chain_count next) kind body (chain_head chain) (chain_head next))]).
Proof.
  intros Hok Hb Hr chain next. unfold commit_shared_control in Hr. inv_run.
  cbn [id] in *.
  match goal with H : add_u64 (chain_count _) _ = Ok _ |- _ => apply add_u64_ok in H as [-> Hc] end.
  pose proof (zlen_nonneg body). pose proof (head_len _ (proj2 (shared_ok _ Hok SharedStream.Control))) as Hprev.
  run_appends. cbn [written fst snd] in *.
  match goal with H : slice _ (zlen _) _ = Ok _ |- _ => rename H into Hcan end.
  match goal with H : slice _ 0 _ = Ok _ |- _ => rewrite slice_head in H by done; injection H as <- end.
  match goal with H : push_inline _ _ _ = Ok _ |- _ => rename H into Hpush end.
  eapply slice_suffix in Hcan; [|rewrite <- !(app_assoc (_ ++ to_be_bytes 8 _)); reflexivity].
  rewrite <- (app_assoc [kind]), control_canonical in Hcan by (unfold DIGEST_LEN; lia). rewrite Hcan in *.
  apply stm_ret_ok in Hr as [[= -> ->] ->]. split_and!; [done|done|by eexists _, _|].
  intros l Hl. refine (eq_rect _ (frames x25) (push_inline_frames _ _ _ _ _ Hpush Hl) _ _).
  unfold control_payload. cbn [concat]. by rewrite <- !app_assoc, app_nil_r.
Qed.
(** A record of a stream without batches, on both sides. *)
Lemma advance_follow stream next shared_bytes due s v :
  is_byte_stream stream = false -> chain_ok next -> follows s v ->
  follows (set_points (set_shared_bytes shared_bytes due (points s))
             (set_chains (advance_shared stream next (chains s)) s))
    (set_vchains (advance_vshared stream next (v_chains (flushed v))) v).
Proof.
  intros Hst Hnext [[H1 H2 H3 H4 H5 H6 H7] [Hl Hs Hloc] Hp Hstat Hop]. split.
  - destruct v as [? ? [vs vlh vlc vlb vlf vib vob] ? ?]; cbn in *; subst vs.
    split; cbn; try done. intros x. specialize (H4 x). by destruct stream, x.
  - split; cbn; [intros x; specialize (Hl x)|intros x; specialize (Hs x)|done]; by destruct stream, x.
  - by eapply points_keep.
  - by apply (static_keep s _ v).
  - intros Hph. specialize (Hop Hph). done.
Qed.

Lemma control_step direction kind body s v head batch s' :
  follows s v -> is_direction direction = true -> control_kind_payload_len kind (zlen body) = true ->
  commit_shared_control (IoError:=IoError) [] direction kind body s = (Ok (head, batch), s') ->
  exists l v', frames batch l /\ process_frames (IoError:=IoError) l v = (Ok tt, v') /\ follows s' v' /\
    FixedBytes.wf head /\ stream_get (v_last_block (v_chains v')) SharedStream.Control = head /\
    phase s' = phase s.
Proof.
  intros Hf Hd Hk Hr. pose proof (fo_ok _ _ Hf) as Hok. destruct (follows_flushable _ _ Hf) as [Hi Ho].
  destruct (commit_control_run _ _ _ _ _ _ _ _ Hok (control_len_small _ _ Hk) Hr)
    as (-> & Hc & (sb & due & ->) & Hfr).
  pose proof (shared_ok _ Hok SharedStream.Control) as Hchain.
  pose proof (process_control_ok (IoError:=IoError) direction kind body v Hd Hk Hi Ho) as Hp.
  cbn zeta in Hp. rewrite (follow_shared _ _ (fo_chains _ _ Hf)) in Hp. specialize (Hp Hchain Hc).
  fold (control_next direction kind body s) in Hp.
  assert (chain_ok (control_next direction kind body s)) as Hnext.
  { split; [|apply sha256_head_wf]. change (is_u64 (chain_count (stream_get (shared (chains s)) SharedStream.Control) + 1)).
    destruct Hchain as [[? ?] _]. unfold is_u64. lia. }
  eexists _, _. split; [exact (Hfr [] frames_nil)|]. split.
  { exact (eq_trans (process_frames_one _ _ _) Hp). }
  split; [by apply advance_follow|]. split; [apply Hnext|done].
Qed.

(** A control record and the local record that names it; they leave no batch open. *)
Lemma control_local_step direction kind body t lkind now s v head batch s1 batch' s' :
  follows s v -> is_u64 now -> is_direction direction = true ->
  control_kind_payload_len kind (zlen body) = true -> plain_local t = true ->
  (forall v', stream_get (v_last_block (v_chains v')) SharedStream.Control = head ->
     check_local (IoError:=IoError) t head lkind v' = (Ok None, v')) ->
  commit_shared_control (IoError:=IoError) [] direction kind body s = (Ok (head, batch), s1) ->
  push_local (IoError:=IoError) batch t lkind head now s1 = (Ok batch', s') ->
  exists l v', frames batch' l /\ process_frames (IoError:=IoError) l v = (Ok tt, v') /\ follows s' v' /\ settled v'.
Proof.
  intros Hf Hn Hd Hk Ht Hck Hr Hp.
  destruct (control_step _ _ _ _ _ _ _ _ Hf Hd Hk Hr) as (l & v1 & Hl & Hrun & Hf1 & Hw & Hlast & Hph).
  destruct (local_step t lkind head now s1 v1 batch batch' s' l v (flushed v1) Hl Hrun (follows_tracks _ _ Hf1) Ht Hn Hw)
    as (l' & v' & Hl' & Hrun' & Htr & Hpts & Hset); [by apply Hck|done..|].
  exists l', v'. split_and!; [done..| |done]. apply push_local_run in Hp as (-> & _ & _).
  apply tracks_follow; [done|]. rewrite Hpts. eapply points_mono; [apply Hf1|]. cbn. lia.
Qed.

Lemma control_local_sim direction kind body t lkind now s v head batch s1 batch' s' :
  follows s v -> is_u64 now -> is_direction direction = true ->
  control_kind_payload_len kind (zlen body) = true -> plain_local t = true ->
  (forall v', stream_get (v_last_block (v_chains v')) SharedStream.Control = head ->
     check_local (IoError:=IoError) t head lkind v' = (Ok None, v')) ->
  commit_shared_control (IoError:=IoError) [] direction kind body s = (Ok (head, batch), s1) ->
  push_local (IoError:=IoError) batch t lkind head now s1 = (Ok batch', s') -> sim v batch' s'.
Proof.
  intros Hf Hn Hd Hk Ht Hck Hr Hp.
  destruct (control_local_step direction kind body t lkind now s v head batch s1 batch' s' Hf Hn Hd Hk Ht Hck Hr Hp)
    as (l & v' & Hl & Hrun & Hf' & _). by exists l, v'.
Qed.

Lemma resize_sim direction cols rows now s v batch s' :
  follows s v -> is_u64 now -> is_direction direction = true ->
  record_resize (IoError:=IoError) direction cols rows now s = (Ok batch, s') -> sim v batch s'.
Proof.
  unfold record_resize. intros Hf Hn Hd Hr. inv_run.
  match goal with H : require_recordable _ = _ |- _ => apply recordable_run in H as [-> _] end.
  match goal with H : commit_shared_control _ _ _ _ _ = (Ok ?p, _) |- _ =>
    destruct p as [head batch0]; rename H into Hcom end.
  refine (control_local_sim _ _ _ _ _ now _ v _ _ _ _ _ Hf Hn Hd _ _ _ Hcom Hr); try done.
  intros v' Hlast. unfold check_local. rewrite (stm_bind_step _ _ v' _ v') by done. cbv beta iota zeta.
  rewrite (stm_bind_step _ _ tt _ v') by (by apply ensure_true).
  rewrite (stm_bind_step _ _ direction _ v') by done.
  rewrite (stm_bind_step _ _ tt _ v'); [done|]. apply ensure_true. rewrite Hd. by apply bool_decide_true.
Qed.

Lemma control_lifecycle_sim control_kind lifecycle_kind direction body now s v batch s' :
  follows s v -> is_u64 now -> is_direction direction = true ->
  control_kind_payload_len control_kind (zlen body) = true ->
  record_control_lifecycle (IoError:=IoError) control_kind lifecycle_kind direction body now s
    = (Ok batch, s') -> sim v batch s'.
Proof.
  unfold record_control_lifecycle. intros Hf Hn Hd Hk Hr. inv_run.
  match goal with H : require_recordable _ = _ |- _ => apply recordable_run in H as [-> _] end.
  match goal with H : commit_shared_control _ _ _ _ _ = (Ok ?p, _) |- _ =>
    destruct p as [head batch0]; rename H into Hcom end.
  refine (control_local_sim _ _ _ _ _ now _ v _ _ _ _ _ Hf Hn Hd Hk _ _ Hcom Hr); try done.
  intros v' Hlast. unfold check_local, mbind, stm_bind, gets. rewrite ensure_true; [done|].
  cbn. rewrite (Hlast : on_control _ = _). by rewrite bool_decide_true.
Qed.

(** The close reason ends the open batches, so closing the directions may follow. *)
Lemma close_reason_step direction reason now s v batch s' :
  follows s v -> is_u64 now -> is_direction direction = true ->
  record_shared_close_reason (IoError:=IoError) direction reason now s = (Ok batch, s') ->
  exists l v', frames batch l /\ process_frames (IoError:=IoError) l v = (Ok tt, v') /\ follows s' v' /\ settled v'.
Proof.
  unfold record_shared_close_reason. intros Hf Hn Hd Hr. inv_run.
  match goal with H : require_recordable _ = _ |- _ => apply recordable_run in H as [-> _] end.
  match goal with H : commit_shared_control _ _ _ _ _ = (Ok ?p, _) |- _ =>
    destruct p as [head batch0]; rename H into Hcom end.
  refine (control_local_step _ _ _ _ _ now _ v _ _ _ _ _ Hf Hn Hd _ _ _ Hcom Hr); try done.
  intros v' Hlast. unfold check_local, mbind, stm_bind, gets. rewrite ensure_true; [done|].
  cbn. rewrite (Hlast : on_control _ = _). by rewrite bool_decide_true.
Qed.

(** ** File transfers *)

Definition file_next (f : FileTransferFacts) s : SharedChain :=
  chain_next CHAIN_FILE_DOMAIN SharedStream.FileTransfer (facts_direction f) (facts_kind f)
    (concat (take 10 (drop 2 (file_parts f 0 zero_head zero_head))) ++ zeros 64)
    (stream_get (shared (chains s)) SharedStream.FileTransfer).

Definition file_record (f : FileTransferFacts) s : list Z :=
  concat (file_parts f (chain_count (file_next f s))
            (chain_head (stream_get (shared (chains s)) SharedStream.FileTransfer))
            (chain_head (file_next f s))).

(** The local path of a transfer, as the record behind the shared one names it. *)
Definition path_record (f : FileTransferFacts) (path : list Z) : list Z :=
  local_path_payload (facts_kind f) (transfer_id f) path.

(** The session's chains after the records of a file event. *)
Definition file_chains now (f : FileTransferFacts) (path : option (list Z)) s : Chains :=
  let c := match path with
           | Some p => s_local_after RecordType.LocalFileTransferEvent now (chain_head (file_next f s))
                         (path_record f p) (chains s)
           | None => chains s
           end in
  set_latest_file
    (Some (LatestFile (chain_head (file_next f s)) (transfer_id f) (facts_direction f) (facts_kind f)
             (match path with Some _ => true | None => false end) false))
    (advance_shared SharedStream.FileTransfer (file_next f s) c).

Lemma file_bytes_eq f sequence (previous head : ChainHead) n :
  n = 0 ->
  (((((((((((((([] ++ [facts_direction f]) ++ to_be_bytes 8 sequence) ++ [facts_kind f])
    ++ to_be_bytes 8 (transfer_id f)) ++ to_be_bytes 8 (declared_size f)) ++ to_be_bytes 8 (final_size f))
    ++ raw (facts_digest f)) ++ to_be_bytes 2 (as_u16 (zlen (remote_path f)))) ++ remote_path f)
    ++ to_be_bytes 2 (as_u16 (zlen (file_name f)))) ++ file_name f) ++ to_be_bytes 2 (error_code f))
    ++ raw previous) ++ raw head) ++ zeros n
  = concat (file_parts f sequence previous head).
Proof. intros ->. cbn [file_parts concat]. by rewrite <- !app_assoc. Qed.

Lemma file_run f path now s batch s' :
  chains_ok (chains s) -> facts_wf f ->
  record_file_transfer (IoError:=IoError) f path now s = (Ok batch, s') ->
  phase s = Active /\ is_file_direction (facts_direction f) = true /\ is_file_kind (facts_kind f) = true /\
  zlen (remote_path f) <= MAX_PROTOCOL_PATH_LEN /\ zlen (file_name f) <= MAX_PROTOCOL_FILE_NAME_LEN /\
  path_too_long path = false /\
  chain_count (stream_get (shared (chains s)) SharedStream.FileTransfer) + 1 < 2 ^ 64 /\
  (path = None \/ local_count (chains s) + 1 < 2 ^ 64) /\
  (exists shared_bytes,
     s' = set_points (set_shared_bytes shared_bytes true (points s)) (set_chains (file_chains now f path s) s)) /\
  frames batch ((RecordType.SharedFileTransferEvent, file_record f s)
     :: match path with
        | Some p => [(RecordType.LocalFileTransferEvent,
                      local_payload now (chain_head (file_next f s)) (path_record f p))]
        | None => []
        end).
Proof.
  intros Hok Hf Hr. unfold record_file_transfer in Hr.
  apply stm_bind_ok in Hr as (? & ? & [-> Hph]%recordable_run & Hr).
  destruct (is_file_direction _) eqn:Hd; [|discriminate Hr].
  destruct (is_file_kind _) eqn:Hk; [|discriminate Hr]. cbn [negb orb] in Hr.
  destruct (Z.ltb_spec MAX_PROTOCOL_PATH_LEN (zlen (remote_path f))) as [|Hrl]; [discriminate Hr|].
  destruct (Z.ltb_spec MAX_PROTOCOL_FILE_NAME_LEN (zlen (file_name f))) as [|Hnl]; [discriminate Hr|].
  destruct (path_too_long path) eqn:Hpl; [discriminate Hr|].
  pose proof (head_len _ (proj2 (shared_ok _ Hok SharedStream.FileTransfer))) as Hprev.
  destruct (facts_digest_wf _ Hf) as [_ Hdig]. change (FixedBytes.len _) with 32 in Hdig.
  pose proof (zlen_nonneg (remote_path f)). pose proof (zlen_nonneg (file_name f)).
  cbv zeta in Hr. inv_run. cbn [id] in *.
  match goal with H : add_u64 (chain_count _) _ = Ok _ |- _ => apply add_u64_ok in H as [-> Hc] end.
  run_appends. cbn [written fst snd] in *.
  match goal with H : slice _ (zlen _) _ = Ok _ |- _ => rename H into Hcan end.
  eapply slice_suffix in Hcan; [|rewrite <- !(app_assoc (_ ++ to_be_bytes 8 (_ + 1))); reflexivity].
  lazymatch type of Hcan with _ = ?l =>
    replace l with (concat (take 10 (drop 2 (file_parts f 0 zero_head zero_head))) ++ zeros 64)
      in Hcan end.
  2:{ cbn [file_parts take drop concat]. rewrite app_nil_r, <- !app_assoc. do 11 f_equal. unfold DIGEST_LEN. lia. }
  subst.
  match goal with H : push_boxed _ _ _ = Ok _ |- _ => 
    apply push_boxed_frames with (l := []) in H as Hfr; [|apply frames_nil] end.
  lazymatch type of Hfr with frames _ (_ ++ [(_, ?r)]) =>
    assert (r = file_record f s) as Er by (apply file_bytes_eq; unfold DIGEST_LEN; lia); rewrite Er in Hfr end.
  destruct path as [path|]; inv_run.
  - match goal with H : push_local _ _ _ _ _ _ = _ |- _ => apply push_local_run in H as (-> & Hlc & Hfr') end.
    split_and!; try done; [by right|by eexists|]. exact (Hfr' _ Hfr).
  - split_and!; try done; [by left|by eexists].
Qed.

(** The verifier's arm for a local path of the latest file event. *)
Lemma local_path_ok role latest path :
  is_file_kind (file_kind latest) = true -> is_u64 (file_transfer_id latest) ->
  local_path_recorded latest = false -> path_too_long (Some path) = false -> valid_utf8 path ->
  local_file_kind (IoError:=IoError) role latest
    (local_path_payload (file_kind latest) (file_transfer_id latest) path) = Ok false.
Proof.
  intros Hk Hid Hrec Hlen Hu. cbn in Hlen. apply Z.ltb_ge in Hlen. unfold MAX_LOCAL_PATH_LEN in Hlen.
  pose proof (zlen_nonneg path).
  set (parts := [[file_kind latest]; to_be_bytes 8 (file_transfer_id latest);
                 to_be_bytes 2 (as_u16 (zlen path)); path]).
  assert (zlen (A:=Z) <$> parts = [1; 8; 2; zlen path]) as Hsz
    by (unfold parts; rewrite !fmap_cons, !zlen_to_be; done).
  assert (local_path_payload (file_kind latest) (file_transfer_id latest) path = concat parts) as ->
    by (unfold parts, local_path_payload; cbn [concat]; by rewrite app_nil_r).
  assert (zlen (concat parts) = 11 + zlen path) as Hl by (rewrite zlen_concat, Hsz; cbn; lia).
  unfold local_file_kind. change (concat parts) with (file_kind latest :: concat (tail parts)) at 1.
  cbv iota. rewrite Hk, Hl, (proj2 (Z.ltb_ge _ _)), Hrec, Z.eqb_refl by lia. cbn [orb negb].
  rewrite (uint_at_layout _ _ Hsz 1 (to_be_bytes 8 (file_transfer_id latest)) 8 1 9) by done.
  cbn [expect mbind res_bind]. rewrite from_to_be, Z.eqb_refl by done. cbn [negb].
  rewrite (uint_at_layout _ _ Hsz 2 (to_be_bytes 2 (as_u16 (zlen path))) 2 9 11) by done.
  cbn [expect mbind res_bind]. rewrite from_to_be, as_u16_small, Z.eqb_refl
    by (try (rewrite as_u16_small by lia; split); lia). cbn [negb].
  rewrite (slice_layout _ _ Hsz 3 path) by (done || cbn; lia). cbn [mbind res_bind].
  by rewrite (proj2 (from_utf8_some path path)).
Qed.

Lemma ambiguity_ok role latest kind final_size (digest : Digest32) :
  is_ambiguity_kind kind = true -> file_kind latest = FILE_KIND_START ->
  is_u64 (file_transfer_id latest) -> ambiguity_recorded latest = false -> FixedBytes.wf digest ->
  expected_local_file_ambiguity_kind role (file_direction latest) = Some kind ->
  local_file_kind (IoError:=IoError) role latest
    (ambiguity_payload kind (file_transfer_id latest) final_size digest) = Ok true.
Proof.
  intros Hk Hs Hid Hrec [_ Hd] Hexp.
  set (parts := [[kind]; to_be_bytes 8 (file_transfer_id latest); to_be_bytes 8 final_size; raw digest; zeros 2]).
  assert (zlen (A:=Z) <$> parts = [1; 8; 8; 32; 2]) as Hsz
    by (unfold parts; rewrite !fmap_cons, !zlen_to_be, Hd; done).
  assert (ambiguity_payload kind (file_transfer_id latest) final_size digest = concat parts) as -> by done.
  assert (zlen (concat parts) = 51) as Hl by (rewrite zlen_concat, Hsz; done).
  unfold local_file_kind. change (concat parts) with (kind :: concat (tail parts)) at 1. cbv iota.
  assert (is_file_kind kind = false) as ->.
  { clear -Hk. unfold is_ambiguity_kind in Hk. apply orb_true_iff in Hk as [->%Z.eqb_eq| ->%Z.eqb_eq]; done. }
  rewrite Hk, Hl, Hs, Hrec. cbn [orb negb].
  change (_ || _ || _) with false. cbv iota.
  rewrite (uint_at_layout _ _ Hsz 1 (to_be_bytes 8 (file_transfer_id latest)) 8 1 9) by done.
  cbn [expect mbind res_bind]. rewrite from_to_be, Z.eqb_refl, bool_decide_true by done. cbn [negb orb].
  by rewrite (slice_layout _ _ Hsz 4 (zeros 2) 49 51) by done.
Qed.

(** The session with a latest file event that the verifier has too. *)
Lemma latest_follow e shared_bytes due s v :
  FixedBytes.wf (file_head e) -> follows s v ->
  follows (set_points (set_shared_bytes shared_bytes due (points s))
             (set_chains (set_latest_file (Some e) (chains s)) s))
    (set_vchains (set_vlatest (Some e) (v_chains v)) v).
Proof.
  intros He [[H1 H2 H3 H4 H5 H6 H7] [Hl Hs [Hc [Hh _]]] Hp Hstat Hop]. split; try done.
  - by eapply points_keep.
  - by apply (static_keep s _ v).
Qed.

(** A local record about the latest file event. *)
Lemma file_local_sim kind now ambiguity latest s v :
  follows s v -> is_u64 now -> latest_file_event (chains s) = Some latest ->
  local_count (chains s) + 1 < 2 ^ 64 ->
  local_file_kind (IoError:=IoError) (role (own s)) latest kind = Ok ambiguity ->
  exists v', process_frame (IoError:=IoError) RecordType.LocalFileTransferEvent
      (local_payload now (file_head latest) kind) v = (Ok tt, v') /\
    follows (set_chains (set_latest_file (Some (flag_file ambiguity latest))
               (s_local_after RecordType.LocalFileTransferEvent now (file_head latest) kind (chains s))) s) v'.
Proof.
  intros Hf Hn He Hlc Hk. destruct (follows_flushable _ _ Hf) as [Hi Ho].
  assert (FixedBytes.wf (file_head latest)) as Hw.
  { destruct (local_ok _ (fo_ok _ _ Hf)) as (_ & _ & Hw). by rewrite He in Hw. }
  assert (v_latest_file (v_chains v) = Some latest) as Hv
    by (rewrite <- He; apply (follow_file _ _ (fo_chains _ _ Hf))).
  eexists. split.
  - apply (process_local_ok _ now (file_head latest) kind v (Some ambiguity) (flushed v)); try done.
    + unfold check_local. rewrite (stm_bind_step _ _ (flushed v) _ (flushed v)) by done. cbv beta iota zeta.
      change (v_latest_file (v_chains (flushed v))) with (v_latest_file (v_chains v)). rewrite Hv.
      rewrite (stm_bind_step _ _ latest _ (flushed v)) by done.
      rewrite (stm_bind_step _ _ tt _ (flushed v)) by (by apply ensure_true, bool_decide_true).
      change (v_header (flushed v)) with (v_header v). rewrite (so_role _ _ (fo_static _ _ Hf)), Hk. done.
    + cbn. by rewrite (follow_local_count _ _ (fo_chains _ _ Hf)).
  - destruct Hf as [Hc Hok Hp Hst Hop]. split; try done.
    + pose proof (local_follow RecordType.LocalFileTransferEvent now (file_head latest) kind _ _
        (v_chains (flushed v)) Hc eq_refl eq_refl eq_refl eq_refl eq_refl Logic.I Logic.I) as [H1 H2 H3 H4 H5 H6 H7].
      split; try done. cbn. by rewrite Hv.
    + destruct (local_after_ok RecordType.LocalFileTransferEvent now (file_head latest) kind _ Hok Hlc)
        as [Hl Hs [Hcnt [Hh _]]].
      split; [done..|]. exact (conj Hcnt (conj Hh Hw)).
    + eapply points_mono; [done|]. cbn. lia.
    + by apply (static_keep s _ v).
Qed.

Lemma file_transfer_sim f path now s v batch s' :
  follows s v -> is_u64 now -> facts_wf f -> (forall p, path = Some p -> valid_utf8 p) ->
  record_file_transfer (IoError:=IoError) f path now s = (Ok batch, s') -> sim v batch s'.
Proof.
  intros Hf Hn Hfw Hu Hr. pose proof (fo_ok _ _ Hf) as Hok. destruct (follows_flushable _ _ Hf) as [Hi Ho].
  apply file_run in Hr as (Hph & Hd & Hk & Hrl & Hnl & Hpl & Hc & Hlc & [sb ->] & Hfr); [|done..].
  pose proof (shared_ok _ Hok SharedStream.FileTransfer) as Hchain.
  pose proof (process_file_ok (IoError:=IoError) f v Hd Hk Hfw Hrl Hnl Hi Ho) as Hp. cbn zeta in Hp.
  rewrite (follow_shared _ _ (fo_chains _ _ Hf)) in Hp. specialize (Hp Hchain Hc).
  fold (file_next f s) in Hp. fold (file_record f s) in Hp.
  assert (chain_ok (file_next f s)) as Hnext.
  { split; [|apply sha256_head_wf].
    change (is_u64 (chain_count (stream_get (shared (chains s)) SharedStream.FileTransfer) + 1)).
    destruct Hchain as [[? ?] _]. unfold is_u64. lia. }
  set (e := LatestFile (chain_head (file_next f s)) (transfer_id f) (facts_direction f) (facts_kind f) false false) in Hp.
  pose proof (latest_follow e sb true _ _ (proj2 Hnext : FixedBytes.wf (file_head e))
    (advance_follow SharedStream.FileTransfer (file_next f s) sb true s v eq_refl Hnext Hf)) as Hf1.
  set (s1 := set_points _ _) in Hf1. destruct path as [path|].
  - destruct Hlc as [|Hlc]; [done|].
    destruct (file_local_sim (path_record f path) now false e s1 _ Hf1 Hn eq_refl Hlc) as (v2 & Hrun & Hf2).
    { apply (local_path_ok _ e path); try done; [apply Hfw|by apply Hu]. }
    refine (sim_intro _ _ _ _ _ Hfr _ Hf2).
    etransitivity; [apply (process_frames_app [_]); rewrite process_frames_one; exact Hp|].
    exact (eq_trans (process_frames_one _ _ _) Hrun).
  - exact (sim_intro _ _ _ _ _ Hfr (eq_trans (process_frames_one _ _ _) Hp) Hf1).
Qed.

(** A latest file event whose local path is recorded when [recorded]. *)
Definition with_path (recorded : bool) (e : LatestFileEvent) : LatestFileEvent :=
  LatestFile (file_head e) (file_transfer_id e) (file_direction e) (file_kind e) recorded false.

Lemma latest_same e s v :
  latest_file_event (chains s) = Some e -> ambiguity_recorded e = false -> follows s v ->
  follows (set_chains (set_latest_file (Some (with_path (local_path_recorded e) e)) (chains s)) s) v.
Proof.
  intros He Ha Hf. replace (with_path (local_path_recorded e) e) with e by (destruct e; cbn in *; by subst).
  rewrite <- He. by destruct s as [? ? ? [] ? ? ?].
Qed.

(** The record of the local path, when the result brings one that is not recorded yet. *)
Lemma result_path_sim (latest : LatestFileEvent) path now s v batch s' :
  follows s v -> is_u64 now -> latest_file_event (chains s) = Some latest ->
  file_kind latest = FILE_KIND_START -> is_u64 (file_transfer_id latest) ->
  ambiguity_recorded latest = false -> path_too_long path = false ->
  (forall p, path = Some p -> valid_utf8 p) ->
  let record_path := match path with Some _ => negb (local_path_recorded latest) | None => false end in
  match path with
  | Some p =>
    if record_path
    then push_local (IoError:=IoError) [] RecordType.LocalFileTransferEvent
           (local_path_payload FILE_KIND_START (file_transfer_id latest) p) (file_head latest) now
    else mret []
  | None => mret []
  end s = (Ok batch, s') ->
  own s' = own s /\
  sim v batch (set_chains (set_latest_file (Some (with_path (local_path_recorded latest || record_path) latest))
                 (chains s')) s').
Proof.
  intros Hf Hn He Hks Hid Ha Hpl Hu record_path Hr.
  assert (forall r, r = local_path_recorded latest -> 
    follows (set_chains (set_latest_file (Some (with_path r latest)) (chains s)) s) v) as Hsame
    by (intros r ->; by apply latest_same).
  destruct path as [path|]; [|inv_run; split; [done|]; exists [], v; split_and!; [done..|];
    apply Hsame; unfold record_path; by rewrite orb_false_r].
  destruct (local_path_recorded latest) eqn:Hrec; cbn [negb] in *; subst record_path; cbv iota in Hr.
  { inv_run. split; [done|]. exists [], v. split_and!; [done..|]. by apply Hsame. }
  apply push_local_run in Hr as (-> & Hlc & Hfr). split; [done|].
  destruct (file_local_sim (local_path_payload FILE_KIND_START (file_transfer_id latest) path) now false
    latest s v Hf Hn He Hlc) as (v1 & Hrun & Hf1).
  { rewrite <- Hks. apply local_path_ok; try done; [by rewrite Hks|by apply Hu]. }
  refine (sim_intro _ _ _ _ _ (Hfr [] frames_nil) (eq_trans (process_frames_one _ _ _) Hrun) _).
  unfold flag_file in Hf1. rewrite Hrec, Ha in Hf1. exact Hf1.
Qed.

Lemma file_result_sim kind id final_size digest path now s v batch s' :
  follows s v -> is_u64 now -> is_u64 id -> FixedBytes.wf digest ->
  (forall p, path = Some p -> valid_utf8 p) ->
  record_local_file_transfer_result (IoError:=IoError) kind id final_size digest path now s = (Ok batch, s') ->
  sim v batch s'.
Proof.
  unfold record_local_file_transfer_result. intros Hf Hn Hid Hdig Hu Hr.
  apply stm_bind_ok in Hr as (? & ? & [-> Hph]%recordable_run & Hr).
  destruct (is_ambiguity_kind kind) eqn:Hk; [|discriminate Hr]. cbn [negb] in Hr.
  destruct (path_too_long path) eqn:Hpl; [discriminate Hr|].
  apply stm_bind_ok in Hr as (latest & ? & [-> He]%required_run & Hr).
  apply stm_bind_ok in Hr as (r & ? & [-> ->]%gets_ok & Hr).
  destruct (Z.eqb_spec (file_kind latest) FILE_KIND_START) as [Hks|]; [|discriminate Hr].
  destruct (Z.eqb_spec (file_transfer_id latest) id) as [<-|]; [|discriminate Hr].
  destruct (ambiguity_recorded latest) eqn:Hamb; [discriminate Hr|].
  destruct (bool_decide _) eqn:Hexp; [apply bool_decide_eq_true in Hexp|discriminate Hr].
  cbn [negb orb] in Hr. apply stm_bind_ok in Hr as (b1 & s1 & H1 & Hr).
  apply stm_bind_ok in Hr as (b2 & s2 & (-> & Hlc & Hfr)%push_local_run & Hr). inv_run.
  destruct (result_path_sim latest path now s v b1 s1 Hf Hn He Hks Hid Hamb Hpl Hu H1)
    as (Hown & l & v1 & Hl & Hrun & Hf1).
  set (rec := _ || _) in *.
  destruct (file_local_sim (ambiguity_payload kind (file_transfer_id latest) final_size digest) now true
      (with_path rec latest) _ v1 Hf1 Hn eq_refl Hlc) as (v2 & Hrun2 & Hf2).
  { cbn [own set_chains]. rewrite Hown. by apply (ambiguity_ok _ (with_path rec latest)). }
  refine (sim_intro _ _ _ v2 _ (Hfr _ Hl) _ _).
  - rewrite (process_frames_app _ _ _ _ Hrun). exact (eq_trans (process_frames_one _ _ _) Hrun2).
  - unfold flag_file in Hf2. cbn [with_path file_head file_transfer_id file_direction file_kind
      local_path_recorded ambiguity_recorded negb orb] in Hf2. rewrite orb_false_r in Hf2.
    destruct Hf2 as [Hc2 Hok2 Hp2 Hst2 Hop2]. split; try done.
    + by eapply points_keep.
    + by refine (static_keep _ _ v2 v2 _ _ _ _ _ Hst2).
Qed.
End ControlSim.
