(* ===== verification/AuditPointSim.v ===== *)
(** * Checkpoints and manifests

    The signed messages a session exchanges are recorded as evidence.  The verifier decodes
    each one, checks its signature against the keys of the header and its contents against
    the chains it has rebuilt; these lemmas show that what the session records passes. *)

From stdpp Require Import strings.
From S2P Require Import Prelude Domain Codec Layout WireAudit AuditCodecs AuditContainer AuditSigning AuditWriter Stateful AuditEvents AuditSession AuditNormalize ChainVerifier AuditTrace AuditSimulation AuditControlSim.
Open Scope string_scope.
Open Scope list_scope.
Open Scope Z_scope.

(** The kind-specific payload of an evidence record. *)
Definition evidence_bytes (kind : Z) (payload : list Z) : list Z :=
  [kind] ++ to_be_bytes 4 (zlen payload) ++ payload.

Section PointSim.
Context {IoError : Type} `{AuditCryptoLaws} {I L : Type}
  `{!PersistentIdentity (IoError:=IoError) I} `{!Ledger (IoError:=IoError) L}
  {HM : ManifestsHeld}.
Local Notation st := (session I L).
Implicit Types (s : st) (v : verifier).

Lemma push_evidence_run batch kind payload now s batch' s' :
  zlen payload <= 911 ->
  push_evidence (IoError:=IoError) batch kind payload now s = (Ok batch', s') ->
  push_local (IoError:=IoError) batch RecordType.CheckpointEvidence (evidence_bytes kind payload)
    zero_head now s = (Ok batch', s').
Proof.
  unfold push_evidence. intros Hl Hr. pose proof (zlen_nonneg payload).
  rewrite (proj2 (Z.ltb_ge _ _)) in Hr by lia. inv_run.
  match goal with H : write_u32 _ _ = Ok _ |- _ => unfold write_u32 in H; rewrite as_u32_small in H by lia end.
  run_appends. cbn [written fst snd] in *.
  match goal with H : slice _ 0 _ = Ok _ |- _ => rewrite slice_head in H by done; injection H as <- end.
  exact Hr.
Qed.

(** The verifier splits the evidence off its kind and length. *)
Lemma process_evidence_eq kind payload v :
  zlen payload <= 911 ->
  process_evidence (IoError:=IoError) (evidence_bytes kind payload) v
  = (if kind =? EVIDENCE_SENT_CHECKPOINT then evidence_checkpoint true payload else
     if kind =? EVIDENCE_RECEIVED_CHECKPOINT then evidence_checkpoint false payload else
     if kind =? EVIDENCE_SENT_CHECKPOINT_ACK then evidence_ack true payload else
     if kind =? EVIDENCE_RECEIVED_CHECKPOINT_ACK then evidence_ack false payload else
     if kind =? EVIDENCE_SENT_MANIFEST then evidence_manifest true payload else
     if kind =? EVIDENCE_RECEIVED_MANIFEST then evidence_manifest false payload else
     if kind =? EVIDENCE_SENT_MANIFEST_SIGNATURE then evidence_signature true payload else
     if kind =? EVIDENCE_RECEIVED_MANIFEST_SIGNATURE then evidence_signature false payload else
     throw (Tampered "the audit container has an unknown checkpoint evidence kind")) v.
Proof.
  intros Hl. pose proof (zlen_nonneg payload).
  set (parts := [[kind]; to_be_bytes 4 (zlen payload); payload]).
  assert (zlen (A:=Z) <$> parts = [1; 4; zlen payload]) as Hsz
    by (unfold parts; rewrite !fmap_cons, !zlen_to_be; done).
  assert (evidence_bytes kind payload = concat parts) as ->
    by (unfold parts, evidence_bytes; cbn [concat]; by rewrite app_nil_r).
  assert (zlen (concat parts) = 5 + zlen payload) as Hlen by (rewrite zlen_concat, Hsz; cbn; lia).
  unfold process_evidence. rewrite (stm_bind_step _ _ tt _ v) by (apply ensure_true; lia).
  rewrite (stm_bind_step _ _ kind _ v)
    by (unfold lift; by rewrite (index_layout _ _ Hsz 0 [kind] 0 kind 0)).
  rewrite (stm_bind_step _ _ (zlen payload) _ v).
  2:{ unfold lift. rewrite (uint_at_layout _ _ Hsz 1 (to_be_bytes 4 (zlen payload)) 4 1 5) by done.
      cbn [expect]. rewrite from_to_be; [done|]. change (256 ^ Z.of_nat 4) with (2 ^ 32). lia. }
  rewrite (stm_bind_step _ _ tt _ v) by (apply ensure_true; lia).
  rewrite (stm_bind_step _ _ payload _ v); [done|].
  unfold lift. rewrite Hlen. by rewrite (slice_layout _ _ Hsz 2 payload) by (done || cbn; lia).
Qed.

(** A record of evidence the verifier accepts. *)
Lemma evidence_step_to {HM0 HM1 : ManifestsHeld} kind payload now s v batch batch' s' l0 v0 v1 :
  frames batch l0 -> process_frames (IoError:=IoError) l0 v0 = (Ok tt, v) -> tracks (HM:=HM0) s v -> is_u64 now ->
  zlen payload <= 911 ->
  process_evidence (IoError:=IoError) (evidence_bytes kind payload) (flushed v) = (Ok tt, v1) ->
  v_chains v1 = v_chains (flushed v) -> v_header v1 = v_header v -> v_hello v1 = v_hello v ->
  v_manifests v1 = HM1 ->
  push_evidence (IoError:=IoError) batch kind payload now s = (Ok batch', s') ->
  exists l v', frames batch' l /\ process_frames (IoError:=IoError) l v0 = (Ok tt, v') /\
    tracks (HM:=HM1) s' v' /\ v_points v' = v_points v1.
Proof.
  intros Hb Hl0 Hf Hn Hlen Hev Hc Hh Ha Hm Hr. apply push_evidence_run in Hr; [|done].
  refine (match local_step_to RecordType.CheckpointEvidence _ zero_head now s v batch batch' s' l0 v0 v1 Hb Hl0 Hf eq_refl
    Hn zero_head_wf _ Hc Hh Ha Hm Hr with
    ex_intro _ l (ex_intro _ v' (conj H1 (conj H2 (conj H3 (conj H4 _))))) =>
      ex_intro _ l (ex_intro _ v' (conj H1 (conj H2 (conj H3 H4)))) end).
  unfold check_local. rewrite (stm_bind_step _ _ (flushed v) _ (flushed v)) by done. cbv beta iota zeta.
  rewrite (stm_bind_step _ _ tt _ (flushed v)) by (by apply ensure_true, bool_decide_true).
  by rewrite (stm_bind_step _ _ _ _ _ Hev).
Qed.

(** The same where the manifest evidence stays. *)
Lemma evidence_step kind payload now s v batch batch' s' l0 v0 v1 :
  frames batch l0 -> process_frames (IoError:=IoError) l0 v0 = (Ok tt, v) -> tracks s v -> is_u64 now ->
  zlen payload <= 911 ->
  process_evidence (IoError:=IoError) (evidence_bytes kind payload) (flushed v) = (Ok tt, v1) ->
  v_chains v1 = v_chains (flushed v) -> v_header v1 = v_header v -> v_hello v1 = v_hello v ->
  v_manifests v1 = v_manifests v ->
  push_evidence (IoError:=IoError) batch kind payload now s = (Ok batch', s') ->
  exists l v', frames batch' l /\ process_frames (IoError:=IoError) l v0 = (Ok tt, v') /\
    tracks s' v' /\ v_points v' = v_points v1.
Proof.
  intros Hb Hl0 Htr Hn Hlen Hev Hc Hh Ha Hm. rewrite (so_manifests _ _ (tr_static _ _ Htr)) in Hm.
  by apply (evidence_step_to kind payload now s v batch batch' s' l0 v0 v1).
Qed.

Lemma ok_inj {E A} (a b : A) : Ok (E:=E) a = Ok b -> b = a.
Proof. by intros [=]. Qed.

(** ** Encoding what is recorded *)

Lemma wire_checkpoint {E} c :
  checkpoint_wf c -> wire (E:=E) (Checkpoint.encode_payload c) = Ok (concat (checkpoint_fields c)).
Proof. intros Hc. unfold wire. by rewrite (fl_enc _ _ _ _ _ checkpoint_layout c Hc : WireBytes.as_slice <$> _ = _). Qed.

Lemma wire_ack {E} a : ack_wf a -> wire (E:=E) (CheckpointAck.encode_payload a) = Ok (concat (ack_fields a)).
Proof. intros Ha. unfold wire. by rewrite (fl_enc _ _ _ _ _ ack_layout a Ha : WireBytes.as_slice <$> _ = _). Qed.

Definition signed_bytes (m : signed) : list Z := label m ++ concat (body m).

Lemma wire_signing {E} c :
  checkpoint_wf c -> wire (E:=E) (Checkpoint.signing_input c) = Ok (signed_bytes (SCheckpoint c)).
Proof. intros Hc. exact (f_equal expect (signing_input_eq (SCheckpoint c) Hc)). Qed.

Lemma wire_ack_signing {E} a :
  ack_wf a -> wire (E:=E) (CheckpointAck.signing_input a) = Ok (signed_bytes (SAck a)).
Proof. intros Ha. exact (f_equal expect (signing_input_eq (SAck a) Ha)). Qed.

Lemma layout_len {M} (sizes : list Z) (fields : M -> list (list Z)) enc dec wf m :
  fixed_layout sizes fields enc dec wf -> wf m -> zlen (concat (fields m)) = zsum sizes.
Proof. intros Hl Hm. destruct (fl_fields _ _ _ _ _ Hl m Hm) as [<- _]. apply zlen_concat. Qed.

(** ** The verifier on checkpoints *)

Lemma sent_checkpoint_ok c v :
  checkpoint_wf c ->
  verify_ed25519 (AuditContainerHeader.session_pubkey (v_header v)) (signed_bytes (SCheckpoint c))
    (Checkpoint.signature c) = true ->
  last_sent_checkpoint_seq (v_points v) + 1 < 2 ^ 64 ->
  Checkpoint.sequence c = last_sent_checkpoint_seq (v_points v) + 1 ->
  Checkpoint.session_id c = AuditContainerHeader.session_id (v_header v) ->
  Checkpoint.snapshot c = snapshot_of (v_shared (v_chains v)) ->
  raw (Checkpoint.ledger_snapshot_digest c)
    = sha256 (to_be_bytes 8 (AuditContainerHeader.ledger_sequence (v_header v))
                ++ raw (AuditContainerHeader.previous_ledger_root (v_header v))) ->
  Checkpoint.local_chain_head c = v_local_head (v_chains v) ->
  evidence_checkpoint (IoError:=IoError) true (concat (checkpoint_fields c)) v
  = (Ok tt, set_vpoints (set_sent_ref (ref_of c) (set_sent_seq (Checkpoint.sequence c) (v_points v))) v).
Proof.
  intros Hc Hs Hlt Hseq Hid Hsnap Hled Hloc. unfold evidence_checkpoint, decoded_as, mbind, stm_bind, lift, gets.
  rewrite (fl_dec _ _ _ _ _ checkpoint_layout c Hc). cbn [map_err id]. rewrite wire_signing by done.
  rewrite (ensure_true _ _ _ Hs). rewrite (checked_add_u64_some _ _ Hlt). cbn [ok_or].
  rewrite Hid, Hseq, bool_decide_true, Z.eqb_refl by done. cbn [andb negb orb].
  rewrite (ensure_true true), Hsnap, bool_decide_true, (ensure_true true) by done.
  rewrite Hled, bool_decide_true by done. rewrite (ensure_true (true || _)) by done.
  cbn [on_vpoints modify]. rewrite Hloc, bool_decide_true by done. cbn [ensure].
  unfold ref_of. rewrite Hsnap, Hseq. done.
Qed.

Lemma received_checkpoint_ok c v :
  checkpoint_wf c ->
  verify_ed25519 (AuditContainerHeader.peer_session_pubkey (v_header v)) (signed_bytes (SCheckpoint c))
    (Checkpoint.signature c) = true ->
  last_received_checkpoint_seq (v_points v) + 1 < 2 ^ 64 ->
  Checkpoint.sequence c = last_received_checkpoint_seq (v_points v) + 1 ->
  Checkpoint.session_id c = AuditContainerHeader.session_id (v_header v) ->
  evidence_checkpoint (IoError:=IoError) false (concat (checkpoint_fields c)) v
  = (Ok tt, set_vpoints (set_received_ref (ref_of c) (set_received_seq (Checkpoint.sequence c) (v_points v))) v).
Proof.
  intros Hc Hs Hlt Hseq Hid. unfold evidence_checkpoint, decoded_as, mbind, stm_bind, lift, gets.
  rewrite (fl_dec _ _ _ _ _ checkpoint_layout c Hc). cbn [map_err id]. rewrite wire_signing by done.
  rewrite (ensure_true _ _ _ Hs). rewrite (checked_add_u64_some _ _ Hlt). cbn [ok_or].
  rewrite Hid, Hseq, bool_decide_true, Z.eqb_refl by done. cbn [andb negb orb].
  rewrite (ensure_true true), (ensure_true true) by done.
  rewrite (ensure_true (_ || true)) by apply orb_true_r.
  cbn [on_vpoints modify]. unfold ref_of. rewrite Hseq. done.
Qed.

Lemma confirm_new n last previous r :
  confirmed_at n last -> n < ref_sequence r ->
  exists previous', confirm_direction (IoError:=IoError) last previous r = Ok (Some r, previous').
Proof.
  unfold confirm_direction. destruct last as [c|]; [|by eexists]. cbn. intros [<- _] Hn.
  rewrite (proj2 (Z.eqb_neq _ _)), (proj2 (Z.ltb_lt _ _)) by lia. by eexists.
Qed.

Definition ack_matches (a : CheckpointAck.t) (r : CheckpointRef) : Prop :=
  CheckpointAck.sequence a = ref_sequence r /\ raw (CheckpointAck.checkpoint_digest a) = ref_digest r /\
  CheckpointAck.snapshot a = ref_snapshot r.

Lemma sent_ack_ok a r n v :
  ack_wf a ->
  verify_ed25519 (AuditContainerHeader.session_pubkey (v_header v)) (signed_bytes (SAck a))
    (CheckpointAck.signature a) = true ->
  CheckpointAck.session_id a = AuditContainerHeader.session_id (v_header v) ->
  0 < CheckpointAck.sequence a <= last_received_checkpoint_seq (v_points v) ->
  last_sent_ack_seq (v_points v) < CheckpointAck.sequence a ->
  v_last_received_checkpoint (v_points v) = Some r -> ack_matches a r ->
  confirmed_at n (last_confirmed_received (v_points v)) -> n < CheckpointAck.sequence a ->
  exists previous, evidence_ack (IoError:=IoError) true (concat (ack_fields a)) v
  = (Ok tt, let q := v_points v in
      set_vpoints (MkVPoints (last_sent_checkpoint_seq q) (last_received_checkpoint_seq q)
        (Some r) (v_last_sent_checkpoint q) (last_received_ack_seq q) (CheckpointAck.sequence a)
        (last_confirmed_sent q) (prev_confirmed_sent q) (Some r) previous) v).
Proof.
  intros Ha Hs Hid Hseq Hack Hlast (Hr1 & Hr2 & Hr3) Hconf Hn.
  destruct (confirm_new n _ (prev_confirmed_received (v_points v)) r Hconf ltac:(lia)) as (previous & Hcd).
  exists previous. unfold evidence_ack, decoded_as, mbind, stm_bind, lift, gets.
  rewrite (fl_dec _ _ _ _ _ ack_layout a Ha). cbn [map_err id]. rewrite wire_ack_signing by done.
  rewrite (ensure_true _ _ _ Hs). rewrite Hid, bool_decide_true by done.
  rewrite (proj2 (Z.eqb_neq _ _)), (proj2 (Z.leb_le _ _)) by lia. rewrite (ensure_true (_ && _)) by done.
  rewrite (ensure_true (_ <? _)) by lia. cbn [on_vpoints modify]. rewrite Hlast. cbn [ok_or].
  rewrite Hr1, Z.eqb_refl, Hr2, Hr3, !bool_decide_true, (ensure_true (_ && _)) by done.
  unfold confirm_received, mbind, stm_bind, gets, lift. cbn [v_points set_vpoints set_sent_ack_seq
    last_confirmed_received prev_confirmed_received]. rewrite Hcd. rewrite <- Hr1, <- Hlast. done.
Qed.

Lemma received_ack_ok a r n v :
  ack_wf a ->
  verify_ed25519 (AuditContainerHeader.peer_session_pubkey (v_header v)) (signed_bytes (SAck a))
    (CheckpointAck.signature a) = true ->
  CheckpointAck.session_id a = AuditContainerHeader.session_id (v_header v) ->
  0 < CheckpointAck.sequence a <= last_sent_checkpoint_seq (v_points v) ->
  last_received_ack_seq (v_points v) < CheckpointAck.sequence a ->
  v_last_sent_checkpoint (v_points v) = Some r -> ack_matches a r ->
  confirmed_at n (last_confirmed_sent (v_points v)) -> n < CheckpointAck.sequence a ->
  exists previous, evidence_ack (IoError:=IoError) false (concat (ack_fields a)) v
  = (Ok tt, let q := v_points v in
      set_vpoints (MkVPoints (last_sent_checkpoint_seq q) (last_received_checkpoint_seq q)
        (v_last_received_checkpoint q) (Some r) (CheckpointAck.sequence a) (last_sent_ack_seq q)
        (Some r) previous (last_confirmed_received q) (prev_confirmed_received q)) v).
Proof.
  intros Ha Hs Hid Hseq Hack Hlast (Hr1 & Hr2 & Hr3) Hconf Hn.
  destruct (confirm_new n _ (prev_confirmed_sent (v_points v)) r Hconf ltac:(lia)) as (previous & Hcd).
  exists previous. unfold evidence_ack, decoded_as, mbind, stm_bind, lift, gets.
  rewrite (fl_dec _ _ _ _ _ ack_layout a Ha). cbn [map_err id]. rewrite wire_ack_signing by done.
  rewrite (ensure_true _ _ _ Hs). rewrite Hid, bool_decide_true by done.
  rewrite (proj2 (Z.eqb_neq _ _)), (proj2 (Z.leb_le _ _)) by lia. rewrite (ensure_true (_ && _)) by done.
  rewrite (ensure_true (_ <? _)) by lia. cbn [on_vpoints modify]. rewrite Hlast. cbn [ok_or].
  rewrite Hr1, Z.eqb_refl, Hr2, Hr3, !bool_decide_true, (ensure_true (_ && _)) by done.
  unfold confirm_sent, mbind, stm_bind, gets, lift. cbn [v_points set_vpoints set_received_ack_seq
    last_confirmed_sent prev_confirmed_sent]. rewrite Hcd. rewrite <- Hr1, <- Hlast. done.
Qed.

(** ** The session's checkpoints *)

Lemma snapshot_wf c : chains_ok c -> SharedSnapshot.wf (snapshot_of (shared c)).
Proof.
  intros Hok. assert (forall x, chain_ok (stream_get (shared c) x)) as Hs by apply Hok.
  split; [done|]. cbn. repeat constructor; apply (Hs SharedStream.Input) || apply (Hs SharedStream.Output)
    || apply (Hs SharedStream.Control) || apply (Hs SharedStream.FileTransfer).
Qed.

Lemma ledger_digest_wf s v : static_ok s v -> FixedBytes.wf (ledger_snapshot_digest (own s)).
Proof.
  intros Hst. unfold FixedBytes.wf. change (FixedBytes.as_bytes _) with (raw (ledger_snapshot_digest (own s))).
  rewrite (so_ledger _ _ Hst). apply sha256_array.
Qed.

Lemma session_signature_verifies s v input :
  static_ok s v ->
  verify_ed25519 (AuditContainerHeader.session_pubkey (v_header v)) input (sign_with_session_key s input) = true.
Proof. intros Hst. unfold verify_ed25519. rewrite (so_key _ _ Hst). apply ed_sign_verifies. Qed.

Lemma signature_wf s input : FixedBytes.wf (sign_with_session_key s input).
Proof. apply ed_sign_array. Qed.

Lemma wrapping_next_small n : 0 <= n -> n + 1 < 2 ^ 64 -> wrapping_next n = n + 1.
Proof. intros. unfold wrapping_next, as_u64. apply Z.mod_small. lia. Qed.

Lemma wrapping_next_u64 n : is_u64 (wrapping_next n).
Proof. unfold wrapping_next, as_u64, is_u64. apply Z.mod_pos_bound. lia. Qed.

(** What a successful push says about the number of local records. *)
Lemma push_evidence_count batch kind payload now s batch' s' :
  zlen payload <= 911 -> push_evidence (IoError:=IoError) batch kind payload now s = (Ok batch', s') ->
  local_count (chains s) + 1 < 2 ^ 64 /\
  s' = set_chains (s_local_after RecordType.CheckpointEvidence now zero_head
                     (evidence_bytes kind payload) (chains s)) s.
Proof. intros Hl Hr. apply push_evidence_run in Hr; [|done]. by apply push_local_run in Hr as (-> & ? & _). Qed.

Lemma phase_run p s u s' : require_phase (IoError:=IoError) p s = (Ok u, s') -> s' = s /\ phase s = p.
Proof.
  unfold require_phase, mbind, stm_bind, gets. intros Hr.
  destruct (bool_decide (phase s = Failed)); [discriminate Hr|].
  destruct (bool_decide_reflect (phase s = p)); [|discriminate Hr]. by injection Hr.
Qed.

Lemma build_checkpoint_sim policy now s v checkpoint batch s' :
  follows s v -> is_u64 now ->
  build_checkpoint_with_policy (IoError:=IoError) now policy s = (Ok (checkpoint, batch), s') -> sim v batch s'.
Proof.
  intros Hf Hn Hr. unfold build_checkpoint_with_policy in Hr.
  apply stm_bind_ok in Hr as (? & ? & Hph & Hr).
  assert (x0 = s) as -> by (destruct policy; [by apply recordable_run in Hph as [-> _]
    |by apply phase_run in Hph as [-> _]]). clear Hph policy.
  apply stm_bind_ok in Hr as (sid & ? & [-> Hsid]%required_run & Hr). inv_run. cbn [id] in *.
  pose proof (fo_static _ _ Hf) as Hst. pose proof (fo_points _ _ Hf) as Hpt. pose proof (fo_ok _ _ Hf) as Hok.
  rewrite (so_session _ _ Hst) in Hsid. injection Hsid as <-.
  set (c0 := Checkpoint.new _ _ _ _ _ zero_signature) in *.
  match goal with H : push_evidence _ _ _ _ _ = _ |- _ => rename H into Hpush end.
  assert (forall sig, FixedBytes.wf sig -> checkpoint_wf (Checkpoint.with_signature c0 sig)) as Hwf.
  { intros sig Hsig. unfold checkpoint_wf. cbn.
    refine (conj (so_session_wf _ _ Hst) (conj _ (conj (snapshot_wf _ Hok) (conj (proj1 (proj2 (local_ok _ Hok)))
      (conj (ledger_digest_wf _ _ Hst) Hsig))))). rewrite (pf_next _ _ _ Hpt). apply wrapping_next_u64. }
  rewrite (wire_signing c0) in * by (apply (Hwf zero_signature zero_signature_wf)).
  match goal with H : Ok _ = Ok _ |- _ => apply ok_inj in H; subst end.
  pose proof (Hwf _ (signature_wf s (signed_bytes (SCheckpoint c0)))) as Hc. set (c := Checkpoint.with_signature c0 _) in *.
  rewrite (wire_checkpoint c Hc) in *. match goal with H : Ok _ = Ok _ |- _ => apply ok_inj in H; subst end.
  assert (zlen (concat (checkpoint_fields c)) <= 911) as Hlen by (rewrite (layout_len _ _ _ _ _ _ checkpoint_layout Hc); done).
  apply stm_ret_ok in Hr as [[-> ->]%pair_eq ->].
  destruct (push_evidence_count _ _ _ _ _ _ _ Hlen Hpush) as [Hcount Hs7]. rewrite Hs7.
  destruct (pf_bound _ _ _ Hpt) as [Hb _]. destruct (pf_sent_range _ _ _ Hpt) as [Hb0 _].
  assert (Checkpoint.sequence c = last_sent_checkpoint_seq (v_points v) + 1) as Hseq.
  { change (Checkpoint.sequence c) with (next_checkpoint_sequence (points s)). rewrite (pf_next _ _ _ Hpt).
    apply wrapping_next_small; lia. }
  rewrite <- Hs7.
  set (v1 := set_vpoints (set_sent_ref (ref_of c) (set_sent_seq (Checkpoint.sequence c) (v_points v))) (flushed v)).
  assert (process_evidence (IoError:=IoError) (evidence_bytes EVIDENCE_SENT_CHECKPOINT (concat (checkpoint_fields c)))
            (flushed v) = (Ok tt, v1)) as Hev.
  { rewrite process_evidence_eq by done. change (_ =? _) with true at 1. cbv iota.
    apply (sent_checkpoint_ok c (flushed v)); try done.
    + exact (session_signature_verifies s v _ Hst).
    + cbn. lia.
    + change (snapshot_of (shared (chains s)) = snapshot_of (v_shared (v_chains v))).
      by rewrite (follow_shared _ _ (fo_chains _ _ Hf)).
    + apply Hst.
    + symmetry. apply (follow_local_head _ _ (fo_chains _ _ Hf)). }
  destruct (evidence_step _ _ now s v [] _ _ [] v v1 frames_nil eq_refl (follows_tracks _ _ Hf) Hn Hlen Hev
    eq_refl eq_refl eq_refl eq_refl Hpush) as (l & v' & Hl & Hrun & Htr & Hpts).
  refine (sim_intro _ l _ v' _ Hl Hrun (tracks_follow _ _ (tracks_points _ _ _ Htr) _)).
  rewrite Hpts, Hs7. clear -Hpt Hseq Hc Hcount Hb Hb0. destruct Hpt as [[? ?] ???????????].
  split; cbn [v1 set_sent_ref set_sent_seq v_points set_vpoints last_sent_checkpoint_seq
    last_received_checkpoint_seq chains set_chains set_points s_local_after set_local local_count]; try done.
  - cbn in Hseq |- *. lia.
  - unfold is_u64. lia.
  - intros ? E. cbn [last_sent_checkpoint points set_points] in E. apply (inj Some) in E as <-. done.
Qed.

(** What [build_ack] returns: an acknowledgment of the checkpoint, signed by the session. *)
Definition ack_of s (sid : SessionId) (c : Checkpoint.t) : CheckpointAck.t :=
  let a := CheckpointAck.new sid (Checkpoint.sequence c) (sha256_32 (concat (checkpoint_fields c)))
             (Checkpoint.snapshot c) zero_signature in
  CheckpointAck.with_signature a (sign_with_session_key s (signed_bytes (SAck a))).

Lemma ack_of_wf s sid c :
  checkpoint_wf c -> FixedBytes.wf sid ->
  ack_wf (ack_of s sid c) /\
  ack_wf (CheckpointAck.with_signature (ack_of s sid c) zero_signature).
Proof.
  intros (_ & Hseq & Hsnap & _) Hsid. unfold ack_wf. cbn [ack_of CheckpointAck.with_signature
    CheckpointAck.session_id CheckpointAck.sequence CheckpointAck.checkpoint_digest CheckpointAck.snapshot
    CheckpointAck.signature].
  split; refine (conj Hsid (conj Hseq (conj _ (conj Hsnap _)))); try apply sha256_array;
    [apply signature_wf|apply zero_signature_wf].
Qed.

Lemma build_ack_run s sid c a s' :
  checkpoint_wf c -> FixedBytes.wf sid -> session_id (peer s) = Some sid ->
  build_ack (IoError:=IoError) c (sha256_32 (concat (checkpoint_fields c))) s = (Ok a, s') ->
  s' = s /\ a = ack_of s sid c.
Proof.
  intros Hc Hw Hsid Hr. unfold build_ack in Hr. inv_run. cbn [id] in *. rewrite Hsid in *.
  match goal with H : expect_some _ = Ok _ |- _ => apply ok_inj in H; subst end.
  destruct (ack_of_wf s sid c Hc Hw) as [_ Hz].
  match goal with H : wire (CheckpointAck.signing_input ?a) = Ok _ |- _ =>
    rewrite (wire_ack_signing a Hz) in H; apply ok_inj in H; subst end.
  done.
Qed.

(** The checks of [receive_checkpoint] before the sequence number. *)
Lemma receive_checks_run {A} policy checkpoint s v (k : st -> stm st (AuditError (IoError:=IoError)) A) r s' :
  follows s v -> checkpoint_wf checkpoint ->
  (_ ← match policy with
       | Observation =>
         p ← gets phase;
         match p with
         | Active | Finalizing => mret tt
         | _ => throw (InvalidState "checkpoint observation outside an active session")
         end
       | ExactPrefix => require_phase Finalizing
       end;
   session_id ← required (fun s => session_id (peer s)) "session ID not computed";
   if negb (bool_decide (Checkpoint.session_id checkpoint = session_id)) then fail_checkpoint else
   peer_hello ← required (fun s => peer_hello (peer s)) "peer hello not received";
   input ← lift (wire (Checkpoint.signing_input checkpoint));
   if negb (is_ok (verify_signature (IoError:=IoError) (AuditHello.session_key peer_hello) input
                     (Checkpoint.signature checkpoint))) then fail_checkpoint else
   s ← gets id;
   if match policy with
      | ExactPrefix => negb (bool_decide (Checkpoint.snapshot checkpoint = shared_snapshot s))
      | Observation => false
      end then fail_checkpoint else k s) s = (Ok r, s') ->
  Checkpoint.session_id checkpoint = AuditContainerHeader.session_id (v_header v) /\
  verify_ed25519 (AuditContainerHeader.peer_session_pubkey (v_header v)) (signed_bytes (SCheckpoint checkpoint))
    (Checkpoint.signature checkpoint) = true /\
  k s s = (Ok r, s').
Proof.
  intros Hf Hc Hr. pose proof (fo_static _ _ Hf) as Hst.
  apply stm_bind_ok in Hr as ([] & s1 & Hph & Hr).
  assert (s1 = s) as ->.
  { destruct policy; [|by apply phase_run in Hph as [-> _]].
    unfold mbind, stm_bind, gets in Hph. destruct (phase s); try discriminate Hph; by injection Hph. }
  apply stm_bind_ok in Hr as (sid & ? & [-> Hsid]%required_run & Hr).
  rewrite (so_session _ _ Hst) in Hsid. apply (inj Some) in Hsid as <-.
  destruct (bool_decide_reflect (Checkpoint.session_id checkpoint = AuditContainerHeader.session_id (v_header v)))
    as [Hid|]; [|discriminate Hr]. cbn [negb] in Hr. split; [done|].
  apply stm_bind_ok in Hr as (ph & ? & [-> Hph']%required_run & Hr).
  destruct (so_peer _ _ Hst) as (ph' & Hpe & _ & Hkey). rewrite Hpe in Hph'. apply (inj Some) in Hph' as <-.
  apply stm_bind_ok in Hr as (input & ? & [Hin ->]%lift_ok & Hr).
  rewrite wire_signing in Hin by done. apply ok_inj in Hin as ->.
  unfold verify_ed25519. rewrite Hkey. unfold verify_signature in Hr.
  destruct (ed_verify _ _ _); [|discriminate Hr]. split; [done|]. cbn [is_ok negb] in Hr.
  apply stm_bind_ok in Hr as (s2 & ? & [-> ->]%gets_ok & Hr).
  destruct policy; [exact Hr|]. destruct (bool_decide _); [exact Hr|discriminate Hr].
Qed.

Definition received_points (c : Checkpoint.t) (p : Checkpoints) : Checkpoints :=
  Points (next_checkpoint_sequence p) (last_checkpoint_time_ns p)
    (last_confirmed_sent_checkpoint_sequence p) (Checkpoint.sequence c)
    (Some (Checkpoint.sequence c, sha256_32 (concat (checkpoint_fields c)))) (last_sent_checkpoint p)
    (checkpoint_shared_bytes p) (checkpoint_due_flag p).

(** The two records of a received checkpoint: it and the acknowledgment. *)
Lemma received_records_sim c now s v b1 b2 s1 s2 :
  follows s v -> is_u64 now -> checkpoint_wf c ->
  Checkpoint.session_id c = AuditContainerHeader.session_id (v_header v) ->
  verify_ed25519 (AuditContainerHeader.peer_session_pubkey (v_header v)) (signed_bytes (SCheckpoint c))
    (Checkpoint.signature c) = true ->
  Checkpoint.sequence c = last_received_checkpoint_seq (v_points v) + 1 ->
  push_evidence (IoError:=IoError) [] EVIDENCE_RECEIVED_CHECKPOINT (concat (checkpoint_fields c)) now
    (set_points (received_points c (points s)) s) = (Ok b1, s1) ->
  push_evidence (IoError:=IoError) b1 EVIDENCE_SENT_CHECKPOINT_ACK
    (concat (ack_fields (ack_of s1 (AuditContainerHeader.session_id (v_header v)) c))) now s1 = (Ok b2, s2) ->
  sim v b2 s2.
Proof.
  intros Hf Hn Hc Hid Hsig Hseq Hp1 Hp2. pose proof (fo_static _ _ Hf) as Hst. pose proof (fo_points _ _ Hf) as Hpt.
  assert (zlen (concat (checkpoint_fields c)) <= 911) as Hlen by (rewrite (layout_len _ _ _ _ _ _ checkpoint_layout Hc); done).
  destruct (push_evidence_count _ _ _ _ _ _ _ Hlen Hp1) as [Hcount Hs1]. cbn [chains set_points] in Hcount.
  destruct (pf_bound _ _ _ Hpt) as [_ Hb]. destruct (pf_received_range _ _ _ Hpt) as [Hb0 _].
  set (v1 := set_vpoints (set_received_ref (ref_of c) (set_received_seq (Checkpoint.sequence c) (v_points v))) (flushed v)).
  assert (process_evidence (IoError:=IoError) (evidence_bytes EVIDENCE_RECEIVED_CHECKPOINT (concat (checkpoint_fields c)))
            (flushed v) = (Ok tt, v1)) as Hev1.
  { rewrite process_evidence_eq by done. change (_ =? _) with false at 1. cbv iota. change (_ =? _) with true at 1.
    cbv iota. apply (received_checkpoint_ok c (flushed v)); try done. cbn. lia. }
  destruct (evidence_step _ _ now _ v [] _ _ [] v v1 frames_nil eq_refl
    (tracks_points (received_points c (points s)) _ _ (follows_tracks _ _ Hf)) Hn Hlen Hev1
    eq_refl eq_refl eq_refl eq_refl Hp1) as (l & v' & Hl & Hrun & Htr & Hpts).
  set (a := ack_of s1 (AuditContainerHeader.session_id (v_header v)) c) in *.
  destruct (ack_of_wf s1 (AuditContainerHeader.session_id (v_header v)) c Hc (so_session_wf _ _ Hst)) as [Ha _]. fold a in Ha.
  assert (zlen (concat (ack_fields a)) <= 911) as Hlen2 by (rewrite (layout_len _ _ _ _ _ _ ack_layout Ha); done).
  destruct (push_evidence_count _ _ _ _ _ _ _ Hlen2 Hp2) as [Hcount2 Hs2].
  assert (AuditContainerHeader.session_id (v_header v') = AuditContainerHeader.session_id (v_header v)) as Hsid.
  { pose proof (so_session _ _ (tr_static _ _ Htr)) as Hs. rewrite Hs1 in Hs.
    cbn [peer set_chains set_points] in Hs. rewrite (so_session _ _ Hst) in Hs. by apply (inj Some) in Hs. }
  destruct (sent_ack_ok a (ref_of c) (last_received_checkpoint_seq (v_points v)) (flushed v')) as (previous & Hack).
  { done. }
  { exact (session_signature_verifies s1 v' _ (tr_static _ _ Htr)). }
  { symmetry. exact Hsid. }
  { change (v_points (flushed v')) with (v_points v'). rewrite Hpts. cbn. rewrite Hseq. lia. }
  { change (v_points (flushed v')) with (v_points v'). rewrite Hpts. cbn. rewrite (pf_sent_acks _ _ _ Hpt), Hseq. lia. }
  { change (v_points (flushed v')) with (v_points v'). by rewrite Hpts. }
  { done. }
  { change (v_points (flushed v')) with (v_points v'). rewrite Hpts. apply (pf_confirmed_received _ _ _ Hpt). }
  { cbn. rewrite Hseq. lia. }
  cbv zeta in Hack. set (v2 := set_vpoints _ _) in Hack.
  destruct (evidence_step EVIDENCE_SENT_CHECKPOINT_ACK _ now s1 v' b1 b2 s2 l v v2 Hl Hrun Htr Hn Hlen2)
    as (l2 & v3 & Hl2 & Hrun2 & Htr2 & Hpts2); [by rewrite process_evidence_eq|done..|].
  refine (sim_intro _ l2 _ v3 _ Hl2 Hrun2 (tracks_follow _ _ Htr2 _)).
  rewrite Hpts2, Hs2, Hs1. unfold v2. change (v_points (flushed v')) with (v_points v'). rewrite Hpts.
  change (CheckpointAck.sequence a) with (Checkpoint.sequence c).
  destruct Hc as (_ & Hu & _). clear -Hpt Hseq Hcount Hb Hb0 Hu. destruct Hpt as [[? ?] ???????????].
  split; cbn [v1 set_received_ref set_received_seq v_points set_vpoints last_sent_checkpoint_seq
    last_received_checkpoint_seq chains set_chains set_points s_local_after set_local local_count]; try done.
  - cbn. lia.
  - cbn. lia.
Qed.

Lemma receive_checkpoint_sim policy c now s v ack batch s' :
  follows s v -> is_u64 now -> checkpoint_wf c ->
  receive_checkpoint_with_policy (IoError:=IoError) c now policy s = (Ok (ack, batch), s') -> sim v batch s'.
Proof.
  intros Hf Hn Hc Hr. unfold receive_checkpoint_with_policy in Hr.
  apply (receive_checks_run policy c s v) in Hr as (Hid & Hsig & Hr); [|done..].
  pose proof (fo_static _ _ Hf) as Hst. pose proof (fo_points _ _ Hf) as Hpt.
  rewrite (stm_bind_step _ _ (concat (checkpoint_fields c)) _ s) in Hr by (unfold lift; by rewrite wire_checkpoint).
  cbv zeta in Hr. destruct (Z.eqb_spec (Checkpoint.sequence c)
    (wrapping_next (default 0 (fst <$> last_received_checkpoint (points s))))) as [Hseq|]; cbn [negb] in Hr.
  - rewrite (stm_bind_step _ _ tt _ (set_points (received_points c (points s)) s)) in Hr by done.
    apply stm_bind_ok in Hr as (b1 & s1 & Hp1 & Hr). apply stm_bind_ok in Hr as (a & s1' & Hb & Hr).
    assert (zlen (concat (checkpoint_fields c)) <= 911) as Hlen by (rewrite (layout_len _ _ _ _ _ _ checkpoint_layout Hc); done).
    destruct (push_evidence_count _ _ _ _ _ _ _ Hlen Hp1) as [Hcount Hs1].
    assert (session_id (peer s1) = Some (AuditContainerHeader.session_id (v_header v))) as Hsid
      by (rewrite Hs1; apply Hst).
    apply (build_ack_run _ _ _ _ _ Hc (so_session_wf _ _ Hst) Hsid) in Hb as [-> ->].
    destruct (ack_of_wf s1 _ c Hc (so_session_wf _ _ Hst)) as [Ha _].
    rewrite (stm_bind_step _ _ _ _ s1) in Hr by (unfold lift; by rewrite (wire_ack _ Ha)).
    apply stm_bind_ok in Hr as (b2 & s2 & Hp2 & Hr). apply stm_ret_ok in Hr as [[-> ->]%pair_eq ->].
    refine (received_records_sim c now s v b1 b2 s1 s2 Hf Hn Hc Hid Hsig _ Hp1 Hp2).
    rewrite Hseq, <- (pf_received _ _ _ Hpt). destruct (pf_bound _ _ _ Hpt). destruct (pf_received_range _ _ _ Hpt).
    cbn [chains set_points] in Hcount. apply wrapping_next_small; lia.
  - destruct (bool_decide _); [|discriminate Hr].
    apply stm_bind_ok in Hr as (a & s1 & Hb & Hr). apply stm_ret_ok in Hr as [[-> ->]%pair_eq ->].
    apply (build_ack_run _ _ _ _ _ Hc (so_session_wf _ _ Hst) (so_session _ _ Hst)) in Hb as [-> ->].
    by exists [], v.
Qed.

Definition acked_points (a : CheckpointAck.t) (p : Checkpoints) : Checkpoints :=
  Points (next_checkpoint_sequence p) (last_checkpoint_time_ns p)
    (CheckpointAck.sequence a) (last_confirmed_received_checkpoint_sequence p)
    (last_received_checkpoint p) (last_sent_checkpoint p)
    (checkpoint_shared_bytes p) (checkpoint_due_flag p).

(** The record of an acknowledgment the peer sent. *)
Lemma received_ack_record_sim a c now s v batch s' :
  follows s v -> is_u64 now -> ack_wf a ->
  last_sent_checkpoint (points s) = Some c -> CheckpointAck.sequence a = Checkpoint.sequence c ->
  CheckpointAck.checkpoint_digest a = sha256_32 (concat (checkpoint_fields c)) ->
  CheckpointAck.snapshot a = Checkpoint.snapshot c ->
  CheckpointAck.session_id a = AuditContainerHeader.session_id (v_header v) ->
  verify_ed25519 (AuditContainerHeader.peer_session_pubkey (v_header v)) (signed_bytes (SAck a))
    (CheckpointAck.signature a) = true ->
  last_confirmed_sent_checkpoint_sequence (points s) < CheckpointAck.sequence a ->
  push_evidence (IoError:=IoError) [] EVIDENCE_RECEIVED_CHECKPOINT_ACK (concat (ack_fields a)) now
    (set_points (acked_points a (points s)) s) = (Ok batch, s') -> sim v batch s'.
Proof.
  intros Hf Hn Ha Hsent Hseq Hdig Hsnap Hid Hsig Hlt Hp. pose proof (fo_points _ _ Hf) as Hpt.
  destruct (pf_sent_wf _ _ _ Hpt c Hsent) as [Hc Hcs].
  assert (zlen (concat (ack_fields a)) <= 911) as Hlen by (rewrite (layout_len _ _ _ _ _ _ ack_layout Ha); done).
  destruct (push_evidence_count _ _ _ _ _ _ _ Hlen Hp) as [Hcount Hs']. cbn [chains set_points] in Hcount.
  assert (0 <= last_confirmed_sent_checkpoint_sequence (points s)) as H0le.
  { pose proof (pf_confirmed_sent _ _ _ Hpt) as Hcf. unfold confirmed_at in Hcf.
    destruct (last_confirmed_sent (v_points v)); lia. }
  destruct (received_ack_ok a (ref_of c) (last_confirmed_sent_checkpoint_sequence (points s)) (flushed v))
    as (previous & Hack); try done.
  { cbn. lia. }
  { cbn. rewrite (pf_received_acks _ _ _ Hpt). done. }
  { cbn. by rewrite (pf_sent_ref _ _ _ Hpt), Hsent. }
  { split; [done|]. split; [by rewrite Hdig|done]. }
  { apply (pf_confirmed_sent _ _ _ Hpt). }
  cbv zeta in Hack. set (v1 := set_vpoints _ _) in Hack.
  destruct (evidence_step EVIDENCE_RECEIVED_CHECKPOINT_ACK _ now _ v [] batch s' [] v v1 frames_nil eq_refl
    (tracks_points (acked_points a (points s)) _ _ (follows_tracks _ _ Hf)) Hn Hlen)
    as (l & v' & Hl & Hrun & Htr & Hpts); [by rewrite process_evidence_eq|done..|].
  refine (sim_intro _ l _ v' _ Hl Hrun (tracks_follow _ _ Htr _)).
  rewrite Hpts, Hs'. clear -Hpt Hsent Hseq Hcs H0le Hlt. destruct Hpt as [[? ?] ???????????].
  split; cbn [v1 v_points set_vpoints last_sent_checkpoint_seq flushed set_vchains
    last_received_checkpoint_seq chains set_chains set_points s_local_after set_local local_count]; try done.
  - cbn. lia.
  - cbn. by rewrite Hsent.
  - cbn. lia.
Qed.

Lemma receive_ack_sim a now s v r s' :
  follows s v -> is_u64 now -> ack_wf a ->
  receive_checkpoint_ack (IoError:=IoError) a now s = (Ok r, s') -> sim v (default [] r) s'.
Proof.
  intros Hf Hn Ha Hr. unfold receive_checkpoint_ack in Hr.
  pose proof (fo_static _ _ Hf) as Hst. pose proof (fo_points _ _ Hf) as Hpt.
  apply stm_bind_ok in Hr as (p & ? & [-> ->]%gets_ok & Hr).
  apply stm_bind_ok in Hr as ([] & s1 & Hph & Hr).
  assert (s1 = s) as -> by (destruct (phase s); try discriminate Hph; by injection Hph). clear Hph.
  apply stm_bind_ok in Hr as (sid & ? & [-> Hsid]%required_run & Hr).
  rewrite (so_session _ _ Hst) in Hsid. apply (inj Some) in Hsid as <-.
  destruct (bool_decide_reflect (CheckpointAck.session_id a = AuditContainerHeader.session_id (v_header v)))
    as [Hid|]; [|discriminate Hr]. cbn [negb] in Hr.
  apply stm_bind_ok in Hr as (c & ? & [-> Hsent]%required_run & Hr).
  destruct (pf_sent_wf _ _ _ Hpt c Hsent) as [Hc _].
  destruct (Z.eqb_spec (CheckpointAck.sequence a) (Checkpoint.sequence c)) as [Hseq|]; [|discriminate Hr].
  cbn [negb] in Hr.
  rewrite (stm_bind_step _ _ (concat (checkpoint_fields c)) _ s) in Hr by (unfold lift; by rewrite wire_checkpoint).
  destruct (bool_decide_reflect (CheckpointAck.checkpoint_digest a = sha256_32 (concat (checkpoint_fields c))))
    as [Hdig|]; [|discriminate Hr].
  destruct (bool_decide_reflect (CheckpointAck.snapshot a = Checkpoint.snapshot c)) as [Hsnap|]; [|discriminate Hr].
  cbn [negb orb] in Hr. apply stm_bind_ok in Hr as (ph & ? & [-> Hph']%required_run & Hr).
  destruct (so_peer _ _ Hst) as (ph' & Hpe & _ & Hkey). rewrite Hpe in Hph'. apply (inj Some) in Hph' as <-.
  rewrite (stm_bind_step _ _ (signed_bytes (SAck a)) _ s) in Hr by (unfold lift; by rewrite wire_ack_signing).
  unfold verify_signature in Hr. rewrite <- Hkey in Hr.
  destruct (ed_verify _ _ _) eqn:Hsig; [|discriminate Hr]. cbn [is_ok negb] in Hr.
  apply stm_bind_ok in Hr as (s2 & ? & [-> ->]%gets_ok & Hr). cbn [id] in Hr.
  destruct (Z.leb_spec (CheckpointAck.sequence a) (last_confirmed_sent_checkpoint_sequence (points s))) as [|Hlt].
  { apply stm_ret_ok in Hr as [-> ->]. by exists [], v. }
  rewrite (stm_bind_step _ _ tt _ (set_points (acked_points a (points s)) s)) in Hr by done.
  rewrite (stm_bind_step _ _ (concat (ack_fields a)) _ (set_points (acked_points a (points s)) s)) in Hr
    by (unfold lift; by rewrite wire_ack).
  apply stm_bind_ok in Hr as (b & s3 & Hp & Hr). apply stm_ret_ok in Hr as [-> ->].
  by refine (received_ack_record_sim a c now s v b s3 Hf Hn Ha Hsent Hseq Hdig Hsnap Hid Hsig Hlt Hp).
Qed.
End PointSim.
