(* ===== verification/AuditCloseSim.v ===== *)
(** * Closing a session

    The close reason ends the open batches; closing the directions then commits the blocks
    the normalizers still hold, and the manifests are exchanged over the final snapshot.  A
    failing session ends with three local records instead. *)

From stdpp Require Import strings.
From S2P Require Import Prelude Domain Codec Layout WireAudit AuditCodecs AuditContainer AuditSigning AuditWriter Stateful AuditEvents AuditSession AuditNormalize ChainVerifier AuditTrace AuditSimulation AuditControlSim AuditPointSim.
Open Scope string_scope.
Open Scope list_scope.
Open Scope Z_scope.

Section CloseSim.
Context {IoError : Type} `{AuditCryptoLaws} {I L : Type}
  `{!PersistentIdentity (IoError:=IoError) I} `{!Ledger (IoError:=IoError) L}
  {HM : ManifestsHeld}.
Local Notation st := (session I L).
Implicit Types (s : st) (v : verifier).

(** ** The normal close *)

(** [record_shared_close(reason)] and [close_directions()] of the observer. *)
Definition close_session (reason : AuditCloseReason.t) (now : Z)
  : stm st (AuditError (IoError:=IoError)) RecordBatch :=
  b1 ← record_shared_close_reason DIRECTION_CTRL_TO_HOST reason now;
  b2 ← close_directions;
  mret (b1 ++ b2).

Lemma last_blocks_u64 pending n : buffers n pending -> Forall (fun b => is_u64 (zlen b)) (last_blocks pending).
Proof.
  intros (_ & _ & Hlt & _). unfold last_blocks. destruct (_ =? 0); [done|]. repeat constructor; [apply zlen_nonneg|].
  eapply Z.lt_trans; [exact Hlt|]. done.
Qed.

(** Blocks without an open batch, on both sides. *)
Lemma settled_follow stream bs chain' c vc :
  chains_follow c vc -> v_input_batch vc = None -> v_output_batch vc = None ->
  chains_follow (blocks_after stream bs chain' c) (vblocks_after stream bs chain' vc) /\
  v_input_batch (vblocks_after stream bs chain' vc) = None /\
  v_output_batch (vblocks_after stream bs chain' vc) = None.
Proof.
  intros [H1 H2 H3 H4 H5 _ _] Hi Ho. destruct vc as [vs vlh vlc vlb vlf vib vob]. cbn in *. subst.
  destruct bs as [|b bs]; [by split_and!|]. split; [|by destruct stream].
  split; try (by destruct stream). intros x. specialize (H4 x). by destruct stream, x.
Qed.

(** What closing a direction keeps: everything but the checkpoints' counters. *)
Record closing (s : st) (v : verifier) : Prop := {
  cl_chains : chains_follow (chains s) (v_chains v);
  cl_ok : chains_ok (chains s);
  cl_settled : settled v;
  cl_static : static_ok s v;
  cl_points : points_follow (local_count (chains s)) (points s) (v_points v);
}.

Lemma close_direction_step stream build pending s v batch batch' s' l0 v0 :
  frames batch l0 -> process_frames (IoError:=IoError) l0 v0 = (Ok tt, v) -> closing s v ->
  is_byte_stream stream = true -> builds stream build ->
  buffers (normalizer stream (chains s)) pending ->
  close_direction (IoError:=IoError) stream (block_type stream) build batch s = (Ok batch', s') ->
  exists l v', frames batch' l /\ process_frames (IoError:=IoError) l v0 = (Ok tt, v') /\ closing s' v' /\
    normalizer (other_stream stream) (chains s') = normalizer (other_stream stream) (chains s).
Proof.
  intros Hl0 Hrun0 [Hc Hok [Hsi Hso] Hst Hpt] Hs Hb Hn Hr. unfold close_direction in Hr.
  apply stm_bind_ok in Hr as (completed & s1 & Hw & Hr). apply lift_ok in Hr as [Hpush ->].
  destruct (finish_blocks (on_block (IoError:=IoError) (I:=I) (L:=L) stream build) _ _ Hn) as (n' & Hfin).
  destruct (with_normalizer_run stream build _ _ n' s completed s1 Hfin Hw) as (sb & due & Hs1).
  destruct (chain_blocks build _ _) as [rs chain'] eqn:Hcb. destruct Hs1 as (-> & Hcount & ->).
  pose proof (last_blocks_u64 _ _ Hn) as Hu. set (bs := last_blocks pending) in *.
  pose proof (push_blocks_frames _ _ _ _ _ Hpush Hl0) as Hfr.
  destruct (process_blocks_ok (IoError:=IoError) stream build bs v rs chain') as (Hrun & Hok' & _);
    rewrite ?(follow_shared _ _ Hc); try done; [apply (shared_ok _ Hok)|].
  destruct (settled_follow stream bs chain' _ _ Hc Hsi Hso) as (Hc' & Hi' & Ho').
  destruct (blocks_after_local stream bs chain' (chains s)) as (Elh & Elc & Elf & Ein & Eon).
  eexists _, _. split; [exact Hfr|]. split; [exact (eq_trans (process_frames_app _ _ _ _ Hrun0) Hrun)|].
  split; [split|].
  - eapply chains_follow_ext; [exact Hc'|..]; by destruct stream.
  - by apply set_normalizer_ok, blocks_after_ok.
  - done.
  - by apply (static_keep s _ v).
  - eapply points_keep; [exact Hpt|]. destruct stream; cbn; rewrite Elc; lia.
  - destruct stream; try done; cbn; by rewrite ?Ein, ?Eon.
Qed.

Lemma close_session_sim reason now s v batch s' :
  follows s v -> is_u64 now -> close_session reason now s = (Ok batch, s') -> sim v batch s'.
Proof.
  intros Hf Hn Hr. unfold close_session in Hr.
  apply stm_bind_ok in Hr as (b1 & s1 & H1 & Hr). apply stm_bind_ok in Hr as (b2 & s2 & H2 & Hr).
  apply stm_ret_ok in Hr as [-> ->].
  destruct (close_reason_step DIRECTION_CTRL_TO_HOST _ _ _ _ _ _ Hf Hn eq_refl H1) as (l1 & v1 & Hl1 & Hrun1 & Hf1 & Hset).
  unfold close_directions in H2. apply stm_bind_ok in H2 as (? & ? & [-> Hph]%recordable_run & H2).
  apply stm_bind_ok in H2 as (key & ? & [-> _]%required_run & H2).
  apply stm_bind_ok in H2 as (b3 & s3 & H3 & H2). apply stm_bind_ok in H2 as (b4 & s4 & H4 & H2).
  apply stm_bind_ok in H2 as (? & ? & ->%modify_ok & [-> ->]%stm_ret_ok).
  destruct (fo_open _ _ Hf1 Hph) as [[pi Hpi] [po Hpo]].
  assert (closing s1 v1) as Hcl by (destruct Hf1; by split).
  destruct (close_direction_step SharedStream.Input _ pi s1 v1 [] b3 s3 [] v1 frames_nil eq_refl Hcl eq_refl
    (input_builds key) Hpi H3) as (l3 & v3 & Hl3 & Hrun3 & Hcl3 & Hother).
  destruct (close_direction_step SharedStream.Output _ po s3 v3 b3 b4 s4 l3 v1 Hl3 Hrun3 Hcl3 eq_refl
    output_builds (eq_ind_r (fun n => buffers n po) Hpo Hother) H4) as (l4 & v4 & Hl4 & Hrun4 & [Hc Hok _ Hst Hpt] & _).
  refine (sim_intro _ (l1 ++ l4) _ v4 _ (frames_app _ _ _ _ Hl1 Hl4) (eq_trans (process_frames_app _ _ _ _ Hrun1) Hrun4) _).
  split; try done. by apply (static_keep s4 _ v4).
Qed.

(** ** The manifests *)

Lemma wire_manifest m :
  manifest_wf m ->
  wire_or_protocol (IoError:=IoError) (JointManifest.encode_payload m) = Ok (concat (manifest_fields m)).
Proof.
  intros Hm. unfold wire_or_protocol.
  by rewrite (fl_enc _ _ _ _ _ manifest_layout m Hm : WireBytes.as_slice <$> _ = _).
Qed.

Lemma wire_manifest_signature {E} sig :
  FixedBytes.wf (ManifestSignature.signature sig) ->
  wire (E:=E) (ManifestSignature.encode_payload sig) = Ok (concat [raw (ManifestSignature.signature sig)]).
Proof.
  intros Hs. unfold wire.
  by rewrite (fl_enc _ _ _ _ _ manifest_signature_layout sig Hs : WireBytes.as_slice <$> _ = _).
Qed.

Lemma signature_len (sig : ManifestSignature.t) :
  FixedBytes.wf (ManifestSignature.signature sig) ->
  zlen (concat [raw (ManifestSignature.signature sig)]) <= 911.
Proof. intros Hs. rewrite (layout_len _ _ _ _ _ sig manifest_signature_layout Hs). done. Qed.

(** The evidence after one more manifest, and after one more signature. *)
Definition hold_manifest (sent : bool) (bytes : list Z) (m : VManifests) : VManifests :=
  if sent then MkVManifests (Some bytes) (received_manifest_evidence m) (sent_manifest_signature m)
                 (received_manifest_signature m)
  else MkVManifests (manifest_evidence m) (Some bytes) (sent_manifest_signature m)
         (received_manifest_signature m).

Definition hold_signature (sent : bool) (sig : ManifestSignature.t) (m : VManifests) : VManifests :=
  if sent then MkVManifests (manifest_evidence m) (received_manifest_evidence m) (Some sig)
                 (received_manifest_signature m)
  else MkVManifests (manifest_evidence m) (received_manifest_evidence m) (sent_manifest_signature m)
         (Some sig).

Definition hold_pair (sent : bool) (m : JointManifest.t) (sig : ManifestSignature.t) (held : VManifests)
  : VManifests :=
  hold_signature sent sig (hold_manifest sent (concat (manifest_fields m)) held).

(** The verifier accepts a manifest over its own header and chains. *)
Lemma manifest_evidence_ok sent m v :
  manifest_wf m -> JointManifest.session_id m = AuditContainerHeader.session_id (v_header v) ->
  JointManifest.connection_binding m = AuditHello.connection_binding (v_hello v) ->
  JointManifest.terminal_hello_digest m = AuditContainerHeader.terminal_hello_digest (v_header v) ->
  JointManifest.final_snapshot m = snapshot_of (v_shared (v_chains v)) ->
  evidence_manifest (IoError:=IoError) sent (concat (manifest_fields m)) v
  = (Ok tt, set_vmanifests (hold_manifest sent (concat (manifest_fields m)) (v_manifests v)) v).
Proof.
  intros Hm H1 H2 H3 H4. unfold evidence_manifest, decoded_as, mbind, stm_bind, lift, gets.
  rewrite (fl_dec _ _ _ _ _ manifest_layout m Hm). cbn [map_err id].
  rewrite H1, H2, H3, H4, !bool_decide_true by done. rewrite (ensure_true (_ && _)) by done.
  rewrite (fl_enc _ _ _ _ _ manifest_layout m Hm : WireBytes.as_slice <$> _ = _). cbn [map_err]. by destruct sent.
Qed.

Lemma signature_evidence_ok sent sig v :
  FixedBytes.wf (ManifestSignature.signature sig) ->
  evidence_signature (IoError:=IoError) sent (concat [raw (ManifestSignature.signature sig)]) v
  = (Ok tt, set_vmanifests (hold_signature sent sig (v_manifests v)) v).
Proof.
  intros Hs. unfold evidence_signature, decoded_as, mbind, stm_bind, lift.
  rewrite (fl_dec _ _ _ _ _ manifest_signature_layout sig Hs). cbn [map_err]. by destruct sent.
Qed.

Definition manifest_kind (sent : bool) : Z := if sent then EVIDENCE_SENT_MANIFEST else EVIDENCE_RECEIVED_MANIFEST.
Definition signature_kind (sent : bool) : Z :=
  if sent then EVIDENCE_SENT_MANIFEST_SIGNATURE else EVIDENCE_RECEIVED_MANIFEST_SIGNATURE.

(** Evidence that leaves the verifier's checkpoints alone. *)
Lemma manifests_step (HM0 : ManifestsHeld) kind payload now s v batch batch' s' l0 v0 vm :
  frames batch l0 -> process_frames (IoError:=IoError) l0 v0 = (Ok tt, v) -> follows (HM:=HM0) s v -> is_u64 now ->
  zlen payload <= 911 ->
  process_evidence (IoError:=IoError) (evidence_bytes kind payload) (flushed v)
    = (Ok tt, set_vmanifests vm (flushed v)) ->
  push_evidence (IoError:=IoError) batch kind payload now s = (Ok batch', s') ->
  sim (HM:=vm) v0 batch' s'.
Proof.
  intros Hb Hl0 Hf Hn Hlen Hev Hp.
  destruct (evidence_step_to (HM1:=vm) kind payload now s v batch batch' s' l0 v0 _ Hb Hl0 (follows_tracks _ _ Hf) Hn
    Hlen Hev eq_refl eq_refl eq_refl eq_refl Hp) as (l & v' & Hl & Hrun & Htr & Hpts).
  apply push_evidence_count in Hp as [_ ->]; [|done].
  exists l, v'. split_and!; [done..|]. apply tracks_follow; [done|]. rewrite Hpts.
  eapply points_mono; [apply Hf|]. cbn. lia.
Qed.

Lemma manifest_pair_sim sent m sig now s v b1 b2 s1 s2 :
  follows s v -> is_u64 now -> manifest_wf m -> FixedBytes.wf (ManifestSignature.signature sig) ->
  JointManifest.session_id m = AuditContainerHeader.session_id (v_header v) ->
  JointManifest.connection_binding m = AuditHello.connection_binding (v_hello v) ->
  JointManifest.terminal_hello_digest m = AuditContainerHeader.terminal_hello_digest (v_header v) ->
  JointManifest.final_snapshot m = shared_snapshot s ->
  push_evidence (IoError:=IoError) [] (manifest_kind sent) (concat (manifest_fields m)) now s = (Ok b1, s1) ->
  push_evidence (IoError:=IoError) b1 (signature_kind sent) (concat [raw (ManifestSignature.signature sig)]) now s1
    = (Ok b2, s2) -> sim (HM:=hold_pair sent m sig HM) v b2 s2.
Proof.
  intros Hf Hn Hm Hs H1 H2 H3 H4 Hp1 Hp2.
  assert (zlen (concat (manifest_fields m)) <= 911) as Hlen1
    by (rewrite (layout_len _ _ _ _ _ _ manifest_layout Hm); done).
  pose proof (signature_len sig Hs) as Hlen2.
  assert (JointManifest.final_snapshot m = snapshot_of (v_shared (v_chains (flushed v)))) as H5.
  { rewrite H4. unfold shared_snapshot. f_equal. symmetry. apply (follow_shared _ _ (fo_chains _ _ Hf)). }
  pose proof (manifest_evidence_ok sent m (flushed v) Hm H1 H2 H3 H5) as Hev.
  change (v_manifests (flushed v)) with (v_manifests v) in Hev. rewrite (so_manifests _ _ (fo_static _ _ Hf)) in Hev.
  destruct (manifests_step HM (manifest_kind sent) _ now s v [] b1 s1 [] v _ frames_nil eq_refl Hf Hn Hlen1
    ltac:(rewrite process_evidence_eq by done; destruct sent; exact Hev) Hp1) as (l & v' & Hl & Hrun & Hf').
  pose proof (signature_evidence_ok sent sig (flushed v') Hs) as Hev'.
  change (v_manifests (flushed v')) with (v_manifests v') in Hev'. rewrite (so_manifests _ _ (fo_static _ _ Hf')) in Hev'.
  refine (manifests_step _ (signature_kind sent) _ now s1 v' b1 b2 s2 l v _ Hl Hrun Hf' Hn Hlen2 _ Hp2).
  rewrite process_evidence_eq by done. destruct sent; exact Hev'.
Qed.

(** A manifest over this session as it stands. *)
Record manifest_of (s : st) (m : JointManifest.t) : Prop := {
  mo_wf : manifest_wf m;
  mo_session : session_id (peer s) = Some (JointManifest.session_id m);
  mo_binding : JointManifest.connection_binding m = binding (own s);
  mo_terminal : terminal_hello_digest (peer s) = Some (JointManifest.terminal_hello_digest m);
  mo_snapshot : JointManifest.final_snapshot m = shared_snapshot s;
  mo_keys : exists ph, peer_hello (peer s) = Some ph /\
    by_role (role (own s)) (session_pubkey (own s)) (AuditHello.session_key ph)
    = (JointManifest.controller_session_key m, JointManifest.host_session_key m);
  mo_prints : exists f, peer_fingerprint (peer s) = Some f /\
    by_role (role (own s)) (fingerprint (identity (own s))) f
    = (JointManifest.controller_fingerprint m, JointManifest.host_fingerprint m);
}.

(** A signature of the manifest by the session's own key. *)
Definition own_signature (s : st) (m : JointManifest.t) (sig : ManifestSignature.t) : Prop :=
  exists input, wire_or_protocol (IoError:=IoError) (JointManifest.signing_input m) = Ok input /\
    sig = ManifestSignature.new (sign_with_session_key s input).

(** A signature of the manifest by the peer's session key. *)
Definition peer_signature (s : st) (m : JointManifest.t) (sig : ManifestSignature.t) : Prop :=
  exists ph input, peer_hello (peer s) = Some ph /\
    wire_or_protocol (IoError:=IoError) (JointManifest.signing_input m) = Ok input /\
    ed_verify (raw (AuditHello.session_key ph)) input (raw (ManifestSignature.signature sig)) = true.

Lemma manifest_pair_of_sim sent m sig now s v b1 b2 s1 s2 :
  follows s v -> is_u64 now -> manifest_of s m -> FixedBytes.wf (ManifestSignature.signature sig) ->
  push_evidence (IoError:=IoError) [] (manifest_kind sent) (concat (manifest_fields m)) now s = (Ok b1, s1) ->
  push_evidence (IoError:=IoError) b1 (signature_kind sent) (concat [raw (ManifestSignature.signature sig)]) now s1
    = (Ok b2, s2) -> sim (HM:=hold_pair sent m sig HM) v b2 s2.
Proof.
  intros Hf Hn [Hm H1 H2 H3 H4 _ _] Hs Hp1 Hp2. pose proof (fo_static _ _ Hf) as Hst.
  refine (manifest_pair_sim sent m sig now s v b1 b2 s1 s2 Hf Hn Hm Hs _ _ _ H4 Hp1 Hp2).
  - rewrite (so_session _ _ Hst) in H1. by apply (inj Some) in H1.
  - rewrite H2. symmetry. apply Hst.
  - rewrite (so_terminal _ _ Hst) in H3. by apply (inj Some) in H3.
Qed.

Lemma pubkey_wf s v : static_ok s v -> FixedBytes.wf (session_pubkey (own s)).
Proof.
  intros Hst. unfold FixedBytes.wf. change (FixedBytes.as_bytes _) with (raw (session_pubkey (own s))).
  rewrite (so_pubkey _ _ Hst). apply ed_public_array.
Qed.

Lemma confirmed_u64 s v : follows s v -> is_u64 (last_confirmed_checkpoint_sequence s).
Proof.
  intros Hf. pose proof (fo_points _ _ Hf) as Hpt. destruct (pf_bound _ _ _ Hpt) as (Hb1 & Hb2 & Hb3).
  destruct (local_ok _ (fo_ok _ _ Hf)) as [[? ?] _]. destruct (pf_received_range _ _ _ Hpt).
  unfold last_confirmed_checkpoint_sequence, is_u64. rewrite (pf_confirmed_sequence _ _ _ Hpt).
  destruct (_ <=? _); lia.
Qed.

Lemma build_manifest_sim ending ended_normally now s v m sig batch s' :
  follows s v -> is_u64 now -> ManifestEnding.wf ending ->
  build_manifest (IoError:=IoError) ending ended_normally now s = (Ok (m, sig, batch), s') ->
  sim (HM:=hold_pair true m sig HM) v batch s' /\ manifest_of s' m /\ phase s' = phase s /\ phase s = Finalizing /\
  own_signature s' m sig /\ JointManifest.final_checkpoint_sequence m = last_confirmed_checkpoint_sequence s'.
Proof.
  intros Hf Hn He Hr. unfold build_manifest in Hr. pose proof (fo_static _ _ Hf) as Hst.
  apply stm_bind_ok in Hr as (? & ? & [-> Hph]%phase_run & Hr).
  apply stm_bind_ok in Hr as (sid & ? & [-> Hsid]%required_run & Hr).
  apply stm_bind_ok in Hr as (ph & ? & [-> Hpeer]%required_run & Hr).
  apply stm_bind_ok in Hr as (thd & ? & [-> Hthd]%required_run & Hr).
  apply stm_bind_ok in Hr as (pf & ? & [-> Hpf]%required_run & Hr).
  apply stm_bind_ok in Hr as (? & ? & [-> ->]%gets_ok & Hr). cbn [id] in Hr. cbv zeta in Hr.
  destruct (by_role (role (own s)) (fingerprint (identity (own s))) pf) as [cf hf] eqn:Hfp.
  destruct (by_role (role (own s)) (session_pubkey (own s)) (AuditHello.session_key ph)) as [ck hk] eqn:Hk.
  set (mm := JointManifest.new _ _ _ _ _ _ _ _ _ _ _ _) in Hr.
  assert (manifest_of s mm) as Hof.
  { split; [|done..|by exists ph|by exists pf]. unfold manifest_wf. destruct (so_peer _ _ Hst) as (ph' & Hpe & Hpk & _).
    rewrite Hpe in Hpeer. apply (inj Some) in Hpeer as <-. pose proof (so_peer_print _ _ Hst _ Hpf) as Hpw.
    pose proof (so_print_wf _ _ Hst) as Hfw. pose proof (pubkey_wf _ _ Hst) as Hkw.
    rewrite (so_session _ _ Hst) in Hsid. apply (inj Some) in Hsid as <-.
    rewrite (so_terminal _ _ Hst) in Hthd. apply (inj Some) in Hthd as <-.
    assert (FixedBytes.wf cf /\ FixedBytes.wf hf) as [Hcf Hhf] by (unfold by_role in Hfp; destruct (role (own s)); by simplify_eq).
    assert (FixedBytes.wf ck /\ FixedBytes.wf hk) as [Hck Hhk] by (unfold by_role in Hk; destruct (role (own s)); by simplify_eq).
    refine (conj eq_refl (conj (so_session_wf _ _ Hst) (conj Hcf (conj Hhf (conj Hck (conj Hhk
      (conj (so_binding_wf _ _ Hst) (conj (so_terminal_wf _ _ Hst) (conj (snapshot_wf _ (fo_ok _ _ Hf))
      (conj He (confirmed_u64 _ _ Hf))))))))))). }
  pose proof (mo_wf _ _ Hof) as Hm.
  rewrite (stm_bind_step _ _ (concat (manifest_fields mm)) _ s) in Hr by (unfold lift; by rewrite wire_manifest).
  apply stm_bind_ok in Hr as (input & ? & [Hin ->]%lift_ok & Hr).
  apply stm_bind_ok in Hr as (b1 & s1 & Hp1 & Hr).
  pose proof (signature_wf s input) as Hsw.
  rewrite (stm_bind_step _ _ _ _ s1) in Hr
    by (unfold lift; by rewrite (wire_manifest_signature (ManifestSignature.new _) Hsw)).
  apply stm_bind_ok in Hr as (b2 & s2 & Hp2 & Hr). apply stm_ret_ok in Hr as [[[-> ->]%pair_eq ->]%pair_eq ->].
  assert (zlen (concat (manifest_fields mm)) <= 911) as Hl1 by (rewrite (layout_len _ _ _ _ _ _ manifest_layout Hm); done).
  destruct (push_evidence_count _ _ _ _ _ _ _ Hl1 Hp1) as [_ E1].
  destruct (push_evidence_count _ _ _ _ _ _ _ (signature_len (ManifestSignature.new (sign_with_session_key s input)) Hsw) Hp2) as [_ E2].
  split; [exact (manifest_pair_of_sim true mm (ManifestSignature.new (sign_with_session_key s input)) now s v b1 b2 s1 s2 Hf Hn Hof Hsw Hp1 Hp2)|].
  rewrite E2, E1. split; [by destruct Hof|]. split; [done|]. split; [done|]. split; [by exists input|done].
Qed.

Lemma receive_pair_sim own_manifest peer_manifest sig now s v batch s' :
  follows s v -> is_u64 now -> manifest_of s own_manifest -> FixedBytes.wf (ManifestSignature.signature sig) ->
  receive_peer_manifest_pair (IoError:=IoError) own_manifest peer_manifest sig now s = (Ok batch, s') ->
  sim (HM:=hold_pair false own_manifest sig HM) v batch s' /\ manifest_of s' own_manifest /\ phase s' = phase s /\
  phase s = Finalizing /\ peer_signature s' own_manifest sig /\ points s' = points s.
Proof.
  intros Hf Hn Hof Hsw Hr. unfold receive_peer_manifest_pair in Hr. pose proof (mo_wf _ _ Hof) as Hm.
  apply stm_bind_ok in Hr as (? & ? & [-> Hph]%phase_run & Hr).
  destruct (bool_decide_reflect (peer_manifest = own_manifest)) as [->|]; [|discriminate Hr]. cbn [negb] in Hr.
  apply stm_bind_ok in Hr as (ph & ? & [-> Hpeer]%required_run & Hr).
  apply stm_bind_ok in Hr as (input & ? & [Hin ->]%lift_ok & Hr).
  apply stm_bind_ok in Hr as (? & ? & [Hver ->]%lift_ok & Hr).
  rewrite (stm_bind_step _ _ (concat (manifest_fields own_manifest)) _ s) in Hr by (unfold lift; by rewrite wire_manifest).
  apply stm_bind_ok in Hr as (b1 & s1 & Hp1 & Hr).
  rewrite (stm_bind_step _ _ _ _ s1) in Hr by (unfold lift; by rewrite (wire_manifest_signature sig Hsw)).
  apply stm_bind_ok in Hr as (b2 & s2 & Hp2 & Hr). apply stm_bind_ok in Hr as (? & ? & ->%modify_ok & [-> ->]%stm_ret_ok).
  assert (zlen (concat (manifest_fields own_manifest)) <= 911) as Hl1
    by (rewrite (layout_len _ _ _ _ _ _ manifest_layout Hm); done).
  destruct (push_evidence_count _ _ _ _ _ _ _ Hl1 Hp1) as [_ E1].
  destruct (push_evidence_count _ _ _ _ _ _ _ (signature_len sig Hsw) Hp2) as [_ E2].
  destruct (manifest_pair_of_sim false own_manifest sig now s v b1 b2 s1 s2 Hf Hn Hof Hsw Hp1 Hp2)
    as (l & v' & Hl & Hrun & [Hc Hok Hpt Hst Hop]).
  split; [|rewrite E2, E1; split; [by destruct Hof|]; do 2 (split; [done|]); split; [exists ph, input; split_and!; [done..|]|done]].
  2: { unfold verify_signature in Hver. by destruct (ed_verify _ _ _). }
  exists l, v'. split_and!; [done..|]. split; try done. by apply (static_keep s2 _ v').
Qed.

(** ** Failing closed *)

(** A local record that relates to no shared event. *)
Lemma unrelated_sim t kind now s v0 l v b b' s' :
  is_u64 now -> plain_local t = true -> frames b l ->
  process_frames (IoError:=IoError) l v0 = (Ok tt, v) -> follows s v ->
  check_local (IoError:=IoError) t zero_head kind (flushed v) = (Ok None, flushed v) ->
  push_local (IoError:=IoError) b t kind zero_head now s = (Ok b', s') -> sim v0 b' s'.
Proof.
  intros Hn Ht Hb Hl Hf Hck Hp.
  refine (local_sim t kind zero_head now s v b b' s' l v0 (flushed v) Hb Hl Hf Ht Hn zero_head_wf Hck
    eq_refl eq_refl eq_refl eq_refl _ Hp).
  eapply points_mono; [apply (fo_points _ _ Hf)|lia].
Qed.

Lemma fail_closed_sim code reason now s v batch s' :
  follows s v -> is_u64 now ->
  fail_closed_records (IoError:=IoError) code reason now s = (Ok batch, s') ->
  sim v batch s' /\ phase s' = Failed /\ shared (chains s') = shared (chains s) /\ peer s' = peer s /\ own s' = own s.
Proof.
  intros Hf Hn Hr. unfold fail_closed_records in Hr.
  apply stm_bind_ok in Hr as (? & ? & [-> ->]%gets_ok & Hr).
  destruct (bool_decide _); [discriminate Hr|].
  apply stm_bind_ok in Hr as (b1 & s1 & H1 & Hr). apply stm_bind_ok in Hr as (b2 & s2 & H2 & Hr).
  apply stm_bind_ok in Hr as (b3 & s3 & H3 & Hr). apply stm_bind_ok in Hr as (? & ? & ->%modify_ok & [-> ->]%stm_ret_ok).
  assert (sim v b1 s1) as (l1 & v1 & Hl1 & Hr1 & Hf1).
  { refine (unrelated_sim RecordType.LocalAuditError _ now s v [] v [] b1 s1 Hn eq_refl frames_nil eq_refl Hf _ H1).
    unfold check_local, mbind, stm_bind, gets. by rewrite ensure_true by (rewrite zlen_to_be; done). }
  assert (sim v b2 s2) as (l2 & v2 & Hl2 & Hr2 & Hf2).
  { refine (unrelated_sim RecordType.LocalConnectionState _ now s1 v l1 v1 b1 b2 s2 Hn eq_refl Hl1 Hr1 Hf1 _ H2).
    unfold check_local, mbind, stm_bind, gets. by rewrite ensure_true. }
  assert (sim v b3 s3) as (l3 & v3 & Hl3 & Hr3 & [Hc Hok Hpt Hst Hop]).
  { refine (unrelated_sim RecordType.LocalCloseEvent _ now s2 v l2 v2 b2 b3 s3 Hn eq_refl Hl2 Hr2 Hf2 _ H3).
    unfold check_local, mbind, stm_bind, gets. rewrite ensure_true; [done|].
    rewrite (bool_decide_true (zero_head = zero_head)) by done. by rewrite orb_true_r. }
  apply push_local_run in H1 as (-> & _). apply push_local_run in H2 as (-> & _). apply push_local_run in H3 as (-> & _).
  split; [|done]. exists l3, v3. split_and!; [done..|]. split; try done. by refine (static_keep _ _ v3 v3 _ _ _ _ _ Hst).
Qed.
End CloseSim.
