(* ===== verification/AuditRun.v ===== *)
(** * A recorded session verifies

    The operations an observer drives a session with, as one type; the session they start
    from, established by the handshake; and the theorem that the verifier accepts every
    record of a session, whatever the order of its operations, and ends with the session's
    own chains. *)

From stdpp Require Import strings.
From S2P Require Import Prelude Domain Codec Layout WireAudit AuditCodecs AuditContainer AuditSigning AuditWriter Stateful AuditEvents AuditSession AuditNormalize ChainVerifier AuditTrace AuditSimulation AuditControlSim AuditPointSim AuditCloseSim.
Open Scope string_scope.
Open Scope list_scope.
Open Scope Z_scope.

(** ** Operations *)

Inductive op :=
| Input (bytes : list Z)
| RawOutput (bytes : list Z)
| ControllerOutput (raw_bytes display : list Z)
| DisplayBytes (display : list Z)
| SendOutcome (direction : Z) (confirmed : bool) (bytes : Z)
| PtyWriteOutcome (confirmed : bool) (bytes : Z)
| DisplayWriteOutcome (confirmed : bool) (bytes : Z)
| Resize (direction cols rows : Z)
| TerminalHello (digest : Digest32)
| TerminalReady
| TerminalExit (exit_code : Z)
| TerminalComplete
| Lifecycle (kind : Z)
| KeyAction (action : Z)
| ConnectionState (state : Z)
| LocalError (code : AuditErrorCode.t)
| FileTransfer (facts : FileTransferFacts) (local_path : option (list Z))
| FileResult (kind transfer_id final_size : Z) (digest : Digest32) (local_path : option (list Z))
| SendCheckpoint (policy : CheckpointPolicy)
| PeerCheckpoint (checkpoint : Checkpoint.t) (policy : CheckpointPolicy)
| PeerAck (ack : CheckpointAck.t)
| Close (reason : AuditCloseReason.t)
| SendManifest (ending : ManifestEnding.t) (ended_normally : bool)
| PeerManifest (manifest : JointManifest.t) (signature : ManifestSignature.t)
| FailClosed (code : AuditErrorCode.t) (reason : AuditCloseReason.t).

(** What the callers pass: the two directions, paths that are strings, messages that were
    decoded from the wire. *)
Definition op_wf (o : op) : Prop :=
  match o with
  | SendOutcome direction _ _ | Resize direction _ _ => is_direction direction = true
  | TerminalHello digest => FixedBytes.wf digest
  | FileTransfer facts path => facts_wf facts /\ forall p, path = Some p -> valid_utf8 p
  | FileResult _ id _ digest path =>
    is_u64 id /\ FixedBytes.wf digest /\ forall p, path = Some p -> valid_utf8 p
  | PeerCheckpoint c _ => checkpoint_wf c
  | PeerAck a => ack_wf a
  | SendManifest ending _ => ManifestEnding.wf ending
  | PeerManifest _ signature => FixedBytes.wf (ManifestSignature.signature signature)
  | _ => True
  end.

Section Run.
Context {IoError : Type} `{AuditCryptoLaws} {I L : Type}
  `{!PersistentIdentity (IoError:=IoError) I} `{!Ledger (IoError:=IoError) L}.
Local Notation st := (session I L).
Local Notation err := (AuditError (IoError:=IoError)).
(** The session and the manifest this side has sent, which the observer holds. *)
Local Notation obs := (st * option JointManifest.t)%type.
Implicit Types (s : st) (v : verifier).

Definition on_session {A} (m : stm st err A) : stm obs err A :=
  zoom fst (fun s p => (s, p.2)) m.

Definition apply_op (o : op) (now : Z) : stm obs err RecordBatch :=
  match o with
  | Input bytes => on_session (record_input bytes now)
  | RawOutput bytes => on_session (record_output bytes now)
  | ControllerOutput raw_bytes display => on_session (record_controller_output raw_bytes display now)
  | DisplayBytes display => on_session (record_display_bytes display now)
  | SendOutcome direction confirmed bytes => on_session (record_send_outcome direction confirmed bytes now)
  | PtyWriteOutcome confirmed bytes => on_session (record_pty_write_outcome confirmed bytes now)
  | DisplayWriteOutcome confirmed bytes => on_session (record_display_write_outcome confirmed bytes now)
  | Resize direction cols rows => on_session (record_resize direction cols rows now)
  | TerminalHello digest => on_session (record_terminal_hello digest now)
  | TerminalReady => on_session (record_terminal_ready now)
  | TerminalExit exit_code => on_session (record_terminal_exit exit_code now)
  | TerminalComplete => on_session (record_terminal_complete now)
  | Lifecycle kind => on_session (record_lifecycle kind now)
  | KeyAction action => on_session (record_key_action action now)
  | ConnectionState state => on_session (record_connection_state state now)
  | LocalError code => on_session (record_local_audit_error code now)
  | FileTransfer facts path => on_session (record_file_transfer facts path now)
  | FileResult kind id size digest path =>
    on_session (record_local_file_transfer_result kind id size digest path now)
  | SendCheckpoint policy =>
    '(_, batch) ← on_session (build_checkpoint_with_policy now policy); mret batch
  | PeerCheckpoint c policy =>
    '(_, batch) ← on_session (receive_checkpoint_with_policy c now policy); mret batch
  | PeerAck a => batch ← on_session (receive_checkpoint_ack a now); mret (default [] batch)
  | Close reason => on_session (close_session reason now)
  | SendManifest ending normal =>
    '(m, _, batch) ← on_session (build_manifest ending normal now);
    _ ← modify (fun p : obs => (p.1, Some m));
    mret batch
  | PeerManifest peer sig =>
    sent ← gets snd;
    match sent with
    | Some own => on_session (receive_peer_manifest_pair own peer sig now)
    | None => throw (InvalidState "no manifest was sent")
    end
  | FailClosed code reason => on_session (fail_closed_records code reason now)
  end.

(** A run that records every operation. *)
Fixpoint run_ops (ops : list (op * Z)) : stm obs err RecordBatch :=
  match ops with
  | [] => mret []
  | (o, now) :: ops => b1 ← apply_op o now; b2 ← run_ops ops; mret (b1 ++ b2)
  end.

(** ** After the close, shared chains stay *)

(** A step that neither records a shared event nor makes the session active. *)
Record quiet (s s' : st) : Prop := {
  qt_own : own s' = own s;
  qt_peer : peer s' = peer s;
  qt_shared : shared (chains s') = shared (chains s);
  qt_phase : phase s' = Active -> phase s = Active;
}.

Definition quietly {A} (m : stm st err A) : Prop := forall s a s', m s = (Ok a, s') -> quiet s s'.

Lemma quiet_refl s : quiet s s.
Proof. by split. Qed.

Lemma quiet_trans s1 s2 s3 : quiet s1 s2 -> quiet s2 s3 -> quiet s1 s3.
Proof. intros [????] [????]. split; [by etransitivity..|auto]. Qed.

Lemma quietly_bind {A B} (m : stm st err A) (f : A -> stm st err B) :
  quietly m -> (forall a, quietly (f a)) -> quietly (m ≫= f).
Proof. intros Hm Hf s b s' (a & s1 & H1 & H2)%stm_bind_ok. eapply quiet_trans; [by eapply Hm|by eapply Hf]. Qed.

Lemma quietly_ret {A} (a : A) : quietly (mret a).
Proof. intros s b s' [-> ->]%stm_ret_ok. apply quiet_refl. Qed.

Lemma quietly_lift {A} (r : res err A) : quietly (lift r).
Proof. intros s b s' [_ ->]%lift_ok. apply quiet_refl. Qed.

Lemma quietly_gets {A} (f : st -> A) : quietly (gets f).
Proof. intros s b s' [_ ->]%gets_ok. apply quiet_refl. Qed.

Lemma quietly_throw {A} (e : err) : quietly (throw e : stm st err A).
Proof. by intros s b s' Hr. Qed.

Lemma quietly_modify (f : st -> st) : (forall s, quiet s (f s)) -> quietly (modify f).
Proof. intros Hf s b s' ->%modify_ok. apply Hf. Qed.

Lemma quietly_if {A} (b : bool) (m1 m2 : stm st err A) :
  quietly m1 -> quietly m2 -> quietly (if b then m1 else m2).
Proof. by destruct b. Qed.

Lemma quietly_phase p : quietly (require_phase p).
Proof. intros s u s' [-> _]%phase_run. apply quiet_refl. Qed.

Lemma quietly_recordable : quietly require_recordable.
Proof. intros s u s' [-> _]%recordable_run. apply quiet_refl. Qed.

Lemma quietly_required {A} (f : st -> option A) m : quietly (required f m).
Proof. intros s u s' [-> _]%required_run. apply quiet_refl. Qed.

Lemma quietly_push_local b t k r now : quietly (push_local b t k r now).
Proof. intros s u s' (-> & _)%push_local_run. by split. Qed.

Lemma quietly_push_evidence b k p now : quietly (push_evidence b k p now).
Proof.
  unfold push_evidence. apply quietly_if; [apply quietly_throw|].
  do 4 (apply quietly_bind; [apply quietly_lift|intros ?]). apply quietly_push_local.
Qed.

Lemma quietly_fail {A} : quietly (fail_checkpoint : stm st err A).
Proof. by intros s b s' Hr. Qed.

(** Goes through a computation step by step. *)
Ltac quiet_steps :=
  repeat first
    [ apply quietly_ret | apply quietly_lift | apply quietly_gets | apply quietly_throw
    | apply quietly_phase | apply quietly_recordable | apply quietly_required | apply quietly_fail
    | apply quietly_push_evidence | apply quietly_push_local
    | apply quietly_modify; intros ?; by split
    | apply quietly_bind; [|intros ?]
    | apply quietly_if
    | case_match ].

Lemma checkpoint_quietly now policy : quietly (build_checkpoint_with_policy now policy).
Proof. unfold build_checkpoint_with_policy. quiet_steps. Qed.

Lemma receive_quietly c now policy : quietly (receive_checkpoint_with_policy c now policy).
Proof. unfold receive_checkpoint_with_policy, build_ack. quiet_steps. Qed.

Lemma ack_quietly a now : quietly (receive_checkpoint_ack a now).
Proof. unfold receive_checkpoint_ack. quiet_steps. Qed.

Lemma manifest_quietly ending normal now : quietly (build_manifest ending normal now).
Proof. unfold build_manifest. quiet_steps. Qed.

Lemma pair_quietly m m' sig now : quietly (receive_peer_manifest_pair m m' sig now).
Proof. unfold receive_peer_manifest_pair. quiet_steps. Qed.

Lemma manifest_of_quiet s s' m : quiet s s' -> manifest_of s m -> manifest_of s' m.
Proof.
  intros [Ho Hp Hs _] [Hw H1 H2 H3 H4 H5 H6]. split; rewrite ?Ho, ?Hp; try done.
  rewrite H4. unfold shared_snapshot. by rewrite Hs.
Qed.

(** ** Recording needs an active session *)

Definition needs_active {A} (m : stm st err A) : Prop := forall s a s', m s = (Ok a, s') -> phase s = Active.

Lemma needs_recordable {A} (f : unit -> stm st err A) : needs_active (require_recordable ≫= f).
Proof. by intros s a s' (u & s1 & [-> Hp]%recordable_run & _)%stm_bind_ok. Qed.

Lemma needs_gets {A B} (g : st -> A) (f : A -> stm st err B) :
  (forall a, needs_active (f a)) -> needs_active (gets g ≫= f).
Proof. intros Hf s a s' (u & s1 & [-> ->]%gets_ok & Hr)%stm_bind_ok. by eapply Hf. Qed.

Lemma needs_first {A B} (m : stm st err A) (f : A -> stm st err B) : needs_active m -> needs_active (m ≫= f).
Proof. intros Hm s a s' (u & s1 & H1 & _)%stm_bind_ok. by eapply Hm. Qed.

(** ** One operation *)

(** No manifest was exchanged yet. *)
Definition no_manifests : VManifests := MkVManifests None None None None.

Record good (M : VManifests) (p : obs) (v : verifier) : Prop := {
  gd_follows : follows (HM:=M) p.1 v;
  gd_manifest m : p.2 = Some m -> manifest_of p.1 m /\ phase p.1 <> Active;
}.

Definition good_after (M : VManifests) (v : verifier) (batch : RecordBatch) (p : obs) : Prop :=
  exists l v', frames batch l /\ process_frames (IoError:=IoError) l v = (Ok tt, v') /\ good M p v'.

(** What an operation adds to the manifest evidence. *)
Definition held_step (o : op) (p p' : obs) (M M' : VManifests) : Prop :=
  match o with
  | SendManifest _ _ => exists m sig, p'.2 = Some m /\ M' = hold_pair true m sig M /\
      own_signature (IoError:=IoError) p'.1 m sig /\
      JointManifest.final_checkpoint_sequence m = last_confirmed_checkpoint_sequence p'.1
  | PeerManifest _ sig => exists m, p.2 = Some m /\ p'.2 = Some m /\ M' = hold_pair false m sig M /\
      peer_signature (IoError:=IoError) p'.1 m sig
  | _ => p'.2 = p.2 /\ M' = M
  end.

Lemma on_session_ok {A} (m : stm st err A) p a p' :
  on_session m p = (Ok a, p') -> exists s', m p.1 = (Ok a, s') /\ p' = (s', p.2).
Proof.
  unfold on_session, zoom. destruct (m p.1) as [r s'] eqn:Hm. intros [= -> <-]. by exists s'.
Qed.

Lemma recorded_step M (m : stm st err RecordBatch) p v batch p' :
  good M p v -> needs_active m -> (forall b s', m p.1 = (Ok b, s') -> sim (HM:=M) v b s') ->
  on_session m p = (Ok batch, p') -> p'.2 = p.2 /\ good_after M v batch p'.
Proof.
  intros [Hf Hm] Hact Hsim (s' & Hr & ->)%on_session_ok.
  split; [done|]. destruct (Hsim _ _ Hr) as (l & v' & Hl & Hrun & Hf'). exists l, v'. split_and!; [done..|].
  split; [done|]. intros m' Hm'. destruct (Hm _ Hm') as [_ Hph]. by destruct (Hph (Hact _ _ _ Hr)).
Qed.

Lemma quiet_step M M' batch p v s' :
  good M p v -> quiet p.1 s' -> sim (HM:=M') v batch s' -> good_after M' v batch (s', p.2).
Proof.
  intros [Hf Hm] Hq (l & v' & Hl & Hrun & Hf'). exists l, v'. split_and!; [done..|].
  split; [done|]. cbn. intros m' Hm'. destruct (Hm _ Hm') as [Hof Hph].
  split; [by eapply manifest_of_quiet|]. intros Ha. apply Hph. by apply Hq.
Qed.

Lemma held_keeps M v batch (p p' : obs) :
  p'.2 = p.2 /\ good_after M v batch p' -> exists M', (p'.2 = p.2 /\ M' = M) /\ good_after M' v batch p'.
Proof. intros [Hp Hg]. by exists M. Qed.

Lemma apply_op_sim o now M p v batch p' :
  good M p v -> is_u64 now -> op_wf o -> apply_op o now p = (Ok batch, p') ->
  exists M', held_step o p p' M M' /\ good_after M' v batch p'.
Proof.
  intros Hg Hn Ho Hr. pose proof (gd_follows _ _ _ Hg) as Hf. destruct o; cbn [apply_op op_wf held_step] in *;
    try (apply held_keeps;
         refine (recorded_step _ _ _ _ _ _ Hg _ _ Hr);
         [apply needs_recordable || (apply needs_gets; intros ?; apply needs_recordable)|intros b s' Hb]).
  - by eapply input_sim.
  - by eapply output_sim.
  - by eapply output_sim.
  - by eapply display_bytes_sim.
  - by eapply send_outcome_sim.
  - by eapply pty_outcome_sim.
  - by eapply display_outcome_sim.
  - by eapply resize_sim.
  - refine (control_lifecycle_sim _ _ _ _ _ _ _ _ _ Hf Hn _ _ Hb); [done|]. destruct Ho as [_ Hl]. by rewrite Hl.
  - by refine (control_lifecycle_sim _ _ _ _ _ _ _ _ _ Hf Hn _ _ Hb).
  - refine (control_lifecycle_sim _ _ _ _ _ _ _ _ _ Hf Hn _ _ Hb); [done|]. by rewrite zlen_to_be.
  - by refine (control_lifecycle_sim _ _ _ _ _ _ _ _ _ Hf Hn _ _ Hb).
  - by eapply lifecycle_sim.
  - by eapply key_action_sim.
  - by eapply connection_state_sim.
  - by eapply audit_error_sim.
  - destruct Ho. by eapply file_transfer_sim.
  - destruct Ho as (Hid & Hd & Hp). exact (file_result_sim _ _ _ _ _ _ _ _ _ _ Hf Hn Hid Hd Hp Hb).
  - apply stm_bind_ok in Hr as ([c b] & p1 & (s' & H1 & ->)%on_session_ok & [-> ->]%stm_ret_ok).
    apply held_keeps. split; [done|]. eapply quiet_step; [done|by eapply checkpoint_quietly|by eapply build_checkpoint_sim].
  - apply stm_bind_ok in Hr as ([a b] & p1 & (s' & H1 & ->)%on_session_ok & [-> ->]%stm_ret_ok).
    apply held_keeps. split; [done|]. eapply quiet_step; [done|by eapply receive_quietly|by eapply receive_checkpoint_sim].
  - apply stm_bind_ok in Hr as (b & p1 & (s' & H1 & ->)%on_session_ok & [-> ->]%stm_ret_ok).
    apply held_keeps. split; [done|]. eapply quiet_step; [done|by eapply ack_quietly|by eapply receive_ack_sim].
  - apply held_keeps. refine (recorded_step _ _ _ _ _ _ Hg _ _ Hr); [apply needs_first, needs_recordable|].
    intros b s' Hb. by eapply close_session_sim.
  - apply stm_bind_ok in Hr as ([[m sig] b] & p1 & (s' & H1 & ->)%on_session_ok & Hr).
    apply stm_bind_ok in Hr as (? & ? & ->%modify_ok & [-> ->]%stm_ret_ok).
    destruct (build_manifest_sim _ _ _ _ _ _ _ _ _ Hf Hn Ho H1) as ((l & v' & Hl & Hrun & Hf') & Hof & Hph & Hfin & Hs & Hq).
    exists (hold_pair true m sig M). split; [by exists m, sig|].
    exists l, v'. split_and!; [done..|]. split; [done|]. cbn. intros m' [= <-]. split; [done|]. by rewrite Hph, Hfin.
  - apply stm_bind_ok in Hr as (sent & ? & [-> ->]%gets_ok & Hr).
    destruct p as [s [own|]]; cbn [snd] in Hr; [|discriminate Hr].
    destruct (gd_manifest _ _ _ Hg own eq_refl) as [Hof _].
    apply on_session_ok in Hr as (s' & H1 & ->).
    destruct (receive_pair_sim _ _ _ _ _ _ _ _ Hf Hn Hof Ho H1) as (Hsim & _ & _ & _ & Hsig & _).
    exists (hold_pair false own signature M). split; [by exists own|].
    eapply quiet_step; [done|by eapply pair_quietly|done].
  - apply on_session_ok in Hr as (s' & H1 & ->).
    destruct (fail_closed_sim _ _ _ _ _ _ _ Hf Hn H1) as (Hsim & Hph & Hsh & Hpe & How).
    apply held_keeps. split; [done|]. eapply quiet_step; [done| |done]. split; try done. by rewrite Hph.
Qed.

(** The manifest evidence of a run. *)
Fixpoint held_run (ops : list (op * Z)) (p : obs) (M : VManifests) (p' : obs) (M' : VManifests) : Prop :=
  match ops with
  | [] => p' = p /\ M' = M
  | (o, now) :: ops => exists b p1 M1, apply_op o now p = (Ok b, p1) /\ held_step o p p1 M M1 /\
      held_run ops p1 M1 p' M'
  end.

Lemma run_ops_sim ops M p v batch p' :
  good M p v -> Forall (fun o => op_wf o.1 /\ is_u64 o.2) ops -> run_ops ops p = (Ok batch, p') ->
  exists M', held_run ops p M p' M' /\ good_after M' v batch p'.
Proof.
  revert M p v batch. induction ops as [|[o now] ops IH]; intros M p v batch Hg Hops Hr; cbn in Hr.
  - apply stm_ret_ok in Hr as [-> ->]. exists M. split; [done|]. by exists [], v.
  - apply Forall_cons in Hops as [[Ho Hn] Hops].
    apply stm_bind_ok in Hr as (b1 & p1 & H1 & Hr). apply stm_bind_ok in Hr as (b2 & p2 & H2 & [-> ->]%stm_ret_ok).
    destruct (apply_op_sim _ _ _ _ _ _ _ Hg Hn Ho H1) as (M1 & Hm1 & l1 & v1 & Hl1 & Hrun1 & Hg1).
    destruct (IH _ _ _ _ Hg1 Hops H2) as (M2 & Hm2 & l2 & v2 & Hl2 & Hrun2 & Hg2).
    exists M2. split; [by exists b1, p1, M1|]. exists (l1 ++ l2), v2. split_and!; [by apply frames_app| |done].
    exact (eq_trans (process_frames_app _ _ _ _ Hrun1) Hrun2).
Qed.

(** ** The handshake *)

(** The session's part of [AuditObserver::establish], the peer's messages being given. *)
Definition handshake (peer_hello : AuditHello.t) (peer_contribution : SecretContribution)
    (terminal_hello_digest : Digest32) (peer_ready : AuditReady.t)
  : stm st err AuditContainerHeader.t :=
  _ ← receive_peer_hello peer_hello peer_contribution;
  ready ← compute_ready NotExportable;
  header ← build_header ready terminal_hello_digest;
  _ ← receive_peer_ready peer_ready;
  mret header.

Lemma receive_hello_run h c s u s' :
  receive_peer_hello (IoError:=IoError) h c s = (Ok u, s') ->
  own s' = own s /\ chains s' = chains s /\ points s' = points s /\ peer_hello (peer s') = Some h /\
  (forall f, peer_fingerprint (peer s') = Some f ->
     f = FixedBytes.new (sha256 (raw (AuditHello.persistent_audit_key h)))).
Proof.
  unfold receive_peer_hello. intros Hr. apply stm_bind_ok in Hr as (? & ? & [-> _]%phase_run & Hr).
  apply stm_bind_ok in Hr as (? & ? & [-> ->]%gets_ok & Hr).
  destruct (bool_decide _); [discriminate Hr|]. destruct (bool_decide _); [|discriminate Hr].
  destruct (_ =? _); [|discriminate Hr]. cbn [negb] in Hr.
  apply stm_bind_ok in Hr as (? & ? & [_ ->]%lift_ok & Hr). apply stm_bind_ok in Hr as (? & ? & [_ ->]%lift_ok & Hr).
  destruct (bool_decide _); [|discriminate Hr]. cbn [negb] in Hr.
  apply stm_bind_ok in Hr as (? & ? & ->%modify_ok & ->%modify_ok). cbn. split_and!; try done.
  by intros f [= <-].
Qed.

Lemma ready_run secret s r s' :
  compute_ready (IoError:=IoError) secret s = (Ok r, s') ->
  own s' = own s /\ chains s' = chains s /\ points s' = points s /\ peer_hello (peer s') = peer_hello (peer s) /\
  peer_fingerprint (peer s') = peer_fingerprint (peer s) /\
  exists sid, session_id (peer s') = Some sid /\ FixedBytes.wf sid.
Proof.
  unfold compute_ready. intros Hr. apply stm_bind_ok in Hr as (? & ? & [-> _]%phase_run & Hr).
  apply stm_bind_ok in Hr as (? & ? & [-> _]%required_run & Hr).
  apply stm_bind_ok in Hr as (? & ? & [-> ->]%gets_ok & Hr).
  apply stm_bind_ok in Hr as (sid & ? & [Hsid ->]%lift_ok & Hr).
  do 6 apply stm_bind_ok in Hr as (? & ? & [_ ->]%lift_ok & Hr).
  apply stm_bind_ok in Hr as (? & ? & ->%modify_ok & Hr).
  apply stm_bind_ok in Hr as (? & ? & ->%modify_ok & [-> ->]%stm_ret_ok). cbn. split_and!; try done.
  exists sid. split; [done|]. cbn [id] in Hsid. unfold compute_session_id in Hsid.
  destruct (expect_some _) as [ph| |]; [|discriminate Hsid..]. cbn [mbind res_bind] in Hsid.
  destruct (by_role _ _ _), (by_role _ _ _), (by_role _ _ _).
  destruct (controller_nonce s) as [cn| |]; [|discriminate Hsid..]. cbn [mbind res_bind] in Hsid.
  destruct (host_nonce s) as [hn| |]; [|discriminate Hsid..]. cbn [mbind res_bind] in Hsid.
  apply ok_inj in Hsid as ->. apply sha256_array.
Qed.

Lemma peer_ready_run r s u s' :
  receive_peer_ready (IoError:=IoError) r s = (Ok u, s') ->
  own s' = own s /\ chains s' = chains s /\ points s' = points s /\ peer_hello (peer s') = peer_hello (peer s) /\
  peer_fingerprint (peer s') = peer_fingerprint (peer s) /\ session_id (peer s') = session_id (peer s) /\
  terminal_hello_digest (peer s') = terminal_hello_digest (peer s).
Proof.
  unfold receive_peer_ready. intros Hr. apply stm_bind_ok in Hr as (? & ? & [-> _]%phase_run & Hr).
  apply stm_bind_ok in Hr as (? & ? & [-> _]%required_run & Hr). destruct (bool_decide _); [|discriminate Hr].
  apply stm_bind_ok in Hr as (? & ? & [-> ->]%gets_ok & Hr). apply stm_bind_ok in Hr as (? & ? & [_ ->]%lift_ok & Hr).
  destruct (bool_decide _); [|discriminate Hr]. destruct (_ =? _); [|discriminate Hr]. cbn [negb] in Hr.
  apply stm_bind_ok in Hr as (? & ? & [-> _]%required_run & Hr). apply stm_bind_ok in Hr as (? & ? & [_ ->]%lift_ok & Hr).
  apply stm_bind_ok in Hr as (? & ? & [_ ->]%lift_ok & Hr).
  apply stm_bind_ok in Hr as (? & ? & ->%modify_ok & ->%modify_ok). done.
Qed.

(** A session as [AuditSession::new] leaves it. *)
Record fresh (s : st) : Prop := {
  fr_chains : chains s = Chained (all_streams empty_chain) zero_head 0 Normalizer.new Normalizer.new
                           (all_streams None) None;
  fr_points : points s = Points 1 0 0 0 None None 0 false;
  fr_key : raw (session_pubkey (own s)) = ed_public (session_key (own s));
  fr_ledger : raw (ledger_snapshot_digest (own s))
    = sha256 (to_be_bytes 8 (ledger_sequence (own s)) ++ raw (ledger_root (own s)));
  fr_hello : AuditHello.connection_binding (hello (own s)) = binding (own s);
}.

Lemma new_from_fresh role identity ledger binding utc nonce contribution seed s :
  new_from (IoError:=IoError) role identity ledger binding utc nonce contribution seed = Ok s ->
  fresh s /\ AuditSession.binding (own s) = binding /\ AuditSession.identity (own s) = identity.
Proof.
  unfold new_from. intros Hr. destruct (snapshot ledger) as [[n root]| |]; [|discriminate Hr..].
  cbn [mbind res_bind] in Hr. destruct (wire _) as [input| |]; [|discriminate Hr..].
  cbn [mbind res_bind] in Hr. destruct (sign identity input) as [sig| |]; [|discriminate Hr..].
  cbn [mbind res_bind] in Hr. apply ok_inj in Hr as ->. by split; [split|].
Qed.

Lemma build_header_run r d s h s' :
  build_header (IoError:=IoError) r d s = (Ok h, s') ->
  own s' = own s /\ chains s' = chains s /\ points s' = points s /\ peer_hello (peer s') = peer_hello (peer s) /\
  peer_fingerprint (peer s') = peer_fingerprint (peer s) /\ session_id (peer s') = session_id (peer s) /\
  terminal_hello_digest (peer s') = Some d /\
  AuditContainerHeader.role h = role (own s) /\ session_id (peer s) = Some (AuditContainerHeader.session_id h) /\
  AuditContainerHeader.session_pubkey h = session_pubkey (own s) /\
  (exists ph, peer_hello (peer s) = Some ph /\
     AuditContainerHeader.peer_session_pubkey h = AuditHello.session_key ph /\
     AuditContainerHeader.peer_identity_pubkey h = AuditHello.persistent_audit_key ph) /\
  AuditContainerHeader.ledger_sequence h = ledger_sequence (own s) /\
  AuditContainerHeader.previous_ledger_root h = ledger_root (own s) /\
  AuditContainerHeader.terminal_hello_digest h = d /\
  AuditContainerHeader.identity_pubkey h = public_key (identity (own s)).
Proof.
  unfold build_header. intros Hr. apply stm_bind_ok in Hr as (? & ? & [-> _]%phase_run & Hr).
  apply stm_bind_ok in Hr as (sid & ? & [-> Hsid]%required_run & Hr).
  apply stm_bind_ok in Hr as (ph & ? & [-> Hph]%required_run & Hr).
  apply stm_bind_ok in Hr as (? & ? & [-> ->]%gets_ok & Hr).
  do 2 apply stm_bind_ok in Hr as (? & ? & [_ ->]%lift_ok & Hr).
  apply stm_bind_ok in Hr as (? & ? & ->%modify_ok & [-> ->]%stm_ret_ok).
  split_and!; try done. by exists ph.
Qed.

Lemma handshake_good peer_hello contribution digest peer_ready s header s' :
  fresh s -> FixedBytes.wf (binding (own s)) -> FixedBytes.wf (fingerprint (identity (own s))) ->
  FixedBytes.wf (AuditHello.session_key peer_hello) -> FixedBytes.wf digest ->
  handshake peer_hello contribution digest peer_ready s = (Ok header, s') ->
  good no_manifests (s', None) (new_verifier header (hello (own s'))).
Proof.
  intros [F1 F2 F3 F4 F5] Hbw Hfw Hkw Hdw Hr. unfold handshake in Hr.
  apply stm_bind_ok in Hr as (? & s1 & (O1 & C1 & P1 & H1 & Hpf)%receive_hello_run & Hr).
  apply stm_bind_ok in Hr as (? & s2 & (O2 & C2 & P2 & H2 & Hpf2 & sid & Hsid & Hsw)%ready_run & Hr).
  apply stm_bind_ok in Hr as (? & s3 & (O3 & C3 & P3 & H3 & Hpf3 & Hs3 & Ht3 & K1 & K2 & K3 & K4 & K5 & K6 & K7 & K8)%build_header_run & Hr).
  apply stm_bind_ok in Hr as (? & s4 & (O4 & C4 & P4 & H4 & Hpf4 & Hs4 & Ht4)%peer_ready_run & [-> ->]%stm_ret_ok).
  rewrite Hsid in K2. apply (inj Some) in K2 as ->. destruct K4 as (ph & Hph & K4 & K4').
  rewrite H2, H1 in Hph. apply (inj Some) in Hph as <-.
  split; [|done]. cbn [fst]. split.
  - rewrite C4, C3, C2, C1, F1. by split; try done; intros [].
  - rewrite C4, C3, C2, C1, F1. split; try (by intros []).
    + intros []; by split; try apply zero_head_wf.
    + by split; [|split; [apply zero_head_wf|]].
  - rewrite P4, P3, P2, P1, F2, C4, C3, C2, C1, F1. by split.
  - split; cbn [new_verifier v_header v_hello]; rewrite ?O4, ?O3, ?O2, ?O1; try done.
    + by rewrite K1, O2, O1.
    + by rewrite Hs4, Hs3.
    + by rewrite K3, O2, O1.
    + rewrite H4, H3, H2, H1. by eexists.
    + rewrite Hpf4, Hpf3, Hpf2. intros f ->%Hpf. apply sha256_array.
    + by rewrite K5, K6, O2, O1.
    + by rewrite Ht4, Ht3, K7.
    + by rewrite K7.
    + by rewrite K8, O2, O1.
    + rewrite Hpf4, Hpf3, Hpf2, K4'. done.
  - intros _. rewrite C4, C3, C2, C1, F1. split; exists []; apply buffers_new.
Qed.

(** ** The theorem *)

(** Every record of an audit session verifies.  A session that [AuditSession::new] made
    and the handshake activated, driven by any sequence of the observer's operations that all
    succeed (terminal input and output, resizes, lifecycle events, file transfers,
    checkpoints sent and received, the close, the manifests, a failure close), writes frames
    that the verifier, started from the header the handshake built, accepts one by one; at
    the end no batch of it is left inconsistent and its shared chains, local chain and event
    count are the session's. *)
Theorem session_verifies role identity ledger binding utc nonce contribution seed s0
    peer_hello peer_contribution digest peer_ready header s1 ops batch s2 sent :
  new_from (IoError:=IoError) role identity ledger binding utc nonce contribution seed = Ok s0 ->
  FixedBytes.wf binding -> FixedBytes.wf (fingerprint identity) ->
  FixedBytes.wf (AuditHello.session_key peer_hello) -> FixedBytes.wf digest ->
  handshake peer_hello peer_contribution digest peer_ready s0 = (Ok header, s1) ->
  Forall (fun o => op_wf o.1 /\ is_u64 o.2) ops ->
  run_ops ops (s1, None) = (Ok batch, (s2, sent)) ->
  exists l v, batch_frames (E:=err) batch = Ok l /\
    process_frames (IoError:=IoError) l (new_verifier header (hello (own s1))) = (Ok tt, v) /\
    (flush_batches (IoError:=IoError) v).1 = Ok tt /\
    v_shared (v_chains v) = shared (chains s2) /\
    v_local_head (v_chains v) = local_head (chains s2) /\
    v_local_count (v_chains v) = local_count (chains s2).
Proof.
  intros Hnew Hb Hfp Hk Hd Hhs Hops Hrun.
  destruct (new_from_fresh _ _ _ _ _ _ _ _ _ Hnew) as (Hfresh & E1 & E2). subst.
  pose proof (handshake_good _ _ _ _ _ _ _ Hfresh Hb Hfp Hk Hd Hhs) as Hg.
  destruct (run_ops_sim _ _ _ _ _ _ Hg Hops Hrun) as (M' & _ & l & v & Hl & Hv & [[[H1 H2 H3 _ _ H4 H5] _ _ _ _] _]).
  exists l, v. split_and!; try done. by rewrite (flush_ok v).
Qed.
End Run.
