(* ===== verification/AuditIdentity.v ===== *)
(** * The persistent audit identity

    [AuditIdentity] of [crates/yon/src/audit/identity.rs], an Ed25519 key, and the adapter of
    [audit/observer.rs] that makes it a session's [PersistentIdentity]. *)

From S2P Require Import Prelude Domain Layout WireAudit AuditContainer AuditSigning AuditWriter Stateful AuditEvents AuditSession.
Open Scope Z_scope.

Module AuditIdentity.
(** The 32-byte seed of the signing key. *)
Record t := Mk { signing_key : list Z }.

Section Operations.
Context `{AuditCrypto}.

Definition from_seed_bytes (seed : list Z) : t := Mk seed.

Definition public_key (self : t) : Ed25519PublicKey := FixedBytes.new (ed_public (signing_key self)).

Definition fingerprint (self : t) : IdentityFingerprint := FixedBytes.new (sha256 (raw (public_key self))).

Definition sign (self : t) (message : list Z) : Ed25519Signature :=
  FixedBytes.new (ed_sign (signing_key self) message).

Definition verify (self : t) (message : list Z) (signature : Ed25519Signature) : bool :=
  ed_verify (raw (public_key self)) message (raw signature).

Definition generate {R} `{SecureRandom R} (random : R) : option t * R :=
  let '(seed, random) := try_fill random 32 in (from_seed_bytes <$> seed, random).
End Operations.
End AuditIdentity.

(** [IdentityAdapter]. *)
#[export] Instance IdentityAdapter {IoError} `{AuditCrypto} : PersistentIdentity (IoError:=IoError) AuditIdentity.t := {|
  public_key := AuditIdentity.public_key;
  fingerprint := AuditIdentity.fingerprint;
  sign identity input := Ok (AuditIdentity.sign identity input);
|}.

Section Laws.
Context `{AuditCryptoLaws}.
Implicit Types (identity : AuditIdentity.t).

Lemma identity_key_wf identity : FixedBytes.wf (AuditIdentity.public_key identity).
Proof. apply ed_public_array. Qed.

Lemma identity_print_wf identity : FixedBytes.wf (AuditIdentity.fingerprint identity).
Proof. apply sha256_array. Qed.

Lemma identity_verifies identity message :
  AuditIdentity.verify identity message (AuditIdentity.sign identity message) = true.
Proof. apply ed_sign_verifies. Qed.
End Laws.
