(* ===== verification/AuditExample.v ===== *)
(** * A session of the audit model, run

    A concrete instance of the cryptography and of the ledger trait, two
    sessions that handshake with each other, and a run of the controller's session that
    [session_verifies] applies to. *)

From stdpp Require Import strings.
From S2P Require Import Prelude Domain Codec Layout WireAudit AuditCodecs AuditContainer AuditSigning AuditWriter Stateful AuditEvents AuditSession AuditNormalize ChainVerifier AuditTrace AuditSimulation AuditControlSim AuditPointSim AuditCloseSim AuditRun AuditIdentity.
Open Scope string_scope.
Open Scope list_scope.
Open Scope Z_scope.

(** ** The instance *)

(** A checksum in the place of the hash; no property of the model needs more of it than its
    length. *)
Definition mix (l : list Z) : Z :=
  fold_left (fun h b => h + b + 1) l 5.
Definition toy_hash (l : list Z) : list Z := to_be_bytes 32 (mix l).
Definition toy_sign (public message : list Z) : list Z :=
  toy_hash (public ++ message) ++ toy_hash (message ++ public).

#[export] Instance toy_crypto : AuditCrypto := {
  sha256 := toy_hash;
  hmac_sha256 k m := toy_hash (k ++ m);
  hkdf_sha256 s k info := toy_hash (default [] s ++ k ++ concat info);
  ed_public k := toy_hash k;
  ed_sign k m := toy_sign (toy_hash k) m;
  ed_verify p m s := bool_decide (s = toy_sign p m);
}.

Lemma toy_array l : is_array DIGEST_LEN (toy_hash l).
Proof. split; [apply bytes_to_be|apply zlen_to_be]. Qed.

#[export] Instance toy_laws : AuditCryptoLaws.
Proof.
  split.
  - intros l. exact (toy_array l).
  - intros k l. exact (toy_array (k ++ l)).
  - intros s k l. exact (toy_array (default [] s ++ k ++ concat l)).
  - intros k. exact (toy_array k).
  - intros k m. destruct (toy_array (toy_hash k ++ m)) as [B1 L1], (toy_array (m ++ toy_hash k)) as [B2 L2].
    split; [exact (proj2 (Forall_app _ _ _) (conj B1 B2))|].
    change (zlen (toy_hash (toy_hash k ++ m) ++ toy_hash (m ++ toy_hash k)) = 64). by rewrite zlen_app, L1, L2.
  - intros k m. by apply bool_decide_true.
Qed.

(** The ledger is at its first entry. *)
Definition toy_ledger : Type := unit.
Notation toy_error := (AuditError (IoError:=string)).

#[export] Instance toy_ledger_ops : Ledger (IoError:=string) toy_ledger := {
  snapshot _ := Ok (1, FixedBytes.new (zeros 32));
  begin_commit l := (Ok (1, FixedBytes.new (zeros 32)), l);
  finish_commit l _ := (Ok tt, l);
}.

(** ** Values of computations that succeed *)

Definition get_ok {E A} (r : res E A) : is_ok r = true -> A :=
  match r with
  | Ok a => fun _ => a
  | Err e => fun H => False_rect A (eq_ind false (fun b => if b then False else True) Logic.I true H)
  | Panic => fun H => False_rect A (eq_ind false (fun b => if b then False else True) Logic.I true H)
  end.

Lemma get_ok_eq {E A} (r : res E A) H : r = Ok (get_ok r H).
Proof. by destruct r. Qed.

Lemma run_ok_eq {S E A} (p : res E A * S) (H : is_ok p.1 = true) : p = (Ok (get_ok p.1 H), p.2).
Proof. destruct p as [r s]. cbn. by rewrite <- get_ok_eq. Qed.

Lemma run_pair_eq {S T E A} (p : res E A * (S * T)) (H : is_ok p.1 = true) :
  p = (Ok (get_ok p.1 H), (p.2.1, p.2.2)).
Proof. destruct p as [r [s t]]. cbn. by rewrite <- get_ok_eq. Qed.

(** ** The two sessions *)

Definition toy_binding : BindingDigest := FixedBytes.new (zeros 32).
Definition toy_digest : Digest32 := FixedBytes.new (toy_hash [1]).

Definition toy_new (role : AuditRole.t) (seed : Z) : res toy_error (session AuditIdentity.t toy_ledger) :=
  new_from role (AuditIdentity.Mk [seed]) (tt : toy_ledger) toy_binding 1700000000 (to_be_bytes 32 (seed + 1))
    (to_be_bytes 32 (seed + 2)) (to_be_bytes 32 (seed + 3)).

Lemma controller_ok : is_ok (toy_new AuditRole.Controller 10) = true.
Proof. vm_compute. reflexivity. Qed.
Lemma host_ok : is_ok (toy_new AuditRole.Host 20) = true.
Proof. vm_compute. reflexivity. Qed.

Definition controller0 := get_ok _ controller_ok.
Definition host0 := get_ok _ host_ok.

(** The host's answer to the controller's hello. *)
Definition host_answer : stm (session AuditIdentity.t toy_ledger) toy_error AuditReady.t :=
  _ ← receive_peer_hello (hello (own controller0)) (contribution (own controller0));
  compute_ready NotExportable.

Lemma host_answer_ok : is_ok (host_answer host0).1 = true.
Proof. vm_compute. reflexivity. Qed.
Definition host_ready : AuditReady.t := get_ok _ host_answer_ok.

Definition toy_handshake := handshake (IoError:=string) (hello (own host0)) (contribution (own host0))
  toy_digest host_ready controller0.
Lemma toy_handshake_ok : is_ok toy_handshake.1 = true.
Proof. vm_compute. reflexivity. Qed.
Definition toy_header : AuditContainerHeader.t := get_ok _ toy_handshake_ok.
Definition controller1 := toy_handshake.2.

(** The host's session completes as well and has a checkpoint to send. *)
Definition host_checkpoint_run : stm (session AuditIdentity.t toy_ledger) toy_error (Checkpoint.t * RecordBatch) :=
  own_ready ← host_answer;
  _ ← build_header own_ready toy_digest;
  controller_ready ← lift (ok_or (ready (peer controller1)) FailedClosed);
  _ ← receive_peer_ready controller_ready;
  build_checkpoint 7.

Lemma host_checkpoint_ok : is_ok (host_checkpoint_run host0).1 = true.
Proof. vm_compute. reflexivity. Qed.
Definition host_checkpoint : Checkpoint.t := (get_ok _ host_checkpoint_ok).1.

(** ** The run *)

Definition toy_facts : FileTransferFacts :=
  Facts 9 FILE_DIRECTION_UPLOAD FILE_KIND_START 100 0 toy_digest [47; 97] [97] 0.

Definition toy_ops : list (op * Z) :=
  [(ConnectionState 1, 0); (TerminalHello toy_digest, 1); (Input [108; 115; 10], 2);
   (SendOutcome DIRECTION_CTRL_TO_HOST true 3, 3); (ControllerOutput [97; 27; 98] [97; 98], 4);
   (Resize DIRECTION_CTRL_TO_HOST 80 24, 5); (FileTransfer toy_facts (Some [47; 98]), 6);
   (FileResult FILE_LOCAL_KIND_COMMIT_STATUS_UNKNOWN 9 100 toy_digest None, 7);
   (SendCheckpoint Observation, 8); (PeerCheckpoint host_checkpoint Observation, 9);
   (TerminalExit 0, 10); (Close AuditCloseReason.NormalShellExit, 11);
   (SendCheckpoint ExactPrefix, 12); (SendManifest (ManifestEnding.ShellExit 0) true, 13)].

Definition toy_run := run_ops (IoError:=string) toy_ops (controller1, None).
Lemma toy_run_ok : is_ok toy_run.1 = true.
Proof. vm_compute. reflexivity. Qed.

Definition arrayb (n : Z) (l : list Z) : bool :=
  forallb (fun b => (0 <=? b) && (b <? 256)) l && (zlen l =? n).

Lemma arrayb_ok n l : arrayb n l = true -> is_array n l.
Proof.
  intros [Hb Hl]%andb_prop. split; [|lia]. apply Forall_forall. intros b Hin.
  rewrite forallb_forall in Hb. apply list_elem_of_In in Hin. specialize (Hb _ Hin). unfold is_u8 in *. lia.
Qed.

Definition u64b (n : Z) : bool := (0 <=? n) && (n <? 2 ^ 64).

Definition checkpoint_wfb (c : Checkpoint.t) : bool :=
  arrayb 32 (raw (Checkpoint.session_id c)) && u64b (Checkpoint.sequence c)
  && ((zlen (SharedSnapshot.streams (Checkpoint.snapshot c)) =? SHARED_STREAMS)
      && forallb (fun x => u64b (StreamSnapshot.count x) && arrayb 32 (raw (StreamSnapshot.head x)))
           (SharedSnapshot.streams (Checkpoint.snapshot c)))
  && arrayb 32 (raw (Checkpoint.local_chain_head c))
  && arrayb 32 (raw (Checkpoint.ledger_snapshot_digest c)) && arrayb 64 (raw (Checkpoint.signature c)).

Lemma u64b_ok n : u64b n = true -> is_u64 n.
Proof. intros [H1 H2]%andb_prop. split; lia. Qed.

Lemma checkpoint_wfb_ok c : checkpoint_wfb c = true -> checkpoint_wf c.
Proof.
  unfold checkpoint_wfb. intros [[[[[H1 H2]%andb_prop [H3 H4]%andb_prop]%andb_prop H5]%andb_prop H6]%andb_prop H7]%andb_prop.
  refine (conj (arrayb_ok _ _ H1) (conj (u64b_ok _ H2) (conj (conj _ _) (conj (arrayb_ok _ _ H5)
    (conj (arrayb_ok _ _ H6) (arrayb_ok _ _ H7)))))); [lia|].
  apply Forall_forall. intros x Hin. rewrite forallb_forall in H4. apply list_elem_of_In in Hin.
  destruct (andb_prop _ _ (H4 _ Hin)) as [Hc Hh]. split; [by apply u64b_ok|by apply arrayb_ok].
Qed.

Lemma host_checkpoint_wf : checkpoint_wf host_checkpoint.
Proof. apply checkpoint_wfb_ok. vm_compute. reflexivity. Qed.

Lemma toy_digest_wf : FixedBytes.wf toy_digest.
Proof. apply toy_array. Qed.

Lemma toy_facts_wf : facts_wf toy_facts.
Proof.
  split; try (unfold is_u64, is_u16; cbn; lia); [apply toy_digest_wf|split; [|by eexists]..];
    repeat constructor; cbn; lia.
Qed.

Lemma toy_ops_wf : Forall (fun o => op_wf o.1 /\ is_u64 o.2) toy_ops.
Proof.
  unfold toy_ops.
  repeat (apply Forall_cons; split; [split; [|unfold is_u64; cbn [snd]; lia]; cbn [fst op_wf]|]);
    try exact Logic.I; try reflexivity.
  - apply toy_digest_wf.
  - split; [apply toy_facts_wf|]. intros p [= <-]. by eexists.
  - split; [unfold is_u64; lia|]. split; [apply toy_digest_wf|]. by intros p [=].
  - apply host_checkpoint_wf.
  - unfold ManifestEnding.wf, is_u32. lia.
  - apply Forall_nil. exact Logic.I.
Qed.

Lemma toy_handshake_eq : toy_handshake = (Ok toy_header, controller1).
Proof. exact (run_ok_eq toy_handshake toy_handshake_ok). Qed.

Lemma toy_run_eq : toy_run = (Ok (get_ok _ toy_run_ok), (toy_run.2.1, toy_run.2.2)).
Proof. exact (run_pair_eq toy_run toy_run_ok). Qed.

(** Comparing the runs above must not unfold what they run. *)
#[local] Strategy opaque [handshake run_ops new_from].

Lemma session_verifies_witness :
  exists l v, batch_frames (E:=toy_error) (get_ok _ toy_run_ok) = Ok l /\
    process_frames (IoError:=string) l (new_verifier toy_header (hello (own controller1))) = (Ok tt, v) /\
    (flush_batches (IoError:=string) v).1 = Ok tt /\
    v_shared (v_chains v) = shared (chains toy_run.2.1) /\
    v_local_head (v_chains v) = local_head (chains toy_run.2.1) /\
    v_local_count (v_chains v) = local_count (chains toy_run.2.1).
Proof.
  apply (session_verifies AuditRole.Controller (AuditIdentity.Mk [10]) tt toy_binding 1700000000 (to_be_bytes 32 (10 + 1))
    (to_be_bytes 32 (10 + 2)) (to_be_bytes 32 (10 + 3)) controller0 (hello (own host0)) (contribution (own host0)) toy_digest
    host_ready toy_header controller1 toy_ops (get_ok _ toy_run_ok) toy_run.2.1 toy_run.2.2).
  - exact (get_ok_eq _ controller_ok).
  - apply arrayb_ok. reflexivity.
  - apply toy_array.
  - apply arrayb_ok. vm_compute. reflexivity.
  - apply toy_digest_wf.
  - exact toy_handshake_eq.
  - exact toy_ops_wf.
  - exact toy_run_eq.
Defined.
