(* ===== verification/FileVerifier.v ===== *)
(** * Verifying one record file

    The file level of [crates/yon/src/audit/verify.rs]: the bounded frame walker, the header
    bindings, the footer with its three prefix digests, the manifest evidence, and [walk_file]
    that composes them with the [ChainVerifier].

    The file system is the class [RecordFiles]: what opening a path delivers and how many bytes
    each read returns.  A file does not change while it is verified. *)

From stdpp Require Import strings.
From S2P Require Import Prelude Domain Layout WireAudit AuditContainer AuditWriter Stateful AuditEvents AuditSession ChainVerifier.
Open Scope string_scope.
Open Scope list_scope.
Open Scope Z_scope.

Class RecordFiles (IoError Path : Type) := {
  (** [File::open] and the bytes the file holds. *)
  open_file : Path -> res IoError (list Z);
  (** The error of [read_exact] at the end of a file. *)
  unexpected_eof : IoError;
  (** How many bytes [read] returns at a position, for a buffer of a size (between one and
      what there is). *)
  read_size : Z -> Z -> Z;
}.

Definition MIN_LEGAL_FOOTER_LEN : Z :=
  zlen FOOTER_MAGIC + 2 + MANIFEST_LEN + (2 + MANIFEST_SIGNATURE_LEN) * 2 + 2
  + LOCAL_RECORD_SEAL_LEN + 2 + LEDGER_COMMIT_LEN + CONTAINER_DIGEST_LEN.

(** The buffer of the streaming reads. *)
Definition READ_BUFFER_LEN : Z := 64 * 1024.

(** [run m s]: a stateful computation with its final state, or its error. *)
Definition run {S E A} (m : stm S E A) (s : S) : res E (A * S) :=
  match m s with
  | (Ok a, s') => Ok (a, s')
  | (Err e, _) => Err e
  | (Panic, _) => Panic
  end.

(** ** The frame walker *)

Module FrameWalker.
(** [reader] is what the buffered reader has not delivered yet. *)
Record t := Mk { reader : list Z; pos : Z; len : Z; truncated_tail : bool }.
End FrameWalker.

(** ** The facts of a verified file *)

Record FooterFacts := Facts {
  ff_manifest_bytes : list Z;
  ff_controller_signature : ManifestSignature.t;
  ff_host_signature : ManifestSignature.t;
  ff_seal : LocalRecordSeal.t;
  ff_commit : LedgerCommit.t;
  ff_sealed_prefix_end : Z;
  ff_seal_end : Z;
  ff_ledger_end : Z;
  ff_final_digest : Digest32;
}.

Record VerifiedFile (Path : Type) := Verified {
  vf_path : Path;
  vf_header : AuditContainerHeader.t;
  vf_hello : AuditHello.t;
  vf_shared : per_stream SharedChain;
  vf_local_head : ChainHead;
  vf_local_count : Z;
  vf_last_confirmed_sent : option CheckpointRef;
  vf_prev_confirmed_sent : option CheckpointRef;
  vf_last_confirmed_received : option CheckpointRef;
  vf_prev_confirmed_received : option CheckpointRef;
  vf_footer : option FooterFacts;
  vf_truncated_tail : bool;
  vf_manifests : VManifests;
}.
Arguments Verified {Path}.
Arguments vf_path {Path}. Arguments vf_header {Path}. Arguments vf_hello {Path}.
Arguments vf_shared {Path}. Arguments vf_local_head {Path}. Arguments vf_local_count {Path}.
Arguments vf_last_confirmed_sent {Path}. Arguments vf_prev_confirmed_sent {Path}.
Arguments vf_last_confirmed_received {Path}. Arguments vf_prev_confirmed_received {Path}.
Arguments vf_footer {Path}. Arguments vf_truncated_tail {Path}. Arguments vf_manifests {Path}.

(** [file.footer = ..] and [file.truncated_tail = ..]. *)
Definition set_tail {Path} (footer : option FooterFacts) (truncated : bool) (f : VerifiedFile Path)
  : VerifiedFile Path :=
  Verified (vf_path f) (vf_header f) (vf_hello f) (vf_shared f) (vf_local_head f) (vf_local_count f)
    (vf_last_confirmed_sent f) (vf_prev_confirmed_sent f) (vf_last_confirmed_received f)
    (vf_prev_confirmed_received f) footer truncated (vf_manifests f).

Record PrefixDigests := Digests {
  pd_sealed_prefix : list Z;
  pd_sealed_record : list Z;
  pd_final_digest : list Z;
}.

Section FileVerifier.
Context {IoError Path : Type} `{AuditCrypto} `{RecordFiles IoError Path}.
Local Notation serr := (StreamError IoError).
Local Notation W := (stm FrameWalker.t serr).
Local Notation file := (VerifiedFile Path).

(** [Err(tampered(reason))] unless the condition holds. *)
Definition check (condition : bool) (reason : string) : res serr unit :=
  if condition then Ok tt else Err (Tampered reason).

Definition open (path : Path) : res serr FrameWalker.t :=
  bytes ← map_err Io (open_file path);
  if zlen bytes <? CONTAINER_HEADER_LEN then Err NotAnAuditContainer else
  Ok (FrameWalker.Mk bytes 0 (zlen bytes) false).

(** [self.reader.read_exact(&mut buffer)?; self.pos += n]. *)
Definition read_exact (n : Z) : W (list Z) := fun w =>
  if n <=? zlen (FrameWalker.reader w)
  then (Ok (take (Z.to_nat n) (FrameWalker.reader w)),
        FrameWalker.Mk (drop (Z.to_nat n) (FrameWalker.reader w)) (FrameWalker.pos w + n)
          (FrameWalker.len w) (FrameWalker.truncated_tail w))
  else (Err (Io unexpected_eof), w).

Definition set_truncated (b : bool) : W unit :=
  modify (fun w => FrameWalker.Mk (FrameWalker.reader w) (FrameWalker.pos w) (FrameWalker.len w) b).

Definition skip_header : W (list Z) :=
  header ← read_exact CONTAINER_HEADER_LEN;
  magic ← lift (slice header 0 (zlen CONTAINER_MAGIC));
  version ← lift (expect (u16_at header 8 9));
  if bool_decide (magic = CONTAINER_MAGIC) && negb (version =? AUDIT_FORMAT_VERSION)
  then throw UnsupportedAuditFormat else
  _ ← lift (map_err (fun _ => NotAnAuditContainer) (AuditContainerHeader.decode header));
  mret header.

Definition footer_start (w : FrameWalker.t) : option Z :=
  if RECORD_FRAME_HEADER_LEN <=? FrameWalker.pos w
  then Some (FrameWalker.pos w - RECORD_FRAME_HEADER_LEN) else None.

(** The conversion of the length to [usize] does not fail on 64 bits. *)
Definition next_frame : W (option (RecordType.t * list Z)) :=
  w ← gets id;
  let remaining := FrameWalker.len w - FrameWalker.pos w in
  if remaining <? RECORD_FRAME_HEADER_LEN + 1 then
    _ ← set_truncated (0 <? remaining);
    mret None
  else
  length_bytes ← read_exact 4;
  if bool_decide (length_bytes = FOOTER_MAGIC) then mret None else
  type_byte ← read_exact 1;
  type_byte ← lift (index type_byte 0);
  let frame_len := from_be_bytes length_bytes in
  record_type ← lift (ok_or (RecordType.from_byte type_byte)
                        (Tampered "the audit container has an unknown record type"));
  _ ← lift (map_err (fun _ => Tampered "the audit container has an invalid record frame")
              (validate_frame_len record_type frame_len));
  let payload_len := frame_len - 1 in
  if remaining <? RECORD_FRAME_HEADER_LEN + 1 + payload_len then
    _ ← set_truncated true;
    mret None
  else
  payload ← read_exact payload_len;
  mret (Some (record_type, payload)).

(** The loop of [walk_file] over the frames; [None] when the fuel is used up. *)
Fixpoint walk_records (fuel : nat) (w : FrameWalker.t) (v : verifier)
  : option (res serr (FrameWalker.t * verifier)) :=
  match fuel with
  | O => None
  | S fuel =>
    match next_frame w with
    | (Ok None, w) => Some (Ok (w, v))
    | (Ok (Some (record_type, payload)), w) =>
      match process_frame record_type payload v with
      | (Ok _, v) => walk_records fuel w v
      | (Err e, _) => Some (Err e)
      | (Panic, _) => Some Panic
      end
    | (Err e, _) => Some (Err e)
    | (Panic, _) => Some Panic
    end
  end.

(** Every frame has at least five bytes, so the fuel is enough ([walk_records_total]). *)
Definition walk_all (w : FrameWalker.t) (v : verifier) : res serr (FrameWalker.t * verifier) :=
  match walk_records (S (length (FrameWalker.reader w))) w v with Some r => r | None => Panic end.

(** ** Header bindings *)

Definition check_header_bindings (header : AuditContainerHeader.t) (hello : AuditHello.t)
  : res serr unit :=
  _ ← check (bool_decide (AuditHello.role hello = AuditContainerHeader.role header)
        && bool_decide (AuditHello.persistent_audit_key hello = AuditContainerHeader.identity_pubkey header)
        && bool_decide (AuditHello.session_key hello = AuditContainerHeader.session_pubkey header)
        && (AuditHello.ledger_sequence hello =? AuditContainerHeader.ledger_sequence header)
        && bool_decide (AuditHello.ledger_root hello = AuditContainerHeader.previous_ledger_root header)
        && (AuditHello.format_version hello =? AUDIT_FORMAT_VERSION))
        "the embedded audit handshake does not match the container header";
  let ready := AuditContainerHeader.audit_ready header in
  _ ← check (bool_decide (AuditReady.session_id ready = AuditContainerHeader.session_id header)
        && (AuditReady.format_version ready =? AUDIT_FORMAT_VERSION))
        "the audit handshake confirmation does not match the container header";
  input ← wire (AuditHello.signing_input hello);
  _ ← check (verify_ed25519 (AuditHello.persistent_audit_key hello) input (AuditHello.signature hello))
        "the embedded audit handshake signature is invalid";
  input ← wire (AuditReady.signing_input ready);
  _ ← check (verify_ed25519 (AuditContainerHeader.session_pubkey header) input (AuditReady.signature ready))
        "the audit handshake confirmation signature is invalid";
  input ← wire (AuditContainerHeader.signing_input header);
  check (verify_ed25519 (AuditContainerHeader.identity_pubkey header) input
           (AuditContainerHeader.header_signature header))
    "the container header signature is invalid".

(** ** The end of the walk *)

Definition finish_walk (v : verifier) (truncated_tail : bool) (path : Path) : res serr file :=
  '(_, v) ← run flush_batches v;
  Ok (Verified path (v_header v) (v_hello v) (v_shared (v_chains v)) (v_local_head (v_chains v))
        (v_local_count (v_chains v)) (last_confirmed_sent (v_points v)) (prev_confirmed_sent (v_points v))
        (last_confirmed_received (v_points v)) (prev_confirmed_received (v_points v))
        None truncated_tail (v_manifests v)).

(** ** The prefix digests *)

(** What [hasher.clone().finalize()] returns after [hasher] was fed some bytes is their digest;
    the state is those bytes.  The snapshots, the position and what is left of the file. *)
Record Hashing := HashState {
  fed : list Z;
  sealed_prefix_at : option (list Z);
  sealed_record_at : option (list Z);
  position : Z;
  unread : list Z;
}.

(** [file.read(&mut buffer[..want])?]: at least one byte unless the file ended. *)
Definition file_read (h : Hashing) (want : Z) : list Z :=
  let there := Z.min want (zlen (unread h)) in
  take (Z.to_nat (Z.max (Z.min 1 there) (Z.min there (read_size (position h) want)))) (unread h).

(** [if position == end && snapshot.is_none() { snapshot = Some(..) }]. *)
Definition snapshot_here (end_ : Z) (h : Hashing) (snapshot : option (list Z)) : option (list Z) :=
  match snapshot with
  | None => if position h =? end_ then Some (sha256 (fed h)) else None
  | Some _ => snapshot
  end.

(** The first half of the loop's body, before the read. *)
Definition digest_snapshots (footer : FooterFacts) (h : Hashing) : Hashing :=
  HashState (fed h) (snapshot_here (ff_sealed_prefix_end footer) h (sealed_prefix_at h))
    (snapshot_here (ff_seal_end footer) h (sealed_record_at h)) (position h) (unread h).

(** The part of the loop's body that feeds one read to the hasher: for each boundary that is
    still ahead, the bytes up to it and, if bytes follow, the snapshot. *)
Definition feed_boundary (end_ : Z) (snapshot : option (list Z)) (pos0 : Z) (chunk : list Z)
    (st : list Z * Z) : list Z * Z * option (list Z) :=
  let '(fed, offset) := st in
  match snapshot with
  | None =>
    if pos0 + offset <? end_ then
      let take_ := Z.min (end_ - (pos0 + offset)) (zlen chunk - offset) in
      let fed := fed ++ take (Z.to_nat take_) (drop (Z.to_nat offset) chunk) in
      let offset := offset + take_ in
      (fed, offset, if offset <? zlen chunk then Some (sha256 fed) else None)
    else (fed, offset, None)
  | Some _ => (fed, offset, snapshot)
  end.

Definition digest_chunk (footer : FooterFacts) (chunk : list Z) (h : Hashing) : Hashing :=
  let '(fed1, offset1, prefix) :=
    feed_boundary (ff_sealed_prefix_end footer) (sealed_prefix_at h) (position h) chunk (fed h, 0) in
  let '(fed2, offset2, record) :=
    feed_boundary (ff_seal_end footer) (sealed_record_at h) (position h) chunk (fed1, offset1) in
  HashState (fed2 ++ drop (Z.to_nat offset2) chunk) prefix record (position h + zlen chunk)
    (drop (length chunk) (unread h)).

Fixpoint digest_loop (fuel : nat) (footer : FooterFacts) (h : Hashing) : option Hashing :=
  match fuel with
  | O => None
  | S fuel =>
    let h := digest_snapshots footer h in
    let remaining := Z.max 0 (ff_ledger_end footer - position h) in
    if remaining =? 0 then Some h else
    let chunk := file_read h (Z.min remaining READ_BUFFER_LEN) in
    if zlen chunk =? 0 then Some h else
    digest_loop fuel footer (digest_chunk footer chunk h)
  end.

(** A read returns at least one byte, so the fuel is enough ([digest_loop_spec]). *)
Definition compute_prefix_digests (path : Path) (footer : FooterFacts) : res serr PrefixDigests :=
  bytes ← map_err Io (open_file path);
  match digest_loop (S (S (length bytes))) footer (HashState [] None None 0 bytes) with
  | None => Panic
  | Some h =>
    match sealed_prefix_at h, sealed_record_at h with
    | Some prefix, Some record =>
      if position h =? ff_ledger_end footer
      then Ok (Digests prefix record (sha256 (fed h)))
      else Err (Tampered "the audit container is truncated")
    | _, _ => Err (Tampered "the audit container is truncated")
    end
  end.

(** ** The footer *)

Definition vf_snapshot (f : file) : SharedSnapshot.t := snapshot_of (vf_shared f).

(** The largest confirmed sequence of the two directions, or zero. *)
Definition confirmed_sequence (f : file) : Z :=
  match vf_last_confirmed_sent f, vf_last_confirmed_received f with
  | Some a, Some b => Z.max (ref_sequence a) (ref_sequence b)
  | Some a, None | None, Some a => ref_sequence a
  | None, None => 0
  end.

(** The first part of [verify_footer]: the manifest against the header and the chains, and both
    signatures. *)
Definition check_manifest (verified : file) (footer : FooterFacts) (manifest : JointManifest.t)
  : res serr unit :=
  let header := vf_header verified in
  _ ← check ((JointManifest.format_version manifest =? AUDIT_FORMAT_VERSION)
        && bool_decide (JointManifest.session_id manifest = AuditContainerHeader.session_id header))
        "the joint manifest is invalid";
  let '(controller_key, host_key) :=
    by_role (AuditContainerHeader.role header) (AuditContainerHeader.session_pubkey header)
      (AuditContainerHeader.peer_session_pubkey header) in
  _ ← check (bool_decide (JointManifest.controller_session_key manifest = controller_key)
        && bool_decide (JointManifest.host_session_key manifest = host_key))
        "the joint manifest does not match the container keys";
  let '(controller_identity, host_identity) :=
    by_role (AuditContainerHeader.role header) (AuditContainerHeader.identity_pubkey header)
      (AuditContainerHeader.peer_identity_pubkey header) in
  _ ← check (bool_decide (raw (JointManifest.controller_fingerprint manifest) = sha256 (raw controller_identity))
        && bool_decide (raw (JointManifest.host_fingerprint manifest) = sha256 (raw host_identity)))
        "the joint manifest does not match the container identities";
  _ ← check (bool_decide (JointManifest.connection_binding manifest
                          = AuditHello.connection_binding (vf_hello verified)))
        "the joint manifest does not match the container binding";
  _ ← check (bool_decide (JointManifest.terminal_hello_digest manifest
                          = AuditContainerHeader.terminal_hello_digest header))
        "the joint manifest does not match the container header";
  _ ← check (bool_decide (JointManifest.final_snapshot manifest = vf_snapshot verified))
        "the joint manifest does not match the recorded chains";
  _ ← check (JointManifest.final_checkpoint_sequence manifest =? confirmed_sequence verified)
        "the joint manifest does not match the recorded checkpoints";
  input ← map_err (fun _ => Tampered "the joint manifest is invalid")
            (WireBytes.as_slice <$> JointManifest.signing_input manifest);
  _ ← check (verify_ed25519 (JointManifest.controller_session_key manifest) input
               (ManifestSignature.signature (ff_controller_signature footer)))
        "the controller session signature is invalid";
  check (verify_ed25519 (JointManifest.host_session_key manifest) input
           (ManifestSignature.signature (ff_host_signature footer)))
    "the host session signature is invalid".

(** The second part: the local record seal. *)
Definition check_seal (verified : file) (footer : FooterFacts) (manifest : JointManifest.t)
  : res serr unit :=
  let seal := ff_seal footer in
  _ ← check (bool_decide (LocalRecordSeal.session_id seal = JointManifest.session_id manifest)
        && bool_decide (LocalRecordSeal.role seal = AuditContainerHeader.role (vf_header verified)))
        "the local record seal is invalid";
  _ ← check (bool_decide (LocalRecordSeal.final_local_event_root seal = vf_local_head verified)
        && (LocalRecordSeal.local_event_count seal =? vf_local_count verified))
        "the local record seal does not match the local chain";
  _ ← check (bool_decide (LocalRecordSeal.final_shared_roots seal
                          = stream_list (stream_map chain_head (vf_shared verified))))
        "the local record seal does not match the shared chains";
  _ ← check (bool_decide (raw (LocalRecordSeal.joint_manifest_digest seal)
                          = sha256 (ff_manifest_bytes footer)))
        "the local record seal does not match the joint manifest";
  input ← wire (LocalRecordSeal.signing_input seal);
  check (verify_ed25519 (AuditContainerHeader.session_pubkey (vf_header verified)) input
           (LocalRecordSeal.signature seal))
    "the local record seal signature is invalid".

(** The third part: the ledger commit. *)
Definition check_commit (verified : file) (footer : FooterFacts) (manifest : JointManifest.t)
  : res serr unit :=
  let commit := ff_commit footer in
  _ ← check (bool_decide (LedgerCommit.session_id commit = JointManifest.session_id manifest))
        "the ledger commit is invalid";
  _ ← check (bool_decide (raw (LedgerCommit.manifest_digest commit) = sha256 (ff_manifest_bytes footer)))
        "the ledger commit does not match the joint manifest";
  input ← wire (LedgerCommit.signing_input commit);
  check (verify_ed25519 (AuditContainerHeader.identity_pubkey (vf_header verified)) input
           (LedgerCommit.signature commit))
    "the ledger commit signature is invalid".

Definition verify_footer (path : Path) (verified : file) (footer : FooterFacts)
  : res serr FooterFacts :=
  manifest ← map_err (fun _ => Tampered "the joint manifest is invalid")
               (JointManifest.decode_payload (ff_manifest_bytes footer));
  _ ← check_manifest verified footer manifest;
  _ ← check_seal verified footer manifest;
  _ ← check_commit verified footer manifest;
  _ ← match manifest_evidence (vf_manifests verified) with
      | Some evidence => check (bool_decide (evidence = ff_manifest_bytes footer))
                           "the joint manifest is invalid"
      | None => Ok tt
      end;
  digests ← compute_prefix_digests path footer;
  _ ← check (bool_decide (raw (LocalRecordSeal.sealed_prefix_digest (ff_seal footer))
                          = pd_sealed_prefix digests))
        "the local record seal digest is invalid";
  _ ← check (bool_decide (raw (LedgerCommit.sealed_record_digest (ff_commit footer))
                          = pd_sealed_record digests))
        "the ledger commit digest is invalid";
  _ ← check (bool_decide (raw (ff_final_digest footer) = pd_final_digest digests))
        "the container digest does not match its contents";
  Ok footer.

(** ** Manifest evidence *)

Definition INVALID_SIGNATURE : string := "the audit manifest signature is invalid".

(** A manifest's signature under one of the two session keys. *)
Definition check_evidence_signature (key : Ed25519PublicKey) (manifest_bytes : list Z)
    (signature : ManifestSignature.t) : res serr unit :=
  manifest ← map_err (fun _ => Tampered INVALID_MANIFEST) (JointManifest.decode_payload manifest_bytes);
  input ← map_err (fun _ => Tampered INVALID_MANIFEST)
            (WireBytes.as_slice <$> JointManifest.signing_input manifest);
  check (verify_ed25519 key input (ManifestSignature.signature signature)) INVALID_SIGNATURE.

Definition verify_manifest_evidence (verified : file) : res serr unit :=
  let m := vf_manifests verified in
  match manifest_evidence m with
  | None => Ok tt
  | Some sent =>
    _ ← match received_manifest_evidence m with
        | Some received => check (bool_decide (sent = received)) "the audit manifests do not match"
        | None => Ok tt
        end;
    _ ← match sent_manifest_signature m with
        | Some signature =>
          check_evidence_signature (AuditContainerHeader.session_pubkey (vf_header verified)) sent signature
        | None => Ok tt
        end;
    match received_manifest_signature m with
    | Some signature =>
      received ← ok_or (received_manifest_evidence m) (Tampered INVALID_SIGNATURE);
      check_evidence_signature (AuditContainerHeader.peer_session_pubkey (vf_header verified)) received
        signature
    | None => Ok tt
    end
  end.

(** ** The file *)

Definition footer_facts (base : Z) (decoded : DecodedFooter.t) (manifest_bytes : list Z) : FooterFacts :=
  let f := DecodedFooter.footer decoded in
  Facts manifest_bytes (AuditContainerFooter.controller_session_signature f)
    (AuditContainerFooter.host_session_signature f) (AuditContainerFooter.seal f)
    (AuditContainerFooter.ledger_commit f) (base + DecodedFooter.sealed_prefix_end decoded)
    (base + DecodedFooter.seal_end decoded) (base + DecodedFooter.ledger_end decoded)
    (DecodedFooter.final_container_digest decoded).

(** The part of [walk_file] after the walk over the records. *)
Definition walk_footer (path : Path) (w : FrameWalker.t) (verified : file) : res serr file :=
  match footer_start w with
  | None => Ok verified
  | Some start =>
    let footer_len := FrameWalker.len w - start - RECORD_FRAME_HEADER_LEN in
    let max_footer_len := MAX_FOOTER_PREFIX_LEN - zlen FOOTER_MAGIC + CONTAINER_DIGEST_LEN in
    if max_footer_len <? footer_len
    then Err (Tampered "the audit container has trailing bytes") else
    '(tail, _) ← run (read_exact footer_len) w;
    match decode_footer (FOOTER_MAGIC ++ tail) with
    | Ok decoded =>
      manifest_bytes ← map_err (fun _ => Tampered "the joint manifest is invalid")
        (WireBytes.as_slice <$> JointManifest.encode_payload
           (AuditContainerFooter.manifest (DecodedFooter.footer decoded)));
      footer ← verify_footer path verified (footer_facts start decoded manifest_bytes);
      Ok (set_tail (Some footer) (vf_truncated_tail verified) verified)
    | Err _ =>
      if MIN_LEGAL_FOOTER_LEN <=? footer_len + zlen FOOTER_MAGIC
      then Err (Tampered "the container footer is invalid")
      else Ok (set_tail (vf_footer verified) true verified)
    | Panic => Panic
    end
  end.

Definition walk_file (path : Path) : res serr file :=
  w ← open path;
  '(header_bytes, w) ← run skip_header w;
  header ← map_err (fun _ => NotAnAuditContainer) (AuditContainerHeader.decode header_bytes);
  let hello := AuditContainerHeader.audit_hello header in
  _ ← check_header_bindings header hello;
  '(w, v) ← walk_all w (new_verifier header hello);
  verified ← finish_walk v (FrameWalker.truncated_tail w) path;
  verified ← walk_footer path w verified;
  _ ← verify_manifest_evidence verified;
  Ok verified.
End FileVerifier.
