(* ===== verification/FileDigests.v ===== *)
(** * The prefix digests of a record file

    The streaming pass of [compute_prefix_digests] ends, whatever sizes the reads have, and its
    three digests are those of the three prefixes. *)

From stdpp Require Import strings.
From S2P Require Import Prelude Domain Layout WireAudit AuditContainer AuditWriter Stateful AuditEvents AuditSession ChainVerifier FileVerifier.
Open Scope string_scope.
Open Scope list_scope.
Open Scope Z_scope.

(** The first [n] bytes. *)
Definition prefix_of (bytes : list Z) (n : Z) : list Z := take (Z.to_nat n) bytes.

Section Digests.
Context {IoError Path : Type} `{AuditCrypto} `{RecordFiles IoError Path}.

Lemma file_read_spec h want :
  0 < want ->
  exists n, file_read h want = take (Z.to_nat n) (unread h) /\ 0 <= n <= want /\ n <= zlen (unread h) /\
    (n = 0 <-> unread h = []).
Proof.
  intros Hw. unfold file_read. pose proof (zlen_nonneg (unread h)). eexists. split; [done|].
  assert (zlen (unread h) = 0 <-> unread h = []) as Hz by (split; [apply zlen_0|by intros ->]).
  split_and!; [lia..|]. rewrite <- Hz. lia.
Qed.

Lemma zlen_take (n : Z) (l : list Z) : 0 <= n <= zlen l -> zlen (take (Z.to_nat n) l) = n.
Proof. unfold zlen. intros Hn. rewrite length_take. lia. Qed.

Lemma zlen_drop (n : Z) (l : list Z) : 0 <= n <= zlen l -> zlen (drop (Z.to_nat n) l) = zlen l - n.
Proof. unfold zlen. intros Hn. rewrite length_drop. lia. Qed.

(** A snapshot is missing before its boundary and right from it on. *)
Definition snapshot_ok (bytes : list Z) (end_ pos0 : Z) (strict : bool) (s : option (list Z)) : Prop :=
  match s with
  | None => if strict then pos0 < end_ else pos0 <= end_
  | Some d => end_ <= pos0 /\ d = sha256 (prefix_of bytes end_)
  end.

Record hashing_inv (bytes : list Z) (footer : FooterFacts) (strict : bool) (h : Hashing) : Prop := {
  hi_range : 0 <= position h <= zlen bytes;
  hi_fed : fed h = prefix_of bytes (position h);
  hi_unread : unread h = drop (Z.to_nat (position h)) bytes;
  hi_prefix : snapshot_ok bytes (ff_sealed_prefix_end footer) (position h) strict (sealed_prefix_at h);
  hi_record : snapshot_ok bytes (ff_seal_end footer) (position h) strict (sealed_record_at h);
}.

Lemma snapshot_here_ok bytes end_ h s :
  fed h = prefix_of bytes (position h) -> snapshot_ok bytes end_ (position h) false s ->
  snapshot_ok bytes end_ (position h) true (snapshot_here end_ h s).
Proof.
  intros Hf Hs. destruct s as [d|]; [done|]. cbn in *. destruct (Z.eqb_spec (position h) end_) as [<-|]; cbn.
  - split; [lia|by rewrite Hf].
  - lia.
Qed.

Lemma digest_snapshots_inv bytes footer h :
  hashing_inv bytes footer false h -> hashing_inv bytes footer true (digest_snapshots footer h).
Proof.
  intros [Hr Hf Hu Hp Hq]. split; try done;
    [exact (snapshot_here_ok _ _ _ _ Hf Hp)|exact (snapshot_here_ok _ _ _ _ Hf Hq)].
Qed.

(** Feeding up to a boundary: the bytes fed are a longer prefix of the read, and the snapshot
    is taken exactly when the boundary lies inside it. *)
Lemma feed_boundary_ok bytes end_ s pos0 n offset fed' offset' s' :
  let chunk := take (Z.to_nat n) (drop (Z.to_nat pos0) bytes) in
  0 <= pos0 -> 0 <= offset <= n -> n <= zlen bytes - pos0 ->
  snapshot_ok bytes end_ pos0 true s -> (s = None -> pos0 + offset < end_) ->
  feed_boundary end_ s pos0 chunk (prefix_of bytes (pos0 + offset), offset) = (fed', offset', s') ->
  offset <= offset' <= n /\ fed' = prefix_of bytes (pos0 + offset') /\
  snapshot_ok bytes end_ (pos0 + n) false s' /\
  (s = None -> offset' = Z.max offset (Z.min n (end_ - pos0))) /\ (s <> None -> offset' = offset).
Proof.
  intros chunk Hp Ho Hn Hs Hcase Hf.
  assert (zlen chunk = n) as Hc by (apply zlen_take; rewrite zlen_drop; lia).
  unfold feed_boundary in Hf. destruct s as [d|].
  - injection Hf as <- <- <-. destruct Hs as [? ->]. split_and!; cbn; try done; try lia. split; [lia|done].
  - cbn in Hs. specialize (Hcase eq_refl). rewrite Hc in Hf.
    destruct (Z.ltb_spec (pos0 + offset) end_).
    + injection Hf as <- <- <-. remember (Z.min (end_ - (pos0 + offset)) (n - offset)) as t eqn:Ht.
      assert (prefix_of bytes (pos0 + offset) ++ take (Z.to_nat t) (drop (Z.to_nat offset) chunk)
              = prefix_of bytes (pos0 + (offset + t))) as Hcat.
      { unfold prefix_of, chunk. rewrite skipn_firstn_comm, take_take, drop_drop.
        replace (Init.Nat.min (Z.to_nat t) (Z.to_nat n - Z.to_nat offset)) with (Z.to_nat t) by lia.
        replace (Z.to_nat pos0 + Z.to_nat offset)%nat with (Z.to_nat (pos0 + offset)) by lia.
        rewrite take_take_drop. f_equal. lia. }
      rewrite Hcat. split_and!; try done; try lia.
      destruct (Z.ltb_spec (offset + t) n); cbn; [|lia]. split; [lia|]. do 2 f_equal. lia.
    + lia.
Qed.

Lemma digest_chunk_inv bytes footer n h :
  ff_sealed_prefix_end footer < ff_seal_end footer ->
  hashing_inv bytes footer true h -> 0 <= n <= zlen (unread h) ->
  hashing_inv bytes footer false (digest_chunk footer (take (Z.to_nat n) (unread h)) h) /\
  position (digest_chunk footer (take (Z.to_nat n) (unread h)) h) = position h + n.
Proof.
  intros Hab [Hr Hf Hu Hp Hq] Hn. unfold digest_chunk. rewrite Hu, Hf in *.
  pose proof (zlen_drop _ _ Hr) as Hl. rewrite Hl in Hn. pose proof (zlen_take n (drop (Z.to_nat (position h)) bytes) ltac:(lia)) as Hc.
  set (chunk := take (Z.to_nat n) (drop (Z.to_nat (position h)) bytes)) in *.
  destruct (feed_boundary (ff_sealed_prefix_end footer) _ _ _ _) as [[f1 o1] s1] eqn:E1.
  rewrite <- (Z.add_0_r (position h)) in E1 at 2.
  apply feed_boundary_ok in E1 as (Ho1 & -> & Hs1 & Hn1 & Hk1); [|lia..|done|].
  2: { intros He. rewrite He in Hp. cbn in Hp. lia. }
  destruct (feed_boundary (ff_seal_end footer) _ _ _ _) as [[f2 o2] s2] eqn:E2.
  assert (o1 = 0 \/ o1 = Z.min n (ff_sealed_prefix_end footer - position h)) as Hcases.
  { destruct (sealed_prefix_at h); [left; by apply Hk1|]. specialize (Hn1 eq_refl). lia. }
  apply feed_boundary_ok in E2 as (Ho2 & -> & Hs2 & _ & _); [|lia..|done|].
  2: { intros He. rewrite He in Hq. cbn in Hq. lia. }
  cbn [position]. rewrite Hc. split; [|done]. split; cbn [position fed unread sealed_prefix_at sealed_record_at]; try done.
  - lia.
  - unfold prefix_of, chunk. rewrite skipn_firstn_comm, drop_drop.
    replace (Z.to_nat (position h) + Z.to_nat o2)%nat with (Z.to_nat (position h + o2)) by lia.
    rewrite take_take_drop. f_equal. lia.
  - rewrite drop_drop. f_equal. unfold zlen in Hc. lia.
Qed.

Lemma digest_loop_spec bytes footer fuel h :
  ff_sealed_prefix_end footer < ff_seal_end footer ->
  hashing_inv bytes footer false h -> zlen bytes - position h + 1 < Z.of_nat fuel ->
  exists h', digest_loop fuel footer h = Some h' /\ hashing_inv bytes footer true h' /\
    (position h' = ff_ledger_end footer \/ ff_ledger_end footer < position h' /\ position h' = position h \/
     position h' < ff_ledger_end footer /\ position h' = zlen bytes).
Proof.
  intros Hab. revert h. induction fuel as [|fuel IH]; intros h Hinv Hfuel.
  { destruct Hinv. lia. }
  cbn [digest_loop]. apply digest_snapshots_inv in Hinv. set (g := digest_snapshots footer h) in *.
  change (position h) with (position g) in *. destruct (Z.eqb_spec (Z.max 0 (ff_ledger_end footer - position g)) 0).
  { exists g. split_and!; [done..|]. lia. }
  destruct (file_read_spec g (Z.min (Z.max 0 (ff_ledger_end footer - position g)) READ_BUFFER_LEN))
    as (k & -> & Hk & Hku & Hk0); [unfold READ_BUFFER_LEN; lia|].
  assert (zlen (unread g) = zlen bytes - position g) as Hu.
  { destruct Hinv as [Hr _ -> _ _]. by apply zlen_drop. }
  rewrite zlen_take by lia. destruct (Z.eqb_spec k 0) as [Hz|Hz].
  { exists g. split_and!; [done..|]. apply Hk0 in Hz. rewrite Hz in Hu. change (zlen []) with 0 in Hu. lia. }
  destruct (digest_chunk_inv bytes footer k g Hab Hinv ltac:(lia)) as [Hinv' Hpos].
  destruct (IH _ Hinv' ltac:(rewrite Hpos; lia)) as (h' & -> & Hh' & Hend). exists h'. split_and!; [done..|].
  rewrite Hpos in Hend. lia.
Qed.

Lemma compute_prefix_digests_eq path bytes (footer : FooterFacts) :
  open_file path = Ok bytes ->
  0 <= ff_sealed_prefix_end footer < ff_seal_end footer -> ff_seal_end footer <= ff_ledger_end footer ->
  compute_prefix_digests path footer =
  if ff_ledger_end footer <=? zlen bytes
  then Ok (Digests (sha256 (prefix_of bytes (ff_sealed_prefix_end footer)))
             (sha256 (prefix_of bytes (ff_seal_end footer)))
             (sha256 (prefix_of bytes (ff_ledger_end footer))))
  else Err (Tampered "the audit container is truncated").
Proof.
  intros Hopen Hab Hbc. unfold compute_prefix_digests. rewrite Hopen. cbn [map_err mbind res_bind].
  destruct (digest_loop_spec bytes footer (S (S (length bytes))) (HashState [] None None 0 bytes))
    as (h & -> & [Hr Hf Hu Hp Hq] & Hend); [lia| |cbn [position]; unfold zlen; lia|].
  { split; cbn; try done; [unfold zlen|..]; lia. }
  cbn [position] in Hend. destruct (Z.leb_spec (ff_ledger_end footer) (zlen bytes)).
  - assert (position h = ff_ledger_end footer) as He by lia. rewrite He in *.
    destruct (sealed_prefix_at h); [|cbn in Hp; lia]. destruct (sealed_record_at h); [|cbn in Hq; lia].
    destruct Hp as [_ ->], Hq as [_ ->]. by rewrite Z.eqb_refl, Hf.
  - assert (position h =? ff_ledger_end footer = false) as -> by (apply Z.eqb_neq; lia).
    by destruct (sealed_prefix_at h), (sealed_record_at h).
Qed.

(** C30: The pass over a file that computes the three digests of its footer ends for every
    sequence of short reads, without a panic, whether or not the file is long enough.  If it
    is, the digests are exactly those of the bytes before the three boundaries; if it is
    shorter than the last boundary, the file is reported truncated. *)
Theorem prefix_digests_terminate path bytes (footer : FooterFacts) :
  open_file path = Ok bytes ->
  0 <= ff_sealed_prefix_end footer < ff_seal_end footer -> ff_seal_end footer <= ff_ledger_end footer ->
  compute_prefix_digests path footer =
  if ff_ledger_end footer <=? zlen bytes
  then Ok (Digests (sha256 (prefix_of bytes (ff_sealed_prefix_end footer)))
             (sha256 (prefix_of bytes (ff_seal_end footer)))
             (sha256 (prefix_of bytes (ff_ledger_end footer))))
  else Err (Tampered "the audit container is truncated").
Proof. apply compute_prefix_digests_eq. Qed.
End Digests.
