(* ===== verification/FileWalk.v ===== *)
(** * Walking a record file

    What the frame walker does on the bytes of a header, legal frames and each of the tails a
    writer can leave: nothing, a part of a frame, a footer.  The walk over the records ends on
    every file. *)

From stdpp Require Import strings.
From S2P Require Import Prelude Domain Codec Layout WireAudit AuditCodecs AuditContainer AuditSigning ContainerCodecs AuditWriter Stateful AuditEvents AuditSession ChainVerifier AuditTrace FileVerifier FileDigests.
Open Scope string_scope.
Open Scope list_scope.
Open Scope Z_scope.

(** A walker that has consumed [pos] bytes of a file of which [rest] is left. *)
Definition walker_at (pos : Z) (rest : list Z) (truncated : bool) : FrameWalker.t :=
  FrameWalker.Mk rest pos (pos + zlen rest) truncated.

Section Walk.
Context {IoError Path : Type} `{AuditCryptoLaws} `{RecordFiles IoError Path}.
Local Notation serr := (StreamError IoError).

Lemma read_exact_app pos (l rest : list Z) tr n :
  n = zlen l ->
  read_exact (IoError:=IoError) n (walker_at pos (l ++ rest) tr) = (Ok l, walker_at (pos + n) rest tr).
Proof.
  intros ->. unfold read_exact, walker_at. cbn [FrameWalker.reader FrameWalker.pos FrameWalker.len FrameWalker.truncated_tail].
  pose proof (zlen_nonneg rest). rewrite zlen_app. destruct (Z.leb_spec (zlen l) (zlen l + zlen rest)); [|lia].
  rewrite take_zlen_app, drop_zlen_app by done. do 2 f_equal. lia.
Qed.

(** ** One frame *)

Lemma next_frame_none pos tr :
  next_frame (IoError:=IoError) (walker_at pos [] tr) = (Ok None, walker_at pos [] false).
Proof.
  unfold next_frame, mbind, stm_bind, gets, set_truncated, modify, walker_at. cbn [id FrameWalker.len FrameWalker.pos].
  change (zlen []) with 0. rewrite Z.add_0_r, Z.sub_diag. done.
Qed.

Lemma next_frame_few pos rest tr :
  0 < zlen rest < 5 ->
  next_frame (IoError:=IoError) (walker_at pos rest tr) = (Ok None, walker_at pos rest true).
Proof.
  intros Hr. unfold next_frame, mbind, stm_bind, gets, set_truncated, modify, walker_at, RECORD_FRAME_HEADER_LEN.
  cbn [id FrameWalker.len FrameWalker.pos FrameWalker.reader].
  destruct (Z.ltb_spec (pos + zlen rest - pos) (4 + 1)); [|lia].
  destruct (Z.ltb_spec 0 (pos + zlen rest - pos)); [done|lia].
Qed.

Lemma next_frame_magic pos rest tr :
  1 <= zlen rest ->
  next_frame (IoError:=IoError) (walker_at pos (FOOTER_MAGIC ++ rest) tr) = (Ok None, walker_at (pos + 4) rest tr).
Proof.
  intros Hr. unfold next_frame.
  rewrite (stm_bind_step _ _ (walker_at pos (FOOTER_MAGIC ++ rest) tr) _ (walker_at pos (FOOTER_MAGIC ++ rest) tr)) by done.
  cbv zeta.
  replace (_ <? _) with false; [|symmetry; apply Z.ltb_ge; unfold walker_at; cbn [FrameWalker.len FrameWalker.pos];
    rewrite zlen_app; change (zlen FOOTER_MAGIC) with 4; unfold RECORD_FRAME_HEADER_LEN; lia].
  rewrite (stm_bind_step _ _ _ _ _ (read_exact_app pos FOOTER_MAGIC rest tr 4 eq_refl)). by rewrite bool_decide_true.
Qed.

(** The five bytes in front of a payload, and what follows depending on what is left. *)
Lemma next_frame_header pos t n rest tr :
  validate_frame_len t n = Ok tt ->
  next_frame (IoError:=IoError) (walker_at pos (to_be_bytes 4 n ++ [RecordType.code t] ++ rest) tr) =
  if zlen rest <? n - 1 then (Ok None, walker_at (pos + 5) rest true)
  else (Ok (Some (t, prefix_of rest (n - 1))),
        walker_at (pos + 5 + (n - 1)) (drop (Z.to_nat (n - 1)) rest) tr).
Proof.
  intros Hv. pose proof Hv as [Hn _]%validate_frame_ok. pose proof (zlen_nonneg rest).
  pose proof (zlen_to_be 4 n) as Hl4. change (Z.of_nat 4) with 4 in Hl4.
  unfold next_frame. set (all := to_be_bytes 4 n ++ [RecordType.code t] ++ rest).
  rewrite (stm_bind_step _ _ (walker_at pos all tr) _ (walker_at pos all tr)) by done. cbv zeta.
  assert (FrameWalker.len (walker_at pos all tr) - FrameWalker.pos (walker_at pos all tr) = 5 + zlen rest) as Hrem.
  { cbn [walker_at FrameWalker.len FrameWalker.pos]. unfold all. rewrite !zlen_app, Hl4. change (zlen [_]) with 1. lia. }
  rewrite Hrem. unfold RECORD_FRAME_HEADER_LEN. rewrite (proj2 (Z.ltb_ge (5 + zlen rest) (4 + 1))) by lia.
  rewrite (stm_bind_step _ _ _ _ _ (read_exact_app pos (to_be_bytes 4 n) ([RecordType.code t] ++ rest) tr 4 (eq_sym Hl4))).
  rewrite bool_decide_false.
  2: { intros Hm. apply (f_equal from_be_bytes) in Hm. rewrite from_to_be in Hm by (change (256 ^ Z.of_nat 4) with (2 ^ 32); lia).
       rewrite Hm in Hn. by destruct Hn. }
  rewrite (stm_bind_step _ _ _ _ _ (read_exact_app (pos + 4) [RecordType.code t] rest tr 1 eq_refl)).
  rewrite (stm_bind_step _ _ (RecordType.code t) _ _) by done.
  rewrite (stm_bind_step _ _ t _ (walker_at (pos + 4 + 1) rest tr)).
  2: { unfold lift. by rewrite (proj2 (record_tag_ok (RecordType.code t) t) eq_refl). }
  rewrite from_to_be by (change (256 ^ Z.of_nat 4) with (2 ^ 32); lia).
  rewrite (stm_bind_step _ _ tt _ (walker_at (pos + 4 + 1) rest tr)) by (unfold lift; by rewrite Hv).
  replace (5 + zlen rest <? 4 + 1 + (n - 1)) with (zlen rest <? n - 1)
    by (destruct (Z.ltb_spec (zlen rest) (n - 1)), (Z.ltb_spec (5 + zlen rest) (4 + 1 + (n - 1))); lia).
  replace (pos + 4 + 1) with (pos + 5) by lia. destruct (Z.ltb_spec (zlen rest) (n - 1)); [done|].
  rewrite <- (take_drop (Z.to_nat (n - 1)) rest) at 1.
  assert (n - 1 = zlen (take (Z.to_nat (n - 1)) rest)) as Ht by (symmetry; apply zlen_take; lia).
  by rewrite (stm_bind_step _ _ _ _ _ (read_exact_app (pos + 5) (take (Z.to_nat (n - 1)) rest) _ tr (n - 1) Ht)).
Qed.

Lemma next_frame_record pos r rest tr :
  record_wf r ->
  next_frame (IoError:=IoError) (walker_at pos (frame_bytes r ++ rest) tr)
  = (Ok (Some r), walker_at (pos + zlen (frame_bytes r)) rest tr).
Proof.
  intros Hw. destruct (frame_bytes_facts r Hw) as [_ Hl]. destruct Hw as [_ Hv], r as [t p]. cbn [fst snd] in *.
  unfold frame_bytes, encode_frame_header in *. cbn [fst snd] in *. rewrite <- !app_assoc.
  rewrite next_frame_header by done. pose proof (zlen_nonneg rest). rewrite zlen_app.
  rewrite (proj2 (Z.ltb_ge _ _)) by lia. replace (1 + zlen p - 1) with (zlen p) by lia.
  unfold prefix_of. rewrite take_zlen_app, drop_zlen_app by done. do 2 f_equal. lia.
Qed.

(** A frame that is cut off after its type byte. *)
Lemma next_frame_cut pos t n part tr :
  validate_frame_len t n = Ok tt -> zlen part < n - 1 ->
  next_frame (IoError:=IoError) (walker_at pos (to_be_bytes 4 n ++ [RecordType.code t] ++ part) tr)
  = (Ok None, walker_at (pos + 5) part true).
Proof. intros Hv Hp. rewrite next_frame_header by done. by rewrite (proj2 (Z.ltb_lt _ _) Hp). Qed.

(** ** All frames *)

Lemma walk_records_app pos rs rest tr v v' fuel :
  Forall record_wf rs -> process_frames (IoError:=IoError) rs v = (Ok tt, v') ->
  walk_records (IoError:=IoError) (length rs + fuel) (walker_at pos (frames_bytes rs ++ rest) tr) v
  = walk_records fuel (walker_at (pos + zlen (frames_bytes rs)) rest tr) v'.
Proof.
  intros Hrs. revert pos v. induction Hrs as [|r rs Hr Hrs IH]; intros pos v Hp.
  - injection Hp as <-. change (zlen (frames_bytes [])) with 0. by rewrite Z.add_0_r.
  - unfold process_frames in Hp. cbn [for_each] in Hp. apply stm_bind_ok in Hp as (u & v1 & Hone & Hmore).
    rewrite frames_bytes_cons, <- app_assoc. cbn [length Nat.add walk_records].
    rewrite next_frame_record by done. destruct r as [t p]. cbn [fst snd] in Hone. rewrite Hone.
    rewrite (IH _ _ Hmore), zlen_app. do 2 f_equal. lia.
Qed.

Lemma frames_length rs : Forall record_wf rs -> (length rs <= length (frames_bytes rs))%nat.
Proof.
  induction 1 as [|r rs Hr Hrs IH]; [done|]. destruct (frame_bytes_facts r Hr) as [_ Hl].
  rewrite frames_bytes_cons, length_app. unfold zlen in *. cbn [length]. lia.
Qed.

(** The walk over the records of a well-formed file, up to the step that ends it. *)
Lemma walk_all_eq pos rs rest tr v v' w :
  Forall record_wf rs -> process_frames (IoError:=IoError) rs v = (Ok tt, v') ->
  next_frame (IoError:=IoError) (walker_at (pos + zlen (frames_bytes rs)) rest tr) = (Ok None, w) ->
  walk_all (IoError:=IoError) (walker_at pos (frames_bytes rs ++ rest) tr) v = Ok (w, v').
Proof.
  intros Hrs Hp Hend. unfold walk_all. cbn [walker_at FrameWalker.reader].
  pose proof (frames_length rs Hrs) as Hlen. rewrite length_app.
  replace (S (length (frames_bytes rs) + length rest))
    with (length rs + S (length (frames_bytes rs) - length rs + length rest))%nat by lia.
  change (FrameWalker.Mk _ _ _ _) with (walker_at pos (frames_bytes rs ++ rest) tr).
  rewrite (walk_records_app _ _ _ _ _ _ _ Hrs Hp). cbn [walk_records]. by rewrite Hend.
Qed.

(** ** The file *)

Lemma skip_header_eq h rest :
  header_wf h ->
  skip_header (IoError:=IoError) (walker_at 0 (concat (header_fields h) ++ rest) false)
  = (Ok (concat (header_fields h)), walker_at 713 rest false).
Proof.
  intros Hh. destruct (header_bytes_facts h Hh) as [_ Hl]. unfold skip_header. change CONTAINER_HEADER_LEN with 713.
  rewrite (stm_bind_step _ _ _ _ _ (read_exact_app 0 _ rest false 713 (eq_sym Hl))). change (0 + 713) with 713.
  destruct (fl_fields _ _ _ _ _ header_layout h Hh) as [Hsz _].
  rewrite (stm_bind_step _ _ CONTAINER_MAGIC _ (walker_at 713 rest false)).
  2: { unfold lift. by rewrite (slice_layout _ _ Hsz 0 CONTAINER_MAGIC) by done. }
  rewrite (stm_bind_step _ _ AUDIT_FORMAT_VERSION _ (walker_at 713 rest false)).
  2: { unfold lift. by rewrite (u16_at_layout _ _ Hsz 1 (to_be_bytes 2 AUDIT_FORMAT_VERSION) 8 9) by done. }
  rewrite Z.eqb_refl. cbn [negb andb]. rewrite andb_false_r.
  rewrite (stm_bind_step _ _ h _ (walker_at 713 rest false)); [done|].
  unfold lift. by rewrite (fl_dec _ _ _ _ _ header_layout h Hh).
Qed.

Lemma open_eq path h rest :
  header_wf h -> open_file path = Ok (concat (header_fields h) ++ rest) ->
  open (IoError:=IoError) path = Ok (walker_at 0 (concat (header_fields h) ++ rest) false).
Proof.
  intros Hh Ho. unfold open. rewrite Ho. cbn [map_err mbind res_bind]. destruct (header_bytes_facts h Hh) as [_ Hl].
  pose proof (zlen_nonneg rest). change CONTAINER_HEADER_LEN with 713. rewrite (proj2 (Z.ltb_ge _ _)) by (rewrite zlen_app; lia).
  done.
Qed.

(** A file whose records the chain verifier accepts, up to the end of the walk. *)
Lemma walk_file_frames path h rs tail v w :
  header_wf h -> check_header_bindings (IoError:=IoError) h (AuditContainerHeader.audit_hello h) = Ok tt ->
  Forall record_wf rs ->
  process_frames (IoError:=IoError) rs (new_verifier h (AuditContainerHeader.audit_hello h)) = (Ok tt, v) ->
  next_frame (IoError:=IoError) (walker_at (zlen (interrupted h rs)) tail false) = (Ok None, w) ->
  open_file path = Ok (interrupted h rs ++ tail) ->
  walk_file (IoError:=IoError) path =
    (verified ← finish_walk v (FrameWalker.truncated_tail w) path;
     verified ← walk_footer path w verified;
     _ ← verify_manifest_evidence verified;
     Ok verified).
Proof.
  intros Hh Hb Hrs Hp Hend Ho. destruct (header_bytes_facts h Hh) as [_ Hl]. unfold interrupted in *.
  rewrite <- app_assoc in Ho. unfold walk_file. rewrite (open_eq _ _ _ Hh Ho). cbn [mbind res_bind].
  unfold run at 1. rewrite (skip_header_eq h _ Hh). cbn [mbind res_bind].
  rewrite (fl_dec _ _ _ _ _ header_layout h Hh). cbn [map_err mbind res_bind]. rewrite Hb. cbn [mbind res_bind].
  rewrite zlen_app, Hl in Hend. by rewrite (walk_all_eq _ _ _ _ _ _ _ Hrs Hp Hend).
Qed.

(** Where a walk that did not meet a footer resumes: the rest is too short for one, or longer
    than any. *)
Lemma decode_footer_short part : bytes part -> zlen part <> 1132 -> exists e, decode_footer (FOOTER_MAGIC ++ part) = Err e.
Proof.
  intros Hb Hl. assert (bytes (FOOTER_MAGIC ++ part)) as Hb' by (apply Forall_app; split; [apply footer_magic_bytes|done]).
  destruct (decode_footer _) as [df|e|] eqn:Hd; [|by eexists|by apply decode_footer_no_panic in Hb'].
  apply decode_footer_canonical in Hd as (f & d & Hf & [_ Hdl] & Heq & _); [|done].
  destruct (footer_lens f Hf) as (_ & _ & H3 & _). apply (f_equal zlen) in Heq. rewrite !zlen_app in Heq.
  change (zlen FOOTER_MAGIC) with 4 in Heq. change (FixedBytes.len _) with 32 in Hdl. exfalso. lia.
Qed.

Lemma walk_footer_short path pos part tr (f : VerifiedFile Path) :
  4 <= pos -> bytes part -> zlen part < 1132 ->
  walk_footer (IoError:=IoError) path (walker_at pos part tr) f = Ok (set_tail (vf_footer f) true f).
Proof.
  intros Hp Hb Hl. unfold walk_footer, footer_start. cbn [walker_at FrameWalker.pos FrameWalker.len].
  unfold RECORD_FRAME_HEADER_LEN. rewrite (proj2 (Z.leb_le 4 pos) Hp).
  replace (pos + zlen part - (pos - 4) - 4) with (zlen part) by lia.
  change (MAX_FOOTER_PREFIX_LEN - zlen FOOTER_MAGIC + CONTAINER_DIGEST_LEN) with 1132.
  rewrite (proj2 (Z.ltb_ge _ _)) by lia. unfold run.
  change (FrameWalker.Mk _ _ _ _) with (walker_at pos part tr). rewrite <- (app_nil_r part) at 2.
  rewrite read_exact_app by done. cbn [mbind res_bind].
  destruct (decode_footer_short part Hb) as [e ->]; [lia|]. change MIN_LEGAL_FOOTER_LEN with 1136. change (zlen FOOTER_MAGIC) with 4.
  by rewrite (proj2 (Z.leb_gt _ _)) by lia.
Qed.

Lemma walk_footer_long path pos part tr (f : VerifiedFile Path) :
  4 <= pos -> 1132 < zlen part ->
  walk_footer (IoError:=IoError) path (walker_at pos part tr) f = Err (Tampered "the audit container has trailing bytes").
Proof.
  intros Hp Hl. unfold walk_footer, footer_start. cbn [walker_at FrameWalker.pos FrameWalker.len].
  unfold RECORD_FRAME_HEADER_LEN. rewrite (proj2 (Z.leb_le 4 pos) Hp).
  replace (pos + zlen part - (pos - 4) - 4) with (zlen part) by lia.
  change (MAX_FOOTER_PREFIX_LEN - zlen FOOTER_MAGIC + CONTAINER_DIGEST_LEN) with 1132.
  by rewrite (proj2 (Z.ltb_lt _ _)) by lia.
Qed.

(** ** A frame cut off *)

(** The first [k] bytes of a frame, and how the walk stops there. *)
Lemma next_frame_part pos r k tr :
  record_wf r -> 0 < k < zlen (frame_bytes r) ->
  exists pos' part tr', next_frame (IoError:=IoError) (walker_at pos (prefix_of (frame_bytes r) k) tr)
    = (Ok None, walker_at pos' part tr') /\ pos <= pos' /\ bytes part /\ tr' = true /\
    zlen part = (if k <? 5 then k else k - 5).
Proof.
  intros Hw Hk. destruct (frame_bytes_facts r Hw) as [Hb Hl].
  assert (zlen (prefix_of (frame_bytes r) k) = k) as Hz by (apply zlen_take; lia).
  destruct (Z.ltb_spec k 5).
  - exists pos, (prefix_of (frame_bytes r) k), true. split; [apply next_frame_few; lia|].
    split_and!; [lia|by apply Forall_take|done|done].
  - destruct r as [t p], Hw as [Hbp Hv]. cbn [fst snd] in *. exists (pos + 5), (prefix_of p (k - 5)), true.
    assert (prefix_of (frame_bytes (t, p)) k = to_be_bytes 4 (1 + zlen p) ++ [RecordType.code t] ++ prefix_of p (k - 5)) as ->.
    { unfold frame_bytes, encode_frame_header, prefix_of. cbn [fst snd].
      assert (length (to_be_bytes 4 (1 + zlen p)) = 4%nat) as H4 by apply length_digits_be.
      rewrite take_app_ge by lia. f_equal. rewrite take_app_ge by (cbn; lia). f_equal. f_equal. cbn [length]. lia. }
    assert (zlen (prefix_of p (k - 5)) = k - 5) as Hz' by (apply zlen_take; lia).
    rewrite next_frame_cut by (done || lia). split_and!; try done; [lia|by apply Forall_take].
Qed.

(** ** Termination *)

Lemma read_exact_shrinks n w l w' :
  0 <= n -> read_exact (IoError:=IoError) n w = (Ok l, w') ->
  zlen (FrameWalker.reader w') + n = zlen (FrameWalker.reader w).
Proof.
  unfold read_exact. intros Hn. destruct (Z.leb_spec n (zlen (FrameWalker.reader w))); [|done]. intros [= _ <-].
  cbn [FrameWalker.reader]. unfold zlen in *. rewrite length_drop. lia.
Qed.

Lemma next_frame_shrinks w f w' :
  next_frame (IoError:=IoError) w = (Ok (Some f), w') ->
  zlen (FrameWalker.reader w') + 5 <= zlen (FrameWalker.reader w).
Proof.
  unfold next_frame. intros Hr. apply stm_bind_ok in Hr as (w0 & w1 & [-> ->]%gets_ok & Hr).
  destruct (_ <? _); [by apply stm_bind_ok in Hr as (? & ? & _ & [? _]%stm_ret_ok)|].
  apply stm_bind_ok in Hr as (lb & w1 & R1%read_exact_shrinks & Hr); [|lia].
  case_bool_decide; [by apply stm_ret_ok in Hr as [? _]|].
  apply stm_bind_ok in Hr as (tb & w2 & R2%read_exact_shrinks & Hr); [|lia].
  apply stm_bind_ok in Hr as (t & ? & [Ht ->]%lift_ok & Hr). cbv zeta in Hr.
  apply stm_bind_ok in Hr as (rt & ? & [Hrt ->]%lift_ok & Hr).
  apply stm_bind_ok in Hr as ([] & ? & [Hv ->]%lift_ok & Hr).
  destruct (_ <? _); [by apply stm_bind_ok in Hr as (? & ? & _ & [? _]%stm_ret_ok)|].
  apply stm_bind_ok in Hr as (p & w3 & R3 & [_ ->]%stm_ret_ok).
  unfold read_exact in R3. destruct (_ <=? _); [|done]. injection R3 as _ <-. cbn [FrameWalker.reader].
  unfold zlen in *. rewrite length_drop. lia.
Qed.

(** The walk ends: the fuel of [walk_all] is enough for every file and every verifier. *)
Lemma walk_records_total fuel w v :
  zlen (FrameWalker.reader w) < Z.of_nat fuel -> is_Some (walk_records (IoError:=IoError) fuel w v).
Proof.
  revert w v. induction fuel as [|fuel IH]; intros w v Hf; [pose proof (zlen_nonneg (FrameWalker.reader w)); lia|].
  cbn [walk_records]. destruct (next_frame w) as [[[[t p]|]|e|] w'] eqn:Hn; [|by eexists..].
  apply next_frame_shrinks in Hn. destruct (process_frame t p v) as [[[]|e|] v']; [|by eexists..]. apply IH. lia.
Qed.
End Walk.
