(* ===== verification/VerifierSteps.v ===== *)
(** * What a frame changes

    Frame conditions of the chain verifier: no record changes the header it is checked against,
    and the shared chains are exactly the hash chains of the shared events among the records.
    Equal chains therefore mean equal events, unless two of the strings that were hashed for
    them collide. *)

From stdpp Require Import strings.
From S2P Require Import Prelude Domain Codec Layout WireAudit AuditCodecs AuditContainer AuditSigning ContainerCodecs AuditWriter Stateful AuditEvents AuditSession ChainVerifier AuditTrace.
Open Scope string_scope.
Open Scope list_scope.
Open Scope Z_scope.

(** ** Steps within a relation *)

Section Within.
Context {IoError : Type} `{AuditCrypto} (R : verifier -> verifier -> Prop) `{!PreOrder R}.
Local Notation V := (stm verifier (StreamError IoError)).

Definition within {A} (m : V A) : Prop := forall v a v', m v = (Ok a, v') -> R v v'.

Lemma within_bind {A B} (m : V A) (f : A -> V B) : within m -> (forall a, within (f a)) -> within (m ≫= f).
Proof. intros Hm Hf v b v' (a & v1 & H1 & H2)%stm_bind_ok. transitivity v1; [by eapply Hm|by eapply Hf]. Qed.

Lemma within_ret {A} (a : A) : within (mret a).
Proof. intros v b v' [-> ->]%stm_ret_ok. reflexivity. Qed.

Lemma within_lift {A} (r : res (StreamError IoError) A) : within (lift r).
Proof. intros v b v' [_ ->]%lift_ok. reflexivity. Qed.

Lemma within_gets {A} (f : verifier -> A) : within (gets f).
Proof. intros v b v' [_ ->]%gets_ok. reflexivity. Qed.

Lemma within_throw {A} (e : StreamError IoError) : within (throw e : V A).
Proof. by intros v b v' Hr. Qed.

Lemma within_ensure b message : within (ensure b message).
Proof. destruct b; [apply within_ret|apply within_throw]. Qed.

Lemma within_modify f : (forall v, R v (f v)) -> within (modify f).
Proof. intros Hf v b v' ->%modify_ok. apply Hf. Qed.

Lemma within_if {A} (b : bool) (m1 m2 : V A) : within m1 -> within m2 -> within (if b then m1 else m2).
Proof. by destruct b. Qed.
End Within.

(** Goes through a computation; [tac] shows that an update stays within the relation. *)
Ltac within_steps tac :=
  repeat first
    [ apply within_ret; exact _ | apply within_lift; exact _ | apply within_gets; exact _ | apply within_throw
    | apply within_ensure; exact _
    | apply within_modify; intros ?; tac
    | apply within_bind; [exact _| |intros ?]
    | apply within_if
    | case_match ].

(** ** The header stays *)

Definition same_setting (v v' : verifier) : Prop := v_header v' = v_header v /\ v_hello v' = v_hello v.

#[export] Instance same_setting_preorder : PreOrder same_setting.
Proof. split; [by split|]. intros v1 v2 v3 [? ?] [? ?]. split; by etransitivity. Qed.

Section Setting.
Context {IoError : Type} `{AuditCrypto}.
Local Notation V := (stm verifier (StreamError IoError)).

Lemma process_frame_setting t p : within same_setting (process_frame (IoError:=IoError) t p).
Proof.
  unfold process_frame, flush_batches, flush_input_batch, flush_output_batch, process_shared_input,
    process_shared_output, process_shared_control, process_shared_file, process_display, process_local, check_local,
    process_evidence, evidence_checkpoint, evidence_ack, evidence_manifest, evidence_signature, confirm_sent,
    confirm_received, check_shared, v_commit_local, decoded, decoded_as, on_vchains, on_vpoints.
  within_steps ltac:(by split).
Qed.

Lemma flush_setting : within same_setting (flush_batches (IoError:=IoError)).
Proof. unfold flush_batches, flush_input_batch, flush_output_batch, on_vchains. within_steps ltac:(by split). Qed.

Lemma process_frames_setting rs : within same_setting (process_frames (IoError:=IoError) rs).
Proof.
  induction rs as [|r rs IH]; unfold process_frames; cbn [for_each]; [apply within_ret; exact _|].
  apply within_bind; [exact _|apply process_frame_setting|intros ?; exact IH].
Qed.
End Setting.

(** ** The shared events of a file *)

#[export] Instance SharedStream_eq_dec : EqDecision SharedStream.t.
Proof. solve_decision. Defined.

(** The direction, the kind and the canonical payload. *)
Definition event : Type := Z * Z * list Z.

Definition stream_domain (stream : SharedStream.t) : list Z :=
  match stream with
  | SharedStream.Input => CHAIN_INPUT_DOMAIN
  | SharedStream.Output => CHAIN_OUTPUT_DOMAIN
  | SharedStream.Control => CHAIN_CONTROL_DOMAIN
  | SharedStream.FileTransfer => CHAIN_FILE_DOMAIN
  end.

Definition same_shared (v v' : verifier) : Prop := v_shared (v_chains v') = v_shared (v_chains v).

#[export] Instance same_shared_preorder : PreOrder same_shared.
Proof. split; [done|]. intros v1 v2 v3 H1 H2. unfold same_shared in *. congruence. Qed.

Section Events.
Context {IoError : Type} `{AuditCrypto}.
Local Notation err := (AuditError (IoError:=IoError)).

(** The event of a shared record. *)
Definition shared_event (r : record) : option (SharedStream.t * event) :=
  match r.1 with
  | RecordType.SharedInputCommitment =>
    match decode_shared_input (IoError:=IoError) r.2 with
    | Ok d => Some (SharedStream.Input, (d_direction d, INPUT_EVENT_KIND, to_be_bytes 8 (d_length d) ++ d_digest d))
    | _ => None
    end
  | RecordType.SharedOutputBlock =>
    match decode_shared_output (IoError:=IoError) r.2 with
    | Ok d => Some (SharedStream.Output, (d_direction d, OUTPUT_EVENT_KIND, to_be_bytes 8 (d_length d) ++ d_digest d))
    | _ => None
    end
  | RecordType.SharedControlEvent =>
    match decode_shared_control (IoError:=IoError) r.2 with
    | Ok d => Some (SharedStream.Control, (c_direction d, c_kind d, resize 97 ([c_kind d] ++ c_control_payload d)))
    | _ => None
    end
  | RecordType.SharedFileTransferEvent =>
    match decode_shared_file (IoError:=IoError) r.2 with
    | Ok d => Some (SharedStream.FileTransfer, (f_direction d, f_kind d, file_canonical d))
    | _ => None
    end
  | _ => None
  end.

Definition stream_event (stream : SharedStream.t) (r : record) : option event :=
  match shared_event r with
  | Some (s, e) => if bool_decide (s = stream) then Some e else None
  | None => None
  end.

(** The events of one stream, in order. *)
Definition events (stream : SharedStream.t) (rs : list record) : list event := omap (stream_event stream) rs.

(** One more event on a chain. *)
Definition extend (stream : SharedStream.t) (chain : SharedChain) (e : event) : SharedChain :=
  let sequence := chain_count chain + 1 in
  Chain sequence (FixedBytes.new (shared_event_hash (stream_domain stream) (raw (chain_head chain))
    (SharedStream.index stream) e.1.1 sequence e.1.2 e.2)).

(** The hash chain of a list of events. *)
Definition chain_of (stream : SharedStream.t) (es : list event) : SharedChain := foldl (extend stream) empty_chain es.

Lemma add_u64_run {E} a b c : add_u64 (E:=E) a b = Ok c -> c = a + b /\ c < 2 ^ 64.
Proof. unfold add_u64, checked_add_u64. destruct (Z.ltb_spec (a + b) (2 ^ 64)); [|done]. by intros [= <-]. Qed.

Lemma ensure_run b message v u v' : ensure (IoError:=IoError) b message v = (Ok u, v') -> b = true /\ v' = v.
Proof. unfold ensure. destruct b; [|done]. by intros [_ ->]%stm_ret_ok. Qed.

Lemma check_shared_run stream direction sequence kind canonical previous head v u v' :
  check_shared (IoError:=IoError) stream (stream_domain stream) direction sequence kind canonical previous head v = (Ok u, v') ->
  v_shared (v_chains v') = stream_set stream (extend stream (stream_get (v_shared (v_chains v)) stream)
    (direction, kind, canonical)) (v_shared (v_chains v)).
Proof.
  unfold check_shared. intros Hr. apply stm_bind_ok in Hr as (c & ? & [-> ->]%gets_ok & Hr).
  apply stm_bind_ok in Hr as (next & ? & [[-> _]%add_u64_run ->]%lift_ok & Hr).
  apply stm_bind_ok in Hr as (? & ? & [[->%Z.eqb_eq _]%andb_prop ->]%ensure_run & Hr).
  apply stm_bind_ok in Hr as (? & ? & [<-%bool_decide_eq_true_1 ->]%ensure_run & ->%modify_ok).
  cbn. by destruct stream.
Qed.

Lemma decoded_run {A} (r : res err A) a v v' : decoded r v = (Ok a, v') -> r = Ok a /\ v' = v.
Proof. unfold decoded. intros [Hr ->]%lift_ok. destruct r; [|done..]. by injection Hr as ->. Qed.

Lemma flush_shared : within same_shared (flush_batches (IoError:=IoError)).
Proof. unfold flush_batches, flush_input_batch, flush_output_batch, on_vchains. within_steps ltac:(done). Qed.

Lemma local_shared t p : within same_shared (process_local (IoError:=IoError) t p).
Proof.
  unfold process_local, check_local, process_evidence, evidence_checkpoint, evidence_ack, evidence_manifest,
    evidence_signature, confirm_sent, confirm_received, v_commit_local, decoded_as, on_vchains, on_vpoints.
  within_steps ltac:(done).
Qed.

Lemma display_shared p : within same_shared (process_display (IoError:=IoError) p).
Proof. unfold process_display, flush_output_batch, v_commit_local, on_vchains. within_steps ltac:(done). Qed.

(** The shared chains after one frame. *)
Lemma process_frame_shared r v u v' :
  process_frame (IoError:=IoError) r.1 r.2 v = (Ok u, v') ->
  forall stream, stream_get (v_shared (v_chains v')) stream =
    match stream_event stream r with
    | Some e => extend stream (stream_get (v_shared (v_chains v)) stream) e
    | None => stream_get (v_shared (v_chains v)) stream
    end.
Proof.
  destruct r as [t p]. cbn [fst snd]. intros Hr stream. unfold stream_event, shared_event. cbn [fst snd].
  assert (forall (m : stm verifier (StreamError IoError) unit), within same_shared m ->
    m v = (Ok u, v') -> v_shared (v_chains v') = v_shared (v_chains v)) as Hsame by (intros m Hm Hv; by apply Hm in Hv).
  destruct t; cbn [process_frame] in Hr;
    try (erewrite Hsame; [done| |exact Hr]; first
      [apply display_shared|apply within_bind; [exact _|apply flush_shared|intros ?; apply local_shared]]).
  all: apply stm_bind_ok in Hr as (u0 & v1 & H1 & Hr).
  1,2: apply modify_ok in H1. 3,4: apply flush_shared in H1.
  all: unfold process_shared_input, process_shared_output, process_shared_control, process_shared_file in Hr.
  all: apply stm_bind_ok in Hr as (d & ? & [-> ->]%decoded_run & Hr).
  all: apply stm_bind_ok in Hr as (? & ? & [_ ->]%ensure_run & Hr).
  3: apply stm_bind_ok in Hr as (? & ? & [_ ->]%ensure_run & Hr).
  4: apply stm_bind_ok in Hr as (? & v2 & Hr & ->%modify_ok).
  - apply (check_shared_run SharedStream.Input) in Hr. rewrite Hr, H1. by destruct stream.
  - apply (check_shared_run SharedStream.Output) in Hr. rewrite Hr, H1. by destruct stream.
  - apply (check_shared_run SharedStream.Control) in Hr. rewrite Hr, H1. by destruct stream.
  - apply (check_shared_run SharedStream.FileTransfer) in Hr. cbn. rewrite Hr, H1. by destruct stream.
Qed.

Lemma process_frames_shared rs v u v' :
  process_frames (IoError:=IoError) rs v = (Ok u, v') ->
  forall stream, stream_get (v_shared (v_chains v')) stream
    = foldl (extend stream) (stream_get (v_shared (v_chains v)) stream) (events stream rs).
Proof.
  unfold process_frames. revert v. induction rs as [|r rs IH]; intros v Hr stream.
  - by apply stm_ret_ok in Hr as [_ ->].
  - cbn [for_each] in Hr. apply stm_bind_ok in Hr as (u1 & v1 & H1 & Hr). rewrite (IH _ Hr stream).
    rewrite (process_frame_shared _ _ _ _ H1 stream). unfold events. cbn [omap list_omap].
    by destruct (stream_event stream r).
Qed.

(** A verified file's shared chains are those of its events. *)
Lemma verified_chains h a rs u v :
  process_frames (IoError:=IoError) rs (new_verifier h a) = (Ok u, v) ->
  forall stream, stream_get (v_shared (v_chains v)) stream = chain_of stream (events stream rs).
Proof. intros Hr stream. rewrite (process_frames_shared _ _ _ _ Hr). by destruct stream. Qed.
End Events.

(** ** Chains bind their events *)

Section Binding.
Context `{AuditCryptoLaws}.

(** The string that the chain hashes for one more event. *)
Definition event_input (stream : SharedStream.t) (chain : SharedChain) (e : event) : list Z :=
  stream_domain stream ++ raw (chain_head chain) ++ [SharedStream.index stream] ++ [e.1.1] ++
  to_be_bytes 8 (chain_count chain + 1) ++ [e.1.2] ++ e.2.

Lemma extend_input stream c e :
  chain_head (extend stream c e) = FixedBytes.new (sha256 (event_input stream c e)).
Proof. reflexivity. Qed.

(** The strings that the verifier hashes for the events of a stream, in order. *)
Fixpoint inputs_from (stream : SharedStream.t) (chain : SharedChain) (es : list event) : list (list Z) :=
  match es with
  | [] => []
  | e :: es => event_input stream chain e :: inputs_from stream (extend stream chain e) es
  end.
Definition hash_inputs (stream : SharedStream.t) (es : list event) : list (list Z) :=
  inputs_from stream empty_chain es.

(** A collision of SHA-256 among the strings hashed for two lists of events: two different
    strings, hashed at the same place of the two chains, with the same digest. *)
Definition collision (stream : SharedStream.t) (es es' : list event) : Prop :=
  exists i x y, hash_inputs stream es !! i = Some x /\ hash_inputs stream es' !! i = Some y /\
    x <> y /\ sha256 x = sha256 y.

Lemma inputs_from_snoc stream c es e :
  inputs_from stream c (es ++ [e]) = inputs_from stream c es ++ [event_input stream (foldl (extend stream) c es) e].
Proof. revert c. induction es as [|e0 es IH]; intros c; cbn; [done|]. by rewrite IH. Qed.

Lemma hash_inputs_snoc stream es e :
  hash_inputs stream (es ++ [e]) = hash_inputs stream es ++ [event_input stream (chain_of stream es) e].
Proof. apply inputs_from_snoc. Qed.

Lemma length_hash_inputs stream es : length (hash_inputs stream es) = length es.
Proof.
  unfold hash_inputs. generalize empty_chain. induction es as [|e es IH]; intros c; cbn; [done|]. by rewrite IH.
Qed.

Lemma chain_of_snoc stream es e : chain_of stream (es ++ [e]) = extend stream (chain_of stream es) e.
Proof. unfold chain_of. by rewrite foldl_app. Qed.

Lemma chain_of_count stream es : chain_count (chain_of stream es) = zlen es.
Proof.
  induction es as [|e es IH] using rev_ind; [done|]. rewrite chain_of_snoc, zlen_app. cbn [extend chain_count].
  rewrite IH. done.
Qed.

Lemma chain_of_head stream es : zlen (raw (chain_head (chain_of stream es))) = 32.
Proof.
  destruct es as [|e es _] using rev_ind; [done|]. rewrite chain_of_snoc. apply sha256_array.
Qed.

Lemma app_eq_lengths (a b c d : list Z) : zlen a = zlen b -> a ++ c = b ++ d -> a = b /\ c = d.
Proof. intros Hl. apply app_inj_1. unfold zlen in Hl. lia. Qed.

(** Two extensions with the same head hashed the same string, or collide. *)
Lemma extend_binds stream c c' e e' :
  zlen (raw (chain_head c)) = 32 -> zlen (raw (chain_head c')) = 32 ->
  extend stream c e = extend stream c' e' ->
  (c = c' /\ e = e') \/
  (event_input stream c e <> event_input stream c' e' /\
   sha256 (event_input stream c e) = sha256 (event_input stream c' e')).
Proof.
  intros Hl Hl' He. pose proof (f_equal chain_count He) as Hc. pose proof (f_equal chain_head He) as Hh.
  rewrite !extend_input in Hh. apply (f_equal raw) in Hh. cbn [raw FixedBytes.as_bytes] in Hh.
  destruct (decide (event_input stream c e = event_input stream c' e')) as [Heq|Hne]; [left|by right].
  unfold event_input in Heq. cbn [extend chain_count] in Hc.
  destruct c as [n [h]], c' as [n' [h']], e as [[d k] p], e' as [[d' k'] p']. cbn [chain_count chain_head fst snd] in *.
  assert (n = n') as <- by lia.
  apply app_inv_head in Heq. apply app_eq_lengths in Heq as [Hhead Heq]; [|exact (eq_trans Hl (eq_sym Hl'))].
  apply app_inv_head in Heq. apply app_eq_lengths in Heq as [Hd Heq]; [|done].
  apply app_inv_head in Heq. apply app_eq_lengths in Heq as [Hk ->]; [|done].
  injection Hd as ->. injection Hk as ->. cbn [FixedBytes.as_bytes] in Hhead. by subst.
Qed.

Lemma chain_binds stream es es' :
  chain_of stream es = chain_of stream es' -> es = es' \/ collision stream es es'.
Proof.
  revert es'. induction es as [|e es IH] using rev_ind; intros es' He.
  - pose proof (f_equal chain_count He) as Hc. rewrite !chain_of_count in Hc. left. symmetry. by apply zlen_0.
  - destruct es' as [|e' es' _] using rev_ind.
    { pose proof (f_equal chain_count He) as Hc. rewrite !chain_of_count in Hc. rewrite zlen_app in Hc.
      pose proof (zlen_nonneg es). change (zlen [e]) with 1 in Hc. change (zlen []) with 0 in Hc. lia. }
    pose proof (f_equal chain_count He) as Hc. rewrite !chain_of_count, !zlen_app in Hc.
    assert (length es = length es') as Hlen by (change (zlen [e]) with (zlen [e']) in Hc; unfold zlen in Hc; lia).
    rewrite !chain_of_snoc in He. apply extend_binds in He as [[He ->]|[Hne Hsha]]; [|right|apply chain_of_head..].
    + destruct (IH _ He) as [->|(i & x & y & Hx & Hy & Hxy)]; [by left|right].
      exists i, x, y. rewrite !hash_inputs_snoc. split_and!; [by apply lookup_app_l_Some..|apply Hxy|apply Hxy].
    + exists (length es), (event_input stream (chain_of stream es) e), (event_input stream (chain_of stream es') e').
      rewrite !hash_inputs_snoc. split_and!; [| |done|done].
      * rewrite <- (length_hash_inputs stream es). apply list_lookup_middle; done.
      * rewrite Hlen, <- (length_hash_inputs stream es'). apply list_lookup_middle; done.
Qed.
End Binding.
