(* ===== verification/FileRun.v ===== *)
(** * The files that sessions write verify

    The composition of the session, the record format and the file verifier: the header the
    handshake builds passes the header checks, the manifest evidence of a run is consistent, and
    so a record file, interrupted anywhere or finished, is accepted by [walk_file]. *)

From stdpp Require Import strings.
From S2P Require Import Prelude Domain Codec Layout WireAudit AuditCodecs AuditContainer AuditSigning ContainerCodecs AuditWriter Stateful AuditEvents AuditSession AuditNormalize ChainVerifier AuditTrace AuditSimulation AuditControlSim AuditPointSim AuditCloseSim AuditRun AuditIdentity FileVerifier FileDigests FileWalk VerifierSteps.
Open Scope string_scope.
Open Scope list_scope.
Open Scope Z_scope.

Section FileRun.
Context {IoError : Type} `{AuditCryptoLaws} {L : Type} `{!Ledger (IoError:=IoError) L}.
Local Notation st := (session AuditIdentity.t L).
Local Notation err := (AuditError (IoError:=IoError)).
Local Notation obs := (st * option JointManifest.t)%type.
Implicit Types (s : st) (v : verifier) (p : obs).

(** ** The header *)

(** What a new session says of itself. *)
Record introduced (s : st) : Prop := {
  in_role : AuditHello.role (hello (own s)) = role (own s);
  in_identity : AuditHello.persistent_audit_key (hello (own s)) = AuditIdentity.public_key (identity (own s));
  in_key : AuditHello.session_key (hello (own s)) = session_pubkey (own s);
  in_pubkey : raw (session_pubkey (own s)) = ed_public (session_key (own s));
  in_sequence : AuditHello.ledger_sequence (hello (own s)) = ledger_sequence (own s);
  in_root : AuditHello.ledger_root (hello (own s)) = ledger_root (own s);
  in_version : AuditHello.format_version (hello (own s)) = AUDIT_FORMAT_VERSION;
  in_wf : hello_wf (hello (own s));
  in_utc : is_u64 (utc_start_seconds (own s));
  in_signed : exists input, wire (E:=StreamError IoError) (AuditHello.signing_input (hello (own s))) = Ok input /\
    AuditHello.signature (hello (own s)) = AuditIdentity.sign (identity (own s)) input;
}.

Lemma wire_any {E F} (r : res ProtocolError WireBytes.t) l : wire (E:=E) r = Ok l -> wire (E:=F) r = Ok l.
Proof. unfold wire, expect. destruct (_ <$> r); [by intros [= ->]|done..]. Qed.

Lemma new_from_introduced role identity ledger binding utc nonce contribution seed s :
  new_from (IoError:=IoError) role identity ledger binding utc nonce contribution seed = Ok s ->
  is_array NONCE_LEN nonce -> FixedBytes.wf binding -> is_u64 utc ->
  (forall n root, snapshot ledger = Ok (n, root) -> is_u64 n /\ FixedBytes.wf root) -> introduced s.
Proof.
  unfold new_from. intros Hr Hnonce Hbind Hutc Hsnap.
  destruct (snapshot ledger) as [[n root]| |] eqn:Hled; [|discriminate Hr..]. destruct (Hsnap _ _ eq_refl) as [Hn Hroot].
  cbn [mbind res_bind] in Hr. destruct (wire _) as [input| |] eqn:Hin; [|discriminate Hr..].
  cbn [mbind res_bind sign IdentityAdapter] in Hr. apply ok_inj in Hr as ->.
  split; try done.
  - assert (is_array DIGEST_LEN (sha256 contribution)) as Hs by apply sha256_array.
    refine (conj (identity_key_wf identity) (conj (ed_public_array seed) (conj Hnonce (conj Hn (conj Hroot (conj Hbind
      (conj (conj _ _) (conj Hs (ed_sign_array _ _))))))))); done.
  - exists input. split; [|done]. by apply (wire_any (E:=err)).
Qed.

(** The confirmation and the header of a handshake. *)
Lemma compute_ready_run secret s r s' :
  compute_ready (IoError:=IoError) secret s = (Ok r, s') ->
  own s' = own s /\ peer_hello (peer s') = peer_hello (peer s) /\ session_id (peer s') = Some (AuditReady.session_id r) /\
  AuditReady.format_version r = AUDIT_FORMAT_VERSION /\ ready_wf r /\
  exists input, wire (E:=StreamError IoError) (AuditReady.signing_input r) = Ok input /\
    AuditReady.signature r = sign_with_session_key s input.
Proof.
  intros Hr. pose proof Hr as (_ & _ & _ & _ & _ & sid & Hsid & Hsw)%ready_run.
  unfold compute_ready in Hr. apply stm_bind_ok in Hr as (? & ? & [-> _]%phase_run & Hr).
  apply stm_bind_ok in Hr as (? & ? & [-> _]%required_run & Hr).
  apply stm_bind_ok in Hr as (? & ? & [-> ->]%gets_ok & Hr). cbn [id] in Hr.
  do 6 apply stm_bind_ok in Hr as (? & ? & [_ ->]%lift_ok & Hr).
  apply stm_bind_ok in Hr as (input & ? & [Hin ->]%lift_ok & Hr).
  apply stm_bind_ok in Hr as (? & ? & ->%modify_ok & Hr).
  apply stm_bind_ok in Hr as (? & ? & ->%modify_ok & [-> ->]%stm_ret_ok).
  cbn [peer set_phase set_peer session_id] in Hsid. apply (inj Some) in Hsid as ->. split_and!; try done.
  - refine (conj Hsw (conj (sha256_array _) (conj (conj _ _) (ed_sign_array _ _)))); done.
  - exists input. split; [|done]. by apply (wire_any (E:=err)).
Qed.

Lemma build_header_eq r d s h s' :
  build_header (IoError:=IoError) r d s = (Ok h, s') ->
  own s' = own s /\
  exists sid ph input, session_id (peer s) = Some sid /\ peer_hello (peer s) = Some ph /\
    wire (E:=StreamError IoError) (AuditContainerHeader.signing_input h) = Ok input /\
    h = AuditContainerHeader.with_header_signature
          (AuditContainerHeader.new (role (own s)) sid (AuditIdentity.public_key (identity (own s)))
             (session_pubkey (own s)) (AuditHello.persistent_audit_key ph) (AuditHello.session_key ph)
             (ledger_sequence (own s)) (ledger_root (own s)) (utc_start_seconds (own s)) AuthMode.Enterprise d
             (hello (own s)) r) (AuditIdentity.sign (identity (own s)) input).
Proof.
  unfold build_header. intros Hr. apply stm_bind_ok in Hr as (? & ? & [-> _]%phase_run & Hr).
  apply stm_bind_ok in Hr as (sid & ? & [-> Hsid]%required_run & Hr).
  apply stm_bind_ok in Hr as (ph & ? & [-> Hph]%required_run & Hr).
  apply stm_bind_ok in Hr as (? & ? & [-> ->]%gets_ok & Hr).
  apply stm_bind_ok in Hr as (input & ? & [Hin ->]%lift_ok & Hr).
  apply stm_bind_ok in Hr as (sig & ? & [Hsig ->]%lift_ok & Hr).
  apply stm_bind_ok in Hr as (? & ? & ->%modify_ok & [-> ->]%stm_ret_ok). split; [done|].
  cbn [sign IdentityAdapter] in Hsig. apply ok_inj in Hsig as ->.
  exists sid, ph, input. split_and!; [done..| |done]. by apply (wire_any (E:=err)).
Qed.

Lemma header_bindings_ok h input1 input2 input3 (identity key : list Z) :
  let hello := AuditContainerHeader.audit_hello h in
  let ready := AuditContainerHeader.audit_ready h in
  AuditHello.role hello = AuditContainerHeader.role h ->
  AuditHello.persistent_audit_key hello = AuditContainerHeader.identity_pubkey h ->
  AuditHello.session_key hello = AuditContainerHeader.session_pubkey h ->
  AuditHello.ledger_sequence hello = AuditContainerHeader.ledger_sequence h ->
  AuditHello.ledger_root hello = AuditContainerHeader.previous_ledger_root h ->
  AuditHello.format_version hello = AUDIT_FORMAT_VERSION ->
  AuditReady.session_id ready = AuditContainerHeader.session_id h ->
  AuditReady.format_version ready = AUDIT_FORMAT_VERSION ->
  wire (E:=StreamError IoError) (AuditHello.signing_input hello) = Ok input1 ->
  wire (E:=StreamError IoError) (AuditReady.signing_input ready) = Ok input2 ->
  wire (E:=StreamError IoError) (AuditContainerHeader.signing_input h) = Ok input3 ->
  raw (AuditContainerHeader.identity_pubkey h) = ed_public identity ->
  raw (AuditContainerHeader.session_pubkey h) = ed_public key ->
  raw (AuditHello.signature hello) = ed_sign identity input1 ->
  raw (AuditReady.signature ready) = ed_sign key input2 ->
  raw (AuditContainerHeader.header_signature h) = ed_sign identity input3 ->
  check_header_bindings (IoError:=IoError) h hello = Ok tt.
Proof.
  cbv zeta. intros H1 H2 H3 H4 H5 H6 H7 H8 W1 W2 W3 K1 K2 S1 S2 S3. unfold check_header_bindings, check.
  rewrite !bool_decide_true by done. rewrite H4, H6, H8, !Z.eqb_refl. cbn [andb mbind res_bind].
  rewrite W1. cbn [mbind res_bind]. unfold verify_ed25519. rewrite H2, K1, S1, ed_sign_verifies. cbn [mbind res_bind].
  rewrite W2. cbn [mbind res_bind]. rewrite K2, S2, ed_sign_verifies. cbn [mbind res_bind].
  rewrite W3. cbn [mbind res_bind]. by rewrite S3, ed_sign_verifies.
Qed.

Lemma handshake_header peer_hello contribution digest peer_ready s header s' :
  introduced s -> hello_wf peer_hello -> FixedBytes.wf digest ->
  handshake (IoError:=IoError) peer_hello contribution digest peer_ready s = (Ok header, s') ->
  header_wf header /\ AuditContainerHeader.audit_hello header = hello (own s') /\
  check_header_bindings (IoError:=IoError) header (AuditContainerHeader.audit_hello header) = Ok tt.
Proof.
  intros [I1 I2 I3 I4 I5 I6 I7 I8 I9 (input1 & W1 & S1)] Hpw Hd Hr. unfold handshake in Hr.
  apply stm_bind_ok in Hr as (? & s1 & (O1 & _ & _ & H1 & _)%receive_hello_run & Hr).
  apply stm_bind_ok in Hr as (r & s2 & (O2 & H2 & Hsid & Hv & Hrw & input2 & W2 & S2)%compute_ready_run & Hr).
  apply stm_bind_ok in Hr as (h & s3 & (O3 & sid & ph & input3 & Hsid' & Hph & W3 & Hh)%build_header_eq & Hr).
  apply stm_bind_ok in Hr as (? & s4 & (O4 & _)%peer_ready_run & [-> ->]%stm_ret_ok).
  rewrite Hsid in Hsid'. apply (inj Some) in Hsid' as <-. rewrite H2, H1 in Hph. apply (inj Some) in Hph as <-.
  rewrite O2, O1 in Hh. rewrite O4, O3, O2, O1. unfold sign_with_session_key in S2. rewrite O1 in S2.
  clear -I1 I2 I3 I4 I5 I6 I7 I8 I9 W1 S1 Hpw Hd Hv Hrw W2 S2 W3 Hh H0. subst h. split; [|split; [done|]].
  - destruct Hpw as (Hp1 & Hp2 & _). pose proof I8 as (J1 & J2 & J3 & J4 & J5 & J6 & J7 & J8 & J9).
    destruct Hrw as (R1 & R2 & R3 & R4). rewrite I2 in J1. rewrite I3 in J2. rewrite I5 in J4. rewrite I6 in J5.
    refine (conj R1 (conj J1 (conj J2 (conj Hp1 (conj Hp2 (conj J4 (conj J5 (conj I9 (conj Hd (conj I8
      (conj (conj R1 (conj R2 (conj R3 R4))) (ed_sign_array _ _)))))))))))).
  - apply (header_bindings_ok _ input1 input2 input3 (AuditIdentity.signing_key (identity (own s))) (session_key (own s)));
      try done; cbn [AuditContainerHeader.audit_hello AuditContainerHeader.audit_ready AuditContainerHeader.new
        AuditContainerHeader.with_header_signature]; by rewrite ?S1, ?S2.
Qed.

(** ** The manifest evidence *)

(** The two session keys of the header sign the manifest. *)
Definition signed_by (key : Ed25519PublicKey) (m : JointManifest.t) (sig : ManifestSignature.t) : Prop :=
  exists input, (WireBytes.as_slice <$> JointManifest.signing_input m) = Ok input /\
    verify_ed25519 key input (ManifestSignature.signature sig) = true.

(** What the verifier holds once [m] was sent: [m] and this side's signature, and either
    nothing of the peer or the same manifest with the peer's signature. *)
Record exchanged (h : AuditContainerHeader.t) (m : JointManifest.t) (M : VManifests) : Prop := {
  ex_wf : manifest_wf m;
  ex_sent : manifest_evidence M = Some (concat (manifest_fields m));
  ex_signed : exists sig, sent_manifest_signature M = Some sig /\
    signed_by (AuditContainerHeader.session_pubkey h) m sig;
  ex_received : (received_manifest_evidence M = None /\ received_manifest_signature M = None) \/
    (received_manifest_evidence M = Some (concat (manifest_fields m)) /\
     exists sig, received_manifest_signature M = Some sig /\
       signed_by (AuditContainerHeader.peer_session_pubkey h) m sig);
}.

Definition evidence_of (h : AuditContainerHeader.t) (sent : option JointManifest.t) (M : VManifests) : Prop :=
  match sent with None => M = no_manifests | Some m => exchanged h m M end.

Lemma wire_or_protocol_ok (r : res ProtocolError WireBytes.t) input :
  wire_or_protocol (IoError:=IoError) r = Ok input -> (WireBytes.as_slice <$> r) = Ok input.
Proof. unfold wire_or_protocol. destruct (_ <$> r); [by intros [= ->]|done..]. Qed.

Lemma own_signed M s v m sig :
  static_ok (IoError:=IoError) (HM:=M) s v -> own_signature (IoError:=IoError) s m sig ->
  signed_by (AuditContainerHeader.session_pubkey (v_header v)) m sig.
Proof.
  intros Hst (input & Hin%wire_or_protocol_ok & ->). exists input. split; [done|].
  unfold verify_ed25519. rewrite (so_key _ _ Hst). apply ed_sign_verifies.
Qed.

Lemma peer_signed M s v m sig :
  static_ok (IoError:=IoError) (HM:=M) s v -> peer_signature (IoError:=IoError) s m sig ->
  signed_by (AuditContainerHeader.peer_session_pubkey (v_header v)) m sig.
Proof.
  intros Hst (ph & input & Hph & Hin%wire_or_protocol_ok & Hv). exists input. split; [done|].
  destruct (so_peer _ _ Hst) as (ph' & Hph' & _ & ->). rewrite Hph in Hph'. by apply (inj Some) in Hph' as <-.
Qed.

(** The observer sends its manifest once. *)
Definition sends_manifest (o : op) : bool := match o with SendManifest _ _ => true | _ => false end.

Fixpoint one_manifest (ops : list (op * Z)) : Prop :=
  match ops with
  | [] => True
  | (o, _) :: ops =>
    (if sends_manifest o then Forall (fun o => sends_manifest o.1 = false) ops else one_manifest ops)
  end.

Lemma apply_op_evidence o now p M p' M' v batch :
  good (IoError:=IoError) M p v -> is_u64 now -> op_wf o -> apply_op (IoError:=IoError) o now p = (Ok batch, p') ->
  held_step (IoError:=IoError) o p p' M M' -> good_after (IoError:=IoError) M' v batch p' ->
  evidence_of (v_header v) p.2 M -> (sends_manifest o = true -> p.2 = None) ->
  evidence_of (v_header v) p'.2 M'.
Proof.
  intros Hg Hn Ho Hr Hst (l & v' & _ & Hrun & Hg') Hev Hone.
  pose proof (proj1 (process_frames_setting _ _ _ _ Hrun)) as Hh.
  destruct o; cbn [held_step sends_manifest] in *; try (destruct Hst as [-> ->]; exact Hev).
  - destruct Hst as (m & sig & Hp & -> & Hsig & _). rewrite Hp. rewrite Hone in Hev by done. cbn [evidence_of] in Hev. subst M.
    split; try done; [by apply (gd_manifest _ _ _ Hg')|exists sig; split; [done|]|by left].
    rewrite <- Hh. eapply own_signed; [apply (fo_static _ _ (gd_follows _ _ _ Hg'))|done].
  - destruct Hst as (m & Hp & Hp' & -> & Hsig). rewrite Hp in Hev. rewrite Hp'. destruct Hev as [E1 E2 E3 _].
    split; try done. right. split; [done|]. exists signature. split; [done|].
    rewrite <- Hh. eapply peer_signed; [apply (fo_static _ _ (gd_follows _ _ _ Hg'))|done].
Qed.

(** [run_ops_sim] with the evidence. *)
Lemma run_ops_evidence ops M p v batch p' :
  good (IoError:=IoError) M p v -> Forall (fun o => op_wf o.1 /\ is_u64 o.2) ops -> run_ops (IoError:=IoError) ops p = (Ok batch, p') ->
  evidence_of (v_header v) p.2 M ->
  match p.2 with None => one_manifest ops | Some _ => Forall (fun o => sends_manifest o.1 = false) ops end ->
  exists M' l v', frames batch l /\ process_frames (IoError:=IoError) l v = (Ok tt, v') /\ good (IoError:=IoError) M' p' v' /\
    evidence_of (v_header v') p'.2 M'.
Proof.
  revert M p v batch. induction ops as [|[o now] ops IH]; intros M p v batch Hg Hops Hr Hev Hone; cbn in Hr.
  - apply stm_ret_ok in Hr as [-> ->]. by exists M, [], v.
  - apply Forall_cons in Hops as [[Ho Hn] Hops].
    apply stm_bind_ok in Hr as (b1 & p1 & H1 & Hr). apply stm_bind_ok in Hr as (b2 & p2 & H2 & [-> ->]%stm_ret_ok).
    destruct (apply_op_sim _ _ _ _ _ _ _ Hg Hn Ho H1) as (M1 & Hst & Hga).
    assert (sends_manifest o = true -> p.2 = None) as Hfirst.
    { intros Hs. destruct (p.2); [|done]. apply Forall_cons in Hone as [Hone _]. cbn in Hone. by rewrite Hs in Hone. }
    pose proof (apply_op_evidence _ _ _ _ _ _ _ _ Hg Hn Ho H1 Hst Hga Hev Hfirst) as Hev1.
    destruct Hga as (l1 & v1 & Hl1 & Hrun1 & Hg1).
    pose proof (proj1 (process_frames_setting _ _ _ _ Hrun1)) as Hh. rewrite <- Hh in Hev1.
    destruct (IH _ _ _ _ Hg1 Hops H2 Hev1) as (M2 & l2 & v2 & Hl2 & Hrun2 & Hg2 & Hev2).
    { destruct (p.2) as [m|] eqn:Hp.
      - apply Forall_cons in Hone as [_ Hone]. destruct (p1.2); [done|]. clear -Hone.
        induction Hone as [|[o z] ops Ho Hops IH]; [done|]. cbn in *. by rewrite Ho.
      - cbn [one_manifest] in Hone. destruct o; cbn [sends_manifest held_step] in *;
          try (by rewrite (proj1 Hst), Hp); [destruct Hst as (? & ? & -> & _); done|].
        destruct Hst as (? & Hx & _). by rewrite Hp in Hx. }
    exists M2, (l1 ++ l2), v2. split_and!; [by apply frames_app| |done..].
    exact (eq_trans (process_frames_app _ _ _ _ Hrun1) Hrun2).
Qed.

Lemma evidence_signature_ok key m sig :
  manifest_wf m -> signed_by key m sig ->
  check_evidence_signature (IoError:=IoError) key (concat (manifest_fields m)) sig = Ok tt.
Proof.
  intros Hm (input & Hin & Hv). unfold check_evidence_signature. rewrite (fl_dec _ _ _ _ _ manifest_layout m Hm).
  cbn [map_err mbind res_bind]. rewrite Hin. cbn [map_err mbind res_bind]. by rewrite Hv.
Qed.

(** The evidence of a run passes the file's last check. *)
Lemma manifest_evidence_verifies {Path} (f : VerifiedFile Path) sent :
  evidence_of (vf_header f) sent (vf_manifests f) -> verify_manifest_evidence (IoError:=IoError) f = Ok tt.
Proof.
  unfold verify_manifest_evidence. destruct sent as [m|]; cbn [evidence_of]; [|by intros ->].
  intros [Hm -> (sig & -> & Hs) Hrec]. destruct Hrec as [[-> ->]|(-> & sig' & -> & Hs')]; cbn [mbind res_bind].
  - by rewrite evidence_signature_ok.
  - unfold check at 1. rewrite bool_decide_true by done. cbn [mbind res_bind].
    rewrite evidence_signature_ok by done. cbn [mbind res_bind ok_or]. by rewrite evidence_signature_ok.
Qed.

(** ** The file of a session *)

(** A session that was made, completed its handshake and recorded any sequence of operations:
    the header it wrote, its batches, and what it has become. *)
Definition recorded (header : AuditContainerHeader.t) (batch : RecordBatch) (s : st)
    (sent : option JointManifest.t) : Prop :=
  exists role identity ledger binding utc nonce contribution seed s0 peer_hello peer_contribution digest
    peer_ready s1 ops,
  new_from (IoError:=IoError) role identity ledger binding utc nonce contribution seed = Ok s0 /\
  is_array NONCE_LEN nonce /\ FixedBytes.wf binding /\ is_u64 utc /\
  (forall n root, snapshot (IoError:=IoError) ledger = Ok (n, root) -> is_u64 n /\ FixedBytes.wf root) /\
  hello_wf peer_hello /\ FixedBytes.wf digest /\
  handshake (IoError:=IoError) peer_hello peer_contribution digest peer_ready s0 = (Ok header, s1) /\
  Forall (fun o => op_wf o.1 /\ is_u64 o.2) ops /\ one_manifest ops /\
  run_ops (IoError:=IoError) ops (s1, None) = (Ok batch, (s, sent)).

(** What the file's verifier knows at the end of the records. *)
Lemma recorded_frames header batch s sent :
  recorded header batch s sent ->
  header_wf header /\
  check_header_bindings (IoError:=IoError) header (AuditContainerHeader.audit_hello header) = Ok tt /\
  exists M l v, frames batch l /\
    process_frames (IoError:=IoError) l (new_verifier header (AuditContainerHeader.audit_hello header)) = (Ok tt, v) /\
    good (IoError:=IoError) M (s, sent) v /\ evidence_of header sent M /\
    v_header v = header /\ v_hello v = AuditContainerHeader.audit_hello header.
Proof.
  intros (role & identity & ledger & binding & utc & nonce & contribution & seed & s0 & ph & pc & digest & pr & s1 & ops &
    Hnew & Hnonce & Hbind & Hutc & Hsnap & Hpw & Hd & Hhs & Hops & Hone & Hrun).
  pose proof (new_from_introduced _ _ _ _ _ _ _ _ _ Hnew Hnonce Hbind Hutc Hsnap) as Hin.
  destruct (handshake_header _ _ _ _ _ _ _ Hin Hpw Hd Hhs) as (Hh & Heq & Hck). split_and!; [done..|].
  destruct (new_from_fresh _ _ _ _ _ _ _ _ _ Hnew) as (Hfresh & E1 & E2).
  pose proof (handshake_good _ _ _ _ _ _ _ Hfresh ltac:(by rewrite E1) ltac:(apply identity_print_wf)
    ltac:(apply Hpw) Hd Hhs) as Hg.
  rewrite <- Heq in Hg.
  destruct (run_ops_evidence _ _ _ _ _ _ Hg Hops Hrun eq_refl Hone) as (M & l & v & Hl & Hp & Hg' & Hev).
  destruct (process_frames_setting _ _ _ _ Hp) as [E3 E4]. rewrite E3 in Hev. by exists M, l, v.
Qed.

(** The tails a crash can leave of the next record: nothing, or a part of a legal frame. *)
Definition cut_record (tail : list Z) (k : Z) : Prop :=
  exists r, record_wf r /\ 0 < k < zlen (frame_bytes r) /\ tail = prefix_of (frame_bytes r) k.
End FileRun.

Section FileTheorems.
Context {IoError Path : Type} `{AuditCryptoLaws} {L : Type} `{!Ledger (IoError:=IoError) L} `{!RecordFiles IoError Path}.
Local Notation st := (session AuditIdentity.t L).
Implicit Types (s : st).

(** The verified file of a walk that ended without a footer. *)
Lemma finish_walk_ok M s sent v tr (path : Path) :
  good (IoError:=IoError) M (s, sent) v ->
  exists f, finish_walk (IoError:=IoError) v tr path = Ok f /\ vf_header f = v_header v /\ vf_hello f = v_hello v /\
    vf_manifests f = M /\ vf_shared f = shared (chains s) /\ vf_local_head f = local_head (chains s) /\
    vf_local_count f = local_count (chains s) /\ vf_footer f = None /\ vf_truncated_tail f = tr /\
    last_confirmed_sent (v_points v) = vf_last_confirmed_sent f /\
    last_confirmed_received (v_points v) = vf_last_confirmed_received f.
Proof.
  intros [[[H1 H2 H3 _ _ H4 H5] _ _ Hst _] _]. cbn [fst] in *. unfold finish_walk, run. rewrite (flush_ok v) by done.
  cbn [mbind res_bind]. eexists. split; [done|]. cbn. split_and!; try done. apply (so_manifests _ _ Hst).
Qed.

Lemma recorded_walk (path : Path) header batch s sent l tail w :
  recorded (IoError:=IoError) header batch s sent -> batch_frames (E:=AuditError (IoError:=IoError)) batch = Ok l -> Forall record_wf l ->
  next_frame (IoError:=IoError) (walker_at (zlen (interrupted header l)) tail false) = (Ok None, w) ->
  open_file path = Ok (interrupted header l ++ tail) ->
  exists f, vf_header f = header /\ vf_shared f = shared (chains s) /\ vf_local_head f = local_head (chains s) /\
    vf_local_count f = local_count (chains s) /\ vf_footer f = None /\
    evidence_of header sent (vf_manifests f) /\
    walk_file (IoError:=IoError) path =
      (verified ← walk_footer path w f; _ ← verify_manifest_evidence verified; Ok verified).
Proof.
  intros (Hh & Hck & M & l' & v & Hl' & Hp & Hg & Hev & E1 & E2)%recorded_frames Hl Hrs Hend Ho.
  rewrite (Hl' _) in Hl. apply ok_inj in Hl as ->.
  rewrite (walk_file_frames _ _ _ _ _ _ Hh Hck Hrs Hp Hend Ho).
  destruct (finish_walk_ok M s sent v (FrameWalker.truncated_tail w) path Hg) as (f & -> & F1 & F2 & F3 & F4 & F5 & F6 & F7 & _).
  cbn [mbind res_bind]. exists f. by rewrite F3, F1.
Qed.

(** C14: A record file that was interrupted verifies.  Of a session that was made, completed
    its handshake and recorded any sequence of operations (its manifest sent at most once),
    the file holds the header and the frames of all batches, followed by nothing or by a
    part of one more frame (up to 1136 bytes of it), as a crash or a lost disk leaves it.
    [walk_file] accepts that file: the header bindings and all three header signatures, every
    record, every batch and the manifest evidence pass, the chains and the count it ends with
    are the session's own, and it reports an interrupted file without a footer. *)
Theorem interrupted_file_verifies (path : Path) header batch s sent l tail k :
  recorded (IoError:=IoError) header batch s sent ->
  batch_frames (E:=AuditError (IoError:=IoError)) batch = Ok l -> Forall record_wf l ->
  tail = [] \/ (cut_record tail k /\ k <= 1136) ->
  open_file path = Ok (interrupted header l ++ tail) ->
  exists f, walk_file (IoError:=IoError) path = Ok f /\ vf_header f = header /\
    vf_shared f = shared (chains s) /\ vf_local_head f = local_head (chains s) /\
    vf_local_count f = local_count (chains s) /\ vf_footer f = None /\ vf_truncated_tail f = true.
Proof.
  intros Hrec Hl Hrs Htail Ho. pose proof (zlen_nonneg (frames_bytes l)) as Hlen.
  pose proof Hrec as (Hh & _)%recorded_frames. destruct (header_bytes_facts header Hh) as [_ Hhl].
  assert (exists pos part tr, next_frame (IoError:=IoError) (walker_at (zlen (interrupted header l)) tail false)
    = (Ok None, walker_at pos part tr) /\ zlen (interrupted header l) <= pos /\ bytes part /\ zlen part < 1132)
    as (pos & part & tr & Hend & Hpos & Hb & Hz).
  { destruct Htail as [->|[(r & Hr & Hk & ->) Hle]].
    - exists (zlen (interrupted header l)), [], false. by rewrite next_frame_none.
    - destruct (next_frame_part (IoError:=IoError) (zlen (interrupted header l)) r k false Hr Hk)
        as (pos & part & tr & Hend & Hpos & Hb & _ & Hz). exists pos, part, tr. split_and!; try done.
      destruct (Z.ltb_spec k 5); lia. }
  destruct (recorded_walk path _ _ _ _ _ _ _ Hrec Hl Hrs Hend Ho) as (f & F1 & F2 & F3 & F4 & F5 & Hev & ->).
  unfold interrupted in Hpos. rewrite zlen_app in Hpos.
  rewrite walk_footer_short by (done || lia). cbn [mbind res_bind].
  rewrite (manifest_evidence_verifies _ sent) by (by cbn; rewrite F1). cbn [mbind res_bind].
  eexists. by split_and!.
Qed.

(** C39: A record that is cut off late is reported as tampering.  When the file of such a
    session ends in a part of a frame of which more than 1132 payload bytes were written,
    [walk_file] takes the payload for a footer and fails with "the audit container has
    trailing bytes", although the file is the prefix of a valid recording. *)
Theorem truncated_record_misreported (path : Path) header batch s sent l tail k :
  recorded (IoError:=IoError) header batch s sent ->
  batch_frames (E:=AuditError (IoError:=IoError)) batch = Ok l -> Forall record_wf l ->
  cut_record tail k -> 1137 < k ->
  open_file path = Ok (interrupted header l ++ tail) ->
  walk_file (IoError:=IoError) path = Err (Tampered "the audit container has trailing bytes").
Proof.
  intros Hrec Hl Hrs (r & Hr & Hk & ->) Hbig Ho. pose proof (zlen_nonneg (frames_bytes l)) as Hlen.
  pose proof Hrec as (Hh & _)%recorded_frames. destruct (header_bytes_facts header Hh) as [_ Hhl].
  destruct (next_frame_part (IoError:=IoError) (zlen (interrupted header l)) r k false Hr Hk)
    as (pos & part & tr & Hend & Hpos & Hb & _ & Hz).
  destruct (recorded_walk path _ _ _ _ _ _ _ Hrec Hl Hrs Hend Ho) as (f & _ & _ & _ & _ & _ & _ & ->).
  unfold interrupted in Hpos. rewrite zlen_app in Hpos. destruct (Z.ltb_spec k 5); [lia|].
  by rewrite walk_footer_long by lia.
Qed.
End FileTheorems.
