(* ===== verification/FinishedFile.v ===== *)
(** * Finished record files verify

    A session that ends normally exchanges manifests, seals its record, commits it to the
    ledger and so writes the footer ([finalize_footer]).  [walk_file] accepts the finished
    file: the footer it reads is the one written, and the manifest, both signatures, the
    seal, the commit and the three digests all check. *)

From stdpp Require Import strings.
From S2P Require Import Prelude Domain Codec Layout WireAudit AuditCodecs AuditContainer AuditSigning ContainerCodecs AuditWriter Stateful AuditEvents AuditSession AuditNormalize ChainVerifier AuditTrace AuditSimulation AuditControlSim AuditPointSim AuditCloseSim AuditRun AuditIdentity FileVerifier FileDigests FileWalk VerifierSteps FileRun.
Open Scope string_scope.
Open Scope list_scope.
Open Scope Z_scope.

Section Footer.
Context {IoError Path : Type} `{AuditCryptoLaws} `{!RecordFiles IoError Path}.
Implicit Types (ft : AuditContainerFooter.t) (f : VerifiedFile Path).

(** What the verifier reads of a footer that starts at [start]. *)
Definition facts_of (start : Z) ft (d : Digest32) : FooterFacts :=
  footer_facts start (decoded_of ft d 0) (manifest_part ft).

Lemma check_true b m : b = true -> check (IoError:=IoError) b m = Ok tt.
Proof. by intros ->. Qed.

(** ** The walk up to the footer *)

(** What follows the magic. *)
Definition footer_rest ft (d : Digest32) : list Z := drop 4 (footer_prefix ft ++ raw d).

Lemma footer_rest_eq ft d :
  footer_wf ft -> FixedBytes.wf d ->
  footer_prefix ft ++ raw d = FOOTER_MAGIC ++ footer_rest ft d /\ zlen (footer_rest ft d) = 1132.
Proof.
  intros Hf [_ Hdl]. change (zlen (raw d) = 32) in Hdl. destruct (footer_lens ft Hf) as (_ & _ & Hl & _).
  assert (footer_prefix ft ++ raw d = FOOTER_MAGIC ++ footer_rest ft d) as Heq.
  { unfold footer_rest, footer_prefix, sealed_record, sealed_prefix. by rewrite <- !app_assoc. }
  split; [done|]. apply (f_equal zlen) in Heq. rewrite !zlen_app in Heq. change (zlen FOOTER_MAGIC) with 4 in Heq. lia.
Qed.

Lemma walk_footer_finalised path pos ft d tr f :
  footer_wf ft -> FixedBytes.wf d -> 4 <= pos ->
  walk_footer (IoError:=IoError) path (walker_at (pos + 4) (footer_rest ft d) tr) f =
    (footer ← verify_footer path f (facts_of pos ft d); Ok (set_tail (Some footer) (vf_truncated_tail f) f)).
Proof.
  intros Hf Hd Hp. pose proof (decode_footer_eq ft d Hf Hd) as Hdec.
  destruct (footer_rest_eq ft d Hf Hd) as [Heq Hr]. rewrite Heq in Hdec.
  unfold walk_footer, footer_start. cbn [walker_at FrameWalker.pos FrameWalker.len]. unfold RECORD_FRAME_HEADER_LEN.
  rewrite (proj2 (Z.leb_le 4 (pos + 4))) by lia. replace (pos + 4 - 4) with pos by lia.
  replace (pos + 4 + zlen (footer_rest ft d) - pos - 4) with (zlen (footer_rest ft d)) by lia.
  change (MAX_FOOTER_PREFIX_LEN - zlen FOOTER_MAGIC + CONTAINER_DIGEST_LEN) with 1132.
  rewrite (proj2 (Z.ltb_ge _ _)) by lia. unfold run. rewrite <- (app_nil_r (footer_rest ft d)) at 2.
  change (FrameWalker.Mk _ _ _ _) with (walker_at (pos + 4) (footer_rest ft d ++ []) tr). rewrite read_exact_app by done.
  cbn [mbind res_bind]. rewrite Hdec. destruct Hf as (Hm & _). cbn [decoded_of DecodedFooter.footer].
  destruct (embedded_payload _ _ _ _ _ _ manifest_layout Hm) as (wb & -> & Hwb).
  cbn [fmap res_fmap map_err mbind res_bind]. by rewrite Hwb.
Qed.

Lemma walk_file_finalised path h rs ft d v :
  header_wf h -> check_header_bindings (IoError:=IoError) h (AuditContainerHeader.audit_hello h) = Ok tt ->
  Forall record_wf rs ->
  process_frames (IoError:=IoError) rs (new_verifier h (AuditContainerHeader.audit_hello h)) = (Ok tt, v) ->
  footer_wf ft -> FixedBytes.wf d ->
  open_file path = Ok (finalised h rs ft d) ->
  walk_file (IoError:=IoError) path =
    (verified ← finish_walk v false path;
     footer ← verify_footer path verified (facts_of (zlen (interrupted h rs)) ft d);
     let verified := set_tail (Some footer) (vf_truncated_tail verified) verified in
     _ ← verify_manifest_evidence verified;
     Ok verified).
Proof.
  intros Hh Hb Hrs Hp Hf Hd Ho. pose proof (zlen_nonneg (frames_bytes rs)).
  destruct (header_bytes_facts h Hh) as [_ Hl]. destruct (footer_rest_eq ft d Hf Hd) as [Heq Hr].
  unfold finalised in Ho. rewrite Heq in Ho.
  rewrite (walk_file_frames path h rs _ v _ Hh Hb Hrs Hp (next_frame_magic _ (footer_rest ft d) false ltac:(lia)) Ho).
  cbn [walker_at FrameWalker.truncated_tail]. destruct (finish_walk v false path) as [f| |]; [|done..].
  cbn [mbind res_bind]. rewrite walk_footer_finalised by (done || unfold interrupted; rewrite zlen_app; lia).
  by destruct (verify_footer path f _).
Qed.

(** ** The digests *)

(** The footer's digests, read back from the file it ends. *)
Lemma prefix_digests_finalised path h rs ft d :
  footer_wf ft -> FixedBytes.wf d -> open_file path = Ok (finalised h rs ft d) ->
  compute_prefix_digests path (facts_of (zlen (interrupted h rs)) ft d) =
  Ok (Digests (sha256 (interrupted h rs ++ sealed_prefix ft)) (sha256 (interrupted h rs ++ sealed_record ft))
        (sha256 (interrupted h rs ++ footer_prefix ft))).
Proof.
  intros Hf Hd Ho. destruct (footer_lens ft Hf) as (L1 & L2 & L3 & _). pose proof (zlen_nonneg (interrupted h rs)).
  pose proof (zlen_nonneg (raw d)).
  rewrite (compute_prefix_digests_eq path _ _ Ho);
    unfold facts_of, footer_facts, decoded_of; cbn [ff_sealed_prefix_end ff_seal_end ff_ledger_end
      DecodedFooter.sealed_prefix_end DecodedFooter.seal_end DecodedFooter.ledger_end]; [|lia..].
  rewrite (proj2 (Z.leb_le _ _)) by (unfold finalised; rewrite !zlen_app; lia).
  unfold prefix_of, finalised. rewrite !Z.add_0_l. do 2 f_equal.
  all: rewrite <- zlen_app; f_equal; unfold footer_prefix, sealed_record; rewrite <- ?app_assoc.
  - rewrite app_assoc. by apply take_zlen_app.
  - rewrite !(app_assoc (interrupted h rs)), (app_assoc _ (prefixed (seal_part ft))). by apply take_zlen_app.
  - rewrite !(app_assoc (interrupted h rs)), !app_assoc. by apply take_zlen_app.
Qed.
End Footer.

(** ** Writing the footer *)

Section Writing.
Context {IoError : Type} `{AuditCryptoLaws} {L : Type} `{!Ledger (IoError:=IoError) L}
  {F : Type} `{!AsyncFile (IoError:=IoError) F} `{!AsyncFileLaws (IoError:=IoError) F}.
Local Notation st := (session AuditIdentity.t L).
Local Notation err := (AuditError (IoError:=IoError)).
Local Notation writer := (task (IoError:=IoError) (F:=F)).
Implicit Types (s : st) (w : writer) (ft : AuditContainerFooter.t).

Lemma in_session_ok {A} (m : stm st err A) s w a p' :
  in_session (F:=F) m (s, w) = (Ok a, p') -> exists s', m s = (Ok a, s') /\ p' = (s', w).
Proof. unfold in_session, zoom. cbn [fst snd]. destruct (m s) as [r s'] eqn:Hm. intros [= -> <-]. by exists s'. Qed.

(** An acknowledged request, and the digest it was answered with. *)
Lemma ask_digest_ok request s w b d p' :
  ask_digest (F:=F) request (s, w) = (Ok d, p') -> holds w b -> (forall r, request = Ok r -> request_wf r) ->
  exists r w', request = Ok r /\ p' = (s, w') /\ holds w' (b ++ emit sha256 b r) /\
    d = FixedBytes.new (sha256 (b ++ emit sha256 b r)).
Proof.
  unfold ask_digest, ask. intros Hr Hb Hwf. apply stm_bind_ok in Hr as (reply & p1 & Hr & Hd).
  apply stm_bind_ok in Hr as (r & p2 & [-> ->]%lift_ok & Hr). specialize (Hwf _ eq_refl). cbn [snd fst] in Hr.
  pose proof (serve_ok sha256 w r b Hb Hwf) as Hs. destruct (serve sha256 w r) as [y w'] eqn:Hsv.
  apply (f_equal fst) in Hr as Hy. apply (f_equal snd) in Hr as Hp. cbn [fst snd] in *. apply ok_inj in Hy as ->. subst p1.
  destruct y as [q|q]; [by apply lift_ok in Hd as [? _]|]. apply lift_ok in Hd as [-> ->].
  destruct (Hs eq_refl) as [Hh Hdg]. exists r, w'. split_and!; try done.
  cbn in Hdg. destruct (wants_digest r); [|discriminate Hdg]. by apply (f_equal head), (inj Some) in Hdg.
Qed.

Lemma ask_unit_ok request s w b u p' :
  ask_unit (F:=F) request (s, w) = (Ok u, p') -> holds w b -> (forall r, request = Ok r -> request_wf r) ->
  exists r w', request = Ok r /\ p' = (s, w') /\ holds w' (b ++ emit sha256 b r).
Proof.
  unfold ask_unit, ask. intros Hr Hb Hwf. apply stm_bind_ok in Hr as (reply & p1 & Hr & Hd).
  apply stm_bind_ok in Hr as (r & p2 & [-> ->]%lift_ok & Hr). specialize (Hwf _ eq_refl). cbn [snd fst] in Hr.
  pose proof (serve_ok sha256 w r b Hb Hwf) as Hs. destruct (serve sha256 w r) as [y w'] eqn:Hsv.
  apply (f_equal fst) in Hr as Hy. apply (f_equal snd) in Hr as Hp. cbn [fst snd] in *. apply ok_inj in Hy as ->. subst p1.
  destruct y as [q|q]; [|by apply lift_ok in Hd as [? _]]. apply lift_ok in Hd as [-> ->].
  destruct (Hs eq_refl) as [Hh _]. by exists r, w'.
Qed.

(** The footer that a session writes for the manifest of its footer into a file that holds
    [b] so far. *)
Record footer_of (s : st) (b : list Z) ft : Prop := {
  fo_seal_session : session_id (peer s) = Some (LocalRecordSeal.session_id (AuditContainerFooter.seal ft));
  fo_seal_role : LocalRecordSeal.role (AuditContainerFooter.seal ft) = role (own s);
  fo_seal_local : LocalRecordSeal.final_local_event_root (AuditContainerFooter.seal ft) = local_head (chains s);
  fo_seal_count : LocalRecordSeal.local_event_count (AuditContainerFooter.seal ft) = local_count (chains s);
  fo_seal_shared : LocalRecordSeal.final_shared_roots (AuditContainerFooter.seal ft)
    = stream_list (stream_map chain_head (shared (chains s)));
  fo_seal_manifest : LocalRecordSeal.joint_manifest_digest (AuditContainerFooter.seal ft) = FixedBytes.new (sha256 (manifest_part ft));
  fo_seal_prefix : LocalRecordSeal.sealed_prefix_digest (AuditContainerFooter.seal ft) = FixedBytes.new (sha256 (b ++ sealed_prefix ft));
  fo_seal_signed : exists input,
    wire (E:=StreamError IoError) (LocalRecordSeal.signing_input (AuditContainerFooter.seal ft)) = Ok input /\
    LocalRecordSeal.signature (AuditContainerFooter.seal ft) = sign_with_session_key s input;
  fo_commit_session : session_id (peer s) = Some (LedgerCommit.session_id (AuditContainerFooter.ledger_commit ft));
  fo_commit_manifest : LedgerCommit.manifest_digest (AuditContainerFooter.ledger_commit ft) = FixedBytes.new (sha256 (manifest_part ft));
  fo_commit_record : LedgerCommit.sealed_record_digest (AuditContainerFooter.ledger_commit ft) = FixedBytes.new (sha256 (b ++ sealed_record ft));
  fo_commit_signed : exists input,
    wire (E:=StreamError IoError) (LedgerCommit.signing_input (AuditContainerFooter.ledger_commit ft)) = Ok input /\
    LedgerCommit.signature (AuditContainerFooter.ledger_commit ft) = AuditIdentity.sign (identity (own s)) input;
}.

(** What the ledger promises: sequence numbers are 64-bit, roots are digests. *)
Definition ledger_bounded : Prop :=
  forall (l l' : L) n root, begin_commit (IoError:=IoError) l = (Ok (n, root), l') -> is_u64 n /\ FixedBytes.wf root.

Lemma build_seal_eq d1 d2 s seal :
  build_seal (IoError:=IoError) d1 d2 s = Ok seal ->
  exists sid input, session_id (peer s) = Some sid /\
    wire (E:=StreamError IoError) (LocalRecordSeal.signing_input seal) = Ok input /\
    seal = LocalRecordSeal.with_signature (LocalRecordSeal.new sid (role (own s)) (local_head (chains s))
             (local_count (chains s)) (stream_list (stream_map chain_head (shared (chains s)))) d2 d1 zero_signature)
             (sign_with_session_key s input).
Proof.
  unfold build_seal. intros Hr. destruct (session_id (peer s)) as [sid|]; [|discriminate Hr].
  cbn [expect_some mbind res_bind] in Hr. cbv zeta in Hr. destruct (wire _) as [input| |] eqn:Hin; [|discriminate Hr..].
  cbn [mbind res_bind] in Hr. apply ok_inj in Hr as ->. exists sid, input. split_and!; try done. by apply (wire_any (E:=err)).
Qed.

Lemma build_commit_eq n root d1 d2 s commit s' :
  build_ledger_commit (IoError:=IoError) n root d1 d2 s = (Ok commit, s') ->
  s' = s /\ exists sid pf input, session_id (peer s) = Some sid /\ peer_fingerprint (peer s) = Some pf /\
    wire (E:=StreamError IoError) (LedgerCommit.signing_input commit) = Ok input /\
    commit = LedgerCommit.with_signature (LedgerCommit.new n root sid d1 d2 pf SessionResult.Normal zero_signature)
               (AuditIdentity.sign (identity (own s)) input).
Proof.
  unfold build_ledger_commit. intros Hr. apply stm_bind_ok in Hr as (sid & ? & [-> Hsid]%required_run & Hr).
  apply stm_bind_ok in Hr as (pf & ? & [-> Hpf]%required_run & Hr).
  apply stm_bind_ok in Hr as (i & ? & [-> ->]%gets_ok & Hr).
  apply stm_bind_ok in Hr as (input & ? & [Hin ->]%lift_ok & Hr).
  apply stm_bind_ok in Hr as (sig & ? & [Hsig ->]%lift_ok & [-> ->]%stm_ret_ok). split; [done|].
  cbn [sign IdentityAdapter] in Hsig. apply ok_inj in Hsig as ->. exists sid, pf, input. split_and!; try done.
  by apply (wire_any (E:=err)).
Qed.

(** The requests of the three components. *)
Lemma manifest_request_eq m c h :
  manifest_wf m -> FixedBytes.wf (ManifestSignature.signature c) -> FixedBytes.wf (ManifestSignature.signature h) ->
  manifest_request m c h = Ok (WriteManifestAndSignatures (concat (manifest_fields m))
    (raw (ManifestSignature.signature c)) (raw (ManifestSignature.signature h))).
Proof.
  intros Hm Hc Hh. unfold manifest_request.
  destruct (embedded_payload _ _ _ _ _ _ manifest_layout Hm) as (w1 & -> & Hw1).
  destruct (embedded_payload _ _ _ _ _ _ manifest_signature_layout Hc) as (w2 & -> & Hw2).
  destruct (embedded_payload _ _ _ _ _ _ manifest_signature_layout Hh) as (w3 & -> & Hw3).
  cbn [mbind res_bind concat] in *. rewrite app_nil_r in Hw2, Hw3. by rewrite Hw1, Hw2, Hw3.
Qed.

Lemma seal_request_eq seal : seal_wf seal -> seal_request seal = Ok (WriteSeal (concat (seal_fields seal))).
Proof.
  intros Hs. unfold seal_request. destruct (embedded_payload _ _ _ _ _ _ seal_layout Hs) as (w1 & -> & Hw1).
  cbn [mbind res_bind]. by rewrite Hw1.
Qed.

Lemma commit_request_eq c : ledger_wf c -> commit_request c = Ok (WriteLedgerCommit (concat (ledger_fields c))).
Proof.
  intros Hs. unfold commit_request. destruct (embedded_payload _ _ _ _ _ _ ledger_layout Hs) as (w1 & -> & Hw1).
  cbn [mbind res_bind]. by rewrite Hw1.
Qed.

(** A session's chains make legal roots. *)
Lemma roots_of_chains c : chains_ok c -> roots_wf (stream_list (stream_map chain_head (shared c))).
Proof.
  intros Hc. pose proof (shared_ok _ Hc) as Hs. eexists _, _, _, _. split; [done|].
  exact (conj (proj2 (Hs SharedStream.Input)) (conj (proj2 (Hs SharedStream.Output))
    (conj (proj2 (Hs SharedStream.Control)) (proj2 (Hs SharedStream.FileTransfer))))).
Qed.

Lemma write_footer_prefix_run m own_sig peer_sig s w b pending p' :
  write_footer_prefix (F:=F) m own_sig peer_sig (s, w) = (Ok pending, p') -> holds w b ->
  manifest_wf m -> FixedBytes.wf (ManifestSignature.signature own_sig) ->
  FixedBytes.wf (ManifestSignature.signature peer_sig) -> chains_ok (chains s) ->
  (forall sid, session_id (peer s) = Some sid -> FixedBytes.wf sid) ->
  exists w' seal controller host sid input, p' = (s, w') /\ phase s = Finalizing /\
    by_role (role (own s)) own_sig peer_sig = (controller, host) /\ seal_wf seal /\ session_id (peer s) = Some sid /\
    wire (E:=StreamError IoError) (LocalRecordSeal.signing_input seal) = Ok input /\
    forall commit, let ft := AuditContainerFooter.Mk m controller host seal commit in
      holds w' (b ++ sealed_record ft) /\
      pending = Pending (FixedBytes.new (sha256 (manifest_part ft))) (FixedBytes.new (sha256 (b ++ sealed_record ft))) /\
      seal = LocalRecordSeal.with_signature (LocalRecordSeal.new sid (role (own s)) (local_head (chains s))
             (local_count (chains s)) (stream_list (stream_map chain_head (shared (chains s))))
             (FixedBytes.new (sha256 (manifest_part ft))) (FixedBytes.new (sha256 (b ++ sealed_prefix ft))) zero_signature)
             (sign_with_session_key s input).
Proof.
  unfold write_footer_prefix. intros Hr Hb Hm Ho Hp Hc Hsidw.
  apply stm_bind_ok in Hr as (? & ? & (? & [-> Hph]%phase_run & ->)%in_session_ok & Hr).
  apply stm_bind_ok in Hr as (got & ? & (? & [-> ->]%gets_ok & ->)%in_session_ok & Hr).
  destruct (peer_manifest_received s); [|discriminate Hr]. cbn [negb] in Hr.
  apply stm_bind_ok in Hr as (r & ? & (? & [-> ->]%gets_ok & ->)%in_session_ok & Hr).
  destruct (by_role (role (own s)) own_sig peer_sig) as [cs hs] eqn:Hby.
  assert (FixedBytes.wf (ManifestSignature.signature cs) /\ FixedBytes.wf (ManifestSignature.signature hs)) as [Hcs Hhs]
    by (unfold by_role in Hby; destruct (role (own s)); by simplify_eq).
  rewrite (manifest_request_eq m cs hs) in Hr by done. cbn [map_err] in Hr.
  assert (zlen (concat (manifest_fields m)) = 400) as Hml by (by rewrite (layout_len _ _ _ _ _ _ manifest_layout Hm)).
  pose proof (proj2 Hcs) as Hcl. pose proof (proj2 Hhs) as Hhl. change (zlen (raw (ManifestSignature.signature cs)) = 64) in Hcl.
  change (zlen (raw (ManifestSignature.signature hs)) = 64) in Hhl.
  apply stm_bind_ok in Hr as (d1 & p1 & H1 & Hr).
  apply (ask_digest_ok _ _ _ b) in H1 as (r & w1 & Hq & -> & Hb1 & ->); [|done|].
  2: { intros r Hq. apply ok_inj in Hq as ->. unfold request_wf. lia. }
  apply ok_inj in Hq as ->. cbn [emit] in *.
  rewrite (stm_bind_step _ _ (concat (manifest_fields m)) _ (s, w1)) in Hr by (unfold lift; by rewrite wire_manifest).
  apply stm_bind_ok in Hr as (? & ? & (? & [-> ->]%gets_ok & ->)%in_session_ok & Hr). cbn [id] in Hr.
  apply stm_bind_ok in Hr as (seal & ? & [Hseal ->]%lift_ok & Hr).
  destruct (build_seal_eq _ _ _ _ Hseal) as (sid & input & Hsid & Hin & Heq).
  assert (seal_wf seal) as Hsw.
  { rewrite Heq. destruct (local_ok _ Hc) as [Hlc [Hlh _]].
    refine (conj (Hsidw _ Hsid) (conj Hlh (conj Hlc (conj (roots_of_chains _ Hc) (conj (sha256_array _)
      (conj (sha256_array _) (ed_sign_array _ _))))))). }
  apply stm_bind_ok in Hr as (d2 & p2 & H2 & [-> ->]%stm_ret_ok). rewrite seal_request_eq in H2 by done. cbn [expect] in H2.
  assert (zlen (concat (seal_fields seal)) = 329) as Hsl by (by rewrite (layout_len _ _ _ _ _ _ seal_layout Hsw)).
  apply (ask_digest_ok _ _ _ _ _ _) with (1:=H2) in Hb1 as (r & w2 & Hq & -> & Hb2 & ->).
  2: { intros r Hq. apply ok_inj in Hq as ->. unfold request_wf. lia. }
  apply ok_inj in Hq as ->. cbn [emit] in *.
  exists w2, seal, cs, hs, sid, input. split_and!; try done. intros commit. cbv zeta.
  unfold sealed_record, sealed_prefix, manifest_part, controller_part, host_part, seal_part in *.
  cbn [AuditContainerFooter.manifest AuditContainerFooter.controller_session_signature
    AuditContainerFooter.host_session_signature AuditContainerFooter.seal] in *.
  rewrite <- !app_assoc in *. split_and!; done.
Qed.

Lemma finalize_footer_run m own_sig peer_sig s w b u s' w' :
  finalize_footer (F:=F) m own_sig peer_sig (s, w) = (Ok u, (s', w')) -> holds w b ->
  manifest_wf m -> FixedBytes.wf (ManifestSignature.signature own_sig) ->
  FixedBytes.wf (ManifestSignature.signature peer_sig) -> chains_ok (chains s) ->
  (forall sid, session_id (peer s) = Some sid -> FixedBytes.wf sid) ->
  (forall pf, peer_fingerprint (peer s) = Some pf -> FixedBytes.wf pf) -> ledger_bounded ->
  exists ft, footer_wf ft /\ footer_of s b ft /\ AuditContainerFooter.manifest ft = m /\
    by_role (role (own s)) own_sig peer_sig
      = (AuditContainerFooter.controller_session_signature ft, AuditContainerFooter.host_session_signature ft) /\
    holds w' (b ++ footer_prefix ft ++ sha256 (b ++ footer_prefix ft)) /\ phase s' = Finished.
Proof.
  unfold finalize_footer. intros Hr Hb Hm Ho Hp Hc Hsidw Hpfw Hled.
  apply stm_bind_ok in Hr as (pending & p1 & Hpre & Hr).
  destruct (write_footer_prefix_run _ _ _ _ _ b _ _ Hpre Hb Hm Ho Hp Hc Hsidw)
    as (w1 & seal & cs & hs & sid & input & -> & Hph & Hby & Hsw & Hsid & Hin & Hft).
  apply stm_bind_ok in Hr as (commit & p2 & (s2 & Hcommit & ->)%in_session_ok & Hr).
  unfold begin_ledger_commit in Hcommit. apply stm_bind_ok in Hcommit as (? & ? & [-> _]%phase_run & Hcommit).
  apply stm_bind_ok in Hcommit as ([n root] & s1 & Hbegin & Hcommit).
  unfold on_ledger in Hbegin. destruct (begin_commit (ledger s)) as [rb lb] eqn:Hbc.
  apply pair_eq in Hbegin as [-> <-]. destruct (Hled _ _ _ _ Hbc) as [Hn Hroot].
  apply build_commit_eq in Hcommit as (-> & sid' & pf & input' & Hsid' & Hpf & Hin' & Hceq).
  cbn [peer set_ledger own] in *. rewrite Hsid in Hsid'. apply (inj Some) in Hsid' as <-.
  destruct (Hft commit) as (Hb1 & Hpend & Hseq). set (ft := AuditContainerFooter.Mk m cs hs seal commit) in *. subst pending.
  cbn [manifest_digest sealed_record_digest] in Hceq.
  assert (ledger_wf commit) as Hcw.
  { rewrite Hceq. refine (conj Hn (conj Hroot (conj (Hsidw _ Hsid) (conj (sha256_array _) (conj (sha256_array _)
      (conj (Hpfw _ Hpf) (ed_sign_array _ _))))))). }
  apply stm_bind_ok in Hr as (u' & p3 & Hask & Hr). rewrite commit_request_eq in Hask by done. cbn [expect] in Hask.
  assert (zlen (concat (ledger_fields commit)) = 233) as Hll by (by rewrite (layout_len _ _ _ _ _ _ ledger_layout Hcw)).
  apply (ask_unit_ok _ _ _ _ _ _) with (1:=Hask) in Hb1 as (r & w2 & Hq & -> & Hb2).
  2: { intros r Hq. apply ok_inj in Hq as ->. unfold request_wf. lia. }
  apply ok_inj in Hq as ->. cbn [emit] in Hb2.
  apply in_session_ok in Hr as (s3 & Hfin & Heq3). apply pair_eq in Heq3 as [-> ->].
  unfold finish_ledger_commit in Hfin. apply stm_bind_ok in Hfin as (? & ? & [-> _]%phase_run & Hfin).
  apply stm_bind_ok in Hfin as (? & s4 & _ & ->%modify_ok).
  assert (FixedBytes.wf (ManifestSignature.signature cs) /\ FixedBytes.wf (ManifestSignature.signature hs)) as [Hcs Hhs]
    by (unfold by_role in Hby; destruct (role (own s)); by simplify_eq).
  exists ft. split; [by split_and!|]. split; [|split_and!; [done..| |done]].
  - split; cbn [ft AuditContainerFooter.seal AuditContainerFooter.ledger_commit]; first
      [ rewrite Hseq; done | rewrite Hceq; done | idtac ].
    + exists input. split; [done|]. by rewrite Hseq at 1.
    + exists input'. split; [done|]. by rewrite Hceq at 1.
  - unfold footer_prefix, ledger_part in *. cbn [ft AuditContainerFooter.ledger_commit].
    by rewrite <- !app_assoc in *.
Qed.
End Writing.

(** ** The checks of the footer *)

(** The next check passes. *)
Ltac passes tac :=
  lazymatch goal with
  | |- mbind _ (check ?c ?r) = _ => rewrite (check_true c r) by tac; cbn [mbind res_bind]
  | |- check _ _ = _ => apply check_true; tac
  end.

Section Checks.
Context {IoError Path : Type} `{AuditCryptoLaws} {L : Type} `{!Ledger (IoError:=IoError) L} `{!RecordFiles IoError Path}.
Local Notation st := (session AuditIdentity.t L).
Implicit Types (s : st) (v : verifier) (ft : AuditContainerFooter.t) (f : VerifiedFile Path).

(** What [finish_walk] delivers of a verifier that follows a session. *)
Record file_of M s v f : Prop := {
  fl_static : static_ok (IoError:=IoError) (HM:=M) s v;
  fl_points : points_follow (local_count (chains s)) (points s) (v_points v);
  fl_header : vf_header f = v_header v;
  fl_hello : vf_hello f = v_hello v;
  fl_shared : vf_shared f = shared (chains s);
  fl_local : vf_local_head f = local_head (chains s);
  fl_count : vf_local_count f = local_count (chains s);
  fl_sent : vf_last_confirmed_sent f = last_confirmed_sent (v_points v);
  fl_received : vf_last_confirmed_received f = last_confirmed_received (v_points v);
  fl_manifests : vf_manifests f = M;
}.

Lemma confirmed_sequence_eq M s v f : file_of M s v f -> confirmed_sequence f = last_confirmed_checkpoint_sequence s.
Proof.
  intros Hf. destruct (fl_points _ _ _ _ Hf) as [_ _ _ _ _ _ _ _ _ Hs Hr Hq].
  unfold confirmed_sequence, last_confirmed_checkpoint_sequence. rewrite (fl_sent _ _ _ _ Hf), (fl_received _ _ _ _ Hf), Hq.
  destruct (last_confirmed_sent (v_points v)) as [a|], (last_confirmed_received (v_points v)) as [b|]; cbn [confirmed_at] in Hs, Hr;
    try destruct Hs as [Hs ?]; try destruct Hr as [Hr ?]; rewrite <- ?Hs, <- ?Hr; case_match; lia.
Qed.

(** Equal bytes, equal values. *)
Lemma fixed_eq {k} (a b : FixedBytes.t k) : raw a = raw b -> a = b.
Proof. destruct a, b. by intros [= ->]. Qed.

Lemma check_manifest_ok M s v f ft start d own_sig peer_sig :
  file_of M s v f -> manifest_of (IoError:=IoError) s (AuditContainerFooter.manifest ft) ->
  JointManifest.final_checkpoint_sequence (AuditContainerFooter.manifest ft) = last_confirmed_checkpoint_sequence s ->
  by_role (role (own s)) own_sig peer_sig
    = (AuditContainerFooter.controller_session_signature ft, AuditContainerFooter.host_session_signature ft) ->
  signed_by (AuditContainerHeader.session_pubkey (v_header v)) (AuditContainerFooter.manifest ft) own_sig ->
  signed_by (AuditContainerHeader.peer_session_pubkey (v_header v)) (AuditContainerFooter.manifest ft) peer_sig ->
  check_manifest (IoError:=IoError) f (facts_of start ft d) (AuditContainerFooter.manifest ft) = Ok tt.
Proof.
  intros Hf [Hm M1 M2 M3 M4 (ph & Hph & Hkeys) (pf & Hpf & Hprints)] Hseq Hby (i1 & Hi1 & Ho) (i2 & Hi2 & Hp).
  pose proof (fl_static _ _ _ _ Hf) as Hst. set (m := AuditContainerFooter.manifest ft) in *.
  assert (i2 = i1) as -> by (rewrite Hi1 in Hi2; by apply ok_inj in Hi2).
  destruct (so_peer _ _ Hst) as (ph' & Hph' & _ & Hpk). rewrite Hph in Hph'. apply (inj Some) in Hph' as <-.
  pose proof (so_peer_identity _ _ Hst _ Hpf) as Hpid. pose proof (so_identity _ _ Hst) as Hid.
  rewrite (so_session _ _ Hst) in M1. apply (inj Some) in M1. rewrite (so_terminal _ _ Hst) in M3. apply (inj Some) in M3.
  assert (session_pubkey (own s) = AuditContainerHeader.session_pubkey (v_header v)) as Hk
    by (apply fixed_eq; by rewrite (so_pubkey _ _ Hst), (so_key _ _ Hst)).
  unfold check_manifest. rewrite (fl_header _ _ _ _ Hf), (fl_hello _ _ _ _ Hf), (so_role _ _ Hst), (so_binding _ _ Hst).
  passes ltac:(by rewrite (proj1 Hm), <- M1, Z.eqb_refl, bool_decide_true).
  rewrite Hk, <- Hpk in Hkeys. rewrite Hkeys. cbv beta match. passes ltac:(by rewrite !bool_decide_true).
  assert (by_role (role (own s)) (AuditContainerHeader.identity_pubkey (v_header v))
            (AuditContainerHeader.peer_identity_pubkey (v_header v)) =
          by_role (role (own s)) (AuditIdentity.public_key (identity (own s))) (AuditContainerHeader.peer_identity_pubkey (v_header v))) as ->
    by (by rewrite Hid).
  destruct (by_role _ (AuditIdentity.public_key _) _) as [ci hi] eqn:Hids.
  assert (raw (JointManifest.controller_fingerprint m) = sha256 (raw ci) /\
          raw (JointManifest.host_fingerprint m) = sha256 (raw hi)) as [-> ->].
  { clear -Hids Hprints Hpid. unfold by_role in *. destruct (role (own s)); apply pair_eq in Hids as [<- <-]; apply pair_eq in Hprints as [<- <-]; by rewrite Hpid. }
  passes ltac:(by rewrite !bool_decide_true).
  passes ltac:(by rewrite bool_decide_true).
  passes ltac:(by rewrite bool_decide_true).
  passes ltac:(rewrite bool_decide_true; [done|]; rewrite M4; unfold shared_snapshot, vf_snapshot; by rewrite (fl_shared _ _ _ _ Hf)).
  passes ltac:(by rewrite (confirmed_sequence_eq _ _ _ _ Hf), Hseq, Z.eqb_refl).
  rewrite Hi1. cbn [map_err mbind res_bind]. unfold facts_of, footer_facts, decoded_of.
  cbn [ff_controller_signature ff_host_signature DecodedFooter.footer]. clear -Hkeys Hby Ho Hp.
  unfold by_role in *. destruct (role (own s)); apply pair_eq in Hkeys as [<- <-]; apply pair_eq in Hby as [<- <-];
    passes ltac:(done); passes ltac:(done).
Qed.

Lemma check_seal_ok M s v f ft start d b :
  file_of M s v f -> manifest_of (IoError:=IoError) s (AuditContainerFooter.manifest ft) -> footer_of (IoError:=IoError) s b ft ->
  check_seal (IoError:=IoError) f (facts_of start ft d) (AuditContainerFooter.manifest ft) = Ok tt.
Proof.
  intros Hf Hm [S1 S2 S3 S4 S5 S6 _ (input & Hin & Hsig) _ _ _ _]. pose proof (fl_static _ _ _ _ Hf) as Hst.
  unfold check_seal, facts_of, footer_facts, decoded_of. cbn [ff_seal ff_manifest_bytes DecodedFooter.footer].
  rewrite (mo_session _ _ Hm) in S1. apply (inj Some) in S1.
  rewrite (fl_header _ _ _ _ Hf), (so_role _ _ Hst), (fl_local _ _ _ _ Hf), (fl_count _ _ _ _ Hf), (fl_shared _ _ _ _ Hf).
  passes ltac:(by rewrite !bool_decide_true).
  passes ltac:(by rewrite bool_decide_true, S4, Z.eqb_refl).
  passes ltac:(by rewrite bool_decide_true).
  passes ltac:(by rewrite S6, bool_decide_true).
  rewrite Hin. cbn [mbind res_bind]. apply check_true. unfold verify_ed25519. rewrite (so_key _ _ Hst), Hsig.
  apply ed_sign_verifies.
Qed.

Lemma check_commit_ok M s v f ft start d b :
  file_of M s v f -> manifest_of (IoError:=IoError) s (AuditContainerFooter.manifest ft) -> footer_of (IoError:=IoError) s b ft ->
  check_commit (IoError:=IoError) f (facts_of start ft d) (AuditContainerFooter.manifest ft) = Ok tt.
Proof.
  intros Hf Hm [_ _ _ _ _ _ _ _ C1 C2 _ (input & Hin & Hsig)]. pose proof (fl_static _ _ _ _ Hf) as Hst.
  unfold check_commit, facts_of, footer_facts, decoded_of. cbn [ff_commit ff_manifest_bytes DecodedFooter.footer].
  rewrite (mo_session _ _ Hm) in C1. apply (inj Some) in C1. rewrite (fl_header _ _ _ _ Hf).
  passes ltac:(by rewrite bool_decide_true).
  passes ltac:(by rewrite C2, bool_decide_true).
  rewrite Hin. cbn [mbind res_bind]. apply check_true. unfold verify_ed25519. rewrite (so_identity _ _ Hst), Hsig.
  apply ed_sign_verifies.
Qed.

(** The footer a session wrote passes. *)
Lemma verify_footer_ok path M s v f h rs ft own_sig peer_sig :
  let b := interrupted h rs in
  let d : Digest32 := FixedBytes.new (sha256 (b ++ footer_prefix ft)) in
  file_of M s v f -> manifest_of (IoError:=IoError) s (AuditContainerFooter.manifest ft) ->
  JointManifest.final_checkpoint_sequence (AuditContainerFooter.manifest ft) = last_confirmed_checkpoint_sequence s ->
  by_role (role (own s)) own_sig peer_sig
    = (AuditContainerFooter.controller_session_signature ft, AuditContainerFooter.host_session_signature ft) ->
  signed_by (AuditContainerHeader.session_pubkey (v_header v)) (AuditContainerFooter.manifest ft) own_sig ->
  signed_by (AuditContainerHeader.peer_session_pubkey (v_header v)) (AuditContainerFooter.manifest ft) peer_sig ->
  manifest_evidence M = Some (manifest_part ft) ->
  footer_wf ft -> footer_of (IoError:=IoError) s b ft -> open_file path = Ok (finalised h rs ft d) ->
  verify_footer (IoError:=IoError) path f (facts_of (zlen b) ft d) = Ok (facts_of (zlen b) ft d).
Proof.
  cbv zeta. intros Hf Hm Hseq Hby Ho Hp Hev Hft Hof Hfile. unfold verify_footer.
  change (JointManifest.decode_payload _)
    with (JointManifest.decode_payload (concat (manifest_fields (AuditContainerFooter.manifest ft)))).
  rewrite (fl_dec _ _ _ _ _ manifest_layout _ (proj1 Hft)). cbn [map_err mbind res_bind].
  rewrite (check_manifest_ok M s v f ft _ _ own_sig peer_sig) by done. cbn [mbind res_bind].
  rewrite (check_seal_ok M s v f ft _ _ _ Hf Hm Hof). cbn [mbind res_bind].
  rewrite (check_commit_ok M s v f ft _ _ _ Hf Hm Hof). cbn [mbind res_bind].
  rewrite (fl_manifests _ _ _ _ Hf), Hev. passes ltac:(by apply bool_decide_true).
  rewrite (prefix_digests_finalised path h rs ft (FixedBytes.new (sha256 (interrupted h rs ++ footer_prefix ft))) Hft (sha256_array _) Hfile). cbn [mbind res_bind].
  cbn [pd_sealed_prefix pd_sealed_record pd_final_digest]. unfold facts_of, footer_facts, decoded_of.
  cbn [ff_seal ff_commit ff_final_digest DecodedFooter.footer DecodedFooter.final_container_digest].
  rewrite (fo_seal_prefix _ _ _ Hof), (fo_commit_record _ _ _ Hof). by do 3 passes ltac:(by apply bool_decide_true).
Qed.
End Checks.

(** ** The theorem *)

Section Finished.
Context {IoError Path : Type} `{AuditCryptoLaws} {L : Type} `{!Ledger (IoError:=IoError) L} `{!RecordFiles IoError Path}
  {F : Type} `{!AsyncFile (IoError:=IoError) F} `{!AsyncFileLaws (IoError:=IoError) F}.
Local Notation st := (session AuditIdentity.t L).
Local Notation err := (AuditError (IoError:=IoError)).
Local Notation writer := (task (IoError:=IoError) (F:=F)).
Implicit Types (s : st) (w : writer).

(** The state of a session and of a file's verifier after the manifests were exchanged. *)
Lemma exchanged_follow header b1 s1 ending normal now1 m own_sig b2 s2 peer_manifest peer_sig now2 b3 s3 l :
  recorded (IoError:=IoError) header b1 s1 None ->
  build_manifest (IoError:=IoError) ending normal now1 s1 = (Ok (m, own_sig, b2), s2) -> ManifestEnding.wf ending -> is_u64 now1 ->
  receive_peer_manifest_pair (IoError:=IoError) m peer_manifest peer_sig now2 s2 = (Ok b3, s3) ->
  FixedBytes.wf (ManifestSignature.signature peer_sig) -> is_u64 now2 ->
  batch_frames (E:=err) (b1 ++ b2 ++ b3) = Ok l ->
  header_wf header /\
  check_header_bindings (IoError:=IoError) header (AuditContainerHeader.audit_hello header) = Ok tt /\
  exists M v,
    process_frames (IoError:=IoError) l (new_verifier header (AuditContainerHeader.audit_hello header)) = (Ok tt, v) /\
    good (IoError:=IoError) M (s3, None) v /\ v_header v = header /\ exchanged header m M /\
    manifest_of (IoError:=IoError) s3 m /\
    JointManifest.final_checkpoint_sequence m = last_confirmed_checkpoint_sequence s3 /\
    signed_by (AuditContainerHeader.session_pubkey header) m own_sig /\
    signed_by (AuditContainerHeader.peer_session_pubkey header) m peer_sig /\
    FixedBytes.wf (ManifestSignature.signature own_sig).
Proof.
  intros (Hh & Hck & M & l1 & v1 & Hl1 & Hp1 & Hg & Hev & E1 & _)%recorded_frames Hb Hend Hn1 Hr Hpw Hn2 Hl.
  split_and!; [done..|]. cbn [evidence_of] in Hev. subst M.
  destruct (build_manifest_sim _ _ _ _ _ _ _ _ _ (gd_follows _ _ _ Hg) Hn1 Hend Hb)
    as ((l2 & v2 & Hl2 & Hp2 & Hf2) & Hof2 & _ & _ & Hos & Hfin).
  destruct (receive_pair_sim _ _ _ _ _ _ _ _ Hf2 Hn2 Hof2 Hpw Hr)
    as ((l3 & v3 & Hl3 & Hp3 & Hf3) & Hof3 & _ & _ & Hps & Hpts).
  pose proof (frames_app _ _ _ _ Hl1 (frames_app _ _ _ _ Hl2 Hl3) err) as Hl'. rewrite Hl in Hl'. apply ok_inj in Hl' as <-.
  pose proof (proj1 (process_frames_setting _ _ _ _ Hp2)) as E2. pose proof (proj1 (process_frames_setting _ _ _ _ Hp3)) as E3.
  rewrite E1 in E2. rewrite E2 in E3.
  pose proof (own_signed _ _ _ _ _ (fo_static _ _ Hf2) Hos) as Ho. rewrite E2 in Ho.
  pose proof (peer_signed _ _ _ _ _ (fo_static _ _ Hf3) Hps) as Hp. rewrite E3 in Hp.
  eexists _, v3. split_and!.
  - rewrite (process_frames_app _ _ _ _ Hp1), (process_frames_app _ _ _ _ Hp2). exact Hp3.
  - split; [exact Hf3|done].
  - done.
  - split; [apply (mo_wf _ _ Hof3)|done|by exists own_sig|right]. split; [done|]. by exists peer_sig.
  - done.
  - rewrite Hfin. unfold last_confirmed_checkpoint_sequence. by rewrite Hpts.
  - done.
  - done.
  - destruct Hos as (input & _ & ->). apply ed_sign_array.
Qed.

(** C11: A finished record verifies.  When a session that recorded any sequence of operations
    builds its manifest, receives the peer's matching one, and writes the footer (manifest,
    both signatures, seal, ledger commit, digests) through a healthy writer whose file holds
    its header and records, then [walk_file] accepts the finished file: it returns the
    header, the session's chains and count, and a footer that carries the very manifest, and
    reports nothing truncated; and the session has ended as finished. *)
Theorem finished_file_verifies (path : Path) header b1 s1 ending normal now1 m own_sig b2 s2 peer_manifest peer_sig now2 b3 s3 l
    w u s4 w' :
  recorded (IoError:=IoError) header b1 s1 None ->
  build_manifest (IoError:=IoError) ending normal now1 s1 = (Ok (m, own_sig, b2), s2) -> ManifestEnding.wf ending -> is_u64 now1 ->
  receive_peer_manifest_pair (IoError:=IoError) m peer_manifest peer_sig now2 s2 = (Ok b3, s3) ->
  FixedBytes.wf (ManifestSignature.signature peer_sig) -> is_u64 now2 ->
  batch_frames (E:=err) (b1 ++ b2 ++ b3) = Ok l -> Forall record_wf l ->
  holds w (interrupted header l) -> ledger_bounded (IoError:=IoError) (L:=L) ->
  finalize_footer (F:=F) m own_sig peer_sig (s3, w) = (Ok u, (s4, w')) ->
  open_file path = Ok (contents (file (AuditWriter.st w'))) ->
  exists f facts, walk_file (IoError:=IoError) path = Ok f /\ vf_header f = header /\
    vf_shared f = shared (chains s3) /\ vf_local_head f = local_head (chains s3) /\
    vf_local_count f = local_count (chains s3) /\ vf_footer f = Some facts /\
    ff_manifest_bytes facts = concat (manifest_fields m) /\ vf_truncated_tail f = false /\ phase s4 = Finished.
Proof.
  intros Hrec Hb Hend Hn1 Hr Hpw Hn2 Hl Hrs Hw Hled Hfin Hopen.
  destruct (exchanged_follow _ _ _ _ _ _ _ _ _ _ _ _ _ _ _ _ Hrec Hb Hend Hn1 Hr Hpw Hn2 Hl)
    as (Hh & Hck & M & v & Hp & Hg & E & Hex & Hof & Hseq & Ho & Hps & How).
  pose proof (gd_follows _ _ _ Hg) as Hf. cbn [fst] in Hf. pose proof (fo_static _ _ Hf) as Hst.
  assert (forall sid, session_id (peer s3) = Some sid -> FixedBytes.wf sid) as Hsid.
  { intros sid Hs. rewrite (so_session _ _ Hst) in Hs. apply (inj Some) in Hs as <-. apply (so_session_wf _ _ Hst). }
  destruct (finalize_footer_run _ _ _ _ _ _ _ _ _ Hfin Hw (mo_wf _ _ Hof) How Hpw (fo_ok _ _ Hf) Hsid
    (so_peer_print _ _ Hst) Hled) as (ft & Hft & Hfo & <- & Hby & (_ & Hcoh & Hhash) & Hph).
  set (d := FixedBytes.new (sha256 (interrupted header l ++ footer_prefix ft)) : Digest32).
  assert (open_file path = Ok (finalised header l ft d)) as Hfile
    by (rewrite Hopen; by rewrite (Hcoh : contents _ = _), Hhash).
  rewrite (walk_file_finalised path header l ft d v Hh Hck Hrs Hp Hft (sha256_array _) Hfile).
  destruct (finish_walk_ok M s3 None v false path Hg) as (f & -> & F1 & F2 & F3 & F4 & F5 & F6 & F7 & F8 & F9 & F10).
  cbn [mbind res_bind].
  assert (file_of (IoError:=IoError) M s3 v f) as Hfile_of by (split; try done; apply (fo_points _ _ Hf)).
  assert (verify_footer (IoError:=IoError) path f (facts_of (zlen (interrupted header l)) ft d)
    = Ok (facts_of (zlen (interrupted header l)) ft d)) as ->
    by (apply (verify_footer_ok path M s3 v f header l ft own_sig peer_sig);
        rewrite ?E; done || apply (ex_sent _ _ _ Hex)).
  cbn [mbind res_bind]. cbv zeta. rewrite (manifest_evidence_verifies _ (Some (AuditContainerFooter.manifest ft))).
  2: { cbn [evidence_of set_tail vf_header vf_manifests]. by rewrite F3, F1, E. }
  cbn [mbind res_bind]. eexists _, _. split; [done|]. cbn [set_tail vf_header vf_shared vf_local_head vf_local_count vf_footer vf_truncated_tail].
  rewrite F1. by split_and!.
Qed.
End Finished.
