(* ===== verification/PairVerifier.v ===== *)
(** * Verifying a pair of record files

    The bilateral half of [crates/yon/src/audit/verify.rs]: [verify_files] with the comparison of
    a controller's and a host's file, the confirmed prefixes of interrupted sessions, the anchor
    in the local ledger, and the report. *)

From stdpp Require Import strings.
From S2P Require Import Prelude Domain Layout WireAudit AuditContainer AuditWriter Stateful AuditEvents AuditSession ChainVerifier AuditIdentity FileVerifier.
Open Scope string_scope.
Open Scope list_scope.
Open Scope Z_scope.

Definition ANCHOR_TAIL_LEN : Z := MAX_FOOTER_PREFIX_LEN + CONTAINER_DIGEST_LEN.
Definition MAX_ANCHOR_STEPS : Z := 1024.
Definition MAX_ANCHOR_SCAN : Z := 8192.
Definition LEDGER_STATE_LEN : Z := 8 + 2 + 8 + 32 + 32.
Definition LEDGER_STATE_CHECKSUM_OFFSET : Z := LEDGER_STATE_LEN - 32.
(** The ASCII bytes of "YONLEDG" and a NUL. *)
Definition LEDGER_STATE_MAGIC : list Z := [0x59; 0x4F; 0x4E; 0x4C; 0x45; 0x44; 0x47; 0x00].

(** What the anchor reads of the audit directory. *)
Class AuditDirectory (Path : Type) := {
  (** [symlink_metadata] shows a regular file, and opening it delivers these bytes. *)
  regular_file : Path -> option (list Z);
  (** [fs::read_dir], whose entries may fail one by one. *)
  read_dir : Path -> option (list (option Path));
  (** The extension is [yonaudit]. *)
  is_record_path : Path -> bool;
  (** [root.join(LEDGER_STATE_FILE_NAME)] and [root.join(RECORDS_DIR_NAME)]. *)
  state_path : Path -> Path;
  records_path : Path -> Path;
  (** [AnchorLookup::local_anchor]. *)
  local_anchor : option (Path * AuditIdentity.t);
}.

(** ** Reports *)

Inductive VerificationState :=
| VerifiedComplete | ConsistentCompleteUnanchored | MatchedInterruptedPrefix | IntactUnpaired
| MismatchState | TamperedState.

Definition exit_code (state : VerificationState) : Z :=
  match state with
  | VerifiedComplete => 0
  | ConsistentCompleteUnanchored | MatchedInterruptedPrefix | IntactUnpaired => 2
  | MismatchState => 3
  | TamperedState => 4
  end.

Record FileReport (Path : Type) := FileFacts {
  fr_path : Path;
  fr_role : AuditRole.t;
  fr_fingerprint : IdentityFingerprint;
  fr_utc_start_seconds : Z;
  fr_shared_counts : per_stream Z;
  fr_local_event_count : Z;
  fr_finalized : bool;
  fr_truncated_tail : bool;
  fr_last_confirmed_sent : option (Z * list Z);
  fr_last_confirmed_received : option (Z * list Z);
  fr_ending : option ManifestEnding.t;
  fr_ended_normally : bool;
}.
Arguments FileFacts {Path}.

Record AnchorReport := Anchor { identity_matched : bool; anchor_continuous : bool }.
Definition no_anchor : AnchorReport := Anchor false false.

Record VerificationReport (Path : Type) := Report {
  rp_state : VerificationState;
  rp_session_id : option SessionId;
  rp_controller : option (FileReport Path);
  rp_host : option (FileReport Path);
  rp_anchor : AnchorReport;
  rp_reason : option string;
}.
Arguments Report {Path}.
Arguments rp_state {Path}. Arguments rp_reason {Path}. Arguments rp_anchor {Path}.

Inductive VerifyError (IoError : Type) :=
| VerifyIo (e : IoError)
| VerifyNotAContainer
| VerifyUnsupportedFormat.
Arguments VerifyIo {IoError}. Arguments VerifyNotAContainer {IoError}. Arguments VerifyUnsupportedFormat {IoError}.

Section PairVerifier.
Context {IoError Path : Type} `{AuditCrypto} `{RecordFiles IoError Path} `{AuditDirectory Path}.
Local Notation serr := (StreamError IoError).
Local Notation file := (VerifiedFile Path).
Local Notation report := (VerificationReport Path).

Definition manifest_in (footer : FooterFacts) : option JointManifest.t :=
  match JointManifest.decode_payload (ff_manifest_bytes footer) with Ok m => Some m | _ => None end.

Definition file_report (f : file) : FileReport Path :=
  let manifest := vf_footer f ≫= manifest_in in
  let confirmed c := (ref_sequence c, ref_digest c) in
  FileFacts (vf_path f) (AuditContainerHeader.role (vf_header f))
    (FixedBytes.new (sha256 (raw (AuditContainerHeader.identity_pubkey (vf_header f)))))
    (AuditContainerHeader.utc_start_seconds (vf_header f))
    (stream_map chain_count (vf_shared f)) (vf_local_count f) (bool_decide (is_Some (vf_footer f)))
    (vf_truncated_tail f) (confirmed <$> vf_last_confirmed_sent f) (confirmed <$> vf_last_confirmed_received f)
    (JointManifest.ending <$> manifest) (default false (JointManifest.ended_normally <$> manifest)).

Definition report_pair (controller host : option file) (state : VerificationState) (reason : option string)
    (anchor : AnchorReport) (session_id : option SessionId) : report :=
  Report state session_id (file_report <$> controller) (file_report <$> host) anchor reason.

Definition mismatch_report (controller host : file) (reason : string) : report :=
  report_pair (Some controller) (Some host) MismatchState (Some reason) no_anchor
    (Some (AuditContainerHeader.session_id (vf_header controller))).

Definition tampered_report (controller host : file) (reason : string) : report :=
  report_pair (Some controller) (Some host) TamperedState (Some reason) no_anchor
    (Some (AuditContainerHeader.session_id (vf_header controller))).

Definition single_report (f : file) : report :=
  let session_id := Some (AuditContainerHeader.session_id (vf_header f)) in
  match AuditContainerHeader.role (vf_header f) with
  | AuditRole.Controller => report_pair (Some f) None IntactUnpaired None no_anchor session_id
  | AuditRole.Host => report_pair None (Some f) IntactUnpaired None no_anchor session_id
  end.

Definition map_walk_error (error : serr) : res (VerifyError IoError) report :=
  match error with
  | Tampered reason => Ok (Report TamperedState None None None no_anchor (Some reason))
  | Io e => Err (VerifyIo e)
  | NotAnAuditContainer => Err VerifyNotAContainer
  | UnsupportedAuditFormat => Err VerifyUnsupportedFormat
  end.

(** ** Confirmed checkpoints *)

(** The two loops of [common_direction], over the pairs in their order. *)
Definition common_pairs (sender_last sender_previous receiver_last receiver_previous : option CheckpointRef)
  : list (CheckpointRef * CheckpointRef) :=
  let some o := match o with Some x => [x] | None => [] end in
  s ← some sender_last ++ some sender_previous;
  r ← some receiver_last ++ some receiver_previous;
  [(s, r)].

Definition common_step (common : option CheckpointRef) (p : CheckpointRef * CheckpointRef) : option CheckpointRef :=
  let '(sender, receiver) := p in
  if (ref_sequence sender =? ref_sequence receiver)
     && bool_decide (ref_digest sender = ref_digest receiver)
     && bool_decide (ref_snapshot sender = ref_snapshot receiver)
     && match common with None => true | Some current => ref_sequence current <? ref_sequence sender end
  then Some sender else common.

Definition common_direction (sender_last sender_previous receiver_last receiver_previous : option CheckpointRef)
  : res string (option CheckpointRef) :=
  match sender_last, receiver_last with
  | Some _, Some _ =>
    match foldl common_step None (common_pairs sender_last sender_previous receiver_last receiver_previous) with
    | Some c => Ok (Some c)
    | None => Err "the directional checkpoint confirmations do not match"
    end
  | _, _ => Ok None
  end.

Definition last_common_confirmed (controller host : file)
  : res string (option CheckpointRef * option CheckpointRef) :=
  a ← common_direction (vf_last_confirmed_sent controller) (vf_prev_confirmed_sent controller)
        (vf_last_confirmed_received host) (vf_prev_confirmed_received host);
  b ← common_direction (vf_last_confirmed_sent host) (vf_prev_confirmed_sent host)
        (vf_last_confirmed_received controller) (vf_prev_confirmed_received controller);
  Ok (a, b).

(** ** Prefixes *)

Definition all_shared : list SharedStream.t :=
  [SharedStream.Input; SharedStream.Output; SharedStream.Control; SharedStream.FileTransfer].

(** The streams whose target is the empty chain; [None] when such a target has a head. *)
Fixpoint reached_at_start (target : SharedSnapshot.t) (streams : list SharedStream.t) (reached : per_stream bool)
  : res serr (option (per_stream bool)) :=
  match streams with
  | [] => Ok (Some reached)
  | stream :: streams =>
    expected ← expect (SharedSnapshot.get target stream);
    if StreamSnapshot.count expected =? 0 then
      if bool_decide (StreamSnapshot.head expected <> zero_head) then Ok None
      else reached_at_start target streams (stream_set stream true reached)
    else reached_at_start target streams reached
  end.

(** The inner loop after one frame; [None] when a chain differs from or passed its target. *)
Fixpoint reached_now (target : SharedSnapshot.t) (shared : per_stream SharedChain) (streams : list SharedStream.t)
    (reached : per_stream bool) : res serr (option (per_stream bool)) :=
  match streams with
  | [] => Ok (Some reached)
  | stream :: streams =>
    if stream_get reached stream then reached_now target shared streams reached else
    expected ← expect (SharedSnapshot.get target stream);
    let actual := stream_get shared stream in
    if chain_count actual =? StreamSnapshot.count expected then
      if bool_decide (chain_head actual <> StreamSnapshot.head expected) then Ok None
      else reached_now target shared streams (stream_set stream true reached)
    else if StreamSnapshot.count expected <? chain_count actual then Ok None
    else reached_now target shared streams reached
  end.

Fixpoint prefix_loop (fuel : nat) (target : SharedSnapshot.t) (w : FrameWalker.t) (v : verifier)
    (reached : per_stream bool) : option (res serr bool) :=
  match fuel with
  | O => None
  | S fuel =>
    match next_frame w with
    | (Ok None, _) => Some (Ok (forallb id (stream_list reached)))
    | (Ok (Some (record_type, payload)), w) =>
      match process_frame record_type payload v with
      | (Ok _, v) =>
        match reached_now target (v_shared (v_chains v)) all_shared reached with
        | Ok (Some reached) => prefix_loop fuel target w v reached
        | Ok None => Some (Ok false)
        | Err e => Some (Err e)
        | Panic => Some Panic
        end
      | (Err e, _) => Some (Err e)
      | (Panic, _) => Some Panic
      end
    | (Err e, _) => Some (Err e)
    | (Panic, _) => Some Panic
    end
  end.

(** Every frame has at least five bytes, so the fuel is enough. *)
Definition snapshot_is_prefix (path : Path) (target : SharedSnapshot.t) : res serr bool :=
  w ← open path;
  '(header_bytes, w) ← run skip_header w;
  header ← map_err (fun _ => NotAnAuditContainer) (AuditContainerHeader.decode header_bytes);
  let v := new_verifier header (AuditContainerHeader.audit_hello header) in
  start ← reached_at_start target all_shared (PerStream false false false false);
  match start with
  | None => Ok false
  | Some reached =>
    match prefix_loop (S (length (FrameWalker.reader w))) target w v reached with
    | Some r => r
    | None => Panic
    end
  end.

(** ** The anchor in the local ledger *)

Definition ledger_root_of {E} (commit : LedgerCommit.t) : res E LedgerRoot :=
  input ← wire (LedgerCommit.signing_input commit);
  Ok (FixedBytes.new (sha256 input)).

Definition read_ledger_head (root : Path) : option (Z * LedgerRoot) :=
  bytes ← regular_file (state_path root);
  if negb (zlen bytes =? LEDGER_STATE_LEN) then None else
  if bool_decide (take 8 bytes <> LEDGER_STATE_MAGIC) then None else
  if negb (from_be_bytes (take 2 (drop 8 bytes)) =? 1) then None else
  let offset := Z.to_nat LEDGER_STATE_CHECKSUM_OFFSET in
  if bool_decide (sha256 (take offset bytes) <> drop offset bytes) then None else
  Some (from_be_bytes (take 8 (drop 10 bytes)), FixedBytes.new (take 32 (drop 18 bytes))).

(** The backward scan of [inspect_anchor_record]: the last position of the tail at which a
    footer decodes. *)
Fixpoint find_footer (tail : list Z) (scan : nat) : option (nat * DecodedFooter.t) :=
  match scan with
  | O => None
  | S index =>
    if starts_with (drop index tail) FOOTER_MAGIC then
      match decode_footer (drop index tail) with
      | Ok decoded => Some (index, decoded)
      | _ => find_footer tail index
      end
    else find_footer tail index
  end.

(** [tail] is the last [ANCHOR_TAIL_LEN] bytes, zero-padded behind a shorter file. *)
Definition inspect_anchor_record (path : Path) : option (LedgerCommit.t * Z * Z * Digest32 * Digest32) :=
  bytes ← regular_file path;
  let len := zlen bytes in
  if len <? CONTAINER_HEADER_LEN then None else
  let tail_len := Z.min len ANCHOR_TAIL_LEN in
  let tail := drop (Z.to_nat (len - tail_len)) bytes ++ zeros (ANCHOR_TAIL_LEN - tail_len) in
  '(scan, decoded) ← find_footer tail (Z.to_nat tail_len);
  let footer_start := len - tail_len + Z.of_nat scan in
  let commit := AuditContainerFooter.ledger_commit (DecodedFooter.footer decoded) in
  Some (commit, footer_start + DecodedFooter.seal_end decoded, footer_start + DecodedFooter.ledger_end decoded,
        LedgerCommit.sealed_record_digest commit, DecodedFooter.final_container_digest decoded).

(** The streaming pass of [verify_anchor_digests]; the one snapshot is [sealed_record_at]. *)
Fixpoint anchor_loop (fuel : nat) (seal_end ledger_end : Z) (h : Hashing) : option Hashing :=
  match fuel with
  | O => None
  | S fuel =>
    let h := HashState (fed h) None (snapshot_here seal_end h (sealed_record_at h)) (position h) (unread h) in
    let remaining := Z.max 0 (ledger_end - position h) in
    if remaining =? 0 then Some h else
    let chunk := file_read h (Z.min remaining READ_BUFFER_LEN) in
    if zlen chunk =? 0 then Some h else
    let '(fed1, offset, sealed) := feed_boundary seal_end (sealed_record_at h) (position h) chunk (fed h, 0) in
    anchor_loop fuel seal_end ledger_end
      (HashState (fed1 ++ drop (Z.to_nat offset) chunk) None sealed (position h + zlen chunk)
         (drop (length chunk) (unread h)))
  end.

Definition verify_anchor_digests (path : Path) (seal_end ledger_end : Z) (expected_sealed expected_final : Digest32)
  : bool :=
  match open_file path with
  | Ok bytes =>
    match anchor_loop (S (S (length bytes))) seal_end ledger_end (HashState [] None None 0 bytes) with
    | Some h =>
      match sealed_record_at h with
      | Some sealed => (position h =? ledger_end) && bool_decide (sealed = raw expected_sealed)
                       && bool_decide (sha256 (fed h) = raw expected_final)
      | None => false
      end
    | None => false
    end
  | _ => false
  end.

(** One entry of the records directory: [None] ends the search without a link. *)
Definition link_step (identity : AuditIdentity.t) (sequence : Z) (root : LedgerRoot) (path : Path)
    (previous : option LedgerRoot) : option (option LedgerRoot) :=
  if negb (is_record_path path) then Some previous else
  match inspect_anchor_record path with
  | None => Some previous
  | Some (commit, seal_end, ledger_end, sealed_digest, final_digest) =>
    if negb (LedgerCommit.sequence commit =? sequence) then Some previous else
    match ledger_root_of (E:=ProtocolError) commit, wire (E:=ProtocolError) (LedgerCommit.signing_input commit) with
    | Ok commit_root, Ok input =>
      if bool_decide (commit_root <> root) then None else
      if negb (AuditIdentity.verify identity input (LedgerCommit.signature commit)) then None else
      if negb (verify_anchor_digests path seal_end ledger_end sealed_digest final_digest) then None else
      match previous with
      | Some _ => None
      | None => Some (Some (LedgerCommit.previous_root commit))
      end
    | _, _ => None
    end
  end.

Fixpoint link_loop (identity : AuditIdentity.t) (sequence : Z) (root : LedgerRoot) (entries : list (option Path))
    (scanned : Z) (previous : option LedgerRoot) : option LedgerRoot :=
  match entries with
  | [] => previous
  | None :: _ => None
  | Some path :: entries =>
    let scanned := scanned + 1 in
    if MAX_ANCHOR_SCAN <? scanned then None else
    match link_step identity sequence root path previous with
    | None => None
    | Some previous => link_loop identity sequence root entries scanned previous
    end
  end.

Definition find_chain_link (records : Path) (identity : AuditIdentity.t) (sequence : Z) (root : LedgerRoot)
  : option LedgerRoot :=
  entries ← read_dir records;
  link_loop identity sequence root entries 0 None.

(** The walk back from the head; [steps] is what [MAX_ANCHOR_STEPS] leaves. *)
Fixpoint walk_back (steps : nat) (records : Path) (identity : AuditIdentity.t) (commit_sequence target_sequence : Z)
    (target_root : LedgerRoot) : option LedgerRoot :=
  if target_sequence <=? commit_sequence then Some target_root else
  match steps with
  | O => None
  | S steps =>
    previous_root ← find_chain_link records identity target_sequence target_root;
    walk_back steps records identity commit_sequence (target_sequence - 1) previous_root
  end.

Definition ledger_continuous (root : Path) (identity : AuditIdentity.t) (f : file) : bool :=
  match vf_footer f with
  | None => false
  | Some footer =>
    let commit := ff_commit footer in
    match wire (E:=ProtocolError) (LedgerCommit.signing_input commit), ledger_root_of (E:=ProtocolError) commit with
    | Ok input, Ok commit_root =>
      if negb (AuditIdentity.verify identity input (LedgerCommit.signature commit)) then false else
      match read_ledger_head root with
      | None => false
      | Some (head_sequence, head_root) =>
        let commit_sequence := LedgerCommit.sequence commit in
        if commit_sequence =? head_sequence then bool_decide (commit_root = head_root) else
        match checked_add_u64 head_sequence 1 with
        | None => false
        | Some next_sequence =>
          if (commit_sequence =? next_sequence) && bool_decide (LedgerCommit.previous_root commit = head_root)
          then true else
          if head_sequence <? commit_sequence then false else
          match walk_back (Z.to_nat MAX_ANCHOR_STEPS) (records_path root) identity commit_sequence head_sequence
                  head_root with
          | Some target_root => bool_decide (commit_root = target_root)
          | None => false
          end
        end
      end
    | _, _ => false
    end
  end.

(** The two files in order; the first whose commit the ledger continues decides. *)
Fixpoint anchor_files (root : Path) (identity : AuditIdentity.t) (files : list file) (matched : bool) : AnchorReport :=
  match files with
  | [] => Anchor matched false
  | f :: files =>
    if bool_decide (sha256 (raw (AuditContainerHeader.identity_pubkey (vf_header f)))
                    <> raw (AuditIdentity.fingerprint identity))
    then anchor_files root identity files matched
    else if ledger_continuous root identity f then Anchor true true
    else anchor_files root identity files true
  end.

Definition anchor_pair (controller host : file) : AnchorReport :=
  match local_anchor with
  | None => no_anchor
  | Some (root, identity) => anchor_files root identity [controller; host] false
  end.

(** ** The pair *)

(** The pair identity bindings; [Some] is the reason of a mismatch. *)
Definition pair_bindings (controller host : file) : res (VerifyError IoError) (option string) :=
  let c := vf_header controller in
  let h := vf_header host in
  if bool_decide (AuditContainerHeader.session_id c <> AuditContainerHeader.session_id h)
  then Ok (Some "the session IDs do not match") else
  if bool_decide (AuditContainerHeader.peer_identity_pubkey c <> AuditContainerHeader.identity_pubkey h)
     || bool_decide (AuditContainerHeader.peer_identity_pubkey h <> AuditContainerHeader.identity_pubkey c)
  then Ok (Some "the embedded identities do not match") else
  if bool_decide (AuditContainerHeader.peer_session_pubkey c <> AuditContainerHeader.session_pubkey h)
     || bool_decide (AuditContainerHeader.peer_session_pubkey h <> AuditContainerHeader.session_pubkey c)
  then Ok (Some "the embedded session keys do not match") else
  if bool_decide (AuditHello.connection_binding (vf_hello controller) <> AuditHello.connection_binding (vf_hello host))
  then Ok (Some "the connection binding does not match") else
  host_hello ← wire (AuditHello.encode_payload (vf_hello host));
  if bool_decide (raw (AuditReady.peer_audit_hello_digest (AuditContainerHeader.audit_ready c)) <> sha256 host_hello)
  then Ok (Some "the audit handshake confirmations do not match") else
  controller_hello ← wire (AuditHello.encode_payload (vf_hello controller));
  if bool_decide (raw (AuditReady.peer_audit_hello_digest (AuditContainerHeader.audit_ready h)) <> sha256 controller_hello)
  then Ok (Some "the audit handshake confirmations do not match") else
  Ok None.

(** Both files are complete. *)
Definition verify_complete (controller host : file) (cf hf : FooterFacts) : report :=
  if bool_decide (ff_manifest_bytes cf <> ff_manifest_bytes hf)
  then mismatch_report controller host "the joint manifests differ" else
  match JointManifest.decode_payload (ff_manifest_bytes cf) with
  | Ok manifest =>
    let controller_fingerprint := sha256 (raw (AuditContainerHeader.identity_pubkey (vf_header controller))) in
    let host_fingerprint := sha256 (raw (AuditContainerHeader.identity_pubkey (vf_header host))) in
    if bool_decide (raw (JointManifest.controller_fingerprint manifest) <> controller_fingerprint)
       || bool_decide (raw (JointManifest.host_fingerprint manifest) <> host_fingerprint)
    then mismatch_report controller host "the embedded identities do not match the joint manifest" else
    if bool_decide (ff_controller_signature cf <> ff_controller_signature hf)
       || bool_decide (ff_host_signature cf <> ff_host_signature hf)
    then mismatch_report controller host "the manifest signatures differ" else
    if bool_decide (raw (LedgerCommit.peer_identity_fingerprint (ff_commit cf)) <> host_fingerprint)
       || bool_decide (raw (LedgerCommit.peer_identity_fingerprint (ff_commit hf)) <> controller_fingerprint)
    then mismatch_report controller host "the ledger commits do not match the peer identities" else
    let anchor := anchor_pair controller host in
    let state := if identity_matched anchor && anchor_continuous anchor then VerifiedComplete
                 else ConsistentCompleteUnanchored in
    report_pair (Some controller) (Some host) state None anchor
      (Some (AuditContainerHeader.session_id (vf_header controller)))
  | _ => tampered_report controller host "the joint manifest is invalid"
  end.

(** The confirmed checkpoints are prefixes of both files; [Some] is the report that says not. *)
Fixpoint check_prefixes (controller host : file) (checks : list (file * CheckpointRef))
  : res (VerifyError IoError) (option report) :=
  match checks with
  | [] => Ok None
  | (f, confirmed) :: checks =>
    match snapshot_is_prefix (vf_path f) (ref_snapshot confirmed) with
    | Ok true => check_prefixes controller host checks
    | Ok false => Ok (Some (mismatch_report controller host "the confirmed checkpoint is not a shared prefix"))
    | Err (Tampered reason) => Ok (Some (tampered_report controller host reason))
    | Err (Io e) => Err (VerifyIo e)
    | Err NotAnAuditContainer => Err VerifyNotAContainer
    | Err UnsupportedAuditFormat => Err VerifyUnsupportedFormat
    | Panic => Panic
    end
  end.

(** The manifest evidence of the interrupted side against the footer of the complete one. *)
Definition evidence_differs (complete interrupted : file) (interrupted_is_host : bool) : option string :=
  match vf_footer complete with
  | None => None
  | Some footer =>
    let m := vf_manifests interrupted in
    let own_slot := if interrupted_is_host then ff_host_signature footer else ff_controller_signature footer in
    let peer_slot := if interrupted_is_host then ff_controller_signature footer else ff_host_signature footer in
    if match manifest_evidence m with Some e => bool_decide (ff_manifest_bytes footer <> e) | None => false end
    then Some "the joint manifests differ" else
    if match sent_manifest_signature m with Some sig => bool_decide (sig <> own_slot) | None => false end
    then Some "the manifest signatures differ" else
    if match received_manifest_signature m with Some sig => bool_decide (sig <> peer_slot) | None => false end
    then Some "the manifest signatures differ" else None
  end.

Definition verify_interrupted (controller host : file) : res (VerifyError IoError) report :=
  match last_common_confirmed controller host with
  | Err reason => Ok (mismatch_report controller host reason)
  | Panic => Panic
  | Ok (a, b) =>
    let confirmed := match a with Some x => [x] | None => [] end ++ match b with Some x => [x] | None => [] end in
    failed ← check_prefixes controller host (c ← confirmed; f ← [controller; host]; [(f, c)]);
    match failed with
    | Some r => Ok r
    | None =>
      match evidence_differs controller host true, evidence_differs host controller false with
      | Some reason, _ | None, Some reason => Ok (mismatch_report controller host reason)
      | None, None =>
        Ok (report_pair (Some controller) (Some host) MatchedInterruptedPrefix None no_anchor
              (Some (AuditContainerHeader.session_id (vf_header controller))))
      end
    end
  end.

Definition verify_walk_pair (local_walk peer_walk : file) : res (VerifyError IoError) report :=
  let role f := AuditContainerHeader.role (vf_header f) in
  let checked controller host :=
    mismatch ← pair_bindings controller host;
    match mismatch, vf_footer controller, vf_footer host with
    | Some reason, _, _ => Ok (mismatch_report controller host reason)
    | None, Some cf, Some hf => Ok (verify_complete controller host cf hf)
    | None, _, _ => verify_interrupted controller host
    end in
  match role local_walk, role peer_walk with
  | AuditRole.Controller, AuditRole.Host => checked local_walk peer_walk
  | AuditRole.Host, AuditRole.Controller => checked peer_walk local_walk
  | _, _ => Ok (report_pair (Some local_walk) (Some peer_walk) MismatchState
                  (Some "the two files have the same role") no_anchor
                  (Some (AuditContainerHeader.session_id (vf_header local_walk))))
  end.

Definition verify_files (local : Path) (peer : option Path) : res (VerifyError IoError) report :=
  match walk_file local with
  | Panic => Panic
  | Err error => map_walk_error error
  | Ok local_walk =>
    match peer with
    | None => Ok (single_report local_walk)
    | Some peer_path =>
      match walk_file peer_path with
      | Panic => Panic
      | Ok peer_walk => verify_walk_pair local_walk peer_walk
      | Err (Tampered reason) =>
        Ok (report_pair (Some local_walk) None TamperedState (Some reason) no_anchor
              (Some (AuditContainerHeader.session_id (vf_header local_walk))))
      | Err error =>
        match map_walk_error error with
        | Err e => Err e
        | Ok _ | Panic => Panic
        end
      end
    end
  end.
End PairVerifier.
