(* ===== verification/PairAgreement.v ===== *)
(** * What a verified pair of files agrees on

    The soundness of the verifier: what [walk_file] has established about the bytes of a file
    it accepts, and what [verify_files] has established about two files when it reports a
    complete pair or a matched interrupted prefix, down to the shared events in them. *)

From stdpp Require Import strings.
From S2P Require Import Prelude Domain Codec Layout WireAudit AuditCodecs AuditContainer AuditSigning ContainerCodecs AuditWriter Stateful AuditEvents AuditSession ChainVerifier AuditTrace AuditSimulation AuditControlSim AuditPointSim AuditCloseSim AuditRun AuditIdentity FileVerifier FileDigests FileWalk VerifierSteps FileRun PairVerifier.
Open Scope string_scope.
Open Scope list_scope.
Open Scope Z_scope.

Section Inversion.
Context {IoError Path : Type} `{AuditCryptoLaws} `{!RecordFiles IoError Path}.
Local Notation serr := (StreamError IoError).
Implicit Types (path : Path) (f : VerifiedFile Path).

(** ** Frames *)

Lemma read_exact_inv n pos rest tr l w :
  0 <= n -> read_exact (IoError:=IoError) n (walker_at pos rest tr) = (Ok l, w) ->
  exists rest', rest = l ++ rest' /\ zlen l = n /\ w = walker_at (pos + n) rest' tr.
Proof.
  intros Hn. unfold read_exact. cbn [walker_at FrameWalker.reader FrameWalker.pos FrameWalker.len FrameWalker.truncated_tail].
  destruct (Z.leb_spec n (zlen rest)) as [Hle|]; [|done]. intros [Hl Hw]%pair_eq. apply ok_inj in Hl as ->. subst w.
  exists (drop (Z.to_nat n) rest). split; [by rewrite take_drop|]. split; [apply zlen_take; lia|].
  unfold walker_at. f_equal. rewrite zlen_drop by lia. lia.
Qed.

Lemma walker_frame_inv pos rest tr r w :
  bytes rest -> next_frame (IoError:=IoError) (walker_at pos rest tr) = (Ok (Some r), w) ->
  exists rest', rest = frame_bytes r ++ rest' /\ record_wf r /\ w = walker_at (pos + zlen (frame_bytes r)) rest' tr.
Proof.
  intros Hb Hr. unfold next_frame in Hr. apply stm_bind_ok in Hr as (w0 & ? & [-> ->]%gets_ok & Hr).
  cbn [id] in Hr. cbv zeta in Hr. destruct (_ <? _).
  { apply stm_bind_ok in Hr as (? & ? & _ & [? _]%stm_ret_ok). done. }
  apply stm_bind_ok in Hr as (l4 & w1 & (rest1 & -> & Hl4 & ->)%read_exact_inv & Hr); [|lia].
  destruct (bool_decide _); [by apply stm_ret_ok in Hr as [? _]|].
  apply stm_bind_ok in Hr as (l1 & w2 & (rest2 & -> & Hl1 & ->)%read_exact_inv & Hr); [|lia].
  destruct l1 as [|b [|]]; [done| |unfold zlen in Hl1; cbn in Hl1; lia].
  apply stm_bind_ok in Hr as (? & ? & [Hi ->]%lift_ok & Hr). cbn in Hi. apply ok_inj in Hi as ->.
  apply stm_bind_ok in Hr as (t & ? & [Ht ->]%lift_ok & Hr).
  destruct (RecordType.from_byte b) as [t'|] eqn:Hcode; [|discriminate Ht]. apply ok_inj in Ht as ->.
  apply record_tag_ok in Hcode as <-.
  apply stm_bind_ok in Hr as (u & ? & [Hv ->]%lift_ok & Hr).
  destruct (validate_frame_len t' _) as [[]| |] eqn:Hv'; [|discriminate Hv..].
  apply Forall_app in Hb as [Hb4 Hb]. apply Forall_app in Hb as [_ Hb].
  pose proof (to_from_be 4 l4 Hb4 ltac:(unfold zlen in Hl4; lia)) as Hback.
  set (n := from_be_bytes l4) in *. pose proof Hv' as [Hn _]%validate_frame_ok.
  destruct (_ <? _). { apply stm_bind_ok in Hr as (? & ? & _ & [? _]%stm_ret_ok). done. }
  apply stm_bind_ok in Hr as (p & w3 & (rest3 & -> & Hp & ->)%read_exact_inv & [Hx ->]%stm_ret_ok); [|lia].
  apply (inj Some) in Hx as ->. apply Forall_app in Hb as [Hbp _].
  exists rest3. unfold frame_bytes, encode_frame_header. cbn [fst snd]. rewrite Hp.
  replace (1 + (n - 1)) with n by lia. rewrite Hback. split; [by rewrite <- !app_assoc|].
  split; [split; [done|cbn [fst snd]; rewrite Hp; by replace (1 + (n - 1)) with n by lia]|].
  f_equal. rewrite !zlen_app, Hl4, Hp. change (zlen [_]) with 1. lia.
Qed.

(** A walk that ended accepted a list of legal frames and stopped in front of the rest. *)
Lemma walk_records_inv fuel pos rest tr v w v' :
  bytes rest -> walk_records (IoError:=IoError) fuel (walker_at pos rest tr) v = Some (Ok (w, v')) ->
  exists rs tail, rest = frames_bytes rs ++ tail /\ Forall record_wf rs /\
    process_frames (IoError:=IoError) rs v = (Ok tt, v') /\
    next_frame (IoError:=IoError) (walker_at (pos + zlen (frames_bytes rs)) tail tr) = (Ok None, w).
Proof.
  revert pos rest v. induction fuel as [|fuel IH]; intros pos rest v Hb Hr; [done|]. cbn [walk_records] in Hr.
  destruct (next_frame _) as [[[[t p]|]| |] w1] eqn:Hn; try done.
  - apply walker_frame_inv in Hn as (rest' & -> & Hwf & ->); [|done]. apply Forall_app in Hb as [_ Hb].
    destruct (process_frame t p v) as [[[]| |] v1] eqn:Hp; [|done..].
    destruct (IH _ _ _ Hb Hr) as (rs & tail & -> & Hrs & Hps & Hend). exists ((t, p) :: rs), tail.
    rewrite frames_bytes_cons, <- app_assoc. split; [done|]. split; [by constructor|]. split.
    + unfold process_frames. cbn [for_each]. by rewrite (stm_bind_step _ _ tt _ v1).
    + rewrite zlen_app. rewrite <- Hend. do 2 f_equal. lia.
  - apply (inj Some), ok_inj, pair_eq in Hr as [-> ->]. exists [], rest. split; [done|]. split; [done|]. split; [done|].
    change (zlen (frames_bytes [])) with 0. by rewrite Z.add_0_r.
Qed.

(** ** Files *)

Lemma skip_header_inv bs header w :
  bytes bs -> skip_header (IoError:=IoError) (walker_at 0 bs false) = (Ok header, w) ->
  exists h rest, bs = concat (header_fields h) ++ rest /\ header_wf h /\ header = concat (header_fields h) /\
    w = walker_at 713 rest false.
Proof.
  intros Hb Hr. unfold skip_header in Hr.
  apply stm_bind_ok in Hr as (l & w1 & (rest & -> & Hl & ->)%read_exact_inv & Hr); [|done].
  apply stm_bind_ok in Hr as (? & ? & [_ ->]%lift_ok & Hr). apply stm_bind_ok in Hr as (? & ? & [_ ->]%lift_ok & Hr).
  destruct (_ && _); [discriminate Hr|]. apply stm_bind_ok in Hr as (h & ? & [Hd ->]%lift_ok & [-> ->]%stm_ret_ok).
  apply Forall_app in Hb as [Hb _]. destruct (AuditContainerHeader.decode l) as [h'| |] eqn:Hdec; [|discriminate Hd..].
  destruct (layout_dec_canonical header_sizes _ _ _ _ ltac:(sizes_pos) header_layout l h' Hb Hdec) as [Hwf <-].
  by exists h', rest.
Qed.

(** What an accepted file consists of and what was checked of it. *)
Record accepted path (bs : list Z) f (rs : list record) (tail : list Z) : Prop := {
  ac_bytes : bs = interrupted (vf_header f) rs ++ tail;
  ac_header : header_wf (vf_header f);
  ac_hello : vf_hello f = AuditContainerHeader.audit_hello (vf_header f);
  ac_path : vf_path f = path;
  ac_bound : check_header_bindings (IoError:=IoError) (vf_header f) (vf_hello f) = Ok tt;
  ac_records : Forall record_wf rs;
  ac_walk : exists v w,
    process_frames (IoError:=IoError) rs (new_verifier (vf_header f) (AuditContainerHeader.audit_hello (vf_header f))) = (Ok tt, v) /\
    next_frame (IoError:=IoError) (walker_at (zlen (interrupted (vf_header f) rs)) tail false) = (Ok None, w);
  ac_chains stream : stream_get (vf_shared f) stream = chain_of stream (events (IoError:=IoError) stream rs);
  ac_footer facts : vf_footer f = Some facts -> exists f0, vf_header f0 = vf_header f /\ vf_shared f0 = vf_shared f /\
    exists m, JointManifest.decode_payload (ff_manifest_bytes facts) = Ok m /\
      check_manifest (IoError:=IoError) f0 facts m = Ok tt;
}.

Lemma verify_footer_inv path f facts facts' :
  verify_footer (IoError:=IoError) path f facts = Ok facts' ->
  facts' = facts /\ exists m, JointManifest.decode_payload (ff_manifest_bytes facts) = Ok m /\
    check_manifest (IoError:=IoError) f facts m = Ok tt.
Proof.
  unfold verify_footer. intros Hr. apply res_bind_ok in Hr as (m & Hm & Hr). apply res_bind_ok in Hr as ([] & Hc & Hr).
  do 7 apply res_bind_ok in Hr as (? & _ & Hr). apply ok_inj in Hr as ->. split; [done|]. exists m. split; [|done].
  destruct (JointManifest.decode_payload _); [by injection Hm as ->|discriminate Hm..].
Qed.

Lemma walk_footer_inv path w f f' :
  walk_footer (IoError:=IoError) path w f = Ok f' -> vf_footer f = None ->
  vf_header f' = vf_header f /\ vf_hello f' = vf_hello f /\ vf_path f' = vf_path f /\ vf_shared f' = vf_shared f /\
  forall facts, vf_footer f' = Some facts -> exists m, JointManifest.decode_payload (ff_manifest_bytes facts) = Ok m /\
    check_manifest (IoError:=IoError) f facts m = Ok tt.
Proof.
  unfold walk_footer. intros Hr Hnone. destruct (footer_start w) as [start|].
  2: { apply ok_inj in Hr as ->. split_and!; try done. by rewrite Hnone. }
  cbv zeta in Hr. destruct (_ <? _); [discriminate Hr|]. apply res_bind_ok in Hr as ([tail w'] & _ & Hr).
  destruct (decode_footer _) as [decoded|e|]; [| |discriminate Hr].
  - apply res_bind_ok in Hr as (mb & _ & Hr). apply res_bind_ok in Hr as (facts & Hv & Hr). apply ok_inj in Hr as ->.
    split_and!; try done. cbn [set_tail vf_footer]. intros facts' [= <-]. apply verify_footer_inv in Hv as [-> Hv]. exact Hv.
  - destruct (_ <=? _); [discriminate Hr|]. apply ok_inj in Hr as ->. split_and!; try done. cbn. by rewrite Hnone.
Qed.

Lemma walk_file_inv path bs f :
  open_file path = Ok bs -> bytes bs -> walk_file (IoError:=IoError) path = Ok f ->
  exists rs tail, accepted path bs f rs tail.
Proof.
  intros Ho Hb Hr. unfold walk_file in Hr. apply res_bind_ok in Hr as (w & Hw & Hr).
  unfold open in Hw. rewrite Ho in Hw. cbn [map_err mbind res_bind] in Hw.
  destruct (_ <? _); [discriminate Hw|]. apply ok_inj in Hw as ->. change (FrameWalker.Mk _ _ _ _) with (walker_at 0 bs false) in Hr.
  apply res_bind_ok in Hr as ([hb w1] & Hs & Hr). unfold run in Hs.
  destruct (skip_header _) as [[hb'| |] w1'] eqn:Hskip; [|discriminate Hs..]. apply ok_inj, pair_eq in Hs as [-> ->].
  apply skip_header_inv in Hskip as (h & rest & -> & Hwf & -> & ->); [|done].
  rewrite (fl_dec _ _ _ _ _ header_layout h Hwf) in Hr. cbn [map_err mbind res_bind] in Hr. cbv zeta in Hr.
  apply res_bind_ok in Hr as ([] & Hbind & Hr). apply res_bind_ok in Hr as ([w2 v] & Hwalk & Hr).
  unfold walk_all in Hwalk. destruct (walk_records _ _ _) as [q|] eqn:Hq; [|discriminate Hwalk]. subst q.
  apply Forall_app in Hb as [_ Hb]. apply walk_records_inv in Hq as (rs & tail & -> & Hrs & Hp & Hend); [|done].
  apply res_bind_ok in Hr as (f0 & Hfin & Hr). apply res_bind_ok in Hr as (f1 & Hfoot & Hr).
  apply res_bind_ok in Hr as ([] & _ & Hr). apply ok_inj in Hr as ->.
  unfold finish_walk, run in Hfin. destruct (flush_batches v) as [[u| |] v'] eqn:Hfl; [|discriminate Hfin..].
  cbn [mbind res_bind] in Hfin. apply ok_inj in Hfin as ->.
  assert (v_header v' = h /\ v_hello v' = AuditContainerHeader.audit_hello h) as [E1 E2].
  { pose proof (flush_setting _ _ _ Hfl) as [A1 A2]. pose proof (process_frames_setting _ _ _ _ Hp) as [B1 B2].
    by rewrite A1, A2, B1, B2. }
  assert (v_shared (v_chains v') = v_shared (v_chains v)) as E3 by (exact (flush_shared _ _ _ Hfl)).
  apply walk_footer_inv in Hfoot as (F1 & F2 & F3 & F4 & F5); [|done].
  cbn [vf_header vf_hello vf_path vf_shared] in *. rewrite E1 in F1. rewrite E2 in F2. exists rs, tail. split.
  - unfold interrupted. by rewrite F1, <- app_assoc.
  - by rewrite F1.
  - by rewrite F1, F2.
  - done.
  - by rewrite F1, F2.
  - done.
  - exists v, w2. rewrite F1. split; [done|]. destruct (header_bytes_facts h Hwf) as [_ Hhl].
    unfold interrupted. rewrite zlen_app, Hhl. exact Hend.
  - intros stream. rewrite F4, E3. by apply (verified_chains _ _ _ _ _ Hp).
  - intros facts Hf. eexists. split; [|split; [|by apply F5]]; cbn; [by rewrite F1, E1|by rewrite F4].
Qed.
End Inversion.

(** ** The manifest *)

Section Manifest.
Context {IoError Path : Type} `{AuditCryptoLaws} `{!RecordFiles IoError Path}.
Implicit Types (f : VerifiedFile Path).

Lemma check_inv b r u : check (IoError:=IoError) b r = Ok u -> b = true.
Proof. by destruct b. Qed.

Lemma snapshot_of_inj a b : snapshot_of a = snapshot_of b -> a = b.
Proof.
  destruct a as [[n1 h1] [n2 h2] [n3 h3] [n4 h4]], b as [[m1 k1] [m2 k2] [m3 k3] [m4 k4]].
  intros He. apply (f_equal SharedSnapshot.streams) in He. cbn in He. by simplify_eq.
Qed.

(** What the manifest of an accepted file says, and who signed it. *)
Lemma check_manifest_inv f facts m :
  check_manifest (IoError:=IoError) f facts m = Ok tt ->
  JointManifest.session_id m = AuditContainerHeader.session_id (vf_header f) /\
  JointManifest.final_snapshot m = snapshot_of (vf_shared f) /\
  by_role (AuditContainerHeader.role (vf_header f)) (AuditContainerHeader.session_pubkey (vf_header f))
    (AuditContainerHeader.peer_session_pubkey (vf_header f))
  = (JointManifest.controller_session_key m, JointManifest.host_session_key m) /\
  signed_by (JointManifest.controller_session_key m) m (ff_controller_signature facts) /\
  signed_by (JointManifest.host_session_key m) m (ff_host_signature facts).
Proof.
  unfold check_manifest. intros Hr.
  apply res_bind_ok in Hr as (? & [_ Hs%bool_decide_eq_true_1]%check_inv%andb_prop & Hr).
  destruct (by_role _ (AuditContainerHeader.session_pubkey _) _) as [ck hk] eqn:Hk.
  apply res_bind_ok in Hr as (? & [<-%bool_decide_eq_true_1 <-%bool_decide_eq_true_1]%check_inv%andb_prop & Hr).
  destruct (by_role _ (AuditContainerHeader.identity_pubkey _) _).
  do 3 apply res_bind_ok in Hr as (? & _ & Hr).
  apply res_bind_ok in Hr as (? & Hsnap%check_inv%bool_decide_eq_true_1 & Hr).
  apply res_bind_ok in Hr as (? & _ & Hr). apply res_bind_ok in Hr as (input & Hin & Hr).
  apply res_bind_ok in Hr as (? & Hc%check_inv & Hh%check_inv).
  assert ((WireBytes.as_slice <$> JointManifest.signing_input m) = Ok input) as Hin'
    by (destruct (_ <$> _); [by apply ok_inj in Hin as ->|discriminate Hin..]).
  split_and!; try done; by exists input.
Qed.
End Manifest.

(** ** Complete pairs *)

Section Pairs.
Context {IoError Path : Type} `{AuditCryptoLaws} `{!RecordFiles IoError Path} `{!AuditDirectory Path}.
Implicit Types (f : VerifiedFile Path).
Local Notation report := (VerificationReport Path).

(** What [verify_walk_pair] checks of two headers, from the controller's side. *)
Record cross_bound (c h : AuditContainerHeader.t) : Prop := {
  cb_session : AuditContainerHeader.session_id c = AuditContainerHeader.session_id h;
  cb_identity : AuditContainerHeader.peer_identity_pubkey c = AuditContainerHeader.identity_pubkey h;
  cb_identity' : AuditContainerHeader.peer_identity_pubkey h = AuditContainerHeader.identity_pubkey c;
  cb_key : AuditContainerHeader.peer_session_pubkey c = AuditContainerHeader.session_pubkey h;
  cb_key' : AuditContainerHeader.peer_session_pubkey h = AuditContainerHeader.session_pubkey c;
  cb_binding : AuditHello.connection_binding (AuditContainerHeader.audit_hello c)
    = AuditHello.connection_binding (AuditContainerHeader.audit_hello h);
}.

(** [c] recorded by a controller and [h] by a host of the same session. *)
Definition paired (c h : AuditContainerHeader.t) : Prop :=
  AuditContainerHeader.role c = AuditRole.Controller /\ AuditContainerHeader.role h = AuditRole.Host /\ cross_bound c h.

Lemma pair_bindings_inv (c h : VerifiedFile Path) :
  pair_bindings (IoError:=IoError) c h = Ok None ->
  vf_hello c = AuditContainerHeader.audit_hello (vf_header c) -> vf_hello h = AuditContainerHeader.audit_hello (vf_header h) ->
  cross_bound (vf_header c) (vf_header h).
Proof.
  unfold pair_bindings. intros Hr Hc Hh. cbv zeta in Hr. rewrite Hc, Hh in Hr.
  repeat case_bool_decide; cbn [orb] in Hr; try discriminate Hr. by split.
Qed.

(** The two complete files behind a report. *)
Lemma verify_complete_inv (c h : VerifiedFile Path) cf hf (r : report) :
  verify_complete c h cf hf = r -> rp_state r <> MismatchState -> rp_state r <> TamperedState ->
  ff_manifest_bytes cf = ff_manifest_bytes hf.
Proof.
  unfold verify_complete. case_bool_decide; [|done]. by intros <-.
Qed.

Definition is_complete (state : VerificationState) : bool :=
  match state with VerifiedComplete | ConsistentCompleteUnanchored => true | _ => false end.

Lemma mismatch_state c h reason : rp_state (mismatch_report (Path:=Path) c h reason) = MismatchState.
Proof. done. Qed.

Lemma check_prefixes_state (c h : VerifiedFile Path) checks r :
  check_prefixes (IoError:=IoError) c h checks = Ok (Some r) -> is_complete (rp_state r) = false /\ rp_state r <> MatchedInterruptedPrefix.
Proof.
  induction checks as [|[f q] checks IH]; cbn [check_prefixes]; [by intros [= <-]|].
  destruct (snapshot_is_prefix _ _) as [[]|[]|]; try done; intros [= <-]; done.
Qed.

Lemma verify_interrupted_state (c h : VerifiedFile Path) r :
  verify_interrupted (IoError:=IoError) c h = Ok r -> is_complete (rp_state r) = false.
Proof.
  unfold verify_interrupted. destruct (last_common_confirmed c h) as [[a b]| |]; [|by intros [= <-]|done].
  intros Hr. apply res_bind_ok in Hr as ([r'|] & Hp & Hr).
  - apply ok_inj in Hr as ->. by apply check_prefixes_state in Hp as [? _].
  - destruct (evidence_differs c h true), (evidence_differs h c false); by apply ok_inj in Hr as ->.
Qed.

(** A report of a pair comes from two accepted files of opposite roles. *)
Lemma verify_pair_inv local peer a b r :
  open_file local = Ok a -> open_file peer = Ok b -> bytes a -> bytes b ->
  verify_files (IoError:=IoError) local (Some peer) = Ok r ->
  rp_state r <> MismatchState -> rp_state r <> TamperedState ->
  exists fl fp rsl rsp tl tp (c h : VerifiedFile Path),
    walk_file (IoError:=IoError) local = Ok fl /\ walk_file (IoError:=IoError) peer = Ok fp /\ accepted (IoError:=IoError) local a fl rsl tl /\ accepted (IoError:=IoError) peer b fp rsp tp /\
    ((c = fl /\ h = fp) \/ (c = fp /\ h = fl)) /\
    paired (vf_header c) (vf_header h) /\
    match vf_footer c, vf_footer h with
    | Some cf, Some hf => verify_complete c h cf hf = r
    | _, _ => verify_interrupted (IoError:=IoError) c h = Ok r
    end.
Proof.
  intros Ha Hb Bb1 Bb2 Hr Hm Ht. unfold verify_files in Hr. destruct (walk_file local) as [fl|e|] eqn:Hl; [|exfalso|done].
  2: { destruct e; try discriminate Hr. apply ok_inj in Hr as ->. done. }
  destruct (walk_file peer) as [fp|e|] eqn:Hp; [|exfalso|done].
  2: { destruct e; try discriminate Hr. apply ok_inj in Hr as ->. done. }
  destruct (walk_file_inv _ _ _ Ha Bb1 Hl) as (rsl & tl & Al). destruct (walk_file_inv _ _ _ Hb Bb2 Hp) as (rsp & tp & Ap).
  unfold verify_walk_pair in Hr. cbv zeta in Hr.
  assert (forall c h : VerifiedFile Path, (mismatch ← pair_bindings (IoError:=IoError) c h;
    match mismatch, vf_footer c, vf_footer h with
    | Some reason, _, _ => Ok (mismatch_report c h reason)
    | None, Some cf, Some hf => Ok (verify_complete c h cf hf)
    | None, _, _ => verify_interrupted c h
    end) = Ok r -> pair_bindings (IoError:=IoError) c h = Ok None /\
    match vf_footer c, vf_footer h with
    | Some cf, Some hf => verify_complete c h cf hf = r
    | _, _ => verify_interrupted (IoError:=IoError) c h = Ok r
    end) as Hcheck.
  { intros c h Hq. apply res_bind_ok in Hq as ([reason|] & Hpb & Hq).
    - exfalso. apply ok_inj in Hq as ->. done.
    - split; [done|]. destruct (vf_footer c), (vf_footer h); try done. by apply ok_inj in Hq. }
  destruct (AuditContainerHeader.role (vf_header fl)) eqn:Rl, (AuditContainerHeader.role (vf_header fp)) eqn:Rp;
    try (exfalso; apply ok_inj in Hr as ->; done).
  - destruct (Hcheck fl fp Hr) as [Hpb Hv]. exists fl, fp, rsl, rsp, tl, tp, fl, fp.
    refine (conj eq_refl (conj eq_refl (conj Al (conj Ap (conj _ (conj (conj _ (conj _ (pair_bindings_inv _ _ Hpb (ac_hello _ _ _ _ _ Al) (ac_hello _ _ _ _ _ Ap)))) Hv)))))); [by left|done..].
  - destruct (Hcheck fp fl Hr) as [Hpb Hv]. exists fl, fp, rsl, rsp, tl, tp, fp, fl.
    refine (conj eq_refl (conj eq_refl (conj Al (conj Ap (conj _ (conj (conj _ (conj _ (pair_bindings_inv _ _ Hpb (ac_hello _ _ _ _ _ Ap) (ac_hello _ _ _ _ _ Al)))) Hv)))))); [by right|done..].
Qed.

(** The manifest in the footer of an accepted file. *)
Lemma accepted_manifest path bs f rs tail facts :
  accepted (IoError:=IoError) path bs f rs tail -> vf_footer f = Some facts ->
  exists m sig, JointManifest.decode_payload (ff_manifest_bytes facts) = Ok m /\
    JointManifest.session_id m = AuditContainerHeader.session_id (vf_header f) /\
    JointManifest.final_snapshot m = snapshot_of (vf_shared f) /\
    signed_by (AuditContainerHeader.session_pubkey (vf_header f)) m sig.
Proof.
  intros Hac Hf. destruct (ac_footer _ _ _ _ _ Hac facts Hf) as (f0 & E1 & E2 & m & Hm & Hck).
  apply check_manifest_inv in Hck as (H1 & H2 & H3 & H4 & H5). rewrite E1, ?E2 in *. unfold by_role in H3.
  exists m. destruct (AuditContainerHeader.role _); apply pair_eq in H3 as [E3 E4]; [rewrite E3|rewrite E4]; by eexists.
Qed.

(** C12: A complete pair agrees on every shared event.  When [verify_files] reports two files
    as a complete pair (anchored or not), the files were recorded by a controller and a host
    of one session whose headers name each other's identity and session keys; one manifest
    for that session is signed by the session keys of both; and on each of the four shared
    streams the two files hold exactly the same sequence of events, unless SHA-256 collides on
    two different strings that are hashed at the same place of that stream's chains of these
    two files. *)
Theorem complete_pair_agrees local peer a b report :
  open_file local = Ok a -> open_file peer = Ok b -> bytes a -> bytes b ->
  verify_files (IoError:=IoError) local (Some peer) = Ok report -> is_complete (rp_state report) = true ->
  exists ha rsa ta hb rsb tb m sa sb,
    a = interrupted ha rsa ++ ta /\ b = interrupted hb rsb ++ tb /\
    Forall record_wf rsa /\ Forall record_wf rsb /\ (paired ha hb \/ paired hb ha) /\
    JointManifest.session_id m = AuditContainerHeader.session_id ha /\
    signed_by (AuditContainerHeader.session_pubkey ha) m sa /\
    signed_by (AuditContainerHeader.session_pubkey hb) m sb /\
    forall stream, events (IoError:=IoError) stream rsa = events (IoError:=IoError) stream rsb \/
      collision stream (events (IoError:=IoError) stream rsa) (events (IoError:=IoError) stream rsb).
Proof.
  intros Ha Hb Ba Bb Hr Hst.
  assert (rp_state report <> MismatchState) as N1 by (intros E; by rewrite E in Hst).
  assert (rp_state report <> TamperedState) as N2 by (intros E; by rewrite E in Hst).
  destruct (verify_pair_inv _ _ _ _ _ Ha Hb Ba Bb Hr N1 N2)
    as (fa & fb & rsa & rsb & ta & tb & c & h & Wa & Wb & Aa & Ab & Hside & Hpair & Hv).
  destruct (vf_footer c) as [cf|] eqn:Hcf; [|by rewrite (verify_interrupted_state _ _ _ Hv) in Hst].
  destruct (vf_footer h) as [hf|] eqn:Hhf; [|by rewrite (verify_interrupted_state _ _ _ Hv) in Hst].
  pose proof (verify_complete_inv _ _ _ _ _ Hv N1 N2) as Hsame.
  assert (exists fta ftb, vf_footer fa = Some fta /\ vf_footer fb = Some ftb /\
    ff_manifest_bytes fta = ff_manifest_bytes ftb /\ (paired (vf_header fa) (vf_header fb) \/ paired (vf_header fb) (vf_header fa)))
    as (fta & ftb & Fa & Fb & Hbytes & Hp).
  { destruct Hside as [[-> ->]|[-> ->]]; [exists cf, hf|exists hf, cf]; split_and!; auto. }
  destruct (accepted_manifest _ _ _ _ _ _ Aa Fa) as (m & sa & Dm & Sm & Nm & Ga).
  destruct (accepted_manifest _ _ _ _ _ _ Ab Fb) as (m' & sb & Dm' & _ & Nm' & Gb).
  rewrite Hbytes, Dm' in Dm. apply ok_inj in Dm as ->.
  rewrite Nm in Nm'. apply snapshot_of_inj in Nm'.
  exists (vf_header fa), rsa, ta, (vf_header fb), rsb, tb, m', sa, sb.
  refine (conj (ac_bytes _ _ _ _ _ Aa) (conj (ac_bytes _ _ _ _ _ Ab) (conj (ac_records _ _ _ _ _ Aa)
    (conj (ac_records _ _ _ _ _ Ab) (conj Hp (conj Sm (conj Ga (conj Gb _)))))))).
  intros stream. apply (chain_binds stream). rewrite <- (ac_chains _ _ _ _ _ Aa), <- (ac_chains _ _ _ _ _ Ab). by rewrite Nm'.
Qed.

(** ** Interrupted pairs *)

(** The chain of a stream stands at what a snapshot says of it. *)
Definition stands_at (target : SharedSnapshot.t) (stream : SharedStream.t) (c : SharedChain) : Prop :=
  SharedSnapshot.get target stream = Ok (StreamSnapshot.new (chain_count c) (chain_head c)).

Lemma expect_get target stream e :
  expect (F:=StreamError IoError) (SharedSnapshot.get target stream) = Ok e -> SharedSnapshot.get target stream = Ok e.
Proof. unfold expect. destruct (SharedSnapshot.get _ _); [by intros [= ->]|done..]. Qed.

Lemma reached_now_inv target shared streams reached reached' :
  reached_now (IoError:=IoError) target shared streams reached = Ok (Some reached') ->
  forall stream, stream_get reached' stream = true ->
    stream_get reached stream = true \/ stands_at target stream (stream_get shared stream).
Proof.
  revert reached. induction streams as [|x streams IH]; intros reached Hr stream Ht; cbn [reached_now] in Hr.
  { apply ok_inj, (inj Some) in Hr as ->. by left. }
  destruct (stream_get reached x); [by eapply IH|]. apply res_bind_ok in Hr as (e & He%expect_get & Hr).
  destruct (Z.eqb_spec (chain_count (stream_get shared x)) (StreamSnapshot.count e)) as [Hc|].
  - case_bool_decide as Hd; [discriminate Hr|].
    destruct (IH _ Hr stream Ht) as [Hx|]; [|by right]. destruct (decide (stream = x)) as [->|Hne].
    + right. unfold stands_at. rewrite He, Hc, Hd. by destruct e.
    + left. by destruct stream, x.
  - destruct (_ <? _); [discriminate Hr|]. by eapply IH.
Qed.

Lemma reached_at_start_inv target streams reached reached' :
  reached_at_start (IoError:=IoError) target streams reached = Ok (Some reached') ->
  forall stream, stream_get reached' stream = true ->
    stream_get reached stream = true \/ stands_at target stream empty_chain.
Proof.
  revert reached. induction streams as [|x streams IH]; intros reached Hr stream Ht; cbn [reached_at_start] in Hr.
  { apply ok_inj, (inj Some) in Hr as ->. by left. }
  apply res_bind_ok in Hr as (e & He%expect_get & Hr). destruct (Z.eqb_spec (StreamSnapshot.count e) 0) as [Hc|]; [|by eapply IH].
  case_bool_decide as Hd; [discriminate Hr|]. destruct (IH _ Hr stream Ht) as [Hx|]; [|by right].
  destruct (decide (stream = x)) as [->|Hne]; [right|left; by destruct stream, x].
  unfold stands_at. rewrite He. destruct e as [n k]. cbn in Hc, Hd. by subst.
Qed.

(** A pass that found every stream found each after some of the records. *)
Lemma prefix_loop_inv fuel target pos rs tail tr v reached v' w :
  Forall record_wf rs -> process_frames (IoError:=IoError) rs v = (Ok tt, v') ->
  next_frame (IoError:=IoError) (walker_at (pos + zlen (frames_bytes rs)) tail tr) = (Ok None, w) ->
  prefix_loop (IoError:=IoError) fuel target (walker_at pos (frames_bytes rs ++ tail) tr) v reached = Some (Ok true) ->
  forall stream, stream_get reached stream = true \/
    exists n v1, process_frames (IoError:=IoError) (take n rs) v = (Ok tt, v1) /\
      stands_at target stream (stream_get (v_shared (v_chains v1)) stream).
Proof.
  intros Hrs. revert fuel pos v reached. induction Hrs as [|r rs Hwf Hrs IH]; intros fuel pos v reached Hp Hend Hr stream;
    (destruct fuel as [|fuel]; [discriminate Hr|]); cbn [prefix_loop] in Hr.
  - change (zlen (frames_bytes [])) with 0 in Hend. rewrite Z.add_0_r in Hend. change (frames_bytes [] ++ tail) with tail in Hr.
    rewrite Hend in Hr. left. apply (inj Some), ok_inj in Hr. symmetry in Hr.
    cbn [stream_list forallb id] in Hr. rewrite !andb_true_iff in Hr. destruct Hr as (E1 & E2 & E3 & E4 & _). by destruct stream.
  - rewrite frames_bytes_cons, <- app_assoc in Hr. rewrite next_frame_record in Hr by done.
    unfold process_frames in Hp. cbn [for_each] in Hp. apply stm_bind_ok in Hp as ([] & v1 & H1 & Hp).
    destruct r as [t p]. cbn [fst snd] in H1. rewrite H1 in Hr.
    destruct (reached_now _ _ _ _) as [[reached1|]| |] eqn:Hn; [|discriminate Hr..].
    rewrite frames_bytes_cons, zlen_app, Z.add_assoc in Hend.
    destruct (IH _ _ _ _ Hp Hend Hr stream) as [Hx|(n & v2 & Hv2 & Hs)].
    + destruct (reached_now_inv _ _ _ _ _ Hn stream Hx) as [|Hs]; [by left|]. right. exists 1%nat, v1. split; [|done].
      unfold process_frames. cbn [take for_each]. by rewrite (stm_bind_step _ _ tt _ v1).
    + right. exists (S n), v2. split; [|done]. unfold process_frames in *. cbn [take for_each].
      by rewrite (stm_bind_step _ _ tt _ v1).
Qed.

(** A snapshot that is a prefix of an accepted file. *)
Lemma snapshot_prefix_inv path bs f rs tail target :
  accepted (IoError:=IoError) path bs f rs tail -> open_file path = Ok bs ->
  snapshot_is_prefix (IoError:=IoError) path target = Ok true ->
  forall stream, exists n, stands_at target stream (chain_of stream (events (IoError:=IoError) stream (take n rs))).
Proof.
  intros Hac Ho Hr stream. pose proof (ac_bytes _ _ _ _ _ Hac) as ->. pose proof (ac_header _ _ _ _ _ Hac) as Hh.
  destruct (ac_walk _ _ _ _ _ Hac) as (v & w & Hp & Hend). set (h := vf_header f) in *.
  destruct (header_bytes_facts h Hh) as [_ Hhl]. unfold interrupted in *. rewrite <- app_assoc in Ho.
  unfold snapshot_is_prefix in Hr. rewrite (open_eq _ _ _ Hh Ho) in Hr. cbn [mbind res_bind] in Hr.
  unfold run in Hr at 1. rewrite (skip_header_eq h _ Hh) in Hr. cbn [mbind res_bind] in Hr.
  rewrite (fl_dec _ _ _ _ _ header_layout h Hh) in Hr. cbn [map_err mbind res_bind] in Hr. cbv zeta in Hr.
  apply res_bind_ok in Hr as ([reached|] & Hs & Hr); [|discriminate Hr].
  destruct (prefix_loop _ _ _ _ _) as [q|] eqn:Hq; [|discriminate Hr]. subst q. rewrite zlen_app, Hhl in Hend.
  destruct (prefix_loop_inv _ _ _ _ _ _ _ _ _ _ (ac_records _ _ _ _ _ Hac) Hp Hend Hq stream) as [Hx|(n & v1 & Hv1 & Hst)].
  - exists 0%nat. destruct (reached_at_start_inv _ _ _ _ Hs stream Hx) as [Hy|]; [by destruct stream|done].
  - exists n. by rewrite <- (verified_chains _ _ _ _ _ Hv1 stream).
Qed.

Lemma check_prefixes_inv (c h : VerifiedFile Path) checks f q :
  check_prefixes (IoError:=IoError) c h checks = Ok None -> (f, q) ∈ checks ->
  snapshot_is_prefix (IoError:=IoError) (vf_path f) (ref_snapshot q) = Ok true.
Proof.
  induction checks as [|[f' q'] checks IH]; cbn [check_prefixes]; [by intros _ ?%not_elem_of_nil|].
  destruct (snapshot_is_prefix (vf_path f') _) as [[]|[]|] eqn:Hp; try done. intros Hr [[-> ->]%pair_eq|Hin]%elem_of_cons; auto.
Qed.

(** Both lists of records reach the snapshot of [q] on every stream, with the same events. *)
Definition shared_prefix (q : CheckpointRef) (rs rs' : list record) : Prop :=
  forall stream, exists e n n', SharedSnapshot.get (ref_snapshot q) stream = Ok e /\
    zlen (events (IoError:=IoError) stream (take n rs)) = StreamSnapshot.count e /\
    (events (IoError:=IoError) stream (take n rs) = events (IoError:=IoError) stream (take n' rs') \/
     collision stream (events (IoError:=IoError) stream (take n rs)) (events (IoError:=IoError) stream (take n' rs'))).

Lemma stands_at_same target stream es es' :
  stands_at target stream (chain_of stream es) -> stands_at target stream (chain_of stream es') ->
  es = es' \/ collision stream es es'.
Proof.
  unfold stands_at. intros -> He. apply ok_inj in He. apply (chain_binds stream).
  destruct (chain_of stream es), (chain_of stream es'). cbn in He. by simplify_eq.
Qed.

(** C13: An interrupted pair agrees up to every confirmed checkpoint.  When [verify_files]
    reports a matched interrupted prefix, the two files were recorded by a controller and a
    host of one session; and both files reach the snapshot of the confirmed checkpoint that
    they have in common in each direction, on every shared stream: the records up to it
    contain as many events as it says, and the same events in both files, unless SHA-256
    collides on two different strings that are hashed at the same place of the chains of
    these events. *)
Theorem interrupted_pair_agrees local peer a b report :
  open_file local = Ok a -> open_file peer = Ok b -> bytes a -> bytes b ->
  verify_files (IoError:=IoError) local (Some peer) = Ok report -> rp_state report = MatchedInterruptedPrefix ->
  exists fa rsa ta fb rsb tb (c h : VerifiedFile Path) x y,
    walk_file (IoError:=IoError) local = Ok fa /\ walk_file (IoError:=IoError) peer = Ok fb /\
    a = interrupted (vf_header fa) rsa ++ ta /\ b = interrupted (vf_header fb) rsb ++ tb /\
    ((c = fa /\ h = fb) \/ (c = fb /\ h = fa)) /\
    paired (vf_header c) (vf_header h) /\ last_common_confirmed c h = Ok (x, y) /\
    forall q, x = Some q \/ y = Some q -> shared_prefix q rsa rsb.
Proof.
  intros Ha Hb Ba Bb Hr Hst.
  assert (rp_state report <> MismatchState) as N1 by (by rewrite Hst).
  assert (rp_state report <> TamperedState) as N2 by (by rewrite Hst).
  destruct (verify_pair_inv _ _ _ _ _ Ha Hb Ba Bb Hr N1 N2)
    as (fa & fb & rsa & rsb & ta & tb & c & h & Wa & Wb & Aa & Ab & Hside & Hpair & Hv).
  assert (verify_interrupted (IoError:=IoError) c h = Ok report) as Hi.
  { destruct (vf_footer c), (vf_footer h); try done. exfalso. rewrite <- Hv in Hst. clear -Hst.
    unfold verify_complete in Hst. repeat case_match; try discriminate Hst. }
  clear Hv. unfold verify_interrupted in Hi. destruct (last_common_confirmed c h) as [[x y]| |] eqn:Hc; [|exfalso|done].
  2: { apply ok_inj in Hi as ->. discriminate Hst. }
  apply res_bind_ok in Hi as ([r'|] & Hp & Hi).
  { apply ok_inj in Hi as ->. by apply check_prefixes_state in Hp as [_ ?]. } clear Hi.
  exists fa, rsa, ta, fb, rsb, tb, c, h, x, y. split; [exact Wa|]. split; [exact Wb|].
  split; [apply (ac_bytes _ _ _ _ _ Aa)|]. split; [apply (ac_bytes _ _ _ _ _ Ab)|].
  split; [exact Hside|]. split; [done|]. split; [done|]. intros q Hq stream.
  assert (forall f, f = c \/ f = h -> snapshot_is_prefix (IoError:=IoError) (vf_path f) (ref_snapshot q) = Ok true) as Hpre.
  { intros f Hf. eapply check_prefixes_inv; [exact Hp|]. apply list_elem_of_bind. exists q. split.
    - apply list_elem_of_bind. exists f. split; [by apply list_elem_of_singleton|]. destruct Hf as [-> | ->]; set_solver.
    - destruct Hq as [-> | ->]; set_solver. }
  assert (fa = c \/ fa = h) as Ia by (destruct Hside as [[-> ->]|[-> ->]]; auto).
  assert (fb = c \/ fb = h) as Ib by (destruct Hside as [[-> ->]|[-> ->]]; auto).
  pose proof (Hpre fa Ia) as Pa. pose proof (Hpre fb Ib) as Pb. rewrite (ac_path _ _ _ _ _ Aa) in Pa. rewrite (ac_path _ _ _ _ _ Ab) in Pb.
  destruct (snapshot_prefix_inv _ _ _ _ _ _ Aa Ha Pa stream) as (n & Sa).
  destruct (snapshot_prefix_inv _ _ _ _ _ _ Ab Hb Pb stream) as (n' & Sb).
  eexists _, n, n'. split; [exact Sa|]. cbn [StreamSnapshot.count]. split; [by rewrite chain_of_count|].
  by eapply stands_at_same.
Qed.
End Pairs.
