(* ===== verification/FileExample.v ===== *)
(** * Record files, written and verified

    Two sessions that handshake with each other, record, exchange manifests and finish their
    files, and the files of the same sessions interrupted, with the instances of
    [AuditExample] and a file system whose paths are the contents of the files. *)

From stdpp Require Import strings.
From S2P Require Import Prelude Domain Codec Layout WireAudit AuditCodecs AuditContainer AuditSigning ContainerCodecs AuditWriter Stateful AuditEvents AuditSession AuditNormalize ChainVerifier AuditTrace AuditSimulation AuditControlSim AuditPointSim AuditCloseSim AuditRun AuditIdentity AuditExample FileVerifier FileDigests FileWalk VerifierSteps FileRun FinishedFile PairVerifier PairAgreement.
Open Scope string_scope.
Open Scope list_scope.
Open Scope Z_scope.

(** ** The instances *)

(** Reading never returns more than 700 bytes at a time. *)
#[export] Instance toy_files : RecordFiles string (list Z) := {
  open_file path := Ok path;
  unexpected_eof := "unexpected end of file";
  read_size _ _ := 700;
}.

#[export] Instance toy_directory : AuditDirectory (list Z) := {
  regular_file _ := None;
  read_dir _ := None;
  is_record_path _ := false;
  state_path p := p;
  records_path p := p;
  local_anchor := None;
}.

#[export] Instance toy_file : AsyncFile (IoError:=string) (list Z) := {
  write_all f b := (None, f ++ b);
  sync_all f := (None, f);
  contents f := f;
}.

#[export] Instance toy_file_laws : AsyncFileLaws (IoError:=string) (list Z).
Proof. constructor; cbn; by intros; simplify_eq. Qed.

Local Notation toy_session := (session AuditIdentity.t toy_ledger).

(** ** The two sides *)

Definition side_ops : list (op * Z) :=
  [(Input [108; 115; 10], 2); (SendCheckpoint Observation, 3); (Close AuditCloseReason.NormalShellExit, 11)].

Lemma controller_ready_ok : is_ok (E:=string) (ok_or (ready (peer controller1)) "none") = true.
Proof. vm_compute. reflexivity. Qed.
Definition controller_ready : AuditReady.t := get_ok _ controller_ready_ok.

Definition host_handshake := handshake (IoError:=string) (hello (own controller0)) (contribution (own controller0))
  toy_digest controller_ready host0.
Lemma host_handshake_ok : is_ok host_handshake.1 = true.
Proof. vm_compute. reflexivity. Qed.
Definition host_header : AuditContainerHeader.t := get_ok _ host_handshake_ok.
Definition host1 : toy_session := host_handshake.2.

Definition controller_side := run_ops (IoError:=string) side_ops (controller1, None).
Lemma controller_side_ok : is_ok controller_side.1 = true.
Proof. vm_compute. reflexivity. Qed.
Definition host_side := run_ops (IoError:=string) side_ops (host1, None).
Lemma host_side_ok : is_ok host_side.1 = true.
Proof. vm_compute. reflexivity. Qed.

(** Both build their manifests and exchange them. *)
Definition controller_manifest := build_manifest (IoError:=string) (ManifestEnding.ShellExit 0) true 13 controller_side.2.1.
Lemma controller_manifest_ok : is_ok controller_manifest.1 = true.
Proof. vm_compute. reflexivity. Qed.
Definition cm := get_ok _ controller_manifest_ok.
Definition host_manifest := build_manifest (IoError:=string) (ManifestEnding.ShellExit 0) true 14 host_side.2.1.
Lemma host_manifest_ok : is_ok host_manifest.1 = true.
Proof. vm_compute. reflexivity. Qed.
Definition hm := get_ok _ host_manifest_ok.

Definition controller_pair := receive_peer_manifest_pair (IoError:=string) cm.1.1 hm.1.1 hm.1.2 15 controller_manifest.2.
Lemma controller_pair_ok : is_ok controller_pair.1 = true.
Proof. vm_compute. reflexivity. Qed.
Definition host_pair := receive_peer_manifest_pair (IoError:=string) hm.1.1 cm.1.1 cm.1.2 16 host_manifest.2.
Lemma host_pair_ok : is_ok host_pair.1 = true.
Proof. vm_compute. reflexivity. Qed.

(** The records of both. *)
Definition controller_batches : RecordBatch :=
  get_ok _ controller_side_ok ++ cm.2 ++ get_ok _ controller_pair_ok.
Definition host_batches : RecordBatch := get_ok _ host_side_ok ++ hm.2 ++ get_ok _ host_pair_ok.

Lemma controller_frames_ok : is_ok (batch_frames (E:=toy_error) controller_batches) = true.
Proof. vm_compute. reflexivity. Qed.
Definition controller_records := get_ok _ controller_frames_ok.
Lemma host_frames_ok : is_ok (batch_frames (E:=toy_error) host_batches) = true.
Proof. vm_compute. reflexivity. Qed.
Definition host_records := get_ok _ host_frames_ok.

(** A writer whose file holds a header and records. *)
Definition writer_of (b : list Z) : task (IoError:=string) (F:=list Z) := Task (St b b Recording) None.

Lemma writer_holds b : holds (writer_of b) b.
Proof. done. Qed.

Definition controller_end := finalize_footer (IoError:=string) cm.1.1 cm.1.2 hm.1.2
  (controller_pair.2, writer_of (interrupted toy_header controller_records)).
Lemma controller_end_ok : is_ok controller_end.1 = true.
Proof. vm_compute. reflexivity. Qed.
Definition host_end := finalize_footer (IoError:=string) hm.1.1 hm.1.2 cm.1.2
  (host_pair.2, writer_of (interrupted host_header host_records)).
Lemma host_end_ok : is_ok host_end.1 = true.
Proof. vm_compute. reflexivity. Qed.

(** The finished files. *)
Definition controller_file : list Z := contents (file (AuditWriter.st controller_end.2.2)).
Definition host_file : list Z := contents (file (AuditWriter.st host_end.2.2)).

Definition pair_report := verify_files (IoError:=string) controller_file (Some host_file).
Lemma pair_report_ok : is_ok pair_report = true.
Proof. vm_compute. reflexivity. Qed.
Lemma pair_report_state : is_complete (rp_state (get_ok _ pair_report_ok)) = true.
Proof. vm_compute. reflexivity. Qed.

(** ** The hypotheses of the theorems *)

Definition bytesb (l : list Z) : bool := forallb (fun b => (0 <=? b) && (b <? 256)) l.

Lemma bytesb_ok l : bytesb l = true -> bytes l.
Proof.
  intros Hb. apply Forall_forall. intros b Hin. unfold bytesb in Hb. rewrite forallb_forall in Hb.
  apply list_elem_of_In in Hin. specialize (Hb _ Hin). unfold is_u8. lia.
Qed.

Definition record_wfb (r : record) : bool := bytesb r.2 && is_ok (validate_frame_len r.1 (1 + zlen r.2)).

Lemma record_wfb_ok r : record_wfb r = true -> record_wf r.
Proof.
  intros [Hb Hv]%andb_prop. split; [by apply bytesb_ok|]. by destruct (validate_frame_len _ _) as [[]| |].
Qed.

Lemma records_wfb_ok rs : forallb record_wfb rs = true -> Forall record_wf rs.
Proof.
  intros Hb. apply Forall_forall. intros r Hin. rewrite forallb_forall in Hb. apply record_wfb_ok, Hb. by apply list_elem_of_In.
Qed.

Definition hello_wfb (h : AuditHello.t) : bool :=
  arrayb 32 (raw (AuditHello.persistent_audit_key h)) && arrayb 32 (raw (AuditHello.session_key h))
  && arrayb 32 (raw (AuditHello.nonce h)) && u64b (AuditHello.ledger_sequence h)
  && arrayb 32 (raw (AuditHello.ledger_root h)) && arrayb 32 (raw (AuditHello.connection_binding h))
  && ((1 <=? AuditHello.format_version h) && (AuditHello.format_version h <? 2 ^ 16))
  && arrayb 32 (raw (AuditHello.input_commitment h)) && arrayb 64 (raw (AuditHello.signature h)).

Lemma hello_wfb_ok h : hello_wfb h = true -> hello_wf h.
Proof.
  unfold hello_wfb. intros [[[[[[[[H1 H2]%andb_prop H3]%andb_prop H4]%andb_prop H5]%andb_prop H6]%andb_prop
    [H7 H7']%andb_prop]%andb_prop H8]%andb_prop H9]%andb_prop.
  refine (conj (arrayb_ok _ _ H1) (conj (arrayb_ok _ _ H2) (conj (arrayb_ok _ _ H3) (conj (u64b_ok _ H4)
    (conj (arrayb_ok _ _ H5) (conj (arrayb_ok _ _ H6) (conj _ (conj (arrayb_ok _ _ H8) (arrayb_ok _ _ H9))))))))).
  unfold is_u16. lia.
Qed.

Lemma toy_snapshot n root : snapshot (IoError:=string) (tt : toy_ledger) = Ok (n, root) -> is_u64 n /\ FixedBytes.wf root.
Proof. cbn. intros [= <- <-]. split; [by unfold is_u64|apply arrayb_ok; reflexivity]. Qed.

Lemma toy_ledger_bounded : ledger_bounded (IoError:=string) (L:=toy_ledger).
Proof. intros l l' n root. cbn. intros [= <- <- _]. split; [by unfold is_u64|apply arrayb_ok; reflexivity]. Qed.

Lemma side_ops_wf : Forall (fun o => op_wf o.1 /\ is_u64 o.2) side_ops.
Proof. repeat constructor; cbn; try done; unfold is_u64; lia. Qed.

#[local] Strategy opaque [handshake run_ops new_from build_manifest receive_peer_manifest_pair finalize_footer verify_files walk_file].

Lemma controller_recorded :
  recorded (IoError:=string) toy_header (get_ok _ controller_side_ok) controller_side.2.1 None.
Proof.
  exists AuditRole.Controller, (AuditIdentity.Mk [10]), (tt : toy_ledger), toy_binding, 1700000000, (to_be_bytes 32 (10 + 1)),
    (to_be_bytes 32 (10 + 2)), (to_be_bytes 32 (10 + 3)), controller0, (hello (own host0)), (contribution (own host0)),
    toy_digest, host_ready, controller1, side_ops.
  split; [exact (get_ok_eq _ controller_ok)|].
  split; [apply arrayb_ok; vm_compute; reflexivity|]. split; [apply arrayb_ok; reflexivity|].
  split; [unfold is_u64; lia|]. split; [exact toy_snapshot|].
  split; [apply hello_wfb_ok; vm_compute; reflexivity|]. split; [apply toy_digest_wf|].
  split; [exact toy_handshake_eq|]. split; [exact side_ops_wf|]. split; [done|].
  assert (controller_side.2.2 = None) as Hnone by (vm_compute; reflexivity).
  pose proof (run_pair_eq controller_side controller_side_ok) as Heq. rewrite Hnone in Heq. exact Heq.
Qed.

Lemma toy_cut : cut_record (prefix_of (frame_bytes (RecordType.LocalCloseEvent, zeros 1300)) 1200) 1200.
Proof.
  exists (RecordType.LocalCloseEvent, zeros 1300). split; [apply record_wfb_ok; vm_compute; reflexivity|].
  split; [|reflexivity]. assert (zlen (frame_bytes (RecordType.LocalCloseEvent, zeros 1300)) = 1305) as -> by (vm_compute; reflexivity).
  lia.
Qed.

Lemma side_frames_ok : is_ok (batch_frames (E:=toy_error) (get_ok _ controller_side_ok)) = true.
Proof. vm_compute. reflexivity. Qed.
Definition side_records := get_ok _ side_frames_ok.

Lemma side_records_wf : Forall record_wf side_records.
Proof. apply records_wfb_ok. vm_compute. reflexivity. Qed.

(** ** The theorems at these files *)

Lemma interrupted_file_verifies_witness :
  exists f, walk_file (IoError:=string) (interrupted toy_header side_records
      ++ prefix_of (frame_bytes (RecordType.LocalCloseEvent, zeros 1300)) 3) = Ok f /\
    vf_header f = toy_header /\
    vf_shared f = shared (chains controller_side.2.1) /\ vf_local_head f = local_head (chains controller_side.2.1) /\
    vf_local_count f = local_count (chains controller_side.2.1) /\ vf_footer f = None /\ vf_truncated_tail f = true.
Proof.
  apply (interrupted_file_verifies (IoError:=string) (L:=toy_ledger) _ toy_header (get_ok _ controller_side_ok) controller_side.2.1 None
    side_records (prefix_of (frame_bytes (RecordType.LocalCloseEvent, zeros 1300)) 3) 3).
  - exact controller_recorded.
  - exact (get_ok_eq _ side_frames_ok).
  - exact side_records_wf.
  - right. split; [|lia]. exists (RecordType.LocalCloseEvent, zeros 1300). split; [apply record_wfb_ok; vm_compute; reflexivity|].
    split; [|reflexivity]. assert (zlen (frame_bytes (RecordType.LocalCloseEvent, zeros 1300)) = 1305) as -> by (vm_compute; reflexivity).
    lia.
  - reflexivity.
Defined.

(** One input of a whole block: its commitment names the block's head, and the record of
    the block follows in the same batch. *)
Definition block_side := run_ops (IoError:=string) [(Input (zeros CANONICAL_BLOCK_LEN), 2)] (controller1, None).
Lemma block_side_ok : is_ok block_side.1 = true.
Proof. vm_compute. reflexivity. Qed.
Lemma block_frames_ok : is_ok (batch_frames (E:=toy_error) (get_ok _ block_side_ok)) = true.
Proof. vm_compute. reflexivity. Qed.
Definition block_records := get_ok _ block_frames_ok.

(** A file cut between two records of one batch is reported as tampered: the block that
    the commitment names is missing.  This is why [interrupted_file_verifies] cuts after
    whole batches. *)
Example mid_batch_cut_misreported :
  fst <$> block_records = [RecordType.LocalInputCommitment; RecordType.SharedInputCommitment] /\
  is_ok (walk_file (IoError:=string) (interrupted toy_header block_records)) = true /\
  walk_file (IoError:=string) (interrupted toy_header (take 1 block_records))
  = Err (Tampered "the local audit chain is inconsistent").
Proof. by vm_compute. Qed.

Lemma truncated_record_misreported_witness :
  walk_file (IoError:=string) (interrupted toy_header side_records
      ++ prefix_of (frame_bytes (RecordType.LocalCloseEvent, zeros 1300)) 1200)
  = Err (Tampered "the audit container has trailing bytes").
Proof.
  apply (truncated_record_misreported (IoError:=string) (L:=toy_ledger) _ toy_header (get_ok _ controller_side_ok) controller_side.2.1 None
    side_records (prefix_of (frame_bytes (RecordType.LocalCloseEvent, zeros 1300)) 1200) 1200).
  - exact controller_recorded.
  - exact (get_ok_eq _ side_frames_ok).
  - exact side_records_wf.
  - exact toy_cut.
  - lia.
  - reflexivity.
Defined.

Lemma manifest_run_eq :
  controller_manifest = (Ok (cm.1.1, cm.1.2, cm.2), controller_manifest.2).
Proof.
  assert (cm = (cm.1.1, cm.1.2, cm.2)) as E by (by destruct cm as [[? ?] ?]). rewrite <- E.
  exact (run_ok_eq controller_manifest controller_manifest_ok).
Qed.

Lemma controller_end_eq : controller_end = (Ok tt, (controller_end.2.1, controller_end.2.2)).
Proof.
  pose proof (run_pair_eq controller_end controller_end_ok) as E. by destruct (get_ok controller_end.1 controller_end_ok).
Qed.

Lemma finished_file_verifies_witness :
  exists f facts, walk_file (IoError:=string) controller_file = Ok f /\ vf_header f = toy_header /\
    vf_shared f = shared (chains controller_pair.2) /\ vf_local_head f = local_head (chains controller_pair.2) /\
    vf_local_count f = local_count (chains controller_pair.2) /\ vf_footer f = Some facts /\
    ff_manifest_bytes facts = concat (manifest_fields cm.1.1) /\ vf_truncated_tail f = false /\
    phase controller_end.2.1 = AuditSession.Finished.
Proof.
  apply (finished_file_verifies (IoError:=string) (L:=toy_ledger) controller_file toy_header (get_ok _ controller_side_ok)
    controller_side.2.1 (ManifestEnding.ShellExit 0) true 13 cm.1.1 cm.1.2 cm.2 controller_manifest.2 hm.1.1 hm.1.2 15
    (get_ok _ controller_pair_ok) controller_pair.2 controller_records
    (writer_of (interrupted toy_header controller_records)) tt controller_end.2.1 controller_end.2.2).
  - exact controller_recorded.
  - exact manifest_run_eq.
  - unfold ManifestEnding.wf, is_u32. lia.
  - unfold is_u64. lia.
  - exact (run_ok_eq controller_pair controller_pair_ok).
  - apply arrayb_ok. vm_compute. reflexivity.
  - unfold is_u64. lia.
  - exact (get_ok_eq _ controller_frames_ok).
  - apply records_wfb_ok. vm_compute. reflexivity.
  - apply writer_holds.
  - exact toy_ledger_bounded.
  - exact controller_end_eq.
  - reflexivity.
Defined.

Lemma complete_pair_agrees_witness :
  exists ha rsa ta hb rsb tb m sa sb,
    controller_file = interrupted ha rsa ++ ta /\ host_file = interrupted hb rsb ++ tb /\
    Forall record_wf rsa /\ Forall record_wf rsb /\ (paired ha hb \/ paired hb ha) /\
    JointManifest.session_id m = AuditContainerHeader.session_id ha /\
    signed_by (AuditContainerHeader.session_pubkey ha) m sa /\
    signed_by (AuditContainerHeader.session_pubkey hb) m sb /\
    forall stream, events (IoError:=string) stream rsa = events (IoError:=string) stream rsb \/
      collision stream (events (IoError:=string) stream rsa) (events (IoError:=string) stream rsb).
Proof.
  apply (complete_pair_agrees (IoError:=string) controller_file host_file controller_file host_file (get_ok _ pair_report_ok)).
  - reflexivity.
  - reflexivity.
  - apply bytesb_ok. vm_compute. reflexivity.
  - apply bytesb_ok. vm_compute. reflexivity.
  - exact (get_ok_eq _ pair_report_ok).
  - exact pair_report_state.
Defined.

Lemma prefix_digests_terminate_witness :
  compute_prefix_digests (IoError:=string) (zeros 1200) (facts_of 0 example_footer (FixedBytes.new (zeros 32)))
  = Ok (Digests (sha256 (zeros 538)) (sha256 (zeros 869)) (sha256 (zeros 1104))).
Proof.
  assert (ff_sealed_prefix_end (facts_of 0 example_footer (FixedBytes.new (zeros 32))) = 538 /\
    ff_seal_end (facts_of 0 example_footer (FixedBytes.new (zeros 32))) = 869 /\
    ff_ledger_end (facts_of 0 example_footer (FixedBytes.new (zeros 32))) = 1104) as (E1 & E2 & E3)
    by (vm_compute; done).
  rewrite (prefix_digests_terminate (zeros 1200) (zeros 1200) (facts_of 0 example_footer (FixedBytes.new (zeros 32))));
    [|reflexivity|lia|lia].
  rewrite E1, E2, E3. vm_compute. reflexivity.
Defined.

(** ** An interrupted pair with a confirmed checkpoint *)

(** The controller's checkpoint after one input, which the host receives and acknowledges. *)
Definition checkpoint_run := (_ ← record_input (IoError:=string) [108; 115; 10] 2; build_checkpoint 3) controller1.
Lemma checkpoint_run_ok : is_ok checkpoint_run.1 = true.
Proof. vm_compute. reflexivity. Qed.
Definition sent_checkpoint : Checkpoint.t := (get_ok _ checkpoint_run_ok).1.

Definition ack_run := (_ ← record_input (IoError:=string) [108; 115; 10] 2; receive_checkpoint sent_checkpoint 4) host1.
Lemma ack_run_ok : is_ok ack_run.1 = true.
Proof. vm_compute. reflexivity. Qed.
Definition received_ack : CheckpointAck.t := (get_ok _ ack_run_ok).1.

Definition cut_controller := run_ops (IoError:=string)
  [(Input [108; 115; 10], 2); (SendCheckpoint Observation, 3); (PeerAck received_ack, 5); (Input [97], 6)] (controller1, None).
Definition cut_host := run_ops (IoError:=string)
  [(Input [108; 115; 10], 2); (PeerCheckpoint sent_checkpoint Observation, 4)] (host1, None).

Definition file_frames (r : res toy_error RecordBatch) : list record :=
  match (b ← r; batch_frames b) with Ok l => l | _ => [] end.

Definition cut_controller_file : list Z := interrupted toy_header (file_frames cut_controller.1) ++ [0; 0].
Definition cut_host_file : list Z := interrupted host_header (file_frames cut_host.1).

Definition cut_report := verify_files (IoError:=string) cut_controller_file (Some cut_host_file).
Lemma cut_report_ok : is_ok cut_report = true.
Proof. vm_compute. reflexivity. Qed.
Lemma cut_report_state : rp_state (get_ok _ cut_report_ok) = MatchedInterruptedPrefix.
Proof. vm_compute. reflexivity. Qed.

(** The two files have the checkpoint in common. *)
Lemma cut_common :
  match walk_file (IoError:=string) cut_controller_file, walk_file (IoError:=string) cut_host_file with
  | Ok c, Ok h => fmap (M:=res string) fst (last_common_confirmed c h) = Ok (Some (ref_of sent_checkpoint))
  | _, _ => False
  end.
Proof. vm_compute. reflexivity. Qed.

Lemma interrupted_pair_agrees_witness :
  exists fa rsa ta fb rsb tb (c h : VerifiedFile (list Z)) x y,
    walk_file (IoError:=string) cut_controller_file = Ok fa /\ walk_file (IoError:=string) cut_host_file = Ok fb /\
    cut_controller_file = interrupted (vf_header fa) rsa ++ ta /\ cut_host_file = interrupted (vf_header fb) rsb ++ tb /\
    ((c = fa /\ h = fb) \/ (c = fb /\ h = fa)) /\
    paired (vf_header c) (vf_header h) /\ last_common_confirmed c h = Ok (x, y) /\
    forall q, x = Some q \/ y = Some q -> shared_prefix (IoError:=string) q rsa rsb.
Proof.
  apply (interrupted_pair_agrees (IoError:=string) cut_controller_file cut_host_file cut_controller_file cut_host_file
    (get_ok _ cut_report_ok)).
  - reflexivity.
  - reflexivity.
  - apply bytesb_ok. vm_compute. reflexivity.
  - apply bytesb_ok. vm_compute. reflexivity.
  - exact (get_ok_eq _ cut_report_ok).
  - exact cut_report_state.
Defined.
