(* ===== verification/LocalLedger.v ===== *)
(** * The local ledger and its storage

    [crates/yon/src/audit/ledger.rs] and the storage half of [audit/identity.rs]: the audit
    directory, the lock, the identity file, the ledger state with its atomic replacement,
    crash recovery and the commit of a session, on Unix.

    The audit directory is a [Disk].  Whatever the operating system may answer besides is the
    [Env] of a call: the I/O error of each call site, if any, and what the file policies say.
    A crash is a call that ends with an error at some site, whose error nobody sees: what the
    disk holds then is what a later call finds. *)

From stdpp Require Import strings.
From S2P Require Import Prelude Domain Layout WireAudit AuditContainer AuditSigning AuditWriter Stateful AuditEvents AuditSession ChainVerifier AuditIdentity FileVerifier PairVerifier.
Open Scope string_scope.
Open Scope list_scope.
Open Scope Z_scope.

(** ** Where the audit root is *)

Inductive SecretFileError {IoError : Type} := InsecureFile | Platform (e : IoError).
Arguments SecretFileError : clear implicits.

Inductive AuditIdentityError {IoError : Type} :=
| AuditDirectoryUnavailable | InvalidAuditDirectoryEnv
| AuditIdentityMissing | AuditIdentityInvalid | AuditIdentityPermissions
| RandomSourceFailed (e : RandomError)
| CreateDirectoryFailed (e : IoError)
| IdentityReadFailed (e : IoError)
| IdentityWriteFailed (e : IoError)
| IdentitySyncFailed (e : IoError).
Arguments AuditIdentityError : clear implicits.

(** Unix paths as bytes: [Path::is_absolute] and [PathBuf::join] with a relative component. *)
Definition SLASH : Z := 0x2F.
Definition is_absolute (path : list Z) : bool :=
  match path with b :: _ => b =? SLASH | [] => false end.
Definition path_join (path component : list Z) : list Z :=
  match last path with
  | None => component
  | Some b => if b =? SLASH then path ++ component else path ++ SLASH :: component
  end.

Definition yonder_component : list Z := [0x79; 0x6F; 0x6E; 0x64; 0x65; 0x72].
Definition audit_component : list Z := [0x61; 0x75; 0x64; 0x69; 0x74].
Definition local_component : list Z := [0x2E; 0x6C; 0x6F; 0x63; 0x61; 0x6C].
Definition state_component : list Z := [0x73; 0x74; 0x61; 0x74; 0x65].

Definition linux_audit_root {IoError} (xdg_state_home home : option (list Z))
  : res (AuditIdentityError IoError) (list Z) :=
  match xdg_state_home with
  | Some value =>
    if bool_decide (value = []) || negb (is_absolute value) then Err InvalidAuditDirectoryEnv
    else Ok (path_join (path_join value yonder_component) audit_component)
  | None =>
    home ← ok_or home AuditDirectoryUnavailable;
    if bool_decide (home = []) then Err AuditDirectoryUnavailable
    else Ok (path_join (path_join (path_join (path_join home local_component) state_component)
                          yonder_component) audit_component)
  end.

Definition library_component : list Z := [0x4C; 0x69; 0x62; 0x72; 0x61; 0x72; 0x79].
(** "Application Support", "Yonder" and "Audit". *)
Definition support_component : list Z :=
  [0x41; 0x70; 0x70; 0x6C; 0x69; 0x63; 0x61; 0x74; 0x69; 0x6F; 0x6E; 0x20; 0x53; 0x75; 0x70; 0x70; 0x6F; 0x72; 0x74].
Definition yonder_directory : list Z := [0x59; 0x6F; 0x6E; 0x64; 0x65; 0x72].
Definition audit_directory : list Z := [0x41; 0x75; 0x64; 0x69; 0x74].

Definition macos_audit_root {IoError} (home : option (list Z)) : res (AuditIdentityError IoError) (list Z) :=
  home ← ok_or home AuditDirectoryUnavailable;
  if bool_decide (home = []) then Err AuditDirectoryUnavailable
  else Ok (path_join (path_join (path_join (path_join home library_component) support_component)
                        yonder_directory) audit_directory).

(** ** The disk *)

(** What [symlink_metadata] shows: a regular file with its bytes, a symbolic link, or
    something else. *)
Inductive Node := Regular (content : list Z) | Symlink | OtherNode.

(** A directory: missing, occupied by something that is not a directory, or there. *)
Inductive Dir {A : Type} := NoDir | NotDir | IsDir (a : A).
Arguments Dir : clear implicits.

(** Temporary files are not part of it: nothing reads them. *)
Record Disk {Path : Type} := MkDisk {
  root_dir : Dir unit;
  lock_node : option Node;
  identity_node : option Node;
  state_node : option Node;
  records : Dir (list (Path * Node));
}.
Arguments Disk : clear implicits.
Arguments MkDisk {Path}.

Section Updates.
Context {Path : Type}.
Definition set_root (x : Dir unit) (d : Disk Path) : Disk Path :=
  MkDisk x (lock_node d) (identity_node d) (state_node d) (records d).
Definition set_lock (x : option Node) (d : Disk Path) : Disk Path :=
  MkDisk (root_dir d) x (identity_node d) (state_node d) (records d).
Definition set_identity (x : option Node) (d : Disk Path) : Disk Path :=
  MkDisk (root_dir d) (lock_node d) x (state_node d) (records d).
Definition set_state (x : option Node) (d : Disk Path) : Disk Path :=
  MkDisk (root_dir d) (lock_node d) (identity_node d) x (records d).
Definition set_records (x : Dir (list (Path * Node))) (d : Disk Path) : Disk Path :=
  MkDisk (root_dir d) (lock_node d) (identity_node d) (state_node d) x.
End Updates.

(** The call sites that can fail. *)
Inductive Site {Path : Type} :=
| RootMeta | RootPolicy | RecordsMeta | RecordsPolicy
| LockMeta | LockOpen | LockPolicy | LockCreate | LockProtect | LockAcquire
| IdentityMeta | LoadMeta | IdentityOpen | IdentityPolicy | IdentityRead
| IdentityCreate | IdentityProtect | IdentityWrite | IdentitySync
| IdentityReopen | IdentityValidate | IdentityDirSync | HistoryState | HistoryRecords
| StateLookup | StateMeta | StateOpen | StatePolicy | StateRead
| StateTemp | StateProtect | StateWrite | StateSync | StatePersist | StateValidate | StateDirSync
| RecordsList | RecordEntry (p : Path)
| RecordMeta (p : Path) | RecordOpen (p : Path) | RecordPolicy (p : Path) | RecordSeek (p : Path)
| RecordRead (p : Path) | RecordHash (p : Path).
Arguments Site : clear implicits.

Record Env {IoError Path : Type} := MkEnv {
  (** The error of a call site that fails for another reason than a missing or existing file. *)
  io : Site Path -> option IoError;
  (** What [SystemSecretFilePolicy] or [SystemPrivateDirectoryPolicy] answers. *)
  policy : Site Path -> option (SecretFileError IoError);
  (** How many bytes a failing write of the identity file wrote. *)
  written : nat;
  (** Another process creates the lock file between the look and the creation of an attempt. *)
  lock_race : nat -> bool;
  not_found : IoError;
  not_a_directory : IoError;
  timed_out : IoError;
  (** [io::Error::other(..)]. *)
  other_error : IoError;
}.
Arguments Env : clear implicits.
Arguments MkEnv {IoError Path}.

(** ** Errors and heads of the ledger *)

Inductive AuditLedgerError {IoError : Type} :=
| AuditLedgerInvalid | AuditLedgerConflict | AuditLedgerPermissions
| IdentityError (e : AuditIdentityError IoError)
| LockFailed (e : IoError)
| UnlockFailed (e : IoError)
| StateReadFailed (e : IoError)
| RecordReadFailed (e : IoError)
| AuditLedgerCommitFailed (e : IoError).
Arguments AuditLedgerError : clear implicits.

Record LedgerHead := Head { head_sequence : Z; head_root : LedgerRoot }.

Record CommitInput := Input {
  in_session_id : SessionId;
  in_manifest_digest : Digest32;
  in_sealed_record_digest : Digest32;
  in_peer_fingerprint : IdentityFingerprint;
  in_result : SessionResult.t;
}.

(** [Ledger], without the path of the one audit root there is. *)
Record LocalLedger := OpenLedger { ledger_identity : AuditIdentity.t; ledger_head : LedgerHead }.

(** [OwnedCommitSession]; it holds the lock. *)
Record OwnedCommitSession := Committing { committing : LocalLedger; locked_head : LedgerHead }.

(** The ASCII bytes of "yonder-audit-ledger-genesis-v2". *)
Definition GENESIS_LABEL : list Z :=
  [0x79; 0x6F; 0x6E; 0x64; 0x65; 0x72; 0x2D; 0x61; 0x75; 0x64; 0x69; 0x74; 0x2D; 0x6C; 0x65; 0x64; 0x67; 0x65; 0x72;
   0x2D; 0x67; 0x65; 0x6E; 0x65; 0x73; 0x69; 0x73; 0x2D; 0x76; 0x32].

Definition LEDGER_STATE_VERSION : Z := 1.
Definition LOCK_CREATE_ATTEMPTS : nat := 8.
Definition RECOVERY_TAIL_LEN : Z := MAX_FOOTER_PREFIX_LEN + CONTAINER_DIGEST_LEN.

(** The ASCII bytes of "YONIDNT" and a NUL. *)
Definition IDENTITY_MAGIC : list Z := [0x59; 0x4F; 0x4E; 0x49; 0x44; 0x4E; 0x54; 0x00].
Definition IDENTITY_FORMAT_VERSION : Z := 1.
Definition IDENTITY_FILE_LEN : Z := zlen IDENTITY_MAGIC + 2 + 32 + 32.

Section LocalLedger.
Context {IoError Path : Type} `{AuditCrypto} `{RecordFiles IoError Path}.
(** The path's extension is [yonaudit]. *)
Context (is_record : Path -> bool).
Local Notation disk := (Disk Path).
Local Notation ierr := (AuditIdentityError IoError).
Local Notation lerr := (AuditLedgerError IoError).
Local Notation I := (stm disk ierr).
Local Notation M := (stm disk lerr).
Implicit Types (env : Env IoError Path) (identity : AuditIdentity.t).

(** A call site that may fail, with the error the caller maps it to. *)
Definition try_io {E} env (site : Site Path) (wrap : IoError -> E) : stm disk E unit :=
  match io env site with Some e => throw (wrap e) | None => mret tt end.

Definition try_policy {E} env (site : Site Path) (wrap : SecretFileError IoError -> E) : stm disk E unit :=
  match policy env site with Some e => throw (wrap e) | None => mret tt end.

(** [.map_err(..)] and [?] with a [From] conversion. *)
Definition mapped {S E F A} (f : E -> F) (m : stm S E A) : stm S F A :=
  fun s => let '(r, s) := m s in (map_err f r, s).

(** ** Private directories *)

Definition map_policy_create (error : SecretFileError IoError) : ierr :=
  match error with InsecureFile => AuditIdentityPermissions | Platform e => CreateDirectoryFailed e end.

Definition map_policy_read (error : SecretFileError IoError) : ierr :=
  match error with InsecureFile => AuditIdentityPermissions | Platform e => IdentityReadFailed e end.

Definition map_policy_write (error : SecretFileError IoError) : ierr :=
  match error with InsecureFile => AuditIdentityPermissions | Platform e => IdentityWriteFailed e end.

(** [protect] creates the directory; [validate] checks one that is there. *)
Definition ensure_private_dir {A} env (meta pol : Site Path) (get : disk -> Dir A) (create : disk -> disk) : I unit :=
  _ ← try_io env meta CreateDirectoryFailed;
  dir ← gets get;
  match dir with
  | IsDir _ => try_policy env pol map_policy_read
  | NotDir => throw AuditIdentityPermissions
  | NoDir => _ ← try_policy env pol map_policy_create; modify create
  end.

Definition ensure_audit_dirs env : I unit :=
  _ ← ensure_private_dir env RootMeta RootPolicy root_dir (set_root (IsDir tt));
  ensure_private_dir env RecordsMeta RecordsPolicy records (set_records (IsDir [])).

(** ** The identity file *)

Definition encode_identity_file (seed public_key : list Z) : list Z :=
  IDENTITY_MAGIC ++ to_be_bytes 2 IDENTITY_FORMAT_VERSION ++ seed ++ public_key.

Definition decode_identity_file (bytes : list Z) : res ierr AuditIdentity.t :=
  bytes ← ok_or (try_into_array IDENTITY_FILE_LEN bytes) AuditIdentityInvalid;
  if bool_decide (take 8 bytes <> IDENTITY_MAGIC) then Err AuditIdentityInvalid else
  version ← expect (F:=ierr) (u16_at bytes 8 9);
  if negb (version =? IDENTITY_FORMAT_VERSION) then Err AuditIdentityInvalid else
  let identity := AuditIdentity.from_seed_bytes (take 32 (drop 10 bytes)) in
  if bool_decide (raw (AuditIdentity.public_key identity) <> take 32 (drop 42 bytes))
  then Err AuditIdentityInvalid else Ok identity.

(** A regular file is read whole: it does not change between the look and the read. *)
Definition load_identity_file env : I AuditIdentity.t :=
  _ ← try_io env LoadMeta IdentityReadFailed;
  node ← gets identity_node;
  match node with
  | None => throw (IdentityReadFailed (not_found env))
  | Some Symlink => throw AuditIdentityPermissions
  | Some OtherNode => throw AuditIdentityInvalid
  | Some (Regular content) =>
    if negb (zlen content =? IDENTITY_FILE_LEN) then throw AuditIdentityInvalid else
    _ ← try_io env IdentityOpen IdentityReadFailed;
    _ ← try_policy env IdentityPolicy map_policy_read;
    _ ← try_io env IdentityRead IdentityReadFailed;
    lift (decode_identity_file content)
  end.

Definition sync_directory env : I unit := try_io env IdentityDirSync IdentitySyncFailed.

Definition apply_identity_file_protection env : I unit :=
  _ ← try_io env IdentityReopen IdentityReadFailed;
  _ ← try_policy env IdentityValidate map_policy_read;
  sync_directory env.

(** The file exists from [create_new] on; a failing policy removes it again, a failing write
    leaves what it wrote. *)
Definition create_identity_file {R} `{SecureRandom R} env (random : R) : I AuditIdentity.t :=
  identity ← lift (ok_or (fst (AuditIdentity.generate random)) (RandomSourceFailed RandomFailed));
  let encoded := encode_identity_file (AuditIdentity.signing_key identity) (raw (AuditIdentity.public_key identity)) in
  existing ← gets identity_node;
  match existing with
  | Some _ => load_identity_file env
  | None =>
    _ ← try_io env IdentityCreate IdentityWriteFailed;
    _ ← modify (set_identity (Some (Regular [])));
    match policy env IdentityProtect with
    | Some error => _ ← modify (set_identity None); throw (map_policy_write error)
    | None =>
      match io env IdentityWrite with
      | Some error =>
        _ ← modify (set_identity (Some (Regular (take (written env) encoded))));
        throw (IdentityWriteFailed error)
      | None =>
        _ ← modify (set_identity (Some (Regular encoded)));
        _ ← try_io env IdentitySync IdentitySyncFailed;
        _ ← apply_identity_file_protection env;
        mret identity
      end
    end
  end.

(** An error of the first look counts as a missing state. *)
Definition audit_history_exists env : I bool :=
  state ← gets state_node;
  match state, io env HistoryState with
  | Some _, None => mret true
  | _, _ =>
    _ ← try_io env HistoryRecords IdentityReadFailed;
    dir ← gets records;
    match dir with
    | IsDir entries => mret (negb (bool_decide (entries = [])))
    | NoDir => mret false
    | NotDir => throw (IdentityReadFailed (not_a_directory env))
    end
  end.

Definition open_or_create_identity {R} `{SecureRandom R} env (random : R) : I AuditIdentity.t :=
  _ ← ensure_audit_dirs env;
  _ ← try_io env IdentityMeta IdentityReadFailed;
  node ← gets identity_node;
  match node with
  | Some Symlink => throw AuditIdentityPermissions
  | Some _ => load_identity_file env
  | None =>
    history ← audit_history_exists env;
    if (history : bool) then throw AuditIdentityMissing else create_identity_file env random
  end.

(** ** The lock *)

Definition map_secret_policy (platform : IoError -> lerr) (error : SecretFileError IoError) : lerr :=
  match error with InsecureFile => AuditLedgerPermissions | Platform e => platform e end.

Definition map_lock_policy : SecretFileError IoError -> lerr := map_secret_policy LockFailed.
Definition map_state_policy : SecretFileError IoError -> lerr := map_secret_policy StateReadFailed.
Definition map_record_policy : SecretFileError IoError -> lerr := map_secret_policy RecordReadFailed.
Definition map_commit_policy : SecretFileError IoError -> lerr := map_secret_policy AuditLedgerCommitFailed.

(** The attempts that are left of [LOCK_CREATE_ATTEMPTS]. *)
Fixpoint lock_attempts (attempts : nat) env : M unit :=
  match attempts with
  | O => throw (LockFailed (timed_out env))
  | S attempts =>
    _ ← try_io env LockMeta LockFailed;
    node ← gets lock_node;
    match node with
    | Some (Regular _) =>
      _ ← try_io env LockOpen LockFailed;
      try_policy env LockPolicy map_lock_policy
    | Some _ => throw AuditLedgerPermissions
    | None =>
      if lock_race env attempts then _ ← modify (set_lock (Some (Regular []))); lock_attempts attempts env else
      _ ← try_io env LockCreate LockFailed;
      _ ← modify (set_lock (Some (Regular [])));
      match policy env LockProtect with
      | Some error => _ ← modify (set_lock None); throw (map_lock_policy error)
      | None => mret tt
      end
    end
  end.

Definition open_lock_file env : M unit := lock_attempts LOCK_CREATE_ATTEMPTS env.

(** The caller holds the lock from here on: no other call runs until it lets go. *)
Definition acquire_ledger_lock env : M unit :=
  _ ← open_lock_file env; try_io env LockAcquire LockFailed.

(** ** The state file *)

Definition genesis : LedgerHead := Head 0 (FixedBytes.new (sha256 GENESIS_LABEL)).

Definition encode_ledger_state (head : LedgerHead) : list Z :=
  let bytes := LEDGER_STATE_MAGIC ++ to_be_bytes 2 LEDGER_STATE_VERSION ++ to_be_bytes 8 (head_sequence head)
               ++ raw (head_root head) in
  bytes ++ sha256 bytes.

Definition decode_ledger_state (bytes : list Z) : res lerr LedgerHead :=
  bytes ← ok_or (try_into_array LEDGER_STATE_LEN bytes) AuditLedgerInvalid;
  if bool_decide (take 8 bytes <> LEDGER_STATE_MAGIC) then Err AuditLedgerInvalid else
  version ← expect (F:=lerr) (u16_at bytes 8 9);
  if negb (version =? LEDGER_STATE_VERSION) then Err AuditLedgerInvalid else
  let offset := Z.to_nat LEDGER_STATE_CHECKSUM_OFFSET in
  if bool_decide (sha256 (take offset bytes) <> drop offset bytes) then Err AuditLedgerInvalid else
  Ok (Head (from_be_bytes (take 8 (drop 10 bytes))) (FixedBytes.new (take 32 (drop 18 bytes)))).

Definition read_ledger_state env : M LedgerHead :=
  _ ← try_io env StateMeta StateReadFailed;
  node ← gets state_node;
  match node with
  | None => throw (StateReadFailed (not_found env))
  | Some Symlink | Some OtherNode => throw AuditLedgerPermissions
  | Some (Regular content) =>
    if negb (zlen content =? LEDGER_STATE_LEN) then throw AuditLedgerInvalid else
    _ ← try_io env StateOpen StateReadFailed;
    _ ← try_policy env StatePolicy map_state_policy;
    _ ← try_io env StateRead StateReadFailed;
    lift (decode_ledger_state content)
  end.

(** The temporary file becomes the state at [persist], a rename; before it nothing changed. *)
Definition write_ledger_state_atomic env (head : LedgerHead) : M unit :=
  _ ← try_io env StateTemp AuditLedgerCommitFailed;
  _ ← try_policy env StateProtect map_commit_policy;
  _ ← try_io env StateWrite AuditLedgerCommitFailed;
  _ ← try_io env StateSync AuditLedgerCommitFailed;
  _ ← try_io env StatePersist AuditLedgerCommitFailed;
  _ ← modify (set_state (Some (Regular (encode_ledger_state head))));
  _ ← try_policy env StateValidate map_commit_policy;
  try_io env StateDirSync AuditLedgerCommitFailed.

Definition load_or_create_state env : M LedgerHead :=
  _ ← try_io env StateLookup StateReadFailed;
  node ← gets state_node;
  match node with
  | Some _ => read_ledger_state env
  | None => _ ← write_ledger_state_atomic env genesis; mret genesis
  end.

(** ** Recovery *)

(** The pass is [anchor_loop], with buffers of the same size. *)
Definition verify_record_digests (content : list Z) (seal_end ledger_end : Z) (expected_sealed expected_final : Digest32)
  : bool :=
  match anchor_loop (S (S (length content))) seal_end ledger_end (HashState [] None None 0 content) with
  | None => false
  | Some h =>
    if negb (position h =? ledger_end) then false else
    match sealed_record_at h with
    | None => false
    | Some digest => bool_decide (digest = raw expected_sealed) && bool_decide (sha256 (fed h) = raw expected_final)
    end
  end.

(** The footer in the tail of a file of [len] bytes, with its start in the file. *)
Definition pending_footer (content : list Z) : option (Z * DecodedFooter.t) :=
  let len := zlen content in
  let tail_len := Z.min len RECOVERY_TAIL_LEN in
  let tail := drop (Z.to_nat (len - tail_len)) content ++ zeros (RECOVERY_TAIL_LEN - tail_len) in
  '(scan, decoded) ← find_footer tail (Z.to_nat tail_len);
  Some (len - tail_len + Z.of_nat scan, decoded).

Definition inspect_pending_record env identity (head : LedgerHead) (path : Path) (node : Node) : M (option LedgerCommit.t) :=
  _ ← try_io env (RecordMeta path) RecordReadFailed;
  match node with
  | Symlink | OtherNode => mret None
  | Regular content =>
    if zlen content <? CONTAINER_HEADER_LEN then mret None else
    _ ← try_io env (RecordOpen path) RecordReadFailed;
    _ ← try_policy env (RecordPolicy path) map_record_policy;
    _ ← try_io env (RecordSeek path) RecordReadFailed;
    _ ← try_io env (RecordRead path) RecordReadFailed;
    match pending_footer content with
    | None => mret None
    | Some (footer_start, decoded) =>
      let commit := AuditContainerFooter.ledger_commit (DecodedFooter.footer decoded) in
      _ ← try_io env (RecordHash path) RecordReadFailed;
      if negb (verify_record_digests content (footer_start + DecodedFooter.seal_end decoded)
                 (footer_start + DecodedFooter.ledger_end decoded) (LedgerCommit.sealed_record_digest commit)
                 (DecodedFooter.final_container_digest decoded)) then mret None else
      input ← lift (wire (LedgerCommit.signing_input commit));
      if negb (AuditIdentity.verify identity input (LedgerCommit.signature commit)) then mret None else
      expected_sequence ← lift (ok_or (checked_add_u64 (head_sequence head) 1) AuditLedgerInvalid);
      match LedgerCommit.sequence commit ?= expected_sequence with
      | Gt => throw AuditLedgerConflict
      | Lt => mret None
      | Eq =>
        if bool_decide (LedgerCommit.previous_root commit <> head_root head) then throw AuditLedgerConflict
        else mret (Some commit)
      end
    end
  end.

Fixpoint scan_records env identity (head : LedgerHead) (entries : list (Path * Node)) (candidate : option LedgerCommit.t)
  : M (option LedgerCommit.t) :=
  match entries with
  | [] => mret candidate
  | (path, node) :: entries =>
    _ ← try_io env (RecordEntry path) RecordReadFailed;
    if negb (is_record path) then scan_records env identity head entries candidate else
    found ← inspect_pending_record env identity head path node;
    match found, candidate with
    | None, _ => scan_records env identity head entries candidate
    | Some commit, None => scan_records env identity head entries (Some commit)
    | Some _, Some _ => throw AuditLedgerConflict
    end
  end.

Definition recover_pending_records env identity (head : LedgerHead) : M LedgerHead :=
  _ ← try_io env RecordsList RecordReadFailed;
  dir ← gets records;
  match dir with
  | NoDir => mret head
  | NotDir => throw (RecordReadFailed (not_a_directory env))
  | IsDir entries =>
    candidate ← scan_records env identity head entries None;
    match candidate with
    | None => mret head
    | Some commit =>
      new_sequence ← lift (ok_or (checked_add_u64 (head_sequence head) 1) AuditLedgerInvalid);
      root ← lift (ledger_root_of commit);
      let new_head := Head new_sequence root in
      _ ← write_ledger_state_atomic env new_head;
      mret new_head
    end
  end.

(** ** The ledger *)

(** [Ledger::open]; the lock is released at its end. *)
Definition open_ledger {R} `{SecureRandom R} env (random : R) : M LocalLedger :=
  _ ← mapped IdentityError (ensure_audit_dirs env);
  _ ← acquire_ledger_lock env;
  identity ← mapped IdentityError (open_or_create_identity env random);
  head ← load_or_create_state env;
  head ← recover_pending_records env identity head;
  mret (OpenLedger identity head).

Definition begin_owned_commit env (self : LocalLedger) : M OwnedCommitSession :=
  _ ← acquire_ledger_lock env;
  head ← read_ledger_state env;
  head ← recover_pending_records env (ledger_identity self) head;
  mret (Committing self head).

Definition commit (self : OwnedCommitSession) (input : CommitInput) : res lerr LedgerCommit.t :=
  sequence ← ok_or (checked_add_u64 (head_sequence (locked_head self)) 1) AuditLedgerInvalid;
  let commit := LedgerCommit.new sequence (head_root (locked_head self)) (in_session_id input) (in_manifest_digest input)
                  (in_sealed_record_digest input) (in_peer_fingerprint input) (in_result input) zero_signature in
  bytes ← wire (LedgerCommit.signing_input commit);
  Ok (LedgerCommit.with_signature commit (AuditIdentity.sign (ledger_identity (committing self)) bytes)).

(** Consumes the session: the lock is released whatever the result. *)
Definition advance env (self : OwnedCommitSession) (commit : LedgerCommit.t) : M LocalLedger :=
  expected_sequence ← lift (ok_or (checked_add_u64 (head_sequence (locked_head self)) 1) AuditLedgerInvalid);
  if negb (LedgerCommit.sequence commit =? expected_sequence)
     || bool_decide (LedgerCommit.previous_root commit <> head_root (locked_head self))
  then throw AuditLedgerConflict else
  root ← lift (ledger_root_of commit);
  let new_head := Head expected_sequence root in
  _ ← write_ledger_state_atomic env new_head;
  mret (OpenLedger (ledger_identity (committing self)) new_head).

(** [Ledger::begin_commit] and [CommitSession::advance]: the session borrows the ledger, which
    keeps its head when the call fails. *)
Definition begin_borrowed_commit env (self : LocalLedger) : M OwnedCommitSession := begin_owned_commit env self.

Definition advance_borrowed env (self : OwnedCommitSession) (commit : LedgerCommit.t) (d : disk)
  : res lerr unit * (LocalLedger * disk) :=
  match advance env self commit d with
  | (Ok ledger, d) => (Ok tt, (ledger, d))
  | (Err e, d) => (Err e, (committing self, d))
  | (Panic, d) => (Panic, (committing self, d))
  end.

Definition into_ledger (self : OwnedCommitSession) : LocalLedger := committing self.

(** ** The adapter of the session *)

(** [LedgerAdapter] of [audit/observer.rs], with the disk it works on. *)
Record LedgerAdapter := Adapter {
  inner : option LocalLedger;
  pending : option OwnedCommitSession;
  adapter_disk : disk;
}.

Definition map_ledger_error env (error : lerr) : AuditError (IoError:=IoError) :=
  match error with
  | AuditLedgerInvalid => LedgerInvalid
  | AuditLedgerConflict => LedgerConflict
  | AuditLedgerPermissions => LedgerInvalid
  | IdentityError AuditIdentityMissing => IdentityMissing
  | IdentityError AuditIdentityInvalid => IdentityInvalid
  | IdentityError AuditIdentityPermissions => IdentityPermissions
  | IdentityError _ => DirectoryUnavailable (other_error env)
  | LockFailed e | UnlockFailed e | StateReadFailed e | RecordReadFailed e => DirectoryUnavailable e
  | AuditLedgerCommitFailed _ => LedgerCommitFailed
  end.

Definition adapter_snapshot (self : LedgerAdapter) : res (AuditError (IoError:=IoError)) (Z * LedgerRoot) :=
  inner ← ok_or (inner self) (InvalidState "the ledger is mid-commit");
  Ok (head_sequence (ledger_head inner), head_root (ledger_head inner)).

(** The ledger is taken out first, so an error leaves the adapter without one. *)
Definition adapter_begin env : stm LedgerAdapter (AuditError (IoError:=IoError)) (Z * LedgerRoot) := fun self =>
  match inner self with
  | None => (Err (InvalidState "the ledger is mid-commit"), self)
  | Some ledger =>
    match begin_owned_commit env ledger (adapter_disk self) with
    | (Ok session, d) =>
      let self := Adapter None (Some session) d in
      (sequence ← ok_or (checked_add_u64 (head_sequence (locked_head session)) 1) LedgerInvalid;
       Ok (sequence, head_root (locked_head session)), self)
    | (Err e, d) => (Err (map_ledger_error env e), Adapter None (pending self) d)
    | (Panic, d) => (Panic, Adapter None (pending self) d)
    end
  end.

Definition adapter_finish env (commit : LedgerCommit.t) : stm LedgerAdapter (AuditError (IoError:=IoError)) unit := fun self =>
  match pending self with
  | None => (Err (InvalidState "no ledger commit is pending"), self)
  | Some session =>
    match advance env session commit (adapter_disk self) with
    | (Ok ledger, d) => (Ok tt, Adapter (Some ledger) None d)
    | (Err e, d) => (Err (map_ledger_error env e), Adapter (inner self) None d)
    | (Panic, d) => (Panic, Adapter (inner self) None d)
    end
  end.

(** Each call with its own environment would be the same; one suffices for a session. *)
Definition AdapterLedger env : Ledger (IoError:=IoError) LedgerAdapter := {|
  snapshot := adapter_snapshot;
  begin_commit := adapter_begin env;
  finish_commit self commit := adapter_finish env commit self;
|}.
End LocalLedger.
