(* ===== verification/LedgerRecovery.v ===== *)
(** * Recovery of the local ledger

    The codecs of the two state files, what recovery takes for a committed record, and that
    recovery is a function of the set of such records alone. *)

From stdpp Require Import strings.
From S2P Require Import Prelude Domain Codec Layout WireAudit AuditCodecs AuditContainer AuditSigning ContainerCodecs AuditWriter Stateful AuditEvents AuditSession ChainVerifier AuditSimulation AuditPointSim AuditIdentity FileVerifier FileDigests FileWalk FileRun FinishedFile PairVerifier LocalLedger.
Open Scope string_scope.
Open Scope list_scope.
Open Scope Z_scope.

Definition head_wf (head : LedgerHead) : Prop := is_u64 (head_sequence head) /\ FixedBytes.wf (head_root head).

Section Codecs.
Context {IoError Path : Type} `{AuditCryptoLaws} `{!RecordFiles IoError Path}.

Lemma genesis_wf : head_wf genesis.
Proof. split; [done|apply sha256_array]. Qed.

(** The fields of the state file before its checksum. *)
Lemma state_fields (head : LedgerHead) :
  head_wf head ->
  zlen (encode_ledger_state head) = LEDGER_STATE_LEN /\
  take 8 (encode_ledger_state head) = LEDGER_STATE_MAGIC /\
  u16_at (encode_ledger_state head) 8 9 = Ok LEDGER_STATE_VERSION /\
  sha256 (take (Z.to_nat LEDGER_STATE_CHECKSUM_OFFSET) (encode_ledger_state head))
    = drop (Z.to_nat LEDGER_STATE_CHECKSUM_OFFSET) (encode_ledger_state head) /\
  take 8 (drop 10 (encode_ledger_state head)) = to_be_bytes 8 (head_sequence head) /\
  take 32 (drop 18 (encode_ledger_state head)) = raw (head_root head).
Proof.
  intros [Hs [Hb Hl]]. change (zlen (raw (head_root head)) = 32) in Hl. unfold encode_ledger_state.
  set (m := raw (head_root head)) in *. set (n := to_be_bytes 8 (head_sequence head)).
  assert (zlen n = 8) as Hn by apply zlen_to_be.
  set (front := LEDGER_STATE_MAGIC ++ to_be_bytes 2 LEDGER_STATE_VERSION ++ n ++ m).
  assert (zlen front = 50) as Hf by (unfold front; rewrite !zlen_app, Hn, Hl; done).
  destruct (sha256_array front) as [_ Hd]. change (zlen (sha256 front) = 32) in Hd.
  assert (length front = 50%nat) as Hf' by (unfold zlen in Hf; lia).
  assert (length n = 8%nat) as Hn' by (unfold zlen in Hn; lia). assert (length m = 32%nat) as Hl' by (unfold zlen in Hl; lia).
  split_and!.
  - rewrite zlen_app, Hf, Hd. done.
  - unfold front. by rewrite <- app_assoc.
  - done.
  - change (Z.to_nat LEDGER_STATE_CHECKSUM_OFFSET) with 50%nat. by rewrite take_app_length', drop_app_length' by done.
  - unfold front. rewrite <- !app_assoc. change (drop 10 _) with (n ++ m ++ sha256 front). by rewrite take_app_length' by done.
  - unfold front. rewrite <- !app_assoc.
    change (drop 18 _) with (drop 8 (n ++ m ++ sha256 front)). by rewrite drop_app_length', take_app_length' by done.
Qed.

Lemma state_roundtrip (head : LedgerHead) :
  head_wf head -> decode_ledger_state (IoError:=IoError) (encode_ledger_state head) = Ok head.
Proof.
  intros Hh. destruct (state_fields head Hh) as (Hl & Hm & Hv & Hc & Hs & Hr). destruct Hh as [Hu _].
  unfold decode_ledger_state, try_into_array. rewrite Hl, Z.eqb_refl. cbn [ok_or mbind res_bind].
  rewrite bool_decide_eq_false_2 by (intros Hne; by apply Hne). rewrite Hv. cbn [expect mbind res_bind].
  rewrite Z.eqb_refl. cbn [negb]. cbv zeta. rewrite bool_decide_eq_false_2 by (intros Hne; by apply Hne).
  rewrite Hs, Hr, from_to_be by exact Hu. by destruct head as [? []].
Qed.

(** ** The digest pass *)

Record pass_inv (bytes : list Z) (seal_end : Z) (strict : bool) (h : Hashing) : Prop := {
  pi_range : 0 <= position h <= zlen bytes;
  pi_fed : fed h = prefix_of bytes (position h);
  pi_unread : unread h = drop (Z.to_nat (position h)) bytes;
  pi_sealed : snapshot_ok bytes seal_end (position h) strict (sealed_record_at h);
}.

Lemma anchor_chunk_inv bytes seal_end n h fed1 offset sealed :
  pass_inv bytes seal_end true h -> 0 <= n <= zlen (unread h) ->
  feed_boundary seal_end (sealed_record_at h) (position h) (take (Z.to_nat n) (unread h)) (fed h, 0) = (fed1, offset, sealed) ->
  pass_inv bytes seal_end false
    (HashState (fed1 ++ drop (Z.to_nat offset) (take (Z.to_nat n) (unread h))) None sealed (position h + n)
       (drop (length (take (Z.to_nat n) (unread h))) (unread h))).
Proof.
  intros [Hr Hf Hu Hs] Hn Hfeed. rewrite Hu, Hf in *. pose proof (zlen_drop _ _ Hr) as Hl. rewrite Hl in Hn.
  pose proof (zlen_take n (drop (Z.to_nat (position h)) bytes) ltac:(lia)) as Hc.
  rewrite <- (Z.add_0_r (position h)) in Hfeed at 3.
  apply feed_boundary_ok in Hfeed as (Ho & -> & Hs' & _); [|lia..|done|].
  2: { intros He. rewrite He in Hs. cbn in Hs. lia. }
  split; cbn [position fed unread sealed_record_at]; try done.
  - lia.
  - unfold prefix_of. rewrite skipn_firstn_comm, drop_drop.
    replace (Z.to_nat (position h) + Z.to_nat offset)%nat with (Z.to_nat (position h + offset)) by lia.
    rewrite take_take_drop. f_equal. lia.
  - rewrite drop_drop. f_equal. unfold zlen in Hc. lia.
Qed.

Lemma anchor_loop_spec bytes seal_end ledger_end fuel h :
  pass_inv bytes seal_end false h -> zlen bytes - position h + 1 < Z.of_nat fuel -> position h <= ledger_end ->
  exists h', anchor_loop fuel seal_end ledger_end h = Some h' /\ pass_inv bytes seal_end true h' /\
    position h' = Z.min ledger_end (zlen bytes).
Proof.
  revert h. induction fuel as [|fuel IH]; intros h Hinv Hfuel Hle.
  { destruct Hinv. lia. }
  cbn [anchor_loop]. set (g := HashState _ _ _ _ _).
  assert (pass_inv bytes seal_end true g) as Hg.
  { destruct Hinv as [Hr Hf Hu Hs]. split; try done. exact (snapshot_here_ok _ _ _ _ Hf Hs). }
  assert (position g = position h) as Hpos by done. rewrite <- Hpos in *. clearbody g. clear Hinv.
  destruct (Z.eqb_spec (Z.max 0 (ledger_end - position g)) 0).
  { exists g. destruct Hg. split_and!; [done..|]. lia. }
  destruct (file_read_spec g (Z.min (Z.max 0 (ledger_end - position g)) READ_BUFFER_LEN))
    as (k & -> & Hk & Hku & Hk0); [unfold READ_BUFFER_LEN; lia|].
  assert (zlen (unread g) = zlen bytes - position g) as Hu by (destruct Hg as [Hr _ -> _]; by apply zlen_drop).
  rewrite zlen_take by lia. destruct (Z.eqb_spec k 0) as [Hz|Hz].
  { exists g. apply Hk0 in Hz. rewrite Hz in Hu. change (zlen []) with 0 in Hu. split_and!; [done..|]. lia. }
  destruct (feed_boundary _ _ _ _ _) as [[f1 o1] s1] eqn:E1.
  pose proof (anchor_chunk_inv bytes seal_end k g f1 o1 s1 Hg ltac:(lia) E1) as Hinv.
  destruct (IH _ Hinv) as (h' & -> & Hh' & Hend); [cbn [position]; lia..|]. by exists h'.
Qed.

Lemma record_digests_eq content seal_end ledger_end (sealed final : Digest32) :
  0 <= seal_end <= ledger_end ->
  verify_record_digests content seal_end ledger_end sealed final =
  (ledger_end <=? zlen content) && bool_decide (sha256 (prefix_of content seal_end) = raw sealed)
  && bool_decide (sha256 (prefix_of content ledger_end) = raw final).
Proof.
  intros Hse. unfold verify_record_digests.
  destruct (anchor_loop_spec content seal_end ledger_end (S (S (length content))) (HashState [] None None 0 content))
    as (h & -> & [Hr Hf Hu Hs] & Hp); [|cbn [position]; unfold zlen; lia|cbn [position]; lia|].
  { split; cbn; try done; [unfold zlen|]; lia. }
  rewrite Hp in *. destruct (Z.leb_spec ledger_end (zlen content)).
  - rewrite Z.min_l in * by done. rewrite Z.eqb_refl. cbn [negb andb].
    destruct (sealed_record_at h) as [dg|]; [|cbn in Hs; lia]. destruct Hs as [_ ->]. by rewrite Hf.
  - rewrite (proj2 (Z.eqb_neq _ _)) by lia. done.
Qed.
End Codecs.

(** ** Committed records *)

Section Recovery.
Context {IoError Path : Type} `{AuditCryptoLaws} `{!RecordFiles IoError Path} (is_record : Path -> bool).
Local Notation lerr := (AuditLedgerError IoError).
Implicit Types (env : Env IoError Path) (identity : AuditIdentity.t) (head : LedgerHead) (c : LedgerCommit.t).

(** The commit in the footer of a file, if its digests and its signature check. *)
Definition legal_footer identity (content : list Z) : option LedgerCommit.t :=
  '(start, decoded) ← pending_footer content;
  let commit := AuditContainerFooter.ledger_commit (DecodedFooter.footer decoded) in
  if negb (verify_record_digests content (start + DecodedFooter.seal_end decoded)
             (start + DecodedFooter.ledger_end decoded) (LedgerCommit.sealed_record_digest commit)
             (DecodedFooter.final_container_digest decoded)) then None else
  match wire (E:=lerr) (LedgerCommit.signing_input commit) with
  | Ok input => if AuditIdentity.verify identity input (LedgerCommit.signature commit) then Some commit else None
  | _ => None
  end.

(** The commit of a complete record of the local identity: what recovery counts. *)
Definition committed identity (entry : Path * Node) : option LedgerCommit.t :=
  match entry with
  | (path, Regular content) =>
    if is_record path && (CONTAINER_HEADER_LEN <=? zlen content) then legal_footer identity content else None
  | _ => None
  end.

Definition node_bytes (node : Node) : Prop :=
  match node with Regular content => bytes content | _ => True end.

(** How a committed record stands to the head. *)
Definition judge head c : res lerr bool :=
  next ← ok_or (checked_add_u64 (head_sequence head) 1) AuditLedgerInvalid;
  match LedgerCommit.sequence c ?= next with
  | Gt => Err AuditLedgerConflict
  | Lt => Ok false
  | Eq => if bool_decide (LedgerCommit.previous_root c <> head_root head) then Err AuditLedgerConflict else Ok true
  end.

Fixpoint verdict head (cs : list LedgerCommit.t) (candidate : option LedgerCommit.t) : res lerr (option LedgerCommit.t) :=
  match cs with
  | [] => Ok candidate
  | c :: cs =>
    match judge head c, candidate with
    | Ok false, _ => verdict head cs candidate
    | Ok true, None => verdict head cs (Some c)
    | Ok true, Some _ => Err AuditLedgerConflict
    | Err e, _ => Err e
    | Panic, _ => Panic
    end
  end.

(** Nothing fails that does not have to. *)
Definition calm env : Prop := (forall s, io env s = None) /\ (forall s, policy env s = None).

(** The outcome of a call under faults: what it is without them, or an error. *)
Definition faulty {A} env (r r' : res lerr A) : Prop := r = r' \/ (exists e, r = Err e) /\ ~ calm env.

Lemma try_io_run {E} env site (wrap : IoError -> E) (d : Disk Path) :
  try_io env site wrap d = (Ok tt, d) \/ ~ calm env /\ exists e, try_io env site wrap d = (Err (wrap e), d).
Proof.
  unfold try_io. destruct (io env site) as [e|] eqn:He; [right|by left]. split; [|by exists e].
  intros [Hc _]. by rewrite Hc in He.
Qed.

Lemma try_policy_run {E} env site (wrap : SecretFileError IoError -> E) (d : Disk Path) :
  try_policy env site wrap d = (Ok tt, d) \/ ~ calm env /\ exists e, try_policy env site wrap d = (Err (wrap e), d).
Proof.
  unfold try_policy. destruct (policy env site) as [e|] eqn:He; [right|by left]. split; [|by exists e].
  intros [_ Hc]. by rewrite Hc in He.
Qed.

Lemma bind_err {E A B} (m : stm (Disk Path) E A) (f : A -> stm (Disk Path) E B) d e d' :
  m d = (Err e, d') -> (m ≫= f) d = (Err e, d').
Proof. unfold mbind, stm_bind. by intros ->. Qed.

(** The next call of a sequence: it returns, or fails and ends the sequence. *)
Local Ltac step_fault :=
  match goal with
  | |- context [mbind _ (try_io ?e ?s ?w) ?d] =>
    destruct (try_io_run e s w d) as [HE|[HN [x HE]]];
    [rewrite (stm_bind_step _ _ _ _ _ HE); clear HE
    |rewrite (bind_err _ _ _ _ _ HE); eexists; split; [done|right; by eauto]]
  | |- context [mbind _ (try_policy ?e ?s ?w) ?d] =>
    destruct (try_policy_run e s w d) as [HE|[HN [x HE]]];
    [rewrite (stm_bind_step _ _ _ _ _ HE); clear HE
    |rewrite (bind_err _ _ _ _ _ HE); eexists; split; [done|right; by eauto]]
  end.

Lemma find_footer_wf tail scan i decoded :
  bytes tail -> find_footer tail scan = Some (i, decoded) ->
  exists f d, footer_wf f /\ FixedBytes.wf d /\ drop i tail = footer_prefix f ++ raw d /\ decoded = decoded_of f d 0.
Proof.
  intros Hb. induction scan as [|scan IH]; [done|]. cbn [find_footer]. destruct (starts_with _ _); [|done].
  destruct (decode_footer (drop scan tail)) as [df| |] eqn:Hd; [|done..]. intros [= <- <-].
  apply decode_footer_canonical in Hd; [done|by apply Forall_drop].
Qed.

Lemma pending_footer_wf content start decoded :
  bytes content -> pending_footer content = Some (start, decoded) ->
  exists f d, footer_wf f /\ FixedBytes.wf d /\ decoded = decoded_of f d 0 /\ 0 <= start.
Proof.
  intros Hb. unfold pending_footer. destruct (find_footer _ _) as [[i df]|] eqn:Hf; [|done]. intros [= <- <-].
  apply find_footer_wf in Hf as (f & dg & Hwf & Hd & _ & ->); [exists f, dg; split_and!; try done; lia|].
  apply Forall_app. split; [by apply Forall_drop|]. by apply Forall_replicate.
Qed.

Lemma wire_commit {E} c : ledger_wf c -> exists l, wire (E:=E) (LedgerCommit.signing_input c) = Ok l.
Proof.
  intros Hwf. pose proof (signing_input_eq (SLedger c) Hwf) as Heq. unfold wire, expect. cbn in Heq.
  destruct (_ <$> LedgerCommit.signing_input c); [by eexists|done..].
Qed.

(** One inspection is the judgement of what the record holds. *)
Lemma inspect_run env identity head path node d :
  node_bytes node -> is_record path = true ->
  exists r, inspect_pending_record env identity head path node d = (r, d) /\
    faulty env r match committed identity (path, node) with
                 | None => Ok None
                 | Some c => (fun b : bool => if b then Some c else None) <$> judge head c
                 end.
Proof.
  intros Hb Hp. unfold inspect_pending_record, committed. rewrite Hp. step_fault.
  destruct node as [content| |]; [|eexists; split; [done|by left]..]. cbn [andb]. rewrite Z.leb_antisym.
  destruct (zlen content <? CONTAINER_HEADER_LEN); cbn [negb]; [eexists; split; [done|by left]|].
  do 4 step_fault. unfold legal_footer. destruct (pending_footer content) as [[start decoded]|] eqn:Hf;
    cbn [mbind option_bind]; [|eexists; split; [done|by left]]. step_fault. cbv zeta.
  destruct (verify_record_digests _ _ _ _ _); cbn [negb]; [|eexists; split; [done|by left]].
  destruct (pending_footer_wf _ _ _ Hb Hf) as (f & dg & (_ & _ & _ & _ & Hl) & _ & -> & _). cbn [decoded_of DecodedFooter.footer].
  destruct (wire_commit (E:=lerr) _ Hl) as [input ->]. rewrite (stm_bind_step _ _ input d d) by done.
  destruct (AuditIdentity.verify _ _ _); cbn [negb]; [|eexists; split; [done|by left]].
  unfold judge. destruct (checked_add_u64 _ _) as [next|]; cbn [ok_or]; [|eexists; split; [done|by left]].
  rewrite (stm_bind_step _ _ next d d) by done. cbn [mbind res_bind].
  destruct (_ ?= _); [case_bool_decide|..]; (eexists; split; [done|by left]).
Qed.

Lemma scan_run env identity head entries cand d :
  Forall (node_bytes ∘ snd) entries ->
  exists r, scan_records is_record env identity head entries cand d = (r, d) /\
    faulty env r (verdict head (omap (committed identity) entries) cand).
Proof.
  intros Hb. revert cand. induction Hb as [|[path node] entries Hn Hb IH]; intros cand; cbn [scan_records].
  { eexists. split; [done|by left]. }
  step_fault. destruct (is_record path) eqn:Hp; cbn [negb].
  - destruct (inspect_run env identity head path node d Hn Hp) as (r & Hi & [->|[[e ->] Hne]]).
    2: { rewrite (bind_err _ _ _ _ _ Hi). eexists. split; [done|right; by eauto]. }
    cbn [omap list_omap]. destruct (committed identity (path, node)) as [c|].
    + cbn [verdict]. destruct (judge head c) as [[]|e|]; cbn [fmap res_fmap] in Hi.
      * rewrite (stm_bind_step _ _ _ _ _ Hi). destruct cand; [eexists; split; [done|by left]|apply IH].
      * rewrite (stm_bind_step _ _ _ _ _ Hi). apply IH.
      * rewrite (bind_err _ _ _ _ _ Hi). eexists; split; [done|by left].
      * unfold mbind, stm_bind. rewrite Hi. eexists; split; [done|by left].
    + rewrite (stm_bind_step _ _ _ _ _ Hi). apply IH.
  - assert (committed identity (path, node) = None) as Hc by (unfold committed; rewrite Hp; by destruct node).
    cbn [omap list_omap]. rewrite Hc. apply IH.
Qed.

(** ** The plan *)

(** A record that cannot follow a head whose next sequence is [next]. *)
Definition breaks head (next : Z) c : Prop :=
  next < LedgerCommit.sequence c \/ LedgerCommit.sequence c = next /\ LedgerCommit.previous_root c <> head_root head.

#[export] Instance breaks_dec head next c : Decision (breaks head next c).
Proof. unfold breaks. apply _. Defined.

(** What recovery decides, as a property of the set of committed records. *)
Definition recovery_plan head (cs : list LedgerCommit.t) : res lerr (option LedgerCommit.t) :=
  if bool_decide (cs = []) then Ok None else
  match checked_add_u64 (head_sequence head) 1 with
  | None => Err AuditLedgerInvalid
  | Some next =>
    if bool_decide (Exists (breaks head next) cs)
    then Err AuditLedgerConflict else
    match filter (fun c => LedgerCommit.sequence c = next) cs with
    | [] => Ok None
    | [c] => Ok (Some c)
    | _ => Err AuditLedgerConflict
    end
  end.

(** The records [candidate] and those of [cs] at the next sequence, at most one of them. *)
Lemma verdict_eq head cs candidate next :
  checked_add_u64 (head_sequence head) 1 = Some next ->
  verdict head cs candidate =
  if bool_decide (Exists (breaks head next) cs)
  then Err AuditLedgerConflict else
  match option_list candidate ++ filter (fun c => LedgerCommit.sequence c = next) cs with
  | [] => Ok None
  | [c] => Ok (Some c)
  | _ => Err AuditLedgerConflict
  end.
Proof.
  intros Hn. revert candidate. induction cs as [|c cs IH]; intros candidate.
  { rewrite bool_decide_eq_false_2 by (intros Hx; inversion Hx). by destruct candidate. }
  cbn [verdict]. unfold judge. rewrite Hn. cbn [ok_or mbind res_bind]. rewrite (bool_decide_ext _ _ (Exists_cons _ c cs)).
  rewrite filter_cons. destruct (Z.compare_spec (LedgerCommit.sequence c) next) as [He|Hlt|Hgt].
  - rewrite (decide_True _ _ He). destruct (decide (LedgerCommit.previous_root c <> head_root head)) as [Hp|Hp].
    { rewrite (bool_decide_eq_true_2 _ Hp), bool_decide_eq_true_2; [done|]. left. by right. }
    rewrite (bool_decide_eq_false_2 _ Hp).
    rewrite (bool_decide_ext (_ \/ _) (Exists (breaks head next) cs)) by (unfold breaks at 1; intuition lia).
    destruct candidate as [c'|]; [|apply IH]. by destruct (bool_decide _).
  - rewrite decide_False by lia. rewrite IH. erewrite bool_decide_ext; [done|]. unfold breaks at 2. intuition lia.
  - rewrite bool_decide_eq_true_2; [done|]. left. by left.
Qed.

Lemma verdict_plan head cs : verdict head cs None = recovery_plan head cs.
Proof.
  unfold recovery_plan. case_bool_decide as Hnil; [by subst|].
  destruct (checked_add_u64 (head_sequence head) 1) as [next|] eqn:Hn; [by rewrite (verdict_eq _ _ _ _ Hn)|].
  destruct cs as [|c cs]; [done|]. cbn [verdict]. unfold judge. by rewrite Hn.
Qed.

(** ** Writing the state *)

Definition commit_root c : LedgerRoot :=
  match ledger_root_of (E:=ProtocolError) c with Ok root => root | _ => head_root genesis end.

Lemma ledger_root_eq {E} c : ledger_wf c -> ledger_root_of (E:=E) c = Ok (commit_root c) /\ FixedBytes.wf (commit_root c).
Proof.
  intros Hwf. unfold commit_root, ledger_root_of. destruct (wire_commit (E:=E) c Hwf) as [l Hl].
  rewrite (wire_any (F:=ProtocolError) _ _ Hl), Hl. cbn [mbind res_bind]. split; [done|apply sha256_array].
Qed.

Definition with_head head (d : Disk Path) : Disk Path := set_state (Some (Regular (encode_ledger_state head))) d.

Lemma write_run env head d :
  write_ledger_state_atomic env head d = (Ok tt, with_head head d) \/
  ~ calm env /\ exists e d', write_ledger_state_atomic env head d = (Err e, d') /\ (d' = d \/ d' = with_head head d).
Proof.
  unfold write_ledger_state_atomic.
  repeat match goal with
  | |- context [mbind _ (try_io ?e ?s ?w) ?d] =>
    destruct (try_io_run e s w d) as [HE|[HN [x HE]]];
    [rewrite (stm_bind_step _ _ _ _ _ HE); clear HE|rewrite (bind_err _ _ _ _ _ HE); right; split; [done|by eauto]]
  | |- context [mbind _ (try_policy ?e ?s ?w) ?d] =>
    destruct (try_policy_run e s w d) as [HE|[HN [x HE]]];
    [rewrite (stm_bind_step _ _ _ _ _ HE); clear HE|rewrite (bind_err _ _ _ _ _ HE); right; split; [done|by eauto]]
  | |- context [mbind _ (modify ?f) ?d] => rewrite (stm_bind_step _ _ tt d (f d)) by done
  end.
  destruct (try_io_run env StateDirSync AuditLedgerCommitFailed (with_head head d)) as [HE|[HN [x HE]]]; [by left|].
  right. split; [done|]. unfold with_head in *. rewrite HE. by eauto.
Qed.

(** ** Recovery *)

Lemma committed_wf identity path node c :
  node_bytes node -> committed identity (path, node) = Some c -> ledger_wf c.
Proof.
  intros Hb Hc. destruct node as [content| |]; [|done..]. cbn in Hc. destruct (_ && _); [|done].
  unfold legal_footer in Hc. destruct (pending_footer content) as [[start decoded]|] eqn:Hf; [|done].
  destruct (pending_footer_wf _ _ _ Hb Hf) as (f & dg & (_ & _ & _ & _ & Hl) & _ & -> & _).
  cbn [mbind option_bind decoded_of DecodedFooter.footer] in Hc. cbv zeta in Hc.
  destruct (negb _); [done|]. destruct (wire _); [|done..]. destruct (AuditIdentity.verify _ _ _); [|done]. by simplify_eq.
Qed.

Lemma commits_wf identity entries c :
  Forall (node_bytes ∘ snd) entries -> c ∈ omap (committed identity) entries -> ledger_wf c.
Proof.
  intros Hb ([path node] & Hin & Hc)%list_elem_of_omap. apply (committed_wf identity path node); [|done].
  by apply (proj1 (Forall_forall _ _) Hb _ Hin).
Qed.

(** The head after a commit. *)
Definition head_after c : LedgerHead := Head (LedgerCommit.sequence c) (commit_root c).

Lemma plan_candidate head cs c :
  recovery_plan head cs = Ok (Some c) ->
  c ∈ cs /\ checked_add_u64 (head_sequence head) 1 = Some (LedgerCommit.sequence c) /\
  LedgerCommit.previous_root c = head_root head.
Proof.
  unfold recovery_plan. case_bool_decide; [done|]. destruct (checked_add_u64 _ _) as [next|] eqn:Hn; [|done].
  case_bool_decide as Hb; [done|]. destruct (filter _ cs) as [|x [|]] eqn:Hf; try done. intros [= ->].
  assert (c ∈ filter (fun c => LedgerCommit.sequence c = next) cs) as [<- Hin]%list_elem_of_filter
    by (rewrite Hf; by apply list_elem_of_singleton).
  split_and!; [done..|]. destruct (decide (LedgerCommit.previous_root c = head_root head)) as [|Hne]; [done|].
  destruct Hb. apply Exists_exists. exists c. split; [done|by right].
Qed.

(** Recovery without faults, and what faults may make of it: an error, with the old state or,
    if there was a candidate, the new one. *)
Definition recovered head (plan : res lerr (option LedgerCommit.t)) (d : Disk Path) : res lerr LedgerHead * Disk Path :=
  match plan with
  | Ok None => (Ok head, d)
  | Ok (Some c) => (Ok (head_after c), with_head (head_after c) d)
  | Err e => (Err e, d)
  | Panic => (Panic, d)
  end.

Lemma recover_run env identity head d entries :
  records d = IsDir entries -> Forall (node_bytes ∘ snd) entries ->
  let plan := recovery_plan head (omap (committed identity) entries) in
  recover_pending_records is_record env identity head d = recovered head plan d \/
  ~ calm env /\ exists e d', recover_pending_records is_record env identity head d = (Err e, d') /\
    (d' = d \/ d' = snd (recovered head plan d)).
Proof.
  intros Hd Hb plan. unfold recover_pending_records.
  destruct (try_io_run env RecordsList RecordReadFailed d) as [HE|[HN [x HE]]].
  2: { right. split; [done|]. rewrite (bind_err _ _ _ _ _ HE). by eauto. }
  rewrite (stm_bind_step _ _ _ _ _ HE). clear HE. rewrite (stm_bind_step _ _ (records d) d d) by done. rewrite Hd.
  destruct (scan_run env identity head entries None d Hb) as (r & Hs & Hf). rewrite verdict_plan in Hf. fold plan in Hf.
  destruct Hf as [->|[[e ->] Hne]]; [|right; split; [done|]; rewrite (bind_err _ _ _ _ _ Hs); by eauto].
  destruct plan as [[c|]|e|] eqn:Hp.
  - rewrite (stm_bind_step _ _ _ _ _ Hs). apply plan_candidate in Hp as (Hin & Hn & _). rewrite Hn. cbn [ok_or].
    destruct (ledger_root_eq (E:=lerr) c (commits_wf _ _ _ Hb Hin)) as [Hr _].
    rewrite (stm_bind_step _ _ (LedgerCommit.sequence c) d d) by done. rewrite Hr.
    rewrite (stm_bind_step _ _ (commit_root c) d d) by done. cbn [recovered snd]. fold (head_after c).
    destruct (write_run env (head_after c) d) as [Hw|[HN (e & d' & Hw & Hd')]].
    + left. by rewrite (stm_bind_step _ _ _ _ _ Hw).
    + right. split; [done|]. rewrite (bind_err _ _ _ _ _ Hw). by eauto.
  - left. by rewrite (stm_bind_step _ _ _ _ _ Hs).
  - left. by rewrite (bind_err _ _ _ _ _ Hs).
  - left. unfold mbind, stm_bind. by rewrite Hs.
Qed.

#[export] Instance recovery_plan_proper head : Proper ((≡ₚ) ==> (=)) (recovery_plan head).
Proof.
  intros cs cs' Hp. unfold recovery_plan. rewrite (bool_decide_ext (cs = []) (cs' = [])).
  2: { split; intros ->; [by apply Permutation_nil_l in Hp|by apply Permutation_nil_r in Hp]. }
  case_bool_decide; [done|]. destruct (checked_add_u64 _ _) as [next|]; [|done].
  rewrite (bool_decide_ext (Exists _ cs) (Exists (breaks head next) cs')) by (by rewrite Hp).
  case_bool_decide; [done|].
  assert (filter (fun c => LedgerCommit.sequence c = next) cs ≡ₚ filter (fun c => LedgerCommit.sequence c = next) cs') as Hf
    by (by rewrite Hp). apply Permutation_length in Hf as Hl.
  destruct (filter _ cs) as [|x [|]], (filter _ cs') as [|y [|]]; try done. by apply Permutation_singleton_inj in Hf as ->.
Qed.

(** ** Finished records *)

(** A footer is only found at the very start of the tail. *)
Lemma find_footer_start tail scan :
  bytes tail -> zlen tail = RECOVERY_TAIL_LEN -> (0 < scan)%nat ->
  find_footer tail scan =
  if starts_with tail FOOTER_MAGIC
  then match decode_footer tail with Ok decoded => Some (0%nat, decoded) | _ => None end else None.
Proof.
  intros Hb Hl. change RECOVERY_TAIL_LEN with 1136 in Hl. induction scan as [|[|scan] IH]; intros Hs; [lia| |].
  { cbn [find_footer]. rewrite drop_0. by destruct (starts_with tail _), (decode_footer tail). }
  specialize (IH ltac:(lia)). remember (S scan) as n eqn:Hn. cbn [find_footer].
  destruct (starts_with (drop n tail) _) eqn:Hm; [|done].
  destruct (decode_footer (drop n tail)) as [df| |] eqn:Hd; [|done..]. exfalso.
  apply decode_footer_canonical in Hd as (f & dg & Hf & [_ Hdl] & He & _); [|by apply Forall_drop].
  apply (f_equal zlen) in He. rewrite zlen_app in He. destruct (footer_lens f Hf) as (_ & _ & Hlf & _).
  change (zlen (raw dg) = 32) in Hdl. unfold zlen in *. rewrite length_drop in He. lia.
Qed.

Lemma finished_committed identity path h rs ft (dg : Digest32) input :
  header_wf h -> Forall record_wf rs -> footer_wf ft -> is_record path = true ->
  LedgerCommit.sealed_record_digest (AuditContainerFooter.ledger_commit ft)
    = FixedBytes.new (sha256 (interrupted h rs ++ sealed_record ft)) ->
  dg = FixedBytes.new (sha256 (interrupted h rs ++ footer_prefix ft)) ->
  wire (E:=lerr) (LedgerCommit.signing_input (AuditContainerFooter.ledger_commit ft)) = Ok input ->
  AuditIdentity.verify identity input (LedgerCommit.signature (AuditContainerFooter.ledger_commit ft)) = true ->
  committed identity (path, Regular (finalised h rs ft dg)) = Some (AuditContainerFooter.ledger_commit ft).
Proof.
  intros Hh Hrs Hft Hp Hsd -> Hin Hv. set (dg := FixedBytes.new _). assert (FixedBytes.wf dg) as Hdg by apply sha256_array.
  destruct (header_bytes_facts h Hh) as [_ Hhl]. pose proof (zlen_nonneg (frames_bytes rs)) as Hfr.
  destruct (footer_lens ft Hft) as (L1 & L2 & L3 & Lb). destruct (Hdg) as [Hdb Hdl]. change (zlen (raw dg) = 32) in Hdl.
  assert (zlen (finalised h rs ft dg) = zlen (interrupted h rs) + 1136) as Hlen
    by (unfold finalised; rewrite !zlen_app; lia).
  assert (CONTAINER_HEADER_LEN <= zlen (interrupted h rs)) as Hi
    by (change CONTAINER_HEADER_LEN with 713; unfold interrupted; rewrite zlen_app; lia).
  unfold committed. rewrite Hp, (proj2 (Z.leb_le _ _)) by lia. cbn [andb]. unfold legal_footer.
  assert (pending_footer (finalised h rs ft dg) = Some (zlen (interrupted h rs), decoded_of ft dg 0)) as ->.
  { unfold pending_footer. change RECOVERY_TAIL_LEN with 1136. pose proof (zlen_nonneg (interrupted h rs)).
    rewrite Z.min_r by lia. replace (zlen (finalised h rs ft dg) - 1136) with (zlen (interrupted h rs)) by lia.
    unfold finalised. rewrite drop_zlen_app by done. change (zeros (1136 - 1136)) with (@nil Z). rewrite app_nil_r.
    rewrite find_footer_start; [|by apply Forall_app_2|rewrite zlen_app; change RECOVERY_TAIL_LEN with 1136; lia|lia].
    destruct (footer_rest_eq ft dg Hft Hdg) as [He _]. rewrite He, starts_with_app, <- He.
    rewrite decode_footer_eq by done. cbn [mbind option_bind]. by rewrite Z.add_0_r. }
  cbn [mbind option_bind decoded_of DecodedFooter.footer DecodedFooter.seal_end DecodedFooter.ledger_end
    DecodedFooter.final_container_digest]. rewrite record_digests_eq by (pose proof (zlen_nonneg (interrupted h rs)); lia).
  rewrite Hsd, !Z.add_0_l, <- !zlen_app. unfold prefix_of.
  assert (finalised h rs ft dg = (interrupted h rs ++ sealed_record ft)
            ++ drop (Z.to_nat (zlen (sealed_record ft))) (footer_prefix ft) ++ raw dg) as Hs.
  { unfold finalised, footer_prefix. rewrite drop_zlen_app by done. by rewrite <- !app_assoc. }
  assert (take (Z.to_nat (zlen (interrupted h rs ++ sealed_record ft))) (finalised h rs ft dg)
            = interrupted h rs ++ sealed_record ft) as -> by (rewrite Hs; by apply take_zlen_app).
  assert (take (Z.to_nat (zlen (interrupted h rs ++ footer_prefix ft))) (finalised h rs ft dg)
            = interrupted h rs ++ footer_prefix ft) as -> by (unfold finalised; rewrite app_assoc; by apply take_zlen_app).
  rewrite (proj2 (Z.leb_le _ _)) by (rewrite zlen_app; lia). rewrite !bool_decide_eq_true_2 by done. cbn [andb negb].
  by rewrite Hin, Hv.
Qed.

(** C16: Crash recovery is a function of the set of committed records, whatever else the
    directory holds and in whatever order it is listed.  On any disk, attacker-written files
    included, if no call fails: with no committed record nothing happens; a committed record
    beyond the next sequence, or at it with another previous root, or two at it, is a
    conflict and changes nothing; one at it that links to the head is adopted, by writing
    exactly its head to the state file; otherwise the head stays. *)
Theorem recovery_exact env identity head d entries entries' :
  calm env -> records d = IsDir entries -> Forall (node_bytes ∘ snd) entries -> entries ≡ₚ entries' ->
  recover_pending_records is_record env identity head d =
  recovered head (recovery_plan head (omap (committed identity) entries')) d.
Proof.
  intros Hc Hd Hb Hp. destruct (recover_run env identity head d entries Hd Hb) as [Hr|[Hn _]]; [|done].
  by rewrite Hr, Hp.
Qed.
End Recovery.
