(* ===== verification/LedgerSafety.v ===== *)
(** * The ledger over crashes

    Any number of processes open the ledger, write records, take the lock, finish a record and
    advance the ledger; any call may fail at any site and any process may stop at any point.
    The committed records always form one chain from the genesis head, and the next call that
    does not fail finds the end of it. *)

From stdpp Require Import strings.
From S2P Require Import Prelude Domain Codec Layout WireAudit AuditCodecs AuditContainer AuditSigning ContainerCodecs AuditWriter Stateful AuditEvents AuditSession ChainVerifier AuditSimulation AuditPointSim AuditIdentity FileVerifier FileDigests FileWalk FileRun FinishedFile PairVerifier LocalLedger LedgerRecovery.
Open Scope string_scope.
Open Scope list_scope.
Open Scope Z_scope.

(** ** Chains of commits *)

Section Chains.
Context `{AuditCryptoLaws}.
Implicit Types (head : LedgerHead) (c : LedgerCommit.t) (cs : list LedgerCommit.t).

Definition follows head c : Prop :=
  LedgerCommit.sequence c = head_sequence head + 1 /\ LedgerCommit.previous_root c = head_root head.

Fixpoint linked head cs : Prop :=
  match cs with [] => True | c :: cs => follows head c /\ linked (head_after c) cs end.

Fixpoint head_of head cs : LedgerHead :=
  match cs with [] => head | c :: cs => head_of (head_after c) cs end.

Lemma head_of_app head cs c : head_of head (cs ++ [c]) = head_after c.
Proof. revert head. induction cs as [|x cs IH]; intros head; [done|]. apply IH. Qed.

Lemma linked_snoc head cs c : linked head (cs ++ [c]) <-> linked head cs /\ follows (head_of head cs) c.
Proof. revert head. induction cs as [|x cs IH]; intros head; cbn; [tauto|]. rewrite IH. tauto. Qed.

Lemma head_of_sequence head cs : linked head cs -> head_sequence (head_of head cs) = head_sequence head + zlen cs.
Proof.
  revert head. induction cs as [|c cs IH]; intros head; cbn [linked head_of]; [rewrite zlen_nil; lia|].
  intros [[Hs _] Hl]. rewrite (IH _ Hl), zlen_cons. cbn. lia.
Qed.

Lemma linked_sequence head cs c :
  linked head cs -> c ∈ cs -> head_sequence head < LedgerCommit.sequence c <= head_sequence head + zlen cs.
Proof.
  revert head. induction cs as [|x cs IH]; intros head Hl Hin; [by apply not_elem_of_nil in Hin|].
  destruct Hl as [[Hs _] Hl]. pose proof (zlen_nonneg cs). rewrite zlen_cons. apply elem_of_cons in Hin as [->|Hin]; [lia|].
  specialize (IH _ Hl Hin). cbn in IH. lia.
Qed.

Lemma linked_front head cs cs' : linked head (cs ++ cs') -> linked head cs.
Proof.
  revert head. induction cs as [|c cs IH]; intros head; [done|]. intros [Hf Hl]. split; [done|by apply IH].
Qed.

Lemma head_of_split head front c back :
  linked head (front ++ c :: back) ->
  head_sequence (head_of head (front ++ c :: back)) = LedgerCommit.sequence c + zlen back.
Proof.
  intros Hl. rewrite (head_of_sequence _ _ Hl), zlen_app, zlen_cons.
  change (c :: back) with ([c] ++ back) in Hl. rewrite app_assoc in Hl. apply linked_front, head_of_sequence in Hl.
  rewrite head_of_app, zlen_app in Hl. cbn in Hl. change (zlen [c]) with 1 in Hl. lia.
Qed.

Lemma head_of_wf cs : Forall ledger_wf cs -> head_wf (head_of genesis cs).
Proof.
  destruct cs as [|c cs _] using rev_ind; [intros; apply genesis_wf|]. intros [_ Hc]%Forall_app. apply Forall_cons_1 in Hc as [Hc _].
  rewrite head_of_app. split; [apply Hc|apply (ledger_root_eq (E:=ProtocolError) c Hc)].
Qed.

(** What recovery plans when the committed records are a chain and at most one more link. *)
Lemma plan_chain {IoError} cs (pend : option LedgerCommit.t) ls :
  linked genesis cs -> (forall c, pend = Some c -> follows (head_of genesis cs) c) ->
  ls ≡ₚ cs ++ option_list pend ->
  recovery_plan (IoError:=IoError) (head_of genesis cs) ls = Ok pend \/
  recovery_plan (IoError:=IoError) (head_of genesis cs) ls = Err AuditLedgerInvalid /\ 2 ^ 64 - 1 <= zlen ls.
Proof.
  intros Hl Hp Hls. assert (zlen ls = zlen cs + zlen (option_list pend)) as Hz
    by (unfold zlen; rewrite Hls, length_app; lia). rewrite Hz, (recovery_plan_proper (IoError:=IoError) _ _ _ Hls). clear ls Hls Hz. unfold recovery_plan.
  pose proof (head_of_sequence genesis cs Hl) as Hseq. cbn [genesis head_sequence] in Hseq.
  pose proof (zlen_nonneg cs) as Hcs. pose proof (zlen_nonneg (option_list pend)).
  case_bool_decide as Hnil; [apply app_nil in Hnil as [_ Hnil]; left; by destruct pend|].
  unfold checked_add_u64. rewrite Hseq. destruct (Z.ltb_spec (0 + zlen cs + 1) (2 ^ 64)) as [Hlt|Hge].
  2: { right. split; [done|]. lia. }
  left.
  rewrite bool_decide_eq_false_2.
  - rewrite filter_app. assert (filter (fun c => LedgerCommit.sequence c = 0 + zlen cs + 1) cs = []) as ->.
    { destruct (filter _ cs) as [|c l] eqn:Hf; [done|]. exfalso.
      assert (c ∈ filter (fun c => LedgerCommit.sequence c = 0 + zlen cs + 1) cs) as [Hc Hin]%list_elem_of_filter
        by (rewrite Hf; left). pose proof (linked_sequence _ _ _ Hl Hin). cbn in *. lia. }
    destruct pend as [c|]; [|done]. change (option_list (Some c)) with [c]. destruct (Hp c eq_refl) as [Hc _].
    rewrite filter_cons_True; [done|lia].
  - intros (c & Hin & Hb)%Exists_exists. apply elem_of_app in Hin as [Hin|Hin].
    + pose proof (linked_sequence _ _ _ Hl Hin). unfold breaks in Hb. cbn in *. lia.
    + destruct pend as [c'|]; [|by apply not_elem_of_nil in Hin]. apply list_elem_of_singleton in Hin as ->.
      destruct (Hp c' eq_refl) as [Hc1 Hc2]. destruct Hb as [|[_ Hb]]; [lia|done].
Qed.
End Chains.

(** ** Opening the storage *)

Section Storage.
Context {IoError Path : Type} `{AuditCryptoLaws} `{!RecordFiles IoError Path}.
Local Notation disk := (Disk Path).
Implicit Types (env : Env IoError Path) (identity : AuditIdentity.t) (d : disk).

(** The entries of a directory that is there or can be created. *)
Definition entries_of (dir : Dir (list (Path * Node))) : option (list (Path * Node)) :=
  match dir with NoDir => Some [] | NotDir => None | IsDir entries => Some entries end.

(** Nothing is in the way of the root and of the lock file. *)
Definition places_ok d : Prop :=
  root_dir d <> NotDir /\ records d <> NotDir /\ match lock_node d with None | Some (Regular _) => True | _ => False end.

(** A call that only creates directories and the lock file. *)
Record quiet d d' : Prop := {
  q_identity : identity_node d' = identity_node d;
  q_state : state_node d' = state_node d;
  q_entries : entries_of (records d') = entries_of (records d);
  q_places : places_ok d -> places_ok d';
}.

#[export] Instance quiet_preorder : PreOrder quiet.
Proof.
  split; [by split|]. intros d1 d2 d3 [A1 A2 A3 A4] [B1 B2 B3 B4]. split; [congruence..|auto].
Qed.

(** A quiet computation that returns something with [Q] unless a call fails. *)
Definition stage {E A} env (m : stm disk E A) d (Q : A -> disk -> Prop) : Prop :=
  exists r d', m d = (r, d') /\ quiet d d' /\
    match r with Ok a => Q a d' | Err _ => ~ calm env | Panic => False end.

Lemma stage_bind {E A B} env (m : stm disk E A) (f : A -> stm disk E B) d P Q :
  stage env m d P -> (forall a d', quiet d d' -> P a d' -> stage env (f a) d' Q) -> stage env (m ≫= f) d Q.
Proof.
  intros (r & d' & Hm & Hq & Hr) Hf. unfold stage, mbind, stm_bind. rewrite Hm. destruct r as [a|e|]; [|by exists (Err e), d'|done].
  destruct (Hf a d' Hq Hr) as (r & d'' & -> & Hq' & Hr'). exists r, d''. split_and!; try done. by transitivity d'.
Qed.

Lemma stage_ret {E A} env (a : A) d (Q : A -> disk -> Prop) : Q a d -> stage env (mret a : stm disk E A) d Q.
Proof. intros Hq. by exists (Ok a), d. Qed.

Lemma stage_gets {E A} env (f : disk -> A) d (Q : A -> disk -> Prop) : Q (f d) d -> stage env (gets f : stm disk E A) d Q.
Proof. intros Hq. by exists (Ok (f d)), d. Qed.

Lemma stage_lift {E A} env (r : res E A) a d (Q : A -> disk -> Prop) : r = Ok a -> Q a d -> stage env (lift r) d Q.
Proof. intros -> Hq. by exists (Ok a), d. Qed.

Lemma stage_io {E} env site (wrap : IoError -> E) d (Q : unit -> disk -> Prop) :
  Q tt d -> stage env (try_io env site wrap) d Q.
Proof. intros Hq. destruct (try_io_run env site wrap d) as [HE|[HN [x HE]]]; unfold stage; rewrite HE; by do 2 eexists. Qed.

Lemma stage_policy {E} env site (wrap : SecretFileError IoError -> E) d (Q : unit -> disk -> Prop) :
  Q tt d -> stage env (try_policy env site wrap) d Q.
Proof. intros Hq. destruct (try_policy_run env site wrap d) as [HE|[HN [x HE]]]; unfold stage; rewrite HE; by do 2 eexists. Qed.

Lemma stage_modify {E} env (f : disk -> disk) d (Q : unit -> disk -> Prop) :
  quiet d (f d) -> Q tt (f d) -> stage env (modify f : stm disk E unit) d Q.
Proof. intros Hf Hq. by exists (Ok tt), (f d). Qed.

Lemma stage_mapped {E F A} env (f : E -> F) (m : stm disk E A) d Q : stage env m d Q -> stage env (mapped f m) d Q.
Proof.
  intros (r & d' & Hm & Hq & Hr). exists (map_err f r), d'. unfold mapped. rewrite Hm. split_and!; [done..|]. by destruct r.
Qed.

(** One call that changes nothing, then the rest. *)
Lemma pass_io {E A} env site (wrap : IoError -> E) (f : unit -> stm disk E A) d Q :
  stage env (f tt) d Q -> stage env (try_io env site wrap ≫= f) d Q.
Proof.
  intros Hf. destruct (try_io_run env site wrap d) as [HE|[HN [x HE]]]; unfold stage.
  - by rewrite (stm_bind_step _ _ _ _ _ HE).
  - rewrite (bind_err _ _ _ _ _ HE). by do 2 eexists.
Qed.

Lemma pass_policy {E A} env site (wrap : SecretFileError IoError -> E) (f : unit -> stm disk E A) d Q :
  stage env (f tt) d Q -> stage env (try_policy env site wrap ≫= f) d Q.
Proof.
  intros Hf. destruct (try_policy_run env site wrap d) as [HE|[HN [x HE]]]; unfold stage.
  - by rewrite (stm_bind_step _ _ _ _ _ HE).
  - rewrite (bind_err _ _ _ _ _ HE). by do 2 eexists.
Qed.

Lemma pass_gets {E A B} env (g : disk -> A) (f : A -> stm disk E B) d Q :
  stage env (f (g d)) d Q -> stage env (gets g ≫= f) d Q.
Proof. done. Qed.

Lemma dirs_stage env d :
  places_ok d -> stage env (ensure_audit_dirs env) d (fun _ d' => exists entries, records d' = IsDir entries).
Proof.
  intros Hp. unfold ensure_audit_dirs. apply (stage_bind _ _ _ _ (fun _ _ => True)).
  - unfold ensure_private_dir. apply pass_io, pass_gets. destruct Hp as (Hr & Hd & Hl).
    destruct (root_dir d) eqn:E; [|done|by apply stage_policy].
    apply pass_policy, stage_modify; [|done]. by split.
  - intros [] d' Hq _. destruct (q_places _ _ Hq Hp) as (Hr & Hd & Hl). unfold ensure_private_dir. apply pass_io, pass_gets.
    destruct (records d') as [| |entries] eqn:E; [|done|apply stage_policy; by exists entries].
    apply pass_policy, stage_modify; [|by exists []]. split; cbn; [done..|by rewrite E|done].
Qed.

Lemma lock_stage env d :
  places_ok d -> stage env (acquire_ledger_lock env) d (fun _ d' => records d' = records d).
Proof.
  intros Hp. unfold acquire_ledger_lock, open_lock_file, LOCK_CREATE_ATTEMPTS.
  assert (forall n d1, places_ok d1 -> lock_node d1 <> None ->
    stage env (lock_attempts (S n) env) d1 (fun _ d' => records d' = records d1)) as Hthere.
  { intros n d1 (_ & _ & Hl) Hn. cbn [lock_attempts]. apply pass_io, pass_gets.
    destruct (lock_node d1) as [[]|]; try done. by apply pass_io, stage_policy. }
  apply (stage_bind _ _ _ _ (fun _ d' => records d' = records d)); [|intros [] d' _ Hd; by apply stage_io].
  destruct (lock_node d) eqn:E; [apply Hthere; [done|by rewrite E]|]. remember 7%nat as n eqn:Hn. cbn [lock_attempts].
  apply pass_io, pass_gets. rewrite E.
  assert (quiet d (set_lock (Some (Regular [])) d)) as Hq by (destruct Hp as (? & ? & _); by split).
  destruct (lock_race env n).
  - apply (stage_bind _ _ _ _ (fun _ d' => d' = set_lock (Some (Regular [])) d)); [by apply stage_modify|].
    intros [] d' _ ->. subst n.
    exact (Hthere 6%nat (set_lock (Some (Regular [])) d) (q_places _ _ Hq Hp) ltac:(done)).
  - apply pass_io. apply (stage_bind _ _ _ _ (fun _ d' => d' = set_lock (Some (Regular [])) d)); [by apply stage_modify|].
    intros [] d' _ ->. destruct (policy env LockProtect) as [e|] eqn:He; [|by apply stage_ret].
    exists (Err (map_lock_policy e)), (set_lock None (set_lock (Some (Regular [])) d)). split; [done|].
    split; [destruct Hp as (? & ? & _); by split|]. intros [_ Hc]. by rewrite Hc in He.
Qed.

(** The identity file of an identity. *)
Definition identity_file identity : Node :=
  Regular (encode_identity_file (AuditIdentity.signing_key identity) (raw (AuditIdentity.public_key identity))).

Lemma identity_roundtrip identity :
  is_array 32 (AuditIdentity.signing_key identity) ->
  let content := encode_identity_file (AuditIdentity.signing_key identity) (raw (AuditIdentity.public_key identity)) in
  zlen content = IDENTITY_FILE_LEN /\ decode_identity_file (IoError:=IoError) content = Ok identity.
Proof.
  intros [Hb Hl] content. destruct (identity_key_wf identity) as [_ Hk]. change (FixedBytes.len _) with 32 in Hk.
  set (seed := AuditIdentity.signing_key identity) in *. set (key := raw (AuditIdentity.public_key identity)) in *.
  assert (zlen content = IDENTITY_FILE_LEN) as Hlen.
  { unfold content, encode_identity_file. rewrite !zlen_app, Hl, Hk. done. }
  split; [done|]. unfold decode_identity_file, try_into_array. rewrite Hlen, Z.eqb_refl. cbn [ok_or mbind res_bind].
  assert (take 8 content = IDENTITY_MAGIC) as -> by done. rewrite bool_decide_eq_false_2 by (intros Hne; by apply Hne).
  assert (u16_at content 8 9 = Ok 1) as -> by done. cbn [expect mbind res_bind]. rewrite Z.eqb_refl. cbn [negb].
  change (drop 10 content) with (seed ++ key). change (drop 42 content) with (drop 32 (seed ++ key)).
  unfold zlen in Hl, Hk. rewrite take_app_length', drop_app_length' by lia. cbv zeta.
  rewrite (take_ge key) by lia. unfold AuditIdentity.from_seed_bytes, seed. destruct identity as [k]. cbn [AuditIdentity.signing_key].
  by rewrite bool_decide_eq_false_2 by (intros Hne; by apply Hne).
Qed.

Lemma identity_stage {R} `{SecureRandom R} env (random : R) identity d :
  places_ok d -> identity_node d = Some (identity_file identity) -> is_array 32 (AuditIdentity.signing_key identity) ->
  stage env (open_or_create_identity env random) d
    (fun i d' => i = identity /\ exists entries, records d' = IsDir entries).
Proof.
  intros Hp Hi Hk. unfold open_or_create_identity. eapply stage_bind; [by apply dirs_stage|]. intros [] d' Hq (entries & Hd).
  rewrite <- (q_identity _ _ Hq) in Hi. apply pass_io, pass_gets. rewrite Hi. unfold load_identity_file.
  apply pass_io, pass_gets. rewrite Hi. destruct (identity_roundtrip identity Hk) as [Hl Hr]. cbn [identity_file].
  rewrite Hl, Z.eqb_refl. cbn [negb]. apply pass_io, pass_policy, pass_io, (stage_lift _ _ identity); [done|].
  split; [done|]. by exists entries.
Qed.
End Storage.

(** ** The processes *)

Section Processes.
Context {IoError Path R : Type} `{AuditCryptoLaws} `{!RecordFiles IoError Path} `{SecureRandom R} (is_record : Path -> bool)
  (identity : AuditIdentity.t).
Local Notation disk := (Disk Path).
Local Notation lerr := (AuditLedgerError IoError).
Local Notation committed := (committed is_record identity).
Implicit Types (env : Env IoError Path) (d : disk) (c : LedgerCommit.t) (cs : list LedgerCommit.t).

(** The file of a session that ended with the commit [c], as [finalize_footer] leaves it. *)
Definition finished_record (path : Path) (content : list Z) c : Prop :=
  exists h rs ft input,
    header_wf h /\ Forall record_wf rs /\ footer_wf ft /\ is_record path = true /\
    AuditContainerFooter.ledger_commit ft = c /\
    LedgerCommit.sealed_record_digest c = FixedBytes.new (sha256 (interrupted h rs ++ sealed_record ft)) /\
    wire (E:=lerr) (LedgerCommit.signing_input c) = Ok input /\
    LedgerCommit.signature c = AuditIdentity.sign identity input /\
    content = finalised h rs ft (FixedBytes.new (sha256 (interrupted h rs ++ footer_prefix ft))).

(** What [OwnedCommitSession::commit] signs follows the head it read under the lock. *)
Lemma commit_facts (s : OwnedCommitSession) (input : CommitInput) c :
  commit (IoError:=IoError) s input = Ok c ->
  follows (locked_head s) c /\ LedgerCommit.sealed_record_digest c = in_sealed_record_digest input /\
  exists bytes, wire (E:=lerr) (LedgerCommit.signing_input c) = Ok bytes /\
    LedgerCommit.signature c = AuditIdentity.sign (ledger_identity (committing s)) bytes.
Proof.
  unfold commit, checked_add_u64. destruct (_ <? _); [|done]. cbn [ok_or mbind res_bind]. cbv zeta. set (c0 := LedgerCommit.new _ _ _ _ _ _ _ _).
  destruct (wire _) as [l| |] eqn:Hw; [|done..]. intros [= <-]. by repeat (split; [done|]); exists l.
Qed.

Definition input_wf (input : CommitInput) : Prop :=
  FixedBytes.wf (in_session_id input) /\ FixedBytes.wf (in_manifest_digest input) /\
  FixedBytes.wf (in_sealed_record_digest input) /\ FixedBytes.wf (in_peer_fingerprint input).

Lemma commit_wf (s : OwnedCommitSession) (input : CommitInput) c :
  commit (IoError:=IoError) s input = Ok c -> head_wf (locked_head s) -> input_wf input -> ledger_wf c.
Proof.
  intros Hc [[Hs _] Hr] (H1' & H2' & H3' & H4'). unfold commit, checked_add_u64 in Hc.
  destruct (Z.ltb_spec (head_sequence (locked_head s) + 1) (2 ^ 64)); [|done]. cbn [ok_or mbind res_bind] in Hc. cbv zeta in Hc.
  destruct (wire _) as [l| |]; [|done..]. injection Hc as <-. unfold ledger_wf. cbn [LedgerCommit.with_signature LedgerCommit.sequence
    LedgerCommit.previous_root LedgerCommit.session_id LedgerCommit.manifest_digest LedgerCommit.sealed_record_digest
    LedgerCommit.peer_identity_fingerprint LedgerCommit.signature]. split_and!; try done; [unfold is_u64; lia|apply ed_sign_array].
Qed.

(** The disk, and the session that holds the lock with the commit of the record it finished. *)
Record World := Now { w_disk : disk; w_holder : option (OwnedCommitSession * option LedgerCommit.t) }.

(** A record that is replaced or, if it is new, nothing; it is not a committed one. *)
Definition replaceable (path : Path) (old : list (Path * Node)) : Prop :=
  old = [] \/ exists node, old = [(path, node)] /\ committed (path, node) = None.

Inductive step : World -> World -> Prop :=
| step_open env (random : R) r d d' :
    open_ledger is_record env random d = (r, d') -> step (Now d None) (Now d' None)
| step_begin env ledger r d d' :
    ledger_identity ledger = identity -> begin_owned_commit is_record env ledger d = (r, d') ->
    step (Now d None) (Now d' match r with Ok s => Some (s, None) | _ => None end)
(** A session in progress creates its record or appends to it. *)
| step_write d holder front old back path content :
    records d = IsDir (front ++ old ++ back) -> replaceable path old ->
    bytes content -> committed (path, Regular content) = None ->
    step (Now d holder) (Now (set_records (IsDir (front ++ (path, Regular content) :: back)) d) holder)
(** The holder writes the footer, with the sequence and the root it was given. *)
| step_finish d s front old back path content c :
    records d = IsDir (front ++ old ++ back) -> replaceable path old ->
    finished_record path content c -> follows (locked_head s) c ->
    step (Now d (Some (s, None))) (Now (set_records (IsDir (front ++ (path, Regular content) :: back)) d) (Some (s, Some c)))
| step_advance env d s c r d' :
    advance env s c d = (r, d') -> step (Now d (Some (s, Some c))) (Now d' None)
(** The holder stops, at any point. *)
| step_stop d holder : step (Now d holder) (Now d None)
(** Another order of the directory. *)
| step_list d holder entries entries' :
    records d = IsDir entries -> entries ≡ₚ entries' ->
    step (Now d holder) (Now (set_records (IsDir entries') d) holder).

(** An audit directory whose identity was just written. *)
Record fresh d : Prop := {
  fr_key : is_array 32 (AuditIdentity.signing_key identity);
  fr_identity : identity_node d = Some (identity_file identity);
  fr_state : state_node d = None;
  fr_entries : entries_of (records d) = Some [];
  fr_places : places_ok d;
}.

(** ** The invariant *)

(** [cs] is what the state file has, [pend] the commit it does not have yet. *)
Record inv (w : World) cs (pend : option LedgerCommit.t) : Prop := {
  iv_key : is_array 32 (AuditIdentity.signing_key identity);
  iv_identity : identity_node (w_disk w) = Some (identity_file identity);
  iv_entries : exists entries, entries_of (records (w_disk w)) = Some entries /\
    Forall (node_bytes ∘ snd) entries /\ omap committed entries ≡ₚ cs ++ option_list pend;
  iv_linked : linked genesis cs;
  iv_pend : forall c, pend = Some c -> follows (head_of genesis cs) c;
  iv_state : state_node (w_disk w) = Some (Regular (encode_ledger_state (head_of genesis cs))) \/
    state_node (w_disk w) = None /\ cs = [] /\ pend = None /\ w_holder w = None;
  iv_holder : forall s fin, w_holder w = Some (s, fin) ->
    locked_head s = head_of genesis cs /\ ledger_identity (committing s) = identity /\ fin = pend;
  iv_places : places_ok (w_disk w);
}.

Lemma inv_wf w cs pend : inv w cs pend -> Forall ledger_wf (cs ++ option_list pend).
Proof.
  intros Hi. destruct (iv_entries _ _ _ Hi) as (entries & _ & Hb & Hp). rewrite <- Hp.
  apply Forall_forall. intros c. by apply commits_wf.
Qed.

Lemma inv_head_wf w cs pend : inv w cs pend -> head_wf (head_of genesis cs).
Proof. intros [Hw _]%inv_wf%Forall_app. by apply head_of_wf. Qed.

Lemma inv_quiet d d' cs pend : quiet d d' -> inv (Now d None) cs pend -> inv (Now d' None) cs pend.
Proof.
  intros [Q1 Q2 Q3 Q4] [I1 I2 I3 I4 I5 I6 I7 I8]. split; cbn [w_disk w_holder] in *; try done;
    [by rewrite Q1|by rewrite Q3|by rewrite Q2|auto].
Qed.

(** The adopted commit moves into the chain; the state file follows. *)
Lemma inv_adopt d cs c :
  inv (Now d None) cs (Some c) -> inv (Now (with_head (head_after c) d) None) (cs ++ [c]) None.
Proof.
  intros [I1 I2 I3 I4 I5 I6 I7 I8]. split; cbn [w_disk w_holder] in *; try done.
  - destruct I3 as (entries & He & Hb & Hp). exists entries. split_and!; [done..|]. by rewrite <- app_assoc.
  - apply linked_snoc. split; [done|by apply I5].
  - left. by rewrite head_of_app.
Qed.

Lemma inv_release d holder cs pend : inv (Now d holder) cs pend -> inv (Now d None) cs pend.
Proof. intros [I1 I2 I3 I4 I5 I6 I7 I8]. split; cbn [w_disk w_holder] in *; try done. naive_solver. Qed.

(** ** Calls that keep the invariant *)

(** A call of a process that does not hold the lock: the invariant holds again with the same
    commits, and unless it fails or there are too many, it returns something with [Q]. *)
Definition keeps {A} env cs pend (p : res lerr A * disk) (Q : A -> disk -> list LedgerCommit.t -> option LedgerCommit.t -> Prop)
  : Prop :=
  exists cs' pend', inv (Now (snd p) None) cs' pend' /\ cs' ++ option_list pend' = cs ++ option_list pend /\
    match fst p with
    | Ok a => Q a (snd p) cs' pend'
    | Err _ => calm env -> 2 ^ 64 - 1 <= zlen (cs ++ option_list pend)
    | Panic => False
    end.

Lemma keeps_bind {A B} env cs pend (m : stm disk lerr A) (f : A -> stm disk lerr B) d P Q :
  keeps env cs pend (m d) P ->
  (forall a d' cs' pend', inv (Now d' None) cs' pend' -> P a d' cs' pend' -> keeps env cs' pend' (f a d') Q) ->
  keeps env cs pend ((m ≫= f) d) Q.
Proof.
  intros (cs' & pend' & Hi & He & Hr) Hf. unfold mbind, stm_bind. destruct (m d) as [[a|e|] d']; cbn [fst snd] in *; [|by exists cs', pend'|done].
  destruct (Hf a d' cs' pend' Hi Hr) as (cs'' & pend'' & Hi' & He' & Hr'). rewrite He in *. by exists cs'', pend''.
Qed.

Lemma keeps_err {A} env cs pend e d' cs' pend' (Q : A -> disk -> _ -> _ -> Prop) :
  inv (Now d' None) cs' pend' -> cs' ++ option_list pend' = cs ++ option_list pend -> ~ calm env ->
  keeps env cs pend (Err e, d') Q.
Proof. intros Hi He Hn. exists cs', pend'. split; [done|]. split; [done|]. by intros ?. Qed.

Lemma keeps_ok {A} env cs pend (a : A) d' cs' pend' (Q : A -> disk -> _ -> _ -> Prop) :
  inv (Now d' None) cs' pend' -> cs' ++ option_list pend' = cs ++ option_list pend -> Q a d' cs' pend' ->
  keeps env cs pend (Ok a, d') Q.
Proof. intros Hi He Hn. by exists cs', pend'. Qed.

Lemma keeps_stage {A} env cs pend (m : stm disk lerr A) d P :
  inv (Now d None) cs pend -> stage env m d P ->
  keeps env cs pend (m d) (fun a d' cs' pend' => P a d' /\ quiet d d' /\ cs' = cs /\ pend' = pend).
Proof.
  intros Hi (r & d' & -> & Hq & Hr). exists cs, pend. split; [by apply (inv_quiet d)|]. split; [done|].
  destruct r; cbn [fst snd]; [by split_and!|by intros ?|done].
Qed.

Lemma keeps_write env d cs pend head d1 cs' pend' (Q : unit -> disk -> _ -> _ -> Prop) :
  inv (Now d None) cs pend -> d1 = with_head head d -> inv (Now d1 None) cs' pend' ->
  cs' ++ option_list pend' = cs ++ option_list pend -> Q tt d1 cs' pend' ->
  keeps env cs pend (write_ledger_state_atomic env head d) Q.
Proof.
  intros Hi -> Hi' He HQ. destruct (write_run env head d) as [->|[Hn (e & d' & -> & [->| ->])]];
    [by apply (keeps_ok _ _ _ _ _ cs' pend')|by apply (keeps_err _ _ _ _ _ cs pend)|by apply (keeps_err _ _ _ _ _ cs' pend')].
Qed.

Lemma read_stage env d head :
  state_node d = Some (Regular (encode_ledger_state head)) -> head_wf head ->
  stage env (read_ledger_state env) d (fun h d' => h = head /\ d' = d).
Proof.
  intros Hs Hh. unfold read_ledger_state. apply pass_io, pass_gets. rewrite Hs.
  destruct (state_fields head Hh) as (Hl & _). rewrite Hl, Z.eqb_refl. cbn [negb].
  apply pass_io, pass_policy, pass_io. eapply stage_lift; [by apply state_roundtrip|done].
Qed.

(** After recovery nothing is pending. *)
Lemma keeps_recover env d cs pend :
  inv (Now d None) cs pend -> state_node d <> None ->
  keeps env cs pend (recover_pending_records is_record env identity (head_of genesis cs) d)
    (fun head d' cs' pend' => head = head_of genesis cs' /\ pend' = None /\ state_node d' <> None).
Proof.
  intros Hi Hs. pose proof Hi as [_ _ (entries & He & Hb & Hp) Hl Hpd _ _ (_ & Hrec & _)]. cbn [w_disk w_holder] in *.
  pose proof (plan_chain (IoError:=IoError) _ _ _ Hl Hpd Hp) as Hplan.
  assert (zlen (omap committed entries) = zlen (cs ++ option_list pend)) as Hz by (unfold zlen; by rewrite Hp).
  destruct (records d) as [| |entries'] eqn:Hd; [|done|].
  - injection He as <-. assert (pend = None /\ cs = []) as [-> ->].
    { apply Permutation_nil_l, eq_sym, app_nil in Hp as [-> Hp]. by destruct pend. }
    apply (keeps_bind _ _ _ _ _ _ (fun _ d' cs' pend' => d' = d /\ cs' = [] /\ pend' = None)).
    + destruct (try_io_run env RecordsList RecordReadFailed d) as [->|[HN [x ->]]];
        [by apply (keeps_ok _ _ _ _ _ [] None)|by apply (keeps_err _ _ _ _ _ [] None)].
    + intros [] d' cs' pend' Hi' (-> & -> & ->). rewrite (stm_bind_step _ _ (records d) d d) by done. rewrite Hd.
      by apply (keeps_ok _ _ _ _ _ [] None).
  - injection He as ->. destruct (recover_run is_record env identity (head_of genesis cs) d entries Hd Hb)
      as [->|[Hn (e & d' & -> & Hd')]].
    + destruct Hplan as [-> |[-> Hbig]]; [destruct pend as [c|]|]; cbn [recovered].
      * apply (keeps_ok _ _ _ _ _ (cs ++ [c]) None); [by apply inv_adopt|by rewrite <- app_assoc|]. by rewrite head_of_app.
      * by apply (keeps_ok _ _ _ _ _ cs None).
      * exists cs, pend. split; [done|]. split; [done|]. cbn [fst]. by rewrite <- Hz.
    + destruct Hplan as [Hpl|[Hpl _]]; rewrite Hpl in Hd'; [destruct pend as [c|]|]; cbn [recovered snd] in Hd'.
      * destruct Hd' as [-> | ->]; [by apply (keeps_err _ _ _ _ _ cs (Some c))|].
        apply (keeps_err _ _ _ _ _ (cs ++ [c]) None); [by apply inv_adopt|by rewrite <- app_assoc|done].
      * destruct Hd' as [-> | ->]; by apply (keeps_err _ _ _ _ _ cs None).
      * destruct Hd' as [-> | ->]; by apply (keeps_err _ _ _ _ _ cs pend).
Qed.

Lemma keeps_load env d cs pend :
  inv (Now d None) cs pend ->
  keeps env cs pend (load_or_create_state env d)
    (fun head d' cs' pend' => head = head_of genesis cs' /\ state_node d' <> None).
Proof.
  intros Hi. unfold load_or_create_state. eapply keeps_bind; [apply (keeps_stage _ _ _ _ _ (fun _ _ => True)), stage_io; done|].
  intros [] d1 ? ? Hi1 (_ & Hq & -> & ->). rewrite (stm_bind_step _ _ (state_node d1) d1 d1) by done.
  destruct (iv_state _ _ _ Hi1) as [Hs|(Hs & -> & -> & _)]; cbn [w_disk] in Hs; rewrite Hs.
  - destruct (keeps_stage env _ _ _ _ _ Hi1 (read_stage env d1 _ Hs (inv_head_wf _ _ _ Hi1))) as (cs' & pend' & Hi' & He & Hr).
    exists cs', pend'. split; [done|]. split; [done|]. destruct (fst _); [|done..].
    destruct Hr as ([-> Hd] & _ & -> & _). rewrite Hd. by rewrite Hs.
  - eapply keeps_bind; [eapply (keeps_write _ _ _ _ _ _ [] None (fun _ d' cs' _ => cs' = [] /\ d' = with_head genesis d1));
      [exact Hi1|done| |done|done]|].
    + destruct Hi1 as [I1 I2 I3 I4 I5 I6 I7 I8]. split; cbn [w_disk w_holder] in *; try done. by left.
    + intros [] d' cs' pend' Hi' [-> ->]. by apply (keeps_ok _ _ _ _ _ [] pend').
Qed.

Lemma keeps_open env (random : R) d cs pend :
  inv (Now d None) cs pend ->
  keeps env cs pend (open_ledger is_record env random d)
    (fun ledger d' cs' pend' => ledger = OpenLedger identity (head_of genesis cs') /\ pend' = None /\ state_node d' <> None).
Proof.
  intros Hi. unfold open_ledger. pose proof (iv_places _ _ _ Hi) as Hpl. cbn [w_disk] in Hpl.
  eapply keeps_bind; [apply keeps_stage, stage_mapped, dirs_stage; done|]. intros [] d1 ? ? Hi1 (_ & _ & -> & ->).
  eapply keeps_bind; [apply keeps_stage, lock_stage; [done|apply (iv_places _ _ _ Hi1)]|]. intros [] d2 ? ? Hi2 (_ & _ & -> & ->).
  eapply keeps_bind; [apply keeps_stage, stage_mapped, (identity_stage env random identity); [done|..]|].
  1: apply (iv_places _ _ _ Hi2). 1: apply (iv_identity _ _ _ Hi2). 1: apply (iv_key _ _ _ Hi).
  intros i d3 ? ? Hi3 ([-> _] & _ & -> & ->).
  eapply keeps_bind; [by apply keeps_load|]. intros head d4 cs4 pend4 Hi4 [-> Hs4].
  eapply keeps_bind; [by apply keeps_recover|]. intros head d5 cs5 pend5 Hi5 (-> & -> & Hs5).
  by apply (keeps_ok _ _ _ _ _ cs5 None).
Qed.

Lemma keeps_begin env ledger d cs pend :
  inv (Now d None) cs pend -> ledger_identity ledger = identity -> state_node d <> None ->
  keeps env cs pend (begin_owned_commit is_record env ledger d)
    (fun s d' cs' pend' => s = Committing ledger (head_of genesis cs') /\ pend' = None /\ state_node d' <> None).
Proof.
  intros Hi Hl Hs. unfold begin_owned_commit. pose proof (iv_places _ _ _ Hi) as Hpl. cbn [w_disk] in Hpl.
  eapply keeps_bind; [apply keeps_stage, lock_stage; done|]. intros [] d1 ? ? Hi1 (_ & Hq & -> & ->).
  rewrite <- (q_state _ _ Hq) in Hs. destruct (iv_state _ _ _ Hi1) as [Hs1|[Hs1 _]]; cbn [w_disk] in Hs1; [|done].
  eapply keeps_bind; [apply keeps_stage, (read_stage env d1 _ Hs1 (inv_head_wf _ _ _ Hi1)); done|].
  intros head d2 ? ? Hi2 ([-> ->] & _ & -> & ->). rewrite Hl.
  eapply keeps_bind; [by apply keeps_recover|]. intros head d3 cs3 pend3 Hi3 (-> & -> & Hs3).
  by apply (keeps_ok _ _ _ _ _ cs3 None).
Qed.

(** A ledger whose state file is missing is not committed to. *)
Lemma begin_missing env ledger d cs pend :
  inv (Now d None) cs pend -> state_node d = None ->
  exists e d', begin_owned_commit is_record env ledger d = (Err e, d') /\ inv (Now d' None) cs pend.
Proof.
  intros Hi Hs. unfold begin_owned_commit, mbind, stm_bind.
  destruct (lock_stage env d (iv_places _ _ _ Hi)) as (r & d1 & -> & Hq & Hr). apply (inv_quiet _ _ _ _ Hq) in Hi.
  rewrite <- (q_state _ _ Hq) in Hs. destruct r as [[]|e|]; [|by exists e, d1|done]. unfold read_ledger_state.
  destruct (try_io_run env StateMeta StateReadFailed d1) as [HE|[HN [x HE]]].
  - rewrite (stm_bind_step _ _ _ _ _ HE), (stm_bind_step _ _ (state_node d1) d1 d1) by done. rewrite Hs. by do 2 eexists.
  - rewrite (bind_err _ _ _ _ _ HE). by do 2 eexists.
Qed.

Lemma advance_inv env d s c r d' cs :
  inv (Now d (Some (s, Some c))) cs (Some c) -> advance env s c d = (r, d') ->
  exists cs' pend', inv (Now d' None) cs' pend' /\ cs' ++ option_list pend' = cs ++ [c] /\
    (calm env -> r = Ok (OpenLedger identity (head_of genesis (cs ++ [c]))) /\ pend' = None).
Proof.
  intros Hi Ha. pose proof (iv_pend _ _ _ Hi c eq_refl) as [Hs Hr]. destruct (iv_holder _ _ _ Hi s (Some c) eq_refl) as (Hh & Hid & _).
  pose proof (inv_wf _ _ _ Hi) as Hwf. apply Forall_app in Hwf as [_ Hwf]. apply Forall_cons_1 in Hwf as [Hwf _].
  assert (is_u64 (LedgerCommit.sequence c)) as Hu by apply Hwf. apply inv_release in Hi.
  unfold advance in Ha. rewrite Hh in Ha. unfold checked_add_u64 in Ha. rewrite <- Hs in Ha.
  rewrite (proj2 (Z.ltb_lt _ _)) in Ha by apply Hu. cbn [ok_or] in Ha.
  rewrite (stm_bind_step _ _ (LedgerCommit.sequence c) d d) in Ha by done. rewrite Z.eqb_refl in Ha. cbn [negb orb] in Ha.
  rewrite bool_decide_eq_false_2 in Ha by (intros Hne; by apply Hne).
  rewrite (proj1 (ledger_root_eq (E:=lerr) c Hwf)) in Ha. rewrite (stm_bind_step _ _ (commit_root c) d d) in Ha by done.
  cbv zeta in Ha. fold (head_after c) in Ha. rewrite head_of_app, <- Hid.
  destruct (write_run env (head_after c) d) as [Hw|[Hn (e & d1 & Hw & Hd1)]].
  - rewrite (stm_bind_step _ _ _ _ _ Hw) in Ha. injection Ha as <- <-. exists (cs ++ [c]), None.
    split; [by apply inv_adopt|]. split; [by rewrite app_nil_r|done].
  - rewrite (bind_err _ _ _ _ _ Hw) in Ha. injection Ha as <- <-. destruct Hd1 as [-> | ->].
    + by exists cs, (Some c).
    + exists (cs ++ [c]), None. split; [by apply inv_adopt|]. split; [by rewrite app_nil_r|done].
Qed.

(** ** Every step keeps the invariant *)

Lemma finished_facts path content c :
  finished_record path content c -> bytes content /\ committed (path, Regular content) = Some c.
Proof.
  intros (h & rs & ft & input & Hh & Hrs & Hft & Hp & <- & Hd & Hin & Hsig & ->). split.
  - destruct (header_bytes_facts h Hh) as [Hb _]. destruct (footer_lens ft Hft) as (_ & _ & _ & Hfb).
    unfold finalised, interrupted. apply Forall_app_2; [apply Forall_app_2; [done|]|apply Forall_app_2; [done|apply sha256_array]].
    apply Forall_concat, Forall_fmap, (Forall_impl _ _ _ Hrs). intros r Hr. apply (frame_bytes_facts r Hr).
  - apply (finished_committed is_record identity path h rs ft _ input); try done. rewrite Hsig. apply identity_verifies.
Qed.

(** Replacing a record that is not committed. *)
Lemma replace_entries (front old back : list (Path * Node)) path content :
  replaceable path old ->
  omap committed (front ++ (path, Regular content) :: back) ≡ₚ
  omap committed (front ++ old ++ back) ++ option_list (committed (path, Regular content)).
Proof.
  intros Hold. assert (omap committed old = []) as Ho.
  { destruct Hold as [->|(node & -> & Hn)]; [done|]. cbn [omap list_omap]. by rewrite Hn. }
  rewrite !omap_app, Ho. cbn [omap list_omap app]. rewrite <- app_assoc. apply Permutation_app_head.
  destruct (committed (path, Regular content)) as [c|]; [|by rewrite app_nil_r]. apply Permutation_cons_append.
Qed.

Lemma inv_replace d holder front old back path content cs pend pend' holder' :
  inv (Now d holder) cs pend -> records d = IsDir (front ++ old ++ back) -> replaceable path old -> bytes content ->
  option_list pend ++ option_list (committed (path, Regular content)) = option_list pend' ->
  (forall c, pend' = Some c -> follows (head_of genesis cs) c) ->
  (forall s fin, holder' = Some (s, fin) ->
    locked_head s = head_of genesis cs /\ ledger_identity (committing s) = identity /\ fin = pend') ->
  (state_node d = None -> pend' = None /\ holder' = None) ->
  inv (Now (set_records (IsDir (front ++ (path, Regular content) :: back)) d) holder') cs pend'.
Proof.
  intros [I1 I2 (entries & He & Hb & Hp) I4 I5 I6 I7 I8] Hd Hold Hc Hpend Hf Hh Hs. cbn [w_disk w_holder] in *.
  rewrite Hd in He. injection He as <-. split; cbn [w_disk w_holder set_records identity_node state_node records]; try done.
  - eexists. split; [done|]. split.
    + apply Forall_app in Hb as [Hb1 Hb2]. apply Forall_app in Hb2 as [_ Hb2].
      apply Forall_app_2; [done|]. by constructor.
    + by rewrite (replace_entries _ _ _ _ _ Hold), Hp, <- app_assoc, Hpend.
  - destruct I6 as [I6|(I6 & -> & -> & _)]; [by left|right]. destruct (Hs I6). by split_and!.
  - destruct I8 as (? & ? & ?). by split_and!.
Qed.

Lemma step_inv w w' cs pend : step w w' -> inv w cs pend -> exists cs' pend', inv w' cs' pend'.
Proof.
  intros Hstep. destruct Hstep as [env random r d d' Ho|env ledger r d d' Hl Hb|d holder front old back path content Hd Ho Hc Hn
    |d s front old back path content c Hd Ho Hfin Hf|env d s c r d' Ha|d holder|d holder entries entries' Hd Hp]; intros Hi.
  - destruct (keeps_open env random d cs pend Hi) as (cs' & pend' & Hi' & _). rewrite Ho in Hi'. by exists cs', pend'.
  - destruct (state_node d) eqn:Hs.
    2: { destruct (begin_missing env ledger d cs pend Hi Hs) as (e & d1 & Hb' & Hi'). rewrite Hb in Hb'. injection Hb' as -> ->. by exists cs, pend. }
    destruct (keeps_begin env ledger d cs pend Hi Hl ltac:(by rewrite Hs)) as (cs' & pend' & Hi' & _ & Hr). rewrite Hb in Hi', Hr.
    cbn [fst snd] in *. exists cs', pend'. destruct r as [s| |]; [|done..]. destruct Hr as (-> & -> & Hs').
    destruct Hi' as [I1 I2 I3 I4 I5 I6 I7 I8]. split; cbn [w_disk w_holder] in *; try done.
    + left. by destruct I6 as [|[? _]].
    + intros s fin [= <- <-]. cbn. by split_and!.
  - exists cs, pend. apply (inv_replace d holder front old back path content cs pend pend holder); try done.
    + rewrite Hn. apply app_nil_r.
    + apply Hi.
    + apply Hi.
    + intros Hs. destruct (iv_state _ _ _ Hi) as [Hs'|(_ & _ & ? & ?)]; [|done]. cbn in Hs'. by rewrite Hs in Hs'.
  - destruct (finished_facts _ _ _ Hfin) as [Hb Hc]. destruct (iv_holder _ _ _ Hi s None eq_refl) as (Hh & Hid & <-).
    rewrite Hh in Hf. exists cs, (Some c). apply (inv_replace d (Some (s, None)) front old back path content cs None); try done.
    + by rewrite Hc.
    + by intros ? [= <-].
    + intros ? ? [= <- <-]. by split_and!.
    + intros Hs. destruct (iv_state _ _ _ Hi) as [Hs'|(_ & _ & _ & ?)]; [|done]. cbn in Hs'. by rewrite Hs in Hs'.
  - destruct (iv_holder _ _ _ Hi s (Some c) eq_refl) as (_ & _ & <-).
    destruct (advance_inv env d s c r d' cs Hi Ha) as (cs' & pend' & Hi' & _). by exists cs', pend'.
  - exists cs, pend. by apply inv_release in Hi.
  - exists cs, pend. destruct Hi as [I1 I2 (es & He & Hb & Hpe) I4 I5 I6 I7 I8]. split; cbn [w_disk w_holder] in *; try done.
    + rewrite Hd in He. injection He as <-. exists entries'. split; [done|]. by rewrite <- Hp.
    + destruct I8 as (? & ? & ?). by split_and!.
Qed.

Lemma reachable_inv d w : fresh d -> rtc step (Now d None) w -> exists cs pend, inv w cs pend.
Proof.
  intros [F1 F2 F3 F4 F5] Hr. assert (inv (Now d None) [] None) as Hi.
  { split; cbn [w_disk w_holder]; try done; [exists []; by split_and!|by right]. }
  clear F1 F2 F3 F4 F5. revert Hi. generalize (@nil LedgerCommit.t) (@None LedgerCommit.t).
  induction Hr as [w|w w' w'' Hs Hr IH]; intros cs pend Hi; [by exists cs, pend|].
  destruct (step_inv _ _ _ _ Hs Hi) as (cs' & pend' & Hi'). by apply (IH cs' pend').
Qed.

Lemma inv_chain w cs pend : inv w cs pend -> linked genesis (cs ++ option_list pend).
Proof.
  intros Hi. destruct pend as [c|]; [|rewrite app_nil_r; apply Hi]. apply linked_snoc. split; apply Hi. done.
Qed.

(** C9: No interleaving and no crash forks the ledger.  From a directory with a fresh identity,
    over every sequence of openings, commits, record writes and stops of any number of
    processes, each call failing at any of its sites or not: the commits of all complete
    records in the directory are one chain from the genesis head, every sequence number once
    and every root the digest of its predecessor; and the state file, once it exists, holds
    the head of the chain or of the chain without its last link. *)
Theorem ledger_linear d w :
  fresh d -> rtc step (Now d None) w ->
  exists entries cs pend, entries_of (records (w_disk w)) = Some entries /\
    omap committed entries ≡ₚ cs ++ option_list pend /\ linked genesis (cs ++ option_list pend) /\
    (state_node (w_disk w) = Some (Regular (encode_ledger_state (head_of genesis cs))) \/
     state_node (w_disk w) = None /\ cs = [] /\ pend = None).
Proof.
  intros Hf Hr. destruct (reachable_inv d w Hf Hr) as (cs & pend & Hi). destruct (iv_entries _ _ _ Hi) as (entries & He & _ & Hp).
  exists entries, cs, pend. split_and!; [done..|by apply (inv_chain w)|]. destruct (iv_state _ _ _ Hi) as [|(? & ? & ? & _)]; auto.
Qed.

(** C10: The ledger recovers from every run that began with a complete identity file.  In
    every state that such a sequence can reach from a fresh directory with the identity
    already written and with the lock free, however its calls failed and its processes
    stopped, the next opening whose own calls do not fail succeeds (with fewer than 2^64 - 1
    files in the directory): it finds the identity, its head is the end of the chain of all complete records, a commit that was
    not yet in the state file included, and it leaves exactly that head in the state file. *)
Theorem ledger_recovers d w env (random : R) entries :
  fresh d -> rtc step (Now d None) w -> w_holder w = None -> calm env ->
  entries_of (records (w_disk w)) = Some entries -> zlen entries < 2 ^ 64 - 1 ->
  exists cs d', omap committed entries ≡ₚ cs /\ linked genesis cs /\
    open_ledger is_record env random (w_disk w) = (Ok (OpenLedger identity (head_of genesis cs)), d') /\
    state_node d' = Some (Regular (encode_ledger_state (head_of genesis cs))) /\
    head_sequence (head_of genesis cs) = zlen cs.
Proof.
  intros Hf Hr Hh Hc He Hz. destruct (reachable_inv d w Hf Hr) as (cs & pend & Hi). destruct w as [dw holder]. cbn in Hh, He. subst holder.
  destruct (iv_entries _ _ _ Hi) as (es & He' & _ & Hp). cbn in He'. rewrite He in He'. injection He' as <-.
  assert (zlen (cs ++ option_list pend) <= zlen entries) as Hle.
  { unfold zlen. rewrite <- Hp. apply inj_le, omap_length_le. }
  cbn [w_disk]. destruct (keeps_open env random dw cs pend Hi) as (cs' & pend' & Hi' & Ht & Hres).
  destruct (open_ledger is_record env random dw) as [r d'] eqn:Ho. cbn [fst snd] in *.
  destruct r as [l|e|]; [|specialize (Hres Hc); lia|done]. destruct Hres as (-> & -> & Hs). exists cs', d'.
  cbn [option_list] in Ht. rewrite app_nil_r in Ht. rewrite Ht. split; [done|]. split; [by apply (inv_chain _ _ _ Hi)|].
  rewrite <- Ht. split; [done|]. split; [by destruct (iv_state _ _ _ Hi') as [|[? _]]|].
  apply (head_of_sequence genesis cs'), Hi'.
Qed.
End Processes.

(** ** The session's ledger *)

Section Adapter.
Context {IoError Path : Type} `{AuditCryptoLaws} `{!RecordFiles IoError Path} (is_record : Path -> bool).
Implicit Types (env : Env IoError Path) (a : LedgerAdapter (Path:=Path)).

(** What the session commits with the sequence and the root that [begin_commit] gave it is
    accepted by [finish_commit]; the next snapshot is its head, and so is the state file. *)
Theorem adapter_commits env a n root a' c :
  calm env -> adapter_begin is_record env a = (Ok (n, root), a') ->
  LedgerCommit.sequence c = n -> LedgerCommit.previous_root c = root -> ledger_wf c ->
  exists a'', adapter_finish env c a' = (Ok tt, a'') /\
    adapter_snapshot (IoError:=IoError) a'' = Ok (n, commit_root c) /\
    state_node (adapter_disk a'') = Some (Regular (encode_ledger_state (head_after c))).
Proof.
  intros Hcalm Hb Hn Hr Hwf. unfold adapter_begin in Hb. destruct (inner a) as [l|]; [|done].
  destruct (begin_owned_commit _ _ _ _) as [[s|e|] d]; [|done..]. apply pair_eq in Hb as [Hb <-].
  unfold checked_add_u64 in Hb. destruct (_ <? _) eqn:Hlt; [|done]. cbn [ok_or mbind res_bind] in Hb.
  apply ok_inj, pair_eq in Hb as [-> ->]. unfold adapter_finish, advance. cbn [pending adapter_disk].
  unfold checked_add_u64. rewrite Hlt. cbn [ok_or].
  rewrite (stm_bind_step _ _ (head_sequence (locked_head s) + 1) d d) by done. rewrite Hn, Z.eqb_refl. cbn [negb orb].
  rewrite bool_decide_eq_false_2 by (intros Hne; by apply Hne). rewrite (proj1 (ledger_root_eq c Hwf)).
  rewrite (stm_bind_step _ _ (commit_root c) d d) by done. cbv zeta. rewrite <- Hn. fold (head_after c).
  destruct (write_run env (head_after c) d) as [Hw|[Hne _]]; [|done]. rewrite (stm_bind_step _ _ _ _ _ Hw).
  eexists. split; [reflexivity|]. by split.
Qed.

(** While a commit is pending the adapter has no ledger to commit with. *)
Lemma adapter_exclusive env env' a r a' :
  adapter_begin is_record env a = (Ok r, a') ->
  adapter_begin is_record env' a' = (Err (InvalidState "the ledger is mid-commit"), a').
Proof.
  unfold adapter_begin at 1. destruct (inner a) as [l|]; [|done].
  by destruct (begin_owned_commit _ _ _ _) as [[s|e|] d]; intros Hb; apply pair_eq in Hb as [_ <-].
Qed.
End Adapter.
