(* ===== verification/LedgerAnchor.v ===== *)
(** * Anchors in the local ledger

    The verifier's anchor ([ledger_continuous]) against the ledger that [LocalLedger] keeps:
    a record committed by the local identity is found again from the head.  And the identity
    file: what becomes of a first run that fails. *)

From stdpp Require Import strings.
From S2P Require Import Prelude Domain Codec Layout WireAudit AuditCodecs AuditContainer AuditSigning ContainerCodecs AuditWriter Stateful AuditEvents AuditSession ChainVerifier AuditSimulation AuditPointSim AuditIdentity FileVerifier FileDigests FileWalk FileRun FinishedFile PairVerifier LocalLedger LedgerRecovery LedgerSafety.
Open Scope string_scope.
Open Scope list_scope.
Open Scope Z_scope.

Section Anchor.
Context {IoError Path : Type} `{AuditCryptoLaws} `{!RecordFiles IoError Path} `{!AuditDirectory Path} (is_record : Path -> bool)
  (identity : AuditIdentity.t).
Local Notation disk := (Disk Path).
Local Notation committed := (committed is_record identity).
Implicit Types (d : disk) (c : LedgerCommit.t) (cs : list LedgerCommit.t).


(** ** One record *)





(** ** The search *)







(** ** The anchor *)



End Anchor.

Section Reachable.
Context {IoError Path R : Type} `{AuditCryptoLaws} `{!RecordFiles IoError Path} `{!AuditDirectory Path} `{SecureRandom R}
  (is_record : Path -> bool) (identity : AuditIdentity.t).

End Reachable.

(** ** The identity file *)

Section Identity.
Context {IoError Path R : Type} `{AuditCryptoLaws} `{SecureRandom R}.
Implicit Types (env : Env IoError Path) (d : Disk Path).

(** A failed first run cannot be retried.  On an empty audit directory, if writing the new
    identity file fails or stops before its last byte, what was written stays; every later
    run, though nothing else fails, then refuses the identity as invalid and leaves the file
    in place, so no audited session can start. *)
Theorem failed_identity_write env env' (random random' : R) d identity rest e :
  root_dir d = IsDir tt -> records d = IsDir [] -> identity_node d = None -> state_node d = None ->
  AuditIdentity.generate random = (Some identity, rest) -> is_array 32 (AuditIdentity.signing_key identity) ->
  (forall s, s <> IdentityWrite -> io env s = None) -> (forall s, policy env s = None) ->
  io env IdentityWrite = Some e -> Z.of_nat (written env) < IDENTITY_FILE_LEN -> calm env' ->
  exists d', open_or_create_identity env random d = (Err (IdentityWriteFailed e), d') /\
    open_or_create_identity env' random' d' = (Err AuditIdentityInvalid, d').
Proof.
  intros Hroot Hrec Hid Hst Hgen Hk Hio Hpol Hw Hlen [Hio' Hpol'].
  destruct (identity_roundtrip (IoError:=IoError) identity Hk) as [Hl _].
  set (content := encode_identity_file _ _) in Hl.
  exists (set_identity (Some (Regular (take (written env) content))) d). split.
  - unfold open_or_create_identity, ensure_audit_dirs, ensure_private_dir, audit_history_exists, create_identity_file,
      try_io, try_policy, mbind, stm_bind, gets, modify, lift, throw, mret, stm_ret. rewrite !Hio, !Hpol by done.
    rewrite Hroot, Hrec. rewrite !Hid, Hst, Hgen. cbn [fst ok_or]. cbn.
    rewrite Hrec, bool_decide_eq_true_2 by done. cbn [negb]. by rewrite Hid, Hw.
  - unfold open_or_create_identity, ensure_audit_dirs, ensure_private_dir, load_identity_file,
      try_io, try_policy, mbind, stm_bind, gets, modify, lift, throw, mret, stm_ret. rewrite !Hio', !Hpol'.
    cbn. rewrite Hroot. cbn. rewrite Hrec. cbn.
    rewrite (proj2 (Z.eqb_neq _ _)); [done|]. unfold zlen in *. rewrite length_take. lia.
Qed.

(** The audit root is absolute when it comes from [XDG_STATE_HOME]; from [HOME] it is only as
    absolute as [HOME]. *)
Lemma path_join_absolute (path component : list Z) : path <> [] -> is_absolute (path_join path component) = is_absolute path.
Proof.
  destruct path as [|b path]; [done|]. intros _. unfold path_join. destruct (last (b :: path)) as [x|] eqn:Hx; [by destruct (x =? _)|].
  by apply last_None in Hx.
Qed.

Lemma path_join_nonempty (path component : list Z) : path <> [] -> path_join path component <> [].
Proof.
  destruct path as [|b path]; [done|]. intros _. unfold path_join. destruct (last (b :: path)) as [x|] eqn:Hx; [by destruct (x =? _)|].
  by apply last_None in Hx.
Qed.

Lemma audit_root_absolute (xdg home : option (list Z)) root :
  linux_audit_root (IoError:=IoError) xdg home = Ok root ->
  is_absolute root = match xdg, home with Some _, _ => true | None, Some h => is_absolute h | None, None => false end.
Proof.
  destruct xdg as [x|]; cbn [linux_audit_root].
  - case_bool_decide as Hx; [done|]. cbn [orb]. destruct (is_absolute x) eqn:Ha; [|done]. intros [= <-].
    by rewrite !path_join_absolute by auto using path_join_nonempty.
  - destruct home as [h|]; [|done]. cbn [ok_or mbind res_bind]. case_bool_decide as Hh; [done|]. intros [= <-].
    by rewrite !path_join_absolute by auto using path_join_nonempty.
Qed.
End Identity.
