(* ===== verification/LedgerExample.v ===== *)
(** * A ledger, interrupted and recovered

    One process opens a fresh ledger, takes the lock, finishes a record and stops before the
    ledger advances; the instances are those of [AuditExample]. *)

From stdpp Require Import strings.
From S2P Require Import Prelude Domain Codec Layout WireAudit AuditCodecs AuditContainer AuditSigning ContainerCodecs AuditWriter Stateful AuditEvents AuditSession ChainVerifier AuditSimulation AuditPointSim AuditIdentity AuditExample FileVerifier FileDigests FileWalk FileRun FinishedFile PairVerifier LocalLedger LedgerRecovery LedgerSafety LedgerAnchor.
Open Scope string_scope.
Open Scope list_scope.
Open Scope Z_scope.

Definition ledger_key : AuditIdentity.t := AuditIdentity.Mk (to_be_bytes 32 77).

Definition calm_env : Env string Z :=
  MkEnv (fun _ => None) (fun _ => None) 0 (fun _ => false) "not found" "not a directory" "timed out" "other".

Lemma calm_env_calm : calm calm_env.
Proof. done. Qed.

(** Records have even paths. *)
Definition even_path (path : Z) : bool := Z.even path.

Definition first_disk : Disk Z := MkDisk (IsDir tt) None (Some (identity_file ledger_key)) None NoDir.
Definition opened_disk : Disk Z :=
  MkDisk (IsDir tt) (Some (Regular [])) (Some (identity_file ledger_key)) (Some (Regular (encode_ledger_state genesis))) (IsDir []).
Definition first_ledger : LocalLedger := OpenLedger ledger_key genesis.
Definition first_session : OwnedCommitSession := Committing first_ledger genesis.

(** ** The record *)

Definition sealed_digest : Digest32 := FixedBytes.new (sha256 (interrupted example_header [] ++ sealed_record example_footer)).
Definition first_input : CommitInput :=
  Input (FixedBytes.new (zeros 32)) (FixedBytes.new (zeros 32)) sealed_digest (FixedBytes.new (zeros 32)) SessionResult.Normal.

Lemma first_commit_ok : is_ok (commit (IoError:=string) first_session first_input) = true.
Proof. vm_compute. reflexivity. Qed.
Definition first_commit : LedgerCommit.t := get_ok _ first_commit_ok.

Definition first_footer : AuditContainerFooter.t :=
  AuditContainerFooter.Mk example_manifest (ManifestSignature.new (zero_of _))
    (ManifestSignature.new (zero_of _)) example_seal first_commit.

Definition first_record : list Z :=
  finalised example_header [] first_footer
    (FixedBytes.new (sha256 (interrupted example_header [] ++ footer_prefix first_footer))).

(** The file system that holds it under the path 4, and the ledger's root under 1. *)
#[local] Instance ledger_files : RecordFiles string Z := {
  open_file path := if path =? 4 then Ok first_record else Err "not found";
  unexpected_eof := "unexpected end of file";
  read_size _ _ := 700;
}.

Lemma first_commit_eq : commit (IoError:=string) first_session first_input = Ok first_commit.
Proof. apply get_ok_eq. Qed.

Lemma first_commit_wf : ledger_wf first_commit.
Proof.
  apply (commit_wf (IoError:=string) _ _ _ first_commit_eq); [apply genesis_wf|].
  split_and!; first [apply zero_of_wf|apply sha256_array].
Qed.

Lemma first_finished : finished_record (IoError:=string) even_path ledger_key 4 first_record first_commit.
Proof.
  destruct (commit_facts (IoError:=string) _ _ _ first_commit_eq) as (_ & Hd & l & Hl & Hs).
  destruct example_footer_wf as (F1 & F2 & F3 & F4 & _).
  exists example_header, [], first_footer, l. split; [exact example_header_wf|]. split; [by constructor|].
  split; [exact (conj F1 (conj F2 (conj F3 (conj F4 first_commit_wf))))|]. split; [done|]. split; [done|].
  split; [exact Hd|]. split; [exact Hl|]. split; [exact Hs|]. reflexivity.
Qed.

(** ** The run *)

Definition finished_disk : Disk Z := set_records (IsDir [(4, Regular first_record)]) opened_disk.

Lemma first_fresh : fresh ledger_key first_disk.
Proof. by split; [split; [apply bytes_to_be|apply zlen_to_be]|..]. Qed.

Lemma open_first : open_ledger even_path calm_env (Some 1 : FixedRandom) first_disk = (Ok first_ledger, opened_disk).
Proof. vm_compute. reflexivity. Qed.

Lemma begin_first : begin_owned_commit even_path calm_env first_ledger opened_disk = (Ok first_session, opened_disk).
Proof. vm_compute. reflexivity. Qed.

Lemma first_run : rtc (step (R:=FixedRandom) even_path ledger_key) (Now first_disk None) (Now finished_disk None).
Proof.
  eapply rtc_l; [exact (step_open even_path ledger_key calm_env _ _ _ _ open_first)|].
  eapply rtc_l; [exact (step_begin even_path ledger_key calm_env first_ledger _ _ _ eq_refl begin_first)|].
  eapply rtc_l; [apply (step_finish even_path ledger_key opened_disk first_session [] [] [] 4 first_record first_commit)|].
  - done.
  - by left.
  - apply first_finished.
  - apply (commit_facts (IoError:=string) _ _ _ first_commit_eq).
  - eapply rtc_l; [apply step_stop|]. apply rtc_refl.
Qed.

Lemma first_committed : committed even_path ledger_key (4, Regular first_record) = Some first_commit.
Proof. apply (finished_facts (IoError:=string) even_path ledger_key 4 first_record first_commit first_finished). Qed.

(** ** The theorems at the run *)

Lemma recovery_exact_witness :
  recover_pending_records even_path calm_env ledger_key genesis finished_disk =
  (Ok (head_after first_commit), with_head (head_after first_commit) finished_disk).
Proof.
  rewrite (recovery_exact even_path calm_env ledger_key genesis finished_disk [(4, Regular first_record)] [(4, Regular first_record)]).
  - cbn [omap list_omap]. rewrite first_committed. destruct (commit_facts (IoError:=string) _ _ _ first_commit_eq) as ([Hs Hr] & _).
    destruct (plan_chain (IoError:=string) [] (Some first_commit) [first_commit]) as [Hp|[_ Hp]].
    + exact Logic.I.
    + intros c Hc. apply (inj Some) in Hc as <-. exact (conj Hs Hr).
    + apply Permutation_refl.
    + cbn [head_of] in Hp. rewrite Hp. reflexivity.
    + exfalso. change (zlen [first_commit]) with 1 in Hp. lia.
  - apply calm_env_calm.
  - done.
  - apply Forall_singleton. apply (finished_facts (IoError:=string) even_path ledger_key 4 first_record first_commit first_finished).
  - done.
Defined.

Lemma ledger_linear_witness :
  exists entries cs pend, entries_of (records finished_disk) = Some entries /\
    omap (committed even_path ledger_key) entries ≡ₚ cs ++ option_list pend /\ linked genesis (cs ++ option_list pend).
Proof.
  destruct (ledger_linear (R:=FixedRandom) even_path ledger_key first_disk (Now finished_disk None) first_fresh first_run)
    as (entries & cs & pend & H1 & H2 & H3 & _). by exists entries, cs, pend.
Defined.

Lemma ledger_recovers_witness :
  exists d', open_ledger even_path calm_env (Some 1 : FixedRandom) finished_disk
    = (Ok (OpenLedger ledger_key (head_after first_commit)), d').
Proof.
  destruct (ledger_recovers (R:=FixedRandom) even_path ledger_key first_disk (Now finished_disk None) calm_env (Some 1)
    [(4, Regular first_record)] first_fresh first_run eq_refl calm_env_calm eq_refl ltac:(by vm_compute))
    as (cs & d' & Hp & _ & Ho & _). exists d'. cbn [w_disk] in Ho. rewrite Ho. cbn [omap list_omap] in Hp.
  rewrite first_committed in Hp. apply Permutation_singleton_l in Hp as <-. reflexivity.
Defined.

(** ** The anchor *)

#[local] Instance ledger_directory : AuditDirectory Z := {
  regular_file path :=
    if path =? 4 then Some first_record else if path =? 2 then Some (encode_ledger_state genesis) else None;
  read_dir _ := Some [Some 4];
  is_record_path := even_path;
  state_path _ := 2;
  records_path _ := 3;
  local_anchor := Some (1, ledger_key);
}.




(** ** The identity *)

Definition empty_disk : Disk Z := MkDisk (IsDir tt) None None None (IsDir []).
Definition failing_env : Env string Z :=
  MkEnv (fun s => match s with IdentityWrite => Some "no space left" | _ => None end) (fun _ => None) 10 (fun _ => false)
    "not found" "not a directory" "timed out" "other".

Lemma failed_identity_write_witness :
  exists d', open_or_create_identity failing_env (Some 1 : FixedRandom) empty_disk
      = (Err (IdentityWriteFailed "no space left"), d') /\
    open_or_create_identity calm_env (Some 2 : FixedRandom) d' = (Err AuditIdentityInvalid, d').
Proof.
  apply (failed_identity_write failing_env calm_env (Some 1 : FixedRandom) (Some 2) empty_disk
    (AuditIdentity.Mk (replicate 32 1)) (Some 1 : FixedRandom) "no space left"); try done.
  - split; [apply Forall_replicate; done|done].
  - intros [] Hs; done.
Defined.
