(* ===== verification/Replay.v ===== *)
(** * Replay of the recorded display

    [crates/yon/src/audit/replay.rs] with [stream_frames] of [audit/verify.rs]: the recorded
    display bytes go into a virtual terminal, whose visible cells are drawn with commands of
    the program's own.

    The virtual terminal is the vt100 crate, the class [Vt100]; the commands are those of
    crossterm.  Raw mode, writing a command and asking for events may fail: the [Terminal] of
    a run says when.  The counters are [u64] in the code; none can wrap, as each counts bytes
    or records of one file. *)

From stdpp Require Import strings.
From S2P Require Import Prelude Domain Layout WireAudit AuditContainer AuditWriter Stateful AuditEvents AuditSession ChainVerifier AuditIdentity FileVerifier PairVerifier.
Open Scope string_scope.
Open Scope list_scope.
Open Scope Z_scope.

Definition DEFAULT_ROWS : Z := 24.
Definition DEFAULT_COLS : Z := 80.
Definition MAX_ROWS : Z := 512.
Definition MAX_COLS : Z := 1024.
Definition LOCAL_RECORD_PREFIX_LEN : Z := 40.
Definition RESIZE_RECORD_LEN : Z := 45.

(** ** The virtual terminal *)

(** [vt100::Color] and [crossterm::style::Color]. *)
Inductive Color := DefaultColor | Idx (index : Z) | Rgb (r g b : Z).
Inductive TermColor := ResetTo | AnsiValue (index : Z) | TermRgb (r g b : Z).

(** [vt100::Cell]; texts are lists of code points. *)
Record Cell := MkCell {
  cell_contents : list Z;
  is_wide_continuation : bool;
  fgcolor : Color;
  bgcolor : Color;
  cell_bold : bool;
  cell_dim : bool;
  cell_italic : bool;
  cell_underline : bool;
  cell_inverse : bool;
}.

(** The callbacks a parser may call while it processes bytes. *)
Inductive Callback :=
| AudibleBell | VisualBell | ResizeRequest | SetIconName | SetTitle
| CopyToClipboard | PasteFromClipboard
| UnhandledChar | UnhandledControl | UnhandledEscape | UnhandledCsi | UnhandledOsc.

Class Vt100 (P : Type) := {
  new_parser : Z -> Z -> P;
  (** [Parser::process], with the callbacks it calls in order. *)
  process : P -> list Z -> P * list Callback;
  set_size : P -> Z -> Z -> P;
  (** [Screen]: rows and columns, a cell by row and column, and the cursor's row and column. *)
  screen_size : P -> Z * Z;
  screen_cell : P -> Z -> Z -> option Cell;
  screen_contents : P -> list Z;
  hide_cursor : P -> bool;
  cursor_position : P -> Z * Z;
}.

(** What the crate documents of sizes and, by its types, of the cursor. *)
Class Vt100Laws (P : Type) `{Vt100 P} : Prop := {
  new_size rows cols : screen_size (new_parser rows cols) = (rows, cols);
  process_size p l : screen_size (process p l).1 = screen_size p;
  set_size_size p rows cols : screen_size (set_size p rows cols) = (rows, cols);
  cursor_u16 p : is_u16 (cursor_position p).1 /\ is_u16 (cursor_position p).2;
}.

(** ** The user's terminal *)

Inductive Attribute := ResetAll | Bold | Dim | Italic | Underlined | Reverse.

Inductive Command :=
| HideCursor | ShowCursor
| MoveTo (col row : Z)
| ClearCurrentLine
| SetAttribute (a : Attribute)
| ResetColor
| SetForegroundColor (color : TermColor)
| SetBackgroundColor (color : TermColor)
| PrintText (text : list Z)
| EnterAlternateScreen | LeaveAlternateScreen | ClearAll.

(** [crossterm::event::Event]: a key with a character, with or without control; the rest. *)
Inductive Event := CharKey (code : Z) (control : bool) | OtherEvent.

Record Terminal (IoError : Type) := MkTerminal {
  (** The error of [enable_raw_mode]. *)
  raw_mode_error : option IoError;
  (** The error of the n-th write, and of the n-th flush. *)
  write_error : nat -> option IoError;
  flush_error : nat -> option IoError;
  (** What [poll] and [read] give in the n-th [poll_interrupt], until [poll] has nothing. *)
  pending : nat -> list (res IoError Event);
}.
Arguments raw_mode_error {IoError}. Arguments write_error {IoError}. Arguments flush_error {IoError}. Arguments pending {IoError}.

Record FilteredControls := Filtered { title : Z; clipboard : Z; resize_request : Z; unhandled : Z }.
Definition total (self : FilteredControls) : Z :=
  title self + clipboard self + resize_request self + unhandled self.

Record ReplayCallbacks := MkCallbacks { filtered : FilteredControls; bells : Z }.
Definition no_callbacks : ReplayCallbacks := MkCallbacks (Filtered 0 0 0 0) 0.

(** [impl Callbacks for ReplayCallbacks]: every request is counted and nothing else. *)
Definition count_callback (self : ReplayCallbacks) (c : Callback) : ReplayCallbacks :=
  let f := filtered self in
  match c with
  | AudibleBell | VisualBell => MkCallbacks f (bells self + 1)
  | ResizeRequest => MkCallbacks (Filtered (title f) (clipboard f) (resize_request f + 1) (unhandled f)) (bells self)
  | SetIconName | SetTitle => MkCallbacks (Filtered (title f + 1) (clipboard f) (resize_request f) (unhandled f)) (bells self)
  | CopyToClipboard | PasteFromClipboard =>
    MkCallbacks (Filtered (title f) (clipboard f + 1) (resize_request f) (unhandled f)) (bells self)
  | _ => MkCallbacks (Filtered (title f) (clipboard f) (resize_request f) (unhandled f + 1)) (bells self)
  end.

Record CellStyle := Style {
  foreground : Color; background : Color;
  bold : bool; dim : bool; italic : bool; underline : bool; inverse : bool;
}.
#[export] Instance Color_eq_dec : EqDecision Color.
Proof. solve_decision. Defined.
#[export] Instance CellStyle_eq_dec : EqDecision CellStyle.
Proof. solve_decision. Defined.

Definition from_cell (cell : Cell) : CellStyle :=
  Style (fgcolor cell) (bgcolor cell) (cell_bold cell) (cell_dim cell) (cell_italic cell) (cell_underline cell)
    (cell_inverse cell).

Definition crossterm_color (color : Color) : TermColor :=
  match color with DefaultColor => ResetTo | Idx index => AnsiValue index | Rgb r g b => TermRgb r g b end.

(** [char::is_control]: the Unicode category Cc. *)
Definition is_control (c : Z) : bool := (c <? 0x20) || ((0x7F <=? c) && (c <=? 0x9F)).

Definition SPACE : list Z := [0x20].
Definition NEWLINE : Z := 0x0A.

Definition safe_cell_contents (contents : list Z) : list Z :=
  match contents with
  | [] => SPACE
  | _ =>
    if forallb (fun c => negb (is_control c)) contents then contents else
    match List.filter (fun c => negb (is_control c)) contents with
    | [] => SPACE
    | text => text
    end
  end.

Definition clamp (lo hi x : Z) : Z := if x <? lo then lo else if hi <? x then hi else x.
Definition clamp_size (rows cols : Z) : Z * Z := (clamp 1 MAX_ROWS rows, clamp 1 MAX_COLS cols).

(** ** Reports *)

#[export] Instance VerificationState_eq_dec : EqDecision VerificationState.
Proof. solve_decision. Defined.

Inductive StreamAction := ContinueStream | StopStream.
Record StreamSummary := Summary { sum_file_len : Z; sum_truncated_tail : bool }.

Record ReplayReport := MkReport {
  rr_state : VerificationState;
  rr_unpaired : bool;
  rr_interrupted : bool;
  rr_filtered : FilteredControls;
  rr_bells : Z;
  rr_display_records : Z;
  rr_display_bytes : Z;
  rr_final_screen : Z * Z;
  rr_final_text : list Z;
}.

Inductive ReplayResult := Replayed (report : ReplayReport) | Refused (state : VerificationState) (reason : string).

Inductive RunError (IoError : Type) := RunStream (e : StreamError IoError) | RunDisplay (e : IoError).
Arguments RunStream {IoError}. Arguments RunDisplay {IoError}.

Inductive ReplayError (IoError : Type) :=
| ReplayVerify (e : VerifyError IoError) | Changed | ReplayStream (e : StreamError IoError) | ReplayDisplay (e : IoError).
Arguments ReplayVerify {IoError}. Arguments Changed {IoError}. Arguments ReplayStream {IoError}. Arguments ReplayDisplay {IoError}.

(** ** Streaming the frames *)

Section Streaming.
Context {IoError Path : Type} `{RecordFiles IoError Path} {S : Type}.
Local Notation serr := (StreamError IoError).

Definition summary (w : FrameWalker.t) : StreamSummary := Summary (FrameWalker.len w) (FrameWalker.truncated_tail w).

(** The loop of [stream_frames]; [None] when the fuel is used up. *)
Fixpoint stream_loop (fuel : nat) (visit : RecordType.t -> list Z -> stm S serr StreamAction) (w : FrameWalker.t) (s : S)
  : option (res serr StreamSummary * S) :=
  match fuel with
  | O => None
  | Datatypes.S fuel =>
    match next_frame w with
    | (Ok None, w) => Some (Ok (summary w), s)
    | (Ok (Some (record_type, payload)), w) =>
      match visit record_type payload s with
      | (Ok ContinueStream, s) => stream_loop fuel visit w s
      | (Ok StopStream, s) => Some (Ok (summary w), s)
      | (Err e, s) => Some (Err e, s)
      | (Panic, s) => Some (Panic, s)
      end
    | (Err e, _) => Some (Err e, s)
    | (Panic, _) => Some (Panic, s)
    end
  end.

(** Every frame has at least five bytes, so the fuel is enough ([stream_loop_total]). *)
Definition stream_frames (path : Path) (visit : RecordType.t -> list Z -> stm S serr StreamAction) : stm S serr StreamSummary :=
  fun s =>
  match (w ← open path; '(_, w) ← run skip_header w; Ok w) with
  | Ok w =>
    match stream_loop (Datatypes.S (length (FrameWalker.reader w))) visit w s with
    | Some r => r
    | None => (Panic, s)
    end
  | Err e => (Err e, s)
  | Panic => (Panic, s)
  end.
End Streaming.

(** ** Drawing *)

(** What reached the terminal, how often it was written to, flushed and asked for events, and
    whether it is in raw mode. *)
Record Output := MkOutput { emitted : list Command; writes : nat; flushes : nat; polls : nat; raw_mode : bool }.
Definition untouched : Output := MkOutput [] 0 0 0 false.
Definition set_raw (b : bool) (o : Output) : Output := MkOutput (emitted o) (writes o) (flushes o) (polls o) b.

(** Control-C. *)
Definition interrupts (e : Event) : bool :=
  match e with CharKey code control => ((code =? 0x63) || (code =? 0x43)) && control | OtherEvent => false end.

(** The loop of [poll_interrupt]. *)
Fixpoint scan_events {IoError} (l : list (res IoError Event)) : res IoError bool :=
  match l with
  | [] => Ok false
  | answer :: l => event ← answer; if interrupts event then Ok true else scan_events l
  end.

Section Drawing.
Context {IoError P : Type} `{Vt100 P} (term : Terminal IoError).
Local Notation O := (stm Output IoError).

(** [crossterm::queue!(output, command)?]. *)
Definition emit (c : Command) : O unit := fun o =>
  let attempts := Datatypes.S (writes o) in
  match write_error term (writes o) with
  | Some e => (Err e, MkOutput (emitted o) attempts (flushes o) (polls o) (raw_mode o))
  | None => (Ok tt, MkOutput (emitted o ++ [c]) attempts (flushes o) (polls o) (raw_mode o))
  end.

Definition flush : O unit := fun o =>
  (match flush_error term (flushes o) with Some e => Err e | None => Ok tt end,
   MkOutput (emitted o) (writes o) (Datatypes.S (flushes o)) (polls o) (raw_mode o)).

(** [crossterm::execute!(output, commands ..)]. *)
Definition execute (commands : list Command) : O unit := _ ← for_each commands emit; flush.

Definition poll_interrupt : O bool := fun o =>
  (scan_events (pending term (polls o)), MkOutput (emitted o) (writes o) (flushes o) (Datatypes.S (polls o)) (raw_mode o)).

(** [TerminalGuard::enter]. *)
Definition enter : O unit := fun o =>
  match raw_mode_error term with
  | Some e => (Err e, o)
  | None =>
    match execute [EnterAlternateScreen; HideCursor; ClearAll] (set_raw true o) with
    | (Err e, o) => (Err e, set_raw false o)
    | (r, o) => (r, o)
    end
  end.

(** [Drop for TerminalGuard]: the errors are ignored. *)
Definition leave (o : Output) : Output := set_raw false (execute [ShowCursor; LeaveAlternateScreen] o).2.

Definition style_commands (style : CellStyle) : list Command :=
  [SetAttribute ResetAll; ResetColor; SetForegroundColor (crossterm_color (foreground style));
   SetBackgroundColor (crossterm_color (background style))]
  ++ concat ((fun '(enabled, attribute) => if (enabled : bool) then [SetAttribute attribute] else [])
      <$> [(bold style, Bold); (dim style, Dim); (italic style, Italic); (underline style, Underlined);
           (inverse style, Reverse)]).

(** One cell; the style last emitted is carried along. *)
Definition draw_cell (p : P) (row col : Z) : stm (Output * option CellStyle) IoError unit := fun '(o, emitted_style) =>
  match screen_cell p row col with
  | None => (Ok tt, (o, emitted_style))
  | Some cell =>
    if is_wide_continuation cell then (Ok tt, (o, emitted_style)) else
    let style := from_cell cell in
    let restyle := if bool_decide (emitted_style = Some style) then [] else style_commands style in
    let '(r, o) := for_each (restyle ++ [PrintText (safe_cell_contents (cell_contents cell))]) emit o in
    (r, (o, Some style))
  end.

(** [0..n]. *)
Definition range (n : Z) : list Z := seqZ 0 n.

Definition draw_row (p : P) (cols row : Z) : stm (Output * option CellStyle) IoError unit :=
  _ ← zoom fst (fun o '(_, style) => (o, style)) (for_each [MoveTo 0 row; ClearCurrentLine] emit);
  for_each (range cols) (draw_cell p row).

(** [saturating_sub(1)] on a size. *)
Definition last_index (n : Z) : Z := Z.max 0 (n - 1).

Definition render_screen (p : P) (viewport : Z * Z) : O unit :=
  let '(screen_rows, screen_cols) := screen_size p in
  let rows := Z.min screen_rows viewport.1 in
  let cols := Z.min screen_cols viewport.2 in
  _ ← emit HideCursor;
  _ ← (fun o => let '(r, (o, _)) := for_each (range rows) (draw_row p cols) (o, None) in (r, o));
  _ ← for_each [SetAttribute ResetAll; ResetColor] emit;
  _ ← (if hide_cursor p then emit HideCursor else
       let '(row, col) := cursor_position p in
       for_each [MoveTo (Z.min col (last_index viewport.2)) (Z.min row (last_index viewport.1)); ShowCursor] emit);
  flush.
End Drawing.

(** ** The machine *)

Record ReplayMachine (P : Type) := Machine {
  parser : P;
  callbacks : ReplayCallbacks;
  viewport : Z * Z;
  display_records : Z;
  display_bytes : Z;
  interrupted_by_user : bool;
}.
Arguments Machine {P}. Arguments parser {P}. Arguments callbacks {P}. Arguments viewport {P}.
Arguments display_records {P}. Arguments display_bytes {P}. Arguments interrupted_by_user {P}.

(** The variables that the visitor of [run_with_interrupt] captures. *)
Record RunState (IoError P : Type) := Running {
  machine : ReplayMachine P;
  output : option Output;
  display_error : option IoError;
}.
Arguments Running {IoError P}. Arguments machine {IoError P}. Arguments output {IoError P}. Arguments display_error {IoError P}.

Section Machine.
Context {IoError P : Type} `{Vt100 P} (term : Terminal IoError).
Local Notation serr := (StreamError IoError).
Local Notation state := (RunState IoError P).

Definition new_machine (rows cols : Z) : ReplayMachine P :=
  let '(rows, cols) := clamp_size rows cols in
  Machine (new_parser rows cols) no_callbacks (rows, cols) 0 0 false.

(** [self.display_records += 1; self.display_bytes += ..; self.parser.process(display)]. *)
Definition feed_display (display : list Z) (m : ReplayMachine P) : ReplayMachine P :=
  let '(p, calls) := process (parser m) display in
  Machine p (foldl count_callback (callbacks m) calls) (viewport m) (display_records m + 1)
    (display_bytes m + zlen display) (interrupted_by_user m).

Definition feed_size (rows cols : Z) (m : ReplayMachine P) : ReplayMachine P :=
  let '(rows, cols) := clamp_size rows cols in
  Machine (set_size (parser m) rows cols) (callbacks m) (viewport m) (display_records m) (display_bytes m)
    (interrupted_by_user m).

Definition on_machine (f : ReplayMachine P -> ReplayMachine P) : stm state serr unit :=
  modify (fun s => Running (f (machine s)) (output s) (display_error s)).

(** A step on the output, if there is one: its error is kept aside and stops the stream. *)
Definition on_output {A} (default : A) (m : stm Output IoError A) : stm state serr A := fun s =>
  match output s with
  | None => (Ok default, s)
  | Some o =>
    match m o with
    | (Ok a, o) => (Ok a, Running (machine s) (Some o) (display_error s))
    | (Err e, o) => (Err (Tampered "the replay display failed"), Running (machine s) (Some o) (Some e))
    | (Panic, o) => (Panic, Running (machine s) (Some o) (display_error s))
    end
  end.

Definition redraw : stm state serr unit :=
  m ← gets machine; on_output tt (render_screen term (parser m) (viewport m)).

(** The frame visitor. *)
Definition visit (record_type : RecordType.t) (payload : list Z) : stm state serr StreamAction :=
  match record_type with
  | RecordType.LocalDisplayBytes =>
    display ← lift (ok_or (get_range payload LOCAL_RECORD_PREFIX_LEN (zlen payload))
                      (Tampered "the display record is invalid"));
    _ ← on_machine (feed_display display);
    _ ← redraw;
    stop ← on_output false (poll_interrupt term);
    if (stop : bool) then
      _ ← on_machine (fun m => Machine (parser m) (callbacks m) (viewport m) (display_records m) (display_bytes m) true);
      mret StopStream
    else mret ContinueStream
  | RecordType.LocalResizeEvent =>
    if negb (zlen payload =? RESIZE_RECORD_LEN) then throw (Tampered "the resize record is invalid") else
    cols ← lift (expect (u16_at payload 41 42));
    rows ← lift (expect (u16_at payload 43 44));
    _ ← on_machine (feed_size rows cols);
    _ ← redraw;
    mret ContinueStream
  | _ => mret ContinueStream
  end.
End Machine.

Section Session.
Context {IoError Path P : Type} `{Vt100 P} (term : Terminal IoError).
Local Notation state := (RunState IoError P).

(** [ReplayMachine::run]: an error of the display wins over the stream's. *)
Definition run_machine `{RecordFiles IoError Path} (path : Path) (s : state) : res (RunError IoError) unit * state :=
  let '(stream_result, s) := stream_frames path (visit term) s in
  (match display_error s, stream_result with
   | Some e, Ok _ | Some e, Err _ => Err (RunDisplay e)
   | None, Ok _ => Ok tt
   | None, Err e => Err (RunStream e)
   | _, Panic => Panic
   end, s).

Definition safe_visible_text (text : list Z) : list Z :=
  List.filter (fun c => negb (is_control c) || (c =? NEWLINE)) text.

Definition report (m : ReplayMachine P) (st : VerificationState) (unpaired : bool) : ReplayReport :=
  MkReport st unpaired (interrupted_by_user m) (filtered (callbacks m)) (bells (callbacks m)) (display_records m)
    (display_bytes m) (screen_size (parser m)) (safe_visible_text (screen_contents (parser m))).

Definition refusal_reason (st : VerificationState) (unpaired : bool) : option string :=
  match st with
  | VerifiedComplete | ConsistentCompleteUnanchored => None
  | IntactUnpaired =>
    if unpaired then None else Some "the controller and peer files do not form a pair"
  | MatchedInterruptedPrefix => Some "the session was interrupted; only the last common checkpoint is verified"
  | MismatchState => Some "the two audit files do not match"
  | TamperedState => Some "the audit file is tampered"
  end.

Definition map_run_error (error : RunError IoError) : ReplayError IoError :=
  match error with RunStream e => ReplayStream e | RunDisplay e => ReplayDisplay e end.

(** ** The session *)

Definition controller_path_matches `{EqDecision Path} (r : VerificationReport Path) (path : Path) : bool :=
  match rp_controller _ r with Some c => bool_decide (fr_path _ c = path) | None => false end.

(** What [same_verified_session] compares of the controller's file. *)
Definition controller_facts (r : VerificationReport Path) : option (list Z * Z * list Z * bool * bool) :=
  (fun c => (raw (fr_fingerprint _ c), fr_local_event_count _ c, stream_list (fr_shared_counts _ c), fr_finalized _ c,
             fr_truncated_tail _ c)) <$> rp_controller _ r.

Definition same_verified_session (left right : VerificationReport Path) : bool :=
  bool_decide (rp_state left = rp_state right) && bool_decide (rp_session_id _ left = rp_session_id _ right)
  && bool_decide (controller_facts left = controller_facts right).

(** What a verification sees: the files and the audit directory at that moment. *)
Record View := MkView { view_files : RecordFiles IoError Path; view_directory : AuditDirectory Path }.

(** The standard output: whether it is a terminal, and its size (columns, rows) if it says. *)
Record Console := MkConsole { is_terminal : bool; console_size : option (Z * Z) }.

Definition verify_at `{AuditCrypto} (view : View) (path : Path) (peer : option Path)
  : res (VerifyError IoError) (VerificationReport Path) :=
  verify_files (H0:=view_files view) (H1:=view_directory view) path peer.

(** The size of the machine. *)
Definition start_size (console : Console) : Z * Z :=
  if is_terminal console then
    match console_size console with
    | Some (cols, rows) => clamp_size rows cols
    | None => (DEFAULT_ROWS, DEFAULT_COLS)
    end
  else (DEFAULT_ROWS, DEFAULT_COLS).

(** The guard of an interactive replay; no output otherwise. *)
Definition start_output (console : Console) : res IoError unit * option Output :=
  if is_terminal console then let '(r, o) := enter term untouched in (r, Some o) else (Ok tt, None).

(** The files may change between the first verification, the replay and the second one.  The
    second component is what happened to the terminal; the guard is dropped however the
    replay ends. *)
Definition replay_session `{AuditCrypto} `{EqDecision Path} (console : Console) (before after : View)
    (during : RecordFiles IoError Path) (path : Path) (peer : option Path)
  : res (ReplayError IoError) ReplayResult * option Output :=
  match verify_at before path peer with
  | Err e => (Err (ReplayVerify e), None)
  | Panic => (Panic, None)
  | Ok initial =>
    if negb (controller_path_matches initial path)
    then (Ok (Refused (rp_state initial) "the replay source is not the controller audit record"), None) else
    let unpaired := match peer with None => true | Some _ => false end in
    match refusal_reason (rp_state initial) unpaired with
    | Some reason => (Ok (Refused (rp_state initial) reason), None)
    | None =>
      let '(rows, cols) := start_size console in
      match start_output console with
      | (Err e, output) => (Err (ReplayDisplay e), output)
      | (Panic, output) => (Panic, output)
      | (Ok _, output) =>
        let '(r, s) := run_machine (H0:=during) path (Running (new_machine rows cols) output None) in
        let output := leave term <$> Replay.output s in
        match r with
        | Err e => (Err (map_run_error e), output)
        | Panic => (Panic, output)
        | Ok _ =>
          match verify_at after path peer with
          | Err e => (Err (ReplayVerify e), output)
          | Panic => (Panic, output)
          | Ok final =>
            if negb (same_verified_session initial final) || negb (controller_path_matches final path)
            then (Err Changed, output)
            else (Ok (Replayed (report (machine s) (rp_state initial) unpaired)), output)
          end
        end
      end
    end
  end.
End Session.
