(* ===== verification/ReplaySafety.v ===== *)
(** * What a replay does

    Whatever was recorded and however the virtual terminal reads it, only harmless commands
    reach the user's terminal; and a verified file is replayed to its end, byte for byte. *)

From stdpp Require Import strings.
From S2P Require Import Prelude Domain Codec Layout WireAudit AuditCodecs AuditContainer AuditSigning ContainerCodecs AuditWriter Stateful AuditEvents AuditSession ChainVerifier AuditIdentity FileVerifier FileDigests FileWalk VerifierSteps FileRun PairVerifier PairAgreement Replay.
Open Scope string_scope.
Open Scope list_scope.
Open Scope Z_scope.

(** ** Invariants of stateful computations *)

Section Preserves.
Context {S E : Type} (I : S -> Prop).

(** Whatever the result, the invariant holds afterwards. *)
Definition preserves {A} (m : stm S E A) : Prop := forall s r s', I s -> m s = (r, s') -> I s'.

Lemma preserves_ret {A} (a : A) : preserves (mret a).
Proof. intros s r s' Hs [= _ <-]. done. Qed.

Lemma preserves_throw {A} (e : E) : preserves (throw (A:=A) e).
Proof. intros s r s' Hs [= _ <-]. done. Qed.

Lemma preserves_lift {A} (x : res E A) : preserves (lift x).
Proof. intros s r s' Hs [= _ <-]. done. Qed.

Lemma preserves_gets {A} (f : S -> A) : preserves (gets f).
Proof. intros s r s' Hs [= _ <-]. done. Qed.

Lemma preserves_modify (f : S -> S) : (forall s, I s -> I (f s)) -> preserves (modify f).
Proof. intros Hf s r s' Hs [= _ <-]. by apply Hf. Qed.

Lemma preserves_bind {A B} (m : stm S E A) (f : A -> stm S E B) :
  preserves m -> (forall a, preserves (f a)) -> preserves (m ≫= f).
Proof.
  intros Hm Hf s r s' Hs. unfold mbind, stm_bind. destruct (m s) as [[a|e|] s1] eqn:E1.
  - intros Hr. apply (Hf a s1 r s'); [|done]. by apply (Hm s (Ok a)).
  - intros [= _ <-]. by apply (Hm s (Err e)).
  - intros [= _ <-]. by apply (Hm s Panic).
Qed.

Lemma preserves_for_each {A} (l : list A) (f : A -> stm S E unit) :
  (forall x, x ∈ l -> preserves (f x)) -> preserves (for_each l f).
Proof.
  induction l as [|x l IH]; intros Hf; cbn [for_each]; [apply preserves_ret|].
  apply preserves_bind; [apply Hf; left|]. intros _. apply IH. intros y Hy. apply Hf. by right.
Qed.
End Preserves.

Create HintDb preserves.
#[export] Hint Resolve preserves_ret preserves_throw preserves_lift preserves_gets : preserves.

(** ** Text and sizes *)

Definition printable (text : list Z) : Prop := text <> [] /\ Forall (fun c => is_control c = false) text.

Lemma filter_printable (l : list Z) : Forall (fun c => is_control c = false) (List.filter (fun c => negb (is_control c)) l).
Proof. apply Forall_forall. intros c [_ Hc]%list_elem_of_In%filter_In. by apply negb_true_iff in Hc. Qed.

Lemma safe_cell_printable contents : printable (safe_cell_contents contents).
Proof.
  unfold safe_cell_contents. destruct contents as [|c l]; [by split; [|repeat constructor]|].
  destruct (forallb _ (c :: l)) eqn:Hf.
  - split; [done|]. apply Forall_forall. intros x Hx%list_elem_of_In. rewrite forallb_forall in Hf. by apply Hf, negb_true_iff in Hx.
  - pose proof (filter_printable (c :: l)) as Hp. destruct (List.filter _ (c :: l)); [by split; [|repeat constructor]|by split].
Qed.

Lemma clamp_range lo hi x : lo <= hi -> lo <= clamp lo hi x <= hi.
Proof. unfold clamp. intros Hle. destruct (Z.ltb_spec x lo), (Z.ltb_spec hi x); lia. Qed.

Lemma clamp_id lo hi x : lo <= x <= hi -> clamp lo hi x = x.
Proof. unfold clamp. intros Hx. destruct (Z.ltb_spec x lo), (Z.ltb_spec hi x); lia. Qed.

(** A size the machine uses. *)
Definition size_ok (size : Z * Z) : Prop := 1 <= size.1 <= MAX_ROWS /\ 1 <= size.2 <= MAX_COLS.

Lemma clamp_size_ok rows cols : size_ok (clamp_size rows cols).
Proof. split; apply clamp_range; done. Qed.

Lemma clamp_size_id size : size_ok size -> clamp_size size.1 size.2 = size.
Proof. intros [Hr Hc]. unfold clamp_size. rewrite !clamp_id by done. by destruct size. Qed.

(** ** Commands *)

(** A command that cannot act on anything but the visible cells of the viewport: text without
    control characters, and cursor movements inside it. *)
Definition safe_command (viewport : Z * Z) (c : Command) : Prop :=
  match c with
  | PrintText text => printable text
  | MoveTo col row => 0 <= col < viewport.2 /\ 0 <= row < viewport.1
  | _ => True
  end.

Section Drawing.
Context {IoError P : Type} `{Vt100Laws P} (term : Terminal IoError) (size : Z * Z).
Local Notation safe := (Forall (safe_command size)).

(** A computation that only adds safe commands to the output in its state. *)
Definition draws {S A E} (get : S -> Output) (m : stm S E A) : Prop := preserves (fun s => safe (emitted (get s))) m.

Lemma emit_draws c : safe_command size c -> draws id (emit term c).
Proof.
  intros Hc o r o' Ho. unfold emit. destruct (write_error term _); intros [= _ <-]; [done|]. cbn. by apply Forall_app_2, Forall_singleton.
Qed.

Lemma emits_draw l : safe l -> draws id (for_each l (emit term)).
Proof. intros Hl. apply preserves_for_each. intros c Hc. apply emit_draws. by apply (proj1 (Forall_forall _ _) Hl). Qed.

Lemma flush_draws : draws id (flush term).
Proof. by intros o r o' Ho [= _ <-]. Qed.

Lemma execute_draws l : safe l -> draws id (execute term l).
Proof. intros Hl. unfold execute. apply preserves_bind; [by apply emits_draw|intros _; apply flush_draws]. Qed.

Lemma execute_no_panic l o : (execute term l o).1 <> Panic.
Proof.
  unfold execute. revert o. induction l as [|c l IH]; intros o.
  - change ((flush term o).1 <> Panic). unfold flush. cbn. by destruct (flush_error term (flushes o)).
  - cbn [for_each]. unfold mbind, stm_bind in *. destruct (emit term c o) as [[[]|e|] o1] eqn:He; [apply IH|done|].
    exfalso. revert He. unfold emit. by destruct (write_error term (writes o)).
Qed.

(** Entering the alternate screen leaves raw mode off when it fails. *)
Lemma enter_draws r o :
  enter term untouched = (r, o) -> safe (emitted o) /\ match r with Ok _ => True | Err _ => raw_mode o = false | Panic => False end.
Proof.
  unfold enter. destruct (raw_mode_error term); [intros [= <- <-]; by split; [constructor|]|].
  set (l := [_; _; _]). pose proof (execute_no_panic l (set_raw true untouched)) as Hn.
  destruct (execute term l _) as [y o1] eqn:He. apply execute_draws in He; [|by repeat constructor|constructor].
  destruct y; intros [= <- <-]; by repeat split.
Qed.

Lemma leave_draws o : safe (emitted o) -> safe (emitted (leave term o)) /\ raw_mode (leave term o) = false.
Proof.
  intros Ho. split; [|done]. unfold leave. destruct (execute term _ o) as [y o1] eqn:He.
  by eapply execute_draws in He; [|repeat constructor|exact Ho].
Qed.

Lemma poll_draws : draws id (poll_interrupt term).
Proof. by intros o r o' Ho [= _ <-]. Qed.

Lemma style_safe style : safe (style_commands style).
Proof. destruct style as [? ? [] [] [] [] []]; repeat constructor. Qed.

Lemma draw_cell_draws (p : P) row col : draws fst (draw_cell term p row col).
Proof.
  intros [o style] r [o' style'] Ho. unfold draw_cell. destruct (screen_cell p row col) as [cell|]; [|by intros [= _ <- _]].
  destruct (is_wide_continuation cell); [by intros [= _ <- _]|].
  destruct (for_each _ _ o) as [r1 o1] eqn:Hf. intros [= _ <- _]. eapply emits_draw; [|exact Ho|exact Hf].
  apply Forall_app_2; [case_bool_decide; [constructor|apply style_safe]|]. apply Forall_singleton, safe_cell_printable.
Qed.

Lemma draw_row_draws (p : P) cols row : 0 <= row < size.1 -> 1 <= size.2 -> draws fst (draw_row term p cols row).
Proof.
  intros Hr Hc. unfold draw_row. apply preserves_bind.
  - intros [o style] r [o' style'] Ho. unfold zoom. destruct (for_each _ _ _) as [r1 o1] eqn:Hf. intros [= _ <- _].
    eapply emits_draw; [|exact Ho|exact Hf]. repeat constructor; cbn; lia.
  - intros _. apply preserves_for_each. intros col _. apply draw_cell_draws.
Qed.

Lemma render_draws (p : P) : size_ok size -> draws id (render_screen term p size).
Proof.
  intros [Hr Hc]. unfold render_screen. destruct (screen_size p) as [srows scols]. cbv zeta.
  apply preserves_bind; [by apply emit_draws|intros _]. apply preserves_bind.
  - intros o r o' Ho. destruct (for_each _ _ (o, None)) as [r1 [o1 style]] eqn:Hf. intros [= _ <-].
    eapply (preserves_for_each (fun s : Output * option CellStyle => safe (emitted s.1)) _ _ _ (o, None) r1 (o1, style) Ho Hf).
    Unshelve. intros row Hrow. apply draw_row_draws; [|lia]. apply elem_of_seqZ in Hrow. lia.
  - intros _. apply preserves_bind; [by apply emits_draw; repeat constructor|intros _]. apply preserves_bind; [|intros _; apply flush_draws].
    destruct (hide_cursor p); [by apply emit_draws|]. destruct (cursor_u16 p) as [Hcr Hcc]. destruct (cursor_position p) as [row col].
    apply emits_draw. cbn in Hcr, Hcc. unfold is_u16 in *. repeat constructor; cbn; unfold last_index; lia.
Qed.
End Drawing.

(** ** The machine *)

Section Machine.
Context {IoError P : Type} `{Vt100Laws P} (term : Terminal IoError) (size : Z * Z).
Local Notation state := (RunState IoError P).

(** The viewport is fixed, the screen has a legal size, and the output is safe. *)
Record run_ok (s : state) : Prop := {
  ro_viewport : viewport (machine s) = size;
  ro_screen : size_ok (screen_size (parser (machine s)));
  ro_output : forall o, output s = Some o -> Forall (safe_command size) (emitted o);
}.

Lemma on_output_preserves {A} (x : A) (m : stm Output IoError A) : draws size id m -> preserves run_ok (on_output x m).
Proof.
  intros Hm s r s' [H1 H2 H3]. unfold on_output. destruct (output s) as [o|] eqn:Ho; [|by intros [= _ <-]; split; rewrite ?Ho].
  destruct (m o) as [y o1] eqn:Hy. assert (Forall (safe_command size) (emitted o1)) as Hs by (by apply (Hm o y o1); [apply H3|]).
  destruct y; intros [= _ <-]; (split; [done..|]); cbn; by intros ? [= <-].
Qed.

Lemma redraw_preserves : size_ok size -> preserves run_ok (redraw term).
Proof.
  intros Hs s r s' Hi. unfold redraw. rewrite (stm_bind_step _ _ (machine s) s s) by done. rewrite (ro_viewport _ Hi).
  apply on_output_preserves; [by apply render_draws|done].
Qed.

Lemma visit_preserves t payload : size_ok size -> preserves run_ok (visit term t payload).
Proof.
  intros Hsz. destruct t; cbn [visit]; auto with preserves.
  - apply preserves_bind; [auto with preserves|intros display]. apply preserves_bind.
    { apply preserves_modify. intros s [H1 H2 H3]. unfold feed_display. destruct (process _ _) as [q calls] eqn:Hq.
      split; cbn; try done. pose proof (process_size (parser (machine s)) display) as Hp. rewrite Hq in Hp. cbn in Hp. by rewrite Hp. }
    intros _. apply preserves_bind; [by apply redraw_preserves|intros _].
    apply preserves_bind; [apply on_output_preserves, poll_draws|intros [|]; [|auto with preserves]].
    apply preserves_bind; [|intros _; auto with preserves]. apply preserves_modify. intros s [H1 H2 H3]. by split.
  - destruct (negb _); [auto with preserves|]. apply preserves_bind; [auto with preserves|intros cols].
    apply preserves_bind; [auto with preserves|intros rows]. apply preserves_bind.
    { apply preserves_modify. intros s [H1 H2 H3]. unfold feed_size. destruct (clamp_size rows cols) as [r c] eqn:Hc.
      split; cbn; try done. rewrite set_size_size, <- Hc. apply clamp_size_ok. }
    intros _. apply preserves_bind; [by apply redraw_preserves|intros _; auto with preserves].
Qed.
End Machine.

(** ** Streams *)

Section Streams.
Context {IoError Path S : Type} `{!RecordFiles IoError Path} (I : S -> Prop).
Local Notation serr := (StreamError IoError).
Implicit Types visit : RecordType.t -> list Z -> stm S serr StreamAction.

Lemma stream_loop_preserves fuel visit w s r s' :
  (forall t p, preserves I (visit t p)) -> I s -> stream_loop fuel visit w s = Some (r, s') -> I s'.
Proof.
  intros Hv. revert w s. induction fuel as [|fuel IH]; intros w s Hs; cbn [stream_loop]; [done|].
  destruct (next_frame w) as [[[[t p]|]|e|] w1]; [|by intros [= _ <-]..].
  destruct (visit t p s) as [y s1] eqn:Hy. apply (Hv t p s y s1 Hs) in Hy. destruct y as [[]|e|]; [by apply IH|by intros [= _ <-]..].
Qed.

Lemma stream_frames_preserves path visit : (forall t p, preserves I (visit t p)) -> preserves I (stream_frames path visit).
Proof.
  intros Hv s r s' Hs. unfold stream_frames. destruct (mbind _ _) as [w|e|]; [|by intros [= _ <-]..].
  destruct (stream_loop _ visit w s) as [[y s1]|] eqn:Hl; [|by intros [= _ <-]].
  intros [= _ <-]. by apply (stream_loop_preserves _ _ _ _ _ _ Hv Hs Hl).
Qed.

(** The loop ends on every file, for every visitor. *)
Lemma stream_loop_total fuel visit w s :
  zlen (FrameWalker.reader w) < Z.of_nat fuel -> is_Some (stream_loop fuel visit w s).
Proof.
  revert w s. induction fuel as [|fuel IH]; intros w s Hf; [pose proof (zlen_nonneg (FrameWalker.reader w)); lia|].
  cbn [stream_loop]. destruct (next_frame w) as [[[[t p]|]|e|] w'] eqn:Hn; [|by eexists..].
  apply next_frame_shrinks in Hn. destruct (visit t p s) as [[[]|e|] s1]; [|by eexists..]. apply IH. lia.
Qed.
End Streams.

Section Session.
Context {IoError Path P : Type} `{AuditCrypto} `{Vt100Laws P} `{EqDecision Path} (term : Terminal IoError).

Lemma start_size_ok (console : Console) : size_ok (start_size console).
Proof.
  unfold start_size. destruct (is_terminal console); [|by split]. destruct (console_size console) as [[cols rows]|]; [|by split].
  apply clamp_size_ok.
Qed.

Lemma new_machine_ok (size : Z * Z) (out : option Output) :
  size_ok size -> (forall o, out = Some o -> Forall (safe_command size) (emitted o)) ->
  run_ok size (Running (IoError:=IoError) (P:=P) (new_machine size.1 size.2) out None).
Proof.
  intros Hs Ho. unfold new_machine. rewrite (clamp_size_id _ Hs). destruct size as [rows cols]. by split; cbn; [|rewrite new_size|].
Qed.

(** What the terminal has received and the mode it is in when a replay ends. *)
Definition left_safe (size : Z * Z) (out : option Output) : Prop :=
  forall o, out = Some o -> Forall (safe_command size) (emitted o) /\ raw_mode o = false.

Lemma start_output_safe size (console : Console) r out :
  start_output term console = (r, out) ->
  (forall o, out = Some o -> Forall (safe_command size) (emitted o)) /\ match r with Ok _ => True | _ => left_safe size out end.
Proof.
  unfold start_output. destruct (is_terminal console); [|by intros [= <- <-]].
  destruct (enter term untouched) as [y o] eqn:He. apply (enter_draws term size) in He as [Ho Hy]. intros [= <- <-].
  split; [by intros ? [= <-]|]. destruct y; [done| |done]. by intros ? [= <-].
Qed.

Lemma leave_safe size (s : RunState IoError P) : run_ok size s -> left_safe size (leave term <$> output s).
Proof.
  intros Hs out. destruct (output s) as [o|] eqn:Ho; [|done]. intros [= <-]. apply leave_draws. by apply (ro_output _ _ Hs).
Qed.

Lemma visible_text_safe text : Forall (fun c => is_control c = false \/ c = NEWLINE) (safe_visible_text text).
Proof.
  apply Forall_forall. intros c [_ Hc]%list_elem_of_In%filter_In. apply orb_true_iff in Hc as [Hc|Hc]; [left|right].
  - by apply negb_true_iff in Hc.
  - by apply Z.eqb_eq.
Qed.

(** C17: Nothing that was recorded reaches the user's terminal as it is.  Whatever the files
    hold before, during and after the replay, whatever the virtual terminal makes of the
    recorded bytes, and wherever writing fails: every command the replay sends to the terminal
    is one of the fixed drawing commands, the text it prints is not empty and free of control
    characters, and the cursor is only moved inside the viewport.  However the replay ends,
    the terminal is not left in raw mode.  The virtual screen stays within 512 rows and 1024
    columns, and the text of the report has no control characters but line ends. *)
Theorem replay_output_safe (console : Console) (before after : View) (during : RecordFiles IoError Path)
    (path : Path) (peer : option Path) r o :
  replay_session term console before after during path peer = (r, o) ->
  left_safe (start_size console) o /\
  (forall rep, r = Ok (Replayed rep) ->
    size_ok (rr_final_screen rep) /\ Forall (fun c => is_control c = false \/ c = NEWLINE) (rr_final_text rep)).
Proof.
  unfold replay_session. destruct (verify_at before path peer) as [initial|e|]; [|by intros [= <- <-]..].
  destruct (negb _); [by intros [= <- <-]|]. destruct (refusal_reason _ _); [by intros [= <- <-]|].
  pose proof (start_size_ok console) as Hs. destruct (start_size console) as [rows cols].
  destruct (start_output term console) as [y out0] eqn:Hout. apply (start_output_safe (rows, cols)) in Hout as [Hout Hy].
  destruct y as [u|e|]; [clear u Hy|by intros [= <- <-]..].
  pose proof (new_machine_ok (rows, cols) out0 Hs Hout) as Hi. cbn [fst snd] in Hi.
  unfold run_machine. destruct (stream_frames path (visit term) _) as [y s] eqn:Hy.
  apply (stream_frames_preserves _ _ _ (fun t p => visit_preserves term (rows, cols) t p Hs) _ _ _ Hi) in Hy.
  apply leave_safe in Hy as Ho. cbv zeta.
  destruct (match display_error s with Some _ => _ | None => _ end) as [[]|e|]; [|by intros [= <- <-]..].
  destruct (verify_at after path peer) as [final|e|]; [|by intros [= <- <-]..]. destruct (_ || _); intros [= <- <-]; [done|].
  split; [done|]. intros rep [= <-]. split; [apply Hy|apply visible_text_safe].
Qed.
End Session.
