(* ===== verification/ReplayRun.v ===== *)
(** * Verified files are replayed completely

    On a terminal that neither fails nor asks to stop, the replay of a file that was verified
    feeds every record to the virtual terminal, in the order of the file. *)

From stdpp Require Import strings.
From S2P Require Import Prelude Domain Codec Layout WireAudit AuditCodecs AuditContainer AuditSigning ContainerCodecs AuditWriter Stateful AuditEvents AuditSession ChainVerifier AuditTrace AuditPointSim AuditIdentity FileVerifier FileDigests FileWalk VerifierSteps FileRun PairVerifier PairAgreement Replay ReplaySafety.
Open Scope string_scope.
Open Scope list_scope.
Open Scope Z_scope.

(** ** Computations that succeed *)

Section Succeeds.
Context {S E : Type}.

Definition succeeds {A} (m : stm S E A) : Prop := forall s, exists a s', m s = (Ok a, s').

Lemma succeeds_ret {A} (a : A) : succeeds (mret a).
Proof. intros s. by exists a, s. Qed.

Lemma succeeds_bind {A B} (m : stm S E A) (f : A -> stm S E B) : succeeds m -> (forall a, succeeds (f a)) -> succeeds (m ≫= f).
Proof. intros Hm Hf s. destruct (Hm s) as (a & s1 & E1). rewrite (stm_bind_step _ _ a s s1 E1). apply Hf. Qed.

Lemma succeeds_for_each {A} (l : list A) (f : A -> stm S E unit) : (forall x, succeeds (f x)) -> succeeds (for_each l f).
Proof. intros Hf. induction l as [|x l IH]; cbn [for_each]; [apply succeeds_ret|]. by apply succeeds_bind. Qed.
End Succeeds.

(** A terminal on which nothing fails and nobody interrupts. *)
Definition quiet {IoError} (term : Terminal IoError) : Prop :=
  raw_mode_error term = None /\
  forall n, write_error term n = None /\ flush_error term n = None /\ scan_events (pending term n) = Ok false.

Section Drawing.
Context {IoError P : Type} `{Vt100 P} (term : Terminal IoError) (Hq : quiet term).

Lemma emit_succeeds c : succeeds (emit term c).
Proof. intros o. unfold emit. destruct (proj2 Hq (writes o)) as (-> & _ & _). by do 2 eexists. Qed.

Lemma emits_succeed l : succeeds (for_each l (emit term)).
Proof. apply succeeds_for_each, emit_succeeds. Qed.

Lemma flush_succeeds : succeeds (flush term).
Proof. intros o. unfold flush. destruct (proj2 Hq (flushes o)) as (_ & -> & _). by do 2 eexists. Qed.

Lemma enter_succeeds : succeeds (enter term).
Proof.
  intros o. unfold enter. rewrite (proj1 Hq). set (l := [_; _; _]).
  assert (succeeds (execute term l)) as Hs by (apply succeeds_bind; [apply emits_succeed|intros _; apply flush_succeeds]).
  destruct (Hs (set_raw true o)) as (u & o1 & ->). by do 2 eexists.
Qed.

Lemma draw_cell_succeeds (p : P) row col : succeeds (draw_cell term p row col).
Proof.
  intros [o style]. unfold draw_cell. destruct (screen_cell p row col) as [cell|]; [|by do 2 eexists].
  destruct (is_wide_continuation cell); [by do 2 eexists|].
  match goal with |- context [for_each ?l _ o] => destruct (emits_succeed l o) as (u & o1 & ->) end. by do 2 eexists.
Qed.

Lemma draw_row_succeeds (p : P) cols row : succeeds (draw_row term p cols row).
Proof.
  unfold draw_row. apply succeeds_bind; [|intros _; apply succeeds_for_each; intros; apply draw_cell_succeeds].
  intros [o style]. unfold zoom. destruct (emits_succeed [MoveTo 0 row; ClearCurrentLine] o) as (u & o1 & E1).
  cbn [fst]. rewrite E1. by do 2 eexists.
Qed.

Lemma render_succeeds (p : P) size : succeeds (render_screen term p size).
Proof.
  unfold render_screen. destruct (screen_size p) as [rows cols]. cbv zeta. apply succeeds_bind; [apply emit_succeeds|intros _].
  apply succeeds_bind.
  { intros o. match goal with |- context [for_each ?l ?f (o, None)] => destruct (succeeds_for_each l f (fun r => draw_row_succeeds p _ r) (o, None)) as (u & [o1 style] & ->) end.
    by do 2 eexists. }
  intros _. apply succeeds_bind; [apply emits_succeed|intros _]. apply succeeds_bind; [|intros _; apply flush_succeeds].
  destruct (hide_cursor p); [apply emit_succeeds|]. destruct (cursor_position p). apply emits_succeed.
Qed.
End Drawing.

(** ** One record *)

Section Records.
Context {IoError P : Type} `{Vt100 P} (term : Terminal IoError).
Local Notation state := (RunState IoError P).

(** What a record means for the screen: the display bytes behind the prefix are processed, a
    resize event sets the size; everything else leaves the screen alone. *)
Definition replay_record (m : ReplayMachine P) (r : record) : ReplayMachine P :=
  match r.1 with
  | RecordType.LocalDisplayBytes => feed_display (drop 40 r.2) m
  | RecordType.LocalResizeEvent => feed_size (from_be_bytes (take 2 (drop 43 r.2))) (from_be_bytes (take 2 (drop 41 r.2))) m
  | _ => m
  end.

(** The replay insists on the length of a resize record. *)
Definition resize_exact (r : record) : bool :=
  match r.1 with RecordType.LocalResizeEvent => zlen r.2 =? 45 | _ => true end.

(** What the verifier makes sure of. *)
Definition prefixed (r : record) : Prop :=
  match r.1 with RecordType.LocalDisplayBytes => 40 <= zlen r.2 | _ => True end.

Lemma u16_at_take (l : list Z) i : 0 <= i -> i + 2 <= zlen l -> u16_at l i (i + 1) = Ok (from_be_bytes (take 2 (drop (Z.to_nat i) l))).
Proof.
  intros Hi Hl. unfold u16_at, index. rewrite !(proj2 (Z.ltb_ge _ _)) by lia. unfold zlen in Hl.
  destruct (drop (Z.to_nat i) l) as [|x [|y rest]] eqn:Hd; [apply (f_equal length) in Hd; rewrite length_drop in Hd; cbn in Hd; lia..|].
  assert (l !! Z.to_nat i = Some x) as -> by (by rewrite <- (Nat.add_0_r (Z.to_nat i)), <- lookup_drop, Hd).
  assert (l !! Z.to_nat (i + 1) = Some y) as ->.
  { replace (Z.to_nat (i + 1)) with (Z.to_nat i + 1)%nat by lia. by rewrite <- lookup_drop, Hd. }
  done.
Qed.

(** A step on the output does not touch the machine. *)
Lemma on_output_quiet {A} (x : A) (m : stm Output IoError A) (s : state) :
  succeeds m -> exists a o, on_output x m s = (Ok a, Running (machine s) o (display_error s)).
Proof.
  intros Hm. destruct s as [mc out de]. unfold on_output. cbn. destruct out as [o|]; [|by do 2 eexists].
  destruct (Hm o) as (a & o1 & ->). by do 2 eexists.
Qed.

Lemma redraw_quiet (s : state) : quiet term -> exists o, redraw term s = (Ok tt, Running (machine s) o (display_error s)).
Proof.
  intros Hq. unfold redraw. rewrite (stm_bind_step _ _ (machine s) s s) by done.
  destruct (on_output_quiet tt (render_screen term (parser (machine s)) (viewport (machine s))) s) as ([] & o & Eo);
    [by apply render_succeeds|by exists o].
Qed.

Lemma poll_quiet (s : state) :
  quiet term -> exists o, on_output false (poll_interrupt term) s = (Ok false, Running (machine s) o (display_error s)).
Proof.
  intros Hq. destruct s as [mc out de]. unfold on_output, poll_interrupt. cbn. destruct out as [o|]; [|by eexists].
  destruct (proj2 Hq (polls o)) as (_ & _ & ->). by eexists.
Qed.

Lemma visit_record (r : record) (s : state) :
  quiet term -> prefixed r -> resize_exact r = true ->
  exists o, visit term r.1 r.2 s = (Ok ContinueStream, Running (replay_record (machine s) r) o (display_error s)).
Proof.
  intros Hq Hp He. destruct r as [t p]. unfold prefixed, resize_exact, replay_record in *. cbn [fst snd] in *.
  destruct s as [mc out de]. destruct t; cbn [visit]; try by eexists.
  - rewrite (stm_bind_step _ _ (drop 40 p) _ (Running mc out de)).
    2: { unfold lift, get_range, LOCAL_RECORD_PREFIX_LEN. rewrite !(proj2 (Z.leb_le _ _)) by lia. cbn [andb ok_or].
         rewrite take_ge; [done|]. rewrite length_drop. unfold zlen. lia. }
    rewrite (stm_bind_step _ _ tt _ (Running (feed_display (drop 40 p) mc) out de)) by done.
    destruct (redraw_quiet (Running (feed_display (drop 40 p) mc) out de) Hq) as [o1 E1]. rewrite (stm_bind_step _ _ tt _ _ E1).
    destruct (poll_quiet (Running (feed_display (drop 40 p) mc) o1 de) Hq) as [o2 E2]. cbn [machine display_error] in *.
    rewrite (stm_bind_step _ _ false _ _ E2). by eexists.
  - unfold RESIZE_RECORD_LEN. rewrite He. cbn [negb]. apply Z.eqb_eq in He.
    rewrite (stm_bind_step _ _ (from_be_bytes (take 2 (drop 41 p))) _ (Running mc out de)).
    2: { unfold lift. change 42 with (41 + 1). by rewrite u16_at_take by lia. }
    rewrite (stm_bind_step _ _ (from_be_bytes (take 2 (drop 43 p))) _ (Running mc out de)).
    2: { unfold lift. change 44 with (43 + 1). by rewrite u16_at_take by lia. }
    match goal with |- context [on_machine ?f] => rewrite (stm_bind_step _ _ tt _ (Running (f mc) out de)) by done end.
    match goal with |- context [(redraw term ≫= _) ?s] => destruct (redraw_quiet s Hq) as [o1 E1] end.
    rewrite (stm_bind_step _ _ tt _ _ E1). by eexists.
Qed.

Lemma visit_inexact (r : record) (s : state) :
  resize_exact r = false -> visit term r.1 r.2 s = (Err (Tampered "the resize record is invalid"), s).
Proof.
  destruct r as [t p]. unfold resize_exact. cbn [fst snd]. destruct t; try done. intros He. cbn [visit].
  unfold RESIZE_RECORD_LEN. by rewrite He.
Qed.
End Records.

(** ** The frames of a file *)

Lemma process_frame_prefixed `{AuditCrypto} {IoError} t p v v' :
  process_frame (IoError:=IoError) t p v = (Ok tt, v') -> prefixed (t, p).
Proof.
  unfold prefixed. cbn [fst snd]. destruct t; try done. cbn [process_frame]. unfold process_display. intros Hr.
  apply stm_bind_ok in Hr as (u & v1 & Hr & _). unfold ensure in Hr. destruct (Z.leb_spec SPLIT_PREFIX_LEN (zlen p)); [done|discriminate Hr].
Qed.

Lemma process_frames_prefixed `{AuditCrypto} {IoError} rs v v' :
  process_frames (IoError:=IoError) rs v = (Ok tt, v') -> Forall prefixed rs.
Proof.
  revert v. unfold process_frames. induction rs as [|[t p] rs IH]; intros v Hr; [constructor|]. cbn [for_each] in Hr.
  apply stm_bind_ok in Hr as ([] & v1 & Hf & Hr). constructor; [by eapply process_frame_prefixed|by eapply IH].
Qed.

Section Files.
Context {IoError Path P : Type} `{AuditCryptoLaws} `{!Vt100 P} (term : Terminal IoError) (Hq : quiet term).
Local Notation state := (RunState IoError P).

(** The result of the stream over records, and what it leaves of the state. *)
Definition streamed (rs : list record) (sum : StreamSummary) (s : state) (r : res (StreamError IoError) StreamSummary) (s' : state)
  : Prop :=
  r = (if forallb resize_exact rs then Ok sum else Err (Tampered "the resize record is invalid")) /\
  display_error s' = display_error s /\
  (forallb resize_exact rs = true -> machine s' = foldl replay_record (machine s) rs).

Lemma stream_loop_records `{!RecordFiles IoError Path} fuel pos rs tail w (s : state) :
  (length rs < fuel)%nat -> Forall record_wf rs -> Forall prefixed rs ->
  next_frame (IoError:=IoError) (walker_at (pos + zlen (frames_bytes rs)) tail false) = (Ok None, w) ->
  exists r s', stream_loop fuel (visit term) (walker_at pos (frames_bytes rs ++ tail) false) s = Some (r, s') /\
    streamed rs (summary w) s r s'.
Proof.
  intros Hf Hw. revert fuel pos s Hf. induction Hw as [|x rs Hx Hrs IH]; intros [|fuel] pos s Hf Hp Hend; cbn [length] in Hf; [lia| |lia|].
  - change (zlen (frames_bytes [])) with 0 in Hend. rewrite Z.add_0_r in Hend. cbn [stream_loop].
    change (frames_bytes [] ++ tail) with tail. rewrite Hend. by do 2 eexists.
  - apply Forall_cons in Hp as [Hpx Hp]. rewrite frames_bytes_cons, <- app_assoc. cbn [stream_loop].
    rewrite next_frame_record by done. destruct x as [t p]. rewrite frames_bytes_cons, zlen_app, Z.add_assoc in Hend.
    unfold streamed. cbn [forallb foldl].
    destruct (resize_exact (t, p)) eqn:He; cbn [andb].
    + destruct (visit_record term (t, p) s Hq Hpx He) as [o E1]. cbn [fst snd] in E1. rewrite E1.
      apply IH; [lia|done..].
    + pose proof (visit_inexact term (t, p) s He) as E1. cbn [fst snd] in E1. rewrite E1. by do 2 eexists.
Qed.

Lemma stream_frames_records `{!RecordFiles IoError Path} path h rs tail w (s : state) :
  open_file path = Ok (interrupted h rs ++ tail) -> header_wf h -> Forall record_wf rs -> Forall prefixed rs ->
  next_frame (IoError:=IoError) (walker_at (zlen (interrupted h rs)) tail false) = (Ok None, w) ->
  exists r s', stream_frames path (visit term) s = (r, s') /\ streamed rs (summary w) s r s'.
Proof.
  intros Ho Hh Hrs Hp Hend. destruct (header_bytes_facts h Hh) as [_ Hl]. unfold interrupted in Ho, Hend. rewrite <- app_assoc in Ho.
  rewrite zlen_app, Hl in Hend. unfold stream_frames. rewrite (open_eq _ _ _ Hh Ho). cbn [mbind res_bind].
  unfold run. rewrite (skip_header_eq h _ Hh). cbn [mbind res_bind].
  destruct (stream_loop_records (Datatypes.S (length (frames_bytes rs ++ tail))) 713 rs tail w s) as (r & s' & E1 & Hs);
    [|done..|exists r, s'; split; [|done]].
  - pose proof (frames_length rs Hrs). rewrite length_app. lia.
  - change (FrameWalker.reader (walker_at 713 (frames_bytes rs ++ tail) false)) with (frames_bytes rs ++ tail). by rewrite E1.
Qed.
End Files.

(** ** The session *)

Section Session.
Context {IoError Path P : Type} `{AuditCryptoLaws} `{!Vt100 P} `{EqDecision Path} (term : Terminal IoError).
Local Notation View := (View (IoError:=IoError) (Path:=Path)).

(** A file whose report is not a refusal was walked to its end. *)
Lemma verify_at_walked (view : View) path peer initial unpaired :
  verify_at view path peer = Ok initial -> refusal_reason (rp_state initial) unpaired = None ->
  exists f, walk_file (H0:=view_files view) path = Ok f.
Proof.
  unfold verify_at, verify_files. destruct (walk_file path) as [f|e|]; [by eexists| |done].
  intros Hr Hn. destruct e; try discriminate Hr. apply ok_inj in Hr as ->. discriminate Hn.
Qed.

Lemma same_session_refl (r : VerificationReport Path) : same_verified_session r r = true.
Proof. unfold same_verified_session. by rewrite !bool_decide_eq_true_2. Qed.

Lemma start_output_succeeds (console : Console) : quiet term -> exists out, start_output term console = (Ok tt, out).
Proof.
  intros Hq. unfold start_output. destruct (is_terminal console); [|by eexists].
  destruct (enter_succeeds term Hq untouched) as ([] & o & ->). by eexists.
Qed.

(** C18: A verified recording is replayed to its end and unchanged.  Take files that stay as
    they are, a path whose verification reports the controller's file in one of the states
    that may be replayed, and a terminal (or none) that neither fails nor asks to stop.  Then
    the file is a header, records and a tail at which the walk ends, and the replay reports
    the screen that results from exactly those records in order: every display record's bytes
    behind its prefix, every resize event's size, nothing of the other records.  The only
    other outcome is a file with a resize record that is longer than its layout: the verifier
    accepts it and the replay stops with an error. *)
Theorem verified_file_replays (console : Console) (view : View) path peer bs initial :
  open_file (RecordFiles:=view_files view) path = Ok bs -> bytes bs ->
  verify_at view path peer = Ok initial -> controller_path_matches initial path = true ->
  refusal_reason (rp_state initial) (bool_decide (peer = None)) = None ->
  quiet term ->
  exists h rs tail w out, bs = interrupted h rs ++ tail /\ Forall record_wf rs /\
    next_frame (H0:=view_files view) (walker_at (zlen (interrupted h rs)) tail false) = (Ok None, w) /\
    replay_session (P:=P) term console view view (view_files view) path peer
    = (if forallb resize_exact rs
       then Ok (Replayed (report (foldl replay_record (new_machine (start_size console).1 (start_size console).2) rs)
                            (rp_state initial) (bool_decide (peer = None))))
       else Err (ReplayStream (Tampered "the resize record is invalid")), out).
Proof.
  intros Ho Hb Hv Hc Hn Hq. destruct (verify_at_walked _ _ _ _ _ Hv Hn) as [f Hf].
  destruct (walk_file_inv (RecordFiles0:=view_files view) _ _ _ Ho Hb Hf) as (rs & tail & A). pose proof (ac_bytes _ _ _ _ _ A) as ->.
  destruct (ac_walk _ _ _ _ _ A) as (v & w & Hpf & Hend).
  unfold replay_session. rewrite Hv, Hc. cbn [negb].
  replace (match peer with None => true | Some _ => false end) with (bool_decide (peer = None)) by (by destruct peer).
  rewrite Hn. destruct (start_size console) as [rows cols]. cbn [fst snd].
  destruct (start_output_succeeds console Hq) as [out ->]. cbv zeta. set (s0 := Running _ _ _).
  destruct (stream_frames_records (RecordFiles0:=view_files view) term Hq path (vf_header f) rs tail w s0 Ho (ac_header _ _ _ _ _ A)
    (ac_records _ _ _ _ _ A) (process_frames_prefixed _ _ _ Hpf) Hend) as (r & s' & E1 & -> & Hd & Hm).
  exists (vf_header f), rs, tail, w, (leave term <$> output s'). split; [done|]. split; [by apply (ac_records _ _ _ _ _ A)|]. split; [done|].
  unfold run_machine. rewrite E1, Hd. cbn [display_error s0]. destruct (forallb resize_exact rs); [|done].
  rewrite same_session_refl. cbn [negb orb]. by rewrite Hm.
Qed.
End Session.
