(* ===== verification/ReplayExample.v ===== *)
(** * A recorded session, replayed

    The file of a session that is interrupted after some output and a resize, with the
    instances of [FileExample] and a virtual terminal that keeps the bytes it is given. *)

From stdpp Require Import strings.
From S2P Require Import Prelude Domain Codec Layout WireAudit AuditCodecs AuditContainer AuditSigning ContainerCodecs AuditWriter Stateful AuditEvents AuditSession ChainVerifier AuditRun AuditIdentity AuditExample FileVerifier FileWalk FinishedFile PairVerifier FileExample Replay ReplaySafety ReplayRun.
Open Scope string_scope.
Open Scope list_scope.
Open Scope Z_scope.

(** ** The instances *)

(** A terminal without escape sequences: its size and the bytes in the order they came, one
    per cell; the bell is a callback. *)
Record toy_screen := Screen { toy_size : Z * Z; toy_text : list Z }.

Definition plain_cell (c : Z) : Cell := MkCell [c] false DefaultColor (Idx c) false false false false false.

#[export] Instance toy_vt100 : Vt100 toy_screen := {
  new_parser rows cols := Screen (rows, cols) [];
  process p l := (Screen (toy_size p) (toy_text p ++ l), (fun _ => AudibleBell) <$> List.filter (Z.eqb 7) l);
  set_size p rows cols := Screen (rows, cols) (toy_text p);
  screen_size := toy_size;
  screen_cell p row col := plain_cell <$> toy_text p !! Z.to_nat (row * (toy_size p).2 + col);
  screen_contents := toy_text;
  hide_cursor _ := false;
  cursor_position _ := (3, 5);
}.

#[export] Instance toy_vt100_laws : Vt100Laws toy_screen.
Proof. by constructor. Qed.

(** Nothing fails; or the ninth write does; or control-C is pressed. *)
Definition quiet_terminal : Terminal string :=
  MkTerminal string None (fun _ => None) (fun _ => None) (fun n => [Ok (CharKey 0x63 false)]).
Definition broken_terminal : Terminal string :=
  MkTerminal string None (fun n => if decide (n = 8%nat) then Some "broken pipe" else None) (fun _ => None) (fun _ => []).
Definition stopped_terminal : Terminal string :=
  MkTerminal string None (fun _ => None) (fun _ => None) (fun n => [Ok OtherEvent; Ok (CharKey 0x63 true); Err "not read"]).

(** A terminal of two rows and four columns. *)
Definition small_console : Console := MkConsole true (Some (4, 2)).

(** ** The file *)

Definition shown_ops : list (op * Z) :=
  [(ControllerOutput [104; 105; 27] [104; 105; 27], 2); (Resize DIRECTION_CTRL_TO_HOST 100 30, 3);
   (ControllerOutput [7] [7], 4)].
Definition shown_run := run_ops (IoError:=string) shown_ops (controller1, None).
Definition shown_records : list record := file_frames shown_run.1.
Definition shown_file : list Z := interrupted toy_header shown_records ++ [0; 0].

Definition toy_view : View (IoError:=string) (Path:=list Z) := MkView toy_files toy_directory.

Definition shown_report := verify_at toy_view shown_file None.
Lemma shown_report_ok : is_ok shown_report = true.
Proof. vm_compute. reflexivity. Qed.

Definition shown_replay (term : Terminal string) (file : list Z) :=
  replay_session (P:=toy_screen) term small_console toy_view toy_view toy_files file None.

(** The replay shows the two outputs: the escape byte and the bell are not printed, and the
    report counts the bell. *)
Example shown_replay_result :
  (shown_replay quiet_terminal shown_file).1
  = Ok (Replayed (MkReport IntactUnpaired true false (Filtered 0 0 0 0) 1 2 4 (30, 100) [104; 105])).
Proof. vm_compute. reflexivity. Qed.

(** A failing terminal ends the replay with its error, whatever the stream says. *)
Example broken_replay_result : (shown_replay broken_terminal shown_file).1 = Err (ReplayDisplay "broken pipe").
Proof. vm_compute. reflexivity. Qed.

(** The replay stops after the record during which control-C was pressed. *)
Example stopped_replay_result :
  (shown_replay stopped_terminal shown_file).1
  = Ok (Replayed (MkReport IntactUnpaired true true (Filtered 0 0 0 0) 0 1 3 (2, 4) [104; 105])).
Proof. vm_compute. reflexivity. Qed.

(** ** Resize records *)

(** The same file with a byte behind every resize record. *)
Definition lengthen (r : record) : record :=
  match r.1 with RecordType.LocalResizeEvent => (r.1, r.2 ++ [0]) | _ => r end.
Definition long_file : list Z := interrupted toy_header (lengthen <$> shown_records).

(** The verifier accepts a resize record that is longer than its layout, and the replay of the
    accepted file fails. *)
Theorem long_resize_record :
  (rp_state <$> verify_at toy_view long_file None) = Ok IntactUnpaired /\
  (shown_replay quiet_terminal long_file).1 = Err (ReplayStream (Tampered "the resize record is invalid")).
Proof. split; vm_compute; reflexivity. Qed.

(** ** The theorems at this file *)

#[local] Strategy opaque [handshake run_ops verify_files walk_file replay_session].

Lemma replay_output_safe_witness :
  left_safe (start_size small_console) (shown_replay broken_terminal shown_file).2 /\
  (length ∘ emitted) <$> (shown_replay broken_terminal shown_file).2 = Some 10%nat.
Proof.
  split.
  - apply (replay_output_safe broken_terminal small_console toy_view toy_view toy_files shown_file None
      (shown_replay broken_terminal shown_file).1 (shown_replay broken_terminal shown_file).2). apply surjective_pairing.
  - vm_compute. reflexivity.
Defined.

Lemma verified_file_replays_witness :
  exists h rs tail w out, shown_file = interrupted h rs ++ tail /\ Forall record_wf rs /\
    next_frame (H0:=toy_files) (walker_at (zlen (interrupted h rs)) tail false) = (Ok None, w) /\
    replay_session (P:=toy_screen) quiet_terminal small_console toy_view toy_view toy_files shown_file None
    = (if forallb resize_exact rs
       then Ok (Replayed (report (foldl replay_record (new_machine (start_size small_console).1 (start_size small_console).2) rs)
                            (rp_state (get_ok _ shown_report_ok)) (bool_decide (@None (list Z) = None))))
       else Err (ReplayStream (Tampered "the resize record is invalid")), out).
Proof.
  apply (verified_file_replays (P:=toy_screen) quiet_terminal small_console toy_view shown_file None shown_file (get_ok _ shown_report_ok)).
  - reflexivity.
  - apply bytesb_ok. vm_compute. reflexivity.
  - exact (get_ok_eq _ shown_report_ok).
  - vm_compute. reflexivity.
  - vm_compute. reflexivity.
  - split; [reflexivity|]. intros n. split_and!; reflexivity.
Defined.
