(* ===== verification/RelayClient.v ===== *)
(** * The endpoint's side of the relay protocols

    [crates/yon/src/protocol.rs]: how an endpoint asks its relay for a locator, releases it and
    resolves one, with or without enterprise authentication; and the prompts of
    [EnterpriseControllerUi] in [crates/yon/src/controller.rs].

    The functions are programs ([Programs]) over the effects of an endpoint: the connection to
    the relay, one substream at a time, sleeping, and the user.  Every await may answer with
    [Timeout], which is what the timeouts of the source turn it into, however they are nested.
    Durations are in milliseconds.  The payloads of [Endpoint] and [Io] errors are left out. *)

From stdpp Require Import strings.
From S2P Require Import Prelude Domain WireRegistry WireEnterprise Programs.
Open Scope string_scope.
Open Scope list_scope.
Open Scope Z_scope.

Definition RETRY_LIMIT : nat := 20.
Definition CONTROLLER_RESOLVE_TIMEOUT : Z := 30 * 1000.
Definition BACKOFF : Z := 250.

(** [yonder_core::wire] *)
Definition REGISTRY_PROTOCOL : string := "/yonder/registry/1.0.0".
Definition RESOLVE_PROTOCOL : string := "/yonder/resolve/1.0.0".
Definition ENTERPRISE_RESOLVE_PROTOCOL : string := "/yonder/enterprise-resolve/2.0.0".

Module RelayProtocolError.
Inductive t :=
| Endpoint | Timeout | Io
| Protocol (e : ProtocolError)
| Capacity | ReservationRequired | Conflict | LocatorMismatch | Unavailable | InvalidPeerId
| RetryExhausted | UnexpectedResponse | EnterpriseRejected | EnterpriseExpired.
End RelayProtocolError.
Import RelayProtocolError.
Local Notation error := RelayProtocolError.t.

(** [libp2p::PeerId::from_bytes] *)
Class PeerIdParse (PeerId : Type) := peer_from_bytes : list Z -> option PeerId.

(** ** Effects *)

Module ClientEffect.
Inductive t :=
| Reconverge
| Open (protocol : string)
| WriteAll (message : list Z)
| Flush
| Shutdown
| ReadExact (length : Z)
| Read (capacity : Z)
| Sleep (delay : Z)
| SelectProvider (providers : EnterpriseProviders.t)
| OpenAuthorization (url : list Z).
End ClientEffect.

#[export] Instance client_effect : Effect ClientEffect.t := fun e =>
  match e with
  | ClientEffect.ReadExact _ | ClientEffect.Read _ => res error (list Z)
  | ClientEffect.SelectProvider _ => res error EnterpriseProvider.t
  | _ => res error unit
  end.

(** ** Classifying responses *)

Inductive ReclaimResponse := Reclaimed | ReclaimConflict.
Inductive ReclaimStep := StepReclaimed | StepConflict | StepRetry (after : RetryAfter.t).

Definition reclaim_response (response : RegistryResponse.t) (requested : Locator.t) : res error ReclaimStep :=
  match response with
  | RegistryResponse.Acquired locator =>
    if bool_decide (locator = requested) then Ok StepReclaimed else Err LocatorMismatch
  | RegistryResponse.Conflict => Ok StepConflict
  | RegistryResponse.Retry after => Ok (StepRetry after)
  | RegistryResponse.Capacity => Err Capacity
  | RegistryResponse.ReservationRequired => Err ReservationRequired
  | RegistryResponse.Released => Err UnexpectedResponse
  end.

Inductive AllocationResponse := Acquired (locator : Locator.t) | RetryAllocation (after : RetryAfter.t).

Definition allocation_response (response : RegistryResponse.t) : res error AllocationResponse :=
  match response with
  | RegistryResponse.Acquired locator => Ok (Acquired locator)
  | RegistryResponse.Retry after => Ok (RetryAllocation after)
  | RegistryResponse.Capacity => Err Capacity
  | RegistryResponse.ReservationRequired => Err ReservationRequired
  | RegistryResponse.Conflict | RegistryResponse.Released => Err UnexpectedResponse
  end.

Definition release_response (response : RegistryResponse.t) : res error unit :=
  match response with
  | RegistryResponse.Released => Ok tt
  | RegistryResponse.Conflict => Err Conflict
  | RegistryResponse.ReservationRequired => Err ReservationRequired
  | RegistryResponse.Capacity | RegistryResponse.Acquired _ | RegistryResponse.Retry _ => Err UnexpectedResponse
  end.

(** [backoff.next()]: the constant backoff with a number of times left, or [repeat]. *)
Definition next_backoff (times : nat) : option Z := match times with O => None | S _ => Some BACKOFF end.

Definition retry_delay (generated : option Z) (requested : RetryAfter.t) : res error Z :=
  generated ← ok_or generated RetryExhausted;
  Ok (Z.max generated (RetryAfter.millis requested)).

Section Client.
Import ClientEffect.
Local Open Scope prog_scope.
Local Notation io A := (prog ClientEffect.t (res error A)).

Definition same (e : error) : error := e.

(** ** One exchange *)

(** [open_stream_timed] and, below it, the end of the connection's binding. *)
Definition open_stream_timed (protocol : string) : io unit := await (Open protocol).

(** Writing the request and closing the writing side. *)
Definition send_request (request : list Z) (k : io (list Z)) : io (list Z) :=
  r <- await (WriteAll request) ;; _ <-? r as same ;;
  r <- await Flush ;; _ <-? r as same ;;
  r <- await Shutdown ;; _ <-? r as same ;;
  k.

(** The read of one byte behind a response. *)
Definition expect_end (response : list Z) : io (list Z) :=
  r <- await (Read 1) ;; trailing <-? r as same ;;
  if negb (zlen trailing =? 0) then Ret (Err (Protocol TrailingBytes)) else Ret (Ok response).

Definition exact_exchange_io (length : Z) (request : list Z) : io (list Z) :=
  send_request request (r <- await (ReadExact length) ;; response <-? r as same ;; expect_end response).

(** The loop of [bounded_exchange_io]: every read returns at least one byte, so [capacity]
    steps are enough. *)
Fixpoint read_bounded (fuel : nat) (capacity : Z) (response : list Z) : io (list Z) :=
  match fuel with
  | O => Ret Panic
  | S fuel =>
    if zlen response <? capacity then
      r <- await (Read (capacity - zlen response)) ;; part <-? r as same ;;
      if zlen part =? 0 then Ret (Ok response) else read_bounded fuel capacity (response ++ part)
    else expect_end response
  end.

Definition bounded_exchange_io (capacity : Z) (request : list Z) : io (list Z) :=
  send_request request (read_bounded (S (Z.to_nat capacity)) capacity []).

Definition registry_call (request : RegistryRequest.t) : io RegistryResponse.t :=
  r <- open_stream_timed REGISTRY_PROTOCOL ;; _ <-? r as same ;;
  r <- exact_exchange_io RegistryResponse.LEN (RegistryRequest.encode request) ;; response <-? r as same ;;
  response <-? RegistryResponse.decode response as Protocol ;;
  Ret (Ok response).

Definition resolve_call (request : ResolveRequest.t) : io ResolveResponse.t :=
  r <- open_stream_timed RESOLVE_PROTOCOL ;; _ <-? r as same ;;
  r <- bounded_exchange_io ResolveResponse.MAX_LEN (ResolveRequest.encode request) ;; response <-? r as same ;;
  response <-? ResolveResponse.decode response as Protocol ;;
  Ret (Ok response).

(** ** Locators *)

(** The loop of [allocate_locator], with the retries that are left. *)
Fixpoint allocate_loop (times : nat) : io Locator.t :=
  r <- await Reconverge ;; _ <-? r as same ;;
  r <- registry_call RegistryRequest.Allocate ;; response <-? r as same ;;
  step <-? allocation_response response as same ;;
  match step with
  | Acquired locator => Ret (Ok locator)
  | RetryAllocation after =>
    delay <-? retry_delay (next_backoff times) after as same ;;
    r <- await (Sleep delay) ;; _ <-? r as same ;;
    match times with O => Ret Panic | S times => allocate_loop times end
  end.

Definition allocate_locator : io Locator.t := allocate_loop RETRY_LIMIT.

Fixpoint reclaim_loop (times : nat) (locator : Locator.t) : io ReclaimResponse :=
  r <- await Reconverge ;; _ <-? r as same ;;
  r <- registry_call (RegistryRequest.Reclaim locator) ;; response <-? r as same ;;
  step <-? reclaim_response response locator as same ;;
  match step with
  | StepReclaimed => Ret (Ok Reclaimed)
  | StepConflict => Ret (Ok ReclaimConflict)
  | StepRetry after =>
    delay <-? retry_delay (next_backoff times) after as same ;;
    r <- await (Sleep delay) ;; _ <-? r as same ;;
    match times with O => Ret Panic | S times => reclaim_loop times locator end
  end.

Definition reclaim_locator (locator : Locator.t) : io ReclaimResponse := reclaim_loop RETRY_LIMIT locator.

(** Also [release_locator_bound], whose binding only adds ways for an await to fail. *)
Definition release_locator (locator : Locator.t) : io unit :=
  r <- registry_call (RegistryRequest.Release locator) ;; response <-? r as same ;;
  _ <-? release_response response as same ;;
  Ret (Ok tt).

(** ** Resolving *)

Section Resolve.
Context {PeerId : Type} `{PeerIdParse PeerId}.

Inductive ResolvedResponse := ResolvedPeer (peer : PeerId) | RetryResolve (after : RetryAfter.t).

Definition parse_peer (peer : PeerIdBytes.t) : res error PeerId :=
  ok_or (peer_from_bytes (PeerIdBytes.as_bytes peer)) InvalidPeerId.

Definition resolve_response (response : ResolveResponse.t) : res error ResolvedResponse :=
  match response with
  | ResolveResponse.Resolved peer => ResolvedPeer <$> parse_peer peer
  | ResolveResponse.Retry after => Ok (RetryResolve after)
  | ResolveResponse.Unavailable => Err Unavailable
  end.

(** [retry] under the absolute deadline: a sleep longer than what is left of the budget ends
    with the deadline.  What is left is an upper bound, as other awaits take time too. *)
Definition retry_within {A} (left : Z) (requested : RetryAfter.t) (k : Z -> io A) : io A :=
  delay <-? retry_delay (Some BACKOFF) requested as same ;;
  if left <? delay then Ret (Err Timeout) else
  r <- await (Sleep delay) ;; _ <-? r as same ;;
  k (left - delay).

(** The loop of [resolve_peer]; every retry takes 250 ms of the budget at least. *)
Fixpoint resolve_loop (fuel : nat) (left : Z) (locator : Locator.t) : io PeerId :=
  match fuel with
  | O => Ret Panic
  | S fuel =>
    r <- await Reconverge ;; _ <-? r as same ;;
    r <- resolve_call (ResolveRequest.Mk locator) ;; response <-? r as same ;;
    step <-? resolve_response response as same ;;
    match step with
    | ResolvedPeer peer => Ret (Ok peer)
    | RetryResolve after => retry_within left after (fun left => resolve_loop fuel left locator)
    end
  end.

(** Attempts within a budget. *)
Definition attempts (budget : Z) : nat := S (Z.to_nat (budget / BACKOFF)).

Definition resolve_peer (locator : Locator.t) : io PeerId :=
  resolve_loop (attempts CONTROLLER_RESOLVE_TIMEOUT) CONTROLLER_RESOLVE_TIMEOUT locator.

(** ** Enterprise resolving *)

Definition write_enterprise_step (message : list Z) : io unit :=
  r <- await (WriteAll message) ;; _ <-? r as same ;;
  await Flush.

(** The bytes of one response, delimited by its tag. *)
Definition read_enterprise_frame : io (list Z) :=
  r <- await (ReadExact 1) ;; tag <-? r as same ;;
  tag <-? index tag 0 as same ;;
  if tag =? 0x10 then
    r <- await (ReadExact 1) ;; payload <-? r as same ;;
    Ret (Ok (tag :: payload))
  else if tag =? 0x11 then
    r <- await (ReadExact 4) ;; payload <-? r as same ;;
    Ret (Ok (tag :: payload))
  else if tag =? 0x12 then
    r <- await (ReadExact 2) ;; prefix <-? r as same ;;
    let length := from_be_bytes prefix in
    if MAX_AUTHORIZATION_URL_LEN <? length then Ret (Err (Protocol (InvalidField FAuthorizationUrl))) else
    r <- await (ReadExact length) ;; url <-? r as same ;;
    Ret (Ok (tag :: prefix ++ url))
  else if tag =? 0x13 then
    r <- await (ReadExact 1) ;; prefix <-? r as same ;;
    length <-? index prefix 0 as same ;;
    r <- await (ReadExact length) ;; peer <-? r as same ;;
    Ret (Ok (tag :: prefix ++ peer))
  else Ret (Ok [tag]).

Definition read_enterprise_response : io EnterpriseResolveResponse.t :=
  r <- read_enterprise_frame ;; message <-? r as same ;;
  response <-? EnterpriseResolveResponse.decode message as Protocol ;;
  Ret (Ok response).

Inductive EnterpriseAttempt := AttemptResolved (peer : PeerId) | AttemptRetry (after : RetryAfter.t).

(** The last message of an exchange. *)
Definition final_response (response : EnterpriseResolveResponse.t) : res error EnterpriseAttempt :=
  match response with
  | EnterpriseResolveResponse.Resolved peer => AttemptResolved <$> parse_peer peer
  | EnterpriseResolveResponse.Unavailable => Err Unavailable
  | EnterpriseResolveResponse.Expired => Err EnterpriseExpired
  | EnterpriseResolveResponse.Failed | EnterpriseResolveResponse.Cancelled => Err EnterpriseRejected
  | _ => Err UnexpectedResponse
  end.

(** The part of the exchange in which the user authenticates. *)
Definition authenticate_steps (providers : EnterpriseProviders.t) : io EnterpriseAttempt :=
  r <- await (SelectProvider providers) ;; provider <-? r as same ;;
  r <- write_enterprise_step (EnterpriseSelect.encode (EnterpriseSelect.Mk provider)) ;; _ <-? r as same ;;
  r <- read_enterprise_response ;; response <-? r as same ;;
  match response with
  | EnterpriseResolveResponse.Authenticate url =>
    url <-? expect (AuthorizationUrl.as_str url) as same ;;
    r <- await (OpenAuthorization url) ;; _ <-? r as same ;;
    r <- read_enterprise_response ;; response <-? r as same ;;
    attempt <-? final_response response as same ;;
    Ret (Ok attempt)
  | _ => Ret (Err UnexpectedResponse)
  end.

Definition enterprise_exchange_io (locator : Locator.t) : io EnterpriseAttempt :=
  start <-? expect (EnterpriseStart.encode (EnterpriseStart.Mk locator)) as same ;;
  r <- write_enterprise_step start ;; _ <-? r as same ;;
  r <- read_enterprise_response ;; response <-? r as same ;;
  match response with
  | EnterpriseResolveResponse.Retry after => Ret (Ok (AttemptRetry after))
  | EnterpriseResolveResponse.Providers providers => authenticate_steps providers
  | _ => Ret (Err UnexpectedResponse)
  end.

Fixpoint enterprise_loop (fuel : nat) (left : Z) (locator : Locator.t) : io PeerId :=
  match fuel with
  | O => Ret Panic
  | S fuel =>
    r <- await Reconverge ;; _ <-? r as same ;;
    r <- open_stream_timed ENTERPRISE_RESOLVE_PROTOCOL ;; _ <-? r as same ;;
    r <- enterprise_exchange_io locator ;; attempt <-? r as same ;;
    match attempt with
    | AttemptResolved peer => Ret (Ok peer)
    | AttemptRetry after => retry_within left after (fun left => enterprise_loop fuel left locator)
    end
  end.

Definition enterprise_resolve_peer (locator : Locator.t) : io PeerId :=
  enterprise_loop (attempts CONTROLLER_RESOLVE_TIMEOUT) CONTROLLER_RESOLVE_TIMEOUT locator.

(** ** By access mode *)

Inductive RelayAccessMode := Standard | Enterprise.
Record ResolvedTarget := MkTarget { target_peer : PeerId; target_access : RelayAccessMode }.

Definition resolve_peer_for_mode (locator : Locator.t) (expected : RelayAccessMode) : io ResolvedTarget :=
  r <- match expected with
       | Standard => resolve_peer locator
       | Enterprise => enterprise_resolve_peer locator
       end ;;
  Ret ((fun peer => MkTarget peer expected) <$> r).
End Resolve.
End Client.

(** ** The prompts *)

(** [char::is_whitespace]: the Unicode property White_Space; lines are lists of code points. *)
Definition is_whitespace (c : Z) : bool :=
  ((0x09 <=? c) && (c <=? 0x0D)) || (c =? 0x20) || (c =? 0x85) || (c =? 0xA0) || (c =? 0x1680)
  || ((0x2000 <=? c) && (c <=? 0x200A)) || (c =? 0x2028) || (c =? 0x2029) || (c =? 0x202F) || (c =? 0x205F)
  || (c =? 0x3000).

(** [str::trim] *)
Fixpoint trim_start (l : list Z) : list Z :=
  match l with [] => [] | c :: l' => if is_whitespace c then trim_start l' else l end.
Definition trim (l : list Z) : list Z := rev (trim_start (rev (trim_start l))).

(** The loop of [select_provider] on the lines of the terminal; [read_line] gives an empty
    line at the end of the input, again and again.  The second component counts the prompts
    that were written; [None] when the fuel is used up. *)
Fixpoint prompt_loop (fuel : nat) (input : list (list Z)) (prompts : nat) : option EnterpriseProvider.t * nat :=
  match fuel with
  | O => (None, prompts)
  | S fuel =>
    let '(line, input) := match input with [] => ([], []) | line :: input => (line, input) end in
    let choice := trim line in
    if bool_decide (choice = [0x31]) then (Some EnterpriseProvider.WeCom, prompts)
    else if bool_decide (choice = [0x32]) then (Some EnterpriseProvider.Feishu, prompts)
    else prompt_loop fuel input (S prompts)
  end.

(** A single provider is chosen without asking. *)
Definition select_provider (fuel : nat) (providers : EnterpriseProviders.t) (input : list (list Z))
  : option (res error EnterpriseProvider.t) * nat :=
  match EnterpriseProviders.iter providers with
  | [] => (Some Panic, O)
  | [provider] => (Some (Ok provider), O)
  | _ => let '(choice, prompts) := prompt_loop fuel input 1 in (Ok <$> choice, prompts)
  end.
