(* ===== verification/EnterpriseReader.v ===== *)
(** * Reading enterprise responses

    The responses of a relay on an enterprise substream delimit themselves, and
    [read_enterprise_response] of [RelayClient] reads exactly one of them: what it accepts is a
    legal message and the bytes it took are that message's; what it rejects is not the
    beginning of any. *)

From stdpp Require Import strings.
From S2P Require Import Prelude Domain Codec WireRegistry WireEnterprise Programs RelayClient.
Open Scope string_scope.
Open Scope list_scope.
Open Scope Z_scope.
Import RelayProtocolError.
Local Notation error := RelayProtocolError.t.
Local Notation enc := enterprise_response_enc.
Local Notation wf := EnterpriseResolveResponse.wf.
Local Open Scope prog_scope.

(** ** Frames *)

(** The length of the frame that some bytes begin, once they say. *)
Definition frame_size (l : list Z) : option Z :=
  match l with
  | [] => None
  | tag :: payload =>
    if tag =? 0x10 then Some 2
    else if tag =? 0x11 then Some 5
    else if tag =? 0x12 then match payload with hi :: lo :: _ => Some (3 + from_be_bytes [hi; lo]) | _ => None end
    else if tag =? 0x13 then match payload with n :: _ => Some (2 + n) | [] => None end
    else Some 1
  end.

Definition framed (l : list Z) : Prop := frame_size l = Some (zlen l).

Lemma frame_size_app l x n : frame_size l = Some n -> frame_size (l ++ x) = Some n.
Proof.
  destruct l as [|tag l]; [done|]. cbn [frame_size app]. do 2 (destruct (_ =? _); [done|]).
  destruct (_ =? _); [by destruct l as [|? [|? ?]]|]. destruct (_ =? _); [by destruct l|done].
Qed.

(** No frame is a proper prefix of what begins with another. *)
Lemma framed_prefix_free l l' x : framed l -> framed l' -> l `prefix_of` l' ++ x -> l = l'.
Proof.
  intros Hl Hl' [y He]. apply (frame_size_app _ y) in Hl. apply (frame_size_app _ x) in Hl' as Hx. rewrite He in Hx.
  rewrite Hx in Hl. injection Hl as Hl. symmetry. apply (app_inj_1 l' l x y); [|done]. unfold zlen in Hl. lia.
Qed.

Lemma wire_form m l : wf m -> enc m = Ok l -> bytes l /\ zlen l <= MAX_RESPONSE_LEN /\ response_wire m l.
Proof.
  intros Hw He. destruct (cc_enc_total _ _ _ _ enterprise_response_codec_lemma m Hw) as (l' & Hl & Hb & Hz).
  assert (l' = l) as -> by congruence. split_and!; [done..|].
  by apply (enterprise_decode_canonical l m Hb), (cc_dec_enc _ _ _ _ enterprise_response_codec_lemma).
Qed.

Lemma wire_framed m l : wf m -> enc m = Ok l -> framed l.
Proof.
  intros Hw He. destruct (wire_form m l Hw He) as (_ & Hz & Hr). unfold framed. destruct Hr as [| |u s Hu|p| | | |]; try done.
  2: { unfold zlen. cbn [frame_size length]. f_equal. lia. }
  pose proof (length_digits_be 256 2 (zlen s)) as H2. fold (to_be_bytes 2 (zlen s)) in H2. unfold MAX_RESPONSE_LEN, MAX_AUTHORIZATION_URL_LEN in Hz.
  change (0x12 :: to_be_bytes 2 (zlen s) ++ s) with ([0x12] ++ to_be_bytes 2 (zlen s) ++ s) in *. rewrite !zlen_app in *.
  rewrite (zlen_to_be 2) in *. change (zlen [0x12]) with 1 in *.
  pose proof (from_to_be 2 (zlen s)) as Hbe. pose proof (zlen_nonneg s).
  destruct (to_be_bytes 2 (zlen s)) as [|hi [|lo [|? ?]]]; try done. cbn [frame_size app].
  change (0x12 =? 0x10) with false. change (0x12 =? 0x11) with false. change (0x12 =? 0x12) with true. cbv iota.
  rewrite Hbe by (change (256 ^ Z.of_nat 2) with 65536; lia). f_equal. lia.
Qed.

(** Bytes that no legal message begins with. *)
Definition illegal (l : list Z) : Prop :=
  forall m l0 x, wf m -> enc m = Ok l0 -> ~ l `prefix_of` l0 ++ x.

(** The messages on a stream are determined by its bytes. *)
Lemma wire_prefix_free m m' l l' x y :
  wf m -> wf m' -> enc m = Ok l -> enc m' = Ok l' -> l ++ x `prefix_of` l' ++ y -> m = m' /\ x `prefix_of` y.
Proof.
  intros Hw Hw' He He' Hp. assert (l = l') as <-.
  { apply (framed_prefix_free l l' y); [exact (wire_framed m l Hw He)|exact (wire_framed m' l' Hw' He')|]. etrans; [|exact Hp]. by eexists. }
  split; [|by eapply prefix_app_inv].
  pose proof (cc_dec_enc _ _ _ _ enterprise_response_codec_lemma m l Hw He) as D1.
  rewrite (cc_dec_enc _ _ _ _ enterprise_response_codec_lemma m' l Hw' He') in D1. by injection D1.
Qed.

(** A frame either is a legal message or no legal message begins like it. *)
Lemma framed_decode l :
  bytes l -> framed l ->
  (exists m, EnterpriseResolveResponse.decode l = Ok m /\ wf m /\ enc m = Ok l) \/
  (exists e, EnterpriseResolveResponse.decode l = Err e /\ illegal l).
Proof.
  intros Hb Hf. destruct (EnterpriseResolveResponse.decode l) as [m|e|] eqn:Hd.
  - left. exists m. split; [done|]. by apply (cc_dec_canonical _ _ _ _ enterprise_response_codec_lemma).
  - right. exists e. split; [done|]. intros m l0 x Hw He Hp.
    assert (l = l0) as -> by (apply (framed_prefix_free l l0 x); [done|exact (wire_framed m l0 Hw He)|done]).
    by rewrite (cc_dec_enc _ _ _ _ enterprise_response_codec_lemma m l0 Hw He) in Hd.
  - by apply (cc_dec_no_panic _ _ _ _ enterprise_response_codec_lemma) in Hd.
Qed.

(** A length beyond the bound on URLs. *)
Lemma long_url_illegal hi lo : MAX_AUTHORIZATION_URL_LEN < from_be_bytes [hi; lo] -> illegal [0x12; hi; lo].
Proof.
  intros Hl m l0 x Hw He [y Hy]. destruct (wire_form m l0 Hw He) as (_ & Hz & _). apply wire_framed in He; [|done].
  apply (frame_size_app _ x) in He. rewrite Hy in He.
  assert (frame_size ([0x12; hi; lo] ++ y) = Some (3 + from_be_bytes [hi; lo])) as Hs by done. rewrite Hs in He.
  injection He as He. unfold MAX_RESPONSE_LEN in Hz. lia.
Qed.

(** ** The reader *)

Section Reader.
Context {T A : Type} (allowed : T -> ClientEffect.t -> Prop) (after : T -> forall e : ClientEffect.t, answer e -> T -> Prop).
Context (final : res error A -> T -> Prop).

(** [inside l t]: in state [t] the bytes [l] of a response have been read. *)
Context (inside : list Z -> T -> Prop).
Context (Hallowed : forall l t n, inside l t -> 0 <= n <= MAX_AUTHORIZATION_URL_LEN -> allowed t (ClientEffect.ReadExact n)).
Context (Hafter : forall l t n (r : res error (list Z)) t', inside l t -> after t (ClientEffect.ReadExact n) r t' ->
  match r with Ok part => bytes part /\ zlen part = n /\ inside (l ++ part) t' | Err e => final (Err e) t' | Panic => False end).

Lemma one_byte l : bytes l -> zlen l = 1 -> exists b, l = [b] /\ 0 <= b < 256.
Proof. intros Hb Hl. destruct l as [|b [|? ?]]; [done| |unfold zlen in Hl; cbn in Hl; lia]. exists b. apply Forall_inv in Hb. by unfold is_u8 in Hb. Qed.

(** One read inside a frame, of which [Hi] says how far it was read. *)
Ltac reads Hi :=
  cbn [await prog_bind follows]; split; [apply (Hallowed _ _ _ Hi); unfold MAX_AUTHORIZATION_URL_LEN in *; try lia|];
  let r := fresh "r" in let t' := fresh "t'" in let Ha := fresh "Ha" in
  intros r t' Ha; apply (Hafter _ _ _ _ _ Hi) in Ha; destruct r as [?|?|];
  cbn [try_ prog_bind follows]; [destruct Ha as (? & ? & Ha)|exact Ha|done].

(** From the start of a frame to the end of it. *)
Lemma read_frame_follows (k : list Z -> prog ClientEffect.t (res error A)) t :
  inside [] t ->
  (forall l t', inside l t' -> bytes l -> framed l -> follows allowed after final t' (k l)) ->
  (forall e l t', inside l t' -> illegal l -> final (Err (Protocol e)) t') ->
  follows allowed after final t (r <- read_enterprise_frame ;; message <-? r as same ;; k message).
Proof.
  intros Hi Hk Hbad. unfold read_enterprise_frame. reads Hi. destruct (one_byte _ H H0) as (tag & -> & Htag). cbn [index].
  change (index [tag] 0) with (Ok (E:=error) tag). cbn [try_ prog_bind app] in *.
  destruct (Z.eqb_spec tag 0x10) as [->|N1]; [|destruct (Z.eqb_spec tag 0x11) as [->|N2];
    [|destruct (Z.eqb_spec tag 0x12) as [->|N3]; [|destruct (Z.eqb_spec tag 0x13) as [->|N4]]]].
  - reads Ha. apply Hk; [done|by apply (Forall_app_2 _ [_])|]. unfold framed. cbn [frame_size]. rewrite zlen_cons, H2. done.
  - reads Ha. apply Hk; [done|by apply (Forall_app_2 _ [_])|]. unfold framed. cbn [frame_size]. rewrite zlen_cons, H2. done.
  - reads Ha. destruct a as [|hi [|lo [|? ?]]]; try (unfold zlen in H2; cbn in H2; lia). pose proof (from_be_range _ H1) as Hr.
    destruct (Z.ltb_spec MAX_AUTHORIZATION_URL_LEN (from_be_bytes [hi; lo])); [by apply (Hbad _ [0x12; hi; lo]), long_url_illegal|].
    reads Ha0. apply Hk; [done|by apply (Forall_app_2 _ [_]), (Forall_app_2 _ [_; _])|]. unfold framed. cbn [frame_size app].
    change (0x12 =? 0x12) with true. cbv iota. rewrite !zlen_cons, H5. f_equal. lia.
  - reads Ha. destruct (one_byte _ H1 H2) as (n & -> & Hn). change (index [n] 0) with (Ok (E:=error) n). cbn [try_ prog_bind app] in *.
    reads Ha0. apply Hk; [done|by apply (Forall_app_2 _ [_]), (Forall_app_2 _ [_])|]. unfold framed. cbn [frame_size app].
    change (0x13 =? 0x13) with true. cbv iota. rewrite !zlen_cons, H4. f_equal. lia.
  - apply Hk; [done..|]. unfold framed. cbn [frame_size]. by rewrite !(proj2 (Z.eqb_neq _ _)).
Qed.

(** What [read_enterprise_response] returns is what the bytes it took say. *)
Lemma read_response_follows (k : EnterpriseResolveResponse.t -> prog ClientEffect.t (res error A)) t :
  inside [] t ->
  (forall m l t', inside l t' -> wf m -> enc m = Ok l -> follows allowed after final t' (k m)) ->
  (forall e l t', inside l t' -> illegal l -> final (Err (Protocol e)) t') ->
  follows allowed after final t (r <- read_enterprise_response ;; response <-? r as same ;; k response).
Proof.
  intros Hi Hk Hbad. unfold read_enterprise_response.
  enough (follows allowed after final t (r <- read_enterprise_frame ;; message <-? r as same ;;
    response <-? EnterpriseResolveResponse.decode message as Protocol ;; k response)) as Hf.
  { revert Hf. generalize read_enterprise_frame. clear. intros p. revert t. induction p as [r|e j IH]; intros t; cbn [prog_bind follows].
    - destruct r as [l|e|]; cbn [try_ prog_bind follows]; try done. by destruct (EnterpriseResolveResponse.decode l).
    - intros [Ha Hj]. split; [done|]. intros r t' Hr. by apply IH, Hj. }
  apply read_frame_follows; [done| |done]. intros l t' Hin Hb Hf.
  destruct (framed_decode l Hb Hf) as [(m & -> & Hw & He)|(e & -> & Hbad')]; cbn [try_ follows]; [by eapply Hk|by eapply Hbad].
Qed.
End Reader.

(** Any text within the bound is an authorization URL, whatever its scheme and characters. *)
Lemma any_url_text s :
  bytes s -> valid_utf8 s -> 1 <= zlen s <= MAX_AUTHORIZATION_URL_LEN ->
  exists url, EnterpriseResolveResponse.decode (0x12 :: to_be_bytes 2 (zlen s) ++ s) = Ok (EnterpriseResolveResponse.Authenticate url) /\
    AuthorizationUrl.as_str url = Ok s.
Proof.
  intros Hb Hv Hl. set (url := AuthorizationUrl.Mk (s ++ zeros (MAX_AUTHORIZATION_URL_LEN - zlen s)) (zlen s)).
  assert (AuthorizationUrl.wf url) as Hw by (by exists s). exists url.
  assert (AuthorizationUrl.as_str url = Ok s) as Hs.
  { destruct (url_as_str_wf url Hw) as (s' & Hs & _ & _ & _ & Hn). rewrite Hs. f_equal. apply url_new_ok in Hn as [_ Hn].
    injection Hn as Happ Hz. rewrite Hz in Happ. apply app_inj_2 in Happ as [-> _]; [done|done]. }
  split; [|done]. apply enterprise_decode_wire; [done|by constructor].
Qed.
