(* ===== verification/RelayClientSafety.v ===== *)
(** * What an endpoint asks of its relay

    However the relay answers, an endpoint sends only the request at hand on streams of the
    protocol of its mode, stays within its budget of retries, and opens a browser at most once. *)

From stdpp Require Import strings.
From S2P Require Import Prelude Domain Codec WireRegistry WireEnterprise Programs RelayClient EnterpriseReader.
Open Scope string_scope.
Open Scope list_scope.
Open Scope Z_scope.
Import RelayProtocolError.
Local Notation error := RelayProtocolError.t.
Local Open Scope prog_scope.

(** ** Answers *)

(** What an await may answer: the bytes asked for or fewer, and never a panic. *)
Definition answered (e : ClientEffect.t) : answer e -> Prop :=
  match e with
  | ClientEffect.ReadExact n => fun r => match r with Ok l => bytes l /\ zlen l = n | Err _ => True | Panic => False end
  | ClientEffect.Read n => fun r => match r with Ok l => bytes l /\ zlen l <= n | Err _ => True | Panic => False end
  | ClientEffect.SelectProvider _ => fun r => r <> Panic
  | ClientEffect.Reconverge | ClientEffect.Open _ | ClientEffect.WriteAll _ | ClientEffect.Flush
  | ClientEffect.Shutdown | ClientEffect.Sleep _ | ClientEffect.OpenAuthorization _ => fun r => r <> Panic
  end.

(** What a client has done: the streams it opened, how long it slept, whether it handed the
    user an authorization URL, and the bytes of the last response it read. *)
Record done_so_far := Done { opens : Z; slept : Z; authorized : bool; last_read : list Z }.
Definition nothing : done_so_far := Done 0 0 false [].

Definition note (e : ClientEffect.t) (t : done_so_far) : answer e -> done_so_far :=
  match e with
  | ClientEffect.Open _ => fun _ => Done (opens t + 1) (slept t) (authorized t) (last_read t)
  | ClientEffect.Sleep delay => fun _ => Done (opens t) (slept t + delay) (authorized t) (last_read t)
  | ClientEffect.OpenAuthorization _ => fun _ => Done (opens t) (slept t) true (last_read t)
  | ClientEffect.ReadExact _ => fun r =>
    match r with Ok l => Done (opens t) (slept t) (authorized t) l | _ => t end
  | _ => fun _ => t
  end.

Definition noted (t : done_so_far) (e : ClientEffect.t) (r : answer e) (t' : done_so_far) : Prop :=
  answered e r /\ t' = note e t r.

(** Runs one await: the side condition that it is allowed, and the case that it succeeded;
    an error ends the program, where [herr] applies. *)
Ltac awaits herr :=
  cbn [await prog_bind follows]; split; [|
    let t' := fresh "t'" in let Ha := fresh "Ha" in let r := fresh "r" in
    intros r t' [Ha ->]; destruct r as [?|?|]; cbn [try_ prog_bind follows]; [|apply herr|by destruct Ha]].

Section Registry.
Context (request : list Z).

(** The effects of a registry exchange and of the loops around it. *)
Definition registry_allowed (t : done_so_far) (e : ClientEffect.t) : Prop :=
  match e with
  | ClientEffect.Reconverge | ClientEffect.Flush | ClientEffect.Shutdown => True
  | ClientEffect.Open protocol => protocol = REGISTRY_PROTOCOL /\ opens t <= 20 /\ BACKOFF * opens t <= slept t
  | ClientEffect.WriteAll message => message = request
  | ClientEffect.ReadExact n => n = RegistryResponse.LEN
  | ClientEffect.Read n => n = 1
  | ClientEffect.Sleep delay => BACKOFF <= delay <= RetryAfter.MAX_MILLIS
  | ClientEffect.SelectProvider _ | ClientEffect.OpenAuthorization _ => False
  end.
Local Notation follows_registry := (follows registry_allowed noted).

Context {A : Type} (final : res error A -> done_so_far -> Prop) (Herr : forall e t, final (Err e) t).

(** One exchange: its result is the response that was read. *)
Lemma registry_call_follows req k t :
  request = RegistryRequest.encode req -> opens t <= 20 -> BACKOFF * opens t <= slept t ->
  (forall response l, bytes l -> RegistryResponse.decode l = Ok response ->
    follows_registry final (Done (opens t + 1) (slept t) (authorized t) l) (k response)) ->
  follows_registry final t (r <- registry_call req ;; response <-? r as same ;; k response).
Proof.
  intros Hreq Ho Hs Hk. unfold registry_call, open_stream_timed, exact_exchange_io, send_request, expect_end.
  awaits Herr; [done|]. awaits Herr; [done|]. awaits Herr; [done|]. awaits Herr; [done|].
  awaits Herr; [done|]. destruct Ha3 as [Hb _]. awaits Herr; [done|]. destruct (negb _); [apply Herr|]. cbn [prog_bind try_].
  destruct (RegistryResponse.decode _) as [response|e|] eqn:Hd; cbn [try_ prog_bind]; [|apply Herr|].
  - by apply Hk.
  - by destruct (cc_dec_no_panic _ _ _ _ registry_response_codec_lemma _ Hb).
Qed.
End Registry.

(** The response that the last exchange read. *)
Definition read_response (t : done_so_far) (response : RegistryResponse.t) : Prop :=
  RegistryResponse.decode (last_read t) = Ok response.

Definition allocate_final (r : res error Locator.t) (t : done_so_far) : Prop :=
  match r with Ok locator => read_response t (RegistryResponse.Acquired locator) | Err _ => True | Panic => False end.

Definition reclaim_final (locator : Locator.t) (r : res error ReclaimResponse) (t : done_so_far) : Prop :=
  match r with
  | Ok Reclaimed => read_response t (RegistryResponse.Acquired locator)
  | Ok ReclaimConflict => read_response t RegistryResponse.Conflict
  | Err _ => True
  | Panic => False
  end.

Definition release_final (r : res error unit) (t : done_so_far) : Prop :=
  match r with Ok _ => read_response t RegistryResponse.Released | Err _ => True | Panic => False end.

Lemma registry_retry_wf l after : bytes l -> RegistryResponse.decode l = Ok (RegistryResponse.Retry after) -> RetryAfter.wf after.
Proof. intros Hb Hd. by destruct (cc_dec_canonical _ _ _ _ registry_response_codec_lemma l _ Hb Hd). Qed.

(** The delay before a retry. *)
Lemma retry_delay_range after d : RetryAfter.wf after -> retry_delay (Some BACKOFF) after = Ok d -> BACKOFF <= d <= RetryAfter.MAX_MILLIS.
Proof. unfold RetryAfter.wf, retry_delay, BACKOFF, RetryAfter.MAX_MILLIS, RetryAfter.MIN_MILLIS. cbn. intros ? [= <-]. lia. Qed.

(** A retry in the loops around registry exchanges. *)
Lemma registry_retry_follows request {A} (final : res error A -> done_so_far -> Prop) after times t (k : nat -> prog ClientEffect.t (res error A)) :
  (forall e t, final (Err e) t) -> RetryAfter.wf after ->
  (forall d n, times = S n -> BACKOFF <= d ->
    follows (registry_allowed request) noted final (Done (opens t) (slept t + d) (authorized t) (last_read t)) (k n)) ->
  follows (registry_allowed request) noted final t
    (delay <-? retry_delay (next_backoff times) after as same ;;
     r <- await (ClientEffect.Sleep delay) ;; _ <-? r as same ;;
     match times with O => Ret Panic | S times => k times end).
Proof.
  intros Herr Hw Hk. destruct times as [|times]; [apply Herr|]. cbn [next_backoff].
  destruct (retry_delay _ _) as [d|e|] eqn:Hd; [|done..]. apply retry_delay_range in Hd; [|done].
  cbn [try_]. awaits Herr; [done|]. apply Hk; [done|lia].
Qed.

Lemma allocate_loop_follows times t :
  opens t + Z.of_nat times = 20 -> BACKOFF * opens t <= slept t ->
  follows (registry_allowed (RegistryRequest.encode RegistryRequest.Allocate)) noted allocate_final t (allocate_loop times).
Proof.
  assert (forall e t, allocate_final (Err e) t) as Herr by done. revert t.
  induction times as [|times IH]; intros t Ho Hs; cbn [allocate_loop]; awaits Herr; try done;
    (apply registry_call_follows; [done|done|cbn; lia|done|]); intros response l Hb Hd;
    (destruct response as [locator| |after| | |]; cbn [allocation_response try_]; try apply Herr; try exact Hd).
  apply registry_retry_wf in Hd; [|done].
  apply (registry_retry_follows _ _ after (S times) _ allocate_loop); [done..|]. intros d n [= <-] Hd'.
  apply IH; cbn [opens slept note]; lia.
Qed.

Lemma reclaim_loop_follows locator times t :
  opens t + Z.of_nat times = 20 -> BACKOFF * opens t <= slept t ->
  follows (registry_allowed (RegistryRequest.encode (RegistryRequest.Reclaim locator))) noted (reclaim_final locator) t
    (reclaim_loop times locator).
Proof.
  assert (forall e t, reclaim_final locator (Err e) t) as Herr by done. revert t.
  induction times as [|times IH]; intros t Ho Hs; cbn [reclaim_loop]; awaits Herr; try done;
    (apply registry_call_follows; [done|done|cbn; lia|done|]); intros response l Hb Hd;
    (destruct response as [found| |after| | |]; cbn [reclaim_response try_]; try apply Herr; try exact Hd;
      try (case_bool_decide; cbn [try_]; [subst found; exact Hd|apply Herr])).
  apply registry_retry_wf in Hd; [|done].
  apply (registry_retry_follows _ _ after (S times) _ (fun n => reclaim_loop n locator)); [done..|]. intros d n [= <-] Hd'.
  apply IH; cbn [opens slept note]; lia.
Qed.

(** C33: However the relay answers, the calls of an endpoint to its registry are bounded and
    exact.  Allocating and reclaiming make at most 21 exchanges, the next one only after at
    least 250 milliseconds for each one before it, and at most five seconds after a retry was
    asked for; every exchange is on a stream of the registry protocol, sends the one request
    and reads the five bytes of a response and the end of the stream.  They never panic, and
    a locator is reported acquired, reclaimed, taken by another or released only if the last
    response read says so, for the locator that was asked for. *)
Theorem registry_calls_bounded (locator : Locator.t) :
  follows (registry_allowed (RegistryRequest.encode RegistryRequest.Allocate)) noted allocate_final nothing allocate_locator /\
  follows (registry_allowed (RegistryRequest.encode (RegistryRequest.Reclaim locator))) noted (reclaim_final locator) nothing
    (reclaim_locator locator) /\
  follows (registry_allowed (RegistryRequest.encode (RegistryRequest.Release locator))) noted release_final nothing
    (release_locator locator).
Proof.
  split_and!; [by apply allocate_loop_follows|by apply reclaim_loop_follows|].
  unfold release_locator. apply registry_call_follows; [done|done|cbn; lia|cbn; lia|]. intros response l Hb Hd.
  by destruct response.
Qed.

(** ** Resolving *)

Definition mode_protocol (mode : RelayAccessMode) : string :=
  match mode with Standard => RESOLVE_PROTOCOL | Enterprise => ENTERPRISE_RESOLVE_PROTOCOL end.

(** The requests of a mode for a locator. *)
Definition mode_request (mode : RelayAccessMode) (locator : Locator.t) (message : list Z) : Prop :=
  match mode with
  | Standard => message = ResolveRequest.encode (ResolveRequest.Mk locator)
  | Enterprise =>
    EnterpriseStart.encode (EnterpriseStart.Mk locator) = Ok message \/
    exists provider, message = EnterpriseSelect.encode (EnterpriseSelect.Mk provider)
  end.

Definition mode_allowed (mode : RelayAccessMode) (locator : Locator.t) (t : done_so_far) (e : ClientEffect.t) : Prop :=
  match e with
  | ClientEffect.Reconverge => authorized t = false
  | ClientEffect.Open protocol =>
    protocol = mode_protocol mode /\ authorized t = false /\ BACKOFF * opens t <= slept t <= CONTROLLER_RESOLVE_TIMEOUT
  | ClientEffect.WriteAll message => mode_request mode locator message
  | ClientEffect.Flush => True
  | ClientEffect.Shutdown => mode = Standard
  | ClientEffect.ReadExact n => mode = Enterprise /\ 0 <= n <= MAX_AUTHORIZATION_URL_LEN
  | ClientEffect.Read n => mode = Standard /\ 1 <= n <= ResolveResponse.MAX_LEN
  | ClientEffect.Sleep delay =>
    authorized t = false /\ BACKOFF <= delay /\ slept t + delay <= CONTROLLER_RESOLVE_TIMEOUT
  | ClientEffect.SelectProvider _ => mode = Enterprise /\ authorized t = false
  | ClientEffect.OpenAuthorization url =>
    mode = Enterprise /\ authorized t = false /\ valid_utf8 url /\ 1 <= zlen url <= MAX_AUTHORIZATION_URL_LEN
  end.

(** As far as the budget is concerned, nothing happened in between. *)
Definition same_budget (t t' : done_so_far) : Prop :=
  opens t' = opens t /\ slept t' = slept t /\ authorized t' = authorized t.

Section Resolving.
Context {PeerId : Type} `{PeerIdParse PeerId} (locator : Locator.t).

(** The loop that reads a bounded response. *)
Lemma read_bounded_follows (final : res error (list Z) -> done_so_far -> Prop) fuel response t :
  (forall e t, final (Err e) t) ->
  zlen response <= ResolveResponse.MAX_LEN -> ResolveResponse.MAX_LEN - zlen response < Z.of_nat fuel -> bytes response ->
  (forall l, bytes l -> final (Ok l) t) ->
  follows (mode_allowed Standard locator) noted final t (read_bounded fuel ResolveResponse.MAX_LEN response).
Proof.
  intros Herr. revert response. induction fuel as [|fuel IH]; intros response Hl Hf Hb Hk; [lia|]. cbn [read_bounded].
  destruct (Z.ltb_spec (zlen response) ResolveResponse.MAX_LEN).
  - pose proof (zlen_nonneg response). awaits Herr; [split; [done|lia]|]. destruct Ha as [Hb' Hz]. cbn [note].
    destruct (Z.eqb_spec (zlen a) 0); [by apply Hk|]. pose proof (zlen_nonneg a).
    apply IH; [rewrite zlen_app; lia..|by apply Forall_app_2|done].
  - unfold expect_end. awaits Herr; [by split|]. destruct (negb _); [apply Herr|]. by apply Hk.
Qed.

Lemma resolve_call_follows (final : res error ResolveResponse.t -> done_so_far -> Prop) t :
  (forall e t, final (Err e) t) -> authorized t = false -> BACKOFF * opens t <= slept t <= CONTROLLER_RESOLVE_TIMEOUT ->
  (forall response, ResolveResponse.wf response ->
    final (Ok response) (Done (opens t + 1) (slept t) (authorized t) (last_read t))) ->
  follows (mode_allowed Standard locator) noted final t (resolve_call (ResolveRequest.Mk locator)).
Proof.
  intros Herr Ha Hb Hk. unfold resolve_call, open_stream_timed. awaits Herr; [done|].
  apply follows_bind. unfold bounded_exchange_io, send_request. awaits Herr; [done|]. awaits Herr; [done|]. awaits Herr; [done|].
  apply read_bounded_follows; [by intros; apply Herr|done|by unfold zlen|constructor|]. intros l Hl. cbn [try_ follows].
  destruct (ResolveResponse.decode l) as [response|e|] eqn:Hd; cbn [try_ follows]; [|apply Herr|].
  - apply Hk. by apply (cc_dec_canonical _ _ _ _ resolve_response_codec_lemma l).
  - by apply (cc_dec_no_panic _ _ _ _ resolve_response_codec_lemma) in Hd.
Qed.

(** A retry within the budget. *)
Lemma retry_within_follows mode {A} (final : res error A -> done_so_far -> Prop) left after t (k : Z -> prog ClientEffect.t (res error A)) :
  (forall e t, final (Err e) t) -> RetryAfter.wf after -> authorized t = false -> slept t + left = CONTROLLER_RESOLVE_TIMEOUT ->
  (forall d, BACKOFF <= d <= left ->
    follows (mode_allowed mode locator) noted final (Done (opens t) (slept t + d) false (last_read t)) (k (left - d))) ->
  follows (mode_allowed mode locator) noted final t (retry_within left after k).
Proof.
  intros Herr Hw Ha Hs Hk. unfold retry_within. destruct (retry_delay _ _) as [d|e|] eqn:Hd; [|done..].
  apply retry_delay_range in Hd; [|done]. cbn [try_]. destruct (Z.ltb_spec left d); [apply Herr|].
  awaits Herr; [cbn; split_and!; [done|lia|lia]|]. cbn [note]. rewrite Ha. apply Hk. lia.
Qed.

Definition mode_final (mode : RelayAccessMode) (r : res error (ResolvedTarget (PeerId:=PeerId))) (t : done_so_far) : Prop :=
  match r with Ok target => target_access target = mode | Err _ => True | Panic => False end.
Definition some_peer (r : res error PeerId) (t : done_so_far) : Prop := r <> Panic.

(** Fuel for what is left of the budget. *)
Lemma attempts_left left d : BACKOFF <= d <= left -> (attempts (left - d) < attempts left)%nat.
Proof.
  unfold attempts, BACKOFF. intros Hd.
  assert ((left - d) / 250 < left / 250) by (apply Z.div_lt_upper_bound; pose proof (Z.mul_div_le left 250); pose proof (Z.mod_pos_bound left 250); pose proof (Z.div_mod left 250); lia).
  assert (0 <= (left - d) / 250) by (apply Z.div_pos; lia). lia.
Qed.

Lemma resolve_loop_follows fuel left t :
  (attempts left <= fuel)%nat -> authorized t = false -> slept t + left = CONTROLLER_RESOLVE_TIMEOUT -> 0 <= left ->
  BACKOFF * opens t <= slept t ->
  follows (mode_allowed Standard locator) noted some_peer t (resolve_loop fuel left locator).
Proof.
  assert (forall e t, some_peer (Err e) t) as Herr by done. revert left t.
  induction fuel as [|fuel IH]; intros left t Hf Ha Hs Hl Hb; [unfold attempts in Hf; lia|]. cbn [resolve_loop].
  awaits Herr; [done|]. cbn [note]. apply follows_bind, resolve_call_follows; [by intros; apply Herr|done|lia|].
  intros response Hw. cbn [try_]. destruct response as [peer|after|]; cbn [resolve_response]; [|cbn [try_]|apply Herr].
  - unfold parse_peer. by destruct (peer_from_bytes _).
  - apply retry_within_follows; [done..|]. intros d Hd. cbn [opens slept last_read]. pose proof (attempts_left left d Hd).
    apply IH; cbn [opens slept authorized]; [lia|done|lia|lia|]. unfold BACKOFF in *. lia.
Qed.
(** Reading a response costs nothing. *)
Lemma response_follows {A} (final : res error A -> done_so_far -> Prop) (k : EnterpriseResolveResponse.t -> prog ClientEffect.t (res error A)) t :
  (forall e t, final (Err e) t) ->
  (forall m t', EnterpriseResolveResponse.wf m -> same_budget t t' -> follows (mode_allowed Enterprise locator) noted final t' (k m)) ->
  follows (mode_allowed Enterprise locator) noted final t (r <- read_enterprise_response ;; response <-? r as same ;; k response).
Proof.
  intros Herr Hk. apply (read_response_follows _ _ _ (fun _ t' => same_budget t t')); [done| |done|by eauto|by intros; apply Herr].
  intros l t1 n r t2 Hs [Ha ->]. destruct r as [part|e|]; [|apply Herr|done]. by destruct Ha.
Qed.

Section Exchange.
Context (final : res error (EnterpriseAttempt (PeerId:=PeerId)) -> done_so_far -> Prop) (Herr : forall e t, final (Err e) t).

Lemma authenticate_steps_within providers t :
  authorized t = false -> (forall peer t', final (Ok (AttemptResolved peer)) t') ->
  follows (mode_allowed Enterprise locator) noted final t (authenticate_steps providers).
Proof.
  intros Ha Hk. unfold authenticate_steps, write_enterprise_step. cbn [await prog_bind follows]. split; [done|].
  intros [provider|e|] t1 [Ht1 ->]; cbn [try_]; [|apply Herr|done].
  awaits Herr; [right; by eexists|]. awaits Herr; [done|]. apply response_follows; [done|]. intros m t' Hw (Ho & Hs & Hau).
  destruct m as [| |url| | | | |]; try apply Herr. destruct (url_as_str_wf url Hw) as (s & -> & Hl & _ & Hu & _). cbn [expect try_].
  awaits Herr; [cbn; by rewrite Hau|]. apply response_follows; [done|]. intros m2 t2 _ _.
  destruct m2 as [| | |peer| | | |]; cbn [final_response try_]; try apply Herr.
  unfold parse_peer. destruct (peer_from_bytes _); cbn [ok_or fmap res_fmap try_]; [apply Hk|apply Herr].
Qed.

Lemma enterprise_exchange_follows t :
  authorized t = false -> (forall peer t', final (Ok (AttemptResolved peer)) t') ->
  (forall after t', RetryAfter.wf after -> same_budget t t' -> final (Ok (AttemptRetry after)) t') ->
  follows (mode_allowed Enterprise locator) noted final t (enterprise_exchange_io locator).
Proof.
  intros Ha Hk Hr. unfold enterprise_exchange_io. rewrite enterprise_start_encode_eq. cbn [expect try_].
  unfold write_enterprise_step. awaits Herr; [left; apply enterprise_start_encode_eq|]. awaits Herr; [done|].
  apply response_follows; [done|]. intros m t' Hw Hs. destruct m as [providers|after| | | | | |]; try apply Herr.
  - apply authenticate_steps_within; [|done]. destruct Hs as (_ & _ & ->). done.
  - by apply Hr.
Qed.
End Exchange.

Lemma enterprise_loop_follows fuel left t :
  (attempts left <= fuel)%nat -> authorized t = false -> slept t + left = CONTROLLER_RESOLVE_TIMEOUT -> 0 <= left ->
  BACKOFF * opens t <= slept t ->
  follows (mode_allowed Enterprise locator) noted some_peer t (enterprise_loop fuel left locator).
Proof.
  assert (forall e t, some_peer (Err e) t) as Herr by done. revert left t.
  induction fuel as [|fuel IH]; intros left t Hf Ha Hs Hl Hb; [unfold attempts in Hf; lia|]. cbn [enterprise_loop].
  awaits Herr; [done|]. unfold open_stream_timed. awaits Herr; [cbn; split_and!; [done|done|lia|lia]|]. cbn [note].
  apply follows_bind, enterprise_exchange_follows; [by intros; apply Herr|done|done|].
  intros after t' Hw (Ho & Hsl & Hau). cbn [opens slept authorized try_] in *.
  apply retry_within_follows; [done|done|by rewrite Hau|lia|]. intros d Hd. pose proof (attempts_left left d Hd).
  apply IH; cbn [opens slept authorized]; [lia|done|lia|lia|]. unfold BACKOFF in *. lia.
Qed.

(** C7: However the relay and the user answer, resolving a locator stays within the access
    mode and its budget.  Every stream it opens is of the protocol of the expected mode, so
    an enterprise endpoint never falls back to the standard protocol; it sends nothing but
    the request for this locator and, in enterprise mode, a selection of a provider.  All
    retries together sleep at most 30 seconds, 250 milliseconds at least before each, so at
    most 121 streams are opened and the loops end.  The user is asked to choose only before,
    and handed an authorization URL at most once: no retry follows it.  A result carries the
    mode that admitted it, and nothing panics. *)
Theorem resolve_within_mode (mode : RelayAccessMode) :
  follows (mode_allowed mode locator) noted (mode_final mode) nothing (resolve_peer_for_mode locator mode).
Proof.
  unfold resolve_peer_for_mode. apply follows_bind. eapply follows_mono.
  2: { destruct mode; [apply resolve_loop_follows|apply enterprise_loop_follows]; done. }
  by intros [peer|e|] t Hr.
Qed.
End Resolving.

(** ** The user *)

Lemma prompt_loop_repeats fuel input prompts :
  Forall (fun line => trim line <> [0x31] /\ trim line <> [0x32]) input ->
  prompt_loop fuel input prompts = (None, (prompts + fuel)%nat).
Proof.
  revert input prompts. induction fuel as [|fuel IH]; intros input prompts Hi; cbn [prompt_loop]; [by rewrite Nat.add_0_r|].
  destruct Hi as [|line input [H1 H2] Hi].
  - rewrite IH by constructor. f_equal. lia.
  - rewrite !bool_decide_eq_false_2, IH by done. f_equal. lia.
Qed.

(** The prompt for a provider does not notice the end of the input: when both are offered and
    no line chooses one, every further step writes the prompt once more, without reading. *)
Theorem provider_prompt_repeats fuel input :
  Forall (fun line => trim line <> [0x31] /\ trim line <> [0x32]) input ->
  select_provider fuel (EnterpriseProviders.Mk true true) input = (None, S fuel).
Proof. intros Hi. unfold select_provider. cbn -[prompt_loop]. by rewrite prompt_loop_repeats. Qed.

(** Text with or without white space around it is a choice. *)
Example provider_prompt_choice :
  select_provider 3 (EnterpriseProviders.Mk true true) [[0x33; 0x0A]; [0x20; 0x32; 0x0D; 0x0A]]
  = (Some (Ok EnterpriseProvider.Feishu), 2%nat).
Proof. reflexivity. Qed.
