(* ===== verification/EnterpriseDialogue.v ===== *)
(** * The two ends of an enterprise substream

    The endpoint's exchange ([RelayClient.enterprise_exchange_io]) and the relay's
    ([EnterpriseResolve.enterprise_resolve_exchange_inner]) over one byte stream in each
    direction, interleaved in any way, with reads and writes that may fail half-way, and with
    whatever the relay's owner, its clock, the browser and the user do. *)

From stdpp Require Import gmap strings.
From S2P Require Import Prelude Domain Codec WireRegistry WireEnterprise Provider Programs EnterpriseSession CallbackSession EnterpriseResolve EnterpriseFlow FlowSafety.
From S2P Require Import RelayClient EnterpriseReader.
Open Scope list_scope.
Open Scope Z_scope.
Local Notation error := RelayProtocolError.t.
Local Notation response := EnterpriseResolveResponse.t.
Local Notation enc := enterprise_response_enc.
Local Notation wf := EnterpriseResolveResponse.wf.
Local Open Scope prog_scope.

(** ** Messages as bytes *)

Definition bytes_of (m : response) : list Z := match enc m with Ok l => l | _ => [] end.
Definition wire_bytes (ms : list response) : list Z := concat (bytes_of <$> ms).

Lemma enc_bytes m : wf m -> enc m = Ok (bytes_of m).
Proof. intros Hw. unfold bytes_of. by destruct (cc_enc_total _ _ _ _ enterprise_response_codec_lemma m Hw) as (l & -> & _). Qed.

Lemma bytes_of_enc m l : enc m = Ok l -> bytes_of m = l.
Proof. unfold bytes_of. by intros ->. Qed.

Lemma wire_bytes_app ms ms' : wire_bytes (ms ++ ms') = wire_bytes ms ++ wire_bytes ms'.
Proof. unfold wire_bytes. by rewrite fmap_app, concat_app. Qed.

Lemma wire_bytes_one m : wire_bytes [m] = bytes_of m.
Proof. unfold wire_bytes. cbn. apply app_nil_r. Qed.

Lemma bytes_of_nonempty m : wf m -> bytes_of m <> [].
Proof. intros Hw Hn. pose proof (wire_framed m _ Hw (enc_bytes m Hw)) as Hf. by rewrite Hn in Hf. Qed.

(** What was heard in full was said, in that order. *)
Lemma heard_said ms said tail :
  Forall wf ms -> Forall wf said -> wire_bytes ms ++ tail `prefix_of` wire_bytes said ->
  exists rest, said = ms ++ rest /\ tail `prefix_of` wire_bytes rest.
Proof.
  intros Hms. revert said. induction Hms as [|m ms Hm Hms IH]; intros said Hs Hp; [by exists said|].
  unfold wire_bytes in Hp. cbn [fmap list_fmap concat] in Hp. rewrite <- app_assoc in Hp. destruct Hs as [|m' said Hm' Hs].
  - apply prefix_nil_inv, app_eq_nil in Hp as [Hp _]. by destruct (bytes_of_nonempty m Hm).
  - cbn [fmap list_fmap concat] in Hp.
    apply (wire_prefix_free m m') in Hp as [<- Hp]; [|done|done|by apply enc_bytes..].
    destruct (IH said Hs Hp) as (rest & -> & Ht). by exists rest.
Qed.

Lemma illegal_unsaid l said : Forall wf said -> illegal l -> l <> [] -> ~ l `prefix_of` wire_bytes said.
Proof.
  intros Hs Hi Hn Hp. destruct Hs as [|m said Hm Hs]; [by apply prefix_nil_inv in Hp|].
  unfold wire_bytes in Hp. cbn [fmap list_fmap concat] in Hp. by apply (Hi m (bytes_of m) (concat (bytes_of <$> said)) Hm (enc_bytes m Hm)).
Qed.

Lemma illegal_nonempty l : illegal l -> l <> [].
Proof. intros Hi ->. apply (Hi EnterpriseResolveResponse.Failed [0x16] []); [done|by vm_compute|]. by exists [0x16]. Qed.

(** ** The endpoint's end *)

(** What an endpoint sent and heard. *)
Record client_end := Client { asked : list Z; heard : list Z }.

(** The errors of a stream that breaks, and those of the user interface. *)
Definition stream_fault (e : error) : Prop := e = RelayProtocolError.Io \/ e = RelayProtocolError.Timeout.
Definition user_fault (e : error) : Prop := stream_fault e \/ e = RelayProtocolError.EnterpriseRejected.

Definition start_bytes (locator : Locator.t) : list Z := 0x01 :: Locator.to_wire locator.
Definition select_bytes (provider : EnterpriseProvider.t) : list Z := EnterpriseSelect.encode (EnterpriseSelect.Mk provider).

Section Client.
Context {PeerId : Type} `{PeerIdParse PeerId} (locator : Locator.t).

Definition client_allowed (t : client_end) (e : ClientEffect.t) : Prop :=
  match e with
  | ClientEffect.WriteAll m =>
    (asked t = [] /\ m = start_bytes locator) \/ (asked t = start_bytes locator /\ exists p, m = select_bytes p)
  | ClientEffect.Flush | ClientEffect.ReadExact _ | ClientEffect.SelectProvider _ | ClientEffect.OpenAuthorization _ => True
  | _ => False
  end.

(** A failing write may have sent a part, and a failing read may have taken one. *)
Definition client_after (t : client_end) (e : ClientEffect.t) : answer e -> client_end -> Prop :=
  match e with
  | ClientEffect.WriteAll m => fun r t' =>
    match r with
    | Ok _ => t' = Client (asked t ++ m) (heard t)
    | Err e => stream_fault e /\ heard t' = heard t /\ exists part, part `prefix_of` m /\ asked t' = asked t ++ part
    | Panic => False
    end
  | ClientEffect.ReadExact n => fun r t' =>
    match r with
    | Ok l => bytes l /\ zlen l = n /\ t' = Client (asked t) (heard t ++ l)
    | Err e => stream_fault e /\ exists part, t' = Client (asked t) (heard t ++ part)
    | Panic => False
    end
  | ClientEffect.SelectProvider _ => fun r t' =>
    match r with Ok _ => t' = t | Err e => user_fault e /\ heard t' = heard t /\ asked t' = asked t | Panic => False end
  | ClientEffect.OpenAuthorization _ => fun r t' =>
    match r with Ok _ => t' = t | Err e => user_fault e /\ heard t' = heard t /\ asked t' = asked t | Panic => False end
  | ClientEffect.Flush => fun r t' =>
    match r with Ok _ => t' = t | Err e => stream_fault e /\ heard t' = heard t /\ asked t' = asked t | Panic => False end
  | _ => fun _ _ => False
  end.

(** How the result of an exchange depends on the messages that were heard, and on bytes behind
    them. *)
Inductive outcome : res error (EnterpriseAttempt (PeerId:=PeerId)) -> list response -> list Z -> Prop :=
| out_fault e ms tail : user_fault e -> outcome (Err e) ms tail
| out_retry after : outcome (Ok (AttemptRetry after)) [EnterpriseResolveResponse.Retry after] []
| out_final providers url m :
    outcome (final_response m) [EnterpriseResolveResponse.Providers providers; EnterpriseResolveResponse.Authenticate url; m] []
| out_first m :
    (forall after, m <> EnterpriseResolveResponse.Retry after) -> (forall ps, m <> EnterpriseResolveResponse.Providers ps) ->
    outcome (Err RelayProtocolError.UnexpectedResponse) [m] []
| out_second providers m :
    (forall url, m <> EnterpriseResolveResponse.Authenticate url) ->
    outcome (Err RelayProtocolError.UnexpectedResponse) [EnterpriseResolveResponse.Providers providers; m] []
| out_illegal e ms l : illegal l -> outcome (Err (RelayProtocolError.Protocol e)) ms l.

Definition client_final (r : res error (EnterpriseAttempt (PeerId:=PeerId))) (t : client_end) : Prop :=
  exists ms tail, Forall wf ms /\ heard t = wire_bytes ms ++ tail /\ outcome r ms tail.

Lemma client_fault ms tail e t :
  Forall wf ms -> heard t = wire_bytes ms ++ tail -> user_fault e -> client_final (Err e) t.
Proof. intros Hm Hh He. exists ms, tail. split_and!; [done..|by constructor]. Qed.

(** Reading the next message. *)
Lemma next_message_follows ms t (k : response -> prog ClientEffect.t (res error (EnterpriseAttempt (PeerId:=PeerId)))) :
  Forall wf ms -> heard t = wire_bytes ms ->
  (forall m, wf m -> follows client_allowed client_after client_final (Client (asked t) (wire_bytes (ms ++ [m]))) (k m)) ->
  follows client_allowed client_after client_final t (r <- read_enterprise_response ;; m <-? r as RelayClient.same ;; k m).
Proof.
  intros Hms Hh Hk. apply (read_response_follows _ _ _ (fun l t' => t' = Client (asked t) (wire_bytes ms ++ l))).
  - done.
  - intros l t1 n r t2 -> Ha. cbn in Ha. destruct r as [part|e|]; [|destruct Ha as [He [part ->]]|done].
    + destruct Ha as (? & ? & ->). by rewrite app_assoc.
    + apply (client_fault ms (l ++ part)); [done|cbn; by rewrite app_assoc|by left].
  - destruct t. cbn in Hh. by rewrite Hh, app_nil_r.
  - intros m l t' -> Hw He. rewrite <- (bytes_of_enc m l He), <- wire_bytes_one, <- wire_bytes_app. by apply Hk.
  - intros e l t' -> Hi. exists ms, l. split_and!; [done..|by constructor].
Qed.

(** One await that is not a read, after the messages [ms]: its success leads on, its failure
    ends the exchange. *)
Ltac goes ms Hms :=
  cbn [await prog_bind follows]; split; [|
    let Ha := fresh "Ha" in let He := fresh "He" in let Hh := fresh "Hh" in
    intros [?|?|] ? Ha; cbn [client_after] in Ha; cbn [try_ prog_bind follows];
    [subst; cbn [asked heard]
    |destruct Ha as (He & Hh & _); apply (client_fault ms []);
      [exact Hms|rewrite Hh, app_nil_r; reflexivity|first [exact He|left; exact He]]
    |destruct Ha]].

Lemma client_end_with r ms t :
  Forall wf ms -> heard t = wire_bytes ms -> outcome r ms [] -> client_final r t.
Proof. intros Hw Hh Ho. exists ms, []. by rewrite app_nil_r. Qed.

Lemma authenticate_steps_follows providers :
  wf (EnterpriseResolveResponse.Providers providers) ->
  follows client_allowed client_after client_final
    (Client (start_bytes locator) (wire_bytes [EnterpriseResolveResponse.Providers providers])) (authenticate_steps providers).
Proof.
  intros Hw. assert (Forall wf [EnterpriseResolveResponse.Providers providers]) as H1 by (by constructor).
  unfold authenticate_steps, write_enterprise_step. goes [EnterpriseResolveResponse.Providers providers] H1; [done|].
  goes [EnterpriseResolveResponse.Providers providers] H1; [right; split; [done|by eexists]|].
  goes [EnterpriseResolveResponse.Providers providers] H1; [done|].
  apply (next_message_follows [EnterpriseResolveResponse.Providers providers]); [done..|]. intros m Hm. cbn [app asked].
  destruct m as [| |url| | | | |] eqn:Em; try (cbn [follows]; rewrite <- Em in *;
    apply (client_end_with _ [EnterpriseResolveResponse.Providers providers; m]); [by repeat constructor|reflexivity|constructor; by subst m]).
  set (ms := [_; _]). assert (Forall wf ms) as H2 by (by repeat constructor).
  destruct (url_as_str_wf url Hm) as (s & -> & _). cbn [expect try_]. goes ms H2; [done|].
  apply (next_message_follows ms); [done..|]. intros m Hm3. cbn [app asked].
  assert (forall sent, client_final (final_response m) (Client sent (wire_bytes (ms ++ [m])))) as Hf.
  { intros sent. apply (client_end_with _ (ms ++ [m])); [|reflexivity|constructor]. apply Forall_app_2; [done|by constructor]. }
  destruct (final_response m) eqn:Hfr; cbn [try_ follows]; [apply Hf|apply Hf|].
  exfalso. destruct m; try done. cbn in Hfr. unfold parse_peer in Hfr. by destruct (peer_from_bytes _).
Qed.

Lemma client_follows : follows client_allowed client_after client_final (Client [] []) (enterprise_exchange_io locator).
Proof.
  unfold enterprise_exchange_io. rewrite enterprise_start_encode_eq. cbn [expect try_]. unfold write_enterprise_step.
  assert (Forall wf []) as H0 by constructor. goes (@nil response) H0; [by left|]. goes (@nil response) H0; [done|].
  apply (next_message_follows []); [done..|]. intros m Hm. cbn [app asked].
  destruct m eqn:Em; try (cbn [follows]; rewrite <- Em in *;
    apply (client_end_with _ [m]); [by constructor|reflexivity|subst m; by constructor]). by apply authenticate_steps_follows.
Qed.
End Client.

(** ** The relay's end *)

(** What a relay read and said, and whether saying something failed. *)
Record relay_end := Relay { taken : list Z; said : list response; broken : bool }.

(** A message that ends an exchange after the URL. *)
Definition is_last (m : response) : bool :=
  match m with
  | EnterpriseResolveResponse.Resolved _ | EnterpriseResolveResponse.Unavailable
  | EnterpriseResolveResponse.Expired | EnterpriseResolveResponse.Failed => true
  | _ => false
  end.

(** The conversations of a relay. *)
Inductive conversation : list response -> Prop :=
| conv_none : conversation []
| conv_retry after : conversation [EnterpriseResolveResponse.Retry after]
| conv_providers ps : conversation [EnterpriseResolveResponse.Providers ps]
| conv_refused ps : conversation [EnterpriseResolveResponse.Providers ps; EnterpriseResolveResponse.Failed]
| conv_url ps url : conversation [EnterpriseResolveResponse.Providers ps; EnterpriseResolveResponse.Authenticate url]
| conv_last ps url m :
    is_last m = true ->
    conversation [EnterpriseResolveResponse.Providers ps; EnterpriseResolveResponse.Authenticate url; m].

(** The text of a URL is a Rust string. *)
Class UrlText `{UrlApi} : Prop := url_text u : bytes (url_as_str u) /\ valid_utf8 (url_as_str u).

Section Relay.
Context `{UrlText} `{Base64Url} {R : Type} `{SecureRandom R}.

Definition relay_allowed (t : relay_end) (e : ExchangeEffect.t) : Prop :=
  match e with
  | ExchangeEffect.WriteTimeout m => broken t = false /\ wf m /\ conversation (said t ++ [m])
  | ExchangeEffect.ReadTimeout n => taken t = [] /\ n = START_LEN
  | ExchangeEffect.ReadDeadline n _ => zlen (taken t) = START_LEN /\ n = SELECT_LEN
  | _ => True
  end.

Definition relay_after (t : relay_end) (e : ExchangeEffect.t) : answer e -> relay_end -> Prop :=
  match e with
  | ExchangeEffect.ReadTimeout n | ExchangeEffect.ReadDeadline n _ => fun r t' =>
    match r with
    | Ok l => bytes l /\ zlen l = n /\ t' = Relay (taken t ++ l) (said t) (broken t)
    | Err e => stream_result (A:=unit) (fun _ => True) (Err e) /\ exists part, t' = Relay (taken t ++ part) (said t) (broken t)
    | Panic => False
    end
  | ExchangeEffect.WriteTimeout m => fun r t' =>
    stream_result (fun _ => True) r /\ t' = Relay (taken t) (said t ++ [m]) (negb (is_ok r))
  | ExchangeEffect.AdmitStart => fun r t' => t' = t /\
    match r with
    | Ok (EnterpriseResolveAdmission.Retry after) => RetryAfter.wf after
    | Ok _ => True
    | Err e => e = ProtocolTaskError.OwnerStopped
    | Panic => False
    end
  | ExchangeEffect.ResolveTarget _ => fun r t' => t' = t /\
    match r with
    | Ok m => m = EnterpriseResolveResponse.Unavailable \/ exists p, PeerIdBytes.wf p /\ m = EnterpriseResolveResponse.Resolved p
    | Err (ProtocolTaskError.OwnerStopped | ProtocolTaskError.Registry _) => True
    | _ => False
    end
  | ExchangeEffect.Register _ _ _ => fun r t' => t' = t /\
    match r with Ok Panic => False | Ok _ => True | Err e => e = ProtocolTaskError.OwnerStopped | Panic => False end
  | ExchangeEffect.Remove _ => fun r t' => t' = t /\
    match r with Ok _ => True | Err e => e = ProtocolTaskError.OwnerStopped | Panic => False end
  | ExchangeEffect.SelectOutcome _ => fun r t' => t' = t /\
    match r with ExchangeEffect.PeerClosed r => stream_result (fun _ => True) r | _ => True end
  | ExchangeEffect.Now | ExchangeEffect.Cancel | ExchangeEffect.DropCancel => fun _ t' => t' = t
  end.

(** A request that the relay rejects. *)
Definition bad_request (l : list Z) : Prop :=
  (zlen l = START_LEN /\ exists e, EnterpriseStart.decode l = Err e) \/
  (exists s l' e, l = s ++ l' /\ zlen s = START_LEN /\ zlen l' = SELECT_LEN /\ EnterpriseSelect.decode l' = Err e).

Definition relay_final (r : EnterpriseResolve.result) (t : relay_end) : Prop :=
  forall e, r = Err (ProtocolTaskError.Protocol e) -> bad_request (taken t).

Local Notation relays := (follows relay_allowed relay_after relay_final).

Lemma stream_final r t : stream_result (fun _ : unit => True) r -> relay_final r t.
Proof. intros Hr e ->. done. Qed.

(** Saying the last thing. *)
Lemma say_last m t :
  broken t = false -> wf m -> conversation (said t ++ [m]) -> relays t (await (ExchangeEffect.WriteTimeout m)).
Proof. intros Hb Hw Hc. cbn. split; [done|]. intros r t' [Hr ->]. by apply stream_final. Qed.

Lemma withdraw_relays st k t : relays t k -> relays t (withdraw st k).
Proof.
  intros Hk. cbn. split; [done|]. intros [o|e|] t' [-> Hr]; cbn [try_]; [done| |done]. subst e. by intros e [= ].
Qed.

Section AfterUrl.
Context (ps : EnterpriseProviders.t) (url : AuthorizationUrl.t) (request : list Z).
Local Notation here := (Relay request [EnterpriseResolveResponse.Providers ps; EnterpriseResolveResponse.Authenticate url] false).

Lemma resolve_admitted_relays session : relays here (resolve_admitted session).
Proof.
  unfold resolve_admitted. cbn [await prog_bind follows]. split; [done|]. intros now t ->.
  destruct (EnterpriseResolveSession.is_expired _ _); [by apply say_last; [..|constructor]|].
  destruct (EnterpriseResolveSession.begin_resolve session) as [[[]|e|] s1]; cbn [try_]; [|by intros ? [= ]|by intros ? [= ]].
  cbn [await prog_bind follows]. split; [done|]. intros [m|e|] t [-> Hm]; cbn [try_]; [| |done].
  2: { by destruct e; intros ? [= ]. }
  assert (relays here (await (ExchangeEffect.WriteTimeout m))) as Hl.
  { destruct Hm as [->|(p & Hp & ->)]; by apply say_last; [..|constructor]. }
  assert (forall r : res TransitionError unit, relays here (try_ ProtocolTaskError.Session r (fun _ => await (ExchangeEffect.WriteTimeout m)))) as Ht.
  { intros [u|e|]; cbn [try_]; [exact Hl|by intros ? [= ]|by intros ? [= ]]. }
  apply Ht.
Qed.

Lemma conclude_relays completion : relays here (conclude completion).
Proof.
  unfold conclude. destruct completion as [c|]; cbn [fmap option_fmap option_map default]; [|by apply say_last; [..|constructor]].
  destruct (CallbackCompletion.result c); [apply resolve_admitted_relays|by apply say_last; [..|constructor]..].
Qed.
End AfterUrl.

Lemma await_callback_relays ps url request st dl :
  AuthorizationUrl.wf url ->
  relays (Relay request [EnterpriseResolveResponse.Providers ps] false) (await_callback st dl url).
Proof.
  intros Hu. unfold await_callback. cbn [await prog_bind follows]. split; [split_and!; [done|done|constructor]|].
  intros [[]|e|] t [Hr Ht]; cbn [is_ok negb taken said app] in Ht; subst t; [| |done].
  - cbn [await prog_bind follows]. split; [done|]. intros now t Ht. cbn [relay_after] in Ht. subst t.
    cbn [await prog_bind follows]. split; [done|]. intros o t [Ht Ho]. subst t.
    destruct o as [c| |r]; cbn [await prog_bind follows]; (split; [done|]); intros [] t Ht; cbn [relay_after] in Ht; subst t.
    + apply conclude_relays.
    + by apply withdraw_relays, say_last; [..|constructor].
    + apply withdraw_relays. by apply stream_final.
  - cbn [prog_bind follows]. split; [done|]. intros [] t Ht. cbn [relay_after] in Ht. subst t. apply withdraw_relays. by apply (stream_final (Err e)).
Qed.

Lemma authorization_url_wf credentials provider callback st url :
  ProviderCredentials.authorization_url credentials provider callback st = Ok url -> AuthorizationUrl.wf url.
Proof.
  unfold ProviderCredentials.authorization_url. intros Hr. apply res_bind_ok in Hr as (u & _ & Hr).
  destruct (AuthorizationUrl.new (url_as_str u)) as [x| |] eqn:Hn; [|done..]. injection Hr as ->.
  apply url_new_ok in Hn as [Hl ->]. exists (url_as_str u). destruct (url_text u). by split_and!; [lia|lia|..].
Qed.
(** An error that is not about a message. *)
Lemma other_error e t : (forall e', e <> ProtocolTaskError.Protocol e') -> relay_final (Err e) t.
Proof. intros He e' [= ->]. by destruct (He e'). Qed.

Lemma authenticate_relays me credentials callback id session provider (random : R) ps request :
  relays (Relay request [EnterpriseResolveResponse.Providers ps] false)
    (authenticate me credentials callback id session provider random).
Proof.
  unfold authenticate. destruct (EnterpriseResolveSession.select session provider random) as [[selected s1] random1].
  destruct selected as [st|e|]; cbn [try_]; [|by apply other_error|by intros ? [= ]].
  destruct (ProviderCredentials.authorization_url _ _ _ _) as [url|e|] eqn:Hu; cbn [try_]; [|by apply other_error|by intros ? [= ]].
  apply authorization_url_wf in Hu. cbn [await prog_bind follows]. split; [done|]. intros now t Ht. cbn [relay_after] in Ht. subst t.
  cbn [await prog_bind follows]. split; [done|]. intros r t [Ht Hr]. subst t.
  destruct r as [[u|e|]|e|]; cbn [try_ is_ok negb]; try done.
  - by apply await_callback_relays.
  - by apply say_last; [..|constructor].
  - subst e. by apply other_error.
Qed.

Lemma providers_wf credentials ps : ProviderCredentials.providers credentials = Ok ps -> EnterpriseProviders.wf ps.
Proof.
  unfold ProviderCredentials.providers, EnterpriseProviders.new. destruct (negb _ && negb _) eqn:Hn; [done|]. intros [= <-].
  unfold EnterpriseProviders.wf. cbn. by destruct (bool_decide _), (bool_decide _).
Qed.

(** A failed read ends the exchange. *)
Lemma read_failed e t : stream_result (A:=unit) (fun _ => True) (Err e) -> relays t (Ret (Err (EnterpriseResolve.same e))).
Proof. intros Hr. apply other_error. intros e' He. unfold EnterpriseResolve.same in He. by subst e. Qed.

Lemma relay_follows me credentials callback (random : R) :
  relays (Relay [] [] false) (enterprise_resolve_exchange_inner me credentials callback random).
Proof.
  unfold enterprise_resolve_exchange_inner. cbn [await prog_bind follows]. split; [done|].
  intros r t Hr. cbn [relay_after] in Hr. destruct r as [l|e|]; cbn [try_]; [|by apply read_failed, Hr|done].
  destruct Hr as (Hb & Hl & Ht). cbn [taken said broken app] in Ht. subst t.
  destruct (EnterpriseStart.decode l) as [start|e|] eqn:Hd; cbn [try_]; [|by intros e' _; left; eauto|by intros ? [= ]].
  cbn [await prog_bind follows]. split; [done|]. intros a t [Ht Ha]. subst t.
  destruct a as [[|after]|e|]; cbn [try_]; [|by apply say_last; [..|constructor]|subst e; by apply other_error|done].
  cbn [await prog_bind follows]. split; [done|]. intros now t Ht. cbn [relay_after] in Ht. subst t.
  destruct (try_fill random 8) as [[id|] random1]; [|by apply other_error].
  destruct (EnterpriseResolveSession.offer_providers _) as [[[]|e|] s1]; cbn [try_]; [|by apply other_error|by intros ? [= ]].
  destruct (ProviderCredentials.providers credentials) as [ps|e|] eqn:Hps; cbn [try_]; [|by apply other_error|by intros ? [= ]].
  apply providers_wf in Hps. cbn [await prog_bind follows]. split; [split_and!; [done|done|constructor]|].
  intros w t [Hw Ht]. destruct w as [[]|e|]; cbn [try_]; [|by apply read_failed|done]. cbn [is_ok negb taken said app] in Ht. subst t.
  cbn [await prog_bind follows]. split; [done|]. intros now2 t Ht. cbn [relay_after] in Ht. subst t.
  cbn [await prog_bind follows]. split; [done|]. intros r t Hr. cbn [relay_after] in Hr.
  destruct r as [l2|e|]; cbn [try_]; [|by apply read_failed, Hr|done]. destruct Hr as (Hb2 & Hl2 & Ht). cbn [taken said broken app] in Ht. subst t.
  destruct (EnterpriseSelect.decode l2) as [sel|e|] eqn:Hd2; cbn [try_]; [|intros e' _; right; by exists l, l2, e|by intros ? [= ]].
  destruct (EnterpriseProviders.contains _ _); cbn [negb]; [apply authenticate_relays|]. by apply say_last; [..|constructor].
Qed.
End Relay.

(** ** Both ends *)

Section Dialogue.
Context {PeerId : Type} `{PeerIdParse PeerId} `{UrlText} `{Base64Url} {R : Type} `{SecureRandom R}.
Context (locator : Locator.t) (Hlocator : Locator.wf locator).
Local Notation attempt := (res error (EnterpriseAttempt (PeerId:=PeerId))).

(** The two programs with what they did, and the bytes the relay has sent. *)
Record dialogue := Dialogue {
  client : prog ClientEffect.t attempt;
  client_did : client_end;
  relay : prog ExchangeEffect.t EnterpriseResolve.result;
  relay_did : relay_end;
  sent : list Z;
}.

(** What a step of the relay puts on the wire: a message, or a part of it when the write
    fails. *)
Definition puts (e : ExchangeEffect.t) : answer e -> list Z -> Prop :=
  match e with
  | ExchangeEffect.WriteTimeout m => fun r part =>
    match r with Ok _ => part = bytes_of m | _ => part `prefix_of` bytes_of m end
  | _ => fun _ part => part = []
  end.

(** Either end goes on at any time; an end reads only what the other has sent. *)
Inductive step : dialogue -> dialogue -> Prop :=
| step_client e k c rp rd wire r c' :
    client_after c e r c' -> heard c' `prefix_of` wire ->
    step (Dialogue (Vis e k) c rp rd wire) (Dialogue (k r) c' rp rd wire)
| step_relay cp c e k rd wire r rd' part :
    relay_after rd e r rd' -> taken rd' `prefix_of` asked c -> puts e r part ->
    step (Dialogue cp c (Vis e k) rd wire) (Dialogue cp c (k r) rd' (wire ++ part)).

Definition opening (me : nat) (credentials : ProviderCredentials.t) (callback : CallbackExternalUrl.t) (random : R) : dialogue :=
  Dialogue (enterprise_exchange_io locator) (Client [] []) (enterprise_resolve_exchange_inner me credentials callback random)
    (Relay [] [] false) [].

(** What the client sent is a part of a start and a selection. *)
Definition asked_ok (c : client_end) : Prop := exists p, asked c `prefix_of` start_bytes locator ++ select_bytes p.

Lemma client_asked c e r c' :
  client_allowed locator c e -> client_after c e r c' -> asked_ok c -> asked c `prefix_of` asked c' /\ asked_ok c'.
Proof.
  intros Ha Hr Hk. assert (asked c' = asked c -> asked c `prefix_of` asked c' /\ asked_ok c') as Hsame.
  { intros He. unfold asked_ok. by rewrite He. }
  destruct e; cbn [client_allowed client_after] in *; try done; destruct r as [x|err|]; try done;
    try (subst c'; by apply Hsame); try (by apply Hsame, Hr).
  - subst c'. cbn [asked]. split; [by eexists|]. unfold asked_ok. cbn [asked].
    destruct Ha as [[-> ->]|[-> [p ->]]]; [exists EnterpriseProvider.WeCom; by eexists|by exists p].
  - destruct Hr as (_ & _ & part & Hp & He). unfold asked_ok. rewrite He. split; [by eexists|].
    destruct Ha as [[-> ->]|[-> [p ->]]]; [exists EnterpriseProvider.WeCom|exists p].
    + etrans; [exact Hp|]. by eexists.
    + by apply prefix_app.
  - destruct Hr as (_ & _ & ->). by apply Hsame.
  - destruct Hr as (_ & part & ->). by apply Hsame.
Qed.

Record holds (d : dialogue) : Prop := {
  h_client : follows (client_allowed locator) client_after client_final (client_did d) (client d);
  h_relay : follows relay_allowed relay_after relay_final (relay_did d) (relay d);
  h_heard : heard (client_did d) `prefix_of` sent d;
  h_sent : sent d `prefix_of` wire_bytes (said (relay_did d));
  h_whole : broken (relay_did d) = false -> sent d = wire_bytes (said (relay_did d));
  h_taken : taken (relay_did d) `prefix_of` asked (client_did d);
  h_asked : asked_ok (client_did d);
  h_said : conversation (said (relay_did d));
  h_wf : Forall wf (said (relay_did d));
}.

Lemma opening_holds me credentials callback random : holds (opening me credentials callback random).
Proof.
  split; cbn; try done; [by apply client_follows|by apply relay_follows|by exists EnterpriseProvider.WeCom; apply prefix_nil|constructor].
Qed.

(** What the relay said and what is on the wire grow together. *)
Lemma relay_says rd e r rd' wire part :
  relay_allowed rd e -> relay_after rd e r rd' -> puts e r part ->
  wire `prefix_of` wire_bytes (said rd) -> (broken rd = false -> wire = wire_bytes (said rd)) ->
  conversation (said rd) -> Forall wf (said rd) ->
  wire ++ part `prefix_of` wire_bytes (said rd') /\ (broken rd' = false -> wire ++ part = wire_bytes (said rd')) /\
  conversation (said rd') /\ Forall wf (said rd').
Proof.
  intros Ha Hr Hp Hw Hb Hc Hf.
  assert (said rd' = said rd -> broken rd' = broken rd -> part = [] -> wire ++ part `prefix_of` wire_bytes (said rd') /\
    (broken rd' = false -> wire ++ part = wire_bytes (said rd')) /\ conversation (said rd') /\ Forall wf (said rd')) as Hsame.
  { intros -> -> ->. by rewrite app_nil_r. }
  destruct e; cbn [relay_allowed relay_after puts] in *; try (subst rd'; by apply Hsame); try (destruct Hr as [-> _]; by apply Hsame).
  - destruct r as [l|err|]; [destruct Hr as (_ & _ & ->)|destruct Hr as (_ & q & ->)|done]; by apply Hsame.
  - destruct r as [l|err|]; [destruct Hr as (_ & _ & ->)|destruct Hr as (_ & q & ->)|done]; by apply Hsame.
  - destruct Ha as (Hbr & Hwf & Hcv), Hr as [Hr ->]. cbn [said broken]. rewrite (Hb Hbr), wire_bytes_app, wire_bytes_one.
    assert (Forall wf (said rd ++ [message])) as Hf' by (apply Forall_app_2; [done|by constructor]).
    destruct r as [u|err|]; [subst part| |done]; split_and!; try done. by apply prefix_app.
Qed.

Lemma step_holds d d' : step d d' -> holds d -> holds d'.
Proof.
  intros Hs [D1 D2 D3 D4 D5 D6 D7 D8 D9]. destruct Hs as [e k c rp rd wire r c' Hr Hp|cp c e k rd wire r rd' part Hr Ht Hp];
    cbn [client client_did relay relay_did sent follows] in *.
  - destruct D1 as [Ha Hk]. destruct (client_asked _ _ _ _ Ha Hr D7) as [Hpre Hok]. split; cbn; try done; [by apply Hk|]. by etrans.
  - destruct D2 as [Ha Hk]. destruct (relay_says _ _ _ _ _ _ Ha Hr Hp D4 D5 D8 D9) as (? & ? & ? & ?).
    split; cbn; try done; [by apply Hk|]. etrans; [done|]. by eexists.
Qed.

Lemma reachable_holds d d' : rtc step d d' -> holds d -> holds d'.
Proof. induction 1 as [|d1 d2 d3 Hs _ IH]; [done|]. intros Hh. by apply IH, (step_holds d1). Qed.

(** What the client heard in full is what the relay said. *)
Lemma outcome_said d r :
  holds d -> client d = Ret r ->
  exists ms rest tail, said (relay_did d) = ms ++ rest /\ outcome r ms tail /\ tail `prefix_of` wire_bytes rest /\ Forall wf rest.
Proof.
  intros Hh Hr. pose proof (h_client _ Hh) as Hc. rewrite Hr in Hc. destruct Hc as (ms & tail & Hw & He & Ho).
  destruct (heard_said ms (said (relay_did d)) tail Hw (h_wf _ Hh)) as (rest & Hs & Ht).
  { rewrite <- He. etrans; [apply (h_heard _ Hh)|apply (h_sent _ Hh)]. }
  exists ms, rest, tail. split_and!; [done..|]. pose proof (h_wf _ Hh) as Hf. rewrite Hs in Hf. by apply Forall_app in Hf as [_ ?].
Qed.

(** The relay reads what the client wrote. *)
Lemma no_bad_request c l : asked_ok c -> l `prefix_of` asked c -> ~ bad_request l.
Proof.
  intros [p Ha] Hl. assert (l `prefix_of` start_bytes locator ++ select_bytes p) as [x Hx] by (by etrans).
  assert (zlen (start_bytes locator) = START_LEN) as Hsl by done.
  intros [[Hz [e He]]|(s & l' & e & -> & Hz & Hz' & He)].
  - apply app_inj_1 in Hx as [<- _]; [|unfold zlen in *; lia].
    pose proof (cc_dec_enc _ _ _ _ enterprise_start_codec_lemma (EnterpriseStart.Mk locator) _ Hlocator (enterprise_start_encode_eq locator)) as Hd.
    unfold start_bytes in He. rewrite Hd in He. done.
  - rewrite <- app_assoc in Hx. apply app_inj_1 in Hx as [_ Hx]; [|unfold zlen in *; lia].
    assert (select_bytes p ++ [] = l' ++ x) as Hx' by (by rewrite app_nil_r).
    apply app_inj_1 in Hx' as [<- _]; [|unfold zlen in Hz'; change SELECT_LEN with 2 in Hz'; unfold select_bytes, EnterpriseSelect.encode; cbn; lia].
    unfold select_bytes in He.
    rewrite (cc_dec_enc _ _ _ _ enterprise_select_codec_lemma (EnterpriseSelect.Mk p) _ I eq_refl) in He. done.
Qed.

Local Notation Providers := EnterpriseResolveResponse.Providers.
Local Notation Authenticate := EnterpriseResolveResponse.Authenticate.

(** What the relay has said when the client returned a result. *)
Definition explains (r : attempt) (l : list response) : Prop :=
  match r with
  | Ok (AttemptRetry after) => l = [EnterpriseResolveResponse.Retry after]
  | Ok (AttemptResolved peer) => exists ps url id,
      l = [Providers ps; Authenticate url; EnterpriseResolveResponse.Resolved id] /\
      peer_from_bytes (PeerIdBytes.as_bytes id) = Some peer
  | Err RelayProtocolError.InvalidPeerId => exists ps url id,
      l = [Providers ps; Authenticate url; EnterpriseResolveResponse.Resolved id] /\
      peer_from_bytes (PeerIdBytes.as_bytes id) = None
  | Err RelayProtocolError.Unavailable => exists ps url, l = [Providers ps; Authenticate url; EnterpriseResolveResponse.Unavailable]
  | Err RelayProtocolError.EnterpriseExpired => exists ps url, l = [Providers ps; Authenticate url; EnterpriseResolveResponse.Expired]
  | Err RelayProtocolError.UnexpectedResponse => exists ps, l = [Providers ps; EnterpriseResolveResponse.Failed]
  | Err RelayProtocolError.Io | Err RelayProtocolError.Timeout | Err RelayProtocolError.EnterpriseRejected => True
  | Err _ | Panic => False
  end.

Lemma outcome_explains r ms tail rest :
  outcome r ms tail -> conversation (ms ++ rest) -> tail `prefix_of` wire_bytes rest -> Forall wf rest -> explains r (ms ++ rest).
Proof.
  intros Ho Hc Ht Hw. destruct Ho as [e ms tail [[->| ->]| ->]|after|ps url m|m Hm1 Hm2|ps m Hm|e ms l Hi]; cbn [explains]; try done.
  - by inversion Hc.
  - inversion Hc as [| | | | |? ? ? Hl]; subst. destruct m; try discriminate Hl; cbn [final_response explains]; eauto.
    unfold parse_peer. destruct (peer_from_bytes _) eqn:Hp; cbn; eauto 6.
  - inversion Hc; subst; exfalso; [by eapply Hm1|by eapply Hm2..].
  - inversion Hc; subst; [by exists ps|exfalso; by eapply Hm..].
  - by destruct (illegal_unsaid l rest Hw Hi (illegal_nonempty l Hi)).
Qed.

(** C6: The endpoint and the relay speak the same protocol.  Over every interleaving of the
    two programs on an enterprise substream, with reads and writes that fail or stop half-way,
    and whatever the relay's owner, the browser and the user do: the relay never rejects a
    message of the endpoint, the endpoint never rejects one of the relay as malformed, and
    what the endpoint returns is what the relay said, in full and last: a retry, a target
    after the offer and the URL, that the target is unavailable or the session expired.  The
    one answer of the relay that the endpoint does not expect is a refusal right after the
    selection, which it reports as an unexpected response. *)
Theorem enterprise_dialogue (me : nat) (credentials : ProviderCredentials.t) (callback : CallbackExternalUrl.t) (random : R) d :
  rtc step (opening me credentials callback random) d ->
  (forall r, client d = Ret r -> explains r (said (relay_did d))) /\
  (forall e, relay d <> Ret (Err (ProtocolTaskError.Protocol e))) /\
  conversation (said (relay_did d)).
Proof.
  intros Hr. apply reachable_holds in Hr; [|apply opening_holds]. split_and!; [| |apply (h_said _ Hr)].
  - intros r Hc. destruct (outcome_said d r Hr Hc) as (ms & rest & tail & Hs & Ho & Ht & Hw). rewrite Hs.
    apply (outcome_explains r ms tail); [done| |done..]. rewrite <- Hs. apply (h_said _ Hr).
  - intros e He. pose proof (h_relay _ Hr) as Hf. rewrite He in Hf.
    apply (no_bad_request (client_did d) (taken (relay_did d)) (h_asked _ Hr) (h_taken _ Hr)), (Hf e eq_refl).
Qed.
End Dialogue.
