(* ===== verification/DialogueExample.v ===== *)
(** * An enterprise substream from start to target

    A scheduler for [EnterpriseDialogue], and the run in which an endpoint chooses a provider,
    is authenticated and receives its target. *)

From stdpp Require Import gmap strings.
From S2P Require Import Prelude Domain Codec Code WireRegistry WireEnterprise Provider Programs EnterpriseSession CallbackSession EnterpriseResolve EnterpriseFlow FlowSafety.
From S2P Require Import RelayClient EnterpriseReader EnterpriseDialogue.
Open Scope list_scope.
Open Scope Z_scope.

(** ** Playing moves *)

(** The client's turn, or the relay's with what its environment answers. *)
Inductive turn :=
| ClientTurn
| RelayTurn
| RelayTime (now : MonotonicTime.t)
| RelayOutcome (c : CallbackCompletion.t)
| RelayTarget (id : list Z).

(** The next bytes of a stream. *)
Definition next_bytes (n : Z) (stream done : list Z) : option (list Z) :=
  let l := take (Z.to_nat n) (drop (length done) stream) in
  if (zlen l =? n) && bool_decide (bytes l) then Some l else None.

Definition play_client (e : ClientEffect.t) (c : client_end) (wire : list Z) : option (answer e * client_end) :=
  match e with
  | ClientEffect.WriteAll m => Some (Ok tt, Client (asked c ++ m) (heard c))
  | ClientEffect.ReadExact n => (fun l => (Ok l, Client (asked c) (heard c ++ l))) <$> next_bytes n wire (heard c)
  | ClientEffect.SelectProvider ps => Some (Ok EnterpriseProvider.WeCom, c)
  | ClientEffect.Flush | ClientEffect.OpenAuthorization _ => Some (Ok tt, c)
  | _ => None
  end.

Definition play_relay (e : ExchangeEffect.t) (i : turn) (rd : relay_end) (stream : list Z) : option (answer e * relay_end * list Z) :=
  match e, i with
  | ExchangeEffect.ReadTimeout n, RelayTurn | ExchangeEffect.ReadDeadline n _, RelayTurn =>
    (fun l => (Ok l, Relay (taken rd ++ l) (said rd) (broken rd), [])) <$> next_bytes n stream (taken rd)
  | ExchangeEffect.WriteTimeout m, RelayTurn => Some (Ok tt, Relay (taken rd) (said rd ++ [m]) false, bytes_of m)
  | ExchangeEffect.Now, RelayTime now => Some (now, rd, [])
  | ExchangeEffect.AdmitStart, RelayTurn => Some (Ok EnterpriseResolveAdmission.AdmittedStart, rd, [])
  | ExchangeEffect.ResolveTarget _, RelayTarget id =>
    match PeerIdBytes.new id with
    | Ok p => if bool_decide (bytes id) then Some (Ok (EnterpriseResolveResponse.Resolved p), rd, []) else None
    | _ => None
    end
  | ExchangeEffect.Register _ _ _, RelayTurn => Some (Ok (Ok tt), rd, [])
  | ExchangeEffect.Cancel, RelayTurn | ExchangeEffect.DropCancel, RelayTurn => Some (tt, rd, [])
  | ExchangeEffect.SelectOutcome _, RelayOutcome c => Some (ExchangeEffect.OutcomeReceived (Some c), rd, [])
  | _, _ => None
  end.

Section Play.
Context {PeerId : Type} `{PeerIdParse PeerId}.
Local Notation dialogue := (dialogue (PeerId:=PeerId)).

Definition play (d : dialogue) (i : turn) : option dialogue :=
  match i, client d, relay d with
  | ClientTurn, Vis e k, rp =>
    '(r, c) ← play_client e (client_did d) (sent d);
    if bool_decide (heard c `prefix_of` sent d) then Some (Dialogue (k r) c rp (relay_did d) (sent d)) else None
  | ClientTurn, _, _ => None
  | i, cp, Vis e k =>
    '(r, rd, part) ← play_relay e i (relay_did d) (asked (client_did d));
    if bool_decide (taken rd `prefix_of` asked (client_did d))
    then Some (Dialogue cp (client_did d) (k r) rd (sent d ++ part)) else None
  | _, _, _ => None
  end.

Fixpoint play_all (d : dialogue) (turns : list turn) : option dialogue :=
  match turns with [] => Some d | i :: turns => d ← play d i; play_all d turns end.

Lemma next_bytes_ok n stream done l : next_bytes n stream done = Some l -> bytes l /\ zlen l = n.
Proof.
  unfold next_bytes. cbv zeta. destruct (_ && _) eqn:Hc; [|done]. intros [= <-].
  by apply andb_prop in Hc as [Hz%Z.eqb_eq Hb%bool_decide_eq_true_1].
Qed.

Lemma play_client_after e c wire r c' : play_client e c wire = Some (r, c') -> client_after c e r c'.
Proof.
  destruct e; cbn [play_client]; try done; try (by intros [= <- <-]).
  destruct (next_bytes _ _ _) as [l|] eqn:Hn; [|done]. intros [= <- <-]. by apply next_bytes_ok in Hn as (? & ?).
Qed.

Lemma play_relay_after e i rd stream r rd' part :
  play_relay e i rd stream = Some (r, rd', part) -> relay_after rd e r rd' /\ puts e r part.
Proof.
  destruct e, i; cbn [play_relay]; try done; try (by intros [= <- <- <-]).
  - destruct (next_bytes _ _ _) as [l|] eqn:Hn; [|done]. intros [= <- <- <-]. by apply next_bytes_ok in Hn as (? & ?).
  - destruct (next_bytes _ _ _) as [l|] eqn:Hn; [|done]. intros [= <- <- <-]. by apply next_bytes_ok in Hn as (? & ?).
  - destruct (PeerIdBytes.new id) as [p| |] eqn:Hp; [|done..]. case_bool_decide as Hb; [|done]. intros [= <- <- <-].
    split; [|done]. split; [done|]. right. exists p. split; [|done]. by eapply peer_id_new_wf.
Qed.

Lemma play_turn d i d' : play d i = Some d' -> step d d'.
Proof.
  destruct d as [cp c rp rd wire]. unfold play. cbn [client relay client_did relay_did sent].
  assert (forall e k i, ('(r, rd', part) ← play_relay e i rd (asked c);
    if bool_decide (taken rd' `prefix_of` asked c) then Some (Dialogue cp c (k r) rd' (wire ++ part)) else None) = Some d' ->
    step (Dialogue cp c (Vis e k) rd wire) d') as Hrelay.
  { intros e k j. destruct (play_relay e j rd (asked c)) as [[[r rd'] part]|] eqn:Hp; [|done]. cbn [mbind option_bind].
    case_bool_decide as Ht; [|done]. intros [= <-]. apply play_relay_after in Hp as [Ha Hputs]. by econstructor. }
  destruct i; [|destruct rp as [?|e k]; [by destruct cp|destruct cp; exact (Hrelay e k _)]..].
  destruct cp as [?|e k]; [done|]. destruct (play_client e c wire) as [[r c']|] eqn:Hp; [|done]. cbn [mbind option_bind].
  case_bool_decide as Hh; [|done]. intros [= <-]. apply play_client_after in Hp. by econstructor.
Qed.

Lemma play_steps d turns d' : play_all d turns = Some d' -> rtc step d d'.
Proof.
  revert d. induction turns as [|i turns IH]; intros d; cbn [play_all]; [by intros [= <-]|].
  destruct (play d i) as [d1|] eqn:Hp; [|done]. cbn [mbind option_bind]. intros Hall. eapply rtc_l; [by apply play_turn in Hp|by apply IH].
Qed.
End Play.

(** ** The run *)

Section Example.
#[local] Instance text_url : UrlApi := {|
  Url := list Z; url_parse := Some; url_scheme _ := str "https"%string; url_username _ := [];
  url_password _ := None; url_port _ := None; url_host _ := None; url_path _ := [];
  url_query _ := None; url_fragment _ := None; url_set_path u p := u ++ p;
  url_append_pairs u pairs := u ++ mjoin ((fun p => p.1 ++ p.2) <$> pairs);
  url_as_str u := if bool_decide (bytes u) then default [] (from_utf8 u) else [] |}.
#[local] Instance text_url_text : UrlText.
Proof.
  intros u. cbn. case_bool_decide as Hb; [|by split; [constructor|eexists]].
  destruct (from_utf8 u) as [l|] eqn:Hu; cbn; [|by split; [constructor|eexists]]. by apply from_utf8_some in Hu as [-> Hv].
Qed.
#[local] Existing Instance reference_base64.
#[local] Instance example_peers : PeerIdParse (list Z) := fun l => if zlen l =? 3 then Some l else None.

Definition dialogue_callback : CallbackExternalUrl.t := CallbackExternalUrl.Mk (str "https://r.example"%string).
Definition dialogue_credentials : ProviderCredentials.t :=
  ProviderCredentials.Mk
    (Some (WeComCredentials.Mk (SecretText.Mk (str "corp"%string)) 7 (SecretText.Mk (str "secret"%string))))
    None dialogue_callback.
Definition second (n : Z) : MonotonicTime.t := MonotonicTime.Mk (from_secs n).
Definition admitted_session : EnterpriseResolveSession.t :=
  EnterpriseResolveSession.Mk 0 (Locator.Mk 5) (second 600) Phase.Authenticated (Some EnterpriseProvider.WeCom) None None None.

Definition dialogue_start : dialogue (PeerId:=list Z) :=
  opening (Locator.Mk 5) 0 dialogue_credentials dialogue_callback (Some 0x2A : FixedRandom).

Definition dialogue_turns : list turn :=
  [ClientTurn; ClientTurn; RelayTurn; RelayTurn; RelayTime (second 1); RelayTurn; RelayTime (second 2);
   ClientTurn; ClientTurn; ClientTurn; ClientTurn; ClientTurn; RelayTurn; RelayTime (second 3); RelayTurn; RelayTurn;
   RelayTime (second 4); ClientTurn; ClientTurn; ClientTurn; ClientTurn;
   RelayOutcome (CallbackCompletion.Mk CallbackResult.CallbackAdmitted admitted_session); RelayTurn; RelayTime (second 5);
   RelayTarget [1; 2; 3]; RelayTurn; ClientTurn; ClientTurn; ClientTurn].

Definition dialogue_end : dialogue := default dialogue_start (play_all dialogue_start dialogue_turns).

(** Whether the moves could all be played, and what the client returned. *)
Lemma dialogue_played :
  is_Some (play_all dialogue_start dialogue_turns) /\ client dialogue_end = Ret (Ok (AttemptResolved [1; 2; 3])).
Proof. split; [eexists|]; vm_compute; reflexivity. Qed.

Lemma dialogue_reached : rtc step dialogue_start dialogue_end.
Proof.
  destruct dialogue_played as [[d Hd] _]. unfold dialogue_end. rewrite Hd. by apply play_steps in Hd.
Qed.

Lemma enterprise_dialogue_witness :
  exists ps url id, said (relay_did dialogue_end) =
      [EnterpriseResolveResponse.Providers ps; EnterpriseResolveResponse.Authenticate url; EnterpriseResolveResponse.Resolved id] /\
    peer_from_bytes (PeerIdBytes.as_bytes id) = Some [1; 2; 3].
Proof.
  apply (proj1 (enterprise_dialogue (Locator.Mk 5) ltac:(split; by vm_compute) 0 dialogue_credentials dialogue_callback
    (Some 0x2A : FixedRandom) dialogue_end dialogue_reached) (Ok (AttemptResolved [1; 2; 3])) (proj2 dialogue_played)).
Defined.
End Example.
