(* ===== verification/Utf8.v ===== *)
(** UTF-8 texts, one character at a time.

    The standard library's validator ([core::str::from_utf8] with the
    [valid_up_to] and [error_len] of its error) and the replacement decoding it
    documents for [String::from_utf8_lossy], with the lemmas that cut a text into
    characters.  The terminal output adapter ([TerminalOutput]) and the path prompt
    ([PathPrompt]) decode a stream of bytes whose characters may be split over
    several reads; what they are compared with is defined here. *)

From S2P Require Import Prelude.

(** What the validator sees at the head of a non-empty text: a character of [n]
    bytes, an invalid sequence of [n] bytes, or a text that ends inside a
    character. *)
Inductive utf8_head : Type :=
| HChar (n : nat)
| HInvalid (n : nat)
| HIncomplete.

Definition utf8_next (b0 : Z) (l0 : list Z) : utf8_head :=
  if b0 <? 0x80 then HChar 1
  else if (0xC2 <=? b0) && (b0 <=? 0xDF) then
    match l0 with
    | [] => HIncomplete
    | b1 :: _ => if is_cont b1 then HChar 2 else HInvalid 1
    end
  else if (0xE0 <=? b0) && (b0 <=? 0xEF) then
    match l0 with
    | [] => HIncomplete
    | b1 :: l1 =>
      if utf8_second_of_three b0 b1 then
        match l1 with
        | [] => HIncomplete
        | b2 :: _ => if is_cont b2 then HChar 3 else HInvalid 2
        end
      else HInvalid 1
    end
  else if (0xF0 <=? b0) && (b0 <=? 0xF4) then
    match l0 with
    | [] => HIncomplete
    | b1 :: l1 =>
      if utf8_second_of_four b0 b1 then
        match l1 with
        | [] => HIncomplete
        | b2 :: l2 =>
          if is_cont b2 then
            match l2 with
            | [] => HIncomplete
            | b3 :: _ => if is_cont b3 then HChar 4 else HInvalid 3
            end
          else HInvalid 2
        end
      else HInvalid 1
    end
  else HInvalid 1.

(** [Utf8Error]: [valid_up_to] and [error_len]; [None] is a valid text. *)
Fixpoint utf8_run (fuel : nat) (l : list Z) (pos : Z) : option (Z * option Z) :=
  match fuel, l with
  | _, [] | O, _ => None
  | S fuel', b0 :: l0 =>
    match utf8_next b0 l0 with
    | HChar n => utf8_run fuel' (drop n l) (pos + Z.of_nat n)
    | HInvalid n => Some (pos, Some (Z.of_nat n))
    | HIncomplete => Some (pos, None)
    end
  end.

Definition utf8_error (l : list Z) : option (Z * option Z) := utf8_run (length l) l 0.

(** U+FFFD. *)
Definition UTF8_REPLACEMENT : list Z := [0xEF; 0xBF; 0xBD].

(** The replacement decoding: the text with every invalid sequence replaced, and
    the incomplete character it ends in. *)
Fixpoint decode_run (fuel : nat) (l : list Z) : list Z * list Z :=
  match fuel, l with
  | _, [] | O, _ => ([], [])
  | S fuel', b0 :: l0 =>
    match utf8_next b0 l0 with
    | HChar n => let '(out, rest) := decode_run fuel' (drop n l) in (take n l ++ out, rest)
    | HInvalid n => let '(out, rest) := decode_run fuel' (drop n l) in (UTF8_REPLACEMENT ++ out, rest)
    | HIncomplete => ([], l)
    end
  end.

Definition utf8_decode (l : list Z) : list Z * list Z := decode_run (length l) l.

(** [String::from_utf8_lossy]. *)
Definition from_utf8_lossy (l : list Z) : list Z :=
  (utf8_decode l).1 ++ match (utf8_decode l).2 with [] => [] | _ => UTF8_REPLACEMENT end.

(** ** The head of a text *)

Ltac head_cases :=
  unfold utf8_next in *;
  repeat match goal with
  | H : context [if ?b then _ else _] |- _ => destruct b eqn:?
  | |- context [if ?b then _ else _] => destruct b eqn:?
  | H : context [match ?l with [] => _ | _ :: _ => _ end] |- _ => is_var l; destruct l
  | |- context [match ?l with [] => _ | _ :: _ => _ end] => is_var l; destruct l
  end.

(** A decided head does not depend on what follows. *)
Lemma utf8_next_app b0 l0 m :
  utf8_next b0 l0 <> HIncomplete -> utf8_next b0 (l0 ++ m) = utf8_next b0 l0.
Proof.
  intros H. head_cases; simpl in *; try done;
    repeat match goal with E : ?x = _ |- context [?x] => rewrite E end; done.
Qed.

Lemma utf8_next_char b0 l0 n :
  utf8_next b0 l0 = HChar n -> (1 <= n <= 4)%nat /\ (n <= S (length l0))%nat.
Proof. intros H. head_cases; simplify_eq; simpl; lia. Qed.

Lemma utf8_next_invalid b0 l0 n :
  utf8_next b0 l0 = HInvalid n -> (1 <= n <= 3)%nat /\ (n <= length l0 \/ n = 1)%nat.
Proof. intros H. head_cases; simplify_eq; simpl; lia. Qed.

Lemma utf8_next_incomplete b0 l0 : utf8_next b0 l0 = HIncomplete -> (length l0 <= 2)%nat.
Proof. intros H. head_cases; simplify_eq; simpl; lia. Qed.

(** One more byte either completes a character, extends it or makes the bytes
    before it invalid. *)
Lemma utf8_next_snoc b0 l0 x :
  utf8_next b0 l0 = HIncomplete ->
  utf8_next b0 (l0 ++ [x]) = HChar (S (S (length l0))) \/
  utf8_next b0 (l0 ++ [x]) = HIncomplete \/
  utf8_next b0 (l0 ++ [x]) = HInvalid (S (length l0)).
Proof.
  intros H. head_cases; simplify_eq; simpl in *;
    repeat match goal with E : ?x = _ |- context [?x] => rewrite E end;
    repeat match goal with |- context [if ?b then _ else _] => destruct b eqn:? end;
    simpl; auto.
Qed.

(** A character or an invalid sequence is not empty: what is left is shorter. *)
Lemma utf8_next_progress b0 l0 n :
  utf8_next b0 l0 = HChar n \/ utf8_next b0 l0 = HInvalid n ->
  (length (drop n (b0 :: l0)) <= length l0)%nat.
Proof.
  rewrite length_drop. simpl.
  intros [H%utf8_next_char|H%utf8_next_invalid]; lia.
Qed.

(** ** The equations of the loops *)

Lemma utf8_run_fuel k l : (length l <= k)%nat -> forall k' pos,
  (length l <= k')%nat -> utf8_run k l pos = utf8_run k' l pos.
Proof.
  revert l; induction k as [|k IH]; intros [|b0 l0] Hk [|k'] pos Hk'; simpl in *; try done; try lia.
  destruct (utf8_next b0 l0) eqn:E; [|done..].
  pose proof (utf8_next_progress b0 l0 n (or_introl E)). simpl in *; apply IH; lia.
Qed.

Lemma utf8_run_pos k l pos :
  utf8_run k l pos = (fun '(v, e) => (pos + v, e)) <$> utf8_run k l 0.
Proof.
  revert l pos; induction k as [|k IH]; intros [|b0 l0] pos; simpl; [done..|].
  destruct (utf8_next b0 l0); simpl; [|by rewrite Z.add_0_r..].
  rewrite (IH _ (pos + _)), (IH _ (Z.of_nat n)). destruct (utf8_run k _ 0) as [[v e]|]; [|done].
  simpl. do 2 f_equal. lia.
Qed.

Lemma utf8_error_cons b0 l0 :
  utf8_error (b0 :: l0) =
  match utf8_next b0 l0 with
  | HChar n => (fun '(v, e) => (Z.of_nat n + v, e)) <$> utf8_error (drop n (b0 :: l0))
  | HInvalid n => Some (0, Some (Z.of_nat n))
  | HIncomplete => Some (0, None)
  end.
Proof.
  unfold utf8_error. simpl utf8_run at 1. destruct (utf8_next b0 l0) eqn:E; [|done..].
  rewrite utf8_run_pos. f_equal. apply utf8_run_fuel; [|done].
  apply (utf8_next_progress b0 l0 n (or_introl E)).
Qed.

Lemma decode_run_fuel k l : (length l <= k)%nat -> forall k',
  (length l <= k')%nat -> decode_run k l = decode_run k' l.
Proof.
  revert l; induction k as [|k IH]; intros [|b0 l0] Hk [|k'] Hk'; simpl in *; try done; try lia.
  destruct (utf8_next b0 l0) eqn:E; [..|done].
  - pose proof (utf8_next_progress b0 l0 n (or_introl E)). by rewrite (IH (drop n (b0 :: l0)) ltac:(lia) k' ltac:(lia)).
  - pose proof (utf8_next_progress b0 l0 n (or_intror E)). by rewrite (IH (drop n (b0 :: l0)) ltac:(lia) k' ltac:(lia)).
Qed.

Lemma utf8_decode_cons b0 l0 :
  utf8_decode (b0 :: l0) =
  match utf8_next b0 l0 with
  | HChar n => (take n (b0 :: l0) ++ (utf8_decode (drop n (b0 :: l0))).1,
                (utf8_decode (drop n (b0 :: l0))).2)
  | HInvalid n => (UTF8_REPLACEMENT ++ (utf8_decode (drop n (b0 :: l0))).1,
                   (utf8_decode (drop n (b0 :: l0))).2)
  | HIncomplete => ([], b0 :: l0)
  end.
Proof.
  unfold utf8_decode. simpl decode_run at 1. destruct (utf8_next b0 l0) eqn:E; [..|done].
  - pose proof (utf8_next_progress b0 l0 n (or_introl E)).
    rewrite (decode_run_fuel (length l0) (drop n (b0 :: l0)) H _ (Nat.le_refl _)). by destruct (decode_run _ _).
  - pose proof (utf8_next_progress b0 l0 n (or_intror E)).
    rewrite (decode_run_fuel (length l0) (drop n (b0 :: l0)) H _ (Nat.le_refl _)). by destruct (decode_run _ _).
Qed.

Lemma utf8_decode_nil : utf8_decode [] = ([], []).
Proof. done. Qed.

(** Induction on a text, one head at a time. *)
Lemma utf8_ind (P : list Z -> Prop) :
  P [] ->
  (forall b0 l0,
     (forall n, utf8_next b0 l0 = HChar n \/ utf8_next b0 l0 = HInvalid n -> P (drop n (b0 :: l0))) ->
     P (b0 :: l0)) ->
  forall l, P l.
Proof.
  intros Hn Hc l. remember (length l) as k eqn:Hk. assert (length l <= k)%nat as Hl by lia. clear Hk.
  revert l Hl; induction k as [|k IH]; intros [|b0 l0] Hl; simpl in Hl; try done; try lia.
  apply Hc. intros n H%utf8_next_progress. apply IH. lia.
Qed.

(** ** Valid texts *)

Lemma valid_utf8_cons b0 l0 :
  valid_utf8 (b0 :: l0) <->
  exists n, utf8_next b0 l0 = HChar n /\ valid_utf8 (drop n (b0 :: l0)).
Proof.
  unfold valid_utf8, utf8_next. simpl utf8_chars.
  repeat match goal with
  | |- context [if ?b then _ else _] => destruct b eqn:?
  | |- context [match ?l with [] => _ | _ :: _ => _ end] => is_var l; destruct l
  end; try (split; [intros [? ?]; done | intros (? & ? & ?); done]);
  repeat match goal with H : _ && _ = _ |- _ => apply andb_prop in H as [? ?] end;
  repeat match goal with H : _ && _ = false |- _ => apply andb_false_iff in H end;
  try (split; [intros Hs; eexists; split; [done|]; simpl; by apply fmap_is_Some in Hs
              |intros (n & [= <-] & Hs); simpl in Hs; by apply fmap_is_Some]);
  try (split; [intros [? ?]; done|intros (? & ? & ?)]; intuition congruence).
Qed.

Lemma utf8_error_valid l : utf8_error l = None <-> valid_utf8 l.
Proof.
  induction l as [|b0 l0 IH] using utf8_ind; [split; [by eexists|done]|].
  rewrite utf8_error_cons, valid_utf8_cons. destruct (utf8_next b0 l0) eqn:E.
  - specialize (IH n (or_introl eq_refl)). rewrite fmap_None, IH. naive_solver.
  - naive_solver.
  - naive_solver.
Qed.

(** A text cut after a valid part. *)
Lemma utf8_chars_app a b ca :
  utf8_chars a = Some ca -> utf8_chars (a ++ b) = app ca <$> utf8_chars b.
Proof.
  assert (forall (c : Z) (f : list Z) (o : option (list Z)),
    cons c <$> (app f <$> o) = app (c :: f) <$> o) as Hf by (by intros ? ? []).
  revert ca. induction a as [|b0 l0 IH] using utf8_ind; intros ca Ha.
  { injection Ha as <-. simpl. by destruct (utf8_chars b). }
  assert (is_Some (utf8_chars (b0 :: l0))) as (n & Hn & _)%valid_utf8_cons by (by eexists).
  specialize (IH n (or_introl Hn)). revert Ha Hn IH. unfold utf8_next. simpl utf8_chars.
  repeat match goal with
  | |- context [if ?b then _ else _] => destruct b eqn:?
  | |- context [match ?l with [] => _ | _ :: _ => _ end] => is_var l; destruct l
  end; intros Ha [= <-]; simpl drop; simpl app; intros IH;
  do 4 (simpl; try match goal with |- context [if ?b then _ else _] => destruct b eqn:? end);
  rewrite ?drop_0 in IH; try congruence;
  try (apply fmap_Some in Ha as (c & Hc & ->); rewrite (IH c Hc); apply Hf);
  repeat match goal with H : _ && _ = true |- _ => apply andb_prop in H as [? ?] end; congruence.
Qed.

Lemma valid_utf8_app a b : valid_utf8 a -> valid_utf8 (a ++ b) <-> valid_utf8 b.
Proof.
  intros [ca Ha]. unfold valid_utf8. rewrite (utf8_chars_app a b ca Ha). apply fmap_is_Some.
Qed.

(** One character. *)
Definition is_char (s : list Z) : Prop :=
  match s with [] => False | b0 :: l0 => utf8_next b0 l0 = HChar (length s) end.

Lemma is_char_valid s : is_char s -> valid_utf8 s.
Proof.
  destruct s as [|b0 l0]; [done|]. intros H. apply valid_utf8_cons. eexists; split; [exact H|].
  rewrite drop_all. by eexists.
Qed.

Lemma utf8_next_take b0 l0 n :
  utf8_next b0 l0 = HChar n -> is_char (take n (b0 :: l0)).
Proof.
  intros H. pose proof (utf8_next_char b0 l0 n H) as [? ?].
  destruct n as [|n]; [lia|]. simpl. rewrite length_take, Nat.min_l by lia.
  revert H. head_cases; intros [= <-]; simpl;
    repeat match goal with E : ?x = _ |- context [?x] => rewrite E end; done.
Qed.

(** A non-empty valid text starts with a character, and its rest is valid. *)
Lemma valid_utf8_uncons l :
  valid_utf8 l -> l <> [] -> exists s r, l = s ++ r /\ is_char s /\ valid_utf8 r.
Proof.
  destruct l as [|b0 l0]; [done|]. intros (n & Hn & Hr)%valid_utf8_cons _.
  exists (take n (b0 :: l0)), (drop n (b0 :: l0)). rewrite take_drop. split_and!; try done.
  by apply utf8_next_take.
Qed.

Lemma is_char_nonempty s : is_char s -> s <> [].
Proof. by destruct s. Qed.

(** A valid text is the concatenation of its characters. *)
Lemma valid_utf8_chars l : valid_utf8 l <-> exists cs, l = concat cs /\ Forall is_char cs.
Proof.
  split.
  - remember (length l) as k eqn:Hk. assert (length l <= k)%nat as Hl by lia. clear Hk.
    revert l Hl; induction k as [|k IH]; intros l Hl Hv.
    + destruct l; [|simpl in Hl; lia]. by exists [].
    + destruct (decide (l = [])) as [->|Hn]; [by exists []|].
      destruct (valid_utf8_uncons l Hv Hn) as (s & r & -> & Hs & Hr).
      rewrite length_app in Hl. pose proof (is_char_nonempty s Hs). destruct s as [|b s]; [done|].
      simpl in Hl. destruct (IH r ltac:(lia) Hr) as (cs & -> & Hcs). exists ((b :: s) :: cs). by split; [|constructor].
  - intros (cs & -> & Hcs). induction Hcs as [|s cs Hs Hcs IH]; [by eexists|].
    simpl. apply valid_utf8_app; [by apply is_char_valid|done].
Qed.

(** ** Decoding a stream *)

(** A text that ends inside its first character, or nothing. *)
Definition partial (p : list Z) : Prop :=
  match p with [] => True | b0 :: l0 => utf8_next b0 l0 = HIncomplete end.

Lemma partial_length p : partial p -> zlen p <= 3.
Proof.
  destruct p as [|b0 l0]; [done|]. intros H%utf8_next_incomplete. unfold zlen. simpl. lia.
Qed.

Lemma utf8_decode_partial l : partial (utf8_decode l).2.
Proof.
  induction l as [|b0 l0 IH] using utf8_ind; [done|]. rewrite utf8_decode_cons.
  destruct (utf8_next b0 l0) eqn:E; simpl; auto.
Qed.

Lemma utf8_decode_of_partial p : partial p -> utf8_decode p = ([], p).
Proof. destruct p as [|b0 l0]; [done|]. intros H. by rewrite utf8_decode_cons, H. Qed.

Lemma utf8_decode_out_valid l : valid_utf8 (utf8_decode l).1.
Proof.
  induction l as [|b0 l0 IH] using utf8_ind; [by eexists|]. rewrite utf8_decode_cons.
  destruct (utf8_next b0 l0) eqn:E; cbn [fst]; [..|by eexists].
  - apply valid_utf8_app; [|auto]. by apply is_char_valid, utf8_next_take.
  - apply (valid_utf8_app UTF8_REPLACEMENT); [by eexists|auto].
Qed.

Lemma utf8_decode_valid l : valid_utf8 l -> utf8_decode l = (l, []).
Proof.
  induction l as [|b0 l0 IH] using utf8_ind; [done|]. intros (n & Hn & Hv)%valid_utf8_cons.
  rewrite utf8_decode_cons, Hn, (IH n (or_introl Hn) Hv). simpl fst. by rewrite take_drop.
Qed.

(** Decoding a text in two parts. *)
Lemma utf8_decode_app a b :
  utf8_decode (a ++ b) =
  ((utf8_decode a).1 ++ (utf8_decode ((utf8_decode a).2 ++ b)).1,
   (utf8_decode ((utf8_decode a).2 ++ b)).2).
Proof.
  induction a as [|b0 l0 IH] using utf8_ind; [simpl; by destruct (utf8_decode b)|].
  rewrite (utf8_decode_cons b0 l0). simpl app at 1. rewrite utf8_decode_cons.
  destruct (utf8_next b0 l0) eqn:E.
  - pose proof (utf8_next_char b0 l0 n E) as [_ Hl].
    rewrite utf8_next_app, E by congruence. change (b0 :: l0 ++ b) with ((b0 :: l0) ++ b).
    rewrite drop_app_le, take_app_le, (IH n (or_introl eq_refl)) by (simpl; lia).
    simpl fst. simpl snd. by rewrite app_assoc.
  - pose proof (utf8_next_invalid b0 l0 n E) as [? Hl].
    rewrite utf8_next_app, E by congruence. change (b0 :: l0 ++ b) with ((b0 :: l0) ++ b).
    rewrite drop_app_le, (IH n (or_intror eq_refl)) by (simpl; lia).
    simpl fst. simpl snd. by rewrite app_assoc.
  - simpl fst. simpl snd. simpl app. rewrite <- utf8_decode_cons. by destruct (utf8_decode (b0 :: _)).
Qed.

Lemma utf8_decode_split a b o p :
  utf8_decode a = (o, p) ->
  utf8_decode (a ++ b) = (o ++ (utf8_decode (p ++ b)).1, (utf8_decode (p ++ b)).2).
Proof. intros H. by rewrite utf8_decode_app, H. Qed.

Lemma from_utf8_lossy_valid l : valid_utf8 (from_utf8_lossy l).
Proof.
  unfold from_utf8_lossy. apply valid_utf8_app; [apply utf8_decode_out_valid|].
  destruct (utf8_decode l).2; by eexists.
Qed.

Lemma from_utf8_lossy_id l : valid_utf8 l -> from_utf8_lossy l = l.
Proof. intros H. unfold from_utf8_lossy. rewrite utf8_decode_valid by done. apply app_nil_r. Qed.

(** Where the validator stops: after a valid text, before an invalid sequence or
    inside the last character. *)
Lemma utf8_error_some l v e :
  utf8_error l = Some (v, e) ->
  exists a b0 r0, l = a ++ b0 :: r0 /\ zlen a = v /\ valid_utf8 a /\
    match e with
    | Some n => exists k, n = Z.of_nat k /\ utf8_next b0 r0 = HInvalid k
    | None => utf8_next b0 r0 = HIncomplete
    end.
Proof.
  revert v e. induction l as [|b0 l0 IH] using utf8_ind; intros v e He; [done|].
  rewrite utf8_error_cons in He. destruct (utf8_next b0 l0) eqn:E.
  - apply fmap_Some in He as ([v' e'] & He & [= -> ->]).
    destruct (IH n (or_introl eq_refl) v' e' He) as (a & c & r & Hl & Hv & Ha & Hr).
    pose proof (utf8_next_char b0 l0 n E) as [_ Hn].
    exists (take n (b0 :: l0) ++ a), c, r. split_and!; try done.
    + by rewrite <- app_assoc, <- Hl, take_drop.
    + rewrite zlen_app, Hv. unfold zlen. rewrite length_take. simpl length. lia.
    + apply valid_utf8_app; [|done]. by apply is_char_valid, utf8_next_take.
  - simplify_eq. exists [], b0, l0. split_and!; try done; [by eexists|naive_solver].
  - simplify_eq. exists [], b0, l0. split_and!; try done. by eexists.
Qed.
