(* ===== verification/TerminalOutput.v ===== *)
(** The platform output adapter of the controller: [RemoteTerminalOutput] of
    [crates/yon/src/controller.rs].

    Remote terminal output reaches the display in chunks.  On a Windows console
    the display must be handed whole UTF-8 characters, so the adapter keeps the
    bytes of a character that a chunk ends in ([pending]) and replaces invalid
    sequences; elsewhere it passes the bytes on.  [cfg!(windows)] is an argument. *)

From S2P Require Import Prelude Utf8.

Definition UTF8_SEQUENCE_CAPACITY : Z := 4.

Inductive RemoteTerminalOutputMode : Type :=
| Bytes
| WindowsConsoleUtf8.

#[export] Instance output_mode_eq_dec : EqDecision RemoteTerminalOutputMode.
Proof. solve_decision. Defined.

(** [RemoteTerminalOutputMode::native]. *)
Definition native_output_mode (windows output_is_terminal : bool) : RemoteTerminalOutputMode :=
  if windows && output_is_terminal then WindowsConsoleUtf8 else Bytes.

Record RemoteTerminalOutput : Type := {
  rto_mode : RemoteTerminalOutputMode;
  rto_pending : list Z;
  rto_pending_len : Z
}.

Definition new_terminal_output (mode : RemoteTerminalOutputMode) : RemoteTerminalOutput :=
  {| rto_mode := mode; rto_pending := zeros UTF8_SEQUENCE_CAPACITY; rto_pending_len := 0 |}.

(** The first loop of [prepare_windows_console_utf8]: the pending character takes
    bytes until it is complete, invalid or the chunk ends.  Returns the pending
    buffer and its length, the bytes left and the display. *)
Fixpoint prepare_pending (pending : list Z) (pending_len : Z) (bytes display : list Z)
  : res unit (list Z * Z * list Z * list Z) :=
  if pending_len =? 0 then Ok (pending, pending_len, bytes, display)
  else
    match bytes with
    | [] => Ok (pending, pending_len, [], display)
    | next :: remaining =>
      let candidate_len := pending_len + 1 in
      pending ← set_index pending pending_len next;
      candidate ← slice pending 0 candidate_len;
      match utf8_error candidate with
      | None => Ok (pending, 0, remaining, display ++ candidate)
      | Some (_, None) => prepare_pending pending candidate_len remaining display
      | Some (_, Some _) => Ok (pending, 0, bytes, display ++ UTF8_REPLACEMENT)
      end
    end.

(** The second loop: the rest of the chunk.  Every round but the last removes at
    least one byte, so the chunk's length is enough fuel; running out is a
    [Panic]. *)
Fixpoint prepare_rest (fuel : nat) (pending : list Z) (pending_len : Z) (bytes display : list Z)
  : res unit (list Z * Z * list Z) :=
  match bytes with
  | [] => Ok (pending, pending_len, display)
  | _ =>
    match fuel with
    | O => Panic
    | S fuel' =>
      match utf8_error bytes with
      | None => Ok (pending, pending_len, display ++ bytes)
      | Some (valid_len, error_len) =>
        '(display, bytes) ←
          (if negb (valid_len =? 0) then
             head ← slice bytes 0 valid_len;
             rest ← slice bytes valid_len (zlen bytes);
             Ok (display ++ head, rest)
           else Ok (display, bytes));
        match error_len with
        | Some invalid_len =>
          rest ← slice bytes invalid_len (zlen bytes);
          prepare_rest fuel' pending pending_len rest (display ++ UTF8_REPLACEMENT)
        | None =>
          _ ← assert_or_panic (zlen bytes <? UTF8_SEQUENCE_CAPACITY);
          pending ← copy_range pending 0 (zlen bytes) bytes;
          Ok (pending, zlen bytes, display)
        end
      end
    end
  end.

Definition prepare_windows_console_utf8 (o : RemoteTerminalOutput) (bytes display : list Z)
  : res unit (RemoteTerminalOutput * list Z) :=
  '(pending, pending_len, bytes, display) ←
    prepare_pending (rto_pending o) (rto_pending_len o) bytes display;
  '(pending, pending_len, display) ←
    prepare_rest (length bytes) pending pending_len bytes display;
  Ok ({| rto_mode := rto_mode o; rto_pending := pending; rto_pending_len := pending_len |}, display).

(** The display vector is cleared first: what it held is gone. *)
Definition prepare_into (o : RemoteTerminalOutput) (bytes : list Z)
  : res unit (RemoteTerminalOutput * list Z) :=
  match rto_mode o with
  | Bytes => Ok (o, bytes)
  | WindowsConsoleUtf8 => prepare_windows_console_utf8 o bytes []
  end.

Definition take_tail (o : RemoteTerminalOutput) : RemoteTerminalOutput * list Z :=
  if bool_decide (rto_mode o = WindowsConsoleUtf8) && negb (rto_pending_len o =? 0)
  then ({| rto_mode := rto_mode o; rto_pending := rto_pending o; rto_pending_len := 0 |},
        UTF8_REPLACEMENT)
  else (o, []).

(** The display bytes of a session: every chunk prepared in turn, and the tail
    that the session's end takes. *)
Fixpoint prepare_chunks (o : RemoteTerminalOutput) (chunks : list (list Z))
  : res unit (RemoteTerminalOutput * list Z) :=
  match chunks with
  | [] => Ok (o, [])
  | chunk :: rest =>
    '(o, display) ← prepare_into o chunk;
    '(o, more) ← prepare_chunks o rest;
    Ok (o, display ++ more)
  end.

Definition session_display (mode : RemoteTerminalOutputMode) (chunks : list (list Z))
  : res unit (list Z) :=
  '(o, display) ← prepare_chunks (new_terminal_output mode) chunks;
  Ok (display ++ (take_tail o).2).

(** ** The invariant: the pending bytes are the beginning of a character *)

Definition pending_text (o : RemoteTerminalOutput) : list Z :=
  take (Z.to_nat (rto_pending_len o)) (rto_pending o).

Definition pending_is (pending : list Z) (pending_len : Z) (p : list Z) : Prop :=
  exists junk, pending = p ++ junk /\ zlen pending = UTF8_SEQUENCE_CAPACITY /\
    pending_len = zlen p /\ partial p.

Lemma pending_is_partial pending n p : pending_is pending n p -> partial p.
Proof. by intros (? & ? & ? & ? & ?). Qed.

Lemma pending_is_push pending n p x :
  pending_is pending n p -> exists junk, set_index (E:=unit) pending n x = Ok ((p ++ [x]) ++ junk) /\
    zlen ((p ++ [x]) ++ junk) = UTF8_SEQUENCE_CAPACITY.
Proof.
  intros (junk & -> & Hl & -> & Hp%partial_length).
  unfold UTF8_SEQUENCE_CAPACITY in *. destruct junk as [|j junk]; [zlen_tac|].
  exists junk. split; [|zlen_tac]. unfold set_index, copy_range.
  rewrite !(proj2 (Z.leb_le _ _)) by zlen_tac.
  rewrite (proj2 (Z.eqb_eq _ _)) by zlen_tac. simpl. f_equal.
  rewrite take_zlen_app by done. change (j :: junk) with ([j] ++ junk). rewrite app_assoc.
  rewrite drop_zlen_app by zlen_tac. by rewrite <- app_assoc.
Qed.

Lemma prepare_pending_ok bytes pending n p display :
  pending_is pending n p ->
  exists pending' n' bytes' out p',
    prepare_pending pending n bytes display = Ok (pending', n', bytes', display ++ out) /\
    pending_is pending' n' p' /\ (p' = [] \/ bytes' = []) /\
    utf8_decode (p ++ bytes) =
      (out ++ (utf8_decode (p' ++ bytes')).1, (utf8_decode (p' ++ bytes')).2).
Proof.
  revert pending n p. induction bytes as [|x bytes IH]; intros pending n p Hp;
    pose proof Hp as (junk & -> & Hl & -> & Hpart); simpl.
  - exists (p ++ junk), (zlen p), [], [], p. rewrite app_nil_r.
    rewrite ?app_nil_r. split_and!; [by destruct (_ =? _)|done|by right|]. simpl. by destruct (utf8_decode p).
  - destruct (Z.eqb_spec (zlen p) 0) as [H0|H0].
    + exists (p ++ junk), (zlen p), (x :: bytes), [], p. apply zlen_0 in H0 as ->.
      rewrite !app_nil_r. split_and!; [done..|by left|]. simpl. by destruct (utf8_decode _).
    + destruct (pending_is_push _ _ _ x Hp) as (junk' & -> & Hl'). simpl mbind.
      rewrite slice_head by zlen_tac. simpl mbind.
      destruct p as [|b0 p0]; [done|]. change ((b0 :: p0) ++ [x]) with (b0 :: p0 ++ [x]) in *.
      rewrite utf8_error_cons. simpl app at 1.
      assert (forall m, b0 :: p0 ++ x :: m = (b0 :: p0 ++ [x]) ++ m) as Hm
        by (intros; simpl; by rewrite <- app_assoc).
      destruct (utf8_next_snoc b0 p0 x Hpart) as [E|[E|E]]; rewrite E.
      * assert (drop (S (S (length p0))) (b0 :: p0 ++ [x]) = []) as Hd
          by (apply drop_ge; simpl; rewrite length_app; simpl; lia).
        rewrite Hd. simpl. exists (((b0 :: p0) ++ [x]) ++ junk'), 0, bytes, (b0 :: p0 ++ [x]), [].
        split_and!; [done| |by left|].
        { by exists (((b0 :: p0) ++ [x]) ++ junk'). }
        change ((b0 :: p0) ++ x :: bytes) with (b0 :: p0 ++ x :: bytes).
        rewrite Hm. rewrite utf8_decode_app. rewrite utf8_decode_valid; [done|].
        apply is_char_valid. simpl. rewrite E, length_app. simpl. do 2 f_equal. lia.
      * destruct (IH ((b0 :: p0 ++ [x]) ++ junk') (1 + zlen (b0 :: p0)) (b0 :: p0 ++ [x]))
          as (pe & n' & b' & out & p' & Hr & Hpi & Hor & Hd).
        { exists junk'. split_and!; [done..|zlen_tac|done]. }
        exists pe, n', b', out, p'. rewrite Z.add_comm. split_and!; [exact Hr|done..|].
        change ((b0 :: p0) ++ x :: bytes) with (b0 :: p0 ++ x :: bytes). by rewrite Hm.
      * exists ((b0 :: p0 ++ [x]) ++ junk'), 0, (x :: bytes), UTF8_REPLACEMENT, [].
        split_and!; [done| |by left|].
        { exists ((b0 :: p0 ++ [x]) ++ junk'). by split_and!. }
        change ((b0 :: p0) ++ x :: bytes) with (b0 :: p0 ++ x :: bytes). rewrite utf8_decode_cons. replace (p0 ++ x :: bytes) with ((p0 ++ [x]) ++ bytes)
          by (by rewrite <- app_assoc).
        rewrite utf8_next_app, E by congruence. rewrite <- app_assoc.
        change (b0 :: p0 ++ [x] ++ bytes) with ((b0 :: p0) ++ x :: bytes).
        by rewrite drop_app_length'.
Qed.

Lemma prepare_rest_ok fuel pending bytes display :
  zlen pending = UTF8_SEQUENCE_CAPACITY -> (length bytes <= fuel)%nat ->
  exists pending' n' p',
    prepare_rest fuel pending 0 bytes display = Ok (pending', n', display ++ (utf8_decode bytes).1) /\
    pending_is pending' n' p' /\ p' = (utf8_decode bytes).2.
Proof.
  intros Hpend. revert bytes display. induction fuel as [|fuel IH]; intros bytes display Hf.
  { destruct bytes; [|simpl in Hf; lia]. exists pending, 0, []. simpl. rewrite app_nil_r.
    split_and!; [done| |done]. by exists pending. }
  destruct bytes as [|b0 bytes].
  { exists pending, 0, []. simpl. rewrite app_nil_r. split_and!; [done| |done]. by exists pending. }
  cbn [prepare_rest]. destruct (utf8_error (b0 :: bytes)) as [[v e]|] eqn:He.
  2:{ apply utf8_error_valid in He. rewrite utf8_decode_valid by done. exists pending, 0, [].
      split_and!; [done| |done]. by exists pending. }
  destruct (utf8_error_some _ _ _ He) as (a & c & r & Hl & <- & Ha & Hr). rewrite Hl in *.
  assert ((if negb (zlen a =? 0)
           then head ← slice (a ++ c :: r) 0 (zlen a);
                rest ← slice (a ++ c :: r) (zlen a) (zlen (a ++ c :: r)); Ok (display ++ head, rest)
           else Ok (display, a ++ c :: r)) = Ok (E:=unit) (display ++ a, c :: r)) as ->.
  { destruct (Z.eqb_spec (zlen a) 0) as [->%zlen_0|?]; simpl negb; cbv match.
    - by rewrite app_nil_r.
    - rewrite slice_head, slice_tail by done. done. }
  rewrite utf8_decode_app, utf8_decode_valid by done. cbn [fst snd app mbind res_bind].
  destruct e as [k|].
  - destruct Hr as (k' & -> & Hn). pose proof (utf8_next_invalid c r k' Hn) as [Hk Hk'].
    assert (c :: r = take k' (c :: r) ++ drop k' (c :: r)) as Hcut by (by rewrite take_drop).
    assert (zlen (take k' (c :: r)) = Z.of_nat k') as Hz
      by (unfold zlen; rewrite length_take; simpl; lia).
    assert (slice (E:=unit) (c :: r) (Z.of_nat k') (zlen (c :: r)) = Ok (drop k' (c :: r))) as ->.
    { rewrite Hcut at 1. apply slice_tail; [done|]. by rewrite <- Hcut. }
    cbn [mbind res_bind].
    destruct (IH (drop k' (c :: r)) ((display ++ a) ++ UTF8_REPLACEMENT)) as (pe & n' & p' & Hp & Hpi & ->).
    { pose proof (utf8_next_progress c r k' (or_intror Hn)). rewrite length_app in Hf. simpl in Hf |- *. lia. }
    exists pe, n', (utf8_decode (drop k' (c :: r))).2.
    rewrite utf8_decode_cons, Hn. cbn [fst snd]. rewrite Hp, !app_assoc. by split_and!.
  - pose proof (partial_length (c :: r) Hr) as H3. unfold UTF8_SEQUENCE_CAPACITY in *.
    rewrite (proj2 (Z.ltb_lt _ _)) by lia. cbn [assert_or_panic mbind res_bind].
    pose proof (zlen_nonneg (c :: r)).
    unfold copy_range. rewrite !(proj2 (Z.leb_le _ _)) by lia.
    rewrite (proj2 (Z.eqb_eq _ _)) by lia. cbn [andb mbind res_bind].
    rewrite utf8_decode_cons, Hr. cbn [fst snd]. rewrite app_nil_r.
    exists ((c :: r) ++ drop (Z.to_nat (zlen (c :: r))) pending), (zlen (c :: r)), (c :: r).
    split_and!; [done| |done]. eexists. split_and!; try done.
    unfold zlen, UTF8_SEQUENCE_CAPACITY in *. rewrite length_app, length_drop. lia.
Qed.

(** One chunk: the pending bytes and the chunk are decoded together. *)
Lemma prepare_chunk_ok o chunk :
  rto_mode o = WindowsConsoleUtf8 ->
  (exists p, pending_is (rto_pending o) (rto_pending_len o) p /\ p = pending_text o) ->
  exists o', prepare_into o chunk = Ok (o', (utf8_decode (pending_text o ++ chunk)).1) /\
    rto_mode o' = WindowsConsoleUtf8 /\
    pending_text o' = (utf8_decode (pending_text o ++ chunk)).2 /\
    pending_is (rto_pending o') (rto_pending_len o') (pending_text o').
Proof.
  intros Hm (p & Hp & ->). unfold prepare_into. rewrite Hm. unfold prepare_windows_console_utf8.
  destruct (prepare_pending_ok chunk _ _ _ [] Hp) as (pe & n & b & out & p' & -> & Hpi & Hor & ->).
  cbn [mbind res_bind app fst snd].
  assert (exists pe' n' p'',
    prepare_rest (length b) pe n b out = Ok (pe', n', out ++ (utf8_decode (p' ++ b)).1) /\
    pending_is pe' n' p'' /\ p'' = (utf8_decode (p' ++ b)).2) as (pe' & n' & p'' & -> & Hpi' & ->).
  { destruct Hor as [-> | ->].
    - destruct Hpi as (junk & -> & Hl & -> & _). by apply prepare_rest_ok.
    - exists pe, n, p'. rewrite app_nil_r, utf8_decode_of_partial by eauto using pending_is_partial.
      simpl. by rewrite app_nil_r. }
  cbn [mbind res_bind]. eexists. split; [done|]. split; [done|]. unfold pending_text. cbn.
  destruct Hpi' as (junk & -> & Hl & -> & Hpart). rewrite take_zlen_app by done.
  split; [done|]. by exists junk.
Qed.

Lemma prepare_chunks_ok chunks o :
  rto_mode o = WindowsConsoleUtf8 ->
  pending_is (rto_pending o) (rto_pending_len o) (pending_text o) ->
  exists o', prepare_chunks o chunks = Ok (o', (utf8_decode (pending_text o ++ concat chunks)).1) /\
    rto_mode o' = WindowsConsoleUtf8 /\
    pending_text o' = (utf8_decode (pending_text o ++ concat chunks)).2 /\
    pending_is (rto_pending o') (rto_pending_len o') (pending_text o').
Proof.
  revert o. induction chunks as [|c chunks IH]; intros o Hm Hp.
  - exists o. simpl. rewrite app_nil_r.
    rewrite utf8_decode_of_partial by eauto using pending_is_partial. by split_and!.
  - simpl. destruct (prepare_chunk_ok o c Hm) as (o1 & -> & Hm1 & Ht1 & Hp1); [by eexists|].
    cbn [mbind res_bind]. destruct (IH o1 Hm1 Hp1) as (o2 & -> & Hm2 & Ht2 & Hp2).
    cbn [mbind res_bind]. exists o2. rewrite app_assoc, (utf8_decode_app (_ ++ c)). cbn [fst snd]. rewrite <- Ht1. by split_and!.
Qed.

Lemma prepare_bytes_ok chunks o :
  rto_mode o = Bytes -> prepare_chunks o chunks = Ok (o, concat chunks).
Proof.
  intros Hm. induction chunks as [|c chunks IH]; [done|]. simpl. unfold prepare_into.
  rewrite Hm. cbn [mbind res_bind]. by rewrite IH.
Qed.

(** C31: however remote output is cut into chunks, the adapter never panics and
    what it hands to the display over a session depends only on the whole
    output.  In byte mode it is the output itself; on a Windows console it is
    the output's replacement decoding ([String::from_utf8_lossy] of all of it,
    the tail of an incomplete character included), so it is always valid UTF-8
    and a valid output is displayed unchanged. *)
Theorem terminal_output_decodes mode chunks :
  exists display, session_display mode chunks = Ok display /\
    display = match mode with
              | Bytes => concat chunks
              | WindowsConsoleUtf8 => from_utf8_lossy (concat chunks)
              end /\
    (mode = WindowsConsoleUtf8 -> valid_utf8 display) /\
    (valid_utf8 (concat chunks) -> display = concat chunks).
Proof.
  assert (forall d, session_display mode chunks = Ok d ->
    d = match mode with Bytes => concat chunks | WindowsConsoleUtf8 => from_utf8_lossy (concat chunks) end ->
    exists display, session_display mode chunks = Ok display /\
    display = match mode with Bytes => concat chunks | WindowsConsoleUtf8 => from_utf8_lossy (concat chunks) end /\
    (mode = WindowsConsoleUtf8 -> valid_utf8 display) /\
    (valid_utf8 (concat chunks) -> display = concat chunks)) as Hgoal.
  { intros d Hd ->. eexists. split; [exact Hd|]. split; [done|]. destruct mode; split; try done.
    - intros _. apply from_utf8_lossy_valid.
    - apply from_utf8_lossy_id. }
  unfold session_display in *. destruct mode.
  - rewrite prepare_bytes_ok in * by done. eapply Hgoal; [done|]. simpl. by rewrite app_nil_r.
  - destruct (prepare_chunks_ok chunks (new_terminal_output WindowsConsoleUtf8)) as
      (o & Ho & Hm & Ht & (junk & _ & _ & Hl & _)); [done|by exists (zeros 4)|].
    rewrite Ho in *. eapply Hgoal; [done|]. change (pending_text (new_terminal_output _)) with (@nil Z) in *.
    cbn [app] in *. unfold from_utf8_lossy. f_equal. rewrite <- Ht. unfold take_tail. rewrite Hm, Hl.
    cbn [bool_decide]. rewrite bool_decide_true by done. destruct (pending_text o); [done|].
    rewrite (proj2 (Z.eqb_neq _ _)) by zlen_tac. done.
Qed.
