(* ===== verification/LocalControl.v ===== *)
(** The local control input machine: [crates/yon/src/local_control.rs].

    Keystrokes of the controller's terminal are read in chunks of at most
    [INPUT_CAPACITY] bytes.  In pass-through the machine forwards them to the
    remote terminal, except for the [Ctrl+\]] sequences; while a file operation
    is active (modal) nothing is forwarded: ordinary bytes are path editor input
    during a prompt and are dropped during a transfer.  A [Ctrl+\]] whose selector
    has not arrived yet is carried to the next chunk.

    A [BoundedBytes<CAP>] and a [LocalInputChunk] are modelled by their view
    ([as_slice]), the bytes behind [len] never being read; a push beyond the
    capacity panics, as the array access in the source does. *)

From S2P Require Import Prelude.

Definition INPUT_CAPACITY : Z := 4096.
Definition REMOTE_CAPACITY : Z := INPUT_CAPACITY + 1.
Definition LOCAL_ESCAPE : Z := 0x1d.
Definition CANCEL_BYTE : Z := 0x03.

Inductive LocalControlError : Type :=
| ChunkLengthExceedsCapacity
| NoActiveModal.

Inductive LocalAction : Type :=
| ANone
| Detach
| StartUpload
| StartDownload
| ShowHelp
| AlreadyActive
| CancelOp
| Bell.

#[export] Instance local_action_eq_dec : EqDecision LocalAction.
Proof. solve_decision. Defined.

Inductive ModalPhase : Type :=
| UploadPrompt
| DownloadPrompt
| Transferring.

#[export] Instance modal_phase_eq_dec : EqDecision ModalPhase.
Proof. solve_decision. Defined.

(** [BoundedBytes::push] and [BoundedBytes::extend]. *)
Definition bounded_push {E} (cap : Z) (l : list Z) (byte : Z) : res E (list Z) :=
  _ ← assert_or_panic (zlen l <? cap);
  Ok (l ++ [byte]).

Definition bounded_extend {E} (cap : Z) (l bytes : list Z) : res E (list Z) :=
  _ ← assert_or_panic (zlen l + zlen bytes <=? cap);
  Ok (l ++ bytes).

(** [LocalInputChunk::set_len]: the chunk is the first [len] bytes read. *)
Definition chunk_set_len (bytes : list Z) (len : Z) : res LocalControlError (list Z) :=
  if INPUT_CAPACITY <? len then Err ChunkLengthExceedsCapacity
  else Ok (take (Z.to_nat len) bytes).

Record ProcessedInput : Type := {
  remote_bytes : list Z;
  path_bytes : list Z;
  remainder : list Z;
  action : LocalAction;
  drop_remainder : bool
}.

Definition default_processed : ProcessedInput :=
  {| remote_bytes := []; path_bytes := []; remainder := []; action := ANone;
     drop_remainder := false |}.

Definition set_action (r : ProcessedInput) (a : LocalAction) : ProcessedInput :=
  {| remote_bytes := remote_bytes r; path_bytes := path_bytes r; remainder := remainder r;
     action := a; drop_remainder := drop_remainder r |}.

Definition push_remote {E} (r : ProcessedInput) (byte : Z) : res E ProcessedInput :=
  l ← bounded_push REMOTE_CAPACITY (remote_bytes r) byte;
  Ok {| remote_bytes := l; path_bytes := path_bytes r; remainder := remainder r;
        action := action r; drop_remainder := drop_remainder r |}.

Definition push_path {E} (r : ProcessedInput) (byte : Z) : res E ProcessedInput :=
  l ← bounded_push INPUT_CAPACITY (path_bytes r) byte;
  Ok {| remote_bytes := remote_bytes r; path_bytes := l; remainder := remainder r;
        action := action r; drop_remainder := drop_remainder r |}.

(** [result.remainder.0.extend(rest); result.drop_remainder = !result.remainder.is_empty()]. *)
Definition extend_remainder {E} (r : ProcessedInput) (rest : list Z) : res E ProcessedInput :=
  l ← bounded_extend INPUT_CAPACITY (remainder r) rest;
  Ok {| remote_bytes := remote_bytes r; path_bytes := path_bytes r; remainder := l;
        action := action r; drop_remainder := negb (zlen l =? 0) |}.

Record LocalControlInput : Type := {
  enabled : bool;
  ended : bool;
  pending_prefix : bool;
  modal : option ModalPhase;
  transfer_bell_emitted : bool
}.

Definition new_control (enabled modal : bool) : LocalControlInput :=
  {| enabled := enabled; ended := false; pending_prefix := false;
     modal := if enabled && modal then Some UploadPrompt else None;
     transfer_bell_emitted := false |}.

Definition with_modal_phase (enabled : bool) (phase : ModalPhase) : LocalControlInput :=
  {| enabled := enabled; ended := false; pending_prefix := false;
     modal := if enabled then Some phase else None;
     transfer_bell_emitted := false |}.

Definition set_prefix (c : LocalControlInput) (b : bool) : LocalControlInput :=
  {| enabled := enabled c; ended := ended c; pending_prefix := b; modal := modal c;
     transfer_bell_emitted := transfer_bell_emitted c |}.

Definition enter_prompt (c : LocalControlInput) (phase : ModalPhase) : LocalControlInput :=
  {| enabled := enabled c; ended := ended c; pending_prefix := pending_prefix c;
     modal := Some phase; transfer_bell_emitted := false |}.

Definition end_session (c : LocalControlInput) : LocalControlInput :=
  {| enabled := enabled c; ended := true; pending_prefix := false; modal := None;
     transfer_bell_emitted := transfer_bell_emitted c |}.

Definition set_transfer_bell (c : LocalControlInput) : LocalControlInput :=
  {| enabled := enabled c; ended := ended c; pending_prefix := pending_prefix c;
     modal := modal c; transfer_bell_emitted := true |}.

(** [process_pass_through]: the loop over the bytes from [index] on. *)
Fixpoint process_pass_through {E} (c : LocalControlInput) (bytes : list Z) (r : ProcessedInput)
  : res E (LocalControlInput * ProcessedInput) :=
  match bytes with
  | [] => Ok (c, r)
  | byte :: rest =>
    if pending_prefix c then
      let c := set_prefix c false in
      if byte =? 0x2e then Ok (end_session c, set_action r Detach)
      else if byte =? LOCAL_ESCAPE then
        r ← push_remote r LOCAL_ESCAPE;
        process_pass_through c rest r
      else if byte =? 0x75 then
        r ← extend_remainder (set_action r StartUpload) rest;
        Ok (enter_prompt c UploadPrompt, r)
      else if byte =? 0x64 then
        r ← extend_remainder (set_action r StartDownload) rest;
        Ok (enter_prompt c DownloadPrompt, r)
      else if byte =? 0x3f then process_pass_through c rest (set_action r ShowHelp)
      else
        r ← push_remote r LOCAL_ESCAPE;
        r ← push_remote r byte;
        process_pass_through c rest r
    else if byte =? LOCAL_ESCAPE then process_pass_through (set_prefix c true) rest r
    else
      r ← push_remote r byte;
      process_pass_through c rest r
  end.

Fixpoint process_modal {E} (c : LocalControlInput) (bytes : list Z) (phase : ModalPhase)
  (r : ProcessedInput) : res E (LocalControlInput * ProcessedInput) :=
  match bytes with
  | [] => Ok (c, r)
  | byte :: rest =>
    if pending_prefix c then
      let c := set_prefix c false in
      if byte =? 0x2e then Ok (end_session c, set_action r Detach)
      else if byte =? 0x3f then process_modal c rest phase (set_action r ShowHelp)
      else if (byte =? 0x75) || (byte =? 0x64) then
        process_modal c rest phase (set_action r AlreadyActive)
      else process_modal c rest phase (set_action r Bell)
    else if byte =? LOCAL_ESCAPE then process_modal (set_prefix c true) rest phase r
    else if byte =? CANCEL_BYTE then Ok (c, set_action r CancelOp)
    else
      match phase with
      | UploadPrompt | DownloadPrompt =>
        r ← push_path r byte;
        process_modal c rest phase r
      | Transferring =>
        if negb (transfer_bell_emitted c)
        then process_modal (set_transfer_bell c) rest phase (set_action r Bell)
        else process_modal c rest phase r
      end
  end.

Definition process {E} (c : LocalControlInput) (input : list Z)
  : res E (LocalControlInput * ProcessedInput) :=
  if ended c then Ok (c, default_processed)
  else if negb (enabled c) then
    l ← bounded_extend REMOTE_CAPACITY [] input;
    Ok (c, {| remote_bytes := l; path_bytes := []; remainder := []; action := ANone;
              drop_remainder := false |})
  else
    match modal c with
    | Some phase => process_modal c input phase default_processed
    | None => process_pass_through c input default_processed
    end.

Definition finish {E} (c : LocalControlInput) : res E (LocalControlInput * ProcessedInput) :=
  if ended c || negb (enabled c) then Ok (c, default_processed)
  else if pending_prefix c then
    let c := set_prefix c false in
    match modal c with
    | Some _ => Ok (c, set_action default_processed Bell)
    | None =>
      r ← push_remote default_processed LOCAL_ESCAPE;
      Ok (c, r)
    end
  else Ok (c, default_processed).

Definition enter_transfer (c : LocalControlInput) : res LocalControlError LocalControlInput :=
  match modal c with
  | Some (UploadPrompt | DownloadPrompt) =>
    Ok {| enabled := enabled c; ended := ended c; pending_prefix := pending_prefix c;
          modal := Some Transferring; transfer_bell_emitted := false |}
  | Some Transferring => Ok c
  | None => Err NoActiveModal
  end.

Definition leave_modal (c : LocalControlInput) : LocalControlInput * LocalAction :=
  let c := {| enabled := enabled c; ended := ended c; pending_prefix := pending_prefix c;
              modal := None; transfer_bell_emitted := false |} in
  if pending_prefix c then (set_prefix c false, Bell) else (c, ANone).

(** Processing the chunks of one stretch of input, in order. *)
Fixpoint process_chunks {E} (c : LocalControlInput) (chunks : list (list Z))
  : res E (LocalControlInput * list ProcessedInput) :=
  match chunks with
  | [] => Ok (c, [])
  | chunk :: rest =>
    '(c, r) ← process c chunk;
    '(c, rs) ← process_chunks c rest;
    Ok (c, r :: rs)
  end.

(** ** What the machine does to a stream of keystrokes

    [forwarded esc keys] is what reaches the remote terminal of the keystrokes
    [keys] typed in pass-through, up to the first sequence that ends the session
    or starts a file operation; [esc] tells that a [Ctrl+\]] is waiting for its
    selector.  A [Ctrl+\]] at the end of the input is literal. *)
Fixpoint forwarded (esc : bool) (keys : list Z) : list Z :=
  match keys with
  | [] => if esc then [LOCAL_ESCAPE] else []
  | b :: rest =>
    if esc then
      if (b =? 0x2e) || (b =? 0x75) || (b =? 0x64) then []
      else if b =? LOCAL_ESCAPE then LOCAL_ESCAPE :: forwarded false rest
      else if b =? 0x3f then forwarded false rest
      else LOCAL_ESCAPE :: b :: forwarded false rest
    else if b =? LOCAL_ESCAPE then forwarded true rest
    else b :: forwarded false rest
  end.

(** What the path editor receives of a chunk typed in a prompt, and whether the
    chunk cancels the operation. *)
Fixpoint editor_input (esc : bool) (keys : list Z) : list Z :=
  match keys with
  | [] => []
  | b :: rest =>
    if esc then if b =? 0x2e then [] else editor_input false rest
    else if b =? LOCAL_ESCAPE then editor_input true rest
    else if b =? CANCEL_BYTE then []
    else b :: editor_input false rest
  end.

Fixpoint cancels (esc : bool) (keys : list Z) : bool :=
  match keys with
  | [] => false
  | b :: rest =>
    if esc then if b =? 0x2e then false else cancels false rest
    else if b =? LOCAL_ESCAPE then cancels true rest
    else if b =? CANCEL_BYTE then true
    else cancels false rest
  end.

(** The keystrokes that send [s] to the remote terminal: every [Ctrl+\]] twice. *)
Definition escape_keys (s : list Z) : list Z :=
  s ≫= fun b => if b =? LOCAL_ESCAPE then [LOCAL_ESCAPE; LOCAL_ESCAPE] else [b].

Lemma forwarded_escape s : forwarded false (escape_keys s) = s.
Proof.
  induction s as [|b s IH]; [done|]. cbn [escape_keys mbind list_bind].
  destruct (Z.eqb_spec b LOCAL_ESCAPE) as [->|Hb]; cbn.
  - f_equal. exact IH.
  - rewrite (proj2 (Z.eqb_neq b LOCAL_ESCAPE)) by done. f_equal. exact IH.
Qed.

Definition passing (c : LocalControlInput) : Prop :=
  enabled c = true /\ ended c = false /\ modal c = None.

Definition prompting (c : LocalControlInput) : Prop :=
  enabled c = true /\ ended c = false /\ (modal c = Some UploadPrompt \/ modal c = Some DownloadPrompt).

#[export] Instance passing_dec c : Decision (passing c).
Proof. unfold passing. apply _. Defined.

Definition prefix_len (c : LocalControlInput) : Z := if pending_prefix c then 1 else 0.

Lemma push_remote_ok {E} r b :
  zlen (remote_bytes r) < REMOTE_CAPACITY ->
  exists r', push_remote (E:=E) r b = Ok r' /\ remote_bytes r' = remote_bytes r ++ [b] /\
    path_bytes r' = path_bytes r /\ remainder r' = remainder r /\ action r' = action r.
Proof.
  intros H. unfold push_remote, bounded_push. rewrite (proj2 (Z.ltb_lt _ _)) by done. eauto 10.
Qed.

Lemma push_path_ok {E} r b :
  zlen (path_bytes r) < INPUT_CAPACITY ->
  exists r', push_path (E:=E) r b = Ok r' /\ path_bytes r' = path_bytes r ++ [b] /\
    remote_bytes r' = remote_bytes r /\ remainder r' = remainder r /\ action r' = action r.
Proof.
  intros H. unfold push_path, bounded_push. rewrite (proj2 (Z.ltb_lt _ _)) by done. eauto 10.
Qed.

Lemma extend_remainder_ok {E} r rest :
  remainder r = [] -> zlen rest <= INPUT_CAPACITY ->
  exists r', extend_remainder (E:=E) r rest = Ok r' /\ remote_bytes r' = remote_bytes r /\
    path_bytes r' = path_bytes r /\ remainder r' = rest /\ action r' = action r.
Proof.
  intros Hr Hl. unfold extend_remainder, bounded_extend. rewrite Hr. change (zlen (@nil Z)) with 0.
  rewrite (proj2 (Z.leb_le _ _)) by lia. eauto 10.
Qed.

(** The state after a stretch of pass-through: still passing, in a prompt whose
    keystrokes follow, or ended. *)
Definition passed (c' : LocalControlInput) (r' : ProcessedInput) : Prop :=
  (passing c' /\ remainder r' = []) \/
  (prompting c' /\ pending_prefix c' = false) \/
  (ended c' = true /\ remainder r' = []).

Lemma pass_through_ok {E} bytes c r :
  passing c -> remainder r = [] -> zlen bytes <= INPUT_CAPACITY ->
  zlen (remote_bytes r) + prefix_len c + zlen bytes <= REMOTE_CAPACITY ->
  exists c' r', process_pass_through (E:=E) c bytes r = Ok (c', r') /\
    enabled c' = true /\ path_bytes r' = path_bytes r /\ passed c' r' /\
    forall keys, remote_bytes r ++ forwarded (pending_prefix c) (bytes ++ keys) =
      remote_bytes r' ++ if decide (passing c') then forwarded (pending_prefix c') keys else [].
Proof.
  revert c r. induction bytes as [|b bytes IH]; intros c r Hc Hr Hb Hl.
  { exists c, r. pose proof Hc as (? & ? & ?). split_and!; try done; [by left; auto|].
    intros keys. by rewrite decide_True. }
  unfold prefix_len in Hl. pose proof Hc as (He & Hen & Hm). cbn [process_pass_through].
  autorewrite with zlen in Hb, Hl. pose proof (zlen_nonneg bytes) as Hnn.
  assert (forall bb, passing (set_prefix c bb)) as Hs by (by intros; unfold passing; cbn).
  destruct (pending_prefix c) eqn:Hp; cbn [app forwarded].
  - destruct (Z.eqb_spec b 0x2e) as [->|N1].
    { eexists _, _. split; [done|]. split_and!; try done; [by right; right|].
      intros keys. cbn. by rewrite decide_False by (by intros (_ & ? & _)). }
    destruct (Z.eqb_spec b LOCAL_ESCAPE) as [->|N2].
    { destruct (push_remote_ok (E:=E) r LOCAL_ESCAPE) as (r1 & -> & R1 & R2 & R3 & _); [lia|].
      cbn [mbind res_bind].
      destruct (IH (set_prefix c false) r1) as (c' & r' & -> & ? & ? & ? & Hk); try done;
        [congruence|lia|rewrite R1; unfold prefix_len; cbn; zlen_tac|].
      exists c', r'. split_and!; try done; [congruence|]. intros keys. cbn.
      rewrite <- Hk, R1, <- app_assoc. done. }
    destruct (Z.eqb_spec b 0x75) as [->|N3].
    { destruct (extend_remainder_ok (E:=E) (set_action r StartUpload) bytes) as (r1 & -> & R1 & R2 & R3 & _);
        [done|lia|]. cbn [mbind res_bind]. eexists _, _. split; [done|]. split_and!; try done.
      - right; left. by repeat split; try left.
      - intros keys. cbn. rewrite R1, decide_False; [done|]. by intros (_ & _ & ?). }
    destruct (Z.eqb_spec b 0x64) as [->|N4].
    { destruct (extend_remainder_ok (E:=E) (set_action r StartDownload) bytes) as (r1 & -> & R1 & R2 & R3 & _);
        [done|lia|]. cbn [mbind res_bind]. eexists _, _. split; [done|]. split_and!; try done.
      - right; left. by repeat split; try right.
      - intros keys. cbn. rewrite R1, decide_False; [done|]. by intros (_ & _ & ?). }
    destruct (Z.eqb_spec b 0x3f) as [->|N5].
    { destruct (IH (set_prefix c false) (set_action r ShowHelp)) as (c' & r' & -> & ? & ? & ? & Hk);
        try done; [lia|unfold prefix_len; cbn; lia|].
      exists c', r'. split_and!; try done. }
    destruct (push_remote_ok (E:=E) r LOCAL_ESCAPE) as (r1 & -> & R1 & R2 & R3 & _); [lia|].
    cbn [mbind res_bind].
    destruct (push_remote_ok (E:=E) r1 b) as (r2 & -> & Q1 & Q2 & Q3 & _); [rewrite R1; zlen_tac|].
    cbn [mbind res_bind].
    destruct (IH (set_prefix c false) r2) as (c' & r' & -> & ? & ? & ? & Hk); try done;
      [congruence|lia|rewrite Q1, R1; unfold prefix_len; cbn; zlen_tac|].
    exists c', r'. split_and!; try done; [congruence|]. intros keys. cbn.
    rewrite <- Hk, Q1, R1, <- !app_assoc. done.
  - destruct (Z.eqb_spec b LOCAL_ESCAPE) as [->|N2].
    { destruct (IH (set_prefix c true) r) as (c' & r' & -> & ? & ? & ? & Hk); try done;
        [lia|unfold prefix_len; cbn; lia|]. exists c', r'. split_and!; try done. }
    destruct (push_remote_ok (E:=E) r b) as (r1 & -> & R1 & R2 & R3 & _); [lia|].
    cbn [mbind res_bind].
    destruct (IH c r1) as (c' & r' & -> & ? & ? & ? & Hk); try done;
      [congruence|lia|rewrite R1; unfold prefix_len; rewrite Hp; zlen_tac|].
    exists c', r'. split_and!; try done; [congruence|]. intros keys.
    rewrite <- Hk, R1, <- app_assoc, Hp. done.
Qed.

Lemma modal_ok {E} bytes c phase r :
  zlen (path_bytes r) + zlen bytes <= INPUT_CAPACITY ->
  exists c' r', process_modal (E:=E) c bytes phase r = Ok (c', r') /\
    remote_bytes r' = remote_bytes r /\ remainder r' = remainder r /\ enabled c' = enabled c /\
    (ended c' = true \/ ended c' = ended c /\ modal c' = modal c) /\
    path_bytes r' = path_bytes r ++
      match phase with Transferring => [] | _ => editor_input (pending_prefix c) bytes end /\
    (action r <> CancelOp -> action r' = CancelOp <-> cancels (pending_prefix c) bytes = true).
Proof.
  revert c r. induction bytes as [|b bytes IH]; intros c r Hl.
  { exists c, r. split; [done|]. split_and!; try done; [by right|by destruct phase; rewrite app_nil_r]. }
  autorewrite with zlen in Hl. pose proof (zlen_nonneg bytes) as Hnn.
  cbn [process_modal editor_input cancels]. destruct (pending_prefix c) eqn:Hp.
  - destruct (Z.eqb_spec b 0x2e) as [->|N1].
    { eexists _, _. split; [done|]. split_and!; try done; [by left|].
      by destruct phase; rewrite app_nil_r. }
    assert (forall a, a <> CancelOp -> exists c' r',
      process_modal (E:=E) (set_prefix c false) bytes phase (set_action r a) = Ok (c', r') /\
      remote_bytes r' = remote_bytes r /\ remainder r' = remainder r /\ enabled c' = enabled c /\
      (ended c' = true \/ ended c' = ended c /\ modal c' = modal c) /\
      path_bytes r' = path_bytes r ++
        match phase with Transferring => [] | _ => editor_input false bytes end /\
      (action r <> CancelOp -> action r' = CancelOp <-> cancels false bytes = true)) as H.
    { intros a Ha. destruct (IH (set_prefix c false) (set_action r a)) as
        (c' & r' & E1 & E2 & E3 & E4 & E5 & E6 & E7); [cbn; lia|].
      exists c', r'. split_and!; try done. intros _. by apply E7. }
    destruct (Z.eqb_spec b 0x3f) as [->|N2]; [by apply H|].
    destruct ((b =? 0x75) || (b =? 0x64)); by apply H.
  - destruct (Z.eqb_spec b LOCAL_ESCAPE) as [->|N2].
    { by destruct (IH (set_prefix c true) r) as (c' & r' & E1 & E2 & E3 & E4 & E5 & E6 & E7);
        [lia|]; exists c', r'. }
    destruct (Z.eqb_spec b CANCEL_BYTE) as [->|N3].
    { eexists _, _. split; [done|]. split_and!; try done; [by right|].
      by destruct phase; rewrite app_nil_r. }
    assert (phase <> Transferring -> exists c' r',
      (r ← push_path (E:=E) r b; process_modal c bytes phase r) = Ok (c', r') /\
      remote_bytes r' = remote_bytes r /\ remainder r' = remainder r /\ enabled c' = enabled c /\
      (ended c' = true \/ ended c' = ended c /\ modal c' = modal c) /\
      path_bytes r' = path_bytes r ++ b :: editor_input false bytes /\
      (action r <> CancelOp -> action r' = CancelOp <-> cancels false bytes = true)) as H.
    { intros Hph. destruct (push_path_ok (E:=E) r b) as (r1 & -> & R1 & R2 & R3 & R4); [lia|].
      cbn [mbind res_bind].
      destruct (IH c r1) as (c' & r' & E1 & E2 & E3 & E4 & E5 & E6 & E7); [rewrite R1; zlen_tac|].
      rewrite Hp in E6, E7. exists c', r'. rewrite E1, E2, E3, E4, E6, R1, R2, R3.
      rewrite R4 in E7. split_and!; try done. rewrite <- app_assoc. by destruct phase. }
    destruct phase; [by apply H..|].
    destruct (transfer_bell_emitted c); cbn [negb].
    + destruct (IH c r) as (c' & r' & E1 & E2 & E3 & E4 & E5 & E6 & E7); [lia|].
      rewrite Hp in E7. by exists c', r'.
    + destruct (IH (set_transfer_bell c) (set_action r Bell)) as
        (c' & r' & E1 & E2 & E3 & E4 & E5 & E6 & E7); [cbn; lia|].
      cbn in E7. rewrite Hp in E7. exists c', r'. split_and!; try done. intros _. by apply E7.
Qed.

(** A chunk in pass-through. *)
Lemma process_passing {E} c chunk :
  passing c -> zlen chunk <= INPUT_CAPACITY ->
  exists c' r', process (E:=E) c chunk = Ok (c', r') /\ enabled c' = true /\
    path_bytes r' = [] /\ passed c' r' /\
    forall keys, forwarded (pending_prefix c) (chunk ++ keys) =
      remote_bytes r' ++ if decide (passing c') then forwarded (pending_prefix c') keys else [].
Proof.
  intros Hc Hl. pose proof Hc as (He & Hen & Hm). unfold process. rewrite He, Hen, Hm. cbn [negb].
  destruct (pass_through_ok (E:=E) chunk c default_processed) as (c' & r' & H1 & H2 & H3 & H4 & H5);
    try done; [cbn; change (zlen (@nil Z)) with 0; unfold prefix_len, REMOTE_CAPACITY; destruct (pending_prefix c); lia|].
  by exists c', r'.
Qed.

(** A chunk in a file operation. *)
Lemma process_modal_chunk {E} c chunk phase :
  enabled c = true -> ended c = false -> modal c = Some phase -> zlen chunk <= INPUT_CAPACITY ->
  exists c' r', process (E:=E) c chunk = Ok (c', r') /\ remote_bytes r' = [] /\ remainder r' = [] /\
    enabled c' = true /\ (ended c' = true \/ ended c' = false /\ modal c' = Some phase) /\
    path_bytes r' =
      match phase with Transferring => [] | _ => editor_input (pending_prefix c) chunk end /\
    (action r' = CancelOp <-> cancels (pending_prefix c) chunk = true).
Proof.
  intros He Hen Hm Hl. unfold process. rewrite He, Hen, Hm. cbn [negb].
  destruct (modal_ok (E:=E) chunk c phase default_processed) as
    (c' & r' & E1 & E2 & E3 & E4 & E5 & E6 & E7); [done|].
  exists c', r'. rewrite He, Hen, Hm in *. split_and!; try done. by apply E7.
Qed.

(** Once it is not in pass-through any more, the machine forwards nothing until
    the operation is left. *)
Definition silent (c : LocalControlInput) : Prop :=
  enabled c = true /\ (ended c = true \/ is_Some (modal c)).

Lemma process_chunks_silent {E} chunks c :
  silent c -> Forall (fun k => zlen k <= INPUT_CAPACITY) chunks ->
  exists c' rs, process_chunks (E:=E) c chunks = Ok (c', rs) /\ silent c' /\
    Forall (fun r => remote_bytes r = []) rs.
Proof.
  revert c. induction chunks as [|k chunks IH]; intros c Hc Hk; [by exists c, []|].
  apply Forall_cons in Hk as [Hk Hks]. cbn [process_chunks].
  assert (exists c1 r1, process (E:=E) c k = Ok (c1, r1) /\ silent c1 /\ remote_bytes r1 = []) as
    (c1 & r1 & -> & Hc1 & Hr1).
  { pose proof Hc as [He Hs]. destruct (ended c) eqn:Hen.
    - exists c, default_processed. unfold process. by rewrite Hen.
    - destruct Hs as [?|[phase Hm]]; [done|].
      destruct (process_modal_chunk (E:=E) c k phase He Hen Hm Hk) as (c1 & r1 & -> & Hr & _ & He1 & Hs & _).
      exists c1, r1. split_and!; try done. split; [done|]. destruct Hs as [?|[_ ->]]; [by left|right; by eexists]. }
  cbn [mbind res_bind]. destruct (IH c1 Hc1 Hks) as (c2 & rs & -> & Hc2 & Hrs).
  cbn [mbind res_bind]. exists c2, (r1 :: rs). split_and!; try done. by constructor.
Qed.

Lemma passed_silent c r : enabled c = true -> passed c r -> ~ passing c -> silent c.
Proof.
  intros He [[? _]|[((? & ? & [H|H]) & _)|[? _]]] Hn; [done|..]; split; auto; right; by eexists.
Qed.

Lemma finish_silent {E} c : silent c -> exists c' r, finish (E:=E) c = Ok (c', r) /\ remote_bytes r = [].
Proof.
  intros [He Hs]. unfold finish. rewrite He. destruct (ended c); cbn [orb negb]; [eauto|].
  destruct (pending_prefix c); [|eauto]. destruct Hs as [?|[phase Hm]]; [done|]. cbn [set_prefix modal].
  rewrite Hm. eauto.
Qed.

Lemma finish_passing {E} c :
  passing c -> exists c' r, finish (E:=E) c = Ok (c', r) /\ remote_bytes r = forwarded (pending_prefix c) [].
Proof.
  intros (He & Hen & Hm). unfold finish. rewrite He, Hen. cbn [orb negb].
  destruct (pending_prefix c); [|eauto]. cbn [set_prefix modal]. rewrite Hm.
  destruct (push_remote_ok (E:=E) default_processed LOCAL_ESCAPE) as (r & -> & Hr & _); [done|].
  cbn [mbind res_bind]. eauto.
Qed.

Lemma concat_empty {A} (f : A -> list Z) (l : list A) : Forall (fun x => f x = []) l -> concat (f <$> l) = [].
Proof. induction 1 as [|x l Hx Hl IH]; [done|]. cbn. rewrite Hx. exact IH. Qed.

(** The whole input, chunk by chunk, from pass-through to the end of input. *)
Lemma process_chunks_passing {E} chunks c :
  passing c -> Forall (fun k => zlen k <= INPUT_CAPACITY) chunks ->
  exists c' rs f r, process_chunks (E:=E) c chunks = Ok (c', rs) /\ finish (E:=E) c' = Ok (f, r) /\
    concat (remote_bytes <$> rs) ++ remote_bytes r = forwarded (pending_prefix c) (concat chunks).
Proof.
  revert c. induction chunks as [|k chunks IH]; intros c Hc Hk.
  { destruct (finish_passing (E:=E) c Hc) as (f & r & Hf & Hr). by exists c, [], f, r. }
  apply Forall_cons in Hk as [Hk Hks]. cbn [process_chunks concat].
  destruct (process_passing (E:=E) c k Hc Hk) as (c1 & r1 & -> & He & _ & Hp & Hfw).
  cbn [mbind res_bind]. rewrite Hfw. destruct (decide (passing c1)) as [Hc1|Hc1].
  - destruct (IH c1 Hc1 Hks) as (c2 & rs & f & r & -> & Hf & Hr). cbn [mbind res_bind].
    exists c2, (r1 :: rs), f, r. split_and!; try done. cbn. by rewrite <- Hr, app_assoc.
  - pose proof (passed_silent c1 r1 He Hp Hc1) as Hs.
    destruct (process_chunks_silent (E:=E) chunks c1 Hs Hks) as (c2 & rs & -> & Hs2 & Hrs).
    destruct (finish_silent (E:=E) c2 Hs2) as (f & r & Hf & Hr). cbn [mbind res_bind].
    exists c2, (r1 :: rs), f, r. split_and!; try done. cbn. rewrite Hr, concat_empty by done.
    by rewrite app_nil_r.
Qed.

Lemma process_chunks_transparent {E} chunks :
  Forall (fun k => zlen k <= INPUT_CAPACITY) chunks ->
  exists rs, process_chunks (E:=E) (new_control false false) chunks = Ok (new_control false false, rs) /\
    remote_bytes <$> rs = chunks /\ Forall (fun r => action r = ANone) rs.
Proof.
  induction 1 as [|k chunks Hk Hks (rs & IH & Hr & Ha)]; [by exists []|]. cbn [process_chunks].
  unfold process at 1. cbn [ended enabled new_control negb]. unfold bounded_extend, assert_or_panic.
  change (zlen (@nil Z)) with 0. rewrite (proj2 (Z.leb_le _ _)) by (unfold REMOTE_CAPACITY; lia).
  cbn [mbind res_bind]. change {| enabled := false; ended := false; pending_prefix := false;
    modal := if false && false then Some UploadPrompt else None; transfer_bell_emitted := false |}
    with (new_control false false). rewrite IH. cbn [mbind res_bind].
  eexists. split; [done|]. cbn. split; [by f_equal|]. by constructor.
Qed.

(** C19: keystrokes read in chunks of at most [INPUT_CAPACITY] bytes.  In an
    interactive session no buffer overflows, and what reaches the remote
    terminal, the end of input included, is [forwarded] of all keystrokes
    together: it does not depend on how they were cut into chunks, and it stops
    at the sequence that ends the session or starts a file operation.  Any byte
    string can be sent by typing each [Ctrl+\]] twice.  In a file operation a
    chunk forwards nothing; in a prompt the editor receives exactly its ordinary
    bytes, the operation is cancelled exactly by an unprefixed [Ctrl+C], and the
    machine stays in its phase unless the session ended; leaving the operation
    forgets a waiting prefix.  Non-interactive input is forwarded chunk by chunk,
    unchanged and without a local action. *)
Theorem local_input_routing chunks :
  Forall (fun k => zlen k <= INPUT_CAPACITY) chunks ->
  (exists c rs f r, process_chunks (E:=unit) (new_control true false) chunks = Ok (c, rs) /\
     finish (E:=unit) c = Ok (f, r) /\
     concat (remote_bytes <$> rs) ++ remote_bytes r = forwarded false (concat chunks)) /\
  (forall s, concat chunks = escape_keys s -> forwarded false (concat chunks) = s) /\
  (forall c phase, enabled c = true -> ended c = false -> modal c = Some phase ->
     Forall (fun k => exists c' r, process (E:=unit) c k = Ok (c', r) /\
       remote_bytes r = [] /\ remainder r = [] /\
       path_bytes r =
         match phase with Transferring => [] | _ => editor_input (pending_prefix c) k end /\
       (action r = CancelOp <-> cancels (pending_prefix c) k = true) /\
       (ended c' = true \/ ended c' = false /\ modal c' = Some phase)) chunks) /\
  (forall c, pending_prefix (leave_modal c).1 = false /\ modal (leave_modal c).1 = None) /\
  (exists rs, process_chunks (E:=unit) (new_control false false) chunks =
       Ok (new_control false false, rs) /\
     remote_bytes <$> rs = chunks /\ Forall (fun r => action r = ANone) rs).
Proof.
  intros Hk. split_and!.
  - by apply (process_chunks_passing chunks (new_control true false)).
  - intros s ->. apply forwarded_escape.
  - intros c phase He Hen Hm. eapply Forall_impl; [exact Hk|]. intros k Hl.
    destruct (process_modal_chunk (E:=unit) c k phase He Hen Hm Hl) as
      (c' & r & E1 & E2 & E3 & E4 & E5 & E6 & E7). eauto 10.
  - intros c. unfold leave_modal. cbn. by destruct (pending_prefix c) eqn:E; cbn.
  - by apply process_chunks_transparent.
Qed.

(** [ls], a literal [Ctrl+\]] cut over two reads, the help and an upload whose
    path follows. *)
Definition session_keys : list (list Z) :=
  [ [0x6c; 0x73; 0x1d]; [0x1d; 0x0d; 0x1d; 0x3f; 0x78]; [0x1d; 0x75; 0x61] ].

Lemma local_input_routing_witness :
  Forall (fun k => zlen k <= INPUT_CAPACITY) session_keys /\
  forwarded false (concat session_keys) = [0x6c; 0x73; 0x1d; 0x0d; 0x78] /\
  exists c rs f r, process_chunks (E:=unit) (new_control true false) session_keys = Ok (c, rs) /\
     finish (E:=unit) c = Ok (f, r) /\
     concat (remote_bytes <$> rs) ++ remote_bytes r = [0x6c; 0x73; 0x1d; 0x0d; 0x78].
Proof.
  assert (Forall (fun k => zlen k <= INPUT_CAPACITY) session_keys) as H
    by (repeat constructor; discriminate).
  split; [exact H|]. split; [reflexivity|].
  exact (proj1 (local_input_routing session_keys H)).
Defined.

(** ** Facts about one chunk, for the session that owns the machine *)

Definition starts (a : LocalAction) : Prop := a = StartUpload \/ a = StartDownload.

Lemma modal_facts {E} (P : Z -> Prop) bytes c phase r c' r' :
  process_modal (E:=E) c bytes phase r = Ok (c', r') -> modal c = Some phase -> ended c = false ->
  Forall P bytes -> Forall P (path_bytes r) -> ~ starts (action r) ->
  Forall P (path_bytes r') /\ ~ starts (action r') /\
  ((modal c' = Some phase /\ ended c' = false) \/ (ended c' = true /\ action r' = Detach)).
Proof.
  intros H Hm Hen HP. revert c r H Hm Hen. induction HP as [|b bytes Hb HP IH];
    intros c r H Hm Hen Hr Ha; cbn [process_modal] in H.
  { simplify_eq. split_and!; auto. }
  assert (forall a, ~ starts (action (set_action r a)) <-> ~ starts a) as Hset by done.
  destruct (pending_prefix c).
  - destruct (_ =? 0x2e); [simplify_eq; cbn; split_and!; auto; by intros [?|?]|].
    destruct (_ =? 0x3f); [eapply IH; [exact H|done..|by intros [?|?]]|].
    destruct (_ || _); (eapply IH; [exact H|done..|by intros [?|?]]).
  - destruct (_ =? LOCAL_ESCAPE); [by eapply IH|].
    destruct (_ =? CANCEL_BYTE); [simplify_eq; cbn; split_and!; auto; by intros [?|?]|].
    assert (forall r1, push_path (E:=E) r b = Ok r1 -> Forall P (path_bytes r1) /\ ~ starts (action r1)) as Hpush.
    { unfold push_path, bounded_push. intros r1 Hp. destruct (_ <? _); simplify_eq/=. split; [|done].
      apply Forall_app; split; [done|]. by apply Forall_cons_2, Forall_nil_2. }
    destruct phase.
    + apply res_bind_ok in H as (r1 & Hp & H). apply Hpush in Hp as [? ?]. by eapply IH.
    + apply res_bind_ok in H as (r1 & Hp & H). apply Hpush in Hp as [? ?]. by eapply IH.
    + destruct (transfer_bell_emitted c); cbn [negb] in H; [by eapply IH|].
      eapply IH; [exact H|done..|by intros [?|?]].
Qed.

Lemma pass_facts {E} (P : Z -> Prop) bytes c r c' r' :
  process_pass_through (E:=E) c bytes r = Ok (c', r') -> modal c = None -> ended c = false ->
  Forall P bytes -> path_bytes r = [] -> remainder r = [] -> ~ starts (action r) ->
  path_bytes r' = [] /\ Forall P (remainder r') /\
  ((modal c' = None /\ remainder r' = [] /\ ~ starts (action r')) \/
   (starts (action r') /\ ended c' = false /\ (modal c' = Some UploadPrompt \/ modal c' = Some DownloadPrompt))).
Proof.
  intros H Hm Hen HP. revert c r H Hm Hen. induction HP as [|b bytes Hb HP IH];
    intros c r H Hm Hen Hr Hq Ha; cbn [process_pass_through] in H.
  { simplify_eq. rewrite Hq. split_and!; auto. }
  assert (forall r0 r1 x, push_remote (E:=E) r0 x = Ok r1 ->
    path_bytes r1 = path_bytes r0 /\ remainder r1 = remainder r0 /\ action r1 = action r0) as Hpush.
  { unfold push_remote, bounded_push. intros r0 r1 x Hp. by destruct (_ <? _); simplify_eq/=. }
  assert (forall r0 r1, extend_remainder (E:=E) r0 bytes = Ok r1 -> remainder r0 = [] ->
    path_bytes r1 = path_bytes r0 /\ remainder r1 = bytes /\ action r1 = action r0) as Hext.
  { unfold extend_remainder, bounded_extend. intros r0 r1 Hp Hn. destruct (_ <=? _); simplify_eq/=. by rewrite Hn. }
  destruct (pending_prefix c).
  - destruct (_ =? 0x2e).
    { simplify_eq; cbn. rewrite Hq. split_and!; auto. left. split_and!; auto. by intros [?|?]. }
    destruct (_ =? LOCAL_ESCAPE).
    { apply res_bind_ok in H as (r1 & Hp1 & H); apply Hpush in Hp1 as (? & ? & Hact).
      eapply IH; [exact H|done|done|congruence..|by rewrite Hact]. }
    destruct (_ =? 0x75).
    { apply res_bind_ok in H as (r1 & Hp1 & H); apply Hext in Hp1 as (? & ? & ?); [|done]. simplify_eq/=.
      split_and!; [congruence|congruence|]. right. split_and!; auto. by left. }
    destruct (_ =? 0x64).
    { apply res_bind_ok in H as (r1 & Hp1 & H); apply Hext in Hp1 as (? & ? & ?); [|done]. simplify_eq/=.
      split_and!; [congruence|congruence|]. right. split_and!; auto. by right. }
    destruct (_ =? 0x3f).
    { eapply IH; [exact H|done..|by intros [?|?]]. }
    apply res_bind_ok in H as (r1 & Hp1 & H); apply Hpush in Hp1 as (? & ? & Hact).
    apply res_bind_ok in H as (r2 & Hp2 & H); apply Hpush in Hp2 as (? & ? & Hact2).
    eapply IH; [exact H|done|done|congruence..|by rewrite Hact2, Hact].
  - destruct (_ =? LOCAL_ESCAPE); [by eapply IH|].
    apply res_bind_ok in H as (r1 & Hp1 & H); apply Hpush in Hp1 as (? & ? & Hact).
    eapply IH; [exact H|done|done|congruence..|by rewrite Hact].
Qed.

(** What a chunk's result says about the machine after it. *)
Record chunk_result (c c' : LocalControlInput) (r : ProcessedInput) : Prop := {
  cr_input : path_bytes r <> [] \/ remainder r <> [] ->
    action r = Detach \/ is_Some (modal c');
  cr_start : starts (action r) -> modal c = None /\ ended c = false /\ ended c' = false /\
    (modal c' = Some UploadPrompt \/ modal c' = Some DownloadPrompt);
  cr_modal : is_Some (modal c) \/ ended c = true ->
    (modal c' = modal c /\ ended c' = ended c) \/ ended c' = true
}.

Lemma process_ok {E} (P : Z -> Prop) c chunk :
  zlen chunk <= INPUT_CAPACITY -> Forall P chunk ->
  exists c' r, process (E:=E) c chunk = Ok (c', r) /\ chunk_result c c' r /\
    Forall P (path_bytes r) /\ Forall P (remainder r).
Proof.
  intros Hl HP. unfold process. destruct (ended c) eqn:Hen.
  { eexists _, _. split; [done|]. split_and!; try constructor; cbn; try (by intros [?|?]).
    intros _. by left. }
  destruct (enabled c) eqn:He; cbn [negb].
  2:{ unfold bounded_extend, assert_or_panic. change (zlen (@nil Z)) with 0.
      rewrite (proj2 (Z.leb_le _ _)) by (unfold REMOTE_CAPACITY; lia). cbn [mbind res_bind].
      eexists _, _. split; [done|]. split_and!; try constructor; cbn; try (by intros [?|?]).
      intros _. by left. }
  destruct (modal c) as [phase|] eqn:Hm.
  - destruct (process_modal_chunk (E:=E) c chunk phase He Hen Hm Hl) as (c' & r & Hp & _ & Hrem & _).
    unfold process in Hp. rewrite Hen, He, Hm in Hp. cbn [negb] in Hp. rewrite Hp.
    apply (modal_facts P) in Hp as (H1 & H2 & H3); try done; [|by intros [?|?]].
    exists c', r. split; [done|]. rewrite Hrem. split_and!; [|done|done].
    constructor; [intros _|done|intros _].
    + destruct H3 as [[-> _]|[_ ?]]; [right; by eexists|by left].
    + rewrite Hm, Hen. destruct H3 as [[? ?]|[? _]]; auto.
  - destruct (process_passing (E:=E) c chunk) as (c' & r & Hp & _); [done|done|].
    unfold process in Hp. rewrite Hen, He, Hm in Hp. cbn [negb] in Hp. rewrite Hp.
    apply (pass_facts P) in Hp as (H1 & H2 & H3); try done; [|by intros [?|?]].
    exists c', r. split; [done|]. rewrite H1. split_and!; [|done|done].
    constructor; rewrite ?Hm, ?Hen.
    + intros [?|Hr]; [done|]. destruct H3 as [(_ & ? & _)|(_ & _ & [-> | ->])]; [done|right; by eexists..].
    + intros Hs. destruct H3 as [(_ & _ & ?)|(_ & ? & ?)]; [done|auto].
    + intros [[? ?]|?]; done.
Qed.

Lemma finish_ok {E} c :
  exists c' r, finish (E:=E) c = Ok (c', r) /\ modal c' = modal c /\ ended c' = ended c.
Proof.
  unfold finish. destruct (ended c || negb (enabled c)); [by eexists _, _|].
  destruct (pending_prefix c); [|by eexists _, _]. cbn [set_prefix modal].
  destruct (modal c) eqn:Hm; [by eexists _, _|].
  destruct (push_remote_ok (E:=E) default_processed LOCAL_ESCAPE) as (r & -> & _); [done|].
  cbn [mbind res_bind]. eexists _, _. split; [done|]. cbn. by rewrite Hm.
Qed.
