(* ===== verification/PathPrompt.v ===== *)
(** The path prompt and the delayed output buffer:
    [crates/yon/src/transfer_prompt.rs].

    [PathPrompt] is the line editor in which the user types the source and the
    destination of a file transfer.  It is fed bytes as they are read; a character
    of several bytes may be split over reads and is held in [pending] until it is
    complete.  [DelayedOutputBuffer] keeps the remote output that arrives while a
    prompt is open.

    A [String] is modelled by its bytes; [String::pop] removes the continuation
    bytes at the end and the byte before them. *)

From S2P Require Import Prelude Utf8 WireFileTransfer.

Definition PROMPT_PATH_LIMIT : Z := MAX_PATH_LEN.
Definition DELAYED_OUTPUT_CAP : Z := 256 * 1024.

Inductive PromptResult : Type :=
| Submitted (path : list Z)
| Empty
| Cancelled
| Reprompt
| PBell
| PContinue.

Inductive StepOutcome : Type :=
| Terminal (result : PromptResult)
| SBell
| SContinue.

Record PathPrompt : Type := {
  max_len : Z;
  allow_empty : bool;
  line : list Z;
  pending : list Z;
  pending_len : Z;
  pending_expected : Z
}.

Definition new_prompt (max_len : Z) (allow_empty : bool) : PathPrompt :=
  {| max_len := max_len; allow_empty := allow_empty; line := []; pending := zeros 3;
     pending_len := 0; pending_expected := 0 |}.

Definition required (max_len : Z) : PathPrompt := new_prompt max_len false.
Definition with_default (max_len : Z) : PathPrompt := new_prompt max_len true.

Definition current_line (p : PathPrompt) : list Z := line p.

Definition set_line (p : PathPrompt) (l : list Z) : PathPrompt :=
  {| max_len := max_len p; allow_empty := allow_empty p; line := l; pending := pending p;
     pending_len := pending_len p; pending_expected := pending_expected p |}.

Definition set_pending (p : PathPrompt) (bytes : list Z) (len expected : Z) : PathPrompt :=
  {| max_len := max_len p; allow_empty := allow_empty p; line := line p; pending := bytes;
     pending_len := len; pending_expected := expected |}.

Definition clear_pending (p : PathPrompt) : PathPrompt :=
  set_pending p (pending p) 0 (pending_expected p).

Definition reset (p : PathPrompt) : PathPrompt := clear_pending (set_line p []).

Definition clear (p : PathPrompt) : PathPrompt := reset p.

Definition reprompt (p : PathPrompt) : StepOutcome * PathPrompt := (Terminal Reprompt, reset p).

(** Only called with a lead byte [0xc2..=0xf4]. *)
Definition sequence_len (lead : Z) : Z :=
  if (0xc2 <=? lead) && (lead <=? 0xdf) then 2
  else if (0xe0 <=? lead) && (lead <=? 0xef) then 3
  else 4.

(** [String::pop]. *)
Fixpoint pop_rev (r : list Z) : list Z :=
  match r with [] => [] | b :: r' => if is_cont b then pop_rev r' else r' end.

Definition pop_char (l : list Z) : list Z := reverse (pop_rev (reverse l)).

Definition append_ascii (p : PathPrompt) (byte : Z) : StepOutcome * PathPrompt :=
  if max_len p <=? zlen (line p) then reprompt p
  else (SContinue, set_line p (line p ++ [byte])).

Definition start_sequence (p : PathPrompt) (lead : Z) : res unit (StepOutcome * PathPrompt) :=
  let outcome := if negb (pending_len p =? 0) then SBell else SContinue in
  bytes ← set_index (pending p) 0 lead;
  Ok (outcome, set_pending p bytes 1 (sequence_len lead)).

Definition continue_sequence (p : PathPrompt) (byte : Z) : res unit (StepOutcome * PathPrompt) :=
  if (pending_len p =? 0) || (pending_expected p <=? pending_len p) then Ok (SBell, p)
  else if pending_len p + 1 <? pending_expected p then
    bytes ← set_index (pending p) (pending_len p) byte;
    Ok (SContinue, set_pending p bytes (pending_len p + 1) (pending_expected p))
  else
    let seq := zeros 4 in
    let seq_len := pending_len p + 1 in
    held ← slice (pending p) 0 (pending_len p);
    seq ← copy_range seq 0 (pending_len p) held;
    seq ← set_index seq (pending_len p) byte;
    let p := clear_pending p in
    candidate ← slice seq 0 seq_len;
    match from_utf8 candidate with
    | None => Ok (SBell, p)
    | Some text =>
      if max_len p <? zlen (line p) + seq_len then Ok (reprompt p)
      else Ok (SContinue, set_line p (line p ++ text))
    end.

Definition backspace (p : PathPrompt) : PathPrompt :=
  if negb (pending_len p =? 0) then clear_pending p
  else set_line p (pop_char (line p)).

Definition submit (p : PathPrompt) : PromptResult * PathPrompt :=
  let text := line p in
  let p := set_line (clear_pending p) [] in
  if zlen text =? 0 then (if allow_empty p then Empty else Reprompt, p)
  else
    match validate_protocol_path text with
    | Ok _ => (Submitted text, p)
    | _ => (Reprompt, p)
    end.

Definition step (p : PathPrompt) (byte : Z) : res unit (StepOutcome * PathPrompt) :=
  if byte =? 0x03 then Ok (Terminal Cancelled, reset p)
  else if (byte =? 0x0a) || (byte =? 0x0d) then
    let '(result, p) := submit p in Ok (Terminal result, p)
  else if (byte =? 0x08) || (byte =? 0x7f) then Ok (SContinue, backspace p)
  else if (0x20 <=? byte) && (byte <=? 0x7e) then Ok (append_ascii p byte)
  else if (0x80 <=? byte) && (byte <=? 0xbf) then continue_sequence p byte
  else if (0xc2 <=? byte) && (byte <=? 0xf4) then start_sequence p byte
  else Ok (SBell, p).

(** [feed_impl]: the loop, with its [bell] flag. *)
Fixpoint feed_loop (p : PathPrompt) (bytes : list Z) (bell : bool) : res unit (PromptResult * PathPrompt) :=
  match bytes with
  | [] => Ok (if bell then PBell else PContinue, p)
  | byte :: rest =>
    '(outcome, p) ← step p byte;
    match outcome with
    | Terminal result => Ok (result, p)
    | SBell => feed_loop p rest true
    | SContinue => feed_loop p rest bell
    end
  end.

Definition feed (p : PathPrompt) (bytes : list Z) : res unit (PromptResult * PathPrompt) :=
  feed_loop p bytes false.

Definition feed_initial (p : PathPrompt) (bytes : list Z) : res unit (PromptResult * PathPrompt) :=
  feed_loop p bytes false.

(** ** The delayed output buffer *)

Inductive AppendOutcome : Type := AppendOk | Overflow.

Record DelayedOutputBuffer : Type := {
  capacity : Z;
  delayed_bytes : list Z
}.

Definition new_delayed (capacity : Z) : DelayedOutputBuffer :=
  {| capacity := capacity; delayed_bytes := [] |}.

Definition append (d : DelayedOutputBuffer) (bytes : list Z) : AppendOutcome * DelayedOutputBuffer :=
  match checked_add_u64 (zlen (delayed_bytes d)) (zlen bytes) with
  | None => (Overflow, d)
  | Some total =>
    if capacity d <? total then (Overflow, d)
    else (AppendOk, {| capacity := capacity d; delayed_bytes := delayed_bytes d ++ bytes |})
  end.

Definition take_all (d : DelayedOutputBuffer) : list Z * DelayedOutputBuffer :=
  (delayed_bytes d, {| capacity := capacity d; delayed_bytes := [] |}).

Definition delayed_is_empty (d : DelayedOutputBuffer) : bool := zlen (delayed_bytes d) =? 0.
Definition delayed_used (d : DelayedOutputBuffer) : Z := zlen (delayed_bytes d).

(** ** Characters of a line *)

Lemma second_of_three_cont b0 b1 : utf8_second_of_three b0 b1 = true -> is_cont b1 = true.
Proof. unfold utf8_second_of_three, is_cont. repeat match goal with |- context [b0 =? ?k] => destruct (b0 =? k) end; lia. Qed.

Lemma second_of_four_cont b0 b1 : utf8_second_of_four b0 b1 = true -> is_cont b1 = true.
Proof. unfold utf8_second_of_four, is_cont. repeat match goal with |- context [b0 =? ?k] => destruct (b0 =? k) end; lia. Qed.

(** A character is one ASCII byte, or a lead byte and its continuation bytes. *)
Lemma is_char_shape s :
  is_char s ->
  (exists b, s = [b] /\ b < 0x80) \/
  (exists b0 l0, s = b0 :: l0 /\ 0xc2 <= b0 <= 0xf4 /\ Forall (fun b => is_cont b = true) l0 /\
     zlen s = sequence_len b0 /\ l0 <> []).
Proof.
  destruct s as [|b0 l0]; [done|]. unfold is_char, sequence_len. intros H.
  unfold utf8_next in H.
  destruct (Z.ltb_spec b0 0x80) as [Hb|Hb].
  { left. injection H as H. destruct l0; [|done]. eauto. }
  right. exists b0, l0.
  destruct ((0xC2 <=? b0) && (b0 <=? 0xDF)) eqn:E2;
    [|destruct ((0xE0 <=? b0) && (b0 <=? 0xEF)) eqn:E3;
      [|destruct ((0xF0 <=? b0) && (b0 <=? 0xF4)) eqn:E4; [|done]]];
  (split; [done|]); (split; [lia|]);
  repeat match type of H with
  | context [if ?b then _ else _] => destruct b eqn:?; try done
  | context [match ?l with [] => _ | _ :: _ => _ end] => is_var l; destruct l; try done
  end; simpl in H; injection H as H;
  repeat match type of H with context [length ?l] => destruct l; [clear H|discriminate H] end;
  (split; [repeat constructor; eauto using second_of_three_cont, second_of_four_cont|done]).
Qed.

Lemma pop_char_app l s : is_char s -> pop_char (l ++ s) = l.
Proof.
  assert (forall r m, Forall (fun b => is_cont b = true) r -> pop_rev (r ++ m) = pop_rev m) as Hpop.
  { intros r m. induction 1 as [|b r Hb Hr IH]; [done|]. simpl. by rewrite Hb. }
  intros [(b & -> & Hb)|(b0 & l0 & -> & Hb & Hl & _)]%is_char_shape; unfold pop_char;
    rewrite reverse_app.
  - rewrite reverse_singleton. simpl. assert (is_cont b = false) as -> by (unfold is_cont; lia).
    apply reverse_involutive.
  - rewrite reverse_cons, <- app_assoc, Hpop by (by apply Forall_reverse). simpl.
    assert (is_cont b0 = false) as -> by (unfold is_cont; lia). apply reverse_involutive.
Qed.

Lemma pop_char_nil : pop_char [] = [].
Proof. done. Qed.

(** Removing a character keeps the line a text. *)
Lemma pop_char_valid l :
  valid_utf8 l -> valid_utf8 (pop_char l) /\ zlen (pop_char l) <= zlen l /\
    (bytes l -> bytes (pop_char l)).
Proof.
  intros (cs & -> & Hcs)%valid_utf8_chars.
  destruct cs as [|s cs _] using rev_ind.
  { split_and!; [by exists []|done|done]. }
  apply Forall_app in Hcs as [Hcs [Hs _]%Forall_cons_1].
  replace (concat (cs ++ [s])) with (concat cs ++ s)
    by (rewrite concat_app; cbn; by rewrite app_nil_r).
  rewrite (pop_char_app _ _ Hs).
  split_and!; [apply valid_utf8_chars; eauto|zlen_tac|]. by intros [? ?]%Forall_app.
Qed.

(** ** The branches of [step] *)

Ltac decide_tests :=
  repeat match goal with |- context [?x =? ?y] => destruct (Z.eqb_spec x y); [lia|] end;
  repeat match goal with
  | |- context [?x <=? ?y] => first [rewrite (proj2 (Z.leb_le x y)) by lia | rewrite (proj2 (Z.leb_gt x y)) by lia]
  end.

Lemma step_cancel p : step p 0x03 = Ok (Terminal Cancelled, reset p).
Proof. done. Qed.

Lemma step_enter p b : b = 0x0a \/ b = 0x0d -> step p b = Ok (Terminal (submit p).1, (submit p).2).
Proof. unfold step. intros [-> | ->]; cbn -[submit]; by destruct (submit p). Qed.

Lemma step_back p b : b = 0x08 \/ b = 0x7f -> step p b = Ok (SContinue, backspace p).
Proof. by intros [-> | ->]. Qed.

Lemma step_ascii p b : 0x20 <= b <= 0x7e -> step p b = Ok (append_ascii p b).
Proof. intros H. unfold step. decide_tests. done. Qed.

Lemma step_cont p b : is_cont b = true -> step p b = continue_sequence p b.
Proof. unfold is_cont. intros H. unfold step. decide_tests. done. Qed.

Lemma step_lead p b : 0xc2 <= b <= 0xf4 -> step p b = start_sequence p b.
Proof. intros H. unfold step. decide_tests. done. Qed.

(** ** The invariant of a prompt: the line is a text within the bound, and the
    bytes held are fewer than the character they began needs *)

Record prompt_inv (p : PathPrompt) : Prop := {
  pi_pending : zlen (pending p) = 3;
  pi_held : pending_len p = 0 \/ 1 <= pending_len p < pending_expected p;
  pi_expected : pending_len p = 0 \/ pending_expected p <= 4;
  pi_line : valid_utf8 (line p);
  pi_bound : zlen (line p) <= max_len p;
  pi_bytes : bytes (line p);
  pi_pending_bytes : bytes (pending p)
}.

(** What an outcome promises: a submitted path is one that the protocol carries,
    only a field with a default is submitted empty, and a terminal outcome is
    neither a bell nor a continuation. *)
Definition result_ok (p : PathPrompt) (r : PromptResult) : Prop :=
  match r with
  | Submitted s => path_ok s /\ 1 <= zlen s <= max_len p
  | Empty => allow_empty p = true
  | _ => True
  end.

Definition ends (r : PromptResult) : bool :=
  match r with PBell | PContinue => false | _ => true end.

Definition outcome_ok (p : PathPrompt) (o : StepOutcome) : Prop :=
  match o with Terminal r => result_ok p r /\ ends r = true | _ => True end.

Definition same_field (p p' : PathPrompt) : Prop :=
  max_len p' = max_len p /\ allow_empty p' = allow_empty p.

Lemma new_prompt_inv n e : 0 <= n -> prompt_inv (new_prompt n e).
Proof.
  intros H. split; cbn; auto using bytes_zeros. by eexists.
Qed.

Lemma clear_pending_inv p : prompt_inv p -> prompt_inv (clear_pending p).
Proof. intros []. split; cbn; auto. Qed.

Lemma set_line_inv p l :
  prompt_inv p -> valid_utf8 l -> zlen l <= max_len p -> bytes l -> prompt_inv (set_line p l).
Proof. intros [] ? ? ?. by split. Qed.

Lemma prompt_bound_nonneg p : prompt_inv p -> 0 <= max_len p.
Proof. intros []. pose proof (zlen_nonneg (line p)). lia. Qed.

Lemma reset_inv p : prompt_inv p -> prompt_inv (reset p).
Proof.
  intros H. apply clear_pending_inv, set_line_inv; [done|by eexists| |constructor].
  by apply prompt_bound_nonneg.
Qed.

Lemma submit_ok p :
  prompt_inv p -> prompt_inv (submit p).2 /\ same_field p (submit p).2 /\ outcome_ok p (Terminal (submit p).1).
Proof.
  intros H. pose proof H as [_ _ _ Hv Hb Hbytes _]. unfold submit.
  assert (prompt_inv (set_line (clear_pending p) [])) as Hi.
  { apply set_line_inv; [by apply clear_pending_inv|by eexists| |constructor]. by apply prompt_bound_nonneg, clear_pending_inv. }
  destruct (Z.eqb_spec (zlen (line p)) 0) as [H0|H0]; cbn.
  - split; [done|]. split; [done|]. by destruct (allow_empty p) eqn:E.
  - destruct (validate_protocol_path (line p)) as [[]|?|] eqn:E; cbn; split_and!; try done.
    pose proof (zlen_nonneg (line p)). lia.
Qed.

Lemma set_index_three {E} (l : list Z) i v :
  zlen l = 3 -> 0 <= i < 3 -> is_u8 v -> bytes l ->
  exists l', set_index (E:=E) l i v = Ok l' /\ zlen l' = 3 /\ bytes l'.
Proof.
  intros Hl Hi Hv Hb. unfold set_index, copy_range.
  rewrite !(proj2 (Z.leb_le _ _)) by lia. rewrite (proj2 (Z.eqb_eq _ _)) by (change (zlen [v]) with 1; lia). cbn [andb].
  eexists. split; [done|]. unfold zlen in *. rewrite !length_app, length_take, length_drop. simpl. split; [lia|].
  apply Forall_app; split; [by apply Forall_take|]. constructor; [done|by apply Forall_drop].
Qed.

Lemma append_ascii_ok p b :
  prompt_inv p -> 0x20 <= b <= 0x7e ->
  prompt_inv (append_ascii p b).2 /\ same_field p (append_ascii p b).2 /\ outcome_ok p (append_ascii p b).1.
Proof.
  intros H Hb. unfold append_ascii. destruct (Z.leb_spec (max_len p) (zlen (line p))); cbn.
  - split_and!; try done. by apply reset_inv.
  - pose proof H as []. split_and!; try done. apply set_line_inv; try done; [|zlen_tac|].
    + apply valid_utf8_app; [done|]. eexists. simpl. by rewrite (proj2 (Z.ltb_lt _ _)) by lia.
    + apply Forall_app; split; [done|]. repeat constructor; lia.
Qed.

Lemma continue_sequence_ok p b :
  prompt_inv p -> is_u8 b ->
  exists o p', continue_sequence p b = Ok (o, p') /\ prompt_inv p' /\ same_field p p' /\ outcome_ok p o.
Proof.
  intros H Hb. pose proof H as [Hp Hh He Hv Hbd Hby Hpb]. unfold continue_sequence.
  destruct (Z.eqb_spec (pending_len p) 0) as [H0|H0]; cbn [orb]; [by exists SBell, p|].
  destruct Hh as [?|Hh]; [done|]. destruct He as [?|He]; [done|].
  rewrite (proj2 (Z.leb_gt _ _)) by lia.
  destruct (Z.ltb_spec (pending_len p + 1) (pending_expected p)) as [Hlt|Hge].
  { destruct (set_index_three (E:=unit) (pending p) (pending_len p) b) as (l & -> & Hl & Hlb); try done; [lia|].
    cbn [mbind res_bind]. eexists _, _. split; [done|]. split_and!; try done.
    split; cbn; try done; [right; lia|right; lia]. }
  destruct (split_at (pending p) (pending_len p)) as (held & junk & Heq & Hlen); [lia|].
  rewrite Heq, slice_head by done. cbn [mbind res_bind].
  assert (zlen held <= 3) by zlen_tac.
  rewrite (copy_range_append [] held 4) by (change (zlen (@nil Z)) with 0; lia). cbn [mbind res_bind app].
  rewrite set_index_append by lia. cbn [mbind res_bind].
  rewrite slice_head by zlen_tac. cbn [mbind res_bind].
  destruct (from_utf8 (held ++ [b])) as [text|] eqn:Ef.
  2:{ eexists _, _. split; [done|]. split_and!; try done. by apply clear_pending_inv. }
  apply from_utf8_some in Ef as [-> Hvt].
  destruct (Z.ltb_spec (max_len (clear_pending p)) (zlen (line (clear_pending p)) + (pending_len p + 1)));
    eexists _, _; (split; [done|]); split_and!; try done.
  - by apply reset_inv, clear_pending_inv.
  - apply set_line_inv; [by apply clear_pending_inv|by apply valid_utf8_app|cbn in *; zlen_tac|].
    apply Forall_app; split; [done|]. apply Forall_app; split; [|by apply Forall_cons_2, Forall_nil_2].
    rewrite Heq in Hpb. by apply Forall_app in Hpb as [? _].
Qed.

Lemma start_sequence_ok p b :
  prompt_inv p -> 0xc2 <= b <= 0xf4 ->
  exists o p', start_sequence p b = Ok (o, p') /\ prompt_inv p' /\ same_field p p' /\ outcome_ok p o.
Proof.
  intros H Hb. pose proof H as [Hp Hh He Hv Hbd Hby Hpb]. unfold start_sequence.
  destruct (set_index_three (E:=unit) (pending p) 0 b) as (l & -> & Hl & Hlb); try done; [unfold is_u8; lia|].
  cbn [mbind res_bind]. eexists _, _. split; [done|].
  assert (2 <= sequence_len b <= 4) by (unfold sequence_len; repeat case_match; lia).
  split_and!; try done; [split; cbn; try done; right; lia|]. by destruct (negb _).
Qed.

Lemma step_ok p b :
  prompt_inv p -> is_u8 b ->
  exists o p', step p b = Ok (o, p') /\ prompt_inv p' /\ same_field p p' /\ outcome_ok p o.
Proof.
  intros H Hb. pose proof H as []. unfold step.
  destruct (Z.eqb_spec b 0x03) as [->|].
  { eexists _, _. split; [done|]. split_and!; try done. by apply reset_inv. }
  destruct ((b =? 0x0a) || (b =? 0x0d)) eqn:E1.
  { destruct (submit_ok p H) as (? & ? & ?). destruct (submit p) as [r p'] eqn:Es. by eexists _, _. }
  destruct ((b =? 0x08) || (b =? 0x7f)) eqn:E2.
  { eexists _, _. split; [done|]. unfold backspace. destruct (negb _); split_and!; try done.
    - by apply clear_pending_inv.
    - destruct (pop_char_valid (line p)) as (? & ? & ?); [done|]. apply set_line_inv; auto. lia. }
  destruct ((0x20 <=? b) && (b <=? 0x7e)) eqn:E3.
  { destruct (append_ascii_ok p b H ltac:(lia)) as (? & ? & ?).
    destruct (append_ascii p b) as [o p'] eqn:Ea. by eexists _, _. }
  destruct ((0x80 <=? b) && (b <=? 0xbf)) eqn:E4; [by apply continue_sequence_ok|].
  destruct ((0xc2 <=? b) && (b <=? 0xf4)) eqn:E5; [apply start_sequence_ok; [done|lia]|].
  by exists SBell, p.
Qed.

Lemma feed_loop_ok bs p bell :
  prompt_inv p -> bytes bs ->
  exists r p', feed_loop p bs bell = Ok (r, p') /\ prompt_inv p' /\ same_field p p' /\ result_ok p r.
Proof.
  intros H Hb. revert p bell H. induction Hb as [|b bs Hb Hbs IH]; intros p bell H.
  { eexists _, p. split; [done|]. by destruct bell. }
  cbn [feed_loop]. destruct (step_ok p b H Hb) as (o & p1 & -> & Hi & [Hs1 Hs2] & Ho).
  cbn [mbind res_bind]. destruct o as [r| |].
  - destruct Ho. by exists r, p1.
  - destruct (IH p1 true Hi) as (r & p2 & -> & ? & [? ?] & Hr). exists r, p2.
    split_and!; try done; [split; congruence|]. destruct r; cbn in *; try done; congruence.
  - destruct (IH p1 bell Hi) as (r & p2 & -> & ? & [? ?] & Hr). exists r, p2.
    split_and!; try done; [split; congruence|]. destruct r; cbn in *; try done; congruence.
Qed.

(** ** Typing whole characters *)

(** The prompt holds the first bytes [h] of a character [s]. *)
Definition holds (p : PathPrompt) (h s : list Z) : Prop :=
  exists junk, pending p = h ++ junk /\ zlen (pending p) = 3 /\ pending_len p = zlen h /\
    pending_expected p = zlen s.

Definition fresh (p : PathPrompt) (l : list Z) : Prop :=
  zlen (pending p) = 3 /\ pending_len p = 0 /\ line p = l.

(** What typing a whole character does to a prompt whose line is [l]: the line is
    full, or the character is appended. *)
Definition typed (p : PathPrompt) (l s rest : list Z) (bell : bool)
  (r : res unit (PromptResult * PathPrompt)) : Prop :=
  if max_len p <? zlen l + zlen s
  then exists p', r = Ok (Reprompt, p') /\ fresh p' [] /\ same_field p p'
  else exists p', r = feed_loop p' rest bell /\ fresh p' (l ++ s) /\ same_field p p'.

Lemma feed_held c p h rest bell :
  c <> [] -> h <> [] -> is_char (h ++ c) -> Forall (fun b => is_cont b = true) c ->
  holds p h (h ++ c) -> typed p (line p) (h ++ c) rest bell (feed_loop p (c ++ rest) bell).
Proof.
  revert p h. induction c as [|b c IH]; intros p h Hc Hh Hchar Hcont (junk & Hp & Hl & Hn & He); [done|].
  apply Forall_cons in Hcont as [Hb Hcs]. cbn [feed_loop app]. rewrite step_cont by done.
  assert (1 <= zlen h) by (destruct h; [done|zlen_tac]).
  assert (zlen (h ++ b :: c) <= 4) as H4.
  { destruct (h ++ b :: c) as [|x y] eqn:E; [done|].
    apply utf8_next_char in Hchar as [? _]. unfold zlen. lia. }
  unfold continue_sequence. rewrite Hn, He.
  rewrite (proj2 (Z.eqb_neq _ _)) by lia. cbn [orb].
  rewrite (proj2 (Z.leb_gt _ _)) by zlen_tac.
  destruct c as [|b' c].
  - rewrite (proj2 (Z.ltb_ge _ _)) by zlen_tac. rewrite Hp, slice_head by done.
    cbn [mbind res_bind]. assert (zlen h <= 3) by (rewrite Hp in Hl; zlen_tac).
    rewrite (copy_range_append [] h 4) by (change (zlen (@nil Z)) with 0; lia). cbn [mbind res_bind app].
    rewrite set_index_append by lia. cbn [mbind res_bind].
    rewrite slice_head by zlen_tac. cbn [mbind res_bind].
    rewrite (proj2 (from_utf8_some _ (h ++ [b]))) by (by split; [|apply is_char_valid]).
    unfold typed. replace (zlen h + 1) with (zlen (h ++ [b])) by zlen_tac.
    destruct (_ <? _); cbn [mbind res_bind].
    + eexists. split; [done|]. by split_and!.
    + eexists. split; [done|]. by split_and!.
  - rewrite (proj2 (Z.ltb_lt _ _)) by zlen_tac. rewrite Hp.
    destruct junk as [|j junk]; [rewrite Hp in Hl; zlen_tac|].
    assert (set_index (E:=unit) (h ++ j :: junk) (zlen h) b = Ok ((h ++ [b]) ++ junk)) as ->.
    { unfold set_index, copy_range. rewrite !(proj2 (Z.leb_le _ _)) by zlen_tac.
      rewrite (proj2 (Z.eqb_eq _ _)) by (change (zlen [b]) with 1; lia). cbn [andb]. f_equal.
      rewrite take_zlen_app by done. replace (h ++ j :: junk) with ((h ++ [j]) ++ junk)
        by (by rewrite <- app_assoc).
      rewrite (drop_zlen_app (h ++ [j]) junk) by (rewrite zlen_app; done). by rewrite <- app_assoc. }
    cbn [mbind res_bind].
    pose proof (IH (set_pending p ((h ++ [b]) ++ junk) (zlen h + 1) (zlen (h ++ b :: b' :: c))) (h ++ [b])) as IH'.
    rewrite <- app_assoc in IH'. apply IH'; try done; [by destruct h|].
    exists junk. rewrite Hp in Hl. split_and!; try done; cbn; zlen_tac.
Qed.

Definition printable (s : list Z) : Prop :=
  match s with [b] => 0x20 <= b <= 0x7e | _ => True end.

Lemma feed_char s p l rest bell :
  is_char s -> printable s -> fresh p l -> typed p l s rest bell (feed_loop p (s ++ rest) bell).
Proof.
  intros Hs Hpr (H3 & H0 & <-). pose proof Hs as [(b & -> & Hb)|(b0 & c & -> & Hb & Hcont & Hlen & Hne)]%is_char_shape.
  - cbn [feed_loop app]. rewrite step_ascii by done. unfold append_ascii, typed.
    change (zlen [b]) with 1. cbn [mbind res_bind].
    destruct (Z.leb_spec (max_len p) (zlen (line p))).
    + rewrite (proj2 (Z.ltb_lt _ _)) by lia. cbn. eexists. by split_and!.
    + rewrite (proj2 (Z.ltb_ge _ _)) by lia. cbn. eexists. by split_and!.
  - cbn [feed_loop app]. rewrite step_lead by done. unfold start_sequence. rewrite H0. cbn [negb Z.eqb].
    destruct (pending p) as [|x junk] eqn:Hp; [done|].
    assert (set_index (E:=unit) (x :: junk) 0 b0 = Ok ([b0] ++ junk)) as ->.
    { unfold set_index, copy_range. rewrite !(proj2 (Z.leb_le _ _)) by zlen_tac. cbn [andb].
      rewrite (proj2 (Z.eqb_eq _ _)) by (change (zlen [b0]) with 1; lia). done. }
    cbn [mbind res_bind].
    pose proof (feed_held c (set_pending p ([b0] ++ junk) 1 (sequence_len b0)) [b0] rest bell) as H.
    cbn [app] in H. apply H; try done. exists junk. split_and!; try done.
Qed.

(** A key: a printable character, or one of the two erase bytes. *)
Inductive key : Type :=
| KChar (s : list Z)
| KErase (b : Z).

Definition key_ok (k : key) : Prop :=
  match k with
  | KChar s => is_char s /\ printable s /\ bytes s
  | KErase b => b = 0x08 \/ b = 0x7f
  end.

Definition key_bytes (k : key) : list Z := match k with KChar s => s | KErase b => [b] end.

(** The editor that the prompt implements, on whole characters: [None] when a
    character does not fit. *)
Fixpoint edit (max_len : Z) (keys : list key) (chars : list (list Z)) : option (list (list Z)) :=
  match keys with
  | [] => Some chars
  | KChar s :: keys =>
    if max_len <? zlen (concat chars) + zlen s then None else edit max_len keys (chars ++ [s])
  | KErase _ :: keys => edit max_len keys (removelast chars)
  end.

(** What [Enter] makes of the line. *)
Definition submission (allow_empty : bool) (l : list Z) : PromptResult :=
  if zlen l =? 0 then if allow_empty then Empty else Reprompt
  else match validate_protocol_path l with Ok _ => Submitted l | _ => Reprompt end.

Lemma submit_spec p : (submit p).1 = submission (allow_empty p) (line p) /\
  (zlen (pending p) = 3 -> fresh (submit p).2 []) /\ same_field p (submit p).2.
Proof.
  unfold submit, submission, fresh, same_field.
  destruct (zlen (line p) =? 0); cbn; [by destruct (allow_empty p)|].
  by destruct (validate_protocol_path _).
Qed.

Lemma feed_keys keys p chars enter rest :
  Forall key_ok keys -> Forall is_char chars -> fresh p (concat chars) -> enter = 0x0a \/ enter = 0x0d ->
  exists p', feed_loop p (concat (key_bytes <$> keys) ++ enter :: rest) false =
      Ok (match edit (max_len p) keys chars with
          | None => Reprompt
          | Some chars' => submission (allow_empty p) (concat chars')
          end, p') /\ fresh p' [] /\ same_field p p'.
Proof.
  intros Hk. revert p chars. induction Hk as [|k keys Hk Hks IH]; intros p chars Hc Hf He.
  - cbn [concat fmap list_fmap app feed_loop edit]. rewrite step_enter by done. cbn [mbind res_bind].
    destruct (submit_spec p) as (-> & Hfr & Hsame). destruct Hf as (? & ? & ->).
    eexists. split; [done|]. auto.
  - change (concat (key_bytes <$> k :: keys)) with (key_bytes k ++ concat (key_bytes <$> keys)).
    rewrite <- app_assoc. destruct k as [s|b]; cbn [key_bytes edit].
    + destruct Hk as (Hs & Hpr & _).
      pose proof (feed_char s p (concat chars) (concat (key_bytes <$> keys) ++ enter :: rest) false Hs Hpr Hf) as Ht.
      unfold typed in Ht. destruct (_ <? _).
      * destruct Ht as (p' & -> & ? & ?). by exists p'.
      * destruct Ht as (p1 & -> & Hf1 & [Hm1 Ha1]).
        destruct (IH p1 (chars ++ [s])) as (p2 & -> & ? & [? ?]).
        { apply Forall_app; split; [done|]. by apply Forall_cons_2, Forall_nil_2. }
        { rewrite concat_app. cbn. by rewrite app_nil_r. } { done. }
        exists p2. rewrite Hm1, Ha1. split_and!; try done. split; congruence.
    + cbn [app feed_loop]. rewrite step_back by done. cbn [mbind res_bind].
      assert (fresh (backspace p) (concat (removelast chars)) /\ same_field p (backspace p)) as [Hf1 [Hm1 Ha1]].
      { destruct Hf as (H3 & H0 & Hl). unfold backspace. rewrite H0. cbn [negb Z.eqb]. split; [|done].
        split_and!; try done. cbn. rewrite Hl. destruct chars as [|s chars _] using rev_ind; [done|].
        rewrite removelast_last, concat_app. cbn. rewrite app_nil_r. apply pop_char_app.
        by apply Forall_app in Hc as [_ [? _]%Forall_cons_1]. }
      destruct (IH (backspace p) (removelast chars)) as (p2 & -> & ? & [? ?]); [|done..|].
      { destruct chars as [|s chars _] using rev_ind; [done|]. rewrite removelast_last.
        by apply Forall_app in Hc as [? _]. }
      exists p2. rewrite Hm1, Ha1. split_and!; try done. split; congruence.
Qed.

(** ** Chunks *)

(** The caller keeps feeding chunks until the prompt ends. *)
Fixpoint feed_chunks (p : PathPrompt) (chunks : list (list Z)) (bell : bool)
  : res unit (PromptResult * PathPrompt) :=
  match chunks with
  | [] => Ok (if bell then PBell else PContinue, p)
  | chunk :: rest =>
    '(r, p) ← feed p chunk;
    match r with
    | PBell => feed_chunks p rest true
    | PContinue => feed_chunks p rest bell
    | _ => Ok (r, p)
    end
  end.

Lemma submit_ends p : ends (submit p).1 = true.
Proof.
  unfold submit. destruct (zlen (line p) =? 0); cbn; [by destruct (allow_empty p)|].
  by destruct (validate_protocol_path _).
Qed.

Lemma step_terminal p b r p' : step p b = Ok (Terminal r, p') -> ends r = true.
Proof.
  unfold step, append_ascii, reprompt, start_sequence, continue_sequence. intros H.
  rewrite (surjective_pairing (submit p)) in H.
  repeat (cbn beta zeta iota in H; first
    [ discriminate H
    | injection H as H; subst; first [reflexivity | apply submit_ends]
    | apply res_bind_ok in H as (? & ? & H)
    | match type of H with context [match ?x with _ => _ end] => destruct x end ]).
Qed.

Lemma feed_loop_app a p b bell :
  feed_loop p (a ++ b) bell =
  ('(r, p') ← feed_loop p a bell;
   match r with
   | PBell => feed_loop p' b true
   | PContinue => feed_loop p' b false
   | _ => Ok (r, p')
   end).
Proof.
  revert p bell. induction a as [|x a IH]; intros p bell; [by destruct bell|]. cbn [app feed_loop].
  destruct (step p x) as [[o p1]|?|] eqn:Es; [|done..]. cbn [mbind res_bind].
  destruct o as [r| |]; [|apply IH..]. cbn [mbind res_bind].
  apply step_terminal in Es. by destruct r.
Qed.

Lemma feed_loop_bell bs p :
  feed_loop p bs true =
  ('(r, p') ← feed_loop p bs false; Ok (match r with PContinue => PBell | _ => r end, p')).
Proof.
  revert p. induction bs as [|x bs IH]; intros p; [done|]. cbn [feed_loop].
  destruct (step p x) as [[o p1]|?|] eqn:Es; [|done..]. cbn [mbind res_bind].
  destruct o as [r| |]; [|rewrite IH; destruct (feed_loop p1 bs false) as [[[] ?]|?|]; done|apply IH].
  apply step_terminal in Es. by destruct r.
Qed.

(** What a prompt does depends on the bytes, not on the reads. *)
Lemma feed_chunks_concat chunks p bell : feed_chunks p chunks bell = feed_loop p (concat chunks) bell.
Proof.
  revert p bell. induction chunks as [|c chunks IH]; intros p bell; [by destruct bell|].
  cbn [feed_chunks concat]. rewrite feed_loop_app. unfold feed. destruct bell.
  - rewrite feed_loop_bell. destruct (feed_loop p c false) as [[[] p1]|?|]; cbn [mbind res_bind]; auto.
  - destruct (feed_loop p c false) as [[[] p1]|?|]; cbn [mbind res_bind]; auto.
Qed.

(** ** Paths are typed character by character *)

Lemma path_chars s :
  path_ok s -> exists cs, s = concat cs /\ Forall (fun c => key_ok (KChar c)) cs.
Proof.
  intros [Hb Hv]. unfold validate_protocol_path in Hv. destruct (_ <? _); [done|].
  apply res_bind_ok in Hv as (text & Ht%ok_or_ok & Hc).
  destruct (existsb is_control_char text) eqn:Ex; [done|]. clear Hc.
  assert (valid_utf8 s) as (cs & -> & Hcs)%valid_utf8_chars by (by exists text).
  exists cs. split; [done|]. revert text Hb Ht Ex. induction Hcs as [|c cs Hc Hcs IH];
    intros text Hb Ht Ex; [constructor|].
  cbn [concat] in *. apply Forall_app in Hb as [Hb1 Hb2].
  pose proof (is_char_valid c Hc) as [cc Hcc]. rewrite (utf8_chars_app _ _ _ Hcc) in Ht.
  apply fmap_Some in Ht as (text' & Ht & ->). rewrite existsb_app in Ex.
  apply orb_false_iff in Ex as [Ex1 Ex2]. constructor; [|by eapply IH].
  split_and!; try done. apply is_char_shape in Hc as [(b & -> & Hlt)|(b0 & l0 & -> & _ & _ & _ & Hne)].
  - cbn in Hcc. rewrite (proj2 (Z.ltb_lt _ _)) in Hcc by done. injection Hcc as <-.
    cbn in Ex1. unfold is_control_char in Ex1. cbn. lia.
  - by destruct l0.
Qed.

Lemma edit_chars n cs chars :
  zlen (concat (chars ++ cs)) <= n -> edit n (KChar <$> cs) chars = Some (chars ++ cs).
Proof.
  revert chars. induction cs as [|c cs IH]; intros chars Hn; [by rewrite app_nil_r|].
  cbn [fmap list_fmap edit]. rewrite (proj2 (Z.ltb_ge _ _)).
  - rewrite IH; by rewrite <- app_assoc.
  - rewrite concat_app in Hn. cbn in Hn. rewrite !zlen_app in Hn. pose proof (zlen_nonneg (concat cs)). lia.
Qed.

Lemma submission_path s e : path_ok s -> 1 <= zlen s -> submission e s = Submitted s.
Proof.
  intros [_ Hv] Hl. unfold submission. rewrite (proj2 (Z.eqb_neq _ _)) by lia. by rewrite Hv.
Qed.

(** C20: a prompt of any bound, fed any bytes in any chunks, never panics and keeps
    its line valid UTF-8 within the bound; a path that it submits is one that
    the protocol carries, within the bound and not empty, and only a field with
    a default is submitted empty.  On whole characters and erase keys it is a
    character editor ([edit]): the line that [Enter] submits is the characters
    typed less the erased ones, a character that does not fit makes the field
    start over, and what follows [Enter] is dropped.  So every path that the
    protocol carries and that fits, typed and entered, is submitted exactly,
    however the bytes were cut into reads. *)
Theorem path_prompt_edits n e chunks :
  0 <= n -> Forall bytes chunks ->
  (exists r p, feed_chunks (new_prompt n e) chunks false = Ok (r, p) /\ prompt_inv p /\
     result_ok (new_prompt n e) r) /\
  (forall keys enter rest, Forall key_ok keys -> enter = 0x0a \/ enter = 0x0d ->
     concat chunks = concat (key_bytes <$> keys) ++ enter :: rest ->
     exists p, feed_chunks (new_prompt n e) chunks false =
       Ok (match edit n keys [] with
           | None => Reprompt
           | Some chars => submission e (concat chars)
           end, p) /\ current_line p = []) /\
  (forall s enter, path_ok s -> 1 <= zlen s <= n -> enter = 0x0a \/ enter = 0x0d ->
     concat chunks = s ++ [enter] ->
     exists p, feed_chunks (new_prompt n e) chunks false = Ok (Submitted s, p)).
Proof.
  intros Hn Hb. rewrite feed_chunks_concat.
  assert (forall keys enter rest, Forall key_ok keys -> enter = 0x0a \/ enter = 0x0d ->
     concat chunks = concat (key_bytes <$> keys) ++ enter :: rest ->
     exists p, feed_loop (new_prompt n e) (concat chunks) false =
       Ok (match edit n keys [] with
           | None => Reprompt
           | Some chars => submission e (concat chars)
           end, p) /\ current_line p = []) as Hkeys.
  { intros keys enter rest Hk He ->.
    destruct (feed_keys keys (new_prompt n e) [] enter rest) as (p & -> & (_ & _ & Hl) & _); try done.
    by exists p. }
  split_and!.
  - destruct (feed_loop_ok (concat chunks) (new_prompt n e) false) as (r & p & -> & ? & _ & ?);
      [by apply new_prompt_inv|by apply Forall_concat|]. by exists r, p.
  - exact Hkeys.
  - intros s enter Hs Hl He Hc. destruct (path_chars s Hs) as (cs & -> & Hcs).
    destruct (Hkeys (KChar <$> cs) enter []) as (p & -> & _); [by apply Forall_fmap|done| |].
    + rewrite Hc. f_equal. clear. induction cs as [|c cs IH]; [done|]. cbn. by f_equal.
    + exists p. rewrite edit_chars by (cbn; lia). cbn [app]. by rewrite submission_path by (done || lia).
Qed.

(** [aé], with [é] typed wrong and erased once, over three reads. *)
Definition prompt_chunks : list (list Z) := [[0x61; 0xc3]; [0xa8; 0x7f; 0xc3; 0xa9]; [0x0d; 0x78]].

Lemma path_prompt_edits_witness :
  0 <= 16 /\ Forall bytes prompt_chunks /\
  exists p, feed_chunks (new_prompt 16 false) prompt_chunks false = Ok (Submitted [0x61; 0xc3; 0xa9], p).
Proof.
  assert (Forall bytes prompt_chunks) as Hb.
  { repeat constructor; discriminate. }
  split; [lia|]. split; [exact Hb|].
  destruct (proj1 (proj2 (path_prompt_edits 16 false prompt_chunks ltac:(lia) Hb))
    [KChar [0x61]; KChar [0xc3; 0xa8]; KErase 0x7f; KChar [0xc3; 0xa9]] 0x0d [0x78]) as (p & Hp & _).
  - repeat constructor; discriminate.
  - by right.
  - reflexivity.
  - exists p. exact Hp.
Defined.

(** An ASCII byte leaves the bytes of an unfinished character in place, so the
    invalid sequence [c3 61 a9] is taken as [a] followed by [é], without a bell. *)
Lemma pending_survives_ascii :
  feed (new_prompt 16 false) [0xc3; 0x61; 0xa9] =
  Ok (PContinue, {| max_len := 16; allow_empty := false; line := [0x61; 0xc3; 0xa9];
                    pending := [0xc3; 0; 0]; pending_len := 0; pending_expected := 2 |}).
Proof. reflexivity. Qed.

(** ** The delayed output: first in, first out, within the capacity *)

Definition delayed_inv (d : DelayedOutputBuffer) : Prop :=
  0 <= zlen (delayed_bytes d) <= capacity d /\ capacity d < 2 ^ 63.

Lemma append_spec d bs :
  delayed_inv d -> zlen bs < 2 ^ 63 ->
  append d bs =
    if zlen (delayed_bytes d) + zlen bs <=? capacity d
    then (AppendOk, {| capacity := capacity d; delayed_bytes := delayed_bytes d ++ bs |})
    else (Overflow, d).
Proof.
  intros [? ?] ?. unfold append. rewrite checked_add_u64_some by lia.
  destruct (Z.ltb_spec (capacity d) (zlen (delayed_bytes d) + zlen bs)),
    (Z.leb_spec (zlen (delayed_bytes d) + zlen bs) (capacity d)); done || lia.
Qed.

(** ** ASCII input leaves no unfinished character *)

Definition ascii (b : Z) : Prop := 0 <= b < 0x80.

Definition ascii_prompt (p : PathPrompt) : Prop := Forall ascii (line p) /\ pending_len p = 0.

Lemma pop_char_forall (P : Z -> Prop) l : Forall P l -> Forall P (pop_char l).
Proof.
  intros H. unfold pop_char. apply Forall_reverse. apply Forall_reverse in H.
  induction H as [|b r Hb Hr IH]; [done|]. simpl. by destruct (is_cont b).
Qed.

Lemma step_ascii_prompt p b o p' :
  ascii_prompt p -> ascii b -> step p b = Ok (o, p') -> ascii_prompt p'.
Proof.
  intros [Hl Hp] Hb. unfold ascii in Hb. unfold step.
  destruct (b =? 0x03); [intros; simplify_eq; by split; cbn|].
  destruct (_ || _).
  { unfold submit. destruct (_ =? 0); [intros; simplify_eq; by split; cbn|].
    destruct (validate_protocol_path _); intros; simplify_eq; by split; cbn. }
  destruct (_ || _).
  { intros; simplify_eq. unfold backspace. rewrite Hp. split; cbn; [by apply pop_char_forall|done]. }
  destruct (_ && _).
  { unfold append_ascii. destruct (_ <=? _); intros; simplify_eq; split; cbn; try done.
    apply Forall_app; split; [done|]. by apply Forall_cons_2, Forall_nil_2. }
  rewrite (proj2 (Z.leb_gt 0x80 b)), (proj2 (Z.leb_gt 0xc2 b)) by lia. cbn [andb].
  intros; simplify_eq. by split.
Qed.

Lemma feed_loop_ascii bs p bell r p' :
  ascii_prompt p -> Forall ascii bs -> feed_loop p bs bell = Ok (r, p') -> ascii_prompt p'.
Proof.
  intros Hp Hb. revert p bell Hp. induction Hb as [|b bs Hb Hbs IH]; intros p bell Hp H; cbn [feed_loop] in H.
  { by simplify_eq. }
  apply res_bind_ok in H as ([o p1] & Hs & H). apply step_ascii_prompt in Hs; [|done..].
  destruct o; [by simplify_eq|by eapply IH..].
Qed.

Lemma feed_loop_nil p bell : feed_loop p [] bell = Ok (if bell then PBell else PContinue, p).
Proof. done. Qed.
