(* ===== verification/TransferUi.v ===== *)
(** The file-transfer interaction of a controller session: [PathPromptFlow],
    [TransferUi] and the functions of [crates/yon/src/controller.rs] that act on
    them.

    The state of a session is [Session]; a function is a computation on it that may
    fail.  What the functions do outside is the [trace]: writes to the display and
    to the local user interface, writes to the remote terminal and records of the
    audit observer.  Whether an attempt succeeds, what opening a substream returns
    and whether the local source can be opened is the environment's choice
    ([Env]), which may be different at every attempt. *)

From stdpp Require Import strings.
From S2P Require Import Prelude Stateful Utf8 WireFileTransfer TransferSession TerminalOutput LocalControl PathPrompt.
Open Scope string_scope.
Open Scope list_scope.
Open Scope Z_scope.

(** ** Fixed texts *)

Definition PROMPT_BANNER_UPLOAD : list Z := str "[yonder upload]".
Definition PROMPT_BANNER_DOWNLOAD : list Z := str "[yonder download]".
Definition PROMPT_UPLOAD_SOURCE : list Z := str "local source:".
Definition PROMPT_UPLOAD_DESTINATION : list Z :=
  str "remote destination [remote session start directory]:".
Definition PROMPT_DOWNLOAD_SOURCE : list Z := str "remote source:".
Definition PROMPT_DOWNLOAD_DESTINATION : list Z :=
  str "local destination [local connect start directory]:".
Definition FILE_TRANSFER_ALREADY_ACTIVE : list Z := str "file transfer already active".
Definition FILE_TRANSFER_UNAVAILABLE : list Z := str "file transfer is unavailable in this session".
Definition FILE_TRANSFER_UNSUPPORTED : list Z := str "file transfer is not supported by the remote peer".
Definition FILE_TRANSFER_PROBE_FAILED : list Z := str "file transfer capability check failed".
Definition FILE_TRANSFER_OPEN_FAILED : list Z := str "the file transfer substream could not be opened".
Definition TRANSFER_STATUS_PAUSED : list Z :=
  str "terminal input paused during transfer; Ctrl+C cancels".
Definition CRLF : list Z := [0x0d; 0x0a].
Definition BEL : list Z := [0x07].
Definition LOCAL_CONTROL_HELP : list Z :=
  str "Ctrl+] .      end the session" ++ CRLF ++
  str "Ctrl+] Ctrl+] send a literal Ctrl+]" ++ CRLF ++
  str "Ctrl+] u      upload a file" ++ CRLF ++
  str "Ctrl+] d      download a file" ++ CRLF ++
  str "Ctrl+] ?      show this help".

Definition KEY_ACTION_HELP : Z := 0x01.
Definition KEY_ACTION_UPLOAD : Z := 0x02.
Definition KEY_ACTION_DOWNLOAD : Z := 0x03.
Definition KEY_ACTION_DETACH : Z := 0x05.
Definition KEY_ACTION_INTERRUPT : Z := 0x06.

(** ** The two-field prompt *)

Inductive PromptProgress : Type :=
| Active (bell : bool)
| FieldReprompt
| NextField
| Completed (first : list Z) (second : option (list Z))
| FlowCancelled.

Record PathPromptFlow : Type := {
  flow_direction : TransferDirection;
  flow_first : option (list Z);
  flow_prompt : PathPrompt;
  flow_field : Z;
  flow_initial : bool;
  flow_echoed : list Z
}.

Definition new_flow (direction : TransferDirection) : PathPromptFlow :=
  {| flow_direction := direction; flow_first := None;
     flow_prompt := required PROMPT_PATH_LIMIT; flow_field := 0; flow_initial := true;
     flow_echoed := [] |}.

Definition banner (f : PathPromptFlow) : list Z :=
  match flow_direction f with
  | Upload => PROMPT_BANNER_UPLOAD
  | Download => PROMPT_BANNER_DOWNLOAD
  end.

Definition label (f : PathPromptFlow) : list Z :=
  match flow_direction f with
  | Upload =>
    if flow_field f =? 0 then PROMPT_UPLOAD_SOURCE
    else if flow_field f =? 1 then PROMPT_UPLOAD_DESTINATION else PROMPT_UPLOAD_SOURCE
  | Download =>
    if flow_field f =? 0 then PROMPT_DOWNLOAD_SOURCE
    else if flow_field f =? 1 then PROMPT_DOWNLOAD_DESTINATION else PROMPT_UPLOAD_SOURCE
  end.

Definition flow_line (f : PathPromptFlow) : list Z := current_line (flow_prompt f).

Definition set_prompt (f : PathPromptFlow) (p : PathPrompt) : PathPromptFlow :=
  {| flow_direction := flow_direction f; flow_first := flow_first f; flow_prompt := p;
     flow_field := flow_field f; flow_initial := flow_initial f; flow_echoed := flow_echoed f |}.

Definition set_first (f : PathPromptFlow) (first : option (list Z)) : PathPromptFlow :=
  {| flow_direction := flow_direction f; flow_first := first; flow_prompt := flow_prompt f;
     flow_field := flow_field f; flow_initial := flow_initial f; flow_echoed := flow_echoed f |}.

Definition set_echoed (f : PathPromptFlow) (echoed : list Z) : PathPromptFlow :=
  {| flow_direction := flow_direction f; flow_first := flow_first f; flow_prompt := flow_prompt f;
     flow_field := flow_field f; flow_initial := flow_initial f; flow_echoed := echoed |}.

Definition clear_initial (f : PathPromptFlow) : PathPromptFlow :=
  {| flow_direction := flow_direction f; flow_first := flow_first f; flow_prompt := flow_prompt f;
     flow_field := flow_field f; flow_initial := false; flow_echoed := flow_echoed f |}.

Definition next_field (f : PathPromptFlow) (path : list Z) : PathPromptFlow :=
  {| flow_direction := flow_direction f; flow_first := Some path;
     flow_prompt := with_default PROMPT_PATH_LIMIT; flow_field := 1;
     flow_initial := flow_initial f; flow_echoed := [] |}.

(** [PathPromptFlow::advance]; [take().expect(..)] panics without a first field. *)
Definition advance (f : PathPromptFlow) (result : PromptResult)
  : res unit (PromptProgress * PathPromptFlow) :=
  match result with
  | Submitted path =>
    if flow_field f =? 0 then Ok (NextField, next_field f path)
    else
      first ← expect_some (flow_first f);
      Ok (Completed first (Some path), set_first (set_echoed f []) None)
  | Empty =>
    first ← expect_some (flow_first f);
    Ok (Completed first None, set_first (set_echoed f []) None)
  | Cancelled => Ok (FlowCancelled, set_echoed f [])
  | Reprompt => Ok (FieldReprompt, set_echoed f [])
  | PBell => Ok (Active true, f)
  | PContinue => Ok (Active false, f)
  end.

(** [PathPromptFlow::feed]. *)
Definition flow_feed (f : PathPromptFlow) (processed : ProcessedInput)
  : res unit (PromptProgress * PathPromptFlow) :=
  '(result, f) ←
    (if flow_initial f then
       '(r, p) ← feed_initial (flow_prompt f) (remainder processed);
       Ok (r, set_prompt (clear_initial f) p)
     else Ok (PContinue, f));
  '(result, f) ←
    (match result with
     | PContinue | PBell =>
       if zlen (path_bytes processed) =? 0 then Ok (result, f)
       else
         '(r, p) ← feed (flow_prompt f) (path_bytes processed);
         Ok (r, set_prompt f p)
     | _ => Ok (result, f)
     end);
  advance f result.

(** ** The session *)

Inductive CapabilityCache : Type := CapUnknown | CapSupported | CapUnsupported.

#[export] Instance capability_eq_dec : EqDecision CapabilityCache.
Proof. solve_decision. Defined.

Inductive TransferNotReady : Type := Unavailable | NotSupported | Probe.

Record TransferUi : Type := {
  control : LocalControlInput;
  flow : option PathPromptFlow;
  direction : option TransferDirection;
  delayed : DelayedOutputBuffer;
  capability : CapabilityCache;
  ui_terminal : bool;
  ui_to_display : bool;
  delayed_overflow : bool;
  local_ended : bool
}.

Definition new_transfer_ui (interactive ui_to_display ui_terminal : bool) : TransferUi :=
  {| control := new_control interactive false; flow := None; direction := None;
     delayed := new_delayed DELAYED_OUTPUT_CAP; capability := CapUnknown;
     ui_terminal := ui_terminal; ui_to_display := ui_to_display;
     delayed_overflow := false; local_ended := false |}.

Definition set_control (u : TransferUi) (c : LocalControlInput) : TransferUi :=
  {| control := c; flow := flow u; direction := direction u; delayed := delayed u;
     capability := capability u; ui_terminal := ui_terminal u; ui_to_display := ui_to_display u;
     delayed_overflow := delayed_overflow u; local_ended := local_ended u |}.

Definition set_flow (u : TransferUi) (f : option PathPromptFlow) : TransferUi :=
  {| control := control u; flow := f; direction := direction u; delayed := delayed u;
     capability := capability u; ui_terminal := ui_terminal u; ui_to_display := ui_to_display u;
     delayed_overflow := delayed_overflow u; local_ended := local_ended u |}.

Definition set_direction (u : TransferUi) (d : option TransferDirection) : TransferUi :=
  {| control := control u; flow := flow u; direction := d; delayed := delayed u;
     capability := capability u; ui_terminal := ui_terminal u; ui_to_display := ui_to_display u;
     delayed_overflow := delayed_overflow u; local_ended := local_ended u |}.

Definition set_delayed (u : TransferUi) (d : DelayedOutputBuffer) : TransferUi :=
  {| control := control u; flow := flow u; direction := direction u; delayed := d;
     capability := capability u; ui_terminal := ui_terminal u; ui_to_display := ui_to_display u;
     delayed_overflow := delayed_overflow u; local_ended := local_ended u |}.

Definition set_capability (u : TransferUi) (c : CapabilityCache) : TransferUi :=
  {| control := control u; flow := flow u; direction := direction u; delayed := delayed u;
     capability := c; ui_terminal := ui_terminal u; ui_to_display := ui_to_display u;
     delayed_overflow := delayed_overflow u; local_ended := local_ended u |}.

Definition set_overflow (u : TransferUi) (b : bool) : TransferUi :=
  {| control := control u; flow := flow u; direction := direction u; delayed := delayed u;
     capability := capability u; ui_terminal := ui_terminal u; ui_to_display := ui_to_display u;
     delayed_overflow := b; local_ended := local_ended u |}.

Definition set_local_ended (u : TransferUi) (b : bool) : TransferUi :=
  {| control := control u; flow := flow u; direction := direction u; delayed := delayed u;
     capability := capability u; ui_terminal := ui_terminal u; ui_to_display := ui_to_display u;
     delayed_overflow := delayed_overflow u; local_ended := b |}.

(** [TransferUi::take_delayed_overflow]. *)
Definition take_delayed_overflow (u : TransferUi) : bool * TransferUi :=
  (delayed_overflow u, set_overflow u false).

(** [TransferUi::leave_modal]. *)
Definition ui_leave_modal (u : TransferUi) : TransferUi * LocalAction :=
  let u := set_overflow (set_direction (set_flow u None) None) false in
  let '(c, a) := leave_modal (control u) in
  (set_control u c, a).

(** [file_transfer_ready]. *)
Definition file_transfer_ready (u : TransferUi) (base : bool) : res TransferNotReady CapabilityCache :=
  if negb (ui_terminal u) || negb base then Err Unavailable
  else
    match capability u with
    | CapUnknown => Err Probe
    | CapSupported => Ok CapSupported
    | CapUnsupported => Err NotSupported
    end.

Inductive CtlError : Type := Interrupted | IoError | RemoteCompletionTimeout | AuditError.

(** What opening the file-transfer substream comes to: the session is cancelled
    first, or it is opened, unsupported by the peer, or fails otherwise. *)
Inductive OpenResult : Type := OpenCancelled | Opened | OpenUnsupported | OpenFailed.

Inductive UiEvent : Type :=
| LocalUi (to_display : bool) (bytes : list Z)
| Echo (bytes : list Z)
| EchoFlush
| Display (bytes : list Z)
| RecordDisplay (bytes : list Z)
| RecordDisplayOutcome (ok : bool) (length : Z)
| RecordKey (key_action : Z)
| RecordInput (bytes : list Z)
| RecordSend (ok : bool) (length : Z)
| RecordOutput (bytes : list Z)
| RemoteWrite (bytes : list Z)
| RemoteShutdown.

Inductive TransferOutcome : Type :=
| TCommitted (bytes : Z)
| TCommittedUnconfirmed (bytes : Z)
| TCommitStatusUnknown (bytes : Z)
| TAuditFailed (bytes : Z)
| TAuditFailedBeforeCommit
| TCancelled
| TFailed (code : FileTransferErrorCode.t).

(** A transfer that was armed: the direction and the two paths. *)
Record Transfer : Type := {
  transfer_direction : TransferDirection;
  transfer_first : list Z;
  transfer_second : option (list Z)
}.

Record Session : Type := {
  ui : TransferUi;
  terminal_output : RemoteTerminalOutput;
  cancel : bool;
  transfer : option Transfer;
  trace : list UiEvent
}.

(** The outside of a session.  The attempts are numbered by the length of the
    trace.  [audit] tells that the session has an audit observer, [base] that the
    base directory was captured. *)
Record Env : Type := {
  audit : bool;
  base : bool;
  fault : nat -> option CtlError;
  opened : nat -> OpenResult;
  source_refused : nat -> option (list Z);
  observer_failed : nat -> bool
}.

Abbreviation sess := (stm Session CtlError).

Definition with_ui (s : Session) (u : TransferUi) : Session :=
  {| ui := u; terminal_output := terminal_output s; cancel := cancel s; transfer := transfer s;
     trace := trace s |}.

Definition with_output (s : Session) (o : RemoteTerminalOutput) : Session :=
  {| ui := ui s; terminal_output := o; cancel := cancel s; transfer := transfer s; trace := trace s |}.

Definition with_cancel (s : Session) (b : bool) : Session :=
  {| ui := ui s; terminal_output := terminal_output s; cancel := b; transfer := transfer s;
     trace := trace s |}.

Definition with_transfer (s : Session) (t : option Transfer) : Session :=
  {| ui := ui s; terminal_output := terminal_output s; cancel := cancel s; transfer := t;
     trace := trace s |}.

Definition with_event (s : Session) (e : UiEvent) : Session :=
  {| ui := ui s; terminal_output := terminal_output s; cancel := cancel s; transfer := transfer s;
     trace := trace s ++ [e] |}.

Definition put_ui (f : TransferUi -> TransferUi) : sess unit := modify (fun s => with_ui s (f (ui s))).

(** A computation whose error the source ignores ([let _ = ..]), and one whose
    error is handled. *)
Definition ignore_error (m : sess unit) : sess unit := fun s =>
  match m s with (Err _, s') => (Ok tt, s') | r => r end.

Definition on_error (m : sess unit) (h : CtlError -> sess unit) : sess unit := fun s =>
  match m s with (Err e, s') => h e s' | r => r end.

(** A pure computation that can only panic. *)
Definition total {A} (r : res unit A) : sess A := fun s =>
  match r with Ok a => (Ok a, s) | _ => (Panic, s) end.

(** The longest common prefix, in bytes. *)
Fixpoint common_prefix (a b : list Z) : Z :=
  match a, b with
  | x :: a, y :: b => if x =? y then 1 + common_prefix a b else 0
  | _, _ => 0
  end.

(** [str::is_char_boundary], and the slice [&s\[i..\]] that needs it. *)
Definition is_char_boundary (l : list Z) (i : Z) : bool :=
  (i =? 0) || (i =? zlen l) ||
  match l !! Z.to_nat i with Some b => negb (is_cont b) | None => false end.

Definition str_from (l : list Z) (i : Z) : res unit (list Z) :=
  if is_char_boundary l i then Ok (drop (Z.to_nat i) l) else Panic.

Section Handlers.
Context (env : Env).

Definition attempt (e : UiEvent) : sess unit := fun s =>
  match fault env (length (trace s)) with
  | None => (Ok tt, with_event s e)
  | Some err => (Err err, with_event s e)
  end.

Definition observed (e : UiEvent) : sess unit := if audit env then attempt e else mret tt.

Definition write_local_ui (bytes : list Z) : sess unit :=
  to_display ← gets (fun s => ui_to_display (ui s));
  attempt (LocalUi to_display bytes).

(** [PathPromptFlow::echo_delta]: the characters of the echoed line that are not
    in the new line are erased, then the new ones are written. *)
Definition echo_delta (f : PathPromptFlow) : sess PathPromptFlow :=
  let text := flow_line f in
  let common := common_prefix (flow_echoed f) text in
  erased ← total (str_from (flow_echoed f) common);
  chars ← total (expect_some (utf8_chars erased));
  _ ← for_each chars (fun _ => attempt (Echo [0x08; 0x20; 0x08]));
  added ← total (str_from text common);
  _ ← (if negb (zlen added =? 0) then attempt (Echo added) else mret tt);
  _ ← attempt EchoFlush;
  mret (set_echoed f text).

Definition flush_delayed_output : sess unit :=
  buffered ← gets (fun s => delayed (ui s));
  if delayed_is_empty buffered then mret tt
  else
    let '(bytes, emptied) := take_all buffered in
    _ ← put_ui (fun u => set_delayed u emptied);
    o ← gets terminal_output;
    '(o, display) ← total (prepare_into o bytes);
    _ ← modify (fun s => with_output s o);
    _ ← observed (RecordDisplay display);
    _ ← on_error (attempt (Display display)) (fun e =>
          _ ← ignore_error (observed (RecordDisplayOutcome false (zlen display)));
          throw e);
    observed (RecordDisplayOutcome true (zlen display)).

Definition end_transfer_modal : sess unit :=
  action ← gets (fun s => (ui_leave_modal (ui s)).2);
  _ ← put_ui (fun u => (ui_leave_modal u).1);
  if bool_decide (action = Bell) then write_local_ui BEL else mret tt.

Definition abort_prompt_for_overflow : sess unit :=
  _ ← end_transfer_modal;
  flush_delayed_output.

Inductive LocalInputHandling : Type :=
| Done
| StartModal (d : TransferDirection)
| RunTransfer (t : Transfer).

(** The prompt's part of [handle_processed_input]: the transfer to run, if the
    prompt completed. *)
Definition handle_prompt (processed : ProcessedInput) : sess (option Transfer) :=
  current ← gets (fun s => flow (ui s));
  match current with
  | None => mret None
  | Some f =>
    '(progress, f) ← total (flow_feed f processed);
    _ ← put_ui (fun u => set_flow u (Some f));
    match progress with
    | Active bell =>
      f ← echo_delta f;
      _ ← put_ui (fun u => set_flow u (Some f));
      _ ← (if bell : bool then write_local_ui BEL else mret tt);
      mret None
    | FieldReprompt | NextField =>
      _ ← write_local_ui CRLF;
      _ ← write_local_ui (label f);
      mret None
    | Completed first second =>
      _ ← write_local_ui CRLF;
      _ ← put_ui (fun u => set_flow u None);
      _ ← flush_delayed_output;
      d ← gets (fun s => direction (ui s));
      d ← total (expect_some d);
      mret (Some {| transfer_direction := d; transfer_first := first; transfer_second := second |})
    | FlowCancelled =>
      _ ← write_local_ui CRLF;
      _ ← end_transfer_modal;
      _ ← flush_delayed_output;
      mret None
    end
  end.

(** [LocalAction::ShowHelp]. *)
Definition show_help : sess unit :=
  _ ← observed (RecordKey KEY_ACTION_HELP);
  terminal ← gets (fun s => ui_terminal (ui s));
  if terminal : bool then
    _ ← write_local_ui CRLF;
    _ ← write_local_ui LOCAL_CONTROL_HELP;
    current ← gets (fun s => flow (ui s));
    match current with
    | None => mret tt
    | Some f =>
      _ ← write_local_ui CRLF;
      _ ← write_local_ui (label f);
      write_local_ui (flow_line f)
    end
  else
    _ ← write_local_ui CRLF;
    write_local_ui FILE_TRANSFER_UNAVAILABLE.

(** [LocalAction::CancelOp]. *)
Definition cancel_op : sess unit :=
  _ ← observed (RecordKey KEY_ACTION_INTERRUPT);
  current ← gets (fun s => flow (ui s));
  match current with
  | Some _ =>
    _ ← write_local_ui CRLF;
    _ ← end_transfer_modal;
    flush_delayed_output
  | None => modify (fun s => with_cancel s true)
  end.

Definition handled (run : option Transfer) : LocalInputHandling :=
  match run with Some t => RunTransfer t | None => Done end.

Definition handle_processed_input (processed : ProcessedInput) : sess LocalInputHandling :=
  run_transfer ← handle_prompt processed;
  match action processed with
  | ANone => mret (handled run_transfer)
  | Detach =>
    _ ← observed (RecordKey KEY_ACTION_DETACH);
    throw Interrupted
  | ShowHelp =>
    _ ← show_help;
    mret (handled run_transfer)
  | AlreadyActive =>
    _ ← write_local_ui CRLF;
    _ ← write_local_ui FILE_TRANSFER_ALREADY_ACTIVE;
    mret (handled run_transfer)
  | Bell =>
    _ ← write_local_ui BEL;
    mret (handled run_transfer)
  | CancelOp =>
    _ ← cancel_op;
    mret (handled run_transfer)
  | StartUpload =>
    _ ← observed (RecordKey KEY_ACTION_UPLOAD);
    mret (StartModal Upload)
  | StartDownload =>
    _ ← observed (RecordKey KEY_ACTION_DOWNLOAD);
    mret (StartModal Download)
  end.

(** [probe_file_transfer_capability], the substream being opened at this point. *)
Definition probe_file_transfer_capability (result : OpenResult) : res CtlError (option CapabilityCache) :=
  match result with
  | OpenCancelled => Err Interrupted
  | Opened => Ok (Some CapSupported)
  | OpenUnsupported => Ok (Some CapUnsupported)
  | OpenFailed => Ok None
  end.

Definition refuse_modal (text : list Z) : sess unit :=
  _ ← write_local_ui CRLF;
  _ ← write_local_ui text;
  end_transfer_modal.

Definition open_prompt (d : TransferDirection) : sess unit :=
  let f := new_flow d in
  _ ← write_local_ui CRLF;
  _ ← write_local_ui (banner f);
  _ ← write_local_ui CRLF;
  _ ← write_local_ui (label f);
  put_ui (fun u => set_flow (set_direction u (Some d)) (Some f)).

Definition begin_file_transfer_modal (d : TransferDirection) : sess unit :=
  ready ← gets (fun s => file_transfer_ready (ui s) (base env));
  match ready with
  | Err Unavailable => refuse_modal FILE_TRANSFER_UNAVAILABLE
  | Err NotSupported => refuse_modal FILE_TRANSFER_UNSUPPORTED
  | Err Probe =>
    n ← gets (fun s => length (trace s));
    probe ← lift (probe_file_transfer_capability (opened env n));
    match probe with
    | Some capability =>
      _ ← put_ui (fun u => set_capability u capability);
      _ ← lift (assert_or_panic (bool_decide (capability = CapSupported)));
      open_prompt d
    | None => refuse_modal FILE_TRANSFER_PROBE_FAILED
    end
  | Ok capability =>
    _ ← lift (assert_or_panic (bool_decide (capability = CapSupported)));
    open_prompt d
  | Panic => lift Panic
  end.

Definition direction_verb (d : TransferDirection) : list Z :=
  match d with Upload => str "upload" | Download => str "download" end.

Definition fail_transfer_startup (d : TransferDirection) (reason : list Z) : sess unit :=
  _ ← write_local_ui CRLF;
  _ ← write_local_ui (direction_verb d ++ str " failed: " ++ reason);
  end_transfer_modal.

(** The status line and the armed transfer. *)
Definition arm_transfer (t : Transfer) : sess unit :=
  _ ← write_local_ui CRLF;
  _ ← write_local_ui (direction_verb (transfer_direction t) ++ str ": " ++ TRANSFER_STATUS_PAUSED);
  modify (fun s => with_transfer s (Some t)).

Definition begin_transfer (t : Transfer) : sess unit :=
  let d := transfer_direction t in
  if negb (base env) then refuse_modal FILE_TRANSFER_UNAVAILABLE
  else
    c ← gets (fun s => control (ui s));
    c ← lift (expect (enter_transfer c));
    _ ← put_ui (fun u => set_control u c);
    n ← gets (fun s => length (trace s));
    match opened env n with
    | OpenCancelled => throw Interrupted
    | OpenUnsupported | OpenFailed => fail_transfer_startup d FILE_TRANSFER_OPEN_FAILED
    | Opened =>
      cancelled ← gets cancel;
      if cancelled : bool then
        _ ← write_local_ui CRLF;
        _ ← write_local_ui (direction_verb d ++ str " cancelled");
        end_transfer_modal
      else
        match d, source_refused env n with
        | Upload, Some reason => fail_transfer_startup d reason
        | _, _ => arm_transfer t
        end
    end.

(** [u64] in decimal, and the name of an error code ([{code:?}]). *)
Definition decimal (n : Z) : list Z :=
  let digits := digits_be 10 20 n in
  let digits := (fix strip l := match l with 0 :: rest => strip rest | _ => l end) digits in
  match digits with [] => [0x30] | _ => (Z.add 0x30) <$> digits end.

Definition error_code_name (code : FileTransferErrorCode.t) : list Z :=
  match code with
  | FileTransferErrorCode.Busy => str "Busy"
  | FileTransferErrorCode.InvalidRequest => str "InvalidRequest"
  | FileTransferErrorCode.InvalidPathEncoding => str "InvalidPathEncoding"
  | FileTransferErrorCode.InvalidFileName => str "InvalidFileName"
  | FileTransferErrorCode.PathTooLong => str "PathTooLong"
  | FileTransferErrorCode.SourceNotFound => str "SourceNotFound"
  | FileTransferErrorCode.SourceNotRegularFile => str "SourceNotRegularFile"
  | FileTransferErrorCode.DestinationExists => str "DestinationExists"
  | FileTransferErrorCode.DestinationParentNotFound => str "DestinationParentNotFound"
  | FileTransferErrorCode.DestinationNotDirectory => str "DestinationNotDirectory"
  | FileTransferErrorCode.PermissionDenied => str "PermissionDenied"
  | FileTransferErrorCode.NoSpace => str "NoSpace"
  | FileTransferErrorCode.FileTooLargeForPlatform => str "FileTooLargeForPlatform"
  | FileTransferErrorCode.ReadFailed => str "ReadFailed"
  | FileTransferErrorCode.WriteFailed => str "WriteFailed"
  | FileTransferErrorCode.SizeMismatch => str "SizeMismatch"
  | FileTransferErrorCode.DigestMismatch => str "DigestMismatch"
  | FileTransferErrorCode.SourceChanged => str "SourceChanged"
  | FileTransferErrorCode.CommitFailed => str "CommitFailed"
  | FileTransferErrorCode.Cancelled => str "Cancelled"
  | FileTransferErrorCode.SessionClosing => str "SessionClosing"
  | FileTransferErrorCode.Unsupported => str "Unsupported"
  end.

(** [transfer_summary_line_with_audit]. *)
Definition transfer_summary_line_with_audit (d : TransferDirection) (outcome : TransferOutcome)
  (audit_failed : bool) : list Z :=
  let verb := direction_verb d in
  let suffix := if audit_failed then str "; audit recording failed; session closing" else [] in
  match outcome with
  | TCommitted n => verb ++ str " complete: " ++ decimal n ++ str " bytes" ++ suffix
  | TCommittedUnconfirmed n =>
    verb ++ str " committed locally: " ++ decimal n ++
    str " bytes; peer confirmation was not delivered" ++ suffix
  | TCommitStatusUnknown n =>
    verb ++ str " commit status unknown after " ++ decimal n ++
    str " bytes; verify the destination before retrying" ++ suffix
  | TAuditFailed n =>
    verb ++ str " committed: " ++ decimal n ++ str " bytes; audit recording failed; session closing"
  | TAuditFailedBeforeCommit => verb ++ str " aborted: audit recording failed; session closing"
  | TCancelled => verb ++ str " cancelled" ++ suffix
  | TFailed code => verb ++ str " failed: " ++ error_code_name code ++ suffix
  end.

Definition handle_transfer_event (outcome : TransferOutcome) : sess unit :=
  d ← gets (fun s => direction (ui s));
  d ← total (expect_some d);
  n ← gets (fun s => length (trace s));
  let audit_failed :=
    match outcome with
    | TAuditFailed _ | TAuditFailedBeforeCommit => true
    | _ => audit env && observer_failed env n
    end in
  _ ← write_local_ui CRLF;
  _ ← write_local_ui (transfer_summary_line_with_audit d outcome audit_failed);
  _ ← end_transfer_modal;
  _ ← modify (fun s => with_cancel (with_transfer s None) false);
  if audit_failed then throw AuditError else mret tt.

(** [forward_processed_input_owned] of a session that is not closing. *)
Definition forward_processed_input (processed : ProcessedInput) : sess unit :=
  let bytes := remote_bytes processed in
  if zlen bytes =? 0 then mret tt
  else
    _ ← observed (RecordInput bytes);
    _ ← on_error (attempt (RemoteWrite bytes)) (fun e =>
          _ ← ignore_error (observed (RecordSend false (zlen bytes)));
          throw e);
    observed (RecordSend true (zlen bytes)).

(** [write_remote_output_owned] of a session that is not closing. *)
Definition write_remote_output (display : list Z) : sess unit :=
  _ ← observed (RecordDisplay display);
  _ ← on_error (attempt (Display display)) (fun e =>
        _ ← ignore_error (observed (RecordDisplayOutcome false (zlen display)));
        throw e);
  observed (RecordDisplayOutcome true (zlen display)).

Definition finish_local_input_eof : sess unit :=
  _ ← put_ui (fun u => set_local_ended u true);
  c ← gets (fun s => control (ui s));
  '(c, finished) ← total (finish c);
  _ ← put_ui (fun u => set_control u c);
  _ ← forward_processed_input finished;
  _ ← (if bool_decide (action finished = Bell) then write_local_ui BEL else mret tt);
  current ← gets (fun s => flow (ui s));
  _ ← (match current with
       | Some _ => _ ← end_transfer_modal; flush_delayed_output
       | None => mret tt
       end);
  attempt RemoteShutdown.
End Handlers.
