(* ===== verification/TransferPump.v ===== *)
(** The controller's session loop: the part of [run_terminal] of
    [crates/yon/src/controller.rs] that drives local input, remote output and file
    transfers.

    The loop owns steps that are under way (a chunk of local input on its way to
    the remote terminal, a chunk of remote output being recorded or displayed, a
    running transfer) and results that wait until no owner is busy ([pending_..]).
    An event is one ready branch of the loop's [select]; a branch whose guard does
    not hold is not polled, so its event is ignored here.  After every event the
    waiting results are handled in the order of the source ([settle]).

    The effects of an owned step are placed at its completion.  The owners that are
    not modelled (audit frames and checkpoints, resizes, the exit record) are one
    flag that events set and clear; the events that end the loop with an error of
    theirs are [PumpFailed]. *)

From S2P Require Import Prelude Stateful WireFileTransfer TransferSession TerminalOutput LocalControl PathPrompt TransferUi.

Record Pump : Type := {
  session : Session;
  local_input : option ProcessedInput;
  remote_output : option (list Z);
  remote_write : option (list Z);
  other_owner : bool;
  cancel_audit : bool;
  pending_local_input : option ProcessedInput;
  pending_local_eof : bool;
  pending_transfer : option TransferOutcome;
  pending_completion : option Z;
  completed_code : option Z
}.

Abbreviation pump := (stm Pump CtlError).

Definition with_session (p : Pump) (s : Session) : Pump :=
  {| session := s; local_input := local_input p; remote_output := remote_output p;
     remote_write := remote_write p; other_owner := other_owner p; cancel_audit := cancel_audit p;
     pending_local_input := pending_local_input p; pending_local_eof := pending_local_eof p;
     pending_transfer := pending_transfer p; pending_completion := pending_completion p;
     completed_code := completed_code p |}.

Definition with_local_input (p : Pump) (x : option ProcessedInput) : Pump :=
  {| session := session p; local_input := x; remote_output := remote_output p;
     remote_write := remote_write p; other_owner := other_owner p; cancel_audit := cancel_audit p;
     pending_local_input := pending_local_input p; pending_local_eof := pending_local_eof p;
     pending_transfer := pending_transfer p; pending_completion := pending_completion p;
     completed_code := completed_code p |}.

Definition with_remote_output (p : Pump) (x : option (list Z)) : Pump :=
  {| session := session p; local_input := local_input p; remote_output := x;
     remote_write := remote_write p; other_owner := other_owner p; cancel_audit := cancel_audit p;
     pending_local_input := pending_local_input p; pending_local_eof := pending_local_eof p;
     pending_transfer := pending_transfer p; pending_completion := pending_completion p;
     completed_code := completed_code p |}.

Definition with_remote_write (p : Pump) (x : option (list Z)) : Pump :=
  {| session := session p; local_input := local_input p; remote_output := remote_output p;
     remote_write := x; other_owner := other_owner p; cancel_audit := cancel_audit p;
     pending_local_input := pending_local_input p; pending_local_eof := pending_local_eof p;
     pending_transfer := pending_transfer p; pending_completion := pending_completion p;
     completed_code := completed_code p |}.

Definition with_owners (p : Pump) (other cancelling : bool) : Pump :=
  {| session := session p; local_input := local_input p; remote_output := remote_output p;
     remote_write := remote_write p; other_owner := other; cancel_audit := cancelling;
     pending_local_input := pending_local_input p; pending_local_eof := pending_local_eof p;
     pending_transfer := pending_transfer p; pending_completion := pending_completion p;
     completed_code := completed_code p |}.

Definition with_pending_input (p : Pump) (x : option ProcessedInput) : Pump :=
  {| session := session p; local_input := local_input p; remote_output := remote_output p;
     remote_write := remote_write p; other_owner := other_owner p; cancel_audit := cancel_audit p;
     pending_local_input := x; pending_local_eof := pending_local_eof p;
     pending_transfer := pending_transfer p; pending_completion := pending_completion p;
     completed_code := completed_code p |}.

Definition with_pending_eof (p : Pump) (b : bool) : Pump :=
  {| session := session p; local_input := local_input p; remote_output := remote_output p;
     remote_write := remote_write p; other_owner := other_owner p; cancel_audit := cancel_audit p;
     pending_local_input := pending_local_input p; pending_local_eof := b;
     pending_transfer := pending_transfer p; pending_completion := pending_completion p;
     completed_code := completed_code p |}.

Definition with_pending_transfer (p : Pump) (x : option TransferOutcome) : Pump :=
  {| session := session p; local_input := local_input p; remote_output := remote_output p;
     remote_write := remote_write p; other_owner := other_owner p; cancel_audit := cancel_audit p;
     pending_local_input := pending_local_input p; pending_local_eof := pending_local_eof p;
     pending_transfer := x; pending_completion := pending_completion p;
     completed_code := completed_code p |}.

Definition with_completion (p : Pump) (pending completed : option Z) : Pump :=
  {| session := session p; local_input := local_input p; remote_output := remote_output p;
     remote_write := remote_write p; other_owner := other_owner p; cancel_audit := cancel_audit p;
     pending_local_input := pending_local_input p; pending_local_eof := pending_local_eof p;
     pending_transfer := pending_transfer p; pending_completion := pending;
     completed_code := completed |}.

Definition is_some {A} (o : option A) : bool := match o with Some _ => true | None => false end.

(** [owners_idle]. *)
Definition owners_idle (p : Pump) : bool :=
  negb (other_owner p) && negb (cancel_audit p) && negb (is_some (local_input p)) &&
  negb (is_some (remote_output p)) && negb (is_some (remote_write p)) &&
  negb (is_some (transfer (session p))).

(** A handler of the session, run by the loop. *)
Definition on_session {A} (m : sess A) : pump A := zoom session (fun s p => with_session p s) m.

Inductive PumpEvent : Type :=
| LocalInputRead (chunk : option (list Z))
| LocalInputProcessed
| RemoteOutputRead (chunk : list Z)
| RemoteOutputProcessed
| RemoteOutputWritten
| TransferFinished (outcome : TransferOutcome)
| TransferCancelAudited
| OtherOwner (busy : bool)
| RemoteCompleted (code : Z)
| PumpFailed (e : CtlError).

(** The guards of the branches. *)
Definition polled (p : Pump) (e : PumpEvent) : bool :=
  match e with
  | LocalInputRead _ =>
    negb (local_ended (ui (session p))) && negb (is_some (completed_code p)) &&
    negb (is_some (local_input p)) && negb (is_some (remote_write p))
  | LocalInputProcessed => is_some (local_input p) && negb (is_some (remote_write p))
  | RemoteOutputRead _ => negb (is_some (remote_output p)) && negb (is_some (remote_write p))
  | RemoteOutputProcessed => is_some (remote_output p)
  | RemoteOutputWritten => is_some (remote_write p)
  | TransferFinished _ => is_some (transfer (session p)) && negb (is_some (pending_transfer p))
  | TransferCancelAudited => cancel_audit p
  | OtherOwner _ | RemoteCompleted _ | PumpFailed _ => true
  end.

Section Loop.
Context (env : Env).

(** A chunk of remote output: delayed while a prompt is open, otherwise handed to
    the display writer. *)
Definition accept_output (chunk : list Z) : pump unit :=
  current ← gets (fun p => flow (ui (session p)));
  match current with
  | Some _ =>
    on_session (
      buffered ← gets (fun s => delayed (ui s));
      let '(outcome, buffered) := append buffered chunk in
      _ ← put_ui (fun u => set_delayed u buffered);
      match outcome with
      | Overflow => put_ui (fun u => set_overflow u true)
      | AppendOk => mret tt
      end)
  | None =>
    o ← gets (fun p => terminal_output (session p));
    '(o, display) ← on_session (total (prepare_into o chunk));
    _ ← on_session (modify (fun s => with_output s o));
    modify (fun p => with_remote_write p (Some display))
  end.

Definition handle_event (e : PumpEvent) : pump unit :=
  match e with
  | LocalInputRead (Some chunk) =>
    c ← gets (fun p => control (ui (session p)));
    '(c, processed) ← on_session (total (process c chunk));
    _ ← on_session (put_ui (fun u => set_control u c));
    modify (fun p => with_local_input p (Some processed))
  | LocalInputRead None =>
    _ ← on_session (put_ui (fun u => set_local_ended u true));
    _ ← on_session (modify (fun s => with_cancel s true));
    modify (fun p => with_pending_eof p true)
  | LocalInputProcessed =>
    step ← gets local_input;
    processed ← on_session (total (expect_some step));
    _ ← modify (fun p => with_local_input p None);
    _ ← on_session (forward_processed_input env processed);
    running ← gets (fun p => is_some (transfer (session p)));
    if bool_decide (action processed = CancelOp) && running then
      if audit env then modify (fun p => with_owners p (other_owner p) true)
      else on_session (modify (fun s => with_cancel s true))
    else modify (fun p => with_pending_input p (Some processed))
  | RemoteOutputRead chunk =>
    if audit env then modify (fun p => with_remote_output p (Some chunk)) else accept_output chunk
  | RemoteOutputProcessed =>
    step ← gets remote_output;
    chunk ← on_session (total (expect_some step));
    _ ← modify (fun p => with_remote_output p None);
    _ ← on_session (observed env (RecordOutput chunk));
    accept_output chunk
  | RemoteOutputWritten =>
    step ← gets remote_write;
    display ← on_session (total (expect_some step));
    _ ← modify (fun p => with_remote_write p None);
    on_session (write_remote_output env display)
  | TransferFinished outcome =>
    _ ← on_session (modify (fun s => with_transfer s None));
    modify (fun p => with_pending_transfer p (Some outcome))
  | TransferCancelAudited =>
    _ ← modify (fun p => with_owners p (other_owner p) false);
    _ ← on_session (observed env (RecordKey KEY_ACTION_INTERRUPT));
    on_session (modify (fun s => with_cancel s true))
  | OtherOwner busy => modify (fun p => with_owners p busy (cancel_audit p))
  | RemoteCompleted code => modify (fun p => with_completion p (Some code) (completed_code p))
  | PumpFailed e => throw e
  end.

(** One waiting result, if the owners are idle; [false] when there is none. *)
Definition handle_pending : pump bool :=
  p ← gets id;
  if negb (owners_idle p) then mret false
  else
    match pending_transfer p with
    | Some outcome =>
      _ ← modify (fun p => with_pending_transfer p None);
      _ ← on_session (handle_transfer_event env outcome);
      _ ← modify (fun p => with_completion p None (completed_code p));
      mret true
    | None =>
      if pending_local_eof p then
        _ ← modify (fun p => with_pending_eof p false);
        _ ← on_session (finish_local_input_eof env);
        mret true
      else
        match pending_local_input p with
        | Some processed =>
          _ ← modify (fun p => with_pending_input p None);
          handling ← on_session (handle_processed_input env processed);
          _ ← (match handling with
               | Done => mret tt
               | StartModal d => on_session (begin_file_transfer_modal env d)
               | RunTransfer t => on_session (begin_transfer env t)
               end);
          mret true
        | None =>
          if delayed_overflow (ui (session p)) then
            _ ← on_session (put_ui (fun u => (take_delayed_overflow u).2));
            _ ← on_session (abort_prompt_for_overflow env);
            mret true
          else
            match pending_completion p with
            | Some code =>
              _ ← on_session (flush_delayed_output env);
              _ ← modify (fun p => with_completion p None (Some code));
              mret true
            | None => mret false
            end
        end
    end.

(** The waiting results, until there is none or an owner is busy.  Each one that
    is handled is gone, so five rounds are enough; running out is a [Panic]. *)
Fixpoint settle_rounds (fuel : nat) : pump unit :=
  match fuel with
  | O => fun p => (Panic, p)
  | S fuel =>
    again ← handle_pending;
    if again : bool then settle_rounds fuel else mret tt
  end.

Definition settle : pump unit := settle_rounds 6.

(** The loop ends with the exit code once the owners are idle. *)
Definition finished_code (p : Pump) : option Z := if owners_idle p then completed_code p else None.

Fixpoint run_pump (events : list PumpEvent) : pump (option Z) :=
  _ ← settle;
  p ← gets id;
  match finished_code p with
  | Some code => mret (Some code)
  | None =>
    match events with
    | [] => mret None
    | e :: rest =>
      _ ← (if polled p e then handle_event e else mret tt);
      run_pump rest
    end
  end.

(** The chunks of remote output that a run reads, in order. *)
Fixpoint chunks_read (events : list PumpEvent) (p : Pump) : list (list Z) :=
  match settle p with
  | (Ok _, p) =>
    match finished_code p, events with
    | Some _, _ | None, [] => []
    | None, e :: rest =>
      if polled p e then
        match e with RemoteOutputRead chunk => [chunk] | _ => [] end ++
        match handle_event e p with (Ok _, p) => chunks_read rest p | _ => [] end
      else chunks_read rest p
    end
  | _ => []
  end.
End Loop.

Definition new_session (mode : RemoteTerminalOutputMode) (interactive to_display terminal : bool) : Session :=
  {| ui := new_transfer_ui interactive to_display terminal;
     terminal_output := new_terminal_output mode; cancel := false; transfer := None; trace := [] |}.

Definition new_pump (mode : RemoteTerminalOutputMode) (interactive to_display terminal : bool) : Pump :=
  {| session := new_session mode interactive to_display terminal; local_input := None;
     remote_output := None; remote_write := None; other_owner := false; cancel_audit := false;
     pending_local_input := None; pending_local_eof := false; pending_transfer := None;
     pending_completion := None; completed_code := None |}.
