(* ===== verification/TransferUiSafety.v ===== *)
(** What the handlers of a session keep true, and how they move its output.

    Every handler is described by [ok]: from a state that satisfies the invariant
    it does not panic, and if it succeeds its result and state are as claimed.  The
    two panics that the source has are excluded only for a [careful] session: the
    keystrokes are ASCII and no probe finds the protocol unsupported. *)

From stdpp Require Import strings.
From S2P Require Import Prelude Stateful Utf8 WireFileTransfer TransferSession TerminalOutput LocalControl PathPrompt TransferUi.
Open Scope string_scope.
Open Scope list_scope.
Open Scope Z_scope.

Section Ok.
Context (careful : Prop).

(** [ok m s Q]: no panic in a careful session, and [Q] of a successful result. *)
Definition ok {S E A} (m : stm S E A) (s : S) (Q : A -> S -> Prop) : Prop :=
  match m s with
  | (Ok a, s') => Q a s'
  | (Err _, _) => True
  | (Panic, _) => ~ careful
  end.

Lemma ok_mono {S E A} (m : stm S E A) s (Q1 Q2 : A -> S -> Prop) :
  ok m s Q1 -> (forall a s', Q1 a s' -> Q2 a s') -> ok m s Q2.
Proof. unfold ok. destruct (m s) as [[a|e|] s']; auto. Qed.

Lemma ok_bind {S E A B} (m : stm S E A) (f : A -> stm S E B) s Q :
  ok m s (fun a s' => ok (f a) s' Q) -> ok (m ≫= f) s Q.
Proof. unfold ok, mbind, stm_bind. by destruct (m s) as [[a|e|] s']. Qed.

Lemma ok_bind_inv {S E A B} (m : stm S E A) (f : A -> stm S E B) s Q :
  ok (m ≫= f) s Q -> ok m s (fun a s' => ok (f a) s' Q).
Proof. unfold ok, mbind, stm_bind. by destruct (m s) as [[a|e|] s']. Qed.

Lemma ok_ret {S E A} (a : A) (s : S) (Q : A -> S -> Prop) : Q a s -> ok (mret a : stm S E A) s Q.
Proof. done. Qed.

Lemma ok_gets {S E A} (f : S -> A) (s : S) (Q : A -> S -> Prop) :
  Q (f s) s -> ok (gets f : stm S E A) s Q.
Proof. done. Qed.

Lemma ok_modify {S E} (f : S -> S) (s : S) (Q : unit -> S -> Prop) :
  Q tt (f s) -> ok (modify f : stm S E unit) s Q.
Proof. done. Qed.

Lemma ok_throw {S E A} (e : E) (s : S) (Q : A -> S -> Prop) : ok (throw e : stm S E A) s Q.
Proof. done. Qed.

Lemma ok_total {A} (r : res unit A) s (Q : A -> Session -> Prop) :
  (forall a, r = Ok a -> Q a s) -> (careful -> exists a, r = Ok a) -> ok (total r) s Q.
Proof.
  unfold ok, total. intros H1 H2. destruct r as [a|e|]; [by apply H1|..];
    intros Hc; destruct (H2 Hc); congruence.
Qed.
End Ok.

(** ** How output moves *)

(** The bytes written to the display as remote output, in order. *)
Definition displayed (s : Session) : list Z :=
  trace s ≫= fun e => match e with Display bytes => bytes | _ => [] end.

Definition is_display (e : UiEvent) : bool := match e with Display _ => true | _ => false end.

Lemma displayed_event s e : is_display e = false -> displayed (with_event s e) = displayed s.
Proof.
  intros H. unfold displayed. cbn. rewrite bind_app. cbn.
  destruct e; try done; by rewrite !app_nil_r.
Qed.

Lemma displayed_display s bytes : displayed (with_event s (Display bytes)) = displayed s ++ bytes.
Proof. unfold displayed. cbn. rewrite bind_app. cbn. by rewrite app_nil_r. Qed.

(** The session drained a part [cs] of its delayed output to the display. *)
Definition drains (s s' : Session) : Prop :=
  exists cs d, prepare_chunks (terminal_output s) cs = Ok (terminal_output s', d) /\
    displayed s' = displayed s ++ d /\
    delayed_bytes (delayed (ui s)) = concat cs ++ delayed_bytes (delayed (ui s')) /\
    capacity (delayed (ui s')) = capacity (delayed (ui s)).

Lemma drains_refl s s' :
  terminal_output s' = terminal_output s -> displayed s' = displayed s ->
  delayed (ui s') = delayed (ui s) -> drains s s'.
Proof. intros H1 H2 H3. exists [], []. rewrite H1, H2, H3. cbn. by rewrite app_nil_r. Qed.

Lemma prepare_chunks_app o a b :
  prepare_chunks o (a ++ b) =
  ('(o1, d1) ← prepare_chunks o a; '(o2, d2) ← prepare_chunks o1 b; Ok (o2, d1 ++ d2)).
Proof.
  revert o. induction a as [|c a IH]; intros o; cbn [app prepare_chunks].
  - cbn [mbind res_bind app]. by destruct (prepare_chunks o b) as [[? ?]|?|].
  - destruct (prepare_into o c) as [[o1 d1]|?|]; [|done..]. cbn [mbind res_bind]. rewrite IH.
    destruct (prepare_chunks o1 a) as [[o2 d2]|?|]; [|done..]. cbn [mbind res_bind].
    destruct (prepare_chunks o2 b) as [[o3 d3]|?|]; [|done..]. cbn [mbind res_bind].
    by rewrite app_assoc.
Qed.

Lemma drains_trans s1 s2 s3 : drains s1 s2 -> drains s2 s3 -> drains s1 s3.
Proof.
  intros (c1 & d1 & P1 & D1 & B1 & K1) (c2 & d2 & P2 & D2 & B2 & K2).
  exists (c1 ++ c2), (d1 ++ d2). rewrite prepare_chunks_app, P1. cbn [mbind res_bind].
  rewrite P2. cbn [mbind res_bind]. split_and!; [done|by rewrite D2, D1, app_assoc| |congruence].
  by rewrite concat_app, B1, B2, app_assoc.
Qed.

(** ** The invariants *)

(** A prompt of a flow: the first field must be filled; the second may be empty,
    and is only reached with the first one submitted. *)
Record flow_ok (careful : Prop) (f : PathPromptFlow) : Prop := {
  fo_prompt : prompt_inv (flow_prompt f);
  fo_field : flow_field f = 0 /\ allow_empty (flow_prompt f) = false \/
             flow_field f = 1 /\ is_Some (flow_first f);
  fo_ascii : careful -> ascii_prompt (flow_prompt f) /\ Forall ascii (flow_echoed f)
}.

Definition output_ok (o : RemoteTerminalOutput) : Prop :=
  rto_mode o = WindowsConsoleUtf8 -> pending_is (rto_pending o) (rto_pending_len o) (pending_text o).

Definition at_prompt (c : LocalControlInput) : Prop :=
  modal c = Some UploadPrompt \/ modal c = Some DownloadPrompt.

Record ui_ok (careful : Prop) (s : Session) : Prop := {
  uo_flow : forall f, flow (ui s) = Some f ->
    flow_ok careful f /\ is_Some (direction (ui s)) /\
    (at_prompt (control (ui s)) \/ ended (control (ui s)) = true);
  uo_output : output_ok (terminal_output s)
}.

Lemma prepare_output_ok o bytes :
  output_ok o -> exists o' d, prepare_into o bytes = Ok (o', d) /\ output_ok o'.
Proof.
  intros Ho. unfold prepare_into. destruct (rto_mode o) eqn:Hm.
  - exists o, bytes. by split.
  - destruct (prepare_chunk_ok o bytes Hm) as (o' & Hp & Hm' & _ & Hi); [eexists; by split; [apply Ho|]|].
    unfold prepare_into in Hp. rewrite Hm in Hp. eexists _, _. split; [exact Hp|]. by intros _.
Qed.

Lemma new_flow_ok careful d : flow_ok careful (new_flow d).
Proof.
  constructor; cbn; [by apply new_prompt_inv|by left|]. intros _. split; [|constructor].
  split; [constructor|done].
Qed.

(** ** The prompt of a flow *)

Lemma feed_flow_ok careful p bs :
  prompt_inv p -> (careful -> ascii_prompt p) -> bytes bs -> (careful -> Forall ascii bs) ->
  exists r p', feed p bs = Ok (r, p') /\ prompt_inv p' /\ same_field p p' /\ result_ok p r /\
    (careful -> ascii_prompt p') /\ (bs = [] -> r = PContinue).
Proof.
  intros Hp Ha Hb Hba. destruct (feed_loop_ok bs p false Hp Hb) as (r & p' & Hf & Hi & Hs & Hr).
  exists r, p'. split_and!; try done.
  - intros Hc. eapply feed_loop_ascii; [by apply Ha|by apply Hba|exact Hf].
  - intros ->. cbn in Hf. by simplify_eq.
Qed.

(** [Completed] comes only with some input; otherwise the flow stays as it was, in
    the same direction. *)
Lemma flow_feed_ok careful f pr :
  flow_ok careful f -> bytes (path_bytes pr) -> bytes (remainder pr) ->
  (careful -> Forall ascii (path_bytes pr) /\ Forall ascii (remainder pr)) ->
  exists progress f', flow_feed f pr = Ok (progress, f') /\
    match progress with
    | Completed _ _ => path_bytes pr <> [] \/ remainder pr <> []
    | _ => flow_ok careful f'
    end.
Proof.
  intros [Hp Hfield Ha] Hb1 Hb2 Hasc.
  assert (forall p result, prompt_inv p -> same_field (flow_prompt f) p -> (careful -> ascii_prompt p) ->
    result_ok (flow_prompt f) result ->
    forall g, g = set_prompt f p \/ g = set_prompt (clear_initial f) p ->
    exists progress f', advance g result = Ok (progress, f') /\
    match progress with
    | Completed _ _ => result <> PContinue
    | _ => flow_ok careful f'
    end) as Hadv.
  { intros p result Hpi [_ Hal] Hpa Hres g Hg.
    assert (flow_field g = flow_field f /\ flow_first g = flow_first f /\ flow_prompt g = p /\
            flow_echoed g = flow_echoed f) as (G1 & G2 & G3 & G4) by (by destruct Hg as [-> | ->]).
    assert (flow_ok careful g) as Hgo.
    { constructor; rewrite ?G1, ?G2, ?G3, ?G4; [done|by rewrite Hal|].
      intros Hc. split; [auto|]. by apply Ha. }
    assert (flow_ok careful (set_echoed g [])) as Hge.
    { destruct Hgo as [? ? Hga]. constructor; cbn; try done. intros Hc. split; [by apply Hga|constructor]. }
    unfold advance. destruct result as [path| | | | |]; cbn [result_ok] in Hres.
    - rewrite G1. destruct (Z.eqb_spec (flow_field f) 0) as [H0|H0].
      + eexists _, _. split; [done|]. constructor; cbn; [by apply new_prompt_inv|by right; split; [|eexists]|].
        intros _. split; [|constructor]. split; [constructor|done].
      + destruct Hfield as [[? _]|[_ [first Hfirst]]]; [done|]. rewrite G2, Hfirst.
        cbn [expect_some mbind res_bind]. by eexists _, _.
    - destruct Hfield as [[_ ?]|[_ [first Hfirst]]]; [congruence|]. rewrite G2, Hfirst.
      cbn [expect_some mbind res_bind]. by eexists _, _.
    - by eexists _, _.
    - by eexists _, _.
    - by eexists _, _.
    - by eexists _, _. }
  assert (forall r, match r with PContinue | PBell => True | _ => r <> PContinue end) as Hne by (by intros []).
  unfold flow_feed. destruct (flow_initial f).
  - destruct (feed_flow_ok careful (flow_prompt f) (remainder pr)) as (r & p1 & Hr & Hi1 & Hs1 & Hro & Ha1 & Hn1);
      [done|by intros Hc; apply Ha|done|by intros Hc; apply Hasc|].
    unfold feed_initial. unfold feed in Hr. rewrite Hr. cbn [mbind res_bind].
    destruct (decide (zlen (path_bytes pr) = 0)) as [Hz|Hz].
    + rewrite (proj2 (Z.eqb_eq _ _)) by done.
      destruct (Hadv p1 r Hi1 Hs1 Ha1 Hro (set_prompt (clear_initial f) p1)) as (pg & f' & Hf' & Hpg); [by right|].
      exists pg, f'. split; [by destruct r|]. destruct pg; try done. right. intros Hrem. auto.
    + rewrite (proj2 (Z.eqb_neq _ _)) by done.
      destruct (feed_flow_ok careful p1 (path_bytes pr)) as (r2 & p2 & Hr2 & Hi2 & Hs2 & Hro2 & Ha2 & _);
        [done|done|done|by intros Hc; apply Hasc|].
      assert (same_field (flow_prompt f) p2) as Hs12 by (destruct Hs1, Hs2; split; congruence).
      assert (result_ok (flow_prompt f) r2) as Hro2'.
      { destruct Hs1 as [E1 E2]. destruct r2; cbn in *; rewrite <- ?E1, <- ?E2; done. }
      assert (path_bytes pr <> []) as Hnil by (intros Hn; by rewrite Hn in Hz).
      destruct (Hadv p1 r Hi1 Hs1 Ha1 Hro (set_prompt (clear_initial f) p1)) as (pg & f' & Hf' & Hpg); [by right|].
      destruct (Hadv p2 r2 Hi2 Hs12 Ha2 Hro2' (set_prompt (clear_initial f) p2)) as (pg2 & f2 & Hf2 & Hpg2); [by right|].
      destruct r; cbn [mbind res_bind];
        try (exists pg, f'; split; [exact Hf'|]; destruct pg; try done; by left);
        (cbn [flow_prompt set_prompt clear_initial]; rewrite Hr2; cbn [mbind res_bind];
         exists pg2, f2; split; [exact Hf2|]; destruct pg2; try done; by left).
  - cbn [mbind res_bind]. assert (flow_ok careful f) as Hfo by (by constructor).
    destruct (Z.eqb_spec (zlen (path_bytes pr)) 0) as [Hz|Hz].
    + cbn [mbind res_bind advance]. by eexists _, _.
    + destruct (feed_flow_ok careful (flow_prompt f) (path_bytes pr)) as (r2 & p2 & Hr2 & Hi2 & Hs2 & Hro2 & Ha2 & _);
        [done|by intros Hc; apply Ha|done|by intros Hc; apply Hasc|].
      rewrite Hr2. cbn [mbind res_bind].
      destruct (Hadv p2 r2 Hi2 Hs2 Ha2 Hro2 (set_prompt f p2)) as (pg & f' & Hf' & Hpg); [by left|].
      exists pg, f'. split; [exact Hf'|]. destruct pg; try done. left. intros Hn. by rewrite Hn in Hz.
Qed.

(** ** Effects that leave the session as it is *)

Record quiet (s s' : Session) : Prop := {
  qt_ui : ui s' = ui s;
  qt_output : terminal_output s' = terminal_output s;
  qt_cancel : cancel s' = cancel s;
  qt_transfer : transfer s' = transfer s;
  qt_displayed : displayed s' = displayed s
}.

Lemma undisturbed s : quiet s s.
Proof. by constructor. Qed.

Lemma quiet_then s1 s2 s3 : quiet s1 s2 -> quiet s2 s3 -> quiet s1 s3.
Proof. intros [] []. constructor; congruence. Qed.

Lemma quiet_event s e : is_display e = false -> quiet s (with_event s e).
Proof. intros H. constructor; try done. by apply displayed_event. Qed.

#[local] Hint Resolve undisturbed quiet_event : core.

(** A common prefix of ASCII lines ends between two characters. *)
Lemma common_prefix_bound a b : 0 <= common_prefix a b <= zlen a /\ common_prefix a b <= zlen b.
Proof.
  revert b. induction a as [|x a IH]; intros [|y b]; cbn; try zlen_tac.
  specialize (IH b). destruct (x =? y); zlen_tac.
Qed.

Lemma str_from_ascii l i : Forall ascii l -> 0 <= i <= zlen l -> str_from l i = Ok (drop (Z.to_nat i) l).
Proof.
  intros Hl Hi. unfold str_from, is_char_boundary.
  destruct (Z.eqb_spec i 0); [done|]. destruct (Z.eqb_spec i (zlen l)) as [|Hne]; [done|]. cbn [orb].
  destruct (l !! Z.to_nat i) as [b|] eqn:Hb.
  - pose proof (Forall_lookup_1 _ _ _ _ Hl Hb) as Ha. unfold ascii in Ha.
    replace (is_cont b) with false by (unfold is_cont; lia). done.
  - apply lookup_ge_None in Hb. unfold zlen in *. lia.
Qed.

Section Handlers.
Context (env : Env) (careful : Prop).
Context (Hprobe : careful -> forall n, opened env n <> OpenUnsupported).

Lemma ok_attempt e s Q :
  is_display e = false -> (forall s', quiet s s' -> Q tt s') -> ok careful (attempt env e) s Q.
Proof. intros He HQ. unfold ok, attempt. destruct (fault env _); auto. Qed.

Lemma ok_observed e s Q :
  is_display e = false -> (forall s', quiet s s' -> Q tt s') -> ok careful (observed env e) s Q.
Proof. intros He HQ. unfold observed. destruct (audit env); [by apply ok_attempt|]. by apply HQ. Qed.

Lemma ok_write_local bytes s Q :
  (forall s', quiet s s' -> Q tt s') -> ok careful (write_local_ui env bytes) s Q.
Proof. intros HQ. unfold write_local_ui. apply ok_bind, ok_gets. by apply ok_attempt. Qed.

Lemma ok_ignored_outcome b n (e : CtlError) s (Q : unit -> Session -> Prop) :
  ok careful ((_ ← ignore_error (observed env (RecordDisplayOutcome b n)); throw e) : sess unit) s Q.
Proof.
  unfold ok, mbind, stm_bind, ignore_error, observed, attempt.
  destruct (audit env); [|done]. by destruct (fault env _).
Qed.

(** The display write of the delayed output and of a chunk. *)
Lemma ok_display bytes s Q :
  (forall s', ui s' = ui s -> terminal_output s' = terminal_output s -> cancel s' = cancel s ->
     transfer s' = transfer s -> displayed s' = displayed s ++ bytes -> Q tt s') ->
  ok careful (write_remote_output env bytes) s Q.
Proof.
  intros HQ. unfold write_remote_output. apply ok_bind, ok_observed; [done|]. intros s1 Hq1.
  apply ok_bind. unfold ok at 1, on_error. unfold attempt. destruct (fault env _).
  - pose proof (ok_ignored_outcome false (zlen bytes) c (with_event s1 (Display bytes))
      (fun _ s' => ok careful (observed env (RecordDisplayOutcome true (zlen bytes))) s' Q)) as H.
    unfold ok at 1 in H. exact H.
  - apply ok_observed; [done|]. intros s2 Hq2. apply HQ.
    + by rewrite (qt_ui _ _ Hq2), <- (qt_ui _ _ Hq1).
    + by rewrite (qt_output _ _ Hq2), <- (qt_output _ _ Hq1).
    + by rewrite (qt_cancel _ _ Hq2), <- (qt_cancel _ _ Hq1).
    + by rewrite (qt_transfer _ _ Hq2), <- (qt_transfer _ _ Hq1).
    + by rewrite (qt_displayed _ _ Hq2), displayed_display, (qt_displayed _ _ Hq1).
Qed.

Lemma ok_for_each {A} (l : list A) (f : A -> sess unit) s Q :
  (forall x s Q, (forall s', quiet s s' -> Q tt s') -> ok careful (f x) s Q) ->
  (forall s', quiet s s' -> Q tt s') -> ok careful (for_each l f) s Q.
Proof.
  intros Hf. revert s. induction l as [|x l IH]; intros s HQ; cbn [for_each]; [by apply ok_ret, HQ|].
  apply ok_bind, Hf. intros s1 H1. apply IH. intros s2 H2. apply HQ. by eapply quiet_then.
Qed.

Lemma ok_echo_delta f s Q :
  flow_ok careful f ->
  (forall s', quiet s s' -> Q (set_echoed f (flow_line f)) s') -> ok careful (echo_delta env f) s Q.
Proof.
  intros [_ _ Ha] HQ. unfold echo_delta.
  pose proof (common_prefix_bound (flow_echoed f) (flow_line f)) as [Hc1 Hc2].
  apply ok_bind, ok_total.
  2:{ intros Hc. eexists. apply str_from_ascii; [by apply Ha|lia]. }
  intros erased He. apply ok_bind, ok_total.
  2:{ intros Hc. destruct (Ha Hc) as [_ Hech]. rewrite str_from_ascii in He by (done || lia).
      injection He as <-. exists (drop (Z.to_nat (common_prefix (flow_echoed f) (flow_line f))) (flow_echoed f)).
      rewrite utf8_chars_ascii; [done|]. by apply Forall_drop. }
  intros chars _. apply ok_bind, ok_for_each.
  { intros x s1 Q1 H1. by apply ok_attempt. }
  intros s1 Hs1. apply ok_bind, ok_total.
  2:{ intros Hc. eexists. apply str_from_ascii; [apply (Ha Hc)|lia]. }
  intros added _. apply ok_bind.
  assert (forall s2, quiet s s2 -> ok careful (_ ← attempt env EchoFlush; mret (set_echoed f (flow_line f))) s2 Q) as Hend.
  { intros s2 Hs2. apply ok_bind, ok_attempt; [done|]. intros s3 Hs3. apply ok_ret, HQ. by eapply quiet_then. }
  destruct (negb _).
  - apply ok_attempt; [done|]. intros s2 Hs2. apply Hend. by eapply quiet_then.
  - by apply ok_ret, Hend.
Qed.

(** ** Handlers that move output or leave the file operation *)

(** The delayed output is on the display, and nothing else changed. *)
Record drained (s s' : Session) : Prop := {
  dn_ui : exists d, ui s' = set_delayed (ui s) d /\ delayed_bytes d = [];
  dn_drains : drains s s';
  dn_cancel : cancel s' = cancel s;
  dn_transfer : transfer s' = transfer s;
  dn_output : output_ok (terminal_output s')
}.

Lemma ok_flush s Q :
  output_ok (terminal_output s) -> (forall s', drained s s' -> Q tt s') ->
  ok careful (flush_delayed_output env) s Q.
Proof.
  intros Ho HQ. unfold flush_delayed_output. apply ok_bind, ok_gets. unfold delayed_is_empty.
  destruct (Z.eqb_spec (zlen (delayed_bytes (delayed (ui s)))) 0) as [Hz|Hz].
  - apply ok_ret, HQ. apply zlen_0 in Hz. constructor; try done; [|by apply drains_refl].
    exists (delayed (ui s)). split; [by destruct (ui s)|done].
  - cbn [take_all]. destruct (prepare_output_ok (terminal_output s) (delayed_bytes (delayed (ui s))) Ho)
      as (o' & d & Hp & Ho'). apply ok_bind, ok_modify, ok_bind, ok_gets, ok_bind, ok_total; [|by eexists].
    intros [o1 d1] Hp1. cbn [terminal_output with_ui] in Hp1. rewrite Hp in Hp1. injection Hp1 as <- <-.
    apply ok_bind, ok_modify.
    match goal with |- ok _ _ ?s0 _ => change (ok careful (write_remote_output env d) s0 Q) end.
    apply ok_display. cbn. intros s' H1 H2 H3 H4 H5. apply HQ. constructor; rewrite ?H2; try done.
    + eexists. by split.
    + exists [delayed_bytes (delayed (ui s))], d. cbn. rewrite Hp. cbn.
      rewrite H1, H2, H5, app_nil_r. cbn. by rewrite !app_nil_r.
Qed.

(** The modal was left; the rest is as it was. *)
Record departed (s s' : Session) : Prop := {
  dp_ui : ui s' = (ui_leave_modal (ui s)).1;
  dp_output : terminal_output s' = terminal_output s;
  dp_cancel : cancel s' = cancel s;
  dp_transfer : transfer s' = transfer s;
  dp_displayed : displayed s' = displayed s
}.

Lemma ok_end_modal s Q :
  (forall s', departed s s' -> Q tt s') -> ok careful (end_transfer_modal env) s Q.
Proof.
  intros HQ. unfold end_transfer_modal. apply ok_bind, ok_gets, ok_bind, ok_modify.
  destruct (bool_decide _).
  - apply ok_write_local. intros s' []. apply HQ. by constructor.
  - apply ok_ret, HQ. by constructor.
Qed.

(** What leaving a file operation does to the interaction. *)
Lemma leave_modal_ui u :
  flow (ui_leave_modal u).1 = None /\ direction (ui_leave_modal u).1 = None /\
  delayed (ui_leave_modal u).1 = delayed u /\ delayed_overflow (ui_leave_modal u).1 = false.
Proof. unfold ui_leave_modal. destruct (leave_modal _). by cbn. Qed.

(** Output moved to the display at most, no overflow was signalled and the armed
    transfer is the same. *)
Record moved (s s' : Session) : Prop := {
  mv_drains : drains s s';
  mv_overflow : delayed_overflow (ui s') = true -> delayed_overflow (ui s) = true;
  mv_transfer : transfer s' = transfer s;
  mv_output : output_ok (terminal_output s')
}.

Definition no_delay (s : Session) : Prop := delayed_bytes (delayed (ui s)) = [].

(** With no prompt open, no output is held back. *)
Definition flushed (s : Session) : Prop := flow (ui s) = None -> no_delay s.

Lemma quiet_moved s s' : quiet s s' -> output_ok (terminal_output s) -> moved s s'.
Proof.
  intros [Hu Hout _ Ht Hd] Ho.
  constructor; [apply drains_refl; [done..|by rewrite Hu]|by rewrite Hu|done|by rewrite Hout].
Qed.

Lemma moved_trans s1 s2 s3 : moved s1 s2 -> moved s2 s3 -> moved s1 s3.
Proof.
  intros [] []. constructor; [by eapply drains_trans|auto|congruence|done].
Qed.

Lemma drained_moved s s' : drained s s' -> moved s s'.
Proof.
  intros [(d & Hd & _) ? ? ? ?]. constructor; try done. by rewrite Hd.
Qed.

Lemma departed_moved s s' : departed s s' -> output_ok (terminal_output s) -> moved s s'.
Proof.
  intros [Hu Ho Hc Ht Hd] Hok. destruct (leave_modal_ui (ui s)) as (_ & _ & Hdel & Hov).
  constructor; [apply drains_refl; [done|done|by rewrite Hu]| |done|by rewrite Ho].
  rewrite Hu, Hov. done.
Qed.

Lemma ui_ok_quiet s s' : quiet s s' -> ui_ok careful s -> ui_ok careful s'.
Proof. intros [Hu Ho _ _ _] [H1 H2]. constructor; [by rewrite Hu|by rewrite Ho]. Qed.

Lemma ui_ok_no_flow s : flow (ui s) = None -> output_ok (terminal_output s) -> ui_ok careful s.
Proof. intros Hf Ho. constructor; [|done]. by rewrite Hf. Qed.

(** Leaving the operation and showing the held output. *)
Lemma ok_end_and_flush s Q :
  output_ok (terminal_output s) ->
  (forall s', moved s s' -> flow (ui s') = None -> no_delay s' -> Q tt s') ->
  ok careful (abort_prompt_for_overflow env) s Q.
Proof.
  intros Ho HQ. unfold abort_prompt_for_overflow. apply ok_bind, ok_end_modal. intros s1 H1.
  destruct (leave_modal_ui (ui s)) as (Hf & _ & _ & _).
  assert (output_ok (terminal_output s1)) as Ho1 by (by destruct H1 as [_ -> _ _ _]).
  apply ok_flush; [done|]. intros s2 H2. pose proof H2 as [(d & Hd & Hn) _ _ _ _]. apply HQ.
  - eapply moved_trans; [by apply departed_moved|by apply drained_moved].
  - rewrite Hd. cbn. by rewrite (dp_ui _ _ H1).
  - unfold no_delay. by rewrite Hd.
Qed.

Lemma ok_leave_then {A} s (k : sess A) Q :
  output_ok (terminal_output s) ->
  (forall s', moved s s' -> flow (ui s') = None -> no_delay s' -> ok careful k s' Q) ->
  ok careful (_ ← end_transfer_modal env; _ ← flush_delayed_output env; k) s Q.
Proof.
  intros Ho HQ. apply ok_bind.
  apply (ok_mono _ _ _ (fun _ s1 => ok careful (flush_delayed_output env) s1 (fun _ s2 => ok careful k s2 Q))).
  - apply ok_bind_inv, ok_end_and_flush; [done|]. intros s' ? ? ?. by apply HQ.
  - intros _ s1 H1. by apply ok_bind.
Qed.

(** The input that a chunk carries for a prompt. *)
Definition chunk_ok (pr : ProcessedInput) : Prop :=
  bytes (path_bytes pr) /\ bytes (remainder pr) /\
  (careful -> Forall ascii (path_bytes pr) /\ Forall ascii (remainder pr)).

(** Where [handle_prompt] ends. *)
Definition prompt_handled (pr : ProcessedInput) (s : Session) (run : option Transfer) (s' : Session) : Prop :=
  moved s s' /\ ui_ok careful s' /\ flushed s' /\
  (flow (ui s) = None -> s' = s /\ run = None) /\
  (is_Some run -> flow (ui s') = None /\ control (ui s') = control (ui s) /\
     is_Some (direction (ui s')) /\ flow (ui s) <> None /\ (path_bytes pr <> [] \/ remainder pr <> [])).

Lemma ui_ok_set_flow s f :
  ui_ok careful s -> is_Some (flow (ui s)) -> flow_ok careful f ->
  ui_ok careful (with_ui s (set_flow (ui s) (Some f))).
Proof.
  intros [Hf Ho] [g Hg] Hok. destruct (Hf g Hg) as (_ & Hd & Hc). constructor; [|done].
  intros f' [= <-]. by split_and!.
Qed.

Lemma moved_set_flow s f : output_ok (terminal_output s) -> moved s (with_ui s (set_flow (ui s) f)).
Proof. intros Ho. constructor; try done. by apply drains_refl. Qed.

Lemma ok_handle_prompt pr s Q :
  ui_ok careful s -> flushed s -> chunk_ok pr ->
  (forall run s', prompt_handled pr s run s' -> Q run s') -> ok careful (handle_prompt env pr) s Q.
Proof.
  intros Hs He (Hb1 & Hb2 & Hb3) HQ. unfold handle_prompt. apply ok_bind, ok_gets.
  pose proof (uo_output _ _ Hs) as Ho.
  destruct (flow (ui s)) as [f|] eqn:Hf.
  2:{ apply ok_ret, HQ. unfold prompt_handled. split_and!; try done; [by apply quiet_moved|..]; by intros [? ?]. }
  destruct (uo_flow _ _ Hs f Hf) as (Hfo & [d Hd] & Hctl).
  destruct (flow_feed_ok careful f pr Hfo Hb1 Hb2 Hb3) as (progress & f' & Hfeed & Hprog).
  apply ok_bind, ok_total; [|by eexists]. intros [p1 f1] Hf1. rewrite Hfeed in Hf1. injection Hf1 as <- <-.
  apply ok_bind, ok_modify. cbn beta iota.
  set (s1 := with_ui s (set_flow (ui s) (Some f'))).
  assert (moved s s1) as Hm1 by (by apply moved_set_flow).
  assert (forall s', moved s1 s' -> ui_ok careful s' -> flushed s' -> Q None s') as Hdone.
  { intros s' Hm Hu Hfl. apply HQ. unfold prompt_handled. rewrite Hf. split_and!; try done; [by eapply moved_trans|..]; by intros [? ?]. }
  destruct progress as [bell| | |first second|].
  - assert (ui_ok careful s1) as Hs1 by (apply ui_ok_set_flow; [done|by eexists|done]).
    apply ok_bind, ok_echo_delta; [done|]. intros s2 Hq2. apply ok_bind, ok_modify, ok_bind.
    set (s3 := with_ui s2 (set_flow (ui s2) (Some (set_echoed f' (flow_line f'))))).
    assert (ui_ok careful s3) as Hs3.
    { apply ui_ok_set_flow; [by eapply ui_ok_quiet|rewrite (qt_ui _ _ Hq2); by eexists|].
      destruct Hprog as [? ? Ha]. constructor; try done. intros Hc. split; [by apply Ha|]. by apply (Ha Hc). }
    assert (forall s', quiet s3 s' -> Q None s') as Hend.
    { intros s' Hq. apply Hdone.
      - eapply moved_trans; [by apply quiet_moved, Ho|]. eapply moved_trans; [apply moved_set_flow|].
        + by apply (uo_output _ _ (ui_ok_quiet _ _ Hq2 Hs1)).
        + by apply quiet_moved, (uo_output _ _ Hs3).
      - by eapply ui_ok_quiet.
      - intros Hn. by rewrite (qt_ui _ _ Hq) in Hn. }
    destruct bell; [apply ok_write_local; intros s4 Hq4|]; apply ok_ret, Hend; auto.
  - assert (ui_ok careful s1) as Hs1 by (apply ui_ok_set_flow; [done|by eexists|done]).
    apply ok_bind, ok_write_local. intros s2 Hq2. apply ok_bind, ok_write_local. intros s3 Hq3.
    pose proof (quiet_then _ _ _ Hq2 Hq3) as Hq. apply ok_ret, Hdone;
      [by apply quiet_moved, Ho|by eapply ui_ok_quiet|]. intros Hn. by rewrite (qt_ui _ _ Hq) in Hn.
  - assert (ui_ok careful s1) as Hs1 by (apply ui_ok_set_flow; [done|by eexists|done]).
    apply ok_bind, ok_write_local. intros s2 Hq2. apply ok_bind, ok_write_local. intros s3 Hq3.
    pose proof (quiet_then _ _ _ Hq2 Hq3) as Hq. apply ok_ret, Hdone;
      [by apply quiet_moved, Ho|by eapply ui_ok_quiet|]. intros Hn. by rewrite (qt_ui _ _ Hq) in Hn.
  - apply ok_bind, ok_write_local. intros s2 Hq2. apply ok_bind, ok_modify, ok_bind.
    assert (output_ok (terminal_output s2)) as Ho2 by (by rewrite (qt_output _ _ Hq2)).
    apply ok_flush; [done|]. intros s3 H3. pose proof H3 as [(dl & Hdl & Hn) _ _ _ _]. cbn in Hdl.
    rewrite (qt_ui _ _ Hq2) in Hdl. cbn in Hdl.
    apply ok_bind, ok_gets, ok_bind, ok_total; [|rewrite Hdl; cbn; rewrite Hd; by eexists].
    intros d' Hd'. apply ok_ret, HQ. unfold prompt_handled. rewrite Hf, Hdl. cbn [flow control direction set_delayed set_flow].
    split_and!; try done.
    + eapply moved_trans; [exact Hm1|]. eapply moved_trans; [by apply quiet_moved, Ho|].
      eapply moved_trans; [by apply moved_set_flow|by apply drained_moved].
    + apply ui_ok_no_flow; [by rewrite Hdl|by apply H3].
    + intros _. unfold no_delay. by rewrite Hdl.
  - apply ok_bind, ok_write_local. intros s2 Hq2.
    assert (output_ok (terminal_output s2)) as Ho2 by (by rewrite (qt_output _ _ Hq2)).
    apply ok_leave_then; [done|]. intros s3 Hm3 Hf3 Hn3. apply ok_ret, Hdone.
    + eapply moved_trans; [by apply quiet_moved, Ho|done].
    + apply ui_ok_no_flow; [done|by apply Hm3].
    + by intros _.
Qed.

Lemma ok_show_help s Q : (forall s', quiet s s' -> Q tt s') -> ok careful (show_help env) s Q.
Proof.
  intros HQ. unfold show_help. apply ok_bind, ok_observed; [done|]. intros s1 H1. apply ok_bind, ok_gets.
  destruct (ui_terminal (ui s1)).
  - apply ok_bind, ok_write_local. intros s2 H2. apply ok_bind, ok_write_local. intros s3 H3.
    apply ok_bind, ok_gets. assert (quiet s s3) as H13 by eauto using quiet_then.
    destruct (flow (ui s3)); [|by apply ok_ret, HQ].
    apply ok_bind, ok_write_local. intros s4 H4. apply ok_bind, ok_write_local. intros s5 H5.
    apply ok_write_local. intros s6 H6. apply HQ. eauto using quiet_then.
  - apply ok_bind, ok_write_local. intros s2 H2. apply ok_write_local. intros s3 H3. apply HQ.
    eauto using quiet_then.
Qed.

(** A handler's end: the invariants hold, output moved at most, and an open prompt
    that was not there did not appear. *)
Record calm (s s' : Session) : Prop := {
  cm_moved : moved s s';
  cm_ui : ui_ok careful s';
  cm_flushed : flushed s';
  cm_idle : flow (ui s) = None -> ui s' = ui s
}.

Lemma calm_quiet s s1 s2 : calm s s1 -> quiet s1 s2 -> calm s s2.
Proof.
  intros [Hm Hu Hf Hi] Hq. constructor.
  - eapply moved_trans; [done|]. by apply quiet_moved, (uo_output _ _ Hu).
  - by eapply ui_ok_quiet.
  - unfold flushed, no_delay. by rewrite (qt_ui _ _ Hq).
  - intros H. rewrite (qt_ui _ _ Hq). auto.
Qed.

Lemma ok_cancel_op s Q :
  ui_ok careful s -> flushed s ->
  (forall s', calm s s' -> control (ui s') = control (ui s) \/ flow (ui s) <> None -> Q tt s') ->
  ok careful (cancel_op env) s Q.
Proof.
  intros Hs Hfl HQ. unfold cancel_op. apply ok_bind, ok_observed; [done|]. intros s1 H1.
  assert (calm s s) as Hr by (constructor; [by apply quiet_moved, (uo_output _ _ Hs)|done..]).
  pose proof (calm_quiet _ _ _ Hr H1) as H01. apply ok_bind, ok_gets. rewrite (qt_ui _ _ H1).
  destruct (flow (ui s)) as [f|] eqn:Hf.
  - apply ok_bind, ok_write_local. intros s2 H2. pose proof (calm_quiet _ _ _ H01 H2) as H02.
    apply ok_end_and_flush; [apply (uo_output _ _ (cm_ui _ _ H02))|]. intros s3 Hm3 Hf3 Hn3.
    apply HQ; [|by right]. constructor.
    + eapply moved_trans; [apply H02|done].
    + apply ui_ok_no_flow; [done|by apply Hm3].
    + by intros _.
    + by rewrite Hf.
  - apply ok_modify, HQ; [|left; cbn; by rewrite (qt_ui _ _ H1)]. destruct H01 as [Hm Hu Hfl1 Hi].
    destruct Hm, Hu. by constructor; [constructor|constructor|..].
Qed.

Definition input_handled (pr : ProcessedInput) (s : Session) (h : LocalInputHandling) (s' : Session) : Prop :=
  calm s s' /\
  match h with
  | Done => True
  | StartModal d => starts (action pr)
  | RunTransfer t =>
    flow (ui s') = None /\ control (ui s') = control (ui s) /\ is_Some (direction (ui s')) /\
    flow (ui s) <> None /\ (path_bytes pr <> [] \/ remainder pr <> []) /\ action pr <> Detach
  end.

Lemma ok_handle_processed pr s Q :
  ui_ok careful s -> flushed s -> chunk_ok pr ->
  (forall h s', input_handled pr s h s' -> Q h s') -> ok careful (handle_processed_input env pr) s Q.
Proof.
  intros Hs Hfl Hpr HQ. unfold handle_processed_input. apply ok_bind.
  apply ok_handle_prompt; [done..|]. intros run s1 (Hm & Hu & Hf & Hnone & Hrun).
  assert (calm s s1) as Hc1.
  { constructor; try done. intros H. by destruct (Hnone H) as [-> _]. }
  assert (forall s2, calm s s2 -> (is_Some run -> ui s2 = ui s1) -> action pr <> Detach -> Q (handled run) s2) as Hend.
  { intros s2 Hc2 Hui Ha. apply HQ. split; [done|]. destruct run as [t|]; [|done]. cbn.
    destruct (Hrun ltac:(by eexists)) as (R1 & R2 & R3 & R4 & R5). rewrite Hui by (by eexists). by split_and!. }
  destruct (action pr) eqn:Hact.
  - apply ok_ret. by apply Hend.
  - apply ok_bind, ok_observed; [done|]. intros s2 H2. apply ok_throw.
  - apply ok_bind, ok_observed; [done|]. intros s2 H2. apply ok_ret, HQ.
    split; [by eapply calm_quiet|]. rewrite Hact. by left.
  - apply ok_bind, ok_observed; [done|]. intros s2 H2. apply ok_ret, HQ.
    split; [by eapply calm_quiet|]. rewrite Hact. by right.
  - apply ok_bind, ok_show_help. intros s2 H2. apply ok_ret, Hend; [by eapply calm_quiet|by rewrite (qt_ui _ _ H2)|done].
  - apply ok_bind, ok_write_local. intros s2 H2. apply ok_bind, ok_write_local. intros s3 H3.
    pose proof (quiet_then _ _ _ H2 H3) as Hq.
    apply ok_ret, Hend; [by eapply calm_quiet|by rewrite (qt_ui _ _ Hq)|done].
  - apply ok_bind, ok_cancel_op; [done..|]. intros s2 Hc2 Hctl. apply ok_ret, Hend; [|..|done].
    + destruct Hc1, Hc2. constructor; try done; [by eapply moved_trans|].
      intros H. rewrite cm_idle1 by (by rewrite cm_idle0). by apply cm_idle0.
    + intros Hs2. apply Hc2. by apply Hrun.
  - apply ok_bind, ok_write_local. intros s2 H2. apply ok_ret, Hend; [by eapply calm_quiet|by rewrite (qt_ui _ _ H2)|done].
Qed.

(** Starting and ending a transfer. *)
Record settled_in (s s' : Session) : Prop := {
  si_drains : drains s s';
  si_overflow : delayed_overflow (ui s') = true -> delayed_overflow (ui s) = true;
  si_ui : ui_ok careful s';
  si_flushed : flushed s';
  si_transfer : is_Some (transfer s') ->
    flow (ui s') = None /\ is_Some (direction (ui s')) /\ is_Some (modal (control (ui s')))
}.

Lemma ok_refuse_modal text s Q :
  ui_ok careful s -> no_delay s -> transfer s = None ->
  (forall s', settled_in s s' -> transfer s' = None -> Q tt s') -> ok careful (refuse_modal env text) s Q.
Proof.
  intros Hs Hn Ht HQ. unfold refuse_modal. apply ok_bind, ok_write_local. intros s1 H1.
  apply ok_bind, ok_write_local. intros s2 H2. pose proof (quiet_then _ _ _ H1 H2) as Hq.
  assert (output_ok (terminal_output s2)) as Ho2 by (rewrite (qt_output _ _ Hq); apply Hs).
  apply ok_end_modal. intros s3 H3.
  destruct (leave_modal_ui (ui s2)) as (L1 & L2 & L3 & L4).
  assert (moved s s3) as Hm.
  { eapply moved_trans; [by apply quiet_moved, (uo_output _ _ Hs)|]. by apply departed_moved. }
  assert (transfer s3 = None) as Ht3 by (by rewrite (mv_transfer _ _ Hm)).
  apply HQ; [|done]. constructor.
  - apply Hm.
  - apply Hm.
  - apply ui_ok_no_flow; [by rewrite (dp_ui _ _ H3)|apply Hm].
  - intros _. unfold no_delay in *. by rewrite (dp_ui _ _ H3), L3, (qt_ui _ _ Hq).
  - rewrite Ht3. by intros [? ?].
Qed.

Lemma ok_open_prompt d s Q :
  ui_ok careful s -> flow (ui s) = None -> at_prompt (control (ui s)) -> transfer s = None ->
  (forall s', settled_in s s' -> transfer s' = None -> Q tt s') -> ok careful (open_prompt env d) s Q.
Proof.
  intros Hs Hf Hat Ht HQ. unfold open_prompt. cbn zeta.
  apply ok_bind, ok_write_local. intros s1 H1. apply ok_bind, ok_write_local. intros s2 H2.
  apply ok_bind, ok_write_local. intros s3 H3. apply ok_bind, ok_write_local. intros s4 H4.
  assert (quiet s s4) as Hq by eauto using quiet_then. apply ok_modify, HQ.
  - destruct (quiet_moved _ _ Hq (uo_output _ _ Hs)) as [? ? ? ?]. constructor; cbn; try done.
    + constructor; [|done]. cbn. intros f [= <-]. split_and!; [by apply new_flow_ok|by eexists|].
      left. by rewrite (qt_ui _ _ Hq).
    + cbn. rewrite (qt_transfer _ _ Hq), Ht. by intros [? ?].
  - cbn. by rewrite (qt_transfer _ _ Hq).
Qed.

Lemma settled_in_ui s u s' :
  settled_in (with_ui s u) s' -> delayed u = delayed (ui s) -> delayed_overflow u = delayed_overflow (ui s) ->
  settled_in s s'.
Proof.
  intros [Hd Hov ? ? ?] Hdel Hflag. constructor; try done; [|by rewrite <- Hflag].
  eapply drains_trans; [by apply (drains_refl s (with_ui s u))|done].
Qed.

Lemma ok_begin_modal d s Q :
  ui_ok careful s -> flushed s -> flow (ui s) = None -> at_prompt (control (ui s)) -> transfer s = None ->
  (forall s', settled_in s s' -> transfer s' = None -> Q tt s') ->
  ok careful (begin_file_transfer_modal env d) s Q.
Proof.
  intros Hs Hfl Hf Hat Ht HQ. unfold begin_file_transfer_modal. apply ok_bind, ok_gets.
  pose proof (Hfl Hf) as Hn. unfold file_transfer_ready.
  destruct (_ || _); [by apply ok_refuse_modal|]. destruct (capability (ui s)).
  - apply ok_bind, ok_gets, ok_bind.
    destruct (opened env (length (trace s))) eqn:Hop; [done|..]; cbn [probe_file_transfer_capability].
    + unfold ok at 1. cbn. apply ok_bind, ok_modify, ok_bind. unfold ok at 1. cbn.
      apply ok_open_prompt; try done.
      { destruct Hs as [Hs1 Hs2]. constructor; [|done]. cbn. by rewrite Hf. }
      intros s' Hst Ht'. apply HQ; [|done]. eapply settled_in_ui; [exact Hst|done|done].
    + unfold ok at 1. cbn. apply ok_bind, ok_modify, ok_bind. unfold ok at 1. cbn.
      intros Hc. by apply (Hprobe Hc (length (trace s))).
    + unfold ok at 1. cbn. by apply ok_refuse_modal.
  - cbn. apply ok_bind. unfold ok at 1. cbn. by apply ok_open_prompt.
  - by apply ok_refuse_modal.
Qed.

Lemma ok_fail_startup d reason s Q :
  ui_ok careful s -> no_delay s -> transfer s = None ->
  (forall s', settled_in s s' -> transfer s' = None -> Q tt s') ->
  ok careful (fail_transfer_startup env d reason) s Q.
Proof. apply ok_refuse_modal. Qed.

Lemma ok_begin_transfer t s Q :
  ui_ok careful s -> flushed s -> flow (ui s) = None -> is_Some (direction (ui s)) ->
  is_Some (modal (control (ui s))) -> transfer s = None ->
  (forall s', settled_in s s' -> Q tt s') -> ok careful (begin_transfer env t) s Q.
Proof.
  intros Hs Hfl Hf Hd [phase Hm] Ht HQ. unfold begin_transfer. pose proof (Hfl Hf) as Hn.
  destruct (negb (base env)); [apply ok_refuse_modal; auto|].
  apply ok_bind, ok_gets, ok_bind.
  assert (exists c, enter_transfer (control (ui s)) = Ok c /\ is_Some (modal c)) as (c & Hc & Hmc).
  { unfold enter_transfer. rewrite Hm. destruct phase; eexists; (split; [done|]); cbn; rewrite ?Hm; by eexists. }
  rewrite Hc. unfold ok at 1. cbn. apply ok_bind, ok_modify, ok_bind, ok_gets.
  set (s1 := with_ui s (set_control (ui s) c)).
  assert (ui_ok careful s1) as Hs1.
  { destruct Hs as [_ Ho]. constructor; [|done]. cbn. by rewrite Hf. }
  assert (forall s', settled_in s1 s' -> Q tt s') as HQ1.
  { intros s' Hst. apply HQ. eapply settled_in_ui; [exact Hst|done|done]. }
  assert (forall reason, ok careful (fail_transfer_startup env (transfer_direction t) reason) s1 Q) as Hfail.
  { intros reason. apply ok_fail_startup; auto. }
  destruct (opened env _); [done| |apply Hfail..].
  apply ok_bind, ok_gets. destruct (cancel s1).
  - apply (ok_refuse_modal (direction_verb (transfer_direction t) ++ str " cancelled")); auto.
  - assert (ok careful (arm_transfer env t) s1 Q) as Harm.
    { unfold arm_transfer. apply ok_bind, ok_write_local. intros s2 H2. apply ok_bind, ok_write_local.
      intros s3 H3. pose proof (quiet_then _ _ _ H2 H3) as Hq. apply ok_modify, HQ1.
      destruct (quiet_moved _ _ Hq (uo_output _ _ Hs1)) as [Hdr Hov Htr Hout].
      constructor; cbn; try done.
      - constructor; [|done]. cbn. rewrite (qt_ui _ _ Hq). cbn. by rewrite Hf.
      - unfold flushed, no_delay. cbn. by rewrite (qt_ui _ _ Hq).
      - intros _. rewrite (qt_ui _ _ Hq). by split_and!. }
    destruct (transfer_direction t); [|exact Harm]. destruct (source_refused env _); [apply Hfail|exact Harm].
Qed.

Lemma ok_transfer_event outcome s Q :
  output_ok (terminal_output s) -> no_delay s -> is_Some (direction (ui s)) ->
  (forall s', settled_in s s' -> transfer s' = None -> flow (ui s') = None -> Q tt s') ->
  ok careful (handle_transfer_event env outcome) s Q.
Proof.
  intros Ho Hn [d Hd] HQ. unfold handle_transfer_event. apply ok_bind, ok_gets. rewrite Hd.
  apply ok_bind, ok_total; [|by eexists]. intros d' [= <-]. apply ok_bind, ok_gets. cbn zeta.
  apply ok_bind, ok_write_local. intros s1 H1. apply ok_bind, ok_write_local. intros s2 H2.
  pose proof (quiet_then _ _ _ H1 H2) as Hq. apply ok_bind, ok_end_modal. intros s3 H3.
  destruct (leave_modal_ui (ui s2)) as (L1 & L2 & L3 & L4).
  assert (output_ok (terminal_output s2)) as Ho2 by (by rewrite (qt_output _ _ Hq)).
  assert (moved s s3) as Hm.
  { eapply moved_trans; [by apply quiet_moved|]. by apply departed_moved. }
  apply ok_bind, ok_modify.
  match goal with |- context [with_cancel ?x false] => set (s4 := with_cancel x false) end.
  assert (flow (ui s4) = None) as Hf4 by (cbn; by rewrite (dp_ui _ _ H3)).
  assert (settled_in s s4) as Hst.
  { destruct Hm. constructor; cbn; try done.
    - by apply ui_ok_no_flow.
    - intros _. unfold no_delay in *. cbn. by rewrite (dp_ui _ _ H3), L3, (qt_ui _ _ Hq). }
  destruct (match outcome with TAuditFailed _ | TAuditFailedBeforeCommit => true | _ => _ end);
    [apply ok_throw|]. apply ok_ret. by apply HQ.
Qed.

Lemma ok_forward pr s Q :
  (forall s', quiet s s' -> Q tt s') -> ok careful (forward_processed_input env pr) s Q.
Proof.
  intros HQ. unfold forward_processed_input. destruct (_ =? 0); [by apply ok_ret, HQ|].
  apply ok_bind, ok_observed; [done|]. intros s1 H1. apply ok_bind. unfold ok at 1, on_error, attempt.
  destruct (fault env _).
  - unfold mbind, stm_bind, ignore_error, observed, attempt. destruct (audit env); [|done]. by destruct (fault env _).
  - apply ok_observed; [done|]. intros s2 H2. apply HQ.
    assert (quiet s1 (with_event s1 (RemoteWrite (remote_bytes pr)))) by auto. eauto using quiet_then.
Qed.

(** The end of local input: the prompt, if any, is gone and its output shown. *)
Lemma ok_finish_eof s Q :
  ui_ok careful s -> flushed s ->
  (forall s', moved s s' -> flow (ui s') = None -> no_delay s' -> ui_ok careful s' ->
     (flow (ui s) = None -> modal (control (ui s')) = modal (control (ui s)) /\
        ended (control (ui s')) = ended (control (ui s)) /\ direction (ui s') = direction (ui s)) -> Q tt s') ->
  ok careful (finish_local_input_eof env) s Q.
Proof.
  intros Hs Hfl HQ. unfold finish_local_input_eof. apply ok_bind, ok_modify, ok_bind, ok_gets.
  pose proof (uo_output _ _ Hs) as Ho.
  destruct (finish_ok (E:=unit) (control (ui s))) as (c & r & Hc & Hmod & Hend).
  apply ok_bind, ok_total; [|cbn; by eexists]. intros [c1 r1] Hc1. cbn in Hc1. rewrite Hc in Hc1. injection Hc1 as <- <-.
  apply ok_bind, ok_modify, ok_bind, ok_forward. cbn.
  set (s0 := with_ui _ _). intros s1 H1.
  assert (moved s s0) as Hm0 by (constructor; try done; by apply drains_refl).
  apply ok_bind.
  assert (forall s2, quiet s0 s2 ->
    ok careful (current ← gets (fun s => flow (ui s));
      _ ← (match current with
           | Some _ => _ ← end_transfer_modal env; flush_delayed_output env
           | None => mret tt
           end);
      attempt env RemoteShutdown) s2 Q) as Hrest.
  { intros s2 H2. apply ok_bind, ok_gets, ok_bind. rewrite (qt_ui _ _ H2). cbn.
    pose proof (quiet_moved _ _ H2 Ho) as Hm2.
    destruct (flow (ui s)) eqn:Hf.
    - apply ok_end_and_flush; [by rewrite (qt_output _ _ H2)|]. intros s3 Hm3 Hf3 Hn3. apply ok_attempt; [done|].
      intros s4 H4. pose proof (quiet_moved _ _ H4 (mv_output _ _ Hm3)) as Hm4. apply HQ; [| | | |done].
      + eauto using moved_trans.
      + by rewrite (qt_ui _ _ H4).
      + unfold no_delay. by rewrite (qt_ui _ _ H4).
      + apply ui_ok_no_flow; [by rewrite (qt_ui _ _ H4)|apply Hm4].
    - apply ok_ret, ok_attempt; [done|]. intros s3 H3. pose proof (quiet_then _ _ _ H2 H3) as Hq.
      apply HQ; [| | | |].
      + eapply moved_trans; [exact Hm0|by apply quiet_moved].
      + by rewrite (qt_ui _ _ Hq).
      + unfold no_delay. rewrite (qt_ui _ _ Hq). by apply Hfl.
      + apply ui_ok_no_flow; [by rewrite (qt_ui _ _ Hq)|by rewrite (qt_output _ _ Hq)].
      + intros _. rewrite (qt_ui _ _ Hq). by cbn. }
  destruct (bool_decide _).
  - apply ok_write_local. intros s2 H2. apply Hrest. by eapply quiet_then.
  - by apply ok_ret, Hrest.
Qed.
End Handlers.
