(* ===== verification/TransferPumpSafety.v ===== *)
(** What a run of the session loop guarantees: no panic but the two that the source
    has, and remote output that reaches the display in order; and runs that show more. *)

From stdpp Require Import strings.
From S2P Require Import Prelude Stateful Utf8 WireFileTransfer TransferSession TerminalOutput LocalControl PathPrompt TransferUi TransferPump TransferUiSafety.

(** Keystrokes are bytes, read in chunks of at most the capacity. *)
Definition event_ok (e : PumpEvent) : Prop :=
  match e with
  | LocalInputRead (Some chunk) => zlen chunk <= INPUT_CAPACITY /\ bytes chunk
  | _ => True
  end.

Definition ascii_event (e : PumpEvent) : Prop :=
  match e with LocalInputRead (Some chunk) => Forall ascii chunk | _ => True end.

Section Pump.
Context (env : Env) (careful : Prop).
Context (Hprobe : careful -> forall n, opened env n <> OpenUnsupported).

Definition has_input (pr : ProcessedInput) : Prop := path_bytes pr <> [] \/ remainder pr <> [].

(** A transfer is running or its outcome waits. *)
Definition in_transfer (p : Pump) : Prop :=
  is_Some (transfer (session p)) \/ is_Some (pending_transfer p).

(** What a chunk's result promises until it is handled. *)
Definition may_start (p : Pump) (pr : ProcessedInput) : Prop :=
  starts (action pr) ->
  at_prompt (control (ui (session p))) /\ flow (ui (session p)) = None /\ ~ in_transfer p.

Definition has_phase (p : Pump) (pr : ProcessedInput) : Prop :=
  has_input pr -> action pr = Detach \/ is_Some (modal (control (ui (session p)))).

Record pump_ok (p : Pump) : Prop := {
  po_ui : ui_ok careful (session p);
  po_flushed : flushed (session p);
  po_transfer : in_transfer p ->
    flow (ui (session p)) = None /\ is_Some (direction (ui (session p))) /\
    (is_Some (modal (control (ui (session p)))) \/ ended (control (ui (session p))) = true);
  po_input : forall pr, local_input p = Some pr ->
    chunk_ok careful pr /\ has_phase p pr /\ may_start p pr;
  po_pending : forall pr, pending_local_input p = Some pr ->
    chunk_ok careful pr /\ (starts (action pr) -> ~ in_transfer p) /\
    (local_input p = None -> (flow (ui (session p)) <> None -> has_phase p pr) /\ may_start p pr)
}.

(** The output of a state: what the adapter made of [shown] is on the display or on
    its way, and [kept] is [shown] and the delayed bytes. *)
Definition outputs (o0 : RemoteTerminalOutput) (p : Pump) (kept : list (list Z)) : Prop :=
  exists shown, prepare_chunks o0 shown =
      Ok (terminal_output (session p), displayed (session p) ++ default [] (remote_write p)) /\
    concat shown ++ delayed_bytes (delayed (ui (session p))) = concat kept /\
    capacity (delayed (ui (session p))) = DELAYED_OUTPUT_CAP /\
    (remote_output p = None \/ remote_write p = None).

(** A step that only drained delayed output. *)
Record drained_step (p p' : Pump) : Prop := {
  ds_drains : drains (session p) (session p');
  ds_output : remote_output p' = remote_output p;
  ds_write : remote_write p' = remote_write p
}.

Lemma outputs_drained o0 p p' kept :
  drained_step p p' -> remote_write p = None -> outputs o0 p kept -> outputs o0 p' kept.
Proof.
  intros [(cs & d & Hp & Hd & Hb & Hc) _ Hw] Hn (shown & H1 & H2 & H3 & _).
  exists (shown ++ cs). rewrite Hw, Hn in *. cbn [default] in *. rewrite app_nil_r in *.
  rewrite prepare_chunks_app, H1. cbn [mbind res_bind]. rewrite Hp. cbn [mbind res_bind].
  split_and!; [by rewrite Hd|by rewrite concat_app, <- app_assoc, <- Hb|congruence|by right].
Qed.

Lemma outputs_same o0 p p' kept :
  terminal_output (session p') = terminal_output (session p) ->
  displayed (session p') = displayed (session p) -> delayed (ui (session p')) = delayed (ui (session p)) ->
  remote_write p' = remote_write p -> remote_output p' = remote_output p \/ remote_write p = None ->
  outputs o0 p kept -> outputs o0 p' kept.
Proof.
  intros H1 H2 H3 H4 H5 (shown & S1 & S2 & S3 & S4). exists shown. rewrite H1, H2, H3, H4.
  split_and!; try done. destruct H5 as [-> | ->]; [done|by right].
Qed.

(** How many results wait. *)
Definition waiting (p : Pump) : nat :=
  Nat.b2n (is_some (pending_transfer p)) + Nat.b2n (pending_local_eof p) +
  Nat.b2n (is_some (pending_local_input p)) + Nat.b2n (delayed_overflow (ui (session p))) +
  Nat.b2n (is_some (pending_completion p)).

Lemma ok_on_session {A} (m : sess A) p Q :
  ok careful m (session p) (fun a s => Q a (with_session p s)) -> ok careful (on_session m) p Q.
Proof.
  unfold ok, on_session, zoom. by destruct (m (session p)) as [[a|e|] s].
Qed.

Lemma owners_idle_true p :
  owners_idle p = true ->
  local_input p = None /\ remote_output p = None /\ remote_write p = None /\ transfer (session p) = None.
Proof.
  unfold owners_idle. rewrite !andb_true_iff. intros [[[[[_ _] H1] H2] H3] H4].
  by destruct (local_input p), (remote_output p), (remote_write p), (transfer (session p)).
Qed.

Lemma b2n_overflow b b' : (b' = true -> b = true) -> (Nat.b2n b' <= Nat.b2n b)%nat.
Proof. destruct b, b'; cbn; intros H; try lia; by discriminate (H eq_refl). Qed.

(** Invariants of a state whose prompt is gone and that has no transfer. *)
Lemma pump_ok_quiet_pending p :
  ui_ok careful (session p) -> flushed (session p) ->
  local_input p = None -> (in_transfer p -> flow (ui (session p)) = None /\ is_Some (direction (ui (session p))) /\
    is_Some (modal (control (ui (session p))))) ->
  (forall pr, pending_local_input p = Some pr -> chunk_ok careful pr /\
     (flow (ui (session p)) <> None -> has_phase p pr) /\ may_start p pr) -> pump_ok p.
Proof.
  intros Hu Hf Hl Ht Hp. constructor; try done.
  - intros H. destruct (Ht H) as (? & ? & ?). auto.
  - rewrite Hl. done.
  - intros pr Hpr. destruct (Hp pr Hpr) as (? & ? & Hms). split_and!; [done| |done].
    intros Hs. by apply Hms.
Qed.

Definition pending_post (p : Pump) (again : bool) (p' : Pump) : Prop :=
  pump_ok p' /\ drained_step p p' /\
  (if again then (waiting p' < waiting p)%nat /\ remote_write p = None else p' = p).

Lemma ok_handle_pending p :
  pump_ok p -> ok careful (handle_pending env) p (fun again p' => pending_post p again p').
Proof.
  intros Hp. unfold handle_pending. apply ok_bind, ok_gets. unfold id.
  assert (pending_post p false p) as Hstop.
  { split_and!; try done. constructor; try done. by apply drains_refl. }
  destruct (owners_idle p) eqn:Hidle; [|by apply ok_ret]. cbn [negb].
  apply owners_idle_true in Hidle as (Hli & Hro & Hrw & Htr).
  pose proof Hp as [Hui Hfl Hint Hinp Hpend].
  destruct (pending_transfer p) as [outcome|] eqn:Hpt.
  { destruct (Hint ltac:(right; rewrite Hpt; by eexists)) as (Hflow & Hdir & _).
    apply ok_bind, ok_modify, ok_bind, ok_on_session, ok_transfer_event; [apply Hui|by apply Hfl|done|].
    intros s' Hst Ht' Hf'. apply ok_bind, ok_modify, ok_ret. split; [|split].
    - apply pump_ok_quiet_pending; cbn; [apply Hst|apply Hst|done| |].
      + intros [[? H]|[? H]]; cbn in H; congruence.
      + intros pr Hpr. destruct (Hpend pr Hpr) as (? & _ & Hl). destruct (Hl Hli) as [_ Hms].
        split_and!; [done|by rewrite Hf'|]. intros Hs. destruct (Hms Hs) as (_ & _ & Hn).
        exfalso. apply Hn. right. rewrite Hpt. by eexists.
    - constructor; try done. apply Hst.
    - split; [|done]. unfold waiting. cbn. rewrite Hpt. cbn.
      pose proof (b2n_overflow _ _ (si_overflow _ _ _ Hst)). cbn in *. lia. }
  destruct (pending_local_eof p) eqn:Heof.
  { apply ok_bind, ok_modify, ok_bind, ok_on_session, ok_finish_eof; [done..|].
    intros s' Hm Hf' Hn' Hu' Hsame. apply ok_ret. split; [|split].
    - apply pump_ok_quiet_pending; cbn; [done|by intros _|done| |].
      + unfold in_transfer. cbn. rewrite Hpt, (mv_transfer _ _ Hm). cbn. rewrite Htr. by intros [[? ?]|[? ?]].
      + intros pr Hpr. destruct (Hpend pr Hpr) as (? & _ & Hl). destruct (Hl Hli) as [_ Hms].
        split_and!; [done|by rewrite Hf'|]. intros Hs. destruct (Hms Hs) as (Hat & Hfn & Hn). cbn in Hsame.
        destruct (Hsame Hfn) as (Hmod & _ & _). unfold at_prompt, in_transfer in *. cbn.
        rewrite Hmod, (mv_transfer _ _ Hm). by split_and!.
    - constructor; try done. apply Hm.
    - split; [|done]. unfold waiting. cbn. rewrite Hpt, Heof. cbn.
      pose proof (b2n_overflow _ _ (mv_overflow _ _ Hm)). cbn in *. lia. }
  destruct (pending_local_input p) as [pr|] eqn:Hpi.
  { destruct (Hpend pr eq_refl) as (Hchunk & _ & Hl). destruct (Hl Hli) as [Hph Hms].
    apply ok_bind, ok_modify, ok_bind, ok_on_session. apply ok_handle_processed; [done..|].
    intros h s1 [Hcalm Hh].
    set (p1 := with_session (with_pending_input p None) s1).
    assert (transfer s1 = None) as Ht1.
    { rewrite (mv_transfer _ _ (cm_moved _ _ _ Hcalm)). exact Htr. }
    assert (pump_ok p1) as Hp1.
    { apply pump_ok_quiet_pending; cbn; [apply Hcalm|apply Hcalm|done| |done].
      unfold in_transfer. cbn. rewrite Hpt, Ht1. by intros [[? ?]|[? ?]]. }
    assert (forall s2, settled_in careful s1 s2 -> pending_post p true (with_session p1 s2)) as Hend.
    { intros s2 Hst. split; [|split].
      - apply pump_ok_quiet_pending; cbn; [apply Hst|apply Hst|done| |done].
        unfold in_transfer. cbn. rewrite Hpt. intros [H|[? ?]]; [|done]. by apply Hst.
      - constructor; try done. eapply drains_trans; [apply Hcalm|apply Hst].
      - split; [|done]. unfold waiting. cbn. rewrite Hpt, Hpi. cbn.
        pose proof (b2n_overflow _ _ (mv_overflow _ _ (cm_moved _ _ _ Hcalm))) as Ho1.
        pose proof (b2n_overflow _ _ (si_overflow _ _ _ Hst)). cbn in *. lia. }
    apply ok_bind. destruct h as [|d|t].
    - apply ok_ret, ok_ret. apply (Hend s1). destruct Hcalm as [[? ? ? ?] ? ? ?].
      constructor; try done; [by apply drains_refl|]. rewrite Ht1. by intros [? ?].
    - destruct (Hms Hh) as (Hat & Hfn & _). pose proof (cm_idle _ _ _ Hcalm Hfn) as Hu1. cbn in Hu1.
      apply ok_on_session, (ok_begin_modal env careful Hprobe d); cbn; rewrite ?Hu1; try done; [apply Hcalm..|].
      intros s2 Hst _. by apply ok_ret, Hend.
    - destruct Hh as (Hf1 & Hc1 & Hd1 & Hfs & Hin & Hnd).
      destruct (Hph Hfs Hin) as [?|Hmod]; [done|].
      assert (is_Some (modal (control (ui s1)))) as Hmod1 by (by rewrite Hc1).
      apply ok_on_session, (ok_begin_transfer env careful t); cbn; try done; apply Hcalm. }
  destruct (delayed_overflow (ui (session p))) eqn:Hov.
  { apply ok_bind, ok_on_session, ok_modify, ok_bind, ok_on_session, ok_end_and_flush; [apply Hui|].
    intros s' Hm Hf' Hn'. apply ok_ret. split; [|split].
    - apply pump_ok_quiet_pending; cbn; [by apply ui_ok_no_flow, Hm|by intros _|done| |by rewrite Hpi].
      unfold in_transfer. cbn. rewrite Hpt, (mv_transfer _ _ Hm). cbn. rewrite Htr. by intros [[? ?]|[? ?]].
    - constructor; try done. cbn. eapply drains_trans; [|apply Hm]. by apply drains_refl.
    - split; [|done]. unfold waiting. cbn. rewrite Hpt, Hpi, Hov. cbn.
      pose proof (mv_overflow _ _ Hm) as Hmo. cbn in Hmo.
      destruct (delayed_overflow (ui s')); [discriminate (Hmo eq_refl)|]. cbn. lia. }
  destruct (pending_completion p) as [code|] eqn:Hpc; [|by apply ok_ret].
  apply ok_bind, ok_on_session, ok_flush; [apply Hui|]. intros s' Hd. apply ok_bind, ok_modify, ok_ret.
  pose proof Hd as [(dl & Hdl & Hn) Hdr Hdc Hdt Hdo].
  split; [|split].
  - apply pump_ok_quiet_pending; cbn; [|..|by rewrite Hpi].
    + destruct Hui as [Hu1 Hu2]. constructor; [|done]. rewrite Hdl. cbn. exact Hu1.
    + intros _. unfold no_delay. by rewrite Hdl.
    + done.
    + unfold in_transfer. cbn. rewrite Hpt, Hdt, Htr. by intros [[? ?]|[? ?]].
  - by constructor.
  - split; [|done]. unfold waiting. cbn. rewrite Hpc, Hdl. cbn. lia.
Qed.

Lemma waiting_bound p : (waiting p <= 5)%nat.
Proof.
  unfold waiting. assert (forall b, (Nat.b2n b <= 1)%nat) as H by (by intros []; cbn; lia).
  pose proof (H (is_some (pending_transfer p))). pose proof (H (pending_local_eof p)).
  pose proof (H (is_some (pending_local_input p))). pose proof (H (delayed_overflow (ui (session p)))).
  pose proof (H (is_some (pending_completion p))). lia.
Qed.

(** Settling handles every waiting result that it can, and then stops. *)
Lemma ok_settle_rounds o0 fuel p kept :
  pump_ok p -> outputs o0 p kept -> (waiting p < fuel)%nat ->
  ok careful (settle_rounds env fuel) p (fun _ p' =>
    pump_ok p' /\ outputs o0 p' kept /\ remote_output p' = remote_output p).
Proof.
  revert p. induction fuel as [|fuel IH]; intros p Hp Ho Hw; [lia|]. cbn [settle_rounds].
  apply ok_bind. eapply ok_mono; [by apply ok_handle_pending|]. cbn beta. intros again p1 (Hp1 & Hd & Hpost).
  destruct again; [|by subst; apply ok_ret]. destruct Hpost as [Hlt Hrw].
  eapply ok_mono; [apply IH; [done|by eapply outputs_drained|lia]|].
  cbn beta. intros _ p2 (? & ? & ->). split_and!; try done. apply Hd.
Qed.

Lemma ok_settle o0 p kept :
  pump_ok p -> outputs o0 p kept ->
  ok careful (settle env) p (fun _ p' => pump_ok p' /\ outputs o0 p' kept /\ remote_output p' = remote_output p).
Proof. intros Hp Ho. apply ok_settle_rounds; [done..|]. pose proof (waiting_bound p). lia. Qed.

(** A step that changes neither the interaction's phase nor what waits. *)
Lemma pump_ok_frame p p' :
  pump_ok p ->
  control (ui (session p')) = control (ui (session p)) -> flow (ui (session p')) = flow (ui (session p)) ->
  direction (ui (session p')) = direction (ui (session p)) ->
  output_ok (terminal_output (session p')) ->
  (flow (ui (session p)) = None -> no_delay (session p) -> no_delay (session p')) ->
  (in_transfer p' <-> in_transfer p) -> local_input p' = local_input p ->
  pending_local_input p' = pending_local_input p -> pump_ok p'.
Proof.
  intros [[Hu1 Hu2] Hf Ht Hi Hp] E1 E2 E3 E4 E5 E6 E7 E8. constructor.
  - constructor; [by rewrite E1, E2, E3|done].
  - intros Hn. rewrite E2 in Hn. by apply E5, Hf.
  - rewrite E6, E1, E2, E3. exact Ht.
  - rewrite E7. intros pr Hpr. destruct (Hi pr Hpr) as (? & ? & ?).
    unfold has_phase, may_start in *. rewrite E1, E2, E6. done.
  - rewrite E8. intros pr Hpr. destruct (Hp pr Hpr) as (? & ? & Hl).
    unfold has_phase, may_start in *. rewrite E1, E2, E6, E7. done.
Qed.

Definition listed {A} (o : option A) : list A := match o with Some x => [x] | None => [] end.

Definition reads (e : PumpEvent) : list (list Z) :=
  match e with RemoteOutputRead chunk => [chunk] | _ => [] end.

(** The chunks of [seq] are kept, or some that did not fit are not. *)
Definition accounted (seq seq' : list (list Z)) : Prop :=
  seq' `sublist_of` seq /\ (zlen (concat seq) <= DELAYED_OUTPUT_CAP -> seq' = seq).

Lemma accounted_refl seq : accounted seq seq.
Proof. by split. Qed.

Lemma delayed_kept o0 p kept :
  outputs o0 p kept -> zlen (delayed_bytes (delayed (ui (session p)))) <= zlen (concat kept).
Proof. intros (shown & _ & <- & _). rewrite zlen_app. pose proof (zlen_nonneg (concat shown)). lia. Qed.

Lemma ok_accept_output o0 chunk p kept :
  pump_ok p -> outputs o0 p kept -> remote_write p = None -> remote_output p = None ->
  ok careful (accept_output chunk) p (fun _ p' => pump_ok p' /\ remote_output p' = None /\
    exists kept', outputs o0 p' kept' /\ accounted (kept ++ [chunk]) kept').
Proof.
  intros Hp Ho Hrw Hro. unfold accept_output. apply ok_bind, ok_gets.
  destruct (flow (ui (session p))) as [f|] eqn:Hf.
  - apply ok_on_session, ok_bind, ok_gets.
    destruct (append (delayed (ui (session p))) chunk) as [outcome d] eqn:Ha. apply ok_bind, ok_modify.
    assert (outcome = AppendOk /\ capacity d = capacity (delayed (ui (session p))) /\
              delayed_bytes d = delayed_bytes (delayed (ui (session p))) ++ chunk \/
            outcome = Overflow /\ d = delayed (ui (session p)) /\
              DELAYED_OUTPUT_CAP < zlen (concat (kept ++ [chunk]))) as Hcase.
    { pose proof (delayed_kept _ _ _ Ho) as Hk. destruct Ho as (shown & _ & _ & Hcap & _).
      rewrite concat_app, zlen_app. cbn [concat]. rewrite app_nil_r.
      unfold append, checked_add_u64 in Ha. rewrite Hcap in Ha. pose proof (zlen_nonneg chunk).
      destruct (Z.ltb_spec (zlen (delayed_bytes (delayed (ui (session p)))) + zlen chunk) (2 ^ 64)) as [Hlt|Hge].
      - destruct (Z.ltb_spec DELAYED_OUTPUT_CAP (zlen (delayed_bytes (delayed (ui (session p)))) + zlen chunk));
          simplify_eq; [right|left]; split_and!; try done; lia.
      - simplify_eq. right. split_and!; try done.
        assert (DELAYED_OUTPUT_CAP < 2 ^ 64) by reflexivity. lia. }
    assert (forall p', terminal_output (session p') = terminal_output (session p) ->
      displayed (session p') = displayed (session p) -> delayed (ui (session p')) = d ->
      remote_write p' = remote_write p -> exists kept', outputs o0 p' kept' /\ accounted (kept ++ [chunk]) kept') as Hout.
    { intros p' H1 H2 H3 H4. destruct Hcase as [(-> & Hc & Hb)|(-> & -> & Hbig)].
      - exists (kept ++ [chunk]). split; [|apply accounted_refl]. destruct Ho as (shown & S1 & S2 & S3 & _).
        exists shown. rewrite H1, H2, H3, H4, Hb, Hc. split_and!; [done| |done|by right].
        rewrite concat_app, app_assoc, S2. cbn. by rewrite app_nil_r.
      - exists kept. split; [apply (outputs_same o0 p); auto|]. split; [by apply sublist_inserts_r|lia]. }
    assert (forall b, pump_ok (with_session p (with_ui (session p) (set_overflow (set_delayed (ui (session p)) d) b)))) as Hpo.
    { intros b. eapply pump_ok_frame; [exact Hp|done..|apply Hp|by rewrite Hf|done|done|done]. }
    destruct outcome.
    + apply ok_ret. split_and!; [|done|by apply Hout].
      specialize (Hpo (delayed_overflow (ui (session p)))). by destruct p, session, ui.
    + apply ok_modify. split_and!; [apply Hpo|done|by apply Hout].
  - apply ok_bind, ok_gets, ok_bind, ok_on_session.
    pose proof (uo_output _ _ (po_ui _ Hp)) as Hout.
    destruct (prepare_output_ok (terminal_output (session p)) chunk Hout) as (o' & d & Hprep & Ho').
    apply ok_total; [|by eexists]. intros [o1 d1] Heq. rewrite Hprep in Heq. injection Heq as <- <-.
    apply ok_bind, ok_on_session, ok_modify, ok_modify. split_and!.
    + eapply pump_ok_frame; [exact Hp|done..].
    + done.
    + exists (kept ++ [chunk]). split; [|apply accounted_refl].
      destruct Ho as (shown & S1 & S2 & S3 & _). exists (shown ++ [chunk]).
      pose proof (po_flushed _ Hp Hf) as Hnd. unfold no_delay in Hnd. rewrite Hrw, Hnd in *.
      cbn [default] in S1. rewrite !app_nil_r in *. cbn. rewrite prepare_chunks_app, S1. cbn [mbind res_bind].
      cbn [prepare_chunks]. rewrite Hprep. cbn [mbind res_bind]. rewrite app_nil_r.
      split_and!; [done| |done|by left]. rewrite Hnd, app_nil_r, !concat_app, S2. done.
Qed.

Definition event_post (o0 : RemoteTerminalOutput) (p : Pump) (e : PumpEvent) (kept : list (list Z)) (p' : Pump) : Prop :=
  pump_ok p' /\ exists kept', outputs o0 p' kept' /\
    accounted (kept ++ listed (remote_output p) ++ reads e) (kept' ++ listed (remote_output p')).

(** A step that does not touch the output. *)
Lemma event_post_same o0 p e kept p' :
  pump_ok p' -> outputs o0 p kept ->
  terminal_output (session p') = terminal_output (session p) ->
  displayed (session p') = displayed (session p) -> delayed (ui (session p')) = delayed (ui (session p)) ->
  remote_write p' = remote_write p -> remote_output p' = remote_output p -> reads e = [] ->
  event_post o0 p e kept p'.
Proof.
  intros Hp Ho H1 H2 H3 H4 H5 H6. split; [done|]. exists kept.
  split; [apply (outputs_same o0 p); auto|]. rewrite H5, H6, app_nil_r. apply accounted_refl.
Qed.

Lemma read_keys_ok p chunk :
  pump_ok p -> local_input p = None -> zlen chunk <= INPUT_CAPACITY -> bytes chunk ->
  (careful -> Forall ascii chunk) ->
  exists c r, process (E:=unit) (control (ui (session p))) chunk = Ok (c, r) /\
    pump_ok (with_local_input (with_session p (with_ui (session p) (set_control (ui (session p)) c))) (Some r)).
Proof.
  intros Hp Hli Hl Hb Ha.
  destruct (process_ok (E:=unit) (fun z => is_u8 z /\ (careful -> ascii z)) (control (ui (session p))) chunk Hl)
    as (c & r & Hproc & [Hin Hstart Hmod] & Hpath & Hrem).
  { rewrite Forall_forall in Hb |- *. intros z Hz. split; [by apply Hb|]. intros Hc.
    specialize (Ha Hc). rewrite Forall_forall in Ha. by apply Ha. }
  exists c, r. split; [done|]. pose proof Hp as [[Hu1 Hu2] Hf Ht Hi Hpe].
  assert (forall l, Forall (fun z => is_u8 z /\ (careful -> ascii z)) l ->
    bytes l /\ (careful -> Forall ascii l)) as Hsplit.
  { intros l Hall. split; [|intros Hc]; (eapply Forall_impl; [exact Hall|]); intros z [? ?]; auto. }
  destruct (Hsplit _ Hpath) as [? ?], (Hsplit _ Hrem) as [? ?].
  constructor; cbn.
  - constructor; [|done]. cbn. intros f Hfl. destruct (Hu1 f Hfl) as (? & ? & Hat). split_and!; try done.
    destruct Hmod as [[Em Ee]|?]; [|unfold at_prompt; rewrite Em, Ee; exact Hat|by right].
    destruct Hat as [[Em | Em]|?]; [left; rewrite Em; by eexists..|by right].
  - done.
  - intros Hint. destruct (Ht Hint) as (? & ? & Hph). split_and!; try done.
    destruct Hmod as [[-> ->]|?]; [done|done|by right].
  - intros pr [= <-]. split_and!; [split_and!; auto|exact Hin|]. intros Hs.
    destruct (Hstart Hs) as (Hn & Hne & _ & Hat). split_and!; [done| |].
    + destruct (flow (ui (session p))) eqn:Hfl; [|done]. destruct (Hu1 _ eq_refl) as (_ & _ & [[?|?]|?]); congruence.
    + intros Hint. destruct (Ht Hint) as (_ & _ & [[? ?]|?]); congruence.
  - intros pr Hpr. destruct (Hpe pr Hpr) as (? & ? & _). by split_and!.
Qed.

Lemma processed_ok p pr :
  pump_ok p -> local_input p = Some pr -> pump_ok (with_pending_input (with_local_input p None) (Some pr)).
Proof.
  intros Hp Hli. destruct (po_input _ Hp pr Hli) as (Hc & Hph & Hms). destruct Hp as [Hu Hf Ht _ _].
  constructor; try done. cbn. intros pr' [= <-]. split_and!; [done|by intros Hs; apply Hms|].
  intros _. by split; [intros _|].
Qed.

Lemma processed_running p pr :
  pump_ok p -> local_input p = Some pr -> is_Some (transfer (session p)) ->
  pump_ok (with_local_input p None).
Proof.
  intros Hp Hli Hrun. pose proof Hp as [Hu Hf Ht _ Hpe]. constructor; try done.
  cbn. intros pr' Hpr'. destruct (Hpe pr' Hpr') as (? & Hns & _). split_and!; [done..|]. intros _.
  destruct (Ht ltac:(by left)) as (Hfl & _). split; [done|]. intros Hs. exfalso. apply (Hns Hs). by left.
Qed.

Lemma pump_ok_session_quiet p s :
  pump_ok p -> quiet (session p) s -> pump_ok (with_session p s).
Proof.
  intros Hp [Hu Ho Hc Ht _]. eapply pump_ok_frame; [exact Hp|..]; cbn; rewrite ?Hu, ?Ho; try done.
  - apply Hp.
  - unfold no_delay. by rewrite Hu.
  - unfold in_transfer. cbn. by rewrite Ht.
Qed.

Lemma ok_handle_event o0 e p kept :
  polled p e = true -> event_ok e -> (careful -> ascii_event e) -> pump_ok p -> outputs o0 p kept ->
  ok careful (handle_event env e) p (fun _ p' => event_post o0 p e kept p').
Proof.
  intros Hpoll Hev Hasc Hp Ho. destruct e as [[chunk|]| |chunk| | |outcome| |busy|code|err]; cbn [handle_event].
  - cbn in Hpoll. rewrite !andb_true_iff in Hpoll. destruct Hpoll as [[[_ _] Hli] _].
    assert (local_input p = None) as Hli' by (by destruct (local_input p)). destruct Hev as [Hl Hb].
    destruct (read_keys_ok p chunk Hp Hli' Hl Hb Hasc) as (c & r & Hproc & Hp').
    apply ok_bind, ok_gets, ok_bind, ok_on_session, ok_total; [|by eexists].
    intros [c1 r1] Heq. rewrite Hproc in Heq. injection Heq as <- <-.
    apply ok_bind, ok_on_session, ok_modify, ok_modify.
    by apply event_post_same.
  - apply ok_bind, ok_on_session, ok_modify, ok_bind, ok_on_session, ok_modify, ok_modify.
    apply event_post_same; try done. eapply pump_ok_frame; [exact Hp|done..| |done|done|done|done]. apply Hp.
  - cbn in Hpoll. apply andb_true_iff in Hpoll as [Hli _].
    destruct (local_input p) as [pr|] eqn:Hpr; [|done].
    apply ok_bind, ok_gets. rewrite Hpr. apply ok_bind, ok_on_session, ok_total; [|by eexists].
    intros pr' [= <-]. apply ok_bind, ok_modify, ok_bind, ok_on_session, ok_forward. intros s' Hq.
    apply ok_bind, ok_gets. cbn. cbn in Hq.
    destruct (bool_decide _ && is_some (transfer s')) eqn:Hb.
    + apply andb_true_iff in Hb as [_ Hrun]. rewrite (qt_transfer _ _ Hq) in Hrun.
      assert (is_Some (transfer (session p))) as Hsome by (destruct (transfer (session p)); [by eexists|done]).
      pose proof (pump_ok_session_quiet _ _ (processed_running p pr Hp Hpr Hsome) Hq) as Hpq.
      destruct (audit env).
      * apply ok_modify, event_post_same; cbn; rewrite ?(qt_output _ _ Hq), ?(qt_displayed _ _ Hq), ?(qt_ui _ _ Hq); try done.
        eapply pump_ok_frame; [exact Hpq|done..| |done|done|done|done]. apply Hpq.
      * apply ok_on_session, ok_modify, event_post_same; cbn; rewrite ?(qt_output _ _ Hq), ?(qt_displayed _ _ Hq), ?(qt_ui _ _ Hq); try done; [|by rewrite <- (qt_displayed _ _ Hq)].
        eapply pump_ok_frame; [exact Hpq|done..| |done|done|done|done]. apply Hpq.
    + apply ok_modify, event_post_same; cbn; rewrite ?(qt_output _ _ Hq), ?(qt_displayed _ _ Hq), ?(qt_ui _ _ Hq); try done.
      apply (pump_ok_session_quiet _ s' (processed_ok p pr Hp Hpr)). exact Hq.
  - cbn in Hpoll. apply andb_true_iff in Hpoll as [Hro Hrw].
    assert (remote_output p = None) as Hro' by (by destruct (remote_output p)).
    assert (remote_write p = None) as Hrw' by (by destruct (remote_write p)).
    destruct (audit env).
    + apply ok_modify. split; [eapply pump_ok_frame; [exact Hp|done..| |done|done|done|done]; apply Hp|].
      exists kept. split; [apply (outputs_same o0 p); auto|]. rewrite Hro'. cbn. apply accounted_refl.
    + eapply ok_mono; [by apply ok_accept_output|]. cbn beta. intros _ p' (? & Hro2 & kept' & ? & ?).
      split; [done|]. exists kept'. split; [done|]. rewrite Hro', Hro2. cbn. by rewrite app_nil_r.
  - cbn in Hpoll. destruct (remote_output p) as [chunk|] eqn:Hro; [|done].
    apply ok_bind, ok_gets. rewrite Hro. apply ok_bind, ok_on_session, ok_total; [|by eexists].
    intros chunk' [= <-]. apply ok_bind, ok_modify, ok_bind, ok_on_session, ok_observed; [done|]. intros s' Hq. cbn in Hq.
    destruct Ho as (shown & S1 & S2 & S3 & S4). rewrite Hro in S4. destruct S4 as [?|Hrw]; [done|].
    eapply ok_mono; [apply (ok_accept_output o0 chunk _ kept)|].
    + apply pump_ok_session_quiet; [|exact Hq]. eapply pump_ok_frame; [exact Hp|done..| |done|done|done|done]. apply Hp.
    + exists shown. cbn. rewrite (qt_output _ _ Hq), (qt_displayed _ _ Hq), (qt_ui _ _ Hq). split_and!; auto.
    + done.
    + done.
    + cbn beta. intros _ p' (? & Hro2 & kept' & ? & ?).
      split; [done|]. exists kept'. split; [done|]. rewrite Hro, Hro2. cbn. by rewrite !app_nil_r.
  - cbn in Hpoll. destruct (remote_write p) as [d|] eqn:Hrw; [|done].
    apply ok_bind, ok_gets. rewrite Hrw. apply ok_bind, ok_on_session, ok_total; [|by eexists].
    intros d' [= <-]. apply ok_bind, ok_modify, ok_on_session, ok_display. cbn. intros s' Hu Hout Hc Ht Hd. split.
    + eapply pump_ok_frame; [exact Hp|..]; cbn; rewrite ?Hu, ?Hout; try done.
      * apply Hp.
      * unfold no_delay. by rewrite Hu.
      * unfold in_transfer. cbn. by rewrite Ht.
    + exists kept. cbn. rewrite app_nil_r. split; [|apply accounted_refl].
      destruct Ho as (shown & S1 & S2 & S3 & _). exists shown. cbn. rewrite Hrw in S1. cbn in S1.
      rewrite Hu, Hout, Hd, app_nil_r. split_and!; auto.
  - cbn in Hpoll. apply andb_true_iff in Hpoll as [Hrun _].
    assert (is_Some (transfer (session p))) as Hsome by (destruct (transfer (session p)); [by eexists|done]).
    apply ok_bind, ok_on_session, ok_modify, ok_modify, event_post_same; try done.
    eapply pump_ok_frame; [exact Hp|done..| |done| |done|done]; [apply Hp|].
    unfold in_transfer. cbn. split; [by left|]. intros _. right. by eexists.
  - apply ok_bind, ok_modify, ok_bind, ok_on_session, ok_observed; [done|]. intros s' Hq. cbn in Hq.
    apply ok_on_session, ok_modify, event_post_same; cbn;
      rewrite ?(qt_output _ _ Hq), ?(qt_ui _ _ Hq); try done; [|by rewrite <- (qt_displayed _ _ Hq)].
    eapply pump_ok_frame; [apply (pump_ok_session_quiet p s' Hp Hq)|done..| |done|done|done|done].
    cbn. rewrite (qt_output _ _ Hq). apply Hp.
  - apply ok_modify, event_post_same; try done. eapply pump_ok_frame; [exact Hp|done..| |done|done|done|done]. apply Hp.
  - apply ok_modify, event_post_same; try done. eapply pump_ok_frame; [exact Hp|done..| |done|done|done|done]. apply Hp.
  - apply ok_throw.
Qed.

Lemma accounted_step a b c r : accounted a b -> accounted (b ++ c) r -> accounted (a ++ c) r.
Proof.
  intros [H1 E1] [H2 E2]. split.
  - etrans; [exact H2|]. by apply sublist_app.
  - intros Hs. rewrite concat_app, zlen_app in Hs.
    pose proof (zlen_nonneg (concat a)). pose proof (zlen_nonneg (concat c)).
    rewrite <- E1 by lia. apply E2. rewrite (E1 ltac:(lia)), concat_app, zlen_app. lia.
Qed.

(** One round of the loop. *)
Lemma run_pump_round events p :
  run_pump env events p =
  match settle env p with
  | (Ok _, p1) =>
    match finished_code p1, events with
    | Some code, _ => (Ok (Some code), p1)
    | None, [] => (Ok None, p1)
    | None, e :: rest =>
      if polled p1 e
      then match handle_event env e p1 with
           | (Ok _, p2) => run_pump env rest p2
           | (Err err, p2) => (Err err, p2)
           | (Panic, p2) => (Panic, p2)
           end
      else run_pump env rest p1
    end
  | (Err err, p1) => (Err err, p1)
  | (Panic, p1) => (Panic, p1)
  end.
Proof.
  destruct events as [|e rest]; cbn [run_pump]; unfold mbind, stm_bind, gets, id;
    destruct (settle env p) as [[[]|?|] p1]; try done; destruct (finished_code p1); try done.
  destruct (polled p1 e); [|done]. by destruct (handle_event env e p1) as [[[]|?|] p2].
Qed.

Lemma chunks_read_round events p :
  chunks_read env events p =
  match settle env p with
  | (Ok _, p1) =>
    match finished_code p1, events with
    | Some _, _ | None, [] => []
    | None, e :: rest =>
      if polled p1 e
      then reads e ++ match handle_event env e p1 with (Ok _, p2) => chunks_read env rest p2 | _ => [] end
      else chunks_read env rest p1
    end
  | _ => []
  end.
Proof. by destruct events. Qed.

(** The chunks read from [p] on extend those accounted for before. *)
Lemma ok_run_pump o0 events p kept before :
  Forall event_ok events -> (careful -> Forall ascii_event events) -> pump_ok p -> outputs o0 p kept ->
  accounted before (kept ++ listed (remote_output p)) ->
  ok careful (run_pump env events) p (fun _ p' => pump_ok p' /\ exists kept', outputs o0 p' kept' /\
    accounted (before ++ chunks_read env events p) (kept' ++ listed (remote_output p'))).
Proof.
  intros Hev. revert p kept before. induction Hev as [|e events He Hev IH]; intros p kept before Hasc Hp Ho Hacc;
    unfold ok; rewrite run_pump_round, chunks_read_round;
    pose proof (ok_settle o0 p kept Hp Ho) as Hs; unfold ok in Hs;
    destruct (settle env p) as [[[]|?|] p1]; try done; destruct Hs as (Hp1 & Ho1 & Hro); rewrite <- Hro in Hacc.
  - destruct (finished_code p1); rewrite app_nil_r; eauto.
  - destruct (finished_code p1); [rewrite app_nil_r; eauto|].
    assert (careful -> ascii_event e /\ Forall ascii_event events) as Hasc2.
    { intros Hc. specialize (Hasc Hc). by apply Forall_cons_1 in Hasc. }
    assert (careful -> Forall ascii_event events) as Hrest by (intros Hc; by apply Hasc2).
    destruct (polled p1 e) eqn:Hpoll; [|by apply (IH p1 kept)].
    pose proof (ok_handle_event o0 e p1 kept Hpoll He (fun Hc => proj1 (Hasc2 Hc)) Hp1 Ho1) as Hh.
    unfold ok in Hh. destruct (handle_event env e p1) as [[[]|?|] p2]; [|done..].
    destruct Hh as (Hp2 & kept2 & Ho2 & Hacc2). rewrite app_assoc.
    apply (IH p2 kept2); try done. eapply accounted_step; [exact Hacc|]. by rewrite <- app_assoc.
Qed.
End Pump.

Lemma new_pump_ok careful mode interactive to_display terminal :
  pump_ok careful (new_pump mode interactive to_display terminal) /\
  outputs (new_terminal_output mode) (new_pump mode interactive to_display terminal) [].
Proof.
  split.
  - constructor; try done; [constructor; [done|by intros _; exists (zeros 4)]|].
    intros [[? ?]|[? ?]]; done.
  - exists []. cbn. split_and!; try done. by left.
Qed.

(** C8: a controller session run from its start, whatever the keystrokes (bytes,
    in chunks that the reader can deliver), the remote output, the order in which
    its branches become ready and the failures of its writes.  If the keystrokes
    are ASCII and no probe finds the file protocol unsupported, the loop never
    panics: no prompt completes without its first field, a transfer always has its
    direction, and handling what waits always stops.  And in every run that has not
    failed, what was written to the display as remote output, with the chunk on its
    way, is what the terminal adapter makes of some chunks [shown]; these and the
    delayed bytes are, in order, chunks that were read; no output is delayed unless
    a prompt is open; and none is lost while the output of the session fits in the
    delay buffer. *)
Theorem pump_session env mode interactive to_display terminal events :
  Forall event_ok events ->
  (Forall ascii_event events -> (forall n, opened env n <> OpenUnsupported) ->
   (run_pump env events (new_pump mode interactive to_display terminal)).1 <> Panic) /\
  (forall code p, run_pump env events (new_pump mode interactive to_display terminal) = (Ok code, p) ->
   exists shown kept,
     prepare_chunks (new_terminal_output mode) shown =
       Ok (terminal_output (session p), displayed (session p) ++ default [] (remote_write p)) /\
     concat shown ++ delayed_bytes (delayed (ui (session p))) = concat kept /\
     (flow (ui (session p)) = None -> delayed_bytes (delayed (ui (session p))) = []) /\
     kept ++ listed (remote_output p) `sublist_of`
       chunks_read env events (new_pump mode interactive to_display terminal) /\
     (zlen (concat (chunks_read env events (new_pump mode interactive to_display terminal))) <= DELAYED_OUTPUT_CAP ->
      kept ++ listed (remote_output p) =
        chunks_read env events (new_pump mode interactive to_display terminal))).
Proof.
  intros Hev. split.
  - intros Hasc Hprobe. destruct (new_pump_ok True mode interactive to_display terminal) as [Hp Ho].
    pose proof (ok_run_pump env True (fun _ => Hprobe) _ events _ [] [] Hev (fun _ => Hasc) Hp Ho (accounted_refl [])) as H.
    unfold ok in H. destruct (run_pump _ _ _) as [[?|?|] p']; [done..|]. exfalso. by apply H.
  - intros code p Hrun. destruct (new_pump_ok False mode interactive to_display terminal) as [Hp Ho].
    pose proof (ok_run_pump env False (False_ind _) _ events _ [] [] Hev (False_ind _) Hp Ho (accounted_refl [])) as H.
    unfold ok in H. rewrite Hrun in H. destruct H as (Hpo & kept & (shown & S1 & S2 & _) & Hsub & Hall).
    exists shown, kept. split_and!; try done. apply (po_flushed _ _ Hpo).
Qed.

(** ** Runs

    A complete upload, which instantiates the theorem, and the runs in which the source does not
    do what its comments say. *)

Open Scope string_scope.
Open Scope list_scope.
Open Scope Z_scope.

(** No audit, a base directory, no failing write, and a peer that supports the
    protocol. *)
Definition quiet_env : Env :=
  {| audit := false; base := true; fault := fun _ => None; opened := fun _ => Opened;
     source_refused := fun _ => None; observer_failed := fun _ => false |}.

Definition old_peer_env : Env :=
  {| audit := false; base := true; fault := fun _ => None; opened := fun _ => OpenUnsupported;
     source_refused := fun _ => None; observer_failed := fun _ => false |}.

Definition start_pump : Pump := new_pump Bytes true true true.

(** One chunk of keystrokes, read and forwarded. *)
Definition keys (chunk : list Z) : list PumpEvent := [LocalInputRead (Some chunk); LocalInputProcessed].

(** A chunk of remote output, read and displayed. *)
Definition output (chunk : list Z) : list PumpEvent := [RemoteOutputRead chunk; RemoteOutputWritten].

Definition ESC_UPLOAD : list Z := [LOCAL_ESCAPE; 0x75].
Definition ENTER : list Z := [0x0d].

(** [ls] is typed and answered, [a] is uploaded to the default directory while
    the remote side prints [b], and the shell exits with code 0. *)
Definition upload_session : list PumpEvent :=
  keys (str "ls" ++ ENTER) ++ output (str "out") ++
  keys ESC_UPLOAD ++ keys (str "a") ++ [RemoteOutputRead (str "b")] ++ keys ENTER ++ keys ENTER ++
  [TransferFinished (TCommitted 7); RemoteCompleted 0].

(** What a run comes to: its result, the armed transfer and the display. *)
Definition run_view (env : Env) (events : list PumpEvent) (p : Pump) :=
  let r := run_pump env events p in
  (fst r, transfer (session (snd r)), displayed (session (snd r))).

Lemma upload_session_runs : run_view quiet_env upload_session start_pump = (Ok (Some 0), None, str "outb").
Proof. vm_compute. reflexivity. Qed.

Lemma pump_session_witness :
  Forall event_ok upload_session /\ Forall ascii_event upload_session /\
  (run_pump quiet_env upload_session start_pump).1 <> Panic /\
  exists code p shown kept, run_pump quiet_env upload_session start_pump = (Ok code, p) /\
    prepare_chunks (new_terminal_output Bytes) shown =
      Ok (terminal_output (session p), displayed (session p) ++ default [] (remote_write p)) /\
    kept ++ listed (remote_output p) = [str "out"; str "b"].
Proof.
  assert (Forall event_ok upload_session) as Hev.
  { repeat constructor; cbn; try discriminate. }
  assert (Forall ascii_event upload_session) as Hasc.
  { repeat constructor; cbn; try discriminate. }
  destruct (pump_session quiet_env Bytes true true true upload_session Hev) as [Hsafe Hout].
  split; [exact Hev|]. split; [exact Hasc|].
  split; [apply Hsafe; [exact Hasc|discriminate]|].
  destruct (run_pump quiet_env upload_session start_pump) as [[code|?|] p] eqn:Hrun.
  - destruct (Hout code p Hrun) as (shown & kept & H1 & _ & _ & _ & H5).
    exists code, p, shown, kept. split; [reflexivity|]. split; [exact H1|].
    apply H5. vm_compute. discriminate.
  - exfalso. vm_compute in Hrun. discriminate Hrun.
  - exfalso. vm_compute in Hrun. discriminate Hrun.
Defined.

(** ** Where the source departs from its documentation *)

(** The echo slices the echoed line at the end of the common bytes, which may be
    inside a character: erasing [é] and typing [è] in one read panics. *)
Lemma echo_inside_character_panics :
  (run_pump quiet_env (keys ESC_UPLOAD ++ keys [0xc3; 0xa9] ++ keys [0x7f; 0xc3; 0xa8]) start_pump).1 = Panic.
Proof. vm_compute. reflexivity. Qed.

(** A peer without the protocol: the first probe finds that out and the debug
    assertion after it fails; without debug assertions the prompt opens. *)
Lemma probe_unsupported_panics : (run_pump old_peer_env (keys ESC_UPLOAD) start_pump).1 = Panic.
Proof. vm_compute. reflexivity. Qed.

(** The bytes that follow the selector in its read never reach the prompt. *)
Lemma selector_remainder_dropped :
  match run_pump quiet_env (keys (ESC_UPLOAD ++ str "a")) start_pump with
  | (Ok _, p) => flow_line <$> flow (ui (session p))
  | _ => None
  end = Some [].
Proof. vm_compute. reflexivity. Qed.

Definition start_upload (path : list Z) : list PumpEvent :=
  keys ESC_UPLOAD ++ keys (path ++ ENTER) ++ keys ENTER.

(** The detach sequence typed during a transfer waits for its end, and a later
    keystroke replaces it: the session goes on, and its input is dead. *)
Lemma detach_lost_during_transfer :
  match run_pump quiet_env
          (start_upload (str "a") ++ keys [LOCAL_ESCAPE; 0x2e] ++ keys ENTER ++
           [TransferFinished (TCommitted 7)] ++ keys [LOCAL_ESCAPE; 0x2e] ++ keys (str "ls")) start_pump with
  | (Ok code, p) => Some (code, ended (control (ui (session p))), pending_local_input p)
  | _ => None
  end = Some (None, true, None).
Proof. vm_compute. reflexivity. Qed.

(** A chunk that is read while an owner is busy replaces the one that waits: of
    [a] and [b] typed into a prompt during an audit step, [a] is lost. *)
Lemma waiting_input_replaced :
  match run_pump quiet_env
          (keys ESC_UPLOAD ++ [OtherOwner true] ++ keys (str "a") ++ keys (str "b") ++ [OtherOwner false])
          start_pump with
  | (Ok _, p) => flow_line <$> flow (ui (session p))
  | _ => None
  end = Some (str "b").
Proof. vm_compute. reflexivity. Qed.

(** [Ctrl+C] in the read that completes the prompt cancels this transfer and, the
    flag not being cleared, the next one. *)
Definition is_cancelled_line (e : UiEvent) : bool :=
  match e with LocalUi _ l => bool_decide (l = str "upload cancelled") | _ => false end.

Lemma cancel_flag_sticks :
  match run_pump quiet_env
          (keys ESC_UPLOAD ++ keys (str "a" ++ ENTER) ++ keys (ENTER ++ [CANCEL_BYTE]) ++
           start_upload (str "b")) start_pump with
  | (Ok _, p) =>
    Some (transfer (session p), cancel (session p),
          length (List.filter is_cancelled_line (trace (session p))))
  | _ => None
  end = Some (None, true, 2%nat).
Proof. vm_compute. reflexivity. Qed.

(** The exit that completes during a transfer is forgotten when the transfer ends. *)
Lemma completion_lost_in_transfer :
  match run_pump quiet_env
          (start_upload (str "a") ++ [RemoteCompleted 0; TransferFinished (TCommitted 7)]) start_pump with
  | (Ok code, p) => Some (code, pending_completion p, completed_code p)
  | _ => None
  end = Some (None, None, None).
Proof. vm_compute. reflexivity. Qed.

(** The echo goes to the output even when the local interface does not share it. *)
Lemma echo_on_redirected_output :
  match run_pump quiet_env (keys ESC_UPLOAD ++ keys (str "a")) (new_pump Bytes true false true) with
  | (Ok _, p) => trace (session p)
  | _ => []
  end = [LocalUi false CRLF; LocalUi false PROMPT_BANNER_UPLOAD; LocalUi false CRLF;
         LocalUi false PROMPT_UPLOAD_SOURCE; Echo (str "a"); EchoFlush].
Proof. vm_compute. reflexivity. Qed.
